(* ===== verification/_CoqProject ===== *)
-Q . S2P
Prelude.v
Words.v
CList.v
CString.v
Printf.v
Format.v
RingBuff.v
Term.v
Screen.v
Tty.v
Timer.v
Mmu.v
Mm.v
Buddy.v
PageAlloc.v
Boot.v
Cache.v
Kmalloc.v
UserMem.v
Sync.v
Ufd.v
Sched.v
Schedule.v
SysProc.v
Net.v
Arp.v
Tcp.v
TcpStream.v
TcpOpen.v
Inet.v
Sock.v
Fs.v
Ramfs.v
Vfs.v
SysFile.v
Exec.v
Disk.v
Ide.v
