(* ===== verification/Prelude.v ===== *)
(** * A verification of the k-os kernel

    k-os is a kernel for 32-bit x86 written in C (kernel/, with a user library under
    libk/ and programs under apps/).  This library models the kernel's own logic:
    memory management, synchronisation, scheduling, file systems and open files, networking, time, the text
    console and the data structures and library code they are built on.  Every definition is a translation of the C text and is
    executable; the theorems are about those definitions.

    ** How C becomes Rocq

    An integer of [w] bits is a [Z], wrapped ([uwrap], [swrap]) wherever the C expression is
    converted to its type.  Code with effects is a function in the monad [M S] of this file:
    it returns a value and a state, or stops in one of three ways, [Panic] (a [BUG_ON] or
    [panic] was reached), [Fault] (memory outside an object, or never initialised, was used)
    or [NoFuel] (the code does not return: a loop ran longer than its bound, or a spinlock
    that is already held was taken).  [runs m s Q] says that [m], started in [s], returns
    normally in a result and state related by [Q], so it excludes all three.

    The list code itself is verified at the level of pointers ([CList]) and the allocators
    use it there.  The components above the allocators keep a list as the sequence of its
    entries; an operation that would follow or write a stale link is then a [Fault].  Structures
    allocated with [kmalloc] get fresh addresses, and what fresh memory holds is an argument
    wherever the code does not set it.  A spinlock is a flag outside [Sync]: taking one that is
    held never returns.  In [Sync] it is the ticket lock, under every interleaving of
    the processors' atomic steps.

    Loops with no structural bound carry fuel, and the theorems prove it is enough: 257 rounds for
    [trim_block] and 12 for [ripple_join] (eleven orders), 33 rounds for [free_pages]'s split of a 32-bit
    count into blocks, 513 for [__ufdt_find_next] (512 descriptors and the end), 3 for the folding of a
    checksum, 65 for the division, 34 for the digits of a number, 129 for an escape sequence's 128 bytes, 26 and 81 for
    erasing a screen of 25 rows of 80, 8 for a tab, 257 for a GPT table and for the sectors of a transfer, 513 for the descriptors of one by DMA, a drive's patience for a busy drive, 4 for a partition number's digits, one round for each page of a segment and three more, 257 for the line of a script, 7 for nested loads;
    [getcwd]'s is a bound on the depth of the directory.  [sleep]'s is a bound on the clock.  String loops take the bound as an argument.

    ** The files

    - [Prelude] (this file): integers, the monad and its rules [mstep], arrays as functions, locks.
    - [Words]: kernel/inc/common/swap.h, math.h, hash.h, types.h, kernel/inc/arch/math.h,
      kernel/src/lib/math.c and rand.c.  Byte order, rounding, logarithms, [__udivdi3] by shift and
      subtract, hashing, error pointers.
    - [CList]: kernel/inc/common/list.h and hashtable.h.  Module [ListRefine] refines any program of list operations to
      operations on sequences; chains and hash tables follow.
    - [CString]: kernel/src/lib/string.c over byte memory.
    - [Printf], [Format]: kernel/src/lib/printf.c, and the texts formats describe.
    - [RingBuff]: kernel/inc/common/ringbuff.h as a bounded queue.
    - [Term], [Screen]: kernel/src/driver/console/vram.c, and what the screen shows.
    - [Tty]: kernel/src/driver/console/keyboard.c, tty.c and console.c: from the keyboard's interrupt to the reader of the terminal.
    - [Timer]: kernel/src/time/clock.c and timer.c.
    - [Mmu]: kernel/inc/arch/mmu.h and kernel/src/arch/mmu.c, the kernel's mapping window and directories;
      [UserMem]: user page tables in memory and the copy of an address space that fork makes.
    - [Mm], [Buddy], [PageAlloc], [Boot]: kernel/src/mm/mm.c, kernel/inc/mm/mm.h and kernel/src/mm/module.c.  [Mm] has the definitions, [Buddy]
      the invariant (blocks tile memory, free lists are exact, no two free buddies) and the
      specifications of each step, [PageAlloc] the contract with clients and an abstract
      allocator it refines, [Boot] the discovery of free memory.
    - [Cache]: kernel/src/mm/cache.c, the slab allocator over the interface [PageSource] (a class of
      operations with their laws); [Kmalloc]: [kmalloc] and [kfree], and the page allocator as an instance of [PageSource].
    - [Sync]: kernel/src/arch/spinlock.c and kernel/src/sync/semaphore.c with their headers, as transition systems.
    - [Ufd]: kernel/src/fs/fd.c, the descriptor tables of kernel/src/sched/sched.c and dup, dup2 and close of syscall.c.
    - [Sched], [Schedule]: kernel/src/sched/sched.c (threads, tasks, sessions, signals, the switch) and the scheduler's invariant;
      [SysProc]: the calls of kernel/src/sched/syscall.c on tasks, groups and signals.
    - [Net]: kernel/src/net/packet.c, ip/checksum.h and the header builders of ip.c, udp.c, icmp.c and tcp.c.
    - [Arp]: kernel/src/net/ip/arp.c, kernel/src/net/eth/eth.c and [packet_send].
    - [Inet]: kernel/src/net/interface.c, the handlers of eth.c, ip.c, udp.c and icmp.c, dhcp.c and nbns.c: from a frame to the protocols, over [Arp] and [Tcp].
    - [Tcp], [TcpOpen], [TcpStream]: kernel/src/net/ip/tcp.c; how a connection is opened, and what it delivers.
    - [Sock]: kernel/src/net/socket.c, ip/af_inet.c and raw.c, the sockets of udp.c and icmp.c and the calls of kernel/src/sched/syscall.c on sockets, over [Tcp]
      and the descriptor tables of [Ufd].
    - [Fs]: kernel/src/fs/vfs.c, kernel/src/fs/type/ramfs.c and devfs.c, kernel/src/fs/rootramfs.c; [Ramfs] has the contents of
      files, [Vfs] the paths; [SysFile]: the calls of kernel/src/sched/syscall.c on files, directories and the working directory, over the
      descriptor tables and the file systems together.
    - [Disk]: kernel/src/fs/disk.c, subblock.c and the labels of label/msdos.c and gpt.c, over an interface of block devices.
    - [Ide]: kernel/src/driver/disk/ide.c, over an interface of port instructions.
    - [Exec]: kernel/src/fs/exec.c, binfmt.c, binfmt/binfmt_elf.c and binfmt_shebang.c, and execve: over the file calls and the user page tables.

    ** What is shown

    - The page allocator, as long as the 2^18 pages of the window its pages are mapped into, which are never given back, last:
      every client's sequence of allocations and frees runs without a bug check, a fault or an endless loop; extents handed out are disjoint; an allocation succeeds exactly when a
      large enough aligned run is free; frees coalesce completely and undo allocations; [mm_init]
      starts it with exactly the memory that is free, when no region of the memory map reaches the last page.
    - The slab allocator and [kmalloc]: an object handed out is apart from all in use, a free gives back exactly what was handed out,
      a failure means memory is exhausted (in the same window).
    - The ticket lock is mutually exclusive, refines a first-come-first-served queue lock, and
      makes progress; semaphores conserve permits (and a woken waiter can find its permit gone).
    - The scheduler: under every sequence of operations of several processors the run queue is exact,
      no thread runs on two processors and none runs after it died; what a switch, a wake and an exit do.
    - Address spaces: a mapping shows in the page tables and nowhere else; fork's copy has the parent's bytes in frames of its own.
    - Tasks: process groups stay exact under setpgid; waitpid reaps the latest zombie; sigaction's one number too many.
    - Descriptors: reference counts are exact, the lowest free descriptor is used, bad descriptors are
      rejected, except that dup2 can write outside the table.
    - The network: headers carry checksums that verify; a packet is sent to the right hardware address or waits for it, until an answer for
      waiting packets, which makes the code read freed memory, or a timeout, which makes it spin: the retries never happen; TCP
      delivers the peer's stream in order whatever the order of its segments, up to a page of data,
      beyond which it writes outside its buffer; the port table is a stack of free ports.  Within such a page a client that asks for a socket, connects and
      receives gets what its peer sends after the handshake; a socket is made for exactly the protocols there are, UDP's aside, which fault.
    - The way in: an echo request is answered, an interface gets its address from a server, name queries are answered; the
      options of a server's message read back as written, and hostile ones keep the parser inside them.
    - Files: looking a path up equals a walk over its segments through the mounted file systems; creation adds exactly
      one entry, which lookup then finds; a ram file behaves as a sequence of bytes with a position, but for
      reads that meet the end from an earlier chunk and seeks beyond the end or to a full last chunk's.
    - File system calls: open, read, write and seek by descriptor act on the file's bytes, with the same exceptions; getcwd names the working directory, and the
      name leads back to it.
    - Disks: partitions keep apart on any block device; the probes make the partitions the labels describe; the IDE driver reads exactly the
      sectors asked for, with any drive that keeps to the ATA protocol, writes them if the drive is not busy after the last one (it looks too soon
      otherwise), and its DMA descriptors cover exactly the buffer.
    - Programs: loading an ELF file whose headers are consistent makes memory what they say; other files, not empty, are refused and the old address space is back;
      arguments read back as given; scripts nest to a bounded depth.
    - The terminal: a reader gets exactly the characters typed, in order, whatever the order of interrupts and reads, as long as the rings
      have room, one reader waits at a time and the keyboard sends the codes the tables know.
    - [vsprintf] writes the text that a declarative reading of its format gives; [atoi] reads a printed number back.
    - The console: text appears from the cursor on, scrolling whole rows; bytes without cursor-down and cursor-forward sequences never
      take it off the screen, and those two can.
    - Time: a tick runs the timers that are due, in order; a new timer takes its place, except behind the last one;
      [sleep] returns.
    - The structures below: lists, chains, hash tables, ring buffers, strings, division, page tables.

    ** What is not modelled

    Device register access (the other drivers, interrupt controllers, ACPI, the boot code) has its effects in
    hardware; stacks, register contexts and the context switch itself belong to the architecture.
    Interrupts are not delivered inside a critical section, which is what the [irqsave] locks ensure on one processor;
    other processors are excluded by the locks, whose flags are part of the states.
    What a clock reads, what a timer's callback does and what the display controller answers are arguments.
    Statistics are dropped; [beep] is only an event, the timer and the speaker behind it are not followed.  The listening side of the socket calls is modelled but only the connecting side has theorems. *)

From stdpp Require Export base numbers list gmap functions sets.
From Stdlib Require Export ZArith Lia.

Open Scope Z_scope.

Declare Scope kos_scope.
Delimit Scope kos_scope with kos.
Open Scope kos_scope.

Create HintDb kos discriminated.
Create Rewrite HintDb kos.

(** ** Machine integers

    A C integer of [w] bits is a [Z]; the wrap-around of its type is written at
    every place where the C expression is converted to that type. *)

Definition uwrap (w z : Z) : Z := z mod 2 ^ w.
Definition swrap (w z : Z) : Z := (z + 2 ^ (w - 1)) mod 2 ^ w - 2 ^ (w - 1).

Abbreviation u8 := (uwrap 8).
Abbreviation u16 := (uwrap 16).
Abbreviation u32 := (uwrap 32).
Abbreviation u64 := (uwrap 64).
Abbreviation s8 := (swrap 8).
Abbreviation s16 := (swrap 16).
Abbreviation s32 := (swrap 32).
Abbreviation s64 := (swrap 64).

(** The C shifts and the bit test [x & m] used as a condition. *)
Notation "x <<< n" := (Z.shiftl x n) (at level 35, no associativity) : kos_scope.
Notation "x >>> n" := (Z.shiftr x n) (at level 35, no associativity) : kos_scope.

Definition has (x m : Z) : bool := negb (Z.land x m =? 0).

Lemma uwrap_range w z : 0 <= w -> 0 <= uwrap w z < 2 ^ w.
Proof. intros Hw. apply Z.mod_pos_bound, Z.pow_pos_nonneg; lia. Qed.

Lemma uwrap_small w z : 0 <= z < 2 ^ w -> uwrap w z = z.
Proof. intros H. by apply Z.mod_small. Qed.

Lemma uwrap_idemp w z : 0 <= w -> uwrap w (uwrap w z) = uwrap w z.
Proof. intros Hw. apply uwrap_small, uwrap_range, Hw. Qed.

Lemma uwrap_land w z : 0 <= w -> uwrap w z = Z.land z (Z.ones w).
Proof. intros Hw. unfold uwrap. by rewrite Z.land_ones. Qed.

Lemma swrap_small w z : 0 < w -> - 2 ^ (w - 1) <= z < 2 ^ (w - 1) -> swrap w z = z.
Proof.
  intros Hw H. unfold swrap.
  assert (2 ^ w = 2 * 2 ^ (w - 1)) as Hp.
  { rewrite <- Z.pow_succ_r by lia. f_equal. lia. }
  rewrite Z.mod_small by lia. lia.
Qed.

Lemma swrap_range w z : 0 < w -> - 2 ^ (w - 1) <= swrap w z < 2 ^ (w - 1).
Proof.
  intros Hw. unfold swrap.
  assert (2 ^ w = 2 * 2 ^ (w - 1)) as Hp.
  { rewrite <- Z.pow_succ_r by lia. f_equal. lia. }
  pose proof (Z.mod_pos_bound (z + 2 ^ (w - 1)) (2 ^ w)). lia.
Qed.

(** ** Outcomes and the state monad of the model

    [Panic] is what [BUG()], [BUG_ON()], [panic()] and [panicf()] do; [Fault] is
    an access the C program has no right to make (an uninitialised pointer, an
    index outside an array); [NoFuel] is a loop that did not end within the bound
    the model gave it. *)

Inductive outcome (A : Type) : Type :=
| Done (a : A)
| Panic
| Fault
| NoFuel.
Arguments Done {_} _.
Arguments Panic {_}.
Arguments Fault {_}.
Arguments NoFuel {_}.

Definition M (S A : Type) : Type := S -> outcome (A * S).

#[global] Instance M_ret S : MRet (M S) := fun A a s => Done (a, s).

#[global] Instance M_bind S : MBind (M S) := fun A B f m s =>
  match m s with
  | Done (a, s') => f a s'
  | Panic => Panic
  | Fault => Fault
  | NoFuel => NoFuel
  end.

Section Prims.
Context {S : Type}.

Definition get : M S S := fun s => Done (s, s).
Definition put (s' : S) : M S unit := fun _ => Done (tt, s').
Definition gets {A} (f : S -> A) : M S A := fun s => Done (f s, s).
Definition modify (f : S -> S) : M S unit := fun s => Done (tt, f s).
Definition panic {A} : M S A := fun _ => Panic.
Definition fault {A} : M S A := fun _ => Fault.
(** Waiting for a lock that is never released. *)
Definition spin {A} : M S A := fun _ => NoFuel.
Definition BUG_ON (c : bool) : M S unit := fun s => if c then Panic else Done (tt, s).

(** A read of memory that may not have been written: [None] is a fault. *)
Definition read {A} (f : S -> option A) : M S A := fun s =>
  match f s with Some a => Done (a, s) | None => Fault end.

(** [iterM fuel body a] is a C loop: the body either goes round again with new
    values of the loop's variables ([inl]) or leaves the loop ([inr]). *)
Fixpoint iterM {A B} (fuel : nat) (body : A -> M S (A + B)) (a : A) : M S B :=
  match fuel with
  | O => fun _ => NoFuel
  | Datatypes.S fuel' => body a ≫= fun r =>
      match r with
      | inl a' => iterM fuel' body a'
      | inr b => mret b
      end
  end.

(** [forM i n body]: [for(uint32_t k = i; k < i + n; k++) body(k)]. *)
Fixpoint forM (i : Z) (n : nat) (body : Z -> M S unit) : M S unit :=
  match n with
  | O => mret tt
  | Datatypes.S n' => body i ≫= fun _ => forM (i + 1) n' body
  end.
End Prims.

(** ** Total correctness

    [runs m s Q]: the code [m], started in [s], returns normally -- no bug check
    fires, no wild access, every loop ends -- with a result and state in [Q]. *)

Definition runs {S A} (m : M S A) (s : S) (Q : A -> S -> Prop) : Prop :=
  match m s with
  | Done (a, s') => Q a s'
  | _ => False
  end.

Section Runs.
Context {S : Type}.
Implicit Types (s : S).

Lemma runs_ret {A} (a : A) s (Q : A -> S -> Prop) : Q a s -> runs (mret a) s Q.
Proof. done. Qed.

Lemma runs_bind {A B} (m : M S A) (f : A -> M S B) s Q :
  runs m s (fun a s' => runs (f a) s' Q) -> runs (m ≫= f) s Q.
Proof.
  unfold runs, mbind, M_bind. destruct (m s) as [[a s']| | |]; done.
Qed.

Lemma runs_bind_inv {A B} (m : M S A) (f : A -> M S B) s Q :
  runs (m ≫= f) s Q -> runs m s (fun a s' => runs (f a) s' Q).
Proof.
  unfold runs, mbind, M_bind. destruct (m s) as [[a s']| | |]; done.
Qed.

(** What a sequence comes to, when its first half returns. *)
Lemma runs_then {A B} (m : M S A) (f : A -> M S B) s o : runs m s (fun a s' => f a s' = o) -> (m ≫= f) s = o.
Proof. unfold runs, mbind, M_bind. destruct (m s) as [[a s']| | |]; done. Qed.

(** A fault in either half of a sequence. *)
Lemma faults_bind {A B} (m : M S A) (f : A -> M S B) s : runs m s (fun a s' => f a s' = Fault) -> (m ≫= f) s = Fault.
Proof. unfold runs, mbind, M_bind. destruct (m s) as [[a s']| | |]; done. Qed.
Lemma faults_bind_l {A B} (m : M S A) (f : A -> M S B) s : m s = Fault -> (m ≫= f) s = Fault.
Proof. unfold mbind, M_bind. by intros ->. Qed.

Lemma runs_mono {A} (m : M S A) s (Q R : A -> S -> Prop) :
  runs m s Q -> (forall a s', Q a s' -> R a s') -> runs m s R.
Proof. unfold runs. destruct (m s) as [[a s']| | |]; auto. Qed.

Lemma runs_and {A} (m : M S A) s (Q R : A -> S -> Prop) :
  runs m s Q -> runs m s R -> runs m s (fun a s' => Q a s' /\ R a s').
Proof. unfold runs. destruct (m s) as [[a s']| | |]; auto. Qed.

Lemma runs_Done {A} (m : M S A) s (Q : A -> S -> Prop) :
  runs m s Q <-> exists a s', m s = Done (a, s') /\ Q a s'.
Proof.
  unfold runs. destruct (m s) as [[a s']| | |]; split; try done.
  - eauto.
  - by intros (? & ? & [= -> ->] & ?).
  - by intros (? & ? & ? & ?).
  - by intros (? & ? & ? & ?).
  - by intros (? & ? & ? & ?).
Qed.

Lemma runs_get s (Q : S -> S -> Prop) : Q s s -> runs get s Q.
Proof. done. Qed.
Lemma runs_put s s' (Q : unit -> S -> Prop) : Q tt s' -> runs (put s') s Q.
Proof. done. Qed.
Lemma runs_gets {A} (f : S -> A) s (Q : A -> S -> Prop) : Q (f s) s -> runs (gets f) s Q.
Proof. done. Qed.
Lemma runs_modify (f : S -> S) s (Q : unit -> S -> Prop) : Q tt (f s) -> runs (modify f) s Q.
Proof. done. Qed.
Lemma runs_BUG_ON c s (Q : unit -> S -> Prop) : c = false -> Q tt s -> runs (BUG_ON c) s Q.
Proof. by intros -> ?. Qed.
Lemma runs_read {A} (f : S -> option A) s a (Q : A -> S -> Prop) :
  f s = Some a -> Q a s -> runs (read f) s Q.
Proof. intros H HQ. unfold runs, read. by rewrite H. Qed.

(** The loop rule: an invariant and a measure that every round decreases. *)
Lemma runs_iterM {A B} (I : A -> S -> Prop) (mu : A -> S -> nat)
    (body : A -> M S (A + B)) (Q : B -> S -> Prop) :
  (forall a s, I a s ->
     runs (body a) s (fun r s' =>
       match r with
       | inl a' => I a' s' /\ (mu a' s' < mu a s)%nat
       | inr b => Q b s'
       end)) ->
  forall fuel a s, I a s -> (mu a s < fuel)%nat -> runs (iterM fuel body a) s Q.
Proof.
  intros Hbody fuel. induction fuel as [|fuel IH]; intros a s HI Hmu; [lia|].
  simpl. apply runs_bind. eapply runs_mono; [by apply Hbody|].
  intros [a'|b] s' H; simpl in H; [|by apply runs_ret].
  destruct H as [HI' Hmu']. apply IH; [done | lia].
Qed.

(** One round of a loop. *)
Lemma runs_iterM_S {A B} fuel (body : A -> M S (A + B)) a s (Q : B -> S -> Prop) :
  runs (body a) s (fun r s' =>
    match r with
    | inl a' => runs (iterM fuel body a') s' Q
    | inr b => Q b s'
    end) ->
  runs (iterM (Datatypes.S fuel) body a) s Q.
Proof.
  intros Hb. simpl. apply runs_bind. eapply runs_mono; [exact Hb|]. by intros [a'|b] s'.
Qed.

Lemma runs_forM (I : Z -> S -> Prop) (body : Z -> M S unit) n : forall i s,
  I i s ->
  (forall k s', i <= k < i + Z.of_nat n -> I k s' ->
     runs (body k) s' (fun _ s'' => I (k + 1) s'')) ->
  runs (forM i n body) s (fun _ s' => I (i + Z.of_nat n) s').
Proof.
  induction n as [|n IH]; intros i s HI Hbody; simpl.
  - apply runs_ret. by rewrite Z.add_0_r.
  - apply runs_bind. eapply runs_mono; [apply Hbody; [lia|done]|].
    intros [] s' HI'. eapply runs_mono; [apply IH; [done|]|].
    + intros k s'' Hk. apply Hbody. lia.
    + intros [] s'' H. cbn beta in H. by replace (i + Z.of_nat (Datatypes.S n)) with (i + 1 + Z.of_nat n) by lia.
Qed.
End Runs.

Lemma runs_eq {S A} (m : M S A) s a s' : runs m s (fun x t => x = a /\ t = s') -> m s = Done (a, s').
Proof. unfold runs. destruct (m s) as [[x t]| | |]; [by intros [-> ->]|done..]. Qed.

(** A bind whose first part is known. *)
Lemma bind_Done {S A R} (m : M S A) (f : A -> M S R) s a s' :
  m s = Done (a, s') -> (m ≫= f) s = f a s'.
Proof. intros E. unfold mbind, M_bind. by rewrite E. Qed.

(** The state code leaves behind. *)
Definition after {S A} (m : M S A) (s : S) : S :=
  match m s with Done (_, s') => s' | _ => s end.

Lemma runs_after {S A} (m : M S A) s (Q : A -> S -> Prop) : runs m s Q -> exists a, Q a (after m s).
Proof. unfold runs, after. destruct (m s) as [[a s']| | |]; [eauto|done..]. Qed.

(** ** Running code of a component inside a larger state *)

Definition lift {S T A} (pi : S -> T) (upd : T -> S -> S) (m : M T A) : M S A := fun s =>
  match m (pi s) with
  | Done (a, t) => Done (a, upd t s)
  | Panic => Panic
  | Fault => Fault
  | NoFuel => NoFuel
  end.

Lemma runs_lift {S T A} (pi : S -> T) (upd : T -> S -> S) (m : M T A) s (Q : A -> S -> Prop) :
  runs m (pi s) (fun a t => Q a (upd t s)) -> runs (lift pi upd m) s Q.
Proof. unfold runs, lift. destruct (m (pi s)) as [[a t]| | |]; done. Qed.

(** One step of a total-correctness proof: open the next bind and run the
    primitive at its head. *)
Ltac mstep :=
  lazymatch goal with
  | |- runs (mbind _ _) _ _ => apply runs_bind
  | |- runs (mret _) _ _ => apply runs_ret
  | |- runs get _ _ => apply runs_get
  | |- runs (put _) _ _ => apply runs_put
  | |- runs (gets _) _ _ => apply runs_gets
  | |- runs (modify _) _ _ => apply runs_modify
  | |- runs (BUG_ON _) _ _ => apply runs_BUG_ON
  end; cbn beta.

Ltac msteps := repeat mstep.

(** ** Arithmetic shared by the components *)

Lemma pow2_pos n : 0 <= n -> 0 < 2 ^ n.
Proof. intros. apply Z.pow_pos_nonneg; lia. Qed.

Lemma pow2_succ n : 0 <= n -> 2 ^ (n + 1) = 2 * 2 ^ n.
Proof. intros. rewrite Z.pow_add_r by lia. lia. Qed.

Lemma shiftl1 n : 0 <= n -> 1 <<< n = 2 ^ n.
Proof. intros. rewrite Z.shiftl_mul_pow2 by lia. lia. Qed.

Lemma testbit_small w z i : 0 <= z < 2 ^ w -> 0 <= w <= i -> Z.testbit z i = false.
Proof.
  intros Hz Hi. rewrite <- (Z.mod_small z (2 ^ w)) by lia.
  apply Z.mod_pow2_bits_high. lia.
Qed.

(** Or-ing a field under a shifted one is adding it. *)
Lemma lor_shiftl_add x y n : 0 <= n -> 0 <= y < 2 ^ n -> Z.lor (x <<< n) y = x * 2 ^ n + y.
Proof.
  intros Hn Hy. rewrite <- Z.shiftl_mul_pow2 by lia.
  assert (Z.land (x <<< n) y = 0) as Hl.
  { apply Z.bits_inj'. intros i Hi. rewrite Z.land_spec, Z.bits_0, Z.shiftl_spec by lia.
    destruct (Z.ltb_spec i n).
    - by rewrite Z.testbit_neg_r by lia.
    - rewrite (testbit_small n y) by lia. apply andb_false_r. }
  rewrite <- Z.lxor_lor by done. symmetry. by apply Z.add_nocarry_lxor.
Qed.

(** Xor with the top bit takes it away. *)
Lemma lxor_top a k : 0 <= k -> 2 ^ k <= a < 2 ^ (k + 1) -> Z.lxor a (2 ^ k) = a - 2 ^ k.
Proof.
  intros Hk Ha. rewrite pow2_succ in Ha by lia.
  assert (Hl : Z.land (2 ^ k) (a - 2 ^ k) = 0).
  { apply Z.bits_inj'. intros i Hi. rewrite Z.land_spec, Z.bits_0, Z.pow2_bits_eqb by lia.
    destruct (Z.eqb_spec k i) as [->|]; [|done]. apply (testbit_small i); lia. }
  replace (Z.lxor a (2 ^ k)) with (Z.lxor (2 ^ k + (a - 2 ^ k)) (2 ^ k)) by (f_equal; lia).
  rewrite Z.add_nocarry_lxor by done.
  rewrite (Z.lxor_comm (2 ^ k) (a - 2 ^ k)), Z.lxor_assoc, Z.lxor_nilpotent. apply Z.lxor_0_r.
Qed.

Lemma fn_insert_eq {B} (f : Z -> B) i x : <[i := x]> f i = x.
Proof. unfold insert, fn_insert. by rewrite decide_True. Qed.

Lemma fn_insert_ne {B} (f : Z -> B) i j x : i <> j -> <[i := x]> f j = f j.
Proof. intros. unfold insert, fn_insert. by rewrite decide_False. Qed.

#[export] Hint Rewrite @fn_insert_eq : kos.
#[export] Hint Rewrite @fn_insert_ne using (done || lia) : kos.

#[export] Hint Resolve pow2_pos : kos.

(** ** Intrusive lists as sequences

    Components above the allocators name the entries of a [list_head_t] in order;
    [CList] shows that the pointer operations act on that sequence as follows. *)

Section Seqs.
Context {A : Type} `{EqDecision A}.
Implicit Types (l : list A).

Definition seq_rm (x : A) l : list A := filter (fun y => y <> x) l.

Lemma elem_of_seq_rm x l y : y ∈ seq_rm x l <-> y ∈ l /\ y <> x.
Proof. unfold seq_rm. rewrite list_elem_of_filter. tauto. Qed.

Lemma NoDup_seq_rm x l : NoDup l -> NoDup (seq_rm x l).
Proof. apply NoDup_filter. Qed.

Lemma seq_rm_notin x l : x ∉ l -> seq_rm x l = l.
Proof.
  unfold seq_rm. induction l as [|y l IH]; intros Hx; [done|].
  rewrite filter_cons_True by set_solver. f_equal. apply IH. set_solver.
Qed.

Lemma seq_rm_first x l : x ∉ l -> seq_rm x (x :: l) = l.
Proof. intros Hx. unfold seq_rm. rewrite filter_cons_False by tauto. by apply seq_rm_notin. Qed.

Lemma length_seq_rm x l : NoDup l -> x ∈ l -> S (length (seq_rm x l)) = length l.
Proof.
  induction l as [|y l IH]; intros Hnd Hx; [set_solver|]. apply NoDup_cons in Hnd as [Hy Hnd].
  destruct (decide (y = x)) as [->|Hne]; [by rewrite seq_rm_first|].
  unfold seq_rm. rewrite filter_cons_True by done. cbn [length]. f_equal. apply IH; set_solver.
Qed.
End Seqs.

(** Filters that keep everything, or nothing. *)
Lemma filter_keeps {A} (P : A -> Prop) `{forall x, Decision (P x)} l : Forall P l -> filter P l = l.
Proof. induction 1 as [|x l Hx Hl IH]; [done|]. rewrite filter_cons_True by done. by rewrite IH. Qed.
Lemma filter_drops {A} (P : A -> Prop) `{forall x, Decision (P x)} l : Forall (fun x => ~ P x) l -> filter P l = [].
Proof. induction 1 as [|x l Hx Hl IH]; [done|]. by rewrite filter_cons_False. Qed.

(** ** Critical sections

    A spinlock seen from the code that takes it: a section that starts while the lock
    is held spins for ever; a lock in memory that is not there is a fault. *)

Definition locked {S A} (held : S -> option bool) (set : bool -> S -> S) (m : M S A) : M S A := fun s =>
  match held s with
  | None => Fault
  | Some true => NoFuel
  | Some false =>
      match m (set true s) with
      | Done (a, s') => Done (a, set false s')
      | e => e
      end
  end.

Lemma runs_locked {S A} (held : S -> option bool) set (m : M S A) s (Q : A -> S -> Prop) :
  held s = Some false -> runs m (set true s) (fun a s' => Q a (set false s')) -> runs (locked held set m) s Q.
Proof. unfold runs, locked. intros ->. destruct (m (set true s)) as [[a s']| | |]; done. Qed.
