(* ===== verification/Words.v ===== *)
(** * Words: machine integers and the arithmetic helpers of the kernel

    Models [kernel/inc/common/swap.h] (byte order), [kernel/inc/common/math.h] and
    [kernel/inc/arch/math.h] ([MIN], [MAX], [DIV_UP], [log2]), [kernel/src/lib/math.c]
    (64-bit division), [kernel/src/lib/rand.c], [kernel/inc/common/hash.h] and the
    error pointers of [kernel/inc/common/types.h]. *)

From S2P Require Import Prelude.

(** ** Bits *)

Lemma uwrap_testbit w z i :
  0 <= w -> 0 <= i -> Z.testbit (uwrap w z) i = (i <? w) && Z.testbit z i.
Proof.
  intros Hw Hi. unfold uwrap. destruct (Z.ltb_spec i w); simpl.
  - by rewrite Z.mod_pow2_bits_low.
  - rewrite Z.mod_pow2_bits_high; lia || done.
Qed.

Lemma uwrap_bits_ext w a b :
  0 <= w ->
  (forall i, 0 <= i < w -> Z.testbit a i = Z.testbit b i) ->
  uwrap w a = uwrap w b.
Proof.
  intros Hw H. apply Z.bits_inj'. intros i Hi.
  rewrite !uwrap_testbit by lia.
  destruct (Z.ltb_spec i w); simpl; [apply H; lia | done].
Qed.

(** *** Bit-shuffling expressions, decided by computation

    An expression built from one variable by shifts, masks, disjunctions and
    truncations moves bits: every bit of its value is the disjunction of some bits
    of the variable, which [src] computes. *)

Inductive bexp : Type :=
| BVar
| BZero
| BShl (e : bexp) (n : Z)
| BShr (e : bexp) (n : Z)
| BAnd (e : bexp) (m : Z)
| BOr (e1 e2 : bexp)
| BWrap (w : Z) (e : bexp).

Fixpoint beval (e : bexp) (v : Z) : Z :=
  match e with
  | BVar => v
  | BZero => 0
  | BShl e n => beval e v <<< n
  | BShr e n => beval e v >>> n
  | BAnd e m => Z.land (beval e v) m
  | BOr e1 e2 => Z.lor (beval e1 v) (beval e2 v)
  | BWrap w e => uwrap w (beval e v)
  end.

Fixpoint bwf (e : bexp) : bool :=
  match e with
  | BVar | BZero => true
  | BShl e n | BShr e n | BWrap n e => (0 <=? n) && bwf e
  | BAnd e _ => bwf e
  | BOr e1 e2 => bwf e1 && bwf e2
  end.

Fixpoint src (e : bexp) (i : Z) : list Z :=
  match e with
  | BVar => [i]
  | BZero => []
  | BShl e n => if i <? n then [] else src e (i - n)
  | BShr e n => src e (i + n)
  | BAnd e m => if Z.testbit m i then src e i else []
  | BOr e1 e2 => src e1 i ++ src e2 i
  | BWrap w e => if i <? w then src e i else []
  end.

Lemma src_testbit e v : bwf e = true -> forall i, 0 <= i ->
  Z.testbit (beval e v) i = existsb (Z.testbit v) (src e i).
Proof.
  induction e as [| |e IH n|e IH n|e IH m|e1 IH1 e2 IH2|w e IH]; simpl; intros Hwf i Hi.
  - by rewrite orb_false_r.
  - apply Z.testbit_0_l.
  - apply andb_true_iff in Hwf as [Hn Hwf]. rewrite Z.shiftl_spec by lia.
    destruct (Z.ltb_spec i n); [apply Z.testbit_neg_r; lia | apply IH; [done|lia]].
  - apply andb_true_iff in Hwf as [Hn Hwf]. rewrite Z.shiftr_spec by lia.
    apply IH; [done|lia].
  - rewrite Z.land_spec, IH by done. destruct (Z.testbit m i); simpl;
      [apply andb_true_r | apply andb_false_r].
  - apply andb_true_iff in Hwf as [Hwf1 Hwf2].
    by rewrite Z.lor_spec, existsb_app, IH1, IH2.
  - apply andb_true_iff in Hwf as [Hn Hwf]. rewrite uwrap_testbit by lia.
    destruct (Z.ltb_spec i w); simpl; [by apply IH | done].
Qed.

Lemma bexp_eq w a b v :
  forallb (fun i => bool_decide (src a i = src b i)) (seqZ 0 w) = true ->
  bwf a = true -> bwf b = true ->
  forall i, 0 <= i < w -> Z.testbit (beval a v) i = Z.testbit (beval b v) i.
Proof.
  intros H Ha Hb i Hi. rewrite !src_testbit by (done || lia).
  rewrite forallb_forall in H. f_equal.
  apply (bool_decide_eq_true_1 _), H, list_elem_of_In, elem_of_seqZ. lia.
Qed.

Ltac reify_bexp v t :=
  lazymatch t with
  | v => constr:(BVar)
  | 0 => constr:(BZero)
  | Z.shiftl ?e ?n => let r := reify_bexp v e in constr:(BShl r n)
  | Z.shiftr ?e ?n => let r := reify_bexp v e in constr:(BShr r n)
  | Z.land ?e ?m => let r := reify_bexp v e in constr:(BAnd r m)
  | Z.lor ?a ?b => let r1 := reify_bexp v a in let r2 := reify_bexp v b in constr:(BOr r1 r2)
  | uwrap ?w ?e => let r := reify_bexp v e in constr:(BWrap w r)
  end.

(** Closes [forall i, 0 <= i < w -> Z.testbit a i = Z.testbit b i]. *)
Ltac same_bits w v :=
  lazymatch goal with
  | |- forall i, _ -> Z.testbit ?a i = Z.testbit ?b i =>
      let ra := reify_bexp v a in let rb := reify_bexp v b in
      exact (bexp_eq w ra rb v eq_refl eq_refl eq_refl)
  end.

(** ** Byte order: swap.h *)

Definition swap_int16 (val : Z) : Z :=
  s16 (Z.lor (val <<< 8) (Z.land (val >>> 8) 0xFF)).

Definition swap_uint16 (val : Z) : Z :=
  u16 (Z.lor (val <<< 8) (val >>> 8)).

Definition swap_int32 (val : Z) : Z :=
  let val := s32 (Z.lor (Z.land (u32 (val <<< 8)) 0xFF00FF00) (Z.land (val >>> 8) 0xFF00FF)) in
  s32 (Z.lor (val <<< 16) (Z.land (val >>> 16) 0xFFFF)).

Definition swap_uint32 (val : Z) : Z :=
  let val := Z.lor (Z.land (u32 (val <<< 8)) 0xFF00FF00) (Z.land (val >>> 8) 0xFF00FF) in
  Z.lor (u32 (val <<< 16)) (val >>> 16).

Definition swap_int64 (val : Z) : Z :=
  let val := s64 (Z.lor (Z.land (u64 (val <<< 8)) 0xFF00FF00FF00FF00)
                        (Z.land (val >>> 8) 0x00FF00FF00FF00FF)) in
  let val := s64 (Z.lor (Z.land (u64 (val <<< 16)) 0xFFFF0000FFFF0000)
                        (Z.land (val >>> 16) 0x0000FFFF0000FFFF)) in
  s64 (Z.lor (val <<< 32) (Z.land (val >>> 32) 0xFFFFFFFF)).

Definition swap_uint64 (val : Z) : Z :=
  let val := Z.lor (Z.land (u64 (val <<< 8)) 0xFF00FF00FF00FF00)
                   (Z.land (val >>> 8) 0x00FF00FF00FF00FF) in
  let val := Z.lor (Z.land (u64 (val <<< 16)) 0xFFFF0000FFFF0000)
                   (Z.land (val >>> 16) 0x0000FFFF0000FFFF) in
  Z.lor (u64 (val <<< 32)) (val >>> 32).

(** The bytes of a word in memory, least significant first (x86), and back. *)
Fixpoint le_bytes (n : nat) (z : Z) : list Z :=
  match n with
  | O => []
  | S n' => z mod 256 :: le_bytes n' (z / 256)
  end.

Fixpoint of_le_bytes (l : list Z) : Z :=
  match l with
  | [] => 0
  | b :: l' => b + 256 * of_le_bytes l'
  end.

Lemma length_le_bytes n : forall z, length (le_bytes n z) = n.
Proof. induction n; intros; simpl; auto. Qed.

Lemma of_le_bytes_le_bytes n : forall z, of_le_bytes (le_bytes n z) = z mod 2 ^ (8 * Z.of_nat n).
Proof.
  induction n as [|n IH]; intros z; simpl of_le_bytes.
  - by rewrite Z.mod_1_r.
  - rewrite IH. replace (8 * Z.of_nat (S n)) with (8 + 8 * Z.of_nat n) by lia.
    rewrite Z.pow_add_r by lia. change (2 ^ 8) with 256.
    rewrite Z.rem_mul_r by lia. lia.
Qed.

Lemma le_bytes_byte n : forall z, Forall (fun b => 0 <= b < 256) (le_bytes n z).
Proof.
  induction n; intros z; simpl; constructor; [|done].
  apply Z.mod_pos_bound. lia.
Qed.

Lemma of_le_bytes_range l :
  Forall (fun b => 0 <= b < 256) l -> 0 <= of_le_bytes l < 2 ^ (8 * Z.of_nat (length l)).
Proof.
  induction 1 as [|b l Hb _ IH]; simpl length; simpl of_le_bytes; [lia|].
  replace (8 * Z.of_nat (S (length l))) with (8 + 8 * Z.of_nat (length l)) by lia.
  rewrite Z.pow_add_r by lia. lia.
Qed.

Lemma of_le_bytes_cons b l :
  0 <= b < 256 -> of_le_bytes (b :: l) = Z.lor b (of_le_bytes l <<< 8).
Proof.
  intros Hb. simpl of_le_bytes. rewrite Z.shiftl_mul_pow2 by lia. change (2 ^ 8) with 256.
  rewrite (Z.mul_comm 256).
  rewrite <- (Z.mul_1_r 256), Z.mul_assoc, Z.mul_1_r. symmetry.
  rewrite <- Z.lxor_lor; [rewrite <- Z.add_nocarry_lxor; [done|]|].
  all: apply Z.bits_inj'; intros i Hi; rewrite Z.land_spec, Z.testbit_0_l;
    change 256 with (2 ^ 8); destruct (Z.ltb_spec i 8).
  all: first [ rewrite Z.mul_pow2_bits_low by lia; apply andb_false_r
             | rewrite (testbit_small 8 b) by lia; done ].
Qed.

Lemma le_bytes_S n z : le_bytes (S n) z = u8 z :: le_bytes n (z >>> 8).
Proof. simpl. by rewrite Z.shiftr_div_pow2. Qed.

Ltac bytes_to_bits :=
  rewrite !le_bytes_S; cbn [le_bytes rev app];
  rewrite !of_le_bytes_cons by (apply (uwrap_range 8); lia); cbn [of_le_bytes].

(** Byte reversal, at each width: two words that agree on their low [w] bits and
    have no others are equal. *)
Lemma word_bits_ext w a b :
  0 <= a < 2 ^ w -> 0 <= b < 2 ^ w -> 0 <= w ->
  (forall i, 0 <= i < w -> Z.testbit a i = Z.testbit b i) -> a = b.
Proof.
  intros Ha Hb Hw H. rewrite <- (uwrap_small w a Ha), <- (uwrap_small w b Hb).
  by apply uwrap_bits_ext.
Qed.

Lemma lor_range w a b : 0 <= w -> 0 <= a < 2 ^ w -> 0 <= b < 2 ^ w -> 0 <= Z.lor a b < 2 ^ w.
Proof.
  intros Hw Ha Hb.
  rewrite <- (uwrap_small w a Ha), <- (uwrap_small w b Hb), !uwrap_land by lia.
  rewrite <- Z.land_lor_distr_l, <- uwrap_land by lia. by apply uwrap_range.
Qed.

Lemma shiftr_range w n a : 0 <= n -> 0 <= a < 2 ^ w -> 0 <= a >>> n < 2 ^ w.
Proof.
  intros Hn Ha. rewrite Z.shiftr_div_pow2 by lia. pose proof (pow2_pos n Hn).
  split; [apply Z.div_pos; lia|]. apply Z.le_lt_trans with a; [|lia].
  apply Z.div_le_upper_bound; nia.
Qed.

Lemma rev_le_bytes_range n v : 0 <= of_le_bytes (rev (le_bytes n v)) < 2 ^ (8 * Z.of_nat n).
Proof.
  pose proof (of_le_bytes_range (rev (le_bytes n v))) as H.
  rewrite length_rev, length_le_bytes in H. apply H, Forall_rev, le_bytes_byte.
Qed.

Ltac swap_bits n v Hv :=
  rewrite <- (uwrap_small n v Hv);
  apply (word_bits_ext n); [| apply (rev_le_bytes_range (Z.to_nat (n / 8))) | lia |
    bytes_to_bits; same_bits n v ];
  repeat first [ apply lor_range | apply shiftr_range | apply uwrap_range | lia ].

Lemma swap_uint16_bytes v :
  0 <= v < 2 ^ 16 -> swap_uint16 v = of_le_bytes (rev (le_bytes 2 v)).
Proof. intros Hv. unfold swap_uint16. swap_bits 16 v Hv. Qed.

Lemma land_range w a m : 0 <= w -> 0 <= m < 2 ^ w -> 0 <= Z.land a m < 2 ^ w.
Proof.
  intros Hw Hm. rewrite <- (uwrap_small w m Hm), uwrap_land, Z.land_assoc, <- uwrap_land by lia.
  by apply uwrap_range.
Qed.

Lemma swap_uint32_bytes v :
  0 <= v < 2 ^ 32 -> swap_uint32 v = of_le_bytes (rev (le_bytes 4 v)).
Proof. intros Hv. unfold swap_uint32. swap_bits 32 v Hv; by apply land_range. Qed.

Lemma swap_uint64_bytes v :
  0 <= v < 2 ^ 64 -> swap_uint64 v = of_le_bytes (rev (le_bytes 8 v)).
Proof. intros Hv. unfold swap_uint64. swap_bits 64 v Hv; by apply land_range. Qed.

Lemma le_bytes_of_le_bytes l :
  Forall (fun b => 0 <= b < 256) l -> le_bytes (length l) (of_le_bytes l) = l.
Proof.
  induction 1 as [|b l Hb _ IH]; simpl; [done|]. f_equal.
  - rewrite (Z.mul_comm 256), Z.mod_add by lia. apply Z.mod_small. lia.
  - by rewrite (Z.mul_comm 256), Z.div_add, Z.div_small, Z.add_0_l by lia.
Qed.

(** Reversing the bytes of a word twice gives the word back. *)
Lemma rev_bytes_twice n v :
  0 <= v < 2 ^ (8 * Z.of_nat n) ->
  of_le_bytes (rev (le_bytes n (of_le_bytes (rev (le_bytes n v))))) = v.
Proof.
  intros Hv.
  pose proof (le_bytes_of_le_bytes (rev (le_bytes n v))) as H.
  rewrite length_rev, length_le_bytes in H.
  rewrite H by apply Forall_rev, le_bytes_byte.
  rewrite rev_involutive, of_le_bytes_le_bytes. by apply Z.mod_small.
Qed.

Lemma swap_uint16_involutive v : 0 <= v < 2 ^ 16 -> swap_uint16 (swap_uint16 v) = v.
Proof.
  intros Hv. rewrite (swap_uint16_bytes v) by done.
  rewrite swap_uint16_bytes by apply (rev_le_bytes_range 2). by apply (rev_bytes_twice 2).
Qed.

Lemma swap_uint32_involutive v : 0 <= v < 2 ^ 32 -> swap_uint32 (swap_uint32 v) = v.
Proof.
  intros Hv. rewrite (swap_uint32_bytes v) by done.
  rewrite swap_uint32_bytes by apply (rev_le_bytes_range 4). by apply (rev_bytes_twice 4).
Qed.

Lemma swap_uint64_involutive v : 0 <= v < 2 ^ 64 -> swap_uint64 (swap_uint64 v) = v.
Proof.
  intros Hv. rewrite (swap_uint64_bytes v) by done.
  rewrite swap_uint64_bytes by apply (rev_le_bytes_range 8). by apply (rev_bytes_twice 8).
Qed.

(** *** The signed swaps are the unsigned ones at the signed type *)

Lemma swrap_uwrap w z : 0 < w -> swrap w (uwrap w z) = swrap w z.
Proof.
  intros Hw. unfold swrap, uwrap. by rewrite Zplus_mod_idemp_l.
Qed.

Lemma uwrap_swrap w z : 0 < w -> uwrap w (swrap w z) = uwrap w z.
Proof.
  intros Hw. unfold swrap, uwrap.
  rewrite Zminus_mod_idemp_l. f_equal. lia.
Qed.

Lemma swrap_ext w a b : 0 < w -> uwrap w a = uwrap w b -> swrap w a = swrap w b.
Proof. intros Hw H. rewrite <- (swrap_uwrap w a), <- (swrap_uwrap w b) by done. by rewrite H. Qed.

Lemma beval_low w e v v' :
  0 <= w -> bwf e = true ->
  forallb (fun i => forallb (fun j => (0 <=? j) && (j <? w)) (src e i)) (seqZ 0 w) = true ->
  uwrap w v = uwrap w v' -> uwrap w (beval e v) = uwrap w (beval e v').
Proof.
  intros Hw He Hsrc Hv. apply uwrap_bits_ext; [done|]. intros i Hi.
  rewrite !src_testbit by (done || lia).
  rewrite forallb_forall in Hsrc.
  specialize (Hsrc i). rewrite <- list_elem_of_In, elem_of_seqZ in Hsrc.
  rewrite forallb_forall in Hsrc. specialize (Hsrc ltac:(lia)).
  revert Hsrc. generalize (src e i) as l.
  induction l as [|j l IH]; simpl; intros H; [done|]. f_equal; [|auto].
  specialize (H j (or_introl eq_refl)).
  pose proof (uwrap_testbit w v j) as H1. pose proof (uwrap_testbit w v' j) as H2.
  rewrite Hv in H1. destruct (Z.ltb_spec j w); simpl in *; [|lia].
  rewrite <- H1, <- H2 by lia. done.
Qed.

Ltac low_bits w v v' :=
  lazymatch goal with
  | |- uwrap w ?a = uwrap w _ =>
      let r := reify_bexp v a in
      apply (beval_low w r v v'); [lia | reflexivity | reflexivity |]
  end.

Lemma swap_int16_unsigned v : swap_int16 v = s16 (swap_uint16 (u16 v)).
Proof.
  unfold swap_int16, swap_uint16. rewrite swrap_uwrap by lia.
  apply swrap_ext; [lia|]. apply uwrap_bits_ext; [lia|]. same_bits 16 v.
Qed.

Lemma swap_int32_unsigned v : swap_int32 v = s32 (swap_uint32 (u32 v)).
Proof.
  unfold swap_int32, swap_uint32. apply swrap_ext; [lia|].
  set (x := Z.lor (Z.land (u32 (v <<< 8)) _) _).
  transitivity (u32 (Z.lor (x <<< 16) (Z.land (x >>> 16) 0xFFFF))).
  - generalize (swrap 32 x) (uwrap_swrap 32 x ltac:(lia)). intros y Hy. low_bits 32 y x. done.
  - subst x. apply uwrap_bits_ext; [lia|]. same_bits 32 v.
Qed.

Lemma swap_int64_unsigned v : swap_int64 v = s64 (swap_uint64 (u64 v)).
Proof.
  unfold swap_int64, swap_uint64. apply swrap_ext; [lia|].
  set (x := Z.lor (Z.land (u64 (v <<< 8)) _) _).
  set (f := fun x => Z.lor (Z.land (u64 (x <<< 16)) 0xFFFF0000FFFF0000)
                           (Z.land (x >>> 16) 0x0000FFFF0000FFFF)).
  set (g := fun x => Z.lor (x <<< 32) (Z.land (x >>> 32) 0xFFFFFFFF)).
  assert (Hg : forall a b, u64 a = u64 b -> u64 (g a) = u64 (g b)).
  { intros a b Hab. unfold g. low_bits 64 a b. done. }
  assert (Hf : forall a b, u64 a = u64 b -> u64 (f a) = u64 (f b)).
  { intros a b Hab. unfold f. low_bits 64 a b. done. }
  transitivity (u64 (g (f x))).
  - change (u64 (g (s64 (f (s64 x)))) = u64 (g (f x))). apply Hg.
    rewrite uwrap_swrap by lia. apply Hf, uwrap_swrap. lia.
  - subst x f g. apply uwrap_bits_ext; [lia|]. cbn beta. same_bits 64 v.
Qed.

(** ** math.h: MIN, MAX, DIV_DOWN, DIV_UP, log2 *)

Definition MIN (a b : Z) : Z := if a <? b then a else b.
Definition MAX (a b : Z) : Z := if a >? b then a else b.

Definition DIV_DOWN (x y : Z) : Z := x / y.
Definition DIV_UP (x y : Z) : Z :=
  if u32 x =? 0 then 0 else u32 ((u32 x - 1) / u32 y + 1).

(** [bsrl] finds the highest set bit; its destination is undefined for 0. *)
Definition fls32 (x : Z) : option Z :=
  if x =? 0 then None else Some (u32 (Z.log2 x + 1)).
Definition fls64 (x : Z) : option Z :=
  if x =? 0 then None else Some (u32 (Z.log2 x + 1)).
Definition log2_32 (n : Z) : option Z := r ← fls32 n; Some (u32 (r - 1)).
Definition log2_64 (n : Z) : option Z := r ← fls64 n; Some (u32 (r - 1)).

(** The constant branch of the [log2] macro: the cascade of tests from bit 63 down
    to bit 0, with [log2_NaN()] (undefined at link time) when none is set. *)
Fixpoint log2_cascade (bits : nat) (n : Z) : option Z :=
  match bits with
  | O => None
  | S b => if has n (1 <<< Z.of_nat b) then Some (Z.of_nat b) else log2_cascade b n
  end.
Definition log2_const (n : Z) : option Z := if n <? 1 then None else log2_cascade 64 n.

Lemma MIN_min a b : MIN a b = Z.min a b.
Proof. unfold MIN. destruct (Z.ltb_spec a b); lia. Qed.
Lemma MAX_max a b : MAX a b = Z.max a b.
Proof. unfold MAX. destruct (Z.gtb_spec a b); lia. Qed.

Lemma log2_lt n w : 0 < n < 2 ^ w -> 0 <= Z.log2 n < w.
Proof.
  intros H. split; [apply Z.log2_nonneg|]. apply Z.log2_lt_pow2; lia.
Qed.

Lemma log2_32_spec n : 0 < n < 2 ^ 32 -> log2_32 n = Some (Z.log2 n).
Proof.
  intros H. pose proof (log2_lt n 32 H) as Hl. unfold log2_32, fls32.
  destruct (Z.eqb_spec n 0); [lia|]. cbn. f_equal.
  rewrite (uwrap_small 32 (_ + 1)) by lia. rewrite uwrap_small; lia.
Qed.

Lemma has_pow2 n k : 0 <= k -> has n (1 <<< k) = Z.testbit n k.
Proof.
  intros Hk. unfold has. rewrite shiftl1 by done.
  assert (Z.land n (2 ^ k) = if Z.testbit n k then 2 ^ k else 0) as ->.
  { apply Z.bits_inj'. intros i Hi. rewrite Z.land_spec, Z.pow2_bits_eqb by lia.
    destruct (Z.eqb_spec k i) as [->|].
    - destruct (Z.testbit n i); rewrite ?Z.pow2_bits_true, ?Z.testbit_0_l by lia; done.
    - rewrite andb_false_r. destruct (Z.testbit n k); rewrite ?Z.testbit_0_l; [|done].
      by rewrite Z.pow2_bits_false. }
  destruct (Z.testbit n k); [|done].
  pose proof (pow2_pos k Hk). destruct (Z.eqb_spec (2 ^ k) 0); [lia|done].
Qed.

Lemma log2_cascade_spec b n :
  0 < n < 2 ^ Z.of_nat b -> log2_cascade b n = Some (Z.log2 n).
Proof.
  induction b as [|b IH]; intros Hn; simpl; [simpl in Hn; lia|].
  rewrite has_pow2 by lia. rewrite Nat2Z.inj_succ, Z.pow_succ_r in Hn by lia.
  destruct (Z.lt_ge_cases n (2 ^ Z.of_nat b)) as [Hlt|Hge].
  - rewrite (testbit_small (Z.of_nat b)) by lia. apply IH. lia.
  - assert (Z.log2 n = Z.of_nat b) as <-.
    { apply Z.log2_unique; [lia|]. rewrite <- Z.add_1_r, pow2_succ by lia. lia. }
    by rewrite Z.bit_log2 by lia.
Qed.

(** ** lib/math.c: 64-bit unsigned division by shift and subtract *)

(** [while (((int64_t) d) >= 0) { d <<= 1; bit <<= 1; }]: at most 64 rounds. *)
Definition udivdi3_up : Z * Z -> M unit ((Z * Z) + (Z * Z)) := fun '(d, bit) =>
  if s64 d >=? 0 then mret (inl (u64 (d <<< 1), u64 (bit <<< 1)))
  else mret (inr (d, bit)).

(** [while (bit) { if (d <= n) { n -= d; q += bit; } d >>= 1; bit >>= 1; }] *)
Definition udivdi3_down : Z * Z * Z * Z -> M unit ((Z * Z * Z * Z) + Z) :=
  fun '(n, q, d, bit) =>
    if bit =? 0 then mret (inr q)
    else
      let '(n, q) := if d <=? n then (u64 (n - d), u64 (q + bit)) else (n, q) in
      mret (inl (n, q, d >>> 1, bit >>> 1)).

Definition __udivdi3 (n d : Z) : M unit Z :=
  if d =? 0 then fault   (* __divide_by_zero() raises #DE *)
  else
    '(d, bit) ← iterM 65 udivdi3_up (d, 1);
    iterM 65 udivdi3_down (n, 0, d, bit).

Lemma s64_neg d : 0 <= d < 2 ^ 64 -> (s64 d >=? 0) = (d <? 2 ^ 63).
Proof.
  intros Hd. destruct (Z.ltb_spec d (2 ^ 63)).
  - rewrite swrap_small by lia. lia.
  - unfold swrap. replace ((d + 2 ^ (64 - 1)) mod 2 ^ 64) with (d - 2 ^ 63).
    + change (64 - 1) with 63. lia.
    + apply (Z.mod_unique _ _ 1); lia.
Qed.

Lemma udivdi3_up_spec d : 0 < d < 2 ^ 64 ->
  runs (iterM 65 udivdi3_up (d, 1)) tt (fun '(d', bit) _ =>
    exists k, 0 <= k < 64 /\ bit = 2 ^ k /\ d' = d * 2 ^ k /\ 2 ^ 63 <= d' < 2 ^ 64).
Proof.
  intros Hd.
  apply (runs_iterM
    (fun '(d', bit) _ => exists k, 0 <= k < 64 /\ bit = 2 ^ k /\ d' = d * 2 ^ k /\ d' < 2 ^ 64)
    (fun '(d', bit) _ => Z.to_nat (64 - Z.log2 bit))).
  - intros [d' bit] [] (k & Hk & -> & -> & Hlt). unfold udivdi3_up.
    pose proof (pow2_pos k ltac:(lia)) as Hp.
    rewrite s64_neg by nia. destruct (Z.ltb_spec (d * 2 ^ k) (2 ^ 63)) as [Hs|Hs]; msteps.
    + rewrite !Z.shiftl_mul_pow2, !uwrap_small, !Z.log2_pow2 by nia.
      assert (k < 63) as Hk63.
      { destruct (Z.lt_ge_cases k 63); [done|]. assert (k = 63) as -> by lia. nia. }
      rewrite <- Z.pow_add_r by lia. rewrite Z.log2_pow2 by lia. split; [|lia].
      exists (k + 1). rewrite (pow2_succ k) by lia. nia.
    + exists k. lia.
  - exists 0. lia.
  - simpl. lia.
Qed.

(** What the second loop keeps: the quotient so far and the remainder still to
    divide make up [n0], and the remainder is below twice the shifted divisor. *)
Definition udiv_inv (n0 d0 : Z) (v : Z * Z * Z * Z) : Prop :=
  let '(n, q, d, bit) := v in
  q * d0 + n = n0 /\ 0 <= n /\ 0 <= q /\
  ((bit = 0 /\ n < d0) \/
   exists k, 0 <= k < 64 /\ bit = 2 ^ k /\ d = d0 * 2 ^ k /\ n < 2 * d /\ d < 2 ^ 64).

Definition udiv_mu (bit : Z) : nat := if bit =? 0 then 0%nat else Z.to_nat (1 + Z.log2 bit).

Lemma udivdi3_down_spec n0 d0 v :
  0 <= n0 < 2 ^ 64 -> 0 < d0 -> udiv_inv n0 d0 v ->
  runs (iterM 65 udivdi3_down v) tt (fun q _ => q = n0 / d0).
Proof.
  intros Hn0 Hd0 Hv.
  apply (runs_iterM (fun v _ => udiv_inv n0 d0 v)
    (fun '(_, _, _, bit) _ => udiv_mu bit));
    [|done|].
  - intros [[[n q] d] bit] [] (Hq & Hn & Hq0 & Hk). unfold udivdi3_down.
    destruct Hk as [[-> Hlt]|(k & Hk & -> & -> & Hlt & H64)].
    + simpl. msteps. apply (Z.div_unique n0 d0 q n); lia.
    + pose proof (pow2_pos k ltac:(lia)) as Hp.
      assert (2 ^ k < 2 ^ 64) by (apply Z.pow_lt_mono_r; lia).
      destruct (Z.eqb_spec (2 ^ k) 0); [lia|].
      assert (Hhalf : forall n' q', q' * d0 + n' = n0 -> 0 <= n' -> 0 <= q' -> n' < d0 * 2 ^ k ->
        udiv_inv n0 d0 (n', q', (d0 * 2 ^ k) >>> 1, 2 ^ k >>> 1) /\
        (udiv_mu (2 ^ k >>> 1) < udiv_mu (2 ^ k))%nat).
      { intros n' q' He Hn' Hq' Hlt'. rewrite !Z.shiftr_div_pow2 by lia. unfold udiv_mu.
        destruct (Z.eqb_spec (2 ^ k) 0); [lia|]. rewrite (Z.log2_pow2 k) by lia.
        destruct (Z.eq_dec k 0) as [->|Hk0].
        - split; [|simpl; lia]. repeat split; [lia..|]. left. split; [done|lia].
        - replace k with (k - 1 + 1) in * by lia. rewrite pow2_succ in * by lia.
          replace (d0 * (2 * 2 ^ (k - 1))) with (d0 * 2 ^ (k - 1) * 2) by lia.
          rewrite (Z.mul_comm 2 (2 ^ (k - 1))). change (2 ^ 1) with 2.
          rewrite !Z.div_mul by lia. pose proof (pow2_pos (k - 1) ltac:(lia)).
          rewrite Z.log2_pow2 by lia. destruct (Z.eqb_spec (2 ^ (k - 1)) 0); [lia|].
          split; [|lia]. repeat split; try lia. right. exists (k - 1). repeat split; lia. }
      destruct (Z.leb_spec (d0 * 2 ^ k) n); msteps.
      * rewrite !uwrap_small by nia. apply Hhalf; nia.
      * apply Hhalf; lia.
  - destruct v as [[[n q] d] bit]. destruct Hv as (_ & _ & _ & [[-> _]|(k & Hk & -> & _)]); unfold udiv_mu; simpl; [lia|].
    destruct (2 ^ k =? 0); [lia|]. rewrite Z.log2_pow2 by lia. lia.
Qed.

(** The shift-and-subtract division of two 64-bit unsigned integers ends
    and returns their quotient; a zero divisor faults. *)
Theorem udivdi3_correct n d :
  0 <= n < 2 ^ 64 -> 0 <= d < 2 ^ 64 ->
  __udivdi3 n d tt = if d =? 0 then Fault else Done (n / d, tt).
Proof.
  intros Hn Hd. unfold __udivdi3. destruct (Z.eqb_spec d 0) as [|Hd0]; [done|].
  assert (runs ('(d', bit) ← iterM 65 udivdi3_up (d, 1); iterM 65 udivdi3_down (n, 0, d', bit))
            tt (fun q _ => q = n / d)) as H.
  { apply runs_bind. eapply runs_mono; [apply udivdi3_up_spec; lia|].
    intros [d' bit] [] (k & Hk & -> & -> & Hr).
    apply udivdi3_down_spec; [lia..|]. repeat split; [lia..|]. right. exists k. lia. }
  apply runs_Done in H as (q & [] & H & ->). done.
Qed.

Lemma udivdi3_correct_witness :
  __udivdi3 1000000007 97 tt = Done (10309278, tt).
Proof. rewrite (udivdi3_correct 1000000007 97) by lia. reflexivity. Defined.

(** ** lib/rand.c *)

Definition rand8 : M Z Z := fun holdrand =>
  let holdrand := u32 (holdrand * 214013 + 2531011) in
  Done (u8 (Z.land (holdrand >>> 16) 0x7fff), holdrand).

(** The two operands of [|] are evaluated left to right. *)
Definition rand16 : M Z Z :=
  a ← rand8; b ← rand8; mret (u16 (Z.lor (a <<< 8) b)).
Definition rand32 : M Z Z :=
  a ← rand16; b ← rand16; mret (u32 (Z.lor (a <<< 16) b)).
Definition srand (seed : Z) : M Z unit := put seed.

(** ** hash.h *)

Definition HASH_PRIME : Z := 0x9e370001.

Definition hash_32 (key bits : Z) : Z := u32 (key * HASH_PRIME) >>> (32 - bits).

Definition hash_64 (key bits : Z) : Z :=
  let hash := key in
  let n := hash in
  let n := u64 (n <<< 18) in let hash := u64 (hash - n) in
  let n := u64 (n <<< 33) in let hash := u64 (hash - n) in
  let n := u64 (n <<< 3) in let hash := u64 (hash + n) in
  let n := u64 (n <<< 3) in let hash := u64 (hash - n) in
  let n := u64 (n <<< 4) in let hash := u64 (hash + n) in
  let n := u64 (n <<< 2) in let hash := u64 (hash + n) in
  hash >>> (64 - bits).

(** [str] is the characters ([signed char]) of the string. *)
Fixpoint str_to_key_from (key : Z) (str : list Z) (len : nat) : option Z :=
  match len, str with
  | O, _ => Some key
  | S len', c :: str' => str_to_key_from (u32 (key * c)) str' len'
  | S _, [] => None
  end.
Definition str_to_key (str : list Z) (len : nat) : option Z := str_to_key_from 1 str len.

Lemma shiftr_high w n z : 0 <= z < 2 ^ w -> 0 <= n <= w -> 0 <= z >>> n < 2 ^ (w - n).
Proof.
  intros Hz Hn. rewrite Z.shiftr_div_pow2 by lia.
  pose proof (pow2_pos n ltac:(lia)). split; [apply Z.div_pos; lia|].
  apply Z.div_lt_upper_bound; [lia|]. rewrite <- Z.pow_add_r by lia.
  replace (n + (w - n)) with w by lia. lia.
Qed.

Lemma hash_32_range key bits : 0 <= bits <= 32 -> 0 <= hash_32 key bits < 2 ^ bits.
Proof.
  intros Hb. unfold hash_32.
  pose proof (shiftr_high 32 (32 - bits) (u32 (key * HASH_PRIME))) as H.
  replace (32 - (32 - bits)) with bits in H by lia.
  apply H; [by apply uwrap_range | lia].
Qed.

Lemma hash_64_range key bits : 0 <= bits <= 64 -> 0 <= hash_64 key bits < 2 ^ bits.
Proof.
  intros Hb. unfold hash_64.
  match goal with |- context [uwrap 64 ?h >>> _] =>
    pose proof (shiftr_high 64 (64 - bits) (uwrap 64 h)) as H end.
  replace (64 - (64 - bits)) with bits in H by lia.
  apply H; [by apply uwrap_range | lia].
Qed.

(** ** types.h: error pointers *)

Definition MAX_ERRNO : Z := 143.
Definition ENOENT : Z := 2.
Definition EBADF : Z := 9.
Definition EEXIST : Z := 17.
Definition EISDIR : Z := 21.
Definition EINVAL : Z := 22.

Definition ERR_PTR (error : Z) : Z := u32 error.
Definition PTR_ERR (ptr : Z) : Z := s32 ptr.
Definition IS_ERR (ptr : Z) : bool := u32 ptr >=? u32 (- MAX_ERRNO).

(** An error pointer made from [-e] is recognised and gives [-e] back,
    and the pointers so recognised are exactly those of the top 143 addresses. *)
Theorem err_ptr_roundtrip e :
  1 <= e <= MAX_ERRNO ->
  IS_ERR (ERR_PTR (- e)) = true /\ PTR_ERR (ERR_PTR (- e)) = - e /\
  forall p, 0 <= p < 2 ^ 32 ->
    (IS_ERR p = true <-> exists e', 1 <= e' <= MAX_ERRNO /\ p = ERR_PTR (- e')).
Proof.
  unfold MAX_ERRNO. intros He.
  assert (Hu : forall e', 1 <= e' <= 143 -> u32 (- e') = 2 ^ 32 - e').
  { intros e' He'. symmetry. apply (Z.mod_unique _ _ (-1)); lia. }
  unfold IS_ERR, PTR_ERR, ERR_PTR, MAX_ERRNO. rewrite !(Hu 143) by lia.
  split; [rewrite uwrap_idemp, Hu by lia; lia|]. split.
  - rewrite swrap_uwrap by lia. apply swrap_small; lia.
  - intros p Hp. rewrite uwrap_small by lia. split.
    + intros H. exists (2 ^ 32 - p). split; [lia|]. rewrite Hu; lia.
    + intros (e' & He' & ->). rewrite Hu; lia.
Qed.

Lemma err_ptr_roundtrip_witness :
  IS_ERR (ERR_PTR (- ENOENT)) = true /\ PTR_ERR (ERR_PTR (- ENOENT)) = - ENOENT.
Proof.
  destruct (err_ptr_roundtrip ENOENT) as (H1 & H2 & _); [unfold ENOENT, MAX_ERRNO; lia|].
  split; [exact H1 | exact H2].
Defined.
