(* ===== verification/CList.v ===== *)
(** * CList: intrusive lists, chains and hash tables

    Models [kernel/inc/common/list.h] and [kernel/inc/common/hashtable.h] at the
    level of the pointers. A [list_head_t *] is a key of a countable type [K]; the
    memory the nodes live in is two finite maps, one per field. Reading a field that
    was never written is a [Fault]; writing a field of a node that exists as memory
    always succeeds. *)

From S2P Require Import Prelude Words.

(** ** Circular doubly linked lists *)

Record lmem (K : Type) `{Countable K} := LMem {
  l_next : gmap K K;
  l_prev : gmap K K;
}.
Arguments LMem {_ _ _} _ _.
Arguments l_next {_ _ _} _.
Arguments l_prev {_ _ _} _.

Section Lists.
Context {K : Type} `{Countable K}.
Implicit Types (h : lmem K) (hd e p n x y : K) (l xs : list K).

Definition next_of e : M (lmem K) K := read (fun h => l_next h !! e).
Definition prev_of e : M (lmem K) K := read (fun h => l_prev h !! e).
Definition set_next e v : M (lmem K) unit :=
  modify (fun h => LMem (<[e := v]> (l_next h)) (l_prev h)).
Definition set_prev e v : M (lmem K) unit :=
  modify (fun h => LMem (l_next h) (<[e := v]> (l_prev h))).

Definition list_init (entry : K) : M (lmem K) unit :=
  set_next entry entry;;
  set_prev entry entry.

Definition list_empty (head : K) : M (lmem K) bool :=
  nx ← next_of head; mret (bool_decide (nx = head)).

Definition list_is_singular (head : K) : M (lmem K) bool :=
  em ← list_empty head;
  if (em : bool) then mret false
  else nx ← next_of head; pv ← prev_of head; mret (bool_decide (nx = pv)).

Definition list_insert (new prev next : K) : M (lmem K) unit :=
  set_prev next new;;
  set_next new next;;
  set_prev new prev;;
  set_next prev new.

Definition list_add (new old : K) : M (lmem K) unit :=
  nx ← next_of old; list_insert new old nx.

Definition list_add_before (new old : K) : M (lmem K) unit :=
  pv ← prev_of old; list_insert new pv old.

Definition list_join (first second : K) : M (lmem K) unit :=
  set_next first second;;
  set_prev second first.

Definition list_replace (old new : K) : M (lmem K) unit :=
  onx ← next_of old; set_next new onx;;
  nnx ← next_of new; set_prev nnx new;;
  opv ← prev_of old; set_prev new opv;;
  npv ← prev_of new; set_next npv new.

Definition list_rm (entry : K) : M (lmem K) unit :=
  pv ← prev_of entry; nx ← next_of entry; list_join pv nx.

Definition list_move (entry head : K) : M (lmem K) unit :=
  list_rm entry;; list_add entry head.

Definition list_move_before (entry head : K) : M (lmem K) unit :=
  list_rm entry;; list_add_before entry head.

Definition list_rotate_left (head : K) : M (lmem K) unit :=
  em ← list_empty head;
  if (em : bool) then mret tt
  else nx ← next_of head; list_move_before nx head.

(** [list_first(ptr, ...)] and [list_next(pos, head, ...)] (NULL at the end). *)
Definition list_first (head : K) : M (lmem K) K := next_of head.
Definition list_next (pos head : K) : M (lmem K) (option K) :=
  nx ← next_of pos; mret (if bool_decide (nx = head) then None else Some nx).

(** [LIST_FOR_EACH(pos, head)]: the nodes the loop visits, in order. *)
Definition list_for_each (fuel : nat) (head : K) : M (lmem K) (list K) :=
  pos0 ← next_of head;
  iterM fuel (fun '(pos, seen) =>
    if bool_decide (pos = head) then mret (inr (reverse seen))
    else nx ← next_of pos; mret (inl (nx, pos :: seen))) (pos0, []).

(** *** What the fields represent

    [linked h xs]: each node of [xs] points forward to the next one and is pointed
    back at by it. The list of head [hd] holds [l] when going round from [hd]
    through [l] back to [hd] is linked. *)

Definition link h x y : Prop := l_next h !! x = Some y /\ l_prev h !! y = Some x.

Fixpoint linked h xs : Prop :=
  match xs with
  | x :: (y :: _) as xs' => link h x y /\ linked h xs'
  | _ => True
  end.

Definition cyc hd l : list K := hd :: l ++ [hd].

Definition is_list h hd l : Prop := linked h (cyc hd l) /\ NoDup (hd :: l).

(** Two memories that agree on every node outside [xs]. *)
Definition same_off xs h h' : Prop :=
  forall x, x ∉ xs -> l_next h' !! x = l_next h !! x /\ l_prev h' !! x = l_prev h !! x.

Lemma linked_app h A x y B :
  linked h (A ++ x :: y :: B) <-> linked h (A ++ [x]) /\ link h x y /\ linked h (y :: B).
Proof.
  induction A as [|a A IH]; simpl; [tauto|].
  destruct A as [|a' A]; simpl in *; [tauto|]. rewrite IH. tauto.
Qed.

Lemma linked_frame h h' xs :
  linked h xs ->
  (forall x, x ∈ removelast xs -> l_next h' !! x = l_next h !! x) ->
  (forall y, y ∈ tail xs -> l_prev h' !! y = l_prev h !! y) ->
  linked h' xs.
Proof.
  induction xs as [|x xs IH]; [done|]. destruct xs as [|y xs]; [done|].
  intros [[Hn Hp] Hl] Hnext Hprev. split.
  - split; [rewrite Hnext | rewrite Hprev]; simpl; set_solver.
  - apply IH; [done| |].
    + intros z Hz. apply Hnext. simpl. set_solver.
    + intros z Hz. apply Hprev. simpl in *. set_solver.
Qed.

Lemma elem_of_removelast xs x : x ∈ removelast xs -> x ∈ xs.
Proof.
  induction xs as [|y xs IH]; [done|]. destruct xs as [|z xs]; simpl in *; [set_solver|].
  rewrite !elem_of_cons. intros [->|Hx]; [by left|]. right.
  apply elem_of_cons, IH. done.
Qed.

Lemma removelast_app_cons A x B : removelast (A ++ x :: B) = A ++ removelast (x :: B).
Proof. by rewrite removelast_app. Qed.

Lemma removelast_cyc hd l : removelast (cyc hd l) = hd :: l.
Proof. unfold cyc. rewrite app_comm_cons. apply removelast_last. Qed.

Lemma NoDup_tail_cyc hd l : NoDup (hd :: l) -> NoDup (tail (cyc hd l)).
Proof.
  intros [Hhd Hl]%NoDup_cons. simpl. apply NoDup_app. split; [done|].
  split; [set_solver | apply NoDup_singleton].
Qed.

(** A linked sequence in which no node is left twice and none is entered twice. *)
Definition simple xs : Prop := NoDup (removelast xs) /\ NoDup (tail xs).

Lemma simple_cyc hd l : NoDup (hd :: l) -> simple (cyc hd l).
Proof. intros. split; [by rewrite removelast_cyc | by apply NoDup_tail_cyc]. Qed.

Lemma simple_split A p n B :
  simple (A ++ p :: n :: B) ->
  (p ∉ A) /\ (p ∉ removelast (n :: B)) /\ (n ∉ tail (A ++ [p])) /\ (n ∉ B).
Proof.
  intros [H1 H2]. rewrite removelast_app_cons in H1. simpl in H1.
  apply NoDup_app in H1 as (_ & HA & H1). change (match B with [] => [] | _ => n :: removelast B end)
    with (removelast (n :: B)) in *. apply NoDup_cons in H1 as [H1 _].
  assert (tail (A ++ p :: n :: B) = tail (A ++ [p]) ++ n :: B) as Ht.
  { destruct A; simpl; [done|]. by rewrite <- app_assoc. }
  rewrite Ht in H2. apply NoDup_app in H2 as (_ & H2 & H3). apply NoDup_cons in H3 as [H3 _].
  repeat split; [set_solver| done | set_solver | done].
Qed.

(** *** The two surgeries: put a node between two neighbours, take one out *)

Lemma linked_insert h A p n B new :
  linked h (A ++ p :: n :: B) -> simple (A ++ p :: n :: B) -> new ∉ A ++ p :: n :: B ->
  runs (list_insert new p n) h (fun _ h' =>
    linked h' (A ++ p :: new :: n :: B) /\ same_off [p; n; new] h h').
Proof.
  intros Hl Hs Hnew. apply simple_split in Hs as (HpA & HpB & HnA & HnB).
  unfold list_insert, set_prev, set_next. msteps. simpl.
  assert (new <> p /\ new <> n) as [Hp Hn] by set_solver.
  apply linked_app in Hl as (HA & _ & HB). split.
  - apply linked_app. split; [|split].
    + apply (linked_frame h); [done|..]; simpl.
      * rewrite removelast_last. intros x Hx. rewrite !lookup_insert_ne by set_solver. done.
      * intros y Hy. rewrite !lookup_insert_ne; [done|set_solver|].
        intros <-. apply Hnew. destruct A; simpl in *; set_solver.
    + split; simpl; by rewrite lookup_insert_eq.
    + split; [split; simpl|].
      * by rewrite lookup_insert_ne, lookup_insert_eq.
      * by rewrite lookup_insert_ne, lookup_insert_eq.
      * apply (linked_frame h); [done|..]; simpl.
        -- intros x Hx. rewrite !lookup_insert_ne; [done| |set_solver].
           intros <-. apply Hnew. apply elem_of_app. right. apply elem_of_cons. right.
           revert Hx. change (match B with [] => [] | _ => n :: removelast B end)
             with (removelast (n :: B)). apply (elem_of_removelast (n :: B)).
        -- intros y Hy. rewrite !lookup_insert_ne by set_solver. done.
  - intros x Hx. simpl. rewrite !lookup_insert_ne by set_solver. done.
Qed.

Lemma simple_remove A p e n B :
  simple (A ++ p :: e :: n :: B) -> simple (A ++ p :: n :: B).
Proof.
  unfold simple. rewrite !removelast_app_cons. simpl.
  change (match B with [] => [] | _ => n :: removelast B end) with (removelast (n :: B)).
  assert (forall z, tail (A ++ p :: z) = tail (A ++ [p]) ++ z) as Ht.
  { intros z. destruct A; simpl; [done|]. by rewrite <- app_assoc. }
  rewrite (Ht (e :: n :: B)), (Ht (n :: B)). intros [H1 H2]. split.
  - eapply sublist_NoDup; [exact H1|]. apply sublist_app; [done|].
    apply sublist_skip, sublist_cons. done.
  - eapply sublist_NoDup; [exact H2|]. apply sublist_app; [done|]. by apply sublist_cons.
Qed.

Lemma linked_join h A p e n B :
  linked h (A ++ p :: e :: n :: B) -> simple (A ++ p :: e :: n :: B) ->
  runs (list_join p n) h (fun _ h' =>
    linked h' (A ++ p :: n :: B) /\ same_off [p; n] h h').
Proof.
  intros Hl Hs. apply simple_remove, simple_split in Hs as (HpA & HpB & HnA & HnB).
  unfold list_join, set_prev, set_next. msteps. simpl.
  apply linked_app in Hl as (HA & _ & Hl). apply (linked_app h []) in Hl as (_ & _ & HB).
  split.
  - apply linked_app. split; [|split].
    + apply (linked_frame h); [done|..]; simpl.
      * rewrite removelast_last. intros x Hx. rewrite !lookup_insert_ne by set_solver. done.
      * intros y Hy. rewrite !lookup_insert_ne by set_solver. done.
    + split; simpl; by rewrite lookup_insert_eq.
    + apply (linked_frame h); [done|..]; simpl.
      * intros x Hx. rewrite !lookup_insert_ne; [done|set_solver].
      * intros y Hy. rewrite !lookup_insert_ne by set_solver. done.
  - intros x Hx. simpl. rewrite !lookup_insert_ne by set_solver. done.
Qed.

(** Where a node of a list sits in its cycle: its two neighbours. *)
Lemma cyc_around hd l1 e l2 :
  exists A p n B, cyc hd (l1 ++ e :: l2) = A ++ p :: e :: n :: B /\
    cyc hd (l1 ++ l2) = A ++ p :: n :: B /\
    p ∈ hd :: l1 /\ n ∈ l2 ++ [hd] /\
    A ++ [p] = hd :: l1 /\ n :: B = l2 ++ [hd].
Proof.
  destruct (exists_last (l := hd :: l1)) as (A & p & HA); [done|].
  destruct (l2 ++ [hd]) as [|n B] eqn:HB; [destruct l2; discriminate|].
  exists A, p, n, B. unfold cyc. rewrite <- !app_assoc. simpl.
  assert (forall z, hd :: l1 ++ z = A ++ p :: z) as Hz.
  { intros z. change (hd :: l1 ++ z) with ((hd :: l1) ++ z). rewrite HA, <- app_assoc. done. }
  rewrite HB, !Hz. repeat split; [|set_solver|done].
  rewrite HA. set_solver.
Qed.

Lemma same_off_mono xs ys h h' : xs ⊆ ys -> same_off xs h h' -> same_off ys h h'.
Proof. intros Hsub Hs x Hx. apply Hs. set_solver. Qed.

Lemma same_off_trans xs h1 h2 h3 : same_off xs h1 h2 -> same_off xs h2 h3 -> same_off xs h1 h3.
Proof. intros H1 H2 x Hx. destruct (H1 x Hx), (H2 x Hx). split; congruence. Qed.

(** A list is untouched by an operation on nodes it does not hold. *)
Lemma is_list_frame xs h h' hd l :
  same_off xs h h' -> is_list h hd l -> (forall x, x ∈ hd :: l -> x ∉ xs) -> is_list h' hd l.
Proof.
  intros Hs [Hl Hnd] Hx. split; [|done].
  apply (linked_frame h); [done| |].
  - rewrite removelast_cyc. intros x Hin. apply Hs. auto.
  - intros y Hy. apply Hs, Hx. simpl in Hy. set_solver.
Qed.

Lemma link_in_cyc h A x y B : linked h (A ++ x :: y :: B) -> link h x y.
Proof. rewrite linked_app. tauto. Qed.

Lemma next_of_spec h x y (Q : K -> lmem K -> Prop) :
  l_next h !! x = Some y -> Q y h -> runs (next_of x) h Q.
Proof. intros. by eapply runs_read. Qed.
Lemma prev_of_spec h x y (Q : K -> lmem K -> Prop) :
  l_prev h !! y = Some x -> Q x h -> runs (prev_of y) h Q.
Proof. intros. by eapply runs_read. Qed.

(** *** The operations as sequence operations *)

Lemma list_init_spec h hd :
  runs (list_init hd) h (fun _ h' => is_list h' hd [] /\ same_off [hd] h h').
Proof.
  unfold list_init, set_next, set_prev. msteps. split; [split|].
  - split; [|done]. split; simpl; by rewrite lookup_insert_eq.
  - apply NoDup_singleton.
  - intros x Hx. simpl. rewrite !lookup_insert_ne by set_solver. done.
Qed.

Lemma is_list_first h hd l : is_list h hd l -> l_next h !! hd = Some (default hd (head l)).
Proof. intros [Hl _]. destruct l; destruct Hl as [[Hn _] _]; done. Qed.

Lemma is_list_last h hd l : is_list h hd l -> l_prev h !! hd = Some (default hd (last l)).
Proof.
  intros [Hl _]. destruct l as [|x l _] using rev_ind; [by destruct Hl as [[_ ?] _]|].
  rewrite last_snoc. simpl. unfold cyc in Hl. rewrite <- app_assoc in Hl.
  apply (link_in_cyc h (hd :: l) x hd []) in Hl as [_ Hp]. done.
Qed.

Lemma list_empty_spec h hd l (Q : bool -> lmem K -> Prop) :
  is_list h hd l -> Q (bool_decide (l = [])) h -> runs (list_empty hd) h Q.
Proof.
  intros Hl HQ. unfold list_empty. mstep. eapply next_of_spec; [by apply is_list_first|].
  msteps. destruct Hl as [_ Hnd]. destruct l as [|x l]; simpl in *.
  - by rewrite bool_decide_true.
  - rewrite bool_decide_false; [done|].
    intros ->. apply NoDup_cons in Hnd as [Hnd _]. set_solver.
Qed.

(** Insertion after the element that ends [hd :: l1]. *)
Lemma list_insert_spec h hd l1 l2 new :
  is_list h hd (l1 ++ l2) -> new ∉ hd :: l1 ++ l2 ->
  runs (list_insert new (default hd (last l1)) (default hd (head l2))) h (fun _ h' =>
    is_list h' hd (l1 ++ new :: l2) /\ same_off (new :: hd :: l1 ++ l2) h h').
Proof.
  intros [Hl Hnd] Hnew.
  destruct (cyc_around hd l1 new l2) as (A & p & n & B & Hc1 & Hc2 & Hp & Hn & HA & HB).
  assert (default hd (last l1) = p) as ->.
  { destruct l1 as [|x l1 _] using rev_ind.
    - destruct A as [|? [|]]; simplify_eq/=; done.
    - rewrite last_snoc. rewrite app_comm_cons in HA. by apply app_inj_tail in HA as [_ ->]. }
  assert (default hd (head l2) = n) as -> by (destruct l2; simplify_eq/=; done).
  rewrite Hc2 in Hl. eapply runs_mono; [apply (linked_insert h A p n B new); [done|..]|].
  - rewrite <- Hc2. by apply simple_cyc.
  - rewrite <- Hc2. unfold cyc. set_solver.
  - intros [] h' [Hl' Hs]. split; [split|].
    + by rewrite Hc1.
    + apply NoDup_cons in Hnd as [Hhd Hnd]. apply NoDup_cons. split; [set_solver|].
      rewrite <- Permutation_middle. apply NoDup_cons. split; [set_solver|done].
    + eapply same_off_mono; [|exact Hs]. set_solver.
Qed.

Lemma list_add_spec h hd l new :
  is_list h hd l -> new ∉ hd :: l ->
  runs (list_add new hd) h (fun _ h' =>
    is_list h' hd (new :: l) /\ same_off (new :: hd :: l) h h').
Proof.
  intros Hl Hnew. unfold list_add. mstep.
  eapply next_of_spec; [by apply is_list_first|]. by apply (list_insert_spec h hd [] l new).
Qed.

Lemma list_add_before_spec h hd l new :
  is_list h hd l -> new ∉ hd :: l ->
  runs (list_add_before new hd) h (fun _ h' =>
    is_list h' hd (l ++ [new]) /\ same_off (new :: hd :: l) h h').
Proof.
  intros Hl Hnew. unfold list_add_before. mstep.
  eapply prev_of_spec; [by apply is_list_last|].
  rewrite <- (app_nil_r l) in Hl, Hnew.
  eapply runs_mono; [by apply (list_insert_spec h hd l [] new)|].
  intros [] h' Hh. by rewrite app_nil_r in Hh.
Qed.

Lemma list_rm_spec h hd l1 e l2 :
  is_list h hd (l1 ++ e :: l2) ->
  runs (list_rm e) h (fun _ h' =>
    is_list h' hd (l1 ++ l2) /\ same_off (hd :: l1 ++ l2) h h').
Proof.
  intros [Hl Hnd].
  destruct (cyc_around hd l1 e l2) as (A & p & n & B & Hc1 & Hc2 & Hp & Hn & HA & HB).
  rewrite Hc1 in Hl.
  assert (link h p e /\ link h e n) as [[_ Hpe] [Hen _]].
  { split; [by eapply (link_in_cyc h A)|].
    apply (link_in_cyc h (A ++ [p]) e n B). by rewrite <- app_assoc. }
  unfold list_rm. mstep. eapply prev_of_spec; [done|]. mstep. eapply next_of_spec; [done|].
  eapply runs_mono; [apply (linked_join h A p e n B); [done|]|].
  - rewrite <- Hc1. by apply simple_cyc.
  - intros [] h' [Hl' Hs]. split; [split|].
    + by rewrite Hc2.
    + rewrite app_comm_cons, <- Permutation_middle, NoDup_cons in Hnd. by destruct Hnd.
    + eapply same_off_mono; [|exact Hs]. set_solver.
Qed.

Lemma list_move_spec h hd l1 e l2 :
  is_list h hd (l1 ++ e :: l2) ->
  runs (list_move e hd) h (fun _ h' =>
    is_list h' hd (e :: l1 ++ l2) /\ same_off (hd :: l1 ++ e :: l2) h h').
Proof.
  intros Hl. unfold list_move. mstep. pose proof Hl as [_ Hnd].
  eapply runs_mono; [by apply list_rm_spec|]. intros [] h1 [Hl1 Hs1].
  rewrite app_comm_cons, <- Permutation_middle, NoDup_cons in Hnd. destruct Hnd as [He _].
  eapply runs_mono; [by apply list_add_spec|]. intros [] h2 [Hl2 Hs2]. split; [done|].
  eapply same_off_trans; (eapply same_off_mono; [|done]); set_solver.
Qed.

Lemma list_move_before_spec h hd l1 e l2 :
  is_list h hd (l1 ++ e :: l2) ->
  runs (list_move_before e hd) h (fun _ h' =>
    is_list h' hd (l1 ++ l2 ++ [e]) /\ same_off (hd :: l1 ++ e :: l2) h h').
Proof.
  intros Hl. unfold list_move_before. mstep. pose proof Hl as [_ Hnd].
  eapply runs_mono; [by apply list_rm_spec|]. intros [] h1 [Hl1 Hs1].
  rewrite app_comm_cons, <- Permutation_middle, NoDup_cons in Hnd. destruct Hnd as [He _].
  eapply runs_mono; [by apply list_add_before_spec|]. intros [] h2 [Hl2 Hs2].
  rewrite <- app_assoc in Hl2. split; [done|].
  eapply same_off_trans; (eapply same_off_mono; [|done]); set_solver.
Qed.

Lemma list_rotate_left_spec h hd l :
  is_list h hd l ->
  runs (list_rotate_left hd) h (fun _ h' =>
    is_list h' hd (match l with [] => [] | x :: l' => l' ++ [x] end) /\
    same_off (hd :: l) h h').
Proof.
  intros Hl. unfold list_rotate_left. mstep. eapply list_empty_spec; [done|].
  destruct l as [|x l]; [rewrite bool_decide_true by done; msteps; done|].
  rewrite bool_decide_false by done. mstep.
  eapply next_of_spec; [by apply is_list_first|].
  by apply (list_move_before_spec h hd [] x l).
Qed.

(** [list_replace(old, new)]: the new node takes the old one's place. *)
Lemma list_replace_spec h hd l1 old l2 new :
  is_list h hd (l1 ++ old :: l2) -> new ∉ hd :: l1 ++ old :: l2 ->
  runs (list_replace old new) h (fun _ h' =>
    is_list h' hd (l1 ++ new :: l2) /\ same_off (new :: hd :: l1 ++ l2) h h').
Proof.
  intros [Hl Hnd] Hnew.
  destruct (cyc_around hd l1 old l2) as (A & p & n & B & Hc1 & Hc2 & Hp & Hn & HA & HB).
  destruct (cyc_around hd l1 new l2) as (A' & p' & n' & B' & Hc1' & _ & _ & _ & HA' & HB').
  assert (A' = A /\ p' = p) as [-> ->] by (apply app_inj_tail; congruence).
  assert (n' = n /\ B' = B) as [-> ->] by (split; congruence). clear HA' HB'.
  rewrite Hc1 in Hl. pose proof Hl as Hl0.
  apply linked_app in Hl as (HlA & [_ Hpo] & Hl).
  apply (linked_app h []) in Hl as (_ & [Hon _] & HlB).
  pose proof (simple_cyc hd (l1 ++ old :: l2) Hnd) as Hs. rewrite Hc1 in Hs.
  apply simple_remove, simple_split in Hs as (HpA & HpB & HnA & HnB).
  assert (Hnew' : new ∉ A ++ p :: old :: n :: B) by (rewrite <- Hc1; unfold cyc; set_solver).
  assert (Hold : old <> p /\ old <> n /\ new <> old /\ new <> p /\ new <> n).
  { rewrite app_comm_cons, <- Permutation_middle, NoDup_cons in Hnd. destruct Hnd as [Ho _].
    repeat split; set_solver. }
  destruct Hold as (Hop & Hon' & Hno & Hnp & Hnn).
  unfold list_replace, set_next, set_prev.
  mstep. eapply next_of_spec; [exact Hon|]. do 2 mstep.
  mstep. eapply (next_of_spec _ _ n); simpl; [by rewrite lookup_insert_eq|]. do 2 mstep.
  mstep. eapply (prev_of_spec _ p); simpl; [by rewrite lookup_insert_ne|]. do 2 mstep.
  mstep. eapply (prev_of_spec _ p); simpl; [by rewrite lookup_insert_eq|]. msteps. simpl.
  split; [split|].
  - rewrite Hc1'. apply linked_app. split; [|split].
    + apply (linked_frame h); [done|..]; simpl.
      * rewrite removelast_last. intros x Hx. rewrite !lookup_insert_ne by set_solver. done.
      * intros y Hy. assert (y ∈ A ++ [p]) by (destruct A; simpl in *; set_solver).
        rewrite !lookup_insert_ne by set_solver. done.
    + split; simpl; by rewrite lookup_insert_eq.
    + split; [split; simpl|].
      * by rewrite lookup_insert_ne, lookup_insert_eq.
      * by rewrite lookup_insert_ne, lookup_insert_eq.
      * apply (linked_frame h); [done|..]; simpl.
        -- intros x Hx. assert (x ∈ n :: B) by by apply elem_of_removelast.
           rewrite !lookup_insert_ne; [done|set_solver|set_solver].
        -- intros y Hy. rewrite !lookup_insert_ne by set_solver. done.
  - rewrite app_comm_cons, <- Permutation_middle, NoDup_cons in Hnd |- *.
    destruct Hnd as [_ Hnd]. split; [set_solver|done].
  - intros x Hx. simpl. rewrite !lookup_insert_ne by set_solver. done.
Qed.

(** The traversal ends and visits the elements in order. *)
Lemma list_for_each_spec h hd l fuel :
  is_list h hd l -> (length l < fuel)%nat ->
  runs (list_for_each fuel hd) h (fun xs h' => xs = l /\ h' = h).
Proof.
  intros Hl Hf. unfold list_for_each. mstep.
  eapply next_of_spec; [by apply is_list_first|].
  apply (runs_iterM
    (fun '(pos, seen) h' => h' = h /\ exists l2, l = reverse seen ++ l2 /\ pos = default hd (head l2))
    (fun '(pos, seen) _ => length l - length seen)%nat).
  - intros [pos seen] h' (-> & l2 & -> & ->). destruct Hl as [Hl Hnd].
    destruct l2 as [|x l2]; simpl.
    + rewrite bool_decide_true by done. mstep. by rewrite app_nil_r.
    + rewrite bool_decide_false.
      2:{ intros ->. apply NoDup_cons in Hnd as [Hnd _]. set_solver. }
      mstep. eapply (next_of_spec _ _ (default hd (head l2))).
      { destruct (cyc_around hd (reverse seen) x l2) as (A & p & n & B & Hc & _ & _ & _ & _ & HB).
        rewrite Hc in Hl. replace (default hd (head l2)) with n by (destruct l2; simplify_eq/=; done).
        apply (link_in_cyc h (A ++ [p]) x n B). by rewrite <- app_assoc. }
      mstep. split; [split; [done|]|].
      * exists l2. by rewrite reverse_cons, <- app_assoc.
      * rewrite length_app, length_reverse. simpl. lia.
  - split; [done|]. by exists l.
  - simpl. lia.
Qed.
End Lists.

(** *** Refinement: programs of list operations against sequences *)

Module ListRefine.
Section Refine.
Context {K : Type} `{Countable K}.
Implicit Types (h : lmem K) (hd e new : K) (l : list K).

Inductive lop : Type :=
| LAdd (new : K)              (* list_add(new, head) *)
| LAddTail (new : K)          (* list_add_before(new, head) *)
| LRm (e : K)                 (* list_rm(e) *)
| LMove (e : K)               (* list_move(e, head) *)
| LMoveTail (e : K)           (* list_move_before(e, head) *)
| LRotate                     (* list_rotate_left(head) *)
| LReplace (old new : K).     (* list_replace(old, new) *)

Definition exec hd (o : lop) : M (lmem K) unit :=
  match o with
  | LAdd new => list_add new hd
  | LAddTail new => list_add_before new hd
  | LRm e => list_rm e
  | LMove e => list_move e hd
  | LMoveTail e => list_move_before e hd
  | LRotate => list_rotate_left hd
  | LReplace old new => list_replace old new
  end.

Fixpoint exec_all hd (os : list lop) : M (lmem K) unit :=
  match os with
  | [] => mret tt
  | o :: os' => exec hd o;; exec_all hd os'
  end.

Definition remove1 e l : list K := filter (fun x => x <> e) l.

(** What the operation does to the sequence; [None] when the caller broke the
    operation's precondition. *)
Definition step hd (o : lop) l : option (list K) :=
  match o with
  | LAdd new => if bool_decide (new ∈ hd :: l) then None else Some (new :: l)
  | LAddTail new => if bool_decide (new ∈ hd :: l) then None else Some (l ++ [new])
  | LRm e => if bool_decide (e ∈ l) then Some (remove1 e l) else None
  | LMove e => if bool_decide (e ∈ l) then Some (e :: remove1 e l) else None
  | LMoveTail e => if bool_decide (e ∈ l) then Some (remove1 e l ++ [e]) else None
  | LRotate => Some (match l with [] => [] | x :: l' => l' ++ [x] end)
  | LReplace old new =>
      if bool_decide (old ∈ l) then
        if bool_decide (new ∈ hd :: l) then None
        else Some ((fun x => if bool_decide (x = old) then new else x) <$> l)
      else None
  end.

Fixpoint steps hd (os : list lop) l : option (list K) :=
  match os with
  | [] => Some l
  | o :: os' => l' ← step hd o l; steps hd os' l'
  end.

Lemma filter_absent e l : e ∉ l -> remove1 e l = l.
Proof.
  induction l as [|x l IH]; [done|]. intros He. unfold remove1 in *.
  rewrite filter_cons_True by set_solver. f_equal. apply IH. set_solver.
Qed.

Lemma remove1_split e l1 l2 : NoDup (l1 ++ e :: l2) -> remove1 e (l1 ++ e :: l2) = l1 ++ l2.
Proof.
  intros Hnd. rewrite <- Permutation_middle, NoDup_cons in Hnd. destruct Hnd as [He _].
  unfold remove1. rewrite filter_app, filter_cons_False by tauto.
  change (remove1 e l1 ++ remove1 e l2 = l1 ++ l2).
  rewrite !filter_absent by set_solver. done.
Qed.

Lemma replace_absent (old new : K) l :
  old ∉ l -> (fun x => if bool_decide (x = old) then new else x) <$> l = l.
Proof.
  induction l as [|x l IH]; intros Ho; [done|]. rewrite fmap_cons, IH by set_solver.
  rewrite bool_decide_false by set_solver. done.
Qed.

Lemma is_list_NoDup h hd l : is_list h hd l -> NoDup l.
Proof. intros [_ Hnd]. by apply NoDup_cons in Hnd as [_ ?]. Qed.

Lemma exec_step h hd l o l' :
  is_list h hd l -> step hd o l = Some l' ->
  runs (exec hd o) h (fun _ h' => is_list h' hd l').
Proof.
  intros Hl Hstep. pose proof (is_list_NoDup _ _ _ Hl) as Hnd.
  destruct o as [new|new|e|e|e| |old new]; simpl in *;
    repeat (case_bool_decide; simplify_eq);
    try match goal with He : _ ∈ l |- _ =>
      apply list_elem_of_split in He as (l1 & l2 & ->) end;
    rewrite ?remove1_split by done.
  - eapply runs_mono; [by apply list_add_spec|]. naive_solver.
  - eapply runs_mono; [by apply list_add_before_spec|]. naive_solver.
  - eapply runs_mono; [by apply list_rm_spec|]. naive_solver.
  - eapply runs_mono; [by apply list_move_spec|]. naive_solver.
  - rewrite <- app_assoc. eapply runs_mono; [by apply list_move_before_spec|]. naive_solver.
  - eapply runs_mono; [by apply list_rotate_left_spec|]. naive_solver.
  - rewrite <- Permutation_middle, NoDup_cons in Hnd. destruct Hnd as [Ho _].
    rewrite fmap_app, fmap_cons, !replace_absent, bool_decide_true by set_solver.
    eapply runs_mono; [by apply list_replace_spec|]. naive_solver.
Qed.

Lemma exec_steps os : forall h hd l l',
  is_list h hd l -> steps hd os l = Some l' ->
  runs (exec_all hd os) h (fun _ h' => is_list h' hd l').
Proof.
  induction os as [|o os IH]; intros h hd l l' Hl Hs; simpl in *.
  - simplify_eq. by apply runs_ret.
  - destruct (step hd o l) as [l1|] eqn:Ho; [|done]. mstep.
    eapply runs_mono; [by eapply exec_step|]. intros [] h1 Hl1. eauto.
Qed.

(** C40: a program of list operations, started on a freshly initialised head,
    implements the same program on a mathematical sequence: whenever the sequence
    program is defined the pointer program runs without a wild access, and the
    traversal macro then ends and visits exactly the sequence. *)
Theorem list_program_refines h hd os l fuel :
  steps hd os [] = Some l -> (length l < fuel)%nat ->
  runs (list_init hd;; exec_all hd os;; list_for_each fuel hd) h (fun xs _ => xs = l).
Proof.
  intros Hs Hf. mstep. eapply runs_mono; [apply list_init_spec|]. intros [] h1 [Hl _].
  mstep. eapply runs_mono; [by eapply exec_steps|]. intros [] h2 Hl2.
  eapply runs_mono; [by apply list_for_each_spec|]. naive_solver.
Qed.
End Refine.

Lemma list_program_refines_witness :
  runs (list_init 0%Z;;
        exec_all 0%Z [LAdd 1; LAdd 2; LAddTail 3; LMove 3; LReplace 1 4; LRotate; LRm 2];;
        list_for_each 10 0%Z) (LMem ∅ ∅) (fun xs _ => xs = [4; 3]).
Proof.
  apply (list_program_refines (LMem ∅ ∅) 0%Z
    [LAdd 1; LAdd 2; LAddTail 3; LMove 3; LReplace 1 4; LRotate; LRm 2] [4; 3] 10).
  - vm_compute. reflexivity.
  - simpl. lia.
Defined.
End ListRefine.

(** ** Chains: singly headed lists with a back pointer to the previous link

    A [chain_node_t **] is either the [first] field of a head or the [next] field of
    a node. *)

Record cmem (H K : Type) `{Countable H, Countable K} := CMem {
  c_first : gmap H (option K);
  c_next : gmap K (option K);
  c_pprev : gmap K (option (H + K));
}.
Arguments CMem {_ _ _ _ _ _} _ _ _.
Arguments c_first {_ _ _ _ _ _} _.
Arguments c_next {_ _ _ _ _ _} _.
Arguments c_pprev {_ _ _ _ _ _} _.

Section Chains.
Context {H K : Type} `{CH : Countable H, CK : Countable K}.
#[local] Notation ref := (H + K)%type.
Implicit Types (c : cmem H K) (hd : H) (n x : K) (r : ref) (l : list K).

Definition deref c r : option (option K) :=
  match r with inl hd => c_first c !! hd | inr n => c_next c !! n end.

Definition load r : M (cmem H K) (option K) := read (fun c => deref c r).
Definition assign c r (v : option K) : cmem H K :=
  match r with
  | inl hd => CMem (<[hd := v]> (c_first c)) (c_next c) (c_pprev c)
  | inr n => CMem (c_first c) (<[n := v]> (c_next c)) (c_pprev c)
  end.
Definition store r (v : option K) : M (cmem H K) unit := modify (fun c => assign c r v).
Definition pprev_of n : M (cmem H K) (option ref) := read (fun c => c_pprev c !! n).
Definition assign_pprev c n (v : option ref) : cmem H K :=
  CMem (c_first c) (c_next c) (<[n := v]> (c_pprev c)).
Definition set_pprev n (v : option ref) : M (cmem H K) unit :=
  modify (fun c => assign_pprev c n v).

Definition chain_init (head : H) : M (cmem H K) unit := store (inl head) None.

Definition chain_init_node (h : K) : M (cmem H K) unit :=
  store (inr h) None;; set_pprev h None.

Definition chain_unhashed (h : K) : M (cmem H K) bool :=
  pp ← pprev_of h; mret (bool_decide (pp = None)).

Definition chain_empty (h : H) : M (cmem H K) bool :=
  f ← load (inl h); mret (bool_decide (f = None)).

Definition chain_join (pprev : option ref) (next : option K) : M (cmem H K) unit :=
  match pprev with
  | None => fault
  | Some r =>
      store r next;;
      match next with
      | Some n => set_pprev n (Some r)
      | None => mret tt
      end
  end.

Definition chain_rm (n : K) : M (cmem H K) unit :=
  pp ← pprev_of n; nx ← load (inr n);
  chain_join pp nx;;
  store (inr n) None;;
  set_pprev n None.

Definition chain_add_head (n : K) (h : H) : M (cmem H K) unit :=
  first ← load (inl h);
  store (inr n) first;;
  match first with
  | Some f => set_pprev f (Some (inr n))
  | None => mret tt
  end;;
  store (inl h) (Some n);;
  set_pprev n (Some (inl h)).

Definition chain_add_before (n next : K) : M (cmem H K) unit :=
  pp ← pprev_of next; set_pprev n pp;;
  store (inr n) (Some next);;
  set_pprev next (Some (inr n));;
  npp ← pprev_of n;
  match npp with
  | Some r => store r (Some n)
  | None => fault
  end.

Definition chain_add_after (n next : K) : M (cmem H K) unit :=
  nx ← load (inr n); store (inr next) nx;;
  store (inr n) (Some next);;
  set_pprev next (Some (inr n));;
  nn ← load (inr next);
  match nn with
  | Some m => set_pprev m (Some (inr next))
  | None => mret tt
  end.

Definition chain_move_list (old new : H) : M (cmem H K) unit :=
  f ← load (inl old); store (inl new) f;;
  match f with
  | Some n => set_pprev n (Some (inl new))
  | None => mret tt
  end;;
  store (inl old) None.

(** [CHAIN_FOR_EACH(pos, head)]: the nodes visited. *)
Definition chain_for_each (fuel : nat) (head : H) : M (cmem H K) (list K) :=
  pos0 ← load (inl head);
  iterM fuel (fun '(pos, seen) =>
    match pos with
    | None => mret (inr (reverse seen))
    | Some n => nx ← load (inr n); mret (inl (nx, n :: seen))
    end) (pos0, []).

(** *** What a chain holds *)

Fixpoint clinked c r l : Prop :=
  match l with
  | [] => deref c r = Some None
  | x :: l' => deref c r = Some (Some x) /\ c_pprev c !! x = Some (Some r) /\ clinked c (inr x) l'
  end.

(** The part of a chain from [r] through [l], up to the link after it. *)
Fixpoint cseg c r l : Prop :=
  match l with
  | [] => True
  | x :: l' => deref c r = Some (Some x) /\ c_pprev c !! x = Some (Some r) /\ cseg c (inr x) l'
  end.

Definition end_ref r l : ref := match last l with Some x => inr x | None => r end.

Definition is_chain c hd l : Prop := clinked c (inl hd) l /\ NoDup l.

Lemma end_ref_cons r x l : end_ref r (x :: l) = end_ref (inr x) l.
Proof. unfold end_ref. rewrite last_cons. by destruct (last l). Qed.

Lemma clinked_app c l1 : forall r l2,
  clinked c r (l1 ++ l2) <-> cseg c r l1 /\ clinked c (end_ref r l1) l2.
Proof.
  induction l1 as [|x l1 IH]; intros r l2; simpl; [tauto|].
  rewrite IH, end_ref_cons. tauto.
Qed.

Lemma clinked_frame c c' l : forall r,
  clinked c r l ->
  (forall r', r' ∈ r :: (inr <$> l) -> deref c' r' = deref c r') ->
  (forall x, x ∈ l -> c_pprev c' !! x = c_pprev c !! x) ->
  clinked c' r l.
Proof.
  induction l as [|x l IH]; intros r Hl Hd Hp; simpl in *.
  - rewrite Hd; [done|set_solver].
  - destruct Hl as (H1 & H2 & H3). rewrite Hd, Hp by set_solver. split; [done|]. split; [done|].
    apply IH; [done| |]; intros; [apply Hd|apply Hp]; set_solver.
Qed.

Lemma cseg_frame c c' l : forall r,
  cseg c r l ->
  (forall r', r' ∈ removelast (r :: (inr <$> l)) -> deref c' r' = deref c r') ->
  (forall x, x ∈ l -> c_pprev c' !! x = c_pprev c !! x) ->
  cseg c' r l.
Proof.
  induction l as [|x l IH]; intros r Hl Hd Hp; [done|].
  destruct Hl as (H1 & H2 & H3). simpl.
  rewrite Hd, Hp by (simpl; set_solver). split; [done|]. split; [done|].
  apply IH; [done| |].
  - intros r' Hr'. apply Hd. simpl in *. set_solver.
  - intros. apply Hp. set_solver.
Qed.

(** The link a segment stops at is not one it reads. *)
Lemma end_ref_fresh hd l : NoDup l -> end_ref (inl hd) l ∉ removelast (inl hd :: (inr <$> l) : list ref).
Proof.
  intros Hnd. unfold end_ref. destruct l as [|x l _] using rev_ind; [set_solver|].
  rewrite last_snoc.
  assert (removelast (inl hd :: (inr <$> l ++ [x]) : list ref) = inl hd :: (inr <$> l)) as ->.
  { rewrite fmap_app. apply (removelast_last (inl hd :: (inr <$> l)) (inr x)). }
  apply NoDup_app in Hnd as (_ & Hx & _).
  rewrite elem_of_cons, list_elem_of_fmap. set_solver.
Qed.

Lemma load_spec c r v (Q : option K -> cmem H K -> Prop) :
  deref c r = Some v -> Q v c -> runs (load r) c Q.
Proof. intros. by eapply runs_read. Qed.
Lemma pprev_of_spec c n v (Q : option ref -> cmem H K -> Prop) :
  c_pprev c !! n = Some v -> Q v c -> runs (pprev_of n) c Q.
Proof. intros. by eapply runs_read. Qed.

(** Two chain memories that agree outside the links [rs] and the nodes [xs]. *)
Definition csame_off (rs : list ref) (xs : list K) c c' : Prop :=
  (forall r, r ∉ rs -> deref c' r = deref c r) /\
  (forall x, x ∉ xs -> c_pprev c' !! x = c_pprev c !! x).

Lemma is_chain_frame rs xs c c' hd l :
  csame_off rs xs c c' -> is_chain c hd l ->
  (forall r, r ∈ inl hd :: (inr <$> l) -> r ∉ rs) -> (forall x, x ∈ l -> x ∉ xs) ->
  is_chain c' hd l.
Proof.
  intros [Hd Hp] [Hl Hnd] Hr Hx. split; [|done]. eapply clinked_frame; [done| |]; eauto.
Qed.

Lemma deref_assign c r v r' :
  deref (assign c r v) r' = if bool_decide (r' = r) then Some v else deref c r'.
Proof.
  case_bool_decide as He; [subst; destruct r; simpl; by rewrite lookup_insert_eq|].
  destruct r as [hd|n], r' as [hd'|n']; simpl; rewrite ?lookup_insert_ne; congruence.
Qed.
Lemma deref_assign_eq c r v : deref (assign c r v) r = Some v.
Proof. rewrite deref_assign. by rewrite bool_decide_true. Qed.
Lemma deref_assign_ne c r v r' : r <> r' -> deref (assign c r v) r' = deref c r'.
Proof. intros. rewrite deref_assign. by rewrite bool_decide_false. Qed.
Lemma pprev_assign c r v : c_pprev (assign c r v) = c_pprev c.
Proof. by destruct r. Qed.
Lemma deref_assign_pprev c n v r : deref (assign_pprev c n v) r = deref c r.
Proof. by destruct r. Qed.
Lemma pprev_assign_pprev_eq c n v : c_pprev (assign_pprev c n v) !! n = Some v.
Proof. apply lookup_insert_eq. Qed.
Lemma pprev_assign_pprev_ne c n v x :
  n <> x -> c_pprev (assign_pprev c n v) !! x = c_pprev c !! x.
Proof. apply lookup_insert_ne. Qed.

Arguments assign : simpl never.
Arguments assign_pprev : simpl never.
Arguments deref : simpl never.
Create Rewrite HintDb chain.
Hint Rewrite deref_assign_pprev pprev_assign pprev_assign_pprev_eq deref_assign_eq : chain.
Hint Rewrite deref_assign_ne pprev_assign_pprev_ne using (done || set_solver) : chain.

(** *** The operations as sequence operations *)

Lemma chain_init_spec c hd :
  runs (chain_init hd) c (fun _ c' => is_chain c' hd [] /\ csame_off [inl hd] [] c c').
Proof.
  unfold chain_init, store. msteps. split; [split; [|constructor]|split].
  - cbn [clinked]. by autorewrite with chain.
  - intros r Hr. by autorewrite with chain.
  - intros x Hx. by autorewrite with chain.
Qed.

Lemma is_chain_first c hd l : is_chain c hd l -> deref c (inl hd) = Some (head l).
Proof. intros [Hl _]. destruct l; simpl in *; tauto. Qed.

Lemma chain_add_head_spec c hd l n :
  is_chain c hd l -> n ∉ l ->
  runs (chain_add_head n hd) c (fun _ c' =>
    is_chain c' hd (n :: l) /\ csame_off [inl hd; inr n] (n :: l) c c').
Proof.
  intros Hc Hn. unfold chain_add_head, store, set_pprev. mstep.
  eapply load_spec; [by apply is_chain_first|]. destruct Hc as [Hl Hnd].
  do 3 mstep.
  destruct l as [|f l]; cbn [head]; msteps; (split; [split; [cbn [clinked]|by constructor]|]).
  - by autorewrite with chain.
  - split; intros; by autorewrite with chain.
  - destruct Hl as (_ & _ & Hl). autorewrite with chain.
    do 4 (split; [done|]). apply NoDup_cons in Hnd as [Hf Hnd].
    eapply clinked_frame; [exact Hl| |].
    + intros r Hr. rewrite elem_of_cons, list_elem_of_fmap in Hr.
      assert (r <> inl hd /\ r <> inr n) as [??] by (split; set_solver).
      by autorewrite with chain.
    + intros x Hx. by autorewrite with chain.
  - split; intros; by autorewrite with chain.
Qed.

Lemma end_ref_in hd l : end_ref (inl hd) l ∈ (inl hd :: (inr <$> l) : list ref).
Proof.
  unfold end_ref. destruct (last l) as [x|] eqn:Hx; [|set_solver].
  apply elem_of_cons. right. apply list_elem_of_fmap_2, last_Some_elem_of. done.
Qed.

(** Cutting a chain at a node: its back link, and what comes before and after. *)
Lemma is_chain_cut c hd l1 n l2 :
  is_chain c hd (l1 ++ n :: l2) ->
  let r := end_ref (inl hd) l1 in
  c_pprev c !! n = Some (Some r) /\ deref c (inr n) = Some (head l2) /\
  cseg c (inl hd) l1 /\ clinked c (inr n) l2 /\
  (forall x, r = inr x -> x ∈ l1) /\ (n ∉ l1) /\ (n ∉ l2) /\ NoDup (l1 ++ l2) /\
  (r ∉ removelast (inl hd :: (inr <$> l1) : list ref)).
Proof.
  intros [Hl Hnd] r. apply clinked_app in Hl as (H1 & _ & H2 & H3).
  pose proof (end_ref_in hd l1) as Hr. apply NoDup_app in Hnd as Hnd'.
  destruct Hnd' as (Hnd1 & _ & _).
  rewrite <- Permutation_middle, NoDup_cons in Hnd. destruct Hnd as [Hn Hnd].
  repeat split; [done| |done|done| |set_solver|set_solver|done|by apply end_ref_fresh].
  - destruct l2; simpl in H3; tauto.
  - intros x Hx. subst r. rewrite Hx in Hr. rewrite elem_of_cons, list_elem_of_fmap in Hr.
    set_solver.
Qed.

Lemma removelast_refs hd l r :
  r ∈ removelast (inl hd :: (inr <$> l) : list ref) -> r = inl hd \/ exists x, r = inr x /\ x ∈ l.
Proof.
  intros Hr%elem_of_removelast. rewrite elem_of_cons, list_elem_of_fmap in Hr. set_solver.
Qed.

(** The tail of a chain hung under another link. *)
Lemma clinked_rehang c c' r r' l :
  clinked c r l -> NoDup l -> deref c' r' = Some (head l) ->
  (forall m, head l = Some m -> c_pprev c' !! m = Some (Some r')) ->
  (forall x, x ∈ l -> deref c' (inr x) = deref c (inr x)) ->
  (forall x, x ∈ tail l -> c_pprev c' !! x = c_pprev c !! x) ->
  clinked c' r' l.
Proof.
  intros Hl Hnd Hr' Hm Hd Hp. destruct l as [|m l]; [done|].
  destruct Hl as (_ & _ & Hl). split; [done|]. split; [by apply Hm|].
  eapply clinked_frame; [exact Hl| |done].
  intros r0. rewrite elem_of_cons, list_elem_of_fmap.
  intros [->|(x & -> & Hx)]; apply Hd; set_solver.
Qed.

Lemma chain_bypass c c' hd l1 n l2 :
  is_chain c hd (l1 ++ n :: l2) ->
  let r := end_ref (inl hd) l1 in
  deref c' r = Some (head l2) ->
  (forall r', r' <> r -> r' <> inr n -> deref c' r' = deref c r') ->
  (forall m, head l2 = Some m -> c_pprev c' !! m = Some (Some r)) ->
  (forall x, x <> n -> head l2 <> Some x -> c_pprev c' !! x = c_pprev c !! x) ->
  is_chain c' hd (l1 ++ l2).
Proof.
  intros Hc r Hr Hd Hm Hp. pose proof (is_chain_cut _ _ _ _ _ Hc) as
    (_ & _ & Hseg & Hl2 & Hrx & Hn1 & Hn2 & Hnd & Hfresh). fold r in Hrx, Hfresh.
  apply NoDup_app in Hnd as Hnd'. destruct Hnd' as (_ & Hdis & Hnd2).
  split; [|done]. apply clinked_app. split.
  - eapply cseg_frame; [exact Hseg| |].
    + intros r' Hr'. pose proof (removelast_refs _ _ _ Hr').
      apply Hd; [congruence|set_solver].
    + intros x Hx. apply Hp; [congruence|]. destruct l2; set_solver.
  - eapply clinked_rehang; [exact Hl2|done..| |].
    + intros x Hx. apply Hd; [|congruence]. intros <-. by eapply Hdis, Hx; apply Hrx.
    + intros x Hx. destruct l2 as [|m l2]; simpl in Hx; [set_solver|].
      apply NoDup_cons in Hnd2 as [Hm2 _]. apply Hp; simpl; [|congruence].
      intros ->. set_solver.
Qed.

Lemma chain_rm_spec c hd l1 n l2 :
  is_chain c hd (l1 ++ n :: l2) ->
  runs (chain_rm n) c (fun _ c' =>
    is_chain c' hd (l1 ++ l2) /\ c_pprev c' !! n = Some None /\
    csame_off [end_ref (inl hd) l1; inr n] (n :: l2) c c').
Proof.
  intros Hc. pose proof (is_chain_cut _ _ _ _ _ Hc) as
    (Hpp & Hnx & _ & _ & Hr & Hn1 & Hn2 & _ & _).
  unfold chain_rm, chain_join, store, set_pprev. mstep. eapply pprev_of_spec; [done|].
  mstep. eapply load_spec; [done|]. do 3 mstep.
  assert (Hrn : end_ref (inl hd) l1 <> inr n) by (intros E; by apply Hn1, Hr).
  destruct l2 as [|m l2]; cbn [head]; msteps; (split; [eapply chain_bypass; [exact Hc|..]|split]).
  all: try (intros; cbn [head] in *; simplify_eq; by autorewrite with chain).
  all: split; intros; by autorewrite with chain.
Qed.

Lemma chain_splice c c' hd l1 n l2 :
  is_chain c hd (l1 ++ l2) -> n ∉ l1 ++ l2 ->
  let r := end_ref (inl hd) l1 in
  deref c' r = Some (Some n) -> c_pprev c' !! n = Some (Some r) ->
  deref c' (inr n) = Some (head l2) ->
  (forall r', r' <> r -> r' <> inr n -> deref c' r' = deref c r') ->
  (forall m, head l2 = Some m -> c_pprev c' !! m = Some (Some (inr n))) ->
  (forall x, x <> n -> head l2 <> Some x -> c_pprev c' !! x = c_pprev c !! x) ->
  is_chain c' hd (l1 ++ n :: l2).
Proof.
  intros [Hl Hnd] Hn r Hr Hnr Hnx Hd Hm Hp.
  apply clinked_app in Hl as [Hseg Hl2]. fold r in Hl2.
  apply NoDup_app in Hnd as Hnd'. destruct Hnd' as (Hnd1 & Hdis & Hnd2).
  pose proof (end_ref_in hd l1) as Hin. fold r in Hin.
  rewrite elem_of_cons, list_elem_of_fmap in Hin.
  split.
  2:{ rewrite <- Permutation_middle. by constructor. }
  apply clinked_app. fold r. split; [|cbn [clinked]; do 2 (split; [done|])].
  - eapply cseg_frame; [exact Hseg| |].
    + intros r' Hr'. pose proof (removelast_refs _ _ _ Hr').
      pose proof (end_ref_fresh hd l1 Hnd1) as Hfresh. fold r in Hfresh.
      apply Hd; [congruence|set_solver].
    + intros x Hx. apply Hp; [set_solver|]. destruct l2; set_solver.
  - eapply clinked_rehang; [exact Hl2|done..| |].
    + intros x Hx. apply Hd; [|set_solver]. intros E. rewrite <- E in Hin. set_solver.
    + intros x Hx. destruct l2 as [|m l2]; simpl in Hx; [set_solver|].
      apply NoDup_cons in Hnd2 as [Hm2 _]. apply Hp; simpl; [set_solver|congruence].
Qed.

Lemma chain_add_before_spec c hd l1 next l2 n :
  is_chain c hd (l1 ++ next :: l2) -> n ∉ l1 ++ next :: l2 ->
  runs (chain_add_before n next) c (fun _ c' => is_chain c' hd (l1 ++ n :: next :: l2)).
Proof.
  intros Hc Hn. pose proof (is_chain_cut _ _ _ _ _ Hc) as (Hpp & _ & _ & _ & Hr & Hn1 & _).
  assert (n <> next /\ end_ref (inl hd) l1 <> inr n) as [Hne Hrn].
  { split; [set_solver|]. intros E%Hr. set_solver. }
  unfold chain_add_before, store, set_pprev. mstep. eapply pprev_of_spec; [done|]. do 6 mstep.
  mstep. eapply pprev_of_spec; [by autorewrite with chain|]. msteps.
  eapply chain_splice; [exact Hc|done|..]; intros; cbn [head] in *; simplify_eq;
    by autorewrite with chain.
Qed.

Lemma chain_add_after_spec c hd l1 n l2 next :
  is_chain c hd (l1 ++ n :: l2) -> next ∉ l1 ++ n :: l2 ->
  runs (chain_add_after n next) c (fun _ c' => is_chain c' hd (l1 ++ n :: next :: l2)).
Proof.
  intros Hc Hn. pose proof (is_chain_cut _ _ _ _ _ Hc) as (_ & Hnx & _ & _ & _ & _ & Hn2 & _).
  assert (Hne : next <> n) by set_solver.
  unfold chain_add_after, store, set_pprev. mstep. eapply load_spec; [done|]. do 6 mstep.
  mstep. eapply load_spec; [by autorewrite with chain|].
  replace (l1 ++ n :: next :: l2) with ((l1 ++ [n]) ++ next :: l2) by by rewrite <- app_assoc.
  assert (end_ref (inl hd) (l1 ++ [n]) = inr n) as Er by by (unfold end_ref; rewrite last_snoc).
  change (n :: l2) with ([n] ++ l2) in Hc, Hn. rewrite app_assoc in Hc, Hn.
  destruct l2 as [|m l2]; cbn [head]; msteps; (eapply chain_splice; [exact Hc|done|..]);
    rewrite ?Er; intros; cbn [head] in *; simplify_eq; try by autorewrite with chain.
  all: assert (m <> next) by set_solver; assert (n <> m) by set_solver.
  all: autorewrite with chain; done.
Qed.

Lemma chain_move_list_spec c old new l :
  is_chain c old l -> old <> new ->
  runs (chain_move_list old new) c (fun _ c' =>
    is_chain c' new l /\ is_chain c' old []).
Proof.
  intros Hc Hne. pose proof Hc as [Hl Hnd]. unfold chain_move_list, store, set_pprev. mstep.
  eapply load_spec; [by apply is_chain_first|]. do 3 mstep.
  assert (inl old <> (inl new : ref)) by congruence.
  destruct l as [|n l]; cbn [head]; msteps; (split; [split; [|done]|split; [|constructor]]).
  all: try (cbn [clinked]; by autorewrite with chain).
  eapply clinked_rehang; [exact Hl|done|..]; cbn [head tail]; intros.
  all: try apply NoDup_cons in Hnd as [Hn _]; simplify_eq; autorewrite with chain; try done.
Qed.

Lemma chain_for_each_spec c hd l fuel :
  is_chain c hd l -> (length l < fuel)%nat ->
  runs (chain_for_each fuel hd) c (fun xs c' => xs = l /\ c' = c).
Proof.
  intros Hc Hf. unfold chain_for_each. mstep.
  eapply load_spec; [by apply is_chain_first|].
  apply (runs_iterM
    (fun '(pos, seen) c' => c' = c /\ exists l2, l = reverse seen ++ l2 /\ pos = head l2)
    (fun '(pos, seen) _ => length l - length seen)%nat).
  - intros [pos seen] c' (-> & l2 & -> & ->). destruct l2 as [|x l2]; cbn [head].
    + mstep. by rewrite app_nil_r.
    + mstep. eapply load_spec; [apply (is_chain_cut _ _ _ _ _ Hc)|]. mstep.
      split; [split; [done|]|].
      * exists l2. by rewrite reverse_cons, <- app_assoc.
      * rewrite length_app, length_reverse. simpl. lia.
  - split; [done|]. by exists l.
  - simpl. lia.
Qed.
End Chains.

(** ** hashtable.h: an array of [2^bits] chains

    The head of bucket [i] is [&hashtable[i]], here the index [i]. A table declared
    with [DEFINE_HASHTABLE(name, b)] has [1 << (b - 1)] buckets, one declared with
    [DECLARE_HASHTABLE(name, b)] has [1 << b]; in both cases the macros index it with
    [hash(key, log2(ARRAY_SIZE(name)))]. *)

Module Hashtable.
Section Table.
Context {K : Type} `{CK : Countable K}.
Implicit Types (c : cmem Z K) (n : K) (l : list K).

Definition HASHTABLE_BITS (size : Z) : option Z := log2_const size.

(** [hash(val, bits)] for a key of at most 32 bits. *)
Definition bucket (key size : Z) : option Z :=
  bits ← HASHTABLE_BITS size; Some (hash_32 key bits).

Definition hashtable_init_size (size : Z) : M (cmem Z K) unit :=
  forM 0 (Z.to_nat size) (fun i => chain_init i).

Definition in_bucket {A} (key size : Z) (f : Z -> M (cmem Z K) A) : M (cmem Z K) A :=
  match bucket key size with
  | Some i => if (0 <=? i) && (i <? size) then f i else fault
  | None => fault
  end.

Definition hashtable_add (key : Z) (node : K) (size : Z) : M (cmem Z K) unit :=
  in_bucket key size (fun i => chain_add_head node i).

Definition hashtable_rm (node : K) : M (cmem Z K) unit := chain_rm node.

(** [HASHTABLE_FOR_EACH_COLLISION(key, pos, ...)]: the nodes of the key's bucket. *)
Definition hashtable_collisions (fuel : nat) (key size : Z) : M (cmem Z K) (list K) :=
  in_bucket key size (fun i => chain_for_each fuel i).

(** A table of [2^b] buckets holding, in bucket [i], the nodes [T i]; no node is
    in two buckets. *)
Definition is_table c (size : Z) (T : Z -> list K) : Prop :=
  (exists b, 0 <= b <= 32 /\ size = 2 ^ b) /\
  (forall i, 0 <= i < size -> is_chain c i (T i)) /\
  (forall i j n, 0 <= i < size -> 0 <= j < size -> n ∈ T i -> n ∈ T j -> i = j).

Lemma bucket_in_range key b : 0 <= b <= 32 ->
  bucket key (2 ^ b) = Some (hash_32 key b) /\ 0 <= hash_32 key b < 2 ^ b.
Proof.
  intros Hb. split; [|by apply hash_32_range]. unfold bucket, HASHTABLE_BITS, log2_const.
  pose proof (pow2_pos b ltac:(lia)). destruct (Z.ltb_spec (2 ^ b) 1); [lia|].
  rewrite log2_cascade_spec; [by rewrite Z.log2_pow2 by lia|].
  split; [done|]. apply Z.pow_lt_mono_r; lia.
Qed.

Lemma in_bucket_spec {A} c key b (f : Z -> M (cmem Z K) A) Q :
  0 <= b <= 32 -> runs (f (hash_32 key b)) c Q -> runs (in_bucket key (2 ^ b) f) c Q.
Proof.
  intros Hb Hf. unfold in_bucket. destruct (bucket_in_range key b Hb) as [-> Hr].
  destruct (Z.leb_spec 0 (hash_32 key b)), (Z.ltb_spec (hash_32 key b) (2 ^ b)); try lia. done.
Qed.

Lemma hashtable_add_spec c size T key n :
  is_table c size T -> (forall i, 0 <= i < size -> n ∉ T i) ->
  runs (hashtable_add key n size) c (fun _ c' => exists i,
    bucket key size = Some i /\ 0 <= i < size /\ is_table c' size (<[i := n :: T i]> T)).
Proof.
  intros ((b & Hb & ->) & Hc & Hdis) Hn. apply in_bucket_spec; [done|].
  destruct (bucket_in_range key b Hb) as [Hbk Hr]. set (i := hash_32 key b) in *.
  eapply runs_mono; [by apply chain_add_head_spec; auto|].
  intros [] c' [Hc' Hs]. exists i. split; [done|]. split; [done|]. split; [by exists b|]. split.
  - intros j Hj. destruct (decide (i = j)) as [<-|Hij]; [by rewrite fn_insert_eq|].
    rewrite fn_insert_ne by done. eapply is_chain_frame; [exact Hs|by apply Hc| |].
    + intros r. rewrite !elem_of_cons, list_elem_of_fmap. set_solver.
    + intros x Hx Hx'. apply elem_of_cons in Hx' as [->|Hx']; [by eapply (Hn j)|].
      by apply Hij, (Hdis i j x).
  - intros j1 j2 x Hj1 Hj2. destruct (decide (i = j1)) as [<-|], (decide (i = j2)) as [<-|];
      rewrite ?fn_insert_eq, ?fn_insert_ne by done; [done|..|by apply Hdis].
    + intros [->|Hx]%elem_of_cons Hx2; [by destruct (Hn j2)|]. by apply (Hdis i j2 x).
    + intros Hx2 [->|Hx]%elem_of_cons; [by destruct (Hn j1)|]. by apply (Hdis j1 i x).
Qed.

Lemma hashtable_rm_spec c size T i n l1 l2 :
  is_table c size T -> 0 <= i < size -> T i = l1 ++ n :: l2 ->
  runs (hashtable_rm n) c (fun _ c' => is_table c' size (<[i := l1 ++ l2]> T)).
Proof.
  intros (Hsz & Hc & Hdis) Hi HT. unfold hashtable_rm.
  pose proof (Hc i Hi) as Hci. rewrite HT in Hci.
  eapply runs_mono; [by apply chain_rm_spec|]. intros [] c' (Hc' & _ & Hs).
  assert (Hin : forall x, x ∈ l1 ++ n :: l2 -> x ∈ T i) by by rewrite HT.
  split; [done|]. split.
  - intros j Hj. destruct (decide (i = j)) as [<-|Hij]; [by rewrite fn_insert_eq|].
    rewrite fn_insert_ne by done. pose proof (end_ref_in i l1) as He.
    rewrite elem_of_cons, list_elem_of_fmap in He.
    eapply is_chain_frame; [exact Hs|by apply Hc| |].
    + intros r. rewrite elem_of_cons, list_elem_of_fmap, !elem_of_cons.
      intros Hr [E|[E|E]]; [| |by apply elem_of_nil in E]; destruct Hr as [->|(x & -> & Hx)].
      * destruct He as [He|(y & He & _)]; congruence.
      * destruct He as [He|(y & He & Hy)]; [congruence|]. assert (x = y) as -> by congruence.
        apply Hij, (Hdis i j y); [done..| |done]. apply Hin. set_solver.
      * done.
      * simplify_eq. apply Hij, (Hdis i j n); [done..| |done]. apply Hin. set_solver.
    + intros x Hx Hx'. apply Hij, (Hdis i j x); [done..| |done]. apply Hin. set_solver.
  - intros j1 j2 x Hj1 Hj2. destruct (decide (i = j1)) as [<-|], (decide (i = j2)) as [<-|];
      rewrite ?fn_insert_eq, ?fn_insert_ne by done; [done|..|by apply Hdis].
    + intros Hx Hx2. apply (Hdis i j2 x); [done..| |done]. apply Hin. set_solver.
    + intros Hx2 Hx. apply (Hdis j1 i x); [done..|]. apply Hin. set_solver.
Qed.

Lemma hashtable_init_spec c b :
  0 <= b <= 32 ->
  runs (hashtable_init_size (2 ^ b)) c (fun _ c' => is_table c' (2 ^ b) (fun _ => [])).
Proof.
  intros Hb. pose proof (pow2_pos b ltac:(lia)). unfold hashtable_init_size.
  eapply runs_mono;
    [apply (runs_forM (fun k c' => forall i, 0 <= i < k -> is_chain c' i []))|].
  - lia.
  - intros k c' Hk Hc. eapply runs_mono; [apply chain_init_spec|]. intros [] c'' [Hc'' Hs] i Hi.
    destruct (decide (i = k)) as [->|]; [done|]. eapply is_chain_frame; [exact Hs|apply Hc; lia| |].
    + intros r. simpl. rewrite !list_elem_of_singleton. congruence.
    + set_solver.
  - intros [] c' Hc. cbn beta in Hc. rewrite Z2Nat.id, Z.add_0_l in Hc by lia.
    split; [by exists b|]. split; [done|]. set_solver.
Qed.

Fixpoint hashtable_add_all (size : Z) (kvs : list (Z * K)) : M (cmem Z K) unit :=
  match kvs with
  | [] => mret tt
  | (k, n) :: kvs' => hashtable_add k n size;; hashtable_add_all size kvs'
  end.

(** The entries of [kvs] whose key falls in the bucket of [key], newest first. *)
Definition same_bucket (size key : Z) (kvs : list (Z * K)) : list K :=
  snd <$> filter (fun kv => bucket kv.1 size = bucket key size) (reverse kvs).

Lemma hashtable_add_all_spec size kvs : forall c T,
  is_table c size T -> NoDup (snd <$> kvs) ->
  (forall n i, n ∈ snd <$> kvs -> 0 <= i < size -> n ∉ T i) ->
  runs (hashtable_add_all size kvs) c (fun _ c' => exists T', is_table c' size T' /\
    forall key i, bucket key size = Some i -> T' i = same_bucket size key kvs ++ T i).
Proof.
  induction kvs as [|[k n] kvs IH]; intros c T HT Hnd Hfresh; cbn [hashtable_add_all].
  - mstep. by exists T.
  - rewrite fmap_cons in Hnd, Hfresh. apply NoDup_cons in Hnd as [Hn Hnd]. mstep.
    eapply runs_mono; [apply hashtable_add_spec; [done|]|].
    { intros i Hi. apply Hfresh; [set_solver|done]. }
    intros [] c1 (i & Hbk & Hi & HT1). eapply runs_mono; [apply IH; [exact HT1|done|]|].
    { intros m j Hm Hj. destruct (decide (i = j)) as [<-|].
      - rewrite fn_insert_eq. rewrite not_elem_of_cons. split; [set_solver|].
        apply Hfresh; [set_solver|done].
      - rewrite fn_insert_ne by done. apply Hfresh; [set_solver|done]. }
    intros [] c2 (T' & HT' & Hb). exists T'. split; [done|]. intros key j Hj.
    rewrite (Hb key j Hj). unfold same_bucket. rewrite reverse_cons, filter_app, fmap_app.
    rewrite <- app_assoc. f_equal. rewrite filter_cons. cbn [fst snd].
    destruct (decide (i = j)) as [<-|Hij].
    + rewrite fn_insert_eq, decide_True by congruence. done.
    + rewrite fn_insert_ne, decide_False by congruence. done.
Qed.

(** On a table of any power-of-two size, initialising it and adding nodes
    under their keys never indexes outside the array, and walking the collisions of
    any key then ends and yields exactly the nodes whose keys fall in its bucket,
    the newest first. *)
Theorem hashtable_collisions_exact c b kvs key fuel :
  0 <= b <= 32 -> NoDup (snd <$> kvs) -> (length kvs < fuel)%nat ->
  runs (hashtable_init_size (2 ^ b);; hashtable_add_all (2 ^ b) kvs;;
        hashtable_collisions fuel key (2 ^ b)) c
    (fun xs _ => xs = same_bucket (2 ^ b) key kvs).
Proof.
  intros Hb Hnd Hf. mstep. eapply runs_mono; [by apply hashtable_init_spec|].
  intros [] c1 HT1. mstep. eapply runs_mono; [apply hashtable_add_all_spec; [done|done|]|].
  { intros n i _ _. set_solver. }
  intros [] c2 (T & HT2 & HT). unfold hashtable_collisions. apply in_bucket_spec; [done|].
  destruct (bucket_in_range key b Hb) as [Hbk Hr]. specialize (HT key _ Hbk).
  rewrite app_nil_r in HT. destruct HT2 as (_ & Hc & _). specialize (Hc _ Hr). rewrite HT in Hc.
  eapply runs_mono; [apply chain_for_each_spec; [exact Hc|]|naive_solver].
  unfold same_bucket. rewrite length_fmap.
  eapply Nat.le_lt_trans; [apply length_filter|]. by rewrite length_reverse.
Qed.
End Table.

Lemma hashtable_collisions_exact_witness :
  runs (hashtable_init_size (2 ^ 4);;
        hashtable_add_all (2 ^ 4) [(7, 10); (1000, 11); (7, 12)];;
        hashtable_collisions 5 7 (2 ^ 4)) (CMem ∅ ∅ ∅ : cmem Z Z)
    (fun xs _ => xs = [12; 10]).
Proof.
  apply (hashtable_collisions_exact (CMem ∅ ∅ ∅ : cmem Z Z) 4 [(7, 10); (1000, 11); (7, 12)] 7 5).
  - lia.
  - apply (bool_decide_eq_true_1 _). vm_compute. reflexivity.
  - simpl. lia.
Defined.
End Hashtable.
