(* ===== verification/CString.v ===== *)
(** * CString: kernel/src/lib/string.c

    Byte-addressed memory, and the routines on C strings and blocks. A pointer is an
    address, a byte of memory is its value in [0 .. 255]; a [char] is signed on the
    target, so a character read through a [char *] is [s8] of the byte. The loops that
    follow a string to its terminator take a bound on the number of rounds. *)

From S2P Require Import Prelude Words.

Abbreviation mem := (Z -> Z).

Definition rd (p : Z) : M mem Z := gets (fun m => m p).
Definition rdc (p : Z) : M mem Z := gets (fun m => s8 (m p)).
Definition wr (p v : Z) : M mem unit := modify (fun m => <[p := u8 v]> m).

(** ** Characters and numbers *)

Definition isdigit (c : Z) : bool := (48 <=? c) && (c <=? 57).

(** [charset]: the ASCII codes of "0123456789abcdefghijklmnopqrstuvwxyz". *)
Definition charset (i : Z) : Z := if i <? 10 then 48 + i else 87 + i.

(** [while(value > 0) { scratch[idx++] = charset[value % base]; value /= base; }];
    [scratch] is kept with its latest element first, and has room for 64. *)
Definition itoa_digits (base : Z) : Z * list Z -> M mem ((Z * list Z) + list Z) :=
  fun '(value, scratch) =>
    if value >? 0 then
      if (Z.of_nat (length scratch) <? 64) && (value mod base <? 36) && (base >? 0) then
        mret (inl (value / base, charset (value mod base) :: scratch))
      else fault
    else mret (inr scratch).

(** [while(idx > 0) *buff++ = scratch[--idx];] *)
Fixpoint itoa_flush (buff : Z) (scratch : list Z) : M mem Z :=
  match scratch with
  | [] => mret buff
  | c :: scratch' => wr buff c;; itoa_flush (buff + 1) scratch'
  end.

Definition itoa (value buff base : Z) : M mem Z :=
  let ret := buff in
  '(value, buff) ← (if value <? 0 then wr buff 45;; mret (s32 (- value), buff + 1)
                    else mret (value, buff));
  if value =? 0 then
    wr buff 48;; wr (buff + 1) 0;; mret ret
  else
    scratch ← iterM 65 (itoa_digits base) (value, []);
    buff ← itoa_flush buff scratch;
    wr buff 0;;
    mret ret.

Definition atoi_loop : Z * Z -> M mem ((Z * Z) + Z) := fun '(str, i) =>
  c ← rdc str;
  if c =? 0 then mret (inr i)
  else if (c <? 48) || (c >? 57) then mret (inr i)
  else mret (inl (str + 1, s32 (s32 (i * 10) + (c - 48)))).

Definition atoi (fuel : nat) (str : Z) : M mem Z :=
  c ← rdc str;
  let '(factor, str) := if c =? 45 then (-1, str + 1) else (1, str) in
  c ← rdc str;
  let str := if c =? 43 then str + 1 else str in
  i ← iterM fuel atoi_loop (str, 0);
  mret (s32 (i * factor)).

(** ** Strings *)

Definition strlen_loop : Z * Z -> M mem ((Z * Z) + Z) := fun '(str, len) =>
  c ← rdc str;
  if c =? 0 then mret (inr len) else mret (inl (str + 1, u32 (len + 1))).
Definition strlen (fuel : nat) (str : Z) : M mem Z := iterM fuel strlen_loop (str, 0).

(** [while ( *str++ ) if ( *str == c ) return str;  return NULL;] *)
Definition strchr_loop (c : Z) : Z -> M mem (Z + option Z) := fun str =>
  x ← rdc str;
  if x =? 0 then mret (inr None)
  else
    y ← rdc (str + 1);
    if y =? c then mret (inr (Some (str + 1))) else mret (inl (str + 1)).
Definition strchr (fuel : nat) (str c : Z) : M mem (option Z) := iterM fuel (strchr_loop c) str.

Definition strcmp_loop : Z * Z -> M mem ((Z * Z) + Z) := fun '(a, b) =>
  x ← rdc a; y ← rdc b;
  if (x =? 0) && (y =? 0) then mret (inr 0)
  else if negb (x =? y) then mret (inr (x - y))
  else mret (inl (a + 1, b + 1)).
Definition strcmp (fuel : nat) (a b : Z) : M mem Z := iterM fuel strcmp_loop (a, b).

Definition strcpy_loop : Z * Z -> M mem ((Z * Z) + unit) := fun '(dest, src) =>
  c ← rd src;
  wr dest c;;
  if c =? 0 then mret (inr tt) else mret (inl (dest + 1, src + 1)).
Definition strcpy (fuel : nat) (dest src : Z) : M mem Z :=
  iterM fuel strcpy_loop (dest, src);; mret dest.

(** [kmalloc] is the allocator's; its result is the address. *)
Definition strdup (fuel : nat) (kmalloc : Z -> M mem Z) (orig : Z) : M mem Z :=
  len ← strlen fuel orig;
  new ← kmalloc (u32 (len + 1));
  strcpy fuel new orig;;
  mret new.

(** ** Blocks *)

Definition memset (ptr c : Z) (bytes : nat) : M mem Z :=
  forM 0 bytes (fun i => wr (ptr + i) c);; mret ptr.

Definition memcpy (dest source : Z) (bytes : nat) : M mem Z :=
  forM 0 bytes (fun i => b ← rd (source + i); wr (dest + i) b);; mret dest.

(** The backward loop [for(i = bytes; i > 0; i--)]. *)
Fixpoint copy_down (dest source : Z) (i : nat) : M mem unit :=
  match i with
  | O => mret tt
  | S i' =>
      b ← rd (source + Z.of_nat i');
      wr (dest + Z.of_nat i') b;;
      copy_down dest source i'
  end.

Definition memmove (dest source : Z) (bytes : nat) : M mem Z :=
  (if dest <? source then
     forM 0 bytes (fun i => b ← rd (source + i); wr (dest + i) b)
   else copy_down dest source bytes);;
  mret dest.

Fixpoint memcmp_from (a b i : Z) (n : nat) : M mem Z :=
  match n with
  | O => mret 0
  | S n' =>
      x ← rdc (a + i); y ← rdc (b + i);
      if negb (x =? y) then mret (x - y) else memcmp_from a b (i + 1) n'
  end.
Definition memcmp (a b : Z) (bytes : nat) : M mem Z := memcmp_from a b 0 bytes.

Fixpoint memchr_from (p c : Z) (n : nat) : M mem (option Z) :=
  match n with
  | O => mret None
  | S n' => x ← rd p; if x =? c then mret (Some p) else memchr_from (p + 1) c n'
  end.
Definition memchr (ptr value : Z) (bytes : nat) : M mem (option Z) :=
  memchr_from ptr (u8 value) bytes.

(** ** Tables of string pointers (32-bit little-endian pointers, NULL-terminated) *)

Definition rd32 (p : Z) : M mem Z :=
  gets (fun m => of_le_bytes [m p; m (p + 1); m (p + 2); m (p + 3)]).
Definition wr32 (p v : Z) : M mem unit :=
  let bs := le_bytes 4 v in
  forM 0 4 (fun i => wr (p + i) (nth (Z.to_nat i) bs 0)).

Definition alloc_strtab (kmalloc : Z -> M mem Z) (len : Z) : M mem Z :=
  tab ← kmalloc (u32 (4 * (len + 1)));
  wr32 (tab + 4 * len) 0;;
  mret tab.

Definition strtab_len (fuel : nat) (tab : Z) : M mem Z :=
  if tab =? 0 then mret 0
  else iterM fuel (fun '(tab, len) =>
    p ← rd32 tab;
    if p =? 0 then mret (inr len) else mret (inl (tab + 4, u32 (len + 1)))) (tab, 0).

Definition copy_strtab (fuel : nat) (kmalloc : Z -> M mem Z) (raw : Z) : M mem Z :=
  if raw =? 0 then mret 0
  else
    len ← strtab_len fuel raw;
    copy ← alloc_strtab kmalloc len;
    forM 0 (Z.to_nat len) (fun i =>
      s ← rd32 (raw + 4 * i);
      d ← strdup fuel kmalloc s;
      wr32 (copy + 4 * i) d);;
    wr32 (copy + 4 * len) 0;;
    mret copy.

(** ** Block operations *)

(** Memory holds bytes. *)
Definition byte_mem (m : mem) : Prop := forall a, 0 <= m a < 256.

Lemma byte_mem_wr m p v : byte_mem m -> byte_mem (<[p := u8 v]> m).
Proof.
  intros Hm a. destruct (decide (p = a)) as [->|].
  - rewrite fn_insert_eq. by apply (uwrap_range 8).
  - by rewrite fn_insert_ne.
Qed.

Lemma u8_byte m a : byte_mem m -> u8 (m a) = m a.
Proof. intros Hm. apply uwrap_small. apply Hm. Qed.

Lemma s8_byte_inj x y : 0 <= x < 256 -> 0 <= y < 256 -> s8 x = s8 y -> x = y.
Proof.
  intros Hx Hy He. rewrite <- (uwrap_small 8 x), <- (uwrap_small 8 y) by lia.
  rewrite <- (uwrap_swrap 8 x), <- (uwrap_swrap 8 y) by lia. by rewrite He.
Qed.

Lemma s8_zero x : 0 <= x < 256 -> s8 x = 0 <-> x = 0.
Proof.
  intros Hx. split; [|by intros ->]. intros He. apply s8_byte_inj; [done|lia|]. by rewrite He.
Qed.

(** [m] after [n] bytes were copied from [s] to [d]. *)
Definition copied (m : mem) (d s n : Z) (m' : mem) : Prop :=
  forall a, m' a = if bool_decide (d <= a < d + n) then m (s + (a - d)) else m a.

Lemma copy_fwd_spec m d s n :
  byte_mem m -> d <= s \/ s + Z.of_nat n <= d ->
  runs (forM 0 n (fun i => b ← rd (s + i); wr (d + i) b)) m
    (fun _ m' => copied m d s (Z.of_nat n) m').
Proof.
  intros Hm Hov. eapply runs_mono; [apply (runs_forM (fun k m' => copied m d s k m'))|done].
  - intros a. by rewrite bool_decide_false by lia.
  - intros k m' Hk Hc. unfold rd, wr. msteps. intros a.
    assert (m' (s + k) = m (s + k)) as E.
    { rewrite Hc. case_bool_decide; [lia|done]. }
    destruct (decide (d + k = a)) as [<-|Ha].
    + rewrite fn_insert_eq, bool_decide_true, E, u8_byte by (done || lia). f_equal. lia.
    + rewrite fn_insert_ne by done. rewrite Hc.
      destruct (decide (d <= a < d + k)); [rewrite !bool_decide_true by lia; done|].
      rewrite !bool_decide_false by lia. done.
Qed.

Lemma memcpy_spec m d s n :
  byte_mem m -> d <= s \/ s + Z.of_nat n <= d ->
  runs (memcpy d s n) m (fun r m' => r = d /\ copied m d s (Z.of_nat n) m').
Proof.
  intros. unfold memcpy. mstep. eapply runs_mono; [by apply copy_fwd_spec|].
  intros [] m' Hc. by msteps.
Qed.

Lemma copy_down_spec n : forall m m' d s N,
  byte_mem m -> s <= d ->
  (forall a, m' a = if bool_decide (d + Z.of_nat n <= a < d + N) then m (s + (a - d)) else m a) ->
  Z.of_nat n <= N ->
  runs (copy_down d s n) m' (fun _ m'' => copied m d s N m'').
Proof.
  induction n as [|n IH]; intros m m' d s N Hm Hds Hc HN; cbn [copy_down].
  - mstep. intros a. rewrite Hc. by rewrite Z.add_0_r.
  - unfold rd, wr. msteps. apply IH; [done|done| |lia]. intros a.
    assert (m' (s + Z.of_nat n) = m (s + Z.of_nat n)) as E.
    { rewrite Hc. case_bool_decide; [lia|done]. }
    destruct (decide (d + Z.of_nat n = a)) as [<-|Ha].
    + rewrite fn_insert_eq, bool_decide_true, E, u8_byte by (done || lia). f_equal. lia.
    + rewrite fn_insert_ne by done. rewrite Hc.
      destruct (decide (d + Z.of_nat (S n) <= a < d + N));
        [rewrite !bool_decide_true by lia; done|]. rewrite !bool_decide_false by lia. done.
Qed.

(** [memmove] copies the block correctly whatever the overlap of the two
    ranges, and changes no other byte. *)
Theorem memmove_correct m d s n :
  byte_mem m ->
  runs (memmove d s n) m (fun r m' => r = d /\
    forall a, m' a = if bool_decide (d <= a < d + Z.of_nat n) then m (s + (a - d)) else m a).
Proof.
  intros Hm. unfold memmove. mstep. destruct (Z.ltb_spec d s).
  - eapply runs_mono; [apply copy_fwd_spec; [done|lia]|]. intros [] m' Hc. by msteps.
  - eapply runs_mono; [apply (copy_down_spec n m m d s (Z.of_nat n)); [done|lia| |lia]|].
    + intros a. by rewrite bool_decide_false by lia.
    + intros [] m' Hc. by msteps.
Qed.

Lemma memmove_correct_witness :
  runs (memmove 101 100 3) (fun a => a mod 256) (fun r m' => r = 101 /\
    forall a, m' a = if bool_decide (101 <= a < 101 + 3) then (100 + (a - 101)) mod 256 else a mod 256).
Proof.
  apply (memmove_correct (fun a => a mod 256) 101 100 3).
  intros a. apply Z.mod_pos_bound. lia.
Defined.

Lemma memset_spec m p c n :
  runs (memset p c n) m (fun r m' => r = p /\
    forall a, m' a = if bool_decide (p <= a < p + Z.of_nat n) then u8 c else m a).
Proof.
  unfold memset. mstep.
  eapply runs_mono; [apply (runs_forM (fun k m' => forall a,
    m' a = if bool_decide (p <= a < p + k) then u8 c else m a))|].
  - intros a. by rewrite bool_decide_false by lia.
  - intros k m' Hk Hc. unfold wr. msteps. intros a. destruct (decide (p + k = a)) as [<-|Ha].
    + by rewrite fn_insert_eq, bool_decide_true by lia.
    + rewrite fn_insert_ne by done. rewrite Hc.
      destruct (decide (p <= a < p + k)); [rewrite !bool_decide_true by lia; done|].
      rewrite !bool_decide_false by lia. done.
  - intros [] m' Hc. by msteps.
Qed.

(** [memcmp] on two byte blocks: the difference of the first pair of signed
    characters that differ, else 0. *)
Fixpoint cmp_chars (xs ys : list Z) : Z :=
  match xs, ys with
  | x :: xs', y :: ys' => if s8 x =? s8 y then cmp_chars xs' ys' else s8 x - s8 y
  | _, _ => 0
  end.

Definition block (m : mem) (p : Z) (n : nat) : list Z := (fun i => m (p + i)) <$> seqZ 0 (Z.of_nat n).

Lemma block_S m p n : block m p (S n) = m p :: block m (p + 1) n.
Proof.
  unfold block. rewrite Nat2Z.inj_succ, seqZ_cons by lia. rewrite fmap_cons, Z.add_0_r. f_equal.
  rewrite Z.pred_succ, <- (fmap_add_seqZ 1 0), <- list_fmap_compose.
  apply list_fmap_ext. intros i x _. simpl. f_equal. lia.
Qed.

Lemma memcmp_from_spec n : forall m a b i,
  runs (memcmp_from a b i n) m (fun r m' =>
    m' = m /\ r = cmp_chars (block m (a + i) n) (block m (b + i) n)).
Proof.
  induction n as [|n IH]; intros m a b i; cbn [memcmp_from]; unfold rdc; msteps; [done|].
  rewrite !block_S. cbn [cmp_chars].
  destruct (Z.eqb_spec (s8 (m (a + i))) (s8 (m (b + i)))); simpl.
  - eapply runs_mono; [apply IH|]. intros r m' [-> ->]. by rewrite !Z.add_assoc.
  - by msteps.
Qed.

Lemma cmp_chars_zero xs : forall ys, length xs = length ys ->
  Forall (fun x => 0 <= x < 256) xs -> Forall (fun x => 0 <= x < 256) ys ->
  cmp_chars xs ys = 0 <-> xs = ys.
Proof.
  induction xs as [|x xs IH]; intros [|y ys] Hlen Hx Hy; try done.
  apply Forall_cons in Hx as [Hx Hxs]. apply Forall_cons in Hy as [Hy Hys]. simpl.
  destruct (Z.eqb_spec (s8 x) (s8 y)) as [E|E].
  - apply s8_byte_inj in E as ->; [|done..]. rewrite IH by naive_solver. naive_solver.
  - split; [lia|]. intros [= -> _]. done.
Qed.

Lemma length_block m p n : length (block m p n) = n.
Proof. unfold block. rewrite length_fmap, length_seqZ. lia. Qed.

Lemma Forall_block m p n : byte_mem m -> Forall (fun x => 0 <= x < 256) (block m p n).
Proof. intros Hm. apply Forall_fmap, Forall_forall. intros i _. apply Hm. Qed.

(** [memcmp] returns 0 exactly when the two blocks are equal, and leaves
    memory alone. *)
Theorem memcmp_correct m a b n :
  byte_mem m ->
  runs (memcmp a b n) m (fun r m' => m' = m /\ (r = 0 <-> block m a n = block m b n)).
Proof.
  intros Hm. unfold memcmp. eapply runs_mono; [apply memcmp_from_spec|].
  intros r m' [-> ->]. rewrite !Z.add_0_r. split; [done|].
  apply cmp_chars_zero; [by rewrite !length_block | by apply Forall_block..].
Qed.

Lemma memcmp_correct_witness :
  runs (memcmp 0 256 4) (fun a => a mod 256) (fun r m' =>
    m' = (fun a => a mod 256) /\ (r = 0 <-> [0; 1; 2; 3] = [0; 1; 2; 3])).
Proof.
  apply (memcmp_correct (fun a => a mod 256) 0 256 4).
  intros a. apply Z.mod_pos_bound. lia.
Defined.

(** ** C strings in memory *)

(** The bytes [s], none of them 0, stand at [p] and are followed by a 0. *)
Fixpoint cstr (m : mem) (p : Z) (s : list Z) : Prop :=
  match s with
  | [] => m p = 0
  | c :: s' => m p = c /\ 0 < c < 256 /\ cstr m (p + 1) s'
  end.

Lemma cstr_ext m m' s : forall p,
  cstr m p s -> (forall a, p <= a <= p + Z.of_nat (length s) -> m' a = m a) -> cstr m' p s.
Proof.
  induction s as [|c s IH]; intros p Hs Hm; simpl in *.
  - rewrite Hm by lia. done.
  - destruct Hs as (H1 & H2 & H3). rewrite Hm by lia. repeat split; [lia..|].
    apply IH; [done|]. intros a Ha. apply Hm. lia.
Qed.

Lemma cstr_drop m s1 : forall p s2, cstr m p (s1 ++ s2) -> cstr m (p + Z.of_nat (length s1)) s2.
Proof.
  induction s1 as [|c s1 IH]; intros p s2 Hs; simpl in *.
  - by rewrite Z.add_0_r.
  - destruct Hs as (_ & _ & Hs). apply IH in Hs.
    by replace (p + Z.of_nat (S (length s1))) with (p + 1 + Z.of_nat (length s1)) by lia.
Qed.

Lemma cstr_byte m s : forall p, cstr m p s -> Forall (fun x => 0 <= x < 256) s.
Proof.
  induction s as [|c s IH]; intros p Hs; [constructor|]. destruct Hs as (_ & ? & Hs).
  constructor; [lia|]. by eapply IH.
Qed.

Lemma s8_nonzero c : 0 < c < 256 -> (s8 c =? 0) = false.
Proof. intros Hc. apply Z.eqb_neq. rewrite s8_zero; lia. Qed.

Lemma strlen_spec m p s fuel :
  cstr m p s -> Z.of_nat (length s) < 2 ^ 32 -> (length s < fuel)%nat ->
  runs (strlen fuel p) m (fun n m' => m' = m /\ n = Z.of_nat (length s)).
Proof.
  intros Hs Hlen Hf. unfold strlen.
  apply (runs_iterM (fun '(q, n) m' => m' = m /\ exists s1 s2, s = s1 ++ s2 /\
      q = p + Z.of_nat (length s1) /\ n = Z.of_nat (length s1))
    (fun '(q, n) _ => length s - Z.to_nat n)%nat).
  - intros [q n] m' (-> & s1 & s2 & -> & -> & ->). unfold strlen_loop, rdc. msteps.
    apply cstr_drop in Hs. rewrite length_app in Hlen.
    destruct s2 as [|c s2]; simpl in Hs.
    + rewrite Hs. simpl. mstep. by rewrite app_nil_r.
    + destruct Hs as (-> & Hc & _). rewrite s8_nonzero by done. mstep. simpl in Hlen.
      rewrite uwrap_small by lia. split.
      * split; [done|]. exists (s1 ++ [c]), s2. rewrite length_app, <- app_assoc. simpl.
        split; [done|lia].
      * rewrite length_app. simpl. lia.
  - split; [done|]. exists [], s. repeat split; simpl; lia.
  - simpl. lia.
Qed.

Lemma strcmp_chars m a b s t fuel :
  cstr m a s -> cstr m b t -> (length s < fuel)%nat ->
  runs (strcmp fuel a b) m (fun r m' => m' = m /\ r = cmp_chars (s ++ [0]) (t ++ [0])).
Proof.
  revert a b t fuel. induction s as [|c s IH]; intros a b t [|fuel] Hs Ht Hf; simpl in Hf; try lia.
  - apply runs_iterM_S. unfold strcmp_loop, rdc. msteps. simpl in Hs. rewrite Hs.
    destruct t as [|d t]; simpl in Ht.
    + rewrite Ht. simpl. by msteps.
    + destruct Ht as (-> & Hd & _). pose proof (s8_nonzero d Hd) as Hz. rewrite Hz.
      change (s8 0) with 0. change (0 =? 0) with true. cbn [andb app cmp_chars].
      change (s8 0) with 0. rewrite (Z.eqb_sym 0), Hz. cbn [negb]. by msteps.
  - apply runs_iterM_S. unfold strcmp_loop at 1, rdc. msteps.
    destruct Hs as (-> & Hc & Hs). rewrite s8_nonzero by done. cbn [andb].
    destruct t as [|d t]; simpl in Ht.
    + rewrite Ht. simpl. change (s8 0) with 0. rewrite s8_nonzero by done. simpl. by msteps.
    + destruct Ht as (-> & Hd & Ht). simpl.
      destruct (Z.eqb_spec (s8 c) (s8 d)); simpl; msteps; [|done].
      apply IH; [done|done|lia].
Qed.

(** [strcmp] of two strings ends and is 0 exactly when they are equal. *)
Theorem strcmp_correct m a b s t fuel :
  cstr m a s -> cstr m b t -> (length s < fuel)%nat ->
  runs (strcmp fuel a b) m (fun r m' => m' = m /\ (r = 0 <-> s = t)).
Proof.
  intros Hs Ht Hf. eapply runs_mono; [by eapply strcmp_chars|]. intros r m' [-> ->].
  split; [done|]. assert (Hnz : forall u p, cstr m p u -> Forall (fun c => 0 < c < 256) u).
  { induction u as [|x u IH]; intros p Hu; constructor; destruct Hu as (? & ? & ?); eauto. }
  apply Hnz in Hs. apply Hnz in Ht. clear Hnz Hf. revert t Ht.
  induction Hs as [|c s Hc Hs IH]; intros t Ht; destruct Ht as [|d t Hd Ht]; cbn [cmp_chars app].
  - done.
  - change (s8 0) with 0. rewrite Z.eqb_sym, s8_nonzero by done.
    apply s8_nonzero, Z.eqb_neq in Hd. split; [lia|done].
  - change (s8 0) with 0. rewrite s8_nonzero by done.
    apply s8_nonzero, Z.eqb_neq in Hc. split; [lia|done].
  - destruct (Z.eqb_spec (s8 c) (s8 d)) as [E|E].
    + apply s8_byte_inj in E as ->; [|lia..]. rewrite IH by done. naive_solver.
    + split; [lia|]. intros [= -> _]. done.
Qed.

(** A memory holding a string of bytes at an address, zero elsewhere. *)
Definition mem_with (p : Z) (s : list Z) : mem := fun a => nth (Z.to_nat (a - p)) s 0.

Lemma strcmp_correct_witness :
  runs (strcmp 10 0 4) (mem_with 0 [97; 98; 99; 0; 97; 98; 100; 0]) (fun r m' =>
    m' = mem_with 0 [97; 98; 99; 0; 97; 98; 100; 0] /\ (r = 0 <-> [97; 98; 99] = [97; 98; 100])).
Proof.
  apply (strcmp_correct _ 0 4 [97; 98; 99] [97; 98; 100] 10);
    [repeat split; reflexivity..|simpl; lia].
Defined.

Lemma strcpy_loop_spec s : forall m d p fuel,
  cstr m p s -> d + Z.of_nat (length s) < p \/ p + Z.of_nat (length s) < d ->
  (length s < fuel)%nat ->
  runs (iterM fuel strcpy_loop (d, p)) m (fun _ m' => cstr m' d s /\
    forall a, ~ (d <= a <= d + Z.of_nat (length s)) -> m' a = m a).
Proof.
  induction s as [|c s IH]; intros m d p [|fuel] Hs Hdis Hf; simpl in Hf; try lia;
    apply runs_iterM_S; unfold strcpy_loop at 1, rd, wr; msteps.
  - simpl in Hs. rewrite Hs. simpl. msteps. split.
    + by rewrite fn_insert_eq.
    + intros a Ha. simpl in Ha. rewrite fn_insert_ne by lia. done.
  - destruct Hs as (-> & Hc & Hs). destruct (Z.eqb_spec c 0); [lia|]. msteps. simpl length in *.
    rewrite uwrap_small by lia.
    eapply runs_mono; [apply IH; [|lia|lia]|].
    + eapply cstr_ext; [exact Hs|]. intros a Ha. rewrite fn_insert_ne by lia. done.
    + intros [] m' [Hs' Hm']. split.
      * simpl. rewrite Hm' by lia. rewrite fn_insert_eq. done.
      * intros a Ha. rewrite Hm' by lia. rewrite fn_insert_ne by lia. done.
Qed.

Lemma strcpy_spec m d p s fuel :
  cstr m p s -> d + Z.of_nat (length s) < p \/ p + Z.of_nat (length s) < d ->
  (length s < fuel)%nat ->
  runs (strcpy fuel d p) m (fun r m' => r = d /\ cstr m' d s /\
    forall a, ~ (d <= a <= d + Z.of_nat (length s)) -> m' a = m a).
Proof.
  intros Hs Hdis Hf. unfold strcpy. mstep. eapply runs_mono; [by apply strcpy_loop_spec|].
  intros [] m' Hm'. by mstep.
Qed.

(** With an allocator that hands out a block disjoint from the string
    (and leaves memory contents alone), [strdup] returns a fresh copy of the string
    and preserves the original. *)
Theorem strdup_correct m p s fuel kmalloc q :
  cstr m p s -> Z.of_nat (length s) + 1 < 2 ^ 32 -> (length s < fuel)%nat ->
  kmalloc (Z.of_nat (length s) + 1) m = Done (q, m) ->
  q + Z.of_nat (length s) < p \/ p + Z.of_nat (length s) < q ->
  runs (strdup fuel kmalloc p) m (fun r m' => r = q /\ cstr m' q s /\ cstr m' p s).
Proof.
  intros Hs Hlen Hf Hk Hdis. unfold strdup. mstep.
  eapply runs_mono; [apply strlen_spec; [done|lia|done]|]. intros n m' [-> ->].
  mstep. rewrite uwrap_small by lia. unfold runs at 1. rewrite Hk.
  mstep. eapply runs_mono; [by apply strcpy_spec|]. intros r m' (-> & Hq & Hm). mstep.
  split; [done|]. split; [done|]. eapply cstr_ext; [exact Hs|]. intros a Ha. apply Hm. lia.
Qed.

Lemma strdup_correct_witness :
  runs (strdup 5 (fun _ => mret 100) 0) (mem_with 0 [104; 105; 0]) (fun r m' =>
    r = 100 /\ cstr m' 100 [104; 105] /\ cstr m' 0 [104; 105]).
Proof.
  apply (strdup_correct (mem_with 0 [104; 105; 0]) 0 [104; 105] 5 (fun _ => mret 100) 100);
    [repeat split; reflexivity|simpl; lia|simpl; lia|reflexivity|simpl; lia].
Defined.

(** [strchr] tests the characters after the first one, the terminator included:
    what it finds is the first match in the tail of the string. *)
Fixpoint find_char (c p : Z) (s : list Z) : option Z :=
  match s with
  | [] => None
  | x :: s' => if s8 x =? c then Some p else find_char c (p + 1) s'
  end.

(** On a non-empty string [strchr] returns the first match of the
    character strictly after the first position (the terminator included), so a
    match at the first position alone is reported as absent; on the empty string it
    returns NULL. *)
Theorem strchr_skips_first m c s : forall p fuel,
  cstr m p s -> (length s < fuel)%nat ->
  runs (strchr fuel p c) m (fun r m' => m' = m /\
    r = match s with [] => None | _ :: s' => find_char c (p + 1) (s' ++ [0]) end).
Proof.
  induction s as [|x s IH]; intros p [|fuel] Hs Hf; simpl in Hf; try lia;
    apply runs_iterM_S; unfold strchr_loop at 1, rdc; msteps.
  - simpl in Hs. rewrite Hs. simpl. by msteps.
  - destruct Hs as (-> & Hx & Hs). rewrite s8_nonzero by done. msteps.
    assert (Hy : m (p + 1) = nth 0 (s ++ [0]) 0).
    { destruct s; simpl in *; tauto. }
    rewrite Hy. destruct (Z.eqb_spec (s8 (nth 0 (s ++ [0]) 0)) c) as [E|E]; msteps.
    + split; [done|]. destruct s; cbn [app nth find_char] in *; by rewrite E, Z.eqb_refl.
    + eapply runs_mono; [apply IH; [done|lia]|]. intros r m' [-> ->]. split; [done|].
      apply Z.eqb_neq in E. destruct s as [|y s]; cbn [app nth find_char] in *; by rewrite E.
Qed.

Lemma strchr_skips_first_witness :
  runs (strchr 10 0 47) (mem_with 0 [47; 97; 47; 98; 0]) (fun r m' =>
    m' = mem_with 0 [47; 97; 47; 98; 0] /\ r = Some 2).
Proof.
  apply (strchr_skips_first (mem_with 0 [47; 97; 47; 98; 0]) 47 [47; 97; 47; 98] 0 10);
    [repeat split; reflexivity|simpl; lia].
Defined.

(** ** Numbers as strings *)

(** The value of a digit sequence, most significant digit first. *)
Fixpoint horner (base acc : Z) (ds : list Z) : Z :=
  match ds with
  | [] => acc
  | d :: ds' => horner base (acc * base + d) ds'
  end.

Lemma horner_acc base ds : forall acc,
  horner base acc ds = acc * base ^ Z.of_nat (length ds) + horner base 0 ds.
Proof.
  induction ds as [|d ds IH]; intros acc; simpl horner; simpl length; [simpl; lia|].
  rewrite IH, (IH (0 * base + d)), Nat2Z.inj_succ, Z.pow_succ_r by lia. lia.
Qed.

Lemma horner_prefix base ds1 ds2 acc :
  0 < base -> 0 <= acc -> Forall (fun d => 0 <= d < base) (ds1 ++ ds2) ->
  0 <= horner base acc ds1 <= horner base acc (ds1 ++ ds2).
Proof.
  intros Hb. revert acc. induction ds1 as [|d ds1 IH]; intros acc Hacc Hd; simpl in *.
  - split; [done|]. revert acc Hacc Hd. induction ds2 as [|d ds2 IH2]; intros acc Hacc Hd; simpl; [lia|].
    apply Forall_cons in Hd as [? Hd]. specialize (IH2 (acc * base + d) ltac:(nia) Hd). nia.
  - apply Forall_cons in Hd as [? Hd]. apply IH; [nia|done].
Qed.

(** Rounds left for a positive value: its number of binary digits. *)
Definition digits_mu (value : Z) : nat :=
  if value <=? 0 then 0%nat else Z.to_nat (1 + Z.log2 value).

Lemma digits_mu_div base value : 2 <= base -> 0 < value -> (digits_mu (value / base) < digits_mu value)%nat.
Proof.
  intros Hb Hv. unfold digits_mu. pose proof (Z.log2_nonneg value).
  destruct (Z.leb_spec value 0); [lia|].
  destruct (Z.leb_spec (value / base) 0) as [|Hq]; [lia|].
  assert (2 <= value) as H2.
  { destruct (Z.lt_ge_cases value base); [rewrite Z.div_small in Hq; lia|lia]. }
  apply Z.log2_le_mono in H2. change (Z.log2 2) with 1 in H2.
  assert (value / base <= value / 2) as Hle by (apply Z.div_le_compat_l; lia).
  apply Z.log2_le_mono in Hle. pose proof (Z.log2_nonneg (value / base)).
  assert (Z.log2 (value / 2) = Z.log2 value - 1).
  { change 2 with (2 ^ 1). rewrite <- Z.shiftr_div_pow2, Z.log2_shiftr by lia. lia. }
  lia.
Qed.

Lemma itoa_digits_spec m value base :
  2 <= base <= 36 -> 0 < value < 2 ^ 31 ->
  runs (iterM 65 (itoa_digits base) (value, [])) m (fun sc m' => m' = m /\
    exists ds, sc = charset <$> ds /\ horner base 0 ds = value /\
      Forall (fun d => 0 <= d < base) ds /\ (0 < length ds <= 32)%nat).
Proof.
  intros Hb Hv.
  apply (runs_iterM (fun '(v, sc) m' => m' = m /\ 0 <= v /\ exists ds, sc = charset <$> ds /\
      horner base v ds = value /\ Forall (fun d => 0 <= d < base) ds /\
      (length ds + digits_mu v <= 32)%nat /\ (v = value \/ 0 < length ds)%nat)
    (fun '(v, _) _ => digits_mu v)).
  - intros [v sc] m' (-> & Hv0 & ds & -> & Hh & Hds & Hlen & Hne). unfold itoa_digits.
    destruct (Z.gtb_spec v 0) as [Hpos|Hz].
    + pose proof (Z.mod_pos_bound v base ltac:(lia)).
      pose proof (digits_mu_div base v ltac:(lia) ltac:(lia)).
      rewrite length_fmap.
      destruct (Z.ltb_spec (Z.of_nat (length ds)) 64); [|lia].
      destruct (Z.ltb_spec (v mod base) 36); [|lia].
      destruct (Z.gtb_spec base 0); [|lia]. simpl. mstep. split; [|done].
      split; [done|]. split; [apply Z.div_pos; lia|]. exists (v mod base :: ds).
      split; [done|]. split; [|split; [by constructor|]].
      * simpl. rewrite <- Hh. f_equal. pose proof (Z.div_mod v base). lia.
      * simpl. split; [lia|lia].
    + mstep. assert (v = 0) as -> by lia. split; [done|]. exists ds.
      repeat split; [done..| |]; lia.
  - split; [done|]. split; [lia|]. exists []. split; [done|]. simpl.
    split; [done|]. split; [constructor|]. split; [|by left].
    unfold digits_mu. destruct (Z.leb_spec value 0); [lia|].
    pose proof (log2_lt value 31). lia.
  - unfold digits_mu. destruct (Z.leb_spec value 0); [lia|].
    pose proof (log2_lt value 31). lia.
Qed.

Lemma itoa_flush_spec sc : forall m buff,
  Forall (fun c => 0 < c < 128) sc ->
  runs (itoa_flush buff sc ≫= fun b => wr b 0) m (fun _ m' => cstr m' buff sc /\
    forall a, a < buff -> m' a = m a).
Proof.
  induction sc as [|c sc IH]; intros m buff Hsc; cbn [itoa_flush].
  - unfold wr. msteps. simpl. rewrite fn_insert_eq. split; [done|].
    intros a Ha. by rewrite fn_insert_ne by lia.
  - apply Forall_cons in Hsc as [Hc Hsc]. mstep. mstep. unfold wr at 1. msteps.
    apply runs_bind_inv. eapply runs_mono; [by apply IH|]. intros [] m' [Hs Hm].
    rewrite uwrap_small in Hm by lia. split.
    + simpl. rewrite Hm by lia. rewrite fn_insert_eq. split; [done|]. split; [lia|done].
    + intros a Ha. rewrite Hm by lia. by rewrite fn_insert_ne by lia.
Qed.

Lemma charset_range d : 0 <= d < 36 -> 0 < charset d < 128.
Proof. intros Hd. unfold charset. destruct (Z.ltb_spec d 10); lia. Qed.

Lemma Forall_charset base ds :
  base <= 36 -> Forall (fun d => 0 <= d < base) ds -> Forall (fun c => 0 < c < 128) (charset <$> ds).
Proof.
  intros Hb Hds. apply Forall_fmap. eapply Forall_impl; [exact Hds|].
  intros d Hd. cbn beta in Hd. apply charset_range. lia.
Qed.

(** [itoa] writes the sign and the digits of the value, in every base from 2 to 36. *)
Lemma itoa_spec m value buff base :
  2 <= base <= 36 -> - 2 ^ 31 < value < 2 ^ 31 ->
  runs (itoa value buff base) m (fun r m' => r = buff /\ exists ds,
    cstr m' buff ((if value <? 0 then [45] else []) ++ (charset <$> ds)) /\
    horner base 0 ds = Z.abs value /\ Forall (fun d => 0 <= d < base) ds /\
    (0 < length ds <= 32)%nat).
Proof.
  intros Hb Hv. unfold itoa. mstep.
  apply (runs_mono _ _ (fun '(v, b) m' => v = Z.abs value /\
    b = buff + (if value <? 0 then 1 else 0) /\ (value < 0 -> m' buff = 45))).
  { destruct (Z.ltb_spec value 0); unfold wr; msteps.
    - rewrite fn_insert_eq, swrap_small by lia. repeat split; lia.
    - repeat split; lia. }
  intros [v b] m1 (-> & -> & Hm1).
  assert (Hout : forall m' ds,
    cstr m' (buff + (if value <? 0 then 1 else 0)) (charset <$> ds) ->
    (forall a, a < buff + (if value <? 0 then 1 else 0) -> m' a = m1 a) ->
    cstr m' buff ((if value <? 0 then [45] else []) ++ (charset <$> ds))).
  { intros m' ds Hs Hm. destruct (Z.ltb_spec value 0); simpl in *.
    - rewrite Hm, Hm1 by lia. repeat split; lia || done.
    - by rewrite Z.add_0_r in Hs. }
  destruct (Z.eqb_spec (Z.abs value) 0) as [Hz|Hz].
  - destruct (Z.ltb_spec value 0); [lia|]. rewrite Z.add_0_r in *. unfold wr. msteps.
    split; [done|]. exists [0]. cbn [app fmap list_fmap cstr length horner].
    rewrite fn_insert_ne, !fn_insert_eq by lia. rewrite Hz.
    split; [repeat split; done|]. split; [lia|]. split; [|lia]. repeat constructor; lia.
  - mstep. eapply runs_mono; [apply itoa_digits_spec; lia|].
    intros sc m' (-> & ds & -> & Hh & Hds & Hlen). 
    pose proof (itoa_flush_spec (charset <$> ds) m1 (buff + (if value <? 0 then 1 else 0))
      ltac:(by eapply Forall_charset; [|done]; lia)) as Hfl.
    apply runs_bind_inv in Hfl. mstep. eapply runs_mono; [exact Hfl|].
    intros b m2 Hw. mstep. eapply runs_mono; [exact Hw|]. intros [] m3 [Hs Hm]. mstep.
    split; [done|]. exists ds. split; [by apply Hout|]. done.
Qed.

Lemma atoi_loop_spec m ds : forall p acc fuel,
  cstr m p (charset <$> ds) -> Forall (fun d => 0 <= d < 10) ds ->
  0 <= acc -> horner 10 acc ds < 2 ^ 31 -> (length ds < fuel)%nat ->
  runs (iterM fuel atoi_loop (p, acc)) m (fun r m' => m' = m /\ r = horner 10 acc ds).
Proof.
  induction ds as [|d ds IH]; intros p acc [|fuel] Hs Hds Hacc Hh Hf; simpl in Hf; try lia;
    apply runs_iterM_S; unfold atoi_loop at 1, rdc; msteps.
  - simpl in Hs. rewrite Hs. simpl. by mstep.
  - rewrite fmap_cons in Hs. destruct Hs as (-> & Hc & Hs).
    pose proof Hds as Hds'. apply Forall_cons in Hds' as [Hd Hds'].
    pose proof (horner_prefix 10 [d] ds acc ltac:(lia) Hacc Hds) as Hp. simpl in Hp, Hh.
    assert (charset d = 48 + d) as E by (unfold charset; destruct (Z.ltb_spec d 10); lia).
    rewrite E, swrap_small by lia.
    destruct (Z.eqb_spec (48 + d) 0); [lia|].
    destruct (Z.ltb_spec (48 + d) 48); [lia|]. destruct (Z.gtb_spec (48 + d) 57); [lia|]. simpl.
    mstep. rewrite (swrap_small 32 (acc * 10)), swrap_small by lia.
    replace (acc * 10 + (48 + d - 48)) with (acc * 10 + d) by lia.
    apply IH; [done|done|lia|lia|lia].
Qed.

(** [atoi] reads the digits of a value. *)
Lemma atoi_spec m p value ds fuel : - 2 ^ 31 < value < 2 ^ 31 -> cstr m p ((if value <? 0 then [45] else []) ++ (charset <$> ds)) ->
  horner 10 0 ds = Z.abs value -> Forall (fun d => 0 <= d < 10) ds -> (0 < length ds < fuel)%nat ->
  runs (atoi fuel p) m (fun r m' => r = value /\ m' = m).
Proof.
  intros Hv Hs Hh Hds Hlen. unfold atoi. mstep. unfold rdc. mstep. destruct ds as [|d ds]; [simpl in Hlen; lia|].
  pose proof Hds as Hd. apply Forall_cons in Hd as [Hd _].
  assert (E : charset d = 48 + d) by (unfold charset; destruct (Z.ltb_spec d 10); lia).
  assert (Hrest : forall p, cstr m p (charset <$> d :: ds) ->
    runs (c ← gets (fun m => s8 (m p));
          i ← iterM fuel atoi_loop (if c =? 43 then p + 1 else p, 0);
          mret (s32 (i * (if value <? 0 then -1 else 1)))) m (fun r m' => r = value /\ m' = m)).
  { intros q Hq. pose proof Hq as Hq'. rewrite fmap_cons in Hq'. destruct Hq' as (E' & _ & _).
    do 2 mstep. rewrite E', E, swrap_small by lia. destruct (Z.eqb_spec (48 + d) 43); [lia|].
    mstep. eapply runs_mono; [apply (atoi_loop_spec m (d :: ds)); [done|done|lia|lia|lia]|].
    intros r m' [-> ->]. mstep. rewrite Hh. split; [|done]. destruct (Z.ltb_spec value 0); rewrite swrap_small; lia. }
  destruct (Z.ltb_spec value 0).
  - destruct Hs as (-> & _ & Hs). rewrite swrap_small by lia. simpl (45 =? 45). cbn match. by apply Hrest.
  - pose proof Hs as Hs'. destruct Hs' as (E' & _ & _). rewrite E', E, swrap_small by lia. destruct (Z.eqb_spec (48 + d) 45); [lia|]. by apply Hrest.
Qed.

(** Printing any [int] other than INT_MIN in base 10 and reading it back
    gives the same value. *)
Theorem itoa_atoi_roundtrip m value buff fuel :
  - 2 ^ 31 < value < 2 ^ 31 -> (33 <= fuel)%nat ->
  runs (itoa value buff 10 ≫= atoi fuel) m (fun r _ => r = value).
Proof.
  intros Hv Hf. mstep. eapply runs_mono; [apply itoa_spec; lia|]. intros r m1 (-> & ds & Hs & Hh & Hds & Hlen).
  eapply runs_mono; [apply (atoi_spec m1 buff value ds); [done|done|done|done|lia]|]. by intros r m' [-> _].
Qed.

Lemma itoa_atoi_roundtrip_witness :
  runs (itoa (-1205) 64 10 ≫= atoi 40) (fun _ => 0) (fun r _ => r = -1205).
Proof. apply (itoa_atoi_roundtrip (fun _ => 0) (-1205) 64 40); lia. Defined.
