(* ===== verification/Printf.v ===== *)
(** * Printf: kernel/src/lib/printf.c

    Formatting into byte memory.  The arguments of a variadic call are the 32-bit words that [va_arg]
    takes from the stack one after the other; taking one that was not passed is a [Fault].  Loops that
    follow the format or a string carry a bound. *)

From S2P Require Import Prelude Words CString.

(** ** Flags and characters *)

Definition ZEROPAD : Z := 1.
Definition SIGN : Z := 2.
Definition PLUS : Z := 4.
Definition SPACE : Z := 8.
Definition LEFT : Z := 16.
Definition SPECIAL : Z := 32.
Definition LARGE : Z := 64.

Definition is_digit (c : Z) : bool := (48 <=? c) && (c <=? 57).

(** [digits] and [upper_digits]. *)
Definition digits (i : Z) : Z := if i <? 10 then 48 + i else 87 + i.
Definition upper_digits (i : Z) : Z := if i <? 10 then 48 + i else 55 + i.

(** "<NULL>" *)
Definition null_text : list Z := [60; 78; 85; 76; 76; 62].

(** ** Runs of padding *)

(** [while(size-- > 0) *str++ = c;] *)
Definition pad (c : Z) (v : Z * Z) : M mem (Z * Z) :=
  iterM (S (Z.to_nat v.2)) (fun '(str, size) =>
    if size >? 0 then wr str c;; mret (inl (str + 1, s32 (size - 1)))
    else mret (inr (str, s32 (size - 1)))) v.

(** [while(i < size--) *str++ = c;] *)
Definition pad_to (i c : Z) (v : Z * Z) : M mem (Z * Z) :=
  iterM (S (Z.to_nat (v.2 - i))) (fun '(str, size) =>
    if i <? size then wr str c;; mret (inl (str + 1, s32 (size - 1)))
    else mret (inr (str, s32 (size - 1)))) v.

(** [while(--size > 0) *str++ = c;] *)
Definition pad_pre (c : Z) (v : Z * Z) : M mem (Z * Z) :=
  iterM (S (Z.to_nat v.2)) (fun '(str, size) =>
    let size := s32 (size - 1) in
    if size >? 0 then wr str c;; mret (inl (str + 1, size))
    else mret (inr (str, size))) v.

(** The characters of [l], one after the other. *)
Fixpoint emit (str : Z) (l : list Z) : M mem Z :=
  match l with [] => mret str | c :: l' => wr str c;; emit (str + 1) l' end.

(** ** number *)

(** [while(num != 0) { tmp[i++] = dig[(unsigned long) num % base]; num = (unsigned long) num / base; }];
    [tmp], which has 66 places, is kept with its latest element first. *)
Definition number_digits (dig : Z -> Z) (base : Z) : Z * list Z -> M mem ((Z * list Z) + list Z) :=
  fun '(num, tmp) =>
    if negb (num =? 0) then
      if Z.of_nat (length tmp) <? 66 then
        mret (inl (s32 (u32 num / base), dig (u32 num mod base) :: tmp))
      else fault
    else mret (inr tmp).

(** The sign, the number and the width that is left. *)
Definition number_sign (num size type : Z) : Z * Z * Z :=
  if has type SIGN then
    if num <? 0 then (45, s32 (- num), s32 (size - 1))
    else if has type PLUS then (43, num, s32 (size - 1))
    else if has type SPACE then (32, num, s32 (size - 1))
    else (0, num, size)
  else (0, num, size).

Definition number (str num base size precision type : Z) : M mem Z :=
  let dig := if has type LARGE then upper_digits else digits in
  let type := if has type LEFT then Z.land type (Z.lnot ZEROPAD) else type in
  if (base <? 2) || (base >? 36) then mret 0
  else
    let c := if has type ZEROPAD then 48 else 32 in
    let '(sign, num, size) := number_sign num size type in
    let size := if has type SPECIAL then
      if base =? 16 then s32 (size - 2) else if base =? 8 then s32 (size - 1) else size else size in
    tmp ← (if num =? 0 then mret [48] else iterM 34 (number_digits dig base) (num, []));
    let i := Z.of_nat (length tmp) in
    let precision := if i >? precision then i else precision in
    let size := s32 (size - precision) in
    '(str, size) ← (if negb (has type (Z.lor ZEROPAD LEFT)) then pad 32 (str, size) else mret (str, size));
    str ← (if negb (sign =? 0) then wr str sign;; mret (str + 1) else mret str);
    str ← (if has type SPECIAL then
             if base =? 8 then wr str 48;; mret (str + 1)
             else if base =? 16 then wr str 48;; wr (str + 1) (digits 33);; mret (str + 2)
             else mret str
           else mret str);
    '(str, size) ← (if negb (has type LEFT) then pad c (str, size) else mret (str, size));
    '(str, _) ← pad_to i 48 (str, precision);
    str ← emit str tmp;
    '(str, _) ← pad 32 (str, size);
    mret str.

(** ** Addresses *)

(** The six bytes of an Ethernet address, each after a colon but the first. *)
Fixpoint eaddr_text (dig : Z -> Z) (first : bool) (addr : list Z) : list Z :=
  match addr with
  | [] => []
  | b :: addr' => (if first then [] else [58]) ++ [dig (b >>> 4); dig (Z.land b 0x0F)] ++ eaddr_text dig false addr'
  end.

(** One byte in decimal. *)
Definition byte_text (n : Z) : list Z :=
  if n =? 0 then [digits 0]
  else if n >=? 100 then [digits (n / 100); digits (n mod 100 / 10); digits (n mod 100 mod 10)]
  else if n >=? 10 then [digits (n / 10); digits (n mod 10)]
  else [digits n].

Fixpoint iaddr_text (first : bool) (addr : list Z) : list Z :=
  match addr with
  | [] => []
  | b :: addr' => (if first then [] else [46]) ++ byte_text b ++ iaddr_text false addr'
  end.

(** [n] bytes from [p]. *)
Fixpoint rd_bytes (p : Z) (n : nat) : M mem (list Z) :=
  match n with O => mret [] | S n' => b ← rd p; l ← rd_bytes (p + 1) n'; mret (b :: l) end.

(** What [eaddr] and [iaddr] do with their text. *)
Definition put_text (str : Z) (tmp : list Z) (size type : Z) : M mem Z :=
  let len := Z.of_nat (length tmp) in
  '(str, size) ← (if negb (has type LEFT) then pad_to len 32 (str, size) else mret (str, size));
  str ← emit str tmp;
  '(str, _) ← pad_to len 32 (str, size);
  mret str.

Definition eaddr (str addr size type : Z) : M mem Z :=
  let dig := if has type LARGE then upper_digits else digits in
  b ← rd_bytes addr 6;
  put_text str (eaddr_text dig true b) size type.

Definition iaddr (str addr size type : Z) : M mem Z :=
  b ← rd_bytes addr 4;
  put_text str (iaddr_text true b) size type.

(** ** vsprintf *)

Definition skip_atoi (fuel : nat) (s : Z) : M mem (Z * Z) :=
  iterM fuel (fun '(s, i) =>
    c ← rdc s;
    if is_digit c then mret (inl (s + 1, s32 (s32 (s32 (i * 10) + c) - 48))) else mret (inr (s, i))) (s, 0).

(** A string argument: what [s] points to, or the text for a null pointer. *)
Definition char_of (s i : Z) : M mem Z :=
  if s =? 0 then mret (nth (Z.to_nat i) null_text 0) else rdc (s + i).

Definition strnlen (fuel : nat) (s count : Z) : M mem Z :=
  iterM fuel (fun '(n, count) =>
    c ← char_of s n;
    if c =? 0 then mret (inr n)
    else if count =? 0 then mret (inr n)
    else mret (inl (n + 1, u32 (count - 1)))) (0, u32 count).

Definition va_arg (args : list Z) : M mem (Z * list Z) :=
  match args with w :: args' => mret (w, args') | [] => fault end.

Definition flag_of (c : Z) : option Z :=
  if c =? 45 then Some LEFT else if c =? 43 then Some PLUS else if c =? 32 then Some SPACE
  else if c =? 35 then Some SPECIAL else if c =? 48 then Some ZEROPAD else None.

(** The flags after the percent sign at [fmt]. *)
Definition read_flags (fuel : nat) (fmt : Z) : M mem (Z * Z) :=
  iterM fuel (fun '(fmt, flags) =>
    let fmt := fmt + 1 in
    c ← rdc fmt;
    match flag_of c with
    | Some f => mret (inl (fmt, Z.lor flags f))
    | None => mret (inr (fmt, flags))
    end) (fmt, 0).

(** Format, arguments, width and flags. *)
Definition read_width (fuel : nat) (fmt flags : Z) (args : list Z) : M mem (Z * list Z * Z * Z) :=
  c ← rdc fmt;
  if is_digit c then
    '(fmt, w) ← skip_atoi fuel fmt;
    mret (fmt, args, w, flags)
  else if c =? 42 then
    '(w, args) ← va_arg args;
    if s32 w <? 0 then mret (fmt + 1, args, s32 (- s32 w), Z.lor flags LEFT) else mret (fmt + 1, args, s32 w, flags)
  else mret (fmt, args, -1, flags).

Definition read_precision (fuel : nat) (fmt : Z) (args : list Z) : M mem (Z * list Z * Z) :=
  c ← rdc fmt;
  if c =? 46 then
    let fmt := fmt + 1 in
    c ← rdc fmt;
    '(fmt, args, precision) ← (
      if is_digit c then '(fmt, p) ← skip_atoi fuel fmt; mret (fmt, args, p)
      else if c =? 42 then '(p, args) ← va_arg args; mret (fmt + 1, args, s32 p)
      else mret (fmt, args, -1));
    mret (fmt, args, if precision <? 0 then 0 else precision)
  else mret (fmt, args, -1).

Definition read_qualifier (fmt : Z) : M mem (Z * Z) :=
  c ← rdc fmt;
  if (c =? 104) || (c =? 108) || (c =? 76) then mret (fmt + 1, c) else mret (fmt, -1).

(** [case 's'] *)
Definition put_string (fuel : nat) (str s width precision flags : Z) : M mem Z :=
  len ← strnlen fuel s precision;
  '(str, width) ← (if negb (has flags LEFT) then pad_to len 32 (str, width) else mret (str, width));
  forM 0 (Z.to_nat len) (fun i => c ← char_of s i; wr (str + i) c);;
  '(str, _) ← pad_to len 32 (str + len, width);
  mret str.

(** [case 'c'] *)
Definition put_char (str c width flags : Z) : M mem Z :=
  '(str, width) ← (if negb (has flags LEFT) then pad_pre 32 (str, width) else mret (str, width));
  wr str c;;
  '(str, _) ← pad_pre 32 (str + 1, width);
  mret str.

Inductive conversion := ConvChar | ConvString | ConvPointer | ConvCount | ConvAddress (large : bool)
  | ConvNumber (base flags : Z) | ConvOther.

(** The character that ends a directive; the flags a number conversion adds. *)
Definition conversion_of (c : Z) : conversion :=
  if c =? 99 then ConvChar
  else if c =? 115 then ConvString
  else if c =? 112 then ConvPointer
  else if c =? 110 then ConvCount
  else if c =? 65 then ConvAddress true
  else if c =? 97 then ConvAddress false
  else if c =? 111 then ConvNumber 8 0
  else if c =? 88 then ConvNumber 16 LARGE
  else if c =? 120 then ConvNumber 16 0
  else if (c =? 100) || (c =? 105) then ConvNumber 10 SIGN
  else if c =? 117 then ConvNumber 10 0
  else ConvOther.

(** The body of the [switch]: the format (before the loop's increment), the output and the arguments that are left. *)
Definition convert (fuel : nat) (buf fmt str : Z) (args : list Z) (width precision qualifier flags : Z) : M mem (Z * Z * list Z) :=
  c ← rdc fmt;
  match conversion_of c with
  | ConvChar => '(w, args) ← va_arg args; str ← put_char str w width flags; mret (fmt, str, args)
  | ConvString => '(w, args) ← va_arg args; str ← put_string fuel str w width precision flags; mret (fmt, str, args)
  | ConvPointer =>
      let '(width, flags) := if width =? -1 then (8, Z.lor flags ZEROPAD) else (width, flags) in
      '(w, args) ← va_arg args; str ← number str (s32 w) 16 width precision flags; mret (fmt, str, args)
  | ConvCount => '(w, args) ← va_arg args; wr32 w (u32 (str - buf));; mret (fmt, str, args)
  | ConvAddress large =>
      let flags := if large then Z.lor flags LARGE else flags in
      '(w, args) ← va_arg args;
      str ← (if qualifier =? 108 then eaddr str w width flags else iaddr str w width flags);
      mret (fmt, str, args)
  | ConvNumber base extra =>
      '(w, args) ← va_arg args; str ← number str (s32 w) base width precision (Z.lor flags extra); mret (fmt, str, args)
  | ConvOther =>
      str ← (if negb (c =? 37) then wr str 37;; mret (str + 1) else mret str);
      if negb (c =? 0) then wr str c;; mret (fmt, str + 1, args) else mret (fmt - 1, str, args)
  end.

Definition vsprintf_round (fuel : nat) (buf : Z) (v : Z * Z * list Z) : M mem (Z * Z * list Z + Z) :=
  let '(fmt, str, args) := v in
  c ← rdc fmt;
  if c =? 0 then wr str 0;; mret (inr (s32 (str - buf)))
  else if negb (c =? 37) then wr str c;; mret (inl (fmt + 1, str + 1, args))
  else
    '(fmt, flags) ← read_flags fuel fmt;
    '(fmt, args, width, flags) ← read_width fuel fmt flags args;
    '(fmt, args, precision) ← read_precision fuel fmt args;
    '(fmt, qualifier) ← read_qualifier fmt;
    '(fmt, str, args) ← convert fuel buf fmt str args width precision qualifier flags;
    mret (inl (fmt + 1, str, args)).

(** [fuel] bounds the length of the format and of the strings. *)
Definition vsprintf (fuel : nat) (buf fmt : Z) (args : list Z) : M mem Z :=
  iterM fuel (vsprintf_round fuel buf) (fmt, buf, args).

Definition sprintf (fuel : nat) (buf fmt : Z) (args : list Z) : M mem Z := vsprintf fuel buf fmt args.

(** ** What is written *)

(** [m'] is [m] with [l] written from [p]. *)
Definition wrote (m : mem) (p : Z) (l : list Z) (m' : mem) : Prop :=
  (forall i c, l !! i = Some c -> m' (p + Z.of_nat i) = c) /\ forall a, a < p \/ p + Z.of_nat (length l) <= a -> m' a = m a.

Lemma wrote_nil m p : wrote m p [] m.
Proof. done. Qed.

Lemma wrote_app m p l1 m1 l2 m2 : wrote m p l1 m1 -> wrote m1 (p + Z.of_nat (length l1)) l2 m2 -> wrote m p (l1 ++ l2) m2.
Proof.
  intros [H1 O1] [H2 O2]. split.
  - intros i c Hi. destruct (decide (i < length l1)%nat) as [Hlt|Hge].
    + rewrite lookup_app_l in Hi by done. rewrite O2 by lia. by apply H1.
    + rewrite lookup_app_r in Hi by lia. rewrite <- (H2 _ _ Hi). f_equal. lia.
  - intros a Ha. rewrite length_app in Ha. rewrite O2, O1 by lia. done.
Qed.

Lemma wrote_one m p c : wrote m p [c] (<[p := c]> m).
Proof.
  split.
  - intros [|[|]] x [= <-]. rewrite Z.add_0_r. apply fn_insert_eq.
  - intros a Ha. cbn in Ha. by rewrite fn_insert_ne by lia.
Qed.

(** A writer leaves its text and points behind it. *)
Definition writes (w : M mem Z) (m : mem) (str : Z) (l : list Z) : Prop :=
  runs w m (fun str' m' => str' = str + Z.of_nat (length l) /\ wrote m str l m').

Definition bytes (l : list Z) : Prop := Forall (fun c => 0 <= c < 256) l.

Lemma writes_nil m str : writes (mret str) m str [].
Proof. unfold writes. mstep. split; [cbn; lia|done]. Qed.

Lemma writes_bind w f m str l1 l2 : writes w m str l1 -> (forall m1, wrote m str l1 m1 -> writes (f (str + Z.of_nat (length l1))) m1 (str + Z.of_nat (length l1)) l2) ->
  writes (w ≫= f) m str (l1 ++ l2).
Proof.
  intros Hw Hf. unfold writes in *. mstep. eapply runs_mono; [exact Hw|]. intros str' m1 [-> H1]. eapply runs_mono; [by apply Hf|]. intros str' m2 [-> H2].
  split; [rewrite length_app; lia|]. by eapply wrote_app.
Qed.

Lemma writes_char m str c : 0 <= c < 256 -> writes (wr str c;; mret (str + 1)) m str [c].
Proof. intros Hc. unfold writes, wr. do 3 mstep. rewrite uwrap_small by done. split; [cbn; lia|]. apply wrote_one. Qed.

Lemma emit_writes l : forall m str, bytes l -> writes (emit str l) m str l.
Proof.
  induction l as [|c l IH]; intros m str Hl; cbn [emit]; [apply writes_nil|]. apply Forall_cons in Hl as [Hc Hl]. unfold writes, wr. do 2 mstep. rewrite uwrap_small by done.
  eapply runs_mono; [by apply IH|]. intros str' m' [-> H]. split; [cbn [length]; lia|]. by apply (wrote_app _ _ [c] _ _ _ (wrote_one m str c)).
Qed.

(** A writer that also leaves a width. *)
Definition pads (w : M mem (Z * Z)) (m : mem) (str : Z) (l : list Z) (size' : Z) : Prop :=
  runs w m (fun v m' => v = (str + Z.of_nat (length l), size') /\ wrote m str l m').

Lemma pads_bind w f m str l1 size' l2 : pads w m str l1 size' ->
  (forall m1, wrote m str l1 m1 -> writes (f (str + Z.of_nat (length l1), size')) m1 (str + Z.of_nat (length l1)) l2) -> writes (w ≫= f) m str (l1 ++ l2).
Proof.
  intros Hw Hf. unfold writes, pads in *. mstep. eapply runs_mono; [exact Hw|]. intros v m1 [-> H1]. eapply runs_mono; [by apply Hf|]. intros str' m' [-> H2].
  split; [rewrite length_app; lia|]. by eapply wrote_app.
Qed.

(** The loop they have. *)
Lemma pad_loop (i c : Z) (body : Z * Z -> M mem (Z * Z + Z * Z)) : 0 <= c < 256 ->
  (forall str size, - 2 ^ 31 < size < 2 ^ 31 -> body (str, size) = if i <? size then wr str c;; mret (inl (str + 1, size - 1)) else mret (inr (str, size - 1))) ->
  forall n fuel m str size, 0 <= i -> - 2 ^ 31 < size < 2 ^ 31 -> n = Z.to_nat (size - i) -> (n < fuel)%nat -> pads (iterM fuel body (str, size)) m str (replicate n c) (Z.min size i - 1).
Proof.
  intros Hc Hbody. induction n as [|n IH]; intros [|fuel] m str size Hi Hs Hn Hf; try lia; unfold pads; apply runs_iterM_S; rewrite Hbody by lia.
  - destruct (Z.ltb_spec i size); [lia|]. mstep. split; [|done]. f_equal; cbn; lia.
  - destruct (Z.ltb_spec i size); [|lia]. unfold wr. do 3 mstep. rewrite uwrap_small by done.
    eapply runs_mono; [apply (IH fuel _ (str + 1) (size - 1)); lia|]. intros v m' [-> H']. split; [f_equal; cbn [length replicate]; lia|].
    by apply (wrote_app _ _ [c] _ _ _ (wrote_one m str c)).
Qed.

Lemma pad_spec c m str size : 0 <= c < 256 -> - 2 ^ 31 < size < 2 ^ 31 -> pads (pad c (str, size)) m str (replicate (Z.to_nat size) c) (Z.min size 0 - 1).
Proof.
  intros Hc Hs. unfold pad. cbn [snd]. apply (pad_loop 0 c); try lia. intros str' size' Hs'. by rewrite Z.gtb_ltb, (swrap_small 32) by lia.
Qed.

Lemma pad_to_spec i c m str size : 0 <= c < 256 -> 0 <= i -> - 2 ^ 31 < size < 2 ^ 31 -> pads (pad_to i c (str, size)) m str (replicate (Z.to_nat (size - i)) c) (Z.min size i - 1).
Proof.
  intros Hc Hi Hs. unfold pad_to. cbn [snd]. apply (pad_loop i c); try lia. intros str' size' Hs'. by rewrite (swrap_small 32) by lia.
Qed.

Lemma pads_if (b : bool) w m str size l size' : pads w m str l size' ->
  pads (if b then w else mret (str, size)) m str (if b then l else []) (if b then size' else size).
Proof. intros Hw. destruct b; [done|]. unfold pads. mstep. split; [|done]. f_equal. cbn. lia. Qed.

(** ** Numbers *)

(** The digits of [v], most significant first. *)
Fixpoint radix (n : nat) (base v : Z) (acc : list Z) : list Z :=
  match n with
  | O => acc
  | S n' => if v =? 0 then acc else radix n' base (v / base) (v mod base :: acc)
  end.
Definition numeral (base v : Z) : list Z := if v =? 0 then [0] else radix 32 base v [].

Lemma radix_value base n : forall v acc, 2 <= base -> 0 <= v < 2 ^ Z.of_nat n -> horner base 0 (radix n base v acc) = horner base v acc.
Proof.
  induction n as [|n IH]; intros v acc Hb Hv; cbn [radix]; [replace v with 0 by (cbn in Hv; lia); done|]. destruct (Z.eqb_spec v 0) as [->|Hn]; [done|].
  rewrite IH; [|done|].
  - cbn [horner]. f_equal. pose proof (Z.div_mod v base). lia.
  - rewrite Nat2Z.inj_succ, Z.pow_succ_r in Hv by lia. split; [apply Z.div_pos; lia|]. apply Z.div_lt_upper_bound; nia.
Qed.

Lemma radix_digits base n : forall v acc, 2 <= base -> 0 <= v -> Forall (fun d => 0 <= d < base) acc -> Forall (fun d => 0 <= d < base) (radix n base v acc).
Proof.
  induction n as [|n IH]; intros v acc Hb Hv Ha; cbn [radix]; [done|]. destruct (v =? 0); [done|]. apply IH; [done|by apply Z.div_pos; lia|]. constructor; [|done]. apply Z.mod_pos_bound. lia.
Qed.

Lemma radix_length base n : forall v acc, (length acc <= length (radix n base v acc) <= n + length acc)%nat.
Proof. induction n as [|n IH]; intros v acc; cbn [radix]; [lia|]. destruct (v =? 0); [lia|]. specialize (IH (v / base) (v mod base :: acc)). cbn [length] in IH. lia. Qed.

(** The digits have the value, there are at most 32, none is superfluous. *)
Lemma numeral_spec base v : 2 <= base -> 0 <= v < 2 ^ 32 ->
  horner base 0 (numeral base v) = v /\ Forall (fun d => 0 <= d < base) (numeral base v) /\ (1 <= length (numeral base v) <= 32)%nat.
Proof.
  intros Hb Hv. unfold numeral. destruct (Z.eqb_spec v 0) as [->|Hn].
  - cbn. split; [lia|]. split; [|lia]. constructor; [lia|constructor].
  - rewrite (radix_value base 32) by done. split; [done|]. split; [apply radix_digits; [done|lia|constructor]|].
    pose proof (radix_length base 32 v []) as Hl. pose proof (radix_length base 31 (v / base) [v mod base]) as Hl'. cbn [length] in *.
    split; [|lia]. change (radix 32 base v []) with (if v =? 0 then [] else radix 31 base (v / base) [v mod base]). rewrite (proj2 (Z.eqb_neq _ _)) by done. lia.
Qed.

Lemma u32_zero num : - 2 ^ 31 <= num < 2 ^ 31 -> u32 num = 0 -> num = 0.
Proof. intros Hr E. unfold uwrap in E. apply Z.mod_divide in E as [k Hk]; lia. Qed.

Lemma number_digits_spec dig base : 2 <= base <= 36 -> forall n fuel num tmp m, - 2 ^ 31 <= num < 2 ^ 31 -> u32 num < 2 ^ Z.of_nat n -> (n < fuel)%nat -> (n + length tmp <= 66)%nat ->
  runs (iterM fuel (number_digits dig base) (num, tmp)) m (fun r m' => m' = m /\ forall acc, tmp = dig <$> acc -> r = dig <$> radix n base (u32 num) acc).
Proof.
  intros Hb. induction n as [|n IH]; intros [|fuel] num tmp m Hr Hn Hf Hl; try lia; apply runs_iterM_S; unfold number_digits at 1; pose proof (uwrap_range 32 num ltac:(lia)) as Hu.
  - rewrite (u32_zero num) by (cbn in *; lia). cbn [Z.eqb negb]. mstep. by split; [|intros acc ->].
  - destruct (Z.eqb_spec num 0) as [->|Hne].
    + cbn [negb]. mstep. split; [done|]. by intros acc ->.
    + cbn [negb]. rewrite (proj2 (Z.ltb_lt _ _)) by lia. mstep.
      assert (Hq : 0 <= u32 num / base < 2 ^ Z.of_nat n /\ u32 num / base < 2 ^ 31).
      { rewrite Nat2Z.inj_succ, Z.pow_succ_r in Hn by lia. split; [split; [apply Z.div_pos; lia|]|]; apply Z.div_lt_upper_bound; nia. }
      rewrite (swrap_small 32) by lia. assert (Eu : u32 (u32 num / base) = u32 num / base) by (apply uwrap_small; lia).
      eapply runs_mono; [apply (IH fuel (u32 num / base) (dig (u32 num mod base) :: tmp) m); [lia|rewrite Eu; lia|lia|cbn [length]; lia]|].
      intros r m' [-> Hr']. split; [done|]. intros acc ->. cbn [radix]. rewrite (Hr' (u32 num mod base :: acc) eq_refl), Eu.
      by rewrite (proj2 (Z.eqb_neq (u32 num) 0)) by (intros E; by apply u32_zero in E).
Qed.

(** The sign that is printed. *)
Definition sign_text (num type : Z) : list Z :=
  if has type SIGN && (num <? 0) then [45] else if has type SIGN && has type PLUS then [43] else if has type SIGN && has type SPACE then [32] else [].

(** The text of a number: the digits, at least [precision] of them; the sign and the prefix in front; padding to the width
    on the left with blanks, on the right, or with zeros behind the prefix. *)
Definition number_text (num base size precision type : Z) : list Z :=
  let dig := if has type LARGE then upper_digits else digits in
  let sign := sign_text num type in
  let prefix := if has type SPECIAL then if base =? 8 then [48] else if base =? 16 then [48; 120] else [] else [] in
  let ds := dig <$> numeral base (if has type SIGN && (num <? 0) then - num else u32 num) in
  let core := replicate (Z.to_nat precision - length ds) 48 ++ ds in
  let room := (Z.to_nat size - length sign - length prefix - length core)%nat in
  if has type LEFT then sign ++ prefix ++ core ++ replicate room 32
  else if has type ZEROPAD then sign ++ prefix ++ replicate room 48 ++ core
  else replicate room 32 ++ sign ++ prefix ++ core.

(** ** number *)

Lemma has_bit x k : 0 <= k -> has x (2 ^ k) = Z.testbit x k.
Proof. intros Hk. rewrite <- shiftl1 by done. by apply has_pow2. Qed.

(** Without [ZEROPAD] the other flags are what they were. *)
Lemma drop_zeropad type k : 1 <= k -> has (Z.land type (Z.lnot ZEROPAD)) (2 ^ k) = has type (2 ^ k).
Proof.
  intros Hk. rewrite !has_bit, Z.land_spec, Z.lnot_spec by lia. change ZEROPAD with (2 ^ 0). rewrite Z.pow2_bits_eqb by lia.
  rewrite (proj2 (Z.eqb_neq 0 k)) by lia. apply andb_true_r.
Qed.
Lemma drop_zeropad_left type k : 1 <= k -> has (if has type LEFT then Z.land type (Z.lnot ZEROPAD) else type) (2 ^ k) = has type (2 ^ k).
Proof. intros Hk. destruct (has type LEFT); [by apply drop_zeropad|done]. Qed.
Lemma drop_zeropad_0 type : has (if has type LEFT then Z.land type (Z.lnot ZEROPAD) else type) ZEROPAD = negb (has type LEFT) && has type ZEROPAD.
Proof.
  destruct (has type LEFT); [|done]. change ZEROPAD with (2 ^ 0). rewrite has_bit, Z.land_spec, Z.lnot_spec by lia. change ZEROPAD with (2 ^ 0).
  rewrite Z.pow2_bits_true by lia. apply andb_false_r.
Qed.
Lemma has_lor_flags x a b : 0 <= a -> 0 <= b -> has x (Z.lor (2 ^ a) (2 ^ b)) = has x (2 ^ a) || has x (2 ^ b).
Proof.
  intros Ha Hb. unfold has. rewrite Z.land_lor_distr_r. rewrite <- negb_andb. f_equal. destruct (Z.eqb_spec (Z.land x (2 ^ a)) 0) as [->|H1]; [by rewrite Z.lor_0_l|].
  cbn [andb]. apply Z.eqb_neq. intros E. by apply Z.lor_eq_0_iff in E as [E _].
Qed.

Lemma digits_byte d : 0 <= d < 36 -> 0 <= digits d < 256 /\ 0 <= upper_digits d < 256.
Proof. intros Hd. unfold digits, upper_digits. destruct (Z.ltb_spec d 10); lia. Qed.
Lemma numeral_bytes (large : bool) base v : 2 <= base <= 36 -> 0 <= v < 2 ^ 32 -> bytes ((if large then upper_digits else digits) <$> numeral base v).
Proof.
  intros Hb Hv. destruct (numeral_spec base v) as (_ & H & _); [lia|done|]. apply Forall_fmap. eapply Forall_impl; [exact H|]. intros d Hd. cbn beta in Hd. cbn.
  destruct (digits_byte d) as [H1 H2]; [lia|]. by destruct large.
Qed.
Lemma writes_if (b : bool) w m str l : writes w m str l -> writes (if b then w else mret str) m str (if b then l else []).
Proof. intros Hw. destruct b; [done|apply writes_nil]. Qed.

(** The digits of the value to print, whether kept as it is or negated. *)
Lemma number_tmp dig base num m (Q : list Z -> mem -> Prop) : 2 <= base <= 36 -> - 2 ^ 31 <= num < 2 ^ 31 -> dig 0 = 48 ->
  Q (dig <$> numeral base (u32 num)) m -> runs (if num =? 0 then mret [48] else iterM 34 (number_digits dig base) (num, [])) m Q.
Proof.
  intros Hb Hn Hd HQ. unfold numeral in HQ. pose proof (uwrap_range 32 num ltac:(lia)) as Hu. destruct (Z.eqb_spec num 0) as [->|Hne].
  - mstep. change (u32 0 =? 0) with true in HQ. cbn in HQ. by rewrite Hd in HQ.
  - rewrite (proj2 (Z.eqb_neq (u32 num) 0)) in HQ by (intros E; by apply u32_zero in E).
    eapply runs_mono; [apply (number_digits_spec dig base Hb 32); [done|lia|lia|cbn; lia]|]. intros r m' [-> Hr]. by rewrite (Hr [] eq_refl).
Qed.

(** The sign that is printed, the number whose digits are, the width they leave. *)
Lemma number_sign_spec num size type : - 2 ^ 31 <= num < 2 ^ 31 -> - 1 <= size < 2 ^ 30 -> exists sg num',
  number_sign num size type = (sg, num', size - Z.of_nat (length (sign_text num type))) /\ sign_text num type = (if negb (sg =? 0) then [sg] else []) /\
  u32 num' = (if has type SIGN && (num <? 0) then - num else u32 num) /\ - 2 ^ 31 <= num' < 2 ^ 31 /\ 0 <= sg < 256.
Proof.
  intros Hn Hs. unfold number_sign, sign_text. destruct (has type SIGN); cbn [andb]; [|exists 0, num; split_and!; try done; try lia; f_equal; cbn; lia].
  destruct (Z.ltb_spec num 0).
  - exists 45, (s32 (- num)). rewrite (swrap_small 32 (size - 1)) by lia. split_and!; try done; try lia.
    + unfold uwrap. rewrite <- (Z.mod_small (- num) (2 ^ 32)) at 2 by lia. apply uwrap_swrap; lia.
    + pose proof (swrap_range 32 (- num)). lia.
    + pose proof (swrap_range 32 (- num)). lia.
  - destruct (has type PLUS); [|destruct (has type SPACE)]; (eexists _, num; split_and!; [try rewrite (swrap_small 32 (size - 1)) by lia; (reflexivity || (f_equal; cbn; lia))|reflexivity|reflexivity|lia|lia|lia|lia]).
Qed.

Lemma writes_eq w m str l l' : writes w m str l -> l = l' -> writes w m str l'.
Proof. by intros H <-. Qed.

Lemma prefix_writes (base : Z) m str :
  writes (if base =? 8 then wr str 48;; mret (str + 1) else if base =? 16 then wr str 48;; wr (str + 1) (digits 33);; mret (str + 2) else mret str) m str
    (if base =? 8 then [48] else if base =? 16 then [48; 120] else []).
Proof.
  destruct (base =? 8); [by apply writes_char|]. destruct (base =? 16); [|apply writes_nil].
  unfold writes, wr. do 5 mstep. split; [cbn; lia|]. apply (wrote_app _ _ [48] _ [120] _ (wrote_one m str 48)). apply wrote_one.
Qed.

Lemma number_writes m str num base size precision type : 2 <= base <= 36 -> - 2 ^ 31 <= num < 2 ^ 31 -> - 1 <= size < 2 ^ 30 -> - 1 <= precision < 2 ^ 30 ->
  writes (number str num base size precision type) m str (number_text num base size precision type).
Proof.
  intros Hb Hn Hs Hp. unfold number, number_text. rewrite (proj2 (Z.ltb_ge base 2)), (Z.gtb_ltb base 36), (proj2 (Z.ltb_ge 36 base)) by lia. cbn [orb].
  set (type' := if has type LEFT then _ else type). assert (Es : has type' SIGN = has type SIGN) by (apply (drop_zeropad_left type 1); lia).
  assert (El : has type' LEFT = has type LEFT) by (apply (drop_zeropad_left type 4); lia). assert (Ex : has type' SPECIAL = has type SPECIAL) by (apply (drop_zeropad_left type 5); lia).
  assert (Et : forall n, sign_text n type' = sign_text n type).
  { assert (Ep : has type' PLUS = has type PLUS) by (apply (drop_zeropad_left type 2); lia). assert (Eb : has type' SPACE = has type SPACE) by (apply (drop_zeropad_left type 3); lia).
    intros n. unfold sign_text. by rewrite Es, Ep, Eb. }
  assert (Ez : has type' ZEROPAD = negb (has type LEFT) && has type ZEROPAD) by apply drop_zeropad_0.
  assert (Ezl : has type' (Z.lor ZEROPAD LEFT) = has type LEFT || has type ZEROPAD).
  { etransitivity; [apply (has_lor_flags type' 0 4); lia|]. change (2 ^ 0) with ZEROPAD. change (2 ^ 4) with LEFT. rewrite Ez, El. destruct (has type LEFT), (has type ZEROPAD); done. }
  destruct (number_sign_spec num size type' Hn Hs) as (sg & num' & Esg & Etx & Eu & Hn' & Hsg). rewrite Et in Esg, Etx. rewrite Es in Eu. rewrite Esg.
  rewrite <- Eu. clear Esg Eu Et.
  assert (Hls : (length (sign_text num type) <= 1)%nat) by (rewrite Etx; destruct (negb (sg =? 0)); cbn; lia).
  set (prefix := if has type SPECIAL then _ else []). set (dig := if has type LARGE then upper_digits else digits).
  assert (Hlp : (length prefix <= 2)%nat) by (unfold prefix; destruct (has type SPECIAL), (base =? 8), (base =? 16); cbn; lia).
  assert (Esz : (if has type' SPECIAL then if base =? 16 then s32 (size - Z.of_nat (length (sign_text num type)) - 2) else if base =? 8 then s32 (size - Z.of_nat (length (sign_text num type)) - 1)
     else size - Z.of_nat (length (sign_text num type)) else size - Z.of_nat (length (sign_text num type))) = size - Z.of_nat (length (sign_text num type)) - Z.of_nat (length prefix)).
  { rewrite Ex. unfold prefix. destruct (has type SPECIAL); [|cbn; lia]. destruct (Z.eqb_spec base 16) as [->|]; [cbn; rewrite (swrap_small 32) by lia; lia|].
    destruct (Z.eqb_spec base 8); [rewrite (swrap_small 32) by lia; cbn; lia|cbn; lia]. }
  rewrite Esz. clear Esz. set (sz := size - _ - _).
  unfold writes at 1. mstep. apply number_tmp; [done|done|unfold dig; by destruct (has type LARGE)|].
  assert (Htmp : bytes (dig <$> numeral base (u32 num'))) by (apply numeral_bytes; [done|apply (uwrap_range 32); lia]).
  destruct (numeral_spec base (u32 num')) as (_ & _ & Hnl); [lia|apply (uwrap_range 32); lia|]. rewrite <- (length_fmap dig) in Hnl.
  set (tmp := dig <$> numeral base (u32 num')) in *. set (i := Z.of_nat (length tmp)).
  assert (Hi : 1 <= i <= 32) by (unfold i; lia). set (prec := if i >? precision then i else precision). assert (Hprec : prec = Z.max i precision) by (unfold prec; destruct (Z.gtb_spec i precision); lia).
  rewrite (swrap_small 32) by lia. set (size3 := sz - prec). assert (H3 : - 2 ^ 31 + 100 < size3 < 2 ^ 30) by lia. rewrite Ezl, El, Ez, Ex.
  match goal with |- runs ?w m (fun str' m' => str' = str + Z.of_nat (length ?l) /\ _) => change (writes w m str l) end.
  eapply writes_eq.
  - eapply pads_bind; [apply pads_if, pad_spec; lia|]. intros m1 _. eapply writes_bind; [apply writes_if, writes_char; lia|]. intros m2 _.
    eapply writes_bind; [apply writes_if, prefix_writes|]. intros m3 _. eapply pads_bind; [apply pads_if, pad_spec; [destruct (has type LEFT), (has type ZEROPAD); cbn; lia|destruct (negb (_ || _)); lia]|]. intros m4 _.
    eapply pads_bind; [apply pad_to_spec; lia|]. intros m5 _. eapply writes_bind; [by apply emit_writes|]. intros m6 _.
    eapply (pads_bind _ _ _ _ _ _ []); [apply pad_spec; [lia|destruct (has type LEFT), (has type ZEROPAD); cbn; lia]|]. intros m7 _. apply writes_nil.
  - rewrite <- Etx. fold prefix. rewrite app_nil_r. unfold size3, sz. rewrite Hprec. replace (Z.to_nat (Z.max i precision - i)) with (Z.to_nat precision - length tmp)%nat by lia.
    rewrite length_app, length_replicate. set (room := (Z.to_nat size - length (sign_text num type) - length prefix - (Z.to_nat precision - length tmp + length tmp))%nat).
    set (z := size - Z.of_nat (length (sign_text num type)) - Z.of_nat (length prefix) - Z.max i precision). assert (Hz : Z.to_nat z = room) by lia.
    destruct (has type LEFT), (has type ZEROPAD); cbn [negb andb orb]; rewrite ?Hz, ?(Z2Nat.nonpos (Z.min _ 0 - 1)) by lia; cbn [replicate app]; by rewrite ?app_nil_r, <- ?app_assoc.
Qed.

(** ** Texts in a field *)

(** [l] in a field of [width], against the right or the left margin. *)
Definition text_field (l : list Z) (width flags : Z) : list Z :=
  let blanks := replicate (Z.to_nat (width - Z.of_nat (length l))) 32 in
  if has flags LEFT then l ++ blanks else blanks ++ l.

Lemma put_text_writes m str l size type : bytes l -> - 1 <= size < 2 ^ 30 -> Z.of_nat (length l) < 2 ^ 30 -> writes (put_text str l size type) m str (text_field l size type).
Proof.
  intros Hl Hs Hn. unfold put_text. eapply writes_eq.
  - eapply pads_bind; [apply pads_if, pad_to_spec; lia|]. intros m1 _. eapply writes_bind; [by apply emit_writes|]. intros m2 _.
    eapply (pads_bind _ _ _ _ _ _ []); [apply pad_to_spec; [lia|lia|destruct (negb _); lia]|]. intros m3 _. apply writes_nil.
  - unfold text_field. rewrite app_nil_r. destruct (has type LEFT); cbn [negb]; [done|]. rewrite (Z2Nat.nonpos (Z.min _ _ - 1 - _)) by lia. cbn [replicate]. by rewrite app_nil_r.
Qed.

Lemma pad_pre_spec c m str size : 0 <= c < 256 -> - 2 ^ 31 + 1 < size < 2 ^ 31 -> pads (pad_pre c (str, size)) m str (replicate (Z.to_nat (size - 1)) c) (Z.min (size - 1) 0).
Proof.
  intros Hc Hs. unfold pad_pre. cbn [snd]. assert (H : forall n fuel m str size, - 2 ^ 31 + 1 < size < 2 ^ 31 -> n = Z.to_nat (size - 1) -> (n < fuel)%nat ->
    pads (iterM fuel (fun '(str, size) => if s32 (size - 1) >? 0 then wr str c;; mret (inl (str + 1, s32 (size - 1))) else mret (inr (str, s32 (size - 1)))) (str, size)) m str (replicate n c) (Z.min (size - 1) 0)); [|apply H; lia].
  clear - Hc. intros n. induction n as [|n IH]; intros [|fuel] m str size Hs Hn Hf; try lia; unfold pads; apply runs_iterM_S; rewrite (swrap_small 32) by lia; destruct (Z.gtb_spec (size - 1) 0); try lia.
  - mstep. split; [|done]. f_equal; cbn; lia.
  - unfold wr at 1. do 3 mstep. rewrite uwrap_small by done. eapply runs_mono; [apply (IH fuel _ (str + 1) (size - 1)); lia|]. intros v m' [-> H']. split; [f_equal; cbn [length replicate]; lia|].
    by apply (wrote_app _ _ [c] _ _ _ (wrote_one m str c)).
Qed.

Lemma put_char_writes m str c width flags : - 1 <= width < 2 ^ 30 -> writes (put_char str c width flags) m str (text_field [u8 c] width flags).
Proof.
  intros Hs. unfold put_char. eapply writes_eq.
  - eapply (pads_bind _ _ _ _ _ _ ([u8 c] ++ (if has flags LEFT then replicate (Z.to_nat (width - 1)) 32 else []))); [apply pads_if, pad_pre_spec; lia|]. intros m1 _. unfold writes, wr. do 2 mstep.
    match goal with |- runs ?w ?m2 _ => assert (Hw : writes w m2 (str + Z.of_nat (length (if negb (has flags LEFT) then replicate (Z.to_nat (width - 1)) 32 else [])) + 1) (if has flags LEFT then replicate (Z.to_nat (width - 1)) 32 else [])) end.
    { eapply writes_eq; [eapply (pads_bind _ _ _ _ _ _ []); [apply pad_pre_spec; [lia|destruct (negb _); lia]|]; intros m3 _; apply writes_nil|]. rewrite app_nil_r. destruct (has flags LEFT); cbn [negb]; [done|].
      by rewrite Z2Nat.nonpos by lia. }
    eapply runs_mono; [exact Hw|]. intros str' m' [-> H']. split; [|by apply (wrote_app _ _ [u8 c] _ _ _ (wrote_one m1 _ (u8 c)))]. cbn [length app]. lia.
  - unfold text_field. cbn [length]. destruct (has flags LEFT); [done|by rewrite app_nil_r].
Qed.
