(* ===== verification/Format.v ===== *)
(** * Format: what vsprintf prints

    A declarative account of formats, and that [vsprintf] of [Printf] (kernel/src/lib/printf.c) follows it. *)

From S2P Require Import Prelude Words CString Printf.

(** ** A string argument *)

(** The characters at [p], up to the terminator. *)
Fixpoint ctext (m : mem) (p : Z) (l : list Z) : Prop :=
  match l with
  | [] => s8 (m p) = 0
  | c :: l' => s8 (m p) = c /\ c <> 0 /\ ctext m (p + 1) l'
  end.

Lemma ctext_lookup m l : forall p i c, ctext m p l -> l !! i = Some c -> s8 (m (p + Z.of_nat i)) = c /\ c <> 0.
Proof.
  induction l as [|x l IH]; intros p [|i] c Hl Hi; try done; cbn in Hl, Hi; destruct Hl as (Hx & Hn & Hl).
  - injection Hi as <-. by rewrite Z.add_0_r.
  - replace (p + Z.of_nat (S i)) with (p + 1 + Z.of_nat i) by lia. by apply IH.
Qed.
Lemma ctext_end m l : forall p, ctext m p l -> s8 (m (p + Z.of_nat (length l))) = 0.
Proof.
  induction l as [|x l IH]; intros p Hl; cbn in *; [by rewrite Z.add_0_r|]. destruct Hl as (_ & _ & Hl). replace (p + Z.of_nat (S (length l))) with (p + 1 + Z.of_nat (length l)) by lia. by apply IH.
Qed.

(** ** Address texts *)

Lemma rd_bytes_spec n : forall m p (Q : list Z -> mem -> Prop), Q ((fun i => m (p + i)) <$> seqZ 0 (Z.of_nat n)) m -> runs (rd_bytes p n) m Q.
Proof.
  induction n as [|n IH]; intros m p Q HQ; cbn [rd_bytes]; [by mstep|]. unfold rd. do 3 mstep. apply IH. mstep.
  rewrite seqZ_cons in HQ by lia. cbn in HQ. rewrite Z.add_0_r in HQ. replace (Z.pred (Z.of_nat (S n))) with (Z.of_nat n) in HQ by lia.
  assert (E : (fun i => m (p + 1 + i)) <$> seqZ 0 (Z.of_nat n) = (fun i => m (p + i)) <$> seqZ (Z.succ 0) (Z.of_nat n)); [|by rewrite E].
  apply list_eq. intros i. rewrite !list_lookup_fmap. destruct (decide (i < n)%nat); [rewrite !lookup_seqZ_lt by lia; cbn; do 2 f_equal; lia|by rewrite !lookup_seqZ_ge by lia].
Qed.

Lemma eaddr_bytes (large : bool) b : bytes b -> forall first, bytes (eaddr_text (if large then upper_digits else digits) first b) /\ (length (eaddr_text (if large then upper_digits else digits) first b) <= 3 * length b)%nat.
Proof.
  intros Hb. induction Hb as [|x b Hx Hb IH]; intros first; cbn [eaddr_text]; [split; [constructor|cbn; lia]|]. destruct (IH false) as [IH1 IH2].
  assert (H1 : 0 <= x >>> 4 < 36) by (rewrite Z.shiftr_div_pow2 by lia; split; [apply Z.div_pos; lia|apply Z.div_lt_upper_bound; lia]).
  assert (H2 : 0 <= Z.land x 0x0F < 36) by (change 0x0F with (Z.ones 4); rewrite Z.land_ones by lia; pose proof (Z.mod_pos_bound x (2 ^ 4)); lia).
  destruct (digits_byte _ H1) as [? ?], (digits_byte _ H2) as [? ?]. split.
  - apply Forall_app. split; [destruct first; repeat constructor; lia|]. destruct large; cbn [app]; (constructor; [done|]); (constructor; [done|]); done.
  - rewrite !length_app. destruct first; cbn [length]; lia.
Qed.

Lemma byte_text_bytes x : 0 <= x < 256 -> bytes (byte_text x) /\ (length (byte_text x) <= 3)%nat.
Proof.
  intros Hx. unfold byte_text. assert (Hd : forall d, 0 <= d < 36 -> 0 <= digits d < 256) by (intros d Hd; by apply digits_byte).
  assert (Ha1 : 0 <= x / 100 < 10) by (split; [apply Z.div_pos; lia|apply Z.div_lt_upper_bound; lia]). pose proof (Z.mod_pos_bound x 100). pose proof (Z.mod_pos_bound (x mod 100) 10). pose proof (Z.mod_pos_bound x 10).
  assert (Ha2 : 0 <= x mod 100 / 10 < 10) by (split; [apply Z.div_pos; lia|apply Z.div_lt_upper_bound; lia]).
  assert (Ha3 : x < 100 -> 0 <= x / 10 < 10) by (intros; split; [apply Z.div_pos; lia|apply Z.div_lt_upper_bound; lia]).
  destruct (Z.eqb_spec x 0); [split; [repeat constructor; done|cbn; lia]|]. rewrite !Z.geb_leb. destruct (Z.leb_spec 100 x); [split; [|cbn; lia]; repeat (constructor; [apply Hd; lia|]); constructor|].
  destruct (Z.leb_spec 10 x); (split; [|cbn; lia]); repeat (constructor; [apply Hd; lia|]); constructor.
Qed.

Lemma iaddr_bytes b : bytes b -> forall first, bytes (iaddr_text first b) /\ (length (iaddr_text first b) <= 4 * length b)%nat.
Proof.
  intros Hb. induction Hb as [|x b Hx Hb IH]; intros first; cbn [iaddr_text]; [split; [constructor|cbn; lia]|]. destruct (IH false) as [IH1 IH2], (byte_text_bytes x Hx) as [H1 H2]. split.
  - apply Forall_app. split; [destruct first; repeat constructor; lia|]. apply Forall_app. by split.
  - rewrite !length_app. destruct first; cbn [length]; lia.
Qed.

Section Format.
Context (lo hi : Z) (m0 : mem).

(** Only the output buffer has been written. *)
Definition outside (m : mem) : Prop := forall a, a < lo \/ hi <= a -> m a = m0 a.

Lemma outside_wrote m str l m' : outside m -> lo <= str -> str + Z.of_nat (length l) <= hi -> wrote m str l m' -> outside m'.
Proof. intros Ho Hlo Hhi [_ Hw] a Ha. rewrite Hw by lia. by apply Ho. Qed.

(** [n] bytes from [p] lie apart from the buffer. *)
Definition clear_of (p n : Z) : Prop := p + n <= lo \/ hi <= p.

(** The string argument [s]. *)
Definition string_at (s : Z) (l : list Z) : Prop :=
  if s =? 0 then l = null_text else ctext m0 s l /\ clear_of s (Z.of_nat (length l) + 1).

Lemma char_of_spec m s l i (Q : Z -> mem -> Prop) : outside m -> string_at s l -> (i <= length l)%nat -> Q (nth i l 0) m -> runs (char_of s (Z.of_nat i)) m Q.
Proof.
  intros Ho Hs Hi HQ. unfold char_of, string_at in *. destruct (s =? 0).
  - subst l. mstep. by rewrite Nat2Z.id.
  - destruct Hs as [Hs Hc]. unfold rdc. mstep. rewrite Ho by (unfold clear_of in Hc; lia).
    destruct (decide (i = length l)) as [->|Hne]; [by rewrite (ctext_end _ _ _ Hs), <- (nth_overflow l (n := length l)) at 1 by lia|].
    destruct (lookup_lt_is_Some_2 l i) as [c Hl]; [lia|]. destruct (ctext_lookup _ _ _ _ _ Hs Hl) as [-> _]. by rewrite (nth_lookup_Some _ _ _ _ Hl) in HQ.
Qed.

Lemma strnlen_spec s l : string_at s l -> Forall (fun c => c <> 0) l -> forall n fuel m count (Q : Z -> mem -> Prop), outside m -> 0 <= count < 2 ^ 32 -> (n <= length l)%nat -> (length l - n < fuel)%nat ->
  Q (Z.of_nat (n + Nat.min (length l - n) (Z.to_nat count))) m ->
  runs (iterM fuel (fun '(n, count) => c ← char_of s n; if c =? 0 then mret (inr n) else if count =? 0 then mret (inr n) else mret (inl (n + 1, u32 (count - 1)))) (Z.of_nat n, count)) m Q.
Proof.
  intros Hs Hnz n fuel. revert n. induction fuel as [|fuel IH]; intros n m count Q Ho Hc Hn Hf HQ; [lia|]. apply runs_iterM_S. mstep. eapply char_of_spec; [done|exact Hs|done|].
  destruct (decide (n = length l)) as [->|Hne].
  - rewrite nth_overflow by lia. cbn [Z.eqb]. mstep. by rewrite Nat.sub_diag, Nat.min_0_l, Nat.add_0_r in HQ.
  - destruct (lookup_lt_is_Some_2 l n) as [c Hl]; [lia|]. rewrite (nth_lookup_Some _ _ _ _ Hl), (proj2 (Z.eqb_neq c 0)) by by eapply Forall_lookup_1 in Hnz.
    destruct (Z.eqb_spec count 0) as [->|Hc0]; mstep; [by rewrite Nat.min_0_r, Nat.add_0_r in HQ|]. rewrite uwrap_small by lia.
    replace (Z.of_nat n + 1) with (Z.of_nat (S n)) by lia. apply IH; [done|lia|lia|lia|]. by replace (S n + Nat.min (length l - S n) (Z.to_nat (count - 1)))%nat with (n + Nat.min (length l - n) (Z.to_nat count))%nat by lia.
Qed.

Lemma string_nonzero s l : string_at s l -> Forall (fun c => c <> 0) l.
Proof.
  unfold string_at. destruct (s =? 0); [intros ->; repeat (constructor; [done|]); constructor|]. intros [Hs _]. apply Forall_forall. intros c [i Hi]%list_elem_of_lookup. by eapply ctext_lookup.
Qed.

(** What a string argument prints with a precision. *)
Definition string_text (l : list Z) (precision : Z) : list Z := u8 <$> take (Z.to_nat (u32 precision)) l.

Lemma bytes_u8 l : bytes (u8 <$> l).
Proof. apply Forall_fmap, Forall_forall. intros c _. apply (uwrap_range 8). lia. Qed.

Lemma put_string_writes fuel m str s l width precision flags : outside m -> string_at s l -> (length l < fuel)%nat -> Z.of_nat (length l) < 2 ^ 30 -> - 1 <= width < 2 ^ 30 ->
  lo <= str -> str + Z.of_nat (length (text_field (string_text l precision) width flags)) <= hi ->
  writes (put_string fuel str s width precision flags) m str (text_field (string_text l precision) width flags).
Proof.
  intros Ho Hs Hf Hl Hw Hlo Hhi. unfold put_string. pose proof (uwrap_range 32 precision ltac:(lia)) as Hp.
  assert (Hlen : length (string_text l precision) = Nat.min (length l) (Z.to_nat (u32 precision))) by (unfold string_text; rewrite length_fmap, length_take; lia).
  unfold writes at 1. mstep. unfold strnlen. eapply (strnlen_spec s l Hs (string_nonzero _ _ Hs) 0); [done|done|lia|lia|]. rewrite Nat.sub_0_r, Nat.add_0_l, <- Hlen. set (t := string_text l precision) in *.
  match goal with |- runs ?w m (fun str' m' => str' = str + Z.of_nat (length ?l) /\ _) => change (writes w m str l) end.
  assert (Hend : forall m2 p b, - 2 ^ 31 < b < 2 ^ 31 -> writes ('(str, _) ← pad_to (Z.of_nat (length t)) 32 (p, b); mret str) m2 p (replicate (Z.to_nat (b - Z.of_nat (length t))) 32)).
  { intros m2 p b Hb. eapply writes_eq; [eapply (pads_bind _ _ _ _ _ _ []); [apply pad_to_spec; lia|]; intros m3 _; apply writes_nil|by rewrite app_nil_r]. }
  eapply writes_eq.
  - eapply (pads_bind _ _ _ _ _ _ (t ++ _)); [apply pads_if, pad_to_spec; lia|]. intros m1 H1. unfold writes. mstep. rewrite Nat2Z.id.
    set (b := if negb (has flags LEFT) then _ else []) in *. assert (Hb : Z.of_nat (length b) + Z.of_nat (length t) = Z.of_nat (length (text_field t width flags)) \/ b = []).
    { unfold b, text_field. destruct (has flags LEFT); cbn [negb]; [by right|left; rewrite length_app; lia]. }
    assert (Ht : Z.of_nat (length t) <= Z.of_nat (length (text_field t width flags))) by (unfold text_field; destruct (has flags LEFT); rewrite length_app; lia).
    assert (Ho1 : outside m1). { refine (outside_wrote _ _ _ _ Ho Hlo _ H1). destruct Hb as [Hb|Hb]; [lia|]. rewrite Hb. cbn. lia. }
    assert (Hbl : str + Z.of_nat (length b) + Z.of_nat (length t) <= hi) by (destruct Hb as [Hb|Hb]; [lia|]; rewrite Hb; cbn; lia).
    eapply runs_mono; [apply (runs_forM (fun k m2 => wrote m1 (str + Z.of_nat (length b)) (take (Z.to_nat k) t) m2))|]; [done| |].
    + intros k m2 Hk H2. mstep. assert (Ho2 : outside m2) by (refine (outside_wrote _ _ _ _ Ho1 _ _ H2); [lia|rewrite length_take; lia]).
      rewrite <- (Z2Nat.id k) by lia. eapply char_of_spec; [exact Ho2|exact Hs|lia|]. unfold wr. mstep.
      destruct (lookup_lt_is_Some_2 l (Z.to_nat k)) as [c Hc]; [lia|]. rewrite (nth_lookup_Some _ _ _ _ Hc).
      replace (Z.to_nat (Z.of_nat (Z.to_nat k) + 1)) with (S (Z.to_nat k)) by lia. rewrite (take_S_r _ _ (u8 c)) by (unfold t, string_text; rewrite list_lookup_fmap, lookup_take_lt, Hc by lia; done).
      eapply wrote_app; [exact H2|]. rewrite length_take, Nat.min_l by lia. apply wrote_one.
    + intros [] m2 H2. cbn beta in H2. rewrite Z.add_0_l, Nat2Z.id, take_ge in H2 by lia.
      eapply runs_mono; [apply Hend; destruct (negb _); lia|]. intros str' m' [-> H']. split; [|by eapply wrote_app]. rewrite length_app. lia.
  - unfold text_field. destruct (has flags LEFT); cbn [negb]; [done|]. rewrite (Z2Nat.nonpos (Z.min _ _ - 1 - _)) by lia. cbn [replicate]. by rewrite app_nil_r.
Qed.

(** ** Reading the format *)

Context (fuel : nat) (F : list Z) (fmt0 : Z).

(** The format is [F], from [fmt0]. *)
Hypothesis Hfmt : ctext m0 fmt0 F /\ clear_of fmt0 (Z.of_nat (length F) + 1).
Hypothesis Hfuel : (length F < fuel)%nat.

(** At [p], [f] is left of it. *)
Definition at_rest (p : Z) (f : list Z) : Prop := exists pre, F = pre ++ f /\ p = fmt0 + Z.of_nat (length pre).

Definition headc (f : list Z) : Z := default 0 (head f).

Lemma at_rest_tail p c f : at_rest p (c :: f) -> at_rest (p + 1) f.
Proof. intros (pre & E & ->). exists (pre ++ [c]). rewrite <- app_assoc. split; [done|]. rewrite length_app. cbn. lia. Qed.

Lemma at_rest_length p f : at_rest p f -> (length f < fuel)%nat.
Proof. intros (pre & E & _). rewrite E, length_app in Hfuel. lia. Qed.

Lemma rdc_format m p f (Q : Z -> mem -> Prop) : outside m -> at_rest p f -> Q (headc f) m -> runs (rdc p) m Q.
Proof.
  intros Ho (pre & E & ->) HQ. unfold rdc. mstep. destruct Hfmt as [Ht Hc]. rewrite E, length_app in Hc. rewrite Ho by (unfold clear_of in Hc; lia).
  destruct f as [|c f].
  - rewrite app_nil_r in E. subst pre. by rewrite (ctext_end _ _ _ Ht).
  - destruct (ctext_lookup m0 F fmt0 (length pre) c Ht) as [-> _]; [|done]. by rewrite E, list_lookup_middle.
Qed.

Lemma at_rest_nonzero p c f : at_rest p (c :: f) -> c <> 0.
Proof. intros (pre & E & _). destruct Hfmt as [Ht _]. eapply (ctext_lookup m0 F fmt0 (length pre) c Ht). by rewrite E, list_lookup_middle. Qed.

Fixpoint p_flags (f : list Z) (flags : Z) : Z * list Z :=
  match f with
  | c :: f' => match flag_of c with Some x => p_flags f' (Z.lor flags x) | None => (flags, f) end
  | [] => (flags, [])
  end.

Fixpoint p_number (f : list Z) (i : Z) : Z * list Z :=
  match f with
  | c :: f' => if is_digit c then p_number f' (s32 (s32 (s32 (i * 10) + c) - 48)) else (i, f)
  | [] => (i, [])
  end.

Lemma read_flags_spec m p f (Q : Z * Z -> mem -> Prop) : outside m -> at_rest (p + 1) f ->
  (forall p', at_rest p' (p_flags f 0).2 -> Q (p', (p_flags f 0).1) m) -> runs (read_flags fuel p) m Q.
Proof.
  intros Ho Hp. pose proof (at_rest_length _ _ Hp) as Hl. unfold read_flags. revert p Hp Hl. generalize 0 as flags, fuel as n. induction f as [|c f IH]; intros flags [|n] p Hp Hl HQ; try (cbn in Hl; lia);
    apply runs_iterM_S; mstep; (eapply rdc_format; [done|exact Hp|]); unfold headc in *; cbn [head from_option id p_flags] in *.
  - change (flag_of 0) with (@None Z). cbn match. mstep. by apply HQ.
  - destruct (flag_of c) as [x|]; mstep; [|by apply HQ]. apply IH; [by eapply at_rest_tail|cbn in Hl; lia|done].
Qed.

Lemma skip_atoi_spec m p f (Q : Z * Z -> mem -> Prop) : outside m -> at_rest p f ->
  (forall p', at_rest p' (p_number f 0).2 -> Q (p', (p_number f 0).1) m) -> runs (skip_atoi fuel p) m Q.
Proof.
  intros Ho Hp. pose proof (at_rest_length _ _ Hp) as Hl. unfold skip_atoi. revert p Hp Hl. generalize 0 as i, fuel as n. induction f as [|c f IH]; intros i [|n] p Hp Hl HQ; try (cbn in Hl; lia);
    apply runs_iterM_S; mstep; (eapply rdc_format; [done|exact Hp|]); unfold headc in *; cbn [head from_option id p_number] in *.
  - change (is_digit 0) with false. cbn match. mstep. by apply HQ.
  - destruct (is_digit c); mstep; [|by apply HQ]. apply IH; [by eapply at_rest_tail|cbn in Hl; lia|done].
Qed.

(** A directive, up to its conversion. *)
Record directive := Directive { d_width : Z; d_precision : Z; d_qualifier : Z; d_flags : Z; d_args : list Z; d_rest : list Z }.

(** What is left of the format, the width, the flags and the arguments. *)
Definition p_width (f : list Z) (flags : Z) (args : list Z) : option (list Z * Z * Z * list Z) :=
  if is_digit (headc f) then Some ((p_number f 0).2, (p_number f 0).1, flags, args)
  else if headc f =? 42 then
    match args with
    | w :: args' => Some (if s32 w <? 0 then (tail f, s32 (- s32 w), Z.lor flags LEFT, args') else (tail f, s32 w, flags, args'))
    | [] => None
    end
  else Some (f, -1, flags, args).

Definition p_precision (f : list Z) (args : list Z) : option (list Z * Z * list Z) :=
  if headc f =? 46 then
    let f := tail f in
    if is_digit (headc f) then Some ((p_number f 0).2, if (p_number f 0).1 <? 0 then 0 else (p_number f 0).1, args)
    else if headc f =? 42 then match args with p :: args' => Some (tail f, if s32 p <? 0 then 0 else s32 p, args') | [] => None end
    else Some (f, 0, args)
  else Some (f, -1, args).

Definition p_qualifier (f : list Z) : list Z * Z :=
  if (headc f =? 104) || (headc f =? 108) || (headc f =? 76) then (tail f, headc f) else (f, -1).

Definition p_directive (f args : list Z) : option directive :=
  let '(flags, f) := p_flags f 0 in
  '(f, width, flags, args) ← p_width f flags args;
  '(f, precision, args) ← p_precision f args;
  let '(f, qualifier) := p_qualifier f in
  Some (Directive width precision qualifier flags args f).

(** The character at the head is there, when it is one that was asked for. *)
Lemma at_rest_step p f : at_rest p f -> headc f <> 0 -> at_rest (p + 1) (tail f).
Proof. destruct f as [|c f]; [done|]. intros Hp _. by eapply at_rest_tail. Qed.

Lemma read_width_spec m p f flags args r (Q : Z * list Z * Z * Z -> mem -> Prop) : outside m -> at_rest p f -> p_width f flags args = Some r ->
  (forall p', at_rest p' r.1.1.1 -> Q (p', r.2, r.1.1.2, r.1.2) m) -> runs (read_width fuel p flags args) m Q.
Proof.
  intros Ho Hp Hr HQ. unfold read_width, p_width in *. mstep. eapply rdc_format; [done|exact Hp|].
  destruct (is_digit (headc f)); [injection Hr as <-; mstep; eapply skip_atoi_spec; [done|exact Hp|]; intros p' Hp'; mstep; by apply HQ|].
  destruct (Z.eqb_spec (headc f) 42) as [E|]; [|injection Hr as <-; mstep; by apply HQ].
  destruct args as [|w args]; [done|]. injection Hr as <-. mstep. unfold va_arg. mstep. assert (Ht : at_rest (p + 1) (tail f)) by (apply at_rest_step; [done|by rewrite E]).
  destruct (s32 w <? 0); mstep; by apply HQ.
Qed.

Lemma read_precision_spec m p f args r (Q : Z * list Z * Z -> mem -> Prop) : outside m -> at_rest p f -> p_precision f args = Some r ->
  (forall p', at_rest p' r.1.1 -> Q (p', r.2, r.1.2) m) -> runs (read_precision fuel p args) m Q.
Proof.
  intros Ho Hp Hr HQ. unfold read_precision, p_precision in *. mstep. eapply rdc_format; [done|exact Hp|].
  destruct (Z.eqb_spec (headc f) 46) as [E|]; [|injection Hr as <-; mstep; by apply HQ]. assert (Ht : at_rest (p + 1) (tail f)) by (apply at_rest_step; [done|by rewrite E]).
  mstep. eapply rdc_format; [done|exact Ht|]. mstep. destruct (is_digit (headc (tail f))).
  - injection Hr as <-. mstep. eapply skip_atoi_spec; [done|exact Ht|]. intros p' Hp'. do 2 mstep. by apply HQ.
  - destruct (Z.eqb_spec (headc (tail f)) 42) as [E2|].
    + destruct args as [|w args]; [done|]. injection Hr as <-. mstep. unfold va_arg. do 3 mstep. apply HQ. apply at_rest_step; [done|by rewrite E2].
    + injection Hr as <-. do 2 mstep. by apply HQ.
Qed.

Lemma read_qualifier_spec m p f (Q : Z * Z -> mem -> Prop) : outside m -> at_rest p f -> (forall p', at_rest p' (p_qualifier f).1 -> Q (p', (p_qualifier f).2) m) -> runs (read_qualifier p) m Q.
Proof.
  intros Ho Hp HQ. unfold read_qualifier, p_qualifier in *. mstep. eapply rdc_format; [done|exact Hp|]. destruct (_ || _) eqn:E; mstep; [|by apply HQ].
  apply HQ. apply at_rest_step; [done|]. intros E0. by rewrite E0 in E.
Qed.

(** ** What a directive prints *)

(** The bytes an address argument points to. *)
Definition bytes_at (x : Z) (n : nat) (b : list Z) : Prop :=
  b = (fun i => m0 (x + i)) <$> seqZ 0 (Z.of_nat n) /\ bytes b /\ clear_of x (Z.of_nat n).

Lemma bytes_same m x n b : outside m -> bytes_at x n b -> (fun i => m (x + i)) <$> seqZ 0 (Z.of_nat n) = b.
Proof. intros Ho (Eb & _ & Hc). rewrite Eb. apply list_fmap_ext. intros i y [-> Hi]%lookup_seqZ. apply Ho. unfold clear_of in Hc. lia. Qed.

(** The text of directive [d] with conversion character [c], and the arguments behind it. *)
Inductive field (c : Z) (d : directive) : list Z -> list Z -> Prop :=
| field_char x args : conversion_of c = ConvChar -> d_args d = x :: args -> field c d (text_field [u8 x] (d_width d) (d_flags d)) args
| field_string x args l : conversion_of c = ConvString -> d_args d = x :: args -> string_at x l -> (length l < fuel)%nat -> Z.of_nat (length l) < 2 ^ 30 ->
    field c d (text_field (string_text l (d_precision d)) (d_width d) (d_flags d)) args
| field_pointer x args : conversion_of c = ConvPointer -> d_args d = x :: args ->
    field c d (if d_width d =? -1 then number_text (s32 x) 16 8 (d_precision d) (Z.lor (d_flags d) ZEROPAD) else number_text (s32 x) 16 (d_width d) (d_precision d) (d_flags d)) args
| field_number base extra x args : conversion_of c = ConvNumber base extra -> d_args d = x :: args ->
    field c d (number_text (s32 x) base (d_width d) (d_precision d) (Z.lor (d_flags d) extra)) args
| field_ethernet large x args b : conversion_of c = ConvAddress large -> d_args d = x :: args -> d_qualifier d = 108 -> bytes_at x 6 b ->
    let flags := if large then Z.lor (d_flags d) LARGE else d_flags d in
    field c d (text_field (eaddr_text (if has flags LARGE then upper_digits else digits) true b) (d_width d) flags) args
| field_ip large x args b : conversion_of c = ConvAddress large -> d_args d = x :: args -> d_qualifier d <> 108 -> bytes_at x 4 b ->
    field c d (text_field (iaddr_text true b) (d_width d) (if large then Z.lor (d_flags d) LARGE else d_flags d)) args
| field_other : conversion_of c = ConvOther -> field c d ((if negb (c =? 37) then [37] else []) ++ (if negb (c =? 0) then [u8 c] else [])) (d_args d).

(** [formats f args out]: the rest [f] of the format prints [out]. *)
Inductive formats : list Z -> list Z -> list Z -> Prop :=
| formats_end args : formats [] args []
| formats_char c f args out : c <> 37 -> formats f args out -> formats (c :: f) args (u8 c :: out)
| formats_directive f args d text args' out : p_directive f args = Some d -> - 1 <= d_width d < 2 ^ 30 -> - 1 <= d_precision d < 2 ^ 30 ->
    field (headc (d_rest d)) d text args' -> formats (tail (d_rest d)) args' out -> formats (37 :: f) args (text ++ out).

Lemma conversion_base c base extra : conversion_of c = ConvNumber base extra -> 2 <= base <= 36.
Proof. unfold conversion_of. repeat match goal with |- context [if ?b then _ else _] => destruct b end; intros [=]; subst; lia. Qed.

Lemma convert_spec m buf p str d text args' (Q : Z * Z * list Z -> mem -> Prop) : outside m -> at_rest p (d_rest d) -> - 1 <= d_width d < 2 ^ 30 -> - 1 <= d_precision d < 2 ^ 30 ->
  field (headc (d_rest d)) d text args' -> lo <= str -> str + Z.of_nat (length text) <= hi ->
  (forall p' m', at_rest (p' + 1) (tail (d_rest d)) -> wrote m str text m' -> Q (p', str + Z.of_nat (length text), args') m') ->
  runs (convert fuel buf p str (d_args d) (d_width d) (d_precision d) (d_qualifier d) (d_flags d)) m Q.
Proof.
  intros Ho Hp Hw Hpr Hf Hlo Hhi HQ. unfold convert. mstep. eapply rdc_format; [done|exact Hp|].
  assert (Hnext : conversion_of (headc (d_rest d)) <> ConvOther -> at_rest (p + 1) (tail (d_rest d))).
  { intros Hne. apply at_rest_step; [done|]. intros E. by rewrite E in Hne. }
  assert (Hfin : forall w args, conversion_of (headc (d_rest d)) <> ConvOther -> writes w m str text -> args = args' -> runs (str ← w; mret (p, str, args)) m Q).
  { intros w args Hne Hwr ->. mstep. eapply runs_mono; [exact Hwr|]. intros str' m' [-> H']. mstep. by apply HQ; [apply Hnext|]. }
  assert (Hs32 : forall x, - 2 ^ 31 <= s32 x < 2 ^ 31) by (intros x; apply (swrap_range 32); lia).
  destruct Hf as [x args Ec Ea|x args l Ec Ea Hs Hl1 Hl2|x args Ec Ea|base extra x args Ec Ea|large x args b Ec Ea Eq (Eb & Hb & Hcl)|large x args b Ec Ea Eq (Eb & Hb & Hcl)|Ec]; rewrite Ec; try rewrite Ea; unfold va_arg.
  - mstep. mstep. apply Hfin; [by rewrite Ec|by apply put_char_writes|done].
  - mstep. mstep. apply Hfin; [by rewrite Ec|by apply put_string_writes|done].
  - destruct (d_width d =? -1); mstep; mstep; (apply Hfin; [by rewrite Ec|apply number_writes; [lia|done|lia|done]|done]).
  - mstep. mstep. apply Hfin; [by rewrite Ec|apply number_writes; [by eapply conversion_base|done|done|done]|done].
  - do 2 mstep. rewrite Eq. cbn [Z.eqb Pos.eqb]. apply Hfin; [by rewrite Ec| |done]. unfold eaddr, writes. mstep. apply rd_bytes_spec.
    rewrite (bytes_same m x 6 b Ho (conj Eb (conj Hb Hcl))).
    destruct (eaddr_bytes (has (if large then Z.lor (d_flags d) LARGE else d_flags d) LARGE) b Hb true) as [H1 H2]. apply put_text_writes; [done|done|].
    assert (length b = 6%nat) by (rewrite Eb, length_fmap, length_seqZ; done). eapply Z.le_lt_trans; [exact (inj_le _ _ H2)|lia].
  - do 2 mstep. rewrite (proj2 (Z.eqb_neq _ _)) by done. apply Hfin; [by rewrite Ec| |done]. unfold iaddr, writes. mstep. apply rd_bytes_spec.
    rewrite (bytes_same m x 4 b Ho (conj Eb (conj Hb Hcl))).
    destruct (iaddr_bytes b Hb true) as [H1 H2]. apply put_text_writes; [done|done|]. assert (length b = 4%nat) by (rewrite Eb, length_fmap, length_seqZ; done). lia.
  - clear Hfin. set (c := headc (d_rest d)) in *. assert (Hw1 : writes (if negb (c =? 37) then wr str 37;; mret (str + 1) else mret str) m str (if negb (c =? 37) then [37] else [])) by (apply writes_if, writes_char; lia).
    mstep. eapply runs_mono; [exact Hw1|]. intros str1 m1 [-> H1]. rewrite length_app in HQ. destruct (Z.eqb_spec c 0) as [E0|Hn0]; cbn [negb] in *.
    + mstep. rewrite app_nil_r, Nat.add_0_r in HQ. apply HQ; [|done]. rewrite Z.sub_add. destruct (d_rest d) as [|y r] eqn:Er; [done|]. exfalso. apply (at_rest_nonzero p y r); [done|]. exact E0.
    + unfold wr. do 3 mstep. replace (str + _ + 1) with (str + Z.of_nat (length (if negb (c =? 37) then [37] else []) + 1)) by lia. apply HQ; [by apply at_rest_step|].
      eapply wrote_app; [exact H1|]. apply wrote_one.
Qed.

Lemma p_flags_length f : forall flags, (length (p_flags f flags).2 <= length f)%nat.
Proof. induction f as [|c f IH]; intros flags; cbn [p_flags]; [done|]. destruct (flag_of c); [|done]. specialize (IH (Z.lor flags z)). cbn. lia. Qed.
Lemma p_number_length f : forall i, (length (p_number f i).2 <= length f)%nat.
Proof. induction f as [|c f IH]; intros i; cbn [p_number]; [done|]. destruct (is_digit c); [|done]. specialize (IH (s32 (s32 (s32 (i * 10) + c) - 48))). cbn. lia. Qed.
Lemma tail_length (f : list Z) : (length (tail f) <= length f)%nat.
Proof. destruct f; cbn; lia. Qed.

Lemma p_directive_inv f args d : p_directive f args = Some d -> exists f1 w fl2 a2 f2 a3,
  p_width (p_flags f 0).2 (p_flags f 0).1 args = Some (f1, w, fl2, a2) /\ p_precision f1 a2 = Some (f2, d_precision d, a3) /\
  d = Directive w (d_precision d) (p_qualifier f2).2 fl2 a3 (p_qualifier f2).1 /\ (length (d_rest d) <= length f)%nat.
Proof.
  unfold p_directive. pose proof (p_flags_length f 0) as L0. destruct (p_flags f 0) as [fl f0]. cbn [fst snd] in *. intros H.
  destruct (p_width f0 fl args) as [[[[f1 w] fl2] a2]|] eqn:E1; [|done]. cbn [mbind option_bind] in H. destruct (p_precision f1 a2) as [[[f2 pr] a3]|] eqn:E2; [|done]. cbn [mbind option_bind] in H.
  destruct (p_qualifier f2) as [f3 q] eqn:E3. injection H as <-. exists f1, w, fl2, a2, f2, a3. cbn. rewrite E3. cbn. split_and!; try done.
  assert (L1 : (length f1 <= length f0)%nat).
  { unfold p_width in E1. pose proof (p_number_length f0 0). pose proof (tail_length f0). destruct (is_digit _); [injection E1 as <- _ _ _; lia|]. destruct (_ =? _); [|injection E1 as <- _ _ _; lia].
    destruct args as [|x args']; [done|]. destruct (_ <? _); injection E1 as <- _ _ _; lia. }
  assert (L2 : (length f2 <= length f1)%nat).
  { unfold p_precision in E2. pose proof (p_number_length (tail f1) 0). pose proof (tail_length f1). pose proof (tail_length (tail f1)). destruct (_ =? _); [|injection E2 as <- _ _; lia]. destruct (is_digit _); [injection E2 as <- _ _; lia|].
    destruct (_ =? _); [|injection E2 as <- _ _; lia]. destruct a2 as [|x a2']; [done|]. injection E2 as <- _ _. lia. }
  assert (L3 : (length f3 <= length f2)%nat) by (unfold p_qualifier in E3; pose proof (tail_length f2); destruct (_ || _); injection E3 as <- _; lia). lia.
Qed.

Lemma vsprintf_loop buf f args out : formats f args out -> forall m p str n, outside m -> at_rest p f -> (length f < n)%nat -> lo <= str -> str + Z.of_nat (length out) + 1 <= hi ->
  0 <= str - buf -> str + Z.of_nat (length out) - buf < 2 ^ 31 ->
  runs (iterM n (vsprintf_round fuel buf) (p, str, args)) m (fun r m' => r = str + Z.of_nat (length out) - buf /\ wrote m str (out ++ [0]) m').
Proof.
  induction 1 as [args|c f args out Hc Hf IH|f args d text args' out Hd Hw Hp Hfield Hf IH]; intros m p str [|n] Ho Hpos Hn Hlo Hhi Hb1 Hb2; try (cbn in Hn; lia); apply runs_iterM_S; unfold vsprintf_round at 1; mstep; (eapply rdc_format; [exact Ho|exact Hpos|]).
  - change (headc []) with 0. cbn [Z.eqb]. unfold wr. do 3 mstep. cbn in *. rewrite (swrap_small 32) by lia. split; [lia|]. apply wrote_one.
  - change (headc (c :: f)) with c. rewrite (proj2 (Z.eqb_neq c 0)), (proj2 (Z.eqb_neq c 37)) by (done || by eapply at_rest_nonzero). cbn [negb]. unfold wr. do 3 mstep. cbn [length] in *.
    assert (H1 : wrote m str [u8 c] (<[str := u8 c]> m)) by apply wrote_one.
    eapply runs_mono; [apply (IH _ (p + 1) (str + 1) n); [refine (outside_wrote m str _ _ Ho Hlo _ H1); cbn; lia|by eapply at_rest_tail|lia|lia|lia|lia|lia]|]. intros r m' [-> H']. split; [lia|].
    by apply (wrote_app _ _ [u8 c] _ _ _ H1).
  - change (headc (37 :: f)) with 37. cbn [Z.eqb Pos.eqb negb]. rewrite length_app in *. destruct (p_directive_inv _ _ _ Hd) as (f1 & w & fl2 & a2 & f2 & a3 & E1 & E2 & E3 & Hlen). cbn [length] in Hn.
    mstep. eapply read_flags_spec; [exact Ho|by eapply at_rest_tail|]. intros p1 Hp1. mstep. eapply read_width_spec; [exact Ho|exact Hp1|exact E1|]. intros p2 Hp2. cbn [fst snd] in *.
    mstep. eapply read_precision_spec; [exact Ho|exact Hp2|exact E2|]. intros p3 Hp3. cbn [fst snd] in *. mstep. eapply read_qualifier_spec; [exact Ho|exact Hp3|]. intros p4 Hp4. mstep.
    assert (Ew : w = d_width d) by (by rewrite E3). assert (Ef : fl2 = d_flags d) by (by rewrite E3). assert (Ea : a3 = d_args d) by (by rewrite E3). assert (Eq : (p_qualifier f2).2 = d_qualifier d) by (by rewrite E3).
    assert (Er : (p_qualifier f2).1 = d_rest d) by (by rewrite E3). rewrite Er in Hp4. rewrite Ew, Ef, Ea, Eq.
    eapply convert_spec; [exact Ho|exact Hp4|exact Hw|exact Hp|exact Hfield|exact Hlo|lia|]. intros p5 m1 Hp5 H1. mstep.
    eapply runs_mono; [apply (IH m1 (p5 + 1) (str + Z.of_nat (length text)) n); [refine (outside_wrote m str _ _ Ho Hlo _ H1); lia|exact Hp5|pose proof (tail_length (d_rest d)); lia|lia|lia|lia|lia]|].
    intros r m' [-> H']. split; [lia|]. rewrite <- app_assoc. by eapply wrote_app.
Qed.
End Format.

(** ** Theorems *)

(** C16: formatting.  For every format built of ordinary characters and directives (flags, width, precision, qualifier, each
    also from the arguments; [%c], [%s], [%p], [%a], [%d], [%i], [%u], [%o], [%x], [%X], [%%] and unknown ones) [vsprintf] writes
    exactly the text the format's account gives, and the terminator behind it, changes no other byte, and returns the
    text's length. *)
Theorem vsprintf_correct fuel buf fmt F args out m : let hi := buf + Z.of_nat (length out) + 1 in
  ctext m fmt F /\ clear_of buf hi fmt (Z.of_nat (length F) + 1) -> (length F < fuel)%nat -> formats buf hi m fuel F args out -> Z.of_nat (length out) < 2 ^ 31 ->
  runs (vsprintf fuel buf fmt args) m (fun r m' => r = Z.of_nat (length out) /\ wrote m buf (out ++ [0]) m').
Proof.
  intros hi Hfmt Hfuel Hf Hlen. unfold vsprintf. eapply runs_mono; [eapply (vsprintf_loop buf hi m fuel F fmt Hfmt Hfuel buf); [exact Hf|done|by exists []; split; [|cbn; lia]|lia|lia|unfold hi; lia|lia|lia]|].
  intros r m' [-> H]. split; [lia|done].
Qed.

(** A text that was written, as a string. *)
Lemma wrote_cstr m p l m' : wrote m p (l ++ [0]) m' -> Forall (fun c => 0 < c < 256) l -> cstr m' p l.
Proof.
  intros [H _]. revert p H. induction l as [|c l IH]; intros p H Hl; cbn.
  - rewrite <- (Z.add_0_r p). by apply (H 0%nat).
  - apply Forall_cons in Hl as [Hc Hl]. split; [rewrite <- (Z.add_0_r p) at 1; by apply (H 0%nat)|]. split; [done|]. apply IH; [|done].
    intros i x Hi. replace (p + 1 + Z.of_nat i) with (p + Z.of_nat (S i)) by lia. by apply H.
Qed.

(** What [%d] prints. *)
Lemma number_text_d n : number_text n 10 (-1) (-1) SIGN = (if n <? 0 then [45] else []) ++ (charset <$> numeral 10 (if n <? 0 then - n else u32 n)).
Proof.
  unfold number_text, sign_text. change (has SIGN SIGN) with true. change (has SIGN PLUS) with false. change (has SIGN SPACE) with false. change (has SIGN LARGE) with false.
  change (has SIGN SPECIAL) with false. change (has SIGN LEFT) with false. change (has SIGN ZEROPAD) with false. change (Z.to_nat (-1)) with 0%nat. cbn [andb]. rewrite !Nat.sub_0_l. cbn [replicate app]. reflexivity.
Qed.

(** [sprintf] of a number with [%d], read back by [atoi], gives the number, for every [int] but INT_MIN. *)
Theorem sprintf_atoi_roundtrip fuel buf fmt n m : - 2 ^ 31 < n < 2 ^ 31 -> ctext m fmt [37; 100] -> fmt + 3 <= buf \/ buf + 40 <= fmt -> (40 <= fuel)%nat ->
  runs (_ ← sprintf fuel buf fmt [u32 n]; atoi fuel buf) m (fun r _ => r = n).
Proof.
  intros Hn Hfmt Hcl Hfuel. set (v := if n <? 0 then - n else u32 n). assert (Hv : v = Z.abs n) by (unfold v; destruct (Z.ltb_spec n 0); [lia|rewrite uwrap_small; lia]).
  destruct (numeral_spec 10 v) as (Hh & Hd & Hl); [lia|lia|]. set (out := (if n <? 0 then [45] else []) ++ (charset <$> numeral 10 v)).
  assert (Hout : (length out <= 33)%nat) by (unfold out; rewrite length_app, length_fmap; destruct (n <? 0); cbn [length]; lia).
  mstep. unfold sprintf, vsprintf. set (hi := buf + Z.of_nat (length out) + 1).
  assert (Hclear : clear_of buf hi fmt (Z.of_nat (length [37; 100]) + 1)) by (unfold clear_of, hi; cbn; lia).
  eapply runs_mono; [eapply (vsprintf_loop buf hi m fuel [37; 100] fmt (conj Hfmt Hclear) ltac:(cbn; lia) buf _ _ out);
    [|done|by exists []; split; [|cbn; lia]|cbn; lia|lia|unfold hi; lia|lia|lia]|].
  - rewrite <- (app_nil_r out). eapply (formats_directive _ _ _ _ [100] [u32 n] (Directive (-1) (-1) (-1) 0 [u32 n] [100]) out []); [reflexivity|cbn; lia|cbn; lia| |constructor].
    assert (E : out = number_text (s32 (u32 n)) 10 (-1) (-1) (Z.lor 0 SIGN)) by (rewrite (swrap_uwrap 32), (swrap_small 32) by lia; symmetry; apply number_text_d).
    rewrite E. apply (field_number _ _ _ _ 100 (Directive (-1) (-1) (-1) 0 [u32 n] [100]) 10 SIGN (u32 n) []); reflexivity.
  - intros r m' [_ Hw]. eapply runs_mono; [apply (atoi_spec m' buf n (numeral 10 v)); [done| |lia|done|lia]|by intros r' m'' [-> _]].
    apply (wrote_cstr _ _ _ _ Hw). apply Forall_app. split; [destruct (n <? 0); repeat constructor; lia|]. eapply Forall_impl; [by eapply (Forall_charset 10)|]. cbn. lia.
Qed.

(** ** Examples *)

(** [l] and a terminator at [p]. *)
Definition with_text (p : Z) (l : list Z) (m : mem) : mem := fun a => if decide (p <= a < p + Z.of_nat (length l)) then nth (Z.to_nat (a - p)) l 0 else if decide (a = p + Z.of_nat (length l)) then 0 else m a.

(** "%s=%04x!" with "hi" and 255: "hi=00ff!" *)
Definition example_mem : mem := with_text 1000 [37; 115; 61; 37; 48; 52; 120; 33] (with_text 2000 [104; 105] (fun _ => 7)).

Lemma vsprintf_correct_witness : exists m', vsprintf 20 100 1000 [2000; 255] example_mem = Done (8, m') /\ m' 100 = 104 /\ m' 108 = 0 /\ m' 109 = 7.
Proof.
  pose (out := [104; 105; 61; 48; 48; 102; 102; 33]).
  assert (Hs : string_at 100 109 example_mem 2000 [104; 105]) by (split; [repeat split; done|right; lia]).
  assert (H := vsprintf_correct 20 100 1000 [37; 115; 61; 37; 48; 52; 120; 33] [2000; 255] out example_mem).
  assert (Hf : formats 100 109 example_mem 20 [37; 115; 61; 37; 48; 52; 120; 33] [2000; 255] out).
  { apply (formats_directive _ _ _ _ _ _ (Directive (-1) (-1) (-1) 0 [2000; 255] [115; 61; 37; 48; 52; 120; 33]) [104; 105] [255] [61; 48; 48; 102; 102; 33]); [reflexivity|cbn; lia|cbn; lia| |].
    - apply (field_string _ _ _ _ 115 (Directive (-1) (-1) (-1) 0 [2000; 255] [115; 61; 37; 48; 52; 120; 33]) 2000 [255] [104; 105]); [reflexivity|reflexivity|exact Hs|cbn; lia|cbn; lia].
    - apply formats_char; [done|].
      apply (formats_directive _ _ _ _ _ _ (Directive 4 (-1) (-1) ZEROPAD [255] [120; 33]) [48; 48; 102; 102] [] [33]); [reflexivity|cbn; lia|cbn; lia| |apply formats_char; [done|constructor]].
      apply (field_number _ _ _ _ 120 (Directive 4 (-1) (-1) ZEROPAD [255] [120; 33]) 16 0 255 []); reflexivity. }
  assert (Hc : ctext example_mem 1000 [37; 115; 61; 37; 48; 52; 120; 33] /\ clear_of 100 109 1000 9) by (split; [repeat split; done|right; lia]).
  specialize (H Hc ltac:(cbn; lia) Hf ltac:(cbn; lia)). destruct (proj1 (runs_Done _ _ _) H) as (r & m' & E & -> & Hw & Ho). exists m'. split; [exact E|].
  split; [exact (Hw 0%nat 104 eq_refl)|]. split; [exact (Hw 8%nat 0 eq_refl)|]. rewrite Ho by (cbn; lia). reflexivity.
Defined.

Lemma sprintf_atoi_roundtrip_witness : runs (_ ← sprintf 40 100 1000 [u32 (-1205)]; atoi 40 100) (with_text 1000 [37; 100] (fun _ => 0)) (fun r _ => r = -1205).
Proof. apply (sprintf_atoi_roundtrip 40 100 1000 (-1205)); [lia|repeat split; done|lia|lia]. Defined.
