(* ===== verification/RingBuff.v ===== *)
(** * RingBuff: kernel/inc/common/ringbuff.h

    A ring of blocks of [typesize] bytes between the addresses [start] and [end_];
    one block is always left free so that [front == back] means empty. *)

From S2P Require Import Prelude Words CString.

Record ringbuff_head := RingHead {
  start : Z;
  end_ : Z;
  front : Z;
  back : Z;
}.

Record rstate := RState { rb : ringbuff_head; rmem : mem }.

Definition set_front (v : Z) (r : ringbuff_head) : ringbuff_head :=
  RingHead (start r) (end_ r) v (back r).
Definition set_back (v : Z) (r : ringbuff_head) : ringbuff_head :=
  RingHead (start r) (end_ r) (front r) v.

Definition with_mem {A} (m : M mem A) : M rstate A :=
  lift rmem (fun t s => RState (rb s) t) m.
Definition upd_rb (f : ringbuff_head -> ringbuff_head) : M rstate unit :=
  modify (fun s => RState (f (rb s)) (rmem s)).

(** [buff] is the address [kmalloc((len + 1) * typesize)] returned. *)
Definition _do_ringbuff_init (buff len typesize : Z) : M rstate unit :=
  upd_rb (fun _ => RingHead buff (u32 (buff + (len + 1) * typesize)) buff buff).

Definition _ringbuff_chunksize_read (r : ringbuff_head) : Z :=
  if front r <=? back r then u32 (back r - front r) else u32 (end_ r - front r).

Definition _ringbuff_chunksize_write (r : ringbuff_head) (typesize : Z) : Z :=
  if front r <=? back r then
    u32 (u32 (end_ r - back r) - (if front r =? start r then typesize else 0))
  else u32 (u32 (front r - back r) - typesize).

Definition _ringbuff_advance_front (amt : Z) : M rstate unit :=
  upd_rb (fun r => set_front (u32 (front r + amt)) r);;
  s ← get;
  (if front (rb s) =? end_ (rb s) then upd_rb (fun r => set_front (start r) r) else mret tt);;
  s ← get;
  BUG_ON (front (rb s) >=? end_ (rb s)).

Definition _ringbuff_advance_back (amt : Z) : M rstate unit :=
  upd_rb (fun r => set_back (u32 (back r + amt)) r);;
  s ← get;
  (if back (rb s) =? end_ (rb s) then upd_rb (fun r => set_back (start r) r) else mret tt);;
  s ← get;
  BUG_ON (back (rb s) >=? end_ (rb s)).

Definition _ringbuff_is_empty (r : ringbuff_head) (typesize : Z) : bool := front r =? back r.

Definition _ringbuff_is_full (r : ringbuff_head) (typesize : Z) : bool :=
  front r =? u32 (back r + typesize).

Definition _ringbuff_space_used (typesize : Z) : M rstate Z :=
  s ← get;
  let r := rb s in
  let bytes_left :=
    if front r <=? back r then u32 (back r - front r)
    else u32 (u32 (end_ r - front r) + u32 (back r - start r)) in
  BUG_ON (negb (bytes_left mod typesize =? 0));;
  mret (bytes_left / typesize).

Definition _ringbuff_space_left (typesize : Z) : M rstate Z :=
  s ← get;
  let r := rb s in
  let bytes_left :=
    if back r <? front r then u32 (front r - back r)
    else u32 (u32 (end_ r - back r) + u32 (front r - start r)) in
  BUG_ON (negb (bytes_left mod typesize =? 0));;
  mret (u32 (bytes_left / typesize - 1)).

Definition _do_ringbuff_read_chunk (buff len : Z) : M rstate Z :=
  s ← get;
  let chunk_len := _ringbuff_chunksize_read (rb s) in
  let amt := MIN len chunk_len in
  with_mem (memcpy buff (front (rb s)) (Z.to_nat amt));;
  _ringbuff_advance_front amt;;
  mret amt.

Definition _do_ringbuff_read (buff len typesize : Z) : M rstate Z :=
  amt ← _do_ringbuff_read_chunk buff len;
  s ← get;
  if (len >? amt) && negb (_ringbuff_is_empty (rb s) typesize) then
    amt2 ← _do_ringbuff_read_chunk (buff + amt) (u32 (len - amt));
    mret (u32 (amt + amt2))
  else mret amt.

Definition _do_ringbuff_write_chunk (buff len typesize : Z) : M rstate Z :=
  s ← get;
  let chunk_len := _ringbuff_chunksize_write (rb s) typesize in
  let amt := MIN len chunk_len in
  with_mem (memcpy (back (rb s)) buff (Z.to_nat amt));;
  _ringbuff_advance_back amt;;
  mret amt.

Definition _do_ringbuff_write (buff len typesize : Z) : M rstate Z :=
  amt ← _do_ringbuff_write_chunk buff len typesize;
  s ← get;
  if (len >? amt) && negb (_ringbuff_is_full (rb s) typesize) then
    amt2 ← _do_ringbuff_write_chunk (buff + amt) (u32 (len - amt)) typesize;
    mret (u32 (amt + amt2))
  else mret amt.

(** ** Well-formed rings and what they hold *)

(** [n] blocks of [ts] bytes; the two cursors are at block boundaries and never at
    the end. *)
Definition ring_wf (r : ringbuff_head) (ts n : Z) : Prop :=
  0 < ts /\ 0 < n /\ 0 <= start r /\ end_ r = start r + ts * n /\ end_ r < 2 ^ 32 /\
  (exists f, 0 <= f < n /\ front r = start r + ts * f) /\
  (exists b, 0 <= b < n /\ back r = start r + ts * b).

Definition used (r : ringbuff_head) : Z := (back r - front r) mod (end_ r - start r).
Definition free (r : ringbuff_head) (ts : Z) : Z := end_ r - start r - ts - used r.

(** [n] bytes of the ring from offset [f], going round at the end. *)
Definition ring_bytes (m : mem) (s L f n : Z) : list Z :=
  (fun i => m (s + (f + i) mod L)) <$> seqZ 0 n.

Definition contents (s : rstate) : list Z :=
  ring_bytes (rmem s) (start (rb s)) (end_ (rb s) - start (rb s))
    (front (rb s) - start (rb s)) (used (rb s)).

Lemma used_cases r ts n : ring_wf r ts n ->
  used r = if front r <=? back r then back r - front r
           else end_ r - start r - (front r - back r).
Proof.
  intros (Hts & Hn & Hs & He & H32 & (f & Hf & Hfr) & (b & Hb & Hbk)). unfold used.
  destruct (Z.leb_spec (front r) (back r)).
  - apply Z.mod_small. nia.
  - symmetry. apply (Z.mod_unique _ _ (-1)); [|lia]. left. nia.
Qed.

(** The used bytes are whole blocks, and at least one block is free. *)
Lemma used_blocks r ts n : ring_wf r ts n -> exists u, 0 <= u < n /\ used r = ts * u.
Proof.
  intros Hwf. rewrite (used_cases _ _ _ Hwf).
  destruct Hwf as (Hts & Hn & Hs & He & H32 & (f & Hf & Hfr) & (b & Hb & Hbk)).
  destruct (Z.leb_spec (front r) (back r)).
  - exists (b - f). split; [nia|]. nia.
  - exists (n - (f - b)). split; [nia|]. nia.
Qed.

Lemma used_bounds r ts n : ring_wf r ts n ->
  0 <= used r <= end_ r - start r - ts /\ 0 <= free r ts.
Proof.
  intros Hwf. destruct (used_blocks _ _ _ Hwf) as (u & Hu & Hus). unfold free.
  destruct Hwf as (Hts & Hn & Hs & He & _). nia.
Qed.

Lemma cursors_inside r ts n : ring_wf r ts n -> start r <= front r < end_ r /\ start r <= back r < end_ r.
Proof. intros (Hts & Hn & Hs & He & H32 & (f & Hf & Hfr) & (b & Hb & Hbk)). nia. Qed.

(** The two chunk sizes: as much as is there, up to the end of the array. *)
Lemma chunksize_read_min r ts n : ring_wf r ts n ->
  _ringbuff_chunksize_read r = Z.min (used r) (end_ r - front r).
Proof.
  intros Hwf. rewrite (used_cases _ _ _ Hwf). unfold _ringbuff_chunksize_read.
  destruct Hwf as (Hts & Hn & Hs & He & H32 & (f & Hf & Hfr) & (b & Hb & Hbk)).
  destruct (Z.leb_spec (front r) (back r)); rewrite uwrap_small; nia.
Qed.

Lemma chunksize_write_min r ts n : ring_wf r ts n ->
  _ringbuff_chunksize_write r ts = Z.min (free r ts) (end_ r - back r).
Proof.
  intros Hwf. unfold free. rewrite (used_cases _ _ _ Hwf). unfold _ringbuff_chunksize_write.
  destruct Hwf as (Hts & Hn & Hs & He & H32 & (f & Hf & Hfr) & (b & Hb & Hbk)).
  destruct (Z.leb_spec (front r) (back r)).
  - assert (ts * b + ts <= ts * n) by nia.
    destruct (Z.eqb_spec (front r) (start r)) as [E|E].
    + rewrite (uwrap_small 32 (end_ r - back r)) by nia. rewrite uwrap_small by nia. nia.
    + assert (ts <= ts * f) by (assert (f <> 0) by nia; nia).
      rewrite (uwrap_small 32 (end_ r - back r)) by nia. rewrite uwrap_small by nia. nia.
  - assert (ts * b + ts <= ts * f) by (assert (b < f) by nia; nia).
    rewrite (uwrap_small 32 (front r - back r)) by nia. rewrite uwrap_small by nia. nia.
Qed.

(** *** Bytes going round *)

Lemma length_ring_bytes m s L f n : 0 <= n -> Z.of_nat (length (ring_bytes m s L f n)) = n.
Proof. intros. unfold ring_bytes. rewrite length_fmap, length_seqZ. lia. Qed.

Lemma ring_bytes_app m s L f n1 n2 : 0 < L -> 0 <= n1 -> 0 <= n2 ->
  ring_bytes m s L f (n1 + n2) = ring_bytes m s L f n1 ++ ring_bytes m s L ((f + n1) mod L) n2.
Proof.
  intros HL H1 H2. unfold ring_bytes. rewrite seqZ_app by lia. rewrite fmap_app. f_equal.
  rewrite Z.add_0_l.
  replace (seqZ n1 n2) with (Z.add n1 <$> seqZ 0 n2) by by rewrite fmap_add_seqZ, Z.add_0_r.
  rewrite <- list_fmap_compose. apply list_fmap_ext. intros i x _. simpl.
  rewrite Zplus_mod_idemp_l. do 2 f_equal. f_equal. lia.
Qed.

Lemma ring_bytes_block m s L f n : 0 <= f -> 0 <= n -> f + n <= L ->
  ring_bytes m s L f n = block m (s + f) (Z.to_nat n).
Proof.
  intros Hf Hn HL. unfold ring_bytes, block. rewrite Z2Nat.id by lia.
  apply list_fmap_ext. intros i x Hx. apply lookup_seqZ in Hx as [-> Hx].
  rewrite Z.mod_small by lia. f_equal. lia.
Qed.

Lemma ring_bytes_ext m m' s L f n :
  0 < L -> (forall i, 0 <= i < n -> m' (s + (f + i) mod L) = m (s + (f + i) mod L)) ->
  ring_bytes m' s L f n = ring_bytes m s L f n.
Proof.
  intros HL He. unfold ring_bytes. apply list_fmap_ext. intros i x Hx.
  apply lookup_seqZ in Hx as [-> Hx]. apply He. lia.
Qed.

Lemma block_ext m m' p q n :
  (forall i, 0 <= i < Z.of_nat n -> m' (p + i) = m (q + i)) -> block m' p n = block m q n.
Proof.
  intros He. unfold block. apply list_fmap_ext. intros i x Hx.
  apply lookup_seqZ in Hx as [-> Hx]. apply He. lia.
Qed.

Lemma block_app m p n1 n2 : block m p (n1 + n2) = block m p n1 ++ block m (p + Z.of_nat n1) n2.
Proof.
  revert p. induction n1 as [|n1 IH]; intros p; [by rewrite Z.add_0_r|].
  cbn [Nat.add]. rewrite !block_S, IH. simpl. do 2 f_equal. f_equal. lia.
Qed.

(** *** Moving a cursor *)

Lemma wrap_offset L x : 0 <= x <= L -> 0 < L -> (if x =? L then 0 else x) = x mod L.
Proof.
  intros Hx HL. destruct (Z.eqb_spec x L) as [->|]; [by rewrite Z.mod_same by lia|].
  rewrite Z.mod_small; lia.
Qed.

Lemma advance_front_spec r m ts n k :
  ring_wf r ts n -> 0 <= k -> front r + ts * k <= end_ r ->
  runs (_ringbuff_advance_front (ts * k)) (RState r m) (fun _ s' =>
    s' = RState (set_front (start r + (front r - start r + ts * k) mod (end_ r - start r)) r) m).
Proof.
  intros (Hts & Hn & Hs & He & H32 & (f & Hf & Hfr) & _) Hk Hle.
  unfold _ringbuff_advance_front, upd_rb. do 4 mstep. cbn [rb rmem front end_ start set_front].
  rewrite <- wrap_offset by nia. rewrite uwrap_small by nia.
  replace (front r - start r + ts * k =? end_ r - start r) with (front r + ts * k =? end_ r)
    by (destruct (Z.eqb_spec (front r + ts * k) (end_ r)),
          (Z.eqb_spec (front r - start r + ts * k) (end_ r - start r)); lia).
  destruct (Z.eqb_spec (front r + ts * k) (end_ r)); msteps; cbn [rb rmem front end_ start set_front].
  - destruct (Z.geb_spec (start r) (end_ r)); [nia|done].
  - f_equal. unfold set_front. simpl. f_equal. lia.
  - destruct (Z.geb_spec (front r + ts * k) (end_ r)); [lia|done].
  - f_equal. unfold set_front. f_equal. lia.
Qed.

Lemma advance_back_spec r m ts n k :
  ring_wf r ts n -> 0 <= k -> back r + ts * k <= end_ r ->
  runs (_ringbuff_advance_back (ts * k)) (RState r m) (fun _ s' =>
    s' = RState (set_back (start r + (back r - start r + ts * k) mod (end_ r - start r)) r) m).
Proof.
  intros (Hts & Hn & Hs & He & H32 & _ & (b & Hb & Hbk)) Hk Hle.
  unfold _ringbuff_advance_back, upd_rb. do 4 mstep. cbn [rb rmem back end_ start set_back].
  rewrite <- wrap_offset by nia. rewrite uwrap_small by nia.
  replace (back r - start r + ts * k =? end_ r - start r) with (back r + ts * k =? end_ r)
    by (destruct (Z.eqb_spec (back r + ts * k) (end_ r)),
          (Z.eqb_spec (back r - start r + ts * k) (end_ r - start r)); lia).
  destruct (Z.eqb_spec (back r + ts * k) (end_ r)); msteps; cbn [rb rmem back end_ start set_back].
  - destruct (Z.geb_spec (start r) (end_ r)); [nia|done].
  - f_equal. unfold set_back. simpl. f_equal. lia.
  - destruct (Z.geb_spec (back r + ts * k) (end_ r)); [lia|done].
  - f_equal. unfold set_back. f_equal. lia.
Qed.

Lemma mod_blocks ts n x : 0 < ts -> 0 < n -> (ts * x) mod (ts * n) = ts * (x mod n).
Proof. intros. rewrite Z.mul_mod_distr_l; lia. Qed.

Lemma wf_advance_back r ts n k :
  ring_wf r ts n -> 0 <= k ->
  ring_wf (set_back (start r + (back r - start r + ts * k) mod (end_ r - start r)) r) ts n.
Proof.
  intros (Hts & Hn & Hs & He & H32 & Hf & (b & Hb & Hbk)) Hk. repeat split; simpl; try lia; [done|].
  exists ((b + k) mod n). split; [apply Z.mod_pos_bound; lia|].
  replace (back r - start r + ts * k) with (ts * (b + k)) by lia.
  replace (end_ r - start r) with (ts * n) by lia. by rewrite mod_blocks.
Qed.

Lemma wf_advance_front r ts n k :
  ring_wf r ts n -> 0 <= k ->
  ring_wf (set_front (start r + (front r - start r + ts * k) mod (end_ r - start r)) r) ts n.
Proof.
  intros (Hts & Hn & Hs & He & H32 & (f & Hf & Hfr) & Hb) Hk. repeat split; simpl; try lia; [|done].
  exists ((f + k) mod n). split; [apply Z.mod_pos_bound; lia|].
  replace (front r - start r + ts * k) with (ts * (f + k)) by lia.
  replace (end_ r - start r) with (ts * n) by lia. by rewrite mod_blocks.
Qed.

(** The back cursor is the front cursor advanced by the used bytes. *)
Lemma back_of_front r ts n : ring_wf r ts n ->
  back r - start r = (front r - start r + used r) mod (end_ r - start r).
Proof.
  intros (Hts & Hn & Hs & He & H32 & (f & Hf & Hfr) & (b & Hb & Hbk)). unfold used.
  rewrite Zplus_mod_idemp_r. replace (front r - start r + (back r - front r)) with (back r - start r) by lia.
  rewrite Z.mod_small; nia.
Qed.

Lemma used_advance_back r ts n k :
  ring_wf r ts n -> 0 <= k -> ts * k <= free r ts ->
  used (set_back (start r + (back r - start r + ts * k) mod (end_ r - start r)) r) = used r + ts * k.
Proof.
  intros Hwf Hk Hle. pose proof (used_bounds _ _ _ Hwf) as [Hu _]. unfold free in Hle.
  destruct Hwf as (Hts & Hn & Hs & He & H32 & (f & Hf & Hfr) & (b & Hb & Hbk)).
  unfold used at 1. simpl.
  replace (start r + (back r - start r + ts * k) mod (end_ r - start r) - front r)
    with ((back r - start r + ts * k) mod (end_ r - start r) - (front r - start r)) by lia.
  rewrite Zminus_mod_idemp_l.
  replace (back r - start r + ts * k - (front r - start r)) with (back r - front r + ts * k) by lia.
  rewrite <- Zplus_mod_idemp_l. fold (used r). rewrite Z.mod_small; nia.
Qed.

Lemma used_advance_front r ts n k :
  ring_wf r ts n -> 0 <= k -> ts * k <= used r ->
  used (set_front (start r + (front r - start r + ts * k) mod (end_ r - start r)) r) = used r - ts * k.
Proof.
  intros Hwf Hk Hle. pose proof (used_bounds _ _ _ Hwf) as [Hu _].
  destruct Hwf as (Hts & Hn & Hs & He & H32 & (f & Hf & Hfr) & (b & Hb & Hbk)).
  unfold used at 1. simpl.
  replace (back r - (start r + (front r - start r + ts * k) mod (end_ r - start r)))
    with ((back r - start r) - (front r - start r + ts * k) mod (end_ r - start r)) by lia.
  rewrite Zminus_mod_idemp_r.
  replace (back r - start r - (front r - start r + ts * k)) with (back r - front r - ts * k) by lia.
  rewrite <- Zminus_mod_idemp_l. fold (used r). rewrite Z.mod_small; nia.
Qed.

(** *** One contiguous piece *)

(** Where a caller's buffer must be: outside the ring's own storage. *)
Definition outside (r : ringbuff_head) (buff len : Z) : Prop :=
  buff + len <= start r \/ end_ r <= buff.

Lemma ring_fresh L f u i j :
  0 < L -> 0 <= i < u -> 0 <= j -> u + j < L -> (f + i) mod L <> (f + u) mod L + j.
Proof.
  intros HL Hi Hj Hu He.
  pose proof (Z.div_mod (f + i) L ltac:(lia)). pose proof (Z.div_mod (f + u) L ltac:(lia)).
  assert ((f + i) / L - (f + u) / L = 0) by nia. nia.
Qed.

Lemma write_chunk_spec r m ts n buff k :
  ring_wf r ts n -> byte_mem m -> 0 <= k -> outside r buff (ts * k) ->
  runs (_do_ringbuff_write_chunk buff (ts * k) ts) (RState r m) (fun amt s' =>
    amt = Z.min (ts * k) (Z.min (free r ts) (end_ r - back r)) /\ (exists j, 0 <= j /\ amt = ts * j) /\
    rb s' = set_back (start r + (back r - start r + amt) mod (end_ r - start r)) r /\
    ring_wf (rb s') ts n /\ used (rb s') = used r + amt /\
    contents s' = contents (RState r m) ++ block m buff (Z.to_nat amt) /\
    byte_mem (rmem s') /\ (forall a, ~ (start r <= a < end_ r) -> rmem s' a = m a)).
Proof.
  intros Hwf Hm Hk Hout. unfold _do_ringbuff_write_chunk. do 2 mstep. cbn [rb].
  rewrite MIN_min, (chunksize_write_min _ _ _ Hwf).
  set (amt := Z.min (ts * k) (Z.min (free r ts) (end_ r - back r))).
  pose proof (used_bounds _ _ _ Hwf) as [Hu Hfree].
  assert (Hj : exists j, 0 <= j /\ amt = ts * j).
  { destruct (used_blocks _ _ _ Hwf) as (u & Hu' & Hus). unfold amt, free in *. rewrite Hus in *.
    destruct Hwf as (Hts & Hn & Hs & He & H32 & _ & (b & Hb & Hbk)).
    exists (Z.min k (Z.min (n - 1 - u) (n - b))). split; [lia|].
    replace (end_ r - start r - ts - ts * u) with (ts * (n - 1 - u)) by lia.
    replace (end_ r - back r) with (ts * (n - b)) by lia.
    rewrite <- !Z.mul_min_distr_nonneg_l by lia. done. }
  destruct Hj as (j & Hj0 & Hj). assert (Hamt : 0 <= amt) by (destruct Hwf as (? & _); nia).
  assert (Hle : amt <= free r ts /\ amt <= end_ r - back r /\ amt <= ts * k) by lia.
  clearbody amt. pose proof Hwf as (Hts & Hn & Hs & He & H32 & (f & Hf & Hfr) & (b & Hb & Hbk)).
  mstep. apply runs_lift. cbn [rmem].
  eapply runs_mono; [apply memcpy_spec; [done|]|].
  { unfold outside in Hout. rewrite Z2Nat.id by lia. nia. }
  intros p m1 [-> Hc]. cbn [rb]. rewrite Z2Nat.id in Hc by lia. mstep. rewrite Hj.
  eapply runs_mono; [apply (advance_back_spec r m1 ts n j Hwf); lia|].
  intros [] s' ->. mstep. cbn [rb rmem]. rewrite <- Hj.
  split; [lia|]. split; [by exists j|]. split; [done|].
  split; [rewrite Hj; by apply wf_advance_back|].
  assert (Hus : used (set_back (start r + (back r - start r + amt) mod (end_ r - start r)) r) = used r + amt).
  { rewrite Hj. apply (used_advance_back _ _ n); [done|done|lia]. }
  split; [exact Hus|]. split; [|split].
  - unfold contents. cbn [rb rmem]. rewrite Hus. cbn [start end_ front set_back].
    rewrite ring_bytes_app by nia. f_equal.
    + apply ring_bytes_ext; [nia|]. intros i Hi. rewrite Hc.
      rewrite bool_decide_false; [done|]. intros Hin.
      apply (ring_fresh (end_ r - start r) (front r - start r) (used r) i
        (start r + (front r - start r + i) mod (end_ r - start r) - back r)); [nia|lia|lia| |].
      * unfold free in Hle. lia.
      * rewrite <- (back_of_front _ _ _ Hwf). lia.
    + rewrite <- (back_of_front _ _ _ Hwf). rewrite ring_bytes_block by nia.
      replace (start r + (back r - start r)) with (back r) by lia.
      apply block_ext. intros i Hi. rewrite Hc, bool_decide_true by lia. f_equal. lia.
  - intros a. rewrite Hc. case_bool_decide; apply Hm.
  - intros a Ha. rewrite Hc, bool_decide_false; [done|]. nia.
Qed.

Lemma read_chunk_spec r m ts n buff k :
  ring_wf r ts n -> byte_mem m -> 0 <= k -> outside r buff (ts * k) ->
  runs (_do_ringbuff_read_chunk buff (ts * k)) (RState r m) (fun amt s' =>
    amt = Z.min (ts * k) (Z.min (used r) (end_ r - front r)) /\ (exists j, 0 <= j /\ amt = ts * j) /\
    rb s' = set_front (start r + (front r - start r + amt) mod (end_ r - start r)) r /\
    ring_wf (rb s') ts n /\ used (rb s') = used r - amt /\
    contents (RState r m) = block (rmem s') buff (Z.to_nat amt) ++ contents s' /\
    byte_mem (rmem s') /\ (forall a, ~ (buff <= a < buff + amt) -> rmem s' a = m a)).
Proof.
  intros Hwf Hm Hk Hout. unfold _do_ringbuff_read_chunk. do 2 mstep. cbn [rb].
  rewrite MIN_min, (chunksize_read_min _ _ _ Hwf).
  set (amt := Z.min (ts * k) (Z.min (used r) (end_ r - front r))).
  pose proof (used_bounds _ _ _ Hwf) as [Hu _].
  assert (Hj : exists j, 0 <= j /\ amt = ts * j).
  { destruct (used_blocks _ _ _ Hwf) as (u & Hu' & Hus). unfold amt. rewrite Hus.
    destruct Hwf as (Hts & Hn & Hs & He & H32 & (f & Hf & Hfr) & _).
    exists (Z.min k (Z.min u (n - f))). split; [lia|].
    replace (end_ r - front r) with (ts * (n - f)) by lia.
    rewrite <- !Z.mul_min_distr_nonneg_l by lia. done. }
  destruct Hj as (j & Hj0 & Hj). assert (Hamt : 0 <= amt) by (destruct Hwf as (? & _); nia).
  assert (Hle : amt <= used r /\ amt <= end_ r - front r /\ amt <= ts * k) by lia.
  clearbody amt. pose proof Hwf as (Hts & Hn & Hs & He & H32 & (f & Hf & Hfr) & (b & Hb & Hbk)).
  mstep. apply runs_lift. cbn [rmem].
  eapply runs_mono; [apply memcpy_spec; [done|]|].
  { unfold outside in Hout. rewrite Z2Nat.id by lia. nia. }
  intros p m1 [-> Hc]. cbn [rb]. rewrite Z2Nat.id in Hc by lia. mstep. rewrite Hj.
  eapply runs_mono; [apply (advance_front_spec r m1 ts n j Hwf); lia|].
  intros [] s' ->. mstep. cbn [rb rmem]. rewrite <- Hj.
  split; [lia|]. split; [by exists j|]. split; [done|].
  split; [rewrite Hj; by apply wf_advance_front|].
  assert (Hus : used (set_front (start r + (front r - start r + amt) mod (end_ r - start r)) r) = used r - amt).
  { rewrite Hj. apply (used_advance_front _ _ n); [done|done|lia]. }
  split; [exact Hus|]. split; [|split].
  - unfold contents. cbn [rb rmem]. rewrite Hus. cbn [start end_ front set_front].
    replace (used r) with (amt + (used r - amt)) at 1 by lia.
    rewrite ring_bytes_app by nia. f_equal.
    + rewrite ring_bytes_block by nia.
      replace (start r + (front r - start r)) with (front r) by lia. symmetry.
      apply block_ext. intros i Hi. rewrite Hc, bool_decide_true by lia. f_equal. lia.
    + replace (start r + (front r - start r + amt) mod (end_ r - start r) - start r)
        with ((front r - start r + amt) mod (end_ r - start r)) by lia.
      symmetry. apply ring_bytes_ext; [nia|]. intros i Hi. rewrite Hc, bool_decide_false; [done|].
      pose proof (Z.mod_pos_bound ((front r - start r + amt) mod (end_ r - start r) + i)
        (end_ r - start r) ltac:(nia)). unfold outside in Hout. lia.
  - intros a. rewrite Hc. case_bool_decide; apply Hm.
  - intros a Ha. rewrite Hc, bool_decide_false; [done|]. lia.
Qed.

(** [_ringbuff_is_full] can miss a full ring, but never reports one that is not. *)
Lemma is_full_sound r ts n : ring_wf r ts n -> _ringbuff_is_full r ts = true -> free r ts = 0.
Proof.
  intros Hwf Hf. pose proof (used_cases _ _ _ Hwf) as Hu. unfold free. unfold _ringbuff_is_full in Hf.
  apply Z.eqb_eq in Hf. destruct Hwf as (Hts & Hn & Hs & He & H32 & (f & Hf' & Hfr) & (b & Hb & Hbk)).
  rewrite uwrap_small in Hf by nia. destruct (Z.leb_spec (front r) (back r)); lia.
Qed.

Lemma is_empty_exact r ts n : ring_wf r ts n -> _ringbuff_is_empty r ts = true <-> used r = 0.
Proof.
  intros Hwf. rewrite (used_cases _ _ _ Hwf). unfold _ringbuff_is_empty. rewrite Z.eqb_eq.
  destruct Hwf as (Hts & Hn & Hs & He & H32 & (f & Hf & Hfr) & (b & Hb & Hbk)).
  destruct (Z.leb_spec (front r) (back r)); nia.
Qed.

(** *** The operations *)

(** A ring of four 4-byte blocks whose free space goes round the end. *)
Definition ring4 : ringbuff_head := RingHead 100 116 108 112.

Lemma ring4_wf : ring_wf ring4 4 4.
Proof. repeat split; simpl; try lia; [exists 2; lia | exists 3; lia]. Qed.

Lemma byte_mem_mod : byte_mem (fun a => a mod 256).
Proof. intros a. apply Z.mod_pos_bound. lia. Qed.

(** [ringbuff_write] stores exactly as many whole blocks as fit.  From a
    well-formed ring it terminates without tripping a bug check, returns
    [min(len, free)], appends precisely that prefix of the caller's buffer to the
    queue's contents -- whether or not the storage wraps, and although
    [_ringbuff_is_full] may miss a full ring -- keeps the ring well formed and
    touches no memory outside the ring's storage. *)
Theorem ring_write_correct r m ts n buff k :
  ring_wf r ts n -> byte_mem m -> 0 <= k -> ts * k < 2 ^ 32 -> outside r buff (ts * k) ->
  runs (_do_ringbuff_write buff (ts * k) ts) (RState r m) (fun amt s' =>
    amt = Z.min (ts * k) (free r ts) /\
    contents s' = contents (RState r m) ++ block m buff (Z.to_nat amt) /\
    ring_wf (rb s') ts n /\ free (rb s') ts = free r ts - amt /\
    byte_mem (rmem s') /\ (forall a, ~ (start r <= a < end_ r) -> rmem s' a = m a) /\
    start (rb s') = start r /\ end_ (rb s') = end_ r).
Proof.
  intros Hwf Hm Hk Hlen Hout. unfold _do_ringbuff_write. mstep.
  eapply runs_mono; [by apply (write_chunk_spec r m ts n)|].
  intros amt [r1 m1] (Hamt & (j & Hj & Hamtj) & Hr1 & Hwf1 & Hu1 & Hc1 & Hm1 & Hfr1). cbn [rb rmem] in *.
  pose proof (used_bounds _ _ _ Hwf) as [Hu Hf]. pose proof (used_bounds _ _ _ Hwf1) as [Hu' Hf'].
  pose proof (cursors_inside _ _ _ Hwf1) as [Hcf Hcb].
  assert (Hse : start r1 = start r /\ end_ r1 = end_ r) by by rewrite Hr1.
  destruct Hse as [Hs1 He1].
  assert (Hfree1 : free r1 ts = free r ts - amt) by (unfold free; rewrite Hs1, He1, Hu1; lia).
  pose proof Hwf as (Hts & Hn & Hs & He & H32 & _ & (b & Hb & Hbk)).
  do 2 mstep. cbn [rb].
  destruct (Z.gtb_spec (ts * k) amt) as [Hlt|Hge]; cbn [andb].
  2: { mstep. cbn [rb rmem]. split; [lia|by eauto 10]. }
  destruct (_ringbuff_is_full r1 ts) eqn:Hfull; cbn [negb].
  - mstep. cbn [rb rmem]. pose proof (is_full_sound _ _ _ Hwf1 Hfull).
    split; [lia|by eauto 10].
  - mstep. rewrite uwrap_small by nia. rewrite Hamtj. replace (ts * k - ts * j) with (ts * (k - j)) by lia.
    eapply runs_mono; [apply (write_chunk_spec r1 m1 ts n); [done|done|nia|]|].
    { unfold outside in *. rewrite Hs1, He1. nia. }
    intros amt2 s2 (Hamt2 & _ & Hr2 & Hwf2 & Hu2 & Hc2 & Hm2 & Hfr2). mstep.
    assert (Hback : free r ts <= end_ r - back r \/ back r1 = start r).
    { destruct (Z.le_gt_cases (free r ts) (end_ r - back r)) as [|Hgt]; [by left|right].
      rewrite Hr1. cbn [back set_back].
      replace (back r - start r + amt) with (end_ r - start r) by lia.
      rewrite Z.mod_same by nia. lia. }
    assert (Htot : amt + amt2 = Z.min (ts * k) (free r ts)).
    { replace (ts * (k - j)) with (ts * k - amt) in Hamt2 by lia. unfold free in *. lia. }
    assert (0 <= amt2) by (replace (ts * (k - j)) with (ts * k - amt) in Hamt2 by lia; lia).
    rewrite <- Hamtj, uwrap_small by nia. split; [done|].
    assert (Hbl : block m1 (buff + ts * j) (Z.to_nat amt2) = block m (buff + ts * j) (Z.to_nat amt2)).
    { apply block_ext. intros i Hi. apply Hfr1. unfold outside in Hout. nia. }
    rewrite Hc2, Hc1, Hbl, <- app_assoc, Z2Nat.inj_add, block_app by nia.
    rewrite Z2Nat.id, <- Hamtj by nia. split; [done|]. split; [done|].
    split; [|split; [done|]].
    + unfold free at 1. rewrite Hu2. rewrite Hr2. cbn [set_back end_ start]. unfold free in *. lia.
    + split; [|by rewrite Hr2]. intros a Ha. rewrite Hfr2 by (rewrite Hs1, He1; done). by apply Hfr1.
Qed.

Lemma ring_write_correct_witness :
  runs (_do_ringbuff_write 200 12 4) (RState ring4 (fun a => a mod 256)) (fun amt s' =>
    amt = 8 /\ contents s' = [108; 109; 110; 111; 200; 201; 202; 203; 204; 205; 206; 207] /\
    ring_wf (rb s') 4 4).
Proof.
  eapply runs_mono; [apply (ring_write_correct ring4 (fun a => a mod 256) 4 4 200 3)|].
  - apply ring4_wf.
  - apply byte_mem_mod.
  - lia.
  - lia.
  - right. simpl. lia.
  - intros amt s' (-> & -> & Hwf & _). split; [reflexivity|]. split; [reflexivity|done].
Defined.

(** [ringbuff_read] removes exactly as many whole blocks as are there.  It
    terminates without a bug check, returns [min(len, used)], delivers that many
    bytes of the oldest contents, in order, to the caller's buffer, leaves the rest
    queued, keeps the ring well formed and touches no memory outside the caller's
    buffer. *)
Theorem ring_read_correct r m ts n buff k :
  ring_wf r ts n -> byte_mem m -> 0 <= k -> ts * k < 2 ^ 32 -> outside r buff (ts * k) ->
  runs (_do_ringbuff_read buff (ts * k) ts) (RState r m) (fun amt s' =>
    amt = Z.min (ts * k) (used r) /\
    contents (RState r m) = block (rmem s') buff (Z.to_nat amt) ++ contents s' /\
    ring_wf (rb s') ts n /\ used (rb s') = used r - amt /\
    byte_mem (rmem s') /\ (forall a, ~ (buff <= a < buff + amt) -> rmem s' a = m a) /\
    start (rb s') = start r /\ end_ (rb s') = end_ r).
Proof.
  intros Hwf Hm Hk Hlen Hout. unfold _do_ringbuff_read. mstep.
  eapply runs_mono; [by apply (read_chunk_spec r m ts n)|].
  intros amt [r1 m1] (Hamt & (j & Hj & Hamtj) & Hr1 & Hwf1 & Hu1 & Hc1 & Hm1 & Hfr1). cbn [rb rmem] in *.
  pose proof (used_bounds _ _ _ Hwf) as [Hu Hf]. pose proof (used_bounds _ _ _ Hwf1) as [Hu' Hf'].
  pose proof (cursors_inside _ _ _ Hwf1) as [Hcf Hcb].
  assert (Hse : start r1 = start r /\ end_ r1 = end_ r) by by rewrite Hr1.
  destruct Hse as [Hs1 He1].
  pose proof Hwf as (Hts & Hn & Hs & He & H32 & (f & Hff & Hfr) & _).
  do 2 mstep. cbn [rb].
  destruct (Z.gtb_spec (ts * k) amt) as [Hlt|Hge]; cbn [andb].
  2: { mstep. cbn [rb rmem]. split; [lia|by eauto 10]. }
  destruct (_ringbuff_is_empty r1 ts) eqn:Hempty; cbn [negb].
  - mstep. cbn [rb rmem]. apply (is_empty_exact _ _ _ Hwf1) in Hempty.
    split; [lia|by eauto 10].
  - mstep. rewrite uwrap_small by nia. rewrite Hamtj. replace (ts * k - ts * j) with (ts * (k - j)) by lia.
    eapply runs_mono; [apply (read_chunk_spec r1 m1 ts n); [done|done|nia|]|].
    { unfold outside in *. rewrite Hs1, He1. nia. }
    intros amt2 s2 (Hamt2 & _ & Hr2 & Hwf2 & Hu2 & Hc2 & Hm2 & Hfr2). mstep.
    assert (Hfront : used r <= end_ r - front r \/ front r1 = start r).
    { destruct (Z.le_gt_cases (used r) (end_ r - front r)) as [|Hgt]; [by left|right].
      rewrite Hr1. cbn [front set_front].
      replace (front r - start r + amt) with (end_ r - start r) by lia.
      rewrite Z.mod_same by nia. lia. }
    assert (Htot : amt + amt2 = Z.min (ts * k) (used r)).
    { replace (ts * (k - j)) with (ts * k - amt) in Hamt2 by lia. lia. }
    assert (0 <= amt2) by (replace (ts * (k - j)) with (ts * k - amt) in Hamt2 by lia; lia).
    rewrite <- Hamtj, uwrap_small by nia. split; [done|].
    assert (Hbl : block (rmem s2) buff (Z.to_nat amt) = block m1 buff (Z.to_nat amt)).
    { apply block_ext. intros i Hi. apply Hfr2. lia. }
    rewrite Hc1. rewrite Hc2, app_assoc, Z2Nat.inj_add, block_app by nia.
    rewrite Z2Nat.id, Hbl, <- Hamtj by nia. split; [done|]. split; [done|].
    split; [lia|split; [done|]].
    split; [|by rewrite Hr2]. intros a Ha. rewrite Hfr2 by lia. apply Hfr1. lia.
Qed.

Lemma ring_read_correct_witness :
  runs (_do_ringbuff_read 200 8 4) (RState (RingHead 100 116 112 108) (fun a => a mod 256)) (fun amt s' =>
    amt = 8 /\ used (rb s') = 4).
Proof.
  eapply runs_mono; [apply (ring_read_correct (RingHead 100 116 112 108) (fun a => a mod 256) 4 4 200 2)|].
  - repeat split; simpl; try lia; [exists 3; lia | exists 2; lia].
  - apply byte_mem_mod.
  - lia.
  - lia.
  - right. simpl. lia.
  - intros amt s' (-> & _ & _ & -> & _). split; reflexivity.
Defined.

(** The accounting is exact.  In a well-formed ring of [n] blocks
    [ringbuff_space_used] and [ringbuff_space_left] never trip their bug check,
    return the queued and the free blocks, and always add up to [n - 1], the
    capacity [ringbuff_init] was asked for. *)
Theorem ring_space_exact r m ts n :
  ring_wf r ts n ->
  runs (_ringbuff_space_used ts) (RState r m) (fun u s1 =>
    s1 = RState r m /\ used r = ts * u /\
    runs (_ringbuff_space_left ts) s1 (fun l s2 =>
      s2 = s1 /\ free r ts = ts * l /\ u + l = n - 1)).
Proof.
  intros Hwf. destruct (used_blocks _ _ _ Hwf) as (u & Hu & Hus).
  pose proof (used_cases _ _ _ Hwf) as Hc.
  pose proof Hwf as (Hts & Hn & Hs & He & H32 & (f & Hf & Hfr) & (b & Hb & Hbk)).
  assert (Hbu : (if front r <=? back r then u32 (back r - front r)
      else u32 (u32 (end_ r - front r) + u32 (back r - start r))) = u * ts).
  { destruct (Z.leb_spec (front r) (back r)); rewrite ?(uwrap_small 32 (end_ r - front r)),
      ?(uwrap_small 32 (back r - start r)), ?uwrap_small by nia; nia. }
  assert (Hbl : (if back r <? front r then u32 (front r - back r)
      else u32 (u32 (end_ r - back r) + u32 (front r - start r))) = (n - u) * ts).
  { destruct (Z.ltb_spec (back r) (front r)), (Z.leb_spec (front r) (back r)); try lia;
      rewrite ?(uwrap_small 32 (end_ r - back r)),
      ?(uwrap_small 32 (front r - start r)), ?uwrap_small by nia; nia. }
  unfold _ringbuff_space_used. do 2 mstep. cbn [rb]. rewrite Hbu, Z_mod_mult, Z_div_mult by lia.
  msteps; [done|]. split; [done|]. split; [lia|].
  unfold _ringbuff_space_left. do 2 mstep. cbn [rb]. rewrite Hbl, Z_mod_mult, Z_div_mult by lia.
  msteps; [done|]. rewrite uwrap_small by nia. unfold free. split; [done|]. split; nia.
Qed.

Lemma ring_space_exact_witness :
  runs (_ringbuff_space_used 4) (RState ring4 (fun a => a mod 256)) (fun u s1 =>
    s1 = RState ring4 (fun a => a mod 256) /\ used ring4 = 4 * u /\
    runs (_ringbuff_space_left 4) s1 (fun l s2 => s2 = s1 /\ free ring4 4 = 4 * l /\ u + l = 4 - 1)).
Proof. apply ring_space_exact, ring4_wf. Defined.

Lemma ring_init_wf s buff len ts :
  0 < ts -> 0 <= len -> 0 <= buff -> buff + (len + 1) * ts < 2 ^ 32 ->
  runs (_do_ringbuff_init buff len ts) s (fun _ s' =>
    ring_wf (rb s') ts (len + 1) /\ contents s' = [] /\ free (rb s') ts = ts * len /\ rmem s' = rmem s).
Proof.
  intros Hts Hlen Hb H32. unfold _do_ringbuff_init, upd_rb. mstep. cbn [rb rmem].
  assert (Hu : used (RingHead buff (u32 (buff + (len + 1) * ts)) buff buff) = 0)
    by (unfold used; simpl; by rewrite Z.sub_diag, Zmod_0_l).
  rewrite uwrap_small in * by nia.
  split; [|split; [|split]].
  - repeat split; simpl; try lia; exists 0; lia.
  - unfold contents. cbn [rb rmem]. by rewrite Hu.
  - unfold free. rewrite Hu. simpl. lia.
  - done.
Qed.

(** What [ringbuff_is_full] decides.  On a ring filled to capacity it
    answers true exactly when the queue does not begin at the start of the
    storage: it compares [front] with [back + typesize] without going round, so a
    ring filled from its initial state is full and reported as not full. *)
Theorem ring_is_full_misses r ts n :
  ring_wf r ts n -> free r ts = 0 ->
  _ringbuff_is_full r ts = negb (front r =? start r).
Proof.
  intros Hwf Hf. pose proof (used_cases _ _ _ Hwf) as Hu. unfold free in Hf.
  destruct Hwf as (Hts & Hn & Hs & He & H32 & (f & Hf' & Hfr) & (b & Hb & Hbk)).
  unfold _ringbuff_is_full. rewrite uwrap_small by nia.
  destruct (Z.leb_spec (front r) (back r)); destruct (Z.eqb_spec (front r) (start r)), (Z.eqb_spec (front r) (back r + ts));
    simpl; try done; exfalso; nia.
Qed.

Lemma ring_is_full_misses_witness :
  free (RingHead 100 112 100 108) 4 = 0 /\ _ringbuff_is_full (RingHead 100 112 100 108) 4 = false.
Proof.
  split; [reflexivity|]. rewrite (ring_is_full_misses _ _ 3); [reflexivity| |reflexivity].
  repeat split; simpl; try lia; [exists 0; lia | exists 2; lia].
Defined.
