(* ===== verification/Term.v ===== *)
(** * Term: kernel/src/driver/console/vram.c, kernel/inc/driver/console/console.h

    The text console: characters and escape sequences into video memory.  The memory behind [vram] is the page
    that is mapped for it; using it beyond that page is a [Fault].  What is written to the display
    controller's ports, and the bell, is a trace of events; what the controller answers is a parameter. *)

From S2P Require Import Prelude Words CString.

(** ** console.h *)

Definition CONSOLE_WIDTH : Z := 80.
Definition CONSOLE_HEIGHT : Z := 25.
Definition CSI_SINGLE : Z := s8 0x9B.
Definition CSI_DOUBLE_PARTA : Z := 0x1B.
Definition CSI_DOUBLE_PARTB : Z := 91.

Inductive term_state := TERM_NORMAL | TERM_ESCSEQ | TERM_EXPECT_CSI_PARTB.
#[global] Instance term_state_eq_dec : EqDecision term_state.
Proof. solve_decision. Defined.

(** What reaches the hardware: [outb] of a value to a port, the bell. *)
Inductive event := OutB (port value : Z) | Beep.

Record console := Console {
  port : Z;
  vram : Z -> Z;
  row : Z;
  col : Z;
  color : Z;
  t_state : term_state;
  escseq_buff : option (Z -> Z);
  escseq_buff_front : Z;
  lockup : bool;
  con_lock : bool;
  trace : list event;
}.

Definition set_vram (v : Z -> Z) (c : console) : console := Console (port c) v (row c) (col c) (color c) (t_state c) (escseq_buff c) (escseq_buff_front c) (lockup c) (con_lock c) (trace c).
Definition set_row (v : Z) (c : console) : console := Console (port c) (vram c) v (col c) (color c) (t_state c) (escseq_buff c) (escseq_buff_front c) (lockup c) (con_lock c) (trace c).
Definition set_col (v : Z) (c : console) : console := Console (port c) (vram c) (row c) v (color c) (t_state c) (escseq_buff c) (escseq_buff_front c) (lockup c) (con_lock c) (trace c).
Definition set_color (v : Z) (c : console) : console := Console (port c) (vram c) (row c) (col c) v (t_state c) (escseq_buff c) (escseq_buff_front c) (lockup c) (con_lock c) (trace c).
Definition set_t_state (v : term_state) (c : console) : console := Console (port c) (vram c) (row c) (col c) (color c) v (escseq_buff c) (escseq_buff_front c) (lockup c) (con_lock c) (trace c).
Definition set_escseq_buff (v : option (Z -> Z)) (c : console) : console := Console (port c) (vram c) (row c) (col c) (color c) (t_state c) v (escseq_buff_front c) (lockup c) (con_lock c) (trace c).
Definition set_escseq_buff_front (v : Z) (c : console) : console := Console (port c) (vram c) (row c) (col c) (color c) (t_state c) (escseq_buff c) v (lockup c) (con_lock c) (trace c).
Definition set_lockup (v : bool) (c : console) : console := Console (port c) (vram c) (row c) (col c) (color c) (t_state c) (escseq_buff c) (escseq_buff_front c) v (con_lock c) (trace c).
Definition set_con_lock (v : bool) (c : console) : console := Console (port c) (vram c) (row c) (col c) (color c) (t_state c) (escseq_buff c) (escseq_buff_front c) (lockup c) v (trace c).
Definition set_trace (v : list event) (c : console) : console := Console (port c) (vram c) (row c) (col c) (color c) (t_state c) (escseq_buff c) (escseq_buff_front c) (lockup c) (con_lock c) v.

Definition with_con {A} (m : M console A) : M console A := locked (fun c => Some (con_lock c)) set_con_lock m.

(** ** vram.c: the display controller *)

Definition TABSTOP_WIDTH : Z := 8.
Definition ESCSEQ_BUFF_SIZE : Z := 128.
Definition ASCII_BELL : Z := 7.
Definition ASCII_BACKSPACE : Z := 8.
Definition ASCII_TAB : Z := 9.
Definition PORTOFF_ADDR : Z := 0.
Definition PORTOFF_DATA : Z := 1.
Definition REG_CURSOR_START : Z := 0x0A.
Definition REG_CURSOR_END : Z := 0x0B.
Definition REG_CURSOR_HI : Z := 0x0E.
Definition REG_CURSOR_LO : Z := 0x0F.

(** The page behind [con->vram]. *)
Definition VRAM_SIZE : Z := 4096.

Definition emit_event (e : event) : M console unit := modify (fun c => set_trace (e :: trace c) c).

Section Device.
(** What the controller answers on a port, given what has been written. *)
Context (inb : list event -> Z -> Z).

Definition _select_reg (reg : Z) : M console unit := c ← get; emit_event (OutB (u16 (port c + PORTOFF_ADDR)) (u8 reg)).
Definition _get_val : M console Z := c ← get; mret (u8 (inb (trace c) (u16 (port c + PORTOFF_DATA)))).
Definition _put_val (v : Z) : M console unit := c ← get; emit_event (OutB (u16 (port c + PORTOFF_DATA)) (u8 v)).

Definition set_reg (reg v : Z) : M console unit := _select_reg reg;; _put_val v.

Definition set_reg_bits (reg mask v : Z) : M console unit :=
  _select_reg reg;;
  prev_val ← (if negb (mask =? 0xFF) then _get_val else mret 0);
  _put_val (Z.lor (Z.land prev_val (Z.lnot mask)) (Z.land v mask)).

Definition CURSOR_BLINK_SLOW : Z := Z.lor (1 <<< 6) (0 <<< 5).

Definition cursor_enable (top_scanline bot_scanline blink : Z) : M console unit :=
  set_reg_bits REG_CURSOR_START 0x7F (Z.lor (Z.land top_scanline 0x1F) (Z.land blink 0x60));;
  set_reg_bits REG_CURSOR_END 0x1F (Z.land bot_scanline 0x1F).

Definition do_refresh_cursor : M console unit :=
  c ← get;
  let pos := u16 (u32 (u32 (row c * CONSOLE_WIDTH) + col c)) in
  set_reg_bits REG_CURSOR_LO 0xFF (Z.land pos 0xFF);;
  set_reg_bits REG_CURSOR_HI 0x3F (Z.land (pos >>> 8) 0xFF).

(** [con->vram[i] = v] *)
Definition put_vram (i v : Z) : M console unit :=
  if (0 <=? i) && (i <? VRAM_SIZE) then modify (fun c => set_vram (<[i := v]> (vram c)) c) else fault.

(** A blank in the current color, at cell [k]. *)
Definition put_blank (k : Z) : M console unit := c ← get; put_vram (k * 2) 32;; put_vram (k * 2 + 1) (color c).

Definition do_clear : M console unit :=
  modify (fun c => set_col 0 (set_row 0 c));;
  forM 0 (Z.to_nat (CONSOLE_WIDTH * CONSOLE_HEIGHT)) put_blank;;
  do_refresh_cursor.

(** One row, from [cstart] on. *)
Definition erase_row (rstart dir cstart : Z) : M console unit :=
  iterM 81 (fun cstart =>
    if (cstart >=? 0) && (cstart <? CONSOLE_WIDTH) then
      put_blank (rstart * CONSOLE_WIDTH + cstart);; mret (inl (cstart + dir))
    else mret (inr tt)) cstart.

Definition do_erase (to_end : bool) : M console unit :=
  let dir := if to_end then 1 else -1 in
  c ← get;
  iterM 26 (fun '(rstart, cstart) =>
    if (rstart >=? 0) && (rstart <? CONSOLE_HEIGHT) then
      erase_row rstart dir cstart;;
      mret (inl (rstart + dir, if dir =? 1 then 0 else CONSOLE_WIDTH - 1))
    else mret (inr tt)) (s32 (row c), s32 (col c)).

(** ** The cursor *)

Definition cursor_up (amt : Z) : M console unit :=
  modify (fun c => set_row (u32 (row c - MIN (row c) amt)) c);; do_refresh_cursor.
Definition cursor_down (amt : Z) : M console unit :=
  modify (fun c => set_row (u32 (row c + MAX (u32 (CONSOLE_HEIGHT - row c)) amt)) c);; do_refresh_cursor.
Definition cursor_forward (amt : Z) : M console unit :=
  modify (fun c => set_col (u32 (col c + MAX (u32 (CONSOLE_WIDTH - col c)) amt)) c);; do_refresh_cursor.
Definition cursor_back (amt : Z) : M console unit :=
  modify (fun c => set_col (u32 (col c - MIN (col c) amt)) c);; do_refresh_cursor.
Definition cursor_position (r c : Z) : M console unit :=
  let r := if r >? 0 then r - 1 else r in
  let c := if c >? 0 then c - 1 else c in
  modify (fun k => set_col (MIN c (CONSOLE_WIDTH - 1)) (set_row (MIN r (CONSOLE_HEIGHT - 1)) k));;
  do_refresh_cursor.

Definition vram_color (v : Z) : M console unit := with_con (modify (set_color v)).
Definition vram_clear : M console unit := with_con do_clear.

(** ** Characters *)

(** [memmove] of all rows but the first to the top. *)
Definition move_rows (v : Z -> Z) : Z -> Z := fun i =>
  if (0 <=? i) && (i <? (CONSOLE_HEIGHT - 1) * CONSOLE_WIDTH * 2) then v (i + CONSOLE_WIDTH * 2) else v i.

Definition fix_pos_overflow : M console unit :=
  c ← get;
  (if col c =? CONSOLE_WIDTH then modify (fun c => set_row (u32 (row c + 1)) (set_col 0 c)) else mret tt);;
  c ← get;
  if row c =? CONSOLE_HEIGHT then
    modify (fun c => set_vram (move_rows (vram c)) c);;
    forM 0 (Z.to_nat CONSOLE_WIDTH) (fun i => put_blank ((CONSOLE_HEIGHT - 1) * CONSOLE_WIDTH + i));;
    modify (set_row (CONSOLE_HEIGHT - 1))
  else mret tt.

(** The columns up to the next tab stop. *)
Definition tab_round (_ : unit) : M console (unit + unit) :=
  c ← get;
  if negb (col c mod TABSTOP_WIDTH =? 0) && (col c <? CONSOLE_WIDTH - 1) then modify (set_col (u32 (col c + 1)));; mret (inl tt)
  else mret (inr tt).

Definition process_char (c : Z) : M console unit :=
  if c =? ASCII_BELL then emit_event Beep
  else if c =? ASCII_BACKSPACE then cursor_back 1
  else if c =? ASCII_TAB then
    modify (fun k => set_col (u32 (col k + 1)) k);;
    k ← get;
    if col k =? CONSOLE_WIDTH then fix_pos_overflow
    else iterM 8 tab_round tt
  else if c =? 10 then
    modify (fun k => set_row (u32 (row k + 1)) (set_col 0 k));;
    fix_pos_overflow
  else if c =? 13 then modify (set_col 0)
  else
    k ← get;
    let cell := u32 (u32 (row k * CONSOLE_WIDTH) + col k) in
    put_vram (u32 (cell * 2)) c;;
    put_vram (u32 (u32 (cell * 2) + 1)) (color k);;
    modify (fun k => set_col (u32 (col k + 1)) k);;
    fix_pos_overflow.

Definition vram_putc (c : Z) : M console unit := process_char c.

(** ** Escape sequences *)

(** The loop over the buffer: [off], the number being read, whether it is the second, and both so far;
    the command ends it. *)
Definition args_round (buff : Z -> Z) (max_len : Z) (v : Z * Z * bool * Z * Z) : M console (Z * Z * bool * Z * Z + Z * Z * Z) :=
  let '(off, tmp, second, n, m) := v in
  if off <? max_len then
    let d := buff off in
    if isdigit d then
      let tmp := if tmp =? -1 then 0 else tmp in
      mret (inl (off + 1, s32 (s32 (tmp * 10) + (d - 48)), second, n, m))
    else
      let '(n, m) := if negb (tmp =? -1) then (if second then (n, tmp) else (tmp, m)) else (n, m) in
      if (d =? 59) && negb second then mret (inl (off + 1, -1, true, n, m))
      else mret (inr (n, m, d))
  else mret (inr (n, m, 0)).

Definition read_escseq_args : M console (Z * Z * Z) :=
  c ← get;
  buff ← read escseq_buff;
  iterM 129 (args_round buff (escseq_buff_front c)) (0, -1, false, -1, -1).

Definition execute_escseq (c n m : Z) : M console unit :=
  if c =? 0 then mret tt
  else if c =? 65 then cursor_up (if n =? -1 then 1 else u32 n)
  else if c =? 66 then cursor_down (if n =? -1 then 1 else u32 n)
  else if c =? 67 then cursor_forward (if n =? -1 then 1 else u32 n)
  else if c =? 68 then cursor_back (if n =? -1 then 1 else u32 n)
  else if c =? 72 then cursor_position (if n =? -1 then 0 else u32 n) (if m =? -1 then 0 else u32 m)
  else if c =? 74 then
    let v := if n =? -1 then 0 else u32 n in
    if v =? 1 then do_erase false else if v =? 2 then do_clear else do_erase true
  else mret tt.

Definition interpret_escseq : M console unit := '(n, m, c) ← read_escseq_args; execute_escseq c n m.

Definition is_terminating_char (c : Z) : bool := (c >=? 64) && (c <=? 126).

Definition put_escseq_buff (c : Z) : M console unit :=
  k ← get;
  match escseq_buff k with
  | None => panic
  | Some buff =>
      (if escseq_buff_front k <? ESCSEQ_BUFF_SIZE then
         modify (fun k => set_escseq_buff_front (escseq_buff_front k + 1) (set_escseq_buff (Some (<[escseq_buff_front k := c]> buff)) k))
       else fault);;
      (if is_terminating_char c then interpret_escseq else mret tt);;
      k ← get;
      if is_terminating_char c || (escseq_buff_front k =? ESCSEQ_BUFF_SIZE) then
        modify (fun k => set_t_state TERM_NORMAL (set_escseq_buff_front 0 k))
      else mret tt
  end.

Definition vram_handle (c : Z) : M console unit :=
  k ← get;
  match t_state k with
  | TERM_NORMAL =>
      if c =? CSI_SINGLE then modify (set_t_state TERM_ESCSEQ)
      else if c =? CSI_DOUBLE_PARTA then modify (set_t_state TERM_EXPECT_CSI_PARTB)
      else vram_putc c
  | TERM_EXPECT_CSI_PARTB =>
      if c =? CSI_DOUBLE_PARTB then modify (set_t_state TERM_ESCSEQ)
      else modify (set_t_state TERM_NORMAL);; vram_putc CSI_DOUBLE_PARTA;; vram_putc c
  | TERM_ESCSEQ => put_escseq_buff c
  end.

(** ** Writing *)

Fixpoint handle_all (l : list Z) : M console unit :=
  match l with [] => mret tt | c :: l' => vram_handle c;; handle_all l' end.

(** The cursor is refreshed after the lock has been released. *)
Definition vram_write (str : list Z) : M console unit := with_con (handle_all str);; do_refresh_cursor.
Definition vram_cursor (r c : Z) : M console unit := with_con do_refresh_cursor.
Definition vram_puts (str : list Z) : M console unit := vram_write str.

Definition vram_early_init (bda_port : Z) : M console unit :=
  modify (fun c => Console bda_port (vram c) 0 0 0x07 TERM_NORMAL None 0 (lockup c) (con_lock c) (trace c));;
  cursor_enable 14 15 CURSOR_BLINK_SLOW;;
  vram_clear.

(** What [kmalloc]ed memory holds. *)
Definition vram_init (junk : Z -> Z) : M console unit := modify (fun c => set_escseq_buff_front 0 (set_escseq_buff (Some junk) c)).
End Device.
