(* ===== verification/Screen.v ===== *)
(** * Screen: what the console shows

    Theorems on [Term] (kernel/src/driver/console/vram.c). *)

From S2P Require Import Prelude Words CString Term.

Section Screen.
Context (inb : list event -> Z -> Z).

(** ** The cursor registers *)

(** What a refresh sends to the controller. *)
Definition refreshed (c : console) : console :=
  let pos := u16 (u32 (u32 (row c * CONSOLE_WIDTH) + col c)) in
  let addr := u16 (port c + PORTOFF_ADDR) in let data := u16 (port c + PORTOFF_DATA) in
  let sent := OutB addr (u8 REG_CURSOR_HI) :: OutB data (u8 (Z.lor (Z.land 0 (Z.lnot 0xFF)) (Z.land (Z.land pos 0xFF) 0xFF))) :: OutB addr (u8 REG_CURSOR_LO) :: trace c in
  set_trace (OutB data (u8 (Z.lor (Z.land (u8 (inb sent data)) (Z.lnot 0x3F)) (Z.land (Z.land (pos >>> 8) 0xFF) 0x3F))) :: sent) c.

Lemma do_refresh_cursor_spec c (Q : unit -> console -> Prop) : Q tt (refreshed c) -> runs (do_refresh_cursor inb) c Q.
Proof. done. Qed.

(** ** Cells *)

Lemma put_vram_spec i v c (Q : unit -> console -> Prop) : 0 <= i < VRAM_SIZE -> Q tt (set_vram (<[i := v]> (vram c)) c) -> runs (put_vram i v) c Q.
Proof. intros Hi HQ. unfold put_vram. rewrite (proj2 (Z.leb_le 0 i)), (proj2 (Z.ltb_lt i VRAM_SIZE)) by lia. exact HQ. Qed.

(** The character and the color in cell [k]. *)
Definition cell (c : console) (k : Z) : Z * Z := (vram c (2 * k), vram c (2 * k + 1)).
Definition blank (c : console) : Z * Z := (32, color c).

(** Nothing but the cells of the screen has changed. *)
Definition cells_only (c c' : console) : Prop :=
  c' = set_vram (vram c') c /\ forall i, i < 0 \/ 2 * (CONSOLE_WIDTH * CONSOLE_HEIGHT) <= i -> vram c' i = vram c i.

Lemma cells_only_refl c : cells_only c c.
Proof. split; [by destruct c|done]. Qed.
Lemma cells_only_trans c1 c2 c3 : cells_only c1 c2 -> cells_only c2 c3 -> cells_only c1 c3.
Proof. intros [E1 H1] [E2 H2]. split; [rewrite E2, E1; by destruct c1, c3|]. intros i Hi. by rewrite H2, H1. Qed.

(** Cell [k] set, the others as they were. *)
Definition cell_set (c c' : console) (k : Z) (x : Z * Z) : Prop := cells_only c c' /\ cell c' k = x /\ forall j, j <> k -> cell c' j = cell c j.

Lemma put_cell_spec k ch c (Q : unit -> console -> Prop) : 0 <= k < CONSOLE_WIDTH * CONSOLE_HEIGHT -> (forall c', cell_set c c' k (ch, color c) -> Q tt c') ->
  runs (put_vram (k * 2) ch;; put_vram (k * 2 + 1) (color c)) c Q.
Proof.
  intros Hk HQ. unfold CONSOLE_WIDTH, CONSOLE_HEIGHT in Hk. mstep. apply put_vram_spec; [unfold VRAM_SIZE; lia|]. apply put_vram_spec; [unfold VRAM_SIZE; lia|]. apply HQ. unfold cell. cbn [vram set_vram]. split; [split|split].
  - by destruct c.
  - intros i Hi. cbn [vram set_vram]. unfold CONSOLE_WIDTH, CONSOLE_HEIGHT in Hi. by rewrite !fn_insert_ne by lia.
  - unfold cell. cbn [vram set_vram]. rewrite (Z.mul_comm 2 k), (fn_insert_ne _ (k * 2 + 1) (k * 2)), !fn_insert_eq by lia. done.
  - intros j Hj. unfold cell. cbn [vram set_vram]. by rewrite !fn_insert_ne by lia.
Qed.

Lemma put_blank_spec k c (Q : unit -> console -> Prop) : 0 <= k < CONSOLE_WIDTH * CONSOLE_HEIGHT -> (forall c', cell_set c c' k (blank c) -> Q tt c') -> runs (put_blank k) c Q.
Proof. intros Hk HQ. unfold put_blank. do 2 mstep. by apply put_cell_spec. Qed.

(** A row of blanks. *)
Definition blanked (c c' : console) (a n : Z) : Prop := cells_only c c' /\ forall j, cell c' j = if decide (a <= j < a + n) then blank c else cell c j.

Lemma blanked_step c c1 c2 a n k : blanked c c1 a n -> cell_set c1 c2 k (blank c1) -> k = a + n \/ k + 1 = a -> 0 <= n -> blanked c c2 (Z.min a k) (n + 1).
Proof.
  intros [E1 H1] (E2 & Hk & Ho) Hadj Hn. split; [by eapply cells_only_trans|]. assert (Eb : blank c1 = blank c) by (destruct E1 as [-> _]; done). rewrite Eb in Hk.
  intros j. destruct (decide (j = k)) as [->|Hj]; [rewrite decide_True by lia; done|]. rewrite Ho, H1 by done. destruct (decide (a <= j < a + n)); [rewrite decide_True by lia; done|rewrite decide_False by lia; done].
Qed.

Lemma forM_blank a n c (Q : unit -> console -> Prop) : 0 <= a -> a + Z.of_nat n <= CONSOLE_WIDTH * CONSOLE_HEIGHT -> (forall c', blanked c c' a (Z.of_nat n) -> Q tt c') ->
  runs (forM 0 n (fun i => put_blank (a + i))) c Q.
Proof.
  intros Ha Hn HQ. eapply runs_mono; [apply (runs_forM (fun i c' => blanked c c' a i))|].
  - split; [apply cells_only_refl|]. intros j. by rewrite decide_False by lia.
  - intros k c1 Hk H1. apply put_blank_spec; [lia|]. intros c2 H2. replace a with (Z.min a (a + k)) at 1 by lia. eapply blanked_step; [exact H1|exact H2|by left|lia].
  - intros [] c' H. apply HQ. by rewrite Z.add_0_l in H.
Qed.

(** ** Where the cursor is *)

Record on_screen (c : console) : Prop := OnScreen {
  os_row : 0 <= row c < CONSOLE_HEIGHT;
  os_col : 0 <= col c < CONSOLE_WIDTH;
  os_front : 0 <= escseq_buff_front c <= ESCSEQ_BUFF_SIZE;
  os_buff : is_Some (escseq_buff c);
}.

(** The cell under the cursor. *)
Definition pos (c : console) : Z := row c * CONSOLE_WIDTH + col c.

Definition at_cell (p : Z) (c : console) : console := set_row (p / CONSOLE_WIDTH) (set_col (p mod CONSOLE_WIDTH) c).

(** The screen moved up by a row. *)
Definition scrolled (c c' : console) : Prop :=
  cells_only c c' /\ forall j, 0 <= j < CONSOLE_WIDTH * CONSOLE_HEIGHT -> cell c' j = if decide (j < CONSOLE_WIDTH * (CONSOLE_HEIGHT - 1)) then cell c (j + CONSOLE_WIDTH) else blank c.

Lemma cells_only_move c : cells_only c (set_vram (move_rows (vram c)) c).
Proof. split; [by destruct c|]. intros i Hi. unfold CONSOLE_WIDTH, CONSOLE_HEIGHT in Hi. cbn. unfold move_rows, CONSOLE_WIDTH, CONSOLE_HEIGHT. destruct (Z.leb_spec 0 i), (Z.ltb_spec i ((25 - 1) * 80 * 2)); cbn [andb]; try done; lia. Qed.

Lemma scroll_spec c (Q : unit -> console -> Prop) : (forall c', scrolled c c' -> Q tt (set_row (CONSOLE_HEIGHT - 1) c')) ->
  runs (modify (fun c => set_vram (move_rows (vram c)) c);; forM 0 (Z.to_nat CONSOLE_WIDTH) (fun i => put_blank ((CONSOLE_HEIGHT - 1) * CONSOLE_WIDTH + i));; modify (set_row (CONSOLE_HEIGHT - 1))) c Q.
Proof.
  intros HQ. do 3 mstep. apply forM_blank; [done|done|]. intros c' [H1 H2]. mstep. apply HQ. pose proof (cells_only_move c) as H0. split; [by eapply cells_only_trans|].
  intros j Hj. rewrite H2. unfold CONSOLE_WIDTH, CONSOLE_HEIGHT in *. change (Z.of_nat (Z.to_nat 80)) with 80. destruct (decide (j < 80 * (25 - 1))).
  - rewrite decide_False by lia. unfold cell. cbn [vram set_vram]. unfold move_rows, CONSOLE_WIDTH, CONSOLE_HEIGHT. rewrite !(proj2 (Z.leb_le 0 _)), !(proj2 (Z.ltb_lt _ _)) by lia. cbn [andb]. f_equal; f_equal; lia.
  - by rewrite decide_True by lia.
Qed.

(** After a character: the next cell, or the last row after a scroll. *)
Lemma fix_pos_overflow_spec c (Q : unit -> console -> Prop) : 0 <= row c -> 0 <= col c <= CONSOLE_WIDTH -> pos c <= CONSOLE_WIDTH * CONSOLE_HEIGHT ->
  (pos c < CONSOLE_WIDTH * CONSOLE_HEIGHT -> Q tt (at_cell (pos c) c)) ->
  (pos c = CONSOLE_WIDTH * CONSOLE_HEIGHT -> forall c', scrolled c c' -> Q tt (at_cell (CONSOLE_WIDTH * (CONSOLE_HEIGHT - 1)) c')) ->
  runs fix_pos_overflow c Q.
Proof.
  unfold pos, CONSOLE_WIDTH, CONSOLE_HEIGHT. intros Hr Hc Hp Hin Hout.
  assert (Hscroll : forall c1, pos c = 25 * 80 -> c1 = set_row 25 (set_col 0 c) -> runs (modify (fun c => set_vram (move_rows (vram c)) c);;
    forM 0 (Z.to_nat 80) (fun i => put_blank ((CONSOLE_HEIGHT - 1) * 80 + i));; modify (set_row (CONSOLE_HEIGHT - 1))) c1 Q).
  { intros c1 Hpos ->. apply (scroll_spec (set_row 25 (set_col 0 c))). intros c' [[E Hs] Hc'].
    replace (set_row (CONSOLE_HEIGHT - 1) c') with (at_cell (80 * (25 - 1)) (set_vram (vram c') c)) by (rewrite E; reflexivity). apply Hout; [unfold pos, CONSOLE_WIDTH in Hpos; lia|]. split; [split; [done|exact Hs]|exact Hc']. }
  unfold fix_pos_overflow. mstep. mstep. mstep. destruct (Z.eqb_spec (col c) CONSOLE_WIDTH) as [E|Hne]; unfold CONSOLE_WIDTH in *; mstep; mstep; mstep; cbn [row col set_row set_col].
  - rewrite uwrap_small by lia. destruct (Z.eqb_spec (row c + 1) CONSOLE_HEIGHT) as [E2|]; unfold CONSOLE_HEIGHT in *.
    + apply Hscroll; [unfold pos, CONSOLE_WIDTH; lia|]. by rewrite E2.
    + mstep. replace (set_row (row c + 1) (set_col 0 c)) with (at_cell (row c * 80 + col c) c); [apply Hin; lia|]. unfold at_cell, CONSOLE_WIDTH. rewrite E.
      replace (row c * 80 + 80) with ((row c + 1) * 80) by lia. by rewrite Z.div_mul, Z.mod_mul by lia.
  - destruct (Z.eqb_spec (row c) CONSOLE_HEIGHT) as [E2|]; unfold CONSOLE_HEIGHT in *.
    + apply Hscroll; [unfold pos, CONSOLE_WIDTH; lia|]. replace 0 with (col c) by lia. rewrite <- E2. by destruct c.
    + mstep. replace c with (at_cell (row c * 80 + col c) c) at 1; [apply Hin; lia|]. unfold at_cell, CONSOLE_WIDTH. rewrite Z.div_add_l, Z.div_small, Z.add_0_r by lia.
      rewrite Z.add_comm, Z.mod_add, Z.mod_small by lia. by destruct c.
Qed.

(** A printable character. *)
Definition printable (ch : Z) : bool := negb ((ch =? ASCII_BELL) || (ch =? ASCII_BACKSPACE) || (ch =? ASCII_TAB) || (ch =? 10) || (ch =? 13)).

(** The character goes into the cell under the cursor, which moves on. *)
Lemma process_printable ch c (Q : unit -> console -> Prop) : printable ch = true -> on_screen c ->
  (forall c', cell_set c c' (pos c) (ch, color c) -> pos c + 1 < CONSOLE_WIDTH * CONSOLE_HEIGHT -> Q tt (at_cell (pos c + 1) c')) ->
  (forall c1 c', cell_set c c1 (pos c) (ch, color c) -> scrolled c1 c' -> pos c + 1 = CONSOLE_WIDTH * CONSOLE_HEIGHT -> Q tt (at_cell (CONSOLE_WIDTH * (CONSOLE_HEIGHT - 1)) c')) ->
  runs (process_char inb ch) c Q.
Proof.
  intros Hch [Hr Hc _ _] Hin Hout. unfold printable in Hch. apply negb_true_iff in Hch. repeat apply orb_false_iff in Hch as [Hch ?]. unfold process_char. rewrite Hch.
  repeat match goal with H : (_ =? _) = false |- _ => rewrite H; clear H end. unfold CONSOLE_WIDTH, CONSOLE_HEIGHT in Hr, Hc. mstep. mstep. cbv zeta.
  assert (Ep : u32 (u32 (row c * CONSOLE_WIDTH) + col c) = pos c) by (unfold pos, CONSOLE_WIDTH; rewrite (uwrap_small 32 (row c * 80)), uwrap_small by lia; done). rewrite Ep. assert (Hp : 0 <= pos c < 2000) by (unfold pos, CONSOLE_WIDTH; lia).
  rewrite (uwrap_small 32 (pos c * 2)), (uwrap_small 32 (pos c * 2 + 1)) by lia.
  assert (Hassoc : forall f : unit -> M console unit, runs ((put_vram (pos c * 2) ch;; put_vram (pos c * 2 + 1) (color c)) ≫= f) c Q -> runs (put_vram (pos c * 2) ch;; (put_vram (pos c * 2 + 1) (color c)) ≫= f) c Q).
  { intros f H. apply runs_bind_inv in H. apply runs_bind_inv in H. mstep. eapply runs_mono; [exact H|]. intros [] s1 H1. cbn beta in H1. mstep. eapply runs_mono; [exact H1|]. by intros [] s2. }
  apply Hassoc. clear Hassoc. mstep. apply put_cell_spec; [unfold CONSOLE_WIDTH, CONSOLE_HEIGHT; lia|]. intros c1 H1. mstep. mstep. pose proof H1 as ([E _] & _ & _).
  assert (Er : row c1 = row c) by (by rewrite E). assert (Ec : col c1 = col c) by (by rewrite E). rewrite Ec, uwrap_small by lia.
  apply fix_pos_overflow_spec; cbn [row col set_col]; unfold pos; cbn [row col set_col]; rewrite ?Er; unfold pos, CONSOLE_WIDTH, CONSOLE_HEIGHT in *; try lia.
  - intros Hlt. replace (at_cell (row c * 80 + (col c + 1)) (set_col (col c + 1) c1)) with (at_cell (row c * 80 + col c + 1) c1); [apply Hin; [exact H1|lia]|]. rewrite Z.add_assoc. by destruct c1.
  - intros Heq c' [Hs Hc']. assert (Hs' : scrolled c1 (set_col (col c1) c')).
    { split; [|exact Hc']. destruct Hs as [Es Hs]. split; [rewrite Es at 1; by destruct c1|exact Hs]. }
    replace (at_cell (80 * (25 - 1)) c') with (at_cell (80 * (25 - 1)) (set_col (col c1) c')) by (by destruct c'). eapply Hout; [exact H1|exact Hs'|lia].
Qed.

(** ** The cursor stays on the screen *)

(** The parser is where it was, memory beyond the screen is as it was, the cursor is on the screen. *)
Record kept (c c' : console) : Prop := Kept {
  k_screen : on_screen c';
  k_state : t_state c' = t_state c /\ escseq_buff c' = escseq_buff c /\ escseq_buff_front c' = escseq_buff_front c;
  k_rest : port c' = port c /\ color c' = color c /\ lockup c' = lockup c /\ con_lock c' = con_lock c;
  k_beyond : forall i, i < 0 \/ 2 * (CONSOLE_WIDTH * CONSOLE_HEIGHT) <= i -> vram c' i = vram c i;
}.

Lemma kept_refl c : on_screen c -> kept c c.
Proof. by split. Qed.

Lemma kept_trans c1 c2 c3 : kept c1 c2 -> kept c2 c3 -> kept c1 c3.
Proof.
  intros [_ (A1 & A2 & A3) (B1 & B2 & B3 & B4) V] [S (A1' & A2' & A3') (B1' & B2' & B3' & B4') V']. split; [done|split_and!; congruence|split_and!; congruence|].
  intros i Hi. by rewrite V', V.
Qed.

Lemma kept_cells c c' p : on_screen c -> cells_only c c' -> 0 <= p < CONSOLE_WIDTH * CONSOLE_HEIGHT -> kept c (at_cell p c').
Proof.
  intros [Hr Hc Hf Hb] [E Hv] Hp. unfold CONSOLE_WIDTH, CONSOLE_HEIGHT in *. rewrite E. split; [split; cbn; unfold CONSOLE_WIDTH, CONSOLE_HEIGHT; try done|done|done|].
  - split; [apply Z.div_pos; lia|apply Z.div_lt_upper_bound; lia].
  - apply Z.mod_pos_bound. lia.
  - exact Hv.
Qed.

Lemma kept_cells_same c c' : on_screen c -> cells_only c c' -> kept c c'.
Proof. intros [Hr Hc Hf Hb] [E Hv]. rewrite E. by split. Qed.

Lemma kept_move c r k : on_screen c -> 0 <= r < CONSOLE_HEIGHT -> 0 <= k < CONSOLE_WIDTH -> kept c (set_col k (set_row r c)).
Proof. intros [Hr Hc Hf Hb] H1 H2. by split. Qed.

Lemma kept_refreshed c : on_screen c -> kept c (refreshed c).
Proof. intros [Hr Hc Hf Hb]. by split. Qed.

(** The cursor moved, then shown. *)
Lemma move_spec f r k c : on_screen c -> f c = set_col k (set_row r c) -> 0 <= r < CONSOLE_HEIGHT -> 0 <= k < CONSOLE_WIDTH -> runs (modify f;; do_refresh_cursor inb) c (fun _ c' => kept c c').
Proof.
  intros Hc Hf Hr Hk. mstep. mstep. rewrite Hf. apply do_refresh_cursor_spec. pose proof (kept_move c r k Hc Hr Hk) as Hm. eapply kept_trans; [exact Hm|]. apply kept_refreshed, Hm.
Qed.

Lemma cursor_up_safe n c : on_screen c -> 0 <= n -> runs (cursor_up inb n) c (fun _ c' => kept c c').
Proof. intros Hc Hn. pose proof Hc as [Hr Hk _ _]. unfold CONSOLE_WIDTH, CONSOLE_HEIGHT in *. apply (move_spec _ (row c - Z.min (row c) n) (col c)); [done| |unfold CONSOLE_HEIGHT; lia|done]. rewrite MIN_min, uwrap_small by lia. by destruct c. Qed.
Lemma cursor_back_safe n c : on_screen c -> 0 <= n -> runs (cursor_back inb n) c (fun _ c' => kept c c').
Proof. intros Hc Hn. pose proof Hc as [Hr Hk _ _]. unfold CONSOLE_WIDTH, CONSOLE_HEIGHT in *. apply (move_spec _ (row c) (col c - Z.min (col c) n)); [done| |done|unfold CONSOLE_WIDTH; lia]. rewrite MIN_min, uwrap_small by lia. by destruct c. Qed.
Lemma cursor_position_safe r k c : on_screen c -> 0 <= r -> 0 <= k -> runs (cursor_position inb r k) c (fun _ c' => kept c c').
Proof.
  intros Hc Hr Hk. unfold cursor_position. eapply move_spec; [done|reflexivity|rewrite MIN_min; unfold CONSOLE_HEIGHT; destruct (Z.gtb_spec r 0); lia|rewrite MIN_min; unfold CONSOLE_WIDTH; destruct (Z.gtb_spec k 0); lia].
Qed.

Lemma do_clear_safe c : on_screen c -> runs (do_clear inb) c (fun _ c' => kept c c').
Proof.
  intros Hc. unfold do_clear. do 3 mstep. pose proof (kept_move c 0 0 Hc ltac:(done) ltac:(done)) as H0. apply (forM_blank 0); [done|done|]. intros c1 [H1 _]. apply do_refresh_cursor_spec.
  assert (H2 : kept c c1) by (eapply kept_trans; [exact H0|apply kept_cells_same; [apply H0|exact H1]]). eapply kept_trans; [exact H2|]. apply kept_refreshed, H2.
Qed.

(** Blanks from a column to the end of the row, in either direction. *)
Lemma erase_row_spec r dir c k : dir = 1 \/ dir = -1 -> 0 <= r < CONSOLE_HEIGHT -> 0 <= k < CONSOLE_WIDTH -> runs (erase_row r dir k) c (fun _ c' => cells_only c c').
Proof.
  intros Hdir Hr Hk. unfold erase_row, CONSOLE_HEIGHT, CONSOLE_WIDTH in *. apply (runs_iterM (fun k c' => cells_only c c' /\ -1 <= k <= 80) (fun k _ => Z.to_nat (if decide (dir = 1) then 80 - k else k + 1))).
  - intros k1 c1 [H1 Hk1]. destruct (Z.geb_spec k1 0), (Z.ltb_spec k1 80); cbn [andb]; try (mstep; exact H1).
    mstep. apply put_blank_spec; [unfold CONSOLE_WIDTH, CONSOLE_HEIGHT; lia|]. intros c2 (H2 & _ & _). mstep. split; [split; [by eapply cells_only_trans|lia]|]. destruct Hdir as [-> | ->]; [rewrite !decide_True by done; lia|rewrite !decide_False by done; lia].
  - split; [apply cells_only_refl|lia].
  - destruct (decide _); lia.
Qed.

Lemma do_erase_safe b c : on_screen c -> runs (do_erase b) c (fun _ c' => kept c c').
Proof.
  intros Hc. pose proof Hc as [Hr Hk _ _]. unfold do_erase. set (dir := if b then 1 else -1). assert (Hdir : dir = 1 \/ dir = -1) by (unfold dir; destruct b; auto). unfold CONSOLE_HEIGHT, CONSOLE_WIDTH in *. mstep. mstep.
  rewrite !(swrap_small 32) by lia. eapply runs_mono; [apply (runs_iterM (fun '(r, k) c' => cells_only c c' /\ -1 <= r <= 25 /\ 0 <= k < 80) (fun '(r, _) _ => Z.to_nat (if decide (dir = 1) then 25 - r else r + 1)) _ (fun _ c' => cells_only c c'))|].
  - intros [r k] c1 (H1 & Hr1 & Hk1). destruct (Z.geb_spec r 0), (Z.ltb_spec r 25); cbn [andb]; try (mstep; exact H1).
    mstep. eapply runs_mono; [apply (erase_row_spec r dir c1 k Hdir); unfold CONSOLE_HEIGHT, CONSOLE_WIDTH; lia|]. intros [] c2 H2. mstep. split; [split; [by eapply cells_only_trans|]|].
    + destruct Hdir as [-> | ->]; cbn; lia.
    + destruct Hdir as [-> | ->]; [rewrite !decide_True by done; lia|rewrite !decide_False by done; lia].
  - split; [apply cells_only_refl|lia].
  - destruct (decide _); lia.
  - intros [] c' H. by apply kept_cells_same.
Qed.

(** A new line, or a character, or a tab at the margin. *)
Lemma fix_safe c0 c : on_screen c0 -> kept c0 (at_cell 0 c) -> 0 <= row c -> 0 <= col c <= CONSOLE_WIDTH -> pos c <= CONSOLE_WIDTH * CONSOLE_HEIGHT -> runs fix_pos_overflow c (fun _ c' => kept c0 c').
Proof.
  intros H0 Hk Hr Hc Hp. assert (Hon : forall p, 0 <= p < CONSOLE_WIDTH * CONSOLE_HEIGHT -> kept c0 (at_cell p c)).
  { intros p Hp'. replace (at_cell p c) with (at_cell p (at_cell 0 c)) by done. eapply kept_trans; [exact Hk|]. apply kept_cells; [apply Hk|apply cells_only_refl|done]. }
  apply fix_pos_overflow_spec; [done|done|done| |].
  - intros Hlt. apply Hon. unfold pos, CONSOLE_WIDTH in *. lia.
  - intros _ c' [[E Hv] _]. replace (at_cell _ c') with (at_cell (CONSOLE_WIDTH * (CONSOLE_HEIGHT - 1)) (set_vram (vram c') (at_cell 0 c))) by (rewrite E; done).
    eapply kept_trans; [exact Hk|]. apply kept_cells; [apply Hk| |done]. split; [done|exact Hv].
Qed.

Lemma kept_at_0 c : on_screen c -> kept c (at_cell 0 c).
Proof. intros Hc. apply kept_cells; [done|apply cells_only_refl|done]. Qed.

Lemma process_char_safe ch c : on_screen c -> runs (process_char inb ch) c (fun _ c' => kept c c').
Proof.
  intros Hc. pose proof Hc as [Hr Hk Hf Hb]. unfold CONSOLE_WIDTH, CONSOLE_HEIGHT in Hr, Hk. destruct (printable ch) eqn:Hp.
  - apply process_printable; [done|done| |].
    + intros c1 H1 Hlt. apply kept_cells; [done|apply H1|unfold pos, CONSOLE_WIDTH, CONSOLE_HEIGHT in *; lia].
    + intros c1 c2 H1 H2 _. apply kept_cells; [done|eapply cells_only_trans; [apply H1|apply H2]|done].
  - unfold process_char. destruct (ch =? ASCII_BELL) eqn:Ebell; [unfold emit_event; mstep; by split|]. destruct (ch =? ASCII_BACKSPACE) eqn:Eback; [by apply cursor_back_safe|]. destruct (ch =? ASCII_TAB) eqn:Etab.
    + do 4 mstep. cbn [col set_col]. rewrite uwrap_small by lia. destruct (Z.eqb_spec (col c + 1) CONSOLE_WIDTH) as [E|Hne]; unfold CONSOLE_WIDTH in *.
      * apply (fix_safe c); [done|exact (kept_at_0 c Hc)|cbn; lia|cbn; unfold CONSOLE_WIDTH; lia|unfold pos, CONSOLE_WIDTH, CONSOLE_HEIGHT; cbn; lia].
      * assert (Hm : kept c (set_col (col c + 1) c)) by (apply (kept_move c (row c) (col c + 1)) in Hc as H; [by destruct c|done|unfold CONSOLE_WIDTH; lia]).
        revert Hm. generalize (set_col (col c + 1) c) as c1. intros c1 H1. apply (runs_iterM (fun _ c2 => kept c c2) (fun _ c2 => Z.to_nat (if decide (col c2 mod 8 = 0) then 0 else 8 - col c2 mod 8))); [|done|].
        -- intros [] c2 H2. pose proof H2 as [[Hr2 Hk2 _ _] _ _ _]. unfold tab_round, CONSOLE_WIDTH, TABSTOP_WIDTH in *. mstep. mstep. destruct (Z.eqb_spec (col c2 mod 8) 0) as [E|Hne2]; cbn [negb andb]; [by mstep|].
           destruct (Z.ltb_spec (col c2) (80 - 1)); [|by mstep]. do 3 mstep. rewrite uwrap_small by lia. split.
           ++ eapply kept_trans; [exact H2|]. apply (kept_move c2 (row c2) (col c2 + 1)) in Hr2 as H'; [by destruct c2|apply H2|unfold CONSOLE_WIDTH; lia].
           ++ cbn [col set_col]. pose proof (Z.mod_pos_bound (col c2) 8). pose proof (Z.mod_pos_bound (col c2 + 1) 8). pose proof (Z.div_mod (col c2) 8). pose proof (Z.div_mod (col c2 + 1) 8).
              rewrite (decide_False (P := col c2 mod 8 = 0)) by done. destruct (decide ((col c2 + 1) mod 8 = 0)); lia.
        -- pose proof (Z.mod_pos_bound (col c1) 8). destruct (decide _); lia.
    + destruct (ch =? 10) eqn:E10.
      * do 2 mstep. rewrite uwrap_small by (cbn; lia). apply (fix_safe c); [done|exact (kept_at_0 c Hc)|cbn; lia|cbn; unfold CONSOLE_WIDTH; lia|unfold pos, CONSOLE_WIDTH, CONSOLE_HEIGHT; cbn; lia].
      * destruct (ch =? 13) eqn:E13; [mstep; apply (kept_move c (row c) 0) in Hc as H; [by destruct c|done|done]|]. exfalso. unfold printable in Hp. by rewrite Ebell, Eback, Etab, E10, E13 in Hp.
Qed.

(** ** Escape sequences *)

(** The sequence read so far has no terminating character; outside a sequence nothing is kept. *)
Record parsing (c : console) : Prop := Parsing {
  p_screen : on_screen c;
  p_room : escseq_buff_front c < ESCSEQ_BUFF_SIZE;
  p_front : t_state c <> TERM_ESCSEQ -> escseq_buff_front c = 0;
  p_buff : forall buff i, escseq_buff c = Some buff -> 0 <= i < escseq_buff_front c -> is_terminating_char (buff i) = false;
}.

Lemma args_spec buff max c : 0 <= max <= ESCSEQ_BUFF_SIZE -> runs (iterM 129 (args_round buff max) (0, -1, false, -1, -1)) c (fun r c' => c' = c /\ (r.2 = 0 \/ exists i, 0 <= i < max /\ buff i = r.2)).
Proof.
  intros Hm. unfold ESCSEQ_BUFF_SIZE in Hm. apply (runs_iterM (fun '(off, _, _, _, _) c' => c' = c /\ 0 <= off <= max) (fun '(off, _, _, _, _) _ => Z.to_nat (max - off))); [|split; [done|lia]|lia].
  intros [[[[off tmp] second] n] m] c' [-> Hoff]. unfold args_round. destruct (Z.ltb_spec off max); [|mstep; split; [done|by left]]. destruct (isdigit (buff off)); [mstep; split; [split; [done|lia]|lia]|].
  destruct (if negb (tmp =? -1) then _ else (n, m)) as [n' m']. destruct (_ && _); mstep; [split; [split; [done|lia]|lia]|]. split; [done|]. right. exists off. split; [lia|done].
Qed.

Lemma execute_safe cmd n m c : on_screen c -> cmd <> 66 -> cmd <> 67 -> runs (execute_escseq inb cmd n m) c (fun _ c' => kept c c').
Proof.
  intros Hc Hn1 Hn2. assert (Hu : forall x, 0 <= u32 x) by (intros x; apply (uwrap_range 32); lia). unfold execute_escseq. destruct (cmd =? 0); [mstep; by apply kept_refl|].
  destruct (cmd =? 65); [apply cursor_up_safe; [done|destruct (n =? -1); [lia|done]]|]. rewrite (proj2 (Z.eqb_neq cmd 66)), (proj2 (Z.eqb_neq cmd 67)) by done.
  destruct (cmd =? 68); [apply cursor_back_safe; [done|destruct (n =? -1); [lia|done]]|]. destruct (cmd =? 72); [apply cursor_position_safe; [done|destruct (n =? -1); [lia|done]|destruct (m =? -1); [lia|done]]|].
  destruct (cmd =? 74); [|mstep; by apply kept_refl]. destruct (_ =? 1); [by apply do_erase_safe|]. destruct (_ =? 2); [by apply do_clear_safe|by apply do_erase_safe].
Qed.

(** No [Cursor Down] or [Cursor Forward] is executed, [n] characters of a sequence having been read. *)
Fixpoint tame (st : term_state) (n : Z) (l : list Z) : bool :=
  match l with
  | [] => true
  | c :: l' =>
      match st with
      | TERM_NORMAL => if c =? CSI_SINGLE then tame TERM_ESCSEQ 0 l' else if c =? CSI_DOUBLE_PARTA then tame TERM_EXPECT_CSI_PARTB 0 l' else tame TERM_NORMAL 0 l'
      | TERM_EXPECT_CSI_PARTB => if c =? CSI_DOUBLE_PARTB then tame TERM_ESCSEQ 0 l' else tame TERM_NORMAL 0 l'
      | TERM_ESCSEQ =>
          if is_terminating_char c then negb ((c =? 66) || (c =? 67)) && tame TERM_NORMAL 0 l'
          else if n + 1 =? ESCSEQ_BUFF_SIZE then tame TERM_NORMAL 0 l' else tame TERM_ESCSEQ (n + 1) l'
      end
  end.

(** What a whole write keeps. *)
Definition fits (c c' : console) : Prop :=
  parsing c' /\ (port c' = port c /\ color c' = color c /\ lockup c' = lockup c /\ con_lock c' = con_lock c) /\
  forall i, i < 0 \/ 2 * (CONSOLE_WIDTH * CONSOLE_HEIGHT) <= i -> vram c' i = vram c i.

Lemma fits_kept c c' : parsing c -> kept c c' -> fits c c'.
Proof. intros [Hc Hl Hf Hb] [Hs (E1 & E2 & E3) Hr Hv]. split; [|done]. split; [done|by rewrite E3|by rewrite E1, E3|]. intros buff i. rewrite E2, E3. apply Hb. Qed.

Lemma kept_fits_trans c1 c2 c3 : fits c1 c2 -> fits c2 c3 -> fits c1 c3.
Proof. intros (_ & (A1 & A2 & A3 & A4) & V) (P & (B1 & B2 & B3 & B4) & V'). split; [done|]. split; [split_and!; congruence|]. intros i Hi. by rewrite V', V. Qed.

Lemma fits_state st c : parsing c -> escseq_buff_front c = 0 -> fits c (set_t_state st c).
Proof. intros [[Hr Hc Hf Hb] Hl Hfr Hbf] H0. split; [|done]. split; [by split|done|done|]. intros buff i Hbu Hi. cbn in Hi. lia. Qed.

Lemma put_escseq_safe ch c : parsing c -> t_state c = TERM_ESCSEQ -> (is_terminating_char ch = true -> ch <> 66 /\ ch <> 67) ->
  runs (put_escseq_buff inb ch) c (fun _ c' => fits c c' /\
    if is_terminating_char ch || (escseq_buff_front c + 1 =? ESCSEQ_BUFF_SIZE) then t_state c' = TERM_NORMAL /\ escseq_buff_front c' = 0
    else t_state c' = TERM_ESCSEQ /\ escseq_buff_front c' = escseq_buff_front c + 1).
Proof.
  intros [Hc Hl _ Hb] Hst Hch. pose proof Hc as [Hr Hk Hf [buff Hbuff]]. unfold put_escseq_buff. mstep. mstep. rewrite Hbuff. rewrite (proj2 (Z.ltb_lt _ _)) by lia. mstep. mstep. mstep.
  set (n := escseq_buff_front c) in *. set (buff' := <[n := ch]> buff). set (c1 := set_escseq_buff_front _ _). unfold ESCSEQ_BUFF_SIZE in *.
  assert (H1 : on_screen c1) by (split; cbn; [done|done|unfold ESCSEQ_BUFF_SIZE; lia|by eexists]).
  assert (Hexec : runs (if is_terminating_char ch then interpret_escseq inb else mret tt) c1 (fun _ c2 => kept c1 c2)).
  { destruct (is_terminating_char ch) eqn:Et; [|mstep; by apply kept_refl]. unfold interpret_escseq, read_escseq_args. do 3 mstep. mstep. eapply runs_read; [reflexivity|].
    eapply runs_mono; [apply args_spec; cbn; unfold ESCSEQ_BUFF_SIZE; lia|]. intros [[a b] cmd] c2 [-> Hcmd]. cbn [snd] in Hcmd.
    assert (Hne : cmd <> 66 /\ cmd <> 67).
    { destruct Hcmd as [->|(i & Hi & <-)]; [done|]. unfold buff'. cbn in Hi. destruct (decide (i = n)) as [->|Hin]; [rewrite fn_insert_eq; by apply Hch|]. rewrite fn_insert_ne by done.
      specialize (Hb buff i Hbuff ltac:(lia)). split; intros E; rewrite E in Hb; discriminate. }
    apply execute_safe; [done|apply Hne|apply Hne]. }
  eapply runs_mono; [exact Hexec|]. intros [] c2 [[Hr2 Hk2 Hf2 Hb2] (E1 & E2 & E3) Hrest Hv]. mstep. mstep. change (t_state c1) with (t_state c) in E1. change (escseq_buff_front c1) with (n + 1) in E3. rewrite E3.
  change (escseq_buff c1) with (Some buff') in E2. unfold ESCSEQ_BUFF_SIZE in *.
  destruct (is_terminating_char ch || (n + 1 =? 128)) eqn:Eend.
  - mstep. split; [|done]. split; [|split; [exact Hrest|exact Hv]]. split; [split; try done|done|done|]. intros b i _ Hi. cbn in Hi. lia.
  - apply orb_false_iff in Eend as [Et En]. apply Z.eqb_neq in En. mstep. split; [|by rewrite E1, E3]. split; [|split; [exact Hrest|exact Hv]].
    split; [split; try done|unfold ESCSEQ_BUFF_SIZE; lia|by rewrite E1, Hst|]. intros b i Hbb Hi. rewrite E2 in Hbb. injection Hbb as <-. rewrite E3 in Hi. unfold buff'.
    destruct (decide (i = n)) as [->|Hin]; [by rewrite fn_insert_eq|]. rewrite fn_insert_ne by done. apply (Hb buff i Hbuff). lia.
Qed.

Lemma vram_handle_safe ch c : parsing c -> (t_state c = TERM_ESCSEQ -> is_terminating_char ch = true -> ch <> 66 /\ ch <> 67) ->
  runs (vram_handle inb ch) c (fun _ c' => fits c c' /\ forall l, tame (t_state c) (escseq_buff_front c) (ch :: l) = true -> tame (t_state c') (escseq_buff_front c') l = true).
Proof.
  intros Hp Hch. pose proof Hp as [Hc Hl Hf Hb]. unfold vram_handle. mstep. mstep. cbn [tame]. destruct (t_state c) eqn:Est.
  - destruct (ch =? CSI_SINGLE); [mstep; split; [apply fits_state; [done|by apply Hf]|]; cbn; by rewrite (Hf ltac:(done))|].
    destruct (ch =? CSI_DOUBLE_PARTA); [mstep; split; [apply fits_state; [done|by apply Hf]|]; cbn; by rewrite (Hf ltac:(done))|].
    eapply runs_mono; [by apply process_char_safe|]. intros [] c' Hk. split; [by apply fits_kept|]. pose proof (k_state _ _ Hk) as (E1 & _ & E3). intros l. by rewrite E1, E3, Est, (Hf ltac:(done)).
  - eapply runs_mono; [by apply put_escseq_safe; [| |apply Hch]|]. intros [] c' [H1 H2]. split; [done|]. intros l. destruct (is_terminating_char ch); cbn [orb] in H2.
    + destruct H2 as [-> ->]. by intros [_ H]%andb_true_iff.
    + destruct (_ =? _); by destruct H2 as [-> ->].
  - destruct (ch =? CSI_DOUBLE_PARTB); [mstep; split; [apply fits_state; [done|by apply Hf]|]; cbn; by rewrite (Hf ltac:(done))|].
    do 2 mstep. pose proof (fits_state TERM_NORMAL c Hp (Hf ltac:(done))) as H0. mstep. eapply runs_mono; [apply process_char_safe, H0|]. intros [] c1 K1.
    eapply runs_mono; [apply process_char_safe, K1|]. intros [] c2 K2. pose proof (kept_trans _ _ _ K1 K2) as K. split; [eapply kept_fits_trans; [exact H0|]; apply fits_kept; [apply H0|exact K]|].
    pose proof (k_state _ _ K) as (E1 & _ & E3). intros l. rewrite E1, E3. cbn. by rewrite (Hf ltac:(done)).
Qed.

Lemma handle_all_safe l : forall c, parsing c -> tame (t_state c) (escseq_buff_front c) l = true -> runs (handle_all inb l) c (fun _ c' => fits c c').
Proof.
  induction l as [|ch l IH]; intros c Hp Ht; cbn [handle_all]; [mstep; by split|]. mstep. eapply runs_mono; [apply vram_handle_safe; [done|]|].
  - intros Est Hterm. cbn [tame] in Ht. rewrite Est, Hterm in Ht. apply andb_true_iff in Ht as [Hn _]. apply negb_true_iff, orb_false_iff in Hn as [H1 H2]. split; by apply Z.eqb_neq.
  - intros [] c1 [H1 H2]. eapply runs_mono; [apply IH; [apply H1|by apply H2]|]. intros [] c2 H3. by eapply kept_fits_trans.
Qed.

(** ** Plain text *)

(** How many rows have gone off the top when [total] cells have been filled. *)
Definition rolled (total : Z) : Z := if total <? CONSOLE_WIDTH * CONSOLE_HEIGHT then 0 else (total - CONSOLE_WIDTH * CONSOLE_HEIGHT) / CONSOLE_WIDTH + 1.

(** The endless tape of cells that the screen is a window on: what stood before the cursor, then the text. *)
Definition tape (c : console) (cs : list Z) (i : Z) : Z * Z := if i <? pos c then cell c i else (nth (Z.to_nat (i - pos c)) cs 0, color c).

(** [c'] shows [c] with the text [cs] behind the cursor. *)
Definition shows (c : console) (cs : list Z) (c' : console) : Prop :=
  let total := pos c + Z.of_nat (length cs) in let k := rolled total in let p := total - CONSOLE_WIDTH * k in
  c' = at_cell p (set_vram (vram c') c) /\
  (forall i, i < 0 \/ 2 * (CONSOLE_WIDTH * CONSOLE_HEIGHT) <= i -> vram c' i = vram c i) /\
  forall j, 0 <= j < CONSOLE_WIDTH * CONSOLE_HEIGHT ->
    cell c' j = if j <? p then tape c cs (j + CONSOLE_WIDTH * k) else if k =? 0 then cell c j else blank c.

Definition plain (ch : Z) : bool := printable ch && negb (ch =? CSI_SINGLE) && negb (ch =? CSI_DOUBLE_PARTA).

Lemma rolled_range total : 0 <= total -> 0 <= rolled total /\ 0 <= total - CONSOLE_WIDTH * rolled total < CONSOLE_WIDTH * CONSOLE_HEIGHT /\
  (rolled total <> 0 -> CONSOLE_WIDTH * (CONSOLE_HEIGHT - 1) <= total - CONSOLE_WIDTH * rolled total).
Proof.
  intros Ht. unfold rolled, CONSOLE_WIDTH, CONSOLE_HEIGHT. destruct (Z.ltb_spec total (80 * 25)); [lia|].
  pose proof (Z.div_mod (total - 80 * 25) 80). pose proof (Z.mod_pos_bound (total - 80 * 25) 80). pose proof (Z.div_pos (total - 80 * 25) 80). lia.
Qed.

Lemma rolled_step total : 0 <= total -> rolled (total + 1) = if total + 1 - CONSOLE_WIDTH * rolled total <? CONSOLE_WIDTH * CONSOLE_HEIGHT then rolled total else rolled total + 1.
Proof.
  intros Ht. pose proof (rolled_range total Ht) as (H1 & H2 & H3). unfold rolled, CONSOLE_WIDTH, CONSOLE_HEIGHT in *. destruct (Z.ltb_spec total (80 * 25)).
  - destruct (Z.ltb_spec (total + 1) (80 * 25)); [rewrite (proj2 (Z.ltb_lt _ _)) by lia; done|]. rewrite (proj2 (Z.ltb_ge _ _)) by lia. replace (total + 1 - 80 * 25) with 0 by lia. done.
  - destruct (Z.ltb_spec (total + 1) (80 * 25)); [lia|]. set (q := (total - 80 * 25) / 80) in *.
    destruct (Z.ltb_spec (total + 1 - 80 * (q + 1)) (80 * 25)).
    + f_equal. symmetry. apply (Z.div_unique _ _ _ (total + 1 - 80 * 25 - 80 * q)); lia.
    + f_equal. symmetry. apply (Z.div_unique _ _ _ (total + 1 - 80 * 25 - 80 * (q + 1))); lia.
Qed.

Lemma pos_at_cell p c : 0 <= p -> pos (at_cell p c) = p.
Proof. intros Hp. unfold pos. cbn. pose proof (Z.div_mod p CONSOLE_WIDTH). unfold CONSOLE_WIDTH in *. lia. Qed.

Lemma shows_nil c : on_screen c -> shows c [] c.
Proof.
  intros [Hr Hc _ _]. assert (Hp : 0 <= pos c < 2000) by (unfold pos, CONSOLE_WIDTH, CONSOLE_HEIGHT in *; lia). unfold shows. cbv zeta. cbn [length Z.of_nat]. rewrite Z.add_0_r.
  assert (E : rolled (pos c) = 0) by (unfold rolled, CONSOLE_WIDTH, CONSOLE_HEIGHT; rewrite (proj2 (Z.ltb_lt _ _)) by lia; done). rewrite E, Z.mul_0_r, Z.sub_0_r. split; [|split; [done|]].
  - unfold at_cell, pos, CONSOLE_WIDTH in *. rewrite Z.div_add_l, Z.div_small, Z.add_0_r by lia. rewrite Z.add_comm, Z.mod_add, Z.mod_small by lia. by destruct c.
  - intros j Hj. rewrite Z.add_0_r. unfold tape. destruct (j <? pos c); done.
Qed.

Lemma tape_snoc c cs ch i : i <> pos c + Z.of_nat (length cs) -> tape c (cs ++ [ch]) i = tape c cs i \/ pos c + Z.of_nat (length cs) < i.
Proof.
  intros Hi. unfold tape. destruct (Z.ltb_spec i (pos c)); [by left|]. destruct (decide (pos c + Z.of_nat (length cs) < i)); [by right|]. left. by rewrite app_nth1 by lia.
Qed.
Lemma tape_last c cs ch : tape c (cs ++ [ch]) (pos c + Z.of_nat (length cs)) = (ch, color c).
Proof. unfold tape. rewrite (proj2 (Z.ltb_ge _ _)) by lia. replace (Z.to_nat _) with (length cs) by lia. by rewrite nth_middle. Qed.

Lemma shows_screen c cs c' : on_screen c -> shows c cs c' -> on_screen c'.
Proof.
  intros Hc (E & _ & _). pose proof Hc as [Hr Hk Hf Hb]. assert (Hp : 0 <= pos c) by (unfold pos, CONSOLE_WIDTH, CONSOLE_HEIGHT in *; lia).
  destruct (rolled_range (pos c + Z.of_nat (length cs)) ltac:(lia)) as (_ & H2 & _). rewrite E. split; cbn; try done; unfold CONSOLE_WIDTH, CONSOLE_HEIGHT in *.
  - split; [apply Z.div_pos; lia|apply Z.div_lt_upper_bound; lia].
  - apply Z.mod_pos_bound. lia.
Qed.

Lemma shows_step c cs c1 ch : on_screen c -> shows c cs c1 -> printable ch = true -> runs (process_char inb ch) c1 (fun _ c' => shows c (cs ++ [ch]) c').
Proof.
  intros Hc H1 Hch. pose proof (shows_screen _ _ _ Hc H1) as Hc1. pose proof Hc as [Hr Hk _ _]. assert (Hp0 : 0 <= pos c) by (unfold pos, CONSOLE_WIDTH, CONSOLE_HEIGHT in *; lia).
  destruct H1 as (E & Hv & Hcells). set (total := pos c + Z.of_nat (length cs)) in *. pose proof (rolled_range total ltac:(lia)) as (R1 & R2 & R3). pose proof (rolled_step total ltac:(lia)) as Rs.
  set (k := rolled total) in *. set (p := total - CONSOLE_WIDTH * k) in *. assert (Hpos : pos c1 = p) by (rewrite E; apply pos_at_cell; lia). assert (Ecol : color c1 = color c) by (by rewrite E).
  assert (Etot : pos c + Z.of_nat (length (cs ++ [ch])) = total + 1) by (rewrite length_app; cbn; lia).
  apply process_printable; [done|done| |]; rewrite Hpos, Ecol.
  - intros c' ([Ec Ho] & Hset & Hoth) Hlt. rewrite (proj2 (Z.ltb_lt _ _)) in Rs by (unfold p in Hlt; lia). unfold shows. cbv zeta. rewrite Etot, Rs. fold k. replace (total + 1 - CONSOLE_WIDTH * k) with (p + 1) by (unfold p; lia). split; [|split].
    + cbn [vram at_cell set_row set_col]. rewrite Ec, E. by destruct c.
    + intros i Hi. cbn. rewrite Ho, Hv by done. done.
    + intros j Hj. change (cell (at_cell (p + 1) c') j) with (cell c' j). destruct (decide (j = p)) as [->|Hj'].
      * rewrite Hset, (proj2 (Z.ltb_lt _ _)) by lia. replace (p + CONSOLE_WIDTH * k) with total by (unfold p; lia). unfold total. by rewrite tape_last.
      * rewrite Hoth, Hcells by done. destruct (Z.ltb_spec j p), (Z.ltb_spec j (p + 1)); try lia; [|done].
        destruct (tape_snoc c cs ch (j + CONSOLE_WIDTH * k)) as [-> |]; [unfold p, total in *; lia|done|unfold p, total in *; lia].
  - intros c2 c' ([Ec Ho] & Hset & Hoth) ([Ec' Ho'] & Hs) Heq. rewrite (proj2 (Z.ltb_ge _ _)) in Rs by (unfold p in Heq; lia). unfold shows. cbv zeta. rewrite Etot, Rs. fold k.
    replace (total + 1 - CONSOLE_WIDTH * (k + 1)) with (CONSOLE_WIDTH * (CONSOLE_HEIGHT - 1)) by (unfold p, CONSOLE_WIDTH, CONSOLE_HEIGHT in *; lia). rewrite (proj2 (Z.eqb_neq (k + 1) 0)) by lia. split; [|split].
    + cbn [vram at_cell set_row set_col]. rewrite Ec', Ec, E. by destruct c.
    + intros i Hi. cbn. rewrite Ho', Ho, Hv by done. done.
    + intros j Hj. change (cell (at_cell _ c') j) with (cell c' j). rewrite Hs by done. assert (Eb : blank c2 = blank c) by (unfold blank; rewrite Ec; cbn; by rewrite Ecol).
      destruct (decide _) as [Hlt|Hge]; [rewrite (proj2 (Z.ltb_lt _ _)) by lia|rewrite (proj2 (Z.ltb_ge _ _)) by lia; done].
      replace (j + CONSOLE_WIDTH * (k + 1)) with (j + CONSOLE_WIDTH + CONSOLE_WIDTH * k) by lia. unfold CONSOLE_WIDTH, CONSOLE_HEIGHT in *. destruct (decide (j + 80 = p)) as [Ej|Hj'].
      * rewrite Ej, Hset. replace (p + 80 * k) with total by (unfold p; lia). unfold total. by rewrite tape_last.
      * rewrite Hoth, Hcells, (proj2 (Z.ltb_lt _ _)) by lia. destruct (tape_snoc c cs ch (j + 80 + 80 * k)) as [-> |]; [unfold p, total in *; lia|done|unfold p, total in *; lia].
Qed.

Lemma handle_all_app l1 l2 c (Q : unit -> console -> Prop) : runs (handle_all inb l1) c (fun _ c1 => runs (handle_all inb l2) c1 Q) -> runs (handle_all inb (l1 ++ l2)) c Q.
Proof.
  revert c. induction l1 as [|ch l1 IH]; intros c H; cbn [app handle_all] in *; [exact H|]. mstep. apply runs_bind_inv in H. eapply runs_mono; [exact H|]. intros [] c1 H1. by apply IH.
Qed.

Lemma handle_all_plain cs : forall c, on_screen c -> t_state c = TERM_NORMAL -> forallb plain cs = true -> runs (handle_all inb cs) c (fun _ c' => shows c cs c').
Proof.
  induction cs as [|ch cs IH] using rev_ind; intros c Hc Hst Hpl; [cbn [handle_all]; mstep; by apply shows_nil|]. rewrite forallb_app in Hpl. apply andb_true_iff in Hpl as [Hpl Hch]. cbn in Hch. rewrite andb_true_r in Hch.
  apply handle_all_app. eapply runs_mono; [by apply IH|]. intros [] c1 H1. cbn [handle_all]. mstep. unfold vram_handle. mstep. mstep.
  unfold plain in Hch. apply andb_true_iff in Hch as [[Hpr N1%negb_true_iff]%andb_true_iff N2%negb_true_iff]. assert (Est : t_state c1 = TERM_NORMAL) by (destruct H1 as (E & _); rewrite E; exact Hst). rewrite Est, N1, N2.
  eapply runs_mono; [by eapply shows_step|]. intros [] c2 H2. by mstep.
Qed.

(** ** Off the screen *)

Lemma escseq_more ch buff n c (Q : unit -> console -> Prop) : t_state c = TERM_ESCSEQ -> escseq_buff c = Some buff -> escseq_buff_front c = n -> 0 <= n < 127 -> is_terminating_char ch = false ->
  Q tt (set_escseq_buff_front (n + 1) (set_escseq_buff (Some (<[n := ch]> buff)) c)) -> runs (vram_handle inb ch) c Q.
Proof.
  intros Hst Hb Hn Hr Ht HQ. unfold vram_handle. mstep. mstep. rewrite Hst. unfold put_escseq_buff. mstep. mstep. rewrite Hb, Hn, (proj2 (Z.ltb_lt n ESCSEQ_BUFF_SIZE)) by (unfold ESCSEQ_BUFF_SIZE; lia). do 3 mstep. rewrite Hn, Ht. cbn match. do 3 mstep.
  cbn [escseq_buff_front set_escseq_buff_front set_escseq_buff orb]. rewrite (proj2 (Z.eqb_neq (n + 1) ESCSEQ_BUFF_SIZE)) by (unfold ESCSEQ_BUFF_SIZE; lia). by mstep.
Qed.

(** [ESC [ 9 9 B]: the cursor goes down 99 rows. *)
Lemma down_99 c : parsing c -> t_state c = TERM_NORMAL -> runs (handle_all inb [27; 91; 57; 57; 66]) c (fun _ c' => row c' = row c + 99 /\ col c' = col c /\ t_state c' = TERM_NORMAL).
Proof.
  intros [[Hr Hk _ [buff Hb]] _ Hf _] Hst. rewrite Hst in Hf. specialize (Hf ltac:(done)). unfold CONSOLE_WIDTH, CONSOLE_HEIGHT in *. cbn [handle_all].
  mstep. unfold vram_handle at 1. mstep. mstep. rewrite Hst. change (27 =? CSI_SINGLE) with false. change (27 =? CSI_DOUBLE_PARTA) with true. cbn match. mstep.
  mstep. unfold vram_handle at 1. mstep. mstep. cbn [t_state set_t_state]. change (91 =? CSI_DOUBLE_PARTB) with true. cbn match. mstep.
  mstep. eapply (escseq_more 57 buff 0); [done|done|done|lia|done|]. mstep. eapply (escseq_more 57 _ 1); [done|done|done|lia|done|].
  mstep. unfold vram_handle at 1. mstep. mstep. cbn [t_state set_t_state set_escseq_buff set_escseq_buff_front]. unfold put_escseq_buff. mstep. mstep. cbn [escseq_buff set_escseq_buff set_escseq_buff_front escseq_buff_front set_t_state].
  change (1 + 1 <? ESCSEQ_BUFF_SIZE) with true. cbn match. do 3 mstep. change (is_terminating_char 66) with true. cbn match. unfold interpret_escseq at 1, read_escseq_args. do 4 mstep. eapply runs_read; [reflexivity|].
  cbn [escseq_buff_front set_escseq_buff_front set_escseq_buff]. change (1 + 1 + 1) with 3.
  match goal with |- runs (iterM 129 ?body ?v) ?s ?Q => assert (Ha : iterM 129 body v s = Done ((99, -1, 66), s)) end.
  { reflexivity. }
  unfold runs at 1. rewrite Ha. cbn beta iota. change (execute_escseq inb 66 99 (-1)) with (cursor_down inb 99). unfold cursor_down. do 2 mstep. apply do_refresh_cursor_spec.
  mstep. mstep. cbn [orb]. do 2 mstep. split; [|done]. cbn [row set_t_state set_escseq_buff_front refreshed set_trace set_row set_escseq_buff].
  unfold CONSOLE_HEIGHT. rewrite MAX_max, (uwrap_small 32 (25 - row c)), uwrap_small by lia. lia.
Qed.

Lemma handle_far ch c : printable ch = true -> ch <> CSI_SINGLE -> ch <> CSI_DOUBLE_PARTA -> t_state c = TERM_NORMAL -> 26 <= row c < 2 ^ 20 -> 0 <= col c < CONSOLE_WIDTH -> vram_handle inb ch c = Fault.
Proof.
  intros Hp N1 N2 Hst Hr Hk. unfold vram_handle. apply runs_then. mstep. rewrite Hst, (proj2 (Z.eqb_neq ch CSI_SINGLE)), (proj2 (Z.eqb_neq ch CSI_DOUBLE_PARTA)) by done. unfold vram_putc, process_char.
  unfold printable in Hp. apply negb_true_iff in Hp. repeat apply orb_false_iff in Hp as [Hp ?]. rewrite Hp. repeat match goal with H : (_ =? _) = false |- _ => rewrite H; clear H end.
  apply runs_then. mstep. cbv zeta. apply faults_bind_l. unfold put_vram, CONSOLE_WIDTH, VRAM_SIZE in *. rewrite (uwrap_small 32 (row c * 80)), (uwrap_small 32 (row c * 80 + col c)), (uwrap_small 32 _) by lia. rewrite (proj2 (Z.ltb_ge _ 4096)) by lia. by rewrite andb_false_r.
Qed.
End Screen.

(** ** Theorems *)

Lemma shows_lock c cs c' b : shows (set_con_lock b c) cs c' -> shows c cs (set_con_lock (con_lock c) c').
Proof. intros (E & Hv & Hc). split; [|by split]. rewrite E. by destruct c. Qed.

(** C34: plain text.  Writing characters other than controls and escapes shows them in reading order from the cursor: the screen is a window of 25 rows
    of 80 on an endless tape that holds what stood before the cursor and then the text in the current color; when the text reaches the
    end the window moves on by whole rows, with blanks behind the text.  Nothing outside the visible cells is written, the
    cursor stands behind the text and the display controller is told so. *)
Theorem console_shows_text inb c cs : on_screen c -> t_state c = TERM_NORMAL -> con_lock c = false -> forallb plain cs = true ->
  runs (vram_write inb cs) c (fun _ c' => exists c1, shows c cs c1 /\ c' = refreshed inb c1).
Proof.
  intros [Hr Hk Hf Hb] Hst Hl Hp. unfold vram_write. mstep. apply runs_locked; [by rewrite Hl|]. eapply runs_mono; [apply handle_all_plain; [by split|done|done]|].
  intros [] c1 H1. apply shows_lock in H1. rewrite Hl in H1. apply do_refresh_cursor_spec. by eexists.
Qed.

(** C35: the cursor stays on the screen.  Whatever bytes are written, escape sequences of any shape included, split over writes, overlong or
    unfinished, as long as no Cursor Down or Cursor Forward sequence is among them: the write returns, no character is stored beyond the visible cells, the
    sequence buffer is not overrun, the cursor is on the screen and the lock is free. *)
Theorem console_safe inb c l : parsing c -> con_lock c = false -> tame (t_state c) (escseq_buff_front c) l = true ->
  runs (vram_write inb l) c (fun _ c' => parsing c' /\ con_lock c' = false /\ forall i, i < 0 \/ 2 * (CONSOLE_WIDTH * CONSOLE_HEIGHT) <= i -> vram c' i = vram c i).
Proof.
  intros [[Hr Hk Hf Hb] Hl Hfr Hbf] Hlk Ht. unfold vram_write. mstep. apply runs_locked; [by rewrite Hlk|]. eapply runs_mono; [apply handle_all_safe; [by split; [split|..]|exact Ht]|].
  intros [] c1 ([[Hr1 Hk1 Hf1 Hb1] Hl1 Hfr1 Hbf1] & _ & Hv). apply do_refresh_cursor_spec. split; [|by split]. by split; [split|..].
Qed.

(** Cursor Down leaves the screen.  The row is raised by the larger of the distance to the bottom and the amount, where the smaller is meant: after
    [ESC [ 9 9 B] the next character is stored beyond the page of video memory, from every state of the console. *)
Theorem console_cursor_down_faults inb c : parsing c -> t_state c = TERM_NORMAL -> con_lock c = false -> vram_write inb [27; 91; 57; 57; 66; 120] c = Fault.
Proof.
  intros Hp Hst Hl. unfold vram_write. apply faults_bind_l. unfold with_con, locked. rewrite Hl. pose proof Hp as [[Hr Hk Hf Hb] Hlt Hfr Hbf].
  assert (Hall : handle_all inb ([27; 91; 57; 57; 66] ++ [120]) (set_con_lock true c) = Fault); [|cbn [app] in Hall; by rewrite Hall].
  pose proof (down_99 inb (set_con_lock true c) ltac:(by split; [split|..]) Hst) as Hd. destruct (proj1 (runs_Done _ _ _) Hd) as ([] & c1 & E & Er & Ek & Es).
  assert (Hsplit : forall l1 l2 s s1, handle_all inb l1 s = Done (tt, s1) -> handle_all inb (l1 ++ l2) s = handle_all inb l2 s1).
  { clear. induction l1 as [|ch l1 IH]; intros l2 s s1 H; cbn [app handle_all] in *; [by injection H as ->|]. unfold mbind, M_bind in *. destruct (vram_handle inb ch s) as [[[] s2]| | |]; try done. by apply IH. }
  rewrite (Hsplit _ _ _ _ E). cbn [handle_all]. apply faults_bind_l. apply handle_far; [done|done|done|done|rewrite Er; cbn; unfold CONSOLE_HEIGHT in *; lia|by rewrite Ek].
Qed.

(** ** Examples *)

Definition con0 : console := Console 0x3D4 (fun _ => 0) 24 78 7 TERM_NORMAL (Some (fun _ => 0)) 0 false false [].
Lemma con0_parsing : parsing con0.
Proof. split; [split; [done|done|done|by eexists]|done|done|]. intros b i _ Hi. cbn in Hi. lia. Qed.

(** Three characters at the end of the screen: one row goes off. *)
Lemma console_shows_text_witness : exists c', vram_write (fun _ _ => 0) [97; 98; 99] con0 = Done (tt, c') /\ row c' = 24 /\ col c' = 1 /\ cell c' 1918 = (97, 7) /\ cell c' 1919 = (98, 7) /\ cell c' 1920 = (99, 7) /\ cell c' 1921 = (32, 7).
Proof.
  pose proof (console_shows_text (fun _ _ => 0) con0 [97; 98; 99] (p_screen _ con0_parsing) eq_refl eq_refl eq_refl) as H. destruct (proj1 (runs_Done _ _ _) H) as ([] & c' & E & c1 & (E1 & _ & Hc) & ->).
  exists (refreshed (fun _ _ => 0) c1). split; [exact E|]. rewrite E1 at 1 2. split; [reflexivity|]. split; [reflexivity|].
  change (cell (refreshed (fun _ _ => 0) c1)) with (cell c1). rewrite !Hc by (unfold CONSOLE_WIDTH, CONSOLE_HEIGHT; lia). repeat split; reflexivity.
Defined.

(** "ESC [ 2 ; 5 H x" *)
Lemma console_safe_witness : exists c', vram_write (fun _ _ => 0) [27; 91; 50; 59; 53; 72; 120] con0 = Done (tt, c') /\ parsing c'.
Proof.
  pose proof (console_safe (fun _ _ => 0) con0 [27; 91; 50; 59; 53; 72; 120] con0_parsing eq_refl eq_refl) as H. destruct (proj1 (runs_Done _ _ _) H) as ([] & c' & E & Hp & _). exists c'. split; [exact E|exact Hp].
Defined.

Lemma console_cursor_down_faults_witness : vram_write (fun _ _ => 0) [27; 91; 57; 57; 66; 120] con0 = Fault.
Proof. apply (console_cursor_down_faults (fun _ _ => 0) con0 con0_parsing); reflexivity. Defined.
