(* ===== verification/Tty.v ===== *)
(** * Tty: the keyboard and the terminal (kernel/src/driver/console/keyboard.c, tty.c and console.c)

    The keyboard's interrupt puts scan codes into one ring, the terminal turns them into characters in another, a reader takes
    the characters.  Both rings are [RingBuff]'s, in one byte memory.  The terminal's [console] is the console's
    character device, so a read through it is [keybuff_read].  A read that blocks is split where it waits: the first part answers
    [None] with the reader counted in [read_waiting], the second runs when the semaphore lets it.  Signals are logged;
    what the screen does is [Term]'s. *)

From S2P Require Import Prelude Words CString RingBuff.
From S2P Require Term.

Definition BUFFLEN : Z := 2048.
Definition KEYBUFFLEN : Z := 100.
Definition KBD_SPECIAL_CHAR : Z := 0xE0.
Definition RELEASE_BIT : Z := 1 <<< 7.
Definition CAPS_KEY : Z := 0x3a.
Definition LSHIFT_KEY : Z := 0x2a.
Definition RSHIFT_KEY : Z := 0x36.
Definition CTRL_KEY : Z := 0x1d.
Definition ALT_KEY : Z := 0x38.
Definition SIGINT : Z := 2.
Definition EIO : Z := 5.
Definition EINTR : Z := 4.
Definition STATUS_OUTBUF_FULL : Z := 1 <<< 0.

(** Pairs of a key's plain and shifted character, from scan code 0. *)
Definition KEYMAP : list Z := [
  0; 0; 1; 1; 49; 33; 50; 64; 51; 35; 52; 36; 53; 37; 54; 94; 55; 38; 56; 42; 57; 40; 48; 41; 45; 95; 61; 43; 0x7f; 0x7f; 9; 9;
  113; 81; 119; 87; 101; 69; 114; 82; 116; 84; 121; 89; 117; 85; 105; 73; 111; 79; 112; 80; 91; 123; 93; 125; 10; 10; 0; 0; 97; 65; 115; 83;
  100; 68; 102; 70; 103; 71; 104; 72; 106; 74; 107; 75; 108; 76; 59; 58; 39; 34; 96; 126; 0; 0; 92; 124; 122; 90; 120; 88; 99; 67; 118; 86;
  98; 66; 110; 78; 109; 77; 44; 60; 46; 62; 47; 63; 0; 0; 42; 42; 0; 0; 32; 32; 0; 0; 0; 0; 0; 0; 0; 0; 0; 0; 0; 0;
  0; 0; 0; 0; 0; 0; 0; 0; 0; 0; 0; 0; 0; 0; 55; 55; 3; 3; 57; 57; 45; 45; 52; 52; 53; 53; 54; 54; 43; 43; 49; 49;
  5; 5; 51; 51; 48; 48; 46; 46; 0; 0].

Record tty := Tty {
  tmem : mem;
  keyrb : ringbuff_head;
  ttyrb : ringbuff_head;
  keybuff_lock : bool;
  tty_lock : bool;
  keystate : Z -> bool;
  read_waiting : Z;
  wait_semaphore : Z;
  pgroup : Z;
  master : bool;
  signals : list (Z * Z);
}.

Definition set_keybuff_lock (v : bool) (s : tty) : tty :=
  Tty (tmem s) (keyrb s) (ttyrb s) v (tty_lock s) (keystate s) (read_waiting s) (wait_semaphore s) (pgroup s) (master s) (signals s).
Definition set_tty_lock (v : bool) (s : tty) : tty :=
  Tty (tmem s) (keyrb s) (ttyrb s) (keybuff_lock s) v (keystate s) (read_waiting s) (wait_semaphore s) (pgroup s) (master s) (signals s).
Definition set_tmem (v : mem) (s : tty) : tty :=
  Tty v (keyrb s) (ttyrb s) (keybuff_lock s) (tty_lock s) (keystate s) (read_waiting s) (wait_semaphore s) (pgroup s) (master s) (signals s).
Definition set_keyring (v : rstate) (s : tty) : tty :=
  Tty (rmem v) (rb v) (ttyrb s) (keybuff_lock s) (tty_lock s) (keystate s) (read_waiting s) (wait_semaphore s) (pgroup s) (master s) (signals s).
Definition set_ttyring (v : rstate) (s : tty) : tty :=
  Tty (rmem v) (keyrb s) (rb v) (keybuff_lock s) (tty_lock s) (keystate s) (read_waiting s) (wait_semaphore s) (pgroup s) (master s) (signals s).
Definition set_keystate (v : Z -> bool) (s : tty) : tty :=
  Tty (tmem s) (keyrb s) (ttyrb s) (keybuff_lock s) (tty_lock s) v (read_waiting s) (wait_semaphore s) (pgroup s) (master s) (signals s).
Definition set_read_waiting (v : Z) (s : tty) : tty :=
  Tty (tmem s) (keyrb s) (ttyrb s) (keybuff_lock s) (tty_lock s) (keystate s) v (wait_semaphore s) (pgroup s) (master s) (signals s).
Definition set_wait_semaphore (v : Z) (s : tty) : tty :=
  Tty (tmem s) (keyrb s) (ttyrb s) (keybuff_lock s) (tty_lock s) (keystate s) (read_waiting s) v (pgroup s) (master s) (signals s).
Definition set_pgroup (v : Z) (s : tty) : tty :=
  Tty (tmem s) (keyrb s) (ttyrb s) (keybuff_lock s) (tty_lock s) (keystate s) (read_waiting s) (wait_semaphore s) v (master s) (signals s).
Definition set_master (v : bool) (s : tty) : tty :=
  Tty (tmem s) (keyrb s) (ttyrb s) (keybuff_lock s) (tty_lock s) (keystate s) (read_waiting s) (wait_semaphore s) (pgroup s) v (signals s).
Definition set_signals (v : list (Z * Z)) (s : tty) : tty :=
  Tty (tmem s) (keyrb s) (ttyrb s) (keybuff_lock s) (tty_lock s) (keystate s) (read_waiting s) (wait_semaphore s) (pgroup s) (master s) v.

Definition keyring (s : tty) : rstate := RState (keyrb s) (tmem s).
Definition ttyring (s : tty) : rstate := RState (ttyrb s) (tmem s).
Definition in_keyrb {A} (m : M rstate A) : M tty A := lift keyring set_keyring m.
Definition in_ttyrb {A} (m : M rstate A) : M tty A := lift ttyring set_ttyring m.
Definition with_keybuff {A} (m : M tty A) : M tty A := locked (fun s => Some (keybuff_lock s)) set_keybuff_lock m.
Definition with_tty {A} (m : M tty A) : M tty A := locked (fun s => Some (tty_lock s)) set_tty_lock m.

Section Terminal.
(** Where the local variables [code] and [c] and the current string literal are. *)
Context (code_at c_at s_at : Z).

Definition put_byte (a v : Z) : M tty unit := modify (fun s => set_tmem (<[a := v]> (tmem s)) s).
Fixpoint put_bytes (a : Z) (l : list Z) : M tty unit :=
  match l with [] => mret tt | v :: l' => put_byte a v;; put_bytes (a + 1) l' end.

(** ** keyboard.c *)

Definition keybuff_read (buff len : Z) : M tty Z := with_keybuff (in_keyrb (_do_ringbuff_read buff (u32 (len * 1)) 1)).

Definition keybuff_is_empty : M tty bool := with_keybuff (s ← get; mret (_ringbuff_is_empty (keyrb s) 1)).

(** ** tty.c *)

Definition tty_get_pgroup : M tty Z := gets pgroup.
Definition tty_set_pgroup (pg : Z) : M tty unit := modify (set_pgroup pg).

(** [keystate] has 128 entries, [KEYMAP] 170. *)
Definition translate_keycode (code : Z) : M tty Z :=
  s ← get;
  let capital := xorb (keystate s LSHIFT_KEY || keystate s RSHIFT_KEY) (keystate s CAPS_KEY) in
  read (fun _ => KEYMAP !! Z.to_nat (code * 2 + (if capital then 1 else 0))).

Definition handle_keystate (code : Z) : M tty Z :=
  let press := negb (has code RELEASE_BIT) in
  let code := Z.land code (u8 (Z.lnot RELEASE_BIT)) in
  modify (fun s => set_keystate (<[code := press]> (keystate s)) s);;
  if press then translate_keycode code else mret 0.

Definition read_one_from_console : M tty Z := keybuff_read c_at 1.

Definition is_ctrl_down (s : tty) : bool := keystate s CTRL_KEY.
Definition is_shift_down (s : tty) : bool := keystate s LSHIFT_KEY || keystate s LSHIFT_KEY.
Definition is_alt_down (s : tty) : bool := keystate s ALT_KEY.

(** What follows [CSI_DOUBLE] for the keys sent with a prefix. *)
Definition special_key (c : Z) : option (list Z) :=
  if c =? 0x48 then Some [27; 91; 65]
  else if c =? 0x4B then Some [27; 91; 68]
  else if c =? 0x4D then Some [27; 91; 67]
  else if c =? 0x50 then Some [27; 91; 66]
  else if c =? 0x47 then Some [27; 91; 72]
  else if c =? 0x4F then Some [27; 91; 70]
  else if c =? 0x53 then Some [27; 91; 51; 126]
  else None.

Definition c_value : M tty Z := gets (fun s => tmem s c_at).

Definition tty_put (buff len : Z) : M tty Z :=
  ret ← in_ttyrb (_do_ringbuff_write buff (u32 (len * 1)) 1);
  if ret =? 0 then panic else mret ret.

Definition populate_rb : M tty Z :=
  ret ← read_one_from_console;
  if ret <? 0 then mret ret
  else if ret =? 0 then mret (- EIO)
  else
    c ← c_value;
    if c =? KBD_SPECIAL_CHAR then
      ret ← read_one_from_console;
      if ret <? 0 then mret ret
      else if ret =? 0 then mret (- EIO)
      else
        c ← c_value;
        match special_key c with
        | None => mret 0
        | Some s => put_bytes s_at s;; tty_put s_at (Z.of_nat (length s))
        end
    else
      k ← handle_keystate c;
      s ← get;
      k ← (if (k =? 99) && is_ctrl_down s && negb (is_shift_down s) && negb (is_alt_down s) then
        modify (fun s => set_signals (signals s ++ [(pgroup s, SIGINT)]) s);; mret 0
      else mret k);
      if k =? 0 then mret 0
      else put_byte c_at k;; tty_put c_at 1.

Definition tty_notify : M tty unit :=
  s ← get;
  if negb (master s) then mret tt
  else with_tty (
    _ ← populate_rb;
    s ← get;
    if negb (read_waiting s =? 0) then modify (fun s => set_wait_semaphore (wait_semaphore s + 1) s) else mret tt).

(** One pass of the loop, with the lock held. *)
Definition read_round (buff len : Z) (abort : bool) : M tty (option Z) :=
  ret ← in_ttyrb (_do_ringbuff_read buff (u32 (len * 1)) 1);
  if negb (ret =? 0) then modify (fun s => set_read_waiting (u32 (read_waiting s - 1)) s);; mret (Some ret)
  else if abort then modify (fun s => set_read_waiting (u32 (read_waiting s - 1)) s);; mret (Some (- EINTR))
  else mret None.

(** [abort] is what [should_abort_slow_io] answers. *)
Definition tty_char_read (buff len : Z) (abort : bool) : M tty (option Z) :=
  with_tty (modify (fun s => set_read_waiting (u32 (read_waiting s + 1)) s);; read_round buff len abort).

(** The reader again, once [semaphore_down] lets it through. *)
Definition tty_read_resume (buff len : Z) (abort : bool) : M tty (option Z) :=
  s ← get;
  if 0 <? wait_semaphore s then
    modify (fun s => set_wait_semaphore (wait_semaphore s - 1) s);; with_tty (read_round buff len abort)
  else mret None.

(** Readable, writable, errored. *)
Definition tty_char_poll : M tty (bool * bool * bool) :=
  r ← with_tty (s ← get; mret (_ringbuff_is_empty (ttyrb s) 1)); mret (r, true, false).

(** [buff] is the storage [ringbuff_init] allocated; before this there is no terminal. *)
Definition tty_create (buff : Z) : M tty unit :=
  modify (fun s => set_keystate (fun _ => false) s);;
  in_ttyrb (_do_ringbuff_init buff BUFFLEN 1);;
  modify (set_tty_lock false);;
  modify (set_read_waiting 0);;
  modify (set_wait_semaphore 0);;
  modify (set_master true).

(** ** keyboard.c: the interrupt *)

Definition keybuff_append (code : Z) : M tty unit :=
  with_keybuff (
    s ← get;
    BUG_ON (_ringbuff_is_full (keyrb s) 1);;
    put_byte code_at code;;
    _ ← in_keyrb (_do_ringbuff_write code_at (u32 (1 * 1)) 1);
    mret tt);;
  if negb (code =? KBD_SPECIAL_CHAR) then tty_notify else mret tt.

(** [status] and [data] are what the two ports read. *)
Definition keyboard_poll (status data : Z) : M tty unit :=
  if negb (has status STATUS_OUTBUF_FULL) then mret tt else keybuff_append data.

(** ** console.c *)

Definition console_char_read (buff len : Z) : M tty Z := keybuff_read buff len.
Definition console_char_poll : M tty (bool * bool * bool) := r ← keybuff_is_empty; mret (r, true, false).
End Terminal.

(** What the screen is sent; the terminal passes its writes on. *)
Definition console_char_write (inb : list Term.event -> Z -> Z) (buff : list Z) : M Term.console Z :=
  k ← get;
  (if negb (Term.lockup k) then Term.vram_write inb buff else mret tt);;
  mret (Z.of_nat (length buff)).
Definition tty_char_write (inb : list Term.event -> Z -> Z) (buff : list Z) : M Term.console Z := console_char_write inb buff.

(** ** What typing means

    A keyboard: the keys held down, the codes not yet looked at, every character typed so far, and how often Ctrl-C was. *)

Record kbd := Kbd { k_down : Z -> bool; k_queue : list Z; k_typed : list Z; k_signals : nat }.

(** The characters a single code types, and whether it is Ctrl-C; [down] is after the press. *)
Definition types (down : Z -> bool) (c : Z) : list Z * nat :=
  let ch := default 0 (KEYMAP !! Z.to_nat (c * 2 + (if xorb (down LSHIFT_KEY || down RSHIFT_KEY) (down CAPS_KEY) then 1 else 0))) in
  if (ch =? 99) && down CTRL_KEY && negb (down LSHIFT_KEY) && negb (down ALT_KEY) then ([], 1%nat)
  else (if ch =? 0 then [] else [ch], 0%nat).

(** The terminal looks at the oldest code, or at a prefix and what follows it. *)
Definition take_code (k : kbd) : kbd :=
  match k_queue k with
  | [] => k
  | c :: q =>
      if c =? KBD_SPECIAL_CHAR then
        match q with
        | [] => Kbd (k_down k) [] (k_typed k) (k_signals k)
        | d :: q' => Kbd (k_down k) q' (k_typed k ++ default [] (special_key d)) (k_signals k)
        end
      else if 128 <=? c then Kbd (<[c - 128 := false]> (k_down k)) q (k_typed k) (k_signals k)
      else
        let down := <[c := true]> (k_down k) in
        let '(l, n) := types down c in Kbd down q (k_typed k ++ l) (k_signals k + n)
  end.

Definition enqueue (k : kbd) (c : Z) : kbd := Kbd (k_down k) (k_queue k ++ [c]) (k_typed k) (k_signals k).
Definition key_step (k : kbd) (c : Z) : kbd := if c =? KBD_SPECIAL_CHAR then enqueue k c else take_code (enqueue k c).

Section Events.
Context (code_at c_at s_at : Z).

Definition local_ok (r : ringbuff_head) : Prop := outside r code_at 1 /\ outside r c_at 1 /\ outside r s_at 4.

(** The terminal is at [k], of whose characters [got] have been read; [b] is its lock. *)
Record core (b : bool) (got : list Z) (k : kbd) (s : tty) : Prop := Core {
  h_key : ring_wf (keyrb s) 1 KEYBUFFLEN;
  h_tty : ring_wf (ttyrb s) 1 (BUFFLEN + 1);
  h_apart : end_ (keyrb s) <= start (ttyrb s) \/ end_ (ttyrb s) <= start (keyrb s);
  h_key_local : local_ok (keyrb s);
  h_tty_local : local_ok (ttyrb s);
  h_mem : byte_mem (tmem s);
  h_locks : keybuff_lock s = false /\ tty_lock s = b /\ master s = true;
  h_queue : contents (keyring s) = k_queue k;
  h_typed : got ++ contents (ttyring s) = k_typed k;
  h_down : keystate s = k_down k;
  h_signals : signals s = replicate (k_signals k) (pgroup s, SIGINT);
}.

(** Between two events: a reader that waits while there is something to read has been woken. *)
Definition holds (got : list Z) (k : kbd) (s : tty) : Prop :=
  core false got k s /\ 0 <= wait_semaphore s /\ 0 <= read_waiting s <= 1 /\
  (read_waiting s <> 0 -> contents (ttyring s) <> [] -> 0 < wait_semaphore s).

Inductive tty_event := Key (status data : Z) | Read (buff len : Z) (abort : bool) | Resume (buff len : Z) (abort : bool).

(** What the reader finds in its buffer. *)
Definition delivered (buff : Z) (r : option Z) (s : tty) : list Z :=
  match r with Some n => block (tmem s) buff (Z.to_nat n) | None => [] end.

(** An event, and the characters it hands over. *)
Definition perform (e : tty_event) : M tty (list Z) :=
  match e with
  | Key status data => keyboard_poll code_at c_at s_at status data;; mret []
  | Read buff len abort => r ← tty_char_read buff len abort; s ← get; mret (delivered buff r s)
  | Resume buff len abort => r ← tty_read_resume buff len abort; s ← get; mret (delivered buff r s)
  end.
Fixpoint perform_all (l : list tty_event) : M tty (list Z) :=
  match l with [] => mret [] | e :: l' => d ← perform e; d' ← perform_all l'; mret (d ++ d') end.

Definition after_event (e : tty_event) (k : kbd) : kbd :=
  match e with Key status data => if has status STATUS_OUTBUF_FULL then key_step k data else k | _ => k end.

(** The codes the map has a character for; both rings have room. *)
Definition fits (k : kbd) (c : Z) (got : list Z) : Prop :=
  0 <= c < 256 /\ (length (k_queue k) < 99)%nat /\ (length (k_typed (key_step k c)) <= length got + 2048)%nat /\
  match k_queue k ++ [c] with d :: _ => d < 0x55 \/ 128 <= d | [] => True end.

Definition reader_ok (s : tty) (buff len : Z) : Prop := 0 < len < 2 ^ 32 /\ outside (keyrb s) buff len /\ outside (ttyrb s) buff len.

(** One reader at a time. *)
Definition allowed (e : tty_event) (got : list Z) (k : kbd) (s : tty) : Prop :=
  match e with
  | Key status data => has status STATUS_OUTBUF_FULL = true -> fits k data got
  | Read buff len _ => reader_ok s buff len /\ read_waiting s = 0
  | Resume buff len _ => reader_ok s buff len /\ read_waiting s = 1
  end.
(** ** The rings and the local variables *)

Lemma contents_frame r ts n m m' : ring_wf r ts n -> (forall a, start r <= a < end_ r -> m' a = m a) -> contents (RState r m') = contents (RState r m).
Proof.
  intros Hwf Hm. unfold contents. cbn [rb rmem]. destruct Hwf as (Hts & Hn & Hs & He & _). apply ring_bytes_ext; [nia|]. intros i Hi. apply Hm.
  pose proof (Z.mod_pos_bound (front r - start r + i) (end_ r - start r)). nia.
Qed.

Lemma length_contents r n m : ring_wf r 1 n -> Z.of_nat (length (contents (RState r m))) = used r.
Proof. intros Hwf. unfold contents. cbn [rb rmem]. apply length_ring_bytes. apply (used_bounds _ _ _ Hwf). Qed.

Definition same_wait (s s' : tty) : Prop := read_waiting s' = read_waiting s /\ wait_semaphore s' = wait_semaphore s.

Lemma core_local b got k s a v : core b got k s -> 0 <= v < 256 -> outside (keyrb s) a 1 -> outside (ttyrb s) a 1 -> core b got k (set_tmem (<[a := v]> (tmem s)) s).
Proof.
  intros [Hk Ht Ha Hkl Htl Hm Hl Hq Hty Hd Hs] Hv H1 H2. unfold outside in *. split; try done.
  - intros x. cbn. destruct (decide (x = a)) as [->|]; [by rewrite fn_insert_eq|]. rewrite fn_insert_ne by done. apply Hm.
  - rewrite <- Hq. eapply contents_frame; [exact Hk|]. intros x Hx. cbn. apply fn_insert_ne. lia.
  - rewrite <- Hty. f_equal. eapply contents_frame; [exact Ht|]. intros x Hx. cbn. apply fn_insert_ne. lia.
Qed.

(** A ring's cursors move, its bytes change. *)
Lemma core_keyring b got k s s1 q : core b got k s -> ring_wf (rb s1) 1 KEYBUFFLEN -> start (rb s1) = start (keyrb s) -> end_ (rb s1) = end_ (keyrb s) -> byte_mem (rmem s1) ->
  (forall a, start (ttyrb s) <= a < end_ (ttyrb s) -> rmem s1 a = tmem s a) -> contents s1 = q -> core b got (Kbd (k_down k) q (k_typed k) (k_signals k)) (set_keyring s1 s).
Proof.
  intros [Hk Ht Ha Hkl Htl Hm Hl Hq Hty Hd Hs] Hwf E1 E2 Hb Hf Hc. split; try done.
  - cbn. by rewrite E1, E2.
  - unfold local_ok, outside in *. cbn. by rewrite E1, E2.
  - cbn [k_typed]. rewrite <- Hty. f_equal. eapply contents_frame; [exact Ht|]. exact Hf.
Qed.

Lemma core_ttyring b got got' k s s1 l : core b got k s -> ring_wf (rb s1) 1 (BUFFLEN + 1) -> start (rb s1) = start (ttyrb s) -> end_ (rb s1) = end_ (ttyrb s) -> byte_mem (rmem s1) ->
  (forall a, start (keyrb s) <= a < end_ (keyrb s) -> rmem s1 a = tmem s a) -> got' ++ contents s1 = k_typed k ++ l -> core b got' (Kbd (k_down k) (k_queue k) (k_typed k ++ l) (k_signals k)) (set_ttyring s1 s).
Proof.
  intros [Hk Ht Ha Hkl Htl Hm Hl Hq Hty Hd Hs] Hwf E1 E2 Hb Hf Hc. split; try done.
  - cbn. by rewrite E1, E2.
  - unfold local_ok, outside in *. cbn. by rewrite E1, E2.
  - cbn [k_queue]. rewrite <- Hq. eapply contents_frame; [exact Hk|]. exact Hf.
Qed.

Lemma key_read b got k s : core b got k s ->
  runs (read_one_from_console c_at) s (fun r s' => same_wait s s' /\
    match k_queue k with
    | [] => r = 0 /\ core b got k s'
    | c :: q => r = 1 /\ tmem s' c_at = c /\ core b got (Kbd (k_down k) q (k_typed k) (k_signals k)) s'
    end).
Proof.
  intros Hc. pose proof Hc as [Hk Ht Ha Hkl Htl Hm (Hl & _) Hq Hty Hd Hs]. unfold read_one_from_console, keybuff_read, with_keybuff. apply runs_locked; [by rewrite Hl|]. unfold in_keyrb. apply runs_lift.
  eapply runs_mono; [apply (ring_read_correct (keyrb s) (tmem s) 1 KEYBUFFLEN c_at 1); [done|done|lia|lia|apply Hkl]|].
  intros r s1 (Hr & Hcont & Hwf & Hu & Hb & Hf & E1 & E2). pose proof (length_contents _ _ (tmem s) Hk) as Hlen. change (RState (keyrb s) (tmem s)) with (keyring s) in *. rewrite Hq in Hcont, Hlen. pose proof (used_bounds _ _ _ Hk) as [Hub _].
  split; [done|]. assert (Hfr : forall a, start (ttyrb s) <= a < end_ (ttyrb s) -> rmem s1 a = tmem s a) by (intros a Hx; apply Hf; destruct Htl as (_ & H & _); unfold outside in H; lia).
  replace (set_keybuff_lock false (set_keyring s1 (set_keybuff_lock true s))) with (set_keyring s1 s) by (unfold set_keyring, set_keybuff_lock; cbn; by rewrite Hl). destruct (k_queue k) as [|c q] eqn:Eq; cbn [length] in Hlen.
  - assert (r = 0) as -> by lia. split; [done|]. destruct k as [d q0 ty sg]. cbn in Eq. subst q0. cbn in Hcont. symmetry in Hcont. by apply (core_keyring _ _ _ s s1 [] Hc).
  - assert (r = 1) as -> by lia. split; [done|]. change (Z.to_nat 1) with 1%nat in Hcont. rewrite block_S in Hcont. cbn in Hcont. injection Hcont as -> Hq1. split; [done|]. by eapply core_keyring.
Qed.

Lemma tty_put_spec b got k s buff l : core b got k s -> l <> [] -> block (tmem s) buff (length l) = l -> Z.of_nat (length l) < 2 ^ 32 -> outside (ttyrb s) buff (Z.of_nat (length l)) ->
  (length (k_typed k) + length l <= length got + 2048)%nat ->
  runs (tty_put buff (Z.of_nat (length l))) s (fun r s' => same_wait s s' /\ core b got (Kbd (k_down k) (k_queue k) (k_typed k ++ l) (k_signals k)) s').
Proof.
  intros Hc Hne Hl Hlen Hout Hroom. pose proof Hc as [Hk Ht Ha Hkl Htl Hm _ Hq Hty Hd Hs]. unfold tty_put. mstep. unfold in_ttyrb. apply runs_lift. rewrite uwrap_small by lia. rewrite Z.mul_comm.
  eapply runs_mono; [apply (ring_write_correct (ttyrb s) (tmem s) 1 (BUFFLEN + 1) buff (Z.of_nat (length l))); [done|done|lia|lia|by rewrite Z.mul_1_l]|].
  intros r s1 (Hr & Hcont & Hwf & Hu & Hb & Hf & E1 & E2). pose proof (length_contents _ _ (tmem s) Ht) as Hlc. change (RState (ttyrb s) (tmem s)) with (ttyring s) in *.
  assert (Hfree : Z.of_nat (length l) <= free (ttyrb s) 1).
  { unfold free. destruct Ht as (_ & _ & _ & -> & _). apply (f_equal length) in Hty. rewrite length_app in Hty. unfold BUFFLEN. lia. }
  assert (Hr1 : r = Z.of_nat (length l)) by lia. assert (length l <> 0%nat) by (by destruct l). rewrite (proj2 (Z.eqb_neq r 0)) by lia. mstep. split; [done|].
  eapply core_ttyring; try done.
  - intros a Hx. apply Hf. lia.
  - rewrite Hcont, Hr1, Nat2Z.id, Hl, app_assoc, Hty. done.
Qed.

Lemma put_bytes_spec b got k l : forall a s, core b got k s -> Forall (fun v => 0 <= v < 256) l -> outside (keyrb s) a (Z.of_nat (length l)) -> outside (ttyrb s) a (Z.of_nat (length l)) ->
  runs (put_bytes a l) s (fun _ s' => same_wait s s' /\ core b got k s' /\ keyrb s' = keyrb s /\ ttyrb s' = ttyrb s /\ block (tmem s') a (length l) = l /\ forall x, x < a -> tmem s' x = tmem s x).
Proof.
  induction l as [|v l IH]; intros a s Hc Hv H1 H2; cbn [put_bytes length]; [mstep; by repeat split; try apply Hc|].
  inversion Hv as [|? ? Hv1 Hv2]; subst. unfold outside in *. cbn [length] in *. mstep. unfold put_byte. mstep.
  assert (Hc' : core b got k (set_tmem (<[a := v]> (tmem s)) s)) by (apply core_local; [done|done|unfold outside; lia|unfold outside; lia]).
  eapply runs_mono; [apply (IH (a + 1)); [exact Hc'|done|cbn; lia|cbn; lia]|]. intros [] s' (W & Hcs & E1 & E2 & Hb & Hx). split; [done|]. split; [done|]. split; [done|]. split; [done|]. split.
  - rewrite block_S, Hb. f_equal. rewrite Hx by lia. cbn. apply fn_insert_eq.
  - intros x Hlt. rewrite Hx by lia. cbn. apply fn_insert_ne. lia.
Qed.

(** ** Taking a code off the key ring *)

Lemma same_wait_trans s1 s2 s3 : same_wait s1 s2 -> same_wait s2 s3 -> same_wait s1 s3.
Proof. intros [A1 A2] [B1 B2]. split; congruence. Qed.

Lemma special_key_bytes c l : special_key c = Some l -> l <> [] /\ Forall (fun v => 0 <= v < 256) l /\ (length l <= 4)%nat.
Proof. unfold special_key. repeat (destruct (_ =? _)); intros [= <-]; repeat split; try discriminate; try (repeat constructor; lia); cbn; lia. Qed.

Lemma release_code c : 0 <= c < 256 -> has c RELEASE_BIT = (128 <=? c) /\ Z.land c (u8 (Z.lnot RELEASE_BIT)) = (if 128 <=? c then c - 128 else c).
Proof.
  intros Hc. assert (H : forallb (fun c => bool_decide (has c RELEASE_BIT = (128 <=? c)) && bool_decide (Z.land c (u8 (Z.lnot RELEASE_BIT)) = (if 128 <=? c then c - 128 else c))) (seqZ 0 256) = true) by (vm_compute; reflexivity).
  rewrite forallb_forall in H. specialize (H c). rewrite <- list_elem_of_In, elem_of_seqZ in H. apply andb_true_iff in H as [H1 H2]; [|lia]. by apply bool_decide_eq_true in H1, H2.
Qed.

Lemma KEYMAP_char c b : 0 <= c < 0x55 -> exists v, KEYMAP !! Z.to_nat (c * 2 + (if (b : bool) then 1 else 0)) = Some v /\ 0 <= v < 256.
Proof.
  intros Hc. assert (H : forallb (fun c => forallb (fun b : bool => match KEYMAP !! Z.to_nat (c * 2 + (if b then 1 else 0)) with Some v => (0 <=? v) && (v <? 256) | None => false end) [true; false]) (seqZ 0 0x55) = true) by (vm_compute; reflexivity).
  rewrite forallb_forall in H. specialize (H c). rewrite <- list_elem_of_In, elem_of_seqZ in H. rewrite forallb_forall in H. specialize (H ltac:(lia) b). rewrite <- list_elem_of_In in H. specialize (H ltac:(destruct b; set_solver)).
  destruct (KEYMAP !! _) as [v|]; [|done]. exists v. split; [done|]. lia.
Qed.

Lemma handle_keystate_spec b got k s c : core b got k s -> 0 <= c < 256 -> c < 0x55 \/ 128 <= c ->
  runs (handle_keystate c) s (fun r s' => same_wait s s' /\ 0 <= r < 256 /\ keyrb s' = keyrb s /\ ttyrb s' = ttyrb s /\
    if 128 <=? c then r = 0 /\ core b got (Kbd (<[c - 128 := false]> (k_down k)) (k_queue k) (k_typed k) (k_signals k)) s'
    else let down := <[c := true]> (k_down k) in core b got (Kbd down (k_queue k) (k_typed k) (k_signals k)) s' /\
      r = default 0 (KEYMAP !! Z.to_nat (c * 2 + (if xorb (down LSHIFT_KEY || down RSHIFT_KEY) (down CAPS_KEY) then 1 else 0)))).
Proof.
  intros Hc Hr Hm. destruct (release_code c Hr) as [E1 E2]. unfold handle_keystate. rewrite E1, E2. mstep. mstep. destruct (128 <=? c) eqn:E; cbn [negb].
  - mstep. split; [done|]. split; [lia|]. split; [done|]. split; [done|]. split; [done|]. destruct Hc. split; try done. cbn. by rewrite h_down0.
  - assert (Hc55 : 0 <= c < 0x55) by lia. unfold translate_keycode. mstep. mstep. cbn [keystate set_keystate]. rewrite (h_down _ _ _ _ Hc). set (down := <[c := true]> (k_down k)).
    destruct (KEYMAP_char c (xorb (down LSHIFT_KEY || down RSHIFT_KEY) (down CAPS_KEY)) Hc55) as (v & Hv & Hvr). eapply runs_read; [exact Hv|]. rewrite Hv. split; [done|]. split; [done|]. split; [done|]. split; [done|]. split; [|done].
    by destruct Hc; split.
Qed.

Lemma populate_spec got k s : core true got k s -> (length (k_typed (take_code k)) <= length got + 2048)%nat -> match k_queue k with c :: _ => c < 0x55 \/ 128 <= c | [] => True end ->
  runs (populate_rb c_at s_at) s (fun _ s' => same_wait s s' /\ core true got (take_code k) s').
Proof.
  intros Hc Hroom Hmap. unfold populate_rb. mstep. eapply runs_mono; [by apply key_read|]. intros r s1 [W1 H1]. unfold take_code in *. destruct (k_queue k) as [|c q] eqn:Eq.
  { destruct H1 as [-> H1]. cbn [Z.ltb Z.eqb Z.compare]. by mstep. }
  destruct H1 as (-> & Hcv & H1). cbn [Z.ltb Z.eqb Z.compare]. mstep. unfold c_value. mstep. rewrite Hcv. assert (Hcr : 0 <= c < 256) by (rewrite <- Hcv; apply (h_mem _ _ _ _ H1)).
  destruct (c =? KBD_SPECIAL_CHAR) eqn:Espec.
  - mstep. eapply runs_mono; [by eapply key_read|]. intros r s2 [W2 H2]. cbn [k_queue] in H2. destruct q as [|d q'].
    { destruct H2 as [-> H2]. cbn [Z.ltb Z.eqb Z.compare]. mstep. split; [by eapply same_wait_trans|]. done. }
    destruct H2 as (-> & Hdv & H2). cbn [Z.ltb Z.eqb Z.compare]. mstep. mstep. rewrite Hdv. cbn [k_typed k_down k_signals] in *. destruct (special_key d) as [l|] eqn:Hl; cbn [default] in *.
    + destruct (special_key_bytes _ _ Hl) as (Hne & Hby & Hl4). mstep. pose proof (h_key_local _ _ _ _ H2) as (_ & _ & Hk4). pose proof (h_tty_local _ _ _ _ H2) as (_ & _ & Ht4).
      eapply runs_mono; [eapply put_bytes_spec; [exact H2|done|unfold outside in *; lia|unfold outside in *; lia]|]. intros [] s3 (W3 & H3 & E1 & E2 & Hb & _).
      eapply runs_mono; [eapply (tty_put_spec _ _ _ s3 s_at l); [exact H3|done|done|lia|rewrite E2; unfold outside in *; lia|]|].
      { cbn in Hroom |- *. rewrite length_app in Hroom. lia. }
      intros r s4 (W4 & H4). split; [by eapply same_wait_trans; [exact W1|]; eapply same_wait_trans; [exact W2|]; eapply same_wait_trans|]. exact H4.
    + mstep. split; [by eapply same_wait_trans|]. change (default [] None) with (@nil Z). by rewrite app_nil_r.
  - mstep. eapply runs_mono; [eapply handle_keystate_spec; [exact H1|done|done]|]. intros r s2 (W2 & Hr & K1 & T1 & H2). cbn [k_down k_queue k_typed k_signals] in H2. mstep. mstep. mstep.
    destruct (128 <=? c).
    + destruct H2 as [-> H2]. cbn [Z.eqb andb]. mstep. cbn [Z.eqb]. mstep. split; [by eapply same_wait_trans|]. done.
    + destruct H2 as [H2 Hch]. set (down := <[c := true]> (k_down k)) in *. unfold types in *. rewrite <- Hch in *. unfold is_ctrl_down, is_shift_down, is_alt_down. rewrite (h_down _ _ _ _ H2). cbn [k_down]. rewrite orb_diag.
      destruct ((r =? 99) && down CTRL_KEY && negb (down LSHIFT_KEY) && negb (down ALT_KEY)).
      * mstep. mstep. mstep. split; [by eapply same_wait_trans|]. rewrite app_nil_r. destruct H2. split; try done. cbn. rewrite h_signals0. cbn. by rewrite replicate_add.
      * mstep. destruct (r =? 0) eqn:E0.
        { mstep. split; [by eapply same_wait_trans|]. by rewrite app_nil_r, Nat.add_0_r. }
        mstep. unfold put_byte. mstep. pose proof (h_key_local _ _ _ _ H2) as (_ & Hk4 & _). pose proof (h_tty_local _ _ _ _ H2) as (_ & Ht4 & _).
        assert (H3 := core_local _ _ _ _ c_at r H2 Hr Hk4 Ht4).
        eapply runs_mono; [eapply (tty_put_spec _ _ _ _ c_at [r]); [exact H3|done| |cbn; lia|exact Ht4|]|].
        { cbn [length]. rewrite block_S. cbn. by rewrite fn_insert_eq. }
        { cbn [k_typed] in *. by rewrite length_app in Hroom. }
        intros r' s4 (W4 & H4). cbn [k_down k_queue k_typed k_signals] in H4. rewrite Nat.add_0_r. split; [by eapply same_wait_trans; [exact W1|]; eapply same_wait_trans|]. exact H4.
Qed.

(** ** The events *)

Lemma core_lock b b' got k s : core b got k s -> core b' got k (set_tty_lock b' s).
Proof. intros [? ? ? ? ? ? (? & ? & ?) ? ? ? ?]. by split. Qed.

Lemma core_readers b got k s v : core b got k s -> core b got k (set_read_waiting v s).
Proof. intros [? ? ? ? ? ? ? Hq Ht ? ?]. by split. Qed.
Lemma core_wakeups b got k s v : core b got k s -> core b got k (set_wait_semaphore v s).
Proof. intros [? ? ? ? ? ? ? Hq Ht ? ?]. by split. Qed.

Lemma enqueue_spec got k s c : core false got k s -> 0 <= c < 256 -> (length (k_queue k) < 99)%nat ->
  runs (with_keybuff (s ← get; BUG_ON (_ringbuff_is_full (keyrb s) 1);; put_byte code_at c;; _ ← in_keyrb (_do_ringbuff_write code_at (u32 (1 * 1)) 1); mret tt)) s
    (fun _ s' => same_wait s s' /\ core false got (enqueue k c) s' /\ contents (ttyring s') = contents (ttyring s)).
Proof.
  intros Hc Hr Hq99. pose proof Hc as [Hk Ht Ha Hkl Htl Hm (Hl & _) Hq Hty Hd Hs]. unfold with_keybuff. apply runs_locked; [by rewrite Hl|]. mstep. mstep. cbn [keyrb set_keybuff_lock]. mstep.
  pose proof (length_contents _ _ (tmem s) Hk) as Hlen. change (RState (keyrb s) (tmem s)) with (keyring s) in Hlen. rewrite Hq in Hlen.
  assert (Hfree : free (keyrb s) 1 = 99 - Z.of_nat (length (k_queue k))) by (unfold free; destruct Hk as (_ & _ & _ & -> & _); unfold KEYBUFFLEN; lia).
  mstep. { destruct (_ringbuff_is_full (keyrb s) 1) eqn:E; [|done]. apply (is_full_sound _ _ _ Hk) in E. lia. }
  mstep. unfold put_byte. mstep. set (s1 := set_tmem (<[code_at := c]> (tmem s)) s). assert (Hc1 : core false got k s1) by (apply core_local; [done|done|apply Hkl|apply Htl]).
  mstep. unfold in_keyrb. apply runs_lift. pose proof Hc1 as [_ _ _ _ _ Hm1 _ Hq1 _ _ _]. eapply runs_mono; [apply (ring_write_correct (keyrb s) (tmem s1) 1 KEYBUFFLEN code_at 1); [done|exact Hm1|lia|lia|apply Hkl]|].
  intros r s2 (Hr1 & Hcont & Hwf & Hu & Hb & Hf & E1 & E2). mstep. cbn [set_keybuff_lock tmem set_tmem].
  replace (set_keybuff_lock false (set_keyring s2 (set_tmem (<[code_at:=c]> (tmem s)) (set_keybuff_lock true s)))) with (set_keyring s2 s1) by (unfold set_keyring, set_keybuff_lock, s1; cbn; by rewrite Hl).
  assert (r = 1) as -> by lia. assert (Hfr : forall a, start (ttyrb s1) <= a < end_ (ttyrb s1) -> rmem s2 a = tmem s1 a).
  { intros a Hx. apply Hf. cbn in Hx. lia. }
  split; [done|]. split.
  - eapply core_keyring; try done. rewrite Hcont. change (RState (keyrb s) (tmem s1)) with (keyring s1). rewrite Hq1. f_equal. change (Z.to_nat 1) with 1%nat. rewrite block_S. cbn. by rewrite fn_insert_eq.
  - transitivity (contents (ttyring s1)); [by eapply contents_frame|]. eapply contents_frame; [exact Ht|]. intros x Hx. cbn. apply fn_insert_ne. destruct Htl as (H & _). unfold outside in H. cbn in Hx. lia.
Qed.

Lemma tty_notify_spec got k s : core false got k s -> (length (k_typed (take_code k)) <= length got + 2048)%nat -> match k_queue k with c :: _ => c < 0x55 \/ 128 <= c | [] => True end ->
  0 <= wait_semaphore s -> 0 <= read_waiting s <= 1 -> runs (tty_notify c_at s_at) s (fun _ s' => holds got (take_code k) s' /\ read_waiting s' = read_waiting s).
Proof.
  intros Hc Hroom Hmap Hs Hr. destruct (h_locks _ _ _ _ Hc) as (_ & Hlk & Hmst). unfold tty_notify. mstep. mstep. rewrite Hmst. cbn [negb]. unfold with_tty. apply runs_locked; [by rewrite Hlk|]. mstep. eapply runs_mono; [eapply populate_spec; [by eapply core_lock|done|done]|].
  intros r s1 [[W1 W2] H1]. cbn in W1, W2. mstep. mstep. rewrite W1. destruct (Z.eqb_spec (read_waiting s) 0) as [E|E]; cbn [negb]; mstep.
  - split; [|exact W1]. split; [by eapply core_lock|]. cbn. rewrite W1, W2. repeat split; [done|lia|lia|]. intros ?. lia.
  - split; [|exact W1]. split; [|cbn; rewrite W1, W2; repeat split; lia]. destruct (core_lock _ false _ _ _ H1). by split.
Qed.

Lemma key_spec got k s status data : holds got k s -> allowed (Key status data) got k s ->
  runs (keyboard_poll code_at c_at s_at status data) s (fun _ s' => holds got (after_event (Key status data) k) s').
Proof.
  intros (Hc & Hs & Hr & Hw) Hal. unfold keyboard_poll. cbn [allowed after_event] in *. destruct (has status STATUS_OUTBUF_FULL); cbn [negb]; [|by mstep]. destruct (Hal eq_refl) as (Hd & Hq & Hroom & Hmap). clear Hal.
  unfold keybuff_append. mstep. eapply runs_mono; [by eapply enqueue_spec|]. intros [] s1 ([W1 W2] & H1 & Hct). unfold key_step in *. destruct (data =? KBD_SPECIAL_CHAR); cbn [negb].
  - mstep. split; [done|]. rewrite W1, W2, Hct. done.
  - eapply runs_mono; [eapply tty_notify_spec; [exact H1|done|exact Hmap|lia|lia]|]. by intros [] s2 [H2 _].
Qed.

Lemma read_pass_spec got k s buff len abort : core true got k s -> reader_ok s buff len -> read_waiting s = 1 ->
  runs (read_round buff len abort) s (fun r s' => core true (got ++ delivered buff r s') k s' /\ wait_semaphore s' = wait_semaphore s /\
    (read_waiting s' = 0 \/ r = None /\ read_waiting s' = 1 /\ contents (ttyring s') = [])).
Proof.
  intros Hc (Hlen & Ho1 & Ho2) Hw. pose proof Hc as [Hk Ht Ha Hkl Htl Hm _ Hq Hty Hd Hs]. unfold read_round. mstep. unfold in_ttyrb. apply runs_lift. rewrite uwrap_small by lia. rewrite Z.mul_comm.
  eapply runs_mono; [apply (ring_read_correct (ttyrb s) (tmem s) 1 (BUFFLEN + 1) buff len); [done|done|lia|lia|by rewrite Z.mul_1_l]|].
  intros r s1 (Hr & Hcont & Hwf & Hu & Hb & Hf & E1 & E2). pose proof (length_contents _ _ (tmem s) Ht) as Hlc. change (RState (ttyrb s) (tmem s)) with (ttyring s) in *. pose proof (used_bounds _ _ _ Ht) as [Hub _].
  assert (Hc1 : core true (got ++ block (rmem s1) buff (Z.to_nat r)) k (set_ttyring s1 s)).
  { destruct k as [dn q ty sg]. assert (H0 : core true (got ++ block (rmem s1) buff (Z.to_nat r)) (Kbd dn q (ty ++ []) sg) (set_ttyring s1 s)); [|by rewrite app_nil_r in H0].
    apply (core_ttyring true got _ (Kbd dn q ty sg) s s1 [] Hc); try done.
    - intros a Hx. apply Hf. unfold outside in *. lia.
    - cbn [k_typed]. rewrite app_nil_r. cbn in Hty. by rewrite <- app_assoc, <- Hcont. }
  destruct (Z.eqb_spec r 0) as [Hz|Hz]; cbn [negb].
  - rewrite Hz in *. change (Z.to_nat 0) with 0%nat in Hc1. change (block (rmem s1) buff 0) with (@nil Z) in Hc1. destruct abort; msteps.
    + cbn [delivered]. change (Z.to_nat (- EINTR)) with 0%nat. change (block _ buff 0) with (@nil Z). split; [apply core_readers; exact Hc1|]. split; [done|]. left. cbn. rewrite Hw. reflexivity.
    + cbn [delivered]. split; [done|]. split; [done|]. right. split; [done|]. split; [done|]. change (contents (ttyring (set_ttyring s1 s))) with (contents s1).
      assert (used (rb s1) = 0) by lia. unfold contents. rewrite H. reflexivity.
  - mstep. mstep. cbn [delivered]. split; [by apply core_readers|]. split; [done|]. left. cbn. rewrite Hw. reflexivity.
Qed.

Lemma event_spec e got k s : holds got k s -> allowed e got k s -> runs (perform e) s (fun d s' => holds (got ++ d) (after_event e k) s').
Proof.
  intros H Hal. destruct e as [st da|buff len abort|buff len abort]; cbn [perform after_event].
  - mstep. eapply runs_mono; [by apply key_spec|]. intros [] s' H'. mstep. by rewrite app_nil_r.
  - destruct H as (Hc & Hs & Hr & Hw). destruct Hal as [Hrd Hz]. unfold tty_char_read, with_tty. destruct (h_locks _ _ _ _ Hc) as (_ & Hlk & _). mstep. apply runs_locked; [by rewrite Hlk|]. mstep. mstep.
    eapply runs_mono; [eapply (read_pass_spec got k); [apply core_readers; by eapply core_lock|exact Hrd|cbn; by rewrite Hz]|].
    intros r s1 (H1 & W & Hcase). mstep. mstep. mstep. split; [by eapply core_lock|]. cbn in *. rewrite W. split; [done|]. destruct Hcase as [E|(_ & E & Hn)]; rewrite E; (split; [lia|]); [done|]. intros _ Hne. destruct Hne. exact Hn.
  - destruct H as (Hc & Hs & Hr & Hw). destruct Hal as [Hrd Hz]. unfold tty_read_resume. mstep. mstep. mstep. destruct (Z.ltb_spec 0 (wait_semaphore s)) as [Hlt|Hge].
    2: { mstep. mstep. mstep. mstep. by rewrite app_nil_r. }
    mstep. mstep. destruct (h_locks _ _ _ _ Hc) as (_ & Hlk & _). unfold with_tty. apply runs_locked; [by cbn; rewrite Hlk|].
    eapply runs_mono; [eapply (read_pass_spec got k); [eapply core_lock, core_wakeups; exact Hc|exact Hrd|done]|].
    intros r s1 (H1 & W & Hcase). mstep. mstep. split; [by eapply core_lock|]. cbn in *. rewrite W. split; [lia|]. destruct Hcase as [E|(_ & E & Hn)]; rewrite E; (split; [lia|]); [done|]. intros _ Hne. destruct Hne. exact Hn.
Qed.

(** The codes an event brings, and all that a sequence of codes means. *)
Definition codes_of (l : list tty_event) : list Z := l ≫= (fun e => match e with Key status data => if has status STATUS_OUTBUF_FULL then [data] else [] | _ => [] end).

Fixpoint allowed_all (l : list tty_event) (got : list Z) (k : kbd) (s : tty) : Prop :=
  match l with
  | [] => True
  | e :: l' => allowed e got k s /\ match perform e s with Done (d, s') => allowed_all l' (got ++ d) (after_event e k) s' | _ => True end
  end.

(** The terminal keeps up with the codes. *)
Lemma tty_runs l got k s : holds got k s -> allowed_all l got k s ->
  runs (perform_all l) s (fun d s' => let k' := foldl key_step k (codes_of l) in
    holds (got ++ d) k' s' /\ (got ++ d) ++ contents (ttyring s') = k_typed k' /\ signals s' = replicate (k_signals k') (pgroup s', SIGINT)).
Proof.
  revert got k s. induction l as [|e l IH]; intros got k s H Hal; cbn [perform_all].
  - mstep. cbn. rewrite app_nil_r. split; [done|]. destruct H as [Hc _]. split; [apply Hc|apply Hc].
  - destruct Hal as [H1 H2]. mstep. pose proof (event_spec e got k s H H1) as Hp. apply runs_Done in Hp as (d & s1 & E & Hp). apply runs_Done. exists d, s1. split; [done|].
    mstep. eapply runs_mono; [apply (IH (got ++ d)); [exact Hp|by rewrite E in H2]|]. intros d' s2 Hs2. mstep. rewrite app_assoc. change (codes_of (e :: l)) with ((match e with Key status data => if has status STATUS_OUTBUF_FULL then [data] else [] | _ => [] end) ++ codes_of l).
    rewrite foldl_app. destruct e as [st da| |]; cbn [after_event foldl] in *; [|exact Hs2|exact Hs2]. by destruct (has st STATUS_OUTBUF_FULL).
Qed.

(** *** The keyboard's own view

    A prefix belongs to the code that follows it; there is no queue. *)

Record keys := Keys { ky_down : Z -> bool; ky_prefixed : bool; ky_typed : list Z; ky_signals : nat }.

Definition key (k : keys) (c : Z) : keys :=
  if c =? KBD_SPECIAL_CHAR then Keys (ky_down k) true (ky_typed k) (ky_signals k)
  else if ky_prefixed k then Keys (ky_down k) false (ky_typed k ++ default [] (special_key c)) (ky_signals k)
  else if 128 <=? c then Keys (<[c - 128 := false]> (ky_down k)) false (ky_typed k) (ky_signals k)
  else let down := <[c := true]> (ky_down k) in let '(l, n) := types down c in Keys down false (ky_typed k ++ l) (ky_signals k + n).

Definition kbd_of (k : keys) : kbd := Kbd (ky_down k) (if ky_prefixed k then [KBD_SPECIAL_CHAR] else []) (ky_typed k) (ky_signals k).

Lemma key_step_key k c : (ky_prefixed k = true -> c <> KBD_SPECIAL_CHAR) -> key_step (kbd_of k) c = kbd_of (key k c).
Proof.
  intros Hp. unfold key_step, key, kbd_of, enqueue, take_code. destruct k as [dn pf ty sg]. cbn [ky_down ky_prefixed ky_typed ky_signals k_down k_queue k_typed k_signals] in *.
  destruct (Z.eqb_spec c KBD_SPECIAL_CHAR) as [->|Hc].
  - destruct pf; [by destruct Hp|done].
  - destruct pf; cbn [app]; [by rewrite Z.eqb_refl|]. rewrite (proj2 (Z.eqb_neq _ _) Hc). destruct (128 <=? c); [done|]. by destruct (types _ c).
Qed.

(** What may happen next: a code that stands for a key of the map, or comes behind a prefix, with room for what it types; a read when no other waits; a retry of the one that does. *)
Definition may (e : tty_event) (got : list Z) (k : keys) (s : tty) : Prop :=
  match e with
  | Key status data => has status STATUS_OUTBUF_FULL = true -> 0 <= data < 256 /\ (ky_prefixed k = true -> data <> KBD_SPECIAL_CHAR) /\
      (ky_prefixed k = false -> data < 0x55 \/ 128 <= data) /\ (length (ky_typed (key k data)) <= length got + 2048)%nat
  | Read buff len _ => reader_ok s buff len /\ read_waiting s = 0
  | Resume buff len _ => reader_ok s buff len /\ read_waiting s = 1
  end.
Definition key_event (e : tty_event) (k : keys) : keys :=
  match e with Key status data => if has status STATUS_OUTBUF_FULL then key k data else k | _ => k end.
Fixpoint may_all (l : list tty_event) (got : list Z) (k : keys) (s : tty) : Prop :=
  match l with
  | [] => True
  | e :: l' => may e got k s /\ match perform e s with Done (d, s') => may_all l' (got ++ d) (key_event e k) s' | _ => True end
  end.

Lemma may_allowed e got k s : may e got k s -> allowed e got (kbd_of k) s /\ after_event e (kbd_of k) = kbd_of (key_event e k).
Proof.
  destruct e as [st da|b n a|b n a]; cbn [may allowed after_event key_event]; [|done|done]. destruct (has st STATUS_OUTBUF_FULL); [|done]. intros Hm. destruct (Hm eq_refl) as (H1 & H2 & H3 & H4). rewrite key_step_key by done. split; [|done].
  intros _. unfold fits. rewrite key_step_key by done. split; [done|]. cbn [kbd_of k_queue k_typed]. split; [destruct (ky_prefixed k); cbn; lia|]. split; [done|]. destruct (ky_prefixed k); cbn [app]; [right; unfold KBD_SPECIAL_CHAR; lia|by apply H3].
Qed.

Lemma may_all_allowed l : forall got k s, may_all l got k s -> allowed_all l got (kbd_of k) s.
Proof.
  induction l as [|e l IH]; intros got k s; cbn [may_all allowed_all]; [done|]. intros [H1 H2]. apply may_allowed in H1 as [H1 E]. split; [done|]. destruct (perform e s) as [[d s']| | |]; [|done..]. rewrite E. by apply IH.
Qed.

Lemma may_all_keys l : forall got k s, holds got (kbd_of k) s -> may_all l got k s -> foldl key_step (kbd_of k) (codes_of l) = kbd_of (foldl key k (codes_of l)).
Proof.
  induction l as [|e l IH]; intros got k s Hh; [done|]. cbn [may_all]. intros [H1 H2]. pose proof (may_allowed _ _ _ _ H1) as [Ha E]. pose proof (event_spec e got (kbd_of k) s Hh Ha) as Hp. apply runs_Done in Hp as (d & s1 & Ep & Hp). rewrite Ep in H2. rewrite E in Hp.
  specialize (IH _ _ _ Hp H2). change (codes_of (e :: l)) with ((match e with Key status data => if has status STATUS_OUTBUF_FULL then [data] else [] | _ => [] end) ++ codes_of l). rewrite !foldl_app.
  replace (foldl key k _) with (key_event e k) by (destruct e as [st da| |]; cbn; [by destruct (has st _)|done|done]). rewrite <- IH. f_equal. rewrite <- E. destruct e as [st da| |]; cbn; [by destruct (has st _)|done|done].
Qed.

(** C19: what is typed is read.  Whatever the order of key interrupts, reads, and retries of a waiting read: what the reader
    has been given followed by what is still in the buffer is, without loss, repetition or change of order, what the scan codes spell ([key]: letters with either shift or caps lock, releases, prefixed
    keys, and Ctrl-C, with neither left shift nor alt held, as a signal to the group), and a reader that waits while there is something to read has been woken.
    Asked of what happens ([may]): codes without a prefix are releases or below 0x55, the length of the map; a prefix is followed by a code; no more than 2048 characters ever wait
    (with more the terminal panics, tty.c); and one reader reads at a time. *)
Theorem tty_delivers l got k s : holds got (kbd_of k) s -> may_all l got k s ->
  runs (perform_all l) s (fun d s' => let k' := foldl key k (codes_of l) in
    holds (got ++ d) (kbd_of k') s' /\ (got ++ d) ++ contents (ttyring s') = ky_typed k' /\ signals s' = replicate (ky_signals k') (pgroup s', SIGINT)).
Proof.
  intros Hh Hm. eapply runs_mono; [apply tty_runs; [exact Hh|by apply may_all_allowed]|]. intros d s'. rewrite (may_all_keys l got k s Hh Hm). done.
Qed.

(** ** Polling *)

(** A poll answers that there is something to read exactly when there is nothing. *)
Theorem tty_poll_inverted got k s : holds got k s ->
  runs tty_char_poll s (fun r s' => s' = s /\ (r.1.1 = true <-> contents (ttyring s) = [])).
Proof.
  intros [Hc _]. destruct (h_locks _ _ _ _ Hc) as (_ & Hlk & _). unfold tty_char_poll, with_tty. mstep. apply runs_locked; [by rewrite Hlk|]. msteps. cbn.
  split; [destruct s; cbn in *; by rewrite Hlk|]. pose proof (h_tty _ _ _ _ Hc) as Ht. rewrite (is_empty_exact _ _ _ Ht). pose proof (length_contents _ _ (tmem s) Ht) as Hlen. change (RState (ttyrb s) (tmem s)) with (ttyring s) in Hlen.
  destruct (contents (ttyring s)); cbn in Hlen; split; intros H; try done; lia.
Qed.

(** A fresh terminal. *)
Lemma tty_create_spec s buff : ring_wf (keyrb s) 1 KEYBUFFLEN -> contents (keyring s) = [] -> 0 <= buff -> buff + (BUFFLEN + 1) < 2 ^ 32 -> (end_ (keyrb s) <= buff \/ buff + (BUFFLEN + 1) <= start (keyrb s)) ->
  local_ok (keyrb s) -> local_ok (RingHead buff (buff + (BUFFLEN + 1)) buff buff) -> byte_mem (tmem s) -> keybuff_lock s = false -> signals s = [] ->
  runs (tty_create buff) s (fun _ s' => holds [] (Kbd (fun _ => false) [] [] 0) s').
Proof.
  intros Hk Hq H0 H32 Hap Hkl Htl Hm Hl Hs. unfold tty_create. mstep. mstep. mstep. unfold in_ttyrb. apply runs_lift. unfold _do_ringbuff_init, upd_rb. mstep. msteps. rewrite uwrap_small by (unfold BUFFLEN in *; lia). rewrite Z.mul_1_r.
  pose proof (ring_init_wf (ttyring s) buff BUFFLEN 1 ltac:(lia) ltac:(unfold BUFFLEN; lia) H0 ltac:(unfold BUFFLEN in *; lia)) as (Hwf & Hc & Hfr & Hmem).
  cbn [rb rmem] in Hwf, Hc. rewrite uwrap_small, Z.mul_1_r in Hwf, Hc by (unfold BUFFLEN in *; lia).
  split; [|cbn; split; [lia|split; [lia|done]]]. by split.
Qed.

#[global] Instance outside_dec r b n : Decision (outside r b n) := ltac:(unfold outside; apply _).
#[global] Instance reader_ok_dec s b n : Decision (reader_ok s b n) := ltac:(unfold reader_ok; apply _).
#[global] Instance may_dec e got k s : Decision (may e got k s) := ltac:(destruct e; cbn; apply _).
#[global] Instance may_all_dec l : forall got k s, Decision (may_all l got k s).
Proof.
  induction l as [|e l IH]; intros got k s; cbn [may_all]; [apply _|]. destruct (perform e s) as [[d s']| | |]; apply _.
Defined.
End Events.

(** Shift, a, release, a prefixed key, and a reader in between. *)
Definition tty0 : tty :=
  Tty (fun _ => 0) (RingHead 1000 1100 1000 1000) (RingHead 0 0 0 0) false false (fun _ => false) 0 0 7 false [].
Definition tty1 : tty := after (tty_create 2000) tty0.
Definition keys0 : keys := Keys (fun _ => false) false [] 0.
Definition typing : list tty_event := [Key 1 0x2a; Key 1 0x1e; Key 1 0xaa; Read 500 10 false; Key 1 0xe0; Read 500 10 false; Key 1 0x48; Resume 500 2 false].

Lemma tty1_holds : holds 10 20 30 [] (kbd_of keys0) tty1.
Proof.
  assert (H := tty_create_spec 10 20 30 tty0 2000). apply runs_after in H as [u H]; [exact H|..]; cbn; try reflexivity; try (unfold BUFFLEN; lia).
  - unfold KEYBUFFLEN. repeat split; cbn; try lia; exists 0; lia.
  - unfold local_ok, outside, BUFFLEN. cbn. lia.
  - unfold local_ok, outside, BUFFLEN. cbn. lia.
  - intros a. cbn. lia.
Qed.

Lemma tty_delivers_witness : runs (perform_all 10 20 30 typing) tty1 (fun d s' => d ++ contents (ttyring s') = [65; 27; 91; 65]).
Proof.
  eapply runs_mono; [apply (tty_delivers 10 20 30 typing [] keys0 tty1 tty1_holds); apply (bool_decide_unpack _); vm_compute; exact I|].
  intros d s' (_ & H & _). cbn [app] in H. rewrite H. vm_compute. reflexivity.
Defined.

Lemma tty_poll_inverted_witness : runs tty_char_poll tty1 (fun r s' => r.1.1 = true <-> contents (ttyring tty1) = []).
Proof. eapply runs_mono; [exact (tty_poll_inverted 10 20 30 [] (kbd_of keys0) tty1 tty1_holds)|]. intros r s' [_ H]. exact H. Defined.
