(* ===== verification/Timer.v ===== *)
(** * Timer: kernel/src/time/clock.c, kernel/src/time/timer.c

    Clocks, clock events and the list of running timers, each kept with its distance from the one
    before it.  What a clock reads, what a timer's callback and a foreign event listener do are parameters:
    a callback runs where the code runs it, with [timer_lock] held. *)

From S2P Require Import Prelude Words.

Definition MILLIS_PER_SEC : Z := 1000.

Record timer := Timer { delta : Z; callback : Z; tdata : Z }.

Record clock := Clock { c_id : Z; c_rating : Z; c_freq : Z }.

(** The handler of an event source: [handle_clock_nop] or [handle_clock_event]. *)
Inductive event_handler := HandleNop | HandleEvent.
Record event_source := EventSource { e_id : Z; e_rating : Z; e_event : event_handler }.

(** A listener is the timers' own or another component's. *)
Inductive listener := TimeTick | OtherListener (l : Z).

Section Time.
(** The rest of the machine; a clock's count after so many readings. *)
Context {W : Type} (clock_read : Z -> nat -> Z).

Record time := Time {
  active_timers : list timer;
  last_now : Z;
  timer_lock : bool;
  clocks : list clock;
  active : option clock;
  sources : list event_source;
  active_event_source : option Z;
  listeners : list listener;
  clock_lock : bool;
  event_lock : bool;
  readings : nat;
  world : W;
}.

Definition set_timers (v : list timer) (t : time) : time := Time v (last_now t) (timer_lock t) (clocks t) (active t) (sources t) (active_event_source t) (listeners t) (clock_lock t) (event_lock t) (readings t) (world t).
Definition set_last_now (v : Z) (t : time) : time := Time (active_timers t) v (timer_lock t) (clocks t) (active t) (sources t) (active_event_source t) (listeners t) (clock_lock t) (event_lock t) (readings t) (world t).
Definition set_timer_lock (v : bool) (t : time) : time := Time (active_timers t) (last_now t) v (clocks t) (active t) (sources t) (active_event_source t) (listeners t) (clock_lock t) (event_lock t) (readings t) (world t).
Definition set_clocks (v : list clock) (t : time) : time := Time (active_timers t) (last_now t) (timer_lock t) v (active t) (sources t) (active_event_source t) (listeners t) (clock_lock t) (event_lock t) (readings t) (world t).
Definition set_active (v : option clock) (t : time) : time := Time (active_timers t) (last_now t) (timer_lock t) (clocks t) v (sources t) (active_event_source t) (listeners t) (clock_lock t) (event_lock t) (readings t) (world t).
Definition set_sources (v : list event_source) (t : time) : time := Time (active_timers t) (last_now t) (timer_lock t) (clocks t) (active t) v (active_event_source t) (listeners t) (clock_lock t) (event_lock t) (readings t) (world t).
Definition set_active_event_source (v : option Z) (t : time) : time := Time (active_timers t) (last_now t) (timer_lock t) (clocks t) (active t) (sources t) v (listeners t) (clock_lock t) (event_lock t) (readings t) (world t).
Definition set_listeners (v : list listener) (t : time) : time := Time (active_timers t) (last_now t) (timer_lock t) (clocks t) (active t) (sources t) (active_event_source t) v (clock_lock t) (event_lock t) (readings t) (world t).
Definition set_clock_lock (v : bool) (t : time) : time := Time (active_timers t) (last_now t) (timer_lock t) (clocks t) (active t) (sources t) (active_event_source t) (listeners t) v (event_lock t) (readings t) (world t).
Definition set_event_lock (v : bool) (t : time) : time := Time (active_timers t) (last_now t) (timer_lock t) (clocks t) (active t) (sources t) (active_event_source t) (listeners t) (clock_lock t) v (readings t) (world t).
Definition set_readings (v : nat) (t : time) : time := Time (active_timers t) (last_now t) (timer_lock t) (clocks t) (active t) (sources t) (active_event_source t) (listeners t) (clock_lock t) (event_lock t) v (world t).
Definition set_world (v : W) (t : time) : time := Time (active_timers t) (last_now t) (timer_lock t) (clocks t) (active t) (sources t) (active_event_source t) (listeners t) (clock_lock t) (event_lock t) (readings t) v.

Definition with_clock {A} (m : M time A) : M time A := locked (fun t => Some (clock_lock t)) set_clock_lock m.
Definition with_event {A} (m : M time A) : M time A := locked (fun t => Some (event_lock t)) set_event_lock m.
Definition with_timer {A} (m : M time A) : M time A := locked (fun t => Some (timer_lock t)) set_timer_lock m.

(** ** clock.c *)

Definition register_clock (c : clock) : M time unit :=
  with_clock (
    t ← get;
    (if match active t with None => true | Some a => c_rating a <? c_rating c end then modify (set_active (Some c)) else mret tt);;
    modify (fun t => set_clocks (c :: clocks t) t)).

Definition rating_of (l : list event_source) (id : Z) : option Z := e_rating <$> head (filter (fun e => e_id e = id) l).

Definition register_clock_event_source (id rating : Z) : M time unit :=
  with_event (
    t ← get;
    let better := match active_event_source t with
      | None => true
      | Some a => match rating_of (sources t) a with Some r => r <? rating | None => true end
      end in
    (if better then modify (set_active_event_source (Some id)) else mret tt);;
    modify (fun t => set_sources (EventSource id rating HandleNop :: sources t) t)).

Definition register_clock_event_listener (l : listener) : M time unit := with_event (modify (fun t => set_listeners (l :: listeners t) t)).

(** One reading of the active clock. *)
Definition _unsafe_uptime : M time Z :=
  t ← get;
  match active t with
  | Some c =>
      modify (fun t => set_readings (S (readings t)) t);;
      if c_freq c =? 0 then fault else mret (u64 (MILLIS_PER_SEC * u64 (clock_read (c_id c) (readings t))) / c_freq c)
  | None => mret 0
  end.

Definition uptime : M time Z := with_clock _unsafe_uptime.

(** A round of [sleep]'s loop: [now] is the last reading. *)
Definition sleep_round (millis then_ : Z) (now : Z) : M time (Z + unit) :=
  if u64 (now - then_) <? millis then
    t ← get;
    match active t with
    | None => panic
    | Some _ => now ← _unsafe_uptime; mret (inl now)
    end
  else mret (inr tt).

(** [fuel] bounds the number of readings. *)
Definition sleep (fuel : nat) (millis : Z) : M time unit :=
  with_clock (
    then_ ← _unsafe_uptime;
    now ← _unsafe_uptime;
    iterM fuel (sleep_round millis then_) now).

Definition clock_init : M time unit :=
  t ← get;
  match active_event_source t with
  | None => panic
  | Some a => modify (fun t => set_sources ((fun e => if e_id e =? a then EventSource (e_id e) (e_rating e) HandleEvent else e) <$> sources t) t)
  end.

(** ** timer.c *)

(** The walk of [timer_create]: the timers, [new] put in front of the first one that is later; [inr] when there is none,
    with what is left of [new]'s time. *)
Fixpoint insert_timer (d cb x : Z) (l : list timer) : list timer + Z :=
  match l with
  | [] => inr d
  | t :: l' =>
      if (d =? 0) || (d <? delta t) then inl (Timer d cb x :: Timer (u32 (delta t - d)) (callback t) (tdata t) :: l')
      else match insert_timer (u32 (d - delta t)) cb x l' with inl r => inl (t :: r) | inr d' => inr d' end
  end.

(** [list_add_before(&new->list, active_timers.prev)] *)
Definition before_last (n : timer) (l : list timer) : list timer :=
  match last l with Some t => removelast l ++ [n; t] | None => [n] end.

Definition timer_create (millis cb x : Z) : M time unit :=
  with_timer (
    t ← get;
    match active_timers t with
    | [] => modify (set_timers [Timer millis cb x])
    | l =>
        match insert_timer millis cb x l with
        | inl r => modify (set_timers r)
        | inr d => modify (set_timers (before_last (Timer d cb x) l))
        end
    end).

(** The timer, and what is left of the time. *)
Definition decrement_timer (t : timer) (ms : Z) : timer * Z :=
  let diff := MIN (delta t) ms in
  (Timer (u32 (delta t - diff)) (callback t) (tdata t), u32 (ms - diff)).

Section Callbacks.
(** What a timer's callback does with its data; what another listener does. *)
Context (call : Z -> Z -> M time unit) (other : Z -> M time unit).

(** The walk over the timers from [i] on; the list itself does not change under it. *)
Fixpoint tick_walk (n : nat) (i : nat) (ms : Z) : M time unit :=
  match n with
  | O => mret tt
  | S n' =>
      t ← get;
      match active_timers t !! i with
      | None => mret tt
      | Some x =>
          let '(x', ms) := decrement_timer x ms in
          modify (fun t => set_timers (<[i := x']> (active_timers t)) t);;
          if negb (delta x' =? 0) then mret tt
          else call (callback x') (tdata x');; tick_walk n' (S i) ms
      end
  end.

(** [while(!list_empty(&active_timers)) ...] *)
Fixpoint drop_due (l : list timer) : list timer :=
  match l with
  | [] => []
  | x :: l' => if negb (delta x =? 0) then l else drop_due l'
  end.

Definition time_tick : M time unit :=
  with_timer (
    now ← uptime;
    let now := u32 now in
    t ← get;
    let left := u32 (u64 (now - last_now t)) in
    modify (set_last_now now);;
    t ← get;
    tick_walk (S (length (active_timers t))) 0 left;;
    modify (fun t => set_timers (drop_due (active_timers t)) t)).

Definition handle_listener (l : listener) : M time unit := match l with TimeTick => time_tick | OtherListener k => other k end.

Fixpoint handle_all_listeners (l : list listener) : M time unit :=
  match l with [] => mret tt | x :: l' => handle_listener x;; handle_all_listeners l' end.

Definition handle_clock_event : M time unit := with_event (t ← get; handle_all_listeners (listeners t)).

(** [source->event(source)] *)
Definition clock_event (e : event_source) : M time unit := match e_event e with HandleNop => mret tt | HandleEvent => handle_clock_event end.

Definition timer_init : M time unit := register_clock_event_listener TimeTick.
End Callbacks.
End Time.

Arguments time _ : clear implicits.

(** ** Due times *)

(** When each timer is due, from [acc] on, with its callback and data. *)
Fixpoint dues (acc : Z) (l : list timer) : list (Z * Z * Z) :=
  match l with [] => [] | t :: l' => (acc + delta t, callback t, tdata t) :: dues (acc + delta t) l' end.

Fixpoint total (l : list timer) : Z := match l with [] => 0 | t :: l' => delta t + total l' end.

Definition timers_wf (l : list timer) : Prop := Forall (fun t => 0 <= delta t < 2 ^ 32) l.

Lemma dues_app l1 : forall acc l2, dues acc (l1 ++ l2) = dues acc l1 ++ dues (acc + total l1) l2.
Proof. induction l1 as [|t l1 IH]; intros acc l2; cbn; [by rewrite Z.add_0_r|]. by rewrite IH, Z.add_assoc. Qed.

Lemma timer_total_app l1 l2 : total (l1 ++ l2) = total l1 + total l2.
Proof. induction l1 as [|t l1 IH]; cbn; [done|]. rewrite IH. lia. Qed.

Lemma total_nonneg l : Forall (fun t => 0 <= delta t < 2 ^ 32) l -> 0 <= total l.
Proof. induction 1; cbn; lia. Qed.

Lemma timers_wf_snoc l y : timers_wf (l ++ [y]) -> timers_wf l /\ 0 <= delta y < 2 ^ 32.
Proof. intros [Hl Hy]%Forall_app. split; [done|]. by apply Forall_inv in Hy. Qed.

Lemma dues_from acc l : timers_wf l -> Forall (fun d => acc <= d.1.1) (dues acc l).
Proof.
  intros Hl. revert acc. induction Hl as [|t l Ht Hl IH]; intros acc; cbn; [constructor|]. constructor; [cbn; lia|]. eapply Forall_impl; [apply IH|]. intros d Hd. cbn in *. lia.
Qed.

Lemma dues_shift l : forall acc k, dues (acc - k) l = (fun d => (d.1.1 - k, d.1.2, d.2)) <$> dues acc l.
Proof. induction l as [|t l IH]; intros acc k; cbn; [done|]. f_equal; [f_equal; f_equal; lia|]. rewrite <- IH. f_equal. lia. Qed.

(** ** Starting a timer *)

(** A timer that is not the last one is put where it belongs, and no other moves. *)
Lemma insert_timer_inl d cb x l : timers_wf l -> 0 <= d < 2 ^ 32 -> forall r, insert_timer d cb x l = inl r -> timers_wf r /\
  forall acc, exists D1 D2, dues acc l = D1 ++ D2 /\ dues acc r = D1 ++ (acc + d, cb, x) :: D2 /\ Forall (fun e => e.1.1 <= acc + d) D1 /\ Forall (fun e => acc + d <= e.1.1) D2.
Proof.
  intros Hl. revert d. induction Hl as [|t l Ht Hl IH]; intros d Hd r; cbn [insert_timer]; [done|]. destruct ((d =? 0) || (d <? delta t)) eqn:E.
  - intros [= <-]. assert (Hle : d <= delta t) by (apply orb_true_iff in E as [E|E]; [apply Z.eqb_eq in E|apply Z.ltb_lt in E]; lia). rewrite uwrap_small by lia. split.
    + constructor; [done|]. constructor; [cbn; lia|done].
    + intros acc. exists [], (dues acc (t :: l)). cbn. split; [done|]. replace (acc + d + (delta t - d)) with (acc + delta t) by lia. split; [done|]. split; [constructor|]. constructor; [cbn; lia|].
      eapply Forall_impl; [by apply dues_from|]. intros e He. cbn in *. lia.
  - apply orb_false_iff in E as [E1%Z.eqb_neq E2%Z.ltb_ge]. rewrite uwrap_small by lia. destruct (insert_timer (d - delta t) cb x l) as [r'|] eqn:Er; [|done]. intros [= <-].
    destruct (IH (d - delta t) ltac:(lia) _ Er) as [Hw Hdue]. split; [by constructor|]. intros acc. destruct (Hdue (acc + delta t)) as (D1 & D2 & H1 & H2 & H3 & H4).
    exists ((acc + delta t, callback t, tdata t) :: D1), D2. cbn. rewrite H1, H2. replace (acc + delta t + (d - delta t)) with (acc + d) in * by lia. split_and!; try done. constructor; [cbn; lia|done].
Qed.

(** There is no later timer exactly when the time left over is what lies behind all of them. *)
Lemma insert_timer_inr d cb x l : timers_wf l -> 0 <= d < 2 ^ 32 -> forall d', insert_timer d cb x l = inr d' -> d' = d - total l /\ 0 <= d'.
Proof.
  intros Hl. revert d. induction Hl as [|t l Ht Hl IH]; intros d Hd d'; cbn [insert_timer total]; [intros [= <-]; lia|]. destruct ((d =? 0) || (d <? delta t)) eqn:E; [done|].
  apply orb_false_iff in E as [E1%Z.eqb_neq E2%Z.ltb_ge]. rewrite uwrap_small by lia. destruct (insert_timer (d - delta t) cb x l) as [r'|] eqn:Er; [done|]. intros [= <-].
  destruct (IH (d - delta t) ltac:(lia) _ Er) as [H1 H2]. lia.
Qed.

Lemma insert_timer_late cb x y l : forall d, timers_wf (l ++ [y]) -> total l < d -> total l + delta y <= d < 2 ^ 32 -> insert_timer d cb x (l ++ [y]) = inr (d - total (l ++ [y])).
Proof.
  induction l as [|t l IH]; intros d Hwf H1 H2; cbn [app insert_timer total] in *; apply Forall_cons in Hwf as [Ht Hwf].
  - rewrite (proj2 (Z.eqb_neq d 0)), (proj2 (Z.ltb_ge d (delta y))) by lia. cbn [orb]. rewrite uwrap_small by lia. f_equal. lia.
  - assert (0 <= total l) by (apply total_nonneg; apply timers_wf_snoc in Hwf; by apply Hwf). assert (0 <= delta y < 2 ^ 32) by (apply timers_wf_snoc in Hwf; by apply Hwf).
    rewrite (proj2 (Z.eqb_neq d 0)), (proj2 (Z.ltb_ge d (delta t))) by lia. cbn [orb]. rewrite uwrap_small by lia. rewrite IH by (done || lia). f_equal. lia.
Qed.

Lemma fold_left_map {A B C} (g : B -> C) (f : A -> C -> A) (l : list B) : forall a, fold_left f (map g l) a = fold_left (fun a b => f a (g b)) l a.
Proof. induction l as [|b l IH]; intros a; cbn; [done|]. apply IH. Qed.

(** Code run under a lock that it spins on never gets there. *)
Lemma locked_NoFuel {S A} (held : S -> option bool) set (m : M S A) s : held s = Some false -> m (set true s) = NoFuel -> locked held set m s = NoFuel.
Proof. unfold locked. intros ->. by intros ->. Qed.

Lemma locked_held {S A} (held : S -> option bool) set (m : M S A) s : held s = Some true -> locked held set m s = NoFuel.
Proof. unfold locked. by intros ->. Qed.

(** ** A tick *)

(** The walk as a function: the timers it leaves, those it fires. *)
Fixpoint tick (l : list timer) (ms : Z) : list timer * list timer :=
  match l with
  | [] => ([], [])
  | x :: l' =>
      let '(x', ms) := decrement_timer x ms in
      if negb (delta x' =? 0) then (x' :: l', []) else let '(r, f) := tick l' ms in (x' :: r, x :: f)
  end.

Lemma tick_dues l : forall ms acc, timers_wf l -> 0 <= ms < 2 ^ 32 ->
  dues acc (drop_due (tick l ms).1) = (fun d => (d.1.1 - ms, d.1.2, d.2)) <$> filter (fun d => acc + ms < d.1.1) (dues acc l) /\
  map (fun t => (callback t, tdata t)) (tick l ms).2 = map (fun d => (d.1.2, d.2)) (filter (fun d => d.1.1 <= acc + ms) (dues acc l)) /\ timers_wf (drop_due (tick l ms).1).
Proof.
  induction l as [|x l IH]; intros ms acc Hl Hms; cbn [tick dues]; [done|]. apply Forall_cons in Hl as [Hx Hl]. unfold decrement_timer. rewrite MIN_min, !uwrap_small by lia. cbn [delta].
  destruct (Z.eqb_spec (delta x - Z.min (delta x) ms) 0) as [E|Hne]; cbn [negb].
  - assert (Hle : delta x <= ms) by lia. rewrite Z.min_l by lia. destruct (IH (ms - delta x) (acc + delta x) Hl ltac:(lia)) as (H1 & H2 & H3). destruct (tick l (ms - delta x)) as [r f]. cbn [fst snd] in *. cbn [drop_due].
    rewrite Z.sub_diag. cbn [delta Z.eqb negb]. replace (acc + delta x + (ms - delta x)) with (acc + ms) in * by lia.
    rewrite filter_cons_False by (cbn; lia). rewrite (filter_cons_True (fun d => d.1.1 <= acc + ms)) by (cbn; lia). split_and!; [|cbn; by rewrite H2|done].
    rewrite <- (Z.add_simpl_r acc (delta x)) at 1. rewrite dues_shift, H1, <- list_fmap_compose. apply list_fmap_ext. intros i d _. cbn. do 2 f_equal. lia.
  - assert (Hgt : ms < delta x) by lia. rewrite Z.min_r in * by lia. cbn [fst snd drop_due delta]. rewrite (proj2 (Z.eqb_neq _ _)) by done. cbn [negb dues delta callback tdata].
    assert (Hall : Forall (fun d => acc + ms < d.1.1) (dues (acc + delta x) l)) by (eapply Forall_impl; [by apply dues_from|]; intros d Hd; cbn in *; lia).
    rewrite filter_cons_True by (cbn; lia). rewrite filter_cons_False by (cbn; lia). split_and!.
    + cbn. f_equal; [f_equal; f_equal; lia|]. rewrite filter_keeps by exact Hall. rewrite <- dues_shift. f_equal. lia.
    + rewrite filter_drops; [done|]. eapply Forall_impl; [exact Hall|]. intros d Hd. cbn in *. lia.
    + constructor; [cbn; lia|done].
Qed.

Section Ticks.
Context {W : Type} (clock_read : Z -> nat -> Z) (call : Z -> Z -> M (time W) unit) (eff : Z -> Z -> W -> W).
(** A callback returns, and works on the rest of the machine. *)
Hypothesis Hcall : forall cb x t, runs (call cb x) t (fun _ t' => t' = set_world (eff cb x (world t)) t).

Definition run_all (l : list timer) (w : W) : W := fold_left (fun w t => eff (callback t) (tdata t) w) l w.

Lemma tick_walk_spec l2 : forall n l1 ms (t : time W), active_timers t = l1 ++ l2 -> (length l2 < n)%nat ->
  runs (tick_walk call n (length l1) ms) t (fun _ t' => t' = set_world (run_all (tick l2 ms).2 (world t)) (set_timers (l1 ++ (tick l2 ms).1) t)).
Proof.
  induction l2 as [|x l2 IH]; intros [|n] l1 ms t Ht Hn; try (cbn in Hn; lia); cbn [tick_walk]; mstep; mstep; rewrite Ht.
  - rewrite app_nil_r, lookup_ge_None_2 by lia. mstep. cbn. rewrite app_nil_r in *. rewrite <- Ht. by destruct t.
  - rewrite list_lookup_middle by done. cbn [tick]. destruct (decrement_timer x ms) as [x' ms'] eqn:Ed. mstep. mstep.
    assert (Eins : <[length l1 := x']> (active_timers t) = l1 ++ x' :: l2) by (rewrite Ht; rewrite <- (Nat.add_0_r (length l1)) at 1; by rewrite insert_app_r). rewrite Eins.
    assert (Ecb : callback x' = callback x /\ tdata x' = tdata x) by (unfold decrement_timer in Ed; injection Ed as <- _; done). destruct Ecb as [E1 E2].
    destruct (negb (delta x' =? 0)); [mstep; cbn; by destruct t|]. mstep. eapply runs_mono; [apply Hcall|]. intros [] t1 ->. rewrite E1, E2.
    destruct (tick l2 ms') as [r f] eqn:Et. cbn [fst snd]. pose proof (IH n (l1 ++ [x']) ms') as IH'. rewrite Et in IH'. cbn [fst snd] in IH'.
    rewrite length_app in IH'. cbn [length] in IH'. rewrite Nat.add_1_r in IH'. eapply runs_mono; [apply IH'; [cbn; by rewrite <- app_assoc|cbn in Hn; lia]|].
    intros [] t2 ->. cbn. by rewrite <- app_assoc.
Qed.

(** A first timer that is due and whose callback starts a timer spins on the lock that is held for the walk. *)
Lemma tick_walk_spins (call' : Z -> Z -> M (time W) unit) n ms (t : time W) x l millis cb d : active_timers t = x :: l -> timer_lock t = true -> 0 <= delta x < 2 ^ 32 -> delta x <= ms ->
  call' (callback x) (tdata x) = timer_create millis cb d -> tick_walk call' (S n) 0 ms t = NoFuel.
Proof.
  intros Hl Hlk Hx Hms Hcb. cbn [tick_walk]. apply runs_then. mstep. rewrite Hl. cbn [lookup list_lookup]. unfold decrement_timer. rewrite MIN_min, Z.min_l, Z.sub_diag by done.
  apply runs_then. mstep. cbn [delta callback tdata]. change (negb (u32 0 =? 0)) with false. cbn match. rewrite Hcb. unfold mbind, M_bind, timer_create, with_timer. rewrite locked_held; [done|]. cbn. by rewrite Hlk.
Qed.

(** The milliseconds since the last tick. *)
Definition now_at (t : time W) : Z := match active t with Some c => u64 (MILLIS_PER_SEC * u64 (clock_read (c_id c) (readings t))) / c_freq c | None => 0 end.
Definition elapsed (t : time W) : Z := u32 (u64 (u32 (now_at t) - last_now t)).

Definition clock_ok (t : time W) : Prop := match active t with Some c => c_freq c <> 0 | None => True end.

Definition read_once (t : time W) : time W := match active t with Some _ => set_readings (S (readings t)) t | None => t end.

Lemma unsafe_uptime_spec (t : time W) (Q : Z -> time W -> Prop) : clock_ok t -> Q (now_at t) (read_once t) -> runs (_unsafe_uptime clock_read) t Q.
Proof.
  intros Hc HQ. unfold _unsafe_uptime, now_at, read_once, clock_ok in *. mstep. mstep. destruct (active t) as [c|]; [|by mstep]. mstep. mstep. rewrite (proj2 (Z.eqb_neq _ _)) by done. by mstep.
Qed.

Lemma uptime_spec (t : time W) (Q : Z -> time W -> Prop) : clock_ok t -> clock_lock t = false -> Q (now_at t) (read_once t) -> runs (uptime clock_read) t Q.
Proof.
  intros Hc Hl HQ. unfold uptime. apply runs_locked; [by rewrite Hl|]. apply (unsafe_uptime_spec (set_clock_lock true t)); [exact Hc|].
  replace (set_clock_lock false (read_once (set_clock_lock true t))) with (read_once t); [exact HQ|]. unfold read_once. cbn. destruct t as [? ? ? ? [|] ? ? ? lk ? ? ?]; cbn in *; by subst lk.
Qed.

Lemma read_once_timers (t : time W) : active_timers (read_once t) = active_timers t /\ last_now (read_once t) = last_now t /\ world (read_once t) = world t.
Proof. unfold read_once. by destruct (active t). Qed.

(** What a tick leaves behind. *)
Definition ticked (t : time W) : time W :=
  let r := tick (active_timers t) (elapsed t) in
  set_world (run_all r.2 (world t)) (set_timers (drop_due r.1) (set_last_now (u32 (now_at t)) (read_once t))).

Lemma time_tick_spec (t : time W) (Q : unit -> time W -> Prop) : clock_ok t -> clock_lock t = false -> timer_lock t = false -> Q tt (ticked t) -> runs (time_tick clock_read call) t Q.
Proof.
  intros Hc Hcl Htl HQ. unfold time_tick. apply runs_locked; [by rewrite Htl|]. mstep. apply uptime_spec; [exact Hc|exact Hcl|]. do 7 mstep.
  destruct (read_once_timers (set_timer_lock true t)) as (E1 & E2 & E3). cbn [active_timers last_now world set_timer_lock] in E1, E2, E3.
  eapply runs_mono; [apply (tick_walk_spec (active_timers t) _ []); [exact E1|cbn; rewrite E1; lia]|]. intros [] t1 ->. mstep. cbn [app].
  match goal with |- Q tt ?s => replace s with (ticked t); [exact HQ|] end. unfold ticked. rewrite E2. cbn. unfold elapsed, read_once, now_at in *. cbn in *.
  destruct t as [? ? lk ? ac ? ? ? ? ? ? ?]; destruct ac; cbn in *; by subst lk.
Qed.
End Ticks.

(** ** Claims *)

Section Claims.
Context {W : Type} (clock_read : Z -> nat -> Z) (call : Z -> Z -> M (time W) unit) (eff : Z -> Z -> W -> W).

(** A tick fires, in order, the callback of every timer whose time has come and of no other, takes those
    timers off the list, leaves every other one due that much sooner, and remembers the time, for callbacks that
    return and leave the timers alone. *)
Theorem time_tick_correct (Hcall : forall cb x t, runs (call cb x) t (fun _ t' => t' = set_world (eff cb x (world t)) t)) (t : time W) :
  clock_ok t -> clock_lock t = false -> timer_lock t = false -> timers_wf (active_timers t) ->
  runs (time_tick clock_read call) t (fun _ t' =>
    let ms := elapsed clock_read t in
    dues 0 (active_timers t') = (fun d => (d.1.1 - ms, d.1.2, d.2)) <$> filter (fun d => ms < d.1.1) (dues 0 (active_timers t)) /\
    world t' = fold_left (fun w d => eff d.1.2 d.2 w) (filter (fun d => d.1.1 <= ms) (dues 0 (active_timers t))) (world t) /\
    timers_wf (active_timers t') /\ last_now t' = u32 (now_at clock_read t) /\ timer_lock t' = false /\ clock_lock t' = false).
Proof.
  intros Hc Hcl Htl Hwf. apply (time_tick_spec clock_read call eff Hcall); [done..|].
  assert (Hms : 0 <= elapsed clock_read t < 2 ^ 32) by (apply uwrap_range; lia).
  destruct (tick_dues (active_timers t) _ 0 Hwf Hms) as (H1 & H2 & H3). cbn zeta. unfold ticked. cbn [set_world set_timers set_last_now active_timers world last_now timer_lock clock_lock].
  split; [exact H1|]. split; [|split; [exact H3|]].
  - unfold run_all. rewrite Z.add_0_l in H2. 
    transitivity (fold_left (fun w d => eff d.1 d.2 w) (map (fun t => (callback t, tdata t)) (tick (active_timers t) (elapsed clock_read t)).2) (world t)); [by rewrite fold_left_map|].
    rewrite H2. by rewrite fold_left_map.
  - unfold read_once. split; [done|]. destruct (active t); by cbn.
Qed.

(** A tick whose first due timer starts another timer from its callback -- as arp_watchdog does --
    never returns, whatever time it is given: the callback spins on the lock the tick holds. *)
Theorem timer_callback_deadlocks (t : time W) x l millis cb d : clock_ok t -> clock_lock t = false -> timer_lock t = false ->
  active_timers t = x :: l -> 0 <= delta x < 2 ^ 32 -> delta x <= elapsed clock_read t ->
  call (callback x) (tdata x) = timer_create millis cb d ->
  time_tick clock_read call t = NoFuel.
Proof.
  intros Hc Hcl Htl Hl Hx Hel Hcall. unfold time_tick. apply locked_NoFuel; [by rewrite Htl|]. apply runs_then. apply uptime_spec; [exact Hc|exact Hcl|].
  do 3 (apply runs_then; mstep).
  destruct (read_once_timers (set_timer_lock true t)) as (E1 & E2 & E3). cbn [active_timers last_now world set_timer_lock] in E1, E2, E3.
  unfold mbind, M_bind. erewrite tick_walk_spins; [done|exact E1 || (cbn; rewrite E1; exact Hl)| |exact Hx| |exact Hcall].
  - cbn. unfold read_once. by destruct (active (set_timer_lock true t)).
  - rewrite E2. exact Hel.
Qed.

(** A timer started with less time than the last one has left takes its place among the others by its
    due time, and no other timer's due time changes. *)
Theorem timer_create_correct (t : time W) millis cb x : timer_lock t = false -> timers_wf (active_timers t) -> 0 <= millis < total (active_timers t) -> millis < 2 ^ 32 ->
  runs (timer_create millis cb x) t (fun _ t' => exists D1 D2, dues 0 (active_timers t) = D1 ++ D2 /\ dues 0 (active_timers t') = D1 ++ (millis, cb, x) :: D2 /\
    Forall (fun e => e.1.1 <= millis) D1 /\ Forall (fun e => millis <= e.1.1) D2 /\ timers_wf (active_timers t') /\ t' = set_timers (active_timers t') t).
Proof.
  intros Hlk Hwf Hm Hm'. unfold timer_create. apply runs_locked; [by rewrite Hlk|]. mstep. mstep. cbn [active_timers set_timer_lock].
  destruct (active_timers t) as [|y l] eqn:El; [cbn in Hm; lia|]. destruct (insert_timer millis cb x (y :: l)) as [r|d'] eqn:Er.
  - mstep. destruct (insert_timer_inl millis cb x _ Hwf ltac:(lia) _ Er) as [Hw Hd]. destruct (Hd 0) as (D1 & D2 & H1 & H2 & H3 & H4). exists D1, D2. split_and!; try done. destruct t; cbn in *; by subst.
  - destruct (insert_timer_inr millis cb x _ Hwf ltac:(lia) _ Er). lia.
Qed.

(** A timer started with more time than every other one has left is put before the last one [y]: it goes
    off [delta y] too early, and [y] goes off when the new one should have. *)
Theorem timer_create_misplaced (t : time W) l y millis cb x : timer_lock t = false -> active_timers t = l ++ [y] -> timers_wf (l ++ [y]) -> total (l ++ [y]) < millis < 2 ^ 32 ->
  runs (timer_create millis cb x) t (fun _ t' => dues 0 (active_timers t') = dues 0 l ++ [(millis - delta y, cb, x); (millis, callback y, tdata y)]).
Proof.
  intros Hlk Hl Hwf Hm. unfold timer_create. apply runs_locked; [by rewrite Hlk|]. mstep. mstep. cbn [active_timers set_timer_lock]. rewrite Hl.
  assert (Hy : 0 <= delta y < 2 ^ 32) by (apply timers_wf_snoc in Hwf; by apply Hwf). rewrite timer_total_app in Hm. cbn in Hm.
  destruct (l ++ [y]) eqn:El; [by destruct l|]. rewrite <- El in *. rewrite insert_timer_late by (done || lia). mstep. unfold before_last.
  rewrite last_snoc, removelast_last, timer_total_app. cbn [active_timers set_timers set_timer_lock]. rewrite dues_app. cbn. do 2 f_equal; [f_equal; f_equal; lia|]. f_equal. do 2 f_equal. lia.
Qed.

(** The uptime the active clock [c] shows at its [k]-th reading. *)
Definition shown (c : clock) (k : nat) : Z := u64 (MILLIS_PER_SEC * u64 (clock_read (c_id c) k)) / c_freq c.

Lemma sleep_loop_spec (c : clock) millis then_ : forall n (t : time W) now fuel,
  active t = Some c -> c_freq c <> 0 -> (n < fuel)%nat ->
  (millis <= u64 (now - then_) \/ exists m, (m < n)%nat /\ millis <= u64 (shown c (readings t + m) - then_)) ->
  runs (iterM fuel (sleep_round clock_read millis then_) now) t (fun _ t' => exists k, (k <= n)%nat /\ t' = set_readings (readings t + k) t /\
    forall now', now' = match k with O => now | S j => shown c (readings t + j) end -> millis <= u64 (now' - then_)).
Proof.
  induction n as [|n IH]; intros t now [|fuel] Hact Hf Hfuel Hm; try lia; apply runs_iterM_S; unfold sleep_round.
  - destruct Hm as [Hm|(m & Hm & _)]; [|lia]. rewrite (proj2 (Z.ltb_ge _ _)) by done. mstep. exists O. split; [lia|]. split; [rewrite Nat.add_0_r; by destruct t|]. by intros now' ->.
  - destruct (Z.ltb_spec (u64 (now - then_)) millis) as [Hlt|Hge].
    + destruct Hm as [Hm|(m & Hm & Hshow)]; [lia|]. mstep. mstep. rewrite Hact. mstep. apply unsafe_uptime_spec; [unfold clock_ok; by rewrite Hact|]. unfold now_at, read_once. rewrite Hact. mstep.
      eapply runs_mono; [apply (IH (set_readings (S (readings t)) t) (shown c (readings t)) fuel); [exact Hact|exact Hf|lia|]|].
      * destruct m as [|m]; [left; by rewrite Nat.add_0_r in Hshow|]. right. exists m. split; [lia|]. cbn. by rewrite Nat.add_succ_r in Hshow.
      * intros [] t' (k & Hk & -> & Hd). exists (S k). split; [lia|]. rewrite Nat.add_succ_r. split; [done|]. intros now' ->. apply Hd. destruct k as [|k]; cbn; [by rewrite Nat.add_0_r|]. by rewrite Nat.add_succ_r.
    + mstep. exists O. split; [lia|]. split; [rewrite Nat.add_0_r; by destruct t|]. by intros now' ->.
Qed.

(** [sleep] ends: once one of the clock's readings shows that [millis] have gone by since the first, it
    returns, no later than at that reading, at a reading that shows so, with the lock released. *)
Theorem sleep_terminates (t : time W) c millis n : active t = Some c -> c_freq c <> 0 -> clock_lock t = false -> millis <= u64 (shown c (S (readings t) + n) - shown c (readings t)) ->
  runs (sleep clock_read (S n) millis) t (fun _ t' => exists k, (k <= n)%nat /\ t' = set_readings (S (S (readings t) + k)) t /\ millis <= u64 (shown c (S (readings t) + k) - shown c (readings t))).
Proof.
  intros Hact Hf Hlk Hn. unfold sleep. apply runs_locked; [by rewrite Hlk|]. mstep. apply unsafe_uptime_spec; [unfold clock_ok; cbn; by rewrite Hact|]. unfold read_once, now_at. cbn [active set_clock_lock]. rewrite Hact.
  mstep. apply unsafe_uptime_spec; [unfold clock_ok; cbn; by rewrite Hact|]. unfold read_once, now_at. cbn [active set_clock_lock set_readings readings]. rewrite Hact.
  eapply runs_mono; [apply (sleep_loop_spec c millis _ n _ _ (S n)); [exact Hact|exact Hf|lia|]|].
  - cbn [readings set_readings]. destruct n as [|n]; [left|right; exists n; split; [lia|]]; unfold shown in *; [by rewrite Nat.add_0_r in Hn|]. cbn [readings set_readings]. by rewrite Nat.add_succ_r in Hn.
  - intros [] t' (k & Hk & -> & Hd). exists k. split; [exact Hk|]. split; [destruct t; cbn in *; by subst|]. apply Hd. destruct k as [|k]; [by rewrite Nat.add_0_r|]. cbn. by rewrite Nat.add_succ_r.
Qed.
End Claims.

(** ** Witnesses: a machine with one clock of 1000 ticks a second, read every 20 of them, whose world is the
    callbacks that ran. *)

Definition clock0 : clock := Clock 1 10 1000.
Definition read0 (id : Z) (k : nat) : Z := 20 * Z.of_nat k.
Definition time0 : time (list (Z * Z)) := Time [Timer 10 1 11; Timer 10 2 22; Timer 10 3 33] 0 false [clock0] (Some clock0) [EventSource 1 5 HandleEvent] (Some 1) [TimeTick] false false 1 [].
Definition log_call (cb x : Z) (t : time (list (Z * Z))) : outcome (unit * time (list (Z * Z))) := Done (tt, set_world (world t ++ [(cb, x)]) t).

Lemma time_tick_correct_witness : exists t', time_tick read0 log_call time0 = Done (tt, t') /\ active_timers t' = [Timer 10 3 33] /\ world t' = [(1, 11); (2, 22)].
Proof.
  assert (H : runs (time_tick read0 log_call) time0 (fun _ t' => dues 0 (active_timers t') = [(10, 3, 33)] /\ world t' = [(1, 11); (2, 22)])).
  { eapply runs_mono; [apply (time_tick_correct read0 log_call (fun cb x w => w ++ [(cb, x)])); [intros cb x t; unfold runs, log_call; reflexivity|vm_compute; discriminate|reflexivity|reflexivity|repeat constructor; cbn; lia]|].
    intros [] t' (H1 & H2 & _). split; [rewrite H1|rewrite H2]; reflexivity. }
  exists (after (time_tick read0 log_call) time0). split; [vm_compute; reflexivity|]. split; [vm_compute; reflexivity|]. destruct (runs_after _ _ _ H) as (a & _ & Hw). exact Hw.
Defined.

(** Timer 1's callback starts a timer, as arp_watchdog does. *)
Lemma timer_callback_deadlocks_witness : time_tick read0 (fun cb x => timer_create 500 cb x) time0 = NoFuel.
Proof. apply (timer_callback_deadlocks read0 _ time0 (Timer 10 1 11) [Timer 10 2 22; Timer 10 3 33] 500 1 11); first [reflexivity|vm_compute; (discriminate || (split; discriminate))|idtac]. vm_compute. split; [discriminate|reflexivity]. Defined.

Lemma timer_create_correct_witness : runs (timer_create 15 7 77) time0 (fun _ t' => In (15, 7, 77) (dues 0 (active_timers t'))).
Proof.
  eapply runs_mono; [apply (timer_create_correct time0 15 7 77); [reflexivity|repeat constructor; cbn; lia|vm_compute; split; [discriminate|reflexivity]|reflexivity]|].
  intros [] t' (D1 & D2 & _ & H & _). rewrite H. apply in_or_app. right. left. reflexivity.
Defined.

Lemma timer_create_misplaced_witness : runs (timer_create 100 7 77) time0 (fun _ t' => dues 0 (active_timers t') = [(10, 1, 11); (20, 2, 22); (90, 7, 77); (100, 3, 33)]).
Proof. apply (timer_create_misplaced time0 [Timer 10 1 11; Timer 10 2 22] (Timer 10 3 33) 100 7 77); [reflexivity|reflexivity|repeat constructor; cbn; lia|vm_compute; split; reflexivity]. Defined.

Lemma sleep_terminates_witness : runs (sleep read0 4 50) time0 (fun _ t' => exists k, (k <= 3)%nat /\ t' = set_readings (S (S (readings time0) + k)) time0 /\ 50 <= u64 (shown read0 clock0 (S (readings time0) + k) - shown read0 clock0 (readings time0))).
Proof. apply (sleep_terminates read0 time0 clock0 50 3); [reflexivity|discriminate|reflexivity|vm_compute; discriminate]. Defined.
