(* ===== verification/Mmu.v ===== *)
(** * Mmu: kernel/src/arch/mmu.c and kernel/inc/arch/mmu.h

    The page-table entry layout, the index arithmetic on virtual addresses and the
    kernel's own mapping window: [map_pages] hands out virtual pages from
    [VIRTUAL_BASE] upwards and never takes one back.  An entry is its 32-bit word
    (12 bits of flags under 20 bits of frame number); [kptab] is the array of 256
    tables of 1024 entries, seen flat, and an access outside it is a [Fault]. *)

From S2P Require Import Prelude Words.

Definition PAGE_SIZE : Z := 0x1000.
Definition NUM_ENTRIES : Z := 1024.
Definition KERNEL_NUM_TABLES : Z := 256.
Definition VIRTUAL_BASE : Z := 0xC0000000.

Definition MMUFLAG_PRESENT : Z := 1 <<< 0.
Definition MMUFLAG_WRITABLE : Z := 1 <<< 1.
Definition MMUFLAG_USER : Z := 1 <<< 2.

(** [map_lock] is true while the lock is held. *)
Record mmu := Mmu {
  kptab : Z -> Z;
  kernel_next_page : Z;
  map_lock : bool;
}.

(** ** Index arithmetic *)

Definition phys_to_pageidx (addr : Z) : Z := addr / PAGE_SIZE.

Definition addr_to_diridx (addr : Z) : Z :=
  let raw := Z.land addr 0xFFFFF000 in (raw / PAGE_SIZE) / NUM_ENTRIES.
Definition addr_to_tabidx (addr : Z) : Z :=
  let raw := Z.land addr 0xFFFFF000 in (raw / PAGE_SIZE) mod NUM_ENTRIES.
Definition get_pageoff (addr : Z) : Z := Z.land addr 0xFFF.
Definition paddr_to_pageoff (addr : Z) : Z := get_pageoff addr.
Definition vaddr_to_pageoff (addr : Z) : Z := get_pageoff addr.

(** ** Entries: the bit-fields of [struct ptab_ent] and [struct pdir_ent] *)

Definition ent_flags (w : Z) : Z := Z.land w 0xFFF.
Definition ent_physaddr (w : Z) : Z := w >>> 12.
Definition ent_set_physaddr (w v : Z) : Z := Z.lor (Z.land w 0xFFF) (Z.land v 0xFFFFF <<< 12).
Definition ent_set_flags (w v : Z) : Z := Z.lor (Z.land w 0xFFFFF000) (Z.land v 0xFFF).

Definition ent_get_flags (w : Z) : Z := Z.land (ent_flags w) 0xFFF.
Definition ent_get_phys (w : Z) : Z := u32 (ent_physaddr w <<< 12).
Definition ent_set (w phys flags : Z) : Z :=
  ent_set_flags (ent_set_physaddr w (phys >>> 12)) (Z.land flags 0xFFF).

(** ** The kernel's tables *)

Definition kptab_index (dir tab : Z) : option Z :=
  if (0 <=? dir) && (dir <? KERNEL_NUM_TABLES) && (0 <=? tab) && (tab <? NUM_ENTRIES)
  then Some (dir * NUM_ENTRIES + tab) else None.

Definition kptab_get (dir tab : Z) : M mmu Z :=
  read (fun s => kptab s <$> kptab_index dir tab).
Definition kptab_upd (dir tab : Z) (f : Z -> Z) : M mmu unit := fun s =>
  match kptab_index dir tab with
  | Some i => Done (tt, Mmu (<[i := f (kptab s i)]> (kptab s)) (kernel_next_page s) (map_lock s))
  | None => Fault
  end.

Definition tabentry_get_flags (dir tab : Z) : M mmu Z :=
  w ← kptab_get dir tab; mret (ent_get_flags w).
Definition tabentry_get_phys (dir tab : Z) : M mmu Z :=
  w ← kptab_get dir tab; mret (ent_get_phys w).
Definition tabentry_set (dir tab phys flags : Z) : M mmu unit :=
  kptab_upd dir tab (fun w => ent_set w phys flags).

Definition tab_lookup_addr (dir addr : Z) : M mmu Z :=
  p ← tabentry_get_phys dir (addr_to_tabidx addr);
  mret (Z.lor p (vaddr_to_pageoff addr)).

Definition virt_to_phys (addr : Z) : M mmu Z :=
  if addr =? 0 then mret 0
  else tab_lookup_addr (u32 (addr_to_diridx addr - addr_to_diridx VIRTUAL_BASE)) addr.

(** A spinlock seen from one CPU: taking a lock that is held spins for ever. *)
Definition acquire_map_lock : M mmu unit := fun s =>
  if map_lock s then NoFuel else Done (tt, Mmu (kptab s) (kernel_next_page s) true).
Definition release_map_lock : M mmu unit :=
  modify (fun s => Mmu (kptab s) (kernel_next_page s) false).

(** ** The mapping window *)

Definition map_kernel_page (page_idx phys : Z) : M mmu unit :=
  tabentry_set (page_idx / NUM_ENTRIES) (page_idx mod NUM_ENTRIES) phys
    (Z.lor MMUFLAG_WRITABLE MMUFLAG_PRESENT).

Definition get_next_virt (phys : Z) : M mmu Z :=
  s ← get;
  mret (u32 (u32 (kernel_next_page s * PAGE_SIZE) + VIRTUAL_BASE + paddr_to_pageoff phys)).

Definition do_map_page (phys : Z) : M mmu unit :=
  virt ← get_next_virt 0;
  modify (fun s => Mmu (kptab s) (u32 (kernel_next_page s + 1)) (map_lock s));;
  let idx := u32 (addr_to_diridx virt - addr_to_diridx VIRTUAL_BASE) in
  tabentry_set idx (addr_to_tabidx virt) phys (Z.lor MMUFLAG_WRITABLE MMUFLAG_PRESENT).

Definition map_pages (phys npages : Z) : M mmu Z :=
  acquire_map_lock;;
  virt ← get_next_virt phys;
  forM 0 (Z.to_nat npages) (fun i => do_map_page (u32 (phys + PAGE_SIZE * i)));;
  release_map_lock;;
  mret virt.

Definition map_page (phys : Z) : M mmu Z := map_pages phys 1.

(** ** Page directories *)

Definition kvirt_to_phys {S} (kaddr : Z) : M S Z :=
  BUG_ON (kaddr <? VIRTUAL_BASE);;
  mret (u32 (kaddr - VIRTUAL_BASE)).

Definition direntry_set (idx phys flags : Z) : M (Z -> Z) unit :=
  modify (fun d => <[idx := ent_set (d idx) phys flags]> d).
Definition direntry_clear (idx : Z) : M (Z -> Z) unit := direntry_set idx 0 0.
Definition direntry_get_phys (d : Z -> Z) (idx : Z) : Z := ent_get_phys (d idx).

(** [kptab_addr] is the address the linker gave [kptab]. *)
Definition build_page_dir (kptab_addr : Z) : M (Z -> Z) unit :=
  forM 0 (Z.to_nat (NUM_ENTRIES - KERNEL_NUM_TABLES)) direntry_clear;;
  let baseoff := VIRTUAL_BASE / PAGE_SIZE / NUM_ENTRIES in
  forM 0 (Z.to_nat KERNEL_NUM_TABLES) (fun i =>
    phys ← kvirt_to_phys (kptab_addr + PAGE_SIZE * i);
    direntry_set (i + baseoff) phys (Z.lor MMUFLAG_PRESENT MMUFLAG_WRITABLE)).

(** ** Entries keep what is put into them *)

Lemma land_fff z : Z.land z 0xFFF = z mod 2 ^ 12.
Proof. change 0xFFF with (Z.ones 12). apply Z.land_ones. lia. Qed.

Lemma page_base z : 0 <= z < 2 ^ 32 -> Z.land z 0xFFFFF000 = z / 2 ^ 12 * 2 ^ 12.
Proof.
  intros Hz. rewrite <- Z.shiftl_mul_pow2, <- Z.shiftr_div_pow2 by lia.
  apply Z.bits_inj'. intros n Hn. rewrite Z.land_spec, Z.shiftl_spec by lia.
  destruct (Z.ltb_spec n 12).
  - rewrite (Z.testbit_neg_r _ (n - 12)) by lia. rewrite andb_comm.
    change 0xFFFFF000 with (Z.ones 20 <<< 12). by rewrite Z.shiftl_spec_low by lia.
  - rewrite Z.shiftr_spec by lia. replace (n - 12 + 12) with n by lia.
    destruct (Z.ltb_spec n 32); [|by rewrite (testbit_small 32) by lia].
    change 0xFFFFF000 with (Z.ones 20 <<< 12).
    rewrite Z.shiftl_spec, Z.ones_spec_low by lia. by rewrite andb_true_r.
Qed.

Lemma addr_to_diridx_div a : 0 <= a < 2 ^ 32 -> addr_to_diridx a = a / 2 ^ 22.
Proof.
  intros Ha. unfold addr_to_diridx. rewrite page_base by done. unfold PAGE_SIZE, NUM_ENTRIES.
  change 0x1000 with (2 ^ 12). rewrite Z.div_mul by lia. by rewrite Z.div_div by lia.
Qed.

Lemma addr_to_tabidx_mod a : 0 <= a < 2 ^ 32 -> addr_to_tabidx a = (a / 2 ^ 12) mod 1024.
Proof.
  intros Ha. unfold addr_to_tabidx. rewrite page_base by done. unfold PAGE_SIZE, NUM_ENTRIES.
  change 0x1000 with (2 ^ 12). by rewrite Z.div_mul by lia.
Qed.

Lemma ent_set_split w phys flags : 0 <= phys < 2 ^ 32 ->
  ent_set w phys flags = phys / 2 ^ 12 * 2 ^ 12 + flags mod 2 ^ 12.
Proof.
  intros Hp. unfold ent_set, ent_set_flags, ent_set_physaddr.
  rewrite <- (Z.land_assoc flags). change (Z.land 0xFFF 0xFFF) with 0xFFF.
  rewrite Z.shiftr_div_pow2 by lia.
  rewrite Z.land_lor_distr_l, <- Z.land_assoc. change (Z.land 0xFFF 0xFFFFF000) with 0.
  rewrite Z.land_0_r, Z.lor_0_l, land_fff. change 0xFFFFF with (Z.ones 20).
  pose proof (Z.div_lt_upper_bound phys (2 ^ 12) (2 ^ 20)).
  pose proof (Z.div_pos phys (2 ^ 12)). pose proof (Z.mod_pos_bound flags (2 ^ 12)).
  rewrite Z.land_ones, Z.mod_small by lia.
  rewrite page_base by (rewrite Z.shiftl_mul_pow2 by lia; lia).
  rewrite Z.shiftl_mul_pow2, Z.div_mul by lia.
  rewrite <- Z.shiftl_mul_pow2 by lia. rewrite lor_shiftl_add by lia.
  by rewrite Z.shiftl_mul_pow2 by lia.
Qed.

Lemma ent_get_phys_set w phys flags : 0 <= phys < 2 ^ 32 ->
  ent_get_phys (ent_set w phys flags) = phys / 2 ^ 12 * 2 ^ 12.
Proof.
  intros Hp. rewrite ent_set_split by done. unfold ent_get_phys, ent_physaddr.
  pose proof (Z.div_lt_upper_bound phys (2 ^ 12) (2 ^ 20)).
  pose proof (Z.div_pos phys (2 ^ 12)). pose proof (Z.mod_pos_bound flags (2 ^ 12)).
  rewrite Z.shiftr_div_pow2, Z.shiftl_mul_pow2 by lia.
  rewrite Z.div_add_l, (Z.div_small (flags mod 2 ^ 12)) by lia. rewrite uwrap_small; lia.
Qed.

Lemma ent_get_flags_set w phys flags : 0 <= phys < 2 ^ 32 ->
  ent_get_flags (ent_set w phys flags) = flags mod 2 ^ 12.
Proof.
  intros Hp. rewrite ent_set_split by done. unfold ent_get_flags, ent_flags.
  rewrite <- Z.land_assoc. change (Z.land 0xFFF 0xFFF) with 0xFFF. rewrite land_fff.
  rewrite Z.add_comm, Z_mod_plus_full. apply Z.mod_mod. lia.
Qed.

(** ** The window: page [k] of it is entry [k] of the flat table *)

Definition window (k off : Z) : Z := VIRTUAL_BASE + k * PAGE_SIZE + off.

Lemma window_range k off : 0 <= k < 2 ^ 18 -> 0 <= off < 2 ^ 12 -> 0 < window k off < 2 ^ 32.
Proof. unfold window, VIRTUAL_BASE, PAGE_SIZE. lia. Qed.

Lemma window_div k off : 0 <= off < 2 ^ 12 ->
  window k off / 2 ^ 12 = 0xC0000 + k.
Proof.
  intros. unfold window, VIRTUAL_BASE, PAGE_SIZE.
  replace (0xC0000000 + k * 0x1000 + off) with ((0xC0000 + k) * 2 ^ 12 + off) by lia.
  rewrite Z.div_add_l, Z.div_small by lia. lia.
Qed.

Lemma window_index k off : 0 <= k < 2 ^ 18 -> 0 <= off < 2 ^ 12 ->
  kptab_index (u32 (addr_to_diridx (window k off) - addr_to_diridx VIRTUAL_BASE))
    (addr_to_tabidx (window k off)) = Some k.
Proof.
  intros Hk Hoff. pose proof (window_range k off Hk Hoff).
  rewrite addr_to_diridx_div, addr_to_tabidx_mod by lia.
  change (addr_to_diridx VIRTUAL_BASE) with 768.
  replace (2 ^ 22) with (2 ^ 12 * 1024) by lia. rewrite <- Z.div_div by lia.
  rewrite (window_div _ _) by lia.
  replace (0xC0000 + k) with (k + 768 * 1024) by lia.
  rewrite Z.div_add, Z_mod_plus_full by lia.
  pose proof (Z.div_mod k 1024 ltac:(lia)). pose proof (Z.mod_pos_bound k 1024 ltac:(lia)).
  rewrite uwrap_small by lia. unfold kptab_index, KERNEL_NUM_TABLES, NUM_ENTRIES.
  replace (k / 1024 + 768 - 768) with (k / 1024) by lia.
  destruct (Z.leb_spec 0 (k / 1024)), (Z.ltb_spec (k / 1024) 256),
    (Z.leb_spec 0 (k mod 1024)), (Z.ltb_spec (k mod 1024) 1024); simpl; try lia.
  f_equal. lia.
Qed.

Lemma get_pageoff_range a : 0 <= get_pageoff a < 2 ^ 12.
Proof. unfold get_pageoff. rewrite land_fff. apply Z.mod_pos_bound. lia. Qed.

Lemma get_next_virt_spec s phys (Q : Z -> mmu -> Prop) :
  0 <= kernel_next_page s < 2 ^ 18 ->
  Q (window (kernel_next_page s) (get_pageoff phys)) s -> runs (get_next_virt phys) s Q.
Proof.
  intros Hk HQ. unfold get_next_virt. msteps.
  pose proof (window_range (kernel_next_page s) (get_pageoff phys) Hk (get_pageoff_range phys)).
  rewrite (uwrap_small 32 (_ * _)) by (unfold PAGE_SIZE; lia). unfold paddr_to_pageoff.
  unfold window in *. rewrite uwrap_small by lia. by replace (kernel_next_page s * PAGE_SIZE + VIRTUAL_BASE)
    with (VIRTUAL_BASE + kernel_next_page s * PAGE_SIZE) by lia.
Qed.

Lemma do_map_page_spec s phys :
  0 <= kernel_next_page s < 2 ^ 18 ->
  runs (do_map_page phys) s (fun _ s' => s' =
    Mmu (<[kernel_next_page s := ent_set (kptab s (kernel_next_page s)) phys 3]> (kptab s))
        (kernel_next_page s + 1) (map_lock s)).
Proof.
  intros Hk. unfold do_map_page. mstep. apply get_next_virt_spec; [done|]. do 2 mstep.
  unfold tabentry_set, kptab_upd, runs. change (get_pageoff 0) with 0.
  rewrite window_index by lia. simpl. by rewrite uwrap_small by lia.
Qed.

(** [map_pages] maps [n] consecutive frames at the next [n] pages of the window,
    leaves every earlier mapping alone and moves the cursor past them. *)
Lemma map_pages_spec s phys n :
  0 <= kernel_next_page s -> 0 <= n -> kernel_next_page s + n <= 2 ^ 18 ->
  kernel_next_page s < 2 ^ 18 -> map_lock s = false ->
  runs (map_pages phys n) s (fun v s' =>
    v = window (kernel_next_page s) (get_pageoff phys) /\
    kernel_next_page s' = kernel_next_page s + n /\ map_lock s' = false /\
    forall k, kptab s' k =
      if bool_decide (kernel_next_page s <= k < kernel_next_page s + n)
      then ent_set (kptab s k) (u32 (phys + PAGE_SIZE * (k - kernel_next_page s))) 3
      else kptab s k).
Proof.
  intros Hk Hn Hmax Hlt Hlock. unfold map_pages. mstep. unfold acquire_map_lock, runs at 1. rewrite Hlock.
  mstep. apply get_next_virt_spec; [done|]. simpl. mstep.
  eapply runs_mono; [apply (runs_forM (fun i s' => kernel_next_page s' = kernel_next_page s + i /\
    forall k, kptab s' k =
      if bool_decide (kernel_next_page s <= k < kernel_next_page s + i)
      then ent_set (kptab s k) (u32 (phys + PAGE_SIZE * (k - kernel_next_page s))) 3
      else kptab s k))|].
  - simpl. split; [lia|]. intros k. by rewrite bool_decide_false by lia.
  - intros i s' Hi [Hnp Htab]. eapply runs_mono; [apply do_map_page_spec; lia|].
    intros [] s'' ->. simpl. split; [lia|]. intros k. rewrite Hnp.
    destruct (decide (k = kernel_next_page s + i)) as [->|Hne].
    + rewrite fn_insert_eq, bool_decide_true, Htab, bool_decide_false by lia. do 3 f_equal. lia.
    + rewrite fn_insert_ne, Htab by lia.
      destruct (decide (kernel_next_page s <= k < kernel_next_page s + i)).
      * by rewrite !bool_decide_true by lia.
      * by rewrite !bool_decide_false by lia.
  - intros [] s' [Hnp Htab]. rewrite Z2Nat.id in * by lia. unfold release_map_lock. msteps. simpl. auto.
Qed.

(** Looking an address of the window up gives the frame behind it. *)
Lemma virt_to_phys_window s k off (Q : Z -> mmu -> Prop) :
  0 <= k < 2 ^ 18 -> 0 <= off < 2 ^ 12 ->
  Q (Z.lor (ent_get_phys (kptab s k)) off) s -> runs (virt_to_phys (window k off)) s Q.
Proof.
  intros Hk Hoff HQ. pose proof (window_range k off Hk Hoff). unfold virt_to_phys.
  destruct (Z.eqb_spec (window k off) 0); [lia|].
  unfold tab_lookup_addr, tabentry_get_phys, kptab_get. do 2 mstep.
  eapply runs_read; [by rewrite window_index|]. do 2 mstep.
  replace (vaddr_to_pageoff (window k off)) with off; [done|].
  unfold vaddr_to_pageoff, get_pageoff. rewrite land_fff. unfold window, VIRTUAL_BASE, PAGE_SIZE.
  replace (0xC0000000 + k * 0x1000 + off) with (off + (0xC0000 + k) * 2 ^ 12) by lia.
  rewrite Z_mod_plus_full, Z.mod_small by lia. done.
Qed.

Lemma frame_lor phys : 0 <= phys < 2 ^ 32 ->
  Z.lor (phys / 2 ^ 12 * 2 ^ 12) (get_pageoff phys) = phys.
Proof.
  intros Hp. unfold get_pageoff. rewrite land_fff, <- Z.shiftl_mul_pow2 by lia.
  rewrite lor_shiftl_add by (pose proof (Z.mod_pos_bound phys (2 ^ 12)); lia).
  pose proof (Z.div_mod phys (2 ^ 12)). lia.
Qed.

(** Mapping and lookup are inverse.  After [map_pages(phys, n)] the
    virtual address it returned, advanced by [i] pages, translates back through the
    kernel's page tables to the [i]-th frame with the same page offset, and every
    address mapped before still translates to what it did. *)
Theorem map_pages_roundtrip s phys n i :
  0 <= kernel_next_page s -> kernel_next_page s + n <= 2 ^ 18 -> map_lock s = false ->
  0 <= i < n -> 0 <= phys -> phys + PAGE_SIZE * n <= 2 ^ 32 ->
  runs (map_pages phys n) s (fun v s' =>
    runs (virt_to_phys (v + PAGE_SIZE * i)) s' (fun p _ => p = phys + PAGE_SIZE * i) /\
    (forall k off p, 0 <= k < kernel_next_page s -> 0 <= off < PAGE_SIZE ->
       runs (virt_to_phys (window k off)) s (fun q _ => q = p) ->
       runs (virt_to_phys (window k off)) s' (fun q _ => q = p))).
Proof.
  intros Hk Hmax Hlock Hi Hp Hpn. unfold PAGE_SIZE in Hpn.
  eapply runs_mono; [apply map_pages_spec; [done|lia|done|lia|done]|].
  intros v s' (-> & Hnp & Hl & Htab). split.
  - replace (window (kernel_next_page s) (get_pageoff phys) + PAGE_SIZE * i)
      with (window (kernel_next_page s + i) (get_pageoff (phys + PAGE_SIZE * i))).
    2: { unfold window, get_pageoff, PAGE_SIZE. rewrite !land_fff.
         replace (phys + 4096 * i) with (phys + i * 2 ^ 12) by lia. rewrite Z_mod_plus_full. lia. }
    apply virt_to_phys_window; [lia|apply get_pageoff_range|].
    rewrite Htab, bool_decide_true by lia.
    replace (kernel_next_page s + i - kernel_next_page s) with i by lia.
    rewrite uwrap_small by (unfold PAGE_SIZE; lia).
    rewrite ent_get_phys_set by (unfold PAGE_SIZE; lia). apply frame_lor. unfold PAGE_SIZE; lia.
  - intros k off p Hk' Hoff Hold. unfold PAGE_SIZE in Hoff.
    apply virt_to_phys_window; [lia|lia|]. rewrite Htab, bool_decide_false by lia.
    revert Hold. unfold virt_to_phys. pose proof (window_range k off ltac:(lia) ltac:(lia)).
    destruct (Z.eqb_spec (window k off) 0); [lia|]. intros Hold.
    assert (runs (virt_to_phys (window k off)) s
      (fun q _ => q = Z.lor (ent_get_phys (kptab s k)) off)) as Hnew by (apply virt_to_phys_window; [lia|lia|done]).
    unfold virt_to_phys in Hnew. destruct (Z.eqb_spec (window k off) 0); [lia|].
    unfold runs in *. revert Hold Hnew. destruct (tab_lookup_addr _ _ s) as [[q ?]| | |]; [by intros -> ->|done..].
Qed.

Lemma map_pages_roundtrip_witness :
  runs (map_pages 0x5000 2) (Mmu (fun _ => 0) 7 false) (fun v s' =>
    runs (virt_to_phys (v + PAGE_SIZE * 1)) s' (fun p _ => p = 0x6000)).
Proof.
  eapply runs_mono; [apply (map_pages_roundtrip (Mmu (fun _ => 0) 7 false) 0x5000 2 1)|].
  1-6: unfold PAGE_SIZE; first [lia | reflexivity | simpl; lia].
  intros v s' [H _]. exact H.
Defined.

(** The window is never refilled and its end is not checked.  Once
    2^18 pages have been mapped, any further [map_pages] writes outside [kptab]. *)
Theorem map_pages_exhausted s phys n :
  kernel_next_page s = 2 ^ 18 -> map_lock s = false -> 0 < n -> map_pages phys n s = Fault.
Proof.
  intros Hk Hlock Hn. unfold map_pages, mbind, M_bind, acquire_map_lock. rewrite Hlock.
  destruct (Z.to_nat n) as [|m] eqn:Hm; [lia|].
  unfold get_next_virt, get, mret, M_ret, mbind, M_bind. cbn [forM kernel_next_page].
  unfold do_map_page, get_next_virt, get, mret, M_ret, mbind, M_bind, modify. cbn [kernel_next_page].
  rewrite Hk. reflexivity.
Qed.

Lemma map_pages_exhausted_witness : map_pages 0 1 (Mmu (fun _ => 0) (2 ^ 18) false) = Fault.
Proof. apply (map_pages_exhausted (Mmu (fun _ => 0) (2 ^ 18) false) 0 1); [reflexivity|reflexivity|lia]. Defined.

(** ** Directories *)

Definition dir_entry (kptab_addr i : Z) : Z :=
  if i <? 768 then 0 else (kptab_addr - VIRTUAL_BASE) + PAGE_SIZE * (i - 768) + 3.

(** Every directory [build_page_dir] makes shares the kernel: whatever the
    page held before, user entries 0..767 are cleared and entry [768 + i] points at
    the frame of [kptab[i]], present, writable and not accessible to user mode. *)
Theorem build_page_dir_correct kptab_addr d :
  VIRTUAL_BASE <= kptab_addr -> kptab_addr mod PAGE_SIZE = 0 ->
  kptab_addr + PAGE_SIZE * KERNEL_NUM_TABLES <= 2 ^ 32 ->
  runs (build_page_dir kptab_addr) d (fun _ d' =>
    forall i, 0 <= i < NUM_ENTRIES -> d' i = dir_entry kptab_addr i).
Proof.
  unfold VIRTUAL_BASE, PAGE_SIZE, KERNEL_NUM_TABLES, NUM_ENTRIES. intros Hlo Hal Hhi.
  unfold build_page_dir. mstep.
  eapply runs_mono; [apply (runs_forM (fun i d' => forall j, 0 <= j < i -> d' j = 0))|].
  - intros j Hj. lia.
  - intros i d' _ IH. unfold direntry_clear, direntry_set. mstep. intros j Hj.
    destruct (decide (j = i)) as [->|]; [|rewrite fn_insert_ne by lia; apply IH; lia].
    rewrite fn_insert_eq, ent_set_split by lia. done.
  - intros [] d1 Hd1. cbn beta zeta.
    eapply runs_mono; [apply (runs_forM (fun i d' => forall j, 0 <= j < 768 + i ->
      d' j = dir_entry kptab_addr j))|].
    + intros j Hj. unfold dir_entry. destruct (Z.ltb_spec j 768); [|lia]. apply Hd1.
      change (Z.of_nat (Z.to_nat (NUM_ENTRIES - KERNEL_NUM_TABLES))) with 768. lia.
    + change (Z.of_nat (Z.to_nat KERNEL_NUM_TABLES)) with 256. intros i d' Hi IH.
      unfold kvirt_to_phys, direntry_set. do 3 mstep.
      { unfold VIRTUAL_BASE, PAGE_SIZE. apply Z.ltb_ge. lia. }
      do 2 mstep. change (VIRTUAL_BASE / PAGE_SIZE / NUM_ENTRIES) with 768.
      unfold VIRTUAL_BASE, PAGE_SIZE. rewrite uwrap_small by lia.
      intros j Hj. destruct (decide (j = i + 768)) as [->|]; [|rewrite fn_insert_ne by lia; apply IH; lia].
      rewrite fn_insert_eq, ent_set_split by lia. unfold dir_entry, VIRTUAL_BASE, PAGE_SIZE.
      destruct (Z.ltb_spec (i + 768) 768); [lia|].
      change (Z.lor MMUFLAG_PRESENT MMUFLAG_WRITABLE mod 2 ^ 12) with 3.
      pose proof (Z.div_mod (kptab_addr + 4096 * i - 3221225472) (2 ^ 12)).
      assert ((kptab_addr + 4096 * i - 3221225472) mod 2 ^ 12 = 0) as Hz; [|lia].
      replace (kptab_addr + 4096 * i - 3221225472) with (kptab_addr + (i - 786432) * 2 ^ 12) by lia.
      rewrite Z_mod_plus_full. exact Hal.
    + intros [] d2 Hd2. cbn beta in Hd2. change (Z.of_nat (Z.to_nat KERNEL_NUM_TABLES)) with 256 in Hd2.
      intros i Hi. apply Hd2. lia.
Qed.

Lemma build_page_dir_correct_witness :
  runs (build_page_dir 0xC0200000) (fun i => i) (fun _ d' =>
    forall i, 0 <= i < NUM_ENTRIES -> d' i = dir_entry 0xC0200000 i).
Proof. apply build_page_dir_correct; [unfold VIRTUAL_BASE; lia|reflexivity|unfold PAGE_SIZE, KERNEL_NUM_TABLES; lia]. Defined.
