(* ===== verification/Mm.v ===== *)
(** * Mm: the page allocator, kernel/src/mm/mm.c

    The operations of the buddy allocator, of the boot-time discovery of free
    memory and of [kernel/src/mm/module.c]'s page bookkeeping, as the source has
    them.  A [page_t *] is the index of its element of [pages]; an index outside
    the array is a [Fault].  The [list] field of page [i] is the list node [inr i]
    and [free_page_list[o]] is the node [inl o].  The proofs are in [Buddy]. *)

From S2P Require Import Prelude Words CList CString Mmu.

Definition MAX_ORDER : Z := 10.
Definition ADDRESS_SPACE_SIZE : Z := 4294967295.

Definition PAGE_FLAG_USED : Z := 1 <<< 0.
Definition PAGE_FLAG_PERM : Z := 1 <<< 1.
Definition PAGE_FLAG_USER : Z := 1 <<< 2.
Definition PAGE_FLAG_CACHE : Z := 1 <<< 3.

Definition ALLOC_CACHE : Z := 1 <<< 0.
Definition ALLOC_COMPOUND : Z := 1 <<< 1.
Definition ALLOC_ZERO : Z := 1 <<< 2.

(** [struct page], less its list node. *)
Record page := Page {
  addr : Z;
  flags : Z;
  order : Z;
  compound_num : Z;
}.

Definition sizeof_page : Z := 20.
Definition MALLOC_NUM_PAGES : Z := DIV_UP (sizeof_page * NUM_ENTRIES * NUM_ENTRIES) PAGE_SIZE.
Definition MALLOC_SIZE : Z := MALLOC_NUM_PAGES * PAGE_SIZE.

(** The length of the [pages] array. *)
Definition NPAGES : Z := NUM_ENTRIES * NUM_ENTRIES.

Abbreviation node := (Z + Z)%type.

Record mm := Mm {
  pages : Z -> page;
  lists : lmem node;
  pages_in_use : Z;
  pages_avaliable : Z;
  alloc_lock : bool;
  kmap : mmu;
  init_page_directory : Z -> Z;
  vmem : mem;
}.

Definition set_pages (v : Z -> page) (s : mm) : mm :=
  Mm v (lists s) (pages_in_use s) (pages_avaliable s) (alloc_lock s) (kmap s) (init_page_directory s) (vmem s).
Definition set_lists (v : lmem node) (s : mm) : mm :=
  Mm (pages s) v (pages_in_use s) (pages_avaliable s) (alloc_lock s) (kmap s) (init_page_directory s) (vmem s).
Definition set_in_use (v : Z) (s : mm) : mm :=
  Mm (pages s) (lists s) v (pages_avaliable s) (alloc_lock s) (kmap s) (init_page_directory s) (vmem s).
Definition set_avaliable (v : Z) (s : mm) : mm :=
  Mm (pages s) (lists s) (pages_in_use s) v (alloc_lock s) (kmap s) (init_page_directory s) (vmem s).
Definition set_alloc_lock (v : bool) (s : mm) : mm :=
  Mm (pages s) (lists s) (pages_in_use s) (pages_avaliable s) v (kmap s) (init_page_directory s) (vmem s).
Definition set_kmap (v : mmu) (s : mm) : mm :=
  Mm (pages s) (lists s) (pages_in_use s) (pages_avaliable s) (alloc_lock s) v (init_page_directory s) (vmem s).
Definition set_vmem (v : mem) (s : mm) : mm :=
  Mm (pages s) (lists s) (pages_in_use s) (pages_avaliable s) (alloc_lock s) (kmap s) (init_page_directory s) v.

Definition set_init_dir (v : Z -> Z) (s : mm) : mm :=
  Mm (pages s) (lists s) (pages_in_use s) (pages_avaliable s) (alloc_lock s) (kmap s) v (vmem s).

Definition pg_set_addr (v : Z) (p : page) : page := Page v (flags p) (order p) (compound_num p).
Definition pg_set_flags (v : Z) (p : page) : page := Page (addr p) (u8 v) (order p) (compound_num p).
Definition pg_set_order (v : Z) (p : page) : page := Page (addr p) (flags p) (u8 v) (compound_num p).
Definition pg_set_compound (v : Z) (p : page) : page := Page (addr p) (flags p) (order p) v.

Definition in_array (i : Z) : bool := (0 <=? i) && (i <? NPAGES).

Definition page_at (i : Z) : M mm page :=
  read (fun s => if in_array i then Some (pages s i) else None).
Definition upd_page (i : Z) (f : page -> page) : M mm unit := fun s =>
  if in_array i then Done (tt, set_pages (<[i := f (pages s i)]> (pages s)) s) else Fault.

Definition with_lists {A} (m : M (lmem node) A) : M mm A := lift lists set_lists m.
Definition with_kmap {A} (m : M mmu A) : M mm A := lift kmap set_kmap m.
Definition with_init_dir {A} (m : M (Z -> Z) A) : M mm A := lift init_page_directory set_init_dir m.
Definition with_vmem {A} (m : M mem A) : M mm A := lift vmem set_vmem m.

Definition free_page_list (o : Z) : node := inl o.
Definition page_list (i : Z) : node := inr i.

(** [spin_lock_irqsave(&alloc_lock)]: taking it twice spins for ever. *)
Definition lock_alloc : M mm unit := fun s =>
  if alloc_lock s then NoFuel else Done (tt, set_alloc_lock true s).
Definition unlock_alloc : M mm unit := modify (set_alloc_lock false).

(** ** Blocks and buddies *)

Definition get_order_idx (idx order : Z) : Z := u32 (DIV_DOWN idx (1 <<< order)).

Definition page_is_free (p : page) : bool :=
  negb (has (flags p) PAGE_FLAG_USED) && negb (has (flags p) PAGE_FLAG_PERM).

Definition is_free (i : Z) : M mm bool := p ← page_at i; mret (page_is_free p).

Definition is_master (i : Z) : M mm bool :=
  p ← page_at i; mret (get_order_idx i (order p) mod 2 =? 0).

Definition is_subblock_master (i : Z) : M mm bool :=
  p ← page_at i;
  if order p =? 0 then mret true
  else mret (get_order_idx i (order p - 1) mod 2 =? 0).

Definition get_buddy (i : Z) : M mm Z :=
  m ← is_master i; p ← page_at i;
  if (m : bool) then mret (i + (1 <<< order p)) else mret (i - (1 <<< order p)).

Definition get_master (i : Z) : M mm Z :=
  m ← is_master i;
  if (m : bool) then mret i else get_buddy i.

Definition bug_unless (m : M mm bool) : M mm unit := b ← m; BUG_ON (negb b).

Definition add_to_freelists (i : Z) : M mm unit :=
  bug_unless (is_free i);;
  bug_unless (is_subblock_master i);;
  p ← page_at i;
  with_lists (list_add (page_list i) (free_page_list (order p))).

Definition split_block (master : Z) : M mm Z :=
  bug_unless (is_subblock_master master);;
  p ← page_at master;
  BUG_ON (order p =? 0);;
  upd_page master (fun p => pg_set_order (order p - 1) p);;
  slave ← get_buddy master;
  pm ← page_at master; ps ← page_at slave;
  BUG_ON (negb (order pm =? order ps));;
  bug_unless (is_free master);;
  bug_unless (is_free slave);;
  mret slave.

Definition join_block (i : Z) : M mm Z :=
  master ← get_master i;
  buddy ← get_buddy master;
  b ← get_buddy master;
  pm ← page_at master; pb ← page_at b;
  BUG_ON (negb (order pm =? order pb));;
  BUG_ON (order pm =? MAX_ORDER);;
  bug_unless (is_free master);;
  bug_unless (is_free buddy);;
  upd_page master (fun p => pg_set_order (order p + 1) p);;
  mret master.

(** One round of [trim_block]'s loop; the order of the block in hand falls by one
    in every round, and it is a [uint8_t]. *)
Definition trim_round (v : Z * Z) : M mm (Z * Z + unit) :=
  let '(block, actual) := v in
  if actual =? 0 then panic
  else
    p ← page_at block;
    let block_size := u32 (1 <<< order p) in
    if actual =? block_size then mret (inr tt)
    else
      BUG_ON (order p =? 0);;
      bug_unless (is_free block);;
      BUG_ON (block_size <? actual);;
      buddy ← split_block block;
      if actual <=? block_size >>> 1 then
        bug_unless (is_free buddy);;
        add_to_freelists buddy;;
        mret (inl (block, actual))
      else
        p ← page_at block;
        mret (inl (buddy, u32 (Z.lxor actual (1 <<< order p)))).

Definition trim_fuel : nat := Z.to_nat 257.

Definition trim_block (block actual : Z) : M mm unit :=
  BUG_ON (actual =? 0);;
  bug_unless (is_free block);;
  iterM trim_fuel trim_round (block, actual).

(** One round of [ripple_join]'s loop; the block's order rises by one in every round
    and stops at [MAX_ORDER]. *)
Definition ripple_round (v : Z * Z) : M mm (Z * Z + Z) :=
  let '(block, buddy) := v in
  fr ← is_free buddy;
  if negb fr then mret (inr block)
  else
    pb ← page_at buddy; p ← page_at block;
    if negb (order pb =? order p) then mret (inr block)
    else if negb (order p <? MAX_ORDER) then mret (inr block)
    else
      with_lists (list_rm (page_list buddy));;
      block' ← join_block block;
      buddy' ← get_buddy block';
      bug_unless (is_free block');;
      mret (inl (block', buddy')).

Definition ripple_fuel : nat := 12.

Definition ripple_join (i : Z) : M mm unit :=
  bug_unless (is_free i);;
  buddy ← get_buddy i;
  block ← iterM ripple_fuel ripple_round (i, buddy);
  add_to_freelists block.

(** ** Allocation *)

(** [log2(number)] of a run-time value; it has no result for 0. *)
Definition run_log2 {S} (n : Z) : M S Z := read (fun _ => log2_32 n).

(** One round of [do_alloc_pages]'s loop over the orders. *)
Definition alloc_round (number o : Z) : M mm (Z + Z) :=
  if MAX_ORDER <? o then panic
  else
    em ← with_lists (list_empty (free_page_list o));
    if negb em then
      nd ← with_lists (next_of (free_page_list o));
      block ← read (fun _ => match nd with inr i => Some i | inl _ => None end);
      p ← page_at block;
      BUG_ON (has (flags p) PAGE_FLAG_USED);;
      with_lists (list_rm (page_list block));;
      trim_block block number;;
      forM 0 (Z.to_nat number) (fun i =>
        p ← page_at (block + i);
        BUG_ON (negb (flags p =? 0));;
        upd_page (block + i) (fun p => pg_set_flags (Z.lor (flags p) PAGE_FLAG_USED) p));;
      modify (fun s => set_in_use (u32 (pages_in_use s + number)) s);;
      mret (inr block)
    else mret (inl (u32 (o + 1))).

Definition do_alloc_pages (number : Z) : M mm Z :=
  t ← run_log2 number;
  let target_order := if negb (Z.lxor number (1 <<< t) =? 0) then u32 (t + 1) else t in
  iterM ripple_fuel (alloc_round number) target_order.

Definition page_to_phys (i : Z) : Z := u32 (i * PAGE_SIZE).
Definition page_to_virt (i : Z) : M mm Z := p ← page_at i; mret (addr p).
Definition phys_to_page (a : Z) : Z := phys_to_pageidx a.
Definition phys_to_virt (a : Z) : M mm Z := page_to_virt (phys_to_page a).
Definition virt_to_page (a : Z) : M mm Z := p ← with_kmap (virt_to_phys a); mret (phys_to_page p).

Definition _alloc_pages (num fl : Z) : M mm Z :=
  lock_alloc;;
  pgs ← do_alloc_pages num;
  first ← with_kmap (map_pages (page_to_phys pgs) num);
  forM 0 (Z.to_nat num) (fun i =>
    upd_page (pgs + i) (pg_set_addr (u32 (first + PAGE_SIZE * i)));;
    p ← page_at (pgs + i);
    BUG_ON (negb (has (flags p) PAGE_FLAG_USED));;
    BUG_ON (has (flags p) PAGE_FLAG_PERM);;
    if has fl ALLOC_CACHE
    then upd_page (pgs + i) (fun p => pg_set_flags (Z.lor (flags p) PAGE_FLAG_CACHE) p)
    else mret tt);;
  (if has fl ALLOC_COMPOUND then upd_page pgs (pg_set_compound num) else mret tt);;
  (if has fl ALLOC_ZERO
   then with_vmem (memset first 0 (Z.to_nat (u32 (num * PAGE_SIZE))));; mret tt
   else mret tt);;
  unlock_alloc;;
  mret pgs.

Definition alloc_page (fl : Z) : M mm Z := _alloc_pages 1 fl.
Definition alloc_pages (num fl : Z) : M mm Z := _alloc_pages num fl.

(** ** Freeing *)

Definition free_page (i : Z) : M mm unit :=
  lock_alloc;;
  p ← page_at i;
  let page_size := u32 (1 <<< order p) in
  modify (fun s => set_in_use (u32 (pages_in_use s - page_size)) s);;
  forM 0 (Z.to_nat page_size) (fun j =>
    p ← page_at (i + j);
    BUG_ON (has (flags p) PAGE_FLAG_PERM);;
    BUG_ON (negb (has (flags p) PAGE_FLAG_USED));;
    upd_page (i + j) (pg_set_flags 0));;
  ripple_join i;;
  unlock_alloc.

(** [num] loses its top bit in every round: 32 rounds are enough. *)
Definition free_pages (i num : Z) : M mm unit :=
  upd_page i (pg_set_compound 0);;
  iterM 33 (fun '(master, num) =>
    if num =? 0 then mret (inr tt)
    else
      l ← run_log2 num;
      let block_size := u32 (1 <<< l) in
      p ← page_at master;
      BUG_ON (num =? order p);;
      free_page master;;
      mret (inl (master + block_size, Z.lxor num block_size))) (i, num).

Definition claim_page (idx : Z) : M mm unit :=
  upd_page idx (fun p => pg_set_flags (Z.land (flags p) (Z.lnot PAGE_FLAG_PERM)) p);;
  free_page idx;;
  modify (fun s => set_avaliable (u32 (pages_avaliable s + 1)) s).

Definition claim_pages (idx num : Z) : M mm unit :=
  forM 0 (Z.to_nat num) (fun i => claim_page (u32 (idx + i))).

(** ** Boot: which pages are free *)

Definition MULTIBOOT_MEMORY_AVAILABLE : Z := 1.
Definition MMAP_BUFF_SIZE : Z := 256.
Definition MAX_MODULES : Z := 256.

Record mmap_entry := MmapEntry { mm_addr : Z; mm_len : Z; mm_type : Z }.
Record module := Module { mod_start : Z; mod_end : Z; mod_cmdline : Z }.

(** What the boot loader and the linker hand the allocator: the multiboot memory map
    and module list, the image's addresses, the symbol tables [debug_init] found. *)
Record boot := Boot {
  image_start : Z;
  image_end : Z;
  init_mem_start : Z;
  init_mem_end : Z;
  strtab : Z;
  strtabsz : Z;
  symtab : Z;
  symtabsz : Z;
  mbi_mods : list module;
  mbi_mmap : list mmap_entry;
  kptab_addr : Z;
  init_dir_addr : Z;
}.

(** The file-scope variables [mm_init] computes. *)
Record layout := Layout {
  kernel_start : Z;
  kernel_end : Z;
  malloc_start : Z;
  malloc_end : Z;
  modules : list module;
  mmap : list mmap_entry;
}.

Definition debug_kernel_start (b : boot) (raw : Z) : Z :=
  let raw := if negb (strtab b =? 0) then MIN raw (strtab b) else raw in
  if negb (symtab b =? 0) then MIN raw (symtab b) else raw.

(** [symtab] is a pointer to symbols of 16 bytes, and [symtabsz], a number of bytes, is added to it as it is. *)
Definition ELF_SYMBOL_SIZE : Z := 16.
Definition debug_kernel_end (b : boot) (raw : Z) : Z :=
  let raw := if negb (strtab b =? 0) then MAX raw (u32 (strtab b + strtabsz b)) else raw in
  if negb (symtab b =? 0) then MAX raw (u32 (symtab b + ELF_SYMBOL_SIZE * symtabsz b)) else raw.

Definition page_is_between_addr (idx start end_ : Z) : bool :=
  let start_idx := DIV_DOWN start PAGE_SIZE in
  let end_idx := DIV_DOWN end_ PAGE_SIZE in
  (start_idx <=? idx) && (idx <=? end_idx).

Definition is_kernel_page (l : layout) (idx : Z) : bool :=
  page_is_between_addr idx (kernel_start l) (kernel_end l).
Definition is_malloc_page (l : layout) (idx : Z) : bool :=
  page_is_between_addr idx (malloc_start l) (malloc_end l).

(** *** module.c *)

Definition module_init (b : boot) : list module := firstn (Z.to_nat MAX_MODULES) (mbi_mods b).

Definition get_page (phys : Z) : Z := phys / PAGE_SIZE.

Definition is_module_page (l : layout) (idx : Z) : bool :=
  existsb (fun m => (get_page (mod_start m) <=? idx) && (idx <=? get_page (mod_end m))) (modules l).

Definition region_end (e : mmap_entry) : Z :=
  let end_ := DIV_UP (mm_addr e + mm_len e) PAGE_SIZE in
  if end_ >? ADDRESS_SPACE_SIZE / PAGE_SIZE then ADDRESS_SPACE_SIZE / PAGE_SIZE else end_.

(** The inner loop of [find_region]: [start] up to [end_], with the length and the
    first page of the run found so far. *)
Fixpoint find_run (l : layout) (num_pages : Z) (n : nat) (start reg_len reg_start : Z) : option Z :=
  match n with
  | O => None
  | S n' =>
      let reg_start := if reg_len =? 0 then start else reg_start in
      let reg_len := if is_kernel_page l start || is_module_page l start then 0 else reg_len + 1 in
      if reg_len >=? num_pages then Some (u32 (reg_start * PAGE_SIZE))
      else find_run l num_pages n' (start + 1) reg_len reg_start
  end.

Fixpoint find_region_in (l : layout) (num_pages : Z) (es : list mmap_entry) : Z :=
  match es with
  | [] => 0
  | e :: es' =>
      if negb (mm_type e =? MULTIBOOT_MEMORY_AVAILABLE) then find_region_in l num_pages es'
      else if mm_addr e >=? ADDRESS_SPACE_SIZE then find_region_in l num_pages es'
      else
        let start := DIV_UP (mm_addr e) PAGE_SIZE in
        let end_ := region_end e in
        if u64 (end_ - start) <? num_pages then find_region_in l num_pages es'
        else match find_run l num_pages (Z.to_nat (end_ - start)) start 0 0 with
             | Some r => r
             | None => find_region_in l num_pages es'
             end
  end.

Definition find_region (l : layout) (num_pages : Z) : Z := find_region_in l num_pages (mmap l).

Definition claim_region (l : layout) (e : mmap_entry) : M mm unit :=
  if negb (mm_type e =? MULTIBOOT_MEMORY_AVAILABLE) then mret tt
  else if mm_addr e >=? ADDRESS_SPACE_SIZE then mret tt
  else
    let start := DIV_UP (mm_addr e) PAGE_SIZE in
    forM start (Z.to_nat (region_end e - start)) (fun j =>
      if negb (is_kernel_page l j) && negb (is_module_page l j) && negb (is_malloc_page l j)
      then claim_page j else mret tt).

Fixpoint find_free_pages (l : layout) (es : list mmap_entry) : M mm unit :=
  match es with
  | [] => mret tt
  | e :: es' => claim_region l e;; find_free_pages l es'
  end.

(** [mmu_init]; [remaps] is what [bios_early_remap], [console_early_remap] and
    [debug_remap] do to the kernel's window. *)
Definition mmu_init (b : boot) (remaps : M mmu unit) (kernel_end malloc_start : Z) : M mm Z :=
  modify (fun s => set_kmap (Mmu (kptab (kmap s)) 0 (map_lock (kmap s))) s);;
  with_kmap (map_pages 0 (DIV_UP kernel_end PAGE_SIZE));;
  pgs ← with_kmap (map_pages malloc_start MALLOC_NUM_PAGES);
  with_init_dir (build_page_dir (kptab_addr b));;
  kvirt_to_phys (init_dir_addr b);;
  with_kmap remaps;;
  mret pgs.

Definition fresh_page : page :=
  Page 0 (Z.lor PAGE_FLAG_PERM PAGE_FLAG_USED) 0 0.

Definition mm_init (b : boot) (remaps : M mmu unit) : M mm layout :=
  forM 0 (Z.to_nat (MAX_ORDER + 1)) (fun i => with_lists (list_init (free_page_list i)));;
  let l0 := Layout (debug_kernel_start b (image_start b)) (debug_kernel_end b (image_end b)) 0 0
              (module_init b) (mbi_mmap b) in
  BUG_ON (Z.of_nat (length (mbi_mmap b)) >? MMAP_BUFF_SIZE);;
  let ms := find_region l0 MALLOC_NUM_PAGES in
  BUG_ON (ms =? 0);;
  let l := Layout (kernel_start l0) (kernel_end l0) ms (u32 (ms + MALLOC_SIZE)) (modules l0) (mmap l0) in
  mmu_init b remaps (kernel_end l) (malloc_start l);;
  forM 0 (Z.to_nat NPAGES) (fun i => upd_page i (fun _ => fresh_page));;
  find_free_pages l (mmap l);;
  modify (set_in_use 0);;
  mret l.

Definition mm_postinit_reclaim (b : boot) : M mm unit :=
  let npages := DIV_UP (u32 (init_mem_end b - init_mem_start b)) PAGE_SIZE in
  let page_start := init_mem_start b / PAGE_SIZE in
  forM 0 (Z.to_nat npages) (fun i => claim_page (u32 (page_start + i))).

(** [rootramfs_load] is a parameter here. *)
Definition module_load (l : layout) (rootramfs_load : Z -> Z -> M mm unit) : M mm unit :=
  foldr (fun m k =>
    let num_pages := DIV_UP (u32 (mod_end m - mod_start m)) PAGE_SIZE in
    virt ← with_kmap (map_pages (mod_start m) num_pages);
    rootramfs_load virt (u32 (mod_end m - mod_start m));;
    k)
  (foldr (fun m k =>
    let first_page := DIV_UP (mod_start m) PAGE_SIZE in
    let last_page := DIV_DOWN (mod_end m) PAGE_SIZE in
    claim_pages first_page (u32 (last_page - first_page));;
    k) (mret tt) (modules l)) (modules l).
