(* ===== verification/Buddy.v ===== *)
(** * Buddy: the page allocator's invariant and its theorems

    Ghost state: [own] maps every page to the first page of its block, [fl o] is
    what the free list of order [o] holds, [hand] are the free pages the running
    operation has taken off the lists and not yet given away. *)

From S2P Require Import Prelude Words CList CString Mmu Mm.

(** ** Arithmetic of aligned blocks *)

Definition aligned (p o : Z) : Prop := (2 ^ o | p).

(** The block of order [o] that shares its parent with [p]'s. *)
Definition buddy (p o : Z) : Z := if (p / 2 ^ o) mod 2 =? 0 then p + 2 ^ o else p - 2 ^ o.

(** The largest power of two dividing [b] is [2 ^ k]. *)
Definition exact (b k : Z) : Prop := 0 <= k /\ exists c, b = 2 ^ k * (2 * c + 1).

Lemma pow2_split a b : 0 <= a <= b -> 2 ^ b = 2 ^ a * 2 ^ (b - a).
Proof. intros. rewrite <- Z.pow_add_r by lia. f_equal. lia. Qed.

Lemma pow2_pred o : 1 <= o -> 2 ^ o = 2 * 2 ^ (o - 1).
Proof. intros. replace o with (o - 1 + 1) at 1 by lia. rewrite pow2_succ; lia. Qed.

Lemma aligned_le p o k : 0 <= k <= o -> aligned p o -> aligned p k.
Proof.
  intros Hk [a ->]. exists (a * 2 ^ (o - k)). rewrite (pow2_split k o) by lia. lia.
Qed.

Lemma aligned_npages o : 0 <= o <= MAX_ORDER + 1 -> aligned NPAGES o.
Proof.
  unfold MAX_ORDER. intros Ho. apply (aligned_le _ 20); [lia|]. by exists 1.
Qed.

(** Two aligned blocks that meet: the smaller lies in the larger. *)
Lemma block_nested p o q k i :
  0 <= o <= k -> aligned p o -> aligned q k ->
  p <= i < p + 2 ^ o -> q <= i < q + 2 ^ k -> q <= p /\ p + 2 ^ o <= q + 2 ^ k.
Proof.
  intros Ho [a ->] [b ->] Hp Hq. rewrite (pow2_split o k) in * by lia.
  pose proof (pow2_pos o). pose proof (pow2_pos (k - o)). set (x := 2 ^ o) in *. set (y := 2 ^ (k - o)) in *.
  assert (b * y < a + 1) by (apply (Z.mul_lt_mono_pos_r x); lia).
  assert (a < b * y + y) by (apply (Z.mul_lt_mono_pos_r x); lia). nia.
Qed.

Lemma block_fits p o : 0 <= o <= MAX_ORDER + 1 -> aligned p o -> p < NPAGES -> p + 2 ^ o <= NPAGES.
Proof.
  intros Ho [a ->] Hlt. destruct (aligned_npages o Ho) as [b Hb]. pose proof (pow2_pos o ltac:(lia)).
  rewrite Hb in *. assert (a < b) by (apply (Z.mul_lt_mono_pos_r (2 ^ o)); lia). nia.
Qed.

Lemma exact_aligned b k o : exact b k -> 0 <= o -> aligned b o -> o <= k.
Proof.
  intros [Hk [c ->]] Ho [a Ha]. destruct (Z.le_gt_cases o k) as [|Hgt]; [done|].
  rewrite (pow2_split (k + 1) o), pow2_succ in Ha by lia. pose proof (pow2_pos k Hk).
  set (z := 2 ^ (o - (k + 1))) in *.
  assert (2 * c + 1 = 2 * (a * z)); [|lia]. apply (Z.mul_reg_l _ _ (2 ^ k)); lia.
Qed.

Lemma exact_upper m k : 0 <= k -> aligned m (k + 1) -> exact (m + 2 ^ k) k.
Proof.
  intros Hk [a ->]. split; [done|]. exists a. rewrite pow2_succ by lia. lia.
Qed.

(** The two halves of a block: lower and upper buddy. *)
Lemma buddy_cases p o : 0 <= o -> aligned p o ->
  (aligned p (o + 1) /\ buddy p o = p + 2 ^ o) \/
  (exact p o /\ aligned (p - 2 ^ o) (o + 1) /\ buddy p o = p - 2 ^ o).
Proof.
  intros Ho [a ->]. unfold buddy. pose proof (pow2_pos o Ho). rewrite Z.div_mul by lia.
  pose proof (Z.div_mod a 2 ltac:(lia)). destruct (Z.eqb_spec (a mod 2) 0) as [E|E].
  - left. split; [|done]. exists (a / 2). rewrite pow2_succ by lia. nia.
  - right. pose proof (Z.mod_pos_bound a 2 ltac:(lia)). split; [|split; [|done]].
    + split; [done|]. exists (a / 2). nia.
    + exists (a / 2). rewrite pow2_succ by lia. nia.
Qed.

Lemma buddy_lower p o : 0 <= o -> aligned p (o + 1) -> buddy p o = p + 2 ^ o.
Proof.
  intros Ho [a ->]. unfold buddy. rewrite pow2_succ by lia. pose proof (pow2_pos o Ho).
  replace (a * (2 * 2 ^ o)) with ((2 * a) * 2 ^ o) by lia. rewrite Z.div_mul by lia.
  rewrite (Z.mul_comm 2 a), Z_mod_mult. done.
Qed.

Lemma buddy_upper m o : 0 <= o -> aligned m (o + 1) -> buddy (m + 2 ^ o) o = m.
Proof.
  intros Ho [a ->]. unfold buddy. rewrite pow2_succ by lia. pose proof (pow2_pos o Ho).
  replace (a * (2 * 2 ^ o) + 2 ^ o) with ((1 + a * 2) * 2 ^ o) by lia. rewrite Z.div_mul by lia.
  rewrite Z_mod_plus_full. change (1 mod 2 =? 0) with false. cbn [negb]. lia.
Qed.

Lemma aligned_upper m o : 0 <= o -> aligned m (o + 1) -> aligned (m + 2 ^ o) o.
Proof. intros Ho [a ->]. exists (2 * a + 1). rewrite pow2_succ by lia. lia. Qed.

Lemma buddy_aligned p o : 0 <= o -> aligned p o -> aligned (buddy p o) o.
Proof.
  intros Ho Hp. destruct (buddy_cases p o Ho Hp) as [[H ->]|(_ & H & ->)].
  - by apply aligned_upper.
  - apply (aligned_le _ (o + 1)); [lia|done].
Qed.

Lemma buddy_range p o : 0 <= o <= MAX_ORDER -> aligned p o -> 0 <= p < NPAGES -> 0 <= buddy p o < NPAGES.
Proof.
  intros Ho Hp Hr. pose proof (pow2_pos o ltac:(lia)).
  destruct (buddy_cases p o) as [[H1 ->]|(_ & [a Ha] & ->)]; [lia|done| |].
  - pose proof (block_fits p (o + 1) ltac:(lia) H1 ltac:(lia)) as Hf. rewrite pow2_succ in Hf; lia.
  - rewrite Ha. rewrite pow2_succ in Ha |- * by lia. split; [|lia].
    assert (0 <= a) by nia. nia.
Qed.

Lemma aligned_div_even p o : 0 <= o -> aligned p (o + 1) -> (p / 2 ^ o) mod 2 = 0.
Proof.
  intros Ho [a ->]. rewrite pow2_succ by lia. pose proof (pow2_pos o Ho).
  replace (a * (2 * 2 ^ o)) with ((a * 2) * 2 ^ o) by lia. rewrite Z.div_mul by lia. apply Z_mod_mult.
Qed.

Lemma pow2_le_1024 o : 0 <= o <= MAX_ORDER -> 1 <= 2 ^ o <= 1024.
Proof.
  unfold MAX_ORDER. intros Ho. pose proof (pow2_pos o ltac:(lia)). split; [lia|].
  change 1024 with (2 ^ 10). apply Z.pow_le_mono_r; lia.
Qed.

(** ** The invariant *)

Definition inside (i : Z) : Prop := 0 <= i < NPAGES.

(** The block page [i] belongs to. *)
Definition block_of (own : Z -> Z) (ps : Z -> page) (i : Z) : Prop :=
  let p := own i in
  let o := order (ps p) in
  0 <= o <= MAX_ORDER /\ 0 <= p /\ aligned p o /\ p <= i < p + 2 ^ o /\
  (forall j, p <= j < p + 2 ^ o -> own j = p).

(** [p] heads a free block of order [o] that is not in hand. *)
Definition listed (own : Z -> Z) (hand : Z -> bool) (ps : Z -> page) (p o : Z) : Prop :=
  inside p /\ own p = p /\ order (ps p) = o /\ flags (ps p) = 0 /\ hand p = false.

Record wf (own : Z -> Z) (fl : Z -> list Z) (hand : Z -> bool) (ps : Z -> page) (h : lmem node) : Prop := Wf {
  (** every page lies in exactly one aligned block *)
  wf_block : forall i, inside i -> block_of own ps i;
  (** a page inside a block keeps the order its own half would have *)
  wf_inner : forall i, inside i -> own i <> i -> exact i (order (ps i));
  (** a page is free, with no flag at all, or used *)
  wf_flags : forall i, inside i -> flags (ps i) = 0 \/ has (flags (ps i)) PAGE_FLAG_USED = true;
  wf_uniform : forall i, inside i -> flags (ps i) = 0 <-> flags (ps (own i)) = 0;
  wf_hand : forall i, hand i = true -> inside i /\ flags (ps i) = 0;
  wf_hand_own : forall i, inside i -> hand (own i) = hand i;
  (** the free lists hold exactly the free blocks, by order *)
  wf_lists : forall o, 0 <= o <= MAX_ORDER -> is_list h (free_page_list o) (page_list <$> fl o);
  wf_listed : forall o p, 0 <= o <= MAX_ORDER -> p ∈ fl o <-> listed own hand ps p o;
  (** no two buddies are both free *)
  wf_coalesced : forall p o, 0 <= o < MAX_ORDER -> listed own hand ps p o ->
    ~ listed own hand ps (buddy p o) o;
}.

Lemma in_array_inside i : in_array i = true <-> inside i.
Proof. unfold in_array, inside. rewrite andb_true_iff, Z.leb_le, Z.ltb_lt. done. Qed.

Section Facts.
Context {own : Z -> Z} {fl : Z -> list Z} {hand : Z -> bool} {ps : Z -> page} {h : lmem node}.
Hypothesis Hwf : wf own fl hand ps h.

Lemma own_inside i : inside i -> inside (own i) /\ own (own i) = own i.
Proof.
  intros Hi. destruct (wf_block _ _ _ _ _ Hwf i Hi) as (Ho & Hp & Hal & Hin & Hown).
  pose proof (pow2_pos (order (ps (own i))) ltac:(lia)). split.
  - unfold inside in *. lia.
  - apply Hown. lia.
Qed.

(** A block head, its order and its extent. *)
Lemma head_block p : inside p -> own p = p ->
  0 <= order (ps p) <= MAX_ORDER /\ aligned p (order (ps p)) /\ p + 2 ^ order (ps p) <= NPAGES /\
  (forall j, p <= j < p + 2 ^ order (ps p) <-> inside j /\ own j = p).
Proof.
  intros Hp Ep. destruct (wf_block _ _ _ _ _ Hwf p Hp) as (Ho & Hp0 & Hal & Hin & Hown).
  rewrite Ep in *. pose proof (block_fits p (order (ps p)) ltac:(lia) Hal ltac:(unfold inside in Hp; lia)) as Hf.
  split; [done|]. split; [done|]. split; [done|]. intros j. split.
  - intros Hj. split; [unfold inside in *; lia|auto].
  - intros [Hj E]. destruct (wf_block _ _ _ _ _ Hwf j Hj) as (_ & _ & _ & Hj' & _).
    rewrite E in Hj'. lia.
Qed.

(** A page aligned to order [o] that is not a block head lies in a block of order
    above [o] and, if its order field says [o], is the upper half of its pair. *)
Lemma inner_above i o : inside i -> own i <> i -> 0 <= o -> aligned i o -> o < order (ps (own i)).
Proof.
  intros Hi Hne Ho Hal. destruct (wf_block _ _ _ _ _ Hwf i Hi) as (Hr & Hp & Hpal & Hin & Hown).
  destruct (Z.le_gt_cases (order (ps (own i))) o) as [Hle|]; [|lia].
  pose proof (pow2_pos o Ho).
  destruct (block_nested (own i) (order (ps (own i))) i o i) as [Hn _]; [lia|done|done|lia|lia|].
  lia.
Qed.

(** What the test of [ripple_join] decides: a free page with the block's order at
    the buddy's place is a free block of that order. *)
Lemma buddy_is_block p : inside p -> own p = p -> order (ps p) <= MAX_ORDER ->
  let b := buddy p (order (ps p)) in
  order (ps b) = order (ps p) -> inside b /\ own b = b.
Proof.
  intros Hp Ep Hlt b Hob. destruct (head_block p Hp Ep) as (Ho & Hal & Hfit & Hext).
  assert (Hb : inside b) by by apply buddy_range.
  split; [done|]. destruct (decide (own b = b)) as [|Hne]; [done|exfalso].
  assert (Hbal : aligned b (order (ps p))) by (apply buddy_aligned; [lia|done]).
  pose proof (inner_above b (order (ps p)) Hb Hne ltac:(lia) Hbal) as Habove.
  pose proof (wf_inner _ _ _ _ _ Hwf b Hb Hne) as Hex. rewrite Hob in Hex.
  destruct (wf_block _ _ _ _ _ Hwf b Hb) as (Hr & Hq & Hqal & Hin & Hown).
  destruct (buddy_cases p (order (ps p)) ltac:(lia) Hal) as [[Hal' Hbe]|(_ & Hal' & Hbe)].
  - (* [b] is the upper half: its block would contain [p] *)
    fold b in Hbe. pose proof (pow2_pos (order (ps p)) ltac:(lia)).
    destruct (block_nested p (order (ps p) + 1) (own b) (order (ps (own b))) b) as [Hn1 Hn2];
      [lia|done|done|rewrite pow2_succ by lia; lia|done|].
    rewrite pow2_succ in Hn2 by lia.
    assert (own p = own b) by (apply Hown; lia).
    assert (own b <= p) by lia.
    destruct (wf_block _ _ _ _ _ Hwf p Hp) as (_ & _ & _ & _ & Hownp).
    rewrite Ep in *. replace (order (ps p)) with (order (ps (own b))) in Habove by congruence. lia.
  - (* [b] is the lower half: it is aligned to one more than its order *)
    fold b in Hbe. rewrite <- Hbe in Hal'.
    pose proof (exact_aligned b _ (order (ps p) + 1) Hex ltac:(lia) Hal'). lia.
Qed.
End Facts.

(** ** Reading *)

Lemma page_at_spec s i (Q : page -> mm -> Prop) : inside i -> Q (pages s i) s -> runs (page_at i) s Q.
Proof.
  intros Hi HQ. eapply runs_read; [|exact HQ]. by rewrite (proj2 (in_array_inside i) Hi).
Qed.

Lemma upd_page_spec s i f (Q : unit -> mm -> Prop) :
  inside i -> Q tt (set_pages (<[i := f (pages s i)]> (pages s)) s) -> runs (upd_page i f) s Q.
Proof. intros Hi HQ. unfold runs, upd_page. by rewrite (proj2 (in_array_inside i) Hi). Qed.

Lemma is_free_spec s i (Q : bool -> mm -> Prop) :
  inside i -> Q (page_is_free (pages s i)) s -> runs (is_free i) s Q.
Proof. intros Hi HQ. unfold is_free. mstep. apply page_at_spec; [done|]. by mstep. Qed.

Lemma page_is_free_0 p : flags p = 0 -> page_is_free p = true.
Proof. intros E. unfold page_is_free. by rewrite E. Qed.

Lemma page_is_free_used p : has (flags p) PAGE_FLAG_USED = true -> page_is_free p = false.
Proof. intros E. unfold page_is_free. by rewrite E. Qed.

Lemma bug_unless_free s i (Q : unit -> mm -> Prop) :
  inside i -> flags (pages s i) = 0 -> Q tt s -> runs (bug_unless (is_free i)) s Q.
Proof.
  intros Hi Hf HQ. unfold bug_unless. mstep. apply is_free_spec; [done|].
  rewrite page_is_free_0 by done. by mstep.
Qed.

Lemma order_idx_div i o : inside i -> 0 <= o <= MAX_ORDER -> get_order_idx i o = i / 2 ^ o.
Proof.
  unfold inside, NPAGES, NUM_ENTRIES. intros Hi Ho. unfold get_order_idx, DIV_DOWN.
  pose proof (pow2_pos o ltac:(lia)). rewrite shiftl1 by lia. apply uwrap_small.
  split; [apply Z.div_pos; lia|]. apply Z.div_lt_upper_bound; nia.
Qed.

Lemma is_master_spec s i (Q : bool -> mm -> Prop) :
  inside i -> 0 <= order (pages s i) <= MAX_ORDER ->
  Q ((i / 2 ^ order (pages s i)) mod 2 =? 0) s -> runs (is_master i) s Q.
Proof.
  intros Hi Ho HQ. unfold is_master. mstep. apply page_at_spec; [done|]. mstep.
  by rewrite order_idx_div.
Qed.

Lemma get_buddy_spec s i (Q : Z -> mm -> Prop) :
  inside i -> 0 <= order (pages s i) <= MAX_ORDER ->
  Q (buddy i (order (pages s i))) s -> runs (get_buddy i) s Q.
Proof.
  intros Hi Ho HQ. unfold get_buddy. mstep. apply is_master_spec; [done..|]. mstep.
  apply page_at_spec; [done|]. rewrite shiftl1 by lia. unfold buddy in HQ.
  by destruct (_ =? 0); mstep.
Qed.

Lemma get_master_spec s i (Q : Z -> mm -> Prop) :
  inside i -> 0 <= order (pages s i) <= MAX_ORDER -> aligned i (order (pages s i)) ->
  (forall m, (aligned i (order (pages s i) + 1) /\ m = i \/
              aligned m (order (pages s i) + 1) /\ m = i - 2 ^ order (pages s i) /\
              buddy i (order (pages s i)) = m) -> Q m s) ->
  runs (get_master i) s Q.
Proof.
  intros Hi Ho Hal HQ. unfold get_master. mstep. apply is_master_spec; [done..|].
  destruct (buddy_cases i _ (proj1 Ho) Hal) as [[H1 H2]|(_ & H1 & H2)].
  - rewrite aligned_div_even by (done || lia). change (0 =? 0) with true. cbv iota. mstep. apply HQ. by left.
  - destruct (Z.eqb_spec ((i / 2 ^ order (pages s i)) mod 2) 0) as [E|E].
    + unfold buddy in H2. rewrite E in H2. simpl in H2. pose proof (pow2_pos (order (pages s i)) ltac:(lia)). lia.
    + apply get_buddy_spec; [done..|]. apply HQ. right. by rewrite H2.
Qed.

Lemma subblock_master_spec s i (Q : unit -> mm -> Prop) :
  inside i -> 0 <= order (pages s i) <= MAX_ORDER -> aligned i (order (pages s i)) ->
  Q tt s -> runs (bug_unless (is_subblock_master i)) s Q.
Proof.
  intros Hi Ho Hal HQ. unfold bug_unless, is_subblock_master. do 2 mstep. apply page_at_spec; [done|].
  destruct (Z.eqb_spec (order (pages s i)) 0) as [E|E]; [by msteps|]. do 2 mstep; [|done].
  rewrite order_idx_div by (unfold MAX_ORDER in *; lia || done).
  rewrite aligned_div_even; [done|lia|]. by replace (order (pages s i) - 1 + 1) with (order (pages s i)) by lia.
Qed.

(** ** Retiling the pages in hand *)

Definition retile (own : Z -> Z) (m o : Z) (i : Z) : Z :=
  if bool_decide (m <= i < m + 2 ^ o) then m else own i.

Lemma retile_in own m o i : m <= i < m + 2 ^ o -> retile own m o i = m.
Proof. intros. unfold retile. by rewrite bool_decide_true. Qed.
Lemma retile_out own m o i : ~ (m <= i < m + 2 ^ o) -> retile own m o i = own i.
Proof. intros. unfold retile. by rewrite bool_decide_false. Qed.

Lemma exact_self b k : exact b k -> aligned b k.
Proof. intros [_ [c ->]]. exists (2 * c + 1). lia. Qed.

Lemma exact_unique b k k' : exact b k -> exact b k' -> k = k'.
Proof.
  intros H H'. pose proof (exact_aligned b k k' H (proj1 H') (exact_self _ _ H')).
  pose proof (exact_aligned b k' k H' (proj1 H) (exact_self _ _ H)). lia.
Qed.

Lemma set_order_id v p : 0 <= v <= MAX_ORDER -> order (pg_set_order v p) = v.
Proof. unfold MAX_ORDER. intros. apply uwrap_small. lia. Qed.

Lemma set_order_flags v p : flags (pg_set_order v p) = flags p.
Proof. done. Qed.

Lemma listed_ext own own' hand ps ps' :
  (forall i, inside i -> hand i = false -> own' i = own i /\ order (ps' i) = order (ps i)) ->
  (forall i, flags (ps' i) = flags (ps i)) ->
  forall p o, listed own' hand ps' p o <-> listed own hand ps p o.
Proof.
  intros Hext Hfl p o. unfold listed. rewrite Hfl.
  split; intros (Hp & Ep & Eo & Ef & Hh); destruct (Hext p Hp Hh) as [E1 E2];
    repeat (split; [done || congruence|]); done.
Qed.

(** Blocks and orders may change among the pages in hand; everything else follows. *)
Lemma wf_retile own own' fl hand ps ps' h :
  wf own fl hand ps h ->
  (forall i, inside i -> block_of own' ps' i) ->
  (forall i, inside i -> own' i <> i -> exact i (order (ps' i))) ->
  (forall i, inside i -> hand i = false -> own' i = own i /\ order (ps' i) = order (ps i)) ->
  (forall i, flags (ps' i) = flags (ps i)) ->
  (forall i, inside i -> hand i = true -> hand (own' i) = true) ->
  wf own' fl hand ps' h.
Proof.
  intros Hwf Hblk Hinner Hext Hfl Hhand.
  pose proof (listed_ext own own' hand ps ps' Hext Hfl) as Hlist. split.
  - done.
  - done.
  - intros i Hi. rewrite Hfl. by apply (wf_flags _ _ _ _ _ Hwf).
  - intros i Hi. rewrite !Hfl. destruct (hand i) eqn:Hh.
    + destruct (wf_hand _ _ _ _ _ Hwf i Hh) as [_ ->].
      by destruct (wf_hand _ _ _ _ _ Hwf _ (Hhand i Hi Hh)) as [_ ->].
    + destruct (Hext i Hi Hh) as [-> _]. by apply (wf_uniform _ _ _ _ _ Hwf).
  - intros i Hi. rewrite Hfl. by apply (wf_hand _ _ _ _ _ Hwf).
  - intros i Hi. destruct (hand i) eqn:Hh; [by apply Hhand|].
    destruct (Hext i Hi Hh) as [-> _]. rewrite <- Hh. by apply (wf_hand_own _ _ _ _ _ Hwf).
  - apply (wf_lists _ _ _ _ _ Hwf).
  - intros o p Ho. rewrite Hlist. by apply (wf_listed _ _ _ _ _ Hwf).
  - intros p o Ho. rewrite !Hlist. by apply (wf_coalesced _ _ _ _ _ Hwf).
Qed.

(** The blocks that do not meet [m, m + 2 ^ o) are not touched by a retiling there. *)
Lemma block_of_out own fl hand ps ps' h m o i :
  wf own fl hand ps h -> inside i -> ~ (m <= i < m + 2 ^ o) ->
  (forall j, m <= j < m + 2 ^ o -> own j <> own i) ->
  order (ps' (own i)) = order (ps (own i)) ->
  block_of (retile own m o) ps' i.
Proof.
  intros Hwf Hi Hout Hdis Hord. destruct (wf_block _ _ _ _ _ Hwf i Hi) as (Ho & Hp & Hal & Hin & Hown).
  unfold block_of. rewrite retile_out by done. rewrite Hord. repeat (split; [done|]).
  intros j Hj. rewrite retile_out; [by apply Hown|]. intros Hm. apply (Hdis j Hm). by apply Hown.
Qed.

Lemma wf_split own fl hand ps h p :
  wf own fl hand ps h -> inside p -> own p = p -> hand p = true -> 1 <= order (ps p) ->
  let o := order (ps p) in let q := p + 2 ^ (o - 1) in
  order (ps q) = o - 1 /\
  wf (retile own q (o - 1)) fl hand (<[p := pg_set_order (o - 1) (ps p)]> ps) h.
Proof.
  intros Hwf Hp Ep Hh H1 o q. destruct (head_block Hwf p Hp Ep) as (Ho & Hal & Hfit & Hext).
  fold o in Ho, Hal, Hfit, Hext. pose proof (pow2_pred o H1) as Hpow. pose proof (pow2_pos (o - 1) ltac:(lia)).
  assert (Hqi : inside q) by (unfold inside in *; lia).
  assert (Hq : own q = p) by (apply Hext; unfold q; lia).
  assert (Hex : exact q (o - 1)).
  { apply exact_upper; [lia|]. by replace (o - 1 + 1) with o by lia. }
  assert (Hoq : order (ps q) = o - 1).
  { eapply exact_unique; [|exact Hex]. apply (wf_inner _ _ _ _ _ Hwf); [done|lia]. }
  split; [done|].
  assert (Hin : forall j, p <= j < p + 2 ^ o -> own j = p) by (intros j Hj; by apply Hext).
  apply (wf_retile own _ fl hand ps); [done|..].
  - intros i Hi. destruct (decide (q <= i < q + 2 ^ (o - 1))) as [Hi1|Hi1].
    + unfold block_of. rewrite retile_in by done. rewrite fn_insert_ne, Hoq by lia.
      split; [lia|]. split; [unfold inside in *; lia|]. split; [by apply exact_self|]. split; [done|].
      intros j Hj. by apply retile_in.
    + destruct (decide (p <= i < p + 2 ^ o)) as [Hi2|Hi2].
      * unfold block_of. rewrite retile_out, (Hin i) by done. rewrite fn_insert_eq, set_order_id by lia.
        split; [lia|]. split; [unfold inside in *; lia|].
        split; [apply (aligned_le _ o); [lia|done]|]. split; [lia|].
        intros j Hj. rewrite retile_out by lia. apply Hin. lia.
      * assert (own i <> p) by (intros E; apply Hi2, Hext; done).
        apply (block_of_out own fl hand ps _ h); [done..| |].
        -- intros j Hj. rewrite Hin by lia. done.
        -- by rewrite fn_insert_ne.
  - intros i Hi Hne. destruct (decide (i = p)) as [->|Hip].
    { rewrite retile_out in Hne by lia. done. }
    rewrite fn_insert_ne by done. apply (wf_inner _ _ _ _ _ Hwf); [done|].
    destruct (decide (q <= i < q + 2 ^ (o - 1))) as [Hi1|Hi1].
    + rewrite Hin by lia. lia.
    + by rewrite retile_out in Hne.
  - intros i Hi Hnh. assert (own i <> p) as Hno.
    { intros E. pose proof (wf_hand_own _ _ _ _ _ Hwf i Hi) as Hho. rewrite E in Hho. congruence. }
    split.
    + rewrite retile_out; [done|]. intros Hj. apply Hno, Hin. lia.
    + rewrite fn_insert_ne; [done|]. congruence.
  - intros i. destruct (decide (i = p)) as [->|]; [by rewrite fn_insert_eq|by rewrite fn_insert_ne].
  - intros i Hi Hih. destruct (decide (q <= i < q + 2 ^ (o - 1))) as [Hi1|Hi1].
    + rewrite retile_in by done. rewrite <- (wf_hand_own _ _ _ _ _ Hwf q Hqi). by rewrite Hq.
    + rewrite retile_out by done. by rewrite (wf_hand_own _ _ _ _ _ Hwf).
Qed.

(** The pages of two adjacent blocks of order [o]. *)
Lemma pair_extent own fl hand ps h m o i :
  wf own fl hand ps h -> 0 <= o -> inside m -> inside (m + 2 ^ o) ->
  own m = m -> order (ps m) = o -> own (m + 2 ^ o) = m + 2 ^ o -> order (ps (m + 2 ^ o)) = o ->
  m <= i < m + 2 ^ (o + 1) <-> inside i /\ (own i = m \/ own i = m + 2 ^ o).
Proof.
  intros Hwf Ho Hm Hb Em Om Eb Ob. rewrite pow2_succ by done.
  destruct (head_block Hwf m Hm Em) as (_ & _ & _ & Hextm). rewrite Om in Hextm.
  destruct (head_block Hwf _ Hb Eb) as (_ & _ & _ & Hextb). rewrite Ob in Hextb.
  specialize (Hextm i). specialize (Hextb i). split.
  - intros Hi. destruct (Z.lt_ge_cases i (m + 2 ^ o)).
    + destruct Hextm as [H1 _]. destruct H1; [lia|auto].
    + destruct Hextb as [H1 _]. destruct H1; [lia|auto].
  - pose proof (pow2_pos o Ho). intros [Hi [E|E]].
    + destruct Hextm as [_ H1]. specialize (H1 (conj Hi E)). lia.
    + destruct Hextb as [_ H1]. specialize (H1 (conj Hi E)). lia.
Qed.

(** Two halves in hand, [m] below [m + 2 ^ o], become one block. *)
Lemma wf_join own fl hand ps h m o :
  wf own fl hand ps h -> 0 <= o < MAX_ORDER -> inside m -> aligned m (o + 1) ->
  own m = m -> order (ps m) = o -> hand m = true ->
  own (m + 2 ^ o) = m + 2 ^ o -> order (ps (m + 2 ^ o)) = o -> hand (m + 2 ^ o) = true ->
  wf (retile own m (o + 1)) fl hand (<[m := pg_set_order (o + 1) (ps m)]> ps) h.
Proof.
  intros Hwf Ho Hm Hal Em Om Hh Eb Ob Hhb. pose proof (pow2_pos o ltac:(lia)).
  pose proof (pow2_succ o ltac:(lia)) as Hpow. unfold inside in Hm.
  pose proof (block_fits m (o + 1) ltac:(lia) Hal ltac:(lia)) as Hfit.
  assert (Hpair : forall i, m <= i < m + 2 ^ (o + 1) <-> inside i /\ (own i = m \/ own i = m + 2 ^ o))
    by (intros i; apply (pair_extent own fl hand ps h); try done; unfold inside; lia).
  assert (Hin : forall j, m <= j < m + 2 ^ (o + 1) -> own j = m \/ own j = m + 2 ^ o) by (intros j Hj; by apply Hpair).
  assert (Hback : forall i, inside i -> own i = m \/ own i = m + 2 ^ o -> m <= i < m + 2 ^ (o + 1))
    by (intros i Hi Hc; by apply Hpair).
  assert (Hhand : forall i, inside i -> m <= i < m + 2 ^ (o + 1) -> hand i = true).
  { intros i Hi Hj. rewrite <- (wf_hand_own _ _ _ _ _ Hwf i Hi). by destruct (Hin i Hj) as [-> | ->]. }
  apply (wf_retile own _ fl hand ps); [done|..].
  - intros i Hi. destruct (decide (m <= i < m + 2 ^ (o + 1))) as [Hi1|Hi1].
    + unfold block_of. rewrite retile_in by done. rewrite fn_insert_eq, set_order_id by (unfold MAX_ORDER in *; lia).
      split; [lia|]. split; [lia|]. split; [done|]. split; [done|]. intros j Hj. by apply retile_in.
    + apply (block_of_out own fl hand ps _ h); [done..| |].
      * intros j Hj E. apply Hi1, Hback; [done|]. rewrite <- E. by apply Hin.
      * rewrite fn_insert_ne; [done|]. intros E. apply Hi1, Hback; [done|]. by left.
  - intros i Hi Hne. destruct (decide (i = m)) as [->|Him].
    { rewrite retile_in in Hne by lia. done. }
    rewrite fn_insert_ne by done.
    destruct (decide (i = m + 2 ^ o)) as [->|Hib].
    { rewrite Ob. apply exact_upper; [lia|done]. }
    apply (wf_inner _ _ _ _ _ Hwf); [done|].
    destruct (decide (m <= i < m + 2 ^ (o + 1))) as [Hi1|Hi1].
    + destruct (Hin i Hi1) as [-> | ->]; done.
    + by rewrite retile_out in Hne.
  - intros i Hi Hnh. assert (~ (m <= i < m + 2 ^ (o + 1))) as Hout.
    { intros Hj. rewrite Hhand in Hnh; done. }
    split; [by apply retile_out|]. rewrite fn_insert_ne; [done|]. lia.
  - intros i. destruct (decide (i = m)) as [->|]; [by rewrite fn_insert_eq|by rewrite fn_insert_ne].
  - intros i Hi Hih. destruct (decide (m <= i < m + 2 ^ (o + 1))) as [Hi1|Hi1].
    + by rewrite retile_in.
    + rewrite retile_out by done. by rewrite (wf_hand_own _ _ _ _ _ Hwf).
Qed.

(** ** Moving a block between the lists and the hand *)

Definition give (own : Z -> Z) (hand : Z -> bool) (p : Z) (i : Z) : bool :=
  hand i && negb (bool_decide (own i = p)).
Definition take (own : Z -> Z) (hand : Z -> bool) (p : Z) (i : Z) : bool :=
  hand i || (bool_decide (inside i /\ own i = p)).

Lemma give_other own hand p i : own i <> p -> give own hand p i = hand i.
Proof. intros. unfold give. rewrite bool_decide_false by done. by rewrite andb_true_r. Qed.
Lemma give_self own hand p i : own i = p -> give own hand p i = false.
Proof. intros. unfold give. rewrite bool_decide_true by done. by rewrite andb_false_r. Qed.
Lemma take_other own hand p i : own i <> p -> take own hand p i = hand i.
Proof. intros. unfold take. rewrite bool_decide_false by tauto. by rewrite orb_false_r. Qed.
Lemma take_self own hand p i : inside i -> own i = p -> take own hand p i = true.
Proof. intros. unfold take. rewrite bool_decide_true by done. by rewrite orb_true_r. Qed.

(** The lists of the orders other than [o] do not see an operation on order [o]. *)
Lemma lists_frame own fl hand ps h h' o xs :
  wf own fl hand ps h ->
  (forall x, x ∈ xs -> x = free_page_list o \/ exists q, x = page_list q /\ order (ps q) = o) ->
  same_off xs h h' ->
  forall o', 0 <= o' <= MAX_ORDER -> o <> o' -> is_list h' (free_page_list o') (page_list <$> fl o').
Proof.
  intros Hwf Hxs Hoff o' Ho' Hne. eapply is_list_frame; [exact Hoff|by apply (wf_lists _ _ _ _ _ Hwf)|].
  intros x Hx Hin. apply elem_of_cons in Hx as [->|Hx].
  - destruct (Hxs _ Hin) as [[= E]|(q & [=] & _)]. done.
  - apply list_elem_of_fmap in Hx as (q & -> & Hq).
    destruct (Hxs _ Hin) as [[=]|(q' & [= <-] & Eq)].
    apply (wf_listed _ _ _ _ _ Hwf) in Hq as (_ & _ & E & _); [congruence|done].
Qed.

Lemma listed_nodes own fl hand ps h o x :
  wf own fl hand ps h -> 0 <= o <= MAX_ORDER -> x ∈ page_list <$> fl o ->
  exists q, x = page_list q /\ order (ps q) = o.
Proof.
  intros Hwf Ho Hx. apply list_elem_of_fmap in Hx as (q & -> & Hq). exists q. split; [done|].
  by apply (wf_listed _ _ _ _ _ Hwf) in Hq as (_ & _ & E & _).
Qed.

Lemma buddy_ne p o : 0 <= o -> buddy p o <> p.
Proof. intros Ho. pose proof (pow2_pos o Ho). unfold buddy. destruct (_ =? 0); lia. Qed.

Lemma buddy_involutive p o : 0 <= o -> aligned p o -> buddy (buddy p o) o = p.
Proof.
  intros Ho Hal. destruct (buddy_cases p o Ho Hal) as [[H ->]|(_ & H & ->)].
  - by apply buddy_upper.
  - rewrite buddy_lower by done. lia.
Qed.

Lemma wf_give own fl hand ps h h' p :
  let o := order (ps p) in
  wf own fl hand ps h -> inside p -> own p = p -> hand p = true ->
  (o < MAX_ORDER -> ~ listed own hand ps (buddy p o) o) ->
  is_list h' (free_page_list o) (page_list <$> p :: fl o) ->
  same_off (page_list p :: free_page_list o :: (page_list <$> fl o)) h h' ->
  wf own (<[o := p :: fl o]> fl) (give own hand p) ps h'.
Proof.
  intros o Hwf Hp Ep Hh Hbud Hl Hoff. destruct (head_block Hwf p Hp Ep) as (Ho & Hal & _ & _).
  fold o in Ho, Hal. destruct (wf_hand _ _ _ _ _ Hwf p Hh) as [_ Hfp].
  assert (Hlist : forall q k, listed own (give own hand p) ps q k <-> listed own hand ps q k \/ (q = p /\ k = o)).
  { intros q k. unfold listed. destruct (decide (q = p)) as [->|Hqp].
    - rewrite give_self by done. split; [intros (_ & _ & <- & _); by right|].
      intros [(_ & _ & _ & _ & E)|[_ ->]]; [congruence|done].
    - split.
      + intros (? & Eq & ? & ? & Hg). left. rewrite give_other in Hg by congruence. done.
      + intros [(? & Eq & ? & ? & Hg)|[? _]]; [|done]. rewrite give_other by congruence. done. }
  destruct Hwf as [H1 H2 H3 H4 H5 H6 H7 H8 H9] eqn:HE. clear HE. split; try done.
  - intros i Hg. apply H5. unfold give in Hg. by apply andb_true_iff in Hg as [? _].
  - intros i Hi. unfold give. rewrite H6 by done. destruct (own_inside Hwf i Hi) as [_ ->]. done.
  - intros o' Ho'. destruct (decide (o = o')) as [<-|Hne]; [by rewrite fn_insert_eq|].
    rewrite fn_insert_ne by done. eapply (lists_frame own fl hand ps h h' o); [done| |exact Hoff|done|done].
    intros x Hx. apply elem_of_cons in Hx as [->|Hx]; [right; by exists p|].
    apply elem_of_cons in Hx as [->|Hx]; [by left|right]. by eapply listed_nodes.
  - intros o' q Ho'. rewrite Hlist. destruct (decide (o = o')) as [<-|Hne].
    + rewrite fn_insert_eq, elem_of_cons, H8 by done. naive_solver.
    + rewrite fn_insert_ne, H8 by done. naive_solver.
  - intros q k Hk. rewrite !Hlist. intros Hq Hb. destruct Hq as [Hq|[-> ->]], Hb as [Hb|[E1 E2]].
    + by apply (H9 q k).
    + subst k. apply (Hbud ltac:(lia)). rewrite <- E1.
      destruct Hq as (Hiq & Eq & Eo & Hrest). rewrite buddy_involutive; [done|lia|].
      destruct (head_block Hwf q Hiq Eq) as (_ & Halq & _). by rewrite Eo in Halq.
    + by apply (Hbud ltac:(lia)).
    + by apply (buddy_ne p o ltac:(lia)).
Qed.

Lemma wf_take own fl hand ps h h' p o l1 l2 :
  wf own fl hand ps h -> 0 <= o <= MAX_ORDER -> fl o = l1 ++ p :: l2 ->
  is_list h' (free_page_list o) (page_list <$> l1 ++ l2) ->
  same_off (free_page_list o :: (page_list <$> l1 ++ l2)) h h' ->
  wf own (<[o := l1 ++ l2]> fl) (take own hand p) ps h'.
Proof.
  intros Hwf Ho Hfl Hl Hoff.
  assert (Hp : listed own hand ps p o) by (apply (wf_listed _ _ _ _ _ Hwf); [done|rewrite Hfl; set_solver]).
  destruct Hp as (Hp & Ep & Eo & Ef & Hh).
  assert (Hnd : NoDup (fl o)).
  { destruct (wf_lists _ _ _ _ _ Hwf o Ho) as [_ Hnd]. apply NoDup_cons in Hnd as [_ Hnd].
    by apply NoDup_fmap_1 in Hnd. }
  rewrite Hfl in Hnd. rewrite <- Permutation_middle, NoDup_cons in Hnd. destruct Hnd as [Hnp _].
  assert (Hlist : forall q k, listed own (take own hand p) ps q k <-> listed own hand ps q k /\ q <> p).
  { intros q k. unfold listed. destruct (decide (q = p)) as [->|Hqp].
    - rewrite take_self by done. naive_solver.
    - split.
      + intros (? & Eq & ? & ? & Hg). rewrite take_other in Hg by congruence. done.
      + intros [(? & Eq & ? & ? & Hg) _]. rewrite take_other by congruence. done. }
  destruct Hwf as [H1 H2 H3 H4 H5 H6 H7 H8 H9] eqn:HE. clear HE. split; try done.
  - intros i Hg. unfold take in Hg. apply orb_true_iff in Hg as [Hg|Hg]; [by apply H5|].
    apply bool_decide_eq_true in Hg as [Hi E]. split; [done|]. apply H4; [done|]. by rewrite E.
  - intros i Hi. unfold take. destruct (own_inside Hwf i Hi) as [Hoi ->]. rewrite H6 by done. f_equal.
    apply bool_decide_ext. tauto.
  - intros o' Ho'. destruct (decide (o = o')) as [<-|Hne]; [by rewrite fn_insert_eq|].
    rewrite fn_insert_ne by done. eapply (lists_frame own fl hand ps h h' o); [done| |exact Hoff|done|done].
    intros x Hx. apply elem_of_cons in Hx as [->|Hx]; [by left|right].
    eapply listed_nodes; [done|done|]. rewrite Hfl. set_solver.
  - intros o' q Ho'. rewrite Hlist. destruct (decide (o = o')) as [<-|Hne].
    + rewrite fn_insert_eq, <- H8, Hfl by done. set_solver.
    + rewrite fn_insert_ne, H8 by done. split; [|tauto]. intros Hq. split; [done|].
      intros ->. destruct Hq as (_ & _ & E & _). congruence.
  - intros q k Hk. rewrite !Hlist. intros [Hq _] [Hb _]. by apply (H9 q k).
Qed.

(** ** The operations *)

Section Ops.
Context {own : Z -> Z} {fl : Z -> list Z} {hand : Z -> bool}.
Implicit Types (s : mm).

Lemma add_to_freelists_spec s p :
  let o := order (pages s p) in
  wf own fl hand (pages s) (lists s) -> inside p -> own p = p -> hand p = true ->
  (o < MAX_ORDER -> ~ listed own hand (pages s) (buddy p o) o) ->
  runs (add_to_freelists p) s (fun _ s' => exists h', s' = set_lists h' s /\
    wf own (<[o := p :: fl o]> fl) (give own hand p) (pages s) h').
Proof.
  intros o Hwf Hp Ep Hh Hbud. destruct (head_block Hwf p Hp Ep) as (Ho & Hal & _ & _).
  fold o in Ho, Hal. destruct (wf_hand _ _ _ _ _ Hwf p Hh) as [_ Hfp].
  unfold add_to_freelists. mstep. apply bug_unless_free; [done..|]. mstep.
  apply subblock_master_spec; [done..|]. mstep. apply page_at_spec; [done|]. fold o.
  apply runs_lift. eapply runs_mono; [apply list_add_spec; [by apply (wf_lists _ _ _ _ _ Hwf)|]|].
  - intros Hin. apply elem_of_cons in Hin as [[=]|Hin]. apply list_elem_of_fmap in Hin as (q & [= <-] & Hq).
    apply (wf_listed _ _ _ _ _ Hwf) in Hq as (_ & _ & _ & _ & Hq); [congruence|done].
  - intros [] h' [Hl Hoff]. exists h'. split; [done|]. by eapply wf_give.
Qed.

Lemma split_block_spec s p :
  let o := order (pages s p) in let q := p + 2 ^ (o - 1) in
  let ps' := <[p := pg_set_order (o - 1) (pages s p)]> (pages s) in
  wf own fl hand (pages s) (lists s) -> inside p -> own p = p -> hand p = true -> 1 <= o ->
  runs (split_block p) s (fun r s' => r = q /\ s' = set_pages ps' s /\
    order (ps' q) = o - 1 /\ wf (retile own q (o - 1)) fl hand ps' (lists s)).
Proof.
  intros o q ps' Hwf Hp Ep Hh H1. destruct (head_block Hwf p Hp Ep) as (Ho & Hal & Hfit & Hext).
  fold o in Ho, Hal, Hfit, Hext. destruct (wf_split own fl hand _ _ p Hwf Hp Ep Hh H1) as [Hoq Hwf'].
  fold o q in Hoq, Hwf'. fold ps' in Hwf'. pose proof (pow2_pred o H1). pose proof (pow2_pos (o - 1) ltac:(lia)).
  assert (Hqi : inside q) by (unfold inside in *; lia).
  assert (Hhq : hand q = true).
  { rewrite <- (wf_hand_own _ _ _ _ _ Hwf q Hqi). replace (own q) with p; [done|].
    symmetry. apply Hext. unfold q. lia. }
  assert (Hopp : order (ps' p) = o - 1) by (unfold ps'; rewrite fn_insert_eq; apply set_order_id; lia).
  assert (Hoqp : order (ps' q) = o - 1) by (unfold ps'; rewrite fn_insert_ne; [done|lia]).
  unfold split_block. mstep. apply subblock_master_spec; [done..|]. mstep.
  apply page_at_spec; [done|]. fold o. do 2 mstep; [apply Z.eqb_neq; lia|].
  mstep. apply upd_page_spec; [done|]. mstep. apply get_buddy_spec; [done|..].
  { cbn [pages set_pages]. fold o. fold ps'. lia. }
  cbn [pages set_pages]. fold o. fold ps'. rewrite Hopp, buddy_lower; [|lia|].
  2: { by replace (o - 1 + 1) with o by lia. }
  fold q. mstep. apply page_at_spec; [done|]. mstep. apply page_at_spec; [done|].
  do 2 mstep; [cbn [pages set_pages]; fold o; fold ps'; rewrite Hopp, Hoqp; by rewrite Z.eqb_refl|].
  destruct (wf_hand _ _ _ _ _ Hwf' p Hh) as [_ Hf1]. destruct (wf_hand _ _ _ _ _ Hwf' q Hhq) as [_ Hf2].
  mstep. apply bug_unless_free; [done..|]. mstep. apply bug_unless_free; [done..|]. by mstep.
Qed.

(** [m] and [m + 2 ^ o] are in hand; [p] is either of them. *)
Lemma join_block_spec s p m o :
  let ps' := <[m := pg_set_order (o + 1) (pages s m)]> (pages s) in
  wf own fl hand (pages s) (lists s) -> 0 <= o < MAX_ORDER -> inside m -> aligned m (o + 1) ->
  own m = m -> order (pages s m) = o -> hand m = true ->
  own (m + 2 ^ o) = m + 2 ^ o -> order (pages s (m + 2 ^ o)) = o -> hand (m + 2 ^ o) = true ->
  p = m \/ p = m + 2 ^ o ->
  runs (join_block p) s (fun r s' => r = m /\ s' = set_pages ps' s /\
    wf (retile own m (o + 1)) fl hand ps' (lists s)).
Proof.
  intros ps' Hwf Ho Hm Hal Em Om Hh Eb Ob Hhb Hp. pose proof (pow2_pos o ltac:(lia)).
  pose proof (wf_join own fl hand _ _ m o Hwf Ho Hm Hal Em Om Hh Eb Ob Hhb) as Hwf'.
  destruct (wf_hand _ _ _ _ _ Hwf m Hh) as [_ Hf1].
  destruct (wf_hand _ _ _ _ _ Hwf _ Hhb) as [Hbi Hf2].
  assert (Hpo : inside p /\ order (pages s p) = o /\ aligned p o).
  { destruct Hp as [-> | ->]; [|split; [done|split; [done|apply aligned_upper; [lia|done]]]].
    split; [done|]. split; [done|]. apply (aligned_le _ (o + 1)); [lia|done]. }
  destruct Hpo as (Hpi & Hpo & Hpal).
  unfold join_block. mstep. apply get_master_spec; [done|lia|by rewrite Hpo|]. rewrite Hpo.
  intros m' Hm'. assert (m' = m) as ->.
  { destruct Hp as [-> | ->], Hm' as [[Ha ->]|(Ha & -> & Hb)]; try lia.
    - rewrite buddy_lower in Hb by (done || lia). lia.
    - pose proof (exact_aligned _ o (o + 1) (exact_upper m o ltac:(lia) Hal) ltac:(lia) Ha). lia. }
  mstep. apply get_buddy_spec; [done|lia|]. rewrite Om, buddy_lower by (done || lia).
  mstep. apply get_buddy_spec; [done|lia|]. rewrite Om, buddy_lower by (done || lia).
  mstep. apply page_at_spec; [done|]. mstep. apply page_at_spec; [done|].
  rewrite Om, Ob. do 2 mstep; [by rewrite Z.eqb_refl|]. do 2 mstep; [apply Z.eqb_neq; lia|].
  mstep. apply bug_unless_free; [done..|]. mstep. apply bug_unless_free; [done..|].
  mstep. apply upd_page_spec; [done|]. mstep. rewrite Om. done.
Qed.
End Ops.

(** ** Trimming a block to the pages asked for *)

(** [n] pages from [p] on are blocks of falling orders, one per bit of [n]. *)
Inductive chunks (own : Z -> Z) (ps : Z -> page) : Z -> Z -> Prop :=
| chunks_nil p : chunks own ps p 0
| chunks_cons p n : 0 < n -> own p = p -> order (ps p) = Z.log2 n ->
    chunks own ps (p + 2 ^ Z.log2 n) (n - 2 ^ Z.log2 n) -> chunks own ps p n.

Definition eq_but_order (p p' : page) : Prop :=
  addr p' = addr p /\ flags p' = flags p /\ compound_num p' = compound_num p.

Lemma wf_hand_ext own fl hand hand' ps h :
  (forall i, hand' i = hand i) -> wf own fl hand ps h -> wf own fl hand' ps h.
Proof.
  intros E [H1 H2 H3 H4 H5 H6 H7 H8 H9].
  assert (Hl : forall p o, listed own hand' ps p o <-> listed own hand ps p o)
    by (intros; unfold listed; by rewrite E).
  split; try done; intros; rewrite ?E in *; auto.
  - rewrite Hl. auto.
  - rewrite Hl in *. eauto.
Qed.

Definition minus (hand : Z -> bool) (a b : Z) (i : Z) : bool :=
  hand i && negb (bool_decide (a <= i < b)).

(** The outcome of a trim of the block of order [n] at [p] to [a] pages. *)
Definition trimmed (own : Z -> Z) (hand : Z -> bool) (s : mm) (p a n : Z) (s' : mm) : Prop :=
  exists own' fl' ps' h', s' = set_lists h' (set_pages ps' s) /\
    wf own' fl' (minus hand (p + a) (p + 2 ^ n)) ps' h' /\
    chunks own' ps' p a /\
    (forall i, ~ (p <= i < p + 2 ^ n) -> own' i = own i /\ ps' i = pages s i) /\
    (forall i, eq_but_order (pages s i) (ps' i)).

Lemma retile_head own fl hand ps h q o i :
  wf (retile own q o) fl hand ps h -> inside q -> 0 <= o -> order (ps q) = o ->
  hand i && negb (bool_decide (retile own q o i = q)) = minus hand q (q + 2 ^ o) i.
Proof.
  intros Hwf Hq Ho Eo. unfold minus. destruct (hand i) eqn:Hh; [|done]. cbn [andb]. f_equal.
  destruct (wf_hand _ _ _ _ _ Hwf i Hh) as [Hi _]. pose proof (pow2_pos o Ho).
  destruct (head_block Hwf q Hq ltac:(apply retile_in; lia)) as (_ & _ & _ & Hext). rewrite Eo in Hext.
  apply bool_decide_ext. rewrite Hext. tauto.
Qed.

Lemma eq_but_order_trans p1 p2 p3 : eq_but_order p1 p2 -> eq_but_order p2 p3 -> eq_but_order p1 p3.
Proof. unfold eq_but_order. intuition congruence. Qed.

Lemma eq_but_order_set (ps : Z -> page) p v i :
  eq_but_order (ps i) (<[p := pg_set_order v (ps p)]> ps i).
Proof.
  destruct (decide (i = p)) as [->|]; [rewrite fn_insert_eq|rewrite fn_insert_ne by done]; done.
Qed.

Section Trim.
Context (own : Z -> Z) (fl : Z -> list Z) (hand : Z -> bool) (s : mm) (p o : Z).
Hypothesis Hwf : wf own fl hand (pages s) (lists s).
Hypothesis Hp : inside p.
Hypothesis Ep : own p = p.
Hypothesis Eo : order (pages s p) = o.

Let q := p + 2 ^ (o - 1).
Let ps1 := <[p := pg_set_order (o - 1) (pages s p)]> (pages s).
Let own1 := retile own q (o - 1).

(** The block is the size asked for. *)
Lemma trimmed_exact : trimmed own hand s p (2 ^ o) o s.
Proof.
  destruct (head_block Hwf p Hp Ep) as (Ho & _ & _ & _). rewrite Eo in Ho.
  pose proof (pow2_pos o ltac:(lia)).
  exists own, fl, (pages s), (lists s). split; [by destruct s|]. split; [|split; [|done]].
  - apply (wf_hand_ext _ _ hand); [|done]. intros i. unfold minus.
    rewrite bool_decide_false by lia. apply andb_true_r.
  - apply chunks_cons; [lia|done|rewrite Z.log2_pow2; lia|].
    rewrite Z.log2_pow2, Z.sub_diag by lia. apply chunks_nil.
Qed.

(** The upper half was given back: go on in the lower half. *)
Lemma trimmed_lower a h2 s' :
  1 <= o -> a <= 2 ^ (o - 1) ->
  wf own1 fl hand ps1 (lists s) -> order (ps1 q) = o - 1 ->
  trimmed own1 (give own1 hand q) (set_lists h2 (set_pages ps1 s)) p a (o - 1) s' ->
  trimmed own hand s p a o s'.
Proof.
  intros H1 Ha Hwf1 Hoq (own' & fl' & ps' & h' & -> & Hwf' & Hch & Hout & Hsame).
  cbn [pages set_lists set_pages] in *. pose proof (pow2_pred o H1). pose proof (pow2_pos (o - 1) ltac:(lia)).
  destruct (head_block Hwf p Hp Ep) as (Ho & _ & Hfit & _). rewrite Eo in Ho, Hfit.
  exists own', fl', ps', h'. split; [done|]. split; [|split; [done|split]].
  - apply (wf_hand_ext _ _ (minus (give own1 hand q) (p + a) (p + 2 ^ (o - 1)))); [|done].
    intros i. unfold minus at 2. unfold give, own1.
    rewrite (retile_head own fl hand ps1 (lists s) q (o - 1) i Hwf1); [|unfold inside in *; lia|lia|done].
    unfold minus. destruct (hand i); [|done]. cbn [andb]. rewrite <- negb_orb. f_equal.
    rewrite <- bool_decide_or. apply bool_decide_ext. unfold q. lia.
  - intros i Hi. destruct (Hout i ltac:(lia)) as [-> ->]. unfold own1, ps1.
    rewrite retile_out by (unfold q; lia). by rewrite fn_insert_ne by lia.
  - intros i. eapply eq_but_order_trans; [|apply Hsame]. apply eq_but_order_set.
Qed.

(** The lower half is wanted whole: go on in the upper half. *)
Lemma trimmed_upper a s' :
  1 <= o -> 2 ^ (o - 1) < a < 2 ^ o ->
  trimmed own1 hand (set_pages ps1 s) q (a - 2 ^ (o - 1)) (o - 1) s' ->
  trimmed own hand s p a o s'.
Proof.
  intros H1 Ha (own' & fl' & ps' & h' & -> & Hwf' & Hch & Hout & Hsame).
  cbn [pages set_lists set_pages] in *. pose proof (pow2_pred o H1). pose proof (pow2_pos (o - 1) ltac:(lia)).
  destruct (head_block Hwf p Hp Ep) as (Ho & _ & _ & _). rewrite Eo in Ho.
  assert (Hlog : Z.log2 a = o - 1).
  { apply Z.log2_unique; [lia|]. rewrite <- Z.add_1_r. replace (o - 1 + 1) with o by lia. lia. }
  exists own', fl', ps', h'. split; [done|]. split; [|split; [|split]].
  - apply (wf_hand_ext _ _ _ _ _ _) with (2 := Hwf'). intros i. unfold minus. do 2 f_equal.
    apply bool_decide_ext. unfold q. lia.
  - destruct (Hout p ltac:(unfold q; lia)) as [E1 E2]. apply chunks_cons; [lia|..].
    + rewrite E1. unfold own1. by rewrite retile_out by (unfold q; lia).
    + rewrite E2, Hlog. unfold ps1. rewrite fn_insert_eq. apply set_order_id. lia.
    + by rewrite Hlog.
  - intros i Hi. destruct (Hout i ltac:(unfold q; lia)) as [-> ->]. unfold own1, ps1.
    rewrite retile_out by (unfold q; lia). by rewrite fn_insert_ne by lia.
  - intros i. eapply eq_but_order_trans; [|apply Hsame]. apply eq_but_order_set.
Qed.
End Trim.

Lemma trim_loop_spec fuel : forall own fl hand s p a,
  wf own fl hand (pages s) (lists s) -> inside p -> own p = p -> hand p = true ->
  0 < a <= 2 ^ order (pages s p) -> order (pages s p) < Z.of_nat fuel ->
  runs (iterM fuel trim_round (p, a)) s (fun _ s' => trimmed own hand s p a (order (pages s p)) s').
Proof.
  induction fuel as [|fuel IH]; intros own fl hand s p a Hwf Hp Ep Hh Ha Hfuel.
  { destruct (head_block Hwf p Hp Ep) as (Ho & _). lia. }
  destruct (head_block Hwf p Hp Ep) as (Ho & Hal & Hfit & Hext).
  destruct (wf_hand _ _ _ _ _ Hwf p Hh) as [_ Hfp]. pose proof (pow2_le_1024 _ Ho).
  apply runs_iterM_S. unfold trim_round. destruct (Z.eqb_spec a 0) as [->|_]; [lia|].
  mstep. apply page_at_spec; [done|]. rewrite shiftl1, uwrap_small by lia.
  set (o := order (pages s p)) in *.
  destruct (Z.eqb_spec a (2 ^ o)) as [->|Hne]; [mstep; by eapply trimmed_exact|].
  assert (H1 : 1 <= o) by (destruct (decide (o = 0)) as [E|]; [rewrite E in *; simpl in *; lia|lia]).
  pose proof (pow2_pred o H1). pose proof (pow2_pos (o - 1) ltac:(lia)).
  do 2 mstep; [apply Z.eqb_neq; lia|]. mstep. apply bug_unless_free; [done..|].
  do 2 mstep; [apply Z.ltb_ge; lia|]. mstep.
  eapply runs_mono; [by apply (split_block_spec (fl := fl) s p Hwf)|]. fold o.
  intros q s1 (-> & -> & Hoq & Hwf1). set (q := p + 2 ^ (o - 1)) in *.
  set (ps1 := <[p := pg_set_order (o - 1) (pages s p)]> (pages s)) in *.
  assert (Hqi : inside q) by (unfold inside in *; lia).
  assert (Eq1 : retile own q (o - 1) q = q) by (apply retile_in; lia).
  assert (Ep1 : retile own q (o - 1) p = p) by (rewrite retile_out; [done|lia]).
  assert (Hop : order (ps1 p) = o - 1) by (unfold ps1; rewrite fn_insert_eq; apply set_order_id; lia).
  assert (Hhq : hand q = true).
  { rewrite <- (wf_hand_own _ _ _ _ _ Hwf q Hqi). replace (own q) with p; [done|].
    symmetry. apply Hext. lia. }
  destruct (wf_hand _ _ _ _ _ Hwf1 q Hhq) as [_ Hfq].
  rewrite Z.shiftr_div_pow2 by lia. change (2 ^ 1) with 2. replace (2 ^ o / 2) with (2 ^ (o - 1)).
  2: { rewrite (pow2_pred o) by lia. rewrite Z.mul_comm, Z.div_mul; lia. }
  destruct (Z.leb_spec a (2 ^ (o - 1))) as [Hle|Hgt].
  - mstep. apply bug_unless_free; [done..|]. mstep.
    eapply runs_mono; [apply (add_to_freelists_spec (set_pages ps1 s) q Hwf1); [done|done|done|]|].
    { intros _ (_ & _ & _ & _ & Hnh). cbn [pages set_pages] in Hnh. rewrite Hoq in Hnh.
      unfold q in Hnh. rewrite buddy_upper in Hnh; [congruence|lia|].
      by replace (o - 1 + 1) with o by lia. }
    intros [] s2 (h2 & -> & Hwf2). cbn [pages set_pages] in Hwf2. rewrite Hoq in Hwf2. mstep.
    eapply runs_mono; [apply (IH _ _ _ (set_lists h2 (set_pages ps1 s)) p a Hwf2)|].
    + done.
    + done.
    + rewrite give_other; [done|]. rewrite Ep1. lia.
    + cbn [pages set_pages set_lists]. rewrite Hop. lia.
    + cbn [pages set_pages set_lists]. rewrite Hop. lia.
    + cbn [pages set_pages set_lists]. rewrite Hop. intros [] s3 H3.
      by eapply (trimmed_lower own fl hand s p o).
  - mstep. apply page_at_spec; [done|]. mstep. cbn [pages set_pages]. rewrite Hop, shiftl1 by lia.
    rewrite lxor_top; [|lia|replace (o - 1 + 1) with o by lia; lia].
    rewrite uwrap_small by lia.
    eapply runs_mono; [apply (IH _ _ _ (set_pages ps1 s) q _ Hwf1)|]; cbn [pages set_pages]; try done.
    + rewrite Hoq. lia.
    + rewrite Hoq. lia.
    + rewrite Hoq. intros [] s3 H3. eapply (trimmed_upper own fl hand s p o); [done|done|done|done|done|lia|done].
Qed.

(** ** Joining a freed block with its free buddies *)

Definition only (own : Z -> Z) (p : Z) (i : Z) : bool := bool_decide (inside i /\ own i = p).

(** What a run that only joins free blocks leaves alone: every used page's block and
    record, and all of a free page's record but its order. *)
Definition joined (own : Z -> Z) (ps : Z -> page) (own' : Z -> Z) (ps' : Z -> page) : Prop :=
  (forall i, eq_but_order (ps i) (ps' i)) /\
  (forall i, inside i -> flags (ps i) <> 0 -> own' i = own i /\ ps' i = ps i).

Lemma joined_refl own ps : joined own ps own ps.
Proof. done. Qed.

Lemma joined_trans own1 ps1 own2 ps2 own3 ps3 :
  joined own1 ps1 own2 ps2 -> joined own2 ps2 own3 ps3 -> joined own1 ps1 own3 ps3.
Proof.
  intros [H1 H2] [H3 H4]. split; [intros i; by eapply eq_but_order_trans|].
  intros i Hi Hf. destruct (H2 i Hi Hf) as [E1 E2]. rewrite <- E1, <- E2. apply H4; [done|]. by rewrite E2.
Qed.

Lemma buddy_pair p o : 0 <= o -> aligned p o -> exists m, aligned m (o + 1) /\
  ((p = m /\ buddy p o = m + 2 ^ o) \/ (p = m + 2 ^ o /\ buddy p o = m)).
Proof.
  intros Ho Hal. destruct (buddy_cases p o Ho Hal) as [[H E]|(_ & H & E)].
  - exists p. split; [done|]. by left.
  - exists (p - 2 ^ o). split; [done|]. right. split; [lia|done].
Qed.

(** One round in which the buddy is free: it is taken off its list and joined. *)
Lemma ripple_merge own fl s p :
  let o := order (pages s p) in let b := buddy p o in
  wf own fl (only own p) (pages s) (lists s) -> inside p -> own p = p -> o < MAX_ORDER ->
  flags (pages s b) = 0 -> order (pages s b) = o ->
  runs (with_lists (list_rm (page_list b));; join_block p) s (fun m s' =>
    exists own' fl' ps' h', s' = set_lists h' (set_pages ps' s) /\
      wf own' fl' (only own' m) ps' h' /\ joined own (pages s) own' ps' /\
      inside m /\ own' m = m /\ order (ps' m) = o + 1).
Proof.
  intros o b Hwf Hp Ep Hlt Hfb Hob. destruct (head_block Hwf p Hp Ep) as (Ho & Hal & Hfit & Hext).
  fold o in Ho, Hal, Hfit, Hext.
  destruct (buddy_is_block Hwf p Hp Ep ltac:(fold o; lia) Hob) as [Hbi Eb]. fold o b in Hbi, Eb.
  assert (Hbp : b <> p) by (apply buddy_ne; lia).
  assert (Hin : b ∈ fl o).
  { apply (wf_listed _ _ _ _ _ Hwf); [lia|]. split; [done|]. split; [done|]. split; [done|]. split; [done|].
    unfold only. apply bool_decide_eq_false. intros [_ E]. congruence. }
  apply list_elem_of_split in Hin as (l1 & l2 & Hfl).
  assert (Hpf : flags (pages s p) = 0) by (apply (wf_hand _ _ _ _ _ Hwf); by apply bool_decide_eq_true).
  mstep. apply runs_lift. eapply runs_mono; [eapply (list_rm_spec _ (free_page_list o) (page_list <$> l1) _ (page_list <$> l2))|].
  { rewrite <- fmap_cons, <- fmap_app, <- Hfl. apply (wf_lists _ _ _ _ _ Hwf). lia. }
  intros [] h1 [Hl1 Hoff]. rewrite <- fmap_app in Hl1, Hoff.
  pose proof (wf_take own fl _ _ _ h1 b o l1 l2 Hwf ltac:(lia) Hfl Hl1 Hoff) as Hwf1.
  set (hand1 := take own (only own p) b) in *.
  assert (Hhp : hand1 p = true) by (unfold hand1; rewrite take_other by congruence; by apply bool_decide_eq_true).
  assert (Hhb : hand1 b = true) by by apply take_self.
  destruct (buddy_pair p o ltac:(lia) Hal) as (m & Hm & Hcase). pose proof (pow2_pos o ltac:(lia)).
  pose proof (pow2_succ o ltac:(lia)) as Hpow.
  assert (Hall : inside m /\ own m = m /\ order (pages s m) = o /\ hand1 m = true /\
    own (m + 2 ^ o) = m + 2 ^ o /\ order (pages s (m + 2 ^ o)) = o /\ hand1 (m + 2 ^ o) = true /\
    (p = m \/ p = m + 2 ^ o) /\ inside (m + 2 ^ o) /\
    (forall i, own i = p \/ own i = b <-> own i = m \/ own i = m + 2 ^ o)).
  { fold b in Hcase. destruct Hcase as [[<- <-]|[<- <-]]; repeat (split; [by auto|]); tauto. }
  destruct Hall as (Hmi & Em & Om & Hhm & Emb & Omb & Hhmb & Hpm & Hmbi & Hown).
  pose proof (fun i => pair_extent own fl _ _ _ m o i Hwf ltac:(lia) Hmi Hmbi Em Om Emb Omb) as Hpair.
  eapply runs_mono; [apply (join_block_spec (own := own) (fl := <[o := l1 ++ l2]> fl) (hand := hand1) (set_lists h1 s) p m o);
    [exact Hwf1|lia|done..]|].
  intros r s' (-> & -> & Hwf2). cbn [pages lists set_lists set_pages] in *.
  assert (Hh1 : forall i, hand1 i = bool_decide (m <= i < m + 2 ^ (o + 1))).
  { intros i. unfold hand1, take, only. rewrite <- bool_decide_or. apply bool_decide_ext.
    rewrite Hpair, <- Hown. tauto. }
  exists (retile own m (o + 1)), (<[o := l1 ++ l2]> fl), (<[m := pg_set_order (o + 1) (pages s m)]> (pages s)), h1.
  split; [done|]. split; [|split; [split|]].
  - eapply wf_hand_ext; [|exact Hwf2]. intros i. rewrite Hh1. apply bool_decide_ext. split.
    + intros [Hi E]. destruct (decide (m <= i < m + 2 ^ (o + 1))) as [|Hr]; [done|].
      rewrite retile_out in E by done. apply Hpair. auto.
    + intros Hi. split; [by apply Hpair|by apply retile_in].
  - intros i. apply eq_but_order_set.
  - intros i Hi Hf. assert (~ (m <= i < m + 2 ^ (o + 1))) as Hr.
    { intros Hr. apply Hf, (wf_hand _ _ _ _ _ Hwf1). rewrite Hh1. by apply bool_decide_eq_true. }
    split; [by apply retile_out|]. rewrite fn_insert_ne; [done|]. lia.
  - split; [done|]. split; [apply retile_in; lia|]. rewrite fn_insert_eq. apply set_order_id. lia.
Qed.

(** The loop ends on a block in hand that cannot be joined any further. *)
Lemma ripple_loop_spec fuel : forall own fl s p,
  wf own fl (only own p) (pages s) (lists s) -> inside p -> own p = p ->
  MAX_ORDER - order (pages s p) < Z.of_nat fuel ->
  runs (iterM fuel ripple_round (p, buddy p (order (pages s p)))) s (fun m s' =>
    exists own' fl' ps' h', s' = set_lists h' (set_pages ps' s) /\
      wf own' fl' (only own' m) ps' h' /\ joined own (pages s) own' ps' /\ inside m /\ own' m = m /\
      (order (ps' m) < MAX_ORDER -> ~ listed own' (only own' m) ps' (buddy m (order (ps' m))) (order (ps' m)))).
Proof.
  induction fuel as [|fuel IH]; intros own fl s p Hwf Hp Ep Hfuel;
    destruct (head_block Hwf p Hp Ep) as (Ho & Hal & Hfit & Hext); [lia|].
  set (o := order (pages s p)) in *. set (b := buddy p o).
  assert (Hbi : inside b) by by apply buddy_range.
  assert (Hstop : (o < MAX_ORDER -> ~ listed own (only own p) (pages s) b o) ->
    exists own' fl' ps' h', s = set_lists h' (set_pages ps' s) /\
      wf own' fl' (only own' p) ps' h' /\ joined own (pages s) own' ps' /\ inside p /\ own' p = p /\
      (order (ps' p) < MAX_ORDER -> ~ listed own' (only own' p) ps' (buddy p (order (ps' p))) (order (ps' p)))).
  { intros Hs. exists own, fl, (pages s), (lists s). split; [by destruct s|]. auto using joined_refl. }
  apply runs_iterM_S. unfold ripple_round. mstep. apply is_free_spec; [done|].
  destruct (wf_flags _ _ _ _ _ Hwf b Hbi) as [Hfb|Hub].
  2: { rewrite page_is_free_used by done. cbn [negb]. mstep. apply Hstop.
       intros _ (_ & _ & _ & Hf & _). by rewrite Hf in Hub. }
  rewrite page_is_free_0 by done. cbn [negb]. mstep. apply page_at_spec; [done|]. mstep.
  apply page_at_spec; [done|]. fold o. destruct (Z.eqb_spec (order (pages s b)) o) as [Hob|Hob]; cbn [negb].
  2: { mstep. apply Hstop. intros _ (_ & _ & E & _). done. }
  destruct (Z.ltb_spec o MAX_ORDER) as [Hlt|Hge]; cbn [negb].
  2: { mstep. apply Hstop. lia. }
  pose proof (ripple_merge own fl s p Hwf Hp Ep Hlt Hfb Hob) as Hmerge.
  fold o b in Hmerge. apply runs_bind_inv in Hmerge. mstep. eapply runs_mono; [exact Hmerge|].
  intros [] s1 H1. cbn beta in H1. mstep. eapply runs_mono; [exact H1|].
  intros m s2 (own2 & fl2 & ps2 & h2 & -> & Hwf2 & Hj2 & Hmi & Em & Om).
  assert (Hfm : flags (ps2 m) = 0) by (apply (wf_hand _ _ _ _ _ Hwf2); by apply bool_decide_eq_true).
  mstep. apply get_buddy_spec; [done|cbn [pages set_lists set_pages]; lia|].
  mstep. apply bug_unless_free; [done|done|]. mstep. cbn [pages set_lists set_pages].
  eapply runs_mono; [apply (IH own2 fl2 (set_lists h2 (set_pages ps2 s)) m);
    [exact Hwf2|done|done|cbn [pages set_lists set_pages]; lia]|].
  intros m' s3 (own3 & fl3 & ps3 & h3 & -> & Hwf3 & Hj3 & Hrest).
  exists own3, fl3, ps3, h3. split; [done|]. split; [done|]. split; [|done].
  by eapply joined_trans.
Qed.

Definition none (i : Z) : bool := false.

Lemma ripple_join_spec own fl s p :
  wf own fl (only own p) (pages s) (lists s) -> inside p -> own p = p ->
  runs (ripple_join p) s (fun _ s' =>
    exists own' fl' ps' h', s' = set_lists h' (set_pages ps' s) /\
      wf own' fl' none ps' h' /\ joined own (pages s) own' ps').
Proof.
  intros Hwf Hp Ep. destruct (head_block Hwf p Hp Ep) as (Ho & _ & _ & _).
  assert (Hf : flags (pages s p) = 0) by (apply (wf_hand _ _ _ _ _ Hwf); by apply bool_decide_eq_true).
  unfold ripple_join. mstep. apply bug_unless_free; [done..|]. mstep. apply get_buddy_spec; [done..|]. mstep.
  eapply runs_mono; [eapply ripple_loop_spec; [exact Hwf|done|done|]|].
  { unfold ripple_fuel, MAX_ORDER in *. lia. }
  intros m s' (own' & fl' & ps' & h' & -> & Hwf' & Hj & Hmi & Em & Hend).
  eapply runs_mono; [apply (add_to_freelists_spec (set_lists h' (set_pages ps' s)) m Hwf'); try done|].
  { by apply bool_decide_eq_true. }
  intros [] s'' (h'' & -> & Hwf''). cbn [pages lists set_lists set_pages] in *.
  eexists own', _, ps', h''. split; [done|]. split; [|done].
  eapply wf_hand_ext; [|exact Hwf'']. intros i. unfold none, give, only. symmetry.
  destruct (decide (own' i = m)) as [E|E].
  - rewrite (bool_decide_true (own' i = m)) by done. apply andb_false_r.
  - rewrite bool_decide_false; [done|]. tauto.
Qed.

(** ** Turning a block's flags over *)

Definition with_flags (ps : Z -> page) (P : Z -> bool) (f : Z -> Z) (i : Z) : page :=
  if P i then pg_set_flags (f (flags (ps i))) (ps i) else ps i.

Lemma with_flags_order ps P f i : order (with_flags ps P f i) = order (ps i).
Proof. unfold with_flags. by destruct (P i). Qed.

Lemma block_of_order own ps ps' i :
  (forall j, order (ps' j) = order (ps j)) -> block_of own ps i -> block_of own ps' i.
Proof. intros E. unfold block_of. by rewrite E. Qed.

(** A used block that is freed is in hand until it is joined and listed. *)
Lemma wf_mark_free own fl ps ps' h p :
  wf own fl none ps h -> inside p -> own p = p -> flags (ps p) <> 0 ->
  (forall i, order (ps' i) = order (ps i)) ->
  (forall i, inside i -> flags (ps' i) = if decide (own i = p) then 0 else flags (ps i)) ->
  wf own fl (only own p) ps' h.
Proof.
  intros Hwf Hp Ep Hu Hord Hfl. pose proof Hwf as [H1 H2 H3 H4 H5 H6 H7 H8 H9].
  assert (Hlist : forall q o, listed own (only own p) ps' q o <-> listed own none ps q o).
  { intros q o. unfold listed, only, none. rewrite Hord. split.
    - intros (Hq & Eq & Eo & Ef & Hh). apply bool_decide_eq_false in Hh. rewrite Hfl in Ef by done.
      destruct (decide (own q = p)); [tauto|done].
    - intros (Hq & Eq & Eo & Ef & _). rewrite Hfl by done. destruct (decide (own q = p)) as [E|E].
      + congruence.
      + repeat (split; [done|]). apply bool_decide_eq_false. tauto. }
  split.
  - intros i Hi. apply (block_of_order own ps); [done|auto].
  - intros i Hi. rewrite Hord. auto.
  - intros i Hi. rewrite Hfl by done. destruct (decide _); [by left|auto].
  - intros i Hi. destruct (own_inside Hwf i Hi) as [Hoi Eoi]. rewrite !Hfl by done. rewrite Eoi.
    destruct (decide _); [done|auto].
  - intros i Hi. apply bool_decide_eq_true in Hi as [Hi E]. split; [done|]. rewrite Hfl by done.
    by rewrite decide_True.
  - intros i Hi. destruct (own_inside Hwf i Hi) as [Hoi Eoi]. apply bool_decide_ext. rewrite Eoi. tauto.
  - done.
  - intros o q Ho. rewrite Hlist. auto.
  - intros q o Ho. rewrite !Hlist. auto.
Qed.

(** The pages in hand are given to the caller. *)
Lemma wf_mark_used own fl hand ps ps' h :
  wf own fl hand ps h ->
  (forall i, order (ps' i) = order (ps i)) ->
  (forall i, inside i -> flags (ps' i) = if hand i then PAGE_FLAG_USED else flags (ps i)) ->
  wf own fl none ps' h.
Proof.
  intros Hwf Hord Hfl. pose proof Hwf as [H1 H2 H3 H4 H5 H6 H7 H8 H9].
  assert (Hlist : forall q o, listed own none ps' q o <-> listed own hand ps q o).
  { intros q o. unfold listed, none. rewrite Hord. split.
    - intros (Hq & Eq & Eo & Ef & _). rewrite Hfl in Ef by done. by destruct (hand q).
    - intros (Hq & Eq & Eo & Ef & Hh). rewrite Hfl, Hh by done. done. }
  split.
  - intros i Hi. apply (block_of_order own ps); [done|auto].
  - intros i Hi. rewrite Hord. auto.
  - intros i Hi. rewrite Hfl by done. destruct (hand i); [by right|auto].
  - intros i Hi. destruct (own_inside Hwf i Hi) as [Hoi Eoi]. rewrite !Hfl by done. rewrite H6 by done.
    destruct (hand i); [done|auto].
  - done.
  - done.
  - done.
  - intros o q Ho. rewrite Hlist. auto.
  - intros q o Ho. rewrite !Hlist. auto.
Qed.

(** ** Loops over the pages of an extent *)

Lemma upd_loop (body : Z -> M mm unit) b n (f : Z -> page -> page) s :
  0 <= n ->
  (forall k ps1, 0 <= k < n -> ps1 (b + k) = pages s (b + k) ->
     runs (body k) (set_pages ps1 s) (fun _ s2 => exists ps2, s2 = set_pages ps2 s /\
       ps2 (b + k) = f k (pages s (b + k)) /\ forall j, j <> b + k -> ps2 j = ps1 j)) ->
  runs (forM 0 (Z.to_nat n) body) s (fun _ s' => exists ps', s' = set_pages ps' s /\
    forall i, ps' i = if bool_decide (b <= i < b + n) then f (i - b) (pages s i) else pages s i).
Proof.
  intros Hn Hbody.
  eapply runs_mono; [apply (runs_forM (fun k s1 => exists ps1, s1 = set_pages ps1 s /\
    forall i, ps1 i = if bool_decide (b <= i < b + k) then f (i - b) (pages s i) else pages s i))|].
  - exists (pages s). split; [by destruct s|]. intros i. by rewrite bool_decide_false by lia.
  - rewrite Z2Nat.id by lia. intros k s1 Hk (ps1 & -> & Hps1).
    eapply runs_mono; [apply Hbody; [lia|]|].
    + rewrite Hps1. by rewrite bool_decide_false by lia.
    + intros [] s2 (ps2 & -> & E1 & E2). exists ps2. split; [done|]. intros i.
      destruct (decide (i = b + k)) as [->|Hne].
      * rewrite bool_decide_true by lia. rewrite E1. f_equal. lia.
      * rewrite E2, Hps1 by done. by rewrite (bool_decide_ext _ (b <= i < b + (k + 1))) by lia.
  - rewrite Z2Nat.id by lia. by intros [] s' H.
Qed.

(** The fields the block operations do not touch. *)
Definition frame (s s' : mm) : Prop :=
  pages_avaliable s' = pages_avaliable s /\ kmap s' = kmap s /\
  init_page_directory s' = init_page_directory s /\ vmem s' = vmem s.

(** What freeing the block [p] does: its pages lose their flags, every other page
    keeps its record (but for the order of free ones), used blocks stay. *)
Definition freed (own : Z -> Z) (ps : Z -> page) (p : Z) (own' : Z -> Z) (ps' : Z -> page) : Prop :=
  (forall i, inside i -> own i = p -> flags (ps' i) = 0) /\
  (forall i, inside i -> own i <> p -> eq_but_order (ps i) (ps' i)) /\
  (forall i, inside i -> own i <> p -> flags (ps i) <> 0 -> own' i = own i /\ ps' i = ps i).

Lemma free_page_spec own fl s p :
  wf own fl none (pages s) (lists s) -> alloc_lock s = false -> inside p -> own p = p ->
  (forall i, inside i -> own i = p ->
     has (flags (pages s i)) PAGE_FLAG_USED = true /\ has (flags (pages s i)) PAGE_FLAG_PERM = false) ->
  runs (free_page p) s (fun _ s' => exists own' fl',
    wf own' fl' none (pages s') (lists s') /\ freed own (pages s) p own' (pages s') /\
    alloc_lock s' = false /\ frame s s' /\
    pages_in_use s' = u32 (pages_in_use s - 2 ^ order (pages s p))).
Proof.
  intros Hwf Hlock Hp Ep Hused. destruct (head_block Hwf p Hp Ep) as (Ho & Hal & Hfit & Hext).
  set (o := order (pages s p)) in *. pose proof (pow2_le_1024 o Ho).
  unfold free_page. mstep. unfold lock_alloc, runs at 1. rewrite Hlock.
  mstep. apply page_at_spec; [done|]. cbn [pages set_alloc_lock]. fold o.
  rewrite shiftl1, uwrap_small by lia. do 2 mstep. mstep.
  eapply runs_mono; [apply (upd_loop _ p (2 ^ o) (fun _ pg => pg_set_flags 0 pg)); [lia|]|].
  { intros k ps1 Hk Eq. cbn [pages set_alloc_lock set_in_use] in Eq.
    assert (Hki : inside (p + k) /\ own (p + k) = p) by (apply Hext; lia). destruct Hki as [Hki Hko].
    destruct (Hused _ Hki Hko) as [Hu1 Hu2].
    mstep. apply page_at_spec; [done|]. cbn [pages set_pages]. rewrite Eq.
    do 2 mstep; [done|]. do 2 mstep; [by rewrite Hu1|]. apply upd_page_spec; [done|].
    eexists. split; [reflexivity|]. cbn [pages set_pages set_alloc_lock set_in_use]. split.
    - rewrite fn_insert_eq. by rewrite Eq.
    - intros j Hj. by rewrite fn_insert_ne. }
  intros [] s1 (ps1 & -> & Hps1). cbn [pages set_alloc_lock set_in_use] in Hps1.
  assert (Hin : forall i, inside i -> p <= i < p + 2 ^ o <-> own i = p) by (intros i Hi; rewrite Hext; tauto).
  assert (Hwf1 : wf own fl (only own p) ps1 (lists s)).
  { apply (wf_mark_free own fl (pages s)); [done|done|done| | |].
    - intros E. destruct (Hused p Hp Ep) as [Hu _]. by rewrite E in Hu.
    - intros i. rewrite Hps1. by case_bool_decide.
    - intros i Hi. rewrite Hps1. rewrite (bool_decide_ext _ (own i = p)) by by apply Hin.
      by repeat case_decide || case_bool_decide. }
  mstep. eapply runs_mono; [apply (ripple_join_spec own fl _ p); [exact Hwf1|done|done]|].
  intros [] s2 (own' & fl' & ps' & h' & -> & Hwf' & Hj1 & Hj2). unfold unlock_alloc. mstep.
  exists own', fl'. cbn [pages lists alloc_lock pages_in_use set_pages set_lists set_in_use set_alloc_lock] in *.
  split; [done|]. split; [|done]. split; [|split].
  - intros i Hi E. destruct (Hj1 i) as (_ & -> & _). rewrite Hps1, bool_decide_true; [done|]. by apply Hin.
  - intros i Hi E. eapply eq_but_order_trans; [|apply Hj1]. rewrite Hps1, bool_decide_false; [done|].
    by rewrite Hin.
  - intros i Hi E Hf. assert (E1 : ps1 i = pages s i).
    { rewrite Hps1, bool_decide_false; [done|]. by rewrite Hin. }
    rewrite <- E1. apply Hj2; [done|]. by rewrite E1.
Qed.

(** ** Allocation *)

Lemma chunks_ext own own' ps ps' p n :
  chunks own ps p n ->
  (forall i, p <= i < p + n -> own' i = own i /\ order (ps' i) = order (ps i)) -> chunks own' ps' p n.
Proof.
  induction 1 as [p|p n Hn Ep Eo Hc IH]; intros He; [apply chunks_nil|].
  pose proof (Z.log2_spec n Hn) as Hl. pose proof (pow2_pos (Z.log2 n) (Z.log2_nonneg n)).
  destruct (He p ltac:(lia)) as [E1 E2]. apply chunks_cons; [done|congruence|congruence|].
  apply IH. intros i Hi. apply He. lia.
Qed.

Lemma target_order_spec n : 0 < n < 2 ^ 32 ->
  (if negb (Z.lxor n (1 <<< Z.log2 n) =? 0) then u32 (Z.log2 n + 1) else Z.log2 n) = Z.log2_up n.
Proof.
  intros Hn. pose proof (log2_lt n 32 Hn) as Hl. pose proof (Z.log2_spec n ltac:(lia)) as Hs.
  rewrite shiftl1 by lia. rewrite lxor_top; [|lia|by rewrite Z.add_1_r].
  destruct (Z.eqb_spec (n - 2 ^ Z.log2 n) 0) as [E|E]; cbn [negb].
  - replace n with (2 ^ Z.log2 n) at 2 by lia. rewrite Z.log2_up_pow2 by lia. done.
  - rewrite uwrap_small by lia. pose proof (Z.le_log2_up_succ_log2 n). pose proof (Z.le_log2_log2_up n).
    destruct (decide (Z.log2 n = Z.log2_up n)) as [E2|]; [exfalso|lia].
    apply Z.log2_log2_up_exact in E2 as [b Hb]; [|lia]. apply E. rewrite Hb.
    destruct (Z.le_gt_cases 0 b); [rewrite Z.log2_pow2; lia|]. rewrite Z.pow_neg_r in Hb; lia.
Qed.

(** [n] pages from [p] on: free before, used now; the others keep their records. *)
Definition allocated (own : Z -> Z) (ps : Z -> page) (p n : Z) (own' : Z -> Z) (ps' : Z -> page) : Prop :=
  (forall i, p <= i < p + n -> flags (ps i) = 0 /\ flags (ps' i) = PAGE_FLAG_USED) /\
  (forall i, ~ (p <= i < p + n) -> eq_but_order (ps i) (ps' i)) /\
  (forall i, inside i -> flags (ps i) <> 0 -> own' i = own i /\ ps' i = ps i).

Lemma alloc_from own fl s p l o n :
  wf own fl none (pages s) (lists s) -> 0 <= o <= MAX_ORDER -> fl o = p :: l -> 0 < n <= 2 ^ o ->
  runs (with_lists (list_rm (page_list p));;
        trim_block p n;;
        forM 0 (Z.to_nat n) (fun i =>
          pg ← page_at (p + i);
          BUG_ON (negb (flags pg =? 0));;
          upd_page (p + i) (fun pg => pg_set_flags (Z.lor (flags pg) PAGE_FLAG_USED) pg))) s
    (fun _ s' => exists own' fl' ps' h', s' = set_lists h' (set_pages ps' s) /\
      wf own' fl' none ps' h' /\ chunks own' ps' p n /\ inside p /\ p + n <= NPAGES /\
      allocated own (pages s) p n own' ps').
Proof.
  intros Hwf Ho Hfl Hn.
  assert (Hl : listed own none (pages s) p o) by (apply (wf_listed _ _ _ _ _ Hwf); [done|rewrite Hfl; set_solver]).
  destruct Hl as (Hp & Ep & Eo & Hfp & _). destruct (head_block Hwf p Hp Ep) as (_ & Hal & Hfit & Hext).
  rewrite Eo in Hal, Hfit, Hext. mstep. apply runs_lift.
  eapply runs_mono; [eapply (list_rm_spec _ (free_page_list o) [] _ (page_list <$> l))|].
  { pose proof (wf_lists _ _ _ _ _ Hwf o Ho) as HL. rewrite Hfl in HL. exact HL. }
  intros [] h1 [Hl1 Hoff].
  pose proof (wf_take own fl _ _ _ h1 p o [] l Hwf Ho Hfl Hl1 Hoff) as Hwf1.
  set (hand := take own none p) in *.
  assert (Hh : forall i, hand i = bool_decide (p <= i < p + 2 ^ o)).
  { intros i. unfold hand, take, none. cbn [orb]. apply bool_decide_ext. rewrite Hext. tauto. }
  pose proof (pow2_pos o ltac:(lia)).
  mstep. unfold trim_block. mstep. mstep; [apply Z.eqb_neq; lia|]. mstep.
  apply bug_unless_free; [done..|].
  eapply runs_mono; [apply (trim_loop_spec trim_fuel own (<[o := l]> fl) hand (set_lists h1 s) p n); try done|].
  - rewrite Hh. apply bool_decide_eq_true. lia.
  - cbn [pages set_lists]. by rewrite Eo.
  - cbn [pages set_lists]. rewrite Eo. unfold trim_fuel, MAX_ORDER in *. lia.
  - cbn [pages set_lists]. rewrite Eo. intros [] s2 (own2 & fl2 & ps2 & h2 & -> & Hwf2 & Hch & Hout & Hsame).
    cbn [pages set_lists] in Hout, Hsame.
    assert (Hh2 : forall i, minus hand (p + n) (p + 2 ^ o) i = bool_decide (p <= i < p + n)).
    { intros i. unfold minus. rewrite Hh, <- bool_decide_not, <- bool_decide_and. apply bool_decide_ext. lia. }
    assert (Hz : forall i, p <= i < p + n -> inside i /\ flags (ps2 i) = 0).
    { intros i Hi. apply (wf_hand _ _ _ _ _ Hwf2). rewrite Hh2. by apply bool_decide_eq_true. }
    eapply runs_mono; [apply (upd_loop _ p n (fun _ pg => pg_set_flags (Z.lor (flags pg) PAGE_FLAG_USED) pg)); [lia|]|].
    { intros k ps3 Hk E3. cbn [pages set_lists set_pages] in E3. destruct (Hz (p + k) ltac:(lia)) as [Hi Hf].
      mstep. apply page_at_spec; [done|]. cbn [pages set_pages]. rewrite E3, Hf. do 2 mstep; [done|].
      apply upd_page_spec; [done|]. eexists. split; [reflexivity|]. cbn [pages set_lists set_pages]. split.
      - rewrite fn_insert_eq. by rewrite E3.
      - intros j Hj. by rewrite fn_insert_ne. }
    intros [] s3 (ps3 & -> & Hps3). cbn [pages set_lists set_pages] in Hps3.
    assert (Hord : forall i, order (ps3 i) = order (ps2 i)) by (intros i; rewrite Hps3; by case_bool_decide).
    assert (Hfl3 : forall i, flags (ps3 i) = if bool_decide (p <= i < p + n) then PAGE_FLAG_USED else flags (ps2 i)).
    { intros i. rewrite Hps3. case_bool_decide as Hi; [|done]. destruct (Hz i Hi) as [_ Hf]. cbn [flags pg_set_flags].
      by rewrite Hf. }
    exists own2, fl2, ps3, h2. split; [done|]. split; [|split; [|split; [done|split; [lia|split; [|split]]]]].
    + apply (wf_mark_used own2 fl2 _ ps2 ps3 h2 Hwf2); [done|]. intros i _. by rewrite Hfl3, Hh2.
    + apply (chunks_ext own2 own2 ps2); [done|]. intros i _. by rewrite Hord.
    + intros i Hi. split.
      * destruct (Hz i Hi) as [_ Hf]. destruct (Hsame i) as (_ & E & _). congruence.
      * by rewrite Hfl3, bool_decide_true.
    + intros i Hi. eapply eq_but_order_trans; [apply Hsame|]. rewrite Hps3. by rewrite bool_decide_false.
    + intros i Hi Hf. assert (Hi' : ~ (p <= i < p + 2 ^ o)).
      { intros Hin. apply Hf, (wf_hand _ _ _ _ _ Hwf1). rewrite Hh. by apply bool_decide_eq_true. }
      destruct (Hout i Hi') as [E1 E2]. split; [done|]. rewrite Hps3, bool_decide_false by lia. done.
Qed.

(** The free list the search stops at: the first non-empty one from [o] up. *)
Lemma do_alloc_loop fuel own fl s n : forall o,
  wf own fl none (pages s) (lists s) -> 0 <= o -> 0 < n <= 2 ^ o -> MAX_ORDER - o + 1 < Z.of_nat fuel ->
  (exists o', o <= o' <= MAX_ORDER /\ fl o' <> []) ->
  runs (iterM fuel (alloc_round n) o) s (fun p s' => exists own' fl',
    wf own' fl' none (pages s') (lists s') /\ chunks own' (pages s') p n /\ inside p /\ p + n <= NPAGES /\
    allocated own (pages s) p n own' (pages s') /\ alloc_lock s' = alloc_lock s /\ frame s s' /\
    pages_in_use s' = u32 (pages_in_use s + n)).
Proof.
  induction fuel as [|fuel IH]; intros o Hwf Ho Hn Hfuel (o' & Ho' & Hne); [lia|].
  apply runs_iterM_S. unfold alloc_round. destruct (Z.ltb_spec MAX_ORDER o); [lia|].
  mstep. apply runs_lift. eapply list_empty_spec; [apply (wf_lists _ _ _ _ _ Hwf); lia|].
  destruct (fl o) as [|p l] eqn:Hfl.
  - rewrite bool_decide_true by done. cbn [negb]. mstep.
    assert (set_lists (lists s) s = s) as -> by by destruct s.
    rewrite uwrap_small by (unfold MAX_ORDER in *; lia). apply IH; [done|lia| |lia|].
    + rewrite pow2_succ; lia.
    + exists o'. split; [|done]. assert (o <> o') by congruence. lia.
  - rewrite bool_decide_false by done. cbn [negb]. assert (set_lists (lists s) s = s) as -> by by destruct s.
    assert (Hl : listed own none (pages s) p o) by (apply (wf_listed _ _ _ _ _ Hwf); [lia|rewrite Hfl; set_solver]).
    destruct Hl as (Hp & _ & _ & Hfp & _).
    mstep. apply runs_lift. eapply next_of_spec; [apply is_list_first, (wf_lists _ _ _ _ _ Hwf); lia|].
    rewrite Hfl. cbn [fmap list_fmap head default]. assert (set_lists (lists s) s = s) as -> by by destruct s.
    mstep. eapply runs_read; [reflexivity|]. mstep. apply page_at_spec; [done|]. rewrite Hfp.
    do 2 mstep; [done|].
    pose proof (alloc_from own fl s p l o n Hwf ltac:(lia) Hfl Hn) as Hall.
    apply runs_bind_inv in Hall. mstep. eapply runs_mono; [exact Hall|]. intros [] s1 H1. cbn beta in H1.
    apply runs_bind_inv in H1. mstep. eapply runs_mono; [exact H1|]. intros [] s2 H2. cbn beta in H2.
    mstep. eapply runs_mono; [exact H2|]. intros [] s3 (own' & fl' & ps' & h' & -> & Hrest).
    do 3 mstep. exists own', fl'. cbn [pages lists set_in_use set_lists set_pages alloc_lock pages_in_use].
    destruct Hrest as (H3 & H4 & H5 & H6 & H7). repeat (split; [done|]). done.
Qed.

Lemma do_alloc_oom fuel own fl s n : forall o,
  wf own fl none (pages s) (lists s) -> 0 <= o <= 32 -> 0 < Z.of_nat fuel -> MAX_ORDER - o + 1 < Z.of_nat fuel ->
  (forall o', o <= o' <= MAX_ORDER -> fl o' = []) ->
  iterM fuel (alloc_round n) o s = Panic.
Proof.
  induction fuel as [|fuel IH]; intros o Hwf Ho Hf0 Hfuel Hnil; [lia|].
  cbn [iterM]. unfold mbind, M_bind, alloc_round at 1. destruct (Z.ltb_spec MAX_ORDER o) as [|Hle]; [done|].
  assert (He : runs (with_lists (list_empty (free_page_list o))) s (fun b s' => b = true /\ s' = s)).
  { apply runs_lift. eapply list_empty_spec; [apply (wf_lists _ _ _ _ _ Hwf); lia|].
    rewrite (Hnil o) by lia. split; [done|]. by destruct s. }
  apply runs_Done in He as (b & s' & He & -> & ->). unfold mbind, M_bind. rewrite He. cbn [negb].
  unfold mret, M_ret. rewrite uwrap_small by (unfold MAX_ORDER in *; lia).
  apply IH; [done|unfold MAX_ORDER in *; lia|lia|lia|]. intros o' Ho'. apply Hnil. lia.
Qed.

Lemma run_log2_spec {S} (s : S) n (Q : Z -> S -> Prop) :
  0 < n < 2 ^ 32 -> Q (Z.log2 n) s -> runs (run_log2 n) s Q.
Proof. intros Hn HQ. eapply runs_read; [|exact HQ]. by apply log2_32_spec. Qed.

(** An allocation of [n] pages finds a block as soon as one list of a sufficient
    order holds one. *)
Lemma do_alloc_pages_spec own fl s n :
  wf own fl none (pages s) (lists s) -> 0 < n < 2 ^ 32 ->
  (exists o, Z.log2_up n <= o <= MAX_ORDER /\ fl o <> []) ->
  runs (do_alloc_pages n) s (fun p s' => exists own' fl',
    wf own' fl' none (pages s') (lists s') /\ chunks own' (pages s') p n /\ inside p /\ p + n <= NPAGES /\
    allocated own (pages s) p n own' (pages s') /\ alloc_lock s' = alloc_lock s /\ frame s s' /\
    pages_in_use s' = u32 (pages_in_use s + n)).
Proof.
  intros Hwf Hn Hex. unfold do_alloc_pages. mstep. apply run_log2_spec; [done|].
  rewrite target_order_spec by done. apply (do_alloc_loop _ own fl); [done| | | |done].
  - apply Z.log2_up_nonneg.
  - split; [lia|]. destruct (decide (n = 1)) as [->|]; [done|]. apply Z.log2_up_spec. lia.
  - pose proof (Z.log2_up_nonneg n). unfold MAX_ORDER, ripple_fuel. lia.
Qed.

Lemma do_alloc_pages_oom own fl s n :
  wf own fl none (pages s) (lists s) -> 0 < n < 2 ^ 32 ->
  (forall o, Z.log2_up n <= o <= MAX_ORDER -> fl o = []) ->
  do_alloc_pages n s = Panic.
Proof.
  intros Hwf Hn Hnil. unfold do_alloc_pages, mbind, M_bind, run_log2, read. rewrite log2_32_spec by done.
  cbv zeta. rewrite target_order_spec by done. apply (do_alloc_oom _ own fl); [done| | | |done].
  - split; [apply Z.log2_up_nonneg|]. transitivity (Z.log2_up (2 ^ 32)); [|done].
    apply Z.log2_up_le_mono. lia.
  - unfold ripple_fuel. lia.
  - pose proof (Z.log2_up_nonneg n). unfold MAX_ORDER, ripple_fuel. lia.
Qed.

(** ** Coalescing is complete *)

(** An aligned run of [2 ^ t] free pages. *)
Definition free_run (ps : Z -> page) (q t : Z) : Prop :=
  aligned q t /\ 0 <= q /\ q + 2 ^ t <= NPAGES /\ forall i, q <= i < q + 2 ^ t -> flags (ps i) = 0.

(** A free aligned run lies in one free block: two free halves would be buddies on
    the same list. *)
Lemma free_run_block own fl ps h (t : nat) : forall q,
  wf own fl none ps h -> Z.of_nat t <= MAX_ORDER -> free_run ps q (Z.of_nat t) ->
  Z.of_nat t <= order (ps (own q)).
Proof.
  induction t as [|t IH]; intros q Hwf Ht (Hal & Hq & Hfit & Hfree).
  { assert (Hqi : inside q) by (unfold inside; simpl in Hfit; lia).
    destruct (wf_block _ _ _ _ _ Hwf q Hqi) as (Ho & _). simpl. lia. }
  replace (Z.of_nat (S t)) with (Z.of_nat t + 1) in * by lia. set (k := Z.of_nat t) in *.
  pose proof (pow2_pos k ltac:(lia)). rewrite pow2_succ in * by lia.
  assert (Hqi : inside q) by (unfold inside; lia). assert (Hbi : inside (q + 2 ^ k)) by (unfold inside; lia).
  assert (H1 : k <= order (ps (own q))).
  { apply IH; [done|lia|]. split; [apply (aligned_le _ (k + 1)); [lia|done]|]. split; [done|]. split; [lia|].
    intros i Hi. apply Hfree. lia. }
  assert (H2 : k <= order (ps (own (q + 2 ^ k)))).
  { apply IH; [done|lia|]. split; [apply aligned_upper; [lia|done]|]. split; [lia|]. split; [lia|].
    intros i Hi. apply Hfree. lia. }
  destruct (Z.le_gt_cases (k + 1) (order (ps (own q)))) as [|Hlt]; [done|exfalso].
  assert (Eo : order (ps (own q)) = k) by lia.
  destruct (wf_block _ _ _ _ _ Hwf q Hqi) as (Ho & Hp & Halp & Hin & Hown). rewrite Eo in *.
  assert (Eq : own q = q).
  { destruct (block_nested q k (own q) k q) as [Hn1 Hn2]; [lia|apply (aligned_le _ (k + 1)); [lia|done]|done|lia|lia|]. lia. }
  destruct (wf_block _ _ _ _ _ Hwf _ Hbi) as (Ho2 & Hp2 & Halp2 & Hin2 & Hown2).
  assert (Hbal : aligned (q + 2 ^ k) k) by (apply aligned_upper; [lia|done]).
  assert (Eo2 : order (ps (own (q + 2 ^ k))) = k).
  { destruct (Z.le_gt_cases (k + 1) (order (ps (own (q + 2 ^ k))))) as [Hge|]; [exfalso|lia].
    destruct (block_nested q (k + 1) (own (q + 2 ^ k)) (order (ps (own (q + 2 ^ k)))) (q + 2 ^ k)) as [Hn1 Hn2];
      [lia|done|done|rewrite pow2_succ by lia; lia|done|]. rewrite pow2_succ in Hn2 by lia.
    assert (E : own q = own (q + 2 ^ k)) by (apply Hown2; lia). rewrite <- E in Hge. lia. }
  assert (Eb : own (q + 2 ^ k) = q + 2 ^ k).
  { rewrite Eo2 in *. destruct (block_nested (q + 2 ^ k) k (own (q + 2 ^ k)) k (q + 2 ^ k)) as [Hn1 Hn2];
      [lia|done|done|lia|lia|]. lia. }
  rewrite Eq in Eo. rewrite Eb in Eo2.
  apply (wf_coalesced _ _ _ _ _ Hwf q k); [lia| |].
  - split; [done|]. split; [done|]. split; [done|]. split; [apply Hfree; lia|done].
  - rewrite buddy_lower by (done || lia). split; [done|]. split; [done|]. split; [done|]. split; [apply Hfree; lia|done].
Qed.

(** So the search of [do_alloc_pages] is complete: a list of order [t] or more is
    non-empty exactly when some aligned run of [2 ^ t] pages is free. *)
Lemma free_run_iff own fl ps h t :
  wf own fl none ps h -> 0 <= t ->
  (exists o, t <= o <= MAX_ORDER /\ fl o <> []) <-> (t <= MAX_ORDER /\ exists q, free_run ps q t).
Proof.
  intros Hwf Ht. split.
  - intros (o & Ho & Hne). destruct (fl o) as [|p l] eqn:Hfl; [done|].
    assert (Hl : listed own none ps p o) by (apply (wf_listed _ _ _ _ _ Hwf); [lia|rewrite Hfl; set_solver]).
    destruct Hl as (Hp & Ep & Eo & Hf & _). destruct (head_block Hwf p Hp Ep) as (_ & Hal & Hfit & Hext).
    rewrite Eo in *. split; [lia|]. exists p. split; [apply (aligned_le _ o); [lia|done]|].
    pose proof (Z.pow_le_mono_r 2 t o ltac:(lia) ltac:(lia)). unfold inside in Hp. split; [lia|]. split; [lia|].
    intros i Hi. assert (inside i /\ own i = p) as [Hi' E] by (apply Hext; lia).
    apply (wf_uniform _ _ _ _ _ Hwf i Hi'). by rewrite E.
  - intros (Hm & q & Hrun). pose proof Hrun as (Hal & Hq & Hfit & Hfree).
    pose proof (pow2_pos t Ht). assert (Hqi : inside q) by (unfold inside; lia).
    assert (Hk : t <= order (ps (own q))).
    { replace t with (Z.of_nat (Z.to_nat t)) by lia. eapply free_run_block; [exact Hwf|lia|].
      by replace (Z.of_nat (Z.to_nat t)) with t by lia. }
    destruct (wf_block _ _ _ _ _ Hwf q Hqi) as (Ho & _). destruct (own_inside Hwf q Hqi) as [Hoi Eoi].
    exists (order (ps (own q))). split; [lia|].
    assert (own q ∈ fl (order (ps (own q)))) as Hin; [|intros E; rewrite E in Hin; set_solver].
    apply (wf_listed _ _ _ _ _ Hwf); [lia|]. split; [done|]. split; [done|]. split; [done|]. split; [|done].
    apply (wf_uniform _ _ _ _ _ Hwf q Hqi), Hfree. lia.
Qed.
