(* ===== verification/PageAlloc.v ===== *)
(** * PageAlloc: what the page allocator promises its clients

    [ok s A]: the allocator's data is well formed and [A] are the extents handed out
    and not yet freed.  The theorems give [alloc_pages] and [free_pages] their
    contract over [ok] and refine them to an abstract allocator. *)

From S2P Require Import Prelude Words CList CString Mmu Mm Buddy.

(** Page [i] is mapped in the kernel's window at the address its record holds. *)
Definition mapped (km : mmu) (pg : page) (i : Z) : Prop :=
  exists k, 0 <= k < kernel_next_page km /\ k < 2 ^ 18 /\ addr pg = window k 0 /\
    ent_get_phys (kptab km k) = i * PAGE_SIZE.

Definition extent_ok (own : Z -> Z) (s : mm) (p n : Z) : Prop :=
  0 < n /\ inside p /\ p + n <= NPAGES /\ chunks own (pages s) p n /\
  forall i, p <= i < p + n ->
    has (flags (pages s i)) PAGE_FLAG_USED = true /\ has (flags (pages s i)) PAGE_FLAG_PERM = false /\
    mapped (kmap s) (pages s i) i.

Definition apart (e1 e2 : Z * Z) : Prop := e1.1 + e1.2 <= e2.1 \/ e2.1 + e2.2 <= e1.1.

Definition kmap_ok (km : mmu) : Prop := map_lock km = false /\ 0 <= kernel_next_page km.

Definition ok (s : mm) (A : gset (Z * Z)) : Prop :=
  alloc_lock s = false /\ kmap_ok (kmap s) /\
  (forall e1 e2, e1 ∈ A -> e2 ∈ A -> e1 <> e2 -> apart e1 e2) /\
  exists own fl, wf own fl none (pages s) (lists s) /\
    forall p n, (p, n) ∈ A -> extent_ok own s p n.

Definition is_free_at (s : mm) (i : Z) : Prop := flags (pages s i) = 0.

(** ** Allocation *)

(** Flags may change as long as free stays free and used stays used. *)
Lemma wf_reflag own fl ps ps' h :
  wf own fl none ps h ->
  (forall i, order (ps' i) = order (ps i)) ->
  (forall i, inside i -> flags (ps' i) = flags (ps i) \/
     (flags (ps i) <> 0 /\ has (flags (ps' i)) PAGE_FLAG_USED = true)) ->
  wf own fl none ps' h.
Proof.
  intros Hwf Hord Hfl. pose proof Hwf as [H1 H2 H3 H4 H5 H6 H7 H8 H9].
  assert (Hz : forall i, inside i -> flags (ps' i) = 0 <-> flags (ps i) = 0).
  { intros i Hi. destruct (Hfl i Hi) as [-> |[Hn Hu]]; [done|]. split; [|done]. intros E. by rewrite E in Hu. }
  assert (Hlist : forall q o, listed own none ps' q o <-> listed own none ps q o).
  { intros q o. unfold listed. rewrite Hord.
    split; intros (Hq & ? & ? & Hf & ?); repeat (split; [done|]); (split; [by apply Hz|done]). }
  split; try done.
  - intros i Hi. apply (block_of_order own ps); [done|auto].
  - intros i Hi. rewrite Hord. auto.
  - intros i Hi. destruct (Hfl i Hi) as [-> |[Hn Hu]]; auto.
  - intros i Hi. destruct (own_inside Hwf i Hi) as [Hoi _]. rewrite !Hz by done. auto.
  - intros o q Ho. rewrite Hlist. auto.
  - intros q o Ho. rewrite !Hlist. auto.
Qed.

Lemma chunks_range own ps p n : chunks own ps p n -> 0 <= n.
Proof.
  induction 1; [lia|]. pose proof (pow2_pos (Z.log2 n) (Z.log2_nonneg n)). lia.
Qed.

(** An outstanding extent survives whatever leaves its blocks, its pages' use and
    their mapping alone. *)
Lemma extent_keep own own' s s' p n :
  extent_ok own s p n ->
  (forall i, p <= i < p + n -> own' i = own i /\ pages s' i = pages s i) ->
  (forall k, 0 <= k < kernel_next_page (kmap s) -> kptab (kmap s') k = kptab (kmap s) k) ->
  kernel_next_page (kmap s) <= kernel_next_page (kmap s') ->
  extent_ok own' s' p n.
Proof.
  intros (Hn & Hp & Hfit & Hch & Hpg) Hsame Htab Hnext. repeat (split; [done|]). split.
  - apply (chunks_ext own own' (pages s)); [done|]. intros i Hi. destruct (Hsame i Hi) as [-> ->]. done.
  - intros i Hi. destruct (Hsame i Hi) as [_ ->]. destruct (Hpg i Hi) as (H1 & H2 & k & Hk & Hk2 & Ea & Ee).
    split; [done|]. split; [done|]. exists k. rewrite Htab by done. split; [lia|]. auto.
Qed.

Definition cache_flag (fl : Z) : Z :=
  if has fl ALLOC_CACHE then Z.lor PAGE_FLAG_USED PAGE_FLAG_CACHE else PAGE_FLAG_USED.

(** What a successful allocation of [n] pages at [p] does to the state. *)
Record alloc_post (s : mm) (A : gset (Z * Z)) (n fl p : Z) (s' : mm) : Prop := AllocPost {
  ap_ok : ok s' ({[(p, n)]} ∪ A);
  ap_range : 0 <= p /\ p + n <= NPAGES;
  ap_was_free : forall i, p <= i < p + n -> is_free_at s i;
  ap_flags : forall i, p <= i < p + n -> flags (pages s' i) = cache_flag fl;
  ap_addr : forall i, p <= i < p + n ->
    addr (pages s' i) = window (kernel_next_page (kmap s) + (i - p)) 0;
  ap_others : forall i, inside i -> ~ (p <= i < p + n) -> eq_but_order (pages s i) (pages s' i);
  ap_compound : has fl ALLOC_COMPOUND = true -> compound_num (pages s' p) = n;
  ap_count : pages_in_use s' = u32 (pages_in_use s + n);
  ap_zero : has fl ALLOC_ZERO = true -> forall a,
    window (kernel_next_page (kmap s)) 0 <= a < window (kernel_next_page (kmap s)) 0 + n * PAGE_SIZE ->
    vmem s' a = 0;
  ap_vmem : has fl ALLOC_ZERO = false -> vmem s' = vmem s;
  ap_mem : forall a, vmem s' a = vmem s a \/ vmem s' a = 0 /\
    window (kernel_next_page (kmap s)) 0 <= a < window (kernel_next_page (kmap s)) 0 + n * PAGE_SIZE;
  ap_next : kernel_next_page (kmap s') = kernel_next_page (kmap s) + n;
}.

Definition alloc_record (first fl k : Z) (pg : page) : page :=
  let pg := pg_set_addr (u32 (first + PAGE_SIZE * k)) pg in
  if has fl ALLOC_CACHE then pg_set_flags (Z.lor (flags pg) PAGE_FLAG_CACHE) pg else pg.

(** The loop of [_alloc_pages] over the pages it got. *)
Lemma alloc_pages_loop s p n first fl :
  0 <= n -> 0 <= p -> p + n <= NPAGES ->
  (forall i, p <= i < p + n -> flags (pages s i) = PAGE_FLAG_USED) ->
  runs (forM 0 (Z.to_nat n) (fun i =>
    upd_page (p + i) (pg_set_addr (u32 (first + PAGE_SIZE * i)));;
    pg ← page_at (p + i);
    BUG_ON (negb (has (flags pg) PAGE_FLAG_USED));;
    BUG_ON (has (flags pg) PAGE_FLAG_PERM);;
    if has fl ALLOC_CACHE
    then upd_page (p + i) (fun pg => pg_set_flags (Z.lor (flags pg) PAGE_FLAG_CACHE) pg)
    else mret tt)) s (fun _ s' => exists ps', s' = set_pages ps' s /\
      forall i, ps' i = if bool_decide (p <= i < p + n) then alloc_record first fl (i - p) (pages s i) else pages s i).
Proof.
  intros Hn Hp Hfit Hused. apply upd_loop; [done|]. intros k ps1 Hk E1.
  assert (Hi : inside (p + k)) by (unfold inside; lia). pose proof (Hused (p + k) ltac:(lia)) as Hf.
  mstep. apply upd_page_spec; [done|]. mstep. apply page_at_spec; [done|]. cbn [pages set_pages].
  rewrite fn_insert_eq, E1. cbn [flags pg_set_addr]. rewrite Hf. do 2 mstep; [done|]. do 2 mstep; [done|].
  unfold alloc_record. destruct (has fl ALLOC_CACHE).
  - apply upd_page_spec; [done|]. eexists. split; [reflexivity|]. cbn [pages set_pages]. split.
    + by rewrite !fn_insert_eq.
    + intros j Hj. by rewrite !fn_insert_ne.
  - mstep. eexists. split; [reflexivity|]. split.
    + by rewrite fn_insert_eq.
    + intros j Hj. by rewrite !fn_insert_ne.
Qed.

Definition eq_but_compound (p p' : page) : Prop :=
  addr p' = addr p /\ flags p' = flags p /\ order p' = order p.

Lemma alloc_compound s p n fl :
  inside p ->
  runs (if has fl ALLOC_COMPOUND then upd_page p (pg_set_compound n) else mret tt) s (fun _ s' =>
    exists ps', s' = set_pages ps' s /\ (forall i, eq_but_compound (pages s i) (ps' i)) /\
      (forall i, i <> p -> ps' i = pages s i) /\ (has fl ALLOC_COMPOUND = true -> compound_num (ps' p) = n)).
Proof.
  intros Hp. destruct (has fl ALLOC_COMPOUND).
  - apply upd_page_spec; [done|]. eexists. split; [reflexivity|]. split; [|split].
    + intros i. destruct (decide (i = p)) as [->|]; [rewrite fn_insert_eq|rewrite fn_insert_ne by done]; done.
    + intros i Hi. by rewrite fn_insert_ne.
    + by rewrite fn_insert_eq.
  - mstep. exists (pages s). split; [by destruct s|]. done.
Qed.

Lemma alloc_zero s first n fl :
  runs (if has fl ALLOC_ZERO then with_vmem (memset first 0 n);; mret tt else mret tt) s (fun _ s' =>
    exists v, s' = set_vmem v s /\
      (has fl ALLOC_ZERO = true -> forall a, first <= a < first + Z.of_nat n -> v a = 0) /\
      (has fl ALLOC_ZERO = false -> v = vmem s) /\
      forall a, v a = vmem s a \/ v a = 0 /\ first <= a < first + Z.of_nat n).
Proof.
  destruct (has fl ALLOC_ZERO).
  - mstep. apply runs_lift. eapply runs_mono; [apply memset_spec|]. intros r v [_ Hv]. mstep.
    exists v. split; [done|]. split; [|split; [done|]].
    + intros _ a Ha. rewrite Hv. by rewrite bool_decide_true.
    + intros a. rewrite Hv. case_bool_decide; [by right|by left].
  - mstep. exists (vmem s). split; [by destruct s|]. split; [done|]. split; [done|]. by left.
Qed.

Lemma page_phys_aligned p : inside p ->
  page_to_phys p = p * PAGE_SIZE /\ get_pageoff (page_to_phys p) = 0.
Proof.
  unfold inside, NPAGES, NUM_ENTRIES, page_to_phys, PAGE_SIZE, get_pageoff. intros Hp.
  rewrite uwrap_small by lia. split; [done|]. rewrite land_fff. apply Z_mod_mult.
Qed.

Lemma alloc_pages_spec s A n fl :
  ok s A -> 0 < n < 2 ^ 32 -> kernel_next_page (kmap s) + n <= 2 ^ 18 ->
  Z.log2_up n <= MAX_ORDER -> (exists q, free_run (pages s) q (Z.log2_up n)) ->
  runs (_alloc_pages n fl) s (alloc_post s A n fl).
Proof.
  intros (Hlock & (Hml & Hk) & Hord & own & fls & Hwf & Hext) Hn Hwin Hlog Hrun.
  assert (Hlist : exists o, Z.log2_up n <= o <= MAX_ORDER /\ fls o <> [])
    by (apply (free_run_iff own fls (pages s) (lists s)); [done|apply Z.log2_up_nonneg|done]).
  unfold _alloc_pages. mstep. unfold lock_alloc, runs at 1. rewrite Hlock. mstep.
  eapply runs_mono; [apply (do_alloc_pages_spec own fls (set_alloc_lock true s) n); [exact Hwf|done|done]|].
  intros p s1 (own1 & fl1 & Hwf1 & Hch & Hp & Hfit & (Ha1 & Ha2 & Ha3) & Hl1 & (Hav & Hkm & Hdir & Hvm) & Huse).
  cbn [pages set_alloc_lock kmap vmem pages_in_use] in *. unfold inside in Hp.
  destruct (page_phys_aligned p Hp) as [Hphys Hoff].
  mstep. apply runs_lift. eapply runs_mono; [apply map_pages_spec; rewrite ?Hkm; [done|lia|done|lia|done]|].
  rewrite Hkm, Hoff. intros first km (-> & Hnext & Hml2 & Htab). set (K := kernel_next_page (kmap s)) in *.
  mstep. eapply runs_mono; [apply (alloc_pages_loop _ p n (window K 0) fl); [lia|lia|done|]|].
  { intros i Hi. by apply Ha1. }
  intros [] s2 (ps2 & -> & Hps2). cbn [pages set_kmap] in Hps2. mstep.
  eapply runs_mono; [apply alloc_compound; exact Hp|].
  intros [] s3 (ps3 & -> & Hc1 & Hc2 & Hc3). cbn [pages set_pages] in Hc1, Hc2. mstep.
  eapply runs_mono; [apply alloc_zero|]. intros [] s4 (v & -> & Hz1 & Hz2 & Hz3).
  unfold unlock_alloc. do 3 mstep.
  assert (Hrec : forall i, p <= i < p + n -> addr (ps3 i) = window (K + (i - p)) 0 /\ flags (ps3 i) = cache_flag fl).
  { intros i Hi. destruct (Hc1 i) as (-> & -> & _). rewrite Hps2, bool_decide_true by done.
    destruct (Ha1 i Hi) as [_ Hu].
    assert (u32 (window K 0 + PAGE_SIZE * (i - p)) = window (K + (i - p)) 0) as Hw.
    { rewrite uwrap_small; unfold window, VIRTUAL_BASE, PAGE_SIZE; lia. }
    unfold alloc_record, cache_flag. destruct (has fl ALLOC_CACHE); cbn [addr flags pg_set_addr pg_set_flags].
    - rewrite Hw, Hu. done.
    - by rewrite Hw, Hu. }
  assert (Hout : forall i, ~ (p <= i < p + n) -> ps3 i = pages s1 i).
  { intros i Hi. rewrite Hc2 by lia. rewrite Hps2. by rewrite bool_decide_false. }
  assert (Hordr : forall i, order (ps3 i) = order (pages s1 i)).
  { intros i. destruct (Hc1 i) as (_ & _ & ->). rewrite Hps2. case_bool_decide; [|done].
    unfold alloc_record. by destruct (has fl ALLOC_CACHE). }
  assert (Hcf : has (cache_flag fl) PAGE_FLAG_USED = true /\ has (cache_flag fl) PAGE_FLAG_PERM = false)
    by (unfold cache_flag; by destruct (has fl ALLOC_CACHE)).
  split; cbn [pages lists kmap alloc_lock pages_in_use vmem set_pages set_kmap set_vmem set_alloc_lock].
  - split; [done|]. split; [split; [done|cbn [kmap set_alloc_lock set_vmem set_pages set_kmap]; lia]|]. split.
    { assert (Hnew : forall e, e ∈ A -> apart (p, n) e).
      { intros [q m] Hin. unfold apart. cbn [fst snd].
        destruct (Hext q m Hin) as (Hm & Hq & Hqfit & _ & Hq2).
        destruct (Z.le_gt_cases (p + n) q) as [|H1]; [by left|]. destruct (Z.le_gt_cases (q + m) p) as [|H2]; [by right|exfalso].
        destruct (Hq2 (Z.max p q) ltac:(lia)) as (Hu & _). destruct (Ha1 (Z.max p q) ltac:(lia)) as [Hf _].
        by rewrite Hf in Hu. }
      intros e1 e2 H1 H2 Hne. apply elem_of_union in H1 as [->%elem_of_singleton|H1];
        apply elem_of_union in H2 as [->%elem_of_singleton|H2]; [done|auto| |auto].
      unfold apart in *. specialize (Hnew e1 H1). tauto. }
    exists own1, fl1. split; cbn [pages lists set_alloc_lock set_vmem set_pages set_kmap].
    + apply (wf_reflag own1 fl1 (pages s1)); [done|done|]. intros i Hi.
      destruct (decide (p <= i < p + n)) as [Hin|Hin]; [|left; by rewrite Hout].
      right. destruct (Hrec i Hin) as [_ ->]. destruct (Ha1 i Hin) as [_ ->]. by destruct Hcf.
    + intros q m Hin. apply elem_of_union in Hin as [[= -> ->]%elem_of_singleton|Hin].
      * split; [lia|]. split; [done|]. split; [done|]. split; [by apply (chunks_ext own1 own1 (pages s1))|].
        intros i Hi. cbn [pages set_alloc_lock set_vmem set_pages kmap set_kmap].
        destruct (Hrec i Hi) as [Ead ->]. destruct Hcf. split; [done|]. split; [done|].
        exists (K + (i - p)). rewrite Hnext. split; [lia|]. split; [lia|]. split; [done|].
        rewrite Htab, bool_decide_true by lia. rewrite Hphys.
        rewrite uwrap_small by (unfold PAGE_SIZE, NPAGES, NUM_ENTRIES in *; lia).
        rewrite ent_get_phys_set by (unfold PAGE_SIZE, NPAGES, NUM_ENTRIES in *; lia).
        replace (p * PAGE_SIZE + PAGE_SIZE * (K + (i - p) - K)) with (i * 2 ^ 12) by (unfold PAGE_SIZE; lia).
        by rewrite Z.div_mul by lia.
      * pose proof (Hext q m Hin) as He. pose proof He as (Hm & Hq & Hqfit & _ & Hq2).
        apply (extent_keep own own1 s); [done|..]; cbn [pages set_alloc_lock set_vmem set_pages kmap set_kmap].
        -- intros i Hi. destruct (Hq2 i Hi) as (Hu & _).
           assert (flags (pages s i) <> 0) by (intros E; by rewrite E in Hu).
           destruct (Ha3 i ltac:(unfold inside in *; lia) ltac:(done)) as [-> E]. split; [done|]. rewrite Hout; [done|].
           intros Hin'. destruct (Ha1 i Hin'). done.
        -- intros k Hk'. rewrite Htab, bool_decide_false by (fold K in Hk'; lia). done.
        -- fold K. lia.
  - lia.
  - intros i Hi. by apply Ha1.
  - intros i Hi. by apply Hrec.
  - intros i Hi. by apply Hrec.
  - intros i _ Hi. rewrite Hout by done. by apply Ha2.
  - done.
  - done.
  - intros Hf a Ha. apply Hz1; [done|]. rewrite uwrap_small by (unfold PAGE_SIZE; lia).
    rewrite Z2Nat.id by (unfold PAGE_SIZE; lia). done.
  - intros Hf. rewrite Hz2 by done. done.
  - intros a. destruct (Hz3 a) as [->|[-> Ha]]; [by left; rewrite <- Hvm|right; split; [done|]].
    rewrite uwrap_small in Ha by (unfold PAGE_SIZE; lia). by rewrite Z2Nat.id in Ha by (unfold PAGE_SIZE; lia).
  - done.
Qed.

(** ** Freeing *)

Definition released (own : Z -> Z) (ps : Z -> page) (p n : Z) (own' : Z -> Z) (ps' : Z -> page) : Prop :=
  (forall i, p <= i < p + n -> flags (ps' i) = 0) /\
  (forall i, inside i -> ~ (p <= i < p + n) -> eq_but_order (ps i) (ps' i)) /\
  (forall i, inside i -> ~ (p <= i < p + n) -> flags (ps i) <> 0 -> own' i = own i /\ ps' i = ps i).

Lemma released_step own ps p n m own1 ps1 own2 ps2 :
  0 <= m -> 0 <= n -> 0 <= p -> p + m + n <= NPAGES ->
  released own ps p m own1 ps1 -> released own1 ps1 (p + m) n own2 ps2 ->
  released own ps p (m + n) own2 ps2.
Proof.
  intros Hm Hn Hp Hfit (A1 & A2 & A3) (B1 & B2 & B3). split; [|split].
  - intros i Hi. destruct (decide (p + m <= i)) as [|Hlt]; [apply B1; lia|].
    destruct (B2 i ltac:(unfold inside; lia) ltac:(lia)) as (_ & -> & _). apply A1. lia.
  - intros i Hi Hout. eapply eq_but_order_trans; [apply A2; [done|lia]|apply B2; [done|lia]].
  - intros i Hi Hout Hf. destruct (A3 i Hi ltac:(lia) Hf) as [E1 E2]. rewrite <- E1, <- E2.
    apply B3; [done|lia|]. by rewrite E2.
Qed.

Lemma u32_sub_sub x a b : u32 (u32 (x - a) - b) = u32 (x - (a + b)).
Proof. unfold uwrap. rewrite Zminus_mod_idemp_l. f_equal. lia. Qed.

Lemma free_pages_loop fuel : forall own fl s p n k,
  wf own fl none (pages s) (lists s) -> alloc_lock s = false ->
  0 <= k < Z.of_nat fuel -> 0 <= n < 2 ^ k -> n < 2 ^ 32 -> 0 <= p -> p + n <= NPAGES -> chunks own (pages s) p n ->
  (forall i, p <= i < p + n ->
    has (flags (pages s i)) PAGE_FLAG_USED = true /\ has (flags (pages s i)) PAGE_FLAG_PERM = false) ->
  runs (iterM fuel (fun '(master, num) =>
    if num =? 0 then mret (inr tt)
    else
      l ← run_log2 num;
      let block_size := u32 (1 <<< l) in
      p ← page_at master;
      BUG_ON (num =? order p);;
      free_page master;;
      mret (inl (master + block_size, Z.lxor num block_size))) (p, n)) s (fun _ s' =>
    exists own' fl', wf own' fl' none (pages s') (lists s') /\
      released own (pages s) p n own' (pages s') /\ alloc_lock s' = false /\ frame s s' /\
      u32 (pages_in_use s') = u32 (pages_in_use s - n)).
Proof.
  induction fuel as [|fuel IH]; intros own fl s p n k Hwf Hlock Hk Hn H32 Hp Hfit Hch Hpg; [lia|].
  apply runs_iterM_S. destruct (Z.eqb_spec n 0) as [->|Hn0].
  { mstep. exists own, fl. split; [done|]. split; [|split; [done|split; [done|by rewrite Z.sub_0_r]]].
    split; [lia|]. done. }
  inversion Hch as [|p' n' Hpos Ep Eo Hch' E1 E2]; subst; [lia|].
  pose proof (Z.log2_spec n Hpos) as Hl. pose proof (Z.log2_nonneg n) as Hl0.
  pose proof (log2_lt n 32 ltac:(lia)) as Hl32. pose proof (pow2_pos _ Hl0). set (o := Z.log2 n) in *.
  assert (Hpi : inside p) by (unfold inside; lia).
  destruct (head_block Hwf p Hpi Ep) as (Ho & Hal & _ & Hext). rewrite Eo in *.
  pose proof (pow2_le_1024 o Ho).
  mstep. apply run_log2_spec; [lia|]. cbv zeta. mstep. apply page_at_spec; [done|]. fold o.
  do 2 mstep; [apply Z.eqb_neq; rewrite Eo; pose proof (Z.log2_lt_lin n Hpos); unfold o; lia|].
  mstep. eapply runs_mono; [apply (free_page_spec own fl s p Hwf Hlock Hpi Ep)|].
  { intros i Hi E. apply Hpg. assert (p <= i < p + 2 ^ o) by by apply Hext. lia. }
  intros [] s1 (own1 & fl1 & Hwf1 & (F1 & F2 & F3) & Hlock1 & Hfr1 & Huse1). mstep.
  assert (Hrel1 : released own (pages s) p (2 ^ o) own1 (pages s1)).
  { split; [|split].
    - intros i Hi. apply F1; by apply Hext.
    - intros i Hi Hout. apply F2; [done|]. intros E. by apply Hout, Hext.
    - intros i Hi Hout. apply F3; [done|]. intros E. by apply Hout, Hext. }
  rewrite shiftl1, uwrap_small by lia. rewrite lxor_top; [|lia|by rewrite Z.add_1_r].
  assert (Hkeep : forall i, p + 2 ^ o <= i < p + n -> own1 i = own i /\ pages s1 i = pages s i).
  { intros i Hi. destruct (Hpg i ltac:(lia)) as [Hu _]. apply Hrel1; [unfold inside; lia|lia|].
    intros E. by rewrite E in Hu. }
  assert (Hok : o < k).
  { apply Z.log2_lt_pow2; lia. }
  eapply runs_mono; [apply (IH own1 fl1 s1 (p + 2 ^ o) (n - 2 ^ o) (k - 1)); [done|done|lia| |lia|lia|lia| |]|].
  - pose proof (Z.pow_le_mono_r 2 o (k - 1) ltac:(lia) ltac:(lia)). rewrite Z.pow_succ_r in Hl by lia. lia.
  - apply (chunks_ext own own1 (pages s)); [done|]. intros i Hi. destruct (Hkeep i ltac:(lia)) as [-> ->]. done.
  - intros i Hi. destruct (Hkeep i ltac:(lia)) as [_ ->]. apply Hpg. lia.
  - intros [] s2 (own2 & fl2 & Hwf2 & Hrel2 & Hlock2 & Hfr2 & Huse2). exists own2, fl2.
    split; [done|]. split; [|split; [done|split]].
    + replace n with (2 ^ o + (n - 2 ^ o)) by lia.
      eapply released_step; [lia|lia|lia|lia|exact Hrel1|exact Hrel2].
    + unfold frame in *. intuition congruence.
    + rewrite Huse2, Huse1, Eo. rewrite u32_sub_sub. f_equal. lia.
Qed.

(** What freeing an outstanding extent does to the state. *)
Record free_post (s : mm) (A : gset (Z * Z)) (p n : Z) (s' : mm) : Prop := FreePost {
  fp_ok : ok s' (A ∖ {[(p, n)]});
  fp_free : forall i, p <= i < p + n -> is_free_at s' i;
  fp_others : forall i, inside i -> ~ (p <= i < p + n) -> eq_but_order (pages s i) (pages s' i);
  fp_count : u32 (pages_in_use s') = u32 (pages_in_use s - n);
  fp_kmap : kmap s' = kmap s;
  fp_vmem : vmem s' = vmem s;
}.

Lemma free_pages_spec s A p n :
  ok s A -> (p, n) ∈ A -> n < 2 ^ 32 -> runs (free_pages p n) s (fun _ => free_post s A p n).
Proof.
  intros (Hlock & Hkm & Hap & own & fl & Hwf & Hext) Hin Hn32.
  pose proof (Hext p n Hin) as (Hn & Hp & Hfit & Hch & Hpg). unfold inside in Hp.
  unfold free_pages. mstep. apply upd_page_spec; [done|].
  set (ps1 := <[p := pg_set_compound 0 (pages s p)]> (pages s)).
  assert (Hps1 : forall i, eq_but_compound (pages s i) (ps1 i)).
  { intros i. unfold ps1. destruct (decide (i = p)) as [->|]; [rewrite fn_insert_eq|rewrite fn_insert_ne by done]; done. }
  eapply runs_mono; [apply (free_pages_loop 33 own fl (set_pages ps1 s) p n 32)|];
    cbn [pages lists alloc_lock set_pages]; try lia; try done.
  - apply (wf_reflag own fl (pages s)); [done|..].
    + intros i. by destruct (Hps1 i) as (_ & _ & ->).
    + intros i _. left. by destruct (Hps1 i) as (_ & -> & _).
  - apply (chunks_ext own own (pages s)); [done|]. intros i _. by destruct (Hps1 i) as (_ & _ & ->).
  - intros i Hi. destruct (Hps1 i) as (_ & -> & _). destruct (Hpg i Hi) as (H1 & H2 & _). done.
  - intros [] s' (own' & fl' & Hwf' & (R1 & R2 & R3) & Hlock' & (_ & Hkm' & _ & Hvm') & Huse).
    cbn [kmap vmem set_pages pages_in_use pages] in *.
    assert (Hsame : forall i, i <> p -> ps1 i = pages s i) by (intros i Hi; unfold ps1; by rewrite fn_insert_ne).
    split; [|done| |done|done|done].
    + split; [done|]. split; [by rewrite Hkm'|]. split; [intros e1 e2 H1 H2; apply Hap; set_solver|].
      exists own', fl'. split; [done|]. intros q m Hqm. apply elem_of_difference in Hqm as [Hqm Hne].
      rewrite elem_of_singleton in Hne. pose proof (Hext q m Hqm) as He. pose proof He as (Hm & Hq & Hqfit & _ & Hq2).
      apply (extent_keep own own' s); [done|..]; rewrite ?Hkm'; [|done|lia].
      intros i Hi. assert (Hd : ~ (p <= i < p + n)).
      { pose proof (Hap _ _ Hin Hqm ltac:(congruence)) as Ha. unfold apart in Ha. cbn [fst snd] in Ha. lia. }
      rewrite <- (Hsame i) by lia. apply R3; [unfold inside in *; lia|done|].
      rewrite Hsame by lia. destruct (Hq2 i Hi) as (Hu & _). intros E. by rewrite E in Hu.
    + intros i Hi Hout. rewrite <- (Hsame i) by lia. by apply R2.
Qed.

(** ** Clients *)

(** A client keeps the list of the extents it holds and asks for more or frees one. *)
Inductive req := RAlloc (n fl : Z) | RFree (k : nat).

Definition request (held : list (Z * Z)) (r : req) : M mm (list (Z * Z)) :=
  match r with
  | RAlloc n fl => p ← alloc_pages n fl; mret ((p, n) :: held)
  | RFree k =>
      match held !! k with
      | Some (p, n) => free_pages p n;; mret (delete k held)
      | None => mret held
      end
  end.

Fixpoint client (rs : list req) (held : list (Z * Z)) : M mm (list (Z * Z)) :=
  match rs with
  | [] => mret held
  | r :: rs' => held' ← request held r; client rs' held'
  end.

Definition pages_asked (rs : list req) : Z :=
  foldr (fun r t => match r with RAlloc n _ => n + t | RFree _ => t end) 0 rs.

Definition valid_req (r : req) : Prop := match r with RAlloc n _ => 0 < n < 2 ^ 32 | RFree _ => True end.

Definition holds (held : list (Z * Z)) (i : Z) : Prop := exists p n, (p, n) ∈ held /\ p <= i < p + n.

(** The client's view: it holds exactly the outstanding extents, each once. *)
Definition client_ok (s : mm) (held : list (Z * Z)) : Prop := ok s (list_to_set held) /\ NoDup held.

(** The pool is conserved: a page is free or held after iff it was before. *)
Definition same_pool (s : mm) (held : list (Z * Z)) (s' : mm) (held' : list (Z * Z)) : Prop :=
  forall i, inside i -> (is_free_at s' i \/ holds held' i) <-> (is_free_at s i \/ holds held i).

Lemma alloc_pages_oom_spec s A n fl :
  ok s A -> 0 < n < 2 ^ 32 ->
  ~ (Z.log2_up n <= MAX_ORDER /\ exists q, free_run (pages s) q (Z.log2_up n)) ->
  _alloc_pages n fl s = Panic.
Proof.
  intros (Hlock & _ & _ & own & fls & Hwf & _) Hn Hno. unfold _alloc_pages, mbind, M_bind, lock_alloc.
  rewrite Hlock. rewrite (do_alloc_pages_oom own fls); [done|done|done|].
  intros o Ho. destruct (fls o) eqn:E; [done|]. exfalso. apply Hno.
  apply (free_run_iff own fls (pages s) (lists s)); [done|apply Z.log2_up_nonneg|].
  exists o. by rewrite E.
Qed.

Lemma same_pool_trans s1 h1 s2 h2 s3 h3 :
  same_pool s1 h1 s2 h2 -> same_pool s2 h2 s3 h3 -> same_pool s1 h1 s3 h3.
Proof. intros A B i Hi. rewrite (B i Hi). by apply A. Qed.

Lemma request_alloc_ok s held n fl :
  client_ok s held -> 0 < n < 2 ^ 32 -> kernel_next_page (kmap s) + n <= 2 ^ 18 ->
  Z.log2_up n <= MAX_ORDER -> (exists q, free_run (pages s) q (Z.log2_up n)) ->
  runs (request held (RAlloc n fl)) s (fun held' s' =>
    client_ok s' held' /\ same_pool s held s' held' /\
    kernel_next_page (kmap s') = kernel_next_page (kmap s) + n).
Proof.
  intros [Hok Hnd] Hn Hwin Hlog Hrun. unfold request, alloc_pages. mstep.
  eapply runs_mono; [by apply (alloc_pages_spec s (list_to_set held) n fl)|].
  intros p s' [Hok' Hr Hwas Hfl _ Hoth _ _ _ _ Hnext]. mstep.
  assert (Hused : forall i, p <= i < p + n -> flags (pages s' i) <> 0).
  { intros i Hi. rewrite Hfl by done. unfold cache_flag. by destruct (has fl ALLOC_CACHE). }
  split; [|split; [|done]].
  - split; [done|]. apply NoDup_cons. split; [|done]. intros Hin.
    destruct Hok as (_ & _ & _ & own & fls & _ & Hext).
    destruct (Hext p n ltac:(by apply elem_of_list_to_set)) as (Hn' & _ & _ & _ & Hu).
    destruct (Hu p ltac:(lia)) as [Hu' _]. pose proof (Hwas p ltac:(lia)) as Hz. unfold is_free_at in Hz.
    by rewrite Hz in Hu'.
  - intros i Hi. unfold is_free_at, holds. destruct (decide (p <= i < p + n)) as [Hin|Hout].
    + split; [intros _; left; by apply Hwas|]. intros _. right. exists p, n. set_solver.
    + destruct (Hoth i Hi Hout) as (_ & -> & _). split; (intros [H|(q & m & Hq & Hqi)]; [by left|right]).
      * apply elem_of_cons in Hq as [[= -> ->]|Hq]; [done|]. eauto.
      * exists q, m. set_solver.
Qed.

Lemma delete_set (held : list (Z * Z)) k e :
  NoDup held -> held !! k = Some e ->
  (list_to_set (delete k held) : gset (Z * Z)) = list_to_set held ∖ {[e]} /\ NoDup (delete k held).
Proof.
  intros Hnd Hk. pose proof (list_elem_of_lookup_2 _ _ _ Hk) as Hin.
  pose proof (delete_Permutation held k e Hk) as Hp. rewrite Hp in Hnd.
  apply NoDup_cons in Hnd as [Hne Hnd]. split; [|done].
  apply set_eq. intros x. rewrite elem_of_difference, !elem_of_list_to_set, elem_of_singleton.
  assert (x ∈ held <-> x = e \/ x ∈ delete k held) as -> by (rewrite <- elem_of_cons; by rewrite <- Hp).
  split; [|tauto]. intros Hx. split; [by right|]. intros ->. done.
Qed.

Lemma request_free_ok s held k :
  client_ok s held ->
  runs (request held (RFree k)) s (fun held' s' =>
    client_ok s' held' /\ same_pool s held s' held' /\ kmap s' = kmap s).
Proof.
  intros [Hok Hnd]. unfold request. destruct (held !! k) as [[p n]|] eqn:Hk; [|by mstep].
  destruct (delete_set held k (p, n) Hnd Hk) as [Hset Hnd'].
  assert (Hin : (p, n) ∈ (list_to_set held : gset (Z * Z)))
    by (apply elem_of_list_to_set, list_elem_of_lookup; eauto).
  mstep. eapply runs_mono; [apply (free_pages_spec s (list_to_set held) p n); [done|done|]|].
  { destruct Hok as (_ & _ & _ & own & fls & _ & Hext). destruct (Hext p n Hin) as (_ & Hp & Hfit & _).
    unfold inside, NPAGES, NUM_ENTRIES in *. lia. }
  intros [] s' [Hok' Hfree Hoth _ Hkm _]. mstep. split; [|split; [|done]].
  - split; [by rewrite Hset|done].
  - intros i Hi. unfold is_free_at, holds. pose proof (delete_Permutation held k (p, n) Hk) as Hp.
    assert (Hmem : forall x, x ∈ held <-> x = (p, n) \/ x ∈ delete k held)
      by (intros x; rewrite <- elem_of_cons; by rewrite <- Hp).
    destruct (decide (p <= i < p + n)) as [Hir|Hout].
    + split; [|intros _; left; by apply Hfree]. intros _. right. exists p, n.
      split; [|done]. by apply elem_of_list_to_set in Hin.
    + destruct (Hoth i Hi Hout) as (_ & -> & _). split; (intros [H|(q & m & Hq & Hqi)]; [by left|right]).
      * exists q, m. split; [|done]. apply Hmem. by right.
      * apply Hmem in Hq as [[= -> ->]|Hq]; [done|]. eauto.
Qed.

(** An allocation of [n] pages can be met: an aligned run of enough pages is free. *)
Definition satisfiable (s : mm) (n : Z) : Prop :=
  Z.log2_up n <= MAX_ORDER /\ exists q, free_run (pages s) q (Z.log2_up n).

(** The requests before the failing one ran, and at that point no aligned run of
    enough pages was free. *)
Definition out_of_memory (rs : list req) (held : list (Z * Z)) (s : mm) : Prop :=
  exists rs1 n fl rs2 held1 s1, rs = rs1 ++ RAlloc n fl :: rs2 /\
    client rs1 held s = Done (held1, s1) /\
    ~ satisfiable s1 n.

(** ** Claiming memory at boot *)

(** A page that was never given to the allocator: a used block of its own. *)
Definition reserved (own : Z -> Z) (ps : Z -> page) (i : Z) : Prop :=
  inside i /\ own i = i /\ order (ps i) = 0 /\ flags (ps i) = Z.lor PAGE_FLAG_PERM PAGE_FLAG_USED.

Lemma claim_page_spec own fl s i :
  wf own fl none (pages s) (lists s) -> alloc_lock s = false -> reserved own (pages s) i ->
  runs (claim_page i) s (fun _ s' => exists own' fl',
    wf own' fl' none (pages s') (lists s') /\ alloc_lock s' = false /\ kmap s' = kmap s /\
    flags (pages s' i) = 0 /\
    (forall j, inside j -> j <> i -> flags (pages s' j) = flags (pages s j)) /\
    (forall j, j <> i -> reserved own (pages s) j -> reserved own' (pages s') j) /\
    pages_in_use s' = u32 (pages_in_use s - 1)).
Proof.
  intros Hwf Hlock (Hi & Ei & Eo & Ef). unfold claim_page. mstep. apply upd_page_spec; [done|].
  set (ps1 := <[i := _]> (pages s)).
  assert (E1 : flags (ps1 i) = PAGE_FLAG_USED) by (unfold ps1; rewrite fn_insert_eq; cbn [flags pg_set_flags]; by rewrite Ef).
  assert (Hord : forall j, order (ps1 j) = order (pages s j)).
  { intros j. unfold ps1. destruct (decide (j = i)) as [->|]; [rewrite fn_insert_eq|rewrite fn_insert_ne by done]; done. }
  assert (Hne : forall j, j <> i -> ps1 j = pages s j) by (intros j Hj; unfold ps1; by rewrite fn_insert_ne).
  assert (Hown : forall j, inside j -> own j = i -> j = i).
  { intros j Hj E. destruct (head_block Hwf i Hi Ei) as (_ & _ & _ & Hext). rewrite Eo in Hext.
    assert (i <= j < i + 2 ^ 0) as Hx by by apply Hext. change (2 ^ 0) with 1 in Hx. lia. }
  assert (Hwf1 : wf own fl none ps1 (lists s)).
  { apply (wf_reflag own fl (pages s)); [done|done|]. intros j Hj.
    destruct (decide (j = i)) as [->|Hji]; [right|left; by rewrite Hne].
    split; [by rewrite Ef|by rewrite E1]. }
  mstep. eapply runs_mono; [apply (free_page_spec own fl (set_pages ps1 s) i); try done|].
  { intros j Hj E. rewrite (Hown j Hj E). cbn [pages set_pages]. by rewrite E1. }
  intros [] s1 (own1 & fl1 & Hwf' & (F1 & F2 & F3) & Hl1 & (_ & Hkm & _) & Huse). mstep.
  cbn [pages set_pages lists kmap set_avaliable alloc_lock pages_in_use] in *.
  exists own1, fl1. split; [done|]. split; [done|]. split; [done|]. split; [by apply F1|]. split; [|split].
  - intros j Hj Hji. rewrite <- (Hne j Hji). apply F2; [done|]. intros E. by apply Hji, Hown.
  - intros j Hji (Hj & Ej & Eoj & Efj). rewrite <- (Hne j Hji) in Eoj, Efj.
    destruct (F3 j Hj ltac:(congruence) ltac:(by rewrite Efj)) as [E2 E3].
    split; [done|]. split; [congruence|]. rewrite E3. done.
  - rewrite Huse. by rewrite Hord, Eo.
Qed.

(** *** The state before any page is claimed *)

Definition empty_lists : lmem node := after (forM 0 11 (fun i => list_init (free_page_list i))) (LMem ∅ ∅).

Definition no_memory : mm :=
  Mm (fun _ => fresh_page) empty_lists 0 0 false (Mmu (fun _ => 0) 0 false) (fun _ => 0) (fun _ => 0).

Lemma wf_fresh ps h :
  (forall i, inside i -> ps i = fresh_page) ->
  (forall o, 0 <= o <= MAX_ORDER -> is_list h (free_page_list o) []) ->
  wf (fun i => i) (fun _ => []) none ps h.
Proof.
  intros Hps Hl. split.
  - intros i Hi. unfold block_of. rewrite (Hps i Hi). cbn [order fresh_page]. change (2 ^ 0) with 1.
    split; [unfold MAX_ORDER; lia|]. split; [unfold inside in *; lia|]. split; [exists i; lia|].
    split; [lia|]. intros j Hj. lia.
  - intros i _ Hne. done.
  - intros i Hi. right. by rewrite Hps.
  - done.
  - done.
  - done.
  - intros o Ho. by apply Hl.
  - intros o p Ho. split; [intros Hin; by apply elem_of_nil in Hin|].
    intros (Hp & _ & _ & Hf & _). by rewrite Hps in Hf.
  - intros p o Ho (Hp & _ & _ & Hf & _). by rewrite Hps in Hf.
Qed.

Lemma init_lists_spec h :
  runs (forM 0 11 (fun i => list_init (free_page_list i))) h (fun _ h' =>
    forall o, 0 <= o <= MAX_ORDER -> is_list h' (free_page_list o) []).
Proof.
  eapply runs_mono; [apply (runs_forM (fun i h' => forall o, 0 <= o < i -> is_list h' (free_page_list o) []))|].
  - intros o Ho. lia.
  - intros i h' Hi IH. eapply runs_mono; [apply list_init_spec|]. intros [] h'' [Hl Hoff] o Ho.
    destruct (decide (o = i)) as [->|]; [done|]. eapply is_list_frame; [exact Hoff|apply IH; lia|].
    intros x Hx Hin. apply list_elem_of_singleton in Hx as ->. apply list_elem_of_singleton in Hin as [= E]. done.
  - intros [] h' H o Ho. apply H. unfold MAX_ORDER in Ho. lia.
Qed.

Lemma claim_pages_spec i n : forall own fl s,
  wf own fl none (pages s) (lists s) -> alloc_lock s = false -> 0 <= i -> i + Z.of_nat n <= NPAGES ->
  (forall j, i <= j < i + Z.of_nat n -> reserved own (pages s) j) ->
  runs (forM i n (fun j => claim_page j)) s (fun _ s' => exists own' fl',
    wf own' fl' none (pages s') (lists s') /\ alloc_lock s' = false /\ kmap s' = kmap s /\
    (forall j, inside j -> flags (pages s' j) = if decide (i <= j < i + Z.of_nat n) then 0 else flags (pages s j)) /\
    (forall j, ~ (i <= j < i + Z.of_nat n) -> reserved own (pages s) j -> reserved own' (pages s') j)).
Proof.
  revert i. induction n as [|n IH]; intros i own fl s Hwf Hlock Hi Hfit Hres; cbn [forM].
  - mstep. exists own, fl. repeat (split; [done|]). split; [|done]. intros j Hj. by rewrite decide_False by lia.
  - mstep. eapply runs_mono; [apply (claim_page_spec own fl s i); [done|done|apply Hres; lia]|].
    intros [] s1 (own1 & fl1 & Hwf1 & Hl1 & Hk1 & Hf1 & Hsame1 & Hres1 & _).
    eapply runs_mono; [apply (IH (i + 1) own1 fl1 s1); [done|done|lia|lia|]|].
    { intros j Hj. apply Hres1; [lia|]. apply Hres. lia. }
    intros [] s2 (own2 & fl2 & Hwf2 & Hl2 & Hk2 & Hf2 & Hres2). exists own2, fl2.
    split; [done|]. split; [done|]. split; [congruence|]. split.
    + intros j Hj. rewrite Hf2 by done. destruct (decide (j = i)) as [->|Hji].
      * rewrite (decide_True (P := i <= i < _)) by lia. by rewrite decide_False by lia.
      * rewrite Hsame1 by done. by rewrite (decide_ext _ (i <= j < i + Z.of_nat (S n))) by lia.
    + intros j Hout Hr. apply Hres2; [lia|]. apply Hres1; [lia|done].
Qed.

Lemma satisfiable_dec (s : mm) (A : gset (Z * Z)) (n : Z) : ok s A -> satisfiable s n \/ ~ satisfiable s n.
Proof.
  intros (_ & _ & _ & own & fls & Hwf & _). unfold satisfiable.
  rewrite <- (free_run_iff own fls (pages s) (lists s)) by (done || apply Z.log2_up_nonneg).
  destruct (decide (Exists (fun o => fls o <> []) (seqZ (Z.log2_up n) (MAX_ORDER - Z.log2_up n + 1)))) as [Hd|Hd];
    [left|right].
  - apply Exists_exists in Hd as (o & Ho & Hne). apply elem_of_seqZ in Ho. exists o. split; [lia|done].
  - intros (o & Ho & Hne). apply Hd, Exists_exists. exists o. split; [|done]. apply elem_of_seqZ. lia.
Qed.

Lemma pages_asked_nonneg rs : Forall valid_req rs -> 0 <= pages_asked rs.
Proof.
  induction 1 as [|[m f|k] l Hx _ IH]; cbn [pages_asked foldr]; [lia| |done].
  fold (pages_asked l). cbn in Hx. lia.
Qed.

(** C1: safety of the page allocator for every client.  Whatever sequence of
    allocations and frees a client makes (freeing only what it holds), as long as all the
    pages it ever asks for fit in what is left of the kernel's window of 2^18 page mappings
    (addresses are never used again; beyond it [map_pages] faults:
    [Mmu.map_pages_exhausted]), no call faults, loops or trips one of the allocator's bug checks: either the whole
    sequence runs, the extents held at the end are pairwise disjoint and outstanding
    in a well-formed allocator, and no page was lost or gained; or it stops with the
    out-of-memory panic at an allocation for which no aligned run of enough pages
    was free. *)
Theorem page_allocator_safe rs held s :
  client_ok s held -> Forall valid_req rs -> kernel_next_page (kmap s) + pages_asked rs <= 2 ^ 18 ->
  match client rs held s with
  | Done (held', s') => client_ok s' held' /\ same_pool s held s' held'
  | Panic => out_of_memory rs held s
  | _ => False
  end.
Proof.
  revert held s. induction rs as [|r rs IH]; intros held s Hok Hval Hwin.
  { cbn. split; [done|]. by intros i. }
  apply Forall_cons in Hval as [Hr Hval].
  assert (Hcont : forall held1 s1, request held r s = Done (held1, s1) ->
    client_ok s1 held1 -> same_pool s held s1 held1 -> kernel_next_page (kmap s1) + pages_asked rs <= 2 ^ 18 ->
    match client (r :: rs) held s with
    | Done (held', s') => client_ok s' held' /\ same_pool s held s' held'
    | Panic => out_of_memory (r :: rs) held s
    | _ => False
    end).
  { intros held1 s1 E Hok1 Hpool Hwin1. cbn [client]. unfold mbind, M_bind. rewrite E.
    specialize (IH held1 s1 Hok1 Hval Hwin1). destruct (client rs held1 s1) as [[held' s']| | |]; [|..|done|done].
    - destruct IH as [H1 H2]. split; [done|]. by eapply same_pool_trans.
    - destruct IH as (rs1 & n & fl & rs2 & held2 & s2 & -> & E2 & Hno).
      exists (r :: rs1), n, fl, rs2, held2, s2. split; [done|]. split; [|done].
      cbn [client]. unfold mbind, M_bind. by rewrite E. }
  destruct r as [n fl|k].
  - cbn [valid_req pages_asked foldr] in Hr, Hwin. fold (pages_asked rs) in Hwin.
    pose proof (pages_asked_nonneg rs Hval) as Hasked.
    destruct (satisfiable_dec s (list_to_set held) n (proj1 Hok)) as [[Hlog Hrun]|Hno].
    + pose proof (request_alloc_ok s held n fl Hok Hr ltac:(lia) Hlog Hrun) as Hrunq.
      apply runs_Done in Hrunq as (held1 & s1 & E & Hok1 & Hpool & Hnext).
      apply (Hcont held1 s1); [done|done|done|lia].
    + assert (E : request held (RAlloc n fl) s = Panic).
      { unfold request, alloc_pages, mbind, M_bind. destruct Hok as [Hok _].
        by rewrite (alloc_pages_oom_spec s _ n fl Hok Hr Hno). }
      cbn [client]. unfold mbind, M_bind. rewrite E. exists [], n, fl, rs, held, s. done.
  - cbn [pages_asked foldr] in Hwin. fold (pages_asked rs) in Hwin.
    pose proof (request_free_ok s held k Hok) as Hrunq.
    apply runs_Done in Hrunq as (held1 & s1 & E & Hok1 & Hpool & Hkm).
    apply (Hcont held1 s1); [done|done|done|]. by rewrite Hkm.
Qed.

(** *** A small machine: pages 16 to 19 are memory, everything else is reserved *)

Definition claimed (i : Z) (n : nat) (s : mm) : mm := after (forM i n (fun j => claim_page j)) s.

Lemma claimed_ok s i n :
  (forall j, inside j -> pages s j = fresh_page) ->
  (forall o, 0 <= o <= MAX_ORDER -> is_list (lists s) (free_page_list o) []) ->
  alloc_lock s = false -> kmap_ok (kmap s) -> 0 <= i -> i + Z.of_nat n <= NPAGES ->
  ok (claimed i n s) ∅ /\ kmap (claimed i n s) = kmap s.
Proof.
  intros Hp Hl Hlock Hkm Hi Hfit. pose proof (wf_fresh _ _ Hp Hl) as Hw.
  pose proof (claim_pages_spec i n _ _ s Hw Hlock Hi Hfit) as Hc.
  specialize (Hc ltac:(intros j Hj; split; [unfold inside; lia|]; rewrite Hp by (unfold inside; lia); done)).
  apply runs_after in Hc as (_ & own' & fl' & Hwf & Hl' & Hk & _). fold (claimed i n s) in Hwf, Hl', Hk.
  split; [|done].
  split; [done|]. split; [by rewrite Hk|]. split; [set_solver|]. exists own', fl'. split; [done|]. set_solver.
Qed.

Lemma empty_lists_ok o : 0 <= o <= MAX_ORDER -> is_list empty_lists (free_page_list o) [].
Proof.
  intros Ho. destruct (runs_after _ _ _ (init_lists_spec (LMem ∅ ∅))) as [_ H]. by apply H.
Qed.

Definition pool4 : mm := claimed 16 4 no_memory.

Lemma pool4_ok : ok pool4 ∅ /\ kmap pool4 = kmap no_memory.
Proof.
  apply claimed_ok.
  - intros j _. reflexivity.
  - exact empty_lists_ok.
  - reflexivity.
  - split; [reflexivity|cbn; lia].
  - lia.
  - unfold NPAGES, NUM_ENTRIES. lia.
Qed.

Lemma page_allocator_safe_witness :
  match client [RAlloc 3 0; RAlloc 1 0; RFree 1; RFree 0; RAlloc 4 0] [] pool4 with
  | Done (held', s') => held' = [(16, 4)] /\ client_ok s' held' /\ same_pool pool4 [] s' held'
  | _ => False
  end.
Proof.
  pose proof (page_allocator_safe [RAlloc 3 0; RAlloc 1 0; RFree 1; RFree 0; RAlloc 4 0] [] pool4) as H.
  assert (client_ok pool4 []) as H1 by (split; [apply pool4_ok|apply NoDup_nil_2]).
  specialize (H H1). specialize (H ltac:(repeat constructor; lia)).
  specialize (H ltac:(rewrite (proj2 pool4_ok); cbn; lia)).
  assert (exists s', client [RAlloc 3 0; RAlloc 1 0; RFree 1; RFree 0; RAlloc 4 0] [] pool4 = Done ([(16, 4)], s'))
    as [s' E] by (vm_compute; eexists; reflexivity).
  rewrite E in *. split; [reflexivity|exact H].
Defined.

(** C2: [alloc_pages] is correct and complete.  In a well-formed allocator, while the
    kernel's window of 2^18 page mappings has room for [n] more (without it [map_pages]
    faults: [Mmu.map_pages_exhausted]), a request for [n] pages succeeds exactly when an aligned run of [2 ^ ceil(log2 n)]
    pages is free: it returns [n] adjacent pages that were free, marks exactly them
    used (and cached when asked), maps them at consecutive fresh kernel addresses,
    zeroes them and no other memory when asked, leaves every other page's flags, address and compound
    count alone and keeps the invariant with the new extent outstanding, disjoint
    from all others.  Otherwise it stops with the out-of-memory panic. *)
Theorem alloc_pages_correct s A n fl :
  ok s A -> 0 < n < 2 ^ 32 -> kernel_next_page (kmap s) + n <= 2 ^ 18 ->
  (satisfiable s n -> runs (alloc_pages n fl) s (alloc_post s A n fl)) /\
  (~ satisfiable s n -> alloc_pages n fl s = Panic).
Proof.
  intros Hok Hn Hwin. split.
  - intros [Hlog Hrun]. by apply alloc_pages_spec.
  - intros Hno. by apply (alloc_pages_oom_spec s A).
Qed.

Lemma pool4_satisfiable : satisfiable pool4 3.
Proof.
  split; [vm_compute; discriminate|]. exists 16. split; [exists 4; reflexivity|]. split; [lia|].
  split; [unfold NPAGES, NUM_ENTRIES; vm_compute; discriminate|].
  change (Z.log2_up 3) with 2. change (2 ^ 2) with 4. intros i Hi.
  assert (i = 16 \/ i = 17 \/ i = 18 \/ i = 19) as Hc by lia. by destruct_or! Hc; subst; vm_compute.
Qed.

Lemma alloc_pages_correct_witness :
  runs (alloc_pages 3 ALLOC_ZERO) pool4 (alloc_post pool4 ∅ 3 ALLOC_ZERO) /\
  (~ satisfiable pool4 5 -> alloc_pages 5 ALLOC_ZERO pool4 = Panic).
Proof.
  assert (Hw : forall n, n <= 5 -> kernel_next_page (kmap pool4) + n <= 2 ^ 18)
    by (rewrite (proj2 pool4_ok); cbn [kmap no_memory kernel_next_page]; lia).
  split.
  - exact (proj1 (alloc_pages_correct pool4 ∅ 3 ALLOC_ZERO (proj1 pool4_ok) ltac:(lia) (Hw 3 ltac:(lia))) pool4_satisfiable).
  - exact (proj2 (alloc_pages_correct pool4 ∅ 5 ALLOC_ZERO (proj1 pool4_ok) ltac:(lia) (Hw 5 ltac:(lia)))).
Defined.

(** C3: [free_pages] is the inverse.  Freeing an outstanding extent walks its
    blocks without tripping a bug check, makes exactly its pages free again, joins
    them with every free buddy (the invariant kept is maximal coalescing), and
    leaves all other pages, the other extents and the kernel's mappings alone; after
    an allocation followed by the free, the set of free pages is what it was. *)
Theorem free_pages_correct s A p n :
  ok s A -> (p, n) ∈ A ->
  runs (free_pages p n) s (fun _ s' => free_post s A p n s' /\
    forall s0 fl, alloc_post s0 (A ∖ {[(p, n)]}) n fl p s ->
      forall i, inside i -> is_free_at s' i <-> is_free_at s0 i).
Proof.
  intros Hok Hin. assert (Hn : n < 2 ^ 32).
  { destruct Hok as (_ & _ & _ & own & fls & _ & Hext). destruct (Hext p n Hin) as (_ & Hp & Hfit & _).
    unfold inside, NPAGES, NUM_ENTRIES in *. lia. }
  eapply runs_mono; [by apply free_pages_spec|]. intros [] s' Hpost. split; [done|].
  intros s0 fl [_ _ Hwas _ _ Hoth _ _ _ _ _] i Hi. destruct Hpost as [_ Hfree Hoth' _ _ _].
  unfold is_free_at in *. destruct (decide (p <= i < p + n)) as [Hr|Hr].
  - rewrite Hfree, Hwas by done. done.
  - destruct (Hoth i Hi Hr) as (_ & E & _). destruct (Hoth' i Hi Hr) as (_ & E' & _). by rewrite E', E.
Qed.

Definition pool4_used : mm := after (alloc_pages 3 0) pool4.

Lemma pool4_alloc : exists s', _alloc_pages 3 0 pool4 = Done (16, s').
Proof. vm_compute. eexists. reflexivity. Qed.

Lemma pool4_used_post : alloc_post pool4 ∅ 3 0 16 pool4_used.
Proof.
  pose proof (alloc_pages_spec pool4 ∅ 3 0 (proj1 pool4_ok) ltac:(lia)
    ltac:(rewrite (proj2 pool4_ok); cbn; lia) (proj1 pool4_satisfiable) (proj2 pool4_satisfiable)) as Ha.
  destruct pool4_alloc as [s' E]. unfold runs in Ha. unfold pool4_used, after, alloc_pages.
  rewrite E in *. exact Ha.
Qed.

Lemma free_pages_correct_witness :
  runs (free_pages 16 3) pool4_used (fun _ s' => forall i, inside i -> is_free_at s' i <-> is_free_at pool4 i).
Proof.
  eapply runs_mono; [apply (free_pages_correct pool4_used ({[(16, 3)]} ∪ ∅) 16 3)|].
  - apply (ap_ok _ _ _ _ _ _ pool4_used_post).
  - set_solver.
  - intros [] s2 [_ H]. apply (H pool4 0).
    replace (({[(16, 3)]} ∪ ∅) ∖ {[(16, 3)]}) with (∅ : gset (Z * Z)) by set_solver. exact pool4_used_post.
Defined.

(** Addresses lead back to pages.  For every page of an outstanding extent
    the kernel's tables translate the address recorded in it to the page itself, so
    that [virt_to_page(page_to_virt(page)) == page], which [kfree] relies on. *)
Theorem virt_to_page_roundtrip s A p n i :
  ok s A -> (p, n) ∈ A -> p <= i < p + n ->
  runs (v ← page_to_virt i; virt_to_page v) s (fun r s' => r = i /\ s' = s).
Proof.
  intros (_ & _ & _ & own & fls & _ & Hext) Hin Hi.
  destruct (Hext p n Hin) as (_ & Hp & Hfit & _ & Hpg). destruct (Hpg i Hi) as (_ & _ & k & Hk & Hk2 & Ea & Ee).
  assert (Hii : inside i) by (unfold inside in *; lia).
  mstep. unfold page_to_virt. mstep. apply page_at_spec; [done|]. mstep. rewrite Ea.
  unfold virt_to_page. mstep. apply runs_lift. apply virt_to_phys_window; [lia|lia|]. mstep.
  rewrite Ee, Z.lor_0_r. unfold phys_to_page, phys_to_pageidx. rewrite Z.div_mul by done.
  split; [done|]. by destruct s.
Qed.

Lemma virt_to_page_roundtrip_witness :
  runs (v ← page_to_virt 18; virt_to_page v) pool4_used (fun r s' => r = 18 /\ s' = pool4_used).
Proof.
  apply (virt_to_page_roundtrip pool4_used ({[(16, 3)]} ∪ ∅) 16 3 18);
    [exact (ap_ok _ _ _ _ _ _ pool4_used_post)|set_solver|lia].
Defined.
