(* ===== verification/Boot.v ===== *)
(** * Boot: what mm_init hands the allocator

    [mm_init] of kernel/src/mm/mm.c over [Mm]'s definitions: it leaves a well-formed
    allocator whose free pages are exactly the available memory that is not the
    kernel's, a module's or the page array's, when no region reaches the last page of the address
    space; what happens to one that does, to a page that is available in part and to the end of
    the debugger's symbols is stated separately. *)

From S2P Require Import Prelude Words CList CString Mmu Mm Buddy PageAlloc.

(** The pages of an entry of the memory map that are considered at all. *)
Definition avail (e : mmap_entry) : bool :=
  (mm_type e =? MULTIBOOT_MEMORY_AVAILABLE) && negb (mm_addr e >=? ADDRESS_SPACE_SIZE).
Definition in_region (e : mmap_entry) (j : Z) : Prop :=
  avail e = true /\ DIV_UP (mm_addr e) PAGE_SIZE <= j < region_end e.

(** The pages that are left alone. *)
Definition kept (l : layout) (j : Z) : bool :=
  is_kernel_page l j || is_module_page l j || is_malloc_page l j.

Lemma DIV_UP_nonneg x : 0 <= DIV_UP x PAGE_SIZE.
Proof.
  unfold DIV_UP. destruct (u32 x =? 0); [lia|]. apply uwrap_range. lia.
Qed.

Lemma region_in_array e j : in_region e j -> inside j.
Proof.
  intros [_ Hj]. pose proof (DIV_UP_nonneg (mm_addr e)). unfold inside. split; [lia|].
  unfold region_end in Hj. unfold NPAGES, NUM_ENTRIES. change (ADDRESS_SPACE_SIZE / PAGE_SIZE) with 1048575 in Hj.
  destruct (Z.gtb_spec (DIV_UP (mm_addr e + mm_len e) PAGE_SIZE) 1048575); lia.
Qed.

Lemma claim_region_spec l e own fl s :
  wf own fl none (pages s) (lists s) -> alloc_lock s = false ->
  (forall j, in_region e j -> reserved own (pages s) j) ->
  runs (claim_region l e) s (fun _ s' => exists own' fl',
    wf own' fl' none (pages s') (lists s') /\ alloc_lock s' = false /\ kmap s' = kmap s /\
    (forall j, inside j -> in_region e j -> kept l j = false -> flags (pages s' j) = 0) /\
    (forall j, inside j -> ~ (in_region e j /\ kept l j = false) -> flags (pages s' j) = flags (pages s j)) /\
    (forall j, ~ in_region e j -> reserved own (pages s) j -> reserved own' (pages s') j)).
Proof.
  intros Hwf Hlock Hres. unfold claim_region.
  assert (Hno : avail e = false -> runs (mret tt) s (fun _ s' => exists own' fl',
    wf own' fl' none (pages s') (lists s') /\ alloc_lock s' = false /\ kmap s' = kmap s /\
    (forall j, inside j -> in_region e j -> kept l j = false -> flags (pages s' j) = 0) /\
    (forall j, inside j -> ~ (in_region e j /\ kept l j = false) -> flags (pages s' j) = flags (pages s j)) /\
    (forall j, ~ in_region e j -> reserved own (pages s) j -> reserved own' (pages s') j))).
  { intros Ha. mstep. exists own, fl. do 3 (split; [done|]). split; [|done].
    intros j _ [Ha' _]. congruence. }
  unfold avail in Hno. destruct (mm_type e =? MULTIBOOT_MEMORY_AVAILABLE) eqn:Et; cbn [negb]; [|by apply Hno].
  destruct (mm_addr e >=? ADDRESS_SPACE_SIZE) eqn:Ea; [by apply Hno|]. clear Hno.
  assert (Hav : avail e = true) by (unfold avail; by rewrite Et, Ea).
  set (st := DIV_UP (mm_addr e) PAGE_SIZE) in *. set (en := region_end e) in *.
  assert (Hreg : forall j, in_region e j <-> st <= j < en) by (intros j; unfold in_region; rewrite Hav; tauto).
  eapply runs_mono; [apply (runs_forM (fun k s' => exists own' fl',
    wf own' fl' none (pages s') (lists s') /\ alloc_lock s' = false /\ kmap s' = kmap s /\
    (forall j, inside j -> st <= j < k -> kept l j = false -> flags (pages s' j) = 0) /\
    (forall j, inside j -> ~ (st <= j < k /\ kept l j = false) -> flags (pages s' j) = flags (pages s j)) /\
    (forall j, ~ (st <= j < k) -> reserved own (pages s) j -> reserved own' (pages s') j)))|].
  - exists own, fl. do 3 (split; [done|]). split; [lia|]. done.
  - intros k s' Hk (own' & fl' & Hwf' & Hl' & Hkm' & H1 & H2 & H3).
    assert (Hkr : st <= k < en) by lia.
    assert (Hki : inside k) by by apply (region_in_array e), Hreg.
    rewrite <- !negb_orb. fold (kept l k). destruct (kept l k) eqn:Ek; cbn [negb].
    + mstep. exists own', fl'. do 3 (split; [done|]). split; [|split].
      * intros j Hj Hjk Hkj. apply H1; [done| |done]. assert (j <> k) by congruence. lia.
      * intros j Hj Hn. apply H2; [done|]. intros [Hjk Hkj]. apply Hn. split; [lia|done].
      * intros j Hj. apply H3. lia.
    + eapply runs_mono; [apply (claim_page_spec own' fl' s' k); [done|done|]|].
      { apply H3; [lia|]. apply Hres. by apply Hreg. }
      intros [] s2 (own2 & fl2 & Hwf2 & Hl2 & Hkm2 & Hf2 & Hs2 & Hr2 & _). exists own2, fl2.
      split; [done|]. split; [done|]. split; [congruence|]. split; [|split].
      * intros j Hj Hjk Hkj. destruct (decide (j = k)) as [->|Hne]; [done|].
        rewrite Hs2 by done. apply H1; [done|lia|done].
      * intros j Hj Hn. assert (j <> k) as Hne by (intros ->; apply Hn; split; [lia|done]).
        rewrite Hs2 by done. apply H2; [done|]. intros [Hjk Hkj]. apply Hn. split; [lia|done].
      * intros j Hj Hr. apply Hr2; [lia|]. apply H3; [lia|done].
  - intros [] s' (own' & fl' & Hwf' & Hl' & Hkm' & H1 & H2 & H3). exists own', fl'. do 3 (split; [done|]).
    assert (Hend : forall j, st <= j < st + Z.of_nat (Z.to_nat (en - st)) <-> in_region e j)
      by (intros j; rewrite Hreg; lia).
    split; [|split].
    + intros j Hj Hr. apply H1; [done|by apply Hend].
    + intros j Hj Hn. apply H2; [done|]. rewrite Hend. done.
    + intros j Hr. apply H3. by rewrite Hend.
Qed.

(** Entries that share no page. *)
Definition regions_apart (es : list mmap_entry) : Prop :=
  ForallOrdPairs (fun e1 e2 => forall j, ~ (in_region e1 j /\ in_region e2 j)) es.

Definition claimable (l : layout) (es : list mmap_entry) (j : Z) : Prop :=
  (exists e, e ∈ es /\ in_region e j) /\ kept l j = false.

#[global] Instance in_region_dec e j : Decision (in_region e j).
Proof. unfold in_region. apply _. Defined.

#[global] Instance claimable_dec l es j : Decision (claimable l es j).
Proof.
  destruct (decide (Exists (fun e => in_region e j) es)) as [H|H].
  - destruct (decide (kept l j = false)) as [K|K]; [left; split; [by apply Exists_exists|done]|right].
    by intros [_ K'].
  - right. intros [Hex _]. by apply H, Exists_exists.
Defined.

Lemma find_free_pages_spec l es : forall own fl s,
  wf own fl none (pages s) (lists s) -> alloc_lock s = false -> regions_apart es ->
  (forall e j, e ∈ es -> in_region e j -> reserved own (pages s) j) ->
  runs (find_free_pages l es) s (fun _ s' => exists own' fl',
    wf own' fl' none (pages s') (lists s') /\ alloc_lock s' = false /\ kmap s' = kmap s /\
    (forall j, inside j -> claimable l es j -> flags (pages s' j) = 0) /\
    (forall j, inside j -> ~ claimable l es j -> flags (pages s' j) = flags (pages s j))).
Proof.
  induction es as [|e es IH]; intros own fl s Hwf Hlock Hap Hres; cbn [find_free_pages].
  - mstep. exists own, fl. do 3 (split; [done|]). split; [|done]. intros j _ [(e & He & _) _]. set_solver.
  - inversion Hap as [|? ? Hfa Hap']; subst. rewrite List.Forall_forall in Hfa.
    mstep. eapply runs_mono; [apply (claim_region_spec l e own fl s); [done|done|]|].
    { intros j Hj. apply (Hres e); [set_solver|done]. }
    intros [] s1 (own1 & fl1 & Hwf1 & Hl1 & Hk1 & C1 & C2 & C3).
    eapply runs_mono; [apply (IH own1 fl1 s1); [done|done|done|]|].
    { intros e' j He' Hj. apply C3.
      - intros Hj'. apply (Hfa e' ltac:(by apply list_elem_of_In) j). done.
      - apply (Hres e'); [set_solver|done]. }
    intros [] s2 (own2 & fl2 & Hwf2 & Hl2 & Hk2 & D1 & D2). exists own2, fl2.
    split; [done|]. split; [done|]. split; [congruence|]. split.
    + intros j Hj [(e' & He' & Hje') Hkj]. apply elem_of_cons in He' as [->|He'].
      * rewrite D2; [by apply C1|done|]. intros [(e2 & He2 & Hj2) _].
        apply (Hfa e2 ltac:(by apply list_elem_of_In) j). done.
      * apply D1; [done|]. split; [by exists e'|done].
    + intros j Hj Hn. rewrite D2; [|done|].
      * apply C2; [done|]. intros [Hr Hk]. apply Hn. split; [exists e; set_solver|done].
      * intros [(e' & He' & Hje') Hkj]. apply Hn. split; [exists e'; set_solver|done].
Qed.

(** *** What the memory map says

    A page is available when it begins in a region the map calls available. *)

Definition available (es : list mmap_entry) (j : Z) : Prop :=
  Exists (fun e => mm_type e = MULTIBOOT_MEMORY_AVAILABLE /\ mm_addr e <= j * PAGE_SIZE < mm_addr e + mm_len e) es.

(** Page [j] has a byte of [a .. b], both included. *)
Definition touches (a b j : Z) : Prop := j * PAGE_SIZE <= b /\ a < (j + 1) * PAGE_SIZE.

Definition below_top (e : mmap_entry) : Prop :=
  0 <= mm_addr e /\ 0 <= mm_len e /\ (mm_type e = MULTIBOOT_MEMORY_AVAILABLE -> mm_addr e + mm_len e <= 2 ^ 32 - PAGE_SIZE).

#[global] Instance available_dec es j : Decision (available es j).
Proof. apply Exists_dec. intros e. apply _. Defined.
#[global] Instance touches_dec a b j : Decision (touches a b j).
Proof. unfold touches. apply _. Defined.

Lemma div_up_le x j : 0 <= x < 2 ^ 32 -> 0 <= j -> DIV_UP x PAGE_SIZE <= j <-> x <= j * PAGE_SIZE.
Proof.
  intros Hx Hj. unfold DIV_UP. rewrite (uwrap_small 32 x) by done. destruct (Z.eqb_spec x 0) as [->|Hne]; [unfold PAGE_SIZE; lia|].
  change (u32 PAGE_SIZE) with 4096. unfold PAGE_SIZE. pose proof (Z.div_mod (x - 1) 4096 ltac:(lia)). pose proof (Z.mod_pos_bound (x - 1) 4096 ltac:(lia)).
  rewrite uwrap_small by lia. lia.
Qed.

Lemma in_region_begins e j : below_top e -> 0 <= j ->
  in_region e j <-> mm_type e = MULTIBOOT_MEMORY_AVAILABLE /\ mm_addr e <= j * PAGE_SIZE < mm_addr e + mm_len e.
Proof.
  intros (Ha & Hl & Ht) Hj. unfold in_region, avail. rewrite andb_true_iff, Z.eqb_eq, negb_true_iff, Z.geb_leb, Z.leb_gt. change ADDRESS_SPACE_SIZE with (2 ^ 32 - 1). split.
  - intros [[Hav Hlt] [H1 H2]]. specialize (Ht Hav). unfold PAGE_SIZE in Ht. split; [done|]. pose proof (div_up_le (mm_addr e) j ltac:(lia) Hj) as D1. pose proof (div_up_le (mm_addr e + mm_len e) j ltac:(lia) Hj) as D2.
    unfold region_end in H2. split; [by apply D1|]. destruct (Z.le_gt_cases (mm_addr e + mm_len e) (j * PAGE_SIZE)) as [Hle|]; [|done]. apply D2 in Hle. destruct (Z.gtb_spec (DIV_UP (mm_addr e + mm_len e) PAGE_SIZE) (ADDRESS_SPACE_SIZE / PAGE_SIZE)); lia.
  - intros [Hav [H1 H2]]. specialize (Ht Hav). pose proof (div_up_le (mm_addr e) j ltac:(unfold PAGE_SIZE in *; lia) Hj) as D1. pose proof (div_up_le (mm_addr e + mm_len e) j ltac:(unfold PAGE_SIZE in *; lia) Hj) as D2.
    split; [split; [done|unfold PAGE_SIZE in *; lia]|]. split; [by apply D1|]. unfold region_end.
    destruct (Z.gtb_spec (DIV_UP (mm_addr e + mm_len e) PAGE_SIZE) (ADDRESS_SPACE_SIZE / PAGE_SIZE)).
    + change (ADDRESS_SPACE_SIZE / PAGE_SIZE) with 1048575. unfold PAGE_SIZE in *. lia.
    + destruct (Z.le_gt_cases (DIV_UP (mm_addr e + mm_len e) PAGE_SIZE) j) as [Hle|]; [|done]. apply D2 in Hle. lia.
Qed.

Lemma between_touches j a b : 0 <= j -> page_is_between_addr j a b = true <-> touches a b j.
Proof.
  intros Hj. unfold page_is_between_addr, touches, DIV_DOWN, PAGE_SIZE. rewrite andb_true_iff, !Z.leb_le. split.
  - intros [H1 H2]. pose proof (Z.div_mod a 4096 ltac:(lia)). pose proof (Z.mod_pos_bound a 4096 ltac:(lia)). pose proof (Z.div_mod b 4096 ltac:(lia)). pose proof (Z.mod_pos_bound b 4096 ltac:(lia)). lia.
  - intros [H1 H2]. split; [apply Z.lt_succ_r, Z.div_lt_upper_bound; lia|apply Z.div_le_lower_bound; lia].
Qed.

(** The pages that are spared: the kernel's, the modules' and the page array's. *)
Definition spared (l : layout) (j : Z) : Prop :=
  touches (kernel_start l) (kernel_end l) j \/ Exists (fun m => touches (mod_start m) (mod_end m) j) (modules l) \/ touches (malloc_start l) (malloc_end l) j.

Lemma kept_spared l j : 0 <= j -> kept l j = true <-> spared l j.
Proof.
  intros Hj. unfold kept, spared, is_kernel_page, is_malloc_page, is_module_page. rewrite !orb_true_iff, !between_touches, existsb_exists, List.Exists_exists by done.
  assert (H : (exists m, In m (modules l) /\ ((get_page (mod_start m) <=? j) && (j <=? get_page (mod_end m))) = true) <-> exists m, In m (modules l) /\ touches (mod_start m) (mod_end m) j).
  { split; intros (m & Hm & H); exists m; (split; [done|]); apply (between_touches j (mod_start m) (mod_end m)); done. }
  rewrite H. tauto.
Qed.

Lemma claimable_iff l es j : Forall below_top es -> 0 <= j -> claimable l es j <-> available es j /\ ~ spared l j.
Proof.
  intros Hes Hj. unfold claimable, available. rewrite <- (kept_spared l j) by done. rewrite not_true_iff_false. f_equiv. rewrite Exists_exists. rewrite Forall_forall in Hes.
  split; intros (e & He & H); exists e; (split; [done|]); apply in_region_begins; auto.
Qed.

(** ** mm_init *)

(** The layout [mm_init] computes before it looks for the page array's place. *)
Definition layout0 (b : boot) : layout :=
  Layout (debug_kernel_start b (image_start b)) (debug_kernel_end b (image_end b)) 0 0
    (module_init b) (mbi_mmap b).

Definition boot_layout (b : boot) : layout :=
  let ms := find_region (layout0 b) MALLOC_NUM_PAGES in
  Layout (kernel_start (layout0 b)) (kernel_end (layout0 b)) ms (u32 (ms + MALLOC_SIZE))
    (modules (layout0 b)) (mmap (layout0 b)).

(** What boot relies on: a memory map of at most 256 entries that share no page and
    with room for the page array, none of whose available regions reaches the last page of
    the address space; a kernel that fits its window; the linker's placement of the tables. *)
Record boot_ok (b : boot) : Prop := BootOk {
  bo_len : Z.of_nat (length (mbi_mmap b)) <= MMAP_BUFF_SIZE;
  bo_room : find_region (layout0 b) MALLOC_NUM_PAGES <> 0;
  bo_window : DIV_UP (kernel_end (layout0 b)) PAGE_SIZE + MALLOC_NUM_PAGES < 2 ^ 18;
  bo_kptab : VIRTUAL_BASE <= kptab_addr b /\ kptab_addr b mod PAGE_SIZE = 0 /\
    kptab_addr b + PAGE_SIZE * KERNEL_NUM_TABLES <= 2 ^ 32;
  bo_dir : VIRTUAL_BASE <= init_dir_addr b;
  bo_apart : regions_apart (mbi_mmap b);
  bo_below : Forall below_top (mbi_mmap b);
}.

(** The remaps only use [map_pages]: they keep the window usable. *)
Definition remaps_ok (remaps : M mmu unit) : Prop :=
  forall km, kmap_ok km -> runs remaps km (fun _ km' => kmap_ok km').

(** [build_page_dir] writes only the directory, and only fails on a bad address. *)
Lemma build_page_dir_runs ka d :
  VIRTUAL_BASE <= ka -> runs (build_page_dir ka) d (fun _ _ => True).
Proof.
  intros Hka. unfold build_page_dir. mstep.
  eapply runs_mono; [apply (runs_forM (fun _ _ => True)); [done|]|].
  { intros k d' _ _. unfold direntry_clear, direntry_set. by mstep. }
  intros [] d1 _. cbv zeta. eapply runs_mono; [apply (runs_forM (fun _ _ => True)); [done|]|done].
  intros k d' Hk _. unfold kvirt_to_phys, direntry_set. do 3 mstep; [|by do 2 mstep].
  apply Z.ltb_ge. unfold VIRTUAL_BASE, PAGE_SIZE in *. lia.
Qed.

Lemma mmu_init_spec b remaps s ke ms :
  boot_ok b -> remaps_ok remaps -> map_lock (kmap s) = false ->
  DIV_UP ke PAGE_SIZE + MALLOC_NUM_PAGES < 2 ^ 18 ->
  runs (mmu_init b remaps ke ms) s (fun _ s' => exists km d,
    s' = set_kmap km (set_init_dir d s) /\ kmap_ok km).
Proof.
  intros Hb Hre Hlock Hw. pose proof (DIV_UP_nonneg ke). assert (0 <= MALLOC_NUM_PAGES) by (vm_compute; discriminate).
  unfold mmu_init. do 2 mstep. cbn [kmap set_kmap map_lock].
  mstep. apply runs_lift. cbn [kmap set_kmap].
  eapply runs_mono; [apply map_pages_spec; cbn [kernel_next_page map_lock]; [lia|lia|lia|lia|done]|].
  cbn [kernel_next_page]. intros _ km1 (_ & Hn1 & Hl1 & _).
  mstep. apply runs_lift. cbn [kmap set_kmap].
  eapply runs_mono; [apply map_pages_spec; [lia|lia|lia|lia|done]|].
  intros pgs km2 (_ & Hn2 & Hl2 & _). cbn [set_kmap].
  mstep. apply runs_lift. eapply runs_mono; [apply build_page_dir_runs, bo_kptab, Hb|]. intros [] d _.
  mstep. unfold kvirt_to_phys. do 2 mstep.
  { apply Z.ltb_ge. apply (bo_dir _ Hb). }
  mstep. mstep. apply runs_lift. cbn [kmap set_init_dir set_kmap].
  eapply runs_mono; [apply Hre; split; [done|lia]|]. intros [] km Hkm. mstep.
  by exists km, d.
Qed.

Lemma boot_lists_spec s :
  runs (forM 0 11 (fun i => with_lists (list_init (free_page_list i)))) s (fun _ s' =>
    exists h, s' = set_lists h s /\ forall o, 0 <= o <= MAX_ORDER -> is_list h (free_page_list o) []).
Proof.
  eapply runs_mono; [apply (runs_forM (fun i s' => exists h, s' = set_lists h s /\
    forall o, 0 <= o < i -> is_list h (free_page_list o) []))|].
  - exists (lists s). split; [by destruct s|lia].
  - intros i s' Hi (h & -> & IH). apply runs_lift. eapply runs_mono; [apply list_init_spec|].
    intros [] h' [Hl Hoff]. exists h'. split; [done|]. intros o Ho.
    destruct (decide (o = i)) as [->|]; [done|]. eapply is_list_frame; [exact Hoff|apply IH; lia|].
    intros x Hx Hin. apply list_elem_of_singleton in Hx as ->. apply list_elem_of_singleton in Hin as [= E]. done.
  - intros [] s' (h & -> & H). exists h. split; [done|]. intros o Ho. apply H. unfold MAX_ORDER in Ho. lia.
Qed.

(** C39: boot memory discovery is exact.  On a machine whose memory map has room for the page array and no available region that
    reaches the last page of the address space, [mm_init] terminates without a fault or bug check and leaves a well-formed allocator
    with nothing outstanding.  A page is free exactly when it begins in an available region of the map and has no byte in common with the kernel image
    (from its start to its end as debug.c computes it), a boot module or the page array, each taken with the byte at its end; every other page
    stays permanently reserved, and the in-use counter starts at zero. *)
Theorem mm_init_correct b remaps s :
  boot_ok b -> remaps_ok remaps -> map_lock (kmap s) = false -> alloc_lock s = false ->
  runs (mm_init b remaps) s (fun l s' =>
    l = boot_layout b /\ ok s' ∅ /\ pages_in_use s' = 0 /\
    forall j, inside j -> is_free_at s' j <-> available (mbi_mmap b) j /\ ~ spared l j).
Proof.
  intros Hb Hre Hml Hal. unfold mm_init. change (Z.to_nat (MAX_ORDER + 1)) with 11%nat. mstep.
  eapply runs_mono; [apply boot_lists_spec|]. intros [] s1 (h & -> & Hh). cbv zeta. fold (layout0 b). mstep.
  mstep; [pose proof (bo_len _ Hb); destruct (Z.gtb_spec (Z.of_nat (length (mbi_mmap b))) MMAP_BUFF_SIZE); [lia|done]|].
  mstep. mstep; [apply Z.eqb_neq, (bo_room _ Hb)|]. fold (boot_layout b). mstep.
  eapply runs_mono; [apply mmu_init_spec; [done|done|done|apply (bo_window _ Hb)]|].
  intros _ s2 (km & d & -> & Hkm). mstep.
  eapply runs_mono; [apply (upd_loop _ 0 NPAGES (fun _ _ => fresh_page)); [unfold NPAGES, NUM_ENTRIES; lia|]|].
  { intros k ps1 Hk E. rewrite Z.add_0_l in *. apply upd_page_spec; [done|]. eexists. split; [reflexivity|].
    cbn [pages set_pages]. split; [by rewrite fn_insert_eq|]. intros j Hj. by rewrite fn_insert_ne. }
  intros [] s3 (ps & -> & Hps). cbn [pages set_kmap set_init_dir set_lists] in Hps.
  assert (Hfresh : forall i, inside i -> ps i = fresh_page).
  { intros i Hi. rewrite Hps. by rewrite bool_decide_true. }
  pose proof (wf_fresh ps h Hfresh Hh) as Hwf. mstep.
  eapply runs_mono; [apply (find_free_pages_spec (boot_layout b) (mbi_mmap b) (fun i => i) (fun _ => [])); [exact Hwf|done|apply (bo_apart _ Hb)|]|].
  { intros e j _ Hj. apply region_in_array in Hj. split; [done|]. cbn [pages set_pages]. by rewrite Hfresh. }
  intros [] s4 (own & fl & Hwf4 & Hl4 & Hk4 & C1 & C2). do 3 mstep.
  cbn [pages set_pages kmap set_kmap] in *. split; [done|]. split; [|split; [done|]].
  - split; [done|]. split; [by rewrite <- Hk4 in Hkm|]. split; [set_solver|]. exists own, fl. split; [done|]. set_solver.
  - intros j Hj. rewrite <- claimable_iff by (apply (bo_below _ Hb) || (unfold inside in Hj; lia)). unfold is_free_at. cbn [pages set_in_use]. split; [|by apply C1]. intros Hf.
    destruct (decide (claimable (boot_layout b) (mbi_mmap b) j)) as [|Hn]; [done|]. rewrite C2, Hfresh in Hf by done. done.
Qed.

(** A machine with 64 MB from the first megabyte on, a 1 MB kernel and no modules. *)
Definition small_boot : boot :=
  Boot 0x100000 0x200000 0 0 0 0 0 0 [] [MmapEntry 0 0x9F000 1; MmapEntry 0x100000 0x4000000 1]
    0xC0180000 0xC0190000.

Lemma small_boot_ok : boot_ok small_boot.
Proof.
  split.
  - vm_compute. discriminate.
  - vm_compute. discriminate.
  - vm_compute. reflexivity.
  - split; [vm_compute; discriminate|]. split; [reflexivity|vm_compute; discriminate].
  - vm_compute. discriminate.
  - repeat constructor. intros j [[_ [_ H1]] [_ [H2 _]]].
    change (region_end (MmapEntry 0 0x9F000 1)) with 159 in H1.
    change (DIV_UP (mm_addr (MmapEntry 0x100000 0x4000000 1)) PAGE_SIZE) with 256 in H2. lia.
  - repeat constructor; vm_compute; congruence.
Qed.

Lemma mm_init_correct_witness :
  runs (mm_init small_boot (mret tt)) no_memory (fun l s' =>
    l = boot_layout small_boot /\ ok s' ∅ /\ pages_in_use s' = 0 /\
    forall j, inside j -> is_free_at s' j <-> available (mbi_mmap small_boot) j /\ ~ spared l j).
Proof.
  apply (mm_init_correct small_boot (mret tt) no_memory small_boot_ok);
    [intros km Hkm; exact Hkm|reflexivity|reflexivity].
Defined.

(** ** What boot does not get right *)

(** A region that reaches the top of the address space is lost.  [DIV_UP]
    truncates its argument to 32 bits, so for an available region that ends at 4 GB
    the end page is computed as 0, the clamp below it never applies, and no page of
    the region is ever considered. *)
Theorem top_region_lost e j :
  (mm_addr e + mm_len e) mod 2 ^ 32 = 0 -> ~ in_region e j.
Proof.
  intros Hend [_ Hj]. pose proof (DIV_UP_nonneg (mm_addr e)).
  assert (region_end e = 0) as E; [|lia].
  assert (DIV_UP (mm_addr e + mm_len e) PAGE_SIZE = 0) as E0
    by (unfold DIV_UP, uwrap; rewrite Hend; reflexivity).
  unfold region_end. rewrite E0. reflexivity.
Qed.

Lemma top_region_lost_witness : ~ in_region (MmapEntry 0xC0000000 0x40000000 1) 0xC0000.
Proof. apply (top_region_lost (MmapEntry 0xC0000000 0x40000000 1)). reflexivity. Defined.

(** A page at the end of a region is freed though only its beginning is available: the end is rounded up. *)
Theorem partial_page_claimed : in_region (MmapEntry 0 0x9FC00 1) 0x9F /\ (0x9F + 1) * PAGE_SIZE > 0x9FC00.
Proof. split; [split; [reflexivity|vm_compute; split; congruence]|reflexivity]. Qed.

(** The symbols are said to end sixteen times as far from their beginning as they do. *)
Theorem symtab_end_scaled b raw : symtab b <> 0 -> 0 <= symtabsz b -> 0 <= symtab b -> symtab b + 16 * symtabsz b < 2 ^ 32 ->
  symtab b + 16 * symtabsz b <= debug_kernel_end b raw.
Proof.
  intros Hs H0 H1 Hlt. unfold debug_kernel_end, ELF_SYMBOL_SIZE. rewrite (proj2 (Z.eqb_neq _ _) Hs). cbn [negb]. rewrite (uwrap_small 32 (symtab b + 16 * symtabsz b)) by lia. unfold MAX. destruct (_ >? _) eqn:E; lia.
Qed.

(** Reclaiming underflows the statistics.  [claim_page] frees a page that
    was never counted as used: right after [mm_init], which resets the counter, the
    first page [mm_postinit_reclaim] or [module_load] claims makes [pages_in_use]
    wrap to 2^32 - 1. *)
Theorem claim_page_underflows own fl s i :
  wf own fl none (pages s) (lists s) -> alloc_lock s = false -> reserved own (pages s) i ->
  pages_in_use s = 0 ->
  runs (claim_page i) s (fun _ s' => is_free_at s' i /\ pages_in_use s' = 2 ^ 32 - 1).
Proof.
  intros Hwf Hlock Hres Huse. eapply runs_mono; [by apply (claim_page_spec own fl)|].
  intros [] s' (own' & fl' & _ & _ & _ & Hf & _ & _ & ->). rewrite Huse. split; [done|]. reflexivity.
Qed.

Lemma claim_page_underflows_witness :
  runs (claim_page 32) no_memory (fun _ s' => is_free_at s' 32 /\ pages_in_use s' = 2 ^ 32 - 1).
Proof.
  apply (claim_page_underflows (fun i => i) (fun _ => [])).
  - apply wf_fresh; [intros i _; reflexivity|exact empty_lists_ok].
  - reflexivity.
  - split; [unfold inside, NPAGES, NUM_ENTRIES; lia|]. split; [reflexivity|]. split; reflexivity.
  - reflexivity.
Defined.
