(* ===== verification/Cache.v ===== *)
(** * Cache: the slab allocator, kernel/src/mm/cache.c

    A cache hands out objects of one size from pages it takes from a page source.
    The head of each page is its [cache_page_t]: a free list of object indices with
    the objects behind it.  A [list_head_t *] is the address of the structure it is
    embedded in and a member number; a structure the code has not written is absent
    and reading it is a [Fault].  The page allocator is used through the class
    [PageSource], of which [Kmalloc] makes [Mm] an instance. *)

From S2P Require Import Prelude Words CList CString Mmu Mm Buddy PageAlloc.

Definition FREELIST_END : Z := u32 (1 <<< 31).
Definition CACHE_FLAG_PERM : Z := 1 <<< 0.
Definition sizeof_cache_page : Z := 32.
Definition sizeof_cache : Z := 60.

Definition KALLOC_CACHE_SHIFT_MIN : Z := 3.
Definition KALLOC_CACHE_SHIFT_MAX : Z := 11.
Definition KALLOC_CACHE_MAX : Z := 1 <<< KALLOC_CACHE_SHIFT_MAX.
Definition KALLOC_NUM_CACHES : Z := KALLOC_CACHE_SHIFT_MAX - KALLOC_CACHE_SHIFT_MIN + 1.

(** [struct cache_page], less its list node; [cp_freelist] is the array behind the
    pointer [freelist], which always points just past the structure. *)
Record cache_page := CachePage {
  cp_cache : Z;
  cp_left : Z;
  cp_free : Z;
  cp_freelist : gmap Z Z;
  cp_mem : Z;
  cp_page : Z;
}.

(** [struct cache], less its list nodes. *)
Record cache := Cache {
  c_size : Z;
  c_max : Z;
  c_flags : Z;
  c_lock : bool;
}.

Abbreviation cnode := (Z * Z)%type.

Definition l_cache (c : Z) : cnode := (c, 0).
Definition l_full (c : Z) : cnode := (c, 1).
Definition l_partial (c : Z) : cnode := (c, 2).
Definition l_empty (c : Z) : cnode := (c, 3).
Definition l_page (v : Z) : cnode := (v, 4).
Definition caches : cnode := (0, 5).

Definition mem_to_cache_page (m : Z) : Z := m / PAGE_SIZE * PAGE_SIZE.

(** What a cache needs of the page allocator: a page, its record and its address. *)
Class PageAlloc (B : Type) := ps_alloc : M B (Z * Z).

(** What the page allocator promises: in a good source ([ps_inv], with [A] the pages
    taken so far) that has room for another page, a page comes back at a fresh
    page-aligned kernel address, away from static data; or the machine is out of
    memory. *)
Class PageSource (B : Type) `{PageAlloc B} := {
  ps_inv : B -> gset Z -> Prop;
  ps_room : nat -> B -> Prop;
  ps_static : B -> Z -> Prop;
  ps_room_S : forall n b, ps_room (S n) b -> ps_room n b;
  ps_alloc_ok : forall n b A, ps_inv b A -> ps_room (S n) b ->
    match ps_alloc b with
    | Done ((p, v), b') => v mod PAGE_SIZE = 0 /\ 0 < v /\ v + PAGE_SIZE <= 2 ^ 32 /\ (v ∉ A) /\
        ps_inv b' ({[v]} ∪ A) /\ ps_room n b' /\
        forall a, ps_static b a -> ps_static b' a /\ mem_to_cache_page a <> v
    | Panic => True
    | _ => False
    end;
}.

Record cstate (B : Type) := CState {
  cpages : gmap Z cache_page;
  ctab : gmap Z cache;
  clists : lmem cnode;
  source : B;
}.
Arguments CState {_} _ _ _ _.
Arguments cpages {_} _.
Arguments ctab {_} _.
Arguments clists {_} _.
Arguments source {_} _.

Section Ops.
Context {B : Type} `{PageAlloc B}.

Definition set_cpages (v : gmap Z cache_page) (s : cstate B) : cstate B :=
  CState v (ctab s) (clists s) (source s).
Definition set_ctab (v : gmap Z cache) (s : cstate B) : cstate B :=
  CState (cpages s) v (clists s) (source s).
Definition set_clists (v : lmem cnode) (s : cstate B) : cstate B :=
  CState (cpages s) (ctab s) v (source s).
Definition set_source (v : B) (s : cstate B) : cstate B :=
  CState (cpages s) (ctab s) (clists s) v.

Definition in_lists {A} (m : M (lmem cnode) A) : M (cstate B) A := lift clists set_clists m.
Definition in_source {A} (m : M B A) : M (cstate B) A := lift source set_source m.

Definition cache_at (c : Z) : M (cstate B) cache := read (fun s => ctab s !! c).
Definition cpage_at (v : Z) : M (cstate B) cache_page := read (fun s => cpages s !! v).
Definition put_cpage (v : Z) (p : cache_page) : M (cstate B) unit :=
  modify (fun s => set_cpages (<[v := p]> (cpages s)) s).
Definition put_cache (c : Z) (k : cache) : M (cstate B) unit :=
  modify (fun s => set_ctab (<[c := k]> (ctab s)) s).

Definition spin_forever : M (cstate B) unit := fun _ => NoFuel.

(** [spin_lock_irqsave(&cache->lock)]: taking it twice spins for ever. *)
Definition lock_cache (c : Z) : M (cstate B) unit :=
  k ← cache_at c;
  if c_lock k then spin_forever
  else put_cache c (Cache (c_size k) (c_max k) (c_flags k) true).
Definition unlock_cache (c : Z) : M (cstate B) unit :=
  k ← cache_at c; put_cache c (Cache (c_size k) (c_max k) (c_flags k) false).

(** The free list of a new page: 1, 2, ..., with the end mark last. *)
Fixpoint fill_freelist (i : Z) (n : nat) (f : gmap Z Z) : gmap Z Z :=
  match n with
  | O => f
  | S n' => fill_freelist (i + 1) n' (<[i := u32 (i + 1)]> f)
  end.

Definition cache_alloc_page (c : Z) : M (cstate B) unit :=
  pv ← in_source ps_alloc;
  let '(page, v) := (pv : Z * Z) in
  k ← cache_at c;
  in_lists (list_add (l_page v) (l_empty c));;
  BUG_ON (c_max k =? 0);;
  let f := <[c_max k - 1 := FREELIST_END]> (fill_freelist 0 (Z.to_nat (c_max k)) ∅) in
  put_cpage v (CachePage c (c_max k) 0 f (u32 (v + sizeof_cache_page + 4 * c_max k)) page).

Definition cache_do_alloc (v : Z) : M (cstate B) unit :=
  p ← cpage_at v;
  BUG_ON (cp_free p =? FREELIST_END);;
  nf ← read (fun _ => cp_freelist p !! cp_free p);
  put_cpage v (CachePage (cp_cache p) (u32 (cp_left p - 1)) nf (cp_freelist p) (cp_mem p) (cp_page p)).

Definition cache_do_free (v free_idx : Z) : M (cstate B) unit :=
  p ← cpage_at v;
  put_cpage v (CachePage (cp_cache p) (u32 (cp_left p + 1)) free_idx
    (<[free_idx := cp_free p]> (cp_freelist p)) (cp_mem p) (cp_page p)).

(** The list node of a page leads back to the page. *)
Definition first_page (hd : cnode) : M (cstate B) Z :=
  nd ← in_lists (next_of hd);
  read (fun _ => if nd.2 =? 4 then Some nd.1 else None).

(** The part of [cache_alloc] that takes an object: from the first partial page, else
    from the first empty one. *)
Definition cache_take (c : Z) : M (cstate B) Z :=
  ep ← in_lists (list_empty (l_partial c));
  if negb ep then
    v ← first_page (l_partial c);
    p ← cpage_at v; k ← cache_at c;
    cache_do_alloc v;;
    p' ← cpage_at v;
    (if cp_left p' =? 0 then
       in_lists (list_rm (l_page v));;
       in_lists (list_add (l_page v) (l_full c))
     else mret tt);;
    mret (u32 (cp_mem p + u32 (cp_free p * c_size k)))
  else
    ee ← in_lists (list_empty (l_empty c));
    if negb ee then
      v ← first_page (l_empty c);
      p ← cpage_at v; k ← cache_at c;
      cache_do_alloc v;;
      in_lists (list_rm (l_page v));;
      p' ← cpage_at v;
      (if cp_left p' =? 0 then in_lists (list_add (l_page v) (l_full c))
       else in_lists (list_add (l_page v) (l_partial c)));;
      mret (u32 (cp_mem p + u32 (cp_free p * c_size k)))
    else panic.

Definition cache_alloc (c : Z) : M (cstate B) Z :=
  lock_cache c;;
  ep ← in_lists (list_empty (l_partial c));
  ee ← in_lists (list_empty (l_empty c));
  (if (ep : bool) && (ee : bool) then cache_alloc_page c else mret tt);;
  alloced ← cache_take c;
  unlock_cache c;;
  mret alloced.

Definition cache_free (c m : Z) : M (cstate B) unit :=
  lock_cache c;;
  let target := mem_to_cache_page m in
  p ← cpage_at target; k ← cache_at c;
  (if u32 (cp_left p + 1) =? c_max k then
     in_lists (list_rm (l_page target));;
     in_lists (list_add (l_page target) (l_empty c))
   else if cp_left p =? 0 then
     in_lists (list_rm (l_page target));;
     in_lists (list_add (l_page target) (l_partial c))
   else mret tt);;
  cache_do_free target (u32 (m - cp_mem p) / c_size k);;
  unlock_cache c.

(** [meta] is the address of [meta_cache]. *)
Definition cache_create (meta size : Z) : M (cstate B) Z :=
  new ← cache_alloc meta;
  in_lists (list_add (l_cache new) caches);;
  put_cache new (Cache size ((PAGE_SIZE - sizeof_cache_page) / u32 (size + 4)) 0 false);;
  in_lists (list_init (l_empty new));;
  in_lists (list_init (l_partial new));;
  in_lists (list_init (l_full new));;
  mret new.

(** [kalloc_cache] as a list of addresses. *)
Fixpoint kalloc_cache_index_from (n : nat) (i size : Z) : option Z :=
  match n with
  | O => None
  | S n' => if size <=? 1 <<< i then Some (i - KALLOC_CACHE_SHIFT_MIN)
            else kalloc_cache_index_from n' (i + 1) size
  end.

Definition kalloc_cache_index (size : Z) : M (cstate B) Z := fun s =>
  match kalloc_cache_index_from (Z.to_nat KALLOC_NUM_CACHES) KALLOC_CACHE_SHIFT_MIN size with
  | Some i => Done (i, s)
  | None => Panic
  end.

Definition kalloc_cache_alloc (kalloc_cache : list Z) (size : Z) : M (cstate B) Z :=
  BUG_ON (size >? KALLOC_CACHE_MAX);;
  i ← kalloc_cache_index size;
  c ← read (fun _ => kalloc_cache !! Z.to_nat i);
  cache_alloc c.

Definition kalloc_cache_free (m : Z) : M (cstate B) unit :=
  p ← cpage_at (mem_to_cache_page m);
  cache_free (cp_cache p) m.

Fixpoint create_all (meta : Z) (n : nat) (i : Z) : M (cstate B) (list Z) :=
  match n with
  | O => mret []
  | S n' =>
      c ← cache_create meta (u32 (1 <<< (i + KALLOC_CACHE_SHIFT_MIN)));
      cs ← create_all meta n' (i + 1);
      mret (c :: cs)
  end.

Definition meta_cache : cache :=
  Cache sizeof_cache ((PAGE_SIZE - sizeof_cache_page) / (sizeof_cache + 4)) CACHE_FLAG_PERM false.

Definition cache_init (meta : Z) : M (cstate B) (list Z) :=
  in_lists (list_add (l_cache meta) caches);;
  create_all meta (Z.to_nat KALLOC_NUM_CACHES) 0.
End Ops.

(** ** Free lists inside a page *)

(** The free objects of a page, in the order they will be handed out. *)
Fixpoint flinks (f : gmap Z Z) (start : Z) (l : list Z) : Prop :=
  match l with
  | [] => start = FREELIST_END
  | i :: l' => start = i /\ exists nx, f !! i = Some nx /\ flinks f nx l'
  end.

Lemma flinks_insert f start l i v : i ∉ l -> flinks f start l -> flinks (<[i := v]> f) start l.
Proof.
  revert start. induction l as [|j l IH]; intros start Hi Hl; [done|].
  destruct Hl as (-> & nx & Hnx & Hl). split; [done|]. exists nx.
  rewrite lookup_insert_ne by set_solver. split; [done|]. apply IH; [set_solver|done].
Qed.

Lemma flinks_unique f start l1 l2 :
  (forall i, i ∈ l1 ++ l2 -> i <> FREELIST_END) -> flinks f start l1 -> flinks f start l2 -> l1 = l2.
Proof.
  revert start l2. induction l1 as [|i l1 IH]; intros start l2 Hne H1 H2; destruct l2 as [|j l2]; [done|..].
  - destruct H2 as [-> _]. exfalso. apply (Hne j); [set_solver|done].
  - destruct H1 as [-> _]. exfalso. apply (Hne i); [set_solver|done].
  - destruct H1 as (-> & nx & E1 & H1), H2 as (-> & nx' & E2 & H2). rewrite E1 in E2. simplify_eq.
    f_equal. apply (IH nx'); [|done|done]. intros i Hi. apply Hne. set_solver.
Qed.

(** [fill_freelist] links the indices in order. *)
Lemma fill_freelist_lookup n : forall i f j, 0 <= i ->
  fill_freelist i n f !! j = if bool_decide (i <= j < i + Z.of_nat n) then Some (u32 (j + 1)) else f !! j.
Proof.
  induction n as [|n IH]; intros i f j Hi; cbn [fill_freelist]; [by rewrite bool_decide_false by lia|].
  rewrite IH by lia. destruct (decide (j = i)) as [->|Hne].
  - rewrite bool_decide_false by lia. rewrite lookup_insert_eq, bool_decide_true by lia. done.
  - rewrite lookup_insert_ne by done. by rewrite (bool_decide_ext _ (i <= j < i + Z.of_nat (S n))) by lia.
Qed.

Lemma flinks_seq f n : forall i,
  0 <= i -> (forall j, i <= j < i + Z.of_nat n -> f !! j = Some (j + 1)) ->
  f !! (i + Z.of_nat n) = Some FREELIST_END -> flinks f i (seqZ i (Z.of_nat n + 1)).
Proof.
  induction n as [|n IH]; intros i Hi Hf Hend.
  - cbn. rewrite Z.add_0_r in Hend. split; [lia|]. exists FREELIST_END.
    replace (Z.of_nat 0 + i) with i by lia. done.
  - rewrite seqZ_cons by lia. split; [done|]. exists (i + 1). split; [apply Hf; lia|].
    replace (Z.succ i) with (i + 1) by lia. replace (Z.pred (Z.of_nat (S n) + 1)) with (Z.of_nat n + 1) by lia.
    apply IH; [lia| |].
    + intros j Hj. apply Hf. lia.
    + by replace (i + 1 + Z.of_nat n) with (i + Z.of_nat (S n)) by lia.
Qed.

(** ** Invariant *)

(** The objects of a page fit behind its header and free list. *)
Definition cache_ok (k : cache) : Prop :=
  0 < c_size k /\ 1 <= c_max k /\ sizeof_cache_page + 4 * c_max k + c_max k * c_size k <= PAGE_SIZE.

Definition obj_addr (k : cache) (v i : Z) : Z := v + sizeof_cache_page + 4 * c_max k + i * c_size k.

(** Page [v] of cache [c]: [idxs] are its free objects. *)
Record page_wf (c : Z) (k : cache) (v : Z) (p : cache_page) (idxs : list Z) : Prop := PageWf {
  pw_cache : cp_cache p = c;
  pw_mem : cp_mem p = v + sizeof_cache_page + 4 * c_max k;
  pw_links : flinks (cp_freelist p) (cp_free p) idxs;
  pw_nodup : NoDup idxs;
  pw_range : forall i, i ∈ idxs -> 0 <= i < c_max k;
  pw_left : cp_left p = Z.of_nat (length idxs);
  pw_addr : v mod PAGE_SIZE = 0 /\ 0 < v /\ v + PAGE_SIZE <= 2 ^ 32;
}.

(** Which list a page with [n] free objects is on: 1 full, 2 partial, 3 empty. *)
Definition class_of (k : cache) (m : Z) (n : Z) : Prop :=
  (m = 1 /\ n = 0) \/ (m = 2 /\ 0 < n < c_max k) \/ (m = 3 /\ n = c_max k).

Definition is_member (m : Z) : Prop := 1 <= m <= 3.

Section Inv.
Context {B : Type} `{PageSource B}.
Implicit Types (s : cstate B).

Record slab_wf (s : cstate B) (L : cnode -> list Z) (A : gset Z) : Prop := SlabWf {
  sw_source : ps_inv (source s) A;
  sw_lists : forall c k m, ctab s !! c = Some k -> is_member m ->
    is_list (clists s) (c, m) (l_page <$> L (c, m));
  sw_disj : forall hd1 hd2 v, v ∈ L hd1 -> v ∈ L hd2 -> hd1 = hd2;
  sw_page : forall c k m v, ctab s !! c = Some k -> is_member m -> v ∈ L (c, m) ->
    exists p idxs, cpages s !! v = Some p /\ page_wf c k v p idxs /\ class_of k m (Z.of_nat (length idxs));
  sw_listed : forall v p, cpages s !! v = Some p -> exists k m,
    ctab s !! cp_cache p = Some k /\ is_member m /\ v ∈ L (cp_cache p, m);
  sw_cache : forall c k, ctab s !! c = Some k -> cache_ok k;
  sw_taken : forall hd v, v ∈ L hd -> v ∈ A;
  sw_nil : forall c m, ctab s !! c = None -> L (c, m) = [];
  sw_caches : exists cs, is_list (clists s) caches (l_cache <$> cs) /\
    forall c, c ∈ cs -> is_Some (ctab s !! c);
}.

(** Static data at [a]: no page of a cache reaches it. *)
Definition static_at (s : cstate B) (L : cnode -> list Z) (a : Z) : Prop :=
  ps_static (source s) a /\ forall hd, mem_to_cache_page a ∉ L hd.

(** Object [a] of cache [c] is in use. *)
Definition in_use (s : cstate B) (c a : Z) : Prop :=
  exists k v p idxs i, ctab s !! c = Some k /\ cpages s !! v = Some p /\ page_wf c k v p idxs /\
    0 <= i < c_max k /\ (i ∉ idxs) /\ a = obj_addr k v i.
End Inv.

(** ** The family of page lists *)

Definition Fam (h : lmem cnode) (L : cnode -> list Z) (T : Z -> Prop) : Prop :=
  (forall c m, T c -> is_member m -> is_list h (c, m) (l_page <$> L (c, m))) /\
  (forall hd1 hd2 v, v ∈ L hd1 -> v ∈ L hd2 -> hd1 = hd2) /\
  (exists cs, is_list h caches (l_cache <$> cs) /\ forall c, c ∈ cs -> T c).

Lemma node_insert_eq {A} (f : cnode -> A) hd x : <[hd := x]> f hd = x.
Proof. unfold insert, fn_insert. by rewrite decide_True. Qed.
Lemma node_insert_ne {A} (f : cnode -> A) hd hd' x : hd <> hd' -> <[hd := x]> f hd' = f hd'.
Proof. intros. unfold insert, fn_insert. by rewrite decide_False. Qed.

(** Lists that share no node with the ones touched are kept. *)
Lemma fam_frame h h' L T c m xs :
  Fam h L T -> is_member m ->
  (forall x, x ∈ xs -> x = (c, m) \/ exists v, x = l_page v /\ forall hd, hd <> (c, m) -> v ∉ L hd) ->
  same_off xs h h' ->
  (forall c' m', T c' -> is_member m' -> (c', m') <> (c, m) -> is_list h' (c', m') (l_page <$> L (c', m'))) /\
  (exists cs, is_list h' caches (l_cache <$> cs) /\ forall c, c ∈ cs -> T c).
Proof.
  intros (Hl & Hd & cs & Hcs & HT) Hm Hxs Hoff. split.
  - intros c' m' Hc' Hm' Hne. eapply is_list_frame; [exact Hoff|by apply Hl|]. intros x Hx Hin.
    apply elem_of_cons in Hx as [->|Hx].
    + destruct (Hxs _ Hin) as [E|(v & E & _)]; [done|]. unfold l_page in E. unfold is_member in Hm'. simplify_eq. lia.
    + apply list_elem_of_fmap in Hx as (w & -> & Hw). destruct (Hxs _ Hin) as [E|(v & E & Hv)].
      * unfold l_page in E. unfold is_member in Hm. simplify_eq. lia.
      * unfold l_page in E. simplify_eq. by apply (Hv (c', m')).
  - exists cs. split; [|done]. eapply is_list_frame; [exact Hoff|done|]. intros x Hx Hin.
    destruct (Hxs _ Hin) as [->|(v & -> & _)]; apply elem_of_cons in Hx as [E|Hx].
    + unfold caches, is_member in *. simplify_eq. lia.
    + apply list_elem_of_fmap in Hx as (w & E & _). unfold l_cache, is_member in *. simplify_eq. lia.
    + done.
    + apply list_elem_of_fmap in Hx as (w & E & _). done.
Qed.

Lemma fam_add h L (T : Z -> Prop) c m v :
  Fam h L T -> T c -> is_member m -> (forall hd, v ∉ L hd) ->
  runs (list_add (l_page v) (c, m)) h (fun _ h' => Fam h' (<[(c, m) := v :: L (c, m)]> L) T).
Proof.
  intros HF Hc Hm Hv. pose proof HF as (Hl & Hd & _).
  eapply runs_mono; [apply list_add_spec; [by apply Hl|]|].
  { intros Hin. apply elem_of_cons in Hin as [E|Hin]; [unfold l_page, is_member in *; simplify_eq; lia|].
    apply list_elem_of_fmap in Hin as (w & E & Hw). unfold l_page in E. simplify_eq. by apply (Hv (c, m)). }
  intros [] h' [Hl' Hoff].
  edestruct (fam_frame h h' L T c m) as [Hl2 Hcs2]; [exact HF|exact Hm| |exact Hoff|].
  { intros x Hx. apply elem_of_cons in Hx as [->|Hx]; [right; exists v; split; [done|]; intros hd _; apply Hv|].
    apply elem_of_cons in Hx as [->|Hx]; [by left|right].
    apply list_elem_of_fmap in Hx as (w & -> & Hw). exists w. split; [done|]. intros hd Hne Hw'.
    by apply Hne, (Hd hd (c, m) w). }
  split; [|split; [|done]].
  - intros c' m' Hc' Hm'. destruct (decide ((c', m') = (c, m))) as [->|Hne]; [by rewrite node_insert_eq|].
    rewrite node_insert_ne by done. by apply Hl2.
  - intros hd1 hd2 w H1 H2.
    assert (Hcase : forall hd, w ∈ (<[(c, m) := v :: L (c, m)]> L : cnode -> list Z) hd -> (w = v /\ hd = (c, m)) \/ (w <> v /\ w ∈ L hd)).
    { intros hd Hw. destruct (decide (hd = (c, m))) as [->|Hne].
      - rewrite node_insert_eq in Hw. apply elem_of_cons in Hw as [->|Hw]; [by left|].
        right. split; [|done]. intros ->. by apply (Hv (c, m)).
      - rewrite node_insert_ne in Hw by done. right. split; [|done]. intros ->. by apply (Hv hd). }
    destruct (Hcase hd1 H1) as [[-> ->]|[? ?]], (Hcase hd2 H2) as [[? ->]|[? ?]]; try done. by apply (Hd _ _ w).
Qed.

Lemma fam_rm h L (T : Z -> Prop) c m v :
  Fam h L T -> T c -> is_member m -> v ∈ L (c, m) ->
  runs (list_rm (l_page v)) h (fun _ h' => exists L', Fam h' L' T /\
    (forall hd w, w ∈ L' hd <-> w ∈ L hd /\ w <> v) /\ (forall hd, hd <> (c, m) -> L' hd = L hd)).
Proof.
  intros HF Hc Hm Hv. pose proof HF as (Hl & Hd & _). apply list_elem_of_split in Hv as (l1 & l2 & El).
  pose proof (Hl c m Hc Hm) as Hlc. rewrite El, fmap_app, fmap_cons in Hlc.
  assert (Hnd : v ∉ l1 ++ l2).
  { destruct Hlc as [_ Hnd]. apply NoDup_cons in Hnd as [_ Hnd]. rewrite <- fmap_cons, <- fmap_app in Hnd.
    apply NoDup_fmap_1 in Hnd. rewrite <- Permutation_middle, NoDup_cons in Hnd. by destruct Hnd. }
  eapply runs_mono; [by apply list_rm_spec|]. intros [] h' [Hl' Hoff]. rewrite <- fmap_app in Hl', Hoff.
  edestruct (fam_frame h h' L T c m) as [Hl2 Hcs2]; [exact HF|exact Hm| |exact Hoff|].
  { intros x Hx. apply elem_of_cons in Hx as [->|Hx]; [by left|right].
    apply list_elem_of_fmap in Hx as (w & -> & Hw). exists w. split; [done|]. intros hd Hne Hw'.
    apply Hne, (Hd hd (c, m) w); [done|]. rewrite El. set_solver. }
  assert (Hmem : forall hd w, w ∈ (<[(c, m) := l1 ++ l2]> L : cnode -> list Z) hd <-> w ∈ L hd /\ w <> v).
  { intros hd w. destruct (decide (hd = (c, m))) as [->|Hne].
    - rewrite node_insert_eq, El. set_solver.
    - rewrite node_insert_ne by done. split; [|tauto]. intros Hw. split; [done|]. intros ->.
      apply Hne, (Hd hd (c, m) v); [done|]. rewrite El. set_solver. }
  exists (<[(c, m) := l1 ++ l2]> L). split; [|split; [exact Hmem|]].
  - split; [|split; [|done]].
    + intros c' m' Hc' Hm'. destruct (decide ((c', m') = (c, m))) as [->|Hne]; [by rewrite node_insert_eq|].
      rewrite node_insert_ne by done. by apply Hl2.
    + intros hd1 hd2 w [H1 _]%Hmem [H2 _]%Hmem. by apply (Hd _ _ w).
  - intros hd Hne. by rewrite node_insert_ne.
Qed.

(** ** Geometry of a page *)

Lemma obj_page k v i d :
  cache_ok k -> v mod PAGE_SIZE = 0 -> 0 <= v -> 0 <= i < c_max k -> 0 <= d < c_size k ->
  mem_to_cache_page (obj_addr k v i + d) = v /\
  v + sizeof_cache_page + 4 * c_max k <= obj_addr k v i /\ obj_addr k v i + d < v + PAGE_SIZE.
Proof.
  intros (Hs & Hm & Hfit) Hal Hv Hi Hd. unfold obj_addr, mem_to_cache_page, sizeof_cache_page, PAGE_SIZE in *.
  assert (i * c_size k + d < c_max k * c_size k) by nia.
  pose proof (Z.div_mod v 4096 ltac:(lia)). split; [|nia].
  replace (v + 32 + 4 * c_max k + i * c_size k + d)
    with ((32 + 4 * c_max k + i * c_size k + d) + v / 4096 * 4096) by lia.
  rewrite Z.div_add, Z.div_small by nia. lia.
Qed.

Lemma obj_index k v i :
  cache_ok k -> 0 <= i < c_max k ->
  u32 (obj_addr k v i - (v + sizeof_cache_page + 4 * c_max k)) / c_size k = i.
Proof.
  intros (Hs & Hm & Hfit) Hi. unfold obj_addr, sizeof_cache_page, PAGE_SIZE in *.
  replace (v + 32 + 4 * c_max k + i * c_size k - (v + 32 + 4 * c_max k)) with (i * c_size k) by lia.
  rewrite uwrap_small by nia. apply Z.div_mul. lia.
Qed.

Lemma obj_inj k v w i j :
  cache_ok k -> v mod PAGE_SIZE = 0 -> 0 <= v -> w mod PAGE_SIZE = 0 -> 0 <= w ->
  0 <= i < c_max k -> 0 <= j < c_max k -> obj_addr k v i = obj_addr k w j -> v = w /\ i = j.
Proof.
  intros Hk Hv Hv0 Hw Hw0 Hi Hj E.
  destruct (obj_page k v i 0 Hk Hv Hv0 Hi ltac:(destruct Hk; lia)) as [E1 _].
  destruct (obj_page k w j 0 Hk Hw Hw0 Hj ltac:(destruct Hk; lia)) as [E2 _].
  assert (v = w) as -> by congruence. split; [done|].
  rewrite <- (obj_index k w i Hk Hi), <- (obj_index k w j Hk Hj). by rewrite E.
Qed.

Lemma range_not_end k i : cache_ok k -> 0 <= i < c_max k -> i <> FREELIST_END.
Proof.
  intros (Hs & Hm & Hfit) Hi. change FREELIST_END with (2 ^ 31). unfold PAGE_SIZE, sizeof_cache_page in *. nia.
Qed.

Lemma page_wf_unique c k v p l1 l2 : cache_ok k -> page_wf c k v p l1 -> page_wf c k v p l2 -> l1 = l2.
Proof.
  intros Hk H1 H2. apply (flinks_unique (cp_freelist p) (cp_free p)).
  - intros i Hi. apply (range_not_end k); [done|].
    apply elem_of_app in Hi as [Hi|Hi]; [by apply (pw_range _ _ _ _ _ H1)|by apply (pw_range _ _ _ _ _ H2)].
  - apply (pw_links _ _ _ _ _ H1).
  - apply (pw_links _ _ _ _ _ H2).
Qed.

(** ** One page changes *)

Section Update.
Context {B : Type} `{PageSource B}.
Implicit Types (s : cstate B).

Lemma slab_fam s L A : slab_wf s L A -> Fam (clists s) L (fun c => is_Some (ctab s !! c)).
Proof.
  intros [_ Hl Hd _ _ _ _ _ Hcs]. split; [|split; [done|done]]. intros c m [k Hk] Hm. by apply (Hl c k).
Qed.

Lemma slab_update s L A c k m v p idxs h L' src A' :
  slab_wf s L A -> ctab s !! c = Some k -> is_member m -> page_wf c k v p idxs ->
  class_of k m (Z.of_nat (length idxs)) -> Fam h L' (fun c => is_Some (ctab s !! c)) ->
  (forall hd w, w ∈ L' hd <-> (w ∈ L hd /\ w <> v) \/ (w = v /\ hd = (c, m))) ->
  ps_inv src A' -> A ⊆ A' -> v ∈ A' ->
  slab_wf (CState (<[v := p]> (cpages s)) (ctab s) h src) L' A'.
Proof.
  intros Hwf Hc Hm Hp Hcl (Hl & Hd & Hcs) Hmem Hsrc HA HvA.
  destruct Hwf as [W1 W2 W3 W4 W5 W6 W7 W8 W9]. split; cbn [source ctab cpages clists]; try done.
  - intros c' k' m' Hc' Hm'. apply Hl; [by exists k'|done].
  - intros c' k' m' w Hc' Hm' Hw. apply Hmem in Hw as [[Hw Hne]|[-> [= -> ->]]].
    + rewrite lookup_insert_ne by done. by apply (W4 c' k' m' w).
    + rewrite lookup_insert_eq. simplify_eq. by exists p, idxs.
  - intros w q Hw. destruct (decide (w = v)) as [->|Hne].
    + rewrite lookup_insert_eq in Hw. simplify_eq. exists k, m. rewrite (pw_cache _ _ _ _ _ Hp).
      split; [done|]. split; [done|]. apply Hmem. by right.
    + rewrite lookup_insert_ne in Hw by done. destruct (W5 w q Hw) as (k' & m' & H1 & H2 & H3).
      exists k', m'. split; [done|]. split; [done|]. apply Hmem. by left.
  - intros hd w Hw. apply Hmem in Hw as [[Hw _]|[-> _]]; [|done]. apply HA. by apply (W7 hd).
  - intros c' m' Hc'. destruct (L' (c', m')) as [|w l] eqn:E; [done|exfalso].
    assert (Hw : w ∈ L' (c', m')) by (rewrite E; set_solver).
    apply Hmem in Hw as [[Hw _]|[-> [= -> ->]]]; [|congruence]. rewrite W8 in Hw by done. set_solver.
Qed.

(** What that does to the objects in use: only those of page [v] can change. *)
Lemma in_use_update s L A c k m v p idxs h (src : B) :
  slab_wf s L A -> ctab s !! c = Some k -> page_wf c k v p idxs ->
  (forall q, cpages s !! v = Some q -> v ∈ L (c, m) /\ is_member m) ->
  let s' := CState (<[v := p]> (cpages s)) (ctab s) h src in
  (forall i, 0 <= i < c_max k -> in_use s' c (obj_addr k v i) <-> i ∉ idxs) /\
  (forall c' a, (forall i, 0 <= i < c_max k -> (c', a) <> (c, obj_addr k v i)) -> in_use s' c' a <-> in_use s c' a).
Proof.
  intros Hwf Hc Hp Hold s'. pose proof (sw_cache _ _ _ Hwf c k Hc) as Hk.
  destruct (pw_addr _ _ _ _ _ Hp) as (Hva & Hv0 & _). split.
  - intros i Hi. split.
    + intros (k' & w & q & l & j & Hc' & Hq & Hqw & Hj & Hjl & E). cbn [ctab cpages s'] in *. simplify_eq.
      destruct (pw_addr _ _ _ _ _ Hqw) as (Hwa & Hw0 & _).
      destruct (obj_inj k v w i j) as [-> ->]; [done|done|lia|done|lia|done|done|done|].
      rewrite lookup_insert_eq in Hq. simplify_eq. by rewrite (page_wf_unique _ _ _ _ _ _ Hk Hp Hqw).
    + intros Hn. exists k, v, p, idxs, i. cbn [ctab cpages s']. rewrite lookup_insert_eq. done.
  - intros c' a Hne. split; intros (k' & w & q & l & j & Hc' & Hq & Hqw & Hj & Hjl & ->); cbn [ctab cpages s'] in *.
    + destruct (decide (w = v)) as [->|Hwv].
      * rewrite lookup_insert_eq in Hq. simplify_eq. assert (c' = c) as ->.
        { rewrite <- (pw_cache _ _ _ _ _ Hqw). apply (pw_cache _ _ _ _ _ Hp). }
        simplify_eq. exfalso. by apply (Hne j).
      * rewrite lookup_insert_ne in Hq by done. by exists k', w, q, l, j.
    + destruct (decide (w = v)) as [->|Hwv].
      * destruct (Hold q Hq) as [Hv Hm]. destruct (sw_page _ _ _ Hwf c k m v Hc Hm Hv) as (q' & l' & Hq' & Hqw' & _).
        simplify_eq. assert (c' = c) as ->.
        { rewrite <- (pw_cache _ _ _ _ _ Hqw). apply (pw_cache _ _ _ _ _ Hqw'). }
        simplify_eq. exfalso. by apply (Hne j).
      * exists k', w, q, l, j. unfold s'. cbn [ctab cpages]. by rewrite lookup_insert_ne.
Qed.

(** *** Locks *)

Definition relock (k : cache) (b : bool) : cache := Cache (c_size k) (c_max k) (c_flags k) b.

Definition relocked (c : Z) (b : bool) (s : cstate B) : cstate B :=
  match ctab s !! c with Some k => set_ctab (<[c := relock k b]> (ctab s)) s | None => s end.

Lemma relocked_lookup c b s c' k' :
  ctab (relocked c b s) !! c' = Some k' ->
  exists k, ctab s !! c' = Some k /\ c_size k' = c_size k /\ c_max k' = c_max k /\
    (k' = k \/ (c' = c /\ k' = relock k b)).
Proof.
  unfold relocked. destruct (ctab s !! c) as [k|] eqn:Hk; [|eauto 10]. cbn [ctab set_ctab].
  destruct (decide (c' = c)) as [->|Hne].
  - rewrite lookup_insert_eq. intros [= <-]. exists k. eauto 10.
  - rewrite lookup_insert_ne by done. eauto 10.
Qed.

Lemma relocked_is_Some c b s c' : is_Some (ctab (relocked c b s) !! c') <-> is_Some (ctab s !! c').
Proof.
  unfold relocked. destruct (ctab s !! c) as [k|] eqn:Hk; [|done]. cbn [ctab set_ctab].
  destruct (decide (c' = c)) as [->|Hne].
  - rewrite lookup_insert_eq, Hk. split; eauto.
  - by rewrite lookup_insert_ne.
Qed.

Lemma page_wf_max c k k' v p l : c_max k' = c_max k -> page_wf c k v p l -> page_wf c k' v p l.
Proof. intros E [H1 H2 H3 H4 H5 H6 H7]. split; rewrite ?E; done. Qed.

Lemma slab_relocked c b s L A : slab_wf s L A -> slab_wf (relocked c b s) L A.
Proof.
  intros [W1 W2 W3 W4 W5 W6 W7 W8 W9].
  assert (Hf : source (relocked c b s) = source s /\ cpages (relocked c b s) = cpages s /\
    clists (relocked c b s) = clists s) by (unfold relocked; by destruct (ctab s !! c)).
  destruct Hf as (E1 & E2 & E3). split; rewrite ?E1, ?E2, ?E3; try done.
  - intros c' k' m Hc' Hm. apply relocked_lookup in Hc' as (k & Hk & _). by apply (W2 c' k).
  - intros c' k' m v Hc' Hm Hv. apply relocked_lookup in Hc' as (k & Hk & Es & Em & _).
    destruct (W4 c' k m v Hk Hm Hv) as (p & l & Hp & Hpw & Hcl). exists p, l. split; [done|].
    split; [by eapply page_wf_max|]. unfold class_of in *. by rewrite Em.
  - intros v p Hv. destruct (W5 v p Hv) as (k & m & Hk & Hm & Hin).
    destruct (proj2 (relocked_is_Some c b s (cp_cache p)) ltac:(eauto)) as [k' Hk']. eauto.
  - intros c' k' Hc'. apply relocked_lookup in Hc' as (k & Hk & Es & Em & _).
    pose proof (W6 c' k Hk) as Hok. unfold cache_ok in *. by rewrite Es, Em.
  - intros c' m Hc'. apply W8. destruct (ctab s !! c') eqn:E; [|done].
    destruct (proj2 (relocked_is_Some c b s c') ltac:(eauto)). congruence.
  - destruct W9 as (cs & Hcs & HT). exists cs. split; [done|]. intros c' Hin. by apply relocked_is_Some, HT.
Qed.

Lemma in_use_relocked c b s c' a : in_use (relocked c b s) c' a <-> in_use s c' a.
Proof.
  assert (E2 : cpages (relocked c b s) = cpages s) by (unfold relocked; by destruct (ctab s !! c)).
  unfold in_use. rewrite E2. split; intros (k & v & p & l & i & Hc & Hp & Hpw & Hi & Hl & ->).
  - apply relocked_lookup in Hc as (k0 & Hk & Es & Em & _). exists k0, v, p, l, i.
    split; [done|]. split; [done|]. split; [by eapply page_wf_max|]. split; [lia|]. split; [done|].
    unfold obj_addr. by rewrite Es, Em.
  - destruct (proj2 (relocked_is_Some c b s c') ltac:(eauto)) as [k' Hk'].
    pose proof (relocked_lookup _ _ _ _ _ Hk') as (k0 & Hk & Es & Em & _). simplify_eq.
    exists k', v, p, l, i. split; [done|]. split; [done|]. split; [by eapply page_wf_max|]. split; [lia|]. split; [done|].
    unfold obj_addr. by rewrite Es, Em.
Qed.
End Update.

(** ** The operations *)

Section Specs.
Context {B : Type} `{PageSource B}.
Implicit Types (s : cstate B).

Lemma in_use_page s c k v p idxs :
  ctab s !! c = Some k -> cache_ok k -> cpages s !! v = Some p -> page_wf c k v p idxs ->
  forall j, 0 <= j < c_max k -> in_use s c (obj_addr k v j) <-> j ∉ idxs.
Proof.
  intros Hc Hk Hp Hpw j Hj. destruct (pw_addr _ _ _ _ _ Hpw) as (Hva & Hv0 & _). split.
  - intros (k' & w & q & l & j' & Hc' & Hq & Hqw & Hj' & Hjl & E). simplify_eq.
    destruct (pw_addr _ _ _ _ _ Hqw) as (Hwa & Hw0 & _).
    destruct (obj_inj k v w j j') as [-> ->]; [done|done|lia|done|lia|done|done|done|].
    simplify_eq. by rewrite (page_wf_unique _ _ _ _ _ _ Hk Hpw Hqw).
  - intros Hn. by exists k, v, p, idxs, j.
Qed.

(** Page [v] of cache [c] ends up on list [m]. *)
Definition moved (L : cnode -> list Z) (c m v : Z) (L' : cnode -> list Z) : Prop :=
  forall hd w, w ∈ L' hd <-> (w ∈ L hd /\ w <> v) \/ (w = v /\ hd = (c, m)).

(** No page that was on no list comes up on one. *)
Definition same_pages (L L' : cnode -> list Z) : Prop :=
  forall hd w, w ∈ L' hd -> exists hd', w ∈ L hd'.

Lemma moved_same L c m m' v L' : v ∈ L (c, m) -> moved L c m' v L' -> same_pages L L'.
Proof. intros Hv Hm hd w [[Hw _]|[-> _]]%Hm; eauto. Qed.

Lemma moved_stay L c m v :
  (forall hd1 hd2 w, w ∈ L hd1 -> w ∈ L hd2 -> hd1 = hd2) -> v ∈ L (c, m) -> moved L c m v L.
Proof.
  intros Hd Hv hd w. split; [|intros [[? _]|[-> ->]]; done]. intros Hw.
  destruct (decide (w = v)) as [->|]; [right|by left]. split; [done|]. by apply (Hd _ _ v).
Qed.

Lemma rm_then_add h L (T : Z -> Prop) c m v :
  Fam h L T -> T c -> is_member m -> v ∈ L (c, m) ->
  runs (list_rm (l_page v)) h (fun _ h1 => forall m', is_member m' ->
    runs (list_add (l_page v) (c, m')) h1 (fun _ h2 => exists L', Fam h2 L' T /\ moved L c m' v L')).
Proof.
  intros HF Hc Hm Hv. eapply runs_mono; [by apply (fam_rm h L T c m v)|].
  intros [] h1 (L1 & HF1 & Hmem & _) m' Hm'.
  eapply runs_mono; [apply (fam_add h1 L1 T c m' v); [done|done|done|]|].
  { intros hd Hw. by apply Hmem in Hw as [_ ?]. }
  intros [] h2 HF2. eexists. split; [exact HF2|]. intros hd w.
  destruct (decide (hd = (c, m'))) as [->|Hne].
  - rewrite node_insert_eq, elem_of_cons, Hmem. split; [intros [->|?]; [by right|by left]|intros [?|[-> _]]; [by right|by left]].
  - rewrite node_insert_ne, Hmem by done. split; [by left|]. intros [?|[-> ?]]; done.
Qed.

Lemma cache_do_alloc_spec s c k v p i l :
  cache_ok k -> cpages s !! v = Some p -> page_wf c k v p (i :: l) ->
  runs (cache_do_alloc v) s (fun _ s1 => exists p1,
    s1 = set_cpages (<[v := p1]> (cpages s)) s /\ page_wf c k v p1 l /\ cp_left p1 = Z.of_nat (length l)).
Proof.
  intros Hk Hp [H1 H2 (H3 & nx & Hnx & H3') H4 H5 H6 H7]. unfold cache_do_alloc.
  mstep. eapply runs_read; [exact Hp|]. mstep. mstep.
  { apply Z.eqb_neq. rewrite H3. apply (range_not_end k); [done|]. apply H5. set_solver. }
  mstep. eapply runs_read; [by rewrite H3|]. unfold put_cpage. mstep.
  cbn [length] in H6.
  assert (Hlen : u32 (cp_left p - 1) = Z.of_nat (length l)).
  { rewrite H6. rewrite uwrap_small; [lia|]. split; [lia|].
    assert (Hincl : Z.of_nat (length (i :: l)) <= c_max k).
    { assert (Hle : (length (i :: l) <= length (seqZ 0 (c_max k)))%nat).
      { apply NoDup_incl_length; [by apply NoDup_ListNoDup|]. intros j Hj. apply list_elem_of_In, elem_of_seqZ.
        apply list_elem_of_In in Hj. specialize (H5 j Hj). lia. }
      rewrite length_seqZ in Hle. destruct Hk as (? & ? & ?). lia. }
    destruct Hk as (? & ? & ?). unfold PAGE_SIZE, sizeof_cache_page in *. cbn [length] in Hincl. nia. }
  eexists. split; [reflexivity|]. split; [|exact Hlen].
  split; cbn [cp_cache cp_mem cp_freelist cp_free cp_left]; try done.
  - by apply NoDup_cons in H4 as [_ ?].
  - intros j Hj. apply H5. set_solver.
Qed.

(** Taking the first free object [i] of page [v], the page going to list [m']. *)
Lemma alloc_finish s L A c k m m' v p p1 i l h' L' :
  slab_wf s L A -> ctab s !! c = Some k -> is_member m -> v ∈ L (c, m) -> cpages s !! v = Some p ->
  page_wf c k v p (i :: l) -> page_wf c k v p1 l -> is_member m' -> class_of k m' (Z.of_nat (length l)) ->
  Fam h' L' (fun c => is_Some (ctab s !! c)) -> moved L c m' v L' ->
  let s' := CState (<[v := p1]> (cpages s)) (ctab s) h' (source s) in
  slab_wf s' L' A /\ ~ in_use s c (obj_addr k v i) /\
  forall c' b, in_use s' c' b <-> in_use s c' b \/ (c', b) = (c, obj_addr k v i).
Proof.
  intros Hwf Hc Hm Hv Hp Hpw Hpw1 Hm' Hcl HF Hmv s'. pose proof (sw_cache _ _ _ Hwf c k Hc) as Hk.
  assert (HvA : v ∈ A) by (by apply (sw_taken _ _ _ Hwf (c, m))).
  destruct (in_use_update s L A c k m v p1 l h' (source s) Hwf Hc Hpw1) as [U1 U2]; [done|].
  pose proof (in_use_page s c k v p (i :: l) Hc Hk Hp Hpw) as U0.
  assert (Hi : 0 <= i < c_max k) by (apply (pw_range _ _ _ _ _ Hpw); set_solver).
  assert (Hnd : i ∉ l) by (pose proof (pw_nodup _ _ _ _ _ Hpw) as Hn; by apply NoDup_cons in Hn as [? _]).
  split; [|split].
  - apply (slab_update s L A c k m' v p1 l h' L' (source s) A); try done. apply (sw_source _ _ _ Hwf).
  - rewrite U0 by done. set_solver.
  - intros c' b. unfold s'. destruct (decide (c' = c /\ Exists (fun j => b = obj_addr k v j) (seqZ 0 (c_max k)))) as [[-> He]|Hn].
    + apply Exists_exists in He as (j & Hj & ->). apply elem_of_seqZ in Hj. rewrite U1, U0 by lia.
      assert (Heq : (c, obj_addr k v j) = (c, obj_addr k v i) <-> j = i).
      { split; [|by intros ->]. intros [= E]. destruct (pw_addr _ _ _ _ _ Hpw) as (Hva & Hv0 & _).
        destruct (obj_inj k v v j i) as [_ ?]; [done|done|lia|done|lia|lia|done|done|]. done. }
      rewrite Heq, elem_of_cons. split.
      * intros Hjl. destruct (decide (j = i)); [by right|left]. tauto.
      * intros [Hjl| ->]; [tauto|done].
    + assert (Hn' : forall j, 0 <= j < c_max k -> (c', b) <> (c, obj_addr k v j)).
      { intros j Hj [= -> ->]. apply Hn. split; [done|]. apply Exists_exists. exists j. split; [|done]. apply elem_of_seqZ. lia. }
      rewrite U2 by done. split; [by left|]. intros [?|E]; [done|]. by apply Hn' in E.
Qed.
End Specs.

Section Specs2.
Context {B : Type} `{PageSource B}.
Implicit Types (s : cstate B).

Lemma fresh_page_wf c k v pg :
  cache_ok k -> v mod PAGE_SIZE = 0 -> 0 < v -> v + PAGE_SIZE <= 2 ^ 32 ->
  page_wf c k v (CachePage c (c_max k) 0
      (<[c_max k - 1 := FREELIST_END]> (fill_freelist 0 (Z.to_nat (c_max k)) ∅))
      (u32 (v + sizeof_cache_page + 4 * c_max k)) pg) (seqZ 0 (c_max k)).
Proof.
  intros (Hs & Hm & Hfit) Hva Hv0 Hv. unfold PAGE_SIZE, sizeof_cache_page in *.
  assert (4 * c_max k + 32 < 4096) by nia.
  split; cbn [cp_cache cp_mem cp_freelist cp_free cp_left].
  - done.
  - unfold sizeof_cache_page. apply uwrap_small. lia.
  - replace (c_max k) with (Z.of_nat (Z.to_nat (c_max k - 1)) + 1) at 3 by lia. apply flinks_seq; [lia| |].
    + intros j Hj. rewrite lookup_insert_ne, fill_freelist_lookup, bool_decide_true by lia.
      by rewrite uwrap_small by lia.
    + replace (0 + Z.of_nat (Z.to_nat (c_max k - 1))) with (c_max k - 1) by lia. by rewrite lookup_insert_eq.
  - apply NoDup_seqZ.
  - intros i Hi. apply elem_of_seqZ in Hi. lia.
  - rewrite length_seqZ. lia.
  - done.
Qed.

Lemma not_taken s L A v : slab_wf s L A -> v ∉ A -> cpages s !! v = None /\ forall hd, v ∉ L hd.
Proof.
  intros Hwf Hv. assert (HL : forall hd, v ∉ L hd) by (intros hd Hin; by apply Hv, (sw_taken _ _ _ Hwf hd)).
  split; [|done]. destruct (cpages s !! v) as [p|] eqn:E; [exfalso|done].
  destruct (sw_listed _ _ _ Hwf v p E) as (k & m & _ & _ & Hin). by apply (HL _ Hin).
Qed.

(** What taking a page for cache [c] does. *)
Definition page_added s (L : cnode -> list Z) (c : Z) (n : nat) s' : Prop :=
  exists v L' A', slab_wf s' L' A' /\ ctab s' = ctab s /\ L' (c, 3) = v :: L (c, 3) /\
    (forall c' b, in_use s' c' b <-> in_use s c' b) /\ ps_room n (source s') /\
    forall a, static_at s L a -> static_at s' L' a.

Lemma cache_alloc_page_ok s L A c k n :
  slab_wf s L A -> ctab s !! c = Some k -> ps_room (S n) (source s) ->
  match cache_alloc_page c s with
  | Done (_, s') => page_added s L c n s'
  | Panic => ps_alloc (source s) = Panic
  | _ => False
  end.
Proof.
  intros Hwf Hc Hready. pose proof (ps_alloc_ok _ _ _ (sw_source _ _ _ Hwf) Hready) as Hsrc.
  pose proof (sw_cache _ _ _ Hwf c k Hc) as Hk.
  unfold cache_alloc_page, in_source, mbind at 1, M_bind at 1, lift at 1.
  destruct (ps_alloc (source s)) as [[[pg v] src]| | |]; [|done..].
  destruct Hsrc as (Hva & Hv0 & Hv32 & HvA & Hinv & Hroom & Hstat).
  destruct (not_taken s L A v Hwf HvA) as [Hnone HvL].
  match goal with |- match ?m ?st with _ => _ end => assert (Hr : runs m st (fun _ s' => page_added s L c n s')) end.
  2: { unfold runs in Hr. revert Hr. match goal with |- match ?x with _ => _ end -> _ => destruct x as [[? ?]| | |] end; done. }
  mstep. eapply runs_read; [exact Hc|]. mstep. apply runs_lift. cbn [clists set_source].
  eapply runs_mono; [apply (fam_add _ L (fun c => is_Some (ctab s !! c)) c 3 v); [by eapply slab_fam|eauto|unfold is_member; lia|done]|].
  intros [] h' HF. do 2 mstep; [apply Z.eqb_neq; destruct Hk; lia|]. unfold put_cpage. mstep.
  cbn [cpages ctab clists source set_clists set_source set_cpages].
  pose proof (fresh_page_wf c k v pg Hk Hva Hv0 Hv32) as Hpw. set (p := CachePage c (c_max k) 0 _ _ pg) in *.
  exists v, (<[(c, 3) := v :: L (c, 3)]> L), ({[v]} ∪ A).
  assert (Hmax : Z.of_nat (length (seqZ 0 (c_max k))) = c_max k) by (rewrite length_seqZ; destruct Hk; lia).
  split; [|split; [done|split; [apply node_insert_eq|split; [|split; [exact Hroom|]]]]].
  - apply (slab_update s L A c k 3 v p (seqZ 0 (c_max k))); try done.
    + rewrite Hmax. right. by right.
    + intros hd w. destruct (decide (hd = (c, 3))) as [->|Hne].
      * rewrite node_insert_eq, elem_of_cons. split.
        -- intros [->|Hw]; [by right|left]. split; [done|]. intros ->. by apply (HvL (c, 3)).
        -- intros [[? _]|[-> _]]; [by right|by left].
      * rewrite node_insert_ne by done. split; [|intros [[? _]|[_ ?]]; done].
        intros Hw. left. split; [done|]. intros ->. by apply (HvL hd).
    + set_solver.
    + set_solver.
  - destruct (in_use_update s L A c k 3 v p (seqZ 0 (c_max k)) h' src Hwf Hc Hpw) as [U1 U2].
    { intros q Hq. congruence. }
    intros c' b. destruct (decide (c' = c /\ Exists (fun j => b = obj_addr k v j) (seqZ 0 (c_max k)))) as [[-> He]|Hn].
    + apply Exists_exists in He as (j & Hj & ->). pose proof Hj as Hj'. apply elem_of_seqZ in Hj'. rewrite U1 by lia.
      split; [done|]. intros (k' & w & q & l & j2 & Hc' & Hq & Hqw & Hj2 & _ & E). exfalso. simplify_eq.
      destruct (pw_addr _ _ _ _ _ Hqw) as (Hwa & Hw0 & _).
      destruct (obj_inj k v w j j2) as [-> _]; [done|done|lia|done|lia|lia|done|done|]. congruence.
    + apply U2. intros j Hj [= -> ->]. apply Hn. split; [done|]. apply Exists_exists. exists j.
      split; [|done]. apply elem_of_seqZ. lia.
  - intros a [Ha HaL]. destruct (Hstat a Ha) as [Ha' Hav]. split; [exact Ha'|]. intros hd.
    destruct (decide (hd = (c, 3))) as [->|Hne]; [|rewrite node_insert_ne by done; apply HaL].
    rewrite node_insert_eq. intros Hin. apply elem_of_cons in Hin as [E|Hin]; [done|by apply (HaL (c, 3))].
Qed.
End Specs2.

Section Alloc.
Context {B : Type} `{PageSource B}.
Implicit Types (s : cstate B).

Lemma list_empty_at s L A c k m (Q : bool -> cstate B -> Prop) :
  slab_wf s L A -> ctab s !! c = Some k -> is_member m ->
  Q (bool_decide (L (c, m) = [])) s -> runs (in_lists (list_empty (c, m))) s Q.
Proof.
  intros Hwf Hc Hm HQ. apply runs_lift. eapply list_empty_spec; [by apply (sw_lists _ _ _ Hwf c k m)|].
  assert (set_clists (clists s) s = s) as -> by by destruct s.
  assert (bool_decide (l_page <$> L (c, m) = []) = bool_decide (L (c, m) = [])) as ->; [|done].
  apply bool_decide_ext. by destruct (L (c, m)).
Qed.

Lemma first_page_at s L A c k m v l (Q : Z -> cstate B -> Prop) :
  slab_wf s L A -> ctab s !! c = Some k -> is_member m -> L (c, m) = v :: l ->
  Q v s -> runs (first_page (c, m)) s Q.
Proof.
  intros Hwf Hc Hm El HQ. unfold first_page. mstep. apply runs_lift.
  pose proof (sw_lists _ _ _ Hwf c k m Hc Hm) as Hl. rewrite El in Hl.
  eapply next_of_spec; [by apply is_list_first|].
  change (default (c, m) (head (l_page <$> v :: l))) with (l_page v). assert (set_clists (clists s) s = s) as -> by by destruct s.
  eapply runs_read; [reflexivity|done].
Qed.

Lemma obj_addr_word k v p i l c :
  cache_ok k -> page_wf c k v p (i :: l) -> u32 (cp_mem p + u32 (cp_free p * c_size k)) = obj_addr k v i.
Proof.
  intros Hk Hpw. pose proof (pw_range _ _ _ _ _ Hpw i ltac:(set_solver)) as Hi.
  destruct (pw_links _ _ _ _ _ Hpw) as [-> _]. rewrite (pw_mem _ _ _ _ _ Hpw).
  destruct (pw_addr _ _ _ _ _ Hpw) as (Hva & Hv0 & Hv).
  destruct (obj_page k v i 0 Hk Hva ltac:(lia) Hi ltac:(destruct Hk; lia)) as (_ & H1 & H2).
  destruct Hk as (Hs & Hm & Hfit). unfold obj_addr, PAGE_SIZE, sizeof_cache_page in *.
  rewrite (uwrap_small 32 (i * c_size k)) by nia. apply uwrap_small. lia.
Qed.

(** What taking an object from cache [c] does. *)
Definition took (s : cstate B) (L : cnode -> list Z) (A : gset Z) (c a : Z) (s' : cstate B) : Prop :=
  exists L', slab_wf s' L' A /\ same_pages L L' /\ ctab s' = ctab s /\ source s' = source s /\ ~ in_use s c a /\
    forall c' b, in_use s' c' b <-> in_use s c' b \/ (c', b) = (c, a).

(** Taking the head of a list of pages with free objects. *)
Lemma cache_take_ok s L A c k :
  slab_wf s L A -> ctab s !! c = Some k -> L (c, 2) <> [] \/ L (c, 3) <> [] ->
  runs (cache_take c) s (fun a s' => took s L A c a s').
Proof.
  intros Hwf Hc Hne. pose proof (sw_cache _ _ _ Hwf c k Hc) as Hk. pose proof (slab_fam s L A Hwf) as HF.
  assert (M1 : is_member 1 /\ is_member 2 /\ is_member 3) by (unfold is_member; lia). destruct M1 as (M1 & M2 & M3).
  unfold cache_take. mstep. eapply (list_empty_at s L A c k 2); [done..|].
  assert (Hpage : forall m v rest, m = 2 \/ m = 3 -> L (c, m) = v :: rest -> exists p i l,
    cpages s !! v = Some p /\ page_wf c k v p (i :: l) /\ class_of k m (Z.of_nat (length (i :: l)))).
  { intros m v rest Hm El. destruct (sw_page _ _ _ Hwf c k m v Hc) as (p & idxs & Hp & Hpw & Hcl);
      [by destruct Hm as [-> | ->]|rewrite El; set_solver|].
    destruct idxs as [|i l]; [|eauto 10]. exfalso. destruct Hk as (_ & ? & _).
    unfold class_of in Hcl. cbn [length] in Hcl. lia. }
  destruct (L (c, 2)) as [|v rest] eqn:E2.
  - rewrite bool_decide_true by done. cbn [negb]. mstep. eapply (list_empty_at s L A c k 3); [done..|].
    destruct (L (c, 3)) as [|v rest] eqn:E3; [by destruct Hne|]. rewrite bool_decide_false by done. cbn [negb].
    destruct (Hpage 3 v rest ltac:(by right) E3) as (p & i & l & Hp & Hpw & Hcl).
    mstep. eapply (first_page_at s L A c k 3); [done..|]. mstep. eapply runs_read; [exact Hp|].
    mstep. eapply runs_read; [exact Hc|]. mstep.
    eapply runs_mono; [by apply (cache_do_alloc_spec s c k v p i l)|]. intros [] s1 (p1 & -> & Hpw1 & Hleft).
    assert (Hv : v ∈ L (c, 3)) by (rewrite E3; set_solver).
    mstep. apply runs_lift. cbn [clists set_cpages].
    eapply runs_mono; [apply (rm_then_add _ L _ c 3 v HF); [eauto|done|done]|]. intros [] h1 Hadd.
    mstep. eapply runs_read; [cbn [cpages set_clists set_cpages]; by rewrite lookup_insert_eq|]. rewrite Hleft.
    rewrite (obj_addr_word k v p i l c Hk Hpw). unfold class_of in Hcl. cbn [length] in Hcl.
    destruct (Z.eqb_spec (Z.of_nat (length l)) 0) as [E0|E0]; mstep; apply runs_lift; cbn [clists set_cpages set_clists].
    + eapply runs_mono; [apply (Hadd 1 M1)|]. intros [] h2 (L' & HF' & Hmv). mstep.
      destruct (alloc_finish s L A c k 3 1 v p p1 i l h2 L') as (F1 & F2 & F3); try done.
      { by left. }
      exists L'. split; [done|]. split; [by eapply moved_same|done].
    + eapply runs_mono; [apply (Hadd 2 M2)|]. intros [] h2 (L' & HF' & Hmv). mstep.
      destruct (alloc_finish s L A c k 3 2 v p p1 i l h2 L') as (F1 & F2 & F3); try done.
      { right. left. lia. }
      exists L'. split; [done|]. split; [by eapply moved_same|done].
  - rewrite bool_decide_false by done. cbn [negb].
    destruct (Hpage 2 v rest ltac:(by left) E2) as (p & i & l & Hp & Hpw & Hcl).
    mstep. eapply (first_page_at s L A c k 2); [done..|]. mstep. eapply runs_read; [exact Hp|].
    mstep. eapply runs_read; [exact Hc|]. mstep.
    eapply runs_mono; [by apply (cache_do_alloc_spec s c k v p i l)|]. intros [] s1 (p1 & -> & Hpw1 & Hleft).
    assert (Hv : v ∈ L (c, 2)) by (rewrite E2; set_solver).
    mstep. eapply runs_read; [cbn [cpages set_cpages]; by rewrite lookup_insert_eq|]. rewrite Hleft.
    rewrite (obj_addr_word k v p i l c Hk Hpw). unfold class_of in Hcl. cbn [length] in Hcl.
    destruct (Z.eqb_spec (Z.of_nat (length l)) 0) as [E0|E0]; mstep.
    + mstep. apply runs_lift. cbn [clists set_cpages].
      eapply runs_mono; [apply (rm_then_add _ L _ c 2 v HF); [eauto|done|done]|]. intros [] h1 Hadd.
      apply runs_lift. cbn [clists set_cpages set_clists].
      eapply runs_mono; [apply (Hadd 1 M1)|]. intros [] h2 (L' & HF' & Hmv). mstep.
      destruct (alloc_finish s L A c k 2 1 v p p1 i l h2 L') as (F1 & F2 & F3); try done.
      { by left. }
      exists L'. split; [done|]. split; [by eapply moved_same|done].
    + do 2 mstep.
      destruct (alloc_finish s L A c k 2 2 v p p1 i l (clists s) L) as (F1 & F2 & F3); try done.
      { right. left. lia. }
      { apply moved_stay; [|done]. apply (sw_disj _ _ _ Hwf). }
      exists L. split; [done|]. split; [by intros hd w Hw; exists hd|done].
Qed.
End Alloc.

Section Contract.
Context {B : Type} `{PageSource B}.
Implicit Types (s : cstate B).

Lemma lock_cache_eq c k s :
  ctab s !! c = Some k -> c_lock k = false -> lock_cache c s = Done (tt, relocked c true s).
Proof.
  intros Hc Hl. unfold lock_cache, cache_at. rewrite (bind_Done _ _ s k s) by (unfold read; by rewrite Hc).
  rewrite Hl. unfold put_cache, modify, relocked. by rewrite Hc.
Qed.

Lemma unlock_cache_eq c k s : ctab s !! c = Some k -> unlock_cache c s = Done (tt, relocked c false s).
Proof.
  intros Hc. unfold unlock_cache, cache_at. rewrite (bind_Done _ _ s k s) by (unfold read; by rewrite Hc).
  unfold put_cache, modify, relocked. by rewrite Hc.
Qed.

Lemma relocked_at c b s k : ctab s !! c = Some k -> ctab (relocked c b s) !! c = Some (relock k b).
Proof. intros Hc. unfold relocked. rewrite Hc. cbn [ctab set_ctab]. apply lookup_insert_eq. Qed.

(** Locking and unlocking leaves the table as it was. *)
Lemma relocked_back c s s' k :
  ctab s !! c = Some k -> c_lock k = false -> ctab s' = ctab (relocked c true s) ->
  ctab (relocked c false s') = ctab s.
Proof.
  intros Hc Hl E. unfold relocked. rewrite E, (relocked_at c true s k Hc). cbn [ctab set_ctab].
  unfold relocked. rewrite Hc. cbn [ctab set_ctab]. rewrite insert_insert_eq.
  apply insert_id. rewrite Hc. f_equal. destruct k; cbn in *. by subst.
Qed.

(** What a successful allocation from cache [c] does. *)
Definition alloced s (L : cnode -> list Z) (c : Z) (n : nat) (a : Z) s' : Prop :=
  exists L' A', slab_wf s' L' A' /\ ctab s' = ctab s /\ ~ in_use s c a /\
    (forall c' b, in_use s' c' b <-> in_use s c' b \/ (c', b) = (c, a)) /\
    ps_room n (source s') /\ forall a, static_at s L a -> static_at s' L' a.

Lemma relocked_source c b s : source (relocked c b s) = source s.
Proof. unfold relocked. by destruct (ctab s !! c). Qed.

(** Taking an object and unlocking, once there is a page to take it from. *)
Lemma take_unlock s L L1 A1 c k n s1 :
  ctab s !! c = Some k -> c_lock k = false -> ctab s1 = ctab (relocked c true s) ->
  slab_wf s1 L1 A1 -> L1 (c, 2) <> [] \/ L1 (c, 3) <> [] ->
  (forall c' b, in_use s1 c' b <-> in_use s c' b) -> ps_room n (source s1) ->
  (forall a, static_at s L a -> static_at s1 L1 a) ->
  runs (alloced ← cache_take c; unlock_cache c;; mret alloced) s1 (fun a s' => alloced s L c n a s').
Proof.
  intros Hc Hl Ht Hwf Hne Hu Hroom Hstat.
  assert (Hc1 : ctab s1 !! c = Some (relock k true)) by (rewrite Ht; by apply relocked_at).
  mstep. eapply runs_mono; [by apply (cache_take_ok s1 L1 A1 c (relock k true))|].
  intros a s2 (L2 & Hwf2 & Hsame & Ht2 & Hsrc2 & Hn2 & Hu2). mstep. unfold runs at 1.
  rewrite (unlock_cache_eq c (relock k true) s2) by by rewrite Ht2. mstep.
  exists L2, A1. split; [by apply slab_relocked|].
  split; [apply (relocked_back c s s2 k Hc Hl); by rewrite Ht2, Ht|].
  split; [intros Hin; by apply Hn2, Hu|].
  split; [intros c' b; by rewrite in_use_relocked, Hu2, Hu|].
  split; [by rewrite relocked_source, Hsrc2|].
  intros b Hb. destruct (Hstat b Hb) as [H1 H2]. split; [by rewrite relocked_source, Hsrc2|].
  intros hd Hin. destruct (Hsame hd _ Hin) as [hd' Hin']. by apply (H2 hd').
Qed.

Lemma cache_alloc_spec s L A c k n :
  slab_wf s L A -> ctab s !! c = Some k -> c_lock k = false -> ps_room (S n) (source s) ->
  match cache_alloc c s with
  | Done (a, s') => alloced s L c n a s'
  | Panic => ps_alloc (source s) = Panic /\ L (c, 2) = [] /\ L (c, 3) = []
  | _ => False
  end.
Proof.
  intros Hwf Hc Hl Hroom. unfold cache_alloc. rewrite (bind_Done _ _ _ _ _ (lock_cache_eq c k s Hc Hl)).
  set (s1 := relocked c true s). set (k1 := relock k true).
  assert (Hwf1 : slab_wf s1 L A) by by apply slab_relocked.
  assert (Hc1 : ctab s1 !! c = Some k1) by by apply relocked_at.
  assert (Hsrc1 : source s1 = source s) by apply relocked_source.
  assert (Hu1 : forall c' b, in_use s1 c' b <-> in_use s c' b) by (intros; apply in_use_relocked).
  assert (Hst1 : forall a, static_at s L a -> static_at s1 L a) by (unfold static_at; by rewrite Hsrc1).
  assert (Hem : forall m, is_member m -> in_lists (list_empty (c, m)) s1 = Done (bool_decide (L (c, m) = []), s1)).
  { intros m Hm. apply runs_eq. by eapply (list_empty_at s1 L A c k1 m). }
  rewrite (bind_Done _ _ _ _ _ (Hem 2 ltac:(unfold is_member; lia))).
  rewrite (bind_Done _ _ _ _ _ (Hem 3 ltac:(unfold is_member; lia))).
  assert (Hruns : forall m (s0 : cstate B), runs m s0 (fun a s' => alloced s L c n a s') ->
    match m s0 with
    | Done (a, s') => alloced s L c n a s'
    | Panic => ps_alloc (source s) = Panic /\ L (c, 2) = [] /\ L (c, 3) = []
    | _ => False
    end) by (intros m s0 Hr; unfold runs in Hr; by destruct (m s0) as [[? ?]| | |]).
  destruct (decide (L (c, 2) = [] /\ L (c, 3) = [])) as [[E2 E3]|Hne].
  - rewrite !bool_decide_true by done. cbn [andb].
    pose proof (cache_alloc_page_ok s1 L A c k1 n Hwf1 Hc1 ltac:(by rewrite Hsrc1)) as Hpg.
    unfold mbind at 1, M_bind at 1. destruct (cache_alloc_page c s1) as [[[] s2]| | |]; [|by rewrite Hsrc1 in Hpg|done..].
    destruct Hpg as (v & L2 & A2 & Hwf2 & Ht2 & El2 & Hu2 & Hr2 & Hst2).
    apply Hruns, (take_unlock s L L2 A2 c k n s2); auto; [right; by rewrite El2|].
    intros c' b. by rewrite Hu2.
  - assert (Hb : bool_decide (L (c, 2) = []) && bool_decide (L (c, 3) = []) = false).
    { apply andb_false_iff. rewrite !bool_decide_eq_false. destruct (L (c, 2)); [right|by left]. tauto. }
    rewrite Hb, (bind_Done _ _ s1 tt s1) by done.
    apply Hruns, (take_unlock s L L A c k n s1); auto; [|rewrite Hsrc1; by apply ps_room_S].
    destruct (L (c, 2)); [right|by left]. tauto.
Qed.

End Contract.

Section Free.
Context {B : Type} `{PageSource B}.
Implicit Types (s : cstate B).

Lemma free_count k i idxs :
  1 <= c_max k -> 0 <= i < c_max k -> i ∉ idxs -> NoDup idxs -> (forall j, j ∈ idxs -> 0 <= j < c_max k) ->
  Z.of_nat (length idxs) < c_max k.
Proof.
  intros Hm Hi Hn Hnd Hr.
  assert (Hle : (length (i :: idxs) <= length (seqZ 0 (c_max k)))%nat).
  { apply NoDup_incl_length; [apply NoDup_ListNoDup, NoDup_cons; done|].
    intros j Hj. apply list_elem_of_In, elem_of_seqZ. apply list_elem_of_In, elem_of_cons in Hj as [->|Hj]; [lia|].
    specialize (Hr j Hj). lia. }
  rewrite length_seqZ in Hle. cbn [length] in Hle. lia.
Qed.

(** Giving object [i] of page [v] back, the page going to list [m']. *)
Lemma free_finish s L A c k m m' v p p1 i l h' L' :
  slab_wf s L A -> ctab s !! c = Some k -> is_member m -> v ∈ L (c, m) -> cpages s !! v = Some p ->
  page_wf c k v p l -> 0 <= i < c_max k -> i ∉ l -> page_wf c k v p1 (i :: l) -> is_member m' ->
  class_of k m' (Z.of_nat (length (i :: l))) ->
  Fam h' L' (fun c => is_Some (ctab s !! c)) -> moved L c m' v L' ->
  let s' := CState (<[v := p1]> (cpages s)) (ctab s) h' (source s) in
  slab_wf s' L' A /\ forall c' b, in_use s' c' b <-> in_use s c' b /\ (c', b) <> (c, obj_addr k v i).
Proof.
  intros Hwf Hc Hm Hv Hp Hpw Hi Hil Hpw1 Hm' Hcl HF Hmv s'. pose proof (sw_cache _ _ _ Hwf c k Hc) as Hk.
  assert (HvA : v ∈ A) by (by apply (sw_taken _ _ _ Hwf (c, m))).
  destruct (in_use_update s L A c k m v p1 (i :: l) h' (source s) Hwf Hc Hpw1) as [U1 U2]; [done|].
  pose proof (in_use_page s c k v p l Hc Hk Hp Hpw) as U0. split.
  - apply (slab_update s L A c k m' v p1 (i :: l) h' L' (source s) A); try done. apply (sw_source _ _ _ Hwf).
  - intros c' b. unfold s'.
    destruct (decide (c' = c /\ Exists (fun j => b = obj_addr k v j) (seqZ 0 (c_max k)))) as [[-> He]|Hn].
    + apply Exists_exists in He as (j & Hj & ->). apply elem_of_seqZ in Hj. rewrite U1, U0 by lia.
      assert (Heq : (c, obj_addr k v j) = (c, obj_addr k v i) <-> j = i).
      { split; [|by intros ->]. intros [= E]. destruct (pw_addr _ _ _ _ _ Hpw) as (Hva & Hv0 & _).
        destruct (obj_inj k v v j i) as [_ ?]; [done|done|lia|done|lia|lia|done|done|]. done. }
      rewrite Heq, elem_of_cons. tauto.
    + assert (Hn' : forall j, 0 <= j < c_max k -> (c', b) <> (c, obj_addr k v j)).
      { intros j Hj [= -> ->]. apply Hn. split; [done|]. apply Exists_exists. exists j. split; [|done]. apply elem_of_seqZ. lia. }
      rewrite U2 by done. split; [|tauto]. intros Hu. split; [done|]. by apply Hn'.
Qed.

Lemma freed_page_wf c k v p i l :
  cache_ok k -> page_wf c k v p l -> 0 <= i < c_max k -> i ∉ l ->
  page_wf c k v (CachePage (cp_cache p) (u32 (cp_left p + 1)) i (<[i := cp_free p]> (cp_freelist p)) (cp_mem p) (cp_page p)) (i :: l).
Proof.
  intros Hk [H1 H2 H3 H4 H5 H6 H7] Hi Hil. split; cbn [cp_cache cp_mem cp_freelist cp_free cp_left]; try done.
  - split; [done|]. exists (cp_free p). rewrite lookup_insert_eq. split; [done|]. by apply flinks_insert.
  - by apply NoDup_cons.
  - intros j Hj. apply elem_of_cons in Hj as [->|Hj]; auto.
  - cbn [length]. destruct Hk as (Hs & Hm & Hfit). pose proof (free_count k i l Hm Hi Hil H4 H5).
    rewrite H6, uwrap_small; [lia|]. unfold PAGE_SIZE, sizeof_cache_page in *. nia.
Qed.

Lemma cache_free_spec s L A c k a :
  slab_wf s L A -> ctab s !! c = Some k -> c_lock k = false -> in_use s c a ->
  runs (cache_free c a) s (fun _ s' => (exists L', slab_wf s' L' A) /\ ctab s' = ctab s /\ source s' = source s /\
    forall c' b, in_use s' c' b <-> in_use s c' b /\ (c', b) <> (c, a)).
Proof.
  intros Hwf0 Hc0 Hl Hu0. unfold cache_free. mstep. unfold runs at 1. rewrite (lock_cache_eq c k s Hc0 Hl).
  set (s1 := relocked c true s). set (k1 := relock k true).
  assert (Hwf : slab_wf s1 L A) by by apply slab_relocked.
  assert (Hc : ctab s1 !! c = Some k1) by by apply relocked_at.
  assert (Hsrc : source s1 = source s) by (unfold s1, relocked; by rewrite Hc0).
  assert (Hu : in_use s1 c a) by by apply in_use_relocked.
  destruct Hu as (k' & v & p & l & i & Hc' & Hp & Hpw & Hi & Hil & Ea).
  assert (k' = k1) as -> by congruence. pose proof (sw_cache _ _ _ Hwf c k1 Hc) as Hk.
  destruct (pw_addr _ _ _ _ _ Hpw) as (Hva & Hv0 & Hv32). pose proof (slab_fam s1 L A Hwf) as HF.
  assert (Htarget : mem_to_cache_page a = v).
  { rewrite Ea. pose proof (obj_page k1 v i 0 Hk Hva ltac:(lia) Hi ltac:(destruct Hk; lia)) as [E _].
    by rewrite Z.add_0_r in E. }
  assert (Hidx : u32 (a - cp_mem p) / c_size k1 = i) by (rewrite Ea, (pw_mem _ _ _ _ _ Hpw); by apply obj_index).
  pose proof (free_count k1 i l ltac:(destruct Hk; lia) Hi Hil (pw_nodup _ _ _ _ _ Hpw) (pw_range _ _ _ _ _ Hpw)) as Hcount.
  assert (Hmem : exists m, is_member m /\ v ∈ L (c, m) /\ class_of k1 m (Z.of_nat (length l))).
  { destruct (sw_listed _ _ _ Hwf v p Hp) as (k2 & m & Hk2 & Hm & Hin). rewrite (pw_cache _ _ _ _ _ Hpw) in *.
    exists m. split; [done|]. split; [done|].
    destruct (sw_page _ _ _ Hwf c k1 m v Hc Hm Hin) as (p' & l' & Hp' & Hpw' & Hcl). simplify_eq.
    by rewrite (page_wf_unique _ _ _ _ _ _ Hk Hpw Hpw'). }
  destruct Hmem as (m & Hm & Hv & Hcl).
  rewrite Htarget. cbv zeta. mstep. eapply runs_read; [exact Hp|]. mstep. eapply runs_read; [exact Hc|].
  pose proof (freed_page_wf c k1 v p i l Hk Hpw Hi Hil) as Hpw1. set (p1 := CachePage _ _ i _ _ _) in *.
  assert (Hleft1 : u32 (cp_left p + 1) = Z.of_nat (length l) + 1).
  { pose proof (pw_left _ _ _ _ _ Hpw1) as E. cbn [cp_left p1 length] in E. lia. }
  assert (Hend : forall h' L' m', Fam h' L' (fun c => is_Some (ctab s1 !! c)) -> moved L c m' v L' -> is_member m' ->
    class_of k1 m' (Z.of_nat (length (i :: l))) ->
    runs (cache_do_free v (u32 (a - cp_mem p) / c_size k1);; unlock_cache c) (set_clists h' s1) (fun _ s' =>
      (exists L', slab_wf s' L' A) /\ ctab s' = ctab s /\ source s' = source s /\
      forall c' b, in_use s' c' b <-> in_use s c' b /\ (c', b) <> (c, a))).
  { intros h' L' m' HF' Hmv Hm' Hcl'. rewrite Hidx. unfold cache_do_free. do 2 mstep.
    eapply runs_read; [exact Hp|]. unfold put_cpage. mstep. fold p1. cbn [cpages set_clists].
    destruct (free_finish s1 L A c k1 m m' v p p1 i l h' L') as [F1 F2]; try done.
    unfold runs. rewrite (unlock_cache_eq c k1) by done.
    split; [exists L'; by apply slab_relocked|]. split; [by apply (relocked_back c s _ k)|].
    split; [unfold relocked; cbn [ctab set_cpages set_clists]; rewrite Hc; exact Hsrc|].
    intros c' b. rewrite in_use_relocked. unfold set_cpages, set_clists. cbn [cpages ctab clists source].
    rewrite F2. unfold s1. rewrite in_use_relocked. by rewrite <- Ea. }
  rewrite Hleft1, (pw_left _ _ _ _ _ Hpw). unfold class_of in Hcl.
  destruct (Z.eqb_spec (Z.of_nat (length l) + 1) (c_max k1)) as [Emax|Emax];
    [|destruct (Z.eqb_spec (Z.of_nat (length l)) 0) as [E0|E0]].
  - mstep. mstep. apply runs_lift. eapply runs_mono; [apply (rm_then_add _ L _ c m v HF); [eauto|done|done]|].
    intros [] h1 Hadd. apply runs_lift. cbn [clists set_clists].
    eapply runs_mono; [apply (Hadd 3 ltac:(unfold is_member; lia))|]. intros [] h2 (L' & HF' & Hmv).
    apply (Hend h2 L' 3); [done|done|unfold is_member; lia|]. right. right. cbn [length]. lia.
  - mstep. mstep. apply runs_lift. eapply runs_mono; [apply (rm_then_add _ L _ c m v HF); [eauto|done|done]|].
    intros [] h1 Hadd. apply runs_lift. cbn [clists set_clists].
    eapply runs_mono; [apply (Hadd 2 ltac:(unfold is_member; lia))|]. intros [] h2 (L' & HF' & Hmv).
    apply (Hend h2 L' 2); [done|done|unfold is_member; lia|]. right. left. cbn [length]. lia.
  - do 2 mstep. assert (m = 2) as -> by lia.
    assert (s1 = set_clists (clists s1) s1) as -> by by destruct s1.
    apply (Hend (clists s1) L 2); [done| |done|].
    + apply moved_stay; [|done]. apply (sw_disj _ _ _ Hwf).
    + right. left. cbn [length]. lia.
Qed.

(** C37: freeing gives the object back and nothing else.  For an object in use
    [cache_free] finds its page from the address alone, never faults, spins or trips
    a bug check, makes exactly that object free, moves the
    page to the list its free count now belongs to and releases the lock. *)
Theorem cache_free_correct s L A c k a :
  slab_wf s L A -> ctab s !! c = Some k -> c_lock k = false -> in_use s c a ->
  runs (cache_free c a) s (fun _ s' => (exists L', slab_wf s' L' A) /\ ctab s' = ctab s /\ source s' = source s /\
    forall c' b, in_use s' c' b <-> in_use s c' b /\ (c', b) <> (c, a)).
Proof. apply cache_free_spec. Qed.

(** An object in use lies in its page behind the header and the free list. *)
Lemma object_inside s L A c k a : slab_wf s L A -> ctab s !! c = Some k -> in_use s c a ->
  mem_to_cache_page a + sizeof_cache_page + 4 * c_max k <= a /\ a + c_size k <= mem_to_cache_page a + PAGE_SIZE.
Proof.
  intros Hwf Hc (k' & v & p & l & i & E & Hp & Hpw & Hi & _ & ->). assert (k' = k) as -> by congruence. pose proof (sw_cache _ _ _ Hwf c k E) as Hk.
  destruct (pw_addr _ _ _ _ _ Hpw) as (Hva & Hv0 & _). destruct (obj_page k v i 0 Hk Hva ltac:(lia) Hi ltac:(destruct Hk; lia)) as (P1 & P2 & _).
  destruct (obj_page k v i (c_size k - 1) Hk Hva ltac:(lia) Hi ltac:(destruct Hk; lia)) as (_ & _ & P3). rewrite Z.add_0_r in P1. rewrite P1. lia.
Qed.

(** Objects never overlap.  Two different objects in use, of the same
    cache or of different ones, occupy disjoint byte ranges, and each lies in its own
    page behind the page's header and free list, so that writing to it can corrupt
    neither another object nor the allocator's records. *)
Lemma objects_disjoint s L A c1 k1 a1 c2 k2 a2 :
  slab_wf s L A -> ctab s !! c1 = Some k1 -> ctab s !! c2 = Some k2 ->
  in_use s c1 a1 -> in_use s c2 a2 -> (c1, a1) <> (c2, a2) ->
  (a1 + c_size k1 <= a2 \/ a2 + c_size k2 <= a1) /\
  mem_to_cache_page a1 + sizeof_cache_page + 4 * c_max k1 <= a1 /\
  a1 + c_size k1 <= mem_to_cache_page a1 + PAGE_SIZE.
Proof.
  intros Hwf Hc1 Hc2 (k1' & v & p & l & i & E1 & Hp & Hpw & Hi & _ & ->) (k2' & w & q & l2 & j & E2 & Hq & Hqw & Hj & _ & ->) Hne.
  assert (k1' = k1) as -> by congruence. assert (k2' = k2) as -> by congruence.
  pose proof (sw_cache _ _ _ Hwf c1 k1 E1) as Hk1. pose proof (sw_cache _ _ _ Hwf c2 k2 E2) as Hk2.
  destruct (pw_addr _ _ _ _ _ Hpw) as (Hva & Hv0 & _). destruct (pw_addr _ _ _ _ _ Hqw) as (Hwa & Hw0 & _).
  destruct (obj_page k1 v i 0 Hk1 Hva ltac:(lia) Hi ltac:(destruct Hk1; lia)) as (P1 & P2 & _).
  destruct (obj_page k1 v i (c_size k1 - 1) Hk1 Hva ltac:(lia) Hi ltac:(destruct Hk1; lia)) as (_ & _ & P3).
  destruct (obj_page k2 w j 0 Hk2 Hwa ltac:(lia) Hj ltac:(destruct Hk2; lia)) as (_ & Q2 & _).
  destruct (obj_page k2 w j (c_size k2 - 1) Hk2 Hwa ltac:(lia) Hj ltac:(destruct Hk2; lia)) as (_ & _ & Q3).
  rewrite Z.add_0_r in P1. rewrite P1. split; [|lia].
  pose proof (Z.div_mod v PAGE_SIZE ltac:(done)) as Dv. pose proof (Z.div_mod w PAGE_SIZE ltac:(done)) as Dw.
  destruct Hk1 as (Hs1 & _ & _), Hk2 as (Hs2 & _ & _).
  destruct (decide (v = w)) as [->|Hvw].
  - assert (c1 = c2) as -> by (rewrite <- (pw_cache _ _ _ _ _ Hpw), <- (pw_cache _ _ _ _ _ Hqw); congruence).
    simplify_eq. assert (i <> j) by (intros ->; by apply Hne). unfold obj_addr in *. nia.
  - unfold PAGE_SIZE, sizeof_cache_page in *. assert (v / 4096 <> w / 4096) by lia. lia.
Qed.

(** C36: a slab allocation gives a fresh object.  In a well-formed slab
    allocator whose page source has room to map one more page, [cache_alloc] never faults, spins or trips a bug check; it returns an
    object of the cache that was not in use, makes exactly that object in use, keeps
    every page on the list its number of free objects belongs to, and releases the
    lock.  The object lies in one page, behind the page's header and free list, and no byte of it is in an object in use, of whatever cache.
    The only way to fail is that there was no free object and the page source was out of memory. *)
Theorem cache_alloc_correct s L A c k :
  slab_wf s L A -> ctab s !! c = Some k -> c_lock k = false -> ps_room 1 (source s) ->
  match cache_alloc c s with
  | Done (a, s') => (exists L' A', slab_wf s' L' A') /\ ctab s' = ctab s /\ ~ in_use s c a /\
      (forall c' b, in_use s' c' b <-> in_use s c' b \/ (c', b) = (c, a)) /\
      mem_to_cache_page a + sizeof_cache_page + 4 * c_max k <= a /\ a + c_size k <= mem_to_cache_page a + PAGE_SIZE /\
      forall c' k' b, ctab s !! c' = Some k' -> in_use s c' b -> a + c_size k <= b \/ b + c_size k' <= a
  | Panic => ps_alloc (source s) = Panic /\ L (c, 2) = [] /\ L (c, 3) = []
  | _ => False
  end.
Proof.
  intros Hwf Hc Hl Hroom. pose proof (cache_alloc_spec s L A c k 0 Hwf Hc Hl Hroom) as Hs.
  destruct (cache_alloc c s) as [[a s']| | |]; [|done..].
  destruct Hs as (L' & A' & H1 & H2 & H3 & H4 & _). split; [by exists L', A'|]. split; [done|]. split; [done|]. split; [done|].
  assert (Hua : in_use s' c a) by (apply H4; by right).
  assert (Hdis : forall c' k' b, ctab s !! c' = Some k' -> in_use s' c' b -> (c, a) <> (c', b) -> (a + c_size k <= b \/ b + c_size k' <= a) /\ mem_to_cache_page a + sizeof_cache_page + 4 * c_max k <= a /\ a + c_size k <= mem_to_cache_page a + PAGE_SIZE).
  { intros c' k' b Hk' Hb Hne. eapply (objects_disjoint s' L' A' c k a c' k' b); [exact H1|by rewrite H2|by rewrite H2|done..]. }
  pose proof (object_inside s' L' A' c k a H1 ltac:(by rewrite H2) Hua) as [G1 G2]. split; [done|]. split; [done|].
  intros c' k' b Hk' Hb. eapply Hdis; [exact Hk'|apply H4; by left|]. intros [= -> ->]. by apply H3.
Qed.
End Free.

(** ** Creating caches *)

Section Create.
Context {B : Type} `{PageSource B}.
Implicit Types (s : cstate B).

(** [meta_cache] is static and every other cache is one of its objects. *)
Definition roots s (L : cnode -> list Z) (meta : Z) : Prop :=
  ctab s !! meta = Some meta_cache /\ static_at s L meta /\
  forall c, is_Some (ctab s !! c) -> c = meta \/ in_use s meta c.

Definition new_cache (size : Z) : cache := Cache size ((PAGE_SIZE - sizeof_cache_page) / (size + 4)) 0 false.

Lemma new_cache_ok size : 1 <= size <= PAGE_SIZE - sizeof_cache_page - 4 -> cache_ok (new_cache size).
Proof.
  intros Hs. unfold cache_ok, new_cache. cbn [c_size c_max]. set (d := PAGE_SIZE - sizeof_cache_page) in *.
  pose proof (Z.mul_div_le d (size + 4) ltac:(lia)).
  assert (1 <= d / (size + 4)) by (apply Z.div_le_lower_bound; lia). unfold d in *. lia.
Qed.

(** An object in use lies on a page of a list. *)
Lemma in_use_listed s L A c a : slab_wf s L A -> in_use s c a -> exists m, is_member m /\ mem_to_cache_page a ∈ L (c, m).
Proof.
  intros Hwf (k & v & p & l & i & Hc & Hp & Hpw & Hi & _ & ->). pose proof (sw_cache _ _ _ Hwf c k Hc) as Hk.
  destruct (pw_addr _ _ _ _ _ Hpw) as (Hva & Hv0 & _).
  destruct (obj_page k v i 0 Hk Hva ltac:(lia) Hi ltac:(destruct Hk; lia)) as [E _]. rewrite Z.add_0_r in E. rewrite E.
  destruct (sw_listed _ _ _ Hwf v p Hp) as (k' & m & _ & Hm & Hin). rewrite (pw_cache _ _ _ _ _ Hpw) in Hin. eauto.
Qed.

Lemma roots_fresh s L meta a s' L' A' :
  roots s L meta -> ~ in_use s meta a -> in_use s' meta a -> slab_wf s' L' A' ->
  (forall b, static_at s L b -> static_at s' L' b) -> ctab s !! a = None.
Proof.
  intros (_ & Hst & Hroot) Hn Hu Hwf' Hstat. destruct (ctab s !! a) as [k|] eqn:E; [exfalso|done].
  destruct (Hroot a ltac:(eauto)) as [->|?]; [|done]. destruct (in_use_listed s' L' A' meta meta Hwf' Hu) as (m & _ & Hin).
  destruct (Hstat meta Hst) as [_ Hno]. by apply (Hno (meta, m)).
Qed.

(** Adding a cache that has no page. *)
Lemma in_use_new s L A c k h :
  slab_wf s L A -> ctab s !! c = None ->
  forall c' a, in_use (CState (cpages s) (<[c := k]> (ctab s)) h (source s)) c' a <-> in_use s c' a.
Proof.
  intros Hwf Hc c' a. split; intros (k' & v & p & l & i & Hc' & Hp & Hpw & Hrest); cbn [ctab cpages] in *.
  - assert (c' <> c).
    { intros ->. destruct (sw_listed _ _ _ Hwf v p Hp) as (k2 & _ & Hk2 & _).
      rewrite (pw_cache _ _ _ _ _ Hpw) in Hk2. congruence. }
    rewrite lookup_insert_ne in Hc' by done. by exists k', v, p, l, i.
  - exists k', v, p, l, i. cbn [ctab cpages]. rewrite lookup_insert_ne by congruence. done.
Qed.

Lemma slab_new s L A c k h :
  slab_wf s L A -> ctab s !! c = None -> cache_ok k ->
  Fam h L (fun x => is_Some (<[c := k]> (ctab s) !! x)) ->
  slab_wf (CState (cpages s) (<[c := k]> (ctab s)) h (source s)) L A.
Proof.
  intros [W1 W2 W3 W4 W5 W6 W7 W8 W9] Hc Hk (Hl & _ & Hcs). split; cbn [source ctab cpages clists]; try done.
  - intros c' k' m Hc' Hm. by apply Hl.
  - intros c' k' m v Hc' Hm Hv. destruct (decide (c' = c)) as [->|Hne]; [rewrite W8 in Hv by done; set_solver|].
    rewrite lookup_insert_ne in Hc' by done. by apply W4.
  - intros v p Hv. destruct (W5 v p Hv) as (k' & m & Hk' & Hm & Hin). exists k', m.
    rewrite lookup_insert_ne by congruence. done.
  - intros c' k' Hc'. destruct (decide (c' = c)) as [->|Hne].
    + rewrite lookup_insert_eq in Hc'. by simplify_eq.
    + rewrite lookup_insert_ne in Hc' by done. by apply (W6 c').
  - intros c' m Hc'. apply W8. destruct (decide (c' = c)) as [->|Hne]; [done|].
    by rewrite lookup_insert_ne in Hc' by done.
Qed.

(** The list operations of [cache_create]. *)
Lemma create_lists (h : lmem cnode) (L : cnode -> list Z) (T T' : Z -> Prop) (c : Z) (Q : unit -> lmem cnode -> Prop) :
  Fam h L T -> ~ T c -> (forall m, L (c, m) = []) -> (forall x, T' x <-> T x \/ x = c) ->
  (forall h', Fam h' L T' -> Q tt h') ->
  runs (list_add (l_cache c) caches) h (fun _ h1 => runs (list_init (l_empty c)) h1 (fun _ h2 =>
    runs (list_init (l_partial c)) h2 (fun _ h3 => runs (list_init (l_full c)) h3 Q))).
Proof.
  intros (Hl & Hd & cs & Hcs & HT) Hc Hnil HT' HQ.
  assert (Hfresh : c ∉ cs) by (intros Hin; by apply Hc, HT).
  eapply runs_mono; [apply (list_add_spec h caches (l_cache <$> cs)); [done|]|].
  { intros Hin. apply elem_of_cons in Hin as [E|Hin]; [done|]. apply list_elem_of_fmap in Hin as (w & E & Hw).
    unfold l_cache in E. by simplify_eq. }
  intros [] h1 [Hl1 Ho1]. eapply runs_mono; [apply list_init_spec|]. intros [] h2 [Hl2 Ho2].
  eapply runs_mono; [apply list_init_spec|]. intros [] h3 [Hl3 Ho3].
  eapply runs_mono; [apply list_init_spec|]. intros [] h4 [Hl4 Ho4]. apply HQ.
  assert (Hoff : forall hd l h h', is_list h hd l -> same_off [(c, 3)] h h' \/ same_off [(c, 2)] h h' \/ same_off [(c, 1)] h h' ->
    (forall x, x ∈ hd :: l -> x <> (c, 3) /\ x <> (c, 2) /\ x <> (c, 1)) -> is_list h' hd l).
  { intros hd l g g' Hg Hs Hx. destruct Hs as [Hs|[Hs|Hs]]; eapply is_list_frame; try done;
      intros x Hin [= ->]%list_elem_of_singleton; by destruct (Hx _ Hin) as (? & ? & ?). }
  split; [|split; [done|]].
  - intros c' m Hc' Hm. apply HT' in Hc' as [Hc'| ->].
    + assert (c' <> c) by (intros ->; done). pose proof (Hl c' m Hc' Hm) as Hg.
      assert (Hx : forall x, x ∈ (c', m) :: (l_page <$> L (c', m)) -> x <> (c, 3) /\ x <> (c, 2) /\ x <> (c, 1)).
      { intros x Hx. apply elem_of_cons in Hx as [->|Hx]; [split_and!; congruence|].
        apply list_elem_of_fmap in Hx as (w & -> & _). unfold l_page. split_and!; congruence. }
      apply (Hoff _ _ h3 h4); [|tauto|done]. apply (Hoff _ _ h2 h3); [|tauto|done]. apply (Hoff _ _ h1 h2); [|tauto|done].
      eapply is_list_frame; [exact Ho1|done|]. intros x Hx1 Hx2. unfold is_member in Hm.
      apply elem_of_cons in Hx1 as [->|Hx1]; [|apply list_elem_of_fmap in Hx1 as (w & -> & _)];
        (apply elem_of_cons in Hx2 as [E|Hx2]; [unfold l_cache, l_page in E; simplify_eq; lia|]);
        (apply elem_of_cons in Hx2 as [E|Hx2]; [unfold caches, l_page in E; simplify_eq; lia|]);
        apply list_elem_of_fmap in Hx2 as (w' & E & _); unfold l_cache, l_page in E; simplify_eq; lia.
    + rewrite Hnil. cbn [fmap list_fmap]. unfold is_member in Hm.
      assert (m = 1 \/ m = 2 \/ m = 3) as Hc3 by lia. destruct Hc3 as [-> |[-> | ->]]; [done| |].
      * eapply is_list_frame; [exact Ho4|done|]. intros x ->%list_elem_of_singleton. by intros [=]%list_elem_of_singleton.
      * eapply is_list_frame; [exact Ho4| |].
        { eapply is_list_frame; [exact Ho3|done|]. intros x ->%list_elem_of_singleton. by intros [=]%list_elem_of_singleton. }
        intros x ->%list_elem_of_singleton. by intros [=]%list_elem_of_singleton.
  - exists (c :: cs). split.
    + assert (Hx : forall x, x ∈ caches :: (l_cache <$> c :: cs) -> x <> (c, 3) /\ x <> (c, 2) /\ x <> (c, 1)).
      { intros x Hx. apply elem_of_cons in Hx as [->|Hx]; [unfold caches; split_and!; congruence|].
        apply list_elem_of_fmap in Hx as (w & -> & _). unfold l_cache. split_and!; congruence. }
      apply (Hoff _ _ h3 h4); [|tauto|done]. apply (Hoff _ _ h2 h3); [|tauto|done]. by apply (Hoff _ _ h1 h2); [|tauto|].
    + intros x Hx. apply HT'. apply elem_of_cons in Hx as [->|Hx]; [by right|left; auto].
Qed.

(** What creating a cache for objects of [size] bytes does. *)
Definition created s (meta size : Z) (n : nat) (c : Z) s' : Prop :=
  exists L' A', slab_wf s' L' A' /\ roots s' L' meta /\ ctab s !! c = None /\
    ctab s' = <[c := new_cache size]> (ctab s) /\ ps_room n (source s') /\
    forall c' b, in_use s' c' b <-> in_use s c' b \/ (c', b) = (meta, c).

Lemma cache_create_spec s L A meta size n :
  slab_wf s L A -> roots s L meta -> ps_room (S n) (source s) -> 1 <= size <= PAGE_SIZE - sizeof_cache_page - 4 ->
  match cache_create meta size s with
  | Done (c, s') => created s meta size n c s'
  | Panic => ps_alloc (source s) = Panic /\ L (meta, 2) = [] /\ L (meta, 3) = []
  | _ => False
  end.
Proof.
  intros Hwf Hr Hroom Hs. pose proof Hr as (Hmeta & _). unfold cache_create.
  pose proof (cache_alloc_spec s L A meta meta_cache n Hwf Hmeta eq_refl Hroom) as Ha.
  unfold mbind at 1, M_bind at 1. destruct (cache_alloc meta s) as [[c s1]| | |]; [|done..].
  destruct Ha as (L1 & A1 & Hwf1 & Ht1 & Hn & Hu1 & Hroom1 & Hst1).
  assert (Hfresh : ctab s !! c = None) by (eapply (roots_fresh s L meta c s1); try done; apply Hu1; by right).
  assert (Hsz : u32 (size + 4) = size + 4) by (apply uwrap_small; unfold PAGE_SIZE, sizeof_cache_page in *; lia).
  match goal with |- match ?m ?st with _ => _ end => assert (Hruns : runs m st (created s meta size n)) end.
  2: { unfold runs in Hruns. revert Hruns. match goal with |- match ?x with _ => _ end -> _ => destruct x as [[? ?]| | |] end; done. }
  rewrite Hsz. fold (new_cache size). assert (Hc1 : ctab s1 !! c = None) by by rewrite Ht1.
  pose proof (create_lists (clists s1) L1 _ (fun x => is_Some (<[c := new_cache size]> (ctab s1) !! x)) c
    (fun _ h => created s meta size n c (CState (cpages s1) (<[c := new_cache size]> (ctab s1)) h (source s1)))
    (slab_fam s1 L1 A1 Hwf1)) as Hl.
  mstep. apply runs_lift. eapply runs_mono; [apply Hl|]; clear Hl.
  - rewrite Hc1. by intros [? ?].
  - intros m. by apply (sw_nil _ _ _ Hwf1).
  - intros x. destruct (decide (x = c)) as [->|Hne]; [rewrite lookup_insert_eq; split; [by right|by eexists]|].
    rewrite lookup_insert_ne by done. split; [by left|]. by intros [?|?].
  - intros h HF. pose proof (in_use_new s1 L1 A1 c (new_cache size) h Hwf1 Hc1) as Hu2. exists L1, A1.
    split; [apply slab_new; [done|done|by apply new_cache_ok|done]|].
    assert (Hin : forall c' b, in_use (CState (cpages s1) (<[c := new_cache size]> (ctab s1)) h (source s1)) c' b <->
      in_use s c' b \/ (c', b) = (meta, c)) by (intros; by rewrite Hu2, Hu1).
    split; [|split; [done|split; [by rewrite <- Ht1|split; [done|exact Hin]]]].
    destruct Hr as (_ & Hst & Hroot). split; [|split].
    + cbn [ctab]. rewrite lookup_insert_ne, Ht1 by congruence. done.
    + exact (Hst1 meta Hst).
    + cbn [ctab]. intros x. destruct (decide (x = c)) as [->|Hne]; [intros _; right; apply Hin; by right|].
      intros Hx. rewrite lookup_insert_ne, Ht1 in Hx by done. destruct (Hroot x Hx) as [->|?]; [by left|right].
      apply Hin. by left.
  - intros [] h1 Hl. unfold put_cache. do 2 mstep. cbn [clists set_clists set_ctab].
    mstep. apply runs_lift. eapply runs_mono; [exact Hl|]. intros [] h2 Hl2.
    mstep. apply runs_lift. eapply runs_mono; [exact Hl2|]. intros [] h3 Hl3.
    mstep. apply runs_lift. eapply runs_mono; [exact Hl3|]. intros [] h4 Hl4. mstep. exact Hl4.
Qed.

(** A cache with a page runs out of objects only when a page's worth is in use. *)
Lemma meta_not_full s L A c k ks :
  slab_wf s L A -> ctab s !! c = Some k -> (forall b, in_use s c b <-> b ∈ ks) -> ks <> [] ->
  Z.of_nat (length ks) < c_max k -> ~ (L (c, 2) = [] /\ L (c, 3) = []).
Proof.
  intros Hwf Hc Hu Hne Hlt [E2 E3]. destruct ks as [|b ks]; [done|].
  destruct (in_use_listed s L A c b Hwf ltac:(apply Hu; set_solver)) as (m & Hm & Hin). set (v := mem_to_cache_page b) in *.
  assert (m = 1) as ->.
  { unfold is_member in Hm. assert (m = 1 \/ m = 2 \/ m = 3) as [?|[-> | ->]] by lia; [done|rewrite E2 in Hin|rewrite E3 in Hin]; set_solver. }
  pose proof (sw_cache _ _ _ Hwf c k Hc) as Hk.
  destruct (sw_page _ _ _ Hwf c k 1 v Hc Hm Hin) as (p & idxs & Hp & Hpw & Hcl).
  destruct idxs as [|j idxs]; [|unfold class_of in Hcl; cbn [length] in Hcl; lia]. clear Hcl.
  assert (Hle : (length (obj_addr k v <$> seqZ 0 (c_max k)) <= length (b :: ks))%nat).
  { apply NoDup_incl_length.
    - apply NoDup_ListNoDup, NoDup_fmap_2_strong; [|apply NoDup_seqZ]. intros i j _ _ E. unfold obj_addr in E.
      destruct Hk as (Hsz & _). nia.
    - intros x Hx. apply list_elem_of_In, Hu. apply list_elem_of_In, list_elem_of_fmap in Hx as (i & -> & Hi).
      apply elem_of_seqZ in Hi. apply (in_use_page s c k v p [] Hc Hk Hp Hpw i); [lia|set_solver]. }
  rewrite length_fmap, length_seqZ in Hle. lia.
Qed.

(** The general caches: cache [i] holds objects of [2 ^ (i + 3)] bytes. *)
Definition kalloc_from s (i : Z) (kc : list Z) : Prop :=
  forall j c, kc !! j = Some c -> exists k, ctab s !! c = Some k /\ c_lock k = false /\
    c_size k = 2 ^ (Z.of_nat j + i + KALLOC_CACHE_SHIFT_MIN).

Lemma size_of_index i : 0 <= i < KALLOC_NUM_CACHES ->
  u32 (1 <<< (i + KALLOC_CACHE_SHIFT_MIN)) = 2 ^ (i + KALLOC_CACHE_SHIFT_MIN) /\
  1 <= 2 ^ (i + KALLOC_CACHE_SHIFT_MIN) <= PAGE_SIZE - sizeof_cache_page - 4.
Proof.
  intros Hi. unfold KALLOC_NUM_CACHES, KALLOC_CACHE_SHIFT_MAX, KALLOC_CACHE_SHIFT_MIN in *.
  rewrite Z.shiftl_1_l. pose proof (Z.pow_le_mono_r 2 (i + 3) 11 ltac:(lia) ltac:(lia)).
  pose proof (Z.pow_pos_nonneg 2 (i + 3) ltac:(lia) ltac:(lia)).
  split; [apply uwrap_small|unfold PAGE_SIZE, sizeof_cache_page]; lia.
Qed.

Lemma create_all_spec meta n : forall i s L A ks,
  slab_wf s L A -> roots s L meta -> ps_room n (source s) -> 0 <= i -> i + Z.of_nat n = KALLOC_NUM_CACHES ->
  (forall b, in_use s meta b <-> b ∈ ks) -> Z.of_nat (length ks) = i ->
  match create_all meta n i s with
  | Done (kc, s') => (exists L' A', slab_wf s' L' A' /\ roots s' L' meta) /\ length kc = n /\ kalloc_from s' i kc /\
      (forall c k, ctab s !! c = Some k -> ctab s' !! c = Some k) /\ forall b, in_use s' meta b <-> b ∈ kc \/ b ∈ ks
  | Panic => i = 0 /\ ps_alloc (source s) = Panic
  | _ => False
  end.
Proof.
  induction n as [|n IH]; intros i s L A ks Hwf Hr Hroom Hi Hsum Hu Hks; cbn [create_all].
  { unfold mret, M_ret. split; [eauto|]. split; [done|]. split; [intros j c Hj; done|]. split; [done|].
    intros b. rewrite Hu. set_solver. }
  destruct (size_of_index i ltac:(unfold KALLOC_NUM_CACHES in *; lia)) as [Esz Hsz]. rewrite Esz.
  pose proof (cache_create_spec s L A meta _ n Hwf Hr Hroom Hsz) as Hc.
  unfold mbind at 1, M_bind at 1. destruct (cache_create meta _ s) as [[c s1]| | |]; [| |done..].
  2: { destruct Hc as (Hp & E2 & E3). split; [|done]. destruct (decide (ks = [])) as [E0|Hne]; [rewrite E0 in Hks; cbn in Hks; lia|exfalso].
       apply (meta_not_full s L A meta meta_cache ks); [done|apply Hr|done|done| |done].
       unfold KALLOC_NUM_CACHES, KALLOC_CACHE_SHIFT_MAX, KALLOC_CACHE_SHIFT_MIN in *. vm_compute (c_max _). lia. }
  destruct Hc as (L1 & A1 & Hwf1 & Hr1 & Hnone & Ht1 & Hroom1 & Hu1).
  specialize (IH (i + 1) s1 L1 A1 (c :: ks) Hwf1 Hr1 Hroom1 ltac:(lia) ltac:(lia)).
  specialize (IH ltac:(intros b; rewrite Hu1, Hu, elem_of_cons; naive_solver) ltac:(cbn [length]; lia)).
  unfold mbind at 1, M_bind at 1. destruct (create_all meta n (i + 1) s1) as [[kc s2]| | |]; [|lia|done..].
  unfold mret, M_ret. destruct IH as (Hwf2 & Hlen & Hk2 & Hkeep & Hu2).
  split; [done|]. split; [cbn [length]; lia|]. split; [|split].
  - intros [|j] c' Hj; cbn in Hj.
    + injection Hj as <-. exists (new_cache (2 ^ (i + KALLOC_CACHE_SHIFT_MIN))). split; [apply Hkeep; rewrite Ht1; apply lookup_insert_eq|].
      split; [done|]. by cbn [c_size new_cache].
    + destruct (Hk2 j c' Hj) as (k & H1 & H2 & H3). exists k. split; [done|]. split; [done|]. rewrite H3. f_equal. lia.
  - intros c' k Hc'. apply Hkeep. rewrite Ht1, lookup_insert_ne by congruence. done.
  - intros b. rewrite Hu2. set_solver.
Qed.

(** The statically initialised list heads: [caches] and those of [meta_cache]. *)
Definition boot_lists (meta : Z) : lmem cnode :=
  after (list_init caches;; list_init (l_full meta);; list_init (l_partial meta);; list_init (l_empty meta)) (LMem ∅ ∅).

Definition boot_caches (meta : Z) (b : B) : cstate B :=
  CState ∅ {[meta := meta_cache]} (boot_lists meta) b.

Lemma cache_boot_lists_spec meta :
  is_list (boot_lists meta) caches [] /\ forall m, is_member m -> is_list (boot_lists meta) (meta, m) [].
Proof.
  assert (Hone : forall (h h' : lmem cnode) hd x, is_list h hd [] -> same_off [x] h h' -> hd <> x -> is_list h' hd []).
  { intros h h' hd x Hl Ho Hne. eapply is_list_frame; [exact Ho|done|]. intros y ->%list_elem_of_singleton. by intros ->%list_elem_of_singleton. }
  assert (Hr : runs (list_init caches;; list_init (l_full meta);; list_init (l_partial meta);; list_init (l_empty meta)) (LMem ∅ ∅)
    (fun _ h => is_list h caches [] /\ forall m, is_member m -> is_list h (meta, m) [])).
  { mstep. eapply runs_mono; [apply list_init_spec|]. intros [] h1 [Hl1 _].
    mstep. eapply runs_mono; [apply list_init_spec|]. intros [] h2 [Hl2 Ho2].
    mstep. eapply runs_mono; [apply list_init_spec|]. intros [] h3 [Hl3 Ho3].
    eapply runs_mono; [apply list_init_spec|]. intros [] h4 [Hl4 Ho4]. split.
    - eapply Hone; [|exact Ho4|done]. eapply Hone; [|exact Ho3|done]. by eapply Hone; [|exact Ho2|].
    - intros m Hm. unfold is_member in Hm. assert (m = 1 \/ m = 2 \/ m = 3) as [-> |[-> | ->]] by lia; [| |done].
      + eapply Hone; [|exact Ho4|by intros [=]]. by eapply Hone; [|exact Ho3|by intros [=]].
      + by eapply Hone; [|exact Ho4|by intros [=]]. }
  by apply runs_after in Hr as [_ ?].
Qed.

Lemma in_use_boot meta b c a : ~ in_use (boot_caches meta b) c a.
Proof. intros (k & v & p & l & i & _ & Hp & _). done. Qed.

Lemma boot_caches_wf meta b A :
  ps_inv b A -> ps_static b meta -> slab_wf (boot_caches meta b) (fun _ => []) A /\ roots (boot_caches meta b) (fun _ => []) meta.
Proof.
  intros Hb Hst. destruct (cache_boot_lists_spec meta) as [Hcs Hls].
  assert (Hone : forall c k, ctab (boot_caches meta b) !! c = Some k -> c = meta /\ k = meta_cache).
  { intros c k Hc. cbn in Hc. apply lookup_singleton_Some in Hc as [-> <-]. done. }
  split; [split|split; [|split]]; try done.
  - intros c k m Hc Hm. destruct (Hone c k Hc) as [-> ->]. by apply Hls.
  - intros hd1 hd2 v Hv. set_solver.
  - intros c k m v _ _ Hv. set_solver.
  - intros c k Hc. destruct (Hone c k Hc) as [_ ->]. vm_compute. done.
  - intros hd v Hv. set_solver.
  - exists []. split; [done|]. intros c Hc. set_solver.
  - cbn. by rewrite lookup_singleton_eq.
  - split; [done|]. intros hd. set_solver.
  - intros c [k Hc]. left. by destruct (Hone c k Hc).
Qed.

Lemma cache_init_spec meta b A :
  ps_inv b A -> ps_static b meta -> ps_room 9 b ->
  match cache_init meta (boot_caches meta b) with
  | Done (kc, s') => (exists L' A', slab_wf s' L' A' /\ roots s' L' meta) /\
      Z.of_nat (length kc) = KALLOC_NUM_CACHES /\ kalloc_from s' 0 kc /\
      forall a, in_use s' meta a <-> a ∈ kc
  | Panic => ps_alloc b = Panic
  | _ => False
  end.
Proof.
  intros Hb Hst Hroom. destruct (boot_caches_wf meta b A Hb Hst) as [Hwf Hr].
  destruct (cache_boot_lists_spec meta) as [Hcs _]. unfold cache_init.
  assert (Hadd : runs (in_lists (list_add (l_cache meta) caches)) (boot_caches meta b) (fun _ s1 =>
    slab_wf s1 (fun _ => []) A /\ roots s1 (fun _ => []) meta /\ source s1 = b /\ cpages s1 = ∅)).
  { apply runs_lift. eapply runs_mono; [apply (list_add_spec _ caches []); [done|]|].
    { intros Hin. by apply list_elem_of_singleton in Hin. }
    intros [] h [Hl Ho]. split; [|split; [exact Hr|done]].
    destruct Hwf as [W1 W2 W3 W4 W5 W6 W7 W8 W9]. split; try done.
    - intros c k m Hc Hm. cbn [clists set_clists]. eapply is_list_frame; [exact Ho|by apply (W2 c k m)|].
      intros x ->%list_elem_of_singleton Hin. unfold is_member in Hm.
      apply elem_of_cons in Hin as [E|Hin]; [unfold l_cache in E; simplify_eq; lia|].
      apply list_elem_of_singleton in Hin. unfold caches in Hin. simplify_eq. lia.
    - exists [meta]. split; [exact Hl|]. intros c ->%list_elem_of_singleton. eexists. exact (proj1 Hr). }
  apply runs_Done in Hadd as ([] & s1 & E & Hwf1 & Hr1 & Hsrc & Hnop). rewrite (bind_Done _ _ _ _ _ E).
  pose proof (create_all_spec meta 9 0 s1 (fun _ => []) A [] Hwf1 Hr1) as Hc.
  rewrite Hsrc in Hc. specialize (Hc Hroom ltac:(lia) eq_refl).
  specialize (Hc ltac:(intros a; split; [intros (k & v & p & l & i & _ & Hp & _); by rewrite Hnop in Hp|set_solver]) eq_refl).
  change (Z.to_nat KALLOC_NUM_CACHES) with 9%nat.
  destruct (create_all meta 9 0 s1) as [[kc s2]| | |]; [|naive_solver|done..].
  destruct Hc as (H1 & H2 & H3 & _ & H4). split; [done|]. split; [by rewrite H2|]. split; [done|].
  intros a. rewrite H4. set_solver.
Qed.

(** After [cache_init] the general caches are ready.  Started from the
    statically initialised [meta_cache] on a good page source, [cache_init] never
    faults, spins or trips a bug check: it ends with nine caches, for objects of 8,
    16, ..., 2048 bytes, all unlocked, in a well-formed slab allocator whose only
    objects in use are the nine cache records themselves; or the very first page
    could not be had and it stops with the page source's out-of-memory panic. *)
Theorem cache_init_correct meta b A :
  ps_inv b A -> ps_static b meta -> ps_room 9 b ->
  match cache_init meta (boot_caches meta b) with
  | Done (kc, s') => (exists L' A', slab_wf s' L' A' /\ roots s' L' meta) /\
      Z.of_nat (length kc) = KALLOC_NUM_CACHES /\ kalloc_from s' 0 kc /\
      forall a, in_use s' meta a <-> a ∈ kc
  | Panic => ps_alloc b = Panic
  | _ => False
  end.
Proof. apply cache_init_spec. Qed.
End Create.
