(* ===== verification/Kmalloc.v ===== *)
(** * Kmalloc: kmalloc and kfree of kernel/src/mm/mm.c

    The page allocator of [Mm] is a [PageSource] for the slab allocator of [Cache];
    [kmalloc] and [kfree] choose between the two by size and by the page's flag. *)

From S2P Require Import Prelude Words CList CString Mmu Mm Buddy PageAlloc Cache.

(** ** kmalloc and kfree *)

(** What [cache_alloc_page] asks of the page allocator. *)
#[global] Instance mm_alloc : PageAlloc mm :=
  p ← alloc_page ALLOC_CACHE;
  v ← page_to_virt p;
  mret (p, v).

Abbreviation kstate := (cstate mm).

Definition kmalloc (kalloc_cache : list Z) (size : Z) : M kstate Z :=
  if size <=? KALLOC_CACHE_MAX then
    m ← kalloc_cache_alloc kalloc_cache size;
    i ← in_source (virt_to_page m);
    p ← in_source (page_at i);
    BUG_ON (negb (has (flags p) PAGE_FLAG_CACHE));;
    mret m
  else
    let num_pages := DIV_UP size PAGE_SIZE in
    i ← in_source (alloc_pages num_pages ALLOC_COMPOUND);
    in_source (page_to_virt i).

Definition kfree (m : Z) : M kstate unit :=
  if m =? 0 then mret tt
  else
    first ← in_source (virt_to_page m);
    p ← in_source (page_at first);
    if has (flags p) PAGE_FLAG_CACHE then kalloc_cache_free m
    else
      BUG_ON (compound_num p =? 0);;
      in_source (free_pages first (compound_num p)).

(** ** The page allocator as a page source *)

(** [v] is the address of a page taken for a cache and not given back. *)
Definition cache_backed (b : mm) (E : gset (Z * Z)) (v : Z) : Prop :=
  exists p, (p, 1) ∈ E /\ addr (pages b p) = v /\ flags (pages b p) = cache_flag ALLOC_CACHE.

(** [p] starts a run of [n] pages that [kmalloc] gave out. *)
Definition large (b : mm) (p n : Z) : Prop :=
  flags (pages b p) = cache_flag ALLOC_COMPOUND /\ compound_num (pages b p) = n.

(** The outstanding extents [E] hold the caches' pages [A] and the large blocks [X]. *)
Definition mm_inv (X : gset (Z * Z)) (b : mm) (A : gset Z) : Prop :=
  exists E, ok b E /\ X ⊆ E /\ (forall p n, (p, n) ∈ X -> large b p n) /\ forall v, v ∈ A -> cache_backed b E v.

Definition mm_room (n : nat) (b : mm) : Prop := kernel_next_page (kmap b) + Z.of_nat n <= 2 ^ 18.

Definition mm_static (b : mm) (a : Z) : Prop := 0 <= a < window (kernel_next_page (kmap b)) 0.

(** A used page below the window's end keeps its record when other pages are taken. *)
Lemma alloc_keeps b E n fl p b' q m :
  ok b E -> (q, m) ∈ E -> alloc_post b E n fl p b' -> eq_but_order (pages b q) (pages b' q).
Proof.
  intros (_ & _ & _ & own & fls & _ & Hext) Hq Hpost.
  destruct (Hext q m Hq) as (Hm & Hqi & _ & _ & Hu). destruct (Hu q ltac:(lia)) as (Hused & _).
  apply (ap_others _ _ _ _ _ _ Hpost q Hqi). intros Hin.
  pose proof (ap_was_free _ _ _ _ _ _ Hpost q Hin) as Hz. unfold is_free_at in Hz. by rewrite Hz in Hused.
Qed.

Lemma mm_inv_alloc (X : gset (Z * Z)) (b : mm) (A : gset Z) (E : gset (Z * Z)) n fl p b' :
  ok b E -> X ⊆ E -> (forall p n, (p, n) ∈ X -> large b p n) -> (forall v, v ∈ A -> cache_backed b E v) ->
  alloc_post b E n fl p b' ->
  (forall p n, (p, n) ∈ X -> large b' p n) /\ (forall v, v ∈ A -> cache_backed b' ({[(p, n)]} ∪ E) v).
Proof.
  intros Hok HX Hl HA Hpost. split.
  - intros q m Hq. pose proof (alloc_keeps b E n fl p b' q m Hok (HX _ Hq) Hpost) as (_ & E2 & E3).
    destruct (Hl q m Hq) as [H1 H2]. split; congruence.
  - intros v Hv. destruct (HA v Hv) as (q & Hq & Ha & Hf).
    pose proof (alloc_keeps b E n fl p b' q 1 Hok Hq Hpost) as (E1 & E2 & _).
    exists q. split; [set_solver|]. split; congruence.
Qed.

(** The page behind an address of a page in [A]. *)
Lemma cache_backed_window b E v :
  ok b E -> cache_backed b E v -> exists p k, inside p /\ (p, 1) ∈ E /\ flags (pages b p) = cache_flag ALLOC_CACHE /\
    0 <= k < kernel_next_page (kmap b) /\ k < 2 ^ 18 /\ v = window k 0 /\ ent_get_phys (kptab (kmap b) k) = p * PAGE_SIZE.
Proof.
  intros (_ & _ & _ & own & fls & _ & Hext) (p & Hp & Ha & Hf). destruct (Hext p 1 Hp) as (_ & Hpi & _ & _ & Hu).
  destruct (Hu p ltac:(lia)) as (_ & _ & k & Hk & Hk2 & Ea & Ee). exists p, k.
  repeat (split; [done|]). split; congruence.
Qed.

Lemma mm_alloc_sat X n b A :
  mm_inv X b A -> mm_room (S n) b ->
  match mm_alloc b with
  | Done ((p, v), b') => v mod PAGE_SIZE = 0 /\ 0 < v /\ v + PAGE_SIZE <= 2 ^ 32 /\ (v ∉ A) /\
      mm_inv X b' ({[v]} ∪ A) /\ mm_room n b' /\ forall a, mm_static b a -> mm_static b' a /\ mem_to_cache_page a <> v
  | Panic => ~ satisfiable b 1
  | _ => False
  end.
Proof.
  intros (E & Hok & HX & Hl & HA) Hroom. unfold mm_room in *. unfold mm_alloc, alloc_page.
  destruct (satisfiable_dec b E 1 Hok) as [[Hlog Hrun]|Hno].
  2: { unfold mbind, M_bind. by rewrite (alloc_pages_oom_spec b E 1 ALLOC_CACHE Hok ltac:(lia) Hno). }
  pose proof (alloc_pages_spec b E 1 ALLOC_CACHE Hok ltac:(lia) ltac:(lia) Hlog Hrun) as Hr.
  apply runs_Done in Hr as (p & b' & Eq & Hpost). rewrite (bind_Done _ _ _ _ _ Eq).
  pose proof (ap_range _ _ _ _ _ _ Hpost) as Hpr. assert (Hp : inside p) by (unfold inside; lia).
  assert (Ev : page_to_virt p b' = Done (addr (pages b' p), b')).
  { apply runs_eq. unfold page_to_virt. mstep. apply page_at_spec; [done|]. by mstep. }
  rewrite (bind_Done _ _ _ _ _ Ev). unfold mret, M_ret.
  pose proof (ap_addr _ _ _ _ _ _ Hpost p ltac:(lia)) as Ha. rewrite Z.sub_diag, Z.add_0_r in Ha.
  pose proof (ap_next _ _ _ _ _ _ Hpost) as Hnext. set (K := kernel_next_page (kmap b)) in *.
  assert (HK : 0 <= K) by apply Hok. rewrite Ha.
  split; [|split; [unfold window, VIRTUAL_BASE, PAGE_SIZE; lia|split; [unfold window, VIRTUAL_BASE, PAGE_SIZE; lia|split; [|split; [|split; [lia|]]]]]].
  - unfold window, VIRTUAL_BASE, PAGE_SIZE. replace (0xC0000000 + K * 0x1000 + 0) with ((0xC0000 + K) * 0x1000) by lia.
    apply Z_mod_mult.
  - intros Hin. destruct (cache_backed_window b E _ Hok (HA _ Hin)) as (q & k & _ & _ & _ & Hk & _ & Ek & _).
    fold K in Hk. unfold window, PAGE_SIZE in Ek. lia.
  - destruct (mm_inv_alloc X b A E 1 ALLOC_CACHE p b' Hok HX Hl HA Hpost) as [Hl' HA'].
    exists ({[(p, 1)]} ∪ E). split; [apply (ap_ok _ _ _ _ _ _ Hpost)|]. split; [set_solver|]. split; [done|].
    intros v Hv. apply elem_of_union in Hv as [->%elem_of_singleton|Hv]; [|by apply HA'].
    exists p. split; [set_solver|]. split; [done|]. by rewrite (ap_flags _ _ _ _ _ _ Hpost p) by lia.
  - unfold mm_static. rewrite Hnext. fold K. intros a Ha'. unfold mem_to_cache_page, window, PAGE_SIZE in *.
    pose proof (Z.mul_div_le a 4096 ltac:(lia)). lia.
Qed.

Lemma mm_alloc_ok X n b A :
  mm_inv X b A -> mm_room (S n) b ->
  match mm_alloc b with
  | Done ((p, v), b') => v mod PAGE_SIZE = 0 /\ 0 < v /\ v + PAGE_SIZE <= 2 ^ 32 /\ (v ∉ A) /\
      mm_inv X b' ({[v]} ∪ A) /\ mm_room n b' /\ forall a, mm_static b a -> mm_static b' a /\ mem_to_cache_page a <> v
  | Panic => True
  | _ => False
  end.
Proof.
  intros Hinv Hroom. pose proof (mm_alloc_sat X n b A Hinv Hroom) as Hs.
  by destruct (mm_alloc b) as [[[p v] b']| | |].
Qed.

Lemma mm_room_S n b : mm_room (S n) b -> mm_room n b.
Proof. unfold mm_room. lia. Qed.

(** The page allocator, while the blocks [X] are held elsewhere. *)
Definition mm_source (X : gset (Z * Z)) : PageSource mm := {|
  ps_inv := mm_inv X;
  ps_room := mm_room;
  ps_static := mm_static;
  ps_room_S := mm_room_S;
  ps_alloc_ok := mm_alloc_ok X;
|}.

(** ** The kernel heap *)

Definition slabs (X : gset (Z * Z)) (s : kstate) (L : cnode -> list Z) (A : gset Z) : Prop :=
  slab_wf (H0 := mm_source X) s L A.

(** The heap: the slab allocator with the general caches [kc] over the page
    allocator, the large blocks [X] outstanding. *)
Definition kheap (X : gset (Z * Z)) (kc : list Z) (s : kstate) : Prop :=
  (exists L A, slabs X s L A) /\ Z.of_nat (length kc) = KALLOC_NUM_CACHES /\ kalloc_from s 0 kc.

Lemma frame_of_offset p off : 0 <= off < 2 ^ 12 -> phys_to_page (Z.lor (p * PAGE_SIZE) off) = p.
Proof.
  intros Hoff. unfold phys_to_page, phys_to_pageidx, PAGE_SIZE.
  replace (p * 0x1000) with (Z.shiftl p 12) by (rewrite Z.shiftl_mul_pow2; lia).
  rewrite lor_shiftl_add, Z.div_add_l, Z.div_small by lia. lia.
Qed.

(** From an object in use to the record of its page. *)
Lemma object_page X s L A c a :
  slabs X s L A -> in_use s c a -> exists i, 0 < a /\ in_source (virt_to_page a) s = Done (i, s) /\
    in_source (page_at i) s = Done (pages (source s) i, s) /\ flags (pages (source s) i) = cache_flag ALLOC_CACHE.
Proof.
  intros Hwf Hu. destruct (in_use_listed (H0 := mm_source X) s L A c a Hwf Hu) as (m & _ & Hin).
  destruct (sw_source _ _ _ Hwf) as (E & Hok & _ & _ & HA). pose proof (sw_taken _ _ _ Hwf _ _ Hin) as HvA.
  destruct (cache_backed_window _ E _ Hok (HA _ HvA)) as (p & k & Hp & _ & Hf & Hk & Hk2 & Ev & Ee).
  assert (Ea : a = window k (a mod 2 ^ 12)).
  { unfold mem_to_cache_page, window, PAGE_SIZE in Ev. unfold window, PAGE_SIZE. change (2 ^ 12) with 4096.
    pose proof (Z.div_mod a 4096 ltac:(lia)). lia. }
  pose proof (Z.mod_pos_bound a (2 ^ 12) ltac:(lia)) as Hoff.
  assert (Hs : set_source (source s) s = s) by by destruct s.
  exists p. split; [rewrite Ea; apply window_range; [lia|done]|]. split; [|split; [|done]].
  - apply runs_eq. apply runs_lift. unfold virt_to_page. mstep. apply runs_lift. rewrite Ea at 1.
    apply virt_to_phys_window; [lia|done|]. mstep. rewrite Ee, frame_of_offset by done.
    split; [done|]. by destruct s as [? ? ? []].
  - apply runs_eq. apply runs_lift. by apply page_at_spec.
Qed.

(** The index is that of the smallest size class that is big enough. *)
Lemma kalloc_cache_index_from_spec n : forall i size,
  0 < i -> (0 < n)%nat -> size <= 2 ^ (i + Z.of_nat n - 1) ->
  exists j, kalloc_cache_index_from n i size = Some (j - KALLOC_CACHE_SHIFT_MIN) /\ i <= j < i + Z.of_nat n /\
    size <= 2 ^ j /\ (j = i \/ 2 ^ j < 2 * size).
Proof.
  induction n as [|n IH]; intros i size Hi Hn Hs; [lia|]. cbn [kalloc_cache_index_from]. rewrite Z.shiftl_1_l.
  destruct (Z.leb_spec size (2 ^ i)) as [Hle|Hgt]; [exists i; split; [done|]; lia|].
  destruct n as [|n]; [replace (i + Z.of_nat 1 - 1) with i in Hs by lia; lia|].
  destruct (IH (i + 1) size ltac:(lia) ltac:(lia)) as (j & E & Hj & Hsz & Hmin).
  { by replace (i + 1 + Z.of_nat (S n) - 1) with (i + Z.of_nat (S (S n)) - 1) by lia. }
  exists j. split; [done|]. split; [lia|]. split; [done|]. right. destruct Hmin as [-> |?]; [|done].
  rewrite Z.pow_add_r by lia. lia.
Qed.

(** The cache a request of [size] bytes is served from. *)
Lemma kalloc_class kc (s : kstate) size :
  Z.of_nat (length kc) = KALLOC_NUM_CACHES -> kalloc_from s 0 kc -> 0 <= size <= KALLOC_CACHE_MAX ->
  exists c ch, c ∈ kc /\ ctab s !! c = Some ch /\ c_lock ch = false /\ size <= c_size ch /\
    (c_size ch = 8 \/ c_size ch < 2 * size) /\ kalloc_cache_alloc kc size s = cache_alloc c s.
Proof.
  intros Hlen Hkc Hs. destruct (kalloc_cache_index_from_spec 9 3 size ltac:(lia) ltac:(lia)) as (j & E & Hj & Hsz & Hmin).
  { change (2 ^ (3 + Z.of_nat 9 - 1)) with KALLOC_CACHE_MAX. lia. }
  change KALLOC_NUM_CACHES with 9 in Hlen. change KALLOC_CACHE_SHIFT_MIN with 3 in E.
  destruct (lookup_lt_is_Some_2 kc (Z.to_nat (j - 3)) ltac:(lia)) as [c Hc].
  destruct (Hkc _ c Hc) as (ch & Hch & Hl & Hcs). change KALLOC_CACHE_SHIFT_MIN with 3 in Hcs.
  replace (Z.of_nat (Z.to_nat (j - 3)) + 0 + 3) with j in Hcs by lia.
  exists c, ch. split; [by eapply list_elem_of_lookup_2|]. rewrite Hcs. repeat (split; [done|]).
  split; [destruct Hmin as [-> |?]; [by left|by right]|].
  unfold kalloc_cache_alloc.
  rewrite (bind_Done _ _ s tt s) by (unfold BUG_ON; by destruct (Z.gtb_spec size KALLOC_CACHE_MAX); [lia|]).
  rewrite (bind_Done _ _ s (j - 3) s).
  - apply bind_Done. unfold read. by rewrite Hc.
  - unfold kalloc_cache_index. change (Z.to_nat KALLOC_NUM_CACHES) with 9%nat. change KALLOC_CACHE_SHIFT_MIN with 3. by rewrite E.
Qed.

Lemma kmalloc_small_spec X kc s size :
  kheap X kc s -> 0 <= size <= KALLOC_CACHE_MAX -> mm_room 1 (source s) ->
  match kmalloc kc size s with
  | Done (a, s') => kheap X kc s' /\ exists c k, c ∈ kc /\ ctab s !! c = Some k /\ size <= c_size k /\
      (c_size k = 8 \/ c_size k < 2 * size) /\ ~ in_use s c a /\
      forall c' b, in_use s' c' b <-> in_use s c' b \/ (c', b) = (c, a)
  | Panic => ~ satisfiable (source s) 1
  | _ => False
  end.
Proof.
  intros ((L & A & Hwf) & Hlen & Hkc) Hs Hroom.
  destruct (kalloc_class kc s size Hlen Hkc Hs) as (c & k & Hin & Hc & Hl & Hsz & Hmin & Eq).
  unfold kmalloc. destruct (Z.leb_spec size KALLOC_CACHE_MAX); [|lia].
  pose proof (cache_alloc_spec (H0 := mm_source X) s L A c k 0 Hwf Hc Hl Hroom) as Ha.
  unfold mbind at 1, M_bind at 1. rewrite Eq. destruct (cache_alloc c s) as [[a s1]| | |]; [| |done..].
  - destruct Ha as (L1 & A1 & Hwf1 & Ht1 & Hn & Hu1 & _).
    destruct (object_page X s1 L1 A1 c a Hwf1 ltac:(apply Hu1; by right)) as (i & _ & E1 & E2 & Hf).
    rewrite (bind_Done _ _ _ _ _ E1), (bind_Done _ _ _ _ _ E2), Hf.
    change (negb (has (cache_flag ALLOC_CACHE) PAGE_FLAG_CACHE)) with false.
    rewrite (bind_Done _ _ s1 tt s1) by done. unfold mret, M_ret.
    split; [|exists c, k; done]. split; [eauto|]. split; [done|]. intros j c' Hj. rewrite Ht1. by apply Hkc.
  - destruct Ha as (Hp & _). pose proof (mm_alloc_sat X 0 (source s) A (sw_source _ _ _ Hwf) Hroom) as Hsat.
    change (@ps_alloc mm mm_alloc) with mm_alloc in Hp. by rewrite Hp in Hsat.
Qed.

(** C8: small [kmalloc]s come from the right cache.  On a well-formed heap, while
    the kernel's window of 2^18 page mappings has room for one more page (without it a new slab
    faults: [Mmu.map_pages_exhausted]), a request of up to 2048 bytes never faults, spins or trips a bug check (that the
    memory's page is flagged as a cache page included): it returns an object that
    was not in use, of a general cache whose objects are at least as big as asked
    and less than twice as big (or 8 bytes), makes exactly that object in use and
    keeps the heap well formed; or no page was free. *)
Theorem kmalloc_small_correct X kc s size :
  kheap X kc s -> 0 <= size <= KALLOC_CACHE_MAX -> mm_room 1 (source s) ->
  match kmalloc kc size s with
  | Done (a, s') => kheap X kc s' /\ exists c k, c ∈ kc /\ ctab s !! c = Some k /\ size <= c_size k /\
      (c_size k = 8 \/ c_size k < 2 * size) /\ ~ in_use s c a /\
      forall c' b, in_use s' c' b <-> in_use s c' b \/ (c', b) = (c, a)
  | Panic => ~ satisfiable (source s) 1
  | _ => False
  end.
Proof. apply kmalloc_small_spec. Qed.

(** Only the page allocator changes. *)
Lemma kheap_source X X' kc s L A b' :
  kheap X kc s -> slabs X s L A -> mm_inv X' b' A -> kheap X' kc (set_source b' s).
Proof.
  intros (_ & Hlen & Hkc) Hwf Hinv. split; [|done]. exists L, A.
  destruct Hwf as [W1 W2 W3 W4 W5 W6 W7 W8 W9]. by split.
Qed.

Lemma in_use_source (s : kstate) b' c a : in_use (set_source b' s) c a <-> in_use s c a.
Proof. done. Qed.

Lemma div_up_pages size : 0 < size < 2 ^ 32 ->
  DIV_UP size PAGE_SIZE = (size - 1) / PAGE_SIZE + 1 /\ 0 < DIV_UP size PAGE_SIZE <= 2 ^ 20 /\
  size <= DIV_UP size PAGE_SIZE * PAGE_SIZE < size + PAGE_SIZE.
Proof.
  intros Hs. unfold DIV_UP, PAGE_SIZE. rewrite (uwrap_small 32 size) by lia.
  destruct (Z.eqb_spec size 0); [lia|]. change (u32 0x1000) with 4096.
  pose proof (Z.div_mod (size - 1) 4096 ltac:(lia)). pose proof (Z.mod_pos_bound (size - 1) 4096 ltac:(lia)).
  rewrite uwrap_small by lia. lia.
Qed.

(** Large [kmalloc]s are whole pages.  On a well-formed heap a request
    of more than 2048 bytes succeeds exactly when an aligned run of
    [2 ^ ceil(log2 pages)] pages is free, where [pages] is the size rounded up to
    pages.  It then returns the address of a run of that many pages which were free,
    mapped one after the other, records their number for [kfree], changes no object
    of a cache and keeps the heap well formed with the new block outstanding; else it
    stops with the out-of-memory panic. *)
Theorem kmalloc_large_correct X kc s size :
  kheap X kc s -> KALLOC_CACHE_MAX < size < 2 ^ 32 ->
  kernel_next_page (kmap (source s)) + DIV_UP size PAGE_SIZE <= 2 ^ 18 ->
  let n := DIV_UP size PAGE_SIZE in
  size <= n * PAGE_SIZE < size + PAGE_SIZE /\
  (satisfiable (source s) n -> runs (kmalloc kc size) s (fun a s' => exists p,
    kheap ({[(p, n)]} ∪ X) kc s' /\ ((p, n) ∉ X) /\
    (forall i, p <= i < p + n -> is_free_at (source s) i /\ addr (pages (source s') i) = a + (i - p) * PAGE_SIZE) /\
    forall c b, in_use s' c b <-> in_use s c b)) /\
  (~ satisfiable (source s) n -> kmalloc kc size s = Panic).
Proof.
  intros Hk Hs Hwin n. change KALLOC_CACHE_MAX with 2048 in Hs.
  destruct (div_up_pages size ltac:(lia)) as (_ & Hn & Hfit). fold n in Hn, Hfit, Hwin. split; [done|].
  pose proof Hk as ((L & A & Hwf) & _). destruct (sw_source _ _ _ Hwf) as (E & Hok & HX & Hl & HA).
  unfold kmalloc. change KALLOC_CACHE_MAX with 2048. destruct (Z.leb_spec size 2048); [lia|]. fold n. cbv zeta. split.
  - intros [Hlog Hrun]. mstep. apply runs_lift.
    eapply runs_mono; [apply (alloc_pages_spec (source s) E n ALLOC_COMPOUND); [done|lia|done|done|done]|].
    intros p b' Hpost. pose proof (ap_range _ _ _ _ _ _ Hpost) as Hpr. apply runs_lift. unfold page_to_virt.
    mstep. apply page_at_spec; [unfold inside; lia|]. mstep. exists p. cbn [source set_source].
    assert (Hnew : (p, n) ∉ X).
    { intros Hin. destruct (Hl p n Hin) as [Hf _].
      pose proof (ap_was_free _ _ _ _ _ _ Hpost p ltac:(lia)) as Hz. unfold is_free_at in Hz. by rewrite Hz in Hf. }
    split; [|split; [done|split]].
    + apply (kheap_source X _ kc s L A b' Hk Hwf).
      destruct (mm_inv_alloc X (source s) A E n ALLOC_COMPOUND p b' Hok HX Hl HA Hpost) as [Hl' HA'].
      exists ({[(p, n)]} ∪ E). split; [apply (ap_ok _ _ _ _ _ _ Hpost)|]. split; [set_solver|]. split; [|done].
      intros q m Hq. apply elem_of_union in Hq as [[= -> ->]%elem_of_singleton|Hq]; [|by apply Hl'].
      split; [by rewrite (ap_flags _ _ _ _ _ _ Hpost) by lia|by apply (ap_compound _ _ _ _ _ _ Hpost)].
    + intros i Hi. split; [by apply (ap_was_free _ _ _ _ _ _ Hpost)|].
      rewrite !(ap_addr _ _ _ _ _ _ Hpost) by lia. unfold window. lia.
    + intros c b. by rewrite !in_use_source.
  - intros Hno. unfold mbind, M_bind, in_source, lift.
    unfold alloc_pages. by rewrite (alloc_pages_oom_spec (source s) E n ALLOC_COMPOUND Hok ltac:(lia) Hno).
Qed.

(** Giving a large block back. *)
Lemma mm_inv_free X b A E p n b' :
  ok b E -> X ⊆ E -> (forall p n, (p, n) ∈ X -> large b p n) -> (forall v, v ∈ A -> cache_backed b E v) ->
  (p, n) ∈ X -> free_post b E p n b' -> mm_inv (X ∖ {[(p, n)]}) b' A.
Proof.
  intros Hok HX Hl HA Hp Hpost.
  assert (Hkeep : forall q m, (q, m) ∈ E -> (q, m) <> (p, n) -> eq_but_order (pages b q) (pages b' q)).
  { intros q m Hq Hne. destruct Hok as (_ & _ & Hap & own & fls & _ & Hext).
    destruct (Hext q m Hq) as (Hm & Hqi & _). destruct (Hext p n (HX _ Hp)) as (Hn & _).
    apply (fp_others _ _ _ _ _ Hpost q Hqi). destruct (Hap (q, m) (p, n) Hq (HX _ Hp) Hne); cbn in *; lia. }
  exists (E ∖ {[(p, n)]}). split; [apply (fp_ok _ _ _ _ _ Hpost)|]. split; [set_solver|]. split.
  - intros q m Hq. apply elem_of_difference in Hq as [Hq Hne%not_elem_of_singleton].
    destruct (Hkeep q m (HX _ Hq) Hne) as (_ & E2 & E3), (Hl q m Hq) as [H1 H2]. split; congruence.
  - intros v Hv. destruct (HA v Hv) as (q & Hq & Ha & Hf).
    assert (Hne : (q, 1) <> (p, n)) by (intros [= -> <-]; destruct (Hl _ _ Hp) as [Hf' _]; by rewrite Hf' in Hf).
    destruct (Hkeep q 1 Hq Hne) as (E1 & E2 & _). exists q. split; [set_solver|]. split; congruence.
Qed.

(** C9: [kfree] undoes [kmalloc].  On a well-formed heap, [kfree(NULL)] does
    nothing; [kfree] of an object in use finds its cache from the address alone and
    frees exactly that object; [kfree] of a large block frees exactly its pages, as
    many as the block has, and no object.  It never faults, spins or trips a bug
    check, and the heap stays well formed. *)
Theorem kfree_correct X kc s a :
  kheap X kc s ->
  (a = 0 -> kfree a s = Done (tt, s)) /\
  (forall c k, ctab s !! c = Some k -> c_lock k = false -> in_use s c a ->
    runs (kfree a) s (fun _ s' => kheap X kc s' /\ source s' = source s /\
      forall c' b, in_use s' c' b <-> in_use s c' b /\ (c', b) <> (c, a))) /\
  (forall p n, (p, n) ∈ X -> addr (pages (source s) p) = a ->
    runs (kfree a) s (fun _ s' => kheap (X ∖ {[(p, n)]}) kc s' /\
      (forall i, p <= i < p + n -> is_free_at (source s') i) /\
      forall c b, in_use s' c b <-> in_use s c b)).
Proof.
  intros Hk. pose proof Hk as ((L & A & Hwf) & Hlen & Hkc). unfold kfree. split; [by intros ->|]. split.
  - intros c k Hc Hl Hu. destruct (object_page X s L A c a Hwf Hu) as (i & Ha & E1 & E2 & Hf).
    destruct (Z.eqb_spec a 0); [lia|]. mstep. unfold runs at 1. rewrite E1. mstep. unfold runs at 1. rewrite E2, Hf.
    change (has (cache_flag ALLOC_CACHE) PAGE_FLAG_CACHE) with true. cbv iota.
    unfold kalloc_cache_free. pose proof Hu as (k' & v & p & l & j & Hc' & Hp & Hpw & Hj & _ & Ea).
    pose proof (sw_cache _ _ _ Hwf c k' Hc') as Hck. destruct (pw_addr _ _ _ _ _ Hpw) as (Hva & Hv0 & _).
    destruct (obj_page k' v j 0 Hck Hva ltac:(lia) Hj ltac:(destruct Hck; lia)) as [Ev _].
    rewrite Z.add_0_r, <- Ea in Ev. mstep. eapply runs_read; [rewrite Ev; exact Hp|].
    rewrite (pw_cache _ _ _ _ _ Hpw).
    eapply runs_mono; [by apply (cache_free_spec (H0 := mm_source X) s L A c k a)|].
    intros [] s' ((L' & Hwf') & Ht & Hsrc & Hu'). split; [|done]. split; [by exists L', A|]. split; [done|].
    intros x c' Hx. rewrite Ht. by apply Hkc.
  - intros p n Hp Ea. destruct (sw_source _ _ _ Hwf) as (E & Hok & HX & Hl & HA). pose proof (Hl p n Hp) as [Hf Hcn].
    destruct Hok as (H1 & H2 & H3 & own & fls & H4 & Hext) eqn:HokE. clear HokE.
    destruct (Hext p n (HX _ Hp)) as (Hn & Hpi & Hfit & _ & Hu). destruct (Hu p ltac:(lia)) as (_ & _ & w & Hw & Hw2 & Ew & Ee).
    rewrite Ea in Ew. assert (0 < a) by (rewrite Ew; apply window_range; lia).
    destruct (Z.eqb_spec a 0); [lia|]. mstep. apply runs_lift. unfold virt_to_page. mstep. apply runs_lift.
    rewrite Ew at 1. apply virt_to_phys_window; [lia|lia|]. mstep. rewrite Ee, frame_of_offset by lia.
    assert (Hs : set_source (set_kmap (kmap (source s)) (source s)) s = s) by by destruct s as [? ? ? []].
    rewrite Hs. mstep. apply runs_lift. apply page_at_spec; [done|]. rewrite Hf, Hcn.
    assert (Hs' : set_source (source s) s = s) by by destruct s. rewrite Hs'.
    change (has (cache_flag ALLOC_COMPOUND) PAGE_FLAG_CACHE) with false. cbv iota. mstep. mstep; [by apply Z.eqb_neq; lia|].
    apply runs_lift. eapply runs_mono; [apply (free_pages_spec (source s) E p n Hok (HX _ Hp))|].
    { unfold inside, NPAGES, NUM_ENTRIES in *. lia. }
    intros [] b' Hpost. split; [|split].
    + apply (kheap_source X _ kc s L A b' Hk Hwf). by apply (mm_inv_free X (source s) A E p n).
    + intros i Hi. by apply (fp_free _ _ _ _ _ Hpost).
    + intros c b. by rewrite in_use_source.
Qed.

(** ** A small heap: the caches on the machine with four pages *)

Definition meta0 : Z := 0x1000.
Definition boot4 : kstate := boot_caches meta0 pool4.
Definition heap4 : kstate := after (cache_init meta0) boot4.
Definition kc4 : list Z := (fun i => 0xC000011C + 60 * i) <$> [0; 1; 2; 3; 4; 5; 6; 7; 8].

Lemma cache_init4 : cache_init meta0 boot4 = Done (kc4, heap4).
Proof. vm_compute. reflexivity. Qed.

Lemma pool4_source : mm_inv ∅ pool4 ∅ /\ mm_static pool4 meta0 /\ mm_room 9 pool4.
Proof.
  destruct pool4_ok as [Hok Hkm]. split.
  { exists ∅. split; [exact Hok|]. split; [apply empty_subseteq|].
    split; [intros p n Hp|intros v Hp]; exfalso; by apply elem_of_empty in Hp. }
  unfold mm_static, mm_room. rewrite Hkm. cbn [kmap no_memory kernel_next_page].
  unfold window, VIRTUAL_BASE, PAGE_SIZE, meta0. lia.
Qed.

Lemma heap4_ok : (exists L A, slabs ∅ heap4 L A /\ roots (H0 := mm_source ∅) heap4 L meta0) /\ kheap ∅ kc4 heap4.
Proof.
  destruct pool4_source as (H1 & H2 & H3).
  pose proof (cache_init_spec (H0 := mm_source ∅) meta0 pool4 ∅ H1 H2 H3) as Hc. fold boot4 in Hc.
  rewrite cache_init4 in Hc. destruct Hc as ((L & A & Hwf & Hr) & Hlen & Hk & _).
  split; [by exists L, A|]. split; [by exists L, A|done].
Qed.

Lemma room4 : mm_room 8 (source heap4).
Proof. unfold mm_room. assert (kernel_next_page (kmap (source heap4)) = 1) as -> by (vm_compute; reflexivity). lia. Qed.

Lemma cache_init_correct_witness :
  cache_init meta0 boot4 = Done (kc4, heap4) /\ Z.of_nat (length kc4) = KALLOC_NUM_CACHES /\
  forall a, in_use heap4 meta0 a <-> a ∈ kc4.
Proof.
  split; [exact cache_init4|]. destruct pool4_source as (H1 & H2 & H3).
  pose proof (cache_init_correct (H0 := mm_source ∅) meta0 pool4 ∅ H1 H2 H3) as Hc. fold boot4 in Hc.
  rewrite cache_init4 in Hc. exact (conj (proj1 (proj2 Hc)) (proj2 (proj2 (proj2 Hc)))).
Defined.

(** The cache for 128 bytes, without a page so far. *)
Definition c128 : Z := 0xC000020C.
Definition used4 : kstate := after (kmalloc kc4 100) heap4.
Definition obj4 : Z := 0xC0001098.

Lemma c128_at : ctab heap4 !! c128 = Some (new_cache 128).
Proof. vm_compute. reflexivity. Qed.

Lemma kmalloc4 : kmalloc kc4 100 heap4 = Done (obj4, used4).
Proof. vm_compute. reflexivity. Qed.

Lemma cache_alloc4 : cache_alloc c128 heap4 = Done (obj4, used4).
Proof. vm_compute. reflexivity. Qed.

Lemma used4_ok : kheap ∅ kc4 used4 /\ ctab used4 !! c128 = Some (new_cache 128) /\
  in_use used4 c128 obj4 /\ in_use used4 meta0 c128 /\ ctab used4 !! meta0 = Some meta_cache.
Proof.
  destruct heap4_ok as [(L & A & Hwf & Hr) (_ & Hlen & Hkc)]. pose proof room4 as Hroom.
  pose proof (cache_alloc_spec (H0 := mm_source ∅) heap4 L A c128 _ 7 Hwf c128_at eq_refl Hroom) as Hm.
  rewrite cache_alloc4 in Hm. destruct Hm as (L' & A' & Hwf' & Ht & _ & Hu & _).
  split; [split; [by exists L', A'|split; [exact Hlen|]]|].
  { intros i c Hc. rewrite Ht. by apply Hkc. }
  destruct Hr as (Hmeta & _ & Hroot). rewrite Ht. split; [exact c128_at|]. split; [apply Hu; right; reflexivity|].
  split; [|exact Hmeta]. apply Hu. left. destruct (Hroot c128) as [E|?]; [by eexists; exact c128_at| |assumption].
  exfalso. discriminate E.
Qed.

Lemma cache_alloc_correct_witness :
  match cache_alloc c128 heap4 with
  | Done (a, s') => a = obj4 /\ (exists L' A', slabs ∅ s' L' A') /\ ~ in_use heap4 c128 a /\ in_use s' c128 a
  | _ => False
  end.
Proof.
  destruct heap4_ok as [(L & A & Hwf & _) _].
  assert (Hroom : mm_room 1 (source heap4)) by (pose proof room4; unfold mm_room in *; lia).
  pose proof (cache_alloc_correct (H0 := mm_source ∅) heap4 L A c128 _ Hwf c128_at eq_refl Hroom) as Hc.
  assert (exists s', cache_alloc c128 heap4 = Done (obj4, s')) as [s' E] by (vm_compute; eexists; reflexivity).
  rewrite E in *. destruct Hc as (Hwf' & _ & Hn & Hu & _). split; [reflexivity|]. split; [exact Hwf'|].
  split; [exact Hn|]. apply Hu. right. reflexivity.
Defined.

Lemma cache_free_correct_witness :
  runs (cache_free c128 obj4) used4 (fun _ s' => ~ in_use s' c128 obj4 /\ in_use s' meta0 c128).
Proof.
  destruct used4_ok as (((L & A & Hwf) & _) & Hc & Hu & Hm & _).
  eapply runs_mono; [apply (cache_free_correct (H0 := mm_source ∅) used4 L A c128 _ obj4 Hwf Hc eq_refl Hu)|].
  intros [] s' (_ & _ & _ & Hu'). split.
  - intros Hin. apply Hu' in Hin as [_ Hne]. by apply Hne.
  - apply Hu'. split; [exact Hm|]. discriminate.
Defined.

Lemma kmalloc_small_correct_witness :
  kmalloc kc4 100 heap4 = Done (obj4, used4) /\ kheap ∅ kc4 used4.
Proof.
  split; [exact kmalloc4|]. destruct heap4_ok as [_ Hk].
  assert (Hroom : mm_room 1 (source heap4)) by (pose proof room4; unfold mm_room in *; lia).
  pose proof (kmalloc_small_correct ∅ kc4 heap4 100 Hk ltac:(change KALLOC_CACHE_MAX with 2048; lia) Hroom) as Hm.
  rewrite kmalloc4 in Hm. exact (proj1 Hm).
Defined.

(** Two more pages, for 5000 bytes. *)
Lemma used4_satisfiable : satisfiable (source used4) 2.
Proof.
  split; [vm_compute; discriminate|]. exists 18. split; [exists 9; reflexivity|]. split; [lia|].
  split; [vm_compute; discriminate|]. change (2 ^ Z.log2_up 2) with 2. intros i Hi.
  assert (i = 18 \/ i = 19) as Hc by lia. destruct Hc as [-> | ->]; vm_compute; reflexivity.
Qed.

Lemma used4_window : kernel_next_page (kmap (source used4)) + DIV_UP 5000 PAGE_SIZE <= 2 ^ 18.
Proof.
  assert (kernel_next_page (kmap (source used4)) = 2) as -> by (vm_compute; reflexivity).
  change (DIV_UP 5000 PAGE_SIZE) with 2. lia.
Qed.

Lemma kmalloc_large_correct_witness :
  runs (kmalloc kc4 5000) used4 (fun a s' => exists p, kheap ({[(p, 2)]} ∪ ∅) kc4 s' /\ in_use s' c128 obj4).
Proof.
  destruct used4_ok as (Hk & _ & Hu & _).
  pose proof (kmalloc_large_correct ∅ kc4 used4 5000 Hk ltac:(change KALLOC_CACHE_MAX with 2048; lia) used4_window) as H.
  eapply runs_mono; [exact (proj1 (proj2 H) used4_satisfiable)|].
  intros a s' (p & Hk' & _ & _ & Hu'). exists p. split; [exact Hk'|]. apply Hu'. exact Hu.
Defined.

Lemma kfree_correct_witness :
  kfree 0 used4 = Done (tt, used4) /\
  runs (kfree obj4) used4 (fun _ s' => kheap ∅ kc4 s' /\ ~ in_use s' c128 obj4).
Proof.
  destruct used4_ok as (Hk & Hc & Hu & _). split; [exact (proj1 (kfree_correct ∅ kc4 used4 0 Hk) eq_refl)|].
  eapply runs_mono; [exact (proj1 (proj2 (kfree_correct ∅ kc4 used4 obj4 Hk)) c128 _ Hc eq_refl Hu)|].
  intros [] s' (Hk' & _ & Hu'). split; [exact Hk'|]. intros Hin. apply Hu' in Hin as [_ Hne]. by apply Hne.
Defined.
