(* ===== verification/UserMem.v ===== *)
(** * UserMem: the user part of kernel/src/arch/mmu.c

    Page directories and tables of user address spaces, in the kernel's memory ([vmem] of [Mm]) where the code keeps
    them: mapping and finding user pages, and the copy of an address space that a fork makes.  A directory is
    the kernel address of its page, [0] is the null table.  Use of kernel memory outside the mapping window is a [Fault].
    The processor's translation cache is not modelled. *)

From S2P Require Import Prelude Words CList CString Mmu Mm Buddy PageAlloc Cache Kmalloc.

(** ** Words in memory *)

Definition word_at (m : mem) (a : Z) : Z := of_le_bytes [m a; m (a + 1); m (a + 2); m (a + 3)].
Definition put_word (m : mem) (a w : Z) : mem := fun b => if (a <=? b) && (b <? a + 4) then u8 (w >>> (8 * (b - a))) else m b.

(** [n] bytes of kernel memory at [a] are behind the window. *)
Definition in_window (s : mm) (a n : Z) : bool := (VIRTUAL_BASE <=? a) && (a + n <=? VIRTUAL_BASE + kernel_next_page (kmap s) * PAGE_SIZE).

Definition rd_word (a : Z) : M mm Z := s ← get; if in_window s a 4 then mret (word_at (vmem s) a) else fault.
Definition wr_word (a w : Z) : M mm unit := s ← get; if in_window s a 4 then modify (fun s => set_vmem (put_word (vmem s) a w) s) else fault.

(** ** mmu.h: tables and directories in memory *)

Definition tabentry_get_flags (t idx : Z) : M mm Z := w ← rd_word (t + 4 * idx); mret (ent_get_flags w).
Definition tabentry_get_phys (t idx : Z) : M mm Z := w ← rd_word (t + 4 * idx); mret (ent_get_phys w).
Definition tabentry_set (t idx phys fl : Z) : M mm unit := w ← rd_word (t + 4 * idx); wr_word (t + 4 * idx) (ent_set w phys fl).
Definition direntry_get_phys (d idx : Z) : M mm Z := w ← rd_word (d + 4 * idx); mret (ent_get_phys w).
Definition direntry_set (d idx phys fl : Z) : M mm unit := w ← rd_word (d + 4 * idx); wr_word (d + 4 * idx) (ent_set w phys fl).

Definition dir_get_tab (d idx : Z) : M mm Z := phys ← direntry_get_phys d idx; if phys =? 0 then mret 0 else phys_to_virt phys.
Definition dir_lookup_tab (dir a : Z) : M mm Z := dir_get_tab dir (addr_to_diridx a).
Definition tab_lookup_addr (t a : Z) : M mm Z := p ← tabentry_get_phys t (addr_to_tabidx a); mret (Z.lor p (vaddr_to_pageoff a)).
(** Also [resolve_virt]. *)
Definition dir_lookup_addr (dir a : Z) : M mm Z := tab ← dir_lookup_tab dir a; if tab =? 0 then mret 0 else tab_lookup_addr tab a.

(** ** mmu.c *)

Definition do_user_get_page (dir diridx tabidx : Z) : M mm Z := tab ← dir_get_tab dir diridx; if negb (tab =? 0) then tabentry_get_phys tab tabidx else mret 0.

Definition user_get_page (dir virt : Z) : M mm (option Z) :=
  phys ← do_user_get_page dir (addr_to_diridx virt) (addr_to_tabidx virt);
  mret (if negb (phys =? 0) then Some (phys_to_page phys) else None).

Definition USER_FLAGS : Z := Z.lor (Z.lor MMUFLAG_PRESENT MMUFLAG_WRITABLE) MMUFLAG_USER.

Definition do_user_map_page (dir diridx tabidx phys : Z) : M mm unit :=
  tab ← dir_get_tab dir diridx;
  tab ← (if tab =? 0 then
    table_page ← alloc_page ALLOC_ZERO;
    direntry_set dir diridx (page_to_phys table_page) USER_FLAGS;;
    page_to_virt table_page
  else mret tab);
  tabentry_set tab tabidx phys USER_FLAGS.

Definition user_map_page (dir virt phys : Z) : M mm unit := do_user_map_page dir (addr_to_diridx virt) (addr_to_tabidx virt) phys.

Definition user_map_pages (dir virt phys num : Z) : M mm unit :=
  forM 0 (Z.to_nat num) (fun i => let off := u32 (i * PAGE_SIZE) in user_map_page dir (u32 (virt + off)) (u32 (phys + off))).

(** The page is mapped for [current], whatever the task. *)
Definition user_alloc_page (task current virt fl : Z) : M mm Z :=
  page ← alloc_page fl;
  user_map_page current virt (page_to_phys page);;
  mret page.

Definition vm_memcpy (dst src : Z) (n : Z) : M mm unit :=
  s ← get; if in_window s dst n && in_window s src n then with_vmem (memcpy dst src (Z.to_nat n));; mret tt else fault.

Section Copy.
Context (kalloc_cache : list Z).

(** The table of entry [i], page by page. *)
Definition copy_entry (to tab i j : Z) : M kstate unit :=
  fl ← in_source (tabentry_get_flags tab j);
  if has fl MMUFLAG_PRESENT then
    dst ← kmalloc kalloc_cache PAGE_SIZE;
    phys ← in_source (tabentry_get_phys tab j);
    src ← in_source (phys_to_virt phys);
    in_source (vm_memcpy dst src PAGE_SIZE);;
    phys ← in_source (with_kmap (virt_to_phys dst));
    in_source (do_user_map_page to i j phys)
  else mret tt.

Definition copy_table (to from i : Z) : M kstate unit :=
  tab ← in_source (dir_get_tab from i);
  if negb (tab =? 0) then forM 0 (Z.to_nat NUM_ENTRIES) (copy_entry to tab i) else mret tt.

Definition copy_mem (to from : Z) : M kstate unit := forM 0 (Z.to_nat (NUM_ENTRIES - KERNEL_NUM_TABLES)) (copy_table to from).
End Copy.

(** ** Words *)

Lemma word_at_ext m m' a : (forall b, a <= b < a + 4 -> m' b = m b) -> word_at m' a = word_at m a.
Proof. intros H. unfold word_at. by rewrite !H by lia. Qed.

Lemma word_at_range m a : byte_mem m -> 0 <= word_at m a < 2 ^ 32.
Proof. intros Hm. apply (of_le_bytes_range [_; _; _; _]). repeat constructor; apply Hm. Qed.

Lemma put_word_byte_mem m a w : byte_mem m -> byte_mem (put_word m a w).
Proof. intros Hm b. unfold put_word. destruct (_ && _); [apply (uwrap_range 8); lia|apply Hm]. Qed.

Lemma word_at_put m a w : 0 <= w < 2 ^ 32 -> word_at (put_word m a w) a = w.
Proof.
  intros Hw. unfold word_at, put_word.
  rewrite !(proj2 (andb_true_iff _ _)) by (split; [apply Z.leb_le|apply Z.ltb_lt]; lia).
  replace (a - a) with 0 by lia. replace (a + 1 - a) with 1 by lia. replace (a + 2 - a) with 2 by lia. replace (a + 3 - a) with 3 by lia.
  change (of_le_bytes [u8 (w >>> 0); u8 (w >>> 8); u8 (w >>> 16); u8 (w >>> 24)] = w).
  replace [u8 (w >>> 0); u8 (w >>> 8); u8 (w >>> 16); u8 (w >>> 24)] with (le_bytes 4 w); [rewrite of_le_bytes_le_bytes; by apply Z.mod_small|].
  rewrite !le_bytes_S. cbn [le_bytes]. by rewrite !Z.shiftr_shiftr, Z.shiftr_0_r by lia.
Qed.

Lemma put_word_other m a w b : b < a \/ a + 4 <= b -> put_word m a w b = m b.
Proof. intros H. unfold put_word. destruct (Z.leb_spec a b), (Z.ltb_spec b (a + 4)); cbn; lia || done. Qed.

Lemma word_at_put_other m a w b : b + 4 <= a \/ a + 4 <= b -> word_at (put_word m a w) b = word_at m b.
Proof. intros H. apply word_at_ext. intros c Hc. apply put_word_other. lia. Qed.

(** ** Pages of the kernel's window *)

(** Page [f] belongs to an extent that is handed out. *)
Definition owned (E : gset (Z * Z)) (f : Z) : Prop := exists p n, (p, n) ∈ E /\ p <= f < p + n.

Definition page_addr (s : mm) (f : Z) : Z := addr (pages s f).

Lemma owned_page s E f : ok s E -> owned E f -> inside f /\ flags (pages s f) <> 0 /\ exists k, 0 <= k < kernel_next_page (kmap s) /\ k < 2 ^ 18 /\ page_addr s f = window k 0 /\ ent_get_phys (kptab (kmap s) k) = f * PAGE_SIZE.
Proof.
  intros (_ & _ & _ & own & fls & _ & Hext) (p & n & Hin & Hf). destruct (Hext p n Hin) as (Hn & Hp & Hpn & _ & Hu). destruct (Hu f Hf) as (H1 & _ & k & Hk & Hk2 & Ha & He).
  split; [unfold inside in *; lia|]. split; [intros Hz; by rewrite Hz in H1|]. by exists k.
Qed.

(** The bytes of a page. *)
Definition in_page (x a : Z) : Prop := x <= a < x + PAGE_SIZE.

Lemma owned_window s E f a n : ok s E -> owned E f -> page_addr s f <= a -> a + n <= page_addr s f + PAGE_SIZE -> in_window s a n = true.
Proof.
  intros Hok Hf H1 H2. destruct (owned_page s E f Hok Hf) as (_ & _ & k & Hk & _ & Ha & _). unfold in_window, window in *. apply andb_true_iff. split; apply Z.leb_le; rewrite Ha in *; unfold PAGE_SIZE in *; lia.
Qed.

(** Two pages that are handed out do not overlap. *)
Lemma owned_disjoint s E f g : ok s E -> owned E f -> owned E g -> f <> g -> page_addr s f + PAGE_SIZE <= page_addr s g \/ page_addr s g + PAGE_SIZE <= page_addr s f.
Proof.
  intros Hok Hf Hg Hne. destruct (owned_page s E f Hok Hf) as (_ & _ & k & _ & _ & Ha & Ea). destruct (owned_page s E g Hok Hg) as (_ & _ & l & _ & _ & Hb & Eb).
  assert (k <> l) by (intros ->; rewrite Ea in Eb; unfold PAGE_SIZE in *; lia). rewrite Ha, Hb. unfold window, PAGE_SIZE. lia.
Qed.

(** The pages of [F] are free, and page 0 is not. *)
Definition frees (s : mm) (F : gset Z) : Prop := (forall f, f ∈ F -> inside f /\ is_free_at s f) /\ ~ is_free_at s 0.

(** A step that only takes pages: [E] grows to [E'], and what was handed out stays where it was. *)
Record grows (s : mm) (E : gset (Z * Z)) (s' : mm) (E' : gset (Z * Z)) : Prop := Grows {
  gr_ok : ok s' E';
  gr_sub : E ⊆ E';
  gr_next : kernel_next_page (kmap s) <= kernel_next_page (kmap s');
  gr_addr : forall f, owned E f -> page_addr s' f = page_addr s f;
}.

Lemma owned_sub E E' f : E ⊆ E' -> owned E f -> owned E' f.
Proof. intros H (p & n & Hin & Hf). exists p, n. split; [by apply H|done]. Qed.

Lemma grows_refl s E : ok s E -> grows s E s E.
Proof. by constructor. Qed.

Lemma grows_trans s E s1 E1 s2 E2 : grows s E s1 E1 -> grows s1 E1 s2 E2 -> grows s E s2 E2.
Proof. intros [] []. constructor; [done|set_solver|lia|]. intros f Hf. rewrite gr_addr1 by (by eapply owned_sub). by apply gr_addr0. Qed.

(** Memory alone. *)
Lemma ok_vmem s E m : ok s E -> ok (set_vmem m s) E.
Proof. exact (fun H => H). Qed.

Lemma grows_vmem s E s' E' m : grows s E s' E' -> grows s E (set_vmem m s') E'.
Proof. intros []. by constructor. Qed.

(** What one page taken is. *)
Record took_page (s : mm) (E : gset (Z * Z)) (F : gset Z) (fl p : Z) (s' : mm) : Prop := TookPage {
  fp_pos : 0 < p < 2 ^ 20;
  fp_grows : grows s E s' ({[(p, 1)]} ∪ E);
  fp_new : ~ owned E p;
  fp_addr : page_addr s' p = window (kernel_next_page (kmap s)) 0;
  fp_next : kernel_next_page (kmap s') = kernel_next_page (kmap s) + 1;
  fp_frees : frees s' (F ∖ {[p]});
  fp_zero : has fl ALLOC_ZERO = true -> forall a, in_page (page_addr s' p) a -> vmem s' a = 0;
  fp_mem : forall a, a < page_addr s' p -> vmem s' a = vmem s a;
  fp_bytes : byte_mem (vmem s) -> byte_mem (vmem s');
}.

Lemma alloc_page_fresh s E F fl : ok s E -> frees s F -> F <> ∅ -> kernel_next_page (kmap s) + 1 <= 2 ^ 18 -> runs (alloc_page fl) s (took_page s E F fl).
Proof.
  intros Hok [HF H0] Hne Hwin. apply set_choose_L in Hne as [q Hq]. destruct (HF q Hq) as [Hqi Hqf].
  assert (Hrun : exists q, free_run (pages s) q (Z.log2_up 1)).
  { exists q. change (Z.log2_up 1) with 0. unfold inside in Hqi. split; [by exists q; rewrite Z.mul_1_r|]. split; [lia|]. split; [change (2 ^ 0) with 1; lia|]. intros i Hi. change (2 ^ 0) with 1 in Hi. by replace i with q by lia. }
  eapply runs_mono; [apply (alloc_pages_spec s E 1 fl Hok); [lia|lia|by vm_compute|exact Hrun]|]. intros p s' Hpost.
  pose proof (ap_range _ _ _ _ _ _ Hpost) as Hr. pose proof (ap_was_free _ _ _ _ _ _ Hpost p ltac:(lia)) as Hpf.
  pose proof (ap_addr _ _ _ _ _ _ Hpost p ltac:(lia)) as Ha. rewrite Z.sub_diag, Z.add_0_r in Ha. pose proof (ap_next _ _ _ _ _ _ Hpost) as Hn.
  assert (Hp0 : p <> 0) by (intros ->; by apply H0).
  assert (Hnew : ~ owned E p) by (intros Ho; destruct (owned_page s E p Hok Ho) as (_ & Hf & _); by apply Hf).
  assert (Hoth : forall f, inside f -> f <> p -> eq_but_order (pages s f) (pages s' f)) by (intros f Hf Hne; apply (ap_others _ _ _ _ _ _ Hpost); [done|lia]).
  assert (HNP : NPAGES = 2 ^ 20) by reflexivity.
  constructor.
  - lia.
  - constructor; [apply (ap_ok _ _ _ _ _ _ Hpost)|set_solver|lia|]. intros f Hf. destruct (owned_page s E f Hok Hf) as (Hfi & _). apply (Hoth f Hfi). by intros ->.
  - done.
  - exact Ha.
  - done.
  - split.
    + intros f [Hf Hfp]%elem_of_difference. destruct (HF f Hf) as [Hfi Hff]. split; [done|]. destruct (Hoth f Hfi) as (_ & E2 & _); [set_solver|]. unfold is_free_at in *. by rewrite E2.
    + intros Hz. destruct (Hoth 0) as (_ & E2 & _); [unfold inside; lia|done|]. apply H0. unfold is_free_at in *. by rewrite <- E2.
  - intros Hfl a Hin. apply (ap_zero _ _ _ _ _ _ Hpost Hfl). unfold in_page, page_addr in Hin. rewrite Ha in Hin. lia.
  - intros a Hlt. destruct (ap_mem _ _ _ _ _ _ Hpost a) as [->|[_ Hin]]; [done|]. unfold page_addr in Hlt. rewrite Ha in Hlt. lia.
  - intros Hb a. destruct (ap_mem _ _ _ _ _ _ Hpost a) as [->|[-> _]]; [apply Hb|lia].
Qed.

(** ** Address spaces *)

Definition USER_TABLES : Z := NUM_ENTRIES - KERNEL_NUM_TABLES.

Definition dent (s : mm) (dir i : Z) : Z := ent_get_phys (word_at (vmem s) (dir + 4 * i)).
Definition tent (s : mm) (t j : Z) : Z := word_at (vmem s) (page_addr s t + 4 * j).

(** The directory at [dir] holds the tables [T] (pages, by entry), and these map the frames [Mp] (by directory and table entry). *)
Record space (s : mm) (E : gset (Z * Z)) (dir : Z) (T : gmap Z Z) (Mp : gmap (Z * Z) Z) : Prop := Space {
  sp_dir : exists pd, owned E pd /\ page_addr s pd = dir /\ forall i t, T !! i = Some t -> t <> pd;
  sp_tab : forall i, 0 <= i < USER_TABLES -> match T !! i with Some t => dent s dir i = t * PAGE_SIZE /\ 0 < t /\ owned E t | None => dent s dir i = 0 end;
  sp_dom : forall i t, T !! i = Some t -> 0 <= i < USER_TABLES;
  sp_sep : forall i i' t, T !! i = Some t -> T !! i' = Some t -> i = i';
  sp_ent : forall i t j, T !! i = Some t -> 0 <= j < NUM_ENTRIES ->
    match Mp !! (i, j) with Some f => has (ent_get_flags (tent s t j)) MMUFLAG_PRESENT = true /\ ent_get_phys (tent s t j) = f * PAGE_SIZE | None => tent s t j = 0 end;
  sp_mdom : forall i j f, Mp !! (i, j) = Some f -> is_Some (T !! i) /\ 0 <= j < NUM_ENTRIES;
}.

Lemma sp_table s E dir T Mp i t : space s E dir T Mp -> T !! i = Some t -> dent s dir i = t * PAGE_SIZE /\ 0 < t /\ owned E t.
Proof. intros Hs Ht. pose proof (sp_tab _ _ _ _ _ Hs i (sp_dom _ _ _ _ _ Hs i t Ht)) as H. by rewrite Ht in H. Qed.

(** A directory's own words, and a table's, lie in its page. *)
Lemma entry_in_page x i b : 0 <= i < NUM_ENTRIES -> x + 4 * i <= b < x + 4 * i + 4 -> in_page x b.
Proof. unfold in_page, NUM_ENTRIES, PAGE_SIZE. lia. Qed.

Lemma space_frame s E dir T Mp s' E' : space s E dir T Mp -> grows s E s' E' -> (forall a, in_page dir a -> vmem s' a = vmem s a) ->
  (forall i t, T !! i = Some t -> forall a, in_page (page_addr s t) a -> vmem s' a = vmem s a) -> space s' E' dir T Mp.
Proof.
  intros Hs Hg Hdir Htab. assert (Ed : forall i, 0 <= i < NUM_ENTRIES -> dent s' dir i = dent s dir i).
  { intros i Hi. unfold dent. f_equal. apply word_at_ext. intros b Hb. by apply Hdir, (entry_in_page dir i). }
  assert (Et : forall i t j, T !! i = Some t -> 0 <= j < NUM_ENTRIES -> tent s' t j = tent s t j).
  { intros i t j Ht Hj. unfold tent. rewrite (gr_addr _ _ _ _ Hg) by (by eapply (sp_table s E dir T Mp)). apply word_at_ext. intros b Hb. by apply (Htab i t Ht), (entry_in_page _ j). }
  destruct Hs as [(pd & H1 & H2 & H3) Hst Hsd Hss Hse Hsm]. constructor; [|..|done].
  - exists pd. split; [by eapply owned_sub; [apply Hg|]|]. split; [by rewrite (gr_addr _ _ _ _ Hg)|done].
  - intros i Hi. specialize (Hst i Hi). rewrite Ed by (unfold USER_TABLES, NUM_ENTRIES, KERNEL_NUM_TABLES in *; lia). destruct (T !! i); [|done]. destruct Hst as (? & ? & ?). split_and!; [done|done|by eapply owned_sub; [apply Hg|]].
  - done.
  - done.
  - intros i t j Ht Hj. rewrite (Et i t j Ht Hj). by apply (Hse i t j).
Qed.

(** ** Reading and writing entries *)

Lemma rd_word_spec s a (Q : Z -> mm -> Prop) : in_window s a 4 = true -> Q (word_at (vmem s) a) s -> runs (rd_word a) s Q.
Proof. intros H HQ. unfold rd_word. mstep. mstep. rewrite H. by mstep. Qed.

Lemma wr_word_spec s a w (Q : unit -> mm -> Prop) : in_window s a 4 = true -> Q tt (set_vmem (put_word (vmem s) a w) s) -> runs (wr_word a w) s Q.
Proof. intros H HQ. unfold wr_word. mstep. mstep. rewrite H. by mstep. Qed.

Lemma dir_window s E dir T Mp i : ok s E -> space s E dir T Mp -> 0 <= i < NUM_ENTRIES -> in_window s (dir + 4 * i) 4 = true.
Proof. intros Hok Hs Hi. destruct (sp_dir _ _ _ _ _ Hs) as (pd & Ho & <- & _). apply (owned_window s E pd); unfold NUM_ENTRIES, PAGE_SIZE in *; lia || done. Qed.

Lemma page_window s E t j : ok s E -> owned E t -> 0 <= j < NUM_ENTRIES -> in_window s (page_addr s t + 4 * j) 4 = true.
Proof. intros Hok Ho Hj. apply (owned_window s E t); unfold NUM_ENTRIES, PAGE_SIZE in *; lia || done. Qed.

Lemma phys_of_page t : phys_to_page (t * PAGE_SIZE) = t.
Proof. unfold phys_to_page, phys_to_pageidx. apply Z.div_mul. done. Qed.

Lemma page_to_virt_spec s f (Q : Z -> mm -> Prop) : inside f -> Q (page_addr s f) s -> runs (page_to_virt f) s Q.
Proof. intros Hf HQ. unfold page_to_virt. mstep. apply page_at_spec; [done|]. by mstep. Qed.

Lemma phys_to_virt_spec s E f (Q : Z -> mm -> Prop) : ok s E -> owned E f -> Q (page_addr s f) s -> runs (phys_to_virt (f * PAGE_SIZE)) s Q.
Proof. intros Hok Hf HQ. unfold phys_to_virt. rewrite phys_of_page. apply page_to_virt_spec; [by apply (owned_page s E)|done]. Qed.

Lemma page_addr_pos s E f : ok s E -> owned E f -> 0 < page_addr s f.
Proof. intros Hok Hf. destruct (owned_page s E f Hok Hf) as (_ & _ & k & Hk & _ & -> & _). unfold window, VIRTUAL_BASE, PAGE_SIZE. lia. Qed.

Lemma dir_get_tab_spec s E dir T Mp i (Q : Z -> mm -> Prop) : ok s E -> space s E dir T Mp -> 0 <= i < USER_TABLES ->
  Q (match T !! i with Some t => page_addr s t | None => 0 end) s -> runs (dir_get_tab dir i) s Q.
Proof.
  intros Hok Hs Hi HQ. unfold dir_get_tab, direntry_get_phys. mstep. mstep. apply rd_word_spec; [apply (dir_window s E dir T Mp); [done|done|unfold USER_TABLES, NUM_ENTRIES, KERNEL_NUM_TABLES in *; lia]|]. mstep.
  change (ent_get_phys (word_at (vmem s) (dir + 4 * i))) with (dent s dir i). pose proof (sp_tab _ _ _ _ _ Hs i Hi) as Ht. destruct (T !! i) as [t|].
  - destruct Ht as (-> & Hpos & Ho). rewrite (proj2 (Z.eqb_neq _ 0)) by (unfold PAGE_SIZE; lia). by apply (phys_to_virt_spec s E).
  - rewrite Ht, Z.eqb_refl. by mstep.
Qed.

Lemma user_present phys w : 0 <= phys < 2 ^ 32 -> has (ent_get_flags (ent_set w phys USER_FLAGS)) MMUFLAG_PRESENT = true.
Proof. intros Hp. rewrite ent_get_flags_set by done. by vm_compute. Qed.

Lemma ent_set_range w phys fl : 0 <= phys < 2 ^ 32 -> 0 <= ent_set w phys fl < 2 ^ 32.
Proof.
  intros Hp. rewrite ent_set_split by done. pose proof (Z.mod_pos_bound fl (2 ^ 12) ltac:(lia)). pose proof (Z.div_lt_upper_bound phys (2 ^ 12) (2 ^ 20) ltac:(lia) ltac:(lia)). pose proof (Z.div_pos phys (2 ^ 12) ltac:(lia) ltac:(lia)). lia.
Qed.

(** Words of two pages that are handed out are apart. *)
Lemma words_apart s E f g i j : ok s E -> owned E f -> owned E g -> f <> g -> 0 <= i < NUM_ENTRIES -> 0 <= j < NUM_ENTRIES ->
  page_addr s f + 4 * i + 4 <= page_addr s g + 4 * j \/ page_addr s g + 4 * j + 4 <= page_addr s f + 4 * i.
Proof. intros Hok Hf Hg Hne Hi Hj. pose proof (owned_disjoint s E f g Hok Hf Hg Hne). unfold NUM_ENTRIES, PAGE_SIZE in *. lia. Qed.

(** Mapping a frame in a table that is there. *)
Lemma space_map s E dir T Mp i t j phys : ok s E -> space s E dir T Mp -> T !! i = Some t -> 0 <= j < NUM_ENTRIES -> 0 <= phys < 2 ^ 32 ->
  space (set_vmem (put_word (vmem s) (page_addr s t + 4 * j) (ent_set (tent s t j) phys USER_FLAGS)) s) E dir T (<[(i, j) := phys / PAGE_SIZE]> Mp).
Proof.
  intros Hok Hs Ht Hj Hp. pose proof (sp_table s E dir T Mp i t Hs Ht) as (_ & _ & Ho). pose proof Hs as [(pd & H1 & H2 & H3) Hst Hsd Hss Hse Hsm].
  assert (Ed : forall i', 0 <= i' < NUM_ENTRIES -> dent (set_vmem (put_word (vmem s) (page_addr s t + 4 * j) (ent_set (tent s t j) phys USER_FLAGS)) s) dir i' = dent s dir i').
  { intros i' Hi'. unfold dent. f_equal. apply word_at_put_other. rewrite <- H2. apply (words_apart s E pd t i' j); try done. intros ->. by apply (H3 i t Ht). }
  constructor.
  - by exists pd.
  - intros i' Hi'. rewrite Ed by (unfold USER_TABLES, NUM_ENTRIES, KERNEL_NUM_TABLES in *; lia). by apply Hst.
  - done.
  - done.
  - intros i' t' j' Ht' Hj'. destruct (decide ((i, j) = (i', j'))) as [[= <- <-]|Hne].
    + rewrite lookup_insert_eq. rewrite Ht in Ht'. injection Ht' as <-. unfold tent. change (page_addr (set_vmem _ s) t) with (page_addr s t). cbn [vmem set_vmem]. rewrite word_at_put by by apply ent_set_range.
      rewrite ent_get_phys_set by done. split; [by apply user_present|done].
    + rewrite lookup_insert_ne by done. assert (E2 : tent (set_vmem (put_word (vmem s) (page_addr s t + 4 * j) (ent_set (tent s t j) phys USER_FLAGS)) s) t' j' = tent s t' j'); [|rewrite E2; by apply Hse].
      unfold tent. cbn [vmem set_vmem]. change (page_addr (set_vmem ?m s) t') with (page_addr s t'). apply word_at_put_other. destruct (decide (t = t')) as [<-|Htt].
      * assert (j <> j') by (intros ->; apply Hne; f_equal; by apply (Hss i i' t)). unfold NUM_ENTRIES in *. lia.
      * apply (words_apart s E t' t); try done; [by apply (sp_table s E dir T Mp i')]. 
  - intros i' j' f. destruct (decide ((i, j) = (i', j'))) as [[= <- <-]|Hne]; [rewrite lookup_insert_eq; intros _; by rewrite Ht|rewrite lookup_insert_ne by done; apply Hsm].
Qed.

(** Entering a new, empty table. *)
Lemma space_table s E dir T Mp i p : ok s E -> space s E dir T Mp -> T !! i = None -> 0 <= i < USER_TABLES -> 0 < p < 2 ^ 20 -> owned E p -> (forall i t, T !! i = Some t -> t <> p) -> page_addr s p <> dir ->
  (forall a, in_page (page_addr s p) a -> vmem s a = 0) ->
  space (set_vmem (put_word (vmem s) (dir + 4 * i) (ent_set (word_at (vmem s) (dir + 4 * i)) (p * PAGE_SIZE) USER_FLAGS)) s) E dir (<[i := p]> T) Mp.
Proof.
  intros Hok Hs Hi Hir Hp Ho Hnew Hpd Hzero. pose proof Hs as [(pd & H1 & H2 & H3) Hst Hsd Hss Hse Hsm]. assert (Hi2 : 0 <= i < NUM_ENTRIES) by (unfold USER_TABLES, NUM_ENTRIES, KERNEL_NUM_TABLES in *; lia).
  assert (Hphys : 0 <= p * PAGE_SIZE < 2 ^ 32) by (unfold PAGE_SIZE; lia). assert (Hne : p <> pd) by (intros ->; done).
  set (s' := set_vmem _ s). assert (Et : forall t j, owned E t -> t <> pd -> 0 <= j < NUM_ENTRIES -> tent s' t j = tent s t j).
  { intros t j Hot Htp Hj. unfold tent, s'. cbn [vmem set_vmem]. change (page_addr (set_vmem ?m s) t) with (page_addr s t). apply word_at_put_other. rewrite <- H2. by apply (words_apart s E t pd). }
  constructor.
  - exists pd. split; [done|]. split; [done|]. intros i' t. destruct (decide (i = i')) as [<-|Hii]; [rewrite lookup_insert_eq; by intros [= <-]|rewrite lookup_insert_ne by done; apply H3].
  - intros i' Hi'. destruct (decide (i = i')) as [<-|Hii].
    + rewrite lookup_insert_eq. split; [|done || (split; [lia|done])]. unfold dent, s'. cbn [vmem set_vmem]. rewrite word_at_put by by apply ent_set_range. rewrite ent_get_phys_set by done. unfold PAGE_SIZE. change (2 ^ 12) with 0x1000. by rewrite Z.div_mul.
    + rewrite lookup_insert_ne by done. specialize (Hst i' Hi'). assert (E2 : dent s' dir i' = dent s dir i'); [|by rewrite E2].
      unfold dent, s'. cbn [vmem set_vmem]. f_equal. apply word_at_put_other. lia.
  - intros i' t. destruct (decide (i = i')) as [<-|Hii]; [done|rewrite lookup_insert_ne by done; apply Hsd].
  - intros i1 i2 t. destruct (decide (i = i1)) as [<-|Hi1], (decide (i = i2)) as [<-|Hi2']; rewrite ?lookup_insert_eq, ?lookup_insert_ne by done; [done|intros [= <-] H; by destruct (Hnew _ _ H)|intros H [= <-]; by destruct (Hnew _ _ H)|apply Hss].
  - intros i' t j. destruct (decide (i = i')) as [<-|Hii].
    + rewrite lookup_insert_eq. intros [= <-] Hj. rewrite Et by done. destruct (Mp !! (i, j)) as [f|] eqn:EM; [destruct (Hsm i j f EM) as [[t Ht] _]; by rewrite Hi in Ht|].
      unfold tent, word_at. rewrite !Hzero by (unfold in_page, NUM_ENTRIES, PAGE_SIZE in *; lia). done.
    + rewrite lookup_insert_ne by done. intros Ht Hj. rewrite Et; [by apply (Hse i')|by apply (sp_table s E dir T Mp i')|by apply (H3 i')|done].
  - intros i' j f Hf. destruct (Hsm i' j f Hf) as [Hi' Hj]. split; [|done]. destruct (decide (i = i')) as [<-|Hii]; [by rewrite lookup_insert_eq|by rewrite lookup_insert_ne by done].
Qed.

(** ** Mapping a page *)

Definition next_addr (s : mm) : Z := window (kernel_next_page (kmap s)) 0.
Definition tables_needed (T : gmap Z Z) (i : Z) : nat := match T !! i with Some _ => 0%nat | None => 1%nat end.

(** [n] pages can be taken. *)
Definition room (s : mm) (F : gset Z) (n : nat) : Prop := frees s F /\ (n <= size F)%nat /\ kernel_next_page (kmap s) + Z.of_nat n <= 2 ^ 18.

(** What mapping frame [f] at [(i, j)] does. *)
Definition maps (s : mm) (E : gset (Z * Z)) (F : gset Z) (dir : Z) (T : gmap Z Z) (Mp : gmap (Z * Z) Z) (i j f : Z) (s' : mm) : Prop :=
  exists E' T', grows s E s' E' /\ space s' E' dir T' (<[(i, j) := f]> Mp) /\ (forall n, room s F (tables_needed T i + n) -> exists F', room s' F' n) /\
    T ⊆ T' /\ (forall i' t, T' !! i' = Some t -> T !! i' = Some t \/ ~ owned E t /\ next_addr s <= page_addr s' t) /\ (byte_mem (vmem s) -> byte_mem (vmem s')) /\
    forall a, a < next_addr s -> ~ in_page dir a -> (forall t, T !! i = Some t -> ~ in_page (page_addr s t) a) -> vmem s' a = vmem s a.

Lemma room_fresh s E F fl p s' n : room s F (S n) -> took_page s E F fl p s' -> room s' (F ∖ {[p]}) n.
Proof.
  intros (Hf & Hn & Hw) Hp. split; [apply Hp|]. split; [|rewrite (fp_next _ _ _ _ _ _ Hp); lia].
  destruct (decide (p ∈ F)); [rewrite size_difference by set_solver; rewrite size_singleton; lia|]. replace (F ∖ {[p]}) with F by set_solver. lia.
Qed.

Lemma room_nonempty s F n : room s F (S n) -> frees s F /\ F <> ∅ /\ kernel_next_page (kmap s) + 1 <= 2 ^ 18.
Proof. intros (Hf & Hn & Hw). split; [done|]. split; [intros ->; rewrite size_empty in Hn; lia|lia]. Qed.

Lemma room_le s F n m : room s F n -> (m <= n)%nat -> room s F m.
Proof. intros (Hf & Hn & Hw) H. split; [done|]. lia. Qed.

Lemma next_after s E f : ok s E -> owned E f -> page_addr s f + PAGE_SIZE <= next_addr s.
Proof. intros Hok Hf. destruct (owned_page s E f Hok Hf) as (_ & _ & k & Hk & _ & -> & _). unfold next_addr, window, PAGE_SIZE. lia. Qed.

Lemma page_to_phys_small p : 0 <= p < 2 ^ 20 -> page_to_phys p = p * PAGE_SIZE.
Proof. intros Hp. unfold page_to_phys. apply uwrap_small. unfold PAGE_SIZE. lia. Qed.

(** Taking a page leaves what was handed out as it was. *)
Lemma fresh_keeps s E F fl p s1 f a : ok s E -> took_page s E F fl p s1 -> owned E f -> in_page (page_addr s f) a -> vmem s1 a = vmem s a.
Proof. intros Hok Hfp Hf Ha. apply (fp_mem _ _ _ _ _ _ Hfp). rewrite (fp_addr _ _ _ _ _ _ Hfp). pose proof (next_after s E f Hok Hf). unfold in_page, next_addr in *. lia. Qed.

Lemma space_fresh s E F fl p s1 dir T Mp : ok s E -> space s E dir T Mp -> took_page s E F fl p s1 -> space s1 ({[(p, 1)]} ∪ E) dir T Mp.
Proof.
  intros Hok Hs Hfp. apply (space_frame s E dir T Mp); [done|apply Hfp| |].
  - destruct (sp_dir _ _ _ _ _ Hs) as (pd & Hpd & <- & _). intros a. by apply (fresh_keeps s E F fl p).
  - intros i' t Ht' a. apply (fresh_keeps s E F fl p); [done|done|]. by apply (sp_table s E dir T Mp i').
Qed.

(** Setting an entry of a table that is there. *)
Lemma tabentry_set_spec s E F dir T Mp i t j phys : ok s E -> space s E dir T Mp -> T !! i = Some t -> 0 <= j < NUM_ENTRIES -> 0 <= phys < 2 ^ 32 ->
  runs (tabentry_set (page_addr s t) j phys USER_FLAGS) s (fun _ s' => s' = set_vmem (put_word (vmem s) (page_addr s t + 4 * j) (ent_set (tent s t j) phys USER_FLAGS)) s /\ maps s E F dir T Mp i j (phys / PAGE_SIZE) s').
Proof.
  intros Hok Hs Ht Hj Hp. pose proof (sp_table s E dir T Mp i t Hs Ht) as (_ & _ & Ho). pose proof (page_window s E t j Hok Ho Hj) as Hw.
  unfold tabentry_set. mstep. apply rd_word_spec; [done|]. apply wr_word_spec; [done|]. split; [done|].
  exists E, T. split; [by apply grows_vmem, grows_refl|]. split; [by apply space_map|]. unfold tables_needed. rewrite Ht. split; [intros n Hr; by exists F|]. split; [done|]. split; [by left|].
  split; [by apply put_word_byte_mem|]. intros a _ _ Hna. cbn [vmem set_vmem]. apply put_word_other.
  destruct (Z.lt_ge_cases a (page_addr s t + 4 * j)) as [|H1]; [by left|]. destruct (Z.le_gt_cases (page_addr s t + 4 * j + 4) a) as [|H2]; [by right|]. destruct (Hna t eq_refl). by apply (entry_in_page _ j).
Qed.

Lemma do_user_map_page_spec s E F dir T Mp i j phys : ok s E -> space s E dir T Mp -> room s F (tables_needed T i) -> 0 <= i < USER_TABLES -> 0 <= j < NUM_ENTRIES -> 0 <= phys < 2 ^ 32 ->
  runs (do_user_map_page dir i j phys) s (fun _ => maps s E F dir T Mp i j (phys / PAGE_SIZE)).
Proof.
  intros Hok Hs Hroom Hi Hj Hp. assert (Hi2 : 0 <= i < NUM_ENTRIES) by (unfold USER_TABLES, NUM_ENTRIES, KERNEL_NUM_TABLES in *; lia).
  unfold do_user_map_page. mstep. apply (dir_get_tab_spec s E dir T Mp); [done..|]. unfold tables_needed in Hroom. destruct (T !! i) as [t|] eqn:Ht.
  - rewrite (proj2 (Z.eqb_neq _ 0)) by (pose proof (page_addr_pos s E t Hok); pose proof (sp_table s E dir T Mp i t Hs Ht); naive_solver lia). mstep. mstep.
    eapply runs_mono; [by apply (tabentry_set_spec s E F dir T Mp i t)|]. by intros [] s' [_ H].
  - rewrite Z.eqb_refl. apply room_nonempty in Hroom as Hr. destruct Hr as (Hf & Hne & Hw). mstep. mstep. eapply runs_mono; [by apply (alloc_page_fresh s E F ALLOC_ZERO)|]. intros p s1 Hfp.
    pose proof (fp_grows _ _ _ _ _ _ Hfp) as Hg. pose proof (fp_pos _ _ _ _ _ _ Hfp) as Hpp. assert (Hop : owned ({[(p, 1)]} ∪ E) p) by (exists p, 1; split; [set_solver|lia]).
    pose proof (space_fresh s E F ALLOC_ZERO p s1 dir T Mp Hok Hs Hfp) as Hs1.
    destruct (sp_dir _ _ _ _ _ Hs) as (pd & Hpd & Epd & Hpt). mstep. rewrite page_to_phys_small by lia. unfold direntry_set. mstep.
    apply rd_word_spec; [by apply (dir_window s1 ({[(p, 1)]} ∪ E) dir T Mp); [apply Hg| |]|]. apply wr_word_spec; [by apply (dir_window s1 ({[(p, 1)]} ∪ E) dir T Mp); [apply Hg| |]|].
    apply page_to_virt_spec; [unfold inside, NPAGES, NUM_ENTRIES; lia|].
    set (s2 := set_vmem _ s1). assert (Hs2 : space s2 ({[(p, 1)]} ∪ E) dir (<[i := p]> T) Mp).
    { apply space_table; try done; [apply Hg|..].
      - intros i' t Ht' ->. apply (fp_new _ _ _ _ _ _ Hfp). by apply (sp_table s E dir T Mp i').
      - rewrite (fp_addr _ _ _ _ _ _ Hfp). pose proof (next_after s E pd Hok Hpd). unfold next_addr, PAGE_SIZE in *. lia.
      - by apply (fp_zero _ _ _ _ _ _ Hfp). }
    assert (Hg2 : grows s E s2 ({[(p, 1)]} ∪ E)) by by apply grows_vmem.
    eapply runs_mono; [apply (tabentry_set_spec s2 ({[(p, 1)]} ∪ E) (F ∖ {[p]}) dir (<[i := p]> T) Mp i p); [apply Hg2|exact Hs2|apply lookup_insert_eq|done|done]|].
    intros [] s3 [-> (E3 & T3 & H1 & H2 & H3 & H4 & H5 & H6 & H7)]. exists E3, T3. split; [by apply (grows_trans s E s2 ({[(p, 1)]} ∪ E))|]. split; [done|]. split; [|split; [|split; [|split]]].
    + intros n Hr. unfold tables_needed in *. rewrite Ht in Hr. rewrite lookup_insert_eq in H3. apply H3. by apply (room_fresh s E F ALLOC_ZERO p s1).
    + etransitivity; [by apply (insert_subseteq T i p)|exact H4].
    + intros i' t Ht'. destruct (H5 i' t Ht') as [Ht2|[Hno Hat]].
      * destruct (decide (i = i')) as [<-|Hne']; [|rewrite lookup_insert_ne in Ht2 by done; by left]. rewrite lookup_insert_eq in Ht2. injection Ht2 as <-. right. split; [apply Hfp|].
        rewrite (gr_addr _ _ _ _ H1) by done. change (page_addr s2 p) with (page_addr s1 p). by rewrite (fp_addr _ _ _ _ _ _ Hfp).
      * right. split; [intros Ho; apply Hno; by apply (owned_sub E); [set_solver|]|]. pose proof (gr_next _ _ _ _ Hg2). unfold next_addr, window, PAGE_SIZE in *. lia.
    + intros Hb. apply H6, put_word_byte_mem, (fp_bytes _ _ _ _ _ _ Hfp), Hb.
    + intros a Ha Hda _. assert (Hap : a < page_addr s1 p) by (rewrite (fp_addr _ _ _ _ _ _ Hfp); exact Ha). rewrite H7.
      * unfold s2. cbn [vmem set_vmem]. rewrite put_word_other; [by apply (fp_mem _ _ _ _ _ _ Hfp)|].
        destruct (Z.lt_ge_cases a (dir + 4 * i)) as [|G1]; [by left|]. destruct (Z.le_gt_cases (dir + 4 * i + 4) a) as [|G2]; [by right|]. destruct Hda. by apply (entry_in_page _ i).
      * unfold next_addr, s2. cbn [kmap set_vmem]. rewrite (fp_next _ _ _ _ _ _ Hfp). unfold next_addr, window, PAGE_SIZE in *. lia.
      * done.
      * intros t. rewrite lookup_insert_eq. intros [= <-] Hin. unfold in_page in Hin. change (page_addr s2 p) with (page_addr s1 p) in Hin. lia.
Qed.

(** ** Finding a page *)

(** What the frames [Mp] say of address [v]; frame 0 is never found. *)
Definition frame_at (Mp : gmap (Z * Z) Z) (v : Z) : option Z := f ← Mp !! (addr_to_diridx v, addr_to_tabidx v); if f =? 0 then None else Some f.

Lemma user_idx v : 0 <= v < VIRTUAL_BASE -> 0 <= addr_to_diridx v < USER_TABLES /\ 0 <= addr_to_tabidx v < NUM_ENTRIES.
Proof.
  intros Hv. assert (0 <= v < 2 ^ 32) by (unfold VIRTUAL_BASE in *; lia). rewrite addr_to_diridx_div, addr_to_tabidx_mod by done. unfold USER_TABLES, NUM_ENTRIES, KERNEL_NUM_TABLES, VIRTUAL_BASE in *.
  split; [split; [apply Z.div_pos; lia|apply Z.div_lt_upper_bound; lia]|apply Z.mod_pos_bound; lia].
Qed.

Lemma user_get_page_spec s E dir T Mp v (Q : option Z -> mm -> Prop) : ok s E -> space s E dir T Mp -> 0 <= v < VIRTUAL_BASE -> Q (frame_at Mp v) s -> runs (user_get_page dir v) s Q.
Proof.
  intros Hok Hs Hv HQ. destruct (user_idx v Hv) as [Hi Hj]. unfold user_get_page, do_user_get_page. mstep. mstep. apply (dir_get_tab_spec s E dir T Mp); [done..|]. unfold frame_at in HQ.
  destruct (T !! addr_to_diridx v) as [t|] eqn:Ht.
  - pose proof (sp_table s E dir T Mp _ t Hs Ht) as (_ & _ & Ho). rewrite (proj2 (Z.eqb_neq _ 0)) by (pose proof (page_addr_pos s E t Hok Ho); lia). cbn [negb]. unfold tabentry_get_phys. mstep.
    apply rd_word_spec; [by apply (page_window s E)|]. mstep. mstep. change (word_at _ _) with (tent s t (addr_to_tabidx v)). pose proof (sp_ent _ _ _ _ _ Hs _ t _ Ht Hj) as He.
    destruct (Mp !! (addr_to_diridx v, addr_to_tabidx v)) as [f|].
    + destruct He as [_ ->]. cbn in HQ. destruct (Z.eqb_spec (f * PAGE_SIZE) 0) as [E0|E0], (Z.eqb_spec f 0) as [F0|F0]; try (unfold PAGE_SIZE in E0; lia); cbn [negb]; [exact HQ|by rewrite phys_of_page].
    + rewrite He. exact HQ.
  - rewrite Z.eqb_refl. cbn [negb]. mstep. mstep. destruct (Mp !! (addr_to_diridx v, addr_to_tabidx v)) as [f|] eqn:EM; [|exact HQ]. destruct (sp_mdom _ _ _ _ _ Hs _ _ f EM) as [[t Ht'] _]. by rewrite Ht in Ht'.
Qed.

(** Mapping a page makes exactly that page of the address space be found at its frame -- every other
    address is found where it was -- with at most one page taken, for the table, and no memory written outside the directory
    and the table. *)
Theorem user_map_page_correct s E F dir T Mp virt phys : ok s E -> space s E dir T Mp -> room s F (tables_needed T (addr_to_diridx virt)) -> 0 <= virt < VIRTUAL_BASE -> 0 < phys / PAGE_SIZE < 2 ^ 20 -> 0 <= phys ->
  runs (user_map_page dir virt phys) s (fun _ s' => exists E' T', grows s E s' E' /\ space s' E' dir T' (<[(addr_to_diridx virt, addr_to_tabidx virt) := phys / PAGE_SIZE]> Mp) /\
    (forall v, 0 <= v < VIRTUAL_BASE -> runs (user_get_page dir v) s' (fun r s'' => s'' = s' /\ r = if v / PAGE_SIZE =? virt / PAGE_SIZE then Some (phys / PAGE_SIZE) else frame_at Mp v)) /\
    forall a, a < next_addr s -> ~ in_page dir a -> (forall t, T !! addr_to_diridx virt = Some t -> ~ in_page (page_addr s t) a) -> vmem s' a = vmem s a).
Proof.
  intros Hok Hs Hroom Hv Hf Hp. destruct (user_idx virt Hv) as [Hi Hj]. assert (Hphys : phys < 2 ^ 32) by (pose proof (Z.div_mod phys PAGE_SIZE ltac:(done)); pose proof (Z.mod_pos_bound phys PAGE_SIZE ltac:(done)); unfold PAGE_SIZE in *; lia).
  unfold user_map_page. eapply runs_mono; [by apply (do_user_map_page_spec s E F dir T Mp)|]. intros [] s' (E' & T' & Hg & Hs' & _ & _ & _ & _ & Hm). exists E', T'. split; [done|]. split; [done|]. split; [|exact Hm].
  intros v Hv'. apply (user_get_page_spec s' E' dir T' (<[(addr_to_diridx virt, addr_to_tabidx virt) := phys / PAGE_SIZE]> Mp)); [apply Hg|done|done|]. split; [done|]. unfold frame_at.
  assert (H32 : 0 <= v < 2 ^ 32 /\ 0 <= virt < 2 ^ 32) by (unfold VIRTUAL_BASE in *; lia). rewrite !addr_to_diridx_div, !addr_to_tabidx_mod by lia. change PAGE_SIZE with (2 ^ 12). replace (2 ^ 22) with (2 ^ 12 * 1024) by lia. rewrite <- !Z.div_div by lia.
  set (p := v / 2 ^ 12). set (q := virt / 2 ^ 12). destruct (Z.eqb_spec p q) as [->|Hne].
  - rewrite lookup_insert_eq. cbn. by rewrite (proj2 (Z.eqb_neq _ 0)) by (change (2 ^ 12) with PAGE_SIZE; lia).
  - rewrite lookup_insert_ne; [done|]. intros [= H1 H2]. apply Hne. pose proof (Z.div_mod p 1024 ltac:(lia)). pose proof (Z.div_mod q 1024 ltac:(lia)). lia.
Qed.

(** ** Copying an address space *)

(** Pages that are still wanted. *)
Definition wanted (MF : gmap (Z * Z) Z) (T : gmap Z Z) (Mp : gmap (Z * Z) Z) : nat := (size (dom MF ∖ dom Mp) + size ((set_map fst (dom MF) : gset Z) ∖ dom T))%nat.

Lemma wanted_step MF T T' Mp i j g p : MF !! (i, j) = Some g -> Mp !! (i, j) = None -> T ⊆ T' -> is_Some (T' !! i) -> (tables_needed T i + S (wanted MF T' (<[(i, j) := p]> Mp)) <= wanted MF T Mp)%nat.
Proof.
  intros Hg Hn HT Hi. unfold wanted, tables_needed.
  assert (E1 : S (size (dom MF ∖ dom (<[(i, j) := p]> Mp))) = size (dom MF ∖ dom Mp)).
  { rewrite dom_insert_L. replace (dom MF ∖ dom Mp) with ({[(i, j)]} ∪ dom MF ∖ ({[(i, j)]} ∪ dom Mp)).
    - rewrite (size_union {[(i, j)]} (dom MF ∖ ({[(i, j)]} ∪ dom Mp))) by set_solver. by rewrite size_singleton.
    - apply set_eq. intros x. rewrite elem_of_union, !elem_of_difference, elem_of_union, elem_of_singleton. split; [|destruct (decide (x = (i, j))); tauto].
      intros [->|?]; [|tauto]. split; [by apply elem_of_dom; exists g|]. rewrite elem_of_dom, Hn. by intros [? ?]. }
  assert (E2 : (tables_needed T i + size (set_map fst (dom MF) ∖ dom T' : gset Z) <= size (set_map fst (dom MF) ∖ dom T : gset Z))%nat); [|unfold tables_needed in E2; lia].
  assert (HD : dom T ⊆ dom T') by by apply subseteq_dom. unfold tables_needed. destruct (T !! i) as [t|] eqn:Et; [apply subseteq_size; set_solver|].
  assert (Hsub : {[i]} ∪ (set_map fst (dom MF) ∖ dom T' : gset Z) ⊆ set_map fst (dom MF) ∖ dom T).
  { intros x [->%elem_of_singleton|[H1 H2]%elem_of_difference]%elem_of_union; apply elem_of_difference; [|set_solver]. split; [apply elem_of_map; exists (i, j); split; [done|apply elem_of_dom; by exists g]|]. rewrite elem_of_dom, Et. by intros [? ?]. }
  apply subseteq_size in Hsub. rewrite size_union, size_singleton in Hsub; [done|]. apply elem_of_dom in Hi. set_solver.
Qed.

Lemma wanted_first MF T Mp i j g : MF !! (i, j) = Some g -> Mp !! (i, j) = None -> (tables_needed T i + 1 <= wanted MF T Mp)%nat.
Proof.
  intros Hg Hn. destruct (T !! i) as [t|] eqn:Ht; [pose proof (wanted_step MF T T Mp i j g 0 Hg Hn ltac:(done) ltac:(by rewrite Ht))|pose proof (wanted_step MF T (<[i := 0]> T) Mp i j g 0 Hg Hn ltac:(by apply insert_subseteq) ltac:(by rewrite lookup_insert_eq))]; lia.
Qed.

Section CopySpec.
Context (kc : list Z) (s0 : mm) (E0 : gset (Z * Z)) (from to pt : Z) (TF : gmap Z Z) (MF : gmap (Z * Z) Z).
Context (Hok0 : ok s0 E0) (Hbytes0 : byte_mem (vmem s0)).
(** The address space that is copied: its frames are handed out and not tables of the copy. *)
Context (Hfrom : space s0 E0 from TF MF) (Hframes : forall x g, MF !! x = Some g -> owned E0 g /\ g <> pt).
(** The directory of the copy is a page of its own. *)
Context (Hpt : owned E0 pt) (Hto : page_addr s0 pt = to) (Hsep : from <> to) (Htabs : forall i t, TF !! i = Some t -> t <> pt).

(** The copy, with the entries in [D] done. *)
Record copying (D : Z -> Z -> Prop) (s : mm) (E : gset (Z * Z)) (T : gmap Z Z) (Mp : gmap (Z * Z) Z) : Prop := Copying {
  cp_grows : grows s0 E0 s E;
  cp_space : space s E to T Mp;
  cp_tables : forall i t, T !! i = Some t -> next_addr s0 <= page_addr s t;
  cp_dom : forall i j, is_Some (Mp !! (i, j)) <-> D i j /\ is_Some (MF !! (i, j));
  cp_frame : forall i j f, Mp !! (i, j) = Some f -> owned E f /\ 0 < f /\ next_addr s0 <= page_addr s f /\ (forall i' t, T !! i' = Some t -> t <> f) /\
    forall g, MF !! (i, j) = Some g -> forall a, 0 <= a < PAGE_SIZE -> vmem s (page_addr s f + a) = vmem s0 (page_addr s0 g + a);
  cp_inj : forall x y f, Mp !! x = Some f -> Mp !! y = Some f -> x = y;
  cp_mem : forall a, a < next_addr s0 -> ~ in_page to a -> vmem s a = vmem s0 a;
  cp_bytes : byte_mem (vmem s);
}.

Lemma not_to s E f a : grows s0 E0 s E -> owned E0 f -> f <> pt -> in_page (page_addr s0 f) a -> a < next_addr s0 /\ ~ in_page to a.
Proof.
  intros Hg Hf Hne Ha. split; [pose proof (next_after s0 E0 f Hok0 Hf); unfold in_page in *; lia|]. rewrite <- Hto. pose proof (owned_disjoint s0 E0 f pt Hok0 Hf Hpt Hne). unfold in_page in *. lia.
Qed.

Lemma from_space D s E T Mp : copying D s E T Mp -> space s E from TF MF.
Proof.
  intros Hc. apply (space_frame s0 E0); [exact Hfrom|apply Hc| |].
  - destruct (sp_dir _ _ _ _ _ Hfrom) as (pd & Hpd & Epd & _). intros a Ha. rewrite <- Epd in Ha. destruct (not_to s E pd a); [apply Hc|done|intros ->; by rewrite Hto in Epd|done|]. by apply (cp_mem _ _ _ _ _ Hc).
  - intros i t Ht a Ha. destruct (not_to s E t a); [apply Hc|by apply (sp_table s0 E0 from TF MF i)|by apply (Htabs i)|done|]. by apply (cp_mem _ _ _ _ _ Hc).
Qed.

Lemma copying_done D D' s E T Mp : (forall i j, is_Some (MF !! (i, j)) -> D i j <-> D' i j) -> copying D s E T Mp -> copying D' s E T Mp.
Proof. intros H []. constructor; try done. intros i j. rewrite cp_dom0. specialize (H i j). tauto. Qed.

Lemma kmalloc_page_spec (s : kstate) E F (Q : Z -> kstate -> Prop) : ok (source s) E -> frees (source s) F -> F <> ∅ -> kernel_next_page (kmap (source s)) + 1 <= 2 ^ 18 ->
  (forall p b, took_page (source s) E F ALLOC_COMPOUND p b -> Q (page_addr b p) (set_source b s)) -> runs (kmalloc kc PAGE_SIZE) s Q.
Proof.
  intros Hok Hf Hne Hw HQ. unfold kmalloc. change (PAGE_SIZE <=? KALLOC_CACHE_MAX) with false. change (DIV_UP PAGE_SIZE PAGE_SIZE) with 1. cbv zeta match. mstep. apply runs_lift.
  eapply runs_mono; [by apply (alloc_page_fresh (source s) E F ALLOC_COMPOUND)|]. intros p b Hp. apply runs_lift. cbn [source set_source]. apply page_to_virt_spec; [pose proof (fp_pos _ _ _ _ _ _ Hp); unfold inside, NPAGES, NUM_ENTRIES; lia|].
  apply (HQ p b Hp).
Qed.

Lemma vm_memcpy_spec s dst src n : byte_mem (vmem s) -> 0 <= n -> in_window s dst n = true -> in_window s src n = true -> src + n <= dst ->
  runs (vm_memcpy dst src n) s (fun _ s' => exists m, s' = set_vmem m s /\ byte_mem m /\ forall a, m a = if bool_decide (dst <= a < dst + n) then vmem s (src + (a - dst)) else vmem s a).
Proof.
  intros Hb Hn Hd Hs Hle. unfold vm_memcpy. mstep. mstep. rewrite Hd, Hs. cbn [andb]. mstep. apply runs_lift.
  eapply runs_mono; [apply memcpy_spec; [done|lia]|]. intros r m [_ Hm]. mstep. exists m. unfold copied in Hm. rewrite Z2Nat.id in Hm by done. split; [done|]. split; [|done].
  intros a. rewrite Hm. case_bool_decide; apply Hb.
Qed.

(** The entry that is copied: [p] is the new frame, in [s2] the copied bytes are in place, [s3] has it mapped. *)
Lemma copying_step D (s : mm) E F T Mp i j g p s1 m s3 : copying D s E T Mp -> MF !! (i, j) = Some g -> ~ D i j ->
  took_page s E F ALLOC_COMPOUND p s1 -> byte_mem m -> (forall a, m a = if bool_decide (in_page (page_addr s1 p) a) then vmem s1 (page_addr s1 g + (a - page_addr s1 p)) else vmem s1 a) ->
  maps (set_vmem m s1) ({[(p, 1)]} ∪ E) (F ∖ {[p]}) to T Mp i j p s3 ->
  exists E' T', copying (fun i' j' => D i' j' \/ (i', j') = (i, j)) s3 E' T' (<[(i, j) := p]> Mp) /\
    (forall n, room s1 (F ∖ {[p]}) (tables_needed T i + n) -> exists F', room s3 F' n) /\ T ⊆ T' /\ is_Some (T' !! i).
Proof.
  intros Hc Hg HD Hfp Hbm Hm (E3 & T3 & Hg3 & Hs3 & Hr3 & HT3 & HT3' & Hb3 & Hm3).
  pose proof (fp_grows _ _ _ _ _ _ Hfp) as Hg1. set (E1 := {[(p, 1)]} ∪ E) in *. set (s2 := set_vmem m s1) in *. pose proof (cp_grows _ _ _ _ _ Hc) as Hgr.
  assert (Hop : owned E1 p) by (exists p, 1; split; [set_solver|lia]). assert (Hn0 : next_addr s0 <= next_addr s) by (pose proof (gr_next _ _ _ _ Hgr); unfold next_addr, window, PAGE_SIZE; lia).
  assert (Hpa : page_addr s2 p = next_addr s) by apply (fp_addr _ _ _ _ _ _ Hfp). assert (Hpa3 : page_addr s3 p = next_addr s) by (rewrite (gr_addr _ _ _ _ Hg3) by done; exact Hpa).
  assert (Hn2 : next_addr s2 = next_addr s + PAGE_SIZE) by (unfold next_addr, s2; cbn [kmap set_vmem]; rewrite (fp_next _ _ _ _ _ _ Hfp); unfold window; lia).
  assert (Hok1 : ok s1 E1) by apply Hg1.
  (* addresses of pages that were there, and their bytes after the copy *)
  assert (Hold : forall f, owned E f -> page_addr s3 f = page_addr s f /\ page_addr s2 f = page_addr s f /\ page_addr s f + PAGE_SIZE <= next_addr s).
  { intros f Hf. rewrite (gr_addr _ _ _ _ Hg3) by (by apply (owned_sub E E1); [set_solver|]). change (page_addr s2 f) with (page_addr s1 f). rewrite (gr_addr _ _ _ _ Hg1) by done. split; [done|]. split; [done|]. by apply (next_after s E f); [apply Hgr|]. }
  assert (Hlow2 : forall a, a < next_addr s -> vmem s2 a = vmem s a).
  { intros a Ha. unfold s2. cbn [vmem set_vmem]. rewrite Hm, bool_decide_false; [apply (fp_mem _ _ _ _ _ _ Hfp); by rewrite (fp_addr _ _ _ _ _ _ Hfp)|]. change (page_addr s1 p) with (page_addr s2 p). rewrite Hpa. unfold in_page. lia. }
  assert (HT : forall i' t, T !! i' = Some t -> owned E t) by (intros i' t Ht; apply (sp_table s E to T Mp i' t (cp_space _ _ _ _ _ Hc) Ht)).
  assert (Htbl : forall t, T !! i = Some t -> owned E t /\ page_addr s2 t = page_addr s t) by (intros t Ht; split; [by apply (HT i)|by apply Hold, (HT i)]).
  assert (Hpt1 : owned E pt) by (by apply (owned_sub E0); [apply Hgr|]). assert (Eto : to = page_addr s pt) by (rewrite (gr_addr _ _ _ _ Hgr) by done; done).
  (* bytes of a page that is neither the directory nor a table survive the mapping *)
  assert (Hkeep : forall f a, owned E1 f -> f <> pt -> (forall t, T !! i = Some t -> t <> f) -> 0 <= a < PAGE_SIZE -> vmem s3 (page_addr s2 f + a) = vmem s2 (page_addr s2 f + a)).
  { intros f a Hf Hfp' Hft Ha. apply Hm3.
    - pose proof (next_after s2 E1 f Hok1 Hf). lia.
    - rewrite Eto. destruct (Hold pt Hpt1) as (_ & <- & _). pose proof (owned_disjoint s2 E1 f pt Hok1 Hf (owned_sub E E1 pt ltac:(set_solver) Hpt1) Hfp'). unfold in_page. lia.
    - intros t Ht. destruct (Htbl t Ht) as [Ho _]. pose proof (owned_disjoint s2 E1 f t Hok1 Hf (owned_sub E E1 t ltac:(set_solver) Ho) ltac:(intros ->; by apply (Hft t Ht))). unfold in_page. lia. }
  destruct (Hframes _ _ Hg) as [Hog Hgpt]. assert (Hog1 : owned E g) by (by apply (owned_sub E0); [apply Hgr|]).
  assert (HiT : is_Some (T3 !! i)) by (apply (sp_mdom _ _ _ _ _ Hs3 i j p), lookup_insert_eq).
  exists E3, T3. split; [|split; [exact Hr3|split; [done|done]]]. constructor.
  - apply (grows_trans s0 E0 s E); [done|]. apply (grows_trans s E s2 E1); [by apply grows_vmem|done].
  - done.
  - intros i' t Ht. destruct (HT3' i' t Ht) as [Ht'|[_ Hat]]; [|unfold PAGE_SIZE in *; lia]. destruct (Hold t) as (-> & _); [by apply (HT i')|]. by apply (cp_tables _ _ _ _ _ Hc i').
  - intros i' j'. destruct (decide ((i, j) = (i', j'))) as [[= <- <-]|Hne].
    + rewrite lookup_insert_eq. split; [intros _; split; [by right|by eexists]|by eexists].
    + rewrite lookup_insert_ne by done. rewrite (cp_dom _ _ _ _ _ Hc). split; [intros [H1 H2]; split; [by left|done]|]. intros [[H1|H1] H2]; [done|]. by rewrite H1 in Hne.
  - intros i' j' f. destruct (decide ((i, j) = (i', j'))) as [[= <- <-]|Hne].
    + rewrite lookup_insert_eq. intros [= <-]. split; [by apply (owned_sub E1); [apply Hg3|]|]. split; [apply Hfp|]. split; [by rewrite Hpa3|]. split.
      * intros i' t Ht ->. destruct (HT3' i' _ Ht) as [Ht'|[Hno _]]; [|done]. apply (fp_new _ _ _ _ _ _ Hfp). by apply (HT i').
      * intros g'. rewrite Hg. intros [= <-] a Ha. rewrite Hpa3, <- Hpa, Hkeep; [|done|intros ->; by apply (fp_new _ _ _ _ _ _ Hfp)|intros t Ht ->; apply (fp_new _ _ _ _ _ _ Hfp); by apply Htbl|done].
        unfold s2 at 1. cbn [vmem set_vmem]. change (page_addr s2 p) with (page_addr s1 p). rewrite Hm, bool_decide_true by (unfold in_page; lia). replace (page_addr s1 p + a - page_addr s1 p) with a by lia.
        destruct (Hold g Hog1) as (_ & Eg & Hgl). change (page_addr s2 g) with (page_addr s1 g) in Eg. rewrite Eg. rewrite (gr_addr _ _ _ _ Hgr) in * by done.
        rewrite (fp_mem _ _ _ _ _ _ Hfp) by (rewrite (fp_addr _ _ _ _ _ _ Hfp); change (window _ 0) with (next_addr s); lia).
        destruct (not_to s E g (page_addr s0 g + a) Hgr Hog Hgpt) as [H1 H2]; [unfold in_page; lia|]. by apply (cp_mem _ _ _ _ _ Hc).
    + rewrite lookup_insert_ne by done. intros Hf. destruct (cp_frame _ _ _ _ _ Hc i' j' f Hf) as (Ho & Hf0 & Hfa & Hft & Hfc). destruct (Hold f Ho) as (E2 & E2' & Hfl). rewrite E2.
      split; [by apply (owned_sub E1); [apply Hg3|apply (owned_sub E E1); [set_solver|]]|]. split; [done|]. split; [done|]. split.
      * intros i'' t Ht ->. destruct (HT3' i'' _ Ht) as [Ht'|[Hno _]]; [by apply (Hft i'' f Ht')|]. apply Hno. apply (owned_sub E E1); [set_solver|done].
      * intros g' Hg' a Ha. rewrite <- E2', Hkeep; [|by apply (owned_sub E E1); [set_solver|]| |by apply Hft|done].
        -- rewrite E2', Hlow2 by lia. by apply Hfc.
        -- intros ->. rewrite (gr_addr _ _ _ _ Hgr) in Hfa by done. pose proof (next_after s0 E0 pt Hok0 Hpt). unfold PAGE_SIZE in *. lia.
  - intros x y f. assert (Hp' : forall z, Mp !! z = Some p -> False).
    { intros [i' j'] Hz. apply (fp_new _ _ _ _ _ _ Hfp). by apply (cp_frame _ _ _ _ _ Hc i' j'). }
    destruct (decide ((i, j) = x)) as [<-|Hx], (decide ((i, j) = y)) as [<-|Hy]; rewrite ?lookup_insert_eq, ?lookup_insert_ne by done; [done|intros [= <-] H; by destruct (Hp' y)|intros H [= <-]; by destruct (Hp' x)|apply (cp_inj _ _ _ _ _ Hc)].
  - intros a Ha Hna. rewrite Hm3; [rewrite Hlow2 by lia; by apply (cp_mem _ _ _ _ _ Hc)|unfold PAGE_SIZE in *; lia|done|]. intros t Ht Hin. destruct (Htbl t Ht) as [_ Et]. rewrite Et in Hin. pose proof (cp_tables _ _ _ _ _ Hc i t Ht). unfold in_page in Hin. lia.
  - by apply Hb3.
Qed.

(** What copying more entries leads to. *)
Definition copied_to (D : Z -> Z -> Prop) (s : kstate) (s' : kstate) : Prop := exists b E F T Mp, s' = set_source b s /\ copying D b E T Mp /\ room b F (wanted MF T Mp).

Lemma copy_entry_spec D (s : kstate) E F T Mp i j tf : copying D (source s) E T Mp -> room (source s) F (wanted MF T Mp) -> TF !! i = Some tf -> 0 <= j < NUM_ENTRIES -> ~ D i j ->
  runs (copy_entry kc to (page_addr (source s) tf) i j) s (fun _ => copied_to (fun i' j' => D i' j' \/ (i', j') = (i, j)) s).
Proof.
  intros Hc Hroom Htf Hj HD. pose proof (from_space _ _ _ _ _ Hc) as Hf. pose proof (cp_grows _ _ _ _ _ Hc) as Hgr. assert (Hok : ok (source s) E) by apply Hgr.
  pose proof (sp_table _ _ _ _ _ i tf Hf Htf) as (_ & _ & Hotf). pose proof (sp_ent _ _ _ _ _ Hf i tf j Htf Hj) as He. pose proof (page_window (source s) E tf j Hok Hotf Hj) as Hw.
  unfold copy_entry, tabentry_get_flags. mstep. apply runs_lift. mstep. apply rd_word_spec; [done|]. mstep. change (word_at (vmem (source s)) (page_addr (source s) tf + 4 * j)) with (tent (source s) tf j).
  destruct (MF !! (i, j)) as [g|] eqn:Hg.
  2: { rewrite He. change (has (ent_get_flags 0) MMUFLAG_PRESENT) with false. cbn match. mstep. exists (source s), E, F, T, Mp. split; [by destruct s|]. split; [|done]. eapply copying_done; [|exact Hc]. intros i' j' Hs. split; [by left|]. intros [?|[= -> ->]]; [done|]. rewrite Hg in Hs. by destruct Hs. }
  destruct He as [-> He]. destruct (Hframes _ _ Hg) as [Hog Hgpt]. assert (Hog1 : owned E g) by (by apply (owned_sub E0); [apply Hgr|]).
  assert (Hn : Mp !! (i, j) = None) by (destruct (Mp !! (i, j)) as [f|] eqn:E2; [destruct HD; by apply (cp_dom _ _ _ _ _ Hc); rewrite E2|done]).
  pose proof (wanted_first MF T Mp i j g Hg Hn) as Hw1.
  destruct (room_nonempty (source s) F 0) as (Hfr & Hne & Hnx); [eapply room_le; [done|lia]|]. mstep. change (set_source (source s) s) with s || replace (set_source (source s) s) with s by by destruct s.
  apply (kmalloc_page_spec s E F); [done..|]. intros p s1 Hfp. pose proof (fp_grows _ _ _ _ _ _ Hfp) as Hg1. assert (Hok1 : ok s1 ({[(p, 1)]} ∪ E)) by apply Hg1. assert (Hop : owned ({[(p, 1)]} ∪ E) p) by (exists p, 1; split; [set_solver|lia]).
  assert (Haddr : forall f, owned E f -> page_addr s1 f = page_addr (source s) f) by (apply Hg1). assert (Hs1f := space_fresh _ _ _ _ _ _ _ _ _ Hok Hf Hfp). assert (Hs1t := space_fresh _ _ _ _ _ _ _ _ _ Hok (cp_space _ _ _ _ _ Hc) Hfp).
  pose proof (sp_ent _ _ _ _ _ Hs1f i tf j Htf Hj) as He1. rewrite Hg in He1. destruct He1 as [_ He1]. rewrite <- (Haddr tf Hotf) in *.
  mstep. apply runs_lift. unfold tabentry_get_phys. mstep. cbn [source set_source]. apply rd_word_spec; [apply (page_window s1 ({[(p, 1)]} ∪ E)); [done|by apply (owned_sub E); [set_solver|]|done]|]. mstep.
  change (word_at (vmem s1) (page_addr s1 tf + 4 * j)) with (tent s1 tf j). rewrite He1. assert (Hog2 : owned ({[(p, 1)]} ∪ E) g) by (by apply (owned_sub E); [set_solver|]).
  mstep. apply runs_lift. cbn [source set_source]. apply (phys_to_virt_spec s1 ({[(p, 1)]} ∪ E)); [done|done|].
  mstep. apply runs_lift. cbn [source set_source]. assert (Hpp : page_addr s1 p = next_addr (source s)) by apply (fp_addr _ _ _ _ _ _ Hfp).
  eapply runs_mono; [apply (vm_memcpy_spec s1); [apply (fp_bytes _ _ _ _ _ _ Hfp), Hc|done|apply (owned_window s1 ({[(p, 1)]} ∪ E) p); lia || done|apply (owned_window s1 ({[(p, 1)]} ∪ E) g); lia || done|rewrite Hpp, (Haddr g Hog1); by apply (next_after _ E)]|].
  intros [] s2 (m & -> & Hbm & Hm). set (s2 := set_vmem m s1).
  destruct (owned_page s1 _ p Hok1 Hop) as (_ & _ & k & Hk & Hk2 & Ek & Ep). mstep. apply runs_lift. cbn [source set_source]. apply runs_lift. rewrite Ek. apply virt_to_phys_window; [lia|done|].
  change (kmap s2) with (kmap s1). rewrite Ep, Z.lor_0_r. replace (set_kmap (kmap s1) s2) with s2 by by destruct s1. apply runs_lift. cbn [source set_source].
  assert (Hold : forall f, owned E f -> forall a, in_page (page_addr s1 f) a -> vmem s2 a = vmem s1 a).
  { intros f Hof a Ha. unfold s2. cbn [vmem set_vmem]. rewrite Hm, bool_decide_false; [done|]. pose proof (next_after (source s) E f Hok Hof). rewrite Haddr in Ha by done. unfold in_page in Ha. lia. }
  assert (Hs2 : space s2 ({[(p, 1)]} ∪ E) to T Mp).
  { apply (space_frame s1 ({[(p, 1)]} ∪ E)); [done|by apply grows_vmem, grows_refl|..].
    - intros a Ha. assert (Hpt1 : owned E pt) by (by apply (owned_sub E0); [apply Hgr|]). apply (Hold pt Hpt1). rewrite Haddr, (gr_addr _ _ _ _ Hgr), Hto by done. exact Ha.
    - intros i' t Ht. apply Hold. by apply (sp_table _ _ _ _ _ i' t (cp_space _ _ _ _ _ Hc)). }
  pose proof (fp_pos _ _ _ _ _ _ Hfp) as Hp20. assert (Hphys : 0 <= p * PAGE_SIZE < 2 ^ 32) by (unfold PAGE_SIZE; lia).
  assert (Hroom1 : room s1 (F ∖ {[p]}) (tables_needed T i)) by (apply (room_fresh (source s) E F ALLOC_COMPOUND); [eapply room_le; [exact Hroom|lia]|done]).
  eapply runs_mono; [apply (do_user_map_page_spec s2 ({[(p, 1)]} ∪ E) (F ∖ {[p]}) to T Mp); [exact Hok1|done|exact Hroom1| |done|done]|].
  { by apply (sp_dom _ _ _ _ _ Hf i tf). }
  intros [] s3 Hmaps. replace (p * PAGE_SIZE / PAGE_SIZE) with p in Hmaps by (unfold PAGE_SIZE; by rewrite Z.div_mul).
  destruct (copying_step D (source s) E F T Mp i j g p s1 m s3 Hc Hg HD Hfp Hbm) as (E' & T' & Hc' & Hr' & HT & Hi'); [intros a; by rewrite Hm|exact Hmaps|].
  destruct (Hr' (wanted MF T' (<[(i, j) := p]> Mp))) as (F' & Hroom'); [|by exists s3, E', F', T', (<[(i, j) := p]> Mp)].
  apply (room_fresh (source s) E F ALLOC_COMPOUND); [|done]. eapply room_le; [exact Hroom|]. pose proof (wanted_step MF T T' Mp i j g p Hg Hn HT Hi'). lia.
Qed.


Lemma copied_to_trans D s b s' : copied_to D (set_source b s) s' -> copied_to D s s'.
Proof. exact (fun H => H). Qed.

Lemma copied_to_mono D D' s s' : (forall i j, is_Some (MF !! (i, j)) -> D i j <-> D' i j) -> copied_to D s s' -> copied_to D' s s'.
Proof. intros H (b & E & F & T & Mp & -> & Hc & Hr). exists b, E, F, T, Mp. split; [done|]. split; [by apply (copying_done D)|done]. Qed.

Lemma copy_table_spec (s s1 : kstate) i : 0 <= i < USER_TABLES -> copied_to (fun i' _ => 0 <= i' < i) s s1 -> runs (copy_table kc to from i) s1 (fun _ => copied_to (fun i' _ => 0 <= i' < i + 1) s).
Proof.
  intros Hi (b & E & F & T & Mp & -> & Hc & Hroom). pose proof (from_space _ _ _ _ _ Hc) as Hf. pose proof (cp_grows _ _ _ _ _ Hc) as Hgr.
  unfold copy_table. mstep. apply runs_lift. cbn [source set_source]. apply (dir_get_tab_spec b E from TF MF); [apply Hgr|done|done|]. destruct (TF !! i) as [tf|] eqn:Htf.
  2: { rewrite Z.eqb_refl. cbn [negb]. mstep. apply (copied_to_mono (fun i' _ => 0 <= i' < i)); [|by exists b, E, F, T, Mp]. intros i' j' [f Hx]. destruct (sp_mdom _ _ _ _ _ Hf i' j' f Hx) as [[t Ht] _]. assert (i' <> i) by (intros ->; by rewrite Htf in Ht). lia. }
  assert (Hot : owned E0 tf) by (apply (sp_table s0 E0 from TF MF i tf Hfrom Htf)). rewrite (gr_addr _ _ _ _ Hgr) by done.
  rewrite (proj2 (Z.eqb_neq _ 0)) by (pose proof (page_addr_pos s0 E0 tf Hok0 Hot); lia). cbn [negb].
  eapply runs_mono; [apply (runs_forM (fun j => copied_to (fun i' j' => 0 <= i' < i \/ i' = i /\ 0 <= j' < j) s))|].
  - apply (copied_to_mono (fun i' _ => 0 <= i' < i)); [lia|by exists b, E, F, T, Mp].
  - intros j s2 Hj (b2 & E2 & F2 & T2 & Mp2 & -> & Hc2 & Hroom2). rewrite <- (gr_addr _ _ _ _ (cp_grows _ _ _ _ _ Hc2)) by done.
    eapply runs_mono; [apply (copy_entry_spec _ (set_source b2 s) E2 F2 T2 Mp2 i j tf Hc2 Hroom2 Htf); [unfold NUM_ENTRIES in *; lia|lia]|].
    intros [] s3 H3. apply copied_to_trans in H3. eapply copied_to_mono; [|exact H3]. intros i' j' _. split; [intros [H|[= -> ->]]; lia|]. intros [H|[-> H]]; [by left; left|]. destruct (decide (j' = j)) as [->|]; [by right|left; lia].
  - intros [] s2. apply copied_to_mono. intros i' j' [f Hx]. destruct (sp_mdom _ _ _ _ _ Hf i' j' f Hx) as [_ Hj]. unfold NUM_ENTRIES in *. lia.
Qed.

Lemma copy_mem_spec (s : kstate) F : source s = s0 -> space s0 E0 to ∅ ∅ -> room s0 F (wanted MF ∅ ∅) -> runs (copy_mem kc to from) s (fun _ => copied_to (fun i' _ => 0 <= i' < USER_TABLES) s).
Proof.
  intros Hs Hempty Hroom. unfold copy_mem. eapply runs_mono; [apply (runs_forM (fun i => copied_to (fun i' _ => 0 <= i' < i) s))|].
  - exists s0, E0, F, ∅, ∅. split; [destruct s; cbn in Hs; by subst|]. split; [|done]. constructor; [by apply grows_refl|done|done| |done|done|done|done]. intros i j. split; [intros [? ?]; done|lia].
  - intros i s1 Hi. apply copy_table_spec. unfold USER_TABLES, NUM_ENTRIES, KERNEL_NUM_TABLES in *. lia.
  - by intros [] s1.
Qed.
End CopySpec.

(** The byte the frames [Mp] put at user address [v]. *)
Definition user_byte (s : mm) (Mp : gmap (Z * Z) Z) (v : Z) : option Z := f ← Mp !! (addr_to_diridx v, addr_to_tabidx v); Some (vmem s (page_addr s f + vaddr_to_pageoff v)).


(** ** Witnesses: a pool of eight pages; a parent with one page, at 0x8048000, and an empty child. *)

(** An empty directory. *)
Lemma space_empty s E F p s1 : ok s E -> took_page s E F ALLOC_ZERO p s1 -> space s1 ({[(p, 1)]} ∪ E) (page_addr s1 p) ∅ ∅.
Proof.
  intros Hok Hfp. constructor; [|..|by intros i j f].
  - exists p. split; [exists p, 1; split; [set_solver|lia]|]. done.
  - intros i Hi. rewrite lookup_empty. unfold dent, word_at. unfold USER_TABLES, NUM_ENTRIES, KERNEL_NUM_TABLES in Hi.
    rewrite !(fp_zero _ _ _ _ _ _ Hfp eq_refl) by (unfold in_page, PAGE_SIZE; lia). reflexivity.
  - intros i t H. by rewrite lookup_empty in H.
  - intros i i' t H. by rewrite lookup_empty in H.
  - intros i t j H. by rewrite lookup_empty in H.
Qed.

Definition pool8 : mm := claimed 16 8 no_memory.
Definition free8 : gset Z := list_to_set (seqZ 16 8).

Lemma pool8_ok : ok pool8 ∅ /\ kmap pool8 = kmap no_memory.
Proof.
  apply claimed_ok; [intros j _; reflexivity|exact empty_lists_ok|reflexivity|split; [reflexivity|cbn; lia]|lia|unfold NPAGES, NUM_ENTRIES; lia].
Qed.

Lemma pool8_room : room pool8 free8 8.
Proof.
  split; [split|].
  - intros f Hf. unfold free8 in Hf. apply elem_of_list_to_set, elem_of_seqZ in Hf. split; [unfold inside, NPAGES, NUM_ENTRIES; lia|].
    assert (Hc : f = 16 \/ f = 17 \/ f = 18 \/ f = 19 \/ f = 20 \/ f = 21 \/ f = 22 \/ f = 23) by lia. by destruct_or! Hc; subst; vm_compute.
  - vm_compute. discriminate.
  - rewrite (proj2 pool8_ok). split; [vm_compute; lia|cbn; lia].
Qed.

Lemma pool8_bytes : byte_mem (vmem pool8).
Proof. intros a. vm_compute. split; [discriminate|reflexivity]. Qed.

Definition result {S} (m : M S Z) (s : S) : Z := match m s with Done (a, _) => a | _ => 0 end.

Lemma runs_result {S} (m : M S Z) s (Q : Z -> S -> Prop) : runs m s Q -> Q (result m s) (after m s).
Proof. unfold runs, result, after. by destruct (m s) as [[a s']| | |]. Qed.

Definition alloc_zero_page (s : mm) : mm := after (alloc_page ALLOC_ZERO) s.
Definition zero_page (s : mm) : Z := result (alloc_page ALLOC_ZERO) s.

Lemma alloc_zero_fresh s E F n : ok s E -> room s F (S n) -> took_page s E F ALLOC_ZERO (zero_page s) (alloc_zero_page s) /\ room (alloc_zero_page s) (F ∖ {[zero_page s]}) n.
Proof.
  intros Hok Hr. apply room_nonempty in Hr as Hr'. destruct Hr' as (Hf & Hne & Hw). pose proof (runs_result _ _ _ (alloc_page_fresh s E F ALLOC_ZERO Hok Hf Hne Hw)) as H. split; [exact H|]. by apply (room_fresh s E F ALLOC_ZERO).
Qed.

(** The parent's directory, the child's, the parent's page. *)
Definition mem1 (s0 : mm) : mm := alloc_zero_page s0.
Definition mem2 (s0 : mm) : mm := alloc_zero_page (mem1 s0).
Definition mem3 (s0 : mm) : mm := alloc_zero_page (mem2 s0).
Definition dir1 (s0 : mm) : Z := page_addr (mem1 s0) (zero_page s0).
Definition dir2 (s0 : mm) : Z := page_addr (mem2 s0) (zero_page (mem1 s0)).
Definition frame3 (s0 : mm) : Z := zero_page (mem2 s0).
Definition vaddr0 : Z := 0x8048000.
Definition mem4 (s0 : mm) : mm := after (user_map_page (dir1 s0) vaddr0 (frame3 s0 * PAGE_SIZE)) (mem3 s0).
Definition frames4 (s0 : mm) : gmap (Z * Z) Z := {[(addr_to_diridx vaddr0, addr_to_tabidx vaddr0) := frame3 s0]}.

Section Ready.
Context (s0 : mm) (F0 : gset Z) (Hok0 : ok s0 ∅) (Hroom0 : room s0 F0 8) (Hb0 : byte_mem (vmem s0)).

(** The state before the parent's page is mapped. *)
Lemma mem3_ok : exists E F, ok (mem3 s0) E /\ space (mem3 s0) E (dir1 s0) ∅ ∅ /\ space (mem3 s0) E (dir2 s0) ∅ ∅ /\ room (mem3 s0) F 5 /\ byte_mem (vmem (mem3 s0)) /\
  owned E (frame3 s0) /\ owned E (zero_page (mem1 s0)) /\ page_addr (mem3 s0) (zero_page (mem1 s0)) = (dir2 s0) /\ (dir1 s0) + PAGE_SIZE <= (dir2 s0) /\ (frame3 s0) <> zero_page (mem1 s0) /\ (dir2 s0) < next_addr (mem3 s0) /\ 0 < (frame3 s0) < 2 ^ 20.
Proof.
  destruct (alloc_zero_fresh s0 ∅ F0 7 Hok0 Hroom0) as [F1 R1]. change (alloc_zero_page s0) with (mem1 s0) in *. pose proof (fp_grows _ _ _ _ _ _ F1) as G1.
  destruct (alloc_zero_fresh (mem1 s0) _ _ 6 (gr_ok _ _ _ _ G1) R1) as [F2 R2]. fold (mem2 s0) in *. pose proof (fp_grows _ _ _ _ _ _ F2) as G2.
  destruct (alloc_zero_fresh (mem2 s0) _ _ 5 (gr_ok _ _ _ _ G2) R2) as [F3 R3]. fold (mem3 s0) in *. pose proof (fp_grows _ _ _ _ _ _ F3) as G3. fold (frame3 s0) in *.
  pose proof (space_empty _ _ _ _ _ Hok0 F1) as S1. pose proof (space_empty _ _ _ _ _ (gr_ok _ _ _ _ G1) F2) as S2. fold (dir1 s0) in S1. fold (dir2 s0) in S2.
  pose proof (space_fresh _ _ _ _ _ _ _ _ _ (gr_ok _ _ _ _ G1) S1 F2) as S1'.
  eexists _, _. split; [exact (gr_ok _ _ _ _ G3)|]. split; [exact (space_fresh _ _ _ _ _ _ _ _ _ (gr_ok _ _ _ _ G2) S1' F3)|]. split; [exact (space_fresh _ _ _ _ _ _ _ _ _ (gr_ok _ _ _ _ G2) S2 F3)|]. split; [exact R3|].
  assert (Hpos : owned ({[(zero_page (mem1 s0), 1)]} ∪ ({[(zero_page s0, 1)]} ∪ ∅)) (zero_page (mem1 s0))) by (exists (zero_page (mem1 s0)), 1; split; [set_solver|lia]).
  split; [apply (fp_bytes _ _ _ _ _ _ F3), (fp_bytes _ _ _ _ _ _ F2), (fp_bytes _ _ _ _ _ _ F1); exact Hb0|].
  split; [exists (frame3 s0), 1; split; [set_solver|lia]|]. split; [eapply owned_sub; [apply G3|exact Hpos]|]. split; [by apply (gr_addr _ _ _ _ G3)|].
  split; [|split; [intros E; apply (fp_new _ _ _ _ _ _ F3); by rewrite E|split; [|apply F3]]].
  - unfold dir1, dir2. rewrite (fp_addr _ _ _ _ _ _ F1), (fp_addr _ _ _ _ _ _ F2), (fp_next _ _ _ _ _ _ F1). unfold window, PAGE_SIZE. lia.
  - unfold dir2, next_addr. rewrite (fp_addr _ _ _ _ _ _ F2), (fp_next _ _ _ _ _ _ F3), (fp_next _ _ _ _ _ _ F2). unfold window, PAGE_SIZE. lia.
Qed.

(** The parent, with its page mapped. *)
Lemma mem4_ok : exists E F T, ok (mem4 s0) E /\ space (mem4 s0) E (dir1 s0) T (frames4 s0) /\ space (mem4 s0) E (dir2 s0) ∅ ∅ /\ room (mem4 s0) F 4 /\ byte_mem (vmem (mem4 s0)) /\
  owned E (frame3 s0) /\ owned E (zero_page (mem1 s0)) /\ page_addr (mem4 s0) (zero_page (mem1 s0)) = (dir2 s0) /\ (dir1 s0) <> (dir2 s0) /\ (frame3 s0) <> zero_page (mem1 s0) /\ (forall i t, T !! i = Some t -> t <> zero_page (mem1 s0)).
Proof.
  destruct mem3_ok as (E & F & Hok & Hs1 & Hs2 & Hr & Hb & Ho3 & Ho2 & Ed & Hlt & Hne & Hnx & Hf3).
  assert (Ef : (frame3 s0) * PAGE_SIZE / PAGE_SIZE = (frame3 s0)) by (apply Z.div_mul; discriminate).
  destruct (user_idx vaddr0 ltac:(unfold vaddr0, VIRTUAL_BASE; lia)) as [Hi Hj].
  pose proof (do_user_map_page_spec (mem3 s0) E F (dir1 s0) ∅ ∅ (addr_to_diridx vaddr0) (addr_to_tabidx vaddr0) ((frame3 s0) * PAGE_SIZE) Hok Hs1 ltac:(eapply room_le; [exact Hr|unfold tables_needed; rewrite lookup_empty; lia]) Hi Hj ltac:(unfold PAGE_SIZE; lia)) as H.
  destruct (runs_after _ _ _ H) as ([] & E' & T' & Hg & Hs & Hroom & _ & Htab & Hbb & Hmem). change (after (do_user_map_page _ _ _ _) (mem3 s0)) with (mem4 s0) in *. rewrite Ef in Hs.
  destruct (Hroom 4%nat) as [F' Hr']; [unfold tables_needed; rewrite lookup_empty; exact Hr|].
  exists E', F', T'. split; [apply Hg|]. split; [exact Hs|]. split; [|split; [exact Hr'|split; [by apply Hbb|]]].
  - apply (space_frame (mem3 s0) E (dir2 s0) ∅ ∅); [done|done| |intros i t Ht; by rewrite lookup_empty in Ht]. intros a Ha. apply Hmem; [|unfold in_page in *; lia|intros t Ht; by rewrite lookup_empty in Ht].
    pose proof (next_after (mem3 s0) E _ Hok Ho2) as Hn. rewrite Ed in Hn. unfold in_page in Ha. lia.
  - split; [by eapply owned_sub; [apply Hg|]|]. split; [by eapply owned_sub; [apply Hg|]|]. split; [rewrite (gr_addr _ _ _ _ Hg) by done; done|]. split; [unfold PAGE_SIZE in *; lia|]. split; [done|].
    intros i t Ht E0. rewrite E0 in Ht. destruct (Htab i _ Ht) as [H1|[H1 _]]; [rewrite lookup_empty in H1; discriminate H1|exact (H1 Ho2)].
Qed.

End Ready.

Lemma user_map_page_correct_witness : exists s', user_map_page (dir1 pool8) vaddr0 ((frame3 pool8) * PAGE_SIZE) (mem3 pool8) = Done (tt, s') /\ runs (user_get_page (dir1 pool8) (vaddr0 + 5)) s' (fun r s'' => s'' = s' /\ r = Some (frame3 pool8)).
Proof.
  destruct (mem3_ok pool8 free8 (proj1 pool8_ok) pool8_room pool8_bytes) as (E & F & Hok & Hs1 & _ & Hr & _ & _ & _ & _ & _ & _ & _ & Hf3).
  assert (Ef : (frame3 pool8) * PAGE_SIZE / PAGE_SIZE = (frame3 pool8)) by (apply Z.div_mul; discriminate).
  assert (H : runs (user_map_page (dir1 pool8) vaddr0 ((frame3 pool8) * PAGE_SIZE)) (mem3 pool8) (fun _ s' => runs (user_get_page (dir1 pool8) (vaddr0 + 5)) s' (fun r s'' => s'' = s' /\ r = Some (frame3 pool8)))).
  { eapply runs_mono; [apply (user_map_page_correct (mem3 pool8) E F (dir1 pool8) ∅ ∅ vaddr0 ((frame3 pool8) * PAGE_SIZE) Hok Hs1)|].
    - eapply room_le; [exact Hr|]. unfold tables_needed. rewrite lookup_empty. lia.
    - unfold vaddr0, VIRTUAL_BASE. lia.
    - rewrite Ef. exact Hf3.
    - unfold PAGE_SIZE. lia.
    - intros [] s' (E' & T' & _ & _ & Hget & _). specialize (Hget (vaddr0 + 5) ltac:(unfold vaddr0, VIRTUAL_BASE; lia)). rewrite Ef in Hget. exact Hget. }
  destruct (proj1 (runs_Done _ _ _) H) as ([] & s' & E1 & H1). exists s'. split; [exact E1|exact H1].
Defined.

