(* ===== verification/Sync.v ===== *)
(** * Sync: ticket spinlocks and semaphores

    Models kernel/src/arch/spinlock.c, kernel/inc/sync/spinlock.h and
    kernel/inc/arch/spinlock.h as a transition system of CPUs, one step per atomic
    access, and kernel/src/sync/semaphore.c with kernel/inc/sync/semaphore.h and
    semaphore-post.h as one of threads, one step per stretch under the semaphore's
    lock. *)

From S2P Require Import Prelude Words.

(** ** The ticket lock *)

Module Spin.

Definition TICKET_SHIFT : Z := 16.

(** [spinlock_arch_t]: the two tickets, [head] in the low half of [raw], and the
    holder's number, 0xFFFF for none. *)
Record spinlock := Spinlock {
  head : Z;
  tail : Z;
  holder : Z;
}.

Definition SPINLOCK_UNLOCKED : spinlock := Spinlock 0 0 0xFFFF.
Definition SPINLOCK_LOCKED : spinlock := Spinlock 0 1 0xFFFF.

Definition raw (l : spinlock) : Z := Z.lor (head l) (tail l <<< 16).
Definition set_raw (r : Z) (l : spinlock) : spinlock := Spinlock (r mod 2 ^ 16) (r / 2 ^ 16) (holder l).

(** Where a CPU is in its calls on the lock. *)
Inductive pc :=
| Outside                      (** not in a call, not holding the lock *)
| Trying (old : Z)             (** [_spin_trylock] has read [old] *)
| Waiting (ticket : Z)         (** [_spin_lock] spins for [ticket] *)
| Entering                     (** at [lock_out] *)
| Holding                      (** in the critical section *)
| Leaving.                     (** [_spin_unlock] before the [add] *)

#[global] Instance pc_eq_dec : EqDecision pc.
Proof. solve_decision. Defined.

(** One lock and the CPUs using it; [lock_listed] is whether the lock is on the CPU's
    [lock_list]. *)
Record machine := Machine {
  lock : spinlock;
  at_ : Z -> pc;
  locks_held : Z -> Z;
  lock_listed : Z -> bool;
}.

Section Ops.
(** Whether per-CPU data is up, which turns the bookkeeping on. *)
Context (percpu_up : bool).

Definition goto (c : Z) (p : pc) (m : machine) : machine :=
  Machine (lock m) (<[c := p]> (at_ m)) (locks_held m) (lock_listed m).
Definition set_lock (l : spinlock) (m : machine) : machine :=
  Machine l (at_ m) (locks_held m) (lock_listed m).

(** The [xadd] of [_spin_lock]: it takes a ticket. *)
Definition take_ticket (c : Z) (m : machine) : machine :=
  let local := lock m in
  let m := set_lock (set_raw (u32 (raw local + (1 <<< TICKET_SHIFT))) local) m in
  goto c (if head local =? tail local then Entering else Waiting (tail local)) m.

(** One round of the waiting loop. *)
Definition wait_round (c ticket : Z) (m : machine) : machine :=
  if head (lock m) =? ticket then goto c Entering m else m.

(** From [lock_out] on. *)
Definition lock_out (c : Z) (m : machine) : outcome machine :=
  if percpu_up then
    if negb (holder (lock m) =? 0xFFFF) then Panic
    else Done (Machine (Spinlock (head (lock m)) (tail (lock m)) c) (<[c := Holding]> (at_ m))
                 (<[c := u32 (locks_held m c + 1)]> (locks_held m)) (<[c := true]> (lock_listed m)))
  else Done (goto c Holding m).

(** [_spin_trylock] reads the tickets ... *)
Definition try_read (c : Z) (m : machine) : machine :=
  if negb (head (lock m) =? tail (lock m)) then m else goto c (Trying (raw (lock m))) m.

(** ... and exchanges them if they are still the same. *)
Definition try_cmpxchg (c old : Z) (m : machine) : machine :=
  if raw (lock m) =? old
  then goto c Entering (set_lock (set_raw (u32 (old + (1 <<< TICKET_SHIFT))) (lock m)) m)
  else goto c Outside m.

(** [_spin_unlock] up to the barrier, and its [add]. *)
Definition unlock_check (c : Z) (m : machine) : outcome machine :=
  if percpu_up then
    if holder (lock m) =? 0xFFFF then Panic
    else Done (Machine (Spinlock (head (lock m)) (tail (lock m)) 0xFFFF) (<[c := Leaving]> (at_ m))
                 (<[c := u32 (locks_held m c - 1)]> (locks_held m)) (<[c := false]> (lock_listed m)))
  else Done (goto c Leaving m).

Definition unlock_add (c : Z) (m : machine) : machine :=
  goto c Outside (set_lock (Spinlock (u16 (head (lock m) + 1)) (tail (lock m)) (holder (lock m))) m).

(** What a CPU may do next: start one of the three calls, or go on with the one it
    is in. *)
Inductive choice := CLock | CTrylock | CUnlock.

Definition cpu_step (c : Z) (ch : choice) (m : machine) : outcome machine :=
  match at_ m c with
  | Outside =>
      match ch with
      | CLock => Done (take_ticket c m)
      | CTrylock => Done (try_read c m)
      | CUnlock => Done m
      end
  | Trying old => Done (try_cmpxchg c old m)
  | Waiting t => Done (wait_round c t m)
  | Entering => lock_out c m
  | Holding => match ch with CUnlock => unlock_check c m | _ => Done m end
  | Leaving => Done (unlock_add c m)
  end.
End Ops.

(** A schedule is the sequence of CPUs that make a step. *)
Fixpoint run (up : bool) (sched : list (Z * choice)) (m : machine) : outcome machine :=
  match sched with
  | [] => Done m
  | (c, ch) :: rest =>
      match cpu_step up c ch m with
      | Done m' => run up rest m'
      | Panic => Panic
      | Fault => Fault
      | NoFuel => NoFuel
      end
  end.

Definition init : machine := Machine SPINLOCK_UNLOCKED (fun _ => Outside) (fun _ => 0) (fun _ => false).

(** *** The tickets *)

Definition ticket_ok (t : Z) : Prop := 0 <= t < 2 ^ 16.

Lemma raw_eq l : ticket_ok (head l) -> raw l = head l + tail l * 2 ^ 16.
Proof. intros Hh. unfold raw. rewrite Z.lor_comm, lor_shiftl_add by (unfold ticket_ok in *; lia). lia. Qed.

(** Adding one to the tail does not reach the head, whatever overflows. *)
Lemma take_raw l : ticket_ok (head l) -> ticket_ok (tail l) ->
  set_raw (u32 (raw l + (1 <<< TICKET_SHIFT))) l = Spinlock (head l) (u16 (tail l + 1)) (holder l).
Proof.
  intros Hh Ht. unfold ticket_ok in *. unfold set_raw. rewrite raw_eq by done. change (1 <<< TICKET_SHIFT) with (2 ^ 16).
  unfold uwrap. change (2 ^ 32) with (2 ^ 16 * 2 ^ 16). rewrite Z.rem_mul_r by lia.
  replace (head l + tail l * 2 ^ 16 + 2 ^ 16) with (head l + (tail l + 1) * 2 ^ 16) by lia.
  rewrite Z_mod_plus_full, Z.div_add, (Z.div_small (head l)), (Z.mod_small (head l)) by lia.
  f_equal.
  - rewrite Z.mul_comm, Z_mod_plus_full. by apply Z.mod_small.
  - rewrite Z.mul_comm, Z.div_add, Z.div_small by lia. by rewrite !Z.add_0_l.
Qed.

Lemma ticket_inj b i j : 0 <= i < 2 ^ 16 -> 0 <= j < 2 ^ 16 -> u16 (b + i) = u16 (b + j) -> i = j.
Proof.
  intros Hi Hj E. unfold uwrap in E.
  pose proof (Z.div_mod (b + i) (2 ^ 16) ltac:(lia)). pose proof (Z.div_mod (b + j) (2 ^ 16) ltac:(lia)). lia.
Qed.

(** *** The queue behind the tickets *)

Definition in_lock (p : pc) : bool := match p with Outside | Trying _ => false | _ => true end.
Definition served (p : pc) : bool := match p with Entering | Holding | Leaving => true | _ => false end.

Definition bit (b : bool) : Z := if b then 1 else 0.

(** The CPUs [q] have tickets [base], [base + 1], ...; only the first can be past its
    wait, and the bookkeeping is that of the one CPU in the critical section. *)
Record queued (up : bool) (N : Z) (m : machine) (q : list Z) (base : Z) : Prop := Queued {
  q_nodup : NoDup q;
  q_cpu : forall c, c ∈ q -> 0 <= c < N;
  q_head : head (lock m) = u16 base;
  q_tail : tail (lock m) = u16 (base + Z.of_nat (length q));
  q_at : forall i c, q !! i = Some c ->
    at_ m c = Waiting (u16 (base + Z.of_nat i)) \/ (i = 0%nat /\ served (at_ m c) = true);
  q_out : forall c, c ∉ q -> at_ m c = Outside \/ exists t, ticket_ok t /\ at_ m c = Trying (t + t * 2 ^ 16);
  q_holder : forall c, at_ m c = Holding -> up = true -> holder (lock m) = c;
  q_free : (forall c, at_ m c = Holding -> up = false) -> holder (lock m) = 0xFFFF;
  q_count : forall c, locks_held m c = bit (up && bool_decide (at_ m c = Holding)) /\
    lock_listed m c = up && bool_decide (at_ m c = Holding);
}.

Definition lock_inv (up : bool) (N : Z) (m : machine) (q : list Z) : Prop := exists base, queued up N m q base.

(** The abstract lock: a queue of CPUs, of which the first has the lock. *)
Inductive fifo_step : list Z -> list Z -> Prop :=
| fifo_arrive c q : c ∉ q -> fifo_step q (q ++ [c])
| fifo_depart c q : fifo_step (c :: q) q
| fifo_stutter q : fifo_step q q.

Section Sim.
Context (up : bool) (N : Z) (HN : N <= 0xFFFF).

Lemma queue_short m q base : queued up N m q base -> Z.of_nat (length q) < 2 ^ 16.
Proof.
  intros Hq. assert (Hle : (length q <= length (seqZ 0 N))%nat).
  { apply NoDup_incl_length; [apply NoDup_ListNoDup, (q_nodup _ _ _ _ _ Hq)|]. intros c Hc. apply list_elem_of_In, elem_of_seqZ.
    apply list_elem_of_In in Hc. pose proof (q_cpu _ _ _ _ _ Hq c Hc). lia. }
  rewrite length_seqZ in Hle. lia.
Qed.

Lemma lock_tickets m q base : queued up N m q base -> ticket_ok (head (lock m)) /\ ticket_ok (tail (lock m)).
Proof. intros [_ _ -> -> _ _ _ _ _]. split; apply uwrap_range; lia. Qed.

(** The lock is free exactly when nobody is queued. *)
Lemma free_iff m q base : queued up N m q base -> head (lock m) = tail (lock m) <-> q = [].
Proof.
  intros Hq. pose proof (queue_short _ _ _ Hq). rewrite (q_head _ _ _ _ _ Hq), (q_tail _ _ _ _ _ Hq).
  split; [|intros ->; cbn; by rewrite Z.add_0_r]. intros E. rewrite <- (Z.add_0_r base) in E at 1.
  apply ticket_inj in E; [|lia..]. destruct q; [done|]. cbn in E. lia.
Qed.

Lemma queued_out m q base c : queued up N m q base -> in_lock (at_ m c) = false -> c ∉ q.
Proof.
  intros Hq Hin Hc. apply list_elem_of_lookup_1 in Hc as [i Hi].
  destruct (q_at _ _ _ _ _ Hq i c Hi) as [E|[_ E]]; [by rewrite E in Hin|]. by destruct (at_ m c).
Qed.

(** The one CPU past its wait is the first of the queue. *)
Lemma served_first m q base c : queued up N m q base -> served (at_ m c) = true -> exists r, q = c :: r.
Proof.
  intros Hq Hs. destruct (decide (c ∈ q)) as [Hc|Hc].
  - apply list_elem_of_lookup_1 in Hc as [i Hi]. destruct (q_at _ _ _ _ _ Hq i c Hi) as [E|[-> _]]; [by rewrite E in Hs|].
    destruct q as [|c' r]; [done|]. cbn in Hi. simplify_eq. eauto.
  - destruct (q_out _ _ _ _ _ Hq c Hc) as [E|(t & _ & E)]; by rewrite E in Hs.
Qed.

(** *** One lemma per kind of step *)

Lemma at_goto m c p c' : at_ (goto c p m) c' = if decide (c' = c) then p else at_ m c'.
Proof. unfold goto. cbn [at_]. case_decide as E; [subst; apply fn_insert_eq|by apply fn_insert_ne]. Qed.

Lemma count_keep m c p c' :
  at_ m c <> Holding -> p <> Holding -> bool_decide (at_ (goto c p m) c' = Holding) = bool_decide (at_ m c' = Holding).
Proof. intros H1 H2. rewrite at_goto. apply bool_decide_ext. case_decide; subst; split; congruence. Qed.

(** A CPU moves on without touching the lock or its queue. *)
Lemma move_queued m q base c p :
  queued up N m q base -> at_ m c <> Holding -> p <> Holding ->
  (forall i, q !! i = Some c -> p = Waiting (u16 (base + Z.of_nat i)) \/ (i = 0%nat /\ served p = true)) ->
  (c ∉ q -> p = Outside \/ exists t, ticket_ok t /\ p = Trying (t + t * 2 ^ 16)) ->
  queued up N (goto c p m) q base.
Proof.
  intros [H1 H2 H3 H4 H5 H6 H7 H8 H9] Hm Hp Hin Hout. split; try done.
  - intros i c' Hi. rewrite at_goto. case_decide; subst; auto.
  - intros c' Hc'. rewrite at_goto. case_decide; subst; auto.
  - intros c'. rewrite at_goto. case_decide; [done|]. apply H7.
  - intros Hf. apply H8. intros c' Hc'. apply (Hf c'). rewrite at_goto. case_decide; congruence.
  - intros c'. rewrite (count_keep m c p c' Hm Hp). apply H9.
Qed.

(** A CPU takes a ticket. *)
Lemma arrive_queued m q base c :
  queued up N m q base -> c ∉ q -> at_ m c <> Holding -> 0 <= c < N ->
  let p := if head (lock m) =? tail (lock m) then Entering else Waiting (tail (lock m)) in
  queued up N (goto c p (set_lock (Spinlock (head (lock m)) (u16 (tail (lock m) + 1)) (holder (lock m))) m)) (q ++ [c]) base.
Proof.
  intros Hq Hc Hm Hcn p. pose proof (free_iff _ _ _ Hq) as Hfree. pose proof (queue_short _ _ _ Hq) as Hshort.
  destruct Hq as [H1 H2 H3 H4 H5 H6 H7 H8 H9].
  assert (Hp : p <> Holding) by (unfold p; by destruct (_ =? _)). split; cbn [lock goto set_lock head tail holder].
  - apply NoDup_app. split; [done|]. split; [|apply NoDup_singleton]. intros x Hx ->%list_elem_of_singleton. done.
  - intros x Hx. apply elem_of_app in Hx as [Hx| ->%list_elem_of_singleton]; auto.
  - done.
  - rewrite H4, length_app. cbn [length]. unfold uwrap. rewrite Z.add_mod_idemp_l by lia. f_equal. lia.
  - intros i x Hi. rewrite at_goto. apply lookup_app_Some in Hi as [Hi|[Hlen Hi]].
    + rewrite decide_False by (intros ->; apply Hc; by eapply list_elem_of_lookup_2). by apply H5.
    + apply list_lookup_singleton_Some in Hi as [Hi ->]. rewrite decide_True by done. unfold p.
      replace i with (length q) by lia. destruct (Z.eqb_spec (head (lock m)) (tail (lock m))) as [E|E]; [|left; by rewrite H4].
      right. apply Hfree in E as ->. done.
  - intros x Hx. rewrite at_goto. rewrite decide_False by set_solver. apply H6. set_solver.
  - intros x. rewrite at_goto. case_decide; [done|]. apply H7.
  - intros Hf. apply H8. intros x Hx. apply (Hf x). rewrite at_goto. case_decide; [congruence|done].
  - intros x. unfold set_lock in *. rewrite (count_keep (Machine _ (at_ m) (locks_held m) (lock_listed m)) c p x Hm Hp). apply H9.
Qed.

(** The first of the queue passes [lock_out]. *)
Lemma lock_out_queued m q base c :
  queued up N m q base -> at_ m c = Entering ->
  exists m', lock_out up c m = Done m' /\ at_ m' c = Holding /\ queued up N m' q base.
Proof.
  intros Hq Hc. destruct (served_first _ _ _ c Hq ltac:(by rewrite Hc)) as [r Er].
  assert (Hnone : forall x, at_ m x = Holding -> False).
  { intros x Hx. destruct (served_first _ _ _ x Hq ltac:(by rewrite Hx)) as [r' Er']. congruence. }
  destruct Hq as [H1 H2 H3 H4 H5 H6 H7 H8 H9].
  assert (Hhold : forall x, at_ (goto c Holding m) x = Holding <-> x = c).
  { intros x. rewrite at_goto. case_decide; [done|]. split; [intros Hx; by destruct (Hnone x Hx)|done]. }
  assert (Hat : forall i x, q !! i = Some x -> at_ (goto c Holding m) x = Waiting (u16 (base + Z.of_nat i)) \/
    (i = 0%nat /\ served (at_ (goto c Holding m) x) = true)).
  { intros i x Hi. rewrite at_goto. case_decide as E; [|by apply H5]. right. split; [|done]. subst x.
    destruct (H5 i c Hi) as [E|[? _]]; [congruence|done]. }
  assert (Hout : forall x, x ∉ q -> at_ (goto c Holding m) x = Outside \/ exists t, ticket_ok t /\ at_ (goto c Holding m) x = Trying (t + t * 2 ^ 16)).
  { intros x Hx. rewrite at_goto. case_decide as E; [exfalso; apply Hx; rewrite E, Er; set_solver|by apply H6]. }
  unfold lock_out. rewrite (H8 ltac:(intros x Hx; by destruct (Hnone x Hx))). cbn [negb Z.eqb].
  destruct up; (eexists; split; [reflexivity|]; split; [cbn [at_]; apply fn_insert_eq|]); split; try done.
  - intros x Hx _. cbn [at_ lock holder] in *. by apply Hhold in Hx as ->.
  - intros Hf. exfalso. assert (true = false); [|done]. apply (Hf c). cbn [at_]. apply fn_insert_eq.
  - intros x. cbn [at_ locks_held lock_listed]. destruct (decide (x = c)) as [->|Hne].
    + rewrite !fn_insert_eq, bool_decide_true by done. destruct (H9 c) as [-> _]. rewrite Hc. done.
    + rewrite !fn_insert_ne by done. apply H9.
  - intros _. apply H8. intros x Hx. by destruct (Hnone x Hx).
Qed.

(** The holder gives the lock up ... *)
Lemma unlock_check_queued m q base c :
  queued up N m q base -> at_ m c = Holding -> 0 <= c < N ->
  exists m', unlock_check up c m = Done m' /\ at_ m' c = Leaving /\ queued up N m' q base.
Proof.
  intros Hq Hc Hcn. destruct (served_first _ _ _ c Hq ltac:(by rewrite Hc)) as [r Er].
  assert (Hone : forall x, at_ m x = Holding -> x = c).
  { intros x Hx. destruct (served_first _ _ _ x Hq ltac:(by rewrite Hx)) as [r' Er']. congruence. }
  destruct Hq as [H1 H2 H3 H4 H5 H6 H7 H8 H9].
  assert (Hnone : forall x, at_ (goto c Leaving m) x <> Holding).
  { intros x. rewrite at_goto. case_decide as E; [done|]. intros Hx. by apply E, Hone. }
  assert (Hat : forall i x, q !! i = Some x -> at_ (goto c Leaving m) x = Waiting (u16 (base + Z.of_nat i)) \/
    (i = 0%nat /\ served (at_ (goto c Leaving m) x) = true)).
  { intros i x Hi. rewrite at_goto. case_decide as E; [|by apply H5]. right. split; [|done]. subst x.
    destruct (H5 i c Hi) as [E|[? _]]; [congruence|done]. }
  assert (Hout : forall x, x ∉ q -> at_ (goto c Leaving m) x = Outside \/ exists t, ticket_ok t /\ at_ (goto c Leaving m) x = Trying (t + t * 2 ^ 16)).
  { intros x Hx. rewrite at_goto. case_decide as E; [exfalso; apply Hx; rewrite E, Er; set_solver|by apply H6]. }
  assert (Hbd : forall x, bool_decide (at_ (goto c Leaving m) x = Holding) = false) by (intros x; by apply bool_decide_false).
  unfold unlock_check. destruct up.
  - rewrite (H7 c Hc eq_refl). destruct (Z.eqb_spec c 0xFFFF); [lia|].
    eexists; split; [reflexivity|]; split; [cbn [at_]; apply fn_insert_eq|]. split; try done.
    + intros x Hx. by apply Hnone in Hx.
    + intros x. specialize (Hbd x). cbn [at_ goto] in Hbd. cbn [at_ locks_held lock_listed]. rewrite Hbd.
      destruct (decide (x = c)) as [->|Hne].
      * rewrite !fn_insert_eq. destruct (H9 c) as [-> _]. by rewrite bool_decide_true.
      * rewrite !fn_insert_ne by done. destruct (H9 x) as [-> ->].
        rewrite bool_decide_false by (intros Hx; by apply Hne, Hone). done.
  - eexists; split; [reflexivity|]; split; [cbn [at_]; apply fn_insert_eq|]. split; try done.
    intros _. apply H8. by intros x _.
Qed.

(** ... and the next in line is served. *)
Lemma unlock_add_queued m q base c :
  queued up N m q base -> at_ m c = Leaving -> exists r, q = c :: r /\ queued up N (unlock_add c m) r (base + 1).
Proof.
  intros Hq Hc. destruct (served_first _ _ _ c Hq ltac:(by rewrite Hc)) as [r ->]. exists r. split; [done|].
  destruct Hq as [H1 H2 H3 H4 H5 H6 H7 H8 H9]. apply NoDup_cons in H1 as [Hcr Hnd].
  assert (Hm : at_ m c <> Holding) by congruence.
  assert (Ho : forall x, bool_decide (at_ (unlock_add c m) x = Holding) = bool_decide (at_ m x = Holding)).
  { intros x. unfold unlock_add, set_lock. by apply (count_keep (Machine _ (at_ m) _ _)). }
  split; cbn [lock unlock_add goto set_lock head tail holder]; try done.
  - intros x Hx. apply H2. set_solver.
  - rewrite H3. unfold uwrap. by rewrite Z.add_mod_idemp_l by lia.
  - rewrite H4. cbn [length]. f_equal. lia.
  - intros i x Hi. assert (x <> c) by (intros ->; apply Hcr; by eapply list_elem_of_lookup_2).
    unfold unlock_add. rewrite at_goto, decide_False by done. cbn [at_ set_lock].
    destruct (H5 (S i) x Hi) as [E|[? _]]; [|done]. left. rewrite E. do 2 f_equal. lia.
  - intros x Hx. unfold unlock_add. rewrite at_goto. case_decide as E; [by left|]. apply H6. set_solver.
  - intros x. unfold unlock_add. rewrite at_goto. case_decide; [done|]. apply H7.
  - intros Hf. apply H8. intros x Hx. apply (Hf x). unfold unlock_add. rewrite at_goto. case_decide; [congruence|done].
  - intros x. rewrite Ho. apply H9.
Qed.

(** *** Simulation *)

Lemma cpu_step_sim m q c ch :
  lock_inv up N m q -> 0 <= c < N ->
  exists m' q', cpu_step up c ch m = Done m' /\ lock_inv up N m' q' /\ fifo_step q q'.
Proof.
  intros [base Hq] Hc. pose proof (lock_tickets _ _ _ Hq) as [Hh Ht].
  assert (Hstay : exists m' q', Done m = Done m' /\ lock_inv up N m' q' /\ fifo_step q q').
  { exists m, q. split; [done|]. split; [by exists base|constructor]. }
  unfold cpu_step. destruct (at_ m c) as [|old|t| | |] eqn:E.
  - assert (Hcq : c ∉ q) by (eapply queued_out; [exact Hq|by rewrite E]). destruct ch; [|..|exact Hstay].
    + exists (take_ticket c m), (q ++ [c]). split; [done|]. split; [|by constructor]. exists base.
      unfold take_ticket. rewrite take_raw by done. apply arrive_queued; [done|done|congruence|done].
    + unfold try_read. destruct (Z.eqb_spec (head (lock m)) (tail (lock m))) as [Ef|_]; cbn [negb]; [|exact Hstay].
      eexists _, q. split; [reflexivity|]. split; [|constructor]. exists base. apply move_queued; [done|congruence|done|..].
      * intros i Hi. destruct Hcq. by eapply list_elem_of_lookup_2.
      * intros _. right. exists (head (lock m)). split; [done|]. rewrite raw_eq by done. by rewrite <- Ef.
  - assert (Hcq : c ∉ q) by (eapply queued_out; [exact Hq|by rewrite E]). unfold try_cmpxchg.
    destruct (q_out _ _ _ _ _ Hq c Hcq) as [E'|(t & Htk & E')]; rewrite E in E'; [done|injection E' as ->].
    destruct (Z.eqb_spec (raw (lock m)) (t + t * 2 ^ 16)) as [Er|Er].
    + assert (Ef : head (lock m) = tail (lock m)).
      { rewrite raw_eq in Er by done. unfold ticket_ok in *. lia. }
      eexists _, (q ++ [c]). split; [reflexivity|]. split; [|by constructor]. exists base.
      rewrite <- Er, take_raw by done.
      pose proof (arrive_queued m q base c Hq Hcq ltac:(congruence) Hc) as Ha. cbv zeta in Ha. by rewrite (proj2 (Z.eqb_eq _ _) Ef) in Ha.
    + eexists _, q. split; [reflexivity|]. split; [|constructor]. exists base.
      apply move_queued; [done|congruence|done| |by left]. intros i Hi. destruct Hcq. by eapply list_elem_of_lookup_2.
  - unfold wait_round. destruct (Z.eqb_spec (head (lock m)) t) as [Eh|_]; [|exact Hstay].
    eexists _, q. split; [reflexivity|]. split; [|constructor]. exists base. apply move_queued; [done|congruence|done|..].
    + intros i Hi. right. split; [|done]. destruct (q_at _ _ _ _ _ Hq i c Hi) as [E'|[? _]]; [|done].
      rewrite E in E'. injection E' as ->. rewrite (q_head _ _ _ _ _ Hq) in Eh.
      pose proof (queue_short _ _ _ Hq). pose proof (lookup_lt_Some _ _ _ Hi).
      rewrite <- (Z.add_0_r base) in Eh at 1. apply ticket_inj in Eh; lia.
    + intros Hcq. destruct (q_out _ _ _ _ _ Hq c Hcq) as [E'|(t' & _ & E')]; congruence.
  - destruct (lock_out_queued m q base c Hq E) as (m' & Em & _ & Hq'). exists m', q.
    split; [done|]. split; [by exists base|constructor].
  - destruct ch; [exact Hstay..|]. destruct (unlock_check_queued m q base c Hq E Hc) as (m' & Em & _ & Hq').
    exists m', q. split; [done|]. split; [by exists base|constructor].
  - destruct (unlock_add_queued m q base c Hq E) as (r & -> & Hq'). exists (unlock_add c m), r.
    split; [done|]. split; [by exists (base + 1)|constructor].
Qed.

Lemma run_sim sched : forall m q,
  lock_inv up N m q -> Forall (fun x => 0 <= x.1 < N) sched ->
  exists m' q', run up sched m = Done m' /\ lock_inv up N m' q' /\ rtc fifo_step q q'.
Proof.
  induction sched as [|[c ch] sched IH]; intros m q Hq Hs.
  - exists m, q. split; [done|]. split; [done|constructor].
  - apply Forall_cons in Hs as [Hc Hs]. destruct (cpu_step_sim m q c ch Hq Hc) as (m1 & q1 & E & Hq1 & Hstep).
    destruct (IH m1 q1 Hq1 Hs) as (m2 & q2 & E2 & Hq2 & Hsteps). exists m2, q2. cbn [run]. rewrite E.
    split; [done|]. split; [done|]. by econstructor.
Qed.

(** Whoever is in the critical section is the first of the queue. *)
Lemma holding_first m q c : lock_inv up N m q -> at_ m c = Holding -> exists r, q = c :: r.
Proof. intros [base Hq] Hc. eapply served_first; [exact Hq|by rewrite Hc]. Qed.
End Sim.

Lemma init_inv up N : lock_inv up N init [].
Proof.
  exists 0. split; try done.
  - apply NoDup_nil_2.
  - intros c Hc. set_solver.
  - intros c _. by left.
  - intros c. split; cbn; by destruct up.
Qed.

Ltac all_cpus := repeat (apply List.Forall_cons; [cbn; lia|]); apply List.Forall_nil.

(** C5: mutual exclusion.  However up to 65535 CPUs interleave their calls of
    [spin_lock], [spin_trylock] and [spin_unlock] on one lock, step by atomic step,
    no holder check ever fails; at most one CPU is in the critical section at any
    time, the lock names it as the holder, and each CPU's count of locks held is
    right. *)
Theorem spinlock_safe up N sched :
  N <= 0xFFFF -> Forall (fun x => 0 <= x.1 < N) sched ->
  exists m, run up sched init = Done m /\
    (forall c1 c2, at_ m c1 = Holding -> at_ m c2 = Holding -> c1 = c2) /\
    (forall c, at_ m c = Holding -> up = true -> holder (lock m) = c) /\
    (forall c, locks_held m c = bit (up && bool_decide (at_ m c = Holding))).
Proof.
  intros HN Hs. destruct (run_sim up N HN sched init [] (init_inv up N) Hs) as (m & q & E & Hq & _).
  exists m. split; [done|]. split.
  - intros c1 c2 H1 H2. destruct (holding_first up N m q c1 Hq H1) as [r1 ->].
    by destruct (holding_first up N m (c1 :: r1) c2 Hq H2) as [r2 [= -> _]].
  - destruct Hq as [base Hq]. split; [apply (q_holder _ _ _ _ _ Hq)|intros c; apply (q_count _ _ _ _ _ Hq)].
Qed.

Lemma spinlock_safe_witness :
  exists m, run true [(0, CLock); (1, CLock); (0, CLock); (1, CLock); (2, CTrylock)] init = Done m /\
    at_ m 0 = Holding /\ at_ m 1 <> Holding.
Proof.
  destruct (spinlock_safe true 3 [(0, CLock); (1, CLock); (0, CLock); (1, CLock); (2, CTrylock)] ltac:(lia)
    ltac:(all_cpus)) as (m & E & Hex & _).
  exists m. split; [exact E|]. assert (H0 : at_ m 0 = Holding) by (vm_compute in E; injection E as <-; reflexivity).
  split; [exact H0|]. intros H1. discriminate (Hex 0 1 H0 H1).
Defined.

(** C6: the lock is a first-come first-served queue.  Every run of the
    machine from a state with CPUs [q] queued is matched by a run of the abstract
    lock, whose only moves are that a CPU joins at the end and that the first one
    leaves: a CPU is queued from the moment it has its ticket until it has given
    the lock up, and only the first in the queue is ever in the critical section. *)
Theorem spinlock_refines_fifo up N sched m q :
  N <= 0xFFFF -> lock_inv up N m q -> Forall (fun x => 0 <= x.1 < N) sched ->
  exists m' q', run up sched m = Done m' /\ lock_inv up N m' q' /\ rtc fifo_step q q' /\
    (forall c, c ∈ q' <-> in_lock (at_ m' c) = true) /\
    forall c, at_ m' c = Holding -> exists r, q' = c :: r.
Proof.
  intros HN Hq Hs. destruct (run_sim up N HN sched m q Hq Hs) as (m' & q' & E & Hq' & Hsteps).
  exists m', q'. split; [done|]. split; [done|]. split; [done|].
  split; [|intros c Hc; by apply (holding_first up N m')]. destruct Hq' as [base Hq']. intros c. split.
  - intros Hc. destruct (in_lock (at_ m' c)) eqn:Ein; [done|]. by destruct (queued_out up N m' q' base c Hq' Ein).
  - intros Hin. destruct (decide (c ∈ q')); [done|].
    destruct (q_out _ _ _ _ _ Hq' c) as [Eo|(t & _ & Eo)]; [done|..]; by rewrite Eo in Hin.
Qed.

Lemma spinlock_refines_fifo_witness :
  exists m' q', run true [(2, CLock); (0, CLock); (2, CLock)] init = Done m' /\ rtc fifo_step [] q' /\ exists r, q' = 2 :: r.
Proof.
  destruct (spinlock_refines_fifo true 3 [(2, CLock); (0, CLock); (2, CLock)] init [] ltac:(lia) (init_inv true 3)
    ltac:(all_cpus)) as (m' & q' & E & _ & Hs & _ & Hf).
  exists m', q'. split; [exact E|]. split; [exact Hs|]. apply (Hf 2). vm_compute in E. by injection E as <-.
Defined.

(** *** Progress *)

Lemma run_app up s1 s2 m m' : run up s1 m = Done m' -> run up (s1 ++ s2) m = run up s2 m'.
Proof.
  revert m. induction s1 as [|[c ch] s1 IH]; intros m E; cbn [run app] in *; [by simplify_eq|].
  destruct (cpu_step up c ch m); [by apply IH|done..].
Qed.

Lemma run_outside up c k m : at_ m c = Outside -> run up (replicate k (c, CUnlock)) m = Done m.
Proof. intros Hc. induction k as [|k IH]; cbn [replicate run]; [done|]. unfold cpu_step. by rewrite Hc. Qed.

Section Progress.
Context (up : bool) (N : Z) (HN : N <= 0xFFFF).

(** The first of the queue is through after at most four steps of its own. *)
Lemma first_leaves m c r :
  lock_inv up N m (c :: r) -> exists m', run up (replicate 4 (c, CUnlock)) m = Done m' /\ lock_inv up N m' r.
Proof.
  intros [base Hq]. assert (Hc : 0 <= c < N) by (apply (q_cpu _ _ _ _ _ Hq); set_solver).
  assert (Hleave : forall k m1, queued up N m1 (c :: r) base -> at_ m1 c = Leaving ->
    exists m', run up (replicate (S k) (c, CUnlock)) m1 = Done m' /\ lock_inv up N m' r).
  { intros k m1 Hq1 E1. destruct (unlock_add_queued up N HN m1 _ base c Hq1 E1) as (r' & [= <-] & Hq2).
    exists (unlock_add c m1). cbn [replicate run]. unfold cpu_step. rewrite E1. split; [|by exists (base + 1)].
    apply run_outside. unfold unlock_add. rewrite at_goto. by rewrite decide_True. }
  assert (Hhold : forall k m1, queued up N m1 (c :: r) base -> at_ m1 c = Holding ->
    exists m', run up (replicate (S (S k)) (c, CUnlock)) m1 = Done m' /\ lock_inv up N m' r).
  { intros k m1 Hq1 E1. destruct (unlock_check_queued up N HN m1 _ base c Hq1 E1 Hc) as (m2 & E & E2 & Hq2).
    destruct (Hleave k m2 Hq2 E2) as (m' & E3 & Hq3). exists m'. split; [|done].
    cbn [replicate run] in *. unfold cpu_step at 1. by rewrite E1, E. }
  assert (Henter : forall k m1, queued up N m1 (c :: r) base -> at_ m1 c = Entering ->
    exists m', run up (replicate (S (S (S k))) (c, CUnlock)) m1 = Done m' /\ lock_inv up N m' r).
  { intros k m1 Hq1 E1. destruct (lock_out_queued up N HN m1 _ base c Hq1 E1) as (m2 & E & E2 & Hq2).
    destruct (Hhold k m2 Hq2 E2) as (m' & E3 & Hq3). exists m'. split; [|done].
    cbn [replicate run] in *. unfold cpu_step at 1. by rewrite E1, E. }
  destruct (q_at _ _ _ _ _ Hq 0%nat c eq_refl) as [E|[_ Hs]].
  - assert (Hh : head (lock m) =? u16 (base + Z.of_nat 0) = true).
    { rewrite (q_head _ _ _ _ _ Hq). cbn [Z.of_nat]. rewrite Z.add_0_r. apply Z.eqb_refl. }
    assert (Hq1 : queued up N (goto c Entering m) (c :: r) base).
    { apply move_queued; [done|congruence|done|..].
      - intros i Hi. right. split; [|done]. pose proof (q_nodup _ _ _ _ _ Hq) as Hnd.
        by apply (NoDup_lookup (c :: r) i 0 c).
      - intros Hn. destruct Hn. set_solver. }
    destruct (Henter 0%nat _ Hq1) as (m' & E2 & Hq2); [rewrite at_goto; by rewrite decide_True|].
    exists m'. split; [|done]. cbn [replicate run] in *. unfold cpu_step at 1. rewrite E. unfold wait_round. by rewrite Hh.
  - destruct (at_ m c) eqn:E; try done; [by apply (Henter 1%nat)|by apply (Hhold 2%nat)|by apply (Hleave 3%nat)].
Qed.

Lemma queue_drains q : forall m, lock_inv up N m q ->
  exists m', run up (q ≫= fun c => replicate 4 (c, CUnlock)) m = Done m' /\ lock_inv up N m' [].
Proof.
  induction q as [|c r IH]; intros m Hq; [by exists m|].
  destruct (first_leaves m c r Hq) as (m1 & E1 & Hq1). destruct (IH m1 Hq1) as (m2 & E2 & Hq2).
  exists m2. split; [|done]. change ((c :: r) ≫= fun c => replicate 4 (c, CUnlock))
    with (replicate 4 (c, CUnlock) ++ (r ≫= fun c => replicate 4 (c, CUnlock))).
  by rewrite (run_app _ _ _ _ _ E1).
Qed.
End Progress.

(** No CPU waits for ever.  Whatever state the lock has got into, letting
    the queued CPUs run in the order of the queue, four steps each, serves every one
    of them and leaves the lock free: head and tail equal, nobody in the lock and the
    next [spin_trylock] would see it free.  In particular the ticket counters never
    skip a waiter, also when they wrap. *)
Theorem spinlock_progress up N m q :
  N <= 0xFFFF -> lock_inv up N m q ->
  exists m', run up (q ≫= fun c => replicate 4 (c, CUnlock)) m = Done m' /\
    head (lock m') = tail (lock m') /\ forall c, in_lock (at_ m' c) = false.
Proof.
  intros HN Hq. destruct (queue_drains up N HN q m Hq) as (m' & E & [base Hq']). exists m'. split; [done|].
  split; [by apply (free_iff up N HN m' [] base)|]. intros c.
  destruct (q_out _ _ _ _ _ Hq' c ltac:(set_solver)) as [Eo|(t & _ & Eo)]; by rewrite Eo.
Qed.

(** Two CPUs queued on a lock whose tickets are about to wrap. *)
Definition wrapping : machine :=
  Machine (Spinlock 0xFFFF 1 0xFFFF) (<[3 := Waiting 0xFFFF]> (<[1 := Waiting 0]> (fun _ => Outside))) (fun _ => 0) (fun _ => false).

Lemma wrapping_inv : lock_inv true 4 wrapping [3; 1].
Proof.
  exists 0xFFFF.
  assert (Hat : forall c, at_ wrapping c = if decide (c = 3) then Waiting 0xFFFF else if decide (c = 1) then Waiting 0 else Outside).
  { intros c. cbn [at_ wrapping]. destruct (decide (c = 3)) as [->|]; [apply fn_insert_eq|]. rewrite fn_insert_ne by done.
    destruct (decide (c = 1)) as [->|]; [apply fn_insert_eq|by rewrite fn_insert_ne]. }
  assert (Hnh : forall c, at_ wrapping c <> Holding) by (intros c; rewrite Hat; by repeat case_decide).
  split.
  - apply (bool_decide_unpack _). by vm_compute.
  - intros c Hc. set_unfold. lia.
  - done.
  - done.
  - intros [|[|i]] c Hi; cbn in Hi; simplify_eq; left; by rewrite Hat.
  - intros c Hc. left. rewrite Hat. repeat case_decide; subst; set_solver.
  - intros c Hc. by apply Hnh in Hc.
  - done.
  - intros c. by rewrite bool_decide_false by apply Hnh.
Qed.

Lemma spinlock_progress_witness :
  exists m', run true [(3, CUnlock); (3, CUnlock); (3, CUnlock); (3, CUnlock);
                       (1, CUnlock); (1, CUnlock); (1, CUnlock); (1, CUnlock)] wrapping = Done m' /\
    head (lock m') = 1 /\ tail (lock m') = 1.
Proof.
  destruct (spinlock_progress true 4 wrapping [3; 1] ltac:(lia) wrapping_inv) as (m' & E & Eht & _).
  exists m'. split; [exact E|]. assert (Ht : tail (lock m') = 1) by (vm_compute in E; injection E as <-; reflexivity).
  split; [rewrite Eht; exact Ht|exact Ht].
Defined.
End Spin.

(** ** Semaphores *)

Module Sem.

(** Where a thread is: outside, or asleep or on its way back in [_semaphore_down_yield]
    with the semaphore's lock released. *)
Inductive spc := Running | Yielded.

#[global] Instance spc_eq_dec : EqDecision spc.
Proof. solve_decision. Defined.

(** The semaphore and the state of the threads that use it; [insem] is
    [THREAD_FLAG_INSEM], [sleeping] is [THREAD_SLEEPING] and [waiters] the wait list,
    first entry first. *)
Record semaphore := Semaphore {
  count : Z;
  waiters : list Z;
  insem : Z -> bool;
  sleeping : Z -> bool;
  tpc : Z -> spc;
}.

Definition semaphore_init (n : Z) : semaphore :=
  Semaphore n [] (fun _ => false) (fun _ => false) (fun _ => Running).

Definition set_count (v : Z) (s : semaphore) := Semaphore v (waiters s) (insem s) (sleeping s) (tpc s).
Definition set_waiters (v : list Z) (s : semaphore) := Semaphore (count s) v (insem s) (sleeping s) (tpc s).
Definition set_insem (t : Z) (b : bool) (s : semaphore) :=
  Semaphore (count s) (waiters s) (<[t := b]> (insem s)) (sleeping s) (tpc s).
Definition set_sleeping (t : Z) (b : bool) (s : semaphore) :=
  Semaphore (count s) (waiters s) (insem s) (<[t := b]> (sleeping s)) (tpc s).
Definition set_tpc (t : Z) (p : spc) (s : semaphore) :=
  Semaphore (count s) (waiters s) (insem s) (sleeping s) (<[t := p]> (tpc s)).

Definition _semaphore_waitlist_add (t : Z) : M semaphore unit :=
  modify (fun s => set_waiters (t :: waiters s) s);;
  s ← get;
  BUG_ON (insem s t);;
  modify (set_insem t true).

Definition _semaphore_waitlist_rm (t : Z) : M semaphore unit :=
  modify (fun s => set_waiters (seq_rm t (waiters s)) s);;
  s ← get;
  BUG_ON (negb (insem s t));;
  modify (set_insem t false).

Definition _semaphore_down_begin (t : Z) : M semaphore bool :=
  s ← get;
  (if count s =? 0 then _semaphore_waitlist_add t else mret tt);;
  gets (fun s => negb (count s =? 0)).

Definition _semaphore_down_end_obtained : M semaphore unit :=
  s ← get;
  BUG_ON (count s =? 0);;
  modify (set_count (u32 (count s - 1))).

Definition _semaphore_down_end_gaveup (t : Z) : M semaphore unit := _semaphore_waitlist_rm t.

(** [_semaphore_down_yield] up to the release of the lock; [thread_sleep_prepare]
    checks that the thread is awake. *)
Definition _semaphore_down_yield (t : Z) : M semaphore unit :=
  s ← get;
  BUG_ON (negb (insem s t));;
  BUG_ON (sleeping s t);;
  modify (set_sleeping t true);;
  modify (set_tpc t Yielded).

(** The loop of [try_semaphore_down_while_condition], from the test of the condition
    to the next release of the lock.  The result is the number of units obtained. *)
Definition down_round (t : Z) (cond : bool) : M semaphore Z :=
  if negb cond then _semaphore_down_end_gaveup t;; mret 0
  else _semaphore_down_yield t;; mret 0.

(** The call, and its continuation when the thread runs again. *)
Definition down_start (t : Z) (cond : bool) : M semaphore Z :=
  skipped ← _semaphore_down_begin t;
  if (skipped : bool) then _semaphore_down_end_obtained;; mret 1
  else down_round t cond.

Definition down_resume (t : Z) (cond : bool) : M semaphore Z :=
  modify (set_tpc t Running);;
  s ← get;
  if insem s t then down_round t cond
  else _semaphore_down_end_obtained;; mret 1.

Definition semaphore_up : M semaphore unit :=
  modify (fun s => set_count (u32 (count s + 1)) s);;
  s ← get;
  match waiters s with
  | [] => mret tt
  | waiting :: _ => _semaphore_waitlist_rm waiting;; modify (set_sleeping waiting false)
  end.

(** What can happen: a thread calls down (with what its condition says), a sleeping
    thread that was woken goes on, somebody calls up, or a thread is poked awake for
    another reason. *)
Inductive event := EDown (t : Z) (cond : bool) | EResume (t : Z) (cond : bool) | EUp | EPoke (t : Z).

Definition enabled (e : event) (s : semaphore) : bool :=
  match e with
  | EDown t _ => bool_decide (tpc s t = Running)
  | EResume t _ => bool_decide (tpc s t = Yielded) && negb (sleeping s t)
  | _ => true
  end.

(** The event's effect and the units it gives to a thread. *)
Definition happen (e : event) : M semaphore Z :=
  s ← get;
  if negb (enabled e s) then mret 0
  else match e with
       | EDown t cond => down_start t cond
       | EResume t cond => down_resume t cond
       | EUp => semaphore_up;; mret 0
       | EPoke t => modify (set_sleeping t false);; mret 0
       end.

Fixpoint history (es : list event) : M semaphore Z :=
  match es with
  | [] => mret 0
  | e :: es' => n ← happen e; m ← history es'; mret (n + m)
  end.

Definition is_up (e : event) : Z := match e with EUp => 1 | _ => 0 end.
Fixpoint ups (es : list event) : Z := match es with [] => 0 | e :: es' => is_up e + ups es' end.

(** *** Invariant *)

Record sem_wf (s : semaphore) : Prop := SemWf {
  sm_nodup : NoDup (waiters s);
  sm_insem : forall t, insem s t = true <-> t ∈ waiters s;
  sm_yield : forall t, t ∈ waiters s -> tpc s t = Yielded;
  sm_sleep : forall t, sleeping s t = true -> insem s t = true;
  sm_count : 0 <= count s < 2 ^ 32;
}.

(** Threads that [semaphore_up] has taken off the list and that have not run yet. *)
Definition woken (s : semaphore) (t : Z) : Prop := tpc s t = Yielded /\ insem s t = false.

Lemma init_wf n : 0 <= n < 2 ^ 32 -> sem_wf (semaphore_init n).
Proof. intros Hn. split; try done; [apply NoDup_nil_2|intros t; cbn; set_solver|intros t Ht; set_solver]. Qed.

Lemma insem_false s t : sem_wf s -> t ∉ waiters s -> insem s t = false /\ sleeping s t = false.
Proof.
  intros [_ H2 _ H4 _] Ht. assert (E : insem s t = false) by (destruct (insem s t) eqn:E; [|done]; by apply H2 in E).
  split; [done|]. destruct (sleeping s t) eqn:Es; [|done]. apply H4 in Es. congruence.
Qed.

Ltac fn_cases := repeat match goal with
  | |- context [<[?a := _]> _ ?b] => destruct (decide (b = a)) as [->|]; [rewrite fn_insert_eq|rewrite fn_insert_ne by done]
  | H : context [<[?a := _]> _ ?b] |- _ => destruct (decide (b = a)) as [->|]; [rewrite fn_insert_eq in H|rewrite fn_insert_ne in H by done]
  end.

(** One unit is taken. *)
Lemma take_wf s : sem_wf s -> count s <> 0 -> sem_wf (set_count (u32 (count s - 1)) s) /\ u32 (count s - 1) = count s - 1.
Proof. intros [H1 H2 H3 H4 H5] Hc. rewrite uwrap_small by lia. split; [|done]. split; try done. cbn [count set_count]. lia. Qed.

(** What the rest of a round does to a thread on the list, [s'] being the state after. *)
Definition round_post (s : semaphore) (t : Z) (cond : bool) (s' : semaphore) : Prop :=
  sem_wf s' /\ count s' = count s /\ (forall x, x <> t -> tpc s' x = tpc s x /\ insem s' x = insem s x) /\
  tpc s' t = (if cond then Yielded else Running) /\ insem s' t = cond.

Lemma down_round_ok s t cond :
  NoDup (waiters s) -> (forall x, insem s x = true <-> x ∈ waiters s) -> t ∈ waiters s ->
  (forall x, x <> t -> x ∈ waiters s -> tpc s x = Yielded) -> (forall x, sleeping s x = true -> insem s x = true) ->
  0 <= count s < 2 ^ 32 -> sleeping s t = false -> tpc s t = Running ->
  runs (down_round t cond) s (fun n s' => n = 0 /\ round_post s t cond s').
Proof.
  intros H1 H2 Ht H3 H4 H5 Hs Hp. assert (Hin : insem s t = true) by by apply H2. unfold down_round. destruct cond; cbn [negb].
  - unfold _semaphore_down_yield. msteps; [by rewrite Hin|done|].
    split; [done|]. split; [split; cbn [waiters insem tpc sleeping count set_tpc set_sleeping]; try done|].
    + intros x Hx. fn_cases; [done|]. by apply H3.
    + intros x Hx. fn_cases; [done|]. by apply H4.
    + split; [done|]. cbn [tpc insem set_tpc set_sleeping]. split; [|split; [apply fn_insert_eq|done]].
      intros x Hx. by rewrite fn_insert_ne.
  - unfold _semaphore_down_end_gaveup, _semaphore_waitlist_rm. msteps; [cbn [insem set_waiters]; by rewrite Hin|]. split; [done|].
    split; [split; cbn [waiters insem tpc sleeping count set_insem set_waiters]|].
    + by apply NoDup_seq_rm.
    + intros x. rewrite elem_of_seq_rm. fn_cases; [naive_solver|]. rewrite H2. naive_solver.
    + intros x Hx. apply elem_of_seq_rm in Hx as [? ?]. by apply H3.
    + intros x Hx. fn_cases; [congruence|]. by apply H4.
    + done.
    + split; [done|]. cbn [tpc insem set_insem set_waiters]. split; [|split; [done|apply fn_insert_eq]].
      intros x Hx. by rewrite fn_insert_ne.
Qed.

(** *** One lemma per event *)

Lemma down_start_ok s t cond :
  sem_wf s -> tpc s t = Running ->
  runs (down_start t cond) s (fun n s' => sem_wf s' /\ count s' = count s - n /\ (n = 0 \/ (n = 1 /\ count s <> 0)) /\
    forall x, woken s' x <-> woken s x).
Proof.
  intros Hwf Hp. assert (Ht : t ∉ waiters s) by (intros Hin; apply (sm_yield s Hwf) in Hin; congruence).
  destruct (insem_false s t Hwf Ht) as [Hi Hs]. unfold down_start, _semaphore_down_begin. do 3 mstep. mstep.
  destruct (Z.eqb_spec (count s) 0) as [Ec|Ec].
  - unfold _semaphore_waitlist_add. msteps; [exact Hi|].
    cbn [count set_insem set_waiters]. rewrite Ec. cbn [negb Z.eqb].
    set (s1 := set_insem t true (set_waiters (t :: waiters s) s)). destruct Hwf as [H1 H2 H3 H4 H5].
    eapply runs_mono; [apply (down_round_ok s1 t cond); unfold s1; cbn [waiters insem tpc sleeping count set_insem set_waiters]|].
    + by apply NoDup_cons.
    + intros x. fn_cases; set_solver.
    + set_solver.
    + intros x Hne Hx. apply H3. set_solver.
    + intros x Hx. fn_cases; [done|]. by apply H4.
    + done.
    + done.
    + done.
    + intros n s' (-> & Hwf' & Hc' & Hoth & Hp' & Hi'). split; [done|].
      split; [rewrite Hc'; unfold s1; cbn [count set_insem set_waiters]; lia|]. split; [by left|].
      intros x. unfold woken. destruct (decide (x = t)) as [->|Hne].
      * rewrite Hp', Hi', Hp. split; [by intros [? ?]; destruct cond|by intros [? ?]].
      * destruct (Hoth x Hne) as [-> ->]. unfold s1. cbn [tpc insem set_insem set_waiters]. by rewrite fn_insert_ne.
  - do 2 mstep. destruct (Z.eqb_spec (count s) 0) as [?|_]; [done|]. cbn [negb]. unfold _semaphore_down_end_obtained.
    msteps; [by apply Z.eqb_neq|]. destruct (take_wf s Hwf Ec) as [Hw E].
    split; [done|]. cbn [count set_count]. split; [done|]. split; [by right|]. done.
Qed.

Lemma down_resume_ok s t cond :
  sem_wf s -> tpc s t = Yielded -> sleeping s t = false -> (insem s t = false -> count s <> 0) ->
  runs (down_resume t cond) s (fun n s' => sem_wf s' /\ count s' = count s - n /\
    n = (if insem s t then 0 else 1) /\ forall x, woken s' x <-> woken s x /\ x <> t).
Proof.
  intros Hwf Hp Hs Hbarge. unfold down_resume. do 4 mstep. cbn [insem set_tpc].
  set (s1 := set_tpc t Running s). pose proof Hwf as [H1 H2 H3 H4 H5]. destruct (insem s t) eqn:Hi.
  - eapply runs_mono; [apply (down_round_ok s1 t cond); unfold s1; cbn [waiters insem tpc sleeping count set_tpc]; try done|].
    + by apply H2.
    + intros x Hne Hx. rewrite fn_insert_ne by done. by apply H3.
    + apply fn_insert_eq.
    + intros n s' (-> & Hwf' & Hc' & Hoth & Hp' & Hi'). split; [done|]. split; [rewrite Hc'; cbn; lia|]. split; [done|].
      intros x. unfold woken. destruct (decide (x = t)) as [->|Hne].
      * rewrite Hp', Hi'. split; [by intros [? ?]; destruct cond|by intros [? ?]].
      * destruct (Hoth x Hne) as [-> ->]. unfold s1. cbn [tpc insem set_tpc]. rewrite fn_insert_ne by done. tauto.
  - specialize (Hbarge eq_refl). unfold _semaphore_down_end_obtained. msteps; [by apply Z.eqb_neq|].
    destruct (take_wf s Hwf Hbarge) as [Hw E]. cbn [count set_count s1 set_tpc].
    assert (Hnw : t ∉ waiters s) by (intros Hin; apply H2 in Hin; congruence).
    split; [|split; [done|split; [done|]]].
    + destruct Hw as [W1 W2 W3 W4 W5]. split; try done. cbn [waiters insem tpc sleeping count set_tpc set_count s1].
      intros x Hx. rewrite fn_insert_ne by (intros ->; done). by apply H3.
    + intros x. unfold woken. cbn [tpc insem set_tpc set_count s1]. destruct (decide (x = t)) as [->|Hne].
      * rewrite fn_insert_eq. naive_solver.
      * rewrite fn_insert_ne by done. tauto.
Qed.

Lemma semaphore_up_ok s :
  sem_wf s -> runs semaphore_up s (fun _ s' => sem_wf s' /\ count s' = u32 (count s + 1) /\
    waiters s' = tail (waiters s) /\ forall x, woken s' x <-> woken s x \/ head (waiters s) = Some x).
Proof.
  intros Hwf. unfold semaphore_up. do 4 mstep. cbn [waiters set_count]. pose proof Hwf as [H1 H2 H3 H4 H5].
  pose proof (uwrap_range 32 (count s + 1) ltac:(lia)) as Hr. destruct (waiters s) as [|t l] eqn:El.
  - mstep. split; [split; cbn [waiters insem tpc sleeping count set_count]; rewrite ?El; done|]. split; [done|].
    split; [by cbn; rewrite El|]. intros x. cbn. naive_solver.
  - assert (Hit : insem s t = true) by (apply H2; set_solver). apply NoDup_cons in H1 as [Htl Hnd].
    assert (Ef : seq_rm t (t :: l) = l) by by apply seq_rm_first.
    unfold _semaphore_waitlist_rm. msteps; [by cbn; rewrite Hit|]. cbn [waiters set_count set_sleeping set_insem set_waiters].
    rewrite El, Ef. split; [split; cbn [waiters insem tpc sleeping count set_sleeping set_insem set_waiters set_count]|].
    + done.
    + intros x. fn_cases; [split; [done|intros ?; done]|]. rewrite H2. set_solver.
    + intros x Hx. apply H3. set_solver.
    + intros x Hx. destruct (decide (x = t)) as [->|Hne]; [by rewrite fn_insert_eq in Hx|].
      rewrite fn_insert_ne in Hx |- * by done. by apply H4.
    + done.
    + split; [done|]. split; [done|]. intros x. unfold woken. cbn [tpc insem set_sleeping set_insem set_waiters set_count head].
      fn_cases; [|naive_solver]. split; [by right|]. intros _. split; [apply H3; set_solver|done].
Qed.

(** The one event that trips a bug check: a woken thread finds the unit it was woken
    for gone. *)
Definition barged (e : event) (s : semaphore) : Prop :=
  match e with EResume t _ => woken s t /\ sleeping s t = false /\ count s = 0 | _ => False end.

#[global] Instance barged_dec e s : Decision (barged e s).
Proof. destruct e; cbn; unfold woken; apply _. Defined.

Lemma happen_ok e s :
  sem_wf s -> ~ barged e s ->
  runs (happen e) s (fun n s' => sem_wf s' /\ count s' = u32 (count s + is_up e - n) /\ 0 <= n /\
    match e with
    | EDown _ _ => n <= count s /\ forall x, woken s' x <-> woken s x
    | EResume t _ => exists b : bool, n = (if b then 1 else 0) /\ (b = true -> woken s t) /\
        forall x, woken s' x <-> woken s x /\ ~ (b = true /\ x = t)
    | EUp => n = 0 /\ forall x, woken s' x <-> woken s x \/ head (waiters s) = Some x
    | EPoke _ => n = 0 /\ forall x, woken s' x <-> woken s x
    end).
Proof.
  intros Hwf Hnb. unfold happen. do 2 mstep. pose proof (sm_count s Hwf) as Hc. destruct (enabled e s) eqn:Een; cbn [negb].
  2: { mstep. destruct e as [t cond|t cond| |t]; try done; cbn [is_up]; rewrite uwrap_small by lia.
       - split; [done|]. split; [lia|]. split; [lia|]. split; [lia|done].
       - split; [done|]. split; [lia|]. split; [lia|]. exists false. split; [done|]. split; [done|]. naive_solver. }
  destruct e as [t cond|t cond| |t]; cbn [enabled is_up] in *.
  - apply bool_decide_eq_true in Een. eapply runs_mono; [by apply down_start_ok|].
    intros n s' (Hwf' & Ec & Hn & Hw). split; [done|]. rewrite Ec, Z.add_0_r, uwrap_small by lia. split; [done|].
    split; [lia|]. split; [lia|done].
  - apply andb_true_iff in Een as [Ey%bool_decide_eq_true Es%negb_true_iff].
    eapply runs_mono; [apply (down_resume_ok s t cond Hwf Ey Es)|].
    { intros Hi Hz. apply Hnb. done. }
    assert (Hpos : insem s t = false -> count s <> 0) by (intros Hi Hz; by apply Hnb).
    intros n s' (Hwf' & Ec & En & Hw). split; [done|]. rewrite Ec, Z.add_0_r.
    destruct (insem s t) eqn:Hi; subst n; [rewrite uwrap_small by lia|specialize (Hpos eq_refl); rewrite uwrap_small by lia];
      (split; [done|]; split; [lia|]).
    + exists false. split; [done|]. split; [done|]. intros x. rewrite Hw. unfold woken.
      split; [naive_solver|]. intros [[H1 H2] _]. split; [done|]. intros ->. congruence.
    + exists true. split; [done|]. split; [done|]. intros x. rewrite Hw. naive_solver.
  - mstep. eapply runs_mono; [by apply semaphore_up_ok|]. intros [] s' (Hwf' & Ec & _ & Hw). mstep.
    split; [done|]. rewrite Ec, Z.sub_0_r. done.
  - msteps. split; [|cbn [count set_sleeping]; rewrite Z.add_0_r, Z.sub_0_r, uwrap_small by lia; done].
    destruct Hwf as [H1 H2 H3 H4 H5]. split; try done. cbn [sleeping insem set_sleeping]. intros x Hx.
    destruct (decide (x = t)) as [->|Hne]; [by rewrite fn_insert_eq in Hx|]. rewrite fn_insert_ne in Hx by done. by apply H4.
Qed.

Lemma happen_barged e s : sem_wf s -> barged e s -> happen e s = Panic.
Proof.
  intros Hwf Hb. destruct e as [t cond|t cond| |t]; try done. destruct Hb as ([Hy Hi] & Hs & Hz).
  unfold happen. rewrite (bind_Done _ _ s s s) by done. cbn [enabled]. rewrite bool_decide_true, Hs by done. cbn [andb negb].
  unfold down_resume, mbind, M_bind, modify, get. cbn [insem set_tpc]. rewrite Hi.
  unfold _semaphore_down_end_obtained, mbind, M_bind, get, BUG_ON. cbn [count set_tpc]. by rewrite Hz.
Qed.

(** No unit is lost or made up.  Whatever sequence of downs (with any
    conditions), ups, resumptions and stray wake-ups happens, the wait list never
    holds a thread twice, holds exactly the threads flagged as waiting, and the
    counter is the initial count plus the ups less the units handed out.  The only bug
    check that can fire is the one in [_semaphore_down_end_obtained], and only for a
    thread that was woken and found the counter at zero. *)
Theorem semaphore_conserves es s :
  sem_wf s ->
  match history es s with
  | Done (n, s') => sem_wf s' /\ count s' = u32 (count s + ups es - n)
  | Panic => exists es1 e es2 n s1, es = es1 ++ e :: es2 /\ history es1 s = Done (n, s1) /\ barged e s1
  | _ => False
  end.
Proof.
  revert s. induction es as [|e es IH]; intros s Hwf; cbn [history ups].
  { unfold mret, M_ret. split; [done|]. rewrite uwrap_small; [lia|]. pose proof (sm_count s Hwf). lia. }
  destruct (decide (barged e s)) as [Hb|Hnb].
  - unfold mbind, M_bind. rewrite (happen_barged e s Hwf Hb). by exists [], e, es, 0, s.
  - pose proof (happen_ok e s Hwf Hnb) as Hr. apply runs_Done in Hr as (n & s1 & E & Hwf1 & Ec & _).
    rewrite (bind_Done _ _ _ _ _ E). specialize (IH s1 Hwf1). unfold mbind at 1, M_bind at 1.
    destruct (history es s1) as [[m s2]| | |] eqn:Eh; [|..|done|done].
    + unfold mret, M_ret. destruct IH as [H1 H2]. split; [done|]. rewrite H2, Ec. unfold uwrap.
      replace ((count s + is_up e - n) mod 2 ^ 32 + ups es - m) with ((count s + is_up e - n) mod 2 ^ 32 + (ups es - m)) by lia.
      rewrite Z.add_mod_idemp_l by lia. f_equal. lia.
    + destruct IH as (es1 & e1 & es2 & n1 & s2 & -> & E1 & Hb1).
      exists (e :: es1), e1, es2, (n + n1), s2. split; [done|]. split; [|done]. cbn [history].
      rewrite (bind_Done _ _ _ _ _ E), (bind_Done _ _ _ _ _ E1). done.
Qed.

Lemma semaphore_conserves_witness :
  match history [EDown 1 true; EDown 2 true; EUp; EResume 2 true; EUp; EResume 1 true] (semaphore_init 0) with
  | Done (n, s') => sem_wf s' /\ n = 2 /\ count s' = 0
  | _ => False
  end.
Proof.
  pose proof (semaphore_conserves [EDown 1 true; EDown 2 true; EUp; EResume 2 true; EUp; EResume 1 true]
    (semaphore_init 0) (init_wf 0 ltac:(lia))) as H.
  assert (exists s', history [EDown 1 true; EDown 2 true; EUp; EResume 2 true; EUp; EResume 1 true] (semaphore_init 0) = Done (2, s'))
    as [s' E] by (vm_compute; eexists; reflexivity).
  rewrite E in *. destruct H as [H1 H2]. split; [exact H1|]. split; [reflexivity|]. rewrite H2. reflexivity.
Defined.

(** The bug check in [semaphore_down] can be tripped by a third thread.
    Thread [t] waits on a semaphore at zero, another thread ups it, which wakes [t];
    if a thread [u] downs the semaphore before [t] gets to run, [u] takes the unit
    and [t] panics when it resumes. *)
Theorem semaphore_down_barging t u s :
  sem_wf s -> t <> u -> count s = 0 -> tpc s t = Running -> tpc s u = Running -> waiters s = [] ->
  history [EDown t true; EUp; EDown u true; EResume t true] s = Panic.
Proof.
  intros Hwf Htu Hc Ht Hu Hw. destruct (insem_false s t Hwf ltac:(rewrite Hw; set_solver)) as [Hi Hs].
  destruct (insem_false s u Hwf ltac:(rewrite Hw; set_solver)) as [Hiu Hsu].
  destruct s as [c w i sl p]. cbn in Hc, Ht, Hu, Hw, Hi, Hs, Hiu, Hsu. subst c w.
  unfold history, happen, enabled, down_start, _semaphore_down_begin, _semaphore_waitlist_add, down_round, _semaphore_down_yield,
    _semaphore_down_end_obtained, semaphore_up, _semaphore_waitlist_rm, down_resume, mbind, M_bind, mret, M_ret, get, gets, modify,
    BUG_ON, set_count, set_waiters, set_insem, set_sleeping, set_tpc.
  repeat (progress (cbn; change (u32 (0 + 1)) with 1; change (u32 (1 - 1)) with 0; rewrite ?fn_insert_eq, ?Hi, ?Hs, ?Hiu, ?Hsu, ?Ht, ?Hu; rewrite ?fn_insert_ne by done;
    rewrite ?bool_decide_true by done)).
  reflexivity.
Qed.

Lemma semaphore_down_barging_witness :
  history [EDown 1 true; EUp; EDown 2 true; EResume 1 true] (semaphore_init 0) = Panic.
Proof.
  apply (semaphore_down_barging 1 2 (semaphore_init 0) (init_wf 0 ltac:(lia))); try reflexivity; lia.
Defined.
End Sem.
