(* ===== verification/Ufd.v ===== *)
(** * Ufd: open files

    The global file table (kernel/src/fs/fd.c), the per-task descriptor tables and
    file-system contexts (the ufd and fs parts of kernel/src/sched/sched.c) and the
    system calls that only touch them (close, dup and dup2 of
    kernel/src/sched/syscall.c).  A file is its reference count here; [closed] logs
    the calls of its [close] operation.  Fresh allocations take the next address;
    what freshly allocated memory holds is an argument. *)

From S2P Require Import Prelude Words.

Definition MAX_NUM_FDS : Z := MIN (4096 / 8) (2 ^ 32 - 1).
Definition UFD_INVALID : Z := u32 (-1).

Record ufd := UfdEntry { u_flags : Z; u_gfd : Z }.

Record ufd_context := UfdContext {
  u_lock : bool;
  u_refs : Z;
  u_table : Z -> ufd;
}.

(** A path is its mount and its dentry. *)
Record fs_context := FsContext {
  fs_lock : bool;
  fs_refs : Z;
  fs_root : Z * Z;
  fs_pwd : Z * Z;
}.

Record fdtab := FdTab {
  files : gmap Z Z;
  gfdt_lock : bool;
  gfdt_entries_in_use : Z;
  closed : list Z;
  ufdcs : gmap Z ufd_context;
  fscs : gmap Z fs_context;
  fresh : Z;
}.

Definition set_files (v : gmap Z Z) (s : fdtab) : fdtab :=
  FdTab v (gfdt_lock s) (gfdt_entries_in_use s) (closed s) (ufdcs s) (fscs s) (fresh s).
Definition set_gfdt_lock (v : bool) (s : fdtab) : fdtab :=
  FdTab (files s) v (gfdt_entries_in_use s) (closed s) (ufdcs s) (fscs s) (fresh s).
Definition set_entries (v : Z) (s : fdtab) : fdtab :=
  FdTab (files s) (gfdt_lock s) v (closed s) (ufdcs s) (fscs s) (fresh s).
Definition set_closed (v : list Z) (s : fdtab) : fdtab :=
  FdTab (files s) (gfdt_lock s) (gfdt_entries_in_use s) v (ufdcs s) (fscs s) (fresh s).
Definition set_ufdcs (v : gmap Z ufd_context) (s : fdtab) : fdtab :=
  FdTab (files s) (gfdt_lock s) (gfdt_entries_in_use s) (closed s) v (fscs s) (fresh s).
Definition set_fscs (v : gmap Z fs_context) (s : fdtab) : fdtab :=
  FdTab (files s) (gfdt_lock s) (gfdt_entries_in_use s) (closed s) (ufdcs s) v (fresh s).
Definition set_fresh (v : Z) (s : fdtab) : fdtab :=
  FdTab (files s) (gfdt_lock s) (gfdt_entries_in_use s) (closed s) (ufdcs s) (fscs s) v.

(** A fresh object's address. *)
Definition new_address : M fdtab Z :=
  s ← get; put (set_fresh (fresh s + 1) s);; mret (fresh s).

(** ** The global file table *)

Definition with_gfdt {A} (m : M fdtab A) : M fdtab A := locked (fun s => Some (gfdt_lock s)) set_gfdt_lock m.

Definition file_refs (f : Z) : M fdtab Z := read (fun s => files s !! f).
Definition set_file_refs (f r : Z) : M fdtab unit := modify (fun s => set_files (<[f := r]> (files s)) s).

Definition gfdt_obtain : M fdtab Z :=
  f ← with_gfdt (modify (fun s => set_entries (u32 (gfdt_entries_in_use s + 1)) s);; new_address);
  set_file_refs f 0;;
  mret f.

Definition gfdt_get (f : Z) : M fdtab unit :=
  with_gfdt (r ← file_refs f; set_file_refs f (u32 (r + 1))).

Definition gfdt_free (f : Z) : M fdtab unit :=
  modify (fun s => set_closed (f :: closed s) s);;
  modify (fun s => set_files (delete f (files s)) s);;
  modify (fun s => set_entries (u32 (gfdt_entries_in_use s - 1)) s).

Definition gfdt_put (f : Z) : M fdtab unit :=
  with_gfdt (
    r ← file_refs f;
    (if negb (r =? 0) then set_file_refs f (u32 (r - 1)) else mret tt);;
    r' ← file_refs f;
    if r' =? 0 then gfdt_free f else mret tt).

(** ** Descriptor tables *)

Definition ufdc_at (u : Z) : M fdtab ufd_context := read (fun s => ufdcs s !! u).
Definition put_ufdc (u : Z) (c : ufd_context) : M fdtab unit := modify (fun s => set_ufdcs (<[u := c]> (ufdcs s)) s).

Definition set_u_lock (u : Z) (b : bool) (s : fdtab) : fdtab :=
  match ufdcs s !! u with
  | Some c => set_ufdcs (<[u := UfdContext b (u_refs c) (u_table c)]> (ufdcs s)) s
  | None => s
  end.
Definition with_ufds {A} (u : Z) (m : M fdtab A) : M fdtab A :=
  locked (fun s => u_lock <$> ufdcs s !! u) (set_u_lock u) m.

(** An entry of the table, which has [MAX_NUM_FDS] of them. *)
Definition table_get (u i : Z) : M fdtab ufd :=
  c ← ufdc_at u;
  read (fun _ => if (0 <=? i) && (i <? MAX_NUM_FDS) then Some (u_table c i) else None).
Definition table_set (u i : Z) (e : ufd) : M fdtab unit :=
  _ ← table_get u i;
  c ← ufdc_at u;
  put_ufdc u (UfdContext (u_lock c) (u_refs c) (<[i := e]> (u_table c))).

Definition __ufdt_is_present (u i : Z) : M fdtab bool :=
  if i <? MAX_NUM_FDS then e ← table_get u i; mret (negb (u_gfd e =? 0))
  else mret false.

Definition __ufdt_find_next (u : Z) : M fdtab Z :=
  iterM 513 (fun idx =>
    if idx <? MAX_NUM_FDS then
      p ← __ufdt_is_present u idx;
      if negb p then mret (inr idx) else mret (inl (idx + 1))
    else mret (inr UFD_INVALID)) 0.

Definition __ufdt_install (u idx gfd : Z) : M fdtab Z :=
  gfdt_get gfd;;
  table_set u idx (UfdEntry 0 gfd);;
  mret 0.

(** [u] is the table of the current thread. *)
Definition ufdt_add (u gfd : Z) : M fdtab Z :=
  with_ufds u (
    added ← __ufdt_find_next u;
    (if negb (added =? UFD_INVALID) then _ ← __ufdt_install u added gfd; mret tt else mret tt);;
    mret added).

Definition __ufdt_close (u i : Z) : M fdtab Z :=
  e ← table_get u i;
  gfdt_put (u_gfd e);;
  table_set u i (UfdEntry 0 0);;
  mret 0.

Definition ufdt_close (u i : Z) : M fdtab Z :=
  with_ufds u (
    p ← __ufdt_is_present u i;
    if negb p then mret (- EBADF) else __ufdt_close u i).

Definition ufdt_replace (u i fd : Z) : M fdtab Z :=
  with_ufds u (
    p ← __ufdt_is_present u i;
    ret ← (if (p : bool) then __ufdt_close u i else mret 0);
    if negb (ret =? 0) then mret ret else __ufdt_install u i fd).

Definition ufdt_valid (u i : Z) : M fdtab bool :=
  if i >=? MAX_NUM_FDS then mret false
  else with_ufds u (e ← table_get u i; mret (negb (u_gfd e =? 0))).

Definition ufdt_get (u i : Z) : M fdtab Z :=
  with_ufds u (
    p ← __ufdt_is_present u i;
    if (p : bool) then e ← table_get u i; mret (u_gfd e) else mret 0).

Definition ufdt_put (u i : Z) : M fdtab unit := with_ufds u (mret tt).

(** ** Building, copying and dropping tables *)

(** [for(i = 0; i < MAX_NUM_FDS - 1; i++)] of [ufd_context_build]. *)
Fixpoint clear_entries (n : nat) (i : Z) (t : Z -> ufd) : Z -> ufd :=
  match n with
  | O => t
  | S n' => clear_entries n' (i + 1) (<[i := UfdEntry 0 0]> t)
  end.

Definition ufd_context_build (junk : Z -> ufd) : M fdtab Z :=
  u ← new_address;
  put_ufdc u (UfdContext false 1 (clear_entries (Z.to_nat (MAX_NUM_FDS - 1)) 0 junk));;
  mret u.

Definition ufd_context_destroy (u : Z) : M fdtab unit :=
  forM 0 (Z.to_nat MAX_NUM_FDS) (fun i =>
    p ← __ufdt_is_present u i;
    if (p : bool) then e ← table_get u i; gfdt_put (u_gfd e) else mret tt);;
  modify (fun s => set_ufdcs (delete u (ufdcs s)) s).

Definition ufd_context_dup (junk : Z -> ufd) (src : Z) : M fdtab Z :=
  dst ← new_address;
  put_ufdc dst (UfdContext false 1 junk);;
  with_ufds src (
    forM 0 (Z.to_nat (MAX_NUM_FDS - 1)) (fun i =>
      p ← __ufdt_is_present src i;
      (if (p : bool) then e ← table_get src i; gfdt_get (u_gfd e) else mret tt);;
      e ← table_get src i;
      table_set dst i e));;
  mret dst.

(** [put_ufds] once the thread's pointer is taken: the count is tested before it is
    decremented. *)
Definition ufds_put (u : Z) : M fdtab unit :=
  newrefs ← with_ufds u (c ← ufdc_at u;
    put_ufdc u (UfdContext (u_lock c) (u32 (u_refs c - 1)) (u_table c));;
    mret (u_refs c));
  if newrefs =? 0 then ufd_context_destroy u else mret tt.

Definition ufds_get (u : Z) : M fdtab unit :=
  with_ufds u (c ← ufdc_at u; put_ufdc u (UfdContext (u_lock c) (u32 (u_refs c + 1)) (u_table c))).

(** ** File-system contexts *)

Definition fsc_at (f : Z) : M fdtab fs_context := read (fun s => fscs s !! f).
Definition put_fsc (f : Z) (c : fs_context) : M fdtab unit := modify (fun s => set_fscs (<[f := c]> (fscs s)) s).
Definition set_fs_lock (f : Z) (b : bool) (s : fdtab) : fdtab :=
  match fscs s !! f with
  | Some c => set_fscs (<[f := FsContext b (fs_refs c) (fs_root c) (fs_pwd c)]> (fscs s)) s
  | None => s
  end.
Definition with_fs {A} (f : Z) (m : M fdtab A) : M fdtab A :=
  locked (fun s => fs_lock <$> fscs s !! f) (set_fs_lock f) m.

(** [root] is [MNT_ROOT(root_mount)]. *)
Definition fs_context_build (root : Z * Z) : M fdtab Z :=
  f ← new_address; put_fsc f (FsContext false 1 root root);; mret f.

Definition fs_context_dup (src : Z) : M fdtab Z :=
  dst ← new_address;
  put_fsc dst (FsContext false 1 (0, 0) (0, 0));;
  with_fs src (c ← fsc_at src; put_fsc dst (FsContext false 1 (fs_root c) (fs_pwd c)));;
  mret dst.

Definition fs_context_destroy (f : Z) : M fdtab unit := modify (fun s => set_fscs (delete f (fscs s)) s).

Definition fs_put (f : Z) : M fdtab unit :=
  newrefs ← with_fs f (c ← fsc_at f;
    put_fsc f (FsContext (fs_lock c) (u32 (fs_refs c - 1)) (fs_root c) (fs_pwd c));;
    mret (fs_refs c));
  if newrefs =? 0 then fs_context_destroy f else mret tt.

(** ** System calls *)

Definition sys_close (u i : Z) : M fdtab Z :=
  file ← ufdt_get u i;
  if negb (file =? 0) then _ ← ufdt_close u i; ufdt_put u i;; mret 0 else mret (- EINVAL).

Definition sys_dup (u i : Z) : M fdtab Z :=
  fd ← ufdt_get u i;
  if fd =? 0 then mret (- EBADF) else ufdt_add u fd.

Definition sys_dup2 (u i i2 : Z) : M fdtab Z :=
  fd ← ufdt_get u i;
  if fd =? 0 then mret (- EBADF)
  else
    (if negb (i =? i2) then _ ← ufdt_replace u i2 fd; mret tt else mret tt);;
    mret i2.

(** ** Lookups *)

Definition present (t : Z -> ufd) (i : Z) : bool := (i <? MAX_NUM_FDS) && negb (u_gfd (t i) =? 0).

Definition in_table (i : Z) : Prop := 0 <= i < MAX_NUM_FDS.

Lemma table_get_spec s u c i (Q : ufd -> fdtab -> Prop) :
  ufdcs s !! u = Some c -> in_table i -> Q (u_table c i) s -> runs (table_get u i) s Q.
Proof.
  intros Hc [H1 H2] HQ. unfold table_get, ufdc_at. mstep. eapply runs_read; [exact Hc|].
  eapply runs_read; [|exact HQ]. apply Z.leb_le in H1. apply Z.ltb_lt in H2. by rewrite H1, H2.
Qed.

Lemma table_set_spec s u c i e (Q : unit -> fdtab -> Prop) :
  ufdcs s !! u = Some c -> in_table i ->
  Q tt (set_ufdcs (<[u := UfdContext (u_lock c) (u_refs c) (<[i := e]> (u_table c))]> (ufdcs s)) s) ->
  runs (table_set u i e) s Q.
Proof.
  intros Hc Hi HQ. unfold table_set, ufdc_at, put_ufdc. mstep. eapply table_get_spec; [exact Hc|exact Hi|].
  mstep. eapply runs_read; [exact Hc|]. by mstep.
Qed.

Lemma is_present_spec s u c i (Q : bool -> fdtab -> Prop) :
  ufdcs s !! u = Some c -> 0 <= i -> Q (present (u_table c) i) s -> runs (__ufdt_is_present u i) s Q.
Proof.
  intros Hc Hi HQ. unfold __ufdt_is_present, present in *. destruct (Z.ltb_spec i MAX_NUM_FDS); cbn [andb] in HQ; [|by mstep].
  mstep. eapply table_get_spec; [exact Hc|done|]. by mstep.
Qed.

(** The lowest free index, if there is one. *)
Lemma find_next_spec s u c (Q : Z -> fdtab -> Prop) :
  ufdcs s !! u = Some c ->
  (forall i, in_table i -> present (u_table c) i = false -> (forall j, 0 <= j < i -> present (u_table c) j = true) -> Q i s) ->
  ((forall j, in_table j -> present (u_table c) j = true) -> Q UFD_INVALID s) ->
  runs (__ufdt_find_next u) s Q.
Proof.
  intros Hc Hfound Hnone. unfold __ufdt_find_next.
  apply (runs_iterM (fun idx s' => s' = s /\ 0 <= idx <= MAX_NUM_FDS /\ forall j, 0 <= j < idx -> present (u_table c) j = true)
    (fun idx _ => Z.to_nat (MAX_NUM_FDS - idx))).
  - intros idx s' (-> & Hidx & Hbelow). destruct (Z.ltb_spec idx MAX_NUM_FDS).
    + mstep. eapply is_present_spec; [exact Hc|lia|]. destruct (present (u_table c) idx) eqn:Ep; cbn [negb]; mstep.
      * split; [|lia]. split; [done|]. split; [lia|]. intros j Hj. destruct (decide (j = idx)) as [->|]; [done|]. apply Hbelow. lia.
      * apply Hfound; [unfold in_table; lia|done|done].
    + mstep. apply Hnone. intros j [Hj1 Hj2]. apply Hbelow. lia.
  - split; [done|]. split; [change MAX_NUM_FDS with 512; lia|]. intros j Hj. lia.
  - change MAX_NUM_FDS with 512. lia.
Qed.

(** ** References *)

Lemma gfdt_get_spec s f r (Q : unit -> fdtab -> Prop) :
  gfdt_lock s = false -> files s !! f = Some r -> 0 <= r < 2 ^ 32 - 1 ->
  Q tt (set_files (<[f := r + 1]> (files s)) s) -> runs (gfdt_get f) s Q.
Proof.
  intros Hl Hf Hr HQ. unfold gfdt_get, with_gfdt. apply runs_locked; [by rewrite Hl|]. unfold file_refs, set_file_refs.
  mstep. eapply runs_read; [exact Hf|]. mstep. rewrite uwrap_small by lia. destruct s. cbn in *. by subst.
Qed.

(** Dropping a reference; the last one closes the file. *)
Definition dropped (f r : Z) (s : fdtab) : fdtab :=
  if r =? 1 then set_entries (u32 (gfdt_entries_in_use s - 1)) (set_files (delete f (files s)) (set_closed (f :: closed s) s))
  else set_files (<[f := r - 1]> (files s)) s.

Lemma gfdt_put_spec s f r (Q : unit -> fdtab -> Prop) :
  gfdt_lock s = false -> files s !! f = Some r -> 1 <= r < 2 ^ 32 -> Q tt (dropped f r s) -> runs (gfdt_put f) s Q.
Proof.
  intros Hl Hf Hr HQ. unfold gfdt_put, with_gfdt. apply runs_locked; [by rewrite Hl|]. unfold file_refs, set_file_refs.
  mstep. eapply runs_read; [exact Hf|]. destruct (Z.eqb_spec r 0); [lia|]. cbn [negb]. do 2 mstep. mstep.
  eapply runs_read; [cbn; by rewrite lookup_insert_eq|]. rewrite uwrap_small by lia. unfold dropped in HQ.
  destruct (Z.eqb_spec r 1) as [->|].
  - change (1 - 1 =? 0) with true. cbv iota. unfold gfdt_free. msteps. destruct s. cbn in *. subst.
    unfold set_gfdt_lock, set_entries, set_closed, set_files. cbn. by rewrite delete_insert_eq.
  - destruct (Z.eqb_spec (r - 1) 0); [lia|]. mstep. destruct s. cbn in *. by subst.
Qed.

(** How many entries of a table hold file [f]. *)
Definition cnt (t : Z -> ufd) (f : Z) : Z := Z.of_nat (length (filter (fun i => u_gfd (t i) = f) (seqZ 0 MAX_NUM_FDS))).

Definition bit (b : bool) : Z := if b then 1 else 0.

Lemma filter_length_insert (t : Z -> ufd) i e f l : NoDup l ->
  Z.of_nat (length (filter (fun j => u_gfd (<[i := e]> t j) = f) l)) =
  Z.of_nat (length (filter (fun j => u_gfd (t j) = f) l)) +
    (if bool_decide (i ∈ l) then bit (u_gfd e =? f) - bit (u_gfd (t i) =? f) else 0).
Proof.
  induction l as [|j l IH]; intros Hnd; [done|]. apply NoDup_cons in Hnd as [Hj Hnd]. specialize (IH Hnd).
  rewrite !filter_cons. destruct (decide (j = i)) as [->|Hne].
  - rewrite fn_insert_eq. rewrite (bool_decide_false (i ∈ l)) in IH by done. cbv iota in IH. rewrite (bool_decide_true (i ∈ i :: l)) by set_solver.
    unfold bit. destruct (Z.eqb_spec (u_gfd e) f), (Z.eqb_spec (u_gfd (t i)) f);
      repeat case_decide; try done; cbn [length]; lia.
  - rewrite fn_insert_ne by done. rewrite (bool_decide_ext (i ∈ j :: l) (i ∈ l)) by set_solver.
    repeat case_decide; try done; cbn [length]; lia.
Qed.

Lemma cnt_insert t i e f : in_table i -> cnt (<[i := e]> t) f = cnt t f + bit (u_gfd e =? f) - bit (u_gfd (t i) =? f).
Proof.
  intros Hi. unfold cnt. rewrite filter_length_insert by apply NoDup_seqZ. unfold in_table in Hi.
  rewrite bool_decide_true by (apply elem_of_seqZ; lia). lia.
Qed.

Lemma cnt_range t f : 0 <= cnt t f <= MAX_NUM_FDS.
Proof.
  unfold cnt. pose proof (length_filter (fun i => u_gfd (t i) = f) (seqZ 0 MAX_NUM_FDS)) as H.
  rewrite length_seqZ in H. change MAX_NUM_FDS with 512 in *. lia.
Qed.

Lemma cnt_pos t i : in_table i -> 1 <= cnt t (u_gfd (t i)).
Proof.
  intros Hi. unfold cnt. assert (Hin : i ∈ filter (fun j => u_gfd (t j) = u_gfd (t i)) (seqZ 0 MAX_NUM_FDS)).
  { apply list_elem_of_filter. split; [done|]. apply elem_of_seqZ. unfold in_table in Hi. lia. }
  destruct (filter _ _); [set_solver|]. cbn [length]. lia.
Qed.

(** ** Invariant *)

(** Every file's count is the number of descriptors in the table [t] plus [ext], the
    references held elsewhere; every descriptor names a live file. *)
Record refs_ok (F : gmap Z Z) (t : Z -> ufd) (ext : Z -> Z) : Prop := RefsOk {
  ro_count : forall f r, F !! f = Some r -> r = cnt t f + ext f;
  ro_ext : forall f, 0 <= ext f < 2 ^ 31;
  ro_live : forall i, in_table i -> u_gfd (t i) <> 0 -> is_Some (F !! u_gfd (t i));
  ro_null : F !! 0 = None;
}.

Definition balanced (s : fdtab) (u : Z) (t : Z -> ufd) (ext : Z -> Z) : Prop :=
  gfdt_lock s = false /\ (exists n, ufdcs s !! u = Some (UfdContext false n t)) /\ refs_ok (files s) t ext.

Lemma refs_install F t ext i f r :
  refs_ok F t ext -> in_table i -> u_gfd (t i) = 0 -> F !! f = Some r ->
  refs_ok (<[f := r + 1]> F) (<[i := UfdEntry 0 f]> t) ext.
Proof.
  intros [H1 H2 H3 H4] Hi Hz Hf. assert (Hf0 : f <> 0) by congruence. split.
  - intros g rg Hg. rewrite cnt_insert by done. cbn [u_gfd]. rewrite Hz. unfold bit.
    destruct (decide (g = f)) as [->|Hne].
    + rewrite lookup_insert_eq in Hg. simplify_eq. rewrite Z.eqb_refl. destruct (Z.eqb_spec 0 f); [congruence|].
      rewrite (H1 f r Hf). lia.
    + rewrite lookup_insert_ne in Hg by done. destruct (Z.eqb_spec f g); [congruence|].
      destruct (Z.eqb_spec 0 g); [congruence|]. rewrite (H1 g rg Hg). lia.
  - done.
  - intros j Hj. destruct (decide (j = i)) as [->|Hne].
    + rewrite fn_insert_eq. cbn [u_gfd]. intros _. rewrite lookup_insert_eq. eauto.
    + rewrite fn_insert_ne by done. intros Hnz. destruct (decide (f = u_gfd (t j))) as [->|]; [rewrite lookup_insert_eq; eauto|].
      rewrite lookup_insert_ne by done. by apply H3.
  - by rewrite lookup_insert_ne.
Qed.

Lemma refs_close F t ext i r :
  refs_ok F t ext -> in_table i -> u_gfd (t i) <> 0 -> F !! u_gfd (t i) = Some r ->
  1 <= r <= 2 ^ 31 + 512 /\
  refs_ok (if r =? 1 then delete (u_gfd (t i)) F else <[u_gfd (t i) := r - 1]> F) (<[i := UfdEntry 0 0]> t) ext.
Proof.
  intros [H1 H2 H3 H4] Hi Hz Hf. set (f := u_gfd (t i)) in *. pose proof (H1 f r Hf) as Hr. pose proof (H2 f) as He.
  pose proof (cnt_pos t i Hi) as Hpos. fold f in Hpos. pose proof (cnt_range t f) as Hrange. change MAX_NUM_FDS with 512 in Hrange.
  split; [lia|].
  assert (Hcnt : forall g, g <> 0 -> cnt (<[i := UfdEntry 0 0]> t) g = cnt t g - bit (f =? g)).
  { intros g Hg. rewrite cnt_insert by done. cbn [u_gfd]. fold f. unfold bit. destruct (Z.eqb_spec 0 g); [congruence|]. lia. }
  assert (Hkeep : forall g, g <> f -> (if r =? 1 then delete f F else <[f := r - 1]> F) !! g = F !! g).
  { intros g Hg. destruct (r =? 1); [by rewrite lookup_delete_ne|by rewrite lookup_insert_ne]. }
  split.
  - intros g rg Hg. destruct (decide (g = f)) as [->|Hne].
    + rewrite Hcnt by done. unfold bit. rewrite Z.eqb_refl.
      destruct (r =? 1); [by rewrite lookup_delete_eq in Hg|]. rewrite lookup_insert_eq in Hg. simplify_eq. lia.
    + rewrite Hkeep in Hg by done. assert (g <> 0) by congruence. rewrite Hcnt by done. unfold bit.
      destruct (Z.eqb_spec f g); [congruence|]. rewrite (H1 g rg Hg). lia.
  - done.
  - intros j Hj. destruct (decide (j = i)) as [->|Hne]; [by rewrite fn_insert_eq|]. rewrite fn_insert_ne by done. intros Hnz.
    destruct (decide (u_gfd (t j) = f)) as [E|E]; [|rewrite Hkeep by done; by apply H3].
    rewrite E. destruct (Z.eqb_spec r 1) as [->|]; [exfalso|rewrite lookup_insert_eq; eauto].
    pose proof (cnt_pos (<[i := UfdEntry 0 0]> t) j Hj) as Hp. rewrite fn_insert_ne, E, Hcnt in Hp by done.
    unfold bit in Hp. rewrite Z.eqb_refl in Hp. lia.
  - destruct (decide (0 = f)); [congruence|]. by rewrite Hkeep.
Qed.

(** ** The operations *)

Lemma lookup_set_u_lock s u c b : ufdcs s !! u = Some c ->
  ufdcs (set_u_lock u b s) !! u = Some (UfdContext b (u_refs c) (u_table c)) /\ files (set_u_lock u b s) = files s /\
  gfdt_lock (set_u_lock u b s) = gfdt_lock s /\ closed (set_u_lock u b s) = closed s.
Proof. intros Hc. unfold set_u_lock. rewrite Hc. cbn. by rewrite lookup_insert_eq. Qed.

(** Code that runs under the table's lock. *)
Lemma runs_ufds {A} s u t ext (m : M fdtab A) (Q : A -> fdtab -> Prop) :
  balanced s u t ext ->
  (forall n s1, ufdcs s1 !! u = Some (UfdContext true n t) -> files s1 = files s -> gfdt_lock s1 = false -> closed s1 = closed s ->
    runs m s1 (fun a s2 => Q a (set_u_lock u false s2))) ->
  runs (with_ufds u m) s Q.
Proof.
  intros (Hl & (n & Hn) & _) Hm. unfold with_ufds. apply runs_locked; [by rewrite Hn|].
  destruct (lookup_set_u_lock s u _ true Hn) as (E1 & E2 & E3 & E4). apply (Hm n); [done|done|congruence|done].
Qed.

Lemma balanced_unlock s2 u n b t ext :
  ufdcs s2 !! u = Some (UfdContext b n t) -> gfdt_lock s2 = false -> refs_ok (files s2) t ext -> balanced (set_u_lock u false s2) u t ext.
Proof.
  intros Hc Hl Hr. destruct (lookup_set_u_lock s2 u _ false Hc) as (E1 & E2 & E3 & E4).
  split; [congruence|]. split; [by exists n|congruence].
Qed.

Lemma install_spec s u c i f r (Q : Z -> fdtab -> Prop) :
  ufdcs s !! u = Some c -> in_table i -> gfdt_lock s = false -> files s !! f = Some r -> 0 <= r < 2 ^ 32 - 1 ->
  (forall s2, files s2 = <[f := r + 1]> (files s) -> gfdt_lock s2 = false -> closed s2 = closed s ->
    ufdcs s2 !! u = Some (UfdContext (u_lock c) (u_refs c) (<[i := UfdEntry 0 f]> (u_table c))) -> Q 0 s2) ->
  runs (__ufdt_install u i f) s Q.
Proof.
  intros Hc Hi Hl Hf Hr HQ. unfold __ufdt_install. mstep. eapply gfdt_get_spec; [done|done|done|].
  mstep. eapply table_set_spec; [exact Hc|done|]. mstep. apply HQ; try done. cbn. by rewrite lookup_insert_eq.
Qed.

Lemma close_spec s u c i r (Q : Z -> fdtab -> Prop) :
  ufdcs s !! u = Some c -> in_table i -> gfdt_lock s = false -> files s !! u_gfd (u_table c i) = Some r -> 1 <= r < 2 ^ 32 ->
  let f := u_gfd (u_table c i) in
  (forall s2, files s2 = (if r =? 1 then delete f (files s) else <[f := r - 1]> (files s)) -> gfdt_lock s2 = false ->
    closed s2 = (if r =? 1 then f :: closed s else closed s) ->
    ufdcs s2 !! u = Some (UfdContext (u_lock c) (u_refs c) (<[i := UfdEntry 0 0]> (u_table c))) -> Q 0 s2) ->
  runs (__ufdt_close u i) s Q.
Proof.
  intros Hc Hi Hl Hf Hr f HQ. unfold __ufdt_close. mstep. eapply table_get_spec; [exact Hc|done|].
  mstep. eapply gfdt_put_spec; [done|exact Hf|done|]. fold f.
  mstep. eapply table_set_spec; [unfold dropped; destruct (r =? 1); exact Hc|done|]. mstep.
  apply HQ; unfold dropped; destruct (r =? 1); try done; cbn; by rewrite lookup_insert_eq.
Qed.

Lemma ufdt_get_spec s u t ext i :
  balanced s u t ext -> 0 <= i ->
  runs (ufdt_get u i) s (fun f s' => balanced s' u t ext /\ files s' = files s /\ closed s' = closed s /\
    f = if present t i then u_gfd (t i) else 0).
Proof.
  intros Hb Hi. unfold ufdt_get. eapply runs_ufds; [done|]. intros n s1 Hc Hf Hl Hcl. pose proof Hb as (_ & _ & Hr).
  mstep. eapply is_present_spec; [exact Hc|lia|]. cbn [u_table]. destruct (lookup_set_u_lock s1 u _ false Hc) as (_ & E2 & _ & E4).
  assert (Hres : balanced (set_u_lock u false s1) u t ext /\ files (set_u_lock u false s1) = files s /\ closed (set_u_lock u false s1) = closed s).
  { split; [eapply balanced_unlock; [exact Hc|done|by rewrite Hf]|]. split; congruence. }
  destruct (present t i) eqn:Ep; [|mstep; naive_solver].
  apply andb_true_iff in Ep as [Ep%Z.ltb_lt _]. mstep. eapply table_get_spec; [exact Hc|done|]. mstep. naive_solver.
Qed.

Lemma refs_bound F t ext f r : refs_ok F t ext -> F !! f = Some r -> 0 <= r < 2 ^ 32 - 1.
Proof.
  intros Hr Hf. rewrite (ro_count _ _ _ Hr f r Hf). pose proof (ro_ext _ _ _ Hr f). pose proof (cnt_range t f).
  change MAX_NUM_FDS with 512 in *. lia.
Qed.

Lemma present_true t i : 0 <= i -> present t i = true <-> in_table i /\ u_gfd (t i) <> 0.
Proof.
  intros Hi. unfold present, in_table. rewrite andb_true_iff, negb_true_iff, Z.ltb_lt, Z.eqb_neq. lia.
Qed.

Lemma present_false t i : in_table i -> present t i = false <-> u_gfd (t i) = 0.
Proof.
  intros [Hi1 Hi2]. unfold present. apply Z.ltb_lt in Hi2. rewrite Hi2. cbn [andb]. rewrite negb_false_iff. apply Z.eqb_eq.
Qed.

Lemma ufdt_add_spec s u t ext f r :
  balanced s u t ext -> files s !! f = Some r ->
  runs (ufdt_add u f) s (fun i s' =>
    (i = UFD_INVALID /\ (forall j, in_table j -> present t j = true) /\ balanced s' u t ext /\ files s' = files s) \/
    (in_table i /\ present t i = false /\ (forall j, 0 <= j < i -> present t j = true) /\
     balanced s' u (<[i := UfdEntry 0 f]> t) ext /\ files s' = <[f := r + 1]> (files s))).
Proof.
  intros Hb Hf. unfold ufdt_add. eapply runs_ufds; [done|]. intros n s1 Hc Hf1 Hl1 Hcl1. pose proof Hb as (_ & _ & Hr).
  mstep. eapply find_next_spec; [exact Hc|..].
  - intros i Hi Hfree Hbelow. cbn [u_table] in *.
    destruct (Z.eqb_spec i UFD_INVALID) as [E|_]; [exfalso; unfold in_table in Hi; change UFD_INVALID with 4294967295 in E; change MAX_NUM_FDS with 512 in Hi; lia|].
    cbn [negb]. do 2 mstep. eapply (install_spec s1 u _ i f r); [exact Hc|done|done|by rewrite Hf1|by eapply refs_bound|].
    intros s2 E1 E2 E3 E4. do 2 mstep. right. split; [done|]. split; [done|]. split; [done|].
    destruct (lookup_set_u_lock s2 u _ false E4) as (_ & E5 & _ & _). split; [|by rewrite E5, E1, Hf1].
    eapply balanced_unlock; [exact E4|done|]. rewrite E1, Hf1. cbn [u_table]. apply refs_install; [done|done|by apply present_false|done].
  - intros Hall. rewrite Z.eqb_refl. cbn [negb]. do 3 mstep. left. split; [done|]. split; [done|].
    destruct (lookup_set_u_lock s1 u _ false Hc) as (_ & E5 & _ & _). split; [|congruence].
    eapply balanced_unlock; [exact Hc|done|by rewrite Hf1].
Qed.

(** A file just obtained: nothing refers to it. *)
Lemma refs_register F t ext f : refs_ok F t ext -> F !! f = None -> f <> 0 -> ext f = 0 -> refs_ok (<[f := 0]> F) t ext.
Proof.
  intros [H1 H2 H3 H4] Hf Hf0 He. split; [|done| |by rewrite lookup_insert_ne].
  - intros g r Hg. destruct (decide (g = f)) as [->|Hne]; [|rewrite lookup_insert_ne in Hg by done; by apply H1]. rewrite lookup_insert_eq in Hg. injection Hg as <-. rewrite He. unfold cnt. rewrite filter_drops; [done|].
    apply Forall_forall. intros i Hi E. apply elem_of_seqZ in Hi. destruct (H3 i) as [x Hx]; [unfold in_table; lia|by rewrite E|]. congruence.
  - intros i Hi Hn. rewrite lookup_insert_is_Some'. right. by apply H3.
Qed.

(** [ufdt_add] takes the lowest free descriptor.  With reference counts in
    balance it installs the file at the lowest index whose entry is free, takes one
    reference for it and leaves every other entry alone; when all 512 entries are
    used it changes nothing and returns [UFD_INVALID].  The counts stay in balance. *)
Theorem ufdt_add_correct s u t ext f r :
  balanced s u t ext -> files s !! f = Some r ->
  runs (ufdt_add u f) s (fun i s' =>
    (i = UFD_INVALID /\ (forall j, in_table j -> present t j = true) /\ balanced s' u t ext /\ files s' = files s) \/
    (in_table i /\ present t i = false /\ (forall j, 0 <= j < i -> present t j = true) /\
     balanced s' u (<[i := UfdEntry 0 f]> t) ext /\ files s' = <[f := r + 1]> (files s))).
Proof. apply ufdt_add_spec. Qed.

(** Closing a descriptor.  [ufdt_close] of a descriptor that is not open
    returns [-EBADF] and changes nothing.  For an open one it clears the entry and
    drops exactly one reference; the file itself is closed and freed exactly when
    that was the last reference, wherever the others are held.  The counts stay in
    balance. *)
Theorem ufdt_close_correct s u t ext i :
  balanced s u t ext -> 0 <= i ->
  runs (ufdt_close u i) s (fun ret s' =>
    if present t i then
      exists r, files s !! u_gfd (t i) = Some r /\ ret = 0 /\ balanced s' u (<[i := UfdEntry 0 0]> t) ext /\
        (r = 1 <-> files s' !! u_gfd (t i) = None) /\
        closed s' = (if r =? 1 then u_gfd (t i) :: closed s else closed s) /\
        forall g, g <> u_gfd (t i) -> files s' !! g = files s !! g
    else ret = - EBADF /\ balanced s' u t ext /\ files s' = files s /\ closed s' = closed s).
Proof.
  intros Hb Hi. unfold ufdt_close. eapply runs_ufds; [done|]. intros n s1 Hc Hf1 Hl1 Hcl1. pose proof Hb as (_ & _ & Hr).
  mstep. eapply is_present_spec; [exact Hc|lia|]. cbn [u_table]. destruct (present t i) eqn:Ep; cbn [negb].
  - apply present_true in Ep as [Hin Hnz]; [|done]. destruct (ro_live _ _ _ Hr i Hin Hnz) as [r Hfr].
    destruct (refs_close _ _ _ i r Hr Hin Hnz Hfr) as [Hbound Hr'].
    eapply (close_spec s1 u _ i r); [exact Hc|done|done|by rewrite Hf1|lia|]. cbn [u_table].
    intros s2 E1 E2 E3 E4. exists r. split; [done|]. split; [done|].
    destruct (lookup_set_u_lock s2 u _ false E4) as (_ & E5 & _ & E6). rewrite E5, E6, E1, E3, Hf1, Hcl1.
    split; [eapply balanced_unlock; [exact E4|done|]; by rewrite E1, Hf1|].
    split; [|split; [done|intros g Hg; destruct (r =? 1); [by rewrite lookup_delete_ne by done|by rewrite lookup_insert_ne by done]]].
    destruct (Z.eqb_spec r 1) as [->|Hne]; [by rewrite lookup_delete_eq|]. rewrite lookup_insert_eq. naive_solver.
  - mstep. destruct (lookup_set_u_lock s1 u _ false Hc) as (_ & E5 & _ & E6). split; [done|].
    split; [|split; congruence]. eapply balanced_unlock; [exact Hc|done|by rewrite Hf1].
Qed.

Lemma ufdt_replace_spec s u t ext i f :
  balanced s u t ext -> in_table i -> f <> 0 -> (exists j, in_table j /\ j <> i /\ u_gfd (t j) = f) ->
  runs (ufdt_replace u i f) s (fun ret s' => ret = 0 /\ exists t', balanced s' u t' ext /\
    forall x, t' x = if decide (x = i) then UfdEntry 0 f else t x).
Proof.
  intros Hb Hi Hf0 (j & Hj & Hji & Ej). unfold ufdt_replace. eapply runs_ufds; [done|]. intros n s1 Hc Hf1 Hl1 Hcl1.
  pose proof Hb as (_ & _ & Hr). mstep. eapply is_present_spec; [exact Hc|unfold in_table in Hi; lia|]. cbn [u_table].
  assert (Hinst : forall s2 t2, ufdcs s2 !! u = Some (UfdContext true n t2) -> gfdt_lock s2 = false -> refs_ok (files s2) t2 ext ->
    u_gfd (t2 i) = 0 -> u_gfd (t2 j) = f -> (forall x, x <> i -> t2 x = t x) ->
    runs (__ufdt_install u i f) s2 (fun ret s' => ret = 0 /\ exists t', balanced (set_u_lock u false s') u t' ext /\
      forall x, t' x = if decide (x = i) then UfdEntry 0 f else t x)).
  { intros s2 t2 Hc2 Hl2 Hr2 Hz Hjf Et. destruct (ro_live _ _ _ Hr2 j Hj ltac:(congruence)) as [r Hfr]. rewrite Hjf in Hfr.
    eapply (install_spec s2 u _ i f r); [exact Hc2|done|done|done|by eapply refs_bound|].
    intros s3 E1 E2 E3 E4. split; [done|]. exists (<[i := UfdEntry 0 f]> t2).
    split; [eapply balanced_unlock; [exact E4|done|]; rewrite E1; by apply refs_install|].
    intros x. case_decide as E; [subst; apply fn_insert_eq|]. rewrite fn_insert_ne by done. by apply Et. }
  destruct (present t i) eqn:Ep.
  - apply present_true in Ep as [_ Hnz]; [|unfold in_table in Hi; lia]. destruct (ro_live _ _ _ Hr i Hi Hnz) as [r Hfr].
    destruct (refs_close _ _ _ i r Hr Hi Hnz Hfr) as [Hbound Hr'].
    mstep. eapply (close_spec s1 u _ i r); [exact Hc|done|done|by rewrite Hf1|lia|]. cbn [u_table].
    intros s2 E1 E2 E3 E4. cbn [negb Z.eqb]. apply (Hinst s2 (<[i := UfdEntry 0 0]> t)); try done.
    + by rewrite E1, Hf1.
    + by rewrite fn_insert_eq.
    + by rewrite fn_insert_ne.
    + intros x Hx. by rewrite fn_insert_ne.
  - do 2 mstep. cbn [negb Z.eqb]. apply (Hinst s1 t); try done; [by rewrite Hf1|by apply present_false].
Qed.

(** [dup2] within the table.  For an open descriptor [i] and another index
    [i2] of the table, open or not, [dup2] makes [i2] name the same file, closing what
    it named before, and returns [i2]; nothing else in the table changes and the
    counts stay in balance.  In particular no file is freed while a descriptor names
    it, also when both named the same file. *)
Theorem sys_dup2_correct s u t ext i i2 :
  balanced s u t ext -> 0 <= i -> present t i = true -> in_table i2 ->
  runs (sys_dup2 u i i2) s (fun ret s' => ret = i2 /\ exists t', balanced s' u t' ext /\
    u_gfd (t' i2) = u_gfd (t i) /\ forall x, x <> i2 -> t' x = t x).
Proof.
  intros Hb Hi Hp Hi2. unfold sys_dup2. mstep. eapply runs_mono; [by apply (ufdt_get_spec s u t ext i)|].
  intros f s1 (Hb1 & _ & _ & ->). rewrite Hp. apply present_true in Hp as [Hin Hnz]; [|done].
  destruct (Z.eqb_spec (u_gfd (t i)) 0); [done|]. destruct (Z.eqb_spec i i2) as [->|Hne]; cbn [negb].
  - do 3 mstep. split; [done|]. by exists t.
  - do 2 mstep. eapply runs_mono; [apply (ufdt_replace_spec s1 u t ext i2 (u_gfd (t i))); [done|done|done|by exists i]|].
    intros ret s2 (-> & t' & Hb2 & Ht'). do 2 mstep. split; [done|]. exists t'. split; [done|].
    split; [by rewrite Ht', decide_True by done|]. intros x Hx. by rewrite Ht', decide_False by done.
Qed.

(** [dup2] does not check its second argument.  For any open descriptor and
    an [i2] beyond the table, which a program is free to pass, [ufdt_replace] stores
    the file pointer outside the table. *)
Theorem sys_dup2_out_of_bounds s u t ext i i2 :
  balanced s u t ext -> 0 <= i -> present t i = true -> MAX_NUM_FDS <= i2 -> sys_dup2 u i i2 s = Fault.
Proof.
  intros Hb Hi Hp Hi2. unfold sys_dup2. pose proof (ufdt_get_spec s u t ext i Hb Hi) as Hg.
  apply runs_Done in Hg as (f & s1 & E & Hb1 & _ & _ & ->). rewrite (bind_Done _ _ _ _ _ E), Hp.
  apply present_true in Hp as [[_ Hin] Hnz]; [|done]. destruct (Z.eqb_spec (u_gfd (t i)) 0); [done|].
  destruct (Z.eqb_spec i i2); [lia|]. cbn [negb]. unfold mbind at 1, M_bind at 1, mbind at 1, M_bind at 1.
  assert (Er : ufdt_replace u i2 (u_gfd (t i)) s1 = Fault); [|by rewrite Er].
  pose proof Hb1 as (Hl1 & (n1 & Hn1) & Hr1). destruct (ro_live _ _ _ Hr1 i ltac:(done) Hnz) as [r Hf].
  unfold ufdt_replace, with_ufds, locked. rewrite Hn1. cbn [fmap option_fmap option_map u_lock].
  destruct (lookup_set_u_lock s1 u _ true Hn1) as (E1 & E2 & E3 & _). set (s2 := set_u_lock u true s1) in *.
  rewrite (bind_Done _ _ s2 false s2).
  2: { apply runs_eq. eapply is_present_spec; [exact E1|lia|]. split; [|done]. unfold present.
       destruct (Z.ltb_spec i2 MAX_NUM_FDS); [lia|done]. }
  rewrite (bind_Done _ _ s2 0 s2) by done. cbn [negb Z.eqb]. unfold __ufdt_install.
  rewrite (bind_Done _ _ s2 tt (set_files (<[u_gfd (t i) := r + 1]> (files s2)) s2)).
  2: { apply runs_eq. eapply gfdt_get_spec; [congruence|by rewrite E2|by eapply refs_bound|done]. }
  unfold mbind, M_bind, table_set, table_get, ufdc_at, read, mbind, M_bind. cbn [ufdcs set_files]. rewrite E1.
  destruct (Z.ltb_spec i2 MAX_NUM_FDS); [lia|]. by rewrite andb_false_r.
Qed.

(** *** A table with two descriptors of one file *)

Definition two_fds : Z -> ufd := fun i => if (i =? 3) || (i =? 5) then UfdEntry 0 77 else UfdEntry 0 0.
Definition fds : fdtab := FdTab {[77 := 2]} false 1 [] {[40 := UfdContext false 1 two_fds]} ∅ 1000.

Lemma fds_balanced : balanced fds 40 two_fds (fun _ => 0).
Proof.
  split; [done|]. split; [exists 1; apply lookup_singleton_eq|]. split.
  - intros f r Hf. cbn [files fds] in Hf. apply lookup_singleton_Some in Hf as [<- <-]. vm_compute. reflexivity.
  - intros f. lia.
  - intros i _. unfold two_fds. destruct ((i =? 3) || (i =? 5)); [|done]. intros _. cbn. eexists. apply lookup_singleton_eq.
  - apply lookup_singleton_ne. lia.
Qed.

Lemma ufdt_add_correct_witness :
  runs (ufdt_add 40 77) fds (fun i s' => i = 0 /\ files s' !! 77 = Some 3).
Proof.
  pose proof (ufdt_add_correct fds 40 two_fds (fun _ => 0) 77 2 fds_balanced eq_refl) as H.
  eapply runs_mono; [exact H|]. intros i s' [(_ & Hall & _)|(Hi & Hfree & Hbelow & _ & ->)].
  - discriminate (Hall 0 ltac:(split; reflexivity || discriminate)).
  - split; [|apply lookup_insert_eq]. destruct (decide (i = 0)); [done|]. discriminate (Hbelow 0 ltac:(unfold in_table in Hi; lia)).
Defined.

Lemma ufdt_close_correct_witness :
  runs (ufdt_close 40 5) fds (fun ret s' => ret = 0 /\ files s' !! 77 <> None) /\
  runs (ufdt_close 40 600) fds (fun ret s' => ret = - EBADF).
Proof.
  split.
  - eapply runs_mono; [exact (ufdt_close_correct fds 40 two_fds (fun _ => 0) 5 fds_balanced ltac:(lia))|].
    change (present two_fds 5) with true. cbv iota. intros ret s' (r & Hr & -> & _ & Hlast & _). split; [reflexivity|].
    change (u_gfd (two_fds 5)) with 77 in *. assert (r = 2) as -> by (vm_compute in Hr; congruence).
    intros Hnone. apply Hlast in Hnone. discriminate.
  - eapply runs_mono; [exact (ufdt_close_correct fds 40 two_fds (fun _ => 0) 600 fds_balanced ltac:(lia))|].
    change (present two_fds 600) with false. cbv iota. intros ret s' [-> _]. reflexivity.
Defined.

Lemma sys_dup2_correct_witness :
  runs (sys_dup2 40 3 5) fds (fun ret s' => ret = 5 /\ exists t', balanced s' 40 t' (fun _ => 0) /\ u_gfd (t' 5) = 77).
Proof.
  eapply runs_mono; [apply (sys_dup2_correct fds 40 two_fds (fun _ => 0) 3 5 fds_balanced);
    [lia|reflexivity|split; reflexivity || discriminate]|].
  intros ret s' (-> & t' & Hb & E & _). split; [reflexivity|]. exists t'. split; [exact Hb|exact E].
Defined.

Lemma sys_dup2_out_of_bounds_witness : sys_dup2 40 3 4096 fds = Fault.
Proof.
  apply (sys_dup2_out_of_bounds fds 40 two_fds (fun _ => 0) 3 4096 fds_balanced); [lia|reflexivity|vm_compute; discriminate].
Defined.

(** ** New tables *)

Lemma clear_entries_lookup n : forall i t j, 0 <= i ->
  clear_entries n i t j = if decide (i <= j < i + Z.of_nat n) then UfdEntry 0 0 else t j.
Proof.
  induction n as [|n IH]; intros i t j Hi; cbn [clear_entries]; [by rewrite decide_False by lia|].
  rewrite IH by lia. destruct (decide (j = i)) as [->|Hne].
  - rewrite decide_False by lia. by rewrite fn_insert_eq, decide_True by lia.
  - rewrite fn_insert_ne by done. by rewrite (decide_ext _ (i <= j < i + Z.of_nat (S n))) by lia.
Qed.

(** A new table has all its entries cleared but the last: that one holds whatever the
    fresh memory did, and [__ufdt_is_present] tests it. *)
Lemma ufd_context_build_last s junk :
  runs (ufd_context_build junk) s (fun u s' => exists t, ufdcs s' !! u = Some (UfdContext false 1 t) /\
    (forall i, 0 <= i < MAX_NUM_FDS - 1 -> t i = UfdEntry 0 0) /\ t (MAX_NUM_FDS - 1) = junk (MAX_NUM_FDS - 1)).
Proof.
  unfold ufd_context_build, new_address, put_ufdc. msteps. eexists. cbn [ufdcs set_ufdcs set_fresh]. rewrite lookup_insert_eq.
  split; [reflexivity|]. change MAX_NUM_FDS with 512. split.
  - intros i Hi. by rewrite clear_entries_lookup, decide_True by lia.
  - by rewrite clear_entries_lookup, decide_False by lia.
Qed.

(** Dropping the last reference to a table or to a file-system context does not free
    it: the count that is tested is the one before the decrement. *)
Lemma ufds_put_leaks s u t (Q : unit -> fdtab -> Prop) :
  ufdcs s !! u = Some (UfdContext false 1 t) -> Q tt (set_ufdcs (<[u := UfdContext false 0 t]> (ufdcs s)) s) ->
  runs (ufds_put u) s Q.
Proof.
  intros Hu HQ. unfold ufds_put. mstep. unfold with_ufds. apply runs_locked; [by rewrite Hu|].
  replace (set_u_lock u true s) with (set_ufdcs (<[u := UfdContext true 1 t]> (ufdcs s)) s) by (unfold set_u_lock; by rewrite Hu).
  mstep. eapply runs_read; [apply lookup_insert_eq|].
  unfold put_ufdc. do 3 mstep. cbn [u_refs Z.eqb]. mstep. unfold set_u_lock. destruct s. cbn in *.
  rewrite insert_insert_eq, lookup_insert_eq. unfold set_ufdcs. cbn. by rewrite insert_insert_eq.
Qed.

Lemma fs_put_leaks s f r w (Q : unit -> fdtab -> Prop) :
  fscs s !! f = Some (FsContext false 1 r w) -> Q tt (set_fscs (<[f := FsContext false 0 r w]> (fscs s)) s) ->
  runs (fs_put f) s Q.
Proof.
  intros Hf HQ. unfold fs_put. mstep. unfold with_fs. apply runs_locked; [by rewrite Hf|].
  replace (set_fs_lock f true s) with (set_fscs (<[f := FsContext true 1 r w]> (fscs s)) s) by (unfold set_fs_lock; by rewrite Hf).
  mstep. eapply runs_read; [apply lookup_insert_eq|].
  unfold put_fsc. do 3 mstep. cbn [fs_refs Z.eqb]. mstep. unfold set_fs_lock. destruct s. cbn in *.
  rewrite insert_insert_eq, lookup_insert_eq. unfold set_fscs. cbn. by rewrite insert_insert_eq.
Qed.
