(* ===== verification/Sched.v ===== *)
(** * Sched: threads, tasks, sessions, signals and the scheduler

    Models kernel/src/sched/sched.c (with the parts of kernel/inc/sched/task.h and
    kernel/inc/user/signal.h it uses), but for the descriptor tables, which are
    [Ufd]'s.  Structures are records in finite maps keyed by address; an intrusive
    list is the sequence of its entries, first entry first, and adding an entry that
    is already on the list is a [Fault], since it would break the links.  [c] is the
    number of the CPU that runs the code.  What the architecture does with a thread
    (its stack, its page tables, the context switch) is not modelled. *)

From S2P Require Import Prelude Words Ufd.

Inductive thread_state := THREAD_BUILDING | THREAD_AWAKE | THREAD_SLEEPING | THREAD_EXITED | THREAD_IDLE.

#[global] Instance thread_state_eq_dec : EqDecision thread_state.
Proof. solve_decision. Defined.

Definition TASK_RUNNING : Z := 0.
Definition TASK_EXITING : Z := 1.
Definition TASK_EXITED : Z := 2.

Definition THREAD_FLAG_KERNEL : Z := 1 <<< 0.
Definition THREAD_FLAG_FORKED : Z := 1 <<< 1.

Definition ECAUSE_RQST : Z := 0.
Definition ECAUSE_SIG : Z := 1.

Definition QUANTUM : Z := 100.

(** [thread_t], less its list nodes. *)
Record thread := Thread {
  t_lock : bool;
  t_ufd : Z;
  t_fs : Z;
  t_node : Z;
  t_active : bool;
  t_flags : Z;
  t_state : thread_state;
  t_sig_pending : Z;
  t_should_die : bool;
}.

(** [struct sigaction]. *)
Record sigaction := Sigaction {
  sa_flags : Z;
  sa_mask : Z;
  sa_handler : Z;
}.

Definition SIG_DFL : Z := 0.
Definition SIG_IGN : Z := 1.
Definition NSIG : Z := 32.

(** [task_node_t], with the entries of the lists it heads. *)
Record task_node := TaskNode {
  n_lock : bool;
  n_refs : Z;
  n_pid : Z;
  n_parent : Z;
  n_argv : Z;
  n_envp : Z;
  n_exit_state : Z;
  n_exit_code : Z;
  n_exit_cause : Z;
  n_sigtramp : Z;
  n_sigactions : Z -> sigaction;
  n_sig_mask : Z;
  n_session : Z;
  n_pgroup : Z;
  n_threads : list Z;
  n_children : list Z;
  n_zombies : list Z;
}.

(** [psession_t] and [pgroup_t], which have the same fields. *)
Record group := Group {
  g_lock : bool;
  g_leader : Z;
  g_members : list Z;
}.

(** A signal handed to user code: entry point, trampoline, saved mask. *)
Abbreviation delivery := (Z * Z * Z)%type.

Record sched := Sched {
  threads : gmap Z thread;
  nodes : gmap Z task_node;
  sessions : gmap Z group;
  pgroups : gmap Z group;
  fd : fdtab;
  thread_list : list Z;
  queued_threads : list Z;
  task_list : list Z;
  session_list : list Z;
  pgroup_list : list Z;
  poll_threads : list Z;
  suspended_threads : Z;
  sched_lock : bool;
  session_lock : bool;
  pgroup_lock : bool;
  pid : Z;
  init_node : Z;
  idle_node : Z;
  current : Z -> Z;
  idle_task : Z -> Z;
  switch_time : Z -> Z;
  tasking_up : bool;
  thread_count : Z;
  tasks_going : Z;
  delivered : list delivery;
}.

Definition set_t_lock (v : bool) (t : thread) : thread :=
  Thread v (t_ufd t) (t_fs t) (t_node t) (t_active t) (t_flags t) (t_state t) (t_sig_pending t) (t_should_die t).
Definition set_t_ufd (v : Z) (t : thread) : thread :=
  Thread (t_lock t) v (t_fs t) (t_node t) (t_active t) (t_flags t) (t_state t) (t_sig_pending t) (t_should_die t).
Definition set_t_fs (v : Z) (t : thread) : thread :=
  Thread (t_lock t) (t_ufd t) v (t_node t) (t_active t) (t_flags t) (t_state t) (t_sig_pending t) (t_should_die t).
Definition set_t_active (v : bool) (t : thread) : thread :=
  Thread (t_lock t) (t_ufd t) (t_fs t) (t_node t) v (t_flags t) (t_state t) (t_sig_pending t) (t_should_die t).
Definition set_t_flags (v : Z) (t : thread) : thread :=
  Thread (t_lock t) (t_ufd t) (t_fs t) (t_node t) (t_active t) v (t_state t) (t_sig_pending t) (t_should_die t).
Definition set_t_state (v : thread_state) (t : thread) : thread :=
  Thread (t_lock t) (t_ufd t) (t_fs t) (t_node t) (t_active t) (t_flags t) v (t_sig_pending t) (t_should_die t).
Definition set_t_sig_pending (v : Z) (t : thread) : thread :=
  Thread (t_lock t) (t_ufd t) (t_fs t) (t_node t) (t_active t) (t_flags t) (t_state t) v (t_should_die t).
Definition set_t_should_die (v : bool) (t : thread) : thread :=
  Thread (t_lock t) (t_ufd t) (t_fs t) (t_node t) (t_active t) (t_flags t) (t_state t) (t_sig_pending t) v.

Definition set_n_lock (v : bool) (s : task_node) : task_node :=
  TaskNode v (n_refs s) (n_pid s) (n_parent s) (n_argv s) (n_envp s) (n_exit_state s) (n_exit_code s) (n_exit_cause s) (n_sigtramp s) (n_sigactions s) (n_sig_mask s) (n_session s) (n_pgroup s) (n_threads s) (n_children s) (n_zombies s).
Definition set_n_refs (v : Z) (s : task_node) : task_node :=
  TaskNode (n_lock s) v (n_pid s) (n_parent s) (n_argv s) (n_envp s) (n_exit_state s) (n_exit_code s) (n_exit_cause s) (n_sigtramp s) (n_sigactions s) (n_sig_mask s) (n_session s) (n_pgroup s) (n_threads s) (n_children s) (n_zombies s).
Definition set_n_parent (v : Z) (s : task_node) : task_node :=
  TaskNode (n_lock s) (n_refs s) (n_pid s) v (n_argv s) (n_envp s) (n_exit_state s) (n_exit_code s) (n_exit_cause s) (n_sigtramp s) (n_sigactions s) (n_sig_mask s) (n_session s) (n_pgroup s) (n_threads s) (n_children s) (n_zombies s).
Definition set_n_argv (v : Z) (s : task_node) : task_node :=
  TaskNode (n_lock s) (n_refs s) (n_pid s) (n_parent s) v (n_envp s) (n_exit_state s) (n_exit_code s) (n_exit_cause s) (n_sigtramp s) (n_sigactions s) (n_sig_mask s) (n_session s) (n_pgroup s) (n_threads s) (n_children s) (n_zombies s).
Definition set_n_exit_state (v : Z) (s : task_node) : task_node :=
  TaskNode (n_lock s) (n_refs s) (n_pid s) (n_parent s) (n_argv s) (n_envp s) v (n_exit_code s) (n_exit_cause s) (n_sigtramp s) (n_sigactions s) (n_sig_mask s) (n_session s) (n_pgroup s) (n_threads s) (n_children s) (n_zombies s).
Definition set_n_exit_code (v : Z) (s : task_node) : task_node :=
  TaskNode (n_lock s) (n_refs s) (n_pid s) (n_parent s) (n_argv s) (n_envp s) (n_exit_state s) v (n_exit_cause s) (n_sigtramp s) (n_sigactions s) (n_sig_mask s) (n_session s) (n_pgroup s) (n_threads s) (n_children s) (n_zombies s).
Definition set_n_exit_cause (v : Z) (s : task_node) : task_node :=
  TaskNode (n_lock s) (n_refs s) (n_pid s) (n_parent s) (n_argv s) (n_envp s) (n_exit_state s) (n_exit_code s) v (n_sigtramp s) (n_sigactions s) (n_sig_mask s) (n_session s) (n_pgroup s) (n_threads s) (n_children s) (n_zombies s).
Definition set_n_sig_mask (v : Z) (s : task_node) : task_node :=
  TaskNode (n_lock s) (n_refs s) (n_pid s) (n_parent s) (n_argv s) (n_envp s) (n_exit_state s) (n_exit_code s) (n_exit_cause s) (n_sigtramp s) (n_sigactions s) v (n_session s) (n_pgroup s) (n_threads s) (n_children s) (n_zombies s).
Definition set_n_session (v : Z) (s : task_node) : task_node :=
  TaskNode (n_lock s) (n_refs s) (n_pid s) (n_parent s) (n_argv s) (n_envp s) (n_exit_state s) (n_exit_code s) (n_exit_cause s) (n_sigtramp s) (n_sigactions s) (n_sig_mask s) v (n_pgroup s) (n_threads s) (n_children s) (n_zombies s).
Definition set_n_pgroup (v : Z) (s : task_node) : task_node :=
  TaskNode (n_lock s) (n_refs s) (n_pid s) (n_parent s) (n_argv s) (n_envp s) (n_exit_state s) (n_exit_code s) (n_exit_cause s) (n_sigtramp s) (n_sigactions s) (n_sig_mask s) (n_session s) v (n_threads s) (n_children s) (n_zombies s).
Definition set_n_threads (v : list Z) (s : task_node) : task_node :=
  TaskNode (n_lock s) (n_refs s) (n_pid s) (n_parent s) (n_argv s) (n_envp s) (n_exit_state s) (n_exit_code s) (n_exit_cause s) (n_sigtramp s) (n_sigactions s) (n_sig_mask s) (n_session s) (n_pgroup s) v (n_children s) (n_zombies s).
Definition set_n_children (v : list Z) (s : task_node) : task_node :=
  TaskNode (n_lock s) (n_refs s) (n_pid s) (n_parent s) (n_argv s) (n_envp s) (n_exit_state s) (n_exit_code s) (n_exit_cause s) (n_sigtramp s) (n_sigactions s) (n_sig_mask s) (n_session s) (n_pgroup s) (n_threads s) v (n_zombies s).
Definition set_n_zombies (v : list Z) (s : task_node) : task_node :=
  TaskNode (n_lock s) (n_refs s) (n_pid s) (n_parent s) (n_argv s) (n_envp s) (n_exit_state s) (n_exit_code s) (n_exit_cause s) (n_sigtramp s) (n_sigactions s) (n_sig_mask s) (n_session s) (n_pgroup s) (n_threads s) (n_children s) v.

Definition set_g_lock (v : bool) (s : group) : group :=
  Group v (g_leader s) (g_members s).
Definition set_g_members (v : list Z) (s : group) : group :=
  Group (g_lock s) (g_leader s) v.

Definition set_threads (v : gmap Z thread) (s : sched) : sched :=
  Sched v (nodes s) (sessions s) (pgroups s) (fd s) (thread_list s) (queued_threads s) (task_list s) (session_list s) (pgroup_list s) (poll_threads s) (suspended_threads s) (sched_lock s) (session_lock s) (pgroup_lock s) (pid s) (init_node s) (idle_node s) (current s) (idle_task s) (switch_time s) (tasking_up s) (thread_count s) (tasks_going s) (delivered s).
Definition set_nodes (v : gmap Z task_node) (s : sched) : sched :=
  Sched (threads s) v (sessions s) (pgroups s) (fd s) (thread_list s) (queued_threads s) (task_list s) (session_list s) (pgroup_list s) (poll_threads s) (suspended_threads s) (sched_lock s) (session_lock s) (pgroup_lock s) (pid s) (init_node s) (idle_node s) (current s) (idle_task s) (switch_time s) (tasking_up s) (thread_count s) (tasks_going s) (delivered s).
Definition set_sessions (v : gmap Z group) (s : sched) : sched :=
  Sched (threads s) (nodes s) v (pgroups s) (fd s) (thread_list s) (queued_threads s) (task_list s) (session_list s) (pgroup_list s) (poll_threads s) (suspended_threads s) (sched_lock s) (session_lock s) (pgroup_lock s) (pid s) (init_node s) (idle_node s) (current s) (idle_task s) (switch_time s) (tasking_up s) (thread_count s) (tasks_going s) (delivered s).
Definition set_pgroups (v : gmap Z group) (s : sched) : sched :=
  Sched (threads s) (nodes s) (sessions s) v (fd s) (thread_list s) (queued_threads s) (task_list s) (session_list s) (pgroup_list s) (poll_threads s) (suspended_threads s) (sched_lock s) (session_lock s) (pgroup_lock s) (pid s) (init_node s) (idle_node s) (current s) (idle_task s) (switch_time s) (tasking_up s) (thread_count s) (tasks_going s) (delivered s).
Definition set_fd (v : fdtab) (s : sched) : sched :=
  Sched (threads s) (nodes s) (sessions s) (pgroups s) v (thread_list s) (queued_threads s) (task_list s) (session_list s) (pgroup_list s) (poll_threads s) (suspended_threads s) (sched_lock s) (session_lock s) (pgroup_lock s) (pid s) (init_node s) (idle_node s) (current s) (idle_task s) (switch_time s) (tasking_up s) (thread_count s) (tasks_going s) (delivered s).
Definition set_thread_list (v : list Z) (s : sched) : sched :=
  Sched (threads s) (nodes s) (sessions s) (pgroups s) (fd s) v (queued_threads s) (task_list s) (session_list s) (pgroup_list s) (poll_threads s) (suspended_threads s) (sched_lock s) (session_lock s) (pgroup_lock s) (pid s) (init_node s) (idle_node s) (current s) (idle_task s) (switch_time s) (tasking_up s) (thread_count s) (tasks_going s) (delivered s).
Definition set_queued_threads (v : list Z) (s : sched) : sched :=
  Sched (threads s) (nodes s) (sessions s) (pgroups s) (fd s) (thread_list s) v (task_list s) (session_list s) (pgroup_list s) (poll_threads s) (suspended_threads s) (sched_lock s) (session_lock s) (pgroup_lock s) (pid s) (init_node s) (idle_node s) (current s) (idle_task s) (switch_time s) (tasking_up s) (thread_count s) (tasks_going s) (delivered s).
Definition set_task_list (v : list Z) (s : sched) : sched :=
  Sched (threads s) (nodes s) (sessions s) (pgroups s) (fd s) (thread_list s) (queued_threads s) v (session_list s) (pgroup_list s) (poll_threads s) (suspended_threads s) (sched_lock s) (session_lock s) (pgroup_lock s) (pid s) (init_node s) (idle_node s) (current s) (idle_task s) (switch_time s) (tasking_up s) (thread_count s) (tasks_going s) (delivered s).
Definition set_session_list (v : list Z) (s : sched) : sched :=
  Sched (threads s) (nodes s) (sessions s) (pgroups s) (fd s) (thread_list s) (queued_threads s) (task_list s) v (pgroup_list s) (poll_threads s) (suspended_threads s) (sched_lock s) (session_lock s) (pgroup_lock s) (pid s) (init_node s) (idle_node s) (current s) (idle_task s) (switch_time s) (tasking_up s) (thread_count s) (tasks_going s) (delivered s).
Definition set_pgroup_list (v : list Z) (s : sched) : sched :=
  Sched (threads s) (nodes s) (sessions s) (pgroups s) (fd s) (thread_list s) (queued_threads s) (task_list s) (session_list s) v (poll_threads s) (suspended_threads s) (sched_lock s) (session_lock s) (pgroup_lock s) (pid s) (init_node s) (idle_node s) (current s) (idle_task s) (switch_time s) (tasking_up s) (thread_count s) (tasks_going s) (delivered s).
Definition set_poll_threads (v : list Z) (s : sched) : sched :=
  Sched (threads s) (nodes s) (sessions s) (pgroups s) (fd s) (thread_list s) (queued_threads s) (task_list s) (session_list s) (pgroup_list s) v (suspended_threads s) (sched_lock s) (session_lock s) (pgroup_lock s) (pid s) (init_node s) (idle_node s) (current s) (idle_task s) (switch_time s) (tasking_up s) (thread_count s) (tasks_going s) (delivered s).
Definition set_suspended_threads (v : Z) (s : sched) : sched :=
  Sched (threads s) (nodes s) (sessions s) (pgroups s) (fd s) (thread_list s) (queued_threads s) (task_list s) (session_list s) (pgroup_list s) (poll_threads s) v (sched_lock s) (session_lock s) (pgroup_lock s) (pid s) (init_node s) (idle_node s) (current s) (idle_task s) (switch_time s) (tasking_up s) (thread_count s) (tasks_going s) (delivered s).
Definition set_sched_lock (v : bool) (s : sched) : sched :=
  Sched (threads s) (nodes s) (sessions s) (pgroups s) (fd s) (thread_list s) (queued_threads s) (task_list s) (session_list s) (pgroup_list s) (poll_threads s) (suspended_threads s) v (session_lock s) (pgroup_lock s) (pid s) (init_node s) (idle_node s) (current s) (idle_task s) (switch_time s) (tasking_up s) (thread_count s) (tasks_going s) (delivered s).
Definition set_session_lock (v : bool) (s : sched) : sched :=
  Sched (threads s) (nodes s) (sessions s) (pgroups s) (fd s) (thread_list s) (queued_threads s) (task_list s) (session_list s) (pgroup_list s) (poll_threads s) (suspended_threads s) (sched_lock s) v (pgroup_lock s) (pid s) (init_node s) (idle_node s) (current s) (idle_task s) (switch_time s) (tasking_up s) (thread_count s) (tasks_going s) (delivered s).
Definition set_pgroup_lock (v : bool) (s : sched) : sched :=
  Sched (threads s) (nodes s) (sessions s) (pgroups s) (fd s) (thread_list s) (queued_threads s) (task_list s) (session_list s) (pgroup_list s) (poll_threads s) (suspended_threads s) (sched_lock s) (session_lock s) v (pid s) (init_node s) (idle_node s) (current s) (idle_task s) (switch_time s) (tasking_up s) (thread_count s) (tasks_going s) (delivered s).
Definition set_pid (v : Z) (s : sched) : sched :=
  Sched (threads s) (nodes s) (sessions s) (pgroups s) (fd s) (thread_list s) (queued_threads s) (task_list s) (session_list s) (pgroup_list s) (poll_threads s) (suspended_threads s) (sched_lock s) (session_lock s) (pgroup_lock s) v (init_node s) (idle_node s) (current s) (idle_task s) (switch_time s) (tasking_up s) (thread_count s) (tasks_going s) (delivered s).
Definition set_init_node (v : Z) (s : sched) : sched :=
  Sched (threads s) (nodes s) (sessions s) (pgroups s) (fd s) (thread_list s) (queued_threads s) (task_list s) (session_list s) (pgroup_list s) (poll_threads s) (suspended_threads s) (sched_lock s) (session_lock s) (pgroup_lock s) (pid s) v (idle_node s) (current s) (idle_task s) (switch_time s) (tasking_up s) (thread_count s) (tasks_going s) (delivered s).
Definition set_idle_node (v : Z) (s : sched) : sched :=
  Sched (threads s) (nodes s) (sessions s) (pgroups s) (fd s) (thread_list s) (queued_threads s) (task_list s) (session_list s) (pgroup_list s) (poll_threads s) (suspended_threads s) (sched_lock s) (session_lock s) (pgroup_lock s) (pid s) (init_node s) v (current s) (idle_task s) (switch_time s) (tasking_up s) (thread_count s) (tasks_going s) (delivered s).
Definition set_current (v : Z -> Z) (s : sched) : sched :=
  Sched (threads s) (nodes s) (sessions s) (pgroups s) (fd s) (thread_list s) (queued_threads s) (task_list s) (session_list s) (pgroup_list s) (poll_threads s) (suspended_threads s) (sched_lock s) (session_lock s) (pgroup_lock s) (pid s) (init_node s) (idle_node s) v (idle_task s) (switch_time s) (tasking_up s) (thread_count s) (tasks_going s) (delivered s).
Definition set_idle_task (v : Z -> Z) (s : sched) : sched :=
  Sched (threads s) (nodes s) (sessions s) (pgroups s) (fd s) (thread_list s) (queued_threads s) (task_list s) (session_list s) (pgroup_list s) (poll_threads s) (suspended_threads s) (sched_lock s) (session_lock s) (pgroup_lock s) (pid s) (init_node s) (idle_node s) (current s) v (switch_time s) (tasking_up s) (thread_count s) (tasks_going s) (delivered s).
Definition set_switch_time (v : Z -> Z) (s : sched) : sched :=
  Sched (threads s) (nodes s) (sessions s) (pgroups s) (fd s) (thread_list s) (queued_threads s) (task_list s) (session_list s) (pgroup_list s) (poll_threads s) (suspended_threads s) (sched_lock s) (session_lock s) (pgroup_lock s) (pid s) (init_node s) (idle_node s) (current s) (idle_task s) v (tasking_up s) (thread_count s) (tasks_going s) (delivered s).
Definition set_tasking_up (v : bool) (s : sched) : sched :=
  Sched (threads s) (nodes s) (sessions s) (pgroups s) (fd s) (thread_list s) (queued_threads s) (task_list s) (session_list s) (pgroup_list s) (poll_threads s) (suspended_threads s) (sched_lock s) (session_lock s) (pgroup_lock s) (pid s) (init_node s) (idle_node s) (current s) (idle_task s) (switch_time s) v (thread_count s) (tasks_going s) (delivered s).
Definition set_thread_count (v : Z) (s : sched) : sched :=
  Sched (threads s) (nodes s) (sessions s) (pgroups s) (fd s) (thread_list s) (queued_threads s) (task_list s) (session_list s) (pgroup_list s) (poll_threads s) (suspended_threads s) (sched_lock s) (session_lock s) (pgroup_lock s) (pid s) (init_node s) (idle_node s) (current s) (idle_task s) (switch_time s) (tasking_up s) v (tasks_going s) (delivered s).
Definition set_tasks_going (v : Z) (s : sched) : sched :=
  Sched (threads s) (nodes s) (sessions s) (pgroups s) (fd s) (thread_list s) (queued_threads s) (task_list s) (session_list s) (pgroup_list s) (poll_threads s) (suspended_threads s) (sched_lock s) (session_lock s) (pgroup_lock s) (pid s) (init_node s) (idle_node s) (current s) (idle_task s) (switch_time s) (tasking_up s) (thread_count s) v (delivered s).
Definition set_delivered (v : list delivery) (s : sched) : sched :=
  Sched (threads s) (nodes s) (sessions s) (pgroups s) (fd s) (thread_list s) (queued_threads s) (task_list s) (session_list s) (pgroup_list s) (poll_threads s) (suspended_threads s) (sched_lock s) (session_lock s) (pgroup_lock s) (pid s) (init_node s) (idle_node s) (current s) (idle_task s) (switch_time s) (tasking_up s) (thread_count s) (tasks_going s) v.

(** ** Access to the structures *)

Definition thread_at (t : Z) : M sched thread := read (fun s => threads s !! t).
Definition upd_thread (t : Z) (f : thread -> thread) : M sched unit :=
  p ← thread_at t; modify (fun s => set_threads (<[t := f p]> (threads s)) s).
Definition node_at (n : Z) : M sched task_node := read (fun s => nodes s !! n).
Definition upd_node (n : Z) (f : task_node -> task_node) : M sched unit :=
  p ← node_at n; modify (fun s => set_nodes (<[n := f p]> (nodes s)) s).
Definition session_at (g : Z) : M sched group := read (fun s => sessions s !! g).
Definition upd_session (g : Z) (f : group -> group) : M sched unit :=
  p ← session_at g; modify (fun s => set_sessions (<[g := f p]> (sessions s)) s).
Definition pgroup_at (g : Z) : M sched group := read (fun s => pgroups s !! g).
Definition upd_pgroup (g : Z) (f : group -> group) : M sched unit :=
  p ← pgroup_at g; modify (fun s => set_pgroups (<[g := f p]> (pgroups s)) s).

Definition in_fd {A} (m : M fdtab A) : M sched A := lift fd set_fd m.

Definition lock_thread (t : Z) : M sched unit :=
  p ← thread_at t; if t_lock p then spin else upd_thread t (set_t_lock true).
Definition unlock_thread (t : Z) : M sched unit := upd_thread t (set_t_lock false).
Definition with_thread {A} (t : Z) (m : M sched A) : M sched A :=
  lock_thread t;; a ← m; unlock_thread t;; mret a.

Definition lock_node (n : Z) : M sched unit :=
  p ← node_at n; if n_lock p then spin else upd_node n (set_n_lock true).
Definition unlock_node (n : Z) : M sched unit := upd_node n (set_n_lock false).
Definition with_node {A} (n : Z) (m : M sched A) : M sched A :=
  lock_node n;; a ← m; unlock_node n;; mret a.

Definition with_session {A} (g : Z) (m : M sched A) : M sched A :=
  p ← session_at g;
  if g_lock p then spin
  else upd_session g (set_g_lock true);; a ← m; upd_session g (set_g_lock false);; mret a.
Definition with_pgroup {A} (g : Z) (m : M sched A) : M sched A :=
  p ← pgroup_at g;
  if g_lock p then spin
  else upd_pgroup g (set_g_lock true);; a ← m; upd_pgroup g (set_g_lock false);; mret a.

Definition with_sched {A} (m : M sched A) : M sched A := locked (fun s => Some (sched_lock s)) set_sched_lock m.
Definition with_session_lock {A} (m : M sched A) : M sched A := locked (fun s => Some (session_lock s)) set_session_lock m.
Definition with_pgroup_lock {A} (m : M sched A) : M sched A := locked (fun s => Some (pgroup_lock s)) set_pgroup_lock m.

(** [list_add] at the front of a sequence. *)
Definition seq_add (x : Z) (l : list Z) : option (list Z) := if bool_decide (x ∈ l) then None else Some (x :: l).

Definition queue_add (t : Z) : M sched unit :=
  l ← read (fun s => seq_add t (queued_threads s)); modify (set_queued_threads l).

(** ** Tasks, sessions and process groups *)

Definition task_node_get (n : Z) : M sched unit :=
  with_node n (p ← node_at n; BUG_ON (n_refs p =? 0);; upd_node n (set_n_refs (u32 (n_refs p + 1)))).

(** [task_node_destroy] panics. *)
Definition task_node_put (n : Z) : M sched unit :=
  with_node n (
    p ← node_at n;
    BUG_ON (n_refs p =? 0);;
    upd_node n (set_n_refs (u32 (n_refs p - 1)));;
    p' ← node_at n;
    if n_refs p' =? 0 then panic else mret tt).

(** The walk over [tasks]; each entry is locked to read its pid. *)
Fixpoint find_pid (l : list Z) (p : Z) : M sched (option Z) :=
  match l with
  | [] => mret None
  | t :: l' =>
      found ← with_node t (n ← node_at t; mret (n_pid n =? p));
      if (found : bool) then mret (Some t) else find_pid l' p
  end.

(** When no task has the pid, the loop variable is not a task and [task_node_get] runs
    on whatever lies at the list head. *)
Definition task_node_find (p : Z) : M sched Z :=
  with_sched (
    l ← gets task_list;
    r ← find_pid l p;
    match r with
    | Some t => task_node_get t;; mret t
    | None => fault
    end).

Definition session_add (new session : Z) : M sched unit :=
  g ← session_at session;
  task_node_get (g_leader g);;
  upd_node new (set_n_session session);;
  with_session session (
    g ← session_at session;
    l ← read (fun _ => seq_add new (g_members g));
    upd_session session (set_g_members l)).

Definition session_create (t : Z) : M sched unit :=
  session ← in_fd new_address;
  modify (fun s => set_sessions (<[session := Group false t []]> (sessions s)) s);;
  with_session_lock (
    session_add t session;;
    l ← read (fun s => seq_add session (session_list s));
    modify (set_session_list l)).

Definition session_rm (new : Z) : M sched unit :=
  n ← node_at new;
  with_session (n_session n) (
    g ← session_at (n_session n); upd_session (n_session n) (set_g_members (seq_rm new (g_members g))));;
  g ← session_at (n_session n);
  task_node_put (g_leader g).

Fixpoint find_session (l : list Z) (p : Z) : M sched (option Z) :=
  match l with
  | [] => mret None
  | g :: l' =>
      found ← with_session g (gr ← session_at g; n ← node_at (g_leader gr); mret (n_pid n =? p));
      if (found : bool) then mret (Some g) else find_session l' p
  end.
Definition session_find (p : Z) : M sched Z :=
  with_session_lock (l ← gets session_list; r ← find_session l p; mret (default 0 r)).

Definition pgroup_add (new pg : Z) : M sched unit :=
  g ← pgroup_at pg;
  task_node_get (g_leader g);;
  upd_node new (set_n_pgroup pg);;
  with_pgroup pg (
    g ← pgroup_at pg;
    l ← read (fun _ => seq_add new (g_members g));
    upd_pgroup pg (set_g_members l)).

Definition pgroup_create (t : Z) : M sched unit :=
  pg ← in_fd new_address;
  modify (fun s => set_pgroups (<[pg := Group false t []]> (pgroups s)) s);;
  with_pgroup_lock (
    pgroup_add t pg;;
    l ← read (fun s => seq_add pg (pgroup_list s));
    modify (set_pgroup_list l)).

Definition pgroup_rm (new : Z) : M sched unit :=
  n ← node_at new;
  with_pgroup (n_pgroup n) (
    g ← pgroup_at (n_pgroup n); upd_pgroup (n_pgroup n) (set_g_members (seq_rm new (g_members g))));;
  g ← pgroup_at (n_pgroup n);
  task_node_put (g_leader g).

Fixpoint find_pgroup (l : list Z) (p : Z) : M sched (option Z) :=
  match l with
  | [] => mret None
  | g :: l' =>
      found ← with_pgroup g (gr ← pgroup_at g; n ← node_at (g_leader gr); mret (n_pid n =? p));
      if (found : bool) then mret (Some g) else find_pgroup l' p
  end.
Definition pgroup_find (p : Z) : M sched Z :=
  with_pgroup_lock (l ← gets pgroup_list; r ← find_pgroup l p; mret (default 0 r)).

Definition default_sigactions : Z -> sigaction := fun _ => Sigaction 0 0 SIG_DFL.

(** [junk] is what the fresh structure held: [sig_mask] and the exit fields are not
    set. *)
Definition task_node_build (junk parent argv envp : Z) : M sched Z :=
  node ← in_fd new_address;
  p ← gets pid;
  modify (set_pid (u32 (p + 1)));;
  av ← (if negb (argv =? 0) || (parent =? 0) then mret argv else n ← node_at parent; mret (n_argv n));
  ev ← (if negb (envp =? 0) || (parent =? 0) then mret envp else n ← node_at parent; mret (n_envp n));
  modify (fun s => set_nodes (<[node := TaskNode false 1 p parent av ev TASK_RUNNING junk junk 0 default_sigactions junk 0 0 [] [] []]> (nodes s)) s);;
  with_sched (
    (if negb (parent =? 0) then
       with_node parent (
         n ← node_at parent;
         l ← read (fun _ => seq_add node (n_children n));
         upd_node parent (set_n_children l));;
       n ← node_at parent;
       session_add node (n_session n);;
       n ← node_at parent;
       pgroup_add node (n_pgroup n)
     else
       session_create node;;
       pgroup_create node);;
    l ← read (fun s => seq_add node (task_list s));
    modify (set_task_list l));;
  mret node.

(** True with the lock held, false without it. *)
Definition task_node_ensure_not_exiting (n : Z) : M sched bool :=
  p ← node_at n;
  if n_lock p then (if negb (n_exit_state p =? TASK_RUNNING) then mret false else spin)
  else
    lock_node n;;
    p ← node_at n;
    if negb (n_exit_state p =? TASK_RUNNING) then unlock_node n;; mret false else mret true.

(** One child of a task that exits: the state tested is that of the exiting task. *)
Definition reparent (n child : Z) : M sched unit :=
  with_node child (
    p ← node_at n;
    if n_exit_state p =? TASK_EXITED then
      i ← gets init_node;
      with_node i (q ← node_at i; upd_node i (set_n_zombies (child :: n_zombies q)))
    else
      i ← gets init_node;
      upd_node child (set_n_parent i)).

Fixpoint reparent_all (n : Z) (l : list Z) : M sched unit :=
  match l with
  | [] => mret tt
  | child :: l' => reparent n child;; reparent_all n l'
  end.

(** Exiting is fatal for init; for a task without a parent the lock that
    [_spin_trylock] checks is NULL. *)
Definition task_node_zombify (n : Z) : M sched unit :=
  upd_node n (set_n_exit_state TASK_EXITED);;
  p ← node_at n;
  BUG_ON (n_pid p =? 1);;
  BUG_ON (n_parent p =? 0);;
  ok ← task_node_ensure_not_exiting (n_parent p);
  (if (ok : bool) then
     q ← node_at (n_parent p);
     upd_node (n_parent p) (set_n_zombies (n :: n_zombies q));;
     unlock_node (n_parent p)
   else mret tt);;
  reparent_all n (n_children p).

(** ** Threads *)

Definition obtain_task_node (t : Z) : M sched Z := with_thread t (p ← thread_at t; mret (t_node p)).
Definition obtain_fs_context (t : Z) : M sched Z := with_thread t (p ← thread_at t; mret (t_fs p)).
Definition obtain_ufds (t : Z) : M sched Z := with_thread t (p ← thread_at t; mret (t_ufd p)).

Definition put_fs_context (t : Z) : M sched unit :=
  fs ← with_thread t (p ← thread_at t; upd_thread t (set_t_fs 0);; mret (t_fs p));
  if negb (fs =? 0) then in_fd (fs_put fs) else mret tt.

Definition put_ufds (t : Z) : M sched unit :=
  u ← with_thread t (p ← thread_at t; upd_thread t (set_t_ufd 0);; mret (t_ufd p));
  if negb (u =? 0) then in_fd (ufds_put u) else mret tt.

Definition put_task_node (t : Z) : M sched unit :=
  n ← obtain_task_node t;
  if negb (n =? 0) then with_node n (p ← node_at n; upd_node n (set_n_refs (u32 (n_refs p - 1)))) else mret tt.

Definition thread_build (node ufd fs : Z) : M sched Z :=
  t ← in_fd new_address;
  modify (fun s => set_threads (<[t := Thread false ufd fs node false THREAD_FLAG_KERNEL THREAD_BUILDING 0 false]> (threads s)) s);;
  n ← node_at node;
  l ← read (fun _ => seq_add t (n_threads n));
  upd_node node (set_n_threads l);;
  mret t.

Definition do_wake (t : Z) : M sched unit :=
  with_thread t (
    p ← thread_at t;
    if bool_decide (t_state p <> THREAD_AWAKE) then
      (if bool_decide (t_state p = THREAD_SLEEPING) then upd_thread t (set_t_state THREAD_AWAKE) else mret tt);;
      if negb (t_active p) then queue_add t else mret tt
    else mret tt).

Definition thread_wake (t : Z) : M sched unit := with_sched (do_wake t).

Definition thread_poke (t : Z) : M sched unit :=
  with_sched (p ← thread_at t; if bool_decide (t_state p = THREAD_SLEEPING) then do_wake t else mret tt).

Definition thread_schedule (t : Z) : M sched unit :=
  with_sched (
    l ← read (fun s => seq_add t (thread_list s));
    modify (set_thread_list l);;
    modify (fun s => set_thread_count (u32 (thread_count s + 1)) s);;
    upd_thread t (set_t_state THREAD_SLEEPING);;
    do_wake t).

(** [junk_u] and [junk_n] are what the fresh descriptor table and task held. *)
Definition thread_fork (junk_u : Z -> ufd) (junk_n t : Z) : M sched Z :=
  u ← obtain_ufds t;
  u' ← in_fd (ufd_context_dup junk_u u);
  f ← obtain_fs_context t;
  f' ← in_fd (fs_context_dup f);
  n ← obtain_task_node t;
  n' ← task_node_build junk_n n 0 0;
  child ← thread_build n' u' f';
  p ← thread_at child;
  upd_thread child (set_t_flags (Z.lor (t_flags p) THREAD_FLAG_FORKED));;
  thread_schedule child;;
  mret child.

(** [argv] is the freshly built argument vector. *)
Definition spawn_kernel_task (junk_u : Z -> ufd) (junk_n c argv : Z) : M sched unit :=
  me ← gets (fun s => current s c);
  child ← thread_fork junk_u junk_n me;
  n ← obtain_task_node child;
  upd_node n (set_n_argv argv).

Definition root_task_init (junk_u : Z -> ufd) (root : Z * Z) : M sched unit :=
  modify (fun s => set_thread_count (u32 (thread_count s + 1)) s);;
  u ← in_fd (ufd_context_build junk_u);
  f ← in_fd (fs_context_build root);
  i ← gets init_node;
  t ← thread_build i u f;
  thread_schedule t.

Definition create_idle_task : M sched Z :=
  i ← gets idle_node;
  idler ← thread_build i 0 0;
  upd_thread idler (set_t_state THREAD_IDLE);;
  mret idler.

Definition thread_sleep_prepare (c : Z) : M sched unit :=
  me ← gets (fun s => current s c);
  with_thread me (
    p ← thread_at me;
    BUG_ON (negb (t_active p));;
    BUG_ON (bool_decide (t_state p <> THREAD_AWAKE));;
    upd_thread me (set_t_state THREAD_SLEEPING)).

(** ** The scheduler *)

(** The caller holds [t]'s lock. *)
Definition deactivate_thread (t : Z) : M sched unit :=
  if t =? 0 then mret tt
  else
    p ← thread_at t;
    match t_state p with
    | THREAD_IDLE => mret tt
    | THREAD_AWAKE =>
        BUG_ON (negb (t_active p));;
        queue_add t;;
        modify (fun s => set_tasks_going (u32 (tasks_going s - 1)) s)
    | THREAD_SLEEPING => modify (fun s => set_tasks_going (u32 (tasks_going s - 1)) s)
    | THREAD_EXITED =>
        modify (fun s => set_thread_list (seq_rm t (thread_list s)) s);;
        n ← node_at (t_node p);
        upd_node (t_node p) (set_n_threads (seq_rm t (n_threads n)));;
        unlock_thread t;; lock_thread t;; unlock_thread t;;
        put_fs_context t;;
        put_ufds t;;
        put_task_node t;;
        n ← node_at (t_node p);
        (if bool_decide (n_threads n = []) then task_node_zombify (t_node p) else mret tt);;
        lock_thread t
    | THREAD_BUILDING => panic
    end.

(** The loop of [lock_next_current] never goes round: it returns or panics. *)
Definition lock_next_current (c old : Z) : M sched Z :=
  s ← get;
  match queued_threads s with
  | t :: _ =>
      if tasking_up s then
        (if negb (t =? old) then lock_thread t else mret tt);;
        modify (fun s => set_queued_threads (seq_rm t (queued_threads s)) s);;
        p ← thread_at t;
        match t_state p with
        | THREAD_AWAKE => modify (fun s => set_tasks_going (u32 (tasks_going s + 1)) s);; mret t
        | _ => panic
        end
      else
        (if negb (idle_task s c =? old) then lock_thread (idle_task s c) else mret tt);;
        mret (idle_task s c)
  | [] =>
      (if negb (idle_task s c =? old) then lock_thread (idle_task s c) else mret tt);;
      mret (idle_task s c)
  end.

(** [now] is what [uptime()] returns. *)
Definition finish_sched_switch (now c old next : Z) : M sched unit :=
  modify (fun s => set_current (<[c := next]> (current s)) s);;
  n ← thread_at next;
  BUG_ON (negb (old =? next) && t_active n);;
  upd_thread old (set_t_active false);;
  upd_thread next (set_t_active true);;
  n ← thread_at next;
  BUG_ON (bool_decide (t_state n <> THREAD_IDLE /\ t_state n <> THREAD_AWAKE));;
  unlock_thread old;;
  (if negb (old =? next) then unlock_thread next else mret tt);;
  modify (set_sched_lock false);;
  modify (fun s => set_switch_time (<[c := u64 (now + QUANTUM)]> (switch_time s)) s).

Definition do_sched_switch (now c : Z) : M sched unit :=
  s ← get;
  (if sched_lock s then spin else modify (set_sched_lock true));;
  let old := current s c in
  BUG_ON (old =? 0);;
  lock_thread old;;
  deactivate_thread old;;
  next ← lock_next_current c old;
  finish_sched_switch now c old next.

(** The software interrupt leads to [do_sched_switch] on the same CPU. *)
Definition sched_switch (now c : Z) : M sched unit := do_sched_switch now c.

(** The state is set and the lock taken once more before the CPU is given up. *)
Definition thread_die (now c : Z) : M sched unit :=
  me ← gets (fun s => current s c);
  with_thread me (upd_thread me (set_t_state THREAD_EXITED));;
  lock_thread me;; unlock_thread me;;
  sched_switch now c.

Definition thread_mark_die (t : Z) : M sched unit := with_thread t (upd_thread t (set_t_should_die true)).

Definition sched_try_resched (now c : Z) (is_user : bool) : M sched unit :=
  s ← get;
  if negb (tasking_up s) then mret tt
  else
    me ← thread_at (current s c);
    if t_should_die me && is_user then thread_die now c
    else if (switch_time s c <=? now) || bool_decide (t_state me <> THREAD_AWAKE) then sched_switch now c
    else mret tt.

Definition sched_suspend_pending_interrupt (now c : Z) : M sched unit :=
  with_sched (
    me ← gets (fun s => current s c);
    with_thread me (l ← read (fun s => seq_add me (poll_threads s)); modify (set_poll_threads l));;
    modify (fun s => set_suspended_threads (u32 (suspended_threads s + 1)) s);;
    thread_sleep_prepare c);;
  sched_switch now c.

Fixpoint wake_all (l : list Z) : M sched unit :=
  match l with
  | [] => mret tt
  | t :: l' =>
      modify (fun s => set_suspended_threads (u32 (suspended_threads s - 1)) s);;
      do_wake t;;
      wake_all l'
  end.

Definition sched_interrupt_notify : M sched unit :=
  with_sched (
    l ← gets poll_threads;
    wake_all l;;
    s ← get;
    BUG_ON (negb (suspended_threads s =? 0));;
    modify (set_poll_threads [])).

Definition sched_loop (now c : Z) : M sched unit :=
  modify (fun s => set_switch_time (<[c := 0]> (switch_time s)) s);;
  idle ← create_idle_task;
  modify (fun s => set_idle_task (<[c := idle]> (idle_task s)) s);;
  modify (fun s => set_current (<[c := idle]> (current s)) s);;
  (if c =? 0 then modify (set_tasking_up true) else mret tt);;
  do_sched_switch now c.

Definition sched_init (junk idle_argv init_argv : Z) : M sched unit :=
  i ← task_node_build junk 0 idle_argv 0;
  modify (set_idle_node i);;
  i ← task_node_build junk 0 init_argv 0;
  modify (set_init_node i).

(** ** Signals *)

Definition sigbit (sig : Z) : Z := u32 (1 <<< sig).
Definition sigaddset (set sig : Z) : Z := Z.lor set (sigbit sig).
Definition sigdelset (set sig : Z) : Z := Z.land set (u32 (Z.lnot (sigbit sig))).
Definition sigismember (set sig : Z) : bool := has set (sigbit sig).

Definition SIGHUP : Z := 1.
Definition SIGINT : Z := 2.
Definition SIGQUIT : Z := 3.
Definition SIGILL : Z := 4.
Definition SIGTRAP : Z := 5.
Definition SIGABRT : Z := 6.
Definition SIGEMT : Z := 7.
Definition SIGFPE : Z := 8.
Definition SIGKILL : Z := 9.
Definition SIGBUS : Z := 10.
Definition SIGSEGV : Z := 11.
Definition SIGSYS : Z := 12.
Definition SIGPIPE : Z := 13.
Definition SIGALRM : Z := 14.
Definition SIGTERM : Z := 15.
Definition SIGURG : Z := 16.
Definition SIGSTOP : Z := 17.
Definition SIGTSTP : Z := 18.
Definition SIGCONT : Z := 19.
Definition SIGCHLD : Z := 20.
Definition SIGTTIN : Z := 21.
Definition SIGTTOU : Z := 22.
Definition SIGIO : Z := 23.
Definition SIGWINCH : Z := 24.
Definition SIGUSR1 : Z := 25.
Definition SIGUSR2 : Z := 26.

Definition SA_NOCLDSTOP : Z := 1.
Definition SA_SIGINFO : Z := 2.
Definition SA_ONSTACK : Z := 4.
Definition SA_RESTART : Z := 8.

Definition SD_NONE : Z := 0.
Definition SD_UNCATCHABLE : Z := 1 <<< 0.
Definition SD_KERNEL : Z := 1 <<< 1.

(** The default handlers: [sig_ignr], [sig_kill], and [sig_core], [sig_stop] and
    [sig_cont], which panic; [HNone] is a null pointer. *)
Inductive handler := HNone | sig_ignr | sig_kill | sig_core | sig_stop | sig_cont.

Record sig_descriptor := SigDescriptor {
  sd_num : Z;
  sd_flags : Z;
  sd_handler : handler;
}.

(** In dispatch order; the rest of the array is zero. *)
Definition signals : list sig_descriptor :=
  [SigDescriptor SIGKILL (Z.lor SD_UNCATCHABLE SD_KERNEL) sig_kill;
   SigDescriptor SIGSTOP SD_UNCATCHABLE sig_stop;
   SigDescriptor SIGHUP SD_NONE sig_kill;
   SigDescriptor SIGINT SD_NONE sig_kill;
   SigDescriptor SIGQUIT SD_NONE sig_core;
   SigDescriptor SIGILL SD_NONE sig_core;
   SigDescriptor SIGTRAP SD_NONE sig_core;
   SigDescriptor SIGABRT SD_NONE sig_core;
   SigDescriptor SIGEMT SD_NONE sig_kill;
   SigDescriptor SIGFPE SD_NONE sig_core;
   SigDescriptor SIGBUS SD_NONE sig_core;
   SigDescriptor SIGSEGV SD_NONE sig_kill;
   SigDescriptor SIGSYS SD_NONE sig_core;
   SigDescriptor SIGPIPE SD_NONE sig_kill;
   SigDescriptor SIGALRM SD_NONE sig_kill;
   SigDescriptor SIGTERM SD_NONE sig_kill;
   SigDescriptor SIGURG SD_NONE sig_ignr;
   SigDescriptor SIGTSTP SD_NONE sig_stop;
   SigDescriptor SIGCONT SD_NONE sig_cont;
   SigDescriptor SIGCHLD SD_NONE sig_ignr;
   SigDescriptor SIGTTIN SD_NONE sig_stop;
   SigDescriptor SIGTTOU SD_NONE sig_stop;
   SigDescriptor SIGIO SD_NONE sig_kill;
   SigDescriptor SIGWINCH SD_NONE sig_ignr;
   SigDescriptor SIGUSR1 SD_NONE sig_kill;
   SigDescriptor SIGUSR2 SD_NONE sig_kill] ++ replicate 6 (SigDescriptor 0 0 HNone).

Definition thread_send_signal (t sig : Z) : M sched unit :=
  p ← thread_at t;
  upd_thread t (set_t_sig_pending (sigaddset (t_sig_pending p) sig));;
  thread_poke t.

Definition task_send_signal (n sig : Z) : M sched unit :=
  p ← node_at n;
  match n_threads p with
  | [] => mret tt
  | t :: _ => thread_send_signal t sig
  end.

Fixpoint send_all (l : list Z) (sig : Z) : M sched unit :=
  match l with
  | [] => mret tt
  | n :: l' => task_send_signal n sig;; send_all l' sig
  end.
Definition pgroup_send_signal (pg sig : Z) : M sched unit :=
  g ← pgroup_at pg; send_all (g_members g) sig.

Fixpoint mark_all (l : list Z) : M sched unit :=
  match l with
  | [] => mret tt
  | t :: l' => thread_mark_die t;; mark_all l'
  end.

Definition task_node_exit (c code exit_cause : Z) : M sched unit :=
  me ← gets (fun s => current s c);
  n ← obtain_task_node me;
  BUG_ON (n =? 0);;
  upd_node n (set_n_exit_code code);;
  upd_node n (set_n_exit_cause exit_cause);;
  ok ← task_node_ensure_not_exiting n;
  if (ok : bool) then
    upd_node n (set_n_exit_state TASK_EXITING);;
    p ← node_at n;
    mark_all (n_threads p);;
    unlock_node n
  else mret tt.

Definition run_handler (c : Z) (h : handler) (num : Z) : M sched unit :=
  match h with
  | HNone | sig_ignr => mret tt
  | sig_kill => task_node_exit c num ECAUSE_SIG
  | sig_core | sig_stop | sig_cont => panic
  end.

(** [arch_setup_sigaction] is logged in [delivered]. *)
Definition do_invoke_sigaction (c : Z) (sig : sig_descriptor) : M sched bool :=
  s ← get;
  let me := current s c in
  p ← thread_at me;
  if has (t_flags p) THREAD_FLAG_KERNEL && negb (has (sd_flags sig) SD_KERNEL) then mret false
  else
    n ← node_at (t_node p);
    let sa := n_sigactions n (sd_num sig) in
    if ((sa_handler sa =? SIG_DFL) || has (sd_flags sig) SD_UNCATCHABLE) && negb (n_pid n =? 1) then
      run_handler c (sd_handler sig) (sd_num sig);; mret true
    else if sigismember (n_sig_mask n) (sd_num sig) then mret false
    else
      upd_thread me (set_t_sig_pending (sigdelset (t_sig_pending p) (sd_num sig)));;
      if sa_handler sa =? SIG_IGN then mret false
      else
        let old_mask := n_sig_mask n in
        let new_mask := Z.lor old_mask (sa_mask sa) in
        BUG_ON (has (sa_flags sa) SA_ONSTACK);;
        BUG_ON (has (sa_flags sa) SA_NOCLDSTOP);;
        BUG_ON (has (sa_flags sa) SA_SIGINFO);;
        BUG_ON (has (sa_flags sa) SA_RESTART);;
        upd_node (t_node p) (set_n_sig_mask (sigaddset new_mask (sd_num sig)));;
        modify (fun s => set_delivered ((sa_handler sa, n_sigtramp n, old_mask) :: delivered s) s);;
        mret true.

Fixpoint deliver_first (c : Z) (l : list sig_descriptor) : M sched unit :=
  match l with
  | [] => mret tt
  | d :: l' =>
      s ← get;
      p ← thread_at (current s c);
      if sigismember (t_sig_pending p) (sd_num d) then
        stop ← do_invoke_sigaction c d;
        if (stop : bool) then mret tt else deliver_first c l'
      else deliver_first c l'
  end.

Definition sched_deliver_signals (c : Z) : M sched unit :=
  s ← get;
  if negb (tasking_up s) then mret tt
  else
    p ← thread_at (current s c);
    n ← node_at (t_node p);
    (if negb (t_sig_pending p =? 0) && (n_sigtramp n =? 0)
     then upd_thread (current s c) (set_t_sig_pending (sigaddset 0 SIGKILL))
     else mret tt);;
    deliver_first c signals.

Definition are_signals_pending (t : Z) : M sched bool :=
  p ← thread_at t; mret (negb (t_sig_pending p =? 0)).
Definition should_abort_slow_io (c : Z) : M sched bool :=
  s ← get; are_signals_pending (current s c).
