(* ===== verification/Schedule.v ===== *)
(** * Schedule: the scheduler's invariant

    [sched_inv] says what must hold of [Sched]'s state whenever no CPU is inside the
    scheduler: which threads are queued, which are running and where.  Every operation
    of the scheduler keeps it and trips none of the scheduler's bug checks.  The CPUs'
    critical sections under [sched_lock] are taken one after the other. *)

From S2P Require Import Prelude Words Ufd Sched.

(** ** Specifications of the accessors *)

Lemma upd_thread_spec s t p f (Q : unit -> sched -> Prop) :
  threads s !! t = Some p -> Q tt (set_threads (<[t := f p]> (threads s)) s) -> runs (upd_thread t f) s Q.
Proof. intros Hp HQ. unfold upd_thread, thread_at. mstep. eapply runs_read; [exact Hp|]. by mstep. Qed.

Lemma upd_node_spec s n p f (Q : unit -> sched -> Prop) :
  nodes s !! n = Some p -> Q tt (set_nodes (<[n := f p]> (nodes s)) s) -> runs (upd_node n f) s Q.
Proof. intros Hp HQ. unfold upd_node, node_at. mstep. eapply runs_read; [exact Hp|]. by mstep. Qed.

Lemma lock_thread_spec s t p (Q : unit -> sched -> Prop) :
  threads s !! t = Some p -> t_lock p = false -> Q tt (set_threads (<[t := set_t_lock true p]> (threads s)) s) ->
  runs (lock_thread t) s Q.
Proof.
  intros Hp Hl HQ. unfold lock_thread, thread_at. mstep. eapply runs_read; [exact Hp|]. rewrite Hl. by eapply upd_thread_spec.
Qed.

Lemma with_thread_spec {A} s t p (m : M sched A) (Q : A -> sched -> Prop) :
  threads s !! t = Some p -> t_lock p = false ->
  runs m (set_threads (<[t := set_t_lock true p]> (threads s)) s) (fun a s' => exists p', threads s' !! t = Some p' /\
    Q a (set_threads (<[t := set_t_lock false p']> (threads s')) s')) ->
  runs (with_thread t m) s Q.
Proof.
  intros Hp Hl Hm. unfold with_thread. mstep. eapply lock_thread_spec; [done|done|]. mstep. eapply runs_mono; [exact Hm|].
  intros a s' (p' & Hp' & HQ). mstep. unfold unlock_thread. eapply upd_thread_spec; [exact Hp'|]. by mstep.
Qed.

Lemma lock_node_spec s n p (Q : unit -> sched -> Prop) :
  nodes s !! n = Some p -> n_lock p = false -> Q tt (set_nodes (<[n := set_n_lock true p]> (nodes s)) s) ->
  runs (lock_node n) s Q.
Proof.
  intros Hp Hl HQ. unfold lock_node, node_at. mstep. eapply runs_read; [exact Hp|]. rewrite Hl. by eapply upd_node_spec.
Qed.

Lemma with_node_spec {A} s n p (m : M sched A) (Q : A -> sched -> Prop) :
  nodes s !! n = Some p -> n_lock p = false ->
  runs m (set_nodes (<[n := set_n_lock true p]> (nodes s)) s) (fun a s' => exists p', nodes s' !! n = Some p' /\
    Q a (set_nodes (<[n := set_n_lock false p']> (nodes s')) s')) ->
  runs (with_node n m) s Q.
Proof.
  intros Hp Hl Hm. unfold with_node. mstep. eapply lock_node_spec; [done|done|]. mstep. eapply runs_mono; [exact Hm|].
  intros a s' (p' & Hp' & HQ). mstep. unfold unlock_node. eapply upd_node_spec; [exact Hp'|]. by mstep.
Qed.

(** ** Invariant *)

(** The task tree: nobody holds a task's lock, parents and children exist. *)
Definition task_wf (s : sched) (p : task_node) : Prop :=
  n_lock p = false /\ (n_parent p <> 0 -> is_Some (nodes s !! n_parent p)) /\
  forall ch, ch ∈ n_children p -> is_Some (nodes s !! ch) /\ ch <> init_node s.
Definition tasks_wf (s : sched) : Prop :=
  (forall n p, nodes s !! n = Some p -> task_wf s p) /\ is_Some (nodes s !! init_node s) /\ init_node s <> 0.

(** Every thread has a task; its contexts are its own. *)
Definition contexts_wf (s : sched) : Prop :=
  (forall t p, threads s !! t = Some p -> (t_node p <> 0 /\ is_Some (nodes s !! t_node p)) /\
     (t_fs p <> 0 -> exists r w, fscs (fd s) !! t_fs p = Some (FsContext false 1 r w)) /\
     (t_ufd p <> 0 -> exists tb, ufdcs (fd s) !! t_ufd p = Some (UfdContext false 1 tb))) /\
  (forall t1 t2 p1 p2, threads s !! t1 = Some p1 -> threads s !! t2 = Some p2 -> t1 <> t2 ->
     (t_fs p1 <> 0 -> t_fs p1 <> t_fs p2) /\ (t_ufd p1 <> 0 -> t_ufd p1 <> t_ufd p2)).

(** A task that may exit: not init, and somebody's child. *)
Definition may_exit (s : sched) (n : Z) : Prop :=
  exists p, nodes s !! n = Some p /\ n_pid p <> 1 /\ n_parent p <> 0.

Section Inv.
Context (cpus : list Z).

(** Who runs: the CPUs' threads are distinct and are the active ones; each CPU has an
    idle thread, which only it runs. *)
Record running (s : sched) : Prop := Running {
  r_cur : forall c, c ∈ cpus -> exists p, threads s !! current s c = Some p /\ t_active p = true /\
    t_state p <> THREAD_BUILDING;
  r_inj : forall c1 c2, c1 ∈ cpus -> c2 ∈ cpus -> current s c1 = current s c2 -> c1 = c2;
  r_active : forall t p, threads s !! t = Some p -> t_active p = true -> exists c, c ∈ cpus /\ current s c = t;
  r_idle : forall c, c ∈ cpus -> exists p, threads s !! idle_task s c = Some p /\ t_state p = THREAD_IDLE;
  r_idle_inj : forall c1 c2, c1 ∈ cpus -> c2 ∈ cpus -> idle_task s c1 = idle_task s c2 -> c1 = c2;
  r_own : forall c c', c ∈ cpus -> c' ∈ cpus -> current s c' = idle_task s c -> c' = c;
  r_null : threads s !! 0 = None;
}.

(** [inv L held q s]: [sched_lock] is held if [L], the thread locks in [held] are held;
    the queue holds each runnable thread that is not running, once, and besides them
    those of [q], which are queued although they still count as active. *)
Record inv (L : bool) (held q : list Z) (s : sched) : Prop := Inv {
  i_lock : sched_lock s = L;
  i_tlock : forall t p, threads s !! t = Some p -> t_lock p = bool_decide (t ∈ held);
  i_nodup : NoDup (queued_threads s);
  i_queue : forall t, t ∈ queued_threads s <->
    exists p, threads s !! t = Some p /\ t_state p = THREAD_AWAKE /\ (t_active p = false \/ t ∈ q);
  i_running : running s;
  i_tasks : tasks_wf s;
  i_contexts : contexts_wf s;
  i_exit : forall t p, threads s !! t = Some p -> t_active p = true -> t_state p = THREAD_EXITED -> may_exit s (t_node p);
}.

(** Between the scheduler's critical sections. *)
Definition sched_inv : sched -> Prop := inv false [] [].

(** *** Changing one thread *)

Definition same_task (p p' : thread) : Prop := t_fs p' = t_fs p /\ t_ufd p' = t_ufd p /\ t_node p' = t_node p.

Lemma contexts_upd s s' t p p' :
  contexts_wf s -> threads s !! t = Some p -> same_task p p' -> threads s' = <[t := p']> (threads s) ->
  nodes s' = nodes s -> fd s' = fd s -> contexts_wf s'.
Proof.
  intros [H1 H2] Hp (E1 & E2 & E3) Et En Ef.
  assert (Hlk : forall x q, threads s' !! x = Some q -> exists q0, threads s !! x = Some q0 /\ same_task q0 q).
  { intros x q. rewrite Et. destruct (decide (x = t)) as [->|Hne].
    - rewrite lookup_insert_eq. intros [= <-]. by exists p.
    - rewrite lookup_insert_ne by done. intros Hq. exists q. done. }
  split.
  - intros x q Hq. destruct (Hlk x q Hq) as (q0 & Hq0 & F1 & F2 & F3). rewrite F1, F2, F3, En, Ef. by apply (H1 x).
  - intros x1 x2 q1 q2 Hq1 Hq2 Hne. destruct (Hlk x1 q1 Hq1) as (p1 & Hp1 & F1 & F2 & _).
    destruct (Hlk x2 q2 Hq2) as (p2 & Hp2 & G1 & G2 & _). rewrite F1, F2, G1, G2. by apply (H2 x1 x2).
Qed.

(** A change of one thread that leaves [active] alone. *)
Lemma running_upd s s' t p p' :
  running s -> threads s !! t = Some p -> t_active p' = t_active p ->
  (t_state p = THREAD_IDLE -> t_state p' = THREAD_IDLE) -> (t_active p = true -> t_state p' <> THREAD_BUILDING) ->
  threads s' = <[t := p']> (threads s) -> current s' = current s -> idle_task s' = idle_task s -> running s'.
Proof.
  intros [R1 R2 R3 R4 R5 R6 R7] Hp Ea Hi Hb Et Ec Ei. split; rewrite ?Ec, ?Ei; [|exact R2| | |exact R5|exact R6|].
  - intros c Hc. destruct (R1 c Hc) as (q & Hq & A1 & A2). rewrite Et. destruct (decide (current s c = t)) as [E|Hne].
    + rewrite E, lookup_insert_eq. exists p'. rewrite E in Hq. assert (q = p) as -> by congruence.
      split; [done|]. split; [congruence|auto].
    + rewrite lookup_insert_ne by done. by exists q.
  - intros x q. rewrite Et. destruct (decide (x = t)) as [->|Hne].
    + rewrite lookup_insert_eq. intros [= <-] Ha. apply (R3 t p); [done|congruence].
    + rewrite lookup_insert_ne by done. apply R3.
  - intros c Hc. destruct (R4 c Hc) as (q & Hq & A1). rewrite Et. destruct (decide (idle_task s c = t)) as [E|Hne].
    + rewrite E, lookup_insert_eq. exists p'. rewrite E in Hq. assert (q = p) as -> by congruence. auto.
    + rewrite lookup_insert_ne by done. by exists q.
  - rewrite Et, lookup_insert_ne; [done|]. congruence.
Qed.

Lemma tasks_same s s' : tasks_wf s -> nodes s' = nodes s -> init_node s' = init_node s -> tasks_wf s'.
Proof. intros Hw En Ei. unfold tasks_wf, task_wf. by rewrite En, Ei. Qed.

(** One thread's fields and its place in the queue change. *)
Lemma inv_upd L L' held held' q s s' t p p' :
  inv L held q s -> threads s !! t = Some p -> same_task p p' -> t_active p' = t_active p ->
  t_lock p' = bool_decide (t ∈ held') -> (forall x, x <> t -> x ∈ held' <-> x ∈ held) ->
  (t_state p = THREAD_IDLE -> t_state p' = THREAD_IDLE) ->
  (t_active p = true -> t_state p' <> THREAD_BUILDING /\ (t_state p' = THREAD_EXITED -> may_exit s (t_node p))) ->
  sched_lock s' = L' -> threads s' = <[t := p']> (threads s) ->
  NoDup (queued_threads s') ->
  (forall x, x <> t -> x ∈ queued_threads s' <-> x ∈ queued_threads s) ->
  (t ∈ queued_threads s' <-> t_state p' = THREAD_AWAKE /\ (t_active p = false \/ t ∈ q)) ->
  current s' = current s -> idle_task s' = idle_task s -> nodes s' = nodes s -> fd s' = fd s -> init_node s' = init_node s ->
  inv L' held' q s'.
Proof.
  intros [I1 I2 I3 I4 I5 I6 I7 I8] Hp Hst Ha Hl Hh Hi Hb Es Et Hnd Hq Hqt Ec Ei En Ef Ein. split.
  - done.
  - intros x px. rewrite Et. destruct (decide (x = t)) as [->|Hne].
    + rewrite lookup_insert_eq. by intros [= <-].
    + rewrite lookup_insert_ne by done. intros Hx. rewrite (I2 x px Hx). apply bool_decide_ext. symmetry. by apply Hh.
  - done.
  - intros x. destruct (decide (x = t)) as [->|Hne].
    + rewrite Hqt, Et, lookup_insert_eq, <- Ha. split; [intros ?; by exists p'|]. by intros (? & [= <-] & ?).
    + rewrite Hq by done. rewrite Et, lookup_insert_ne by done. apply I4.
  - eapply running_upd; eauto. intros Hact. by apply Hb.
  - by eapply tasks_same.
  - by eapply contexts_upd.
  - intros x px. unfold may_exit. rewrite En, Et. destruct (decide (x = t)) as [->|Hne].
    + rewrite lookup_insert_eq. intros [= <-] A1 A2. destruct Hst as (_ & _ & ->). apply Hb; [congruence|done].
    + rewrite lookup_insert_ne by done. apply I8.
Qed.

(** *** Locks *)

(** What the parts of a critical section leave alone. *)
Definition keeps (s s' : sched) : Prop :=
  current s' = current s /\ idle_task s' = idle_task s /\ queued_threads s' = queued_threads s /\
  tasking_up s' = tasking_up s /\
  forall t, (fun p => (t_state p, t_active p, t_node p)) <$> threads s' !! t = (fun p => (t_state p, t_active p, t_node p)) <$> threads s !! t.

Lemma keeps_refl s : keeps s s.
Proof. done. Qed.
Lemma keeps_trans s1 s2 s3 : keeps s1 s2 -> keeps s2 s3 -> keeps s1 s3.
Proof.
  intros (A1 & A2 & A3 & A4 & A5) (B1 & B2 & B3 & B4 & B5). unfold keeps. rewrite B1, B2, B3, B4.
  do 4 (split; [done|]). intros t. by rewrite B5.
Qed.
Lemma keeps_upd s s' t p p' :
  threads s !! t = Some p -> t_state p' = t_state p -> t_active p' = t_active p -> t_node p' = t_node p ->
  threads s' = <[t := p']> (threads s) -> current s' = current s -> idle_task s' = idle_task s ->
  queued_threads s' = queued_threads s -> tasking_up s' = tasking_up s -> keeps s s'.
Proof.
  intros Hp E1 E2 E3 Et Ec Ei Eq Eu. unfold keeps. do 4 (split; [done|]). intros x. rewrite Et.
  destruct (decide (x = t)) as [->|Hne]; [|by rewrite lookup_insert_ne].
  rewrite lookup_insert_eq, Hp. cbn. by rewrite E1, E2, E3.
Qed.
Lemma keeps_thread s s' t p : keeps s s' -> threads s !! t = Some p ->
  exists p', threads s' !! t = Some p' /\ t_state p' = t_state p /\ t_active p' = t_active p /\ t_node p' = t_node p.
Proof.
  intros (_ & _ & _ & _ & K) Hp. specialize (K t). rewrite Hp in K. cbn in K.
  destruct (threads s' !! t) as [p'|]; [|done]. cbn in K. exists p'. split; [done|]. by simplify_eq.
Qed.

Lemma active_not_building L held q s t p :
  inv L held q s -> threads s !! t = Some p -> t_active p = true -> t_state p <> THREAD_BUILDING.
Proof.
  intros HI Hp Ha. destruct (r_active _ (i_running _ _ _ _ HI) t p Hp Ha) as (c & Hc & <-).
  destruct (r_cur _ (i_running _ _ _ _ HI) c Hc) as (p' & Hp' & _ & Hb). congruence.
Qed.

(** A change of one thread that the scheduler does not look at. *)
Lemma inv_same L held held' q s t p p' :
  inv L held q s -> threads s !! t = Some p -> same_task p p' -> t_state p' = t_state p -> t_active p' = t_active p ->
  t_lock p' = bool_decide (t ∈ held') -> (forall x, x <> t -> x ∈ held' <-> x ∈ held) ->
  inv L held' q (set_threads (<[t := p']> (threads s)) s) /\ keeps s (set_threads (<[t := p']> (threads s)) s).
Proof.
  intros HI Hp Hst Es Ha Hl Hh. split; [|eapply keeps_upd; try done; apply Hst].
  eapply (inv_upd L L held held' q s _ t p p'); try done.
  - by rewrite Es.
  - intros A. rewrite Es. split; [by eapply active_not_building|]. by apply (i_exit _ _ _ _ HI) with t.
  - apply (i_lock _ _ _ _ HI).
  - apply (i_nodup _ _ _ _ HI).
  - cbn. rewrite Es, (i_queue _ _ _ _ HI t). split; [intros (p0 & Hp0 & A); by replace p with p0 by congruence|]. intros A. by exists p.
Qed.

Lemma lock_thread_inv L held q s t p (Q : unit -> sched -> Prop) :
  inv L held q s -> threads s !! t = Some p -> t ∉ held ->
  (forall s', inv L (t :: held) q s' -> keeps s s' -> Q tt s') -> runs (lock_thread t) s Q.
Proof.
  intros HI Hp Hn HQ. eapply lock_thread_spec; [exact Hp| |].
  - rewrite (i_tlock _ _ _ _ HI t p Hp). by apply bool_decide_eq_false.
  - destruct (inv_same L held (t :: held) q s t p (set_t_lock true p)) as [H1 H2]; try done; [|set_solver|by apply HQ].
    cbn. symmetry. apply bool_decide_eq_true. set_solver.
Qed.

Lemma unlock_thread_inv L held held' q s t p (Q : unit -> sched -> Prop) :
  inv L held q s -> threads s !! t = Some p -> t ∉ held' -> (forall x, x <> t -> x ∈ held' <-> x ∈ held) ->
  (forall s', inv L held' q s' -> keeps s s' -> Q tt s') -> runs (unlock_thread t) s Q.
Proof.
  intros HI Hp Hn Hh HQ. eapply upd_thread_spec; [exact Hp|].
  destruct (inv_same L held held' q s t p (set_t_lock false p)) as [H1 H2]; try done; [|by apply HQ].
  cbn. symmetry. by apply bool_decide_eq_false.
Qed.

(** A critical section under a thread's lock. *)
Lemma with_thread_inv {A} L held q q' s t p (m : M sched A) (Q : A -> sched -> Prop) :
  inv L held q s -> threads s !! t = Some p -> t ∉ held ->
  (forall s1, inv L (t :: held) q s1 -> keeps s s1 -> runs m s1 (fun a s2 => inv L (t :: held) q' s2 /\ is_Some (threads s2 !! t) /\
     forall s3, inv L held q' s3 -> keeps s2 s3 -> Q a s3)) ->
  runs (with_thread t m) s Q.
Proof.
  intros HI Hp Hn Hm. unfold with_thread. mstep. eapply lock_thread_inv; [done..|]. intros s1 H1 K1. mstep.
  eapply runs_mono; [by apply Hm|]. intros a s2 (H2 & [p2 Hp2] & HQ). mstep.
  eapply unlock_thread_inv; [done|done|exact Hn|set_solver|]. intros s3 H3 K3. mstep. by apply HQ.
Qed.

Lemma running_same s s' : running s -> threads s' = threads s -> current s' = current s -> idle_task s' = idle_task s -> running s'.
Proof. intros [] E1 E2 E3. split; by rewrite ?E1, ?E2, ?E3. Qed.

Lemma inv_sched_lock L L' held q s : inv L held q s -> inv L' held q (set_sched_lock L' s).
Proof. intros []. split; try done. by eapply running_same. Qed.

Lemma with_sched_inv {A} s (m : M sched A) (Q : A -> sched -> Prop) :
  sched_inv s -> (forall s1, inv true [] [] s1 -> keeps s s1 -> threads s1 = threads s -> thread_list s1 = thread_list s ->
    runs m s1 (fun a s2 => inv true [] [] s2 /\ forall s3, sched_inv s3 -> s3 = set_sched_lock false s2 -> Q a s3)) ->
  runs (with_sched m) s Q.
Proof.
  intros HI Hm. apply runs_locked; [by rewrite (i_lock _ _ _ _ HI)|].
  eapply runs_mono; [apply Hm; [by eapply inv_sched_lock|done..]|]. intros a s2 [H2 HQ]. apply HQ; [by eapply inv_sched_lock|done].
Qed.

(** *** Waking *)

Definition wakeable (p : thread) : Prop := t_state p = THREAD_AWAKE \/ t_state p = THREAD_SLEEPING \/ t_active p = true.
Definition woken (st : thread_state) : thread_state := if bool_decide (st = THREAD_SLEEPING) then THREAD_AWAKE else st.

(** Only [t]'s state has changed, and only as waking changes it. *)
Definition wakes (t : Z) (s s' : sched) : Prop :=
  current s' = current s /\ idle_task s' = idle_task s /\ tasking_up s' = tasking_up s /\
  (forall x, x <> t -> t_state <$> threads s' !! x = t_state <$> threads s !! x) /\
  t_state <$> threads s' !! t = woken <$> (t_state <$> threads s !! t).

Lemma keeps_wakes t s s1 s2 s3 : keeps s s1 -> keeps s2 s3 -> wakes t s1 s2 -> wakes t s s3.
Proof.
  intros (A1 & A2 & A3 & A4 & A5) (B1 & B2 & B3 & B4 & B5) (W1 & W2 & W3 & W4 & W5). unfold wakes.
  rewrite B1, B2, B4, W1, W2, W3. do 3 (split; [done|]).
  assert (HA : forall x, t_state <$> threads s1 !! x = t_state <$> threads s !! x).
  { intros x. specialize (A5 x). destruct (threads s1 !! x), (threads s !! x); cbn in *; congruence. }
  assert (HB : forall x, t_state <$> threads s3 !! x = t_state <$> threads s2 !! x).
  { intros x. specialize (B5 x). destruct (threads s3 !! x), (threads s2 !! x); cbn in *; congruence. }
  split; [intros x Hx; by rewrite HB, W4, HA|by rewrite HB, W5, HA].
Qed.

Lemma do_wake_inv L q s t p (Q : unit -> sched -> Prop) :
  inv L [] q s -> threads s !! t = Some p -> wakeable p -> t ∉ q ->
  (forall s', inv L [] q s' -> wakes t s s' -> Q tt s') -> runs (do_wake t) s Q.
Proof.
  intros HI Hp Hw Hq HQ. unfold do_wake. eapply (with_thread_inv L [] q q); [done|exact Hp|set_solver|]. intros s1 H1 K1.
  destruct (keeps_thread _ _ _ _ K1 Hp) as (p1 & Hp1 & E1 & E2 & E3). mstep. eapply runs_read; [exact Hp1|].
  assert (Hfin : forall s2 : sched, inv L [t] q s2 -> wakes t s1 s2 -> is_Some (threads s2 !! t) ->
    inv L [t] q s2 /\ is_Some (threads s2 !! t) /\ forall s3, inv L [] q s3 -> keeps s2 s3 -> Q tt s3).
  { intros s2 H2 W2 Hs. split; [done|]. split; [done|]. intros s3 H3 K3. apply HQ; [done|]. by eapply keeps_wakes. }
  case_bool_decide as Hna.
  2: { mstep. apply Hfin; [done| |by exists p1]. unfold wakes. rewrite Hp1. cbn. rewrite Hna. done. }
  case_bool_decide as Hsl.
  - mstep. eapply upd_thread_spec; [exact Hp1|].
    assert (Hiq : t ∉ queued_threads s1).
    { rewrite (i_queue _ _ _ _ H1 t). intros (p0 & Hp0 & A & _). congruence. }
    assert (Hwk : forall qs, wakes t s1 (set_queued_threads qs (set_threads (<[t := set_t_state THREAD_AWAKE p1]> (threads s1)) s1))).
    { intros qs. unfold wakes. do 3 (split; [done|]). cbn. split; [intros x Hx; by rewrite lookup_insert_ne|].
      rewrite lookup_insert_eq, Hp1. cbn. unfold woken. by rewrite Hsl. }
    assert (Hiv : forall qs, NoDup qs -> (forall x, x <> t -> x ∈ qs <-> x ∈ queued_threads s1) ->
      (t ∈ qs <-> t_active p1 = false) ->
      inv L [t] q (set_queued_threads qs (set_threads (<[t := set_t_state THREAD_AWAKE p1]> (threads s1)) s1))).
    { intros qs Hnd Hx Ht. eapply (inv_upd L L [t] [t] q s1 _ t p1 (set_t_state THREAD_AWAKE p1)); try done.
      - cbn. by apply (i_tlock _ _ _ _ H1).
      - cbn. congruence.
      - apply (i_lock _ _ _ _ H1).
      - cbn. rewrite Ht. tauto. }
    destruct (t_active p1) eqn:Ea; cbn [negb].
    + mstep. specialize (Hiv (queued_threads s1)). specialize (Hwk (queued_threads s1)).
      apply Hfin; [apply Hiv; [apply (i_nodup _ _ _ _ H1)|done|]|exact Hwk|cbn; rewrite lookup_insert_eq; by eexists].
      split; [done|]. done.
    + unfold queue_add. mstep. eapply (runs_read _ _ (t :: queued_threads s1)); [cbn; unfold seq_add; by rewrite bool_decide_eq_false_2|].
      mstep. apply Hfin; [apply Hiv|apply Hwk|cbn; rewrite lookup_insert_eq; by eexists].
      * apply NoDup_cons. split; [done|apply (i_nodup _ _ _ _ H1)].
      * set_solver.
      * set_solver.
  - assert (Ea : t_active p1 = true).
    { rewrite E2. rewrite E1 in Hna, Hsl. destruct Hw as [?|[?|?]]; [done|done|done]. }
    do 2 mstep. rewrite Ea. cbn [negb]. mstep. apply Hfin; [done| |by exists p1]. unfold wakes. rewrite Hp1. cbn.
    unfold woken. by rewrite bool_decide_eq_false_2.
Qed.

Lemma thread_wake_spec s t p (Q : unit -> sched -> Prop) :
  sched_inv s -> threads s !! t = Some p -> wakeable p ->
  (forall s', sched_inv s' -> wakes t s s' -> Q tt s') -> runs (thread_wake t) s Q.
Proof.
  intros HI Hp Hw HQ. unfold thread_wake. apply with_sched_inv; [done|]. intros s1 H1 K1 E1 _. rewrite <- E1 in Hp.
  eapply do_wake_inv; [done|exact Hp|done|set_solver|]. intros s2 H2 W2. split; [done|]. intros s3 H3 ->. apply HQ; [done|].
  by eapply keeps_wakes; [exact K1| |exact W2].
Qed.

(** A thread that is not asleep is not affected by a poke. *)
Lemma thread_poke_spec s t p (Q : unit -> sched -> Prop) :
  sched_inv s -> threads s !! t = Some p ->
  (forall s', sched_inv s' -> wakes t s s' -> Q tt s') -> runs (thread_poke t) s Q.
Proof.
  intros HI Hp HQ. unfold thread_poke. apply with_sched_inv; [done|]. intros s1 H1 K1 E1 _. rewrite <- E1 in Hp.
  mstep. eapply runs_read; [exact Hp|]. case_bool_decide as Hs.
  - eapply do_wake_inv; [done|exact Hp|by right; left|set_solver|]. intros s2 H2 W2. split; [done|]. intros s3 H3 ->. apply HQ; [done|].
    by eapply keeps_wakes; [exact K1| |exact W2].
  - mstep. split; [done|]. intros s3 H3 ->. apply HQ; [done|]. eapply (keeps_wakes t s s1 s1); [exact K1|done|].
    unfold wakes. rewrite Hp. cbn. unfold woken. by rewrite bool_decide_eq_false_2.
Qed.

Lemma inv_frame L held q s s' : inv L held q s ->
  sched_lock s' = sched_lock s -> threads s' = threads s -> queued_threads s' = queued_threads s -> current s' = current s ->
  idle_task s' = idle_task s -> nodes s' = nodes s -> init_node s' = init_node s -> fd s' = fd s -> inv L held q s'.
Proof.
  intros [I1 I2 I3 I4 I5 I6 I7 I8] E1 E2 E3 E4 E5 E6 E7 E8. split; rewrite ?E1, ?E2, ?E3; try done.
  - by eapply running_same.
  - by eapply tasks_same.
  - unfold contexts_wf. by rewrite E2, E6, E8.
  - unfold may_exit. by rewrite E6.
Qed.

(** A thread that was being built becomes runnable and is queued. *)
Lemma thread_schedule_spec s t p (Q : unit -> sched -> Prop) :
  sched_inv s -> threads s !! t = Some p -> t_state p = THREAD_BUILDING -> t_active p = false -> t ∉ thread_list s ->
  (forall s', sched_inv s' -> current s' = current s -> t_state <$> threads s' !! t = Some THREAD_AWAKE ->
     (forall x, x <> t -> t_state <$> threads s' !! x = t_state <$> threads s !! x) -> Q tt s') ->
  runs (thread_schedule t) s Q.
Proof.
  intros HI Hp Hb Ha Ht HQ. unfold thread_schedule. apply with_sched_inv; [done|]. intros s1 H1 K1 E1 El.
  rewrite <- E1 in Hp. rewrite <- El in Ht. mstep.
  eapply (runs_read _ _ (t :: thread_list s1)); [unfold seq_add; by rewrite bool_decide_eq_false_2|]. msteps.
  eapply upd_thread_spec; [exact Hp|]. cbn.
  set (s2 := set_threads _ _). assert (Hp2 : threads s2 !! t = Some (set_t_state THREAD_SLEEPING p)) by apply lookup_insert_eq.
  assert (Hnq : t ∉ queued_threads s1) by (rewrite (i_queue _ _ _ _ H1 t); intros (p0 & Hp0 & A & _); congruence).
  assert (H2 : inv true [] [] s2).
  { eapply (inv_upd true true [] [] [] s1 _ t p (set_t_state THREAD_SLEEPING p)); try done.
    - cbn. by apply (i_tlock _ _ _ _ H1).
    - cbn. congruence.
    - apply (i_lock _ _ _ _ H1).
    - apply (i_nodup _ _ _ _ H1).
    - split; [done|by intros [? _]]. }
  eapply do_wake_inv; [exact H2|exact Hp2|by right; left|set_solver|]. intros s3 H3 (W1 & W2 & W3 & W4 & W5). split; [done|].
  intros s4 H4 ->. apply HQ; [done| | |].
  - cbn. rewrite W1. apply K1.
  - cbn. by rewrite W5, Hp2.
  - intros x Hx. cbn. rewrite W4 by done. cbn. by rewrite lookup_insert_ne, E1.
Qed.

Lemma inv_unlocked L q s t p : inv L [] q s -> threads s !! t = Some p -> t_lock p = false.
Proof. intros HI Hp. by rewrite (i_tlock _ _ _ _ HI t p Hp). Qed.

(** The current thread goes to sleep, or is marked as exited: it stays active until the
    next switch. *)
Lemma current_state_inv s s' c p st :
  sched_inv s -> c ∈ cpus -> threads s !! current s c = Some p -> t_state p <> THREAD_IDLE ->
  st = THREAD_SLEEPING \/ (st = THREAD_EXITED /\ may_exit s (t_node p)) ->
  s' = set_threads (<[current s c := set_t_lock false (set_t_state st (set_t_lock true p))]> (threads s)) s ->
  sched_inv s' /\ t_state <$> threads s' !! current s c = Some st /\
  forall x, x <> current s c -> t_state <$> threads s' !! x = t_state <$> threads s !! x.
Proof.
  intros HI Hc Hp Hni Hst ->. set (me := current s c) in *.
  assert (Ha : t_active p = true) by (destruct (r_cur _ (i_running _ _ _ _ HI) c Hc) as (p' & Hp' & A & _); unfold me in Hp; congruence).
  split; [|cbn; split; [by rewrite lookup_insert_eq|intros x Hx; by rewrite lookup_insert_ne]].
  eapply (inv_upd false false [] [] [] s _ me p (set_t_lock false (set_t_state st (set_t_lock true p)))); try done.
  - intros A. split; [by destruct Hst as [->|[-> _]]|]. cbn. intros ->. by destruct Hst as [|[_ ?]].
  - apply (i_lock _ _ _ _ HI).
  - apply (i_nodup _ _ _ _ HI).
  - rewrite Ha. cbn. rewrite (i_queue _ _ _ _ HI me). split; [|intros [? [?|?]]; [done|set_solver]].
    intros (p0 & Hp0 & _ & [?|?]); [congruence|set_solver].
Qed.

Lemma thread_sleep_prepare_spec s c p (Q : unit -> sched -> Prop) :
  sched_inv s -> c ∈ cpus -> threads s !! current s c = Some p -> t_state p = THREAD_AWAKE ->
  (forall s', sched_inv s' -> current s' = current s -> t_state <$> threads s' !! current s c = Some THREAD_SLEEPING ->
     (forall x, x <> current s c -> t_state <$> threads s' !! x = t_state <$> threads s !! x) -> Q tt s') ->
  runs (thread_sleep_prepare c) s Q.
Proof.
  intros HI Hc Hp Hs HQ. unfold thread_sleep_prepare. do 2 mstep. eapply with_thread_spec; [exact Hp|by eapply inv_unlocked|].
  destruct (r_cur _ (i_running _ _ _ _ HI) c Hc) as (p' & Hp' & Ha & _). assert (p' = p) as -> by congruence.
  mstep. eapply runs_read; [cbn; apply lookup_insert_eq|]. cbn [t_active t_state set_t_lock].
  mstep. mstep; [by rewrite Ha|]. mstep. mstep; [by rewrite Hs|].
  eapply upd_thread_spec; [cbn; apply lookup_insert_eq|]. cbn. eexists. split; [apply lookup_insert_eq|]. rewrite !insert_insert_eq.
  match goal with |- Q tt ?s' => destruct (current_state_inv s s' c p THREAD_SLEEPING) as (H1 & H2 & H3) end;
    [done|done|exact Hp|congruence|by left|done|by apply HQ].
Qed.

(** *** Taking an exited thread apart *)

(** A change of a task that keeps its place in the tree. *)
Definition same_place (p p' : task_node) : Prop :=
  n_lock p' = n_lock p /\ n_pid p' = n_pid p /\ n_parent p' = n_parent p /\ n_children p' = n_children p.

Lemma inv_node L held q s s' n p p' :
  inv L held q s -> nodes s !! n = Some p -> same_place p p' -> s' = set_nodes (<[n := p']> (nodes s)) s ->
  inv L held q s' /\ keeps s s'.
Proof.
  intros [I1 I2 I3 I4 I5 I6 I7 I8] Hp (P1 & P2 & P3 & P4) ->.
  assert (Hlk : forall x, is_Some (nodes s !! x) -> is_Some (<[n := p']> (nodes s) !! x)).
  { intros x Hx. destruct (decide (x = n)) as [->|]; [rewrite lookup_insert_eq; by eexists|by rewrite lookup_insert_ne]. }
  split; [|done]. split; try done.
  - by eapply running_same.
  - destruct I6 as (T1 & T2 & T3). split; [|by split; [apply Hlk|]]. cbn. intros x px Hx.
    assert (exists p0, nodes s !! x = Some p0 /\ same_place p0 px) as (p0 & Hp0 & S1 & S2 & S3 & S4).
    { destruct (decide (x = n)) as [->|]; [rewrite lookup_insert_eq in Hx; simplify_eq; by exists p|rewrite lookup_insert_ne in Hx by done; by exists px]. }
    destruct (T1 x p0 Hp0) as (W1 & W2 & W3). unfold task_wf. rewrite S1, S3, S4. split; [done|]. split; [by intros ?; apply Hlk, W2|].
    intros ch Hch. split; [apply Hlk; by apply W3|]. by apply W3.
  - destruct I7 as [C1 C2]. split; [|exact C2]. intros t pt Ht. destruct (C1 t pt Ht) as ([N1 N2] & C3). cbn.
    split; [|exact C3]. split; [done|]. by apply Hlk.
  - intros t pt Ht A1 A2. destruct (I8 t pt Ht A1 A2) as (q0 & Q1 & Q2 & Q3). unfold may_exit. cbn.
    destruct (decide (t_node pt = n)) as [E|]; [|rewrite lookup_insert_ne by done; by exists q0].
    rewrite E in *. rewrite lookup_insert_eq. exists p'. assert (q0 = p) as -> by congruence. split; [done|]. by rewrite P2, P3.
Qed.

(** A thread gives up a context. *)
Lemma inv_ctx L held q s s' f' t p p' :
  inv L held q s -> threads s !! t = Some p -> s' = set_fd f' (set_threads (<[t := p']> (threads s)) s) ->
  t_state p' = t_state p -> t_active p' = t_active p -> t_node p' = t_node p -> t_lock p' = t_lock p ->
  t_fs p' = 0 \/ t_fs p' = t_fs p -> t_ufd p' = 0 \/ t_ufd p' = t_ufd p ->
  (forall x, x <> 0 -> x <> t_fs p \/ t_fs p' = t_fs p -> fscs f' !! x = fscs (fd s) !! x) ->
  (forall x, x <> 0 -> x <> t_ufd p \/ t_ufd p' = t_ufd p -> ufdcs f' !! x = ufdcs (fd s) !! x) ->
  inv L held q s' /\ keeps s s'.
Proof.
  intros HI Hp -> E1 E2 E3 E4 F U Hf Hu. split; [|by eapply keeps_upd]. destruct HI as [I1 I2 I3 I4 I5 I6 I7 I8].
  assert (Hlk : forall x q0, <[t := p']> (threads s) !! x = Some q0 -> x = t /\ q0 = p' \/ x <> t /\ threads s !! x = Some q0).
  { intros x q0 Hx. destruct (decide (x = t)) as [->|]; [left|right; by rewrite lookup_insert_ne in Hx].
    rewrite lookup_insert_eq in Hx. by simplify_eq. }
  split; try done.
  - cbn. intros x q0 Hx. destruct (Hlk x q0 Hx) as [[-> ->]|[_ Hq]]; [rewrite E4|]; by apply I2.
  - cbn. intros x. rewrite I4. destruct (decide (x = t)) as [->|]; [|by rewrite lookup_insert_ne].
    rewrite lookup_insert_eq, Hp. split; intros (? & [= <-] & A); eexists; (split; [reflexivity|]); by rewrite ?E1, ?E2 in *.
  - eapply (running_upd s _ t p p'); try done; [by rewrite E1|]. intros A. rewrite E1. intros B.
    destruct (r_active _ I5 t p Hp A) as (c & Hc & <-). destruct (r_cur _ I5 c Hc) as (p0 & Hp0 & _ & Hb). congruence.
  - destruct I7 as [C1 C2]. destruct (C1 t p Hp) as (CN & CF & CU). split; cbn.
    + intros x q0 Hx. destruct (Hlk x q0 Hx) as [[-> ->]|[Hne Hq]].
      * rewrite E3. split; [done|]. split.
        -- intros Hz. destruct F as [?|F]; [done|]. rewrite Hf, F by auto. apply CF. congruence.
        -- intros Hz. destruct U as [?|U]; [done|]. rewrite Hu, U by auto. apply CU. congruence.
      * destruct (C1 x q0 Hq) as (XN & XF & XU). destruct (C2 x t q0 p Hq Hp Hne) as [D1 D2]. split; [done|].
        split; intros Hz; [rewrite Hf by auto; by apply XF|rewrite Hu by auto; by apply XU].
    + intros t1 t2 p1 p2 H1 H2 Hne. destruct (Hlk t1 p1 H1) as [[-> ->]|[N1 Q1]], (Hlk t2 p2 H2) as [[-> ->]|[N2 Q2]]; try done.
      * destruct (C2 t t2 p p2 Hp Q2 Hne) as [D1 D2]. split; intros Hz; [destruct F as [?|F]|destruct U as [?|U]]; try done;
        [rewrite F in *; by apply D1|rewrite U in *; by apply D2].
      * destruct (C2 t1 t p1 p Q1 Hp Hne) as [D1 D2]. split; intros Hz; [destruct F as [F|F]|destruct U as [U|U]]; rewrite ?F, ?U; auto.
      * by apply (C2 t1 t2).
  - cbn. intros x q0 Hx. unfold may_exit. cbn. destruct (Hlk x q0 Hx) as [[-> ->]|[_ Hq]]; [rewrite E1, E2, E3; by apply (I8 t)|by apply (I8 x)].
Qed.

(** What the steps of taking a thread apart promise: the invariant, and the running
    threads left alone. *)
Abbreviation cleans L q s m := (runs m s (fun _ s' => inv L [] q s' /\ keeps s s')).

Lemma set_nodes_twice a b s : set_nodes a (set_nodes b s) = set_nodes a s.
Proof. reflexivity. Qed.

(** A change of a task under its lock. *)
Lemma with_node_upd L held q s n p f (Q : unit -> sched -> Prop) :
  inv L held q s -> nodes s !! n = Some p -> (forall x, same_place x (f x)) ->
  (forall s', inv L held q s' -> keeps s s' ->
     s' = set_nodes (<[n := set_n_lock false (f (set_n_lock true p))]> (nodes s)) s -> Q tt s') ->
  runs (with_node n (upd_node n f)) s Q.
Proof.
  intros HI Hp Hf HQ. destruct (i_tasks _ _ _ _ HI) as (T1 & _). destruct (T1 n p Hp) as (Hl & _).
  eapply with_node_spec; [exact Hp|exact Hl|]. eapply upd_node_spec; [cbn; apply lookup_insert_eq|]. cbn.
  eexists. split; [apply lookup_insert_eq|]. rewrite insert_insert_eq.
  destruct (inv_node L held q s (set_nodes (<[n := set_n_lock false (f (set_n_lock true p))]> (nodes s)) s) n p
    (set_n_lock false (f (set_n_lock true p)))) as [H1 H2]; [done|done| |done|].
  { destruct (Hf (set_n_lock true p)) as (P1 & P2 & P3 & P4). unfold same_place. cbn. by rewrite P2, P3, P4. }
  match goal with |- Q tt ?s' => replace s' with (set_nodes (<[n := set_n_lock false (f (set_n_lock true p))]> (nodes s)) s) end.
  - by apply HQ.
  - by rewrite !set_nodes_twice, insert_insert_eq.
Qed.

Lemma put_fs_context_inv L q s t p : inv L [] q s -> threads s !! t = Some p -> cleans L q s (put_fs_context t).
Proof.
  intros HI Hp. unfold put_fs_context. mstep. eapply with_thread_spec; [exact Hp|by eapply inv_unlocked|].
  mstep. eapply runs_read; [cbn; apply lookup_insert_eq|]. mstep. eapply upd_thread_spec; [cbn; apply lookup_insert_eq|].
  mstep. cbn. eexists. split; [apply lookup_insert_eq|]. rewrite !insert_insert_eq.
  set (p' := set_t_lock false (set_t_fs 0 (set_t_lock true p))).
  assert (Hl : t_lock p = false) by by eapply inv_unlocked.
  set (s1 := set_threads _ _). assert (E1 : s1 = set_fd (fd s) (set_threads (<[t := p']> (threads s)) s)) by done.
  destruct (Z.eqb_spec (t_fs p) 0) as [Ez|Hz]; cbn [negb].
  - mstep. eapply (inv_ctx L [] q s s1 (fd s) t p p'); try done; auto.
  - destruct (i_contexts _ _ _ _ HI) as [C1 _]. destruct (C1 t p Hp) as (_ & CF & _). destruct (CF Hz) as (r & w & Hf).
    unfold in_fd. apply runs_lift. eapply fs_put_leaks; [exact Hf|].
    match goal with |- inv _ _ _ (set_fd ?f' _) /\ _ => eapply (inv_ctx L [] q s _ f' t p p') end; try done; auto.
    + intros x Hx [Hne|Hp0]; [cbn; by rewrite lookup_insert_ne by congruence|]. cbn in Hp0. congruence.
Qed.

Lemma put_ufds_inv L q s t p : inv L [] q s -> threads s !! t = Some p -> cleans L q s (put_ufds t).
Proof.
  intros HI Hp. unfold put_ufds. mstep. eapply with_thread_spec; [exact Hp|by eapply inv_unlocked|].
  mstep. eapply runs_read; [cbn; apply lookup_insert_eq|]. mstep. eapply upd_thread_spec; [cbn; apply lookup_insert_eq|].
  mstep. cbn. eexists. split; [apply lookup_insert_eq|]. rewrite !insert_insert_eq.
  set (p' := set_t_lock false (set_t_ufd 0 (set_t_lock true p))).
  assert (Hl : t_lock p = false) by by eapply inv_unlocked.
  set (s1 := set_threads _ _). assert (E1 : s1 = set_fd (fd s) (set_threads (<[t := p']> (threads s)) s)) by done.
  destruct (Z.eqb_spec (t_ufd p) 0) as [Ez|Hz]; cbn [negb].
  - mstep. eapply (inv_ctx L [] q s s1 (fd s) t p p'); try done; auto.
  - destruct (i_contexts _ _ _ _ HI) as [C1 _]. destruct (C1 t p Hp) as (_ & _ & CU). destruct (CU Hz) as (tb & Hf).
    unfold in_fd. apply runs_lift. eapply ufds_put_leaks; [exact Hf|].
    match goal with |- inv _ _ _ (set_fd ?f' _) /\ _ => eapply (inv_ctx L [] q s _ f' t p p') end; try done; auto.
    + intros x Hx [Hne|Hp0]; [cbn; by rewrite lookup_insert_ne by congruence|]. cbn in Hp0. congruence.
Qed.

Lemma obtain_task_node_spec L q s t p (Q : Z -> sched -> Prop) :
  inv L [] q s -> threads s !! t = Some p -> (forall s', inv L [] q s' -> keeps s s' -> nodes s' = nodes s -> Q (t_node p) s') ->
  runs (obtain_task_node t) s Q.
Proof.
  intros HI Hp HQ. unfold obtain_task_node. eapply with_thread_spec; [exact Hp|by eapply inv_unlocked|].
  mstep. eapply runs_read; [cbn; apply lookup_insert_eq|]. mstep. cbn. eexists. split; [apply lookup_insert_eq|].
  rewrite insert_insert_eq. destruct (inv_same L [] [] q s t p (set_t_lock false (set_t_lock true p))) as [H1 H2]; try done.
  by apply HQ.
Qed.

Lemma put_task_node_inv L q s t p : inv L [] q s -> threads s !! t = Some p -> cleans L q s (put_task_node t).
Proof.
  intros HI Hp. unfold put_task_node. mstep. eapply obtain_task_node_spec; [done|exact Hp|]. intros s1 H1 K1 E1.
  destruct (i_contexts _ _ _ _ HI) as [C1 _]. destruct (C1 t p Hp) as ([Hz [n Hn]] & _).
  destruct (Z.eqb_spec (t_node p) 0); [done|]. cbn [negb].
  assert (Hn1 : nodes s1 !! t_node p = Some n) by by rewrite E1.
  destruct (i_tasks _ _ _ _ H1) as (T1 & _). destruct (T1 _ _ Hn1) as (Hl & _).
  eapply with_node_spec; [exact Hn1|exact Hl|]. mstep. eapply runs_read; [cbn; apply lookup_insert_eq|].
  eapply upd_node_spec; [cbn; apply lookup_insert_eq|]. cbn. eexists. split; [apply lookup_insert_eq|].
  rewrite !insert_insert_eq. destruct (inv_node L [] q s1 (set_nodes (<[t_node p := set_n_lock false (set_n_refs (u32 (n_refs n - 1)) (set_n_lock true n))]> (nodes s1)) s1) (t_node p) n
    (set_n_lock false (set_n_refs (u32 (n_refs n - 1)) (set_n_lock true n)))) as [H2 K2]; [done|done|by repeat split|done|].
  split; [exact H2|]. by eapply keeps_trans.
Qed.

(** The tasks' places in the tree and their exit states are the same. *)
Definition place (p : task_node) := (n_exit_state p, n_pid p, n_parent p, n_children p).
Definition tree (s s' : sched) : Prop := init_node s' = init_node s /\ forall x, place <$> nodes s' !! x = place <$> nodes s !! x.

Lemma tree_trans s1 s2 s3 : tree s1 s2 -> tree s2 s3 -> tree s1 s3.
Proof. intros [A1 A2] [B1 B2]. split; [congruence|]. intros x. by rewrite B2. Qed.
Lemma tree_upd s n p p' : nodes s !! n = Some p -> place p' = place p -> tree s (set_nodes (<[n := p']> (nodes s)) s).
Proof.
  intros Hp E. split; [done|]. intros x. cbn. destruct (decide (x = n)) as [->|]; [|by rewrite lookup_insert_ne].
  rewrite lookup_insert_eq, Hp. cbn. by rewrite E.
Qed.
Lemma tree_node s s' n p : tree s s' -> nodes s !! n = Some p -> exists p', nodes s' !! n = Some p' /\ place p' = place p.
Proof.
  intros [_ T] Hp. specialize (T n). rewrite Hp in T. destruct (nodes s' !! n) as [p'|]; [|done]. exists p'. split; [done|].
  cbn in T. congruence.
Qed.

Abbreviation rebuilds L q s m := (runs m s (fun _ s' => inv L [] q s' /\ keeps s s' /\ tree s s')).

(** The outcome of two updates of distinct tasks. *)
Lemma inv_node_eq L held q s m p p' :
  inv L held q s -> nodes s !! m = Some p -> same_place p p' -> n_exit_state p' = n_exit_state p ->
  forall s', s' = set_nodes (<[m := p']> (nodes s)) s -> inv L held q s' /\ keeps s s' /\ tree s s'.
Proof.
  intros HI Hp Hs He s' ->. destruct (inv_node L held q s (set_nodes (<[m := p']> (nodes s)) s) m p p') as [H1 H2]; [done..|].
  split; [exact H1|]. split; [exact H2|]. eapply tree_upd; [exact Hp|]. destruct Hs as (_ & A & B & C). unfold place. congruence.
Qed.

Lemma set_n_lock_same p : n_lock p = false -> p = set_n_lock false (set_n_lock true p).
Proof. intros E. rewrite <- E at 1. by destruct p. Qed.

Lemma reparent_inv L q s n p child :
  inv L [] q s -> nodes s !! n = Some p -> n_exit_state p = TASK_EXITED -> is_Some (nodes s !! child) -> child <> init_node s ->
  rebuilds L q s (reparent n child).
Proof.
  intros HI Hn He [pc Hc] Hci. destruct (i_tasks _ _ _ _ HI) as (T1 & [pi Hi] & _). destruct (T1 _ _ Hc) as (Lc & _). destruct (T1 _ _ Hi) as (Li & _).
  unfold reparent. eapply with_node_spec; [exact Hc|exact Lc|].
  assert (exists p1, <[child := set_n_lock true pc]> (nodes s) !! n = Some p1 /\ n_exit_state p1 = TASK_EXITED) as (p1 & Hp1 & He1).
  { destruct (decide (child = n)) as [->|]; [rewrite lookup_insert_eq; eexists; split; [done|]; cbn; congruence|rewrite lookup_insert_ne by done; by exists p]. }
  mstep. eapply runs_read; [exact Hp1|]. rewrite He1. cbn [Z.eqb TASK_EXITED Pos.eqb]. do 2 mstep.
  eapply with_node_spec; [cbn; rewrite lookup_insert_ne by done; exact Hi|exact Li|]. mstep.
  eapply runs_read; [cbn; apply lookup_insert_eq|]. eapply upd_node_spec; [cbn; apply lookup_insert_eq|]. cbn.
  eexists. split; [apply lookup_insert_eq|]. cbn. eexists. split.
  { rewrite !lookup_insert_ne by done. apply lookup_insert_eq. }
  set (pi' := set_n_lock false (set_n_zombies (child :: n_zombies pi) (set_n_lock true pi))).
  eapply (inv_node_eq L [] q s (init_node s) pi pi'); [done|done|by repeat split|done|].
  rewrite !set_nodes_twice, !insert_insert_eq. f_equal.
  rewrite (insert_insert_ne _ child (init_node s)) by done. rewrite insert_insert_eq.
  f_equal. apply insert_id. rewrite Hc. f_equal. by apply set_n_lock_same.
Qed.

Lemma reparent_all_inv L q n l : forall s p,
  inv L [] q s -> nodes s !! n = Some p -> n_exit_state p = TASK_EXITED ->
  (forall ch, ch ∈ l -> is_Some (nodes s !! ch) /\ ch <> init_node s) -> rebuilds L q s (reparent_all n l).
Proof.
  induction l as [|ch l IH]; intros s p HI Hn He Hl; cbn [reparent_all].
  - mstep. done.
  - mstep. destruct (Hl ch) as [Hch Hci]; [set_solver|]. eapply runs_mono; [by eapply reparent_inv|]. intros [] s1 (H1 & K1 & T1).
    destruct (tree_node _ _ _ _ T1 Hn) as (p1 & Hp1 & Ep1). injection Ep1 as Ex1 _ _ _.
    eapply runs_mono; [eapply (IH s1 p1); [done|done|congruence|]|].
    + intros x Hx. destruct (Hl x) as [[px Hpx] Hxi]; [set_solver|]. destruct (tree_node _ _ _ _ T1 Hpx) as (px' & Hpx' & _).
      split; [by eexists|]. destruct T1 as [-> _]. done.
    + intros [] s2 (H2 & K2 & T2). split; [done|]. split; [by eapply keeps_trans|by eapply tree_trans].
Qed.

(** Handing a dead task to its parent. *)
Lemma to_parent_inv L q s n par pp : inv L [] q s -> nodes s !! par = Some pp ->
  rebuilds L q s (
    ok ← task_node_ensure_not_exiting par;
    if (ok : bool) then
      q ← node_at par;
      upd_node par (set_n_zombies (n :: n_zombies q));;
      unlock_node par
    else mret tt).
Proof.
  intros HI Hpp. destruct (i_tasks _ _ _ _ HI) as (T1 & _). destruct (T1 _ _ Hpp) as (Lp & _).
  unfold task_node_ensure_not_exiting. do 2 mstep. eapply runs_read; [exact Hpp|]. rewrite Lp. mstep.
  eapply lock_node_spec; [exact Hpp|exact Lp|]. mstep. eapply runs_read; [cbn; apply lookup_insert_eq|]. cbn [n_exit_state set_n_lock].
  destruct (n_exit_state pp =? TASK_RUNNING); cbn [negb].
  - do 2 mstep. eapply runs_read; [cbn; apply lookup_insert_eq|]. mstep. eapply upd_node_spec; [cbn; apply lookup_insert_eq|]. cbn.
    eapply upd_node_spec; [cbn; apply lookup_insert_eq|]. cbn. rewrite !insert_insert_eq.
    eapply (inv_node_eq L [] q s par pp (set_n_lock false (set_n_zombies (n :: n_zombies pp) (set_n_lock true pp)))); [done|done|by repeat split|done|].
    by rewrite !set_nodes_twice.
  - mstep. eapply upd_node_spec; [cbn; apply lookup_insert_eq|]. cbn. rewrite insert_insert_eq.
    eapply (inv_node_eq L [] q s par pp (set_n_lock false (set_n_lock true pp))); [done|done|by repeat split|done|]. by rewrite !set_nodes_twice.
Qed.

Lemma task_node_zombify_inv L q s n : inv L [] q s -> may_exit s n -> cleans L q s (task_node_zombify n).
Proof.
  intros HI (p & Hp & Hpid & Hpar). unfold task_node_zombify. mstep. eapply upd_node_spec; [exact Hp|].
  set (p1 := set_n_exit_state TASK_EXITED p). set (s1 := set_nodes (<[n := p1]> (nodes s)) s).
  destruct (inv_node L [] q s s1 n p p1) as [H1 K1]; [done|done|by repeat split|done|]. assert (Hp1 : nodes s1 !! n = Some p1) by apply lookup_insert_eq.
  mstep. eapply runs_read; [exact Hp1|]. do 2 mstep; [by apply Z.eqb_neq|]. do 2 mstep; [by apply Z.eqb_neq|].
  destruct (i_tasks _ _ _ _ H1) as (T1 & _). destruct (T1 _ _ Hp1) as (_ & Hpar1 & Hch). destruct (Hpar1 Hpar) as [pp Hpp].
  pose proof (to_parent_inv L q s1 n (n_parent p1) pp H1 Hpp) as Hto. apply runs_bind_inv in Hto.
  mstep. eapply runs_mono; [exact Hto|]. intros ok s2 Hrest. cbn beta in Hrest |- *. mstep. eapply runs_mono; [exact Hrest|].
  intros [] s3 (H3 & K3 & T3). destruct (tree_node _ _ _ _ T3 Hp1) as (p3 & Hp3 & Ep3). injection Ep3 as Ex3 _ _ _.
  eapply runs_mono; [eapply (reparent_all_inv L q n _ s3 p3); [done|done|congruence|]|].
  - intros ch Hc. destruct (Hch ch Hc) as [[pc Hpc] Hci]. destruct (tree_node _ _ _ _ T3 Hpc) as (pc' & Hpc' & _).
    split; [by eexists|]. destruct T3 as [-> _]. done.
  - intros [] s4 (H4 & K4 & _). split; [done|]. eapply keeps_trans; [exact K1|]. by eapply keeps_trans.
Qed.

(** *** Switching *)

(** The queue once the old thread has been put back, if it can still run. *)
Definition requeued (s : sched) (old : Z) : list Z :=
  if bool_decide (t_state <$> threads s !! old = Some THREAD_AWAKE) then old :: queued_threads s else queued_threads s.

Lemma inv_requeue L held s t p : inv L held [] s -> threads s !! t = Some p -> t_active p = true ->
  inv L held [t] (set_queued_threads (requeued s t) s).
Proof.
  intros HI Hp Ha. unfold requeued. rewrite Hp. cbn.
  assert (Hnq : t ∉ queued_threads s).
  { rewrite (i_queue _ _ _ _ HI t). intros (p0 & Hp0 & _ & [?|?]); [congruence|set_solver]. }
  destruct HI as [I1 I2 I3 I4 I5 I6 I7 I8]. split; try done.
  - cbn. case_bool_decide; [|done]. by apply NoDup_cons.
  - cbn. intros x. case_bool_decide as Hs.
    + rewrite elem_of_cons, (I4 x). split.
      * intros [->|(p0 & A & B & C)]; [exists p; split; [done|]; split; [congruence|]; right; set_solver|exists p0; set_solver].
      * intros (p0 & A & B & [C|C]); [right; exists p0; auto|left; set_solver].
    + rewrite (I4 x). split; intros (p0 & A & B & C); exists p0; (split; [done|]; split; [done|]).
      * destruct C; [by left|set_solver].
      * destruct C as [C|C]; [by left|]. assert (x = t) as -> by set_solver. congruence.
  - by eapply running_same.
Qed.

(** The state a thread leaves behind when it is taken off its CPU. *)
Definition deactivated (s s' : sched) (old : Z) : Prop :=
  inv true [old] [old] s' /\ current s' = current s /\ idle_task s' = idle_task s /\ tasking_up s' = tasking_up s /\
  queued_threads s' = requeued s old /\ (forall t, t_state <$> threads s' !! t = t_state <$> threads s !! t).

Lemma keeps_deactivated s s' old p : keeps s s' -> inv true [old] [] s' -> threads s !! old = Some p -> t_active p = true ->
  t_state p <> THREAD_AWAKE -> deactivated s s' old.
Proof.
  intros K HI Hp Ha Hna. destruct (keeps_thread _ _ _ _ K Hp) as (p' & Hp' & E1 & E2 & _).
  destruct K as (K1 & K2 & K3 & K4 & K5). assert (Er : requeued s' old = queued_threads s').
  { unfold requeued. rewrite Hp'. cbn. rewrite bool_decide_eq_false_2; [done|congruence]. }
  assert (Er0 : requeued s old = queued_threads s).
  { unfold requeued. rewrite Hp. cbn. rewrite bool_decide_eq_false_2; [done|congruence]. }
  split.
  { pose proof (inv_requeue true [old] s' old p' HI Hp') as H. rewrite Er in H. eapply inv_frame; [apply H; congruence|done..]. }
  rewrite Er0. do 4 (split; [done|]). intros t. specialize (K5 t). destruct (threads s' !! t), (threads s !! t); cbn in *; congruence.
Qed.

Lemma deactivate_exited s t p : inv true [t] [] s -> threads s !! t = Some p -> t_active p = true -> t_state p = THREAD_EXITED ->
  runs (deactivate_thread t) s (fun _ s' => inv true [t] [] s' /\ keeps s s').
Proof.
  intros HI Hp Ha He. unfold deactivate_thread.
  assert (Hz : (t =? 0) = false) by (apply Z.eqb_neq; intros ->; pose proof (r_null _ (i_running _ _ _ _ HI)); congruence). rewrite Hz.
  mstep. eapply runs_read; [exact Hp|]. rewrite He. do 2 mstep. mstep.
  destruct (i_exit _ _ _ _ HI t p Hp Ha He) as (n & Hn & Hpid & Hpar). eapply runs_read; [exact Hn|]. mstep. eapply upd_node_spec; [exact Hn|].
  set (n1 := set_n_threads (seq_rm t (n_threads n)) n). cbn [nodes set_thread_list].
  destruct (inv_node true [t] [] s (set_nodes (<[t_node p := n1]> (nodes s)) s) (t_node p) n n1) as [H1 K1]; [done|done|by repeat split|done|].
  set (s1 := set_nodes (<[t_node p := n1]> (nodes s)) (set_thread_list (seq_rm t (thread_list s)) s)).
  assert (J1 : inv true [t] [] s1) by by eapply inv_frame.
  assert (M1 : keeps s s1) by done. clear H1 K1.
  assert (X1 : may_exit s1 (t_node p)) by (exists n1; split; [apply lookup_insert_eq|done]).
  assert (Hp1 : threads s1 !! t = Some p) by done. clearbody s1.
  mstep. eapply unlock_thread_inv; [exact J1|exact Hp1|apply not_elem_of_nil|set_solver|]. intros s2 J2 M2.
  destruct (keeps_thread _ _ _ _ M2 Hp1) as (p2 & Hp2 & _ & _ & En2). mstep. eapply lock_thread_inv; [exact J2|exact Hp2|apply not_elem_of_nil|].
  intros s3 J3 M3. destruct (keeps_thread _ _ _ _ M3 Hp2) as (p3 & Hp3 & E1 & E2 & En3). mstep.
  eapply unlock_thread_inv; [exact J3|exact Hp3|apply not_elem_of_nil|set_solver|]. intros s4 J4 M4.
  destruct (keeps_thread _ _ _ _ M4 Hp3) as (p4 & Hp4 & F1 & F2 & En4). mstep. eapply runs_mono; [by eapply put_fs_context_inv|]. intros [] s5 [J5 M5].
  destruct (keeps_thread _ _ _ _ M5 Hp4) as (p5 & Hp5 & G1 & G2 & En5). mstep. eapply runs_mono; [by eapply put_ufds_inv|]. intros [] s6 [J6 M6].
  destruct (keeps_thread _ _ _ _ M6 Hp5) as (p6 & Hp6 & _ & _ & En6). mstep. eapply runs_mono; [by eapply put_task_node_inv|]. intros [] s7 [J7 M7].
  assert (M : keeps s s7).
  { repeat (eapply keeps_trans; [eassumption|]). apply keeps_refl. }
  destruct (keeps_thread _ _ _ _ M Hp) as (p7 & Hp7 & S7 & A7 & N7).
  assert (X7 : may_exit s7 (t_node p)) by (rewrite <- N7; apply (i_exit _ _ _ _ J7 t); congruence).
  destruct X7 as (n7 & Hn7 & X7). mstep. eapply runs_read; [exact Hn7|]. mstep.
  assert (Hlast : forall s8, inv true [] [] s8 -> keeps s7 s8 -> runs (lock_thread t) s8 (fun _ s' => inv true [t] [] s' /\ keeps s s')).
  { intros s8 J8 M8. destruct (keeps_thread _ _ _ _ M8 Hp7) as (p8 & Hp8 & _).
    eapply lock_thread_inv; [exact J8|exact Hp8|apply not_elem_of_nil|]. intros s9 J9 M9. split; [done|].
    eapply keeps_trans; [exact M|]. by eapply keeps_trans. }
  case_bool_decide.
  - eapply runs_mono; [eapply task_node_zombify_inv; [exact J7|by exists n7]|]. intros [] s8 [J8 M8]. by apply Hlast.
  - mstep. apply Hlast; done.
Qed.

Lemma deactivate_inv s old p : inv true [old] [] s -> threads s !! old = Some p -> t_active p = true ->
  runs (deactivate_thread old) s (fun _ s' => deactivated s s' old).
Proof.
  intros HI Hp Ha. destruct (decide (t_state p = THREAD_EXITED)) as [He|Hne].
  { eapply runs_mono; [by eapply deactivate_exited|]. intros [] s' [J M]. eapply keeps_deactivated; [done|done|done|done|congruence]. }
  unfold deactivate_thread.
  assert (Hz : (old =? 0) = false) by (apply Z.eqb_neq; intros ->; pose proof (r_null _ (i_running _ _ _ _ HI)); congruence). rewrite Hz.
  mstep. eapply runs_read; [exact Hp|]. pose proof (active_not_building _ _ _ _ _ _ HI Hp Ha) as Hnb.
  destruct (t_state p) eqn:Es; try done.
  - do 2 mstep; [by rewrite Ha|]. unfold queue_add. do 2 mstep.
    assert (Er : requeued s old = old :: queued_threads s) by (unfold requeued; rewrite Hp; cbn; by rewrite Es, bool_decide_eq_true_2).
    eapply (runs_read _ _ (old :: queued_threads s)).
    { unfold seq_add. rewrite bool_decide_eq_false_2; [done|]. rewrite (i_queue _ _ _ _ HI old). intros (p0 & Hp0 & _ & [?|?]); [congruence|set_solver]. }
    do 2 mstep. rewrite <- Er. split; [|by rewrite Er]. eapply inv_frame; [by eapply inv_requeue|done..].
  - mstep. eapply keeps_deactivated; [done| |exact Hp|done|congruence]. by eapply inv_frame.
  - mstep. eapply keeps_deactivated; [done|done|exact Hp|done|congruence].
Qed.

(** Who runs next on CPU [c]. *)
Definition next_thread (s : sched) (c old : Z) : Z :=
  match requeued s old with
  | t :: _ => if tasking_up s then t else idle_task s c
  | [] => idle_task s c
  end.

(** The outcome of [lock_next_current]: [next] is locked and off the queue. *)
Record chosen (s s' : sched) (c old next : Z) : Prop := Chosen {
  ch_lock : sched_lock s' = true;
  ch_next : exists p, threads s !! next = Some p /\
    threads s' = <[next := set_t_lock true p]> (threads s) /\
    (t_state p = THREAD_AWAKE /\ (t_active p = false \/ next = old) \/ t_state p = THREAD_IDLE /\ next = idle_task s c);
  ch_queue : queued_threads s' = queued_threads s /\ next = idle_task s c \/ queued_threads s' = seq_rm next (queued_threads s);
  ch_same : current s' = current s /\ idle_task s' = idle_task s /\ nodes s' = nodes s /\ init_node s' = init_node s /\ fd s' = fd s;
}.

Lemma lock_unless_old s t old p (Q : unit -> sched -> Prop) :
  inv true [old] [old] s -> threads s !! t = Some p ->
  Q tt (set_threads (<[t := set_t_lock true p]> (threads s)) s) ->
  runs (if negb (t =? old) then lock_thread t else mret tt) s Q.
Proof.
  intros HI Hp HQ. pose proof (i_tlock _ _ _ _ HI t p Hp) as Hl. destruct (Z.eqb_spec t old) as [->|Hne]; cbn [negb].
  - mstep. rewrite bool_decide_eq_true_2 in Hl by set_solver. rewrite insert_id in HQ; [by destruct s|].
    rewrite Hp. f_equal. rewrite <- Hl. by destruct p.
  - rewrite bool_decide_eq_false_2 in Hl by set_solver. by eapply lock_thread_spec.
Qed.

Lemma lock_next_current_spec s c old (Q : Z -> sched -> Prop) :
  inv true [old] [old] s -> c ∈ cpus ->
  (forall s' next, chosen s s' c old next ->
     next = match queued_threads s with t :: _ => if tasking_up s then t else idle_task s c | [] => idle_task s c end -> Q next s') ->
  runs (lock_next_current c old) s Q.
Proof.
  intros HI Hc HQ. unfold lock_next_current. mstep. mstep.
  destruct (r_idle _ (i_running _ _ _ _ HI) c Hc) as (pi & Hpi & Hsi).
  assert (Hidle : (forall s' next, chosen s s' c old next -> next = idle_task s c -> Q next s') ->
    runs ((if negb (idle_task s c =? old) then lock_thread (idle_task s c) else mret tt);; mret (idle_task s c)) s Q).
  { intros HQ'. mstep. eapply lock_unless_old; [done|exact Hpi|]. mstep. apply HQ'; [|done]. split; try done; [apply (i_lock _ _ _ _ HI)| |by left].
    exists pi. split; [done|]. split; [done|]. by right. }
  destruct (queued_threads s) as [|t l] eqn:Eq; [by apply Hidle|]. destruct (tasking_up s); [|by apply Hidle].
  assert (t ∈ queued_threads s) as Ht by (rewrite Eq; set_solver).
  apply (i_queue _ _ _ _ HI) in Ht as (p & Hp & Ha & Hact).
  mstep. eapply lock_unless_old; [done|exact Hp|]. do 2 mstep. cbn. mstep. eapply runs_read; [cbn; apply lookup_insert_eq|].
  cbn [t_state set_t_lock]. rewrite Ha. do 2 mstep. mstep. apply HQ; [|done]. split; try done.
  - apply (i_lock _ _ _ _ HI).
  - exists p. split; [done|]. split; [done|]. left. split; [done|]. destruct Hact; [by left|right; set_solver].
  - right. cbn. by rewrite Eq.
Qed.

(** The threads once the CPU has changed hands. *)
Definition handed_over (s : sched) (old next : Z) (po pn : thread) : gmap Z thread :=
  <[next := set_t_lock false (set_t_active true pn)]> (<[old := set_t_lock false (set_t_active false po)]> (threads s)).

Section Handover.
Context (s s' : sched) (c old next : Z) (po pn : thread).
Context (HI : inv true [old] [old] s) (Hc : c ∈ cpus) (Hcur : current s c = old).
Context (Ho : threads s !! old = Some po) (Hn : threads s !! next = Some pn).
Context (Hch : t_state pn = THREAD_AWAKE /\ (t_active pn = false \/ next = old) \/ t_state pn = THREAD_IDLE /\ next = idle_task s c).
Context (Hq : queued_threads s' = queued_threads s /\ next = idle_task s c \/ queued_threads s' = seq_rm next (queued_threads s)).
Context (E2 : threads s' = handed_over s old next po pn) (E3 : current s' = <[c := next]> (current s)) (E4 : idle_task s' = idle_task s).

Lemma handed_lookup x q : threads s' !! x = Some q -> exists q0, threads s !! x = Some q0 /\ same_task q0 q /\ t_state q = t_state q0 /\
  t_lock q = false /\ t_active q = (if decide (x = next) then true else if decide (x = old) then false else t_active q0).
Proof.
  rewrite E2. unfold handed_over. destruct (decide (x = next)) as [->|Hne]; [rewrite lookup_insert_eq; intros [= <-]; by exists pn|].
    rewrite lookup_insert_ne by done. destruct (decide (x = old)) as [->|Hno]; [rewrite lookup_insert_eq; intros [= <-]; by exists po|].
    rewrite lookup_insert_ne by done. intros Hx. exists q. do 3 (split; [done|]). split; [|done].
    rewrite (i_tlock _ _ _ _ HI x q Hx). apply bool_decide_eq_false. set_solver.
Qed.

Lemma handed_lookup_back x q0 : threads s !! x = Some q0 -> exists q, threads s' !! x = Some q.
Proof.
  intros Hx. rewrite E2. unfold handed_over. destruct (decide (x = next)) as [->|]; [rewrite lookup_insert_eq; by eexists|].
    rewrite lookup_insert_ne by done. destruct (decide (x = old)) as [->|]; [rewrite lookup_insert_eq; by eexists|]. rewrite lookup_insert_ne by done. by eexists.
Qed.

Lemma handed_over_queue : forall x, x ∈ queued_threads s' <->
  exists p, threads s' !! x = Some p /\ t_state p = THREAD_AWAKE /\ (t_active p = false \/ x ∈ ([] : list Z)).
Proof.
  pose proof handed_lookup as Hlk. pose proof handed_lookup_back as Hkl.
  assert (Hidl : next = idle_task s c -> next ∉ queued_threads s).
  { intros -> Hin. apply (i_queue _ _ _ _ HI) in Hin as (q & Hq1 & Hq2 & _).
    destruct (r_idle _ (i_running _ _ _ _ HI) c Hc) as (pi & Hpi & Hsi). congruence. }
  intros x. assert (Hx : x ∈ queued_threads s' <-> x ∈ queued_threads s /\ x <> next).
  { destruct Hq as [[-> Hi]| ->]; [|apply elem_of_seq_rm]. split; [|tauto]. intros Hin. split; [done|]. intros ->. by apply Hidl. }
  rewrite Hx, (i_queue _ _ _ _ HI x). split.
  - intros [(q0 & Hq0 & A & B) Hne]. destruct (Hkl x q0 Hq0) as (q & Hq'). destruct (Hlk x q Hq') as (q1 & Hq1 & _ & F1 & _ & F2).
    assert (q1 = q0) as -> by congruence. exists q. split; [done|]. split; [congruence|]. left. rewrite F2, decide_False by done.
    destruct (decide (x = old)) as [->|]; [done|]. destruct B; [done|set_solver].
  - intros (q & Hq' & A & [B|B]); [|set_solver]. destruct (Hlk x q Hq') as (q0 & Hq0 & _ & F1 & _ & F2). rewrite B in F2.
    destruct (decide (x = next)) as [->|Hne]; [done|]. split; [|done]. exists q0. split; [done|]. split; [congruence|].
    destruct (decide (x = old)) as [->|]; [right; set_solver|by left].
Qed.

Lemma handed_over_running : running s'.
Proof.
  pose proof handed_lookup as Hlk. pose proof handed_lookup_back as Hkl.
  pose proof (i_running _ _ _ _ HI) as [R1 R2 R3 R4 R5 R6 R7].
  split; rewrite ?E3, ?E4.
  - intros c' Hc'. destruct (decide (c' = c)) as [->|Hne].
    + rewrite fn_insert_eq. destruct (Hkl next pn Hn) as (q & Hq'). destruct (Hlk _ _ Hq') as (q0 & Hq0 & _ & F1 & _ & F2).
      exists q. split; [done|]. rewrite decide_True in F2 by done. split; [done|]. assert (q0 = pn) as -> by congruence. rewrite F1.
      by destruct Hch as [[-> _]|[-> _]].
    + rewrite fn_insert_ne by done. destruct (R1 c' Hc') as (q0 & Hq0 & A & B). destruct (Hkl _ _ Hq0) as (q & Hq').
      destruct (Hlk _ _ Hq') as (q1 & Hq1 & _ & F1 & _ & F2). assert (q1 = q0) as -> by congruence. exists q. split; [done|].
      split; [|congruence]. rewrite F2. destruct (decide _); [done|]. rewrite decide_False; [done|]. intros Eo. apply Hne, R2; [done|done|congruence].
  - intros c1 c2 H1 H2. assert (Hx : forall c', c' ∈ cpus -> c' <> c -> current s c' <> next).
    { intros c' Hc' Hne E. destruct (R1 c' Hc') as (q0 & Hq0 & A & B). rewrite E in Hq0. assert (q0 = pn) as -> by congruence.
      destruct Hch as [[_ [?|En]]|[_ En]]; [congruence| |]; [apply Hne, R2; [done|done|congruence]|apply Hne, R6; [done|done|congruence]]. }
    destruct (decide (c1 = c)) as [->|N1], (decide (c2 = c)) as [->|N2]; rewrite ?fn_insert_eq, ?fn_insert_ne by done; try done.
    + intros E. by destruct (Hx c2).
    + intros E. by destruct (Hx c1).
    + by apply R2.
  - intros x q Hx A. destruct (Hlk x q Hx) as (q0 & Hq0 & _ & _ & _ & F2). rewrite A in F2. destruct (decide (x = next)) as [->|Hne].
    + exists c. split; [done|]. by rewrite fn_insert_eq.
    + destruct (decide (x = old)) as [|Hno]; [done|]. destruct (R3 x q0 Hq0) as (c' & Hc' & Ec'); [done|]. exists c'. split; [done|].
      rewrite fn_insert_ne; [done|]. intros ->. congruence.
  - intros c' Hc'. destruct (R4 c' Hc') as (q0 & Hq0 & A). destruct (Hkl _ _ Hq0) as (q & Hq'). destruct (Hlk _ _ Hq') as (q1 & Hq1 & _ & F1 & _).
    exists q. split; [done|]. congruence.
  - exact R5.
  - intros c1 c2 H1 H2. destruct (decide (c2 = c)) as [->|N2]; [|rewrite fn_insert_ne by done; by apply R6]. rewrite fn_insert_eq. intros E.
    destruct (R4 c1 H1) as (q0 & Hq0 & A). rewrite <- E in Hq0. destruct Hch as [[? _]|[_ Hi]]; [congruence|]. apply R5; [done|done|congruence].
  - rewrite E2. unfold handed_over. rewrite !lookup_insert_ne by (intros ->; congruence). done.
Qed.

Lemma handed_over_inv :
  sched_lock s' = false -> nodes s' = nodes s -> init_node s' = init_node s -> fd s' = fd s -> sched_inv s'.
Proof.
  intros E1 E5 E6 E7. pose proof handed_lookup as Hlk. split.
  - done.
  - intros x q Hx. by destruct (Hlk x q Hx) as (q0 & _ & _ & _ & -> & _).
  - destruct Hq as [[-> _]| ->]; [|apply NoDup_seq_rm]; apply (i_nodup _ _ _ _ HI).
  - exact handed_over_queue.
  - exact handed_over_running.
  - eapply tasks_same; [apply (i_tasks _ _ _ _ HI)|done..].
  - destruct (i_contexts _ _ _ _ HI) as [C1 C2]. split.
    + intros x q Hx. destruct (Hlk x q Hx) as (q0 & Hq0 & (S1 & S2 & S3) & _). rewrite S1, S2, S3, E5, E7. by apply (C1 x).
    + intros x1 x2 q1 q2 H1 H2. destruct (Hlk _ _ H1) as (q10 & Hq10 & (S1 & S2 & _) & _). destruct (Hlk _ _ H2) as (q20 & Hq20 & (U1 & U2 & _) & _).
      rewrite S1, S2, U1, U2. by apply C2.
  - intros x q Hx A B. destruct (Hlk x q Hx) as (q0 & Hq0 & (_ & _ & S3) & F1 & _ & F2). unfold may_exit. rewrite E5, S3. rewrite A in F2.
    destruct (decide (x = next)) as [->|].
    + assert (q0 = pn) as -> by congruence. rewrite F1 in B. destruct Hch as [[? _]|[? _]]; congruence.
    + destruct (decide (x = old)); [done|]. apply (i_exit _ _ _ _ HI x); congruence.
Qed.
End Handover.

Lemma finish_spec now s s1 c old next po (Q : unit -> sched -> Prop) :
  inv true [old] [old] s -> c ∈ cpus -> current s c = old -> threads s !! old = Some po -> chosen s s1 c old next ->
  (forall s', sched_inv s' -> current s' = <[c := next]> (current s) ->
     (forall t, t_state <$> threads s' !! t = t_state <$> threads s !! t) -> queued_threads s' = queued_threads s1 ->
     idle_task s' = idle_task s -> Q tt s') ->
  runs (finish_sched_switch now c old next) s1 Q.
Proof.
  intros HI Hc Hcur Ho [C1 (pn & Hn & Et & Hch) Cq (D1 & D2 & D3 & D4 & D5)] HQ. unfold finish_sched_switch. mstep. mstep. mstep.
  assert (Hst : forall s' : sched, threads s' = handed_over s old next po pn -> forall t, t_state <$> threads s' !! t = t_state <$> threads s !! t).
  { intros s' -> t. unfold handed_over. destruct (decide (t = next)) as [->|]; [by rewrite lookup_insert_eq, Hn|].
    rewrite lookup_insert_ne by done. destruct (decide (t = old)) as [->|]; [by rewrite lookup_insert_eq, Ho|]. by rewrite lookup_insert_ne. }
  eapply runs_read; [cbn; rewrite Et; apply lookup_insert_eq|]. mstep. mstep.
  { destruct (Z.eqb_spec old next) as [|Hne]; [done|]. cbn. destruct Hch as [[_ [Ha|?]]|[Hi En]]; [done|congruence|].
    destruct (t_active pn) eqn:Ea; [|done]. destruct (r_active _ (i_running _ _ _ _ HI) next pn Hn Ea) as (c' & Hc' & E').
    assert (c' = c) as -> by (apply (r_own _ (i_running _ _ _ _ HI)); congruence). congruence. }
  assert (HBUG : bool_decide (t_state pn <> THREAD_IDLE /\ t_state pn <> THREAD_AWAKE) = false).
  { apply bool_decide_eq_false. destruct Hch as [[-> _]|[-> _]]; naive_solver. }
  destruct (Z.eqb_spec old next) as [->|Hne]; cbn [negb].
  - assert (po = pn) as -> by congruence.
    mstep. eapply upd_thread_spec; [cbn; rewrite Et; apply lookup_insert_eq|]. mstep. eapply upd_thread_spec; [cbn; apply lookup_insert_eq|].
    mstep. eapply runs_read; [cbn; apply lookup_insert_eq|]. mstep. mstep; [exact HBUG|]. mstep.
    eapply upd_thread_spec; [cbn; apply lookup_insert_eq|]. msteps. cbn. rewrite Et, !insert_insert_eq.
    apply HQ; [|cbn; by rewrite D1| |done|done].
    + eapply (handed_over_inv s _ c next next pn pn); try done; [cbn; unfold handed_over; by rewrite insert_insert_eq|cbn; by rewrite D1].
    + apply Hst. cbn. unfold handed_over. by rewrite insert_insert_eq.
  - mstep. eapply upd_thread_spec; [cbn; rewrite Et, lookup_insert_ne by done; exact Ho|]. mstep.
    eapply upd_thread_spec; [cbn; rewrite lookup_insert_ne by done; rewrite Et; apply lookup_insert_eq|].
    mstep. eapply runs_read; [cbn; apply lookup_insert_eq|]. mstep. mstep; [exact HBUG|]. mstep.
    eapply upd_thread_spec; [cbn; rewrite lookup_insert_ne by done; apply lookup_insert_eq|]. mstep.
    eapply upd_thread_spec; [cbn; rewrite lookup_insert_ne by done; apply lookup_insert_eq|]. msteps. cbn.
    match goal with |- Q tt ?s2 => assert (Eth : threads s2 = handed_over s old next po pn) end.
    { cbn. rewrite Et. unfold handed_over. apply map_eq. intros x.
      destruct (decide (x = next)) as [E|N1]; [subst x; by simplify_map_eq|].
      destruct (decide (x = old)) as [E|N2]; [subst x|]; by simplify_map_eq. }
    apply HQ; [|cbn; by rewrite D1|by apply Hst|done|done].
    eapply (handed_over_inv s _ c old next po pn); try done; cbn; by rewrite D1.
Qed.

(** It can run, or is idle. *)
Lemma next_thread_state s c : sched_inv s -> c ∈ cpus ->
  t_state <$> threads s !! next_thread s c (current s c) = Some THREAD_AWAKE \/
  t_state <$> threads s !! next_thread s c (current s c) = Some THREAD_IDLE.
Proof.
  intros HI Hc. destruct (r_idle _ (i_running _ _ _ _ HI) c Hc) as (pi & Hpi & Hsi). unfold next_thread.
  assert (Hq : forall t, t ∈ requeued s (current s c) -> t_state <$> threads s !! t = Some THREAD_AWAKE).
  { intros t. unfold requeued. case_bool_decide as E; [rewrite elem_of_cons; intros [->|Ht]; [done|]|intros Ht];
      apply (i_queue _ _ _ _ HI) in Ht as (p & -> & Hs & _); cbn; congruence. }
  assert (Hi : t_state <$> threads s !! idle_task s c = Some THREAD_IDLE) by (rewrite Hpi; cbn; congruence).
  destruct (requeued s (current s c)) as [|t l]; [by right|]. destruct (tasking_up s); [left; apply Hq; set_solver|by right].
Qed.

(** A switch on CPU [c]: the outcome is [next_thread]. *)
Lemma do_sched_switch_spec now s c (Q : unit -> sched -> Prop) :
  sched_inv s -> c ∈ cpus ->
  (forall s', sched_inv s' -> current s' = <[c := next_thread s c (current s c)]> (current s) ->
     (forall t, t_state <$> threads s' !! t = t_state <$> threads s !! t) -> idle_task s' = idle_task s -> Q tt s') ->
  runs (do_sched_switch now c) s Q.
Proof.
  intros HI Hc HQ. unfold do_sched_switch. mstep. mstep. rewrite (i_lock _ _ _ _ HI). do 2 mstep.
  destruct (r_cur _ (i_running _ _ _ _ HI) c Hc) as (p & Hp & Ha & _).
  assert (Hz : (current s c =? 0) = false) by (apply Z.eqb_neq; intros E; rewrite E in Hp; pose proof (r_null _ (i_running _ _ _ _ HI)); congruence).
  mstep. mstep; [exact Hz|].
  set (s0 := set_sched_lock true s). assert (H0 : inv true [] [] s0) by (eapply inv_sched_lock; exact HI).
  mstep. eapply (lock_thread_inv true []); [exact H0|exact Hp|apply not_elem_of_nil|]. intros s1 H1 K1. mstep.
  destruct (keeps_thread _ _ _ _ K1 Hp) as (p1 & Hp1 & F1 & F2 & _).
  eapply runs_mono; [eapply deactivate_inv; [exact H1|exact Hp1|congruence]|]. intros [] s2 (H2 & E2 & E3 & E4 & E5 & E6). mstep.
  destruct K1 as (K1 & K2 & K3 & K4 & K5).
  assert (Hreq : requeued s1 (current s c) = requeued s (current s c)).
  { unfold requeued. rewrite K3, Hp1, Hp. cbn. by rewrite F1. }
  eapply lock_next_current_spec; [exact H2|done|]. intros s3 next Hch En.
  assert (exists p2, threads s2 !! current s c = Some p2) as (p2 & Hp2).
  { specialize (E6 (current s c)). rewrite Hp1 in E6. destruct (threads s2 !! current s c); [by eexists|done]. }
  eapply (finish_spec now s2 s3 c _ next p2); [exact H2|done|rewrite E2, K1; done|exact Hp2|exact Hch|]. intros s4 H4 G1 G2 G3 G4. apply HQ; [done| | |].
  - rewrite G1, E2, K1. cbn. f_equal. rewrite En. unfold next_thread. rewrite E5, Hreq, E4, K4, E3, K2. done.
  - intros t. rewrite G2, E6. specialize (K5 t). cbn in K5. destruct (threads s1 !! t), (threads s !! t); cbn in *; congruence.
  - by rewrite G4, E3, K2.
Qed.

(** *** Sequences of scheduler operations *)

(** The critical sections, in the order the locks let them through; [Exit] is the first
    half of [thread_die] and [Switch] its second. *)
Inductive event := Sleep (c : Z) | Wake (t : Z) | Poke (t : Z) | Schedule (t : Z) | Exit (c : Z) | Switch (c now : Z).

Definition mark_exited (c : Z) : M sched unit :=
  me ← gets (fun s => current s c);
  with_thread me (upd_thread me (set_t_state THREAD_EXITED));;
  lock_thread me;; unlock_thread me.

Definition perform (e : event) : M sched unit :=
  match e with
  | Sleep c => thread_sleep_prepare c
  | Wake t => thread_wake t
  | Poke t => thread_poke t
  | Schedule t => thread_schedule t
  | Exit c => mark_exited c
  | Switch c now => sched_switch now c
  end.

(** What callers owe: only a running thread sleeps or exits; an exited thread that is no
    longer running is not woken; a thread is scheduled once, after it was built. *)
Definition allowed (e : event) (s : sched) : Prop :=
  match e with
  | Sleep c => c ∈ cpus /\ exists p, threads s !! current s c = Some p /\ t_state p = THREAD_AWAKE
  | Wake t => exists p, threads s !! t = Some p /\ wakeable p
  | Poke t => is_Some (threads s !! t)
  | Schedule t => t ∉ thread_list s /\ exists p, threads s !! t = Some p /\ t_state p = THREAD_BUILDING /\ t_active p = false
  | Exit c => c ∈ cpus /\ exists p, threads s !! current s c = Some p /\ t_state p <> THREAD_IDLE /\ may_exit s (t_node p)
  | Switch c _ => c ∈ cpus
  end.

(** A thread that has exited and left its CPU. *)
Definition dead (s : sched) (t : Z) : Prop :=
  t_state <$> threads s !! t = Some THREAD_EXITED /\ forall c, c ∈ cpus -> current s c <> t.

Lemma mark_exited_spec s c p (Q : unit -> sched -> Prop) :
  sched_inv s -> c ∈ cpus -> threads s !! current s c = Some p -> t_state p <> THREAD_IDLE -> may_exit s (t_node p) ->
  (forall s', sched_inv s' -> current s' = current s -> idle_task s' = idle_task s -> tasking_up s' = tasking_up s ->
     t_state <$> threads s' !! current s c = Some THREAD_EXITED ->
     (forall x, x <> current s c -> t_state <$> threads s' !! x = t_state <$> threads s !! x) -> Q tt s') ->
  runs (mark_exited c) s Q.
Proof.
  intros HI Hc Hp Hni Hx HQ. unfold mark_exited. do 2 mstep. mstep. eapply with_thread_spec; [exact Hp|by eapply inv_unlocked|].
  eapply upd_thread_spec; [cbn; apply lookup_insert_eq|]. cbn. eexists. split; [apply lookup_insert_eq|]. rewrite !insert_insert_eq.
  set (s1 := set_threads _ _). destruct (current_state_inv s s1 c p THREAD_EXITED) as (H1 & E4 & E5); [done|done|exact Hp|done|by right|done|].
  set (me := current s c) in *. mstep.
  destruct (threads s1 !! me) as [p1|] eqn:Hp1; [|done]. eapply (lock_thread_inv false []); [exact H1|exact Hp1|apply not_elem_of_nil|].
  intros s2 H2 K2. destruct (keeps_thread _ _ _ _ K2 Hp1) as (p2 & Hp2 & _).
  eapply (unlock_thread_inv false [me] []); [exact H2|exact Hp2|apply not_elem_of_nil|set_solver|]. intros s3 H3 K3.
  destruct (keeps_trans _ _ _ K2 K3) as (K4 & K5 & K6 & K7 & K8). apply HQ; [done..| |].
  - specialize (K8 me). rewrite Hp1 in K8. destruct (threads s3 !! me); cbn in *; congruence.
  - intros x Hx'. rewrite <- E5 by done. specialize (K8 x). destruct (threads s3 !! x), (threads s1 !! x); cbn in *; congruence.
Qed.

Lemma wakes_dead t s s' : wakes t s s' -> forall x, dead s x -> dead s' x.
Proof.
  intros (W1 & _ & _ & W4 & W5) x [D1 D2]. unfold dead. rewrite W1. split; [|exact D2].
  destruct (decide (x = t)) as [->|]; [|by rewrite W4]. rewrite W5, D1. done.
Qed.

(** An allowed operation returns, keeps the invariant and leaves the dead dead. *)
Lemma perform_spec e s : sched_inv s -> allowed e s ->
  runs (perform e) s (fun _ s' => sched_inv s' /\ forall t, dead s t -> dead s' t).
Proof.
  intros HI Ha. destruct e as [c|t|t|t|c|c now]; cbn [allowed perform] in *.
  - destruct Ha as (Hc & p & Hp & Hs). eapply thread_sleep_prepare_spec; [done|done|exact Hp|done|]. intros s' H' E1 _ E5. split; [done|].
    intros x [D1 D2]. unfold dead. rewrite E1, E5; [done|]. intros ->. by apply (D2 c Hc).
  - destruct Ha as (p & Hp & Hw). eapply thread_wake_spec; [done|exact Hp|done|]. intros s' H' W. split; [done|]. by eapply wakes_dead.
  - destruct Ha as (p & Hp). eapply thread_poke_spec; [done|exact Hp|]. intros s' H' W. split; [done|]. by eapply wakes_dead.
  - destruct Ha as (Hl & p & Hp & Hb & Hna). eapply thread_schedule_spec; [done|exact Hp|done|done|done|]. intros s' H' E1 _ E3. split; [done|].
    intros x [D1 D2]. unfold dead. rewrite E1. split; [|exact D2]. rewrite E3; [done|]. intros ->. rewrite Hp in D1. cbn in D1. congruence.
  - destruct Ha as (Hc & p & Hp & Hni & Hx). eapply mark_exited_spec; [done|done|exact Hp|done|done|]. intros s' H' E1 _ _ _ E5. split; [done|].
    intros x [D1 D2]. unfold dead. rewrite E1, E5; [done|]. intros ->. by apply (D2 c Hc).
  - eapply do_sched_switch_spec; [done|done|]. intros s' H' E1 E2 E3. split; [done|].
    intros x [D1 D2]. split; [by rewrite E2|]. intros c' Hc' E.
    rewrite E1 in E. destruct (decide (c' = c)) as [->|]; [|rewrite fn_insert_ne in E by done; by apply (D2 c')].
    rewrite fn_insert_eq in E. destruct (next_thread_state s c HI Ha) as [N|N]; rewrite E in N; congruence.
Qed.

Fixpoint run_events (es : list event) : M sched unit :=
  match es with
  | [] => mret tt
  | e :: es' => perform e;; run_events es'
  end.

Fixpoint allowed_all (es : list event) (s : sched) : Prop :=
  match es with
  | [] => True
  | e :: es' => allowed e s /\ allowed_all es' (after (perform e) s)
  end.

(** C4: scheduler safety.  Starting from the invariant, any sequence of
    scheduler operations on any CPUs whose callers keep their side (a thread sleeps or
    exits only while it runs, a dead thread is not woken, a thread is scheduled once)
    runs to completion: no bug check fires, no lock deadlocks, no list is corrupted.
    The invariant holds again at the end -- the CPUs run distinct threads, exactly the
    active ones, and the queue holds exactly the other runnable threads, once each --
    and a thread that had exited runs on no CPU ever again. *)
Theorem sched_safe es s :
  sched_inv s -> allowed_all es s ->
  runs (run_events es) s (fun _ s' => sched_inv s' /\ forall t, dead s t -> forall c, c ∈ cpus -> current s' c <> t).
Proof.
  intros HI Ha. apply (runs_mono _ _ (fun _ s' => sched_inv s' /\ forall t, dead s t -> dead s' t)).
  2: { intros [] s' [H1 H2]. split; [done|]. intros t Ht. apply (H2 t Ht). }
  revert s HI Ha. induction es as [|e es IH]; intros s HI Ha; cbn [run_events]; [by mstep|]. destruct Ha as [Ha Has]. mstep.
  pose proof (perform_spec e s HI Ha) as Hp. unfold after in Has. apply runs_Done in Hp as ([] & s1 & E & H1 & D1). rewrite E in Has.
  apply runs_Done. eexists tt, s1. split; [exact E|]. eapply runs_mono; [by apply IH|]. intros [] s2 [H2 D2]. split; [done|]. auto.
Qed.

(** A switch hands the CPU to the first thread of the queue, after the
    old thread has gone back on it if it is awake; it goes to this CPU's idle thread
    only when the queue is empty or tasking has not started.  No other CPU and no
    thread's state is affected, and the invariant is kept. *)
Theorem sched_switch_correct now s c :
  sched_inv s -> c ∈ cpus ->
  runs (sched_switch now c) s (fun _ s' => sched_inv s' /\ current s' c = next_thread s c (current s c) /\
    (forall c', c' <> c -> current s' c' = current s c') /\
    (forall t, t_state <$> threads s' !! t = t_state <$> threads s !! t) /\
    (tasking_up s = true -> queued_threads s <> [] -> t_state <$> threads s' !! current s' c = Some THREAD_AWAKE)).
Proof.
  intros HI Hc. eapply do_sched_switch_spec; [done|done|]. intros s' H' E1 E2 E3. split; [done|]. rewrite E1. split; [apply fn_insert_eq|].
  split; [intros c' Hne; by apply fn_insert_ne|]. split; [exact E2|]. intros Hup Hq. rewrite fn_insert_eq, E2. unfold next_thread, requeued.
  assert (Hqs : forall t, t ∈ queued_threads s -> t_state <$> threads s !! t = Some THREAD_AWAKE).
  { intros t Ht. apply (i_queue _ _ _ _ HI) in Ht as (p & -> & Hs & _). cbn. congruence. }
  case_bool_decide as Ea; rewrite Hup; [done|]. destruct (queued_threads s) as [|t l]; [done|]. apply Hqs. set_solver.
Qed.

(** Waking a sleeping thread makes it runnable, whether it has left its
    CPU (then it is on the run queue, once) or is still on it; waking an awake thread
    changes nothing. *)
Theorem thread_wake_correct s t p :
  sched_inv s -> threads s !! t = Some p -> wakeable p -> t_state p <> THREAD_EXITED -> t_state p <> THREAD_IDLE ->
  runs (thread_wake t) s (fun _ s' => sched_inv s' /\
    t_state <$> threads s' !! t = Some (if bool_decide (t_state p = THREAD_SLEEPING) then THREAD_AWAKE else t_state p) /\
    (t ∈ queued_threads s' \/ exists c, c ∈ cpus /\ current s' c = t)).
Proof.
  intros HI Hp Hw He Hi. eapply thread_wake_spec; [done|exact Hp|done|]. intros s' H' (W1 & W2 & W3 & W4 & W5). rewrite Hp in W5. cbn in W5.
  split; [done|]. split; [exact W5|]. destruct (threads s' !! t) as [p'|] eqn:Hp'; [|done]. cbn in W5. injection W5 as W5. unfold woken in W5.
  destruct (t_active p') eqn:Ea; [right; by apply (r_active _ (i_running _ _ _ _ H') t p')|]. left. apply (i_queue _ _ _ _ H').
  exists p'. split; [done|]. split; [|by left]. rewrite W5. case_bool_decide; [done|].
  destruct Hw as [?|[?|Hact]]; [done|done|]. destruct (r_active _ (i_running _ _ _ _ HI) t p Hp Hact) as (c & Hc & <-). rewrite <- W1 in Hp'.
  destruct (r_cur _ (i_running _ _ _ _ H') c Hc) as (p0 & Hp0 & Ha0 & _). congruence.
Qed.

(** [thread_die] returns control to the scheduler with the thread gone for
    good: its task may be handed to its parent, but the thread is on no CPU and is not
    runnable. *)
Theorem thread_die_correct now s c p :
  sched_inv s -> c ∈ cpus -> threads s !! current s c = Some p -> t_state p <> THREAD_IDLE -> may_exit s (t_node p) ->
  runs (thread_die now c) s (fun _ s' => sched_inv s' /\ dead s' (current s c) /\ current s c ∉ queued_threads s').
Proof.
  intros HI Hc Hp Hni Hx. pose proof (mark_exited_spec s c p
    (fun _ s1 => runs (sched_switch now c) s1 (fun _ s' => sched_inv s' /\ dead s' (current s c) /\ current s c ∉ queued_threads s')) HI Hc Hp Hni Hx) as Hm.
  unfold thread_die. do 2 mstep. unfold mark_exited in Hm. apply runs_bind_inv in Hm.
  - cbv beta in Hm. assert (Hm' : runs (with_thread (current s c) (upd_thread (current s c) (set_t_state THREAD_EXITED)) ;;
      lock_thread (current s c);; unlock_thread (current s c)) s (fun _ s1 => runs (sched_switch now c) s1
      (fun _ s' => sched_inv s' /\ dead s' (current s c) /\ current s c ∉ queued_threads s'))) by exact Hm.
    apply runs_bind_inv in Hm'. mstep. eapply runs_mono; [exact Hm'|]. intros [] s1 H1. apply runs_bind_inv in H1. mstep.
    eapply runs_mono; [exact H1|]. intros [] s2 H2. by mstep.
  - intros s1 H1 E1 E2 E3 E4 E5. eapply do_sched_switch_spec; [done|done|]. intros s' H' F1 F2 F3. split; [done|].
    assert (Hd : t_state <$> threads s' !! current s c = Some THREAD_EXITED) by by rewrite F2.
    split; [split; [done|]|].
    + intros c' Hc' E. rewrite F1 in E. destruct (decide (c' = c)) as [->|Hne].
      * rewrite fn_insert_eq in E. destruct (next_thread_state s1 c H1 Hc) as [N|N]; rewrite E in N; congruence.
      * rewrite fn_insert_ne, E1 in E by done. by apply Hne, (r_inj _ (i_running _ _ _ _ HI)).
    + intros Hin. apply (i_queue _ _ _ _ H') in Hin as (q & Hq & Hs & _). rewrite Hq in Hd. cbn in Hd. congruence.
Qed.

(** No rotation.  When the quantum of an awake thread runs out, the switch
    puts the thread at the front of the queue and takes the front of the queue: it
    carries on, however long the other runnable threads have waited. *)
Theorem sched_switch_no_rotation now s c p :
  sched_inv s -> c ∈ cpus -> tasking_up s = true -> threads s !! current s c = Some p -> t_state p = THREAD_AWAKE ->
  runs (sched_switch now c) s (fun _ s' => forall c', current s' c' = current s c').
Proof.
  intros HI Hc Hup Hp Hs. eapply do_sched_switch_spec; [done|done|]. intros s' _ E1 _ _. rewrite E1. unfold next_thread, requeued.
  rewrite Hp. cbn. rewrite Hs, bool_decide_eq_true_2, Hup by done. intros c'.
  destruct (decide (c' = c)) as [->|]; [apply fn_insert_eq|by apply fn_insert_ne].
Qed.
End Inv.

(** ** A running system

    Two CPUs: CPU 0 runs thread 12 of task 3, CPU 1 its idle thread; thread 13 waits,
    14 sleeps, 15 is being built. *)

Definition task0 (p par : Z) (ch : list Z) : task_node :=
  TaskNode false 1 p par 0 0 TASK_RUNNING 0 0 0 default_sigactions 0 0 0 [] ch [].
Definition thread0 (n fs : Z) (act : bool) (st : thread_state) : thread := Thread false 0 fs n act THREAD_FLAG_KERNEL st 0 false.

Definition sched0 : sched := {|
  threads := <[10 := thread0 1 0 false THREAD_IDLE]> (<[11 := thread0 1 0 true THREAD_IDLE]>
    (<[12 := thread0 3 100 true THREAD_AWAKE]> (<[13 := thread0 3 101 false THREAD_AWAKE]>
    (<[14 := thread0 3 0 false THREAD_SLEEPING]> (<[15 := thread0 3 0 false THREAD_BUILDING]> ∅)))));
  nodes := <[1 := task0 0 0 []]> (<[2 := task0 1 0 [3]]> (<[3 := task0 7 2 []]> ∅));
  sessions := ∅; pgroups := ∅;
  fd := FdTab ∅ false 0 [] ∅ (<[100 := FsContext false 1 (50, 51) (50, 51)]> (<[101 := FsContext false 1 (50, 51) (50, 51)]> ∅)) 200;
  thread_list := [12; 13; 14]; queued_threads := [13]; task_list := [3; 2; 1]; session_list := []; pgroup_list := [];
  poll_threads := []; suspended_threads := 0; sched_lock := false; session_lock := false; pgroup_lock := false;
  pid := 8; init_node := 2; idle_node := 1;
  current := fun c => if c =? 0 then 12 else 11; idle_task := fun c => if c =? 0 then 10 else 11;
  switch_time := fun _ => 0; tasking_up := true; thread_count := 3; tasks_going := 1; delivered := [] |}.

Lemma threads0_cases t p : threads sched0 !! t = Some p ->
  (t, p) ∈ [(10, thread0 1 0 false THREAD_IDLE); (11, thread0 1 0 true THREAD_IDLE); (12, thread0 3 100 true THREAD_AWAKE);
            (13, thread0 3 101 false THREAD_AWAKE); (14, thread0 3 0 false THREAD_SLEEPING); (15, thread0 3 0 false THREAD_BUILDING)].
Proof.
  cbn [threads sched0]. rewrite !lookup_insert_Some, lookup_empty, !elem_of_cons. naive_solver.
Qed.
Lemma nodes0_cases n p : nodes sched0 !! n = Some p -> (n, p) ∈ [(1, task0 0 0 []); (2, task0 1 0 [3]); (3, task0 7 2 [])].
Proof. cbn [nodes sched0]. rewrite !lookup_insert_Some, lookup_empty, !elem_of_cons. naive_solver. Qed.

Lemma elem_of_cpus0 c : c ∈ [0; 1] <-> c = 0 \/ c = 1.
Proof. set_solver. Qed.

Ltac all_threads H := apply threads0_cases in H; rewrite !elem_of_cons, elem_of_nil in H;
  destruct H as [H|[H|[H|[H|[H|[H|[]]]]]]]; injection H as -> ->.

Lemma sched0_inv : sched_inv [0; 1] sched0.
Proof.
  split.
  - reflexivity.
  - intros t p H. all_threads H; reflexivity.
  - apply NoDup_singleton.
  - intros t. change (queued_threads sched0) with [13]. rewrite list_elem_of_singleton. split.
    + intros ->. eexists. split; [vm_compute; reflexivity|]. split; [reflexivity|by left].
    + intros (p & H & Hs & [Ha|Ha]); [|by apply elem_of_nil in Ha]. all_threads H; try discriminate. reflexivity.
  - split.
    + intros c Hc. apply elem_of_cpus0 in Hc as [->| ->]; eexists; (split; [vm_compute; reflexivity|]); split; [reflexivity|discriminate|reflexivity|discriminate].
    + intros c1 c2 H1 H2. apply elem_of_cpus0 in H1 as [->| ->], H2 as [->| ->]; cbn; congruence.
    + intros t p H Ha. all_threads H; try discriminate; [exists 1|exists 0]; (split; [apply elem_of_cpus0; auto|reflexivity]).
    + intros c Hc. apply elem_of_cpus0 in Hc as [->| ->]; eexists; (split; [vm_compute; reflexivity|reflexivity]).
    + intros c1 c2 H1 H2. apply elem_of_cpus0 in H1 as [->| ->], H2 as [->| ->]; cbn; congruence.
    + intros c1 c2 H1 H2. apply elem_of_cpus0 in H1 as [->| ->], H2 as [->| ->]; cbn; congruence.
    + reflexivity.
  - split; [|split; [vm_compute; by eexists|discriminate]]. intros n p H. apply nodes0_cases in H. rewrite !elem_of_cons, elem_of_nil in H.
    destruct H as [H|[H|[H|[]]]]; injection H as -> ->; (split; [reflexivity|]); cbn [n_parent task0 n_children].
    + split; [congruence|]. intros ch Hch. by apply elem_of_nil in Hch.
    + split; [congruence|]. intros ch Hch. apply list_elem_of_singleton in Hch as ->. split; [vm_compute; by eexists|discriminate].
    + split; [intros _; vm_compute; by eexists|]. intros ch Hch. by apply elem_of_nil in Hch.
  - split.
    + intros t p H. all_threads H; cbn [t_node t_fs t_ufd thread0]; (split; [split; [discriminate|vm_compute; by eexists]|]);
        (split; [intros Hz|congruence]); first [congruence | do 2 eexists; vm_compute; reflexivity].
    + intros t1 t2 p1 p2 H1 H2 Hne. all_threads H1; all_threads H2; cbn [t_fs t_ufd thread0]; split; congruence.
  - intros t p H Ha Hs. all_threads H; discriminate.
Qed.


Definition events0 : list event :=
  [Sleep 0; Switch 0 5; Wake 14; Poke 12; Schedule 15; Switch 1 6; Exit 0; Switch 0 7; Switch 1 8].

Ltac run_thread := eexists; split; [vm_compute; reflexivity|].

Lemma events0_allowed : allowed_all [0; 1] events0 sched0.
Proof.
  assert (C0 : 0 ∈ [0; 1]) by (apply elem_of_cpus0; auto). assert (C1 : 1 ∈ [0; 1]) by (apply elem_of_cpus0; auto).
  split; [split; [exact C0|run_thread; reflexivity]|]. split; [exact C0|].
  split; [run_thread; right; left; reflexivity|]. split; [vm_compute; by eexists|].
  split; [split; [apply (bool_decide_unpack _); vm_compute; exact I|run_thread; split; reflexivity]|].
  split; [exact C1|]. split.
  { split; [exact C0|]. run_thread. split; [discriminate|]. run_thread. split; discriminate. }
  split; [exact C0|]. split; [exact C1|exact I].
Qed.

Lemma sched_safe_witness :
  exists s', run_events events0 sched0 = Done (tt, s') /\ sched_inv [0; 1] s' /\ current s' 0 = 12 /\ current s' 1 = 15.
Proof.
  pose proof (sched_safe [0; 1] events0 sched0 sched0_inv events0_allowed) as H.
  destruct (proj1 (runs_Done _ _ _) H) as (u & s' & E & HI & _). clear H. exists s'. destruct u.
  assert (Es : after (run_events events0) sched0 = s') by (unfold after; rewrite E; reflexivity).
  split; [exact E|]. split; [exact HI|].
  rewrite <- Es. split; vm_compute; reflexivity.
Defined.

Lemma sched_switch_correct_witness :
  runs (sched_switch 5 0) (after (perform (Sleep 0)) sched0) (fun _ s' => current s' 0 = 13 /\ current s' 1 = 11).
Proof.
  assert (C0 : 0 ∈ [0; 1]) by (apply elem_of_cpus0; auto).
  assert (HI : sched_inv [0; 1] (after (perform (Sleep 0)) sched0)).
  { pose proof (perform_spec [0; 1] (Sleep 0) sched0 sched0_inv) as H. apply runs_after in H as (? & HI & _); [exact HI|].
    split; [exact C0|]. run_thread. reflexivity. }
  eapply runs_mono; [exact (sched_switch_correct [0; 1] 5 _ 0 HI C0)|]. intros [] s' (_ & E1 & E2 & _).
  split; [rewrite E1; vm_compute; reflexivity|]. rewrite (E2 1) by discriminate. vm_compute. reflexivity.
Defined.

Lemma thread_wake_correct_witness :
  runs (thread_wake 14) sched0 (fun _ s' => t_state <$> threads s' !! 14 = Some THREAD_AWAKE).
Proof.
  eapply runs_mono; [eapply (thread_wake_correct [0; 1] sched0 14 _ sched0_inv); [vm_compute; reflexivity|right; left; reflexivity|discriminate|discriminate]|].
  intros [] s' (_ & E & _). exact E.
Defined.

Lemma thread_die_correct_witness : runs (thread_die 5 0) sched0 (fun _ s' => dead [0; 1] s' 12).
Proof.
  eapply runs_mono; [eapply (thread_die_correct [0; 1] 5 sched0 0 _ sched0_inv); [apply elem_of_cpus0; auto|vm_compute; reflexivity|discriminate|]|].
  - run_thread. split; discriminate.
  - intros [] s' (_ & E & _). exact E.
Defined.

(** Thread 13 has waited since before CPU 0's quantum began, and still waits. *)
Lemma sched_switch_no_rotation_witness :
  13 ∈ queued_threads sched0 /\ runs (sched_switch 5 0) sched0 (fun _ s' => forall c, current s' c = current sched0 c).
Proof.
  split; [apply list_elem_of_singleton; reflexivity|].
  eapply (sched_switch_no_rotation [0; 1] 5 sched0 0 _ sched0_inv); [apply elem_of_cpus0; auto|reflexivity|vm_compute; reflexivity|reflexivity].
Defined.
