(* ===== verification/SysProc.v ===== *)
(** * SysProc: the system calls on tasks (kernel/src/sched/syscall.c)

    Identity, exit and wait, process groups, signals.  [c] is the number of the CPU that runs the call, [now] the time a
    switch sees.  A call that waits is one try of its condition: [None] means that the thread has been suspended and the
    condition is to be tried again when it runs.  A pointer argument is an [option], [None] the null pointer; what a call writes through one
    is part of its result. *)

From S2P Require Import Prelude Words Ufd Sched Schedule.

Definition ESRCH : Z := 3.
Definition EACCES : Z := 13.
Definition ENOSYS : Z := 88.
Definition EPERM : Z := 1.
Definition WNOHANG : Z := 1.
Definition SIG_SETMASK : Z := 0.
Definition SIG_BLOCK : Z := 1.
Definition SIG_UNBLOCK : Z := 2.

Definition MK_STATCODE (code cause : Z) : Z := Z.lor (u32 (Z.land code 0xFF <<< 8)) cause.

Section Calls.
Context (now c : Z) (junk_u : Z -> ufd) (junk_n : Z).

(** [obtain_task_node(current)] *)
Definition my_node : M sched Z := me ← gets (fun s => current s c); obtain_task_node me.

(** [current->node] *)
Definition current_node : M sched Z := me ← gets (fun s => current s c); t ← thread_at me; mret (t_node t).

Definition sys__exit (code : Z) : M sched Z := task_node_exit c code ECAUSE_RQST;; mret 0.

(** The architecture's part of a fork is not the scheduler's. *)
Definition sys_fork : M sched Z :=
  me ← gets (fun s => current s c);
  child ← thread_fork junk_u junk_n me;
  t ← thread_at child;
  n ← node_at (t_node t);
  mret (n_pid n).

Definition sys_getpid : M sched Z := n ← my_node; p ← node_at n; mret (n_pid p).

Definition sys_getppid : M sched Z :=
  n ← my_node; p ← node_at n;
  if negb (n_parent p =? 0) then q ← node_at (n_parent p); mret (n_pid q) else mret 0.

(** *** Waiting *)

(** The zombie taken off the list, 0 when there is none. *)
Definition reap_zombie (n : Z) : M sched Z :=
  with_node n (
    p ← node_at n;
    match n_zombies p with
    | [] => mret 0
    | z :: l => upd_node n (set_n_zombies l);; mret z
    end).

Fixpoint find_child_in (l : list Z) (p : Z) : M sched Z :=
  match l with
  | [] => mret 0
  | o :: l' => q ← node_at o; if n_pid q =? p then mret o else find_child_in l' p
  end.

Definition find_child (me p : Z) : M sched Z := q ← node_at me; find_child_in (n_children q) p.

(** One turn of [wait_for_condition]: the value the condition left, if it holds. *)
Definition wait_for_condition {A} (cond : M sched (option A)) : M sched (option A) :=
  r ← cond;
  match r with
  | Some a => mret (Some a)
  | None => sched_suspend_pending_interrupt now c;; mret None
  end.

Definition zombie_status (z : Z) : M sched (Z * option Z) := q ← node_at z; mret (n_pid q, Some (MK_STATCODE (n_exit_code q) (n_exit_cause q))).

(** The value returned and the status, if one is there to be stored. *)
Definition sys_waitpid (pid options : Z) : M sched (option (Z * option Z)) :=
  node ← my_node;
  if pid =? -1 then
    z ← reap_zombie node;
    if z =? 0 then
      if has options WNOHANG then mret (Some (0, None))
      else
        r ← wait_for_condition (z ← reap_zombie node; mret (if z =? 0 then None else Some z));
        match r with Some z => st ← zombie_status z; mret (Some st) | None => mret None end
    else st ← zombie_status z; mret (Some st)
  else if pid >? 0 then
    child ← find_child node pid;
    BUG_ON (child =? 0);;
    r ← wait_for_condition (q ← node_at child; mret (if n_exit_state q =? TASK_EXITED then Some tt else None));
    mret (match r with Some _ => Some (pid, None) | None => None end)
  else panic.

(** *** Signals *)

Definition set_n_sigtramp (v : Z) (s : task_node) : task_node :=
  TaskNode (n_lock s) (n_refs s) (n_pid s) (n_parent s) (n_argv s) (n_envp s) (n_exit_state s) (n_exit_code s) (n_exit_cause s) v (n_sigactions s) (n_sig_mask s) (n_session s) (n_pgroup s) (n_threads s) (n_children s) (n_zombies s).
Definition set_n_sigactions (v : Z -> sigaction) (s : task_node) : task_node :=
  TaskNode (n_lock s) (n_refs s) (n_pid s) (n_parent s) (n_argv s) (n_envp s) (n_exit_state s) (n_exit_code s) (n_exit_cause s) (n_sigtramp s) v (n_sig_mask s) (n_session s) (n_pgroup s) (n_threads s) (n_children s) (n_zombies s).

Definition sys__register_sigtramp (tramp : Z) : M sched Z :=
  n ← my_node; p ← node_at n;
  if negb (n_sigtramp p =? 0) then mret (-1) else upd_node n (set_n_sigtramp tramp);; mret 0.

Definition sys_kill (p sig : Z) : M sched Z := panic.

(** An entry of [sigactions], which has [NSIG] of them. *)
Definition sigaction_get (n sig : Z) : M sched sigaction :=
  p ← node_at n; read (fun _ => if (0 <=? sig) && (sig <? NSIG) then Some (n_sigactions p sig) else None).
Definition sigaction_set (n sig : Z) (sa : sigaction) : M sched unit :=
  _ ← sigaction_get n sig; upd_node n (fun p => set_n_sigactions (<[sig := sa]> (n_sigactions p)) p).

Definition sys_sigaction (sig : Z) (sa : option sigaction) (want_old : bool) : M sched (Z * option sigaction) :=
  if (sig <? 0) || (sig >? NSIG) then mret (- EINVAL, None)
  else
    old ← (if want_old then n ← my_node; o ← sigaction_get n sig; mret (Some o) else mret None);
    (match sa with Some a => n ← my_node; sigaction_set n sig a | None => mret tt end);;
    mret (0, old).

Definition sys_sigprocmask (how : Z) (set : option Z) (want_old : bool) : M sched (Z * option Z) :=
  n ← current_node;
  p ← node_at n;
  let old := if want_old then Some (n_sig_mask p) else None in
  let mask (f : Z -> Z -> Z) := match set with Some v => upd_node n (fun p => set_n_sig_mask (f (n_sig_mask p) v) p) | None => mret tt end in
  if how =? SIG_BLOCK then mask Z.lor;; mret (0, old)
  else if how =? SIG_UNBLOCK then mask Z.land;; mret (0, old)
  else if how =? SIG_SETMASK then mask (fun _ v => v);; mret (0, old)
  else mret (- EINVAL, old).

(** *** Process groups *)

Definition leader_pid (n : Z) : M sched Z := p ← node_at n; g ← pgroup_at (n_pgroup p); q ← node_at (g_leader g); mret (n_pid q).

Definition sys_getpgid (pid : Z) : M sched Z :=
  me ← current_node;
  p ← node_at me;
  if (pid =? 0) || (pid =? n_pid p) then leader_pid me
  else
    n ← task_node_find pid;
    if n =? 0 then mret (- ESRCH)
    else r ← leader_pid n; task_node_put n;; mret r.

(** The walk up the parents to the caller; whether it was met. *)
Definition ancestor_round (mypid : Z) (cur : Z) : M sched (Z + bool) :=
  if cur =? 0 then mret (inr false)
  else q ← node_at cur; if n_pid q =? mypid then mret (inr true) else mret (inl (n_parent q)).

(** [fuel] bounds the ancestry. *)
Definition sys_setpgid (fuel : nat) (pid pgid : Z) : M sched Z :=
  if (pid <? 0) || (pgid <? 0) then mret (- EINVAL)
  else
    me ← current_node;
    p ← node_at me;
    n ← (if negb (pid =? 0) && negb (pid =? n_pid p) then
      n ← task_node_find pid;
      mine ← iterM fuel (ancestor_round (n_pid p)) n;
      mret (if (mine : bool) then Some n else None)
    else task_node_get me;; mret (Some me));
    match n with
    | None => mret (- EACCES)
    | Some n =>
        q ← node_at n;
        ok ← (if (pgid =? 0) || (pgid =? n_pid q) then pgroup_rm n;; pgroup_create n;; mret true
        else
          pg ← pgroup_find pgid;
          if pg =? 0 then mret false
          else pgroup_rm n;; pgroup_add n pg;; mret true);
        if (ok : bool) then task_node_put n;; mret 0 else mret (- EPERM)
    end.

Definition sys_unimplemented (fatal : bool) : M sched Z := if fatal then panic else mret (- ENOSYS).
End Calls.

(** ** Specifications *)

Lemma set_nodes_nodes a b s : set_nodes a (set_nodes b s) = set_nodes a s.
Proof. done. Qed.
Lemma set_pgroups_pgroups a b s : set_pgroups a (set_pgroups b s) = set_pgroups a s.
Proof. done. Qed.

Lemma refs_again q a : n_lock q = false -> set_n_lock false (set_n_refs a (set_n_lock true q)) = set_n_refs a q.
Proof. destruct q. cbn. by intros ->. Qed.

Lemma task_node_get_spec s n q (Q : unit -> sched -> Prop) : nodes s !! n = Some q -> n_lock q = false -> n_refs q <> 0 ->
  Q tt (set_nodes (<[n := set_n_refs (u32 (n_refs q + 1)) q]> (nodes s)) s) -> runs (task_node_get n) s Q.
Proof.
  intros Hq Hl Hr HQ. unfold task_node_get. eapply with_node_spec; [exact Hq|done|]. mstep. unfold node_at. eapply runs_read; [apply lookup_insert_eq|]. mstep. mstep; [by apply Z.eqb_neq|].
  eapply upd_node_spec; [apply lookup_insert_eq|]. cbn [nodes set_nodes]. eexists. split; [apply lookup_insert_eq|]. rewrite !set_nodes_nodes, !insert_insert_eq, refs_again by done. exact HQ.
Qed.

Lemma task_node_put_spec s n q (Q : unit -> sched -> Prop) : nodes s !! n = Some q -> n_lock q = false -> 1 < n_refs q < 2 ^ 32 ->
  Q tt (set_nodes (<[n := set_n_refs (n_refs q - 1) q]> (nodes s)) s) -> runs (task_node_put n) s Q.
Proof.
  intros Hq Hl Hr HQ. unfold task_node_put. eapply with_node_spec; [exact Hq|done|]. mstep. unfold node_at. eapply runs_read; [apply lookup_insert_eq|]. mstep. mstep; [cbn; apply Z.eqb_neq; lia|].
  mstep. eapply upd_node_spec; [apply lookup_insert_eq|]. mstep. eapply runs_read; [cbn [nodes set_nodes]; apply lookup_insert_eq|]. cbn [n_refs set_n_refs set_n_lock]. rewrite uwrap_small by lia.
  rewrite (proj2 (Z.eqb_neq _ 0)) by lia. mstep. cbn [nodes set_nodes]. eexists. split; [apply lookup_insert_eq|]. rewrite !set_nodes_nodes, !insert_insert_eq, refs_again by done. exact HQ.
Qed.

Lemma upd_pgroup_spec s g gr f (Q : unit -> sched -> Prop) : pgroups s !! g = Some gr -> Q tt (set_pgroups (<[g := f gr]> (pgroups s)) s) -> runs (upd_pgroup g f) s Q.
Proof. intros Hg HQ. unfold upd_pgroup, pgroup_at. mstep. eapply runs_read; [exact Hg|]. by mstep. Qed.

Lemma pgroup_at_spec s g gr (Q : group -> sched -> Prop) : pgroups s !! g = Some gr -> Q gr s -> runs (pgroup_at g) s Q.
Proof. intros Hg HQ. unfold pgroup_at. by eapply runs_read. Qed.

Lemma node_at_spec s n q (Q : task_node -> sched -> Prop) : nodes s !! n = Some q -> Q q s -> runs (node_at n) s Q.
Proof. intros Hq HQ. unfold node_at. by eapply runs_read. Qed.

(** A section under a group's lock that gives the group the members [l]. *)
Lemma with_pgroup_members s g gr l (m : group -> M sched unit) (Q : unit -> sched -> Prop) : pgroups s !! g = Some gr -> g_lock gr = false ->
  (forall s1 (R : unit -> sched -> Prop), pgroups s1 !! g = Some (set_g_lock true gr) -> R tt (set_pgroups (<[g := set_g_members l (set_g_lock true gr)]> (pgroups s1)) s1) -> runs (m (set_g_lock true gr)) s1 R) ->
  Q tt (set_pgroups (<[g := set_g_members l gr]> (pgroups s)) s) -> runs (with_pgroup g (x ← pgroup_at g; m x)) s Q.
Proof.
  intros Hg Hl Hm HQ. unfold with_pgroup. mstep. eapply pgroup_at_spec; [exact Hg|]. rewrite Hl. mstep. eapply upd_pgroup_spec; [exact Hg|]. mstep. mstep. eapply pgroup_at_spec; [apply lookup_insert_eq|].
  eapply Hm; [apply lookup_insert_eq|]. mstep. eapply upd_pgroup_spec; [apply lookup_insert_eq|]. mstep. cbn [pgroups set_pgroups]. rewrite !set_pgroups_pgroups, !insert_insert_eq.
  replace (set_g_lock false (set_g_members l (set_g_lock true gr))) with (set_g_members l gr); [exact HQ|]. destruct gr. cbn in *. by subst.
Qed.

(** Taking a task out of its group: one reference less on the group's leader. *)
Lemma pgroup_rm_spec s n q gr ql (Q : unit -> sched -> Prop) : nodes s !! n = Some q -> pgroups s !! n_pgroup q = Some gr -> g_lock gr = false -> nodes s !! g_leader gr = Some ql -> n_lock ql = false -> 1 < n_refs ql < 2 ^ 32 ->
  Q tt (set_nodes (<[g_leader gr := set_n_refs (n_refs ql - 1) ql]> (nodes s)) (set_pgroups (<[n_pgroup q := set_g_members (seq_rm n (g_members gr)) gr]> (pgroups s)) s)) ->
  runs (pgroup_rm n) s Q.
Proof.
  intros Hq Hg Hgl Hl Hll Hr HQ. unfold pgroup_rm. mstep. eapply node_at_spec; [exact Hq|]. mstep. eapply (with_pgroup_members s _ gr (seq_rm n (g_members gr))); [exact Hg|done| |].
  - intros s1 R Hs1 HR. eapply upd_pgroup_spec; [exact Hs1|]. exact HR.
  - mstep. eapply pgroup_at_spec; [apply lookup_insert_eq|]. cbn [g_leader set_g_members]. eapply (task_node_put_spec _ _ ql); [exact Hl|done|done|exact HQ].
Qed.

(** Putting a task into a group: one reference more on the group's leader. *)
Lemma pgroup_add_spec s n q pg gr ql (Q : unit -> sched -> Prop) : nodes s !! n = Some q -> pgroups s !! pg = Some gr -> g_lock gr = false -> n ∉ g_members gr -> nodes s !! g_leader gr = Some ql -> n_lock ql = false -> 0 < n_refs ql < 2 ^ 32 - 1 ->
  (forall q', <[g_leader gr := set_n_refs (n_refs ql + 1) ql]> (nodes s) !! n = Some q' ->
    Q tt (set_pgroups (<[pg := set_g_members (n :: g_members gr) gr]> (pgroups s)) (set_nodes (<[n := set_n_pgroup pg q']> (<[g_leader gr := set_n_refs (n_refs ql + 1) ql]> (nodes s))) s))) ->
  runs (pgroup_add n pg) s Q.
Proof.
  intros Hq Hg Hgl Hn Hl Hll Hr HQ. unfold pgroup_add. mstep. eapply pgroup_at_spec; [exact Hg|]. mstep. eapply (task_node_get_spec s _ ql); [exact Hl|done|lia|]. rewrite uwrap_small by lia.
  assert (Hq' : exists q', <[g_leader gr := set_n_refs (n_refs ql + 1) ql]> (nodes s) !! n = Some q').
  { destruct (decide (g_leader gr = n)) as [<-|Hne]; [rewrite lookup_insert_eq; by eexists|rewrite lookup_insert_ne by done; by exists q]. }
  destruct Hq' as [q' Hq']. mstep. eapply (upd_node_spec _ n q'); [exact Hq'|]. cbn [nodes set_nodes]. rewrite set_nodes_nodes.
  eapply (with_pgroup_members _ _ gr (n :: g_members gr)); [exact Hg|done| |by apply HQ].
  intros s1 R Hs1 HR. mstep. eapply runs_read; [unfold seq_add; by rewrite bool_decide_false by done|]. eapply upd_pgroup_spec; [exact Hs1|]. exact HR.
Qed.

(** ** Process groups

    A task is in one group; a group holds a reference on its leader for each member.  [ext n] counts the references on
    [n] from elsewhere, [lone] is a task that is being moved, [B] bounds the counts. *)

Definition tally (w : group -> Z) (m : gmap Z group) : Z := map_fold (fun _ g a => w g + a) 0 m.

(** The members of the groups led by [n]. *)
Definition led (n : Z) (m : gmap Z group) : Z := tally (fun g => if g_leader g =? n then Z.of_nat (length (g_members g)) else 0) m.

Lemma tally_new w m i x : m !! i = None -> tally w (<[i := x]> m) = w x + tally w m.
Proof. intros Hi. unfold tally. rewrite map_fold_insert_L; [done| |done]. intros. lia. Qed.

Lemma tally_upd w m i x y : m !! i = Some x -> tally w (<[i := y]> m) = tally w m - w x + w y.
Proof.
  intros Hi. rewrite <- (insert_delete_id m i x) at 2 by done. rewrite <- insert_delete_eq, !tally_new by apply lookup_delete_eq. lia.
Qed.

Lemma led_nonneg n m : 0 <= led n m.
Proof.
  unfold led, tally. apply (map_fold_weak_ind (fun a _ => 0 <= a)); [done|]. intros i x m' r _ Hr. destruct (_ =? _); lia.
Qed.

Record groups_ok (ext : Z -> Z) (lone : option Z) (B : Z) (s : sched) : Prop := GroupsOk {
  gk_lock : pgroup_lock s = false;
  gk_list : forall g, g ∈ pgroup_list s <-> is_Some (pgroups s !! g);
  gk_pos : 0 < fresh (fd s);
  gk_fresh : forall g, is_Some (pgroups s !! g) -> 0 < g < fresh (fd s);
  gk_node : forall n q, nodes s !! n = Some q -> n_lock q = false /\ 0 < ext n /\ n_refs q = ext n + led n (pgroups s) /\ n_refs q <= B;
  gk_in : forall n q, nodes s !! n = Some q -> Some n <> lone -> exists gr, pgroups s !! n_pgroup q = Some gr /\ n ∈ g_members gr;
  gk_group : forall g gr, pgroups s !! g = Some gr -> g_lock gr = false /\ is_Some (nodes s !! g_leader gr) /\ NoDup (g_members gr);
  gk_member : forall g gr n, pgroups s !! g = Some gr -> n ∈ g_members gr -> Some n <> lone /\ exists q, nodes s !! n = Some q /\ n_pgroup q = g;
}.

Definition bump (n d : Z) (ext : Z -> Z) : Z -> Z := <[n := ext n + d]> ext.

Lemma gk_refs ext lone B s n q d : groups_ok ext lone B s -> nodes s !! n = Some q -> 0 < ext n + d -> d <= 1 ->
  groups_ok (bump n d ext) lone (B + Z.max 0 d) (set_nodes (<[n := set_n_refs (n_refs q + d) q]> (nodes s)) s).
Proof.
  intros [Hl Hli H0 Hf Hn Hin Hg Hm] Hq Hd Hd1. pose proof (Hn _ _ Hq) as (Hql & He & Hr & Hb). split; cbn [pgroup_lock pgroup_list pgroups fd nodes set_nodes]; [done..| | | |].
  - intros n' q' H. unfold bump. destruct (decide (n' = n)) as [->|Hne].
    + rewrite lookup_insert_eq in H. injection H as <-. rewrite fn_insert_eq. cbn. split; [done|]. lia.
    + rewrite lookup_insert_ne in H by done. rewrite fn_insert_ne by done. destruct (Hn _ _ H) as (? & ? & ? & ?). repeat split; try done. lia.
  - intros n' q' H Hne'. destruct (decide (n' = n)) as [->|Hne].
    + rewrite lookup_insert_eq in H. injection H as <-. exact (Hin _ _ Hq Hne').
    + rewrite lookup_insert_ne in H by done. by apply Hin.
  - intros g gr H. destruct (Hg _ _ H) as (? & ? & ?). split; [done|]. split; [|done]. by apply lookup_insert_is_Some'; right.
  - intros g gr n' H Hn'. destruct (Hm _ _ _ H Hn') as (Hne & q' & Hq' & Hp). split; [done|]. destruct (decide (n' = n)) as [->|Hne2].
    + rewrite Hq in Hq'. injection Hq' as <-. rewrite lookup_insert_eq. by eexists.
    + rewrite lookup_insert_ne by done. by exists q'.
Qed.

(** A task leaves its group. *)
Lemma gk_leave ext B s n q gr ql : groups_ok ext None B s -> nodes s !! n = Some q -> pgroups s !! n_pgroup q = Some gr -> nodes s !! g_leader gr = Some ql ->
  groups_ok ext (Some n) B
    (set_nodes (<[g_leader gr := set_n_refs (n_refs ql - 1) ql]> (nodes s)) (set_pgroups (<[n_pgroup q := set_g_members (seq_rm n (g_members gr)) gr]> (pgroups s)) s)).
Proof.
  intros [Hl Hli H0 Hf Hn Hin Hg Hm] Hq Hgr Hql. destruct (Hg _ _ Hgr) as (Hgl & _ & Hnd). assert (Hmem : n ∈ g_members gr).
  { destruct (Hin _ _ Hq) as (gr' & Hgr' & ?); [done|]. rewrite Hgr in Hgr'. by injection Hgr' as <-. }
  pose proof (length_seq_rm n _ Hnd Hmem) as Hlen.
  assert (Hled : forall m, led m (<[n_pgroup q := set_g_members (seq_rm n (g_members gr)) gr]> (pgroups s)) = led m (pgroups s) - (if m =? g_leader gr then 1 else 0)).
  { intros m. unfold led. rewrite (tally_upd _ _ _ gr) by done. cbn [g_leader g_members set_g_members]. rewrite (Z.eqb_sym m). destruct (_ =? _); lia. }
  split; cbn [pgroup_lock pgroup_list pgroups fd nodes set_nodes set_pgroups].
  - done.
  - intros g. rewrite Hli, lookup_insert_is_Some'. split; [by right|]. intros [<-|]; [by eexists|done].
  - done.
  - intros g [<-|]%lookup_insert_is_Some'; [|by apply Hf]. apply Hf. by eexists.
  - intros m p Hp. rewrite Hled. destruct (decide (m = g_leader gr)) as [->|Hne].
    + rewrite lookup_insert_eq in Hp. injection Hp as <-. rewrite Z.eqb_refl. destruct (Hn _ _ Hql) as (? & ? & ? & ?). cbn. repeat split; try done; lia.
    + rewrite lookup_insert_ne in Hp by done. rewrite (proj2 (Z.eqb_neq _ _) Hne). destruct (Hn _ _ Hp) as (? & ? & ? & ?). repeat split; try done; lia.
  - intros m p Hp Hne. assert (Hp' : exists p', nodes s !! m = Some p' /\ n_pgroup p' = n_pgroup p).
    { destruct (decide (m = g_leader gr)) as [->|Hne2]; [rewrite lookup_insert_eq in Hp; injection Hp as <-; by exists ql|rewrite lookup_insert_ne in Hp by done; by exists p]. }
    destruct Hp' as (p' & Hp' & <-). destruct (Hin _ _ Hp') as (gr' & Hgr' & Hm'); [done|]. destruct (decide (n_pgroup p' = n_pgroup q)) as [E|Hne2].
    + rewrite E in Hgr' |- *. rewrite Hgr in Hgr'. injection Hgr' as <-. rewrite lookup_insert_eq. eexists. split; [done|]. cbn. apply elem_of_seq_rm. split; [done|]. intros ->. done.
    + rewrite lookup_insert_ne by done. by exists gr'.
  - intros g gr' H. rewrite lookup_insert_is_Some'. destruct (decide (g = n_pgroup q)) as [->|Hne].
    + rewrite lookup_insert_eq in H. injection H as <-. cbn. split; [done|]. split; [by left|]. by apply NoDup_seq_rm.
    + rewrite lookup_insert_ne in H by done. destruct (Hg _ _ H) as (? & ? & ?). split; [done|]. split; [by right|done].
  - intros g gr' m H Hm'. assert (Hold : exists gr0, pgroups s !! g = Some gr0 /\ m ∈ g_members gr0 /\ m <> n).
    { destruct (decide (g = n_pgroup q)) as [->|Hne].
      - rewrite lookup_insert_eq in H. injection H as <-. cbn in Hm'. apply elem_of_seq_rm in Hm' as [? ?]. by exists gr.
      - rewrite lookup_insert_ne in H by done. exists gr'. repeat split; [done..|]. intros ->. destruct (Hm _ _ _ H Hm') as (_ & p & Hp & <-). rewrite Hq in Hp. by injection Hp as <-. }
    destruct Hold as (gr0 & Hg0 & Hm0 & Hne0). destruct (Hm _ _ _ Hg0 Hm0) as (_ & p & Hp & Hpg). split; [congruence|]. destruct (decide (m = g_leader gr)) as [->|Hne].
    + rewrite Hql in Hp. injection Hp as <-. rewrite lookup_insert_eq. by eexists.
    + rewrite lookup_insert_ne by done. by exists p.
Qed.

(** A task joins a group. *)
Lemma gk_join ext B s n q pg gr ql : groups_ok ext (Some n) B s -> pgroups s !! pg = Some gr -> nodes s !! g_leader gr = Some ql ->
  <[g_leader gr := set_n_refs (n_refs ql + 1) ql]> (nodes s) !! n = Some q ->
  groups_ok ext None (B + 1)
    (set_pgroups (<[pg := set_g_members (n :: g_members gr) gr]> (pgroups s)) (set_nodes (<[n := set_n_pgroup pg q]> (<[g_leader gr := set_n_refs (n_refs ql + 1) ql]> (nodes s))) s)).
Proof.
  intros [Hl Hli H0 Hf Hn Hin Hg Hm] Hgr Hql Hq. set (ns := <[g_leader gr := _]> (nodes s)) in *. destruct (Hg _ _ Hgr) as (Hgl & _ & Hnd).
  assert (Hout : forall g gr', pgroups s !! g = Some gr' -> n ∉ g_members gr') by (intros g gr' H Hn'; by destruct (Hm _ _ _ H Hn')).
  assert (Hled : forall m, led m (<[pg := set_g_members (n :: g_members gr) gr]> (pgroups s)) = led m (pgroups s) + (if m =? g_leader gr then 1 else 0)).
  { intros m. unfold led. rewrite (tally_upd _ _ _ gr) by done. cbn [g_leader g_members set_g_members length]. rewrite (Z.eqb_sym m). destruct (_ =? _); lia. }
  assert (Hns : forall m p, ns !! m = Some p -> n_lock p = false /\ 0 < ext m /\ n_refs p = ext m + led m (<[pg := set_g_members (n :: g_members gr) gr]> (pgroups s)) /\ n_refs p <= B + 1).
  { intros m p Hp. rewrite Hled. unfold ns in Hp. destruct (decide (m = g_leader gr)) as [->|Hne].
    - rewrite lookup_insert_eq in Hp. injection Hp as <-. rewrite Z.eqb_refl. destruct (Hn _ _ Hql) as (? & ? & ? & ?). cbn. repeat split; try done; lia.
    - rewrite lookup_insert_ne in Hp by done. rewrite (proj2 (Z.eqb_neq _ _) Hne). destruct (Hn _ _ Hp) as (? & ? & ? & ?). repeat split; try done; lia. }
  assert (Hold : forall m p, nodes s !! m = Some p -> exists p', ns !! m = Some p' /\ n_pgroup p' = n_pgroup p).
  { intros m p Hp. unfold ns. destruct (decide (m = g_leader gr)) as [->|Hne]; [|rewrite lookup_insert_ne by done; by exists p]. rewrite Hql in Hp. injection Hp as <-. rewrite lookup_insert_eq. by eexists. }
  assert (Hback : forall m p, ns !! m = Some p -> exists p', nodes s !! m = Some p' /\ n_pgroup p' = n_pgroup p).
  { intros m p. unfold ns. destruct (decide (m = g_leader gr)) as [->|Hne]; [rewrite lookup_insert_eq; intros [= <-]; by exists ql|rewrite lookup_insert_ne by done; by exists p]. }
  split; cbn [pgroup_lock pgroup_list pgroups fd nodes set_nodes set_pgroups].
  - done.
  - intros g. rewrite Hli, lookup_insert_is_Some'. split; [by right|]. intros [<-|]; [by eexists|done].
  - done.
  - intros g [<-|]%lookup_insert_is_Some'; [|by apply Hf]. apply Hf. by eexists.
  - intros m p Hp. destruct (decide (m = n)) as [->|Hne]; [rewrite lookup_insert_eq in Hp; injection Hp as <-; exact (Hns _ _ Hq)|]. rewrite lookup_insert_ne in Hp by done. by apply Hns.
  - intros m p Hp _. destruct (decide (m = n)) as [->|Hne].
    + rewrite lookup_insert_eq in Hp. injection Hp as <-. cbn. rewrite lookup_insert_eq. eexists. split; [done|]. cbn. by left.
    + rewrite lookup_insert_ne in Hp by done. destruct (Hback _ _ Hp) as (p' & Hp' & <-). destruct (Hin _ _ Hp') as (gr' & Hgr' & Hm'); [congruence|]. destruct (decide (n_pgroup p' = pg)) as [E|Hne2].
      * rewrite E in Hgr' |- *. rewrite Hgr in Hgr'. injection Hgr' as <-. rewrite lookup_insert_eq. eexists. split; [done|]. cbn. by right.
      * rewrite lookup_insert_ne by done. by exists gr'.
  - intros g gr' H. assert (Hlead : forall k, is_Some (nodes s !! k) -> is_Some (<[n := set_n_pgroup pg q]> ns !! k)).
    { intros k [p Hp]. apply lookup_insert_is_Some'. right. destruct (Hold _ _ Hp) as (? & ? & _). by eexists. }
    destruct (decide (g = pg)) as [->|Hne].
    + rewrite lookup_insert_eq in H. injection H as <-. cbn. split; [done|]. split; [apply Hlead; by eexists|]. constructor; [by eapply Hout|done].
    + rewrite lookup_insert_ne in H by done. destruct (Hg _ _ H) as (? & ? & ?). split; [done|]. split; [by apply Hlead|done].
  - intros g gr' m H Hm'. split; [done|]. destruct (decide (m = n)) as [->|Hne].
    + rewrite lookup_insert_eq. eexists. split; [done|]. cbn. destruct (decide (g = pg)) as [|Hne]; [done|]. rewrite lookup_insert_ne in H by done. by destruct (Hout _ _ H).
    + rewrite lookup_insert_ne by done. assert (Hm0 : exists gr0, pgroups s !! g = Some gr0 /\ m ∈ g_members gr0).
      { destruct (decide (g = pg)) as [->|Hne2]; [|rewrite lookup_insert_ne in H by done; by exists gr']. rewrite lookup_insert_eq in H. injection H as <-. exists gr. split; [done|]. cbn in Hm'. by apply elem_of_cons in Hm' as [|]. }
      destruct Hm0 as (gr0 & Hg0 & Hm0). destruct (Hm _ _ _ Hg0 Hm0) as (_ & p & Hp & <-). destruct (Hold _ _ Hp) as (p' & Hp' & E). by exists p'.
Qed.

(** A group without members makes no difference. *)
Lemma gk_create ext n B s : groups_ok ext (Some n) B s -> is_Some (nodes s !! n) ->
  groups_ok ext (Some n) B (set_pgroup_list (fresh (fd s) :: pgroup_list s) (set_pgroups (<[fresh (fd s) := Group false n []]> (pgroups s)) (set_fd (set_fresh (fresh (fd s) + 1) (fd s)) s))).
Proof.
  intros [Hl Hli H0 Hf Hn Hin Hg Hm] Hsn. set (k := fresh (fd s)) in *. assert (Hk : pgroups s !! k = None).
  { destruct (pgroups s !! k) as [gr|] eqn:E; [|done]. pose proof (Hf k (mk_is_Some _ _ E)). unfold k in *. lia. }
  split; cbn [pgroup_lock pgroup_list pgroups fd nodes set_fd set_pgroups set_pgroup_list fresh set_fresh].
  - done.
  - intros g. rewrite elem_of_cons, Hli, lookup_insert_is_Some'. split; intros [H|H]; auto.
  - lia.
  - intros g [<-|H]%lookup_insert_is_Some'; [lia|]. specialize (Hf _ H). unfold k in *. lia.
  - intros m p Hp. destruct (Hn _ _ Hp) as (? & ? & Hr & ?). repeat split; [done|done| |done]. rewrite Hr. unfold led. rewrite tally_new by done. cbn. destruct (_ =? _); lia.
  - intros m p Hp Hne. destruct (Hin _ _ Hp Hne) as (gr & Hgr & ?). exists gr. rewrite lookup_insert_ne by congruence. done.
  - intros g gr H. destruct (decide (g = k)) as [->|Hne]; [rewrite lookup_insert_eq in H; injection H as <-; cbn; repeat split; [done|constructor]|]. rewrite lookup_insert_ne in H by done. exact (Hg _ _ H).
  - intros g gr m H Hm'. destruct (decide (g = k)) as [->|Hne]; [rewrite lookup_insert_eq in H; injection H as <-; cbn in Hm'; by apply not_elem_of_nil in Hm'|]. rewrite lookup_insert_ne in H by done. by eapply Hm.
Qed.

Definition leader_has (s : sched) (p g : Z) : bool :=
  match pgroups s !! g with Some gr => match nodes s !! g_leader gr with Some q => n_pid q =? p | None => false end | None => false end.

(** The group [pgroup_find] finds. *)
Definition group_led_by (s : sched) (p : Z) : option Z := head (filter (fun g => leader_has s p g = true) (pgroup_list s)).

Lemma set_pgroups_id s g gr : pgroups s !! g = Some gr -> set_pgroups (<[g := gr]> (pgroups s)) s = s.
Proof. intros H. rewrite insert_id by done. by destruct s. Qed.

Lemma find_pgroup_spec ext lone B l p : forall s, groups_ok ext lone B s \/ (exists b s0, groups_ok ext lone B s0 /\ s = set_pgroup_lock b s0) -> (forall g, g ∈ l -> is_Some (pgroups s !! g)) ->
  runs (find_pgroup l p) s (fun r s' => r = head (filter (fun g => leader_has s p g = true) l) /\ s' = s).
Proof.
  induction l as [|g l IH]; intros s Hok Hl; cbn [find_pgroup]; [by mstep|]. destruct (Hl g) as [gr Hgr]; [by left|].
  assert (Hg : g_lock gr = false /\ is_Some (nodes s !! g_leader gr)) by (destruct Hok as [Hok|(b & s0 & Hok & ->)]; by destruct (gk_group _ _ _ _ Hok _ _ Hgr) as (? & ? & ?)).
  destruct Hg as [Hgl [q Hq]]. mstep. unfold with_pgroup. mstep. eapply pgroup_at_spec; [exact Hgr|]. rewrite Hgl. mstep. eapply upd_pgroup_spec; [exact Hgr|]. mstep. mstep.
  eapply pgroup_at_spec; [apply lookup_insert_eq|]. mstep. eapply node_at_spec; [exact Hq|]. mstep. mstep. eapply upd_pgroup_spec; [apply lookup_insert_eq|]. mstep. cbn [pgroups set_pgroups].
  rewrite set_pgroups_pgroups, insert_insert_eq. replace (set_g_lock false (set_g_lock true gr)) with gr by (destruct gr; cbn in *; by subst). rewrite set_pgroups_id by done.
  assert (Hb : leader_has s p g = (n_pid q =? p)) by (unfold leader_has; by rewrite Hgr, Hq). rewrite filter_cons. rewrite Hb. destruct (n_pid q =? p) eqn:E.
  - mstep. by rewrite decide_True.
  - rewrite decide_False by done. apply IH; [done|]. intros g' Hg'. apply Hl. by right.
Qed.

Lemma pgroup_find_spec ext lone B s p (Q : Z -> sched -> Prop) : groups_ok ext lone B s -> Q (default 0 (group_led_by s p)) s -> runs (pgroup_find p) s Q.
Proof.
  intros Hok HQ. unfold pgroup_find, with_pgroup_lock. apply runs_locked; [by rewrite (gk_lock _ _ _ _ Hok)|]. mstep. mstep. mstep. eapply runs_mono.
  - apply (find_pgroup_spec ext lone B); [right; by exists true, s|]. intros g Hg. by apply (gk_list _ _ _ _ Hok).
  - intros r s' [-> ->]. mstep. replace (set_pgroup_lock false (set_pgroup_lock true s)) with s; [exact HQ|]. pose proof (gk_lock _ _ _ _ Hok) as Hl. destruct s. cbn in *. by subst.
Qed.

(** What moving [n] leaves alone: all but reference counts, the groups and [n]'s own group. *)
Definition task_id (q : task_node) : task_node := set_n_pgroup 0 (set_n_refs 0 q).
Definition others (s : sched) : sched := set_nodes ∅ (set_pgroups ∅ (set_pgroup_list [] (set_fd (set_fresh 0 (fd s)) s))).
Definition kept (n : Z) (s s' : sched) : Prop :=
  others s' = others s /\ (forall m, task_id <$> nodes s' !! m = task_id <$> nodes s !! m) /\ forall m, m <> n -> n_pgroup <$> nodes s' !! m = n_pgroup <$> nodes s !! m.

Lemma kept_then n s1 s2 s3 : kept n s1 s2 -> kept n s2 s3 -> kept n s1 s3.
Proof. intros (A1 & A2 & A3) (B1 & B2 & B3). split; [by rewrite B1|]. split; [intros m; by rewrite B2|]. intros m Hm. by rewrite B3, A3. Qed.

Lemma kept_update n s s' m q q' : others s' = others s -> nodes s' = <[m := q']> (nodes s) -> nodes s !! m = Some q -> task_id q' = task_id q -> (m <> n -> n_pgroup q' = n_pgroup q) -> kept n s s'.
Proof.
  intros Ho Hn Hq Ht Hp. split; [done|]. rewrite Hn. split; intros k; destruct (decide (k = m)) as [->|Hne].
  1, 3: rewrite lookup_insert_eq, Hq; cbn; intros; by rewrite ?Ht, ?Hp.
  all: by rewrite lookup_insert_ne.
Qed.

Lemma kept_has n s s' m : kept n s s' -> is_Some (nodes s !! m) -> is_Some (nodes s' !! m).
Proof. intros (_ & H & _) [q Hq]. specialize (H m). rewrite Hq in H. destruct (nodes s' !! m); [by eexists|done]. Qed.

Lemma task_pid (o o' : option task_node) : task_id <$> o' = task_id <$> o -> n_pid <$> o' = n_pid <$> o.
Proof. destruct o as [q|], o' as [q'|]; cbn; try done. intros [= H]. destruct q, q'. cbn in *. congruence. Qed.

Lemma bump_bump n d e ext m : d + e = 0 -> bump n d (bump n e ext) m = ext m.
Proof. intros H. unfold bump. destruct (decide (m = n)) as [->|]; [rewrite !fn_insert_eq; lia|by rewrite !fn_insert_ne]. Qed.

Lemma groups_ok_ext ext ext' lone B s : (forall m, ext m = ext' m) -> groups_ok ext lone B s -> groups_ok ext' lone B s.
Proof. intros E [? ? ? ? Hn ? ? ?]. split; try done. intros n q Hq. rewrite <- E. by apply Hn. Qed.

Lemma groups_ok_mono ext lone B B' s : B <= B' -> groups_ok ext lone B s -> groups_ok ext lone B' s.
Proof. intros E [? ? ? ? Hn ? ? ?]. split; try done. intros n q Hq. destruct (Hn _ _ Hq) as (? & ? & ? & ?). repeat split; try done. lia. Qed.

Lemma get_ref ext lone B s n q : groups_ok ext lone B s -> nodes s !! n = Some q -> B + 1 < 2 ^ 32 ->
  runs (task_node_get n) s (fun _ s' => groups_ok (bump n 1 ext) lone (B + 1) s' /\ kept n s s' /\ pgroups s' = pgroups s /\ pgroup_list s' = pgroup_list s /\ n_pgroup <$> nodes s' !! n = Some (n_pgroup q)).
Proof.
  intros Hok Hq HB. destruct (gk_node _ _ _ _ Hok _ _ Hq) as (Hl & He & Hr & Hb). pose proof (led_nonneg n (pgroups s)). eapply task_node_get_spec; [done|done|lia|]. rewrite uwrap_small by lia. split; [|split; [|split; [done|]]].
  - replace (B + 1) with (B + Z.max 0 1) by lia. by apply gk_refs; [..|lia|lia].
  - by eapply kept_update.
  - split; [done|]. cbn. by rewrite lookup_insert_eq.
Qed.

Lemma put_ref ext lone B s n q : groups_ok ext lone B s -> nodes s !! n = Some q -> 1 < ext n -> B < 2 ^ 32 ->
  runs (task_node_put n) s (fun _ s' => groups_ok (bump n (-1) ext) lone B s' /\ kept n s s' /\ pgroups s' = pgroups s /\ pgroup_list s' = pgroup_list s /\ n_pgroup <$> nodes s' !! n = Some (n_pgroup q)).
Proof.
  intros Hok Hq He1 HB. destruct (gk_node _ _ _ _ Hok _ _ Hq) as (Hl & He & Hr & Hb). pose proof (led_nonneg n (pgroups s)). eapply task_node_put_spec; [done|done|lia|]. split; [|split; [|split; [done|]]].
  - replace B with (B + Z.max 0 (-1)) by lia. apply (gk_refs ext lone B s n q (-1)); [done|done|lia|lia].
  - by eapply kept_update.
  - split; [done|]. cbn. by rewrite lookup_insert_eq.
Qed.

Lemma leave_group ext B s n q : groups_ok ext None B s -> nodes s !! n = Some q -> B < 2 ^ 32 ->
  runs (pgroup_rm n) s (fun _ s' => groups_ok ext (Some n) B s' /\ kept n s s' /\ pgroup_list s' = pgroup_list s /\ (forall g, g_leader <$> pgroups s' !! g = g_leader <$> pgroups s !! g)).
Proof.
  intros Hok Hq HB. destruct (gk_in _ _ _ _ Hok _ _ Hq) as (gr & Hgr & Hmem); [done|]. destruct (gk_group _ _ _ _ Hok _ _ Hgr) as (Hgl & [ql Hql] & Hnd).
  destruct (gk_node _ _ _ _ Hok _ _ Hql) as (Hl & He & Hr & Hb).
  assert (Hled : 0 < led (g_leader gr) (pgroups s)).
  { unfold led. rewrite <- (insert_delete_id (pgroups s) (n_pgroup q) gr) by done. rewrite tally_new by apply lookup_delete_eq. rewrite Z.eqb_refl.
    pose proof (led_nonneg (g_leader gr) (delete (n_pgroup q) (pgroups s))) as H0. unfold led in H0. pose proof (length_seq_rm n _ Hnd Hmem). lia. }
  eapply pgroup_rm_spec; [done..|lia|]. split; [by apply gk_leave|]. split; [by eapply kept_update|]. split; [done|]. intros g. cbn. destruct (decide (g = n_pgroup q)) as [->|]; [by rewrite lookup_insert_eq, Hgr|by rewrite lookup_insert_ne].
Qed.

Lemma join_group ext B s n pg gr : groups_ok ext (Some n) B s -> is_Some (nodes s !! n) -> pgroups s !! pg = Some gr -> B + 1 < 2 ^ 32 ->
  runs (pgroup_add n pg) s (fun _ s' => groups_ok ext None (B + 1) s' /\ kept n s s' /\ pgroup_list s' = pgroup_list s /\ n_pgroup <$> nodes s' !! n = Some pg /\ pgroups s' !! pg = Some (set_g_members (n :: g_members gr) gr)).
Proof.
  intros Hok [q Hq] Hgr HB. destruct (gk_group _ _ _ _ Hok _ _ Hgr) as (Hgl & [ql Hql] & Hnd). destruct (gk_node _ _ _ _ Hok _ _ Hql) as (Hl & He & Hr & Hb). pose proof (led_nonneg (g_leader gr) (pgroups s)).
  eapply pgroup_add_spec; [done..| |done|done|lia|]. { intros Hn. by destruct (gk_member _ _ _ _ Hok _ _ _ Hgr Hn). }
  intros q' Hq'. split; [by apply gk_join|]. split; [|split; [done|]; cbn; by rewrite !lookup_insert_eq].
  eapply kept_then; [by eapply (kept_update n s (set_nodes (<[g_leader gr := set_n_refs (n_refs ql + 1) ql]> (nodes s)) s))|]. by eapply (kept_update n _ _ n q').
Qed.

Lemma set_pgroup_lock_false s : pgroup_lock s = false -> set_pgroup_lock false s = s.
Proof. destruct s. cbn. by intros ->. Qed.

Lemma create_group ext B s n : groups_ok ext (Some n) B s -> is_Some (nodes s !! n) -> B + 1 < 2 ^ 32 ->
  runs (pgroup_create n) s (fun _ s' => groups_ok ext None (B + 1) s' /\ kept n s s' /\ n_pgroup <$> nodes s' !! n = Some (fresh (fd s)) /\ pgroups s' !! fresh (fd s) = Some (Group false n [n])).
Proof.
  intros Hok Hn HB. set (k := fresh (fd s)). pose proof (gk_create _ _ _ _ Hok Hn) as Hok1. fold k in Hok1. set (s1 := set_pgroup_list _ _) in Hok1.
  destruct Hn as [q Hq]. destruct (gk_node _ _ _ _ Hok _ _ Hq) as (Hl & He & Hr & Hb). pose proof (led_nonneg n (pgroups s)). unfold pgroup_create. mstep. apply runs_lift. unfold new_address. msteps. fold k.
  apply runs_locked; [exact (f_equal Some (gk_lock _ _ _ _ Hok))|]. mstep. eapply (pgroup_add_spec _ n q k (Group false n []) q); [done|apply lookup_insert_eq|done|apply not_elem_of_nil|done|done|cbn; lia|]. intros q' Hq'. cbn in Hq'. rewrite lookup_insert_eq in Hq'. injection Hq' as <-.
  mstep. eapply runs_read. { cbn. unfold seq_add. rewrite bool_decide_false; [done|]. intros [gr Hgr]%(gk_list _ _ _ _ Hok). pose proof (gk_fresh _ _ _ _ Hok k (mk_is_Some _ _ Hgr)). unfold k in *. lia. }
  mstep. cbn [g_leader g_members nodes pgroups set_nodes set_pgroups set_pgroup_lock set_fd pgroup_list set_pgroup_list].
  pose proof (gk_join ext B s1 n (set_n_refs (n_refs q + 1) q) k (Group false n []) q Hok1 (lookup_insert_eq _ _ _) Hq (lookup_insert_eq _ _ _)) as Hok2.
  set (s2 := set_pgroups _ _) in Hok2. match goal with |- groups_ok _ _ _ ?s' /\ _ => replace s' with s2 end.
  2: { pose proof (gk_lock _ _ _ _ Hok) as Hlk. unfold s2, s1. destruct s. cbn in Hlk. subst. reflexivity. }
  split; [done|]. split; [|cbn; by rewrite !lookup_insert_eq].
  eapply (kept_update n s s2 n q (set_n_pgroup k (set_n_refs (n_refs q + 1) q))); [done| |done|done|done]. cbn. by rewrite insert_insert_eq.
Qed.

(** Where a task that asked for group [pgid] ends up, [q] being the task before. *)
Definition new_group (s s' : sched) (n : Z) (q : task_node) (pgid : Z) : Prop :=
  exists pg gr, n_pgroup <$> nodes s' !! n = Some pg /\ pgroups s' !! pg = Some gr /\ n ∈ g_members gr /\
    if (pgid =? 0) || (pgid =? n_pid q) then pgroups s !! pg = None /\ g_leader gr = n /\ g_members gr = [n]
    else group_led_by s pgid = Some pg /\ g_leader <$> pgroups s !! pg = Some (g_leader gr).

Lemma group_led_by_same n s s' p : kept n s s' -> pgroups s' = pgroups s -> pgroup_list s' = pgroup_list s -> group_led_by s' p = group_led_by s p.
Proof.
  intros (_ & Ht & _) Hp Hl. unfold group_led_by. rewrite Hl. f_equal. apply list_filter_iff. intros g. unfold leader_has. rewrite Hp. destruct (pgroups s !! g) as [gr|]; [|done].
  pose proof (task_pid _ _ (Ht (g_leader gr))) as H. destruct (nodes s' !! g_leader gr), (nodes s !! g_leader gr); cbn in H; try done. by injection H as ->.
Qed.

Lemma setpgid_spec c fuel s t me q ext B pid pgid : groups_ok ext None B s -> B + 2 < 2 ^ 32 -> threads s !! current s c = Some t -> t_node t = me -> nodes s !! me = Some q -> pid = 0 \/ pid = n_pid q -> 0 <= pid -> 0 <= pgid ->
  runs (sys_setpgid c fuel pid pgid) s (fun r s' => kept me s s' /\
    ((r = 0 /\ groups_ok ext None (B + 2) s' /\ new_group s s' me q pgid) \/
     (r = - EPERM /\ pgid <> 0 /\ pgid <> n_pid q /\ group_led_by s pgid = None /\ groups_ok (bump me 1 ext) None (B + 1) s' /\ pgroups s' = pgroups s))).
Proof.
  intros Hok HB Ht Hme Hq Hpid H0 H1. unfold sys_setpgid. rewrite (proj2 (Z.ltb_ge _ _) H0), (proj2 (Z.ltb_ge _ _) H1). cbn [orb]. unfold current_node. mstep. mstep. mstep. mstep. unfold thread_at. eapply runs_read; [exact Ht|]. mstep. rewrite Hme.
  mstep. eapply node_at_spec; [exact Hq|]. replace (negb (pid =? 0) && negb (pid =? n_pid q)) with false by (destruct Hpid as [->| ->]; rewrite ?Z.eqb_refl, ?andb_false_r; done).
  mstep. mstep. eapply runs_mono; [apply (get_ref _ _ _ _ _ _ Hok Hq); lia|]. intros [] s1 (Hok1 & K1 & P1 & L1 & G1). mstep.
  destruct (nodes s1 !! me) as [q1|] eqn:Hq1; [|done]. mstep. eapply node_at_spec; [exact Hq1|]. assert (Hp1 : n_pid q1 = n_pid q).
  { destruct K1 as (_ & Hk & _). specialize (Hk me). rewrite Hq1, Hq in Hk. apply (task_pid (Some q) (Some q1)) in Hk. by injection Hk. }
  rewrite Hp1. unfold new_group. destruct ((pgid =? 0) || (pgid =? n_pid q)) eqn:Hsel.
  - mstep. mstep. eapply runs_mono; [apply (leave_group _ _ _ _ _ Hok1 Hq1); lia|]. intros [] s2 (Hok2 & K2 & L2 & P2). mstep. eapply runs_mono; [eapply create_group; [exact Hok2|by eapply kept_has|lia]|].
    intros [] s3 (Hok3 & K3 & G3 & P3). mstep. mstep. destruct (nodes s3 !! me) as [q3|] eqn:Hq3; [|done].
    eapply runs_mono; [eapply put_ref; [exact Hok3|exact Hq3|unfold bump; rewrite fn_insert_eq; pose proof (gk_node _ _ _ _ Hok _ _ Hq); lia|lia]|]. intros [] s4 (Hok4 & K4 & P4 & L4 & G4). mstep.
    split; [by eapply kept_then; [exact K1|]; eapply kept_then; [exact K2|]; eapply kept_then|]. left. split; [done|]. split.
    { eapply groups_ok_mono; [|eapply groups_ok_ext; [|exact Hok4]]; [lia|]. intros m. by apply bump_bump. }
    exists (fresh (fd s2)), (Group false me [me]). rewrite P4. injection G3 as G3. split; [by rewrite G4, G3|]. split; [done|]. split; [by left|]. split; [|done].
    destruct (pgroups s !! fresh (fd s2)) as [gr|] eqn:E; [|done]. assert (is_Some (pgroups s2 !! fresh (fd s2))) as Hs2.
    { specialize (P2 (fresh (fd s2))). rewrite P1, E in P2. destruct (pgroups s2 !! fresh (fd s2)); [by eexists|done]. }
    pose proof (gk_fresh _ _ _ _ Hok2 _ Hs2). lia.
  - apply orb_false_iff in Hsel as [S1%Z.eqb_neq S2%Z.eqb_neq]. mstep. mstep. eapply pgroup_find_spec; [exact Hok1|]. rewrite (group_led_by_same me s s1) by done.
    assert (Hlead : forall g, g_leader <$> pgroups s1 !! g = g_leader <$> pgroups s !! g) by (intros g; by rewrite P1). destruct (group_led_by s pgid) as [pg|] eqn:Hf.
    + change (default 0 (Some pg)) with pg. assert (Hpg : is_Some (pgroups s1 !! pg)).
      { rewrite P1. apply (gk_list _ _ _ _ Hok). unfold group_led_by in Hf. apply head_Some_elem_of, list_elem_of_filter in Hf as [_ Hf]. done. }
      rewrite (proj2 (Z.eqb_neq pg 0)) by (pose proof (gk_fresh _ _ _ _ Hok1 _ Hpg); lia). mstep. eapply runs_mono; [apply (leave_group _ _ _ _ _ Hok1 Hq1); lia|]. intros [] s2 (Hok2 & K2 & L2 & P2).
      destruct Hpg as [gr1 Hgr1]. pose proof (P2 pg) as Hp2. rewrite Hgr1 in Hp2. destruct (pgroups s2 !! pg) as [gr2|] eqn:Hgr2; [|done]. injection Hp2 as Hp2.
      mstep. eapply runs_mono; [eapply join_group; [exact Hok2|by eapply kept_has|exact Hgr2|lia]|]. intros [] s3 (Hok3 & K3 & L3 & G3 & P3). mstep. mstep. destruct (nodes s3 !! me) as [q3|] eqn:Hq3; [|done].
      eapply runs_mono; [eapply put_ref; [exact Hok3|exact Hq3|unfold bump; rewrite fn_insert_eq; pose proof (gk_node _ _ _ _ Hok _ _ Hq); lia|lia]|]. intros [] s4 (Hok4 & K4 & P4 & L4 & G4). mstep.
      split; [by eapply kept_then; [exact K1|]; eapply kept_then; [exact K2|]; eapply kept_then|]. left. split; [done|]. split.
      { eapply groups_ok_mono; [|eapply groups_ok_ext; [|exact Hok4]]; [lia|]. intros m. by apply bump_bump. }
      exists pg, (set_g_members (me :: g_members gr2) gr2). rewrite P4. injection G3 as G3. split; [by rewrite G4, G3|]. split; [done|]. split; [by left|]. split; [done|]. rewrite <- Hlead, Hgr1. cbn. by rewrite Hp2.
    + change (default 0 None) with 0. cbn [Z.eqb]. mstep. mstep. split; [done|]. right. repeat (split; [done|]). done.
Qed.

(** ** Identity and waiting *)

Lemma my_node_spec c s t (Q : Z -> sched -> Prop) : threads s !! current s c = Some t -> t_lock t = false -> Q (t_node t) s -> runs (my_node c) s Q.
Proof.
  intros Ht Hl HQ. unfold my_node. mstep. mstep. unfold obtain_task_node. eapply with_thread_spec; [exact Ht|done|]. mstep. unfold thread_at. eapply runs_read; [cbn; apply lookup_insert_eq|]. mstep. cbn. eexists. split; [apply lookup_insert_eq|].
  rewrite insert_insert_eq. replace (set_t_lock false (set_t_lock true t)) with t by (destruct t; cbn in *; by subst). rewrite insert_id by done. by destruct s.
Qed.

Definition with_zombies (s : sched) (n : Z) (q : task_node) (l : list Z) : sched := set_nodes (<[n := set_n_zombies l q]> (nodes s)) s.

Lemma zombies_again q l : n_lock q = false -> set_n_lock false (set_n_zombies l (set_n_lock true q)) = set_n_zombies l q.
Proof. destruct q. cbn. by intros ->. Qed.

Lemma set_nodes_id s n q : nodes s !! n = Some q -> set_nodes (<[n := q]> (nodes s)) s = s.
Proof. intros H. rewrite insert_id by done. by destruct s. Qed.

Lemma reap_zombie_spec s n q (Q : Z -> sched -> Prop) : nodes s !! n = Some q -> n_lock q = false ->
  match n_zombies q with [] => Q 0 s | z :: l => Q z (with_zombies s n q l) end -> runs (reap_zombie n) s Q.
Proof.
  intros Hq Hl HQ. unfold reap_zombie. eapply with_node_spec; [exact Hq|done|]. mstep. eapply node_at_spec; [apply lookup_insert_eq|]. cbn [n_zombies set_n_lock]. destruct (n_zombies q) as [|z l].
  - mstep. eexists. cbn [nodes set_nodes]. split; [apply lookup_insert_eq|]. rewrite set_nodes_nodes, insert_insert_eq. replace (set_n_lock false (set_n_lock true q)) with q by (destruct q; cbn in *; by subst). by rewrite set_nodes_id.
  - mstep. eapply upd_node_spec; [apply lookup_insert_eq|]. mstep. eexists. cbn [nodes set_nodes]. split; [apply lookup_insert_eq|]. rewrite !set_nodes_nodes, !insert_insert_eq, zombies_again by done. exact HQ.
Qed.

(** C15: a [waitpid] for any child takes the task that most recently became a zombie off the caller's list, touches nothing else, and gives
    its pid and its exit code and cause; without one it answers 0 when asked not to wait and otherwise puts the thread to sleep. *)
Theorem waitpid_correct now c s t q options : threads s !! current s c = Some t -> t_lock t = false -> nodes s !! t_node t = Some q -> n_lock q = false ->
  match n_zombies q with
  | z :: l => forall zq, z <> 0 -> z <> t_node t -> nodes s !! z = Some zq ->
      sys_waitpid now c (-1) options s = Done (Some (n_pid zq, Some (MK_STATCODE (n_exit_code zq) (n_exit_cause zq))), with_zombies s (t_node t) q l)
  | [] => sys_waitpid now c (-1) options s = if has options WNOHANG then Done (Some (0, None), s) else (sched_suspend_pending_interrupt now c;; mret None) s
  end.
Proof.
  intros Ht Htl Hq Hl. destruct (n_zombies q) as [|z l] eqn:Hz.
  - unfold sys_waitpid. cbn [Z.eqb Pos.eqb]. apply runs_then. eapply my_node_spec; [done|done|]. apply runs_then. eapply reap_zombie_spec; [done|done|]. rewrite Hz. cbn [Z.eqb]. destruct (has options WNOHANG); [done|].
    assert (E : reap_zombie (t_node t) s = Done (0, s)) by (apply runs_eq; eapply reap_zombie_spec; [done|done|]; by rewrite Hz).
    unfold wait_for_condition, mbind, M_bind. rewrite E. cbn [mret M_ret Z.eqb]. by destruct (sched_suspend_pending_interrupt now c s) as [[[] s']| | |].
  - intros zq Hz0 Hne Hzq. apply runs_eq. unfold sys_waitpid. cbn [Z.eqb Pos.eqb]. mstep. eapply my_node_spec; [done|done|]. mstep. eapply reap_zombie_spec; [done|done|]. rewrite Hz. rewrite (proj2 (Z.eqb_neq z 0)) by done.
    unfold zombie_status. mstep. mstep. eapply node_at_spec; [cbn; by rewrite lookup_insert_ne|]. mstep. by mstep.
Qed.

(** ** Signals *)

(** [sigaction] exchanges one of the 32 actions and nothing else, rejects a number below 0 or above 32, and for 32 itself goes past the
    end of the table. *)
Theorem sigaction_correct c s t q sig a : threads s !! current s c = Some t -> t_lock t = false -> nodes s !! t_node t = Some q ->
  sys_sigaction c sig (Some a) true s =
    if (sig <? 0) || (NSIG <? sig) then Done ((- EINVAL, None), s)
    else if sig =? NSIG then Fault
    else Done ((0, Some (n_sigactions q sig)), set_nodes (<[t_node t := set_n_sigactions (<[sig := a]> (n_sigactions q)) q]> (nodes s)) s).
Proof.
  intros Ht Htl Hq. unfold sys_sigaction. rewrite Z.gtb_ltb. destruct ((sig <? 0) || (NSIG <? sig)) eqn:Hr; [done|]. apply orb_false_iff in Hr as [H0%Z.ltb_ge H1%Z.ltb_ge].
  assert (Eme : my_node c s = Done (t_node t, s)) by (apply runs_eq; by eapply my_node_spec).
  destruct (Z.eqb_spec sig NSIG) as [->|Hne].
  - unfold mbind, M_bind. rewrite Eme. unfold sigaction_get, node_at, read, mbind, M_bind. by rewrite Hq.
  - assert (Hin : (0 <=? sig) && (sig <? NSIG) = true) by (apply andb_true_iff; split; [apply Z.leb_le|apply Z.ltb_lt]; lia).
    assert (Eget : sigaction_get (t_node t) sig s = Done (n_sigactions q sig, s)) by (unfold sigaction_get, node_at, read, mbind, M_bind; by rewrite Hq, Hin).
    apply runs_eq. mstep. mstep. eapply runs_Done. eexists _, _. split; [exact Eme|]. mstep. eapply runs_Done. eexists _, _. split; [exact Eget|]. mstep. mstep. mstep. eapply runs_Done. eexists _, _. split; [exact Eme|].
    unfold sigaction_set. mstep. eapply runs_Done. eexists _, _. split; [exact Eget|]. eapply upd_node_spec; [exact Hq|]. by mstep.
Qed.

(** C14: asked for its own group a task leaves the old one and becomes leader and only member of a new one; asked for another's it joins the group with that leader, if
    there is one; the groups stay exact -- each task in the one it names, a leader's references counting the members -- and no other task
    is touched.  When there is no such group the task is left with a reference too many. *)
Theorem setpgid_correct c fuel s t me q ext B pid pgid : groups_ok ext None B s -> B + 2 < 2 ^ 32 -> threads s !! current s c = Some t -> t_node t = me -> nodes s !! me = Some q -> pid = 0 \/ pid = n_pid q -> 0 <= pid -> 0 <= pgid ->
  runs (sys_setpgid c fuel pid pgid) s (fun r s' => kept me s s' /\
    ((r = 0 /\ groups_ok ext None (B + 2) s' /\ new_group s s' me q pgid) \/
     (r = - EPERM /\ pgid <> 0 /\ pgid <> n_pid q /\ group_led_by s pgid = None /\ groups_ok (bump me 1 ext) None (B + 1) s' /\ pgroups s' = pgroups s))).
Proof. apply setpgid_spec. Qed.

(** ** A running system

    Task 3 is a member of group 20, which task 2 leads; task 4 is task 3's child and has exited with code 9. *)

Definition task1 (p par pg refs code : Z) (zs : list Z) : task_node :=
  TaskNode false refs p par 0 0 TASK_RUNNING code ECAUSE_RQST 0 default_sigactions 0 0 pg [] [] zs.

Definition sched1 : sched :=
  set_nodes (<[2 := task1 1 0 20 3 0 []]> (<[3 := task1 7 2 20 1 0 [4]]> (<[4 := task1 8 3 21 2 9 []]> ∅)))
    (set_pgroups (<[20 := Group false 2 [2; 3]]> (<[21 := Group false 4 [4]]> ∅)) (set_pgroup_list [20; 21] sched0)).

Lemma sched1_groups : groups_ok (fun _ => 1) None 3 sched1.
Proof.
  assert (Hns : forall n q, nodes sched1 !! n = Some q -> (n, q) ∈ [(2, task1 1 0 20 3 0 []); (3, task1 7 2 20 1 0 [4]); (4, task1 8 3 21 2 9 [])]).
  { intros n q. cbn [nodes sched1 set_nodes]. rewrite !lookup_insert_Some, lookup_empty, !elem_of_cons. naive_solver. }
  assert (Hgs : forall g gr, pgroups sched1 !! g = Some gr -> (g, gr) ∈ [(20, Group false 2 [2; 3]); (21, Group false 4 [4])]).
  { intros g gr. cbn [pgroups sched1 set_nodes set_pgroups]. rewrite !lookup_insert_Some, lookup_empty, !elem_of_cons. naive_solver. }
  split.
  - reflexivity.
  - intros g. change (pgroup_list sched1) with [20; 21]. rewrite !elem_of_cons, elem_of_nil. split.
    + intros [->|[->|[]]]; vm_compute; by eexists.
    + intros [gr H]. apply Hgs in H. rewrite !elem_of_cons, elem_of_nil in H. destruct H as [H|[H|[]]]; injection H as -> _; auto.
  - reflexivity.
  - intros g [gr H]. apply Hgs in H. rewrite !elem_of_cons, elem_of_nil in H. destruct H as [H|[H|[]]]; injection H as -> _; vm_compute; by split.
  - intros n q H. apply Hns in H. rewrite !elem_of_cons, elem_of_nil in H. destruct H as [H|[H|[H|[]]]]; injection H as -> ->; (split; [reflexivity|]); (split; [reflexivity|]); (split; [vm_compute; reflexivity|]); vm_compute; discriminate.
  - intros n q H _. apply Hns in H. rewrite !elem_of_cons, elem_of_nil in H. destruct H as [H|[H|[H|[]]]]; injection H as -> ->; (eexists; split; [vm_compute; reflexivity|]); cbn; set_solver.
  - intros g gr H. apply Hgs in H. rewrite !elem_of_cons, elem_of_nil in H. destruct H as [H|[H|[]]]; injection H as -> ->; (split; [reflexivity|]); (split; [vm_compute; by eexists|]); apply (bool_decide_unpack _); vm_compute; exact I.
  - intros g gr n H Hn. split; [discriminate|]. apply Hgs in H. rewrite !elem_of_cons, elem_of_nil in H. destruct H as [H|[H|[]]]; injection H as -> ->; cbn in Hn; rewrite ?elem_of_cons, elem_of_nil in Hn; destruct_or?; subst; try done; eexists; (split; [vm_compute; reflexivity|reflexivity]).
Qed.

Lemma setpgid_correct_witness : runs (sys_setpgid 0 5 0 0) sched1 (fun r s' => r = 0 /\ groups_ok (fun _ => 1) None 5 s').
Proof.
  eapply runs_mono; [eapply (setpgid_correct 0 5 sched1 _ 3 _ _ _ 0 0 sched1_groups); [reflexivity|vm_compute; reflexivity|reflexivity|vm_compute; reflexivity|left; reflexivity|discriminate|discriminate]|].
  intros r s' (_ & [(-> & H & _)|(_ & H & _)]); [by split|]. destruct (H eq_refl).
Defined.

Lemma waitpid_correct_witness : exists s', sys_waitpid 5 0 (-1) 0 sched1 = Done (Some (8, Some 0x900), s').
Proof.
  eexists. refine (waitpid_correct 5 0 sched1 (thread0 3 100 true THREAD_AWAKE) (task1 7 2 20 1 0 [4]) 0 _ _ _ _ (task1 8 3 21 2 9 []) _ _ _); first [reflexivity|discriminate].
Defined.

Lemma sigaction_correct_witness : sys_sigaction 0 32 (Some (Sigaction 0 0 1)) true sched1 = Fault.
Proof. refine (sigaction_correct 0 sched1 (thread0 3 100 true THREAD_AWAKE) (task1 7 2 20 1 0 [4]) 32 _ _ _ _); reflexivity. Defined.
