(* ===== verification/Net.v ===== *)
(** * Net: packets and their headers

    Models kernel/src/net/packet.c, kernel/src/net/ip/checksum.h and the header builders
    of ip.c, udp.c, icmp.c and tcp.c (with kernel/inc/net/packet.h,
    kernel/inc/net/ip/ip.h, udp.h, icmp.h, tcp.h).  A packed struct is a record with the
    bytes it occupies; a 16-bit load from a buffer takes two of its bytes, the low one
    first. *)

From S2P Require Import Prelude Words.

(** ** Bytes on the wire *)

Definition is_byte (b : Z) : Prop := 0 <= b < 256.
Definition is_word (w : Z) : Prop := 0 <= w < 2 ^ 16.

(** [uint16_t] loads from a buffer; a last odd byte is loaded alone, as the checksum
    loops do. *)
Fixpoint words16 (l : list Z) : list Z :=
  match l with
  | b0 :: b1 :: l' => (b0 + 256 * b1) :: words16 l'
  | [b0] => [b0]
  | [] => []
  end.

(** [for (...) sum += *ptr++] in a [uint32_t]. *)
Fixpoint sum_words (sum : Z) (l : list Z) : Z :=
  match l with
  | [] => sum
  | w :: l' => sum_words (u32 (sum + w)) l'
  end.

(** [while (sum >> 16) sum = (sum >> 16) + (sum & 0xFFFF)] *)
Fixpoint fold_sum (fuel : nat) (sum : Z) : option Z :=
  match fuel with
  | O => None
  | S fuel' =>
      if sum >>> 16 =? 0 then Some sum
      else fold_sum fuel' (u32 ((sum >>> 16) + Z.land sum 0xFFFF))
  end.

(** Two rounds bring any 32-bit sum below [2 ^ 16]. *)
Definition checksum_fuel : nat := 3.

Definition sum_to_checksum (sum : Z) : option Z :=
  s ← fold_sum checksum_fuel sum; Some (u16 (Z.lnot s)).

(** ** Structures *)

Record ip := Ip { ip0 : Z; ip1 : Z; ip2 : Z; ip3 : Z }.
Record mac := Mac { mac0 : Z; mac1 : Z; mac2 : Z; mac3 : Z; mac4 : Z; mac5 : Z }.

#[global] Instance ip_eq_dec : EqDecision ip.
Proof. solve_decision. Defined.
#[global] Instance mac_eq_dec : EqDecision mac.
Proof. solve_decision. Defined.

Definition ip_addr_bytes (i : ip) : list Z := [ip0 i; ip1 i; ip2 i; ip3 i].
Definition IP_BROADCAST : ip := Ip 0xFF 0xFF 0xFF 0xFF.
Definition IP_NONE : ip := Ip 0 0 0 0.

Definition IP_V4 : Z := 4.
Definition IP_PROT_ICMP : Z := 0x01.
Definition IP_PROT_TCP : Z := 0x06.
Definition IP_PROT_UDP : Z := 0x11.
Definition IP_FLAG_DONT_FRAG : Z := 1 <<< 6.
Definition IP_VERSION (x : Z) : Z := Z.land x 0xF0 >>> 4.
Definition IP_IHL (x : Z) : Z := Z.land x 0x0F.

Record ip_header := IpHeader {
  version_ihl : Z;
  dscp_ecn : Z;
  total_length : Z;
  ident : Z;
  flags_frag_off : Z;
  ttl : Z;
  protocol : Z;
  ip_checksum : Z;
  ip_src : ip;
  ip_dst : ip;
}.

Definition ip_bytes (h : ip_header) : list Z :=
  [version_ihl h; dscp_ecn h] ++ le_bytes 2 (total_length h) ++ le_bytes 2 (ident h) ++ le_bytes 2 (flags_frag_off h) ++
  [ttl h; protocol h] ++ le_bytes 2 (ip_checksum h) ++ ip_addr_bytes (ip_src h) ++ ip_addr_bytes (ip_dst h).

Record udp_header := UdpHeader { udp_src_port : Z; udp_dst_port : Z; udp_length : Z; udp_checksum : Z }.

Definition udp_bytes (h : udp_header) : list Z :=
  le_bytes 2 (udp_src_port h) ++ le_bytes 2 (udp_dst_port h) ++ le_bytes 2 (udp_length h) ++ le_bytes 2 (udp_checksum h).

Record icmp_header := IcmpHeader { icmp_type : Z; icmp_code : Z; icmp_checksum : Z; icmp_other : Z }.

Definition icmp_bytes (h : icmp_header) : list Z :=
  [icmp_type h; icmp_code h] ++ le_bytes 2 (icmp_checksum h) ++ le_bytes 4 (icmp_other h).

Definition ICMP_TYPE_ECHO_REQUEST : Z := 8.
Definition ICMP_TYPE_ECHO_REPLY : Z := 0.
Definition ICMP_CODE_ECHO_REQUEST : Z := 0.
Definition ICMP_CODE_ECHO_REPLY : Z := 0.

Definition TCP_DATA_OFF (x : Z) : Z := Z.land x 0x00F0 >>> 4.
Definition TCP_FLAG_ACK : Z := 1 <<< 12.
Definition TCP_FLAG_RST : Z := 1 <<< 10.
Definition TCP_FLAG_SYN : Z := 1 <<< 9.
Definition TCP_FLAG_FIN : Z := 1 <<< 8.

Record tcp_header := TcpHeader {
  tcp_src_port : Z;
  tcp_dst_port : Z;
  seq_num : Z;
  ack_num : Z;
  data_off_flags : Z;
  window_size : Z;
  tcp_checksum : Z;
  urgent : Z;
}.

Definition tcp_bytes (h : tcp_header) : list Z :=
  le_bytes 2 (tcp_src_port h) ++ le_bytes 2 (tcp_dst_port h) ++ le_bytes 4 (seq_num h) ++ le_bytes 4 (ack_num h) ++
  le_bytes 2 (data_off_flags h) ++ le_bytes 2 (window_size h) ++ le_bytes 2 (tcp_checksum h) ++ le_bytes 2 (urgent h).

Record eth_header := EthHeader { eth_dst : mac; eth_src : mac; eth_type : Z }.

Definition mac_bytes (m : mac) : list Z := [mac0 m; mac1 m; mac2 m; mac3 m; mac4 m; mac5 m].
Definition eth_bytes (h : eth_header) : list Z := mac_bytes (eth_dst h) ++ mac_bytes (eth_src h) ++ le_bytes 2 (eth_type h).

Record arp_header := ArpHeader {
  htype : Z;
  ptype : Z;
  hlen : Z;
  plen : Z;
  op : Z;
  sender_mac : mac;
  sender_ip : ip;
  target_mac : mac;
  target_ip : ip;
}.

Definition arp_bytes (h : arp_header) : list Z :=
  le_bytes 2 (htype h) ++ le_bytes 2 (ptype h) ++ [hlen h; plen h] ++ le_bytes 2 (op h) ++
  mac_bytes (sender_mac h) ++ ip_addr_bytes (sender_ip h) ++ mac_bytes (target_mac h) ++ ip_addr_bytes (target_ip h).

Inductive tran_header := TranNone | TranUdp (h : udp_header) | TranIcmp (h : icmp_header) | TranTcp (h : tcp_header).
Inductive net_header := NetNone | NetIp (h : ip_header) | NetArp (h : arp_header).
Inductive sock_addr := AddrNone | AddrInet (i : ip) | AddrLink (m : mac).

Definition tran_bytes (t : tran_header) : list Z :=
  match t with TranNone => [] | TranUdp h => udp_bytes h | TranIcmp h => icmp_bytes h | TranTcp h => tcp_bytes h end.
Definition net_bytes (n : net_header) : list Z :=
  match n with NetNone => [] | NetIp h => ip_bytes h | NetArp h => arp_bytes h end.
Definition link_bytes (l : option eth_header) : list Z := match l with None => [] | Some h => eth_bytes h end.

(** [tran.size], [net.size], [link.size]. *)
Definition size_of (l : list Z) : Z := Z.of_nat (length l).

Inductive packet_result := PRESULT_SUCCESS | PRESULT_UNKNOWNHOST.
Inductive packet_state := PSTATE_UNRESOLVED | PSTATE_RESOLVED.

#[global] Instance packet_result_eq_dec : EqDecision packet_result.
Proof. solve_decision. Defined.
#[global] Instance packet_state_eq_dec : EqDecision packet_state.
Proof. solve_decision. Defined.

(** [cb] names the callback and its argument (0: none). *)
Record packet := Packet {
  p_result : packet_result;
  p_state : packet_state;
  p_cb : Z;
  p_protocol : Z;
  p_rsrc : sock_addr;
  p_rdst : sock_addr;
  p_link : option eth_header;
  p_net : net_header;
  p_tran : tran_header;
  p_payload : list Z;
}.

(** ** Building packets *)

(** The length is a [uint16_t]: longer payloads are cut. *)
Definition packet_create (cb : Z) (payload : list Z) (len : Z) : packet :=
  Packet PRESULT_SUCCESS PSTATE_UNRESOLVED cb 0 AddrNone AddrNone None NetNone TranNone (take (Z.to_nat (u16 len)) payload).

Definition ETH_TYPE_IP : Z := 0x0800.
Definition ETH_TYPE_ARP : Z := 0x0806.

Definition with_ip_checksum (c : Z) (h : ip_header) : ip_header :=
  IpHeader (version_ihl h) (dscp_ecn h) (total_length h) (ident h) (flags_frag_off h) (ttl h) (protocol h) c (ip_src h) (ip_dst h).

(** [my] is the address of the packet's interface. *)
Definition ip_build (my : ip) (p : packet) (prot : Z) (dst : ip) : option packet :=
  let hdr := IpHeader (u8 (Z.lor (IP_V4 <<< 4) 5)) 0
    (swap_uint16 (u16 (20 + size_of (tran_bytes (p_tran p)) + size_of (p_payload p)))) 0 IP_FLAG_DONT_FRAG 0x40 prot 0 my dst in
  c ← sum_to_checksum (sum_words 0 (words16 (ip_bytes hdr)));
  Some (Packet (p_result p) PSTATE_UNRESOLVED (p_cb p) ETH_TYPE_IP (AddrInet my) (AddrInet dst) (p_link p)
    (NetIp (with_ip_checksum c hdr)) (p_tran p) (p_payload p)).

Definition set_tran (t : tran_header) (p : packet) : packet :=
  Packet (p_result p) (p_state p) (p_cb p) (p_protocol p) (p_rsrc p) (p_rdst p) (p_link p) (p_net p) t (p_payload p).

(** The words both transport checksums start with: addresses, protocol, length. *)
Definition pseudo_words (my dst : ip) (prot len : Z) : list Z :=
  words16 (ip_addr_bytes my) ++ words16 (ip_addr_bytes dst) ++ [swap_uint16 prot; swap_uint16 (u16 len)].

Definition udp_build (my : ip) (p : packet) (dst : ip) (src_port_net dst_port_net : Z) : option packet :=
  let len := 8 + size_of (p_payload p) in
  let hdr_len := swap_uint16 (u16 len) in
  let sum := sum_words 0 (pseudo_words my dst IP_PROT_UDP len ++ [src_port_net; dst_port_net; hdr_len] ++ words16 (p_payload p)) in
  c ← sum_to_checksum sum;
  ip_build my (set_tran (TranUdp (UdpHeader src_port_net dst_port_net hdr_len c)) p) IP_PROT_UDP dst.

(** The two bytes are added one by one and [other] as one 32-bit number. *)
Definition icmp_build (my : ip) (p : packet) (type code other : Z) (dst : ip) : option packet :=
  let sum := sum_words 0 ([type; code; other] ++ words16 (p_payload p)) in
  c ← sum_to_checksum sum;
  ip_build my (set_tran (TranIcmp (IcmpHeader type code c other)) p) IP_PROT_ICMP dst.

Definition tcp_build (my : ip) (p : packet) (dst : ip) (seq ack flags window urg src_port_net dst_port_net : Z) : option packet :=
  let dof := u16 (Z.lor (Z.land 5 0x000F <<< 4) flags) in
  let win := swap_uint16 window in
  let urg' := swap_uint16 urg in
  let sum := sum_words 0 (pseudo_words my dst IP_PROT_TCP (20 + size_of (p_payload p)) ++
    [src_port_net; dst_port_net] ++ words16 (le_bytes 4 seq) ++ words16 (le_bytes 4 ack) ++ [dof; win; urg'] ++ words16 (p_payload p)) in
  c ← sum_to_checksum sum;
  ip_build my (set_tran (TranTcp (TcpHeader src_port_net dst_port_net seq ack dof win c urg')) p) IP_PROT_TCP dst.

(** [junk] is what the buffer held; the padding is [60 - minimum_size] zero bytes, not
    the bytes that are missing. *)
Definition packet_expand (junk : list Z) (p : packet) (minimum_size : Z) : list Z * Z :=
  let data := link_bytes (p_link p) ++ net_bytes (p_net p) ++ tran_bytes (p_tran p) ++ p_payload p in
  let len := u16 (size_of data) in
  if len <? minimum_size then
    let zeros := replicate (Z.to_nat (u32 (60 - minimum_size))) 0 in
    (data ++ zeros ++ drop (length data + length zeros) junk, u16 minimum_size)
  else (data ++ drop (length data) junk, len).

(** ** Checksums *)

(** The Internet checksum of a message is right when the one's-complement sum of its
    words, checksum included, is all ones. *)
Definition verifies (l : list Z) : Prop := fold_sum checksum_fuel (sum_words 0 l) = Some 0xFFFF.

(** Folding terminates; it keeps the sum modulo [0xFFFF] and keeps it from becoming 0. *)
Lemma fold_sum_spec sum : 0 <= sum < 2 ^ 32 ->
  exists r, fold_sum checksum_fuel sum = Some r /\ 0 <= r < 2 ^ 16 /\ r mod 65535 = sum mod 65535 /\ (r = 0 <-> sum = 0).
Proof.
  assert (Hstep : forall s, 0 <= s < 2 ^ 32 -> u32 ((s >>> 16) + Z.land s 0xFFFF) = s / 2 ^ 16 + s mod 2 ^ 16).
  { intros s Hs. rewrite Z.shiftr_div_pow2 by lia. change 0xFFFF with (Z.ones 16). rewrite Z.land_ones by lia.
    apply uwrap_small. pose proof (Z.mod_pos_bound s (2 ^ 16)). assert (0 <= s / 2 ^ 16 < 2 ^ 16) by (split; [apply Z.div_pos; lia|apply Z.div_lt_upper_bound; lia]). lia. }
  assert (Hz : forall s, 0 <= s -> (s >>> 16 =? 0) = (s <? 2 ^ 16)).
  { intros s Hs. rewrite Z.shiftr_div_pow2 by lia. destruct (Z.ltb_spec s (2 ^ 16)); [rewrite Z.div_small by lia; done|].
    apply Z.eqb_neq. assert (1 <= s / 2 ^ 16) by (apply Z.div_le_lower_bound; lia). lia. }
  assert (Hmod : forall s, (s / 2 ^ 16 + s mod 2 ^ 16) mod 65535 = s mod 65535).
  { intros s. rewrite (Z.div_mod s (2 ^ 16)) at 3 by lia. replace (2 ^ 16 * (s / 2 ^ 16) + s mod 2 ^ 16) with (s / 2 ^ 16 + s mod 2 ^ 16 + s / 2 ^ 16 * 65535) by lia.
    by rewrite Z.mod_add. }
  intros Hs. unfold checksum_fuel. cbn [fold_sum]. rewrite Hz by lia. destruct (Z.ltb_spec sum (2 ^ 16)) as [|H0]; [exists sum; repeat split; lia|].
  rewrite Hstep by lia. set (a := sum / 2 ^ 16 + sum mod 2 ^ 16).
  assert (Ha : 1 <= a <= 131070).
  { pose proof (Z.mod_pos_bound sum (2 ^ 16)). assert (1 <= sum / 2 ^ 16 < 2 ^ 16) by (split; [apply Z.div_le_lower_bound; lia|apply Z.div_lt_upper_bound; lia]). lia. }
  rewrite Hz by lia. destruct (Z.ltb_spec a (2 ^ 16)) as [|H1]; [exists a; split; [done|]; split; [lia|]; split; [apply Hmod|lia]|].
  rewrite Hstep by lia. set (b := a / 2 ^ 16 + a mod 2 ^ 16).
  assert (Hb : 1 <= b < 2 ^ 16).
  { assert (a / 2 ^ 16 = 1) as E by (symmetry; apply (Z.div_unique a (2 ^ 16) 1 (a - 2 ^ 16)); lia). unfold b. rewrite E, Z.mod_eq, E by lia. lia. }
  rewrite Hz by lia. destruct (Z.ltb_spec b (2 ^ 16)); [|lia]. exists b. split; [done|]. split; [lia|]. split; [|lia].
  unfold b, a. by rewrite !Hmod.
Qed.

(** The checksum complements the sum, whatever it is. *)
Lemma sum_to_checksum_spec sum : 0 <= sum < 2 ^ 32 - 2 ^ 16 ->
  exists c, sum_to_checksum sum = Some c /\ is_word c /\ fold_sum checksum_fuel (sum + c) = Some 0xFFFF.
Proof.
  intros Hs. destruct (fold_sum_spec sum) as (r & Hr & Hrange & Hmod & Hzero); [lia|]. unfold sum_to_checksum. rewrite Hr. cbn [mbind option_bind].
  assert (Ec : u16 (Z.lnot r) = 65535 - r).
  { unfold uwrap, Z.lnot. symmetry. apply (Z.mod_unique _ _ (-1)); lia. }
  rewrite Ec. exists (65535 - r). split; [done|]. unfold is_word. split; [lia|].
  destruct (fold_sum_spec (sum + (65535 - r))) as (q & -> & Hq & Hqm & Hqz); [lia|]. f_equal.
  assert (q mod 65535 = 0).
  { rewrite Hqm, Z.add_mod, <- Hmod, <- Z.add_mod by lia. replace (r + (65535 - r)) with (1 * 65535) by lia. apply Z.mod_mul. lia. }
  assert (q <> 0) by lia. apply Z.mod_divide in H as [k Hk]; lia.
Qed.

(** *** Sums of words *)

Definition total (l : list Z) : Z := foldr Z.add 0 l.

Lemma total_app l1 l2 : total (l1 ++ l2) = total l1 + total l2.
Proof. unfold total. induction l1 as [|x l1 IH]; cbn; [done|]. rewrite IH. lia. Qed.

Lemma total_bound l : Forall is_word l -> 0 <= total l <= 65535 * Z.of_nat (length l).
Proof. unfold is_word. induction 1 as [|x l Hx _ IH]; cbn [total foldr length]; [lia|]. unfold total in IH. lia. Qed.

Lemma sum_words_total l : forall s, 0 <= s -> Forall is_word l -> s + total l < 2 ^ 32 -> sum_words s l = s + total l.
Proof.
  induction l as [|x l IH]; intros s Hs Hl Hb; cbn [sum_words total foldr]; [lia|]. apply Forall_cons in Hl as [Hx Hl].
  pose proof (total_bound l Hl) as Hr. unfold total in *. cbn [foldr] in Hb. unfold is_word in Hx. rewrite uwrap_small by lia. rewrite IH; [lia|lia|done|lia].
Qed.

Lemma words16_words l : Forall is_byte l -> Forall is_word (words16 l).
Proof.
  revert l. fix IH 1. intros [|b0 [|b1 l]] Hl; cbn [words16]; [done| |].
  - apply Forall_cons in Hl as [H0 _]. apply Forall_singleton. unfold is_byte, is_word in *. lia.
  - apply Forall_cons in Hl as [H0 Hl]. apply Forall_cons in Hl as [H1 Hl]. apply Forall_cons. split; [unfold is_byte, is_word in *; lia|by apply IH].
Qed.
Lemma words16_length l : (2 * length (words16 l) <= length l + 1)%nat.
Proof. revert l. fix IH 1. intros [|b0 [|b1 l]]; cbn [words16 length]; [lia|lia|]. specialize (IH l). lia. Qed.
Lemma words16_app l1 : forall l2, Nat.even (length l1) = true -> words16 (l1 ++ l2) = words16 l1 ++ words16 l2.
Proof. revert l1. fix IH 1. intros [|b0 [|b1 l1]] l2 He; cbn [words16 length app] in *; [done|done|]. f_equal. apply IH. exact He. Qed.
Lemma words16_le2 w : is_word w -> words16 (le_bytes 2 w) = [w].
Proof.
  intros Hw. pose proof (of_le_bytes_le_bytes 2 w) as H. unfold is_word in Hw. rewrite Z.mod_small in H by (cbn; lia).
  cbn in H |- *. f_equal. rewrite <- H at 3. lia.
Qed.

(** Filling in the checksum field makes the message verify. *)
Lemma checksum_verifies l pre post c :
  Forall is_word l -> Forall is_word pre -> Forall is_word post -> total l = total pre + total post -> total l < 2 ^ 32 - 2 ^ 16 ->
  sum_to_checksum (sum_words 0 l) = Some c -> is_word c /\ verifies (pre ++ [c] ++ post).
Proof.
  intros Hl Hpre Hpost Htot Hlen Hc. pose proof (total_bound pre Hpre). pose proof (total_bound post Hpost).
  rewrite sum_words_total in Hc; [|lia|done|lia]. rewrite Z.add_0_l in Hc.
  destruct (sum_to_checksum_spec (total l)) as (c' & E & Hw & Hv); [lia|]. assert (c' = c) as -> by congruence.
  split; [done|]. unfold verifies. unfold is_word in Hw. rewrite sum_words_total; [|lia| |].
  - rewrite !total_app. cbn [total foldr]. rewrite <- Hv. f_equal. unfold total in *. lia.
  - apply Forall_app. split; [done|]. by apply Forall_app; split; [apply Forall_singleton|].
  - rewrite !total_app. cbn [total foldr]. unfold total in *. lia.
Qed.

Lemma checksum_defined l : Forall is_word l -> total l < 2 ^ 32 - 2 ^ 16 -> exists c, sum_to_checksum (sum_words 0 l) = Some c.
Proof.
  intros Hl Hb. pose proof (total_bound l Hl). rewrite sum_words_total by (done || lia).
  destruct (sum_to_checksum_spec (0 + total l)) as (c & E & _); [lia|]. by exists c.
Qed.

(** *** Well-formed values *)

Definition ip_ok (i : ip) : Prop := Forall is_byte (ip_addr_bytes i).

Lemma swap_uint16_word v : is_word (swap_uint16 v).
Proof. unfold is_word, swap_uint16. by apply uwrap_range. Qed.
Lemma u16_word v : is_word (u16 v).
Proof. by apply uwrap_range. Qed.
Lemma le_bytes_bytes n z : Forall is_byte (le_bytes n z).
Proof. apply le_bytes_byte. Qed.
Lemma addr_words i : ip_ok i -> Forall is_word (words16 (ip_addr_bytes i)).
Proof. apply words16_words. Qed.
Lemma pseudo_words_ok my dst prot len : ip_ok my -> ip_ok dst -> Forall is_word (pseudo_words my dst prot len).
Proof.
  intros H1 H2. unfold pseudo_words. apply Forall_app. split; [by apply addr_words|]. apply Forall_app. split; [by apply addr_words|].
  repeat constructor; apply swap_uint16_word.
Qed.
Lemma payload_total l : Forall is_byte l -> size_of l < 2 ^ 16 -> 0 <= total (words16 l) <= 65535 * 2 ^ 15.
Proof.
  intros Hl Hs. pose proof (total_bound _ (words16_words l Hl)). pose proof (words16_length l). unfold size_of in Hs. lia.
Qed.

#[export] Hint Resolve swap_uint16_word u16_word le_bytes_bytes addr_words words16_words : kos.

(** *** The builders *)

(** [ip_build] always succeeds and its header verifies: the one's-complement
    sum of the twenty bytes is all ones, so a conforming receiver accepts them.  The
    length field, in network order, counts header, transport header and payload. *)
Lemma ip_build_spec my p prot dst :
  ip_ok my -> ip_ok dst -> is_byte prot ->
  exists p' h, ip_build my p prot dst = Some p' /\ p_net p' = NetIp h /\ verifies (words16 (ip_bytes h)) /\
    ip_src h = my /\ ip_dst h = dst /\ protocol h = prot /\ IP_VERSION (version_ihl h) = 4 /\ IP_IHL (version_ihl h) = 5 /\
    swap_uint16 (total_length h) = u16 (20 + size_of (tran_bytes (p_tran p)) + size_of (p_payload p)) /\
    p_tran p' = p_tran p /\ p_payload p' = p_payload p /\ p_rdst p' = AddrInet dst /\ p_state p' = PSTATE_UNRESOLVED.
Proof.
  intros Hmy Hdst Hprot. unfold ip_build. set (len := u16 _). set (h0 := IpHeader _ _ _ _ _ _ _ _ _ _).
  set (pre := [69; swap_uint16 len; 0; 64; 64 + 256 * prot]). set (post := words16 (ip_addr_bytes my) ++ words16 (ip_addr_bytes dst)).
  assert (Hw : forall c, is_word c -> words16 (ip_bytes (with_ip_checksum c h0)) = pre ++ [c] ++ post).
  { intros c Hc. unfold ip_bytes, h0. cbn [version_ihl dscp_ecn total_length ident flags_frag_off ttl protocol ip_checksum ip_src ip_dst with_ip_checksum].
    rewrite !words16_app by reflexivity. rewrite (words16_le2 c), (words16_le2 (swap_uint16 len)) by auto with kos. done. }
  assert (E0 : h0 = with_ip_checksum 0 h0) by done.
  assert (Hpre : Forall is_word pre) by (unfold is_byte in Hprot; repeat constructor; try apply swap_uint16_word; unfold is_word; lia).
  assert (Hpost : Forall is_word post) by (apply Forall_app; auto with kos).
  assert (Hl : Forall is_word (pre ++ [0] ++ post)) by (apply Forall_app; split; [done|]; constructor; [unfold is_word; lia|done]).
  assert (Htot : total (pre ++ [0] ++ post) = total pre + total post) by (rewrite !total_app; cbn; lia).
  assert (Hb : total (pre ++ [0] ++ post) < 2 ^ 32 - 2 ^ 16) by (pose proof (total_bound _ Hl) as B; change (length (pre ++ [0] ++ post)) with 10%nat in B; lia).
  assert (W0 : words16 (ip_bytes h0) = pre ++ [0] ++ post) by (rewrite E0; apply Hw; unfold is_word; lia).
  rewrite W0. destruct (checksum_defined _ Hl Hb) as [c Ec]. rewrite Ec. cbn [mbind option_bind].
  destruct (checksum_verifies _ pre post c Hl Hpre Hpost Htot Hb Ec) as [Hc Hv].
  do 2 eexists. split; [reflexivity|]. split; [reflexivity|]. rewrite (Hw c Hc). split; [exact Hv|]. do 5 (split; [reflexivity|]).
  split; [|done]. cbn. apply swap_uint16_involutive. apply uwrap_range. lia.
Qed.

(** What a receiver sums up for a transport checksum. *)
Definition transport_words (my dst : ip) (prot : Z) (msg : list Z) : list Z :=
  pseudo_words my dst prot (size_of msg) ++ words16 msg.

Lemma size_of_app l1 l2 : size_of (l1 ++ l2) = size_of l1 + size_of l2.
Proof. unfold size_of. rewrite length_app. lia. Qed.

Definition payload_ok (p : packet) : Prop := Forall is_byte (p_payload p) /\ size_of (p_payload p) < 2 ^ 16.

Lemma transport_bound my dst prot n l payload :
  ip_ok my -> ip_ok dst -> Forall is_word l -> (length l <= 20)%nat -> Forall is_byte payload -> size_of payload < 2 ^ 16 ->
  Forall is_word (pseudo_words my dst prot n ++ l ++ words16 payload) /\
  total (pseudo_words my dst prot n ++ l ++ words16 payload) < 2 ^ 32 - 2 ^ 16.
Proof.
  intros H1 H2 Hl Hn Hp Hs. pose proof (pseudo_words_ok my dst prot n H1 H2) as Hps. split.
  - apply Forall_app. split; [done|]. apply Forall_app. split; [done|]. by apply words16_words.
  - rewrite !total_app. pose proof (total_bound _ Hps) as B1. pose proof (total_bound _ Hl) as B2. pose proof (payload_total _ Hp Hs) as B3.
    change (length (pseudo_words my dst prot n)) with 6%nat in B1. lia.
Qed.

(** [udp_build]: the datagram and the header around it verify. *)
Theorem udp_build_correct my p dst sp dp :
  ip_ok my -> ip_ok dst -> is_word sp -> is_word dp -> payload_ok p ->
  exists p' h u, udp_build my p dst sp dp = Some p' /\ p_net p' = NetIp h /\ p_tran p' = TranUdp u /\ p_payload p' = p_payload p /\
    verifies (words16 (ip_bytes h)) /\ verifies (transport_words my dst IP_PROT_UDP (udp_bytes u ++ p_payload p)) /\
    udp_src_port u = sp /\ udp_dst_port u = dp.
Proof.
  intros Hmy Hdst Hsp Hdp [Hby Hsz]. unfold udp_build. set (len := swap_uint16 (u16 _)).
  set (ps := pseudo_words _ _ _ _). set (l := [sp; dp; len]).
  assert (Hlw : Forall is_word l) by (repeat constructor; try apply Hsp; try apply Hdp; apply swap_uint16_word).
  destruct (transport_bound my dst IP_PROT_UDP (8 + size_of (p_payload p)) l (p_payload p)) as [Hw Hb]; [done|done|done|cbn; lia|done|done|]. fold ps in Hw, Hb.
  destruct (checksum_defined _ Hw Hb) as [c Ec]. change ([sp; dp; len] ++ words16 (p_payload p)) with (l ++ words16 (p_payload p)). rewrite Ec. cbn [mbind option_bind].
  destruct (checksum_verifies _ (ps ++ l) (words16 (p_payload p)) c Hw) as [Hc Hv].
  { apply Forall_app. split; [by apply pseudo_words_ok|done]. }
  { by apply words16_words. }
  { rewrite app_assoc, !total_app. lia. }
  { done. }
  { done. }
  set (u := UdpHeader sp dp len c). destruct (ip_build_spec my (set_tran (TranUdp u) p) IP_PROT_UDP dst) as (p' & h & E & En & Hiv & _ & _ & _ & _ & _ & _ & Et & Ep & _); [done|done|unfold is_byte, IP_PROT_UDP; lia|].
  exists p', h, u. split; [exact E|]. split; [exact En|]. split; [exact Et|]. split; [exact Ep|]. split; [exact Hiv|]. split; [|done].
  assert (transport_words my dst IP_PROT_UDP (udp_bytes u ++ p_payload p) = (ps ++ l) ++ [c] ++ words16 (p_payload p)) as ->; [|exact Hv].
  unfold transport_words. rewrite size_of_app. change (size_of (udp_bytes u)) with 8. fold ps. rewrite words16_app by reflexivity.
  unfold udp_bytes, u. cbn [udp_src_port udp_dst_port udp_length udp_checksum]. rewrite !words16_app by reflexivity.
  rewrite !words16_le2 by (done || apply swap_uint16_word). unfold l. by rewrite <- !app_assoc.
Qed.

Lemma tcp_build_spec my p dst seq ack flags win urg sp dp :
  ip_ok my -> ip_ok dst -> 0 <= seq < 2 ^ 32 -> 0 <= ack < 2 ^ 32 -> is_word sp -> is_word dp -> payload_ok p ->
  exists p' h t, tcp_build my p dst seq ack flags win urg sp dp = Some p' /\ p_net p' = NetIp h /\ p_tran p' = TranTcp t /\
    p_payload p' = p_payload p /\ verifies (words16 (ip_bytes h)) /\
    verifies (transport_words my dst IP_PROT_TCP (tcp_bytes t ++ p_payload p)) /\
    tcp_src_port t = sp /\ tcp_dst_port t = dp /\ seq_num t = seq /\ ack_num t = ack /\ p_rdst p' = AddrInet dst.
Proof.
  intros Hmy Hdst Hseq Hack Hsp Hdp [Hby Hsz]. unfold tcp_build. set (dof := u16 _). set (w := swap_uint16 win). set (g := swap_uint16 urg).
  set (ps := pseudo_words _ _ _ _). set (l1 := [sp; dp] ++ words16 (le_bytes 4 seq) ++ words16 (le_bytes 4 ack) ++ [dof; w]). set (l := l1 ++ [g]).
  assert (Hl1 : Forall is_word l1).
  { unfold l1. rewrite !Forall_app. split; [by repeat constructor; [apply Hsp..|apply Hdp|apply Hdp]|].
    split; [apply words16_words, le_bytes_bytes|]. split; [apply words16_words, le_bytes_bytes|]. repeat constructor; try apply u16_word; apply swap_uint16_word. }
  assert (Hlw : Forall is_word l) by (apply Forall_app; split; [done|]; repeat constructor; apply swap_uint16_word).
  destruct (transport_bound my dst IP_PROT_TCP (20 + size_of (p_payload p)) l (p_payload p)) as [Hw Hb]; [done|done|done|cbn; lia|done|done|]. fold ps in Hw, Hb.
  match goal with |- context [sum_to_checksum (sum_words 0 ?X)] => replace X with (ps ++ l ++ words16 (p_payload p)) by (unfold l, l1; by rewrite <- !app_assoc) end.
  destruct (checksum_defined _ Hw Hb) as [c Ec]. rewrite Ec. cbn [mbind option_bind].
  destruct (checksum_verifies _ (ps ++ l1) (g :: words16 (p_payload p)) c Hw) as [Hc Hv].
  { apply Forall_app. split; [by apply pseudo_words_ok|done]. }
  { constructor; [apply swap_uint16_word|by apply words16_words]. }
  { unfold l. rewrite !total_app. cbn [total foldr]. unfold total. lia. }
  { done. }
  { done. }
  set (t := TcpHeader sp dp seq ack dof w c g).
  destruct (ip_build_spec my (set_tran (TranTcp t) p) IP_PROT_TCP dst) as (p' & h & E & En & Hiv & _ & _ & _ & _ & _ & _ & Et & Ep & Er & _); [done|done|unfold is_byte, IP_PROT_TCP; lia|].
  exists p', h, t. split; [exact E|]. split; [exact En|]. split; [exact Et|]. split; [exact Ep|]. split; [exact Hiv|]. split; [|done].
  assert (transport_words my dst IP_PROT_TCP (tcp_bytes t ++ p_payload p) = (ps ++ l1) ++ [c] ++ g :: words16 (p_payload p)) as ->; [|exact Hv].
  unfold transport_words. rewrite size_of_app. change (size_of (tcp_bytes t)) with 20. fold ps. rewrite words16_app by reflexivity.
  unfold tcp_bytes, t. cbn [tcp_src_port tcp_dst_port seq_num ack_num data_off_flags window_size tcp_checksum urgent]. rewrite !words16_app by reflexivity.
  rewrite !words16_le2 by (done || apply swap_uint16_word || apply u16_word). unfold l1. by rewrite <- !app_assoc.
Qed.

(** A TCP segment verifies.  [tcp_build] succeeds for every payload that a
    packet can hold; the segment with its checksum, summed up with the pseudo-header,
    verifies, and so does the IP header around it; every field is where the arguments
    say. *)
Theorem tcp_build_correct my p dst seq ack flags win urg sp dp :
  ip_ok my -> ip_ok dst -> 0 <= seq < 2 ^ 32 -> 0 <= ack < 2 ^ 32 -> is_word sp -> is_word dp -> payload_ok p ->
  exists p' h t, tcp_build my p dst seq ack flags win urg sp dp = Some p' /\ p_net p' = NetIp h /\ p_tran p' = TranTcp t /\
    p_payload p' = p_payload p /\ verifies (words16 (ip_bytes h)) /\
    verifies (transport_words my dst IP_PROT_TCP (tcp_bytes t ++ p_payload p)) /\
    tcp_src_port t = sp /\ tcp_dst_port t = dp /\ seq_num t = seq /\ ack_num t = ack /\ p_rdst p' = AddrInet dst.
Proof. apply tcp_build_spec. Qed.

(** A sum folds to all ones exactly when it is a positive multiple of [0xFFFF]. *)
Lemma fold_full s : 0 < s < 2 ^ 32 -> fold_sum checksum_fuel s = Some 0xFFFF <-> s mod 65535 = 0.
Proof.
  intros Hs. destruct (fold_sum_spec s) as (r & -> & Hr & Hm & Hz); [lia|]. split; [intros [= ->]; by rewrite <- Hm|].
  intros E. f_equal. rewrite E in Hm. apply Z.mod_divide in Hm as [k Hk]; lia.
Qed.

Lemma words16_le4 z : 0 <= z < 2 ^ 32 -> words16 (le_bytes 4 z) = [z mod 2 ^ 16; z / 2 ^ 16].
Proof. intros Hz. cbn. repeat f_equal; Z.to_euclidean_division_equations; lia. Qed.

(** [icmp_build] with code 0 and no carry out of the 32-bit sum verifies. *)
Lemma icmp_build_small my p type other dst :
  ip_ok my -> ip_ok dst -> is_byte type -> 0 <= other < 2 ^ 30 -> payload_ok p ->
  exists p' i, icmp_build my p type 0 other dst = Some p' /\ p_tran p' = TranIcmp i /\
    verifies (words16 (icmp_bytes i ++ p_payload p)).
Proof.
  intros Hmy Hdst Ht Ho [Hby Hsz]. unfold icmp_build. pose proof (payload_total _ Hby Hsz) as Hpt. pose proof (words16_words _ Hby) as Hpw. unfold is_byte in Ht.
  assert (Hs : sum_words 0 ([type; 0; other] ++ words16 (p_payload p)) = type + other + total (words16 (p_payload p))).
  { cbn [app sum_words]. rewrite (uwrap_small 32 (0 + type)), (uwrap_small 32 (0 + type + 0)), uwrap_small by lia. rewrite sum_words_total by (done || lia). lia. }
  rewrite Hs. destruct (sum_to_checksum_spec (type + other + total (words16 (p_payload p)))) as (c & -> & Hc & Hv); [lia|]. cbn [mbind option_bind].
  set (i := IcmpHeader type 0 c other).
  destruct (ip_build_spec my (set_tran (TranIcmp i) p) IP_PROT_ICMP dst) as (p' & h & E & _ & _ & _ & _ & _ & _ & _ & _ & Et & _); [done|done|unfold is_byte, IP_PROT_ICMP; lia|].
  exists p', i. split; [exact E|]. split; [exact Et|]. rewrite words16_app by reflexivity. unfold icmp_bytes, i. cbn [icmp_type icmp_code icmp_checksum icmp_other].
  rewrite !words16_app by reflexivity. rewrite words16_le2, words16_le4 by (done || lia). pose proof (Z.mod_pos_bound other (2 ^ 16)).
  assert (Hhi : 0 <= other / 2 ^ 16 < 2 ^ 14) by (split; [apply Z.div_pos; lia|apply Z.div_lt_upper_bound; lia]).
  unfold verifies. unfold is_word in Hc. rewrite sum_words_total; [|lia| |].
  - rewrite !total_app. cbn [words16 total foldr]. fold (total (words16 (p_payload p))).
    assert (type + other + total (words16 (p_payload p)) + c <> 0) by (intros E0; rewrite E0 in Hv; discriminate Hv).
    apply fold_full in Hv; [|lia]. pose proof (Z.div_mod other (2 ^ 16)). apply fold_full; [lia|]. rewrite <- Hv.
    apply Z.mod_divide in Hv as [k Hk]; [|lia]. rewrite Hk, Z.mod_mul by lia. apply Z.mod_divide; [lia|]. exists (k - other / 2 ^ 16). lia.
  - repeat (apply Forall_app; split); [repeat constructor; lia|repeat constructor; lia|repeat constructor; lia|done].
  - rewrite !total_app. cbn [words16 total foldr]. fold (total (words16 (p_payload p))). lia.
Qed.

(** The ICMP checksum loses a carry.  [other] is added as one 32-bit
    number, so a sum of [2 ^ 32] or more wraps around: an echo reply with
    [other = 0xFFFFFFFF] (identifier and sequence number 65535, the sender's choice) and
    a payload of one word has a checksum that no receiver accepts. *)
Theorem icmp_build_carry_lost my dst b :
  ip_ok my -> ip_ok dst -> is_byte b -> b <> 0 ->
  exists p' i, icmp_build my (packet_create 0 [b; 0] 2) ICMP_TYPE_ECHO_REPLY ICMP_CODE_ECHO_REPLY (2 ^ 32 - 1) dst = Some p' /\
    p_tran p' = TranIcmp i /\ p_payload p' = [b; 0] /\ ~ verifies (words16 (icmp_bytes i ++ [b; 0])).
Proof.
  intros Hmy Hdst Hb Hnz. unfold is_byte in Hb. unfold icmp_build. set (p := packet_create 0 [b; 0] 2).
  assert (Hs : sum_words 0 ([ICMP_TYPE_ECHO_REPLY; ICMP_CODE_ECHO_REPLY; 2 ^ 32 - 1] ++ words16 (p_payload p)) = b - 1).
  { change (words16 (p_payload p)) with [b + 256 * 0]. cbn [app sum_words].
    change (u32 (u32 (u32 (0 + ICMP_TYPE_ECHO_REPLY) + ICMP_CODE_ECHO_REPLY) + (2 ^ 32 - 1))) with (2 ^ 32 - 1).
    unfold uwrap. symmetry. apply (Z.mod_unique _ _ 1); lia. }
  rewrite Hs. destruct (sum_to_checksum_spec (b - 1)) as (c & -> & Hc & Hv); [lia|]. cbn [mbind option_bind].
  set (i := IcmpHeader _ _ c _).
  destruct (ip_build_spec my (set_tran (TranIcmp i) p) IP_PROT_ICMP dst) as (p' & h & E & _ & _ & _ & _ & _ & _ & _ & _ & Et & Ep & _); [done|done|unfold is_byte, IP_PROT_ICMP; lia|].
  exists p', i. split; [exact E|]. split; [exact Et|]. split; [exact Ep|]. rewrite words16_app by reflexivity. unfold icmp_bytes, i. cbn [icmp_type icmp_code icmp_checksum icmp_other].
  rewrite !words16_app by reflexivity. rewrite words16_le2 by done. unfold is_word in Hc.
  assert (b - 1 + c <> 0) by (intros E0; rewrite E0 in Hv; discriminate Hv).
  apply fold_full in Hv; [|lia]. apply Z.mod_divide in Hv as [k Hk]; [|lia]. unfold verifies.
  change (words16 (le_bytes 4 (2 ^ 32 - 1))) with [65535; 65535].
  match goal with |- context [sum_words 0 ?l] => assert (Htot : total l = c + 131070 + b) by (unfold ICMP_TYPE_ECHO_REPLY, ICMP_CODE_ECHO_REPLY; cbn; lia) end.
  rewrite sum_words_total; [|lia| |lia].
  - rewrite Htot, fold_full by lia. intros Hbad. apply Z.mod_divide in Hbad as [j Hj]; lia.
  - unfold ICMP_TYPE_ECHO_REPLY, ICMP_CODE_ECHO_REPLY. cbn. repeat constructor; unfold is_word; lia.
Qed.

(** ** Witnesses *)

Definition ip_a : ip := Ip 10 0 2 15.
Definition ip_b : ip := Ip 10 0 2 2.

Lemma ip_a_ok : ip_ok ip_a.
Proof. unfold ip_ok, is_byte. apply (bool_decide_unpack _). vm_compute. exact I. Qed.
Lemma ip_b_ok : ip_ok ip_b.
Proof. unfold ip_ok, is_byte. apply (bool_decide_unpack _). vm_compute. exact I. Qed.

Lemma tcp_build_correct_witness :
  exists p' t, tcp_build ip_a (packet_create 0 [72; 105; 33] 3) ip_b 1 2 TCP_FLAG_ACK 14600 0 20480 80 = Some p' /\
    p_tran p' = TranTcp t /\ verifies (transport_words ip_a ip_b IP_PROT_TCP (tcp_bytes t ++ [72; 105; 33])).
Proof.
  destruct (tcp_build_correct ip_a (packet_create 0 [72; 105; 33] 3) ip_b 1 2 TCP_FLAG_ACK 14600 0 20480 80) as (p' & h & t & E & _ & Et & _ & _ & Hv & _);
    [exact ip_a_ok|exact ip_b_ok|lia|lia|unfold is_word; lia|unfold is_word; lia| |].
  - split; [unfold is_byte; apply (bool_decide_unpack _); vm_compute; exact I|vm_compute; reflexivity].
  - exists p', t. split; [exact E|]. split; [exact Et|exact Hv].
Defined.

Lemma icmp_build_carry_lost_witness :
  exists p' i, icmp_build ip_a (packet_create 0 [1; 0] 2) 0 0 (2 ^ 32 - 1) ip_b = Some p' /\ p_tran p' = TranIcmp i /\ icmp_checksum i = 65535.
Proof.
  destruct (icmp_build_carry_lost ip_a ip_b 1) as (p' & i & E & Et & _ & _); [exact ip_a_ok|exact ip_b_ok|unfold is_byte; lia|lia|].
  exists p', i. split; [exact E|]. split; [exact Et|]. vm_compute in E. injection E as <-. cbn in Et. injection Et as <-. reflexivity.
Defined.
