(* ===== verification/Arp.v ===== *)
(** * Arp: address resolution and the Ethernet layer

    Models kernel/src/net/ip/arp.c, kernel/src/net/eth/eth.c and [packet_send] and
    [packet_destroy] of kernel/src/net/packet.c, for one interface.  The hash table of
    cache entries is a map from addresses (an entry is added only when the lookup under
    [arp_cache_lock] failed); [sent] logs the frames given to the driver, [destroyed]
    the packets destroyed, latest first; [timers] holds one entry per timer that was set
    and has not gone off.

    Two things about memory and locks are part of the model.  A packet that was sent has been freed by the driver (net_825xx_send of
    kernel/src/driver/net/e1000.c, the only one, destroys it), and one that is given up by [packet_destroy]; a walk over waiting packets that
    then follows the link of such a packet is a fault.  [timer_lock] is that of kernel/src/time/timer.c: [time_tick] holds it while the
    callbacks run, and [timer_create] takes it. *)

From S2P Require Import Prelude Words Net.

#[global] Instance ip_countable : Countable ip.
Proof.
  refine (inj_countable' (fun i => (ip0 i, ip1 i, ip2 i, ip3 i)) (fun '(a, b, c, d) => Ip a b c d) _). by intros [].
Defined.

Definition ARP_RETRYS : Z := 5.
Definition ARP_OP_REQUEST : Z := 0x0001.
Definition ARP_OP_RESPONSE : Z := 0x0002.
Definition HTYPE_ETH : Z := 1.
Definition MAC_BROADCAST : mac := Mac 0xFF 0xFF 0xFF 0xFF 0xFF 0xFF.
Definition MAC_NONE : mac := Mac 0 0 0 0 0 0.

Inductive arp_cache_entry_state := CACHE_UNRESOLVED | CACHE_RESOLVED.

#[global] Instance arp_state_eq_dec : EqDecision arp_cache_entry_state.
Proof. solve_decision. Defined.

Record arp_cache_entry := ArpEntry {
  e_mac : mac;
  e_state : arp_cache_entry_state;
  e_retrys : Z;
  e_lock : bool;
  e_pending : list packet;
}.

Record lan := Lan {
  arp_cache : gmap ip arp_cache_entry;
  arp_cache_lock : bool;
  sent : list packet;
  destroyed : list packet;
  timers : list ip;
  timer_lock : bool;
}.

Definition set_cache (v : gmap ip arp_cache_entry) (s : lan) : lan := Lan v (arp_cache_lock s) (sent s) (destroyed s) (timers s) (timer_lock s).
Definition set_cache_lock (v : bool) (s : lan) : lan := Lan (arp_cache s) v (sent s) (destroyed s) (timers s) (timer_lock s).
Definition set_sent (v : list packet) (s : lan) : lan := Lan (arp_cache s) (arp_cache_lock s) v (destroyed s) (timers s) (timer_lock s).
Definition set_destroyed (v : list packet) (s : lan) : lan := Lan (arp_cache s) (arp_cache_lock s) (sent s) v (timers s) (timer_lock s).
Definition set_timers (v : list ip) (s : lan) : lan := Lan (arp_cache s) (arp_cache_lock s) (sent s) (destroyed s) v (timer_lock s).
Definition set_timer_lock (v : bool) (s : lan) : lan := Lan (arp_cache s) (arp_cache_lock s) (sent s) (destroyed s) (timers s) v.

Definition set_e_state (st : arp_cache_entry_state) (m : mac) (e : arp_cache_entry) : arp_cache_entry :=
  ArpEntry m st (e_retrys e) (e_lock e) (e_pending e).
Definition set_e_retrys (r : Z) (e : arp_cache_entry) : arp_cache_entry := ArpEntry (e_mac e) (e_state e) r (e_lock e) (e_pending e).
Definition set_e_lock (b : bool) (e : arp_cache_entry) : arp_cache_entry := ArpEntry (e_mac e) (e_state e) (e_retrys e) b (e_pending e).
Definition set_e_pending (l : list packet) (e : arp_cache_entry) : arp_cache_entry := ArpEntry (e_mac e) (e_state e) (e_retrys e) (e_lock e) l.

Definition set_route (src dst : sock_addr) (p : packet) : packet :=
  Packet (p_result p) (p_state p) (p_cb p) (p_protocol p) src dst (p_link p) (p_net p) (p_tran p) (p_payload p).
Definition set_outcome (st : packet_state) (r : packet_result) (p : packet) : packet :=
  Packet r st (p_cb p) (p_protocol p) (p_rsrc p) (p_rdst p) (p_link p) (p_net p) (p_tran p) (p_payload p).
Definition set_link (h : eth_header) (p : packet) : packet :=
  Packet (p_result p) (p_state p) (p_cb p) (p_protocol p) (p_rsrc p) (p_rdst p) (Some h) (p_net p) (p_tran p) (p_payload p).

Definition entry_at (i : ip) : M lan arp_cache_entry := read (fun s => arp_cache s !! i).
Definition upd_entry (i : ip) (f : arp_cache_entry -> arp_cache_entry) : M lan unit :=
  e ← entry_at i; modify (fun s => set_cache (<[i := f e]> (arp_cache s)) s).
Definition with_cache {A} (m : M lan A) : M lan A := locked (fun s => Some (arp_cache_lock s)) set_cache_lock m.
Definition lock_entry (i : ip) : M lan unit := e ← entry_at i; if e_lock e then spin else upd_entry i (set_e_lock true).
Definition unlock_entry (i : ip) : M lan unit := upd_entry i (set_e_lock false).

(** One occurrence of [x] taken away. *)
Fixpoint seq_rm1 (x : ip) (l : list ip) : list ip :=
  match l with
  | [] => []
  | y :: l' => if bool_decide (y = x) then l' else y :: seq_rm1 x l'
  end.

Section Arp.
(** The interface's addresses. *)
Context (my_ip : ip) (my_mac : mac).

Definition packet_destroy (p : packet) : M lan unit := modify (fun s => set_destroyed (p :: destroyed s) s).

Definition eth_build_hdr (p : packet) : M lan packet :=
  match p_rsrc p, p_rdst p with
  | AddrLink src, AddrLink dst => mret (set_link (EthHeader dst src (swap_uint16 (p_protocol p))) p)
  | _, _ => panic
  end.

(** [packet_send] of a packet that is resolved. *)
Definition packet_transmit (p : packet) : M lan unit :=
  match p_result p with
  | PRESULT_SUCCESS => p' ← eth_build_hdr p; modify (fun s => set_sent (p' :: sent s) s)
  | PRESULT_UNKNOWNHOST => packet_destroy p
  end.

(** The walk over the waiting packets: the packet is freed by the time its link is read. *)
Definition transmit_all (l : list packet) : M lan unit :=
  match l with
  | [] => mret tt
  | p :: _ => packet_transmit p;; fault
  end.

(** [timer_create] of a watchdog. *)
Definition timer_create (i : ip) : M lan unit := locked (fun s => Some (timer_lock s)) set_timer_lock (modify (fun s => set_timers (i :: timers s) s)).

Definition arp_build (p : packet) (o : Z) (smac tmac : mac) (sip tip : ip) : packet :=
  let hdr := ArpHeader (swap_uint16 HTYPE_ETH) (swap_uint16 ETH_TYPE_IP) 6 4 (swap_uint16 o) smac sip tmac tip in
  Packet (p_result p) PSTATE_RESOLVED (p_cb p) ETH_TYPE_ARP (AddrLink smac)
    (AddrLink (if o =? ARP_OP_REQUEST then MAC_BROADCAST else tmac)) (p_link p) (NetArp hdr) (p_tran p) (p_payload p).

Definition arp_request (i : ip) : packet :=
  arp_build (packet_create 0 [] 0) ARP_OP_REQUEST my_mac MAC_NONE my_ip i.

Definition arp_watchdog (i : ip) : M lan unit :=
  lock_entry i;;
  e ← entry_at i;
  (if bool_decide (e_state e = CACHE_UNRESOLVED) then
     let r := s8 (e_retrys e + 1) in
     upd_entry i (set_e_retrys r);;
     if r >=? ARP_RETRYS then
       upd_entry i (set_e_retrys (-1));;
       transmit_all (set_outcome PSTATE_RESOLVED PRESULT_UNKNOWNHOST <$> e_pending e);;
       upd_entry i (set_e_pending [])
     else
       packet_transmit (arp_request i);;
       timer_create i
   else mret tt);;
  unlock_entry i.

(** [junk] is what the fresh entry held: [retrys] is not set. *)
Definition arp_cache_put_resolved (junk : Z) (i : ip) (m : mac) : M lan unit :=
  modify (fun s => set_cache (<[i := ArpEntry m CACHE_RESOLVED junk false []]> (arp_cache s)) s).

(** The hardware address of the new entry is not set either. *)
Definition arp_cache_put_unresolved (junk : mac) (i : ip) (p : packet) : M lan unit :=
  modify (fun s => set_cache (<[i := ArpEntry junk CACHE_UNRESOLVED (-1) false [p]]> (arp_cache s)) s);;
  arp_watchdog i.

Definition arp_resolve (junk : mac) (i : ip) (p : packet) : M lan unit :=
  let p := set_route (AddrLink my_mac) (p_rdst p) p in
  if bool_decide (i = IP_BROADCAST) then
    packet_transmit (set_outcome PSTATE_RESOLVED (p_result p) (set_route (p_rsrc p) (AddrLink MAC_BROADCAST) p))
  else
    with_cache (
      s ← get;
      match arp_cache s !! i with
      | Some e =>
          lock_entry i;;
          (if bool_decide (e_state e = CACHE_UNRESOLVED) then
             upd_entry i (set_e_pending (p :: e_pending e));;
             unlock_entry i;;
             if e_retrys e =? -1 then arp_watchdog i else mret tt
           else
             unlock_entry i;;
             packet_transmit (set_outcome PSTATE_RESOLVED (p_result p) (set_route (p_rsrc p) (AddrLink (e_mac e)) p)))
      | None => arp_cache_put_unresolved junk i p
      end).

(** [eth_resolve] knows the Internet family only. *)
Definition packet_send (junk : mac) (p : packet) : M lan unit :=
  match p_state p with
  | PSTATE_UNRESOLVED => match p_rdst p with AddrInet i => arp_resolve junk i p | _ => panic end
  | PSTATE_RESOLVED => packet_transmit p
  end.

Definition arp_cache_store (junk : Z) (m : mac) (i : ip) : M lan unit :=
  with_cache (
    s ← get;
    match arp_cache s !! i with
    | Some e =>
        if bool_decide (e_state e = CACHE_UNRESOLVED) then
          lock_entry i;;
          upd_entry i (set_e_state CACHE_RESOLVED m);;
          unlock_entry i;;
          transmit_all ((fun p => set_outcome PSTATE_RESOLVED (p_result p) (set_route (p_rsrc p) (AddrLink m) p)) <$> e_pending e)
        else mret tt
    | None => arp_cache_put_resolved junk i m
    end).

Definition arp_handle (junk : Z) (arp : arp_header) : M lan unit :=
  (if bool_decide (my_ip = target_ip arp) && bool_decide (target_mac arp = MAC_NONE) then
     packet_transmit (arp_build (packet_create 0 [] 0) ARP_OP_RESPONSE my_mac (sender_mac arp) my_ip (sender_ip arp))
   else mret tt);;
  arp_cache_store junk (sender_mac arp) (sender_ip arp).

(** A timer that was set goes off, in [time_tick]. *)
Definition timer_fires (i : ip) : M lan unit :=
  locked (fun s => Some (timer_lock s)) set_timer_lock (arp_watchdog i;; modify (fun s => set_timers (seq_rm1 i (timers s)) s)).
End Arp.

(** ** What the operations do *)

(** A packet on its way to hardware address [d]; one that is given up. *)
Definition linked (src d : mac) (p : packet) : packet :=
  set_link (EthHeader d src (swap_uint16 (p_protocol p)))
    (set_outcome PSTATE_RESOLVED (p_result p) (set_route (AddrLink src) (AddrLink d) p)).
Definition failed (p : packet) : packet := set_outcome PSTATE_RESOLVED PRESULT_UNKNOWNHOST p.

Section ArpSpecs.
Context (my_ip : ip) (my_mac : mac).
Implicit Types (s : lan) (i : ip) (p : packet) (e : arp_cache_entry).

Lemma upd_entry_spec s i e f (Q : unit -> lan -> Prop) :
  arp_cache s !! i = Some e -> Q tt (set_cache (<[i := f e]> (arp_cache s)) s) -> runs (upd_entry i f) s Q.
Proof. intros He HQ. unfold upd_entry, entry_at. mstep. eapply runs_read; [exact He|]. by mstep. Qed.

Lemma lock_entry_spec s i e (Q : unit -> lan -> Prop) :
  arp_cache s !! i = Some e -> e_lock e = false -> Q tt (set_cache (<[i := set_e_lock true e]> (arp_cache s)) s) -> runs (lock_entry i) s Q.
Proof. intros He Hl HQ. unfold lock_entry, entry_at. mstep. eapply runs_read; [exact He|]. rewrite Hl. by eapply upd_entry_spec. Qed.

Lemma set_cache_twice a b s : set_cache a (set_cache b s) = set_cache a s.
Proof. reflexivity. Qed.
Lemma set_e_lock_same e : e_lock e = false -> set_e_lock false (set_e_lock true e) = e.
Proof. intros E. rewrite <- E at 1. by destruct e. Qed.

Lemma transmit_spec s p d (Q : unit -> lan -> Prop) :
  p_result p = PRESULT_SUCCESS -> p_rsrc p = AddrLink my_mac -> p_rdst p = AddrLink d -> p_state p = PSTATE_RESOLVED ->
  Q tt (set_sent (linked my_mac d p :: sent s) s) -> runs (packet_transmit p) s Q.
Proof.
  intros Hr Hs Hd Hst HQ. unfold packet_transmit. rewrite Hr. unfold eth_build_hdr. rewrite Hs, Hd. do 2 mstep. mstep.
  replace (set_link _ p) with (linked my_mac d p); [done|]. destruct p. cbn in *. by subst.
Qed.

(** The watchdog of a fresh entry: a request and a timer. *)
Lemma watchdog_fresh s i e (Q : unit -> lan -> Prop) :
  arp_cache s !! i = Some e -> e_lock e = false -> e_state e = CACHE_UNRESOLVED -> e_retrys e = -1 -> timer_lock s = false ->
  Q tt (set_timers (i :: timers s) (set_sent (linked my_mac MAC_BROADCAST (arp_request my_ip my_mac i) :: sent s) (set_cache (<[i := set_e_retrys 0 e]> (arp_cache s)) s))) ->
  runs (arp_watchdog my_ip my_mac i) s Q.
Proof.
  intros He Hl Hs Hr Ht HQ. unfold arp_watchdog. mstep. eapply lock_entry_spec; [exact He|exact Hl|]. mstep.
  eapply runs_read; [cbn; apply lookup_insert_eq|]. cbn [e_state e_retrys e_pending set_e_lock]. rewrite Hs, bool_decide_eq_true_2 by done. rewrite Hr. change (s8 (-1 + 1)) with 0.
  do 2 mstep. eapply upd_entry_spec; [cbn; apply lookup_insert_eq|]. cbn [arp_cache set_cache]. rewrite insert_insert_eq, set_cache_twice. change (0 >=? ARP_RETRYS) with false. cbn iota.
  mstep. eapply (transmit_spec _ _ MAC_BROADCAST); [done..|]. unfold timer_create. apply runs_locked; [by cbn; rewrite Ht|]. mstep. unfold unlock_entry. cbn [arp_cache set_cache set_sent set_timers set_timer_lock].
  eapply upd_entry_spec; [cbn; apply lookup_insert_eq|]. cbn. rewrite insert_insert_eq. unfold set_cache, set_timers, set_sent in HQ. cbn in HQ. rewrite Ht in HQ.
  replace (set_e_lock false _) with (set_e_retrys 0 e); [exact HQ|]. destruct e. cbn in *. by subst.
Qed.

(** ** Invariant *)

(** What stays the same of a packet on its way, and where it is bound for. *)
Definition core (p : packet) : Z * net_header * tran_header * list Z := (p_cb p, p_net p, p_tran p, p_payload p).
Definition for_ip (i : ip) (p : packet) : bool :=
  match p_net p with NetIp h => bool_decide (ip_dst h = i) | _ => false end.
Definition bound (i : ip) (l : list packet) : list packet := filter (fun p => for_ip i p = true) l.
Definition dst_mac (p : packet) : option mac := eth_dst <$> p_link p.

Lemma bound_app i l1 l2 : bound i (l1 ++ l2) = bound i l1 ++ bound i l2.
Proof. apply filter_app. Qed.
Lemma bound_all i l : Forall (fun p => for_ip i p = true) l -> bound i l = l.
Proof. intros H. unfold bound. induction H as [|p l Hp _ IH]; [done|]. rewrite filter_cons_True by done. by rewrite IH. Qed.
Lemma bound_none i l : Forall (fun p => for_ip i p = false) l -> bound i l = [].
Proof. intros H. unfold bound. induction H as [|p l Hp _ IH]; [done|]. rewrite filter_cons_False by congruence. done. Qed.

(** The packets that wait for an address. *)
Definition waiting_of (o : option arp_cache_entry) : list packet :=
  match o with Some e => if bool_decide (e_state e = CACHE_UNRESOLVED) then e_pending e else [] | None => [] end.

Definition waits (i : ip) (p : packet) : Prop := p_result p = PRESULT_SUCCESS /\ p_rsrc p = AddrLink my_mac /\ for_ip i p = true.

(** An entry is resolved; or one request for it is out, a timer runs and packets wait.  Nobody holds a lock. *)
Definition entry_ok (ts : list ip) (i : ip) (o : option arp_cache_entry) : Prop :=
  match o with
  | None => i ∉ ts
  | Some e => e_lock e = false /\
      match e_state e with
      | CACHE_RESOLVED => i ∉ ts
      | CACHE_UNRESOLVED => e_retrys e = 0 /\ e_pending e <> [] /\ Forall (waits i) (e_pending e) /\ i ∈ ts
      end
  end.

Definition routed (o : option arp_cache_entry) (i : ip) (p : packet) : Prop :=
  i = IP_BROADCAST /\ dst_mac p = Some MAC_BROADCAST \/
  exists e, o = Some e /\ e_state e = CACHE_RESOLVED /\ dst_mac p = Some (e_mac e).

(** [handed] are the packets given to [packet_send] so far: each of them was sent to the
    hardware address of its destination, or waits. *)
Record arp_inv (handed : list packet) s : Prop := ArpInv {
  a_lock : arp_cache_lock s = false;
  a_timer_lock : timer_lock s = false;
  a_entries : forall i, entry_ok (timers s) i (arp_cache s !! i);
  a_account : forall i, core <$> bound i handed ≡ₚ core <$> (bound i (sent s) ++ waiting_of (arp_cache s !! i));
  a_routed : forall i p, p ∈ bound i (sent s) -> routed (arp_cache s !! i) i p;
}.

(** One address is touched. *)
Lemma arp_inv_step h hn s s' i ns :
  arp_inv h s -> arp_cache_lock s' = false -> timer_lock s' = false -> (forall j, j <> i -> arp_cache s' !! j = arp_cache s !! j) ->
  sent s' = ns ++ sent s -> (forall j, j <> i -> j ∈ timers s' <-> j ∈ timers s) -> entry_ok (timers s') i (arp_cache s' !! i) ->
  (forall j, j <> i -> bound j hn = [] /\ bound j ns = []) ->
  core <$> (bound i hn ++ waiting_of (arp_cache s !! i)) ≡ₚ core <$> (bound i ns ++ waiting_of (arp_cache s' !! i)) ->
  (forall p, p ∈ bound i ns -> routed (arp_cache s' !! i) i p) ->
  (forall e, arp_cache s !! i = Some e -> e_state e = CACHE_RESOLVED -> arp_cache s' !! i = Some e) -> arp_inv (hn ++ h) s'.
Proof.
  intros [I1 I0 I2 I4 I5] Hl Htl Hc Es Ht He Hoth Hacc Hr Hres. split; [done|done| | |].
  - intros j. destruct (decide (j = i)) as [->|Hne]; [done|]. rewrite Hc by done. specialize (I2 j). unfold entry_ok in *.
    destruct (arp_cache s !! j) as [e|]; [|by rewrite Ht]. destruct (e_state e); by rewrite Ht.
  - intros j. rewrite Es, !bound_app. destruct (decide (j = i)) as [->|Hne].
    + rewrite !fmap_app in *. rewrite (I4 i), !fmap_app.
      rewrite (Permutation_app_comm (core <$> bound i (sent s))), (app_assoc (core <$> bound i hn)), Hacc. solve_Permutation.
    + destruct (Hoth j Hne) as (-> & ->). rewrite Hc by done. cbn. apply I4.
  - intros j p. rewrite Es, bound_app. destruct (decide (j = i)) as [->|Hne].
    + rewrite elem_of_app. intros [Hp|Hp]; [by apply Hr|]. destruct (I5 i p Hp) as [Hb|(e & E1 & E2 & E3)]; [by left|].
      right. exists e. split; [by apply Hres|done].
    + destruct (Hoth j Hne) as (_ & ->). rewrite Hc by done. apply I5.
Qed.

Lemma for_ip_unique i j p : for_ip i p = true -> j <> i -> for_ip j p = false.
Proof. unfold for_ip. destruct (p_net p); [done| |done]. intros Hi Hne. apply bool_decide_eq_true in Hi. apply bool_decide_eq_false. congruence. Qed.
Lemma bound_other i j l : Forall (fun p => for_ip i p = true) l -> j <> i -> bound j l = [].
Proof. intros Hl Hne. apply bound_none. eapply Forall_impl; [exact Hl|]. intros p Hp. by apply (for_ip_unique i). Qed.

(** *** Each operation *)

(** What the protocols hand to [packet_send]: see [Net.ip_build]. *)
Definition sendable (i : ip) (p : packet) : Prop :=
  p_state p = PSTATE_UNRESOLVED /\ p_result p = PRESULT_SUCCESS /\ p_rdst p = AddrInet i /\ for_ip i p = true.

(** A packet that goes straight out. *)
Lemma sent_inv h s s' i p d :
  arp_inv h s -> sendable i p -> routed (arp_cache s !! i) i (linked my_mac d p) -> arp_cache_lock s' = false -> timer_lock s' = false ->
  arp_cache s' = arp_cache s -> sent s' = linked my_mac d p :: sent s -> timers s' = timers s -> arp_inv (p :: h) s'.
Proof.
  intros HI (_ & _ & _ & Hp) Hr Hl Htl Ec Es Et.
  eapply (arp_inv_step h [p] s s' i [linked my_mac d p]); [exact HI|exact Hl|exact Htl|by rewrite Ec|exact Es|by rewrite Et| | | | |by rewrite Ec].
  - rewrite Et, Ec. apply (a_entries _ _ HI).
  - intros j Hne. split; by apply (bound_other i); [apply Forall_singleton|].
  - rewrite Ec. rewrite (bound_all i [p]), (bound_all i [linked my_mac d p]) by by apply Forall_singleton. done.
  - intros q. rewrite (bound_all i [linked my_mac d p]) by by apply Forall_singleton. rewrite list_elem_of_singleton. intros ->. by rewrite Ec.
Qed.

Lemma packet_send_inv junk h s i p : arp_inv h s -> sendable i p ->
  runs (packet_send my_ip my_mac junk p) s (fun _ s' => arp_inv (p :: h) s').
Proof.
  intros HI Hs. pose proof Hs as (Hst & Hres & Hd & Hip). unfold packet_send. rewrite Hst, Hd. unfold arp_resolve.
  set (p1 := set_route (AddrLink my_mac) (p_rdst p) p). assert (Hw1 : waits i p1) by done.
  assert (El : forall d, linked my_mac d (set_outcome PSTATE_RESOLVED (p_result p1) (set_route (p_rsrc p1) (AddrLink d) p1)) = linked my_mac d p) by done.
  case_bool_decide as Hb.
  { eapply (transmit_spec _ _ MAC_BROADCAST); [exact Hres|done|done|done|]. rewrite El.
    eapply (sent_inv h s); [exact HI|exact Hs| |apply (a_lock _ _ HI)|apply (a_timer_lock _ _ HI)|done..]. left. done. }
  unfold with_cache. apply runs_locked; [by rewrite (a_lock _ _ HI)|]. mstep. mstep. cbn [arp_cache set_cache_lock].
  pose proof (a_entries _ _ HI i) as Hok. pose proof (a_timer_lock _ _ HI) as Htl. destruct (arp_cache s !! i) as [e|] eqn:He.
  - destruct Hok as (Hl & Hok). mstep. eapply lock_entry_spec; [exact He|exact Hl|]. cbn [arp_cache set_cache_lock]. case_bool_decide as Hun.
    + rewrite Hun in Hok. destruct Hok as (Hr & Hpe & Hw & Hin).
      mstep. eapply upd_entry_spec; [cbn; apply lookup_insert_eq|]. mstep. unfold unlock_entry. eapply upd_entry_spec; [cbn; apply lookup_insert_eq|]. cbn.
      rewrite !insert_insert_eq, Hr. cbn [Z.eqb Pos.eqb]. mstep.
      eapply (arp_inv_step h [p] s _ i []); [exact HI|done|exact Htl| |done|done| | | | |].
      * intros j Hne. cbn. by rewrite lookup_insert_ne.
      * cbn. rewrite lookup_insert_eq. cbn. rewrite Hun. split; [done|]. split; [done|]. split; [done|]. split; [by constructor|done].
      * intros j Hne. split; [|done]. by apply (bound_other i); [apply Forall_singleton|].
      * cbn [arp_cache set_cache_lock set_cache]. rewrite lookup_insert_eq, He, (bound_all i [p]) by by apply Forall_singleton. cbn. rewrite Hun, !bool_decide_eq_true_2 by done. done.
      * intros q Hq. by apply elem_of_nil in Hq.
      * rewrite He. intros e0 [= <-]. congruence.
    + assert (Hre : e_state e = CACHE_RESOLVED) by by destruct (e_state e).
      mstep. unfold unlock_entry. eapply upd_entry_spec; [cbn; apply lookup_insert_eq|]. cbn [arp_cache set_cache].
      rewrite insert_insert_eq, set_e_lock_same, insert_id by done. eapply (transmit_spec _ _ (e_mac e)); [exact Hres|done|done|done|]. rewrite El.
      eapply (sent_inv h s); [exact HI|exact Hs| |done..]. right. by exists e.
  - unfold arp_cache_put_unresolved. mstep. mstep. cbn in Hok.
    eapply watchdog_fresh; [cbn; apply lookup_insert_eq|done|done|done|exact Htl|]. cbn. rewrite insert_insert_eq.
    eapply (arp_inv_step h [p] s _ i [_]); [exact HI|done|exact Htl| |done| | | | | |].
    + intros j Hne. cbn. by rewrite lookup_insert_ne.
    + intros j Hne. cbn. rewrite elem_of_cons. naive_solver.
    + cbn. rewrite lookup_insert_eq. cbn. split; [done|]. split; [done|]. split; [done|]. split; [by apply Forall_singleton|]. apply elem_of_cons. by left.
    + intros j Hne. split; [|done]. by apply (bound_other i); [apply Forall_singleton|].
    + cbn [arp_cache set_cache_lock set_cache set_timers set_sent]. rewrite lookup_insert_eq, He, (bound_all i [p]) by by apply Forall_singleton. cbn. by rewrite bool_decide_eq_true_2.
    + cbn. intros q Hq. by apply elem_of_nil in Hq.
    + rewrite He. done.
Qed.

(** An answer for an address that nothing waits for. *)
Lemma arp_cache_store_inv junk h s m i : arp_inv h s -> waiting_of (arp_cache s !! i) = [] -> runs (arp_cache_store junk m i) s (fun _ s' => arp_inv h s').
Proof.
  intros HI Hnw. unfold arp_cache_store, with_cache. apply runs_locked; [by rewrite (a_lock _ _ HI)|]. do 2 mstep. cbn [arp_cache set_cache_lock].
  pose proof (a_entries _ _ HI i) as Hok. pose proof (a_timer_lock _ _ HI) as Htl. destruct (arp_cache s !! i) as [e|] eqn:He.
  - destruct Hok as (Hl & Hok). unfold waiting_of in Hnw. case_bool_decide as Hun.
    { rewrite Hun in Hok. by destruct Hok as (_ & ? & _). }
    mstep. eapply (arp_inv_step h [] s _ i []); [exact HI|done|exact Htl|done|done|done|apply (a_entries _ _ HI)|done|done| |done].
    intros p Hp. by apply elem_of_nil in Hp.
  - unfold arp_cache_put_resolved. mstep. eapply (arp_inv_step h [] s _ i []); [exact HI|done|exact Htl| |done|done| |done| | |].
    + intros j Hne. cbn. by rewrite lookup_insert_ne.
    + cbn. rewrite lookup_insert_eq. done.
    + rewrite He. cbn. by rewrite lookup_insert_eq.
    + intros p Hp. by apply elem_of_nil in Hp.
    + by rewrite He.
Qed.

(** An answer for an address that packets wait for: the first of them is sent, and freed; its link is read. *)
Theorem arp_answer_faults junk h s m i : arp_inv h s -> waiting_of (arp_cache s !! i) <> [] -> arp_cache_store junk m i s = Fault.
Proof.
  intros HI Hw. pose proof (a_entries _ _ HI i) as Hok. pose proof (a_lock _ _ HI) as Hl. unfold waiting_of in Hw. destruct (arp_cache s !! i) as [e|] eqn:He; [|done].
  case_bool_decide as Hun; [|done]. destruct Hok as (Hle & Hok). rewrite Hun in Hok. destruct Hok as (_ & Hpe & Hwt & _). destruct (e_pending e) as [|p l] eqn:Ep; [done|]. apply Forall_cons in Hwt as [(Hr & Hs & _) _].
  unfold arp_cache_store, with_cache, locked. rewrite Hl. unfold lock_entry, unlock_entry, upd_entry, entry_at, get, modify, read, mbind, M_bind. cbn [arp_cache set_cache_lock]. rewrite He, bool_decide_eq_true_2 by done. cbn [arp_cache set_cache_lock]. rewrite He, Hle.
  do 6 (cbn [arp_cache set_cache set_cache_lock]; rewrite ?He, ?lookup_insert_eq). rewrite Ep. cbn [fmap list_fmap transmit_all]. unfold packet_transmit, mbind, M_bind. cbn [p_result set_outcome set_route]. rewrite Hr. unfold eth_build_hdr. cbn [p_rsrc p_rdst set_outcome set_route]. rewrite Hs. reflexivity.
Qed.

(** The timer of an address that did not answer: another request goes out, and setting the next timer waits for ever for the lock that [time_tick] holds. *)
Theorem arp_timer_spins h s i : arp_inv h s -> i ∈ timers s -> timer_fires my_ip my_mac i s = NoFuel.
Proof.
  intros HI Hi. pose proof (a_entries _ _ HI i) as Hok. pose proof (a_timer_lock _ _ HI) as Htl. destruct (arp_cache s !! i) as [e|] eqn:He; [|done]. destruct Hok as (Hle & Hok). destruct (e_state e) eqn:Hst; [|done]. destruct Hok as (Hr & _).
  unfold timer_fires, locked. rewrite Htl. unfold arp_watchdog, lock_entry, upd_entry, entry_at, modify, read, mbind, M_bind. cbn [arp_cache set_timer_lock]. rewrite He, Hle.
  do 2 (cbn [arp_cache set_cache set_timer_lock]; rewrite ?He, ?lookup_insert_eq). cbn [e_state set_e_lock]. rewrite Hst, bool_decide_eq_true_2 by done. do 2 (cbn [arp_cache set_cache set_timer_lock]; rewrite ?He, ?lookup_insert_eq). cbn [e_retrys set_e_lock]. rewrite Hr. reflexivity.
Qed.

Lemma arp_handle_inv junk h s a : arp_inv h s -> waiting_of (arp_cache s !! sender_ip a) = [] -> runs (arp_handle my_ip my_mac junk a) s (fun _ s' => arp_inv h s').
Proof.
  intros HI Hw. unfold arp_handle. mstep. destruct (_ && _).
  - eapply (transmit_spec _ _ (sender_mac a)); [done..|]. apply arp_cache_store_inv; [|exact Hw].
    eapply (arp_inv_step h [] s _ IP_NONE [_]); [exact HI|apply (a_lock _ _ HI)|apply (a_timer_lock _ _ HI)|done|done|done|apply (a_entries _ _ HI)|done|done| |done].
    intros p Hp. by apply elem_of_nil in Hp.
  - mstep. by apply arp_cache_store_inv.
Qed.

Lemma arp_handle_faults junk h s a : arp_inv h s -> waiting_of (arp_cache s !! sender_ip a) <> [] -> arp_handle my_ip my_mac junk a s = Fault.
Proof.
  intros HI Hw. unfold arp_handle. destruct (_ && _).
  - assert (H : runs (packet_transmit (arp_build (packet_create 0 [] 0) ARP_OP_RESPONSE my_mac (sender_mac a) my_ip (sender_ip a))) s (fun _ s' => arp_inv h s' /\ arp_cache s' = arp_cache s)).
    { eapply (transmit_spec _ _ (sender_mac a)); [done..|]. split; [|done].
      eapply (arp_inv_step h [] s _ IP_NONE [_]); [exact HI|apply (a_lock _ _ HI)|apply (a_timer_lock _ _ HI)|done|done|done|apply (a_entries _ _ HI)|done|done| |done].
      intros p Hp. by apply elem_of_nil in Hp. }
    apply runs_Done in H as ([] & s1 & E & HI1 & Ec). unfold mbind, M_bind. rewrite E. eapply arp_answer_faults; [exact HI1|]. by rewrite Ec.
  - by eapply arp_answer_faults.
Qed.

(** *** All together *)

(** What happens to the layer: a packet is handed to it, a timer goes off, an ARP packet
    or (through [ip_handle]) the sender of any IP packet is heard. *)
Inductive happening := Hand (p : packet) | Fire (i : ip) | Heard (a : arp_header) | Seen (m : mac) (i : ip).

Definition occurs (junk : mac) (e : happening) : M lan unit :=
  match e with
  | Hand p => packet_send my_ip my_mac junk p
  | Fire i => timer_fires my_ip my_mac i
  | Heard a => arp_handle my_ip my_mac 0 a
  | Seen m i => arp_cache_store 0 m i
  end.

Fixpoint occur_all (junk : mac) (l : list happening) : M lan unit :=
  match l with
  | [] => mret tt
  | e :: l' => occurs junk e;; occur_all junk l'
  end.

(** Only timers that run go off; only fresh IP packets are handed over. *)
Fixpoint possible (junk : mac) (l : list happening) s : Prop :=
  match l with
  | [] => True
  | e :: l' =>
      match e with
      | Hand p => exists i, sendable i p
      | Fire i => i ∈ timers s
      | _ => True
      end /\ possible junk l' (after (occurs junk e) s)
  end.

Definition handed_of (l : list happening) : list packet :=
  omap (fun x => match x with Hand p => Some p | _ => None end) l.

(** Whom an ARP packet, or the sender of another, is heard from. *)
Definition heard_from (e : happening) : option ip := match e with Heard a => Some (sender_ip a) | Seen _ i => Some i | _ => None end.

(** One happening: the account goes on, or an answer meets waiting packets, or a timer goes off. *)
Lemma occurs_inv junk (ev : happening) h s : arp_inv h s -> (match ev with Hand p => exists i, sendable i p | Fire i => i ∈ timers s | _ => True end) ->
  match occurs junk ev s with
  | Done (_, s') => arp_inv (rev (handed_of [ev]) ++ h) s'
  | Fault => exists i, heard_from ev = Some i /\ waiting_of (arp_cache s !! i) <> []
  | NoFuel => exists i, ev = Fire i /\ waiting_of (arp_cache s !! i) <> []
  | Panic => False
  end.
Proof.
  intros HI He. destruct ev as [p|i|a|m i]; cbn [occurs handed_of omap list_omap rev app heard_from].
  - destruct He as [i Hi]. pose proof (packet_send_inv junk h s i p HI Hi) as H. apply runs_Done in H as (u & s' & -> & H). exact H.
  - rewrite (arp_timer_spins h s i HI He). exists i. split; [done|]. pose proof (a_entries _ _ HI i) as Hok. destruct (arp_cache s !! i) as [e|]; [|done]. destruct Hok as [_ Hok]. unfold waiting_of. destruct (e_state e); [|done]. rewrite bool_decide_eq_true_2 by done. apply Hok.
  - destruct (decide (waiting_of (arp_cache s !! sender_ip a) = [])) as [Hw|Hw].
    + pose proof (arp_handle_inv 0 h s a HI Hw) as H. apply runs_Done in H as (u & s' & -> & H). exact H.
    + rewrite (arp_handle_faults 0 h s a HI Hw). by exists (sender_ip a).
  - destruct (decide (waiting_of (arp_cache s !! i) = [])) as [Hw|Hw].
    + pose proof (arp_cache_store_inv 0 h s m i HI Hw) as H. apply runs_Done in H as (u & s' & -> & H). exact H.
    + rewrite (arp_answer_faults 0 h s m i HI Hw). by exists i.
Qed.

Lemma occur_all_inv junk l : forall h s, arp_inv h s -> possible junk l s ->
  match occur_all junk l s with
  | Done (_, s') => arp_inv (rev (handed_of l) ++ h) s'
  | Fault => exists l1 ev l2 s1 i, l = l1 ++ ev :: l2 /\ occur_all junk l1 s = Done (tt, s1) /\ heard_from ev = Some i /\ waiting_of (arp_cache s1 !! i) <> []
  | NoFuel => exists l1 i l2 s1, l = l1 ++ Fire i :: l2 /\ occur_all junk l1 s = Done (tt, s1) /\ waiting_of (arp_cache s1 !! i) <> []
  | Panic => False
  end.
Proof.
  induction l as [|e l IH]; intros h s HI Hp; [done|]. destruct Hp as [He Hp]. pose proof (occurs_inv junk e h s HI He) as H. cbn [occur_all]. unfold after in Hp. unfold mbind at 1, M_bind at 1. destruct (occurs junk e s) as [[[] s1]| | |] eqn:E; [|done| |].
  - specialize (IH _ s1 H Hp). assert (Hpre : forall l1 s2, occur_all junk l1 s1 = Done (tt, s2) -> occur_all junk (e :: l1) s = Done (tt, s2)) by (intros l1 s2 H1; cbn [occur_all]; unfold mbind, M_bind; by rewrite E). destruct (occur_all junk l s1) as [[u s2]| | |]; [|done| |].
    + replace (rev (handed_of (e :: l)) ++ h) with (rev (handed_of l) ++ rev (handed_of [e]) ++ h); [done|]. rewrite app_assoc. f_equal. destruct e; cbn; [done|by rewrite app_nil_r..].
    + destruct IH as (l1 & e' & l2 & s2 & i & -> & H1 & H2). exists (e :: l1), e', l2, s2, i. split; [done|]. split; [by apply Hpre|done].
    + destruct IH as (l1 & i & l2 & s2 & -> & H1 & H2). exists (e :: l1), i, l2, s2. split; [done|]. split; [by apply Hpre|done].
  - destruct H as (i & H1 & H2). exists [], e, l, s, i. done.
  - destruct H as (i & -> & H2). exists [], i, l, s. done.
Qed.

Definition lan0 : lan := Lan ∅ false [] [] [] false.

Lemma lan0_inv : arp_inv [] lan0.
Proof.
  split; [done|done| | |].
  - intros i. cbn. rewrite lookup_empty. apply not_elem_of_nil.
  - intros i. cbn. by rewrite lookup_empty.
  - intros i p Hp. by apply elem_of_nil in Hp.
Qed.

(** C38: where every packet is.  Whatever sequence of packets, timer expiries, ARP packets and other arrivals the layer goes through from
    start-up: if it comes through, then for every address the packets handed over for it are, up to order, those sent and those waiting;
    what was sent went to the hardware address recorded for it (or, for the broadcast address, to the broadcast address); packets wait only while a request is out and a timer runs;
    and no lock is held.  It never panics; it comes to a fault only at an answer from an address that packets wait for (the first packet is freed before
    its link is read, arp.c:194), and hangs only when the timer of such an address goes off (its callback takes the timers' lock again, arp.c:99); both do happen then
    ([arp_answer_faults], [arp_timer_spins]). *)
Theorem arp_accounts junk l : possible junk l lan0 ->
  match occur_all junk l lan0 with
  | Done (_, s') => arp_cache_lock s' = false /\ timer_lock s' = false /\ forall i,
      core <$> bound i (handed_of l) ≡ₚ core <$> (bound i (sent s') ++ waiting_of (arp_cache s' !! i)) /\
      (forall p, p ∈ bound i (sent s') -> routed (arp_cache s' !! i) i p) /\
      (waiting_of (arp_cache s' !! i) <> [] -> i ∈ timers s' /\ e_retrys <$> arp_cache s' !! i = Some 0)
  | Fault => exists l1 ev l2 s1 i, l = l1 ++ ev :: l2 /\ occur_all junk l1 lan0 = Done (tt, s1) /\ heard_from ev = Some i /\ waiting_of (arp_cache s1 !! i) <> []
  | NoFuel => exists l1 i l2 s1, l = l1 ++ Fire i :: l2 /\ occur_all junk l1 lan0 = Done (tt, s1) /\ waiting_of (arp_cache s1 !! i) <> []
  | Panic => False
  end.
Proof.
  intros Hp. pose proof (occur_all_inv junk l [] lan0 lan0_inv Hp) as H. destruct (occur_all junk l lan0) as [[u s']| | |]; [|exact H..]. destruct H as [H1 H2 He Ha Hr]. rewrite app_nil_r in Ha. split; [done|]. split; [done|]. intros i. specialize (Ha i).
  split; [|split; [apply Hr|]].
  - rewrite <- Ha. apply fmap_Permutation. unfold bound. apply filter_Permutation. rewrite rev_alt. symmetry. apply reverse_Permutation.
  - specialize (He i). destruct (arp_cache s' !! i) as [e|]; [|done]. cbn. case_bool_decide as Hu; [|done]. destruct He as (_ & He). rewrite Hu in He. destruct He as (-> & _ & _ & ?). done.
Qed.
End ArpSpecs.

(** ** Witnesses *)

Definition mac_a : mac := Mac 82 84 0 18 52 86.
Definition mac_b : mac := Mac 82 85 10 0 2 2.
Definition pkt0 : packet := default (packet_create 0 [] 0) (udp_build ip_a (packet_create 7 [1; 2] 2) ip_b 68 67).
Definition story0 : list happening := [Hand pkt0; Hand pkt0; Seen mac_a ip_a; Hand (default (packet_create 0 [] 0) (udp_build ip_b (packet_create 7 [1; 2] 2) ip_a 68 67))].

Lemma pkt0_sendable : sendable ip_b pkt0.
Proof. repeat split; vm_compute; reflexivity. Qed.

Lemma story0_possible : possible ip_a mac_a MAC_NONE story0 lan0.
Proof.
  split; [exists ip_b; exact pkt0_sendable|]. split; [exists ip_b; exact pkt0_sendable|]. split; [exact I|]. split; [|exact I]. exists ip_a. repeat split; vm_compute; reflexivity.
Qed.

(** Two packets wait, one is sent to a neighbour that was heard; the next story ends at an answer. *)
Lemma arp_accounts_witness :
  (exists s', occur_all ip_a mac_a MAC_NONE story0 lan0 = Done (tt, s') /\ length (bound ip_a (sent s')) = 1%nat /\ length (waiting_of (arp_cache s' !! ip_b)) = 2%nat /\ ip_b ∈ timers s') /\
  exists l1 e l2 s1 i, [Hand pkt0; Seen mac_b ip_b] = l1 ++ e :: l2 /\ occur_all ip_a mac_a MAC_NONE l1 lan0 = Done (tt, s1) /\ heard_from e = Some i /\ waiting_of (arp_cache s1 !! i) <> [].
Proof.
  split.
  - pose proof (arp_accounts ip_a mac_a MAC_NONE story0 story0_possible) as H. assert (E : occur_all ip_a mac_a MAC_NONE story0 lan0 = Done (tt, after (occur_all ip_a mac_a MAC_NONE story0) lan0)) by (vm_compute; reflexivity).
    rewrite E in H. destruct H as (_ & _ & H). exists (after (occur_all ip_a mac_a MAC_NONE story0) lan0). split; [exact E|]. split; [vm_compute; reflexivity|]. split; [vm_compute; reflexivity|].
    destruct (H ip_b) as (_ & _ & Hw). apply Hw. vm_compute. discriminate.
  - assert (Hp : possible ip_a mac_a MAC_NONE [Hand pkt0; Seen mac_b ip_b] lan0) by (split; [exists ip_b; exact pkt0_sendable|]; split; exact I).
    pose proof (arp_accounts ip_a mac_a MAC_NONE _ Hp) as H. assert (E : occur_all ip_a mac_a MAC_NONE [Hand pkt0; Seen mac_b ip_b] lan0 = Fault) by (vm_compute; reflexivity). rewrite E in H. exact H.
Defined.
