(* ===== verification/Tcp.v ===== *)
(** * Tcp: transmission control

    Models kernel/src/net/ip/tcp.c (with the socket flags of kernel/inc/net/socket.h):
    ports, connections, listening sockets, segment processing and the socket
    operations.  Sockets are records in a map keyed by address; [out] logs the packets
    handed to [packet_send], latest first; a semaphore is its count, and an operation
    that blocks on one is split where it blocks; [resend] holds the sockets whose SYN is
    to be sent again.  A connection's receive buffer is one page; an access outside it is
    a fault. *)

From S2P Require Import Prelude Words Net.

(** ** Data *)

Definition SOMAXCONN : Z := 128.
Definition SOCK_FLAG_CLOSED : Z := 1 <<< 0.
Definition SOCK_FLAG_CONNECTED : Z := 1 <<< 1.
Definition SOCK_FLAG_SHUT_RD : Z := 1 <<< 2.
Definition SOCK_FLAG_SHUT_WR : Z := 1 <<< 3.
Definition SOCK_FLAG_SHUT_RDWR : Z := Z.lor SOCK_FLAG_SHUT_RD SOCK_FLAG_SHUT_WR.
Definition SOCK_FLAG_BOUND : Z := 1 <<< 4.
Definition SOCK_FLAG_LISTENING : Z := 1 <<< 5.
Definition SOCK_FLAG_CHILD : Z := 1 <<< 6.

Definition TCP_SYN_RETRYS : Z := 5.

Inductive tcp_state :=
  TCP_RETRY | TCP_SYN_SENT | TCP_SYN_RECIEVED | TCP_ESTABLISHED | TCP_FIN_WAITA | TCP_FIN_WAITB | TCP_CLOSED.

#[global] Instance tcp_state_eq_dec : EqDecision tcp_state.
Proof. solve_decision. Defined.

(** [ip_and_port_t]; the port is in network order. *)
Record ip_and_port := IpAndPort { ap_port : Z; ap_ip : ip }.

#[global] Instance ip_and_port_eq_dec : EqDecision ip_and_port.
Proof. solve_decision. Defined.

Definition IP_AND_PORT_NONE : ip_and_port := IpAndPort 0 IP_NONE.

Record tcp_pending := Pending {
  pd_dst_ip : ip;
  pd_seq_num : Z;
  pd_flags : Z;
  pd_window_size : Z;
  pd_urgent : Z;
  pd_src_port_net : Z;
  pd_dst_port_net : Z;
  pd_payload : list Z;
  pd_size : Z;
}.

Record tcp_data_conn := Conn {
  c_lock : bool;
  c_state : tcp_state;
  next_local_seq : Z;
  next_peer_seq : Z;
  recv_buff : Z -> Z;
  recv_buff_front : Z;
  recv_buff_back : Z;
  recv_buff_size : Z;
  retrys : Z;
  recv_semaphore : Z;
  established_semaphore : Z;
  queue : list tcp_pending;
}.

(** [connections] holds what the hash table holds, latest first. *)
Record tcp_data_listen := Listen {
  l_lock : bool;
  backlog : Z;
  accept_semaphore : Z;
  children : list Z;
  connections : list Z;
}.

Inductive private_data := PNull | PConn (d : tcp_data_conn) | PListen (d : tcp_data_listen).

Record sock := Sock {
  peer_inet : bool;
  peer_addr : ip_and_port;
  local_addr : option ip_and_port;
  sock_flags : Z;
  private : private_data;
}.

Definition FREELIST_END : Z := u32 (Z.lnot 0).
Definition PORT_NUM : Z := 65535 + 1.
Definition EPHEMERAL_START : Z := 49152.
Definition EPHEMERAL_END : Z := 65535.
Definition EPHEMERAL_NUM : Z := EPHEMERAL_END - EPHEMERAL_START + 1.

Record tcp := Tcp {
  socks : gmap Z sock;
  ports_sock : Z -> Z;
  ephemeral_ports_next : Z -> Z;
  ephemeral_ports_prev : Z -> Z;
  ephemeral_next : Z;
  port_lock : bool;
  holdrand : Z;
  out : list packet;
  resend : list Z;
  fresh_sock : Z;
}.

Definition set_c_lock (v : bool) (d : tcp_data_conn) : tcp_data_conn :=
  Conn v (c_state d) (next_local_seq d) (next_peer_seq d) (recv_buff d) (recv_buff_front d) (recv_buff_back d) (recv_buff_size d) (retrys d) (recv_semaphore d) (established_semaphore d) (queue d).
Definition set_c_state (v : tcp_state) (d : tcp_data_conn) : tcp_data_conn :=
  Conn (c_lock d) v (next_local_seq d) (next_peer_seq d) (recv_buff d) (recv_buff_front d) (recv_buff_back d) (recv_buff_size d) (retrys d) (recv_semaphore d) (established_semaphore d) (queue d).
Definition set_next_local_seq (v : Z) (d : tcp_data_conn) : tcp_data_conn :=
  Conn (c_lock d) (c_state d) v (next_peer_seq d) (recv_buff d) (recv_buff_front d) (recv_buff_back d) (recv_buff_size d) (retrys d) (recv_semaphore d) (established_semaphore d) (queue d).
Definition set_next_peer_seq (v : Z) (d : tcp_data_conn) : tcp_data_conn :=
  Conn (c_lock d) (c_state d) (next_local_seq d) v (recv_buff d) (recv_buff_front d) (recv_buff_back d) (recv_buff_size d) (retrys d) (recv_semaphore d) (established_semaphore d) (queue d).
Definition set_recv_buff (v : Z -> Z) (d : tcp_data_conn) : tcp_data_conn :=
  Conn (c_lock d) (c_state d) (next_local_seq d) (next_peer_seq d) v (recv_buff_front d) (recv_buff_back d) (recv_buff_size d) (retrys d) (recv_semaphore d) (established_semaphore d) (queue d).
Definition set_recv_buff_front (v : Z) (d : tcp_data_conn) : tcp_data_conn :=
  Conn (c_lock d) (c_state d) (next_local_seq d) (next_peer_seq d) (recv_buff d) v (recv_buff_back d) (recv_buff_size d) (retrys d) (recv_semaphore d) (established_semaphore d) (queue d).
Definition set_recv_buff_back (v : Z) (d : tcp_data_conn) : tcp_data_conn :=
  Conn (c_lock d) (c_state d) (next_local_seq d) (next_peer_seq d) (recv_buff d) (recv_buff_front d) v (recv_buff_size d) (retrys d) (recv_semaphore d) (established_semaphore d) (queue d).
Definition set_recv_buff_size (v : Z) (d : tcp_data_conn) : tcp_data_conn :=
  Conn (c_lock d) (c_state d) (next_local_seq d) (next_peer_seq d) (recv_buff d) (recv_buff_front d) (recv_buff_back d) v (retrys d) (recv_semaphore d) (established_semaphore d) (queue d).
Definition set_retrys (v : Z) (d : tcp_data_conn) : tcp_data_conn :=
  Conn (c_lock d) (c_state d) (next_local_seq d) (next_peer_seq d) (recv_buff d) (recv_buff_front d) (recv_buff_back d) (recv_buff_size d) v (recv_semaphore d) (established_semaphore d) (queue d).
Definition set_recv_semaphore (v : Z) (d : tcp_data_conn) : tcp_data_conn :=
  Conn (c_lock d) (c_state d) (next_local_seq d) (next_peer_seq d) (recv_buff d) (recv_buff_front d) (recv_buff_back d) (recv_buff_size d) (retrys d) v (established_semaphore d) (queue d).
Definition set_established_semaphore (v : Z) (d : tcp_data_conn) : tcp_data_conn :=
  Conn (c_lock d) (c_state d) (next_local_seq d) (next_peer_seq d) (recv_buff d) (recv_buff_front d) (recv_buff_back d) (recv_buff_size d) (retrys d) (recv_semaphore d) v (queue d).
Definition set_queue (v : list tcp_pending) (d : tcp_data_conn) : tcp_data_conn :=
  Conn (c_lock d) (c_state d) (next_local_seq d) (next_peer_seq d) (recv_buff d) (recv_buff_front d) (recv_buff_back d) (recv_buff_size d) (retrys d) (recv_semaphore d) (established_semaphore d) v.

Definition set_l_lock (v : bool) (d : tcp_data_listen) : tcp_data_listen :=
  Listen v (backlog d) (accept_semaphore d) (children d) (connections d).
Definition set_backlog (v : Z) (d : tcp_data_listen) : tcp_data_listen :=
  Listen (l_lock d) v (accept_semaphore d) (children d) (connections d).
Definition set_accept_semaphore (v : Z) (d : tcp_data_listen) : tcp_data_listen :=
  Listen (l_lock d) (backlog d) v (children d) (connections d).
Definition set_children (v : list Z) (d : tcp_data_listen) : tcp_data_listen :=
  Listen (l_lock d) (backlog d) (accept_semaphore d) v (connections d).
Definition set_connections (v : list Z) (d : tcp_data_listen) : tcp_data_listen :=
  Listen (l_lock d) (backlog d) (accept_semaphore d) (children d) v.

Definition set_peer_inet (v : bool) (k : sock) : sock :=
  Sock v (peer_addr k) (local_addr k) (sock_flags k) (private k).
Definition set_peer_addr (v : ip_and_port) (k : sock) : sock :=
  Sock (peer_inet k) v (local_addr k) (sock_flags k) (private k).
Definition set_local_addr (v : option ip_and_port) (k : sock) : sock :=
  Sock (peer_inet k) (peer_addr k) v (sock_flags k) (private k).
Definition set_sock_flags (v : Z) (k : sock) : sock :=
  Sock (peer_inet k) (peer_addr k) (local_addr k) v (private k).
Definition set_private (v : private_data) (k : sock) : sock :=
  Sock (peer_inet k) (peer_addr k) (local_addr k) (sock_flags k) v.

Definition set_socks (v : gmap Z sock) (s : tcp) : tcp :=
  Tcp v (ports_sock s) (ephemeral_ports_next s) (ephemeral_ports_prev s) (ephemeral_next s) (port_lock s) (holdrand s) (out s) (resend s) (fresh_sock s).
Definition set_ports_sock (v : Z -> Z) (s : tcp) : tcp :=
  Tcp (socks s) v (ephemeral_ports_next s) (ephemeral_ports_prev s) (ephemeral_next s) (port_lock s) (holdrand s) (out s) (resend s) (fresh_sock s).
Definition set_ephemeral_ports_next (v : Z -> Z) (s : tcp) : tcp :=
  Tcp (socks s) (ports_sock s) v (ephemeral_ports_prev s) (ephemeral_next s) (port_lock s) (holdrand s) (out s) (resend s) (fresh_sock s).
Definition set_ephemeral_ports_prev (v : Z -> Z) (s : tcp) : tcp :=
  Tcp (socks s) (ports_sock s) (ephemeral_ports_next s) v (ephemeral_next s) (port_lock s) (holdrand s) (out s) (resend s) (fresh_sock s).
Definition set_ephemeral_next (v : Z) (s : tcp) : tcp :=
  Tcp (socks s) (ports_sock s) (ephemeral_ports_next s) (ephemeral_ports_prev s) v (port_lock s) (holdrand s) (out s) (resend s) (fresh_sock s).
Definition set_port_lock (v : bool) (s : tcp) : tcp :=
  Tcp (socks s) (ports_sock s) (ephemeral_ports_next s) (ephemeral_ports_prev s) (ephemeral_next s) v (holdrand s) (out s) (resend s) (fresh_sock s).
Definition set_holdrand (v : Z) (s : tcp) : tcp :=
  Tcp (socks s) (ports_sock s) (ephemeral_ports_next s) (ephemeral_ports_prev s) (ephemeral_next s) (port_lock s) v (out s) (resend s) (fresh_sock s).
Definition set_out (v : list packet) (s : tcp) : tcp :=
  Tcp (socks s) (ports_sock s) (ephemeral_ports_next s) (ephemeral_ports_prev s) (ephemeral_next s) (port_lock s) (holdrand s) v (resend s) (fresh_sock s).
Definition set_resend (v : list Z) (s : tcp) : tcp :=
  Tcp (socks s) (ports_sock s) (ephemeral_ports_next s) (ephemeral_ports_prev s) (ephemeral_next s) (port_lock s) (holdrand s) (out s) v (fresh_sock s).
Definition set_fresh_sock (v : Z) (s : tcp) : tcp :=
  Tcp (socks s) (ports_sock s) (ephemeral_ports_next s) (ephemeral_ports_prev s) (ephemeral_next s) (port_lock s) (holdrand s) (out s) (resend s) v.

(** ** Access *)

Definition sock_at (k : Z) : M tcp sock := read (fun s => socks s !! k).
Definition upd_sock (k : Z) (f : sock -> sock) : M tcp unit :=
  x ← sock_at k; modify (fun s => set_socks (<[k := f x]> (socks s)) s).
Definition add_flags (k fl : Z) : M tcp unit := upd_sock k (fun x => set_sock_flags (Z.lor (sock_flags x) fl) x).

(** [sock->private] as a connection or as a listener. *)
Definition conn_at (k : Z) : M tcp tcp_data_conn :=
  x ← sock_at k; read (fun _ => match private x with PConn d => Some d | _ => None end).
Definition upd_conn (k : Z) (f : tcp_data_conn -> tcp_data_conn) : M tcp unit :=
  d ← conn_at k; upd_sock k (set_private (PConn (f d))).
Definition listen_at (k : Z) : M tcp tcp_data_listen :=
  x ← sock_at k; read (fun _ => match private x with PListen d => Some d | _ => None end).
Definition upd_listen (k : Z) (f : tcp_data_listen -> tcp_data_listen) : M tcp unit :=
  d ← listen_at k; upd_sock k (set_private (PListen (f d))).

Definition lock_conn (k : Z) : M tcp unit := d ← conn_at k; if c_lock d then spin else upd_conn k (set_c_lock true).
Definition unlock_conn (k : Z) : M tcp unit := upd_conn k (set_c_lock false).
Definition lock_listen (k : Z) : M tcp unit := d ← listen_at k; if l_lock d then spin else upd_listen k (set_l_lock true).
Definition unlock_listen (k : Z) : M tcp unit := upd_listen k (set_l_lock false).
Definition with_ports {A} (m : M tcp A) : M tcp A := locked (fun s => Some (port_lock s)) set_port_lock m.

Definition in_rand {A} (m : M Z A) : M tcp A := lift holdrand set_holdrand m.

(** Array accesses. *)
Definition get_port (i : Z) : M tcp Z := read (fun s => if (0 <=? i) && (i <? PORT_NUM) then Some (ports_sock s i) else None).
Definition set_port (i k : Z) : M tcp unit :=
  _ ← get_port i; modify (fun s => set_ports_sock (<[i := k]> (ports_sock s)) s).
Definition get_next (i : Z) : M tcp Z :=
  read (fun s => if (0 <=? i) && (i <? EPHEMERAL_NUM) then Some (ephemeral_ports_next s i) else None).
Definition set_next (i v : Z) : M tcp unit :=
  _ ← get_next i; modify (fun s => set_ephemeral_ports_next (<[i := v]> (ephemeral_ports_next s)) s).
Definition get_prev (i : Z) : M tcp Z :=
  read (fun s => if (0 <=? i) && (i <? EPHEMERAL_NUM) then Some (ephemeral_ports_prev s i) else None).
Definition set_prev (i v : Z) : M tcp unit :=
  _ ← get_prev i; modify (fun s => set_ephemeral_ports_prev (<[i := v]> (ephemeral_ports_prev s)) s).

(** ** Ports *)

Definition tcp_bind_port (k : Z) : M tcp Z :=
  with_ports (
    s ← get;
    if negb (ephemeral_next s =? FREELIST_END) then
      set_port (u32 (ephemeral_next s + EPHEMERAL_START)) k;;
      n ← get_next (ephemeral_next s);
      modify (set_ephemeral_next n);;
      mret (swap_uint16 (u16 (u32 (ephemeral_next s + EPHEMERAL_START))))
    else mret (swap_uint16 0)).

(** [port - EPHEMERAL_START] is an [int]: it is negative for a well-known port. *)
Definition tcp_unbind_port (port_net : Z) : M tcp unit :=
  let port := swap_uint16 port_net in
  with_ports (
    set_port port 0;;
    s ← get;
    set_prev (ephemeral_next s) (u32 (port - EPHEMERAL_START));;
    set_next (port - EPHEMERAL_START) (ephemeral_next s);;
    modify (set_ephemeral_next (u32 (port - EPHEMERAL_START)))).

(** The state before [ephemeral_init], and after it. *)
Fixpoint init_free (n : nat) (i : Z) (nx pv : Z -> Z) : (Z -> Z) * (Z -> Z) :=
  match n with
  | O => (nx, pv)
  | S n' => init_free n' (i + 1) (<[i := u32 (i + 1)]> nx) (<[i := u32 (i - 1)]> pv)
  end.

Definition ephemeral_init : M tcp unit :=
  modify (set_ports_sock (fun _ => 0));;
  s ← get;
  let '(nx, pv) := init_free (Z.to_nat EPHEMERAL_NUM) 0 (ephemeral_ports_next s) (ephemeral_ports_prev s) in
  modify (set_ephemeral_ports_next (<[EPHEMERAL_NUM - 1 := FREELIST_END]> nx));;
  modify (set_ephemeral_ports_prev (<[0 := FREELIST_END]> pv)).

Section Ops.
(** The primary interface's address. *)
Context (my_ip : ip).

Definition PAGE_SIZE : Z := 4096.

(** ** Sending *)

Definition send_out (o : option packet) : M tcp unit := p ← read (fun _ => o); modify (fun s => set_out (p :: out s) s).

(** The link layer reports what became of a packet; [k] is the callback's argument. *)
Definition tcp_callback (result : packet_result) (k : Z) : M tcp unit :=
  lock_conn k;;
  d ← conn_at k;
  (if bool_decide (c_state d = TCP_SYN_SENT) && bool_decide (result <> PRESULT_SUCCESS) then
     upd_conn k (set_c_state TCP_CLOSED);;
     upd_conn k (fun d => set_established_semaphore (u32 (established_semaphore d + 1)) d)
   else mret tt);;
  unlock_conn k.

Definition tcp_reset (k : Z) : M tcp unit :=
  r ← in_rand rand32;
  upd_conn k (fun d => set_recv_buff_size PAGE_SIZE (set_recv_buff_back (u32 (0 - 1)) (set_recv_buff_front 0
    (set_next_peer_seq 0 (set_next_local_seq r d))))).

(** The packet's callback is [tcp_callback] on [k]. *)
Definition tcp_queue_send (k : Z) (pd : tcp_pending) : M tcp unit :=
  d ← conn_at k;
  let ack := if has (pd_flags pd) TCP_FLAG_ACK then swap_uint32 (next_peer_seq d) else 0 in
  let p := packet_create k (pd_payload pd) (pd_size pd) in
  let p' := tcp_build my_ip p (pd_dst_ip pd) (pd_seq_num pd) ack (pd_flags pd) (pd_window_size pd) (pd_urgent pd)
    (pd_src_port_net pd) (pd_dst_port_net pd) in
  unlock_conn k;;
  send_out p';;
  lock_conn k.

Definition tcp_queue_add (k flags window_size urgent : Z) (payload : list Z) (payload_size : Z) : M tcp unit :=
  d ← conn_at k;
  x ← sock_at k;
  la ← read (fun _ => local_addr x);
  let pd := Pending (ap_ip (peer_addr x)) (swap_uint32 (next_local_seq d)) (u16 flags) window_size urgent
    (ap_port la) (ap_port (peer_addr x)) payload payload_size in
  upd_conn k (fun d => set_next_local_seq (u32 (next_local_seq d + (payload_size + if has flags TCP_FLAG_SYN then 1 else 0))) d);;
  upd_conn k (fun d => set_queue (queue d ++ [pd]) d);;
  tcp_queue_send k pd.

Definition _tcp_send_control (k flags window_size : Z) : M tcp unit :=
  d ← conn_at k;
  x ← sock_at k;
  la ← read (fun _ => local_addr x);
  send_out (tcp_build my_ip (packet_create 0 [] 0) (ap_ip (peer_addr x)) (swap_uint32 (next_local_seq d)) (swap_uint32 (next_peer_seq d))
    (u16 flags) (swap_uint16 window_size) 0 (ap_port la) (ap_port (peer_addr x))).

Definition tcp_send_ack (k window_size : Z) : M tcp unit := _tcp_send_control k TCP_FLAG_ACK window_size.
Definition tcp_send_rst (k window_size : Z) : M tcp unit := _tcp_send_control k (Z.lor TCP_FLAG_RST TCP_FLAG_ACK) window_size.

Definition tcp_resend_syn (k : Z) : M tcp unit :=
  d ← conn_at k;
  x ← sock_at k;
  if has (sock_flags x) SOCK_FLAG_CLOSED || bool_decide (c_state d = TCP_CLOSED) then mret tt
  else
    lock_conn k;;
    upd_conn k (set_c_state TCP_SYN_SENT);;
    tcp_queue_add k TCP_FLAG_SYN 14600 0 [] 0;;
    unlock_conn k.

(** ** Receiving *)

(** The acknowledged prefix of the queue: how many segments, and whether one of them was
    the FIN.  [seq_num] is in network order here, the acknowledgement in host order. *)
Fixpoint count_acked (q : list tcp_pending) (ack : Z) : nat * bool :=
  match q with
  | [] => (O, false)
  | pd :: q' =>
      if pd_seq_num pd >=? ack then (O, false)
      else let '(n, fin) := count_acked q' ack in (S n, has (pd_flags pd) TCP_FLAG_FIN || fin)
  end.

Definition tcp_ack_recieved (k : Z) (t : tcp_header) : M tcp unit :=
  d ← conn_at k;
  let '(n, fin) := count_acked (queue d) (swap_uint32 (ack_num t)) in
  (if (fin : bool) then upd_conn k (set_c_state TCP_FIN_WAITB) else mret tt);;
  upd_conn k (fun d => set_queue (drop n (queue d)) d).

(** [for(i = 0; i < len; i++)] of the copy into the receive buffer. *)
Fixpoint recv_copy (n : nat) (i : Z) (k : Z) (raw : list Z) : M tcp unit :=
  match n with
  | O => mret tt
  | S n' =>
      d ← conn_at k;
      if recv_buff_front d =? u32 (recv_buff_back d - 1) then mret tt
      else
        b ← read (fun _ => raw !! Z.to_nat i);
        _ ← read (fun _ => if recv_buff_front d <? PAGE_SIZE then Some tt else None);
        upd_conn k (fun d => set_recv_buff_front (u32 (recv_buff_front d + 1)) (set_recv_buff (<[recv_buff_front d := b]> (recv_buff d)) d));;
        recv_copy n' (i + 1) k raw
  end.

Definition fl (t : tcp_header) (f : Z) : bool := has (data_off_flags t) f.

Definition handle_syn_sent (k : Z) (t : tcp_header) (len : Z) : M tcp unit :=
  if fl t TCP_FLAG_ACK && fl t TCP_FLAG_SYN then
    tcp_ack_recieved k t;;
    upd_conn k (fun d => set_next_peer_seq (u32 (swap_uint32 (seq_num t) + len + 1)) (set_c_state TCP_ESTABLISHED d));;
    add_flags k SOCK_FLAG_CONNECTED;;
    tcp_send_ack k (window_size t);;
    upd_conn k (fun d => set_established_semaphore (u32 (established_semaphore d + 1)) d)
  else
    upd_conn k (fun d => set_retrys (u8 (retrys d + 1)) d);;
    d ← conn_at k;
    if retrys d >? TCP_SYN_RETRYS then
      upd_conn k (fun d => set_established_semaphore (u32 (established_semaphore d + 1)) (set_c_state TCP_CLOSED d))
    else
      tcp_send_rst k (window_size t);;
      tcp_reset k;;
      upd_conn k (set_c_state TCP_RETRY);;
      modify (fun s => set_resend (k :: resend s) s).

Definition handle_syn_recieved (k : Z) (t : tcp_header) : M tcp unit :=
  d ← conn_at k;
  if next_peer_seq d =? swap_uint32 (seq_num t) then
    if fl t TCP_FLAG_ACK && negb (fl t TCP_FLAG_SYN) then
      if negb (swap_uint32 (ack_num t) =? next_local_seq d) then mret tt
      else
        upd_conn k (set_c_state TCP_ESTABLISHED);;
        add_flags k SOCK_FLAG_CONNECTED
    else mret tt
  else mret tt.

(** True when processing goes on after the payload, false on an early return. *)
Definition handle_payload (k : Z) (t : tcp_header) (raw : list Z) (len : Z) : M tcp bool :=
  if len >? 0 then
    d ← conn_at k;
    if next_peer_seq d >? swap_uint32 (seq_num t) then mret false
    else if next_peer_seq d <? swap_uint32 (seq_num t) then tcp_send_ack k (window_size t);; mret false
    else
      upd_conn k (set_next_peer_seq (u32 (swap_uint32 (seq_num t) + len)));;
      x ← sock_at k;
      (if negb (has (sock_flags x) SOCK_FLAG_SHUT_RD) then
         d ← conn_at k;
         if negb (recv_buff_front d =? u32 (recv_buff_back d - 1)) then recv_copy (Z.to_nat len) 0 k raw else mret tt
       else mret tt);;
      upd_conn k (fun d => set_recv_semaphore (u32 (recv_semaphore d + 1)) d);;
      mret true
  else mret true.

Definition handle_established (k : Z) (t : tcp_header) (raw : list Z) (len : Z) : M tcp unit :=
  (if fl t TCP_FLAG_ACK then tcp_ack_recieved k t else mret tt);;
  go ← handle_payload k t raw len;
  if (go : bool) then
    (if fl t TCP_FLAG_FIN then add_flags k SOCK_FLAG_SHUT_RD else mret tt);;
    x ← sock_at k;
    (if fl t TCP_FLAG_RST || has (sock_flags x) SOCK_FLAG_SHUT_RDWR then upd_conn k (set_c_state TCP_CLOSED) else mret tt);;
    if (len >? 0) || fl t (Z.lor TCP_FLAG_SYN TCP_FLAG_FIN) then tcp_send_ack k (window_size t) else mret tt
  else mret tt.

Definition tcp_sock_handle (k : Z) (t : tcp_header) (raw : list Z) (len : Z) : M tcp unit :=
  d ← conn_at k;
  match c_state d with
  | TCP_SYN_SENT => handle_syn_sent k t len
  | TCP_SYN_RECIEVED => handle_syn_recieved k t
  | TCP_FIN_WAITA | TCP_FIN_WAITB | TCP_ESTABLISHED => handle_established k t raw len
  | TCP_RETRY | TCP_CLOSED => mret tt
  end.

(** The first connection of the listener with this peer and port. *)
Fixpoint find_child (l : list Z) (src : ip) (sp dp : Z) : M tcp (option Z) :=
  match l with
  | [] => mret None
  | c :: l' =>
      x ← sock_at c;
      la ← read (fun _ => local_addr x);
      if bool_decide (ap_ip (peer_addr x) = src) && (ap_port (peer_addr x) =? sp) && (ap_port la =? dp)
      then mret (Some c) else find_child l' src sp dp
  end.

(** [sock_open(&af_inet, &tcp_protocol)]. *)
Definition tcp_open : M tcp Z :=
  s ← get;
  let k := fresh_sock s in
  modify (fun s => set_fresh_sock (k + 1) (set_socks (<[k := Sock false IP_AND_PORT_NONE None 0 PNull]> (socks s)) s));;
  mret k.

(** [junk_b] and [junk_q] are what a new connection's buffer and queue held. *)
Definition new_conn (junk_b : Z -> Z) (st : tcp_state) : tcp_data_conn :=
  Conn false st 0 0 junk_b 0 0 0 0 0 0 [].

(** A SYN from a peer that is not known yet. *)
Definition accept_syn (junk_b : Z -> Z) (k : Z) (src : ip) (t : tcp_header) (len : Z) : M tcp unit :=
  upd_listen k (fun d => set_backlog (u32 (backlog d - 1)) d);;
  x ← sock_at k;
  c ← tcp_open;
  upd_sock c (fun y => set_sock_flags (Z.lor (sock_flags y) (Z.lor SOCK_FLAG_CONNECTED SOCK_FLAG_CHILD))
    (set_local_addr (local_addr x) (set_peer_addr (IpAndPort (tcp_src_port t) src) (set_peer_inet true y))));;
  upd_sock c (set_private (PConn (new_conn junk_b TCP_RETRY)));;
  tcp_reset c;;
  upd_conn c (set_c_state TCP_SYN_RECIEVED);;
  r ← in_rand rand32;
  upd_conn c (fun d => set_next_peer_seq (u32 (swap_uint32 (seq_num t) + len + 1)) (set_next_local_seq r d));;
  lock_conn c;;
  upd_listen k (fun d => set_connections (c :: connections d) (set_children (children d ++ [c]) d));;
  tcp_queue_add c (Z.lor TCP_FLAG_SYN TCP_FLAG_ACK) 14600 0 [] 0;;
  upd_listen k (fun d => set_accept_semaphore (u32 (accept_semaphore d + 1)) d);;
  unlock_conn c.

(** [raw] are the bytes that follow the 20-byte header, wherever the data starts. *)
Definition tcp_handle (junk_b : Z -> Z) (h : ip_header) (t : tcp_header) (raw : list Z) : M tcp unit :=
  let len := u16 (swap_uint16 (total_length h) - (IP_IHL (version_ihl h) * 4 + TCP_DATA_OFF (data_off_flags t) * 4)) in
  k ← with_ports (get_port (swap_uint16 (tcp_dst_port t)));
  if negb (k =? 0) then
    x ← sock_at k;
    if has (sock_flags x) SOCK_FLAG_LISTENING then
      lock_listen k;;
      d ← listen_at k;
      c ← find_child (connections d) (ip_src h) (tcp_src_port t) (tcp_dst_port t);
      (match c with
       | Some c => tcp_sock_handle c t raw len
       | None =>
           if fl t TCP_FLAG_SYN && negb (fl t TCP_FLAG_ACK) && negb (backlog d =? 0)
           then accept_syn junk_b k (ip_src h) t len else mret tt
       end);;
      unlock_listen k
    else
      lock_conn k;;
      x ← sock_at k;
      la ← read (fun _ => local_addr x);
      (if bool_decide (ap_ip (peer_addr x) = ip_src h) && (ap_port (peer_addr x) =? tcp_src_port t) && (ap_port la =? tcp_dst_port t)
       then tcp_sock_handle k t raw len else mret tt);;
      unlock_conn k
  else mret tt.

(** ** Socket operations *)

(** A child is taken off its listener's lists.  A child that was accepted is no longer on
    the list of children: its stale links are a fault. *)
Definition is_child_of (k : Z) (y : sock) : bool :=
  match private y with PListen l => bool_decide (k ∈ children l) | _ => false end.
Definition unlink_child (k : Z) (m : gmap Z sock) : option (gmap Z sock) :=
  if existsb (fun '(_, y) => is_child_of k y) (map_to_list m) then
    Some ((fun y => match private y with
      | PListen l => set_private (PListen (set_connections (seq_rm k (connections l)) (set_children (seq_rm k (children l)) l))) y
      | _ => y end) <$> m)
  else None.

(** Closing a connection, child or not. *)
Definition close_conn (k : Z) : M tcp unit :=
  lock_conn k;;
  d ← conn_at k;
  x ← sock_at k;
  (if bool_decide (c_state d <> TCP_CLOSED) && peer_inet x then tcp_send_rst k 0 else mret tt);;
  (if has (sock_flags x) SOCK_FLAG_CHILD then l ← read (fun s => unlink_child k (socks s)); modify (set_socks l)
   else
     match local_addr x with
     | Some la => tcp_unbind_port (ap_port la)
     | None => mret tt
     end);;
  unlock_conn k;; lock_conn k;; unlock_conn k.

(** [sock_close] of a child: once. *)
Definition close_child (c : Z) : M tcp unit :=
  x ← sock_at c;
  (if negb (has (sock_flags x) SOCK_FLAG_CLOSED) then add_flags c SOCK_FLAG_CLOSED;; close_conn c else mret tt);;
  modify (fun s => set_socks (delete c (socks s)) s).

Fixpoint close_children (l : list Z) : M tcp unit :=
  match l with
  | [] => mret tt
  | c :: l' => close_child c;; close_children l'
  end.

Definition tcp_close (k : Z) : M tcp unit :=
  x ← sock_at k;
  if has (sock_flags x) SOCK_FLAG_LISTENING then
    lock_listen k;;
    d ← listen_at k;
    close_children (children d);;
    upd_listen k (set_children []);;
    la ← read (fun _ => local_addr x);
    tcp_unbind_port (ap_port la);;
    unlock_listen k
  else close_conn k.

(** The address made for an unbound socket is not stored in it. *)
Definition tcp_listen (k b : Z) : M tcp bool :=
  x ← sock_at k;
  (if negb (has (sock_flags x) SOCK_FLAG_BOUND) then _ ← tcp_bind_port k; mret tt else mret tt);;
  add_flags k SOCK_FLAG_LISTENING;;
  upd_sock k (set_private (PListen (Listen false (if negb (b =? 0) && (b <? SOMAXCONN) then b else SOMAXCONN) 0 [] [])));;
  mret true.

(** The outcome of a round of [tcp_accept]: an error number, a child, or a wait for the
    semaphore. *)
Inductive accepted := AcceptError (e : Z) | Accepted (c : Z) | AcceptWaits.

Definition EINTR : Z := 4.

(** Up to the semaphore, on which the thread gives up when a signal is pending. *)
Definition accept_start (k : Z) : M tcp accepted :=
  with_ports (
    x ← sock_at k;
    mret (if has (sock_flags x) SOCK_FLAG_LISTENING then
            if has (sock_flags x) SOCK_FLAG_SHUT_RDWR then AcceptError (- EINVAL) else AcceptWaits
          else AcceptError (- EINVAL))).

(** One turn of the loop once the semaphore has a unit, or a signal is pending. *)
Definition accept_round (signal : bool) (k : Z) : M tcp accepted :=
  d ← listen_at k;
  if accept_semaphore d =? 0 then mret (if signal then AcceptError (- EINTR) else AcceptWaits)
  else
    upd_listen k (fun d => set_accept_semaphore (u32 (accept_semaphore d - 1)) d);;
    with_ports (
      lock_listen k;;
      x ← sock_at k;
      d ← listen_at k;
      r ← (if has (sock_flags x) SOCK_FLAG_SHUT_RDWR then mret (AcceptError (- EINVAL))
           else match children d with
             | [] => mret AcceptWaits
             | c :: l =>
                 upd_listen k (set_children (seq_rm c (children d)));;
                 y ← sock_at c;
                 BUG_ON (negb (has (sock_flags y) SOCK_FLAG_CONNECTED));;
                 mret (Accepted c)
             end);
      unlock_listen k;;
      mret r).

(** [addr] is the Internet address given; other families are accepted and ignored.  The
    port table is looked up with the port in network order. *)
Definition tcp_bind (k : Z) (inet : bool) (addr : ip_and_port) : M tcp bool :=
  if inet then
    if bool_decide (ap_ip addr <> IP_NONE) then mret false
    else
      upd_sock k (set_local_addr (Some addr));;
      let port := swap_uint16 (ap_port addr) in
      ok ← with_ports (
        used ← get_port (ap_port addr);
        if negb (used =? 0) then mret false
        else
          (if port >=? EPHEMERAL_START then
             s ← get;
             let off := port - EPHEMERAL_START in
             if ephemeral_next s =? off then _ ← tcp_bind_port k; mret tt
             else
               set_port port k;;
               nx ← get_next off; pv ← get_prev off;
               set_prev nx pv;;
               set_next pv nx
           else set_port port k);;
          mret true);
      if (ok : bool) then add_flags k SOCK_FLAG_BOUND;; mret true else mret false
  else mret true.

(** Up to the wait for the answer. *)
Definition connect_start (junk_b : Z -> Z) (k : Z) (addr : ip_and_port) : M tcp unit :=
  upd_sock k (fun x => set_private (PConn (new_conn junk_b TCP_RETRY)) (set_peer_addr addr (set_peer_inet true x)));;
  tcp_reset k;;
  lock_conn k;;
  upd_conn k (set_c_state TCP_SYN_SENT);;
  x ← sock_at k;
  (if negb (has (sock_flags x) SOCK_FLAG_BOUND) then
     p ← tcp_bind_port k;
     upd_sock k (set_local_addr (Some (IpAndPort p IP_NONE)))
   else mret tt);;
  tcp_queue_add k TCP_FLAG_SYN 14600 0 [] 0;;
  unlock_conn k.

(** Once the semaphore has a unit; [None]: not yet. *)
Definition connect_finish (k : Z) : M tcp (option bool) :=
  d ← conn_at k;
  if established_semaphore d =? 0 then mret None
  else
    upd_conn k (fun d => set_established_semaphore (u32 (established_semaphore d - 1)) d);;
    lock_conn k;;
    d ← conn_at k;
    unlock_conn k;;
    mret (Some (bool_decide (c_state d = TCP_ESTABLISHED))).

Definition tcp_shutdown (k how : Z) : M tcp bool :=
  x ← sock_at k;
  if peer_inet x then
    lock_conn k;;
    (if has how SOCK_FLAG_SHUT_RD then add_flags k SOCK_FLAG_SHUT_RD else mret tt);;
    (if has how SOCK_FLAG_SHUT_WR then
       add_flags k SOCK_FLAG_SHUT_WR;;
       upd_conn k (set_c_state TCP_FIN_WAITA);;
       tcp_queue_add k (Z.lor TCP_FLAG_FIN TCP_FLAG_ACK) 14600 0 [] 0
     else mret tt);;
    unlock_conn k;;
    mret true
  else mret false.

Definition tcp_send (k : Z) (buff : list Z) (len : Z) : M tcp Z :=
  lock_conn k;;
  d ← conn_at k;
  x ← sock_at k;
  if bool_decide (c_state d = TCP_CLOSED) || negb (peer_inet x) || has (sock_flags x) SOCK_FLAG_SHUT_WR
  then unlock_conn k;; mret (u32 (-1))
  else
    tcp_queue_add k TCP_FLAG_ACK 14600 0 buff len;;
    unlock_conn k;;
    mret len.

(** [tcp_recv]'s loop: [n] bytes are still wanted, [got] have been copied.  It returns
    the bytes, or blocks with those copied so far. *)
Inductive received := Received (l : list Z) | RecvBlocks (l : list Z) | RecvError.

Fixpoint recv_loop (n : nat) (k : Z) (got : list Z) : M tcp received :=
  match n with
  | O => mret (Received got)
  | S n' =>
      d ← conn_at k;
      x ← sock_at k;
      if u32 (recv_buff_back d + 1) =? recv_buff_front d then
        if has (sock_flags x) SOCK_FLAG_SHUT_RD then mret (Received got) else mret (RecvBlocks got)
      else
        let back := u32 (recv_buff_back d + 1) mod recv_buff_size d in
        upd_conn k (set_recv_buff_back back);;
        b ← read (fun _ => if back <? PAGE_SIZE then Some (recv_buff d back) else None);
        recv_loop n' k (got ++ [b])
  end.

Definition tcp_recv (k len : Z) : M tcp received :=
  x ← sock_at k;
  if negb (peer_inet x) then mret RecvError
  else
    lock_conn k;;
    d ← conn_at k;
    if (u32 (recv_buff_back d + 1) =? recv_buff_front d) && bool_decide (c_state d = TCP_CLOSED)
    then unlock_conn k;; mret RecvError
    else r ← recv_loop (Z.to_nat len) k []; unlock_conn k;; mret r.

(** Woken by the semaphore with [got] bytes copied. *)
Definition recv_resume (k len : Z) (got : list Z) : M tcp received :=
  d ← conn_at k;
  if recv_semaphore d =? 0 then mret (RecvBlocks got)
  else
    upd_conn k (fun d => set_recv_semaphore (u32 (recv_semaphore d - 1)) d);;
    lock_conn k;;
    x ← sock_at k;
    r ← (if has (sock_flags x) SOCK_FLAG_SHUT_RD then mret (Received got)
         else recv_loop (Z.to_nat len - length got) k got);
    unlock_conn k;;
    mret r.
End Ops.
