(* ===== verification/TcpStream.v ===== *)
(** * TcpStream: what a connection delivers

    Theorems on [Tcp]: the order of the bytes a reader gets, the port table. *)

From S2P Require Import Prelude Words Net Tcp.

(** ** Specifications of the accessors *)

(** Socket [k] is [x], a connection with data [d]. *)
Definition at_conn (s : tcp) (k : Z) (x : sock) (d : tcp_data_conn) : Prop := socks s !! k = Some x /\ private x = PConn d.

(** Nothing but socket [k] and the outgoing packets has changed. *)
Definition only (k : Z) (s s' : tcp) : Prop :=
  (forall j, j <> k -> socks s' !! j = socks s !! j) /\ ports_sock s' = ports_sock s /\
  ephemeral_ports_next s' = ephemeral_ports_next s /\ ephemeral_ports_prev s' = ephemeral_ports_prev s /\
  ephemeral_next s' = ephemeral_next s /\ port_lock s' = port_lock s.

Lemma only_refl k s : only k s s.
Proof. done. Qed.
Lemma only_trans k s1 s2 s3 : only k s1 s2 -> only k s2 s3 -> only k s1 s3.
Proof.
  intros (A1 & A2 & A3 & A4 & A5 & A6) (B1 & B2 & B3 & B4 & B5 & B6). split; [intros j Hj; by rewrite B1, A1|].
  rewrite B2, B3, B4, B5, B6. done.
Qed.

Lemma conn_at_spec s k x d (Q : tcp_data_conn -> tcp -> Prop) : at_conn s k x d -> Q d s -> runs (conn_at k) s Q.
Proof. intros [Hk Hp] HQ. unfold conn_at, sock_at. mstep. eapply runs_read; [exact Hk|]. eapply runs_read; [by rewrite Hp|done]. Qed.
Lemma sock_at_spec s k x d (Q : sock -> tcp -> Prop) : at_conn s k x d -> Q x s -> runs (sock_at k) s Q.
Proof. intros [Hk _] HQ. unfold sock_at. eapply runs_read; [exact Hk|done]. Qed.
Lemma upd_conn_spec s k x d f (Q : unit -> tcp -> Prop) : at_conn s k x d ->
  (forall s', at_conn s' k (set_private (PConn (f d)) x) (f d) -> only k s s' -> Q tt s') -> runs (upd_conn k f) s Q.
Proof.
  intros Hc HQ. unfold upd_conn. mstep. eapply conn_at_spec; [exact Hc|]. unfold upd_sock. mstep. eapply sock_at_spec; [exact Hc|]. mstep. apply HQ.
  - split; [cbn; apply lookup_insert_eq|done].
  - split; [|done]. intros j Hj. cbn. by rewrite lookup_insert_ne.
Qed.

Lemma set_private_twice a b x : set_private a (set_private b x) = set_private a x.
Proof. reflexivity. Qed.

(** A peer that can be answered. *)
Definition peer_ok (x : sock) : Prop :=
  ip_ok (ap_ip (peer_addr x)) /\ is_word (ap_port (peer_addr x)) /\ exists la, local_addr x = Some la /\ is_word (ap_port la).

Lemma swap_uint32_range v : 0 <= swap_uint32 v < 2 ^ 32.
Proof. unfold swap_uint32. repeat first [apply lor_range|apply shiftr_range|apply land_range|apply uwrap_range|lia]. Qed.

Section Stream.
Context (my_ip : ip) (Hmy : ip_ok my_ip).

Lemma send_control_spec s k x d flags w (Q : unit -> tcp -> Prop) : at_conn s k x d -> peer_ok x ->
  (forall s', at_conn s' k x d -> only k s s' -> Q tt s') -> runs (_tcp_send_control my_ip k flags w) s Q.
Proof.
  intros Hc (Hip & Hp & la & Hla & Hlp) HQ. unfold _tcp_send_control. mstep. eapply conn_at_spec; [exact Hc|]. mstep. eapply sock_at_spec; [exact Hc|]. mstep.
  eapply runs_read; [exact Hla|]. unfold send_out. mstep.
  destruct (tcp_build_spec my_ip (packet_create 0 [] 0) (ap_ip (peer_addr x)) (swap_uint32 (next_local_seq d)) (swap_uint32 (next_peer_seq d)) (u16 flags) (swap_uint16 w) 0
    (ap_port la) (ap_port (peer_addr x))) as (p' & _ & _ & E & _); [done|done|apply swap_uint32_range|apply swap_uint32_range|done|done|by split|].
  eapply runs_read; [exact E|]. mstep. apply HQ; [exact Hc|done].
Qed.

(** ** Arrival of data *)

(** The connection after the acknowledgement field was looked at. *)
Lemma ack_recieved_spec s k x d t (Q : unit -> tcp -> Prop) : at_conn s k x d ->
  (forall s' st' q', at_conn s' k (set_private (PConn (set_queue q' (set_c_state st' d))) x) (set_queue q' (set_c_state st' d)) -> only k s s' ->
     st' = c_state d \/ st' = TCP_FIN_WAITB -> Q tt s') ->
  runs (tcp_ack_recieved k t) s Q.
Proof.
  intros Hc HQ. unfold tcp_ack_recieved. mstep. eapply conn_at_spec; [exact Hc|]. destruct (count_acked _ _) as [n fin]. mstep. destruct fin.
  - eapply upd_conn_spec; [exact Hc|]. intros s1 H1 O1. eapply upd_conn_spec; [exact H1|]. intros s2 H2 O2.
    rewrite set_private_twice in H2. eapply HQ; [exact H2|by eapply only_trans|by right].
  - mstep. eapply upd_conn_spec; [exact Hc|]. intros s2 H2 O2. apply (HQ s2 (c_state d) (drop n (queue d))); [by destruct d|done|by left].
Qed.

(** The peer's stream: byte [j] has sequence number [base + j]. *)
Context (stream : Z -> Z) (base : Z).

(** [n] bytes of the stream have arrived and [c] of them have been read. *)
Record holds (d : tcp_data_conn) (n c : Z) : Prop := Holds {
  h_range : 0 <= c <= n /\ n <= PAGE_SIZE /\ 0 <= base /\ base + n < 2 ^ 32;
  h_peer : next_peer_seq d = base + n;
  h_front : recv_buff_front d = n;
  h_back : recv_buff_back d = u32 (c - 1);
  h_size : recv_buff_size d = PAGE_SIZE;
  h_data : forall j, c <= j < n -> recv_buff d j = stream j;
}.

Lemma not_full d n c : holds d n c -> (recv_buff_front d =? u32 (recv_buff_back d - 1)) = false.
Proof.
  intros [(Hc & Hn & _) _ -> -> _ _]. apply Z.eqb_neq. unfold PAGE_SIZE in Hn. unfold uwrap. rewrite Zminus_mod_idemp_l.
  destruct (decide (c <= 1)) as [Hc1|Hc1]; [|rewrite Z.mod_small by lia; lia].
  rewrite <- (Z.mod_unique (c - 1 - 1) (2 ^ 32) (-1) (2 ^ 32 + c - 2)) by lia. lia.
Qed.

(** [len] bytes of [raw], which continue the stream at [n], are copied. *)
Lemma recv_copy_spec k raw x : forall len i s d n c (Q : unit -> tcp -> Prop),
  at_conn s k (set_private (PConn d) x) d -> holds (set_next_peer_seq (base + n) d) n c -> n + Z.of_nat len <= PAGE_SIZE -> base + n + Z.of_nat len < 2 ^ 32 -> 0 <= i ->
  (forall j, (j < len)%nat -> raw !! (Z.to_nat i + j)%nat = Some (stream (n + Z.of_nat j))) ->
  (forall s' d', at_conn s' k (set_private (PConn d') x) d' -> only k s s' -> c_state d' = c_state d -> c_lock d' = c_lock d -> next_peer_seq d' = next_peer_seq d ->
     holds (set_next_peer_seq (base + (n + Z.of_nat len)) d') (n + Z.of_nat len) c -> Q tt s') ->
  runs (recv_copy len i k raw) s Q.
Proof.
  induction len as [|len IH]; intros i s d n c Q Hc Hh Hn Hb Hi Hraw HQ; cbn [recv_copy].
  - mstep. apply (HQ s d); try done. by rewrite Z.add_0_r.
  - mstep. eapply conn_at_spec; [exact Hc|]. pose proof (not_full _ _ _ Hh) as Hnf. cbn in Hnf. rewrite Hnf. mstep.
    eapply runs_read; [rewrite <- (Nat.add_0_r (Z.to_nat i)); apply Hraw; lia|]. rewrite Z.add_0_r. mstep.
    pose proof (h_front _ _ _ Hh) as Hfr. cbn in Hfr. destruct (h_range _ _ _ Hh) as (Hcn & _).
    eapply runs_read; [rewrite Hfr; by rewrite (proj2 (Z.ltb_lt _ _)) by lia|]. mstep. eapply upd_conn_spec; [exact Hc|]. intros s1 H1 O1. rewrite set_private_twice in H1.
    set (d1 := set_recv_buff_front _ _) in H1. eapply (IH (i + 1) s1 d1 (n + 1) c); [exact H1| |lia|lia|lia| |].
    + destruct Hh as [Hr _ _ Hbk Hsz Hd]. unfold PAGE_SIZE in *. split; try done.
      * unfold PAGE_SIZE. lia.
      * cbn. rewrite Hfr. apply uwrap_small. lia.
      * intros j Hj. cbn. rewrite Hfr. destruct (decide (j = n)) as [->|]; [by rewrite fn_insert_eq|]. rewrite fn_insert_ne by done. apply Hd. lia.
    + intros j Hj. replace (Z.to_nat (i + 1) + j)%nat with (Z.to_nat i + S j)%nat by lia. rewrite Hraw by lia. do 2 f_equal. lia.
    + intros s' d' Ha Ho E1 E2 E3 Hh'. apply (HQ s' d'); try done; [by eapply only_trans|]. by replace (n + Z.of_nat (S len)) with (n + 1 + Z.of_nat len) by lia.
Qed.

(** A data segment of the stream: none of the control flags, its bytes where its
    sequence number says, within the first page. *)
Record segment := Segment { sg_hdr : tcp_header; sg_raw : list Z; sg_len : Z }.

Definition seq_of (g : segment) : Z := swap_uint32 (seq_num (sg_hdr g)).
Definition segment_ok (g : segment) : Prop :=
  fl (sg_hdr g) TCP_FLAG_FIN = false /\ fl (sg_hdr g) TCP_FLAG_RST = false /\ 0 <= sg_len g /\
  seq_of g - base + sg_len g <= PAGE_SIZE /\
  forall j, 0 <= j < sg_len g -> sg_raw g !! Z.to_nat j = Some (stream (seq_of g - base + j)).

Definition open_state (st : tcp_state) : Prop := st = TCP_ESTABLISHED \/ st = TCP_FIN_WAITA \/ st = TCP_FIN_WAITB.

(** How much of the stream is held once segment [g] has been looked at. *)
Definition absorb (n : Z) (g : segment) : Z := if (sg_len g >? 0) && (seq_of g =? base + n) then n + sg_len g else n.

(** A connection that delivers the stream. *)
Record delivering (s : tcp) (k n c : Z) (x : sock) (d : tcp_data_conn) : Prop := Delivering {
  dl_at : at_conn s k x d;
  dl_state : open_state (c_state d);
  dl_peer : peer_ok x;
  dl_inet : peer_inet x = true;
  dl_flags : has (sock_flags x) SOCK_FLAG_SHUT_RDWR = false;
  dl_lock : c_lock d = false;
  dl_holds : holds d n c;
}.

Lemma shut_rd_off fl : has fl SOCK_FLAG_SHUT_RDWR = false -> has fl SOCK_FLAG_SHUT_RD = false.
Proof.
  unfold has. rewrite !negb_false_iff, !Z.eqb_eq. intros H. change SOCK_FLAG_SHUT_RD with (Z.land SOCK_FLAG_SHUT_RDWR SOCK_FLAG_SHUT_RD).
  by rewrite Z.land_assoc, H.
Qed.

Lemma holds_frame d d' n c : holds d n c -> next_peer_seq d' = next_peer_seq d -> recv_buff d' = recv_buff d -> recv_buff_front d' = recv_buff_front d ->
  recv_buff_back d' = recv_buff_back d -> recv_buff_size d' = recv_buff_size d -> holds d' n c.
Proof. intros [] E1 E2 E3 E4 E5. split; by rewrite ?E1, ?E2, ?E3, ?E4, ?E5. Qed.

Lemma set_private_same x d : private x = PConn d -> set_private (PConn d) x = x.
Proof. intros <-. by destruct x. Qed.

Lemma handle_payload_spec s k n c x d g (Q : bool -> tcp -> Prop) :
  at_conn s k x d -> peer_ok x -> has (sock_flags x) SOCK_FLAG_SHUT_RD = false -> holds d n c -> segment_ok g -> base + PAGE_SIZE < 2 ^ 32 ->
  (forall b s' d', at_conn s' k (set_private (PConn d') x) d' -> only k s s' -> c_state d' = c_state d -> c_lock d' = c_lock d -> holds d' (absorb n g) c -> Q b s') ->
  runs (handle_payload my_ip k (sg_hdr g) (sg_raw g) (sg_len g)) s Q.
Proof.
  intros Hc Hpo Hfl Hh (_ & _ & Hl0 & Hfit & Hdata) Hbase HQ. unfold handle_payload. pose proof (set_private_same x d (proj2 Hc)) as Ex.
  unfold absorb in HQ. rewrite Z.gtb_ltb in *. destruct (Z.ltb_spec 0 (sg_len g)) as [Hpos|]; cbn [andb] in HQ.
  2: { mstep. apply (HQ true s d); try done. by rewrite Ex. }
  fold (seq_of g) in *. mstep. eapply conn_at_spec; [exact Hc|]. pose proof (h_peer _ _ _ Hh) as Hnp. rewrite !Z.gtb_ltb, Hnp.
  destruct (Z.ltb_spec (seq_of g) (base + n)).
  { mstep. destruct (Z.eqb_spec (seq_of g) (base + n)); [lia|]. apply (HQ false s d); try done. by rewrite Ex. }
  destruct (Z.ltb_spec (base + n) (seq_of g)).
  { mstep. eapply send_control_spec; [exact Hc|exact Hpo|]. intros s1 H1 O1. mstep. destruct (Z.eqb_spec (seq_of g) (base + n)); [lia|].
    apply (HQ false s1 d); try done. by rewrite Ex. }
  assert (Eseq : seq_of g = base + n) by lia. rewrite Eseq, Z.eqb_refl in *. replace (base + n - base) with n in * by lia.
  destruct (h_range _ _ _ Hh) as (Hcn & Hn & Hb0 & Hb). unfold PAGE_SIZE in *. mstep. eapply upd_conn_spec; [exact Hc|]. rewrite uwrap_small by lia. intros s1 H1 O1.
  mstep. eapply sock_at_spec; [exact H1|]. cbn [sock_flags set_private]. rewrite Hfl. cbn [negb]. do 2 mstep. eapply conn_at_spec; [exact H1|].
  set (d1 := set_next_peer_seq _ d) in *. assert (Hh1 : holds (set_next_peer_seq (base + n) d1) n c) by (eapply holds_frame; [exact Hh|by rewrite Hnp|done..]).
  pose proof (not_full _ _ _ Hh1) as Hnf. cbn in Hnf |- *. rewrite Hnf. cbn [negb].
  eapply (recv_copy_spec k (sg_raw g) x (Z.to_nat (sg_len g)) 0 s1 d1 n c); [exact H1|exact Hh1|rewrite Z2Nat.id by lia; unfold PAGE_SIZE; lia|lia|lia| |].
  { intros j Hj. rewrite Z2Nat.inj_0, Nat.add_0_l, <- (Nat2Z.id j). rewrite Hdata by lia. by rewrite Nat2Z.id. }
  intros s2 d2 H2 O2 E1 E2 E3 Hh2. mstep. eapply upd_conn_spec; [exact H2|]. intros s3 H3 O3. mstep. rewrite set_private_twice in H3.
  rewrite Z2Nat.id in Hh2 by lia. eapply (HQ true s3); [exact H3|by do 2 (eapply only_trans; [eassumption|])|done|done|].
  eapply holds_frame; [exact Hh2|cbn; rewrite E3; cbn; lia|done..].
Qed.

(** One segment. *)
Lemma sock_handle_spec s k n c x d g (Q : unit -> tcp -> Prop) :
  at_conn s k x d -> open_state (c_state d) -> peer_ok x -> has (sock_flags x) SOCK_FLAG_SHUT_RDWR = false -> holds d n c ->
  segment_ok g -> base + PAGE_SIZE < 2 ^ 32 ->
  (forall s' d', at_conn s' k (set_private (PConn d') x) d' -> only k s s' -> open_state (c_state d') -> c_lock d' = c_lock d -> holds d' (absorb n g) c -> Q tt s') ->
  runs (tcp_sock_handle my_ip k (sg_hdr g) (sg_raw g) (sg_len g)) s Q.
Proof.
  intros Hc Hst Hpo Hfl Hh Hg Hbase HQ. unfold tcp_sock_handle. mstep. eapply conn_at_spec; [exact Hc|].
  cut (runs (handle_established my_ip k (sg_hdr g) (sg_raw g) (sg_len g)) s Q); [by destruct Hst as [->|[->| ->]]|].
  pose proof Hg as (Hfin & Hrst & _). unfold handle_established.
  assert (Hack : forall Q' : unit -> tcp -> Prop,
    (forall s' d', at_conn s' k (set_private (PConn d') x) d' -> only k s s' -> open_state (c_state d') -> c_lock d' = c_lock d -> holds d' n c -> Q' tt s') ->
    runs (if fl (sg_hdr g) TCP_FLAG_ACK then tcp_ack_recieved k (sg_hdr g) else mret tt) s Q').
  { intros Q' HQ'. destruct (fl (sg_hdr g) TCP_FLAG_ACK).
    - eapply ack_recieved_spec; [exact Hc|]. intros s' st' q' Ha Ho Hs. eapply HQ'; [exact Ha|exact Ho| |done|by eapply holds_frame].
      cbn. destruct Hs as [->| ->]; [done|by right; right].
    - mstep. apply (HQ' s d); try done. rewrite set_private_same; [done|]. apply Hc. }
  mstep. apply Hack. intros s1 d1 H1 O1 S1 L1 Hh1. mstep.
  eapply (handle_payload_spec s1 k n c _ d1 g); [exact H1|exact Hpo|by apply shut_rd_off|exact Hh1|exact Hg|exact Hbase|].
  intros b s2 d2 H2 O2 S2 L2 Hh2. rewrite set_private_twice in H2. assert (O : only k s s2) by by eapply only_trans.
  assert (Hdone : forall s', at_conn s' k (set_private (PConn d2) x) d2 -> only k s2 s' -> Q tt s').
  { intros s' Ha Ho. eapply HQ; [exact Ha|by eapply only_trans|by rewrite S2|by rewrite L2|done]. }
  destruct b; [|mstep; by apply Hdone]. rewrite Hfin. do 2 mstep. mstep. eapply sock_at_spec; [exact H2|]. cbn [sock_flags set_private].
  rewrite Hrst, Hfl. cbn [orb]. do 2 mstep. destruct (_ || _); [|mstep; by apply Hdone]. eapply send_control_spec; [exact H2|exact Hpo|exact Hdone].
Qed.

(** ** Through the port table *)

(** A TCP packet as it comes out of [ip_handle], and its segment. *)
Definition arrival : Type := ip_header * tcp_header * list Z.
Definition segment_of (a : arrival) : segment :=
  let '(h, t, raw) := a in
  Segment t raw (u16 (swap_uint16 (total_length h) - (IP_IHL (version_ihl h) * 4 + TCP_DATA_OFF (data_off_flags t) * 4))).

(** It belongs to connection [k]. *)
Definition reaches (s : tcp) (k : Z) (x : sock) (a : arrival) : Prop :=
  let '(h, t, _) := a in
  ports_sock s (swap_uint16 (tcp_dst_port t)) = k /\ ip_src h = ap_ip (peer_addr x) /\ tcp_src_port t = ap_port (peer_addr x) /\
  exists la, local_addr x = Some la /\ tcp_dst_port t = ap_port la.

Lemma lock_conn_spec s k x d (Q : unit -> tcp -> Prop) : at_conn s k x d -> c_lock d = false ->
  (forall s', at_conn s' k (set_private (PConn (set_c_lock true d)) x) (set_c_lock true d) -> only k s s' -> Q tt s') -> runs (lock_conn k) s Q.
Proof. intros Hc Hl HQ. unfold lock_conn. mstep. eapply conn_at_spec; [exact Hc|]. rewrite Hl. by eapply upd_conn_spec. Qed.

Lemma tcp_handle_spec junk s k n c x d a (Q : unit -> tcp -> Prop) :
  delivering s k n c x d -> k <> 0 -> has (sock_flags x) SOCK_FLAG_LISTENING = false -> port_lock s = false -> reaches s k x a ->
  segment_ok (segment_of a) -> base + PAGE_SIZE < 2 ^ 32 ->
  (forall s' d', delivering s' k (absorb n (segment_of a)) c (set_private (PConn d') x) d' -> only k s s' -> Q tt s') ->
  runs (let '(h, t, raw) := a in tcp_handle my_ip junk h t raw) s Q.
Proof.
  intros [Hc Hst Hpo Hin Hfl Hl Hh] Hk Hnl Hpl Hre Hg Hbase HQ. destruct a as [[h t] raw]. destruct Hre as (Hport & Hsrc & Hsp & la & Hla & Hdp).
  unfold tcp_handle. mstep. apply runs_locked; [by rewrite Hpl|].
  assert (Hw : is_word (swap_uint16 (tcp_dst_port t))) by apply swap_uint16_word. unfold is_word in Hw. unfold get_port.
  eapply runs_read; [cbn; unfold PORT_NUM; rewrite (proj2 (Z.leb_le 0 _)), (proj2 (Z.ltb_lt _ _)) by lia; cbn; by rewrite Hport|].
  set (s0 := set_port_lock false _). assert (Hc0 : at_conn s0 k x d) by exact Hc. assert (O0 : only k s s0) by done.
  destruct (Z.eqb_spec k 0); [done|]. cbn [negb]. mstep. eapply sock_at_spec; [exact Hc0|]. rewrite Hnl. mstep.
  eapply lock_conn_spec; [exact Hc0|exact Hl|]. intros s1 H1 O1. mstep. eapply sock_at_spec; [exact H1|]. mstep. eapply runs_read; [exact Hla|].
  cbn [peer_addr set_private]. rewrite Hsrc, Hsp, Hdp, bool_decide_eq_true_2, !Z.eqb_refl by done. cbn [andb]. mstep.
  eapply (sock_handle_spec s1 k n c _ _ (segment_of (h, t, raw))); [exact H1|exact Hst|exact Hpo|exact Hfl|by eapply holds_frame|exact Hg|exact Hbase|].
  intros s2 d2 H2 O2 S2 L2 Hh2. rewrite set_private_twice in H2. unfold unlock_conn. eapply upd_conn_spec; [exact H2|]. intros s3 H3 O3. rewrite set_private_twice in H3.
  eapply (HQ s3 (set_c_lock false d2)); [|by do 3 (eapply only_trans; [eassumption|])]. split; try done. by eapply holds_frame.
Qed.

(** ** Reading *)

Lemma recv_loop_spec k x : forall len s d n c got (Q : received -> tcp -> Prop),
  at_conn s k (set_private (PConn d) x) d -> has (sock_flags x) SOCK_FLAG_SHUT_RD = false -> holds d n c ->
  (forall s' d' m, at_conn s' k (set_private (PConn d') x) d' -> only k s s' -> c_state d' = c_state d -> c_lock d' = c_lock d -> holds d' n (c + m) ->
     m = Z.min (Z.of_nat len) (n - c) ->
     Q (if m =? Z.of_nat len then Received (got ++ (stream <$> seqZ c m)) else RecvBlocks (got ++ (stream <$> seqZ c m))) s') ->
  runs (recv_loop len k got) s Q.
Proof.
  induction len as [|len IH]; intros s d n c got Q Hc Hfl Hh HQ; cbn [recv_loop]; destruct (h_range _ _ _ Hh) as (Hcn & Hn & _); unfold PAGE_SIZE in *.
  - mstep. specialize (HQ s d 0). cbn in HQ. rewrite app_nil_r in HQ. apply HQ; try done; [by rewrite Z.add_0_r|lia].
  - mstep. eapply conn_at_spec; [exact Hc|]. mstep. eapply sock_at_spec; [exact Hc|]. cbn [sock_flags set_private].
    assert (Eb : u32 (recv_buff_back d + 1) = c).
    { rewrite (h_back _ _ _ Hh). unfold uwrap. rewrite Zplus_mod_idemp_l. replace (c - 1 + 1) with c by lia. apply Z.mod_small. lia. }
    rewrite Eb, (h_front _ _ _ Hh), (h_size _ _ _ Hh), Hfl. destruct (Z.eqb_spec c n) as [->|Hne].
    + mstep. specialize (HQ s d 0). destruct (Z.eqb_spec 0 (Z.of_nat (S len))); [lia|]. cbn in HQ. rewrite app_nil_r in HQ. apply HQ; try done; [by rewrite Z.add_0_r|lia].
    + unfold PAGE_SIZE. rewrite Z.mod_small by lia. mstep. eapply upd_conn_spec; [exact Hc|]. intros s1 H1 O1. rewrite set_private_twice in H1. mstep.
      eapply runs_read; [rewrite (proj2 (Z.ltb_lt _ _)) by lia; reflexivity|]. rewrite (h_data _ _ _ Hh) by lia.
      eapply (IH s1 _ n (c + 1)); [exact H1|exact Hfl| |].
      * destruct Hh as [Hr Hp Hf Hbk Hsz Hd]. split; try done; [unfold PAGE_SIZE in *; lia| |intros j Hj; apply Hd; lia]. cbn. symmetry. replace (c + 1 - 1) with c by lia. apply uwrap_small. lia.
      * intros s' d' m Ha Ho E1 E2 Hh' Hm. specialize (HQ s' d' (m + 1)). replace (m + 1 =? Z.of_nat (S len)) with (m =? Z.of_nat len) in HQ
          by (destruct (Z.eqb_spec m (Z.of_nat len)), (Z.eqb_spec (m + 1) (Z.of_nat (S len))); lia).
        rewrite (seqZ_cons c (m + 1)) in HQ by lia. replace (Z.pred (m + 1)) with m in HQ by lia. cbn [fmap list_fmap] in HQ. replace (Z.succ c) with (c + 1) in HQ by lia.
        rewrite <- !app_assoc. apply HQ; try done; [by eapply only_trans|by replace (c + (m + 1)) with (c + 1 + m) by lia|lia].
Qed.

Lemma tcp_recv_spec s k n c x d len (Q : received -> tcp -> Prop) :
  delivering s k n c x d -> 0 <= len ->
  (forall s' d', delivering s' k n (c + Z.min len (n - c)) (set_private (PConn d') x) d' -> only k s s' ->
     Q (if Z.min len (n - c) =? len then Received (stream <$> seqZ c len) else RecvBlocks (stream <$> seqZ c (n - c))) s') ->
  runs (tcp_recv k len) s Q.
Proof.
  intros [Hc Hst Hpo Hin Hfl Hl Hh] Hlen HQ. unfold tcp_recv. mstep. eapply sock_at_spec; [exact Hc|]. rewrite Hin. cbn [negb]. mstep.
  eapply lock_conn_spec; [exact Hc|exact Hl|]. intros s1 H1 O1. mstep. eapply conn_at_spec; [exact H1|]. cbn [c_state set_c_lock].
  rewrite (bool_decide_eq_false_2 (c_state d = TCP_CLOSED)), andb_false_r by (destruct Hst as [->|[->| ->]]; done). mstep.
  eapply (recv_loop_spec k x (Z.to_nat len) s1 _ n c []); [exact H1|by apply shut_rd_off|by eapply holds_frame|].
  intros s2 d2 m H2 O2 E1 E2 Hh2 Hm. rewrite Z2Nat.id in Hm |- * by lia. cbn [app]. mstep. unfold unlock_conn. eapply upd_conn_spec; [exact H2|]. intros s3 H3 O3.
  rewrite set_private_twice in H3. mstep. rewrite <- Hm in HQ. destruct (Z.eqb_spec m len) as [Em|Hne].
  - rewrite <- Em in HQ. eapply (HQ s3 (set_c_lock false d2)); [|by do 2 (eapply only_trans; [eassumption|])]. split; try done; [cbn; by rewrite E1|by eapply holds_frame].
  - replace (n - c) with m in HQ by lia. eapply (HQ s3 (set_c_lock false d2)); [|by do 2 (eapply only_trans; [eassumption|])].
    split; try done; [cbn; by rewrite E1|by eapply holds_frame].
Qed.

(** *** All together *)

Fixpoint handle_all (junk : Z -> Z) (l : list arrival) : M tcp unit :=
  match l with
  | [] => mret tt
  | (h, t, raw) :: l' => tcp_handle my_ip junk h t raw;; handle_all junk l'
  end.

Lemma handle_all_spec junk k x : forall l s n c d (Q : unit -> tcp -> Prop),
  delivering s k n c (set_private (PConn d) x) d -> k <> 0 -> has (sock_flags x) SOCK_FLAG_LISTENING = false -> port_lock s = false ->
  Forall (fun a => reaches s k x a /\ segment_ok (segment_of a)) l -> base + PAGE_SIZE < 2 ^ 32 ->
  (forall s' d', delivering s' k (foldl absorb n (segment_of <$> l)) c (set_private (PConn d') x) d' -> only k s s' -> Q tt s') ->
  runs (handle_all junk l) s Q.
Proof.
  induction l as [|a l IH]; intros s n c d Q Hd Hk Hnl Hpl Hl Hb HQ; cbn [handle_all].
  - mstep. by apply (HQ s d).
  - apply Forall_cons in Hl as [[Hre Hg] Hl].
    cut (runs (let '(h, t, raw) := a in tcp_handle my_ip junk h t raw) s (fun _ s1 => runs (handle_all junk l) s1 Q)).
    { destruct a as [[h t] raw]. intros H. by mstep. }
    eapply tcp_handle_spec; [exact Hd|exact Hk|exact Hnl|exact Hpl|exact Hre|exact Hg|exact Hb|]. intros s1 d1 H1 O1. rewrite set_private_twice in H1.
    pose proof O1 as (_ & Eports & _ & _ & _ & Epl). eapply (IH s1 _ c d1); [exact H1|exact Hk|exact Hnl|congruence| |exact Hb|].
    + eapply Forall_impl; [exact Hl|]. intros [[h t] raw] [(A & B) C]. unfold reaches. by rewrite Eports.
    + intros s2 d2 H2 O2. apply (HQ s2 d2); [exact H2|by eapply only_trans].
Qed.

Lemma absorb_mono l : forall n, Forall segment_ok l -> n <= foldl absorb n l.
Proof.
  induction l as [|g l IH]; intros n Hl; cbn [foldl]; [lia|]. apply Forall_cons in Hl as [(_ & _ & H0 & _) Hl].
  transitivity (absorb n g); [unfold absorb; destruct (_ && _); lia|by apply IH].
Qed.

(** ** The end of the buffer *)

(** A segment that continues the stream, of any length. *)
Definition next_segment (n : Z) (g : segment) : Prop :=
  seq_of g = base + n /\ forall j, 0 <= j < sg_len g -> sg_raw g !! Z.to_nat j = Some (stream (n + j)).

Lemma recv_copy_overflow k raw x : forall len i s d n c,
  at_conn s k (set_private (PConn d) x) d -> holds (set_next_peer_seq (base + n) d) n c -> PAGE_SIZE < n + Z.of_nat len -> base + PAGE_SIZE < 2 ^ 32 -> 0 <= i ->
  (forall j, (j < len)%nat -> raw !! (Z.to_nat i + j)%nat = Some (stream (n + Z.of_nat j))) ->
  recv_copy len i k raw s = Fault.
Proof.
  induction len as [|len IH]; intros i s d n c Hc Hh Hlen Hb Hi Hraw; destruct (h_range _ _ _ Hh) as (Hcn & Hn & Hb0 & _); [lia|]. cbn [recv_copy].
  apply faults_bind. eapply conn_at_spec; [exact Hc|]. pose proof (not_full _ _ _ Hh) as Hnf. cbn in Hnf. rewrite Hnf.
  apply faults_bind. eapply runs_read; [rewrite <- (Nat.add_0_r (Z.to_nat i)); apply Hraw; lia|]. rewrite Z.add_0_r.
  pose proof (h_front _ _ _ Hh) as Hfr. cbn in Hfr. rewrite Hfr. destruct (Z.ltb_spec n PAGE_SIZE) as [Hlt|]; [|done].
  apply faults_bind. eapply runs_read; [done|]. apply faults_bind. eapply upd_conn_spec; [exact Hc|]. intros s1 H1 O1. rewrite set_private_twice in H1.
  eapply (IH (i + 1) s1 _ (n + 1) c); [exact H1| |lia|lia|lia|].
  - destruct Hh as [Hr _ _ Hbk Hsz Hd]. unfold PAGE_SIZE in *. split; try done.
    + unfold PAGE_SIZE. lia.
    + cbn. rewrite Hfr. apply uwrap_small. lia.
    + intros j Hj. cbn. rewrite Hfr. destruct (decide (j = n)) as [->|]; [by rewrite fn_insert_eq|]. rewrite fn_insert_ne by done. apply Hd. lia.
  - intros j Hj. replace (Z.to_nat (i + 1) + j)%nat with (Z.to_nat i + S j)%nat by lia. rewrite Hraw by lia. do 2 f_equal. lia.
Qed.

Lemma handle_payload_overflow s k n c x d g :
  at_conn s k x d -> has (sock_flags x) SOCK_FLAG_SHUT_RD = false -> holds d n c -> next_segment n g -> PAGE_SIZE < n + sg_len g -> base + PAGE_SIZE < 2 ^ 32 ->
  handle_payload my_ip k (sg_hdr g) (sg_raw g) (sg_len g) s = Fault.
Proof.
  intros Hc Hfl Hh [Eseq Hdata] Hlen Hb. destruct (h_range _ _ _ Hh) as (Hcn & Hn & _). pose proof (h_peer _ _ _ Hh) as Hnp.
  unfold handle_payload. fold (seq_of g). rewrite Eseq, !Z.gtb_ltb. destruct (Z.ltb_spec 0 (sg_len g)); [|lia]. apply faults_bind. eapply conn_at_spec; [exact Hc|].
  rewrite Hnp, Z.gtb_ltb, !Z.ltb_irrefl. apply faults_bind. eapply upd_conn_spec; [exact Hc|]. intros s1 H1 O1. set (d1 := set_next_peer_seq _ d) in *.
  apply faults_bind. eapply sock_at_spec; [exact H1|]. cbn [sock_flags set_private]. rewrite Hfl. cbn [negb].
  assert (Hh1 : holds (set_next_peer_seq (base + n) d1) n c) by (eapply holds_frame; [exact Hh|by rewrite Hnp|done..]).
  apply faults_bind_l, faults_bind. eapply conn_at_spec; [exact H1|]. pose proof (not_full _ _ _ Hh1) as Hnf. cbn in Hnf |- *. rewrite Hnf. cbn [negb].
  eapply (recv_copy_overflow k (sg_raw g) x (Z.to_nat (sg_len g)) 0 s1 d1 n c); [exact H1|exact Hh1|lia|lia|lia|].
  intros j Hj. rewrite Z2Nat.inj_0, Nat.add_0_l, <- (Nat2Z.id j). rewrite Hdata by lia. by rewrite Nat2Z.id.
Qed.

Lemma tcp_handle_overflow junk s k n c x d a :
  delivering s k n c x d -> k <> 0 -> has (sock_flags x) SOCK_FLAG_LISTENING = false -> port_lock s = false -> reaches s k x a ->
  next_segment n (segment_of a) -> PAGE_SIZE < n + sg_len (segment_of a) -> base + PAGE_SIZE < 2 ^ 32 ->
  handle_all junk [a] s = Fault.
Proof.
  intros [Hc Hst Hpo Hin Hfl Hl Hh] Hk Hnl Hpl Hre Hg Hlen Hbase. destruct a as [[h t] raw]. destruct Hre as (Hport & Hsrc & Hsp & la & Hla & Hdp).
  cbn [handle_all]. apply faults_bind_l. unfold tcp_handle. apply faults_bind. apply runs_locked; [by rewrite Hpl|].
  assert (Hw : is_word (swap_uint16 (tcp_dst_port t))) by apply swap_uint16_word. unfold is_word in Hw. unfold get_port.
  eapply runs_read; [cbn; unfold PORT_NUM; rewrite (proj2 (Z.leb_le 0 _)), (proj2 (Z.ltb_lt _ _)) by lia; cbn; by rewrite Hport|].
  set (s0 := set_port_lock false _). assert (Hc0 : at_conn s0 k x d) by exact Hc.
  destruct (Z.eqb_spec k 0); [done|]. cbn [negb]. apply faults_bind. eapply sock_at_spec; [exact Hc0|]. rewrite Hnl. apply faults_bind.
  eapply lock_conn_spec; [exact Hc0|exact Hl|]. intros s1 H1 O1. apply faults_bind. eapply sock_at_spec; [exact H1|]. apply faults_bind. eapply runs_read; [exact Hla|].
  cbn [peer_addr set_private]. rewrite Hsrc, Hsp, Hdp, bool_decide_eq_true_2, !Z.eqb_refl by done. cbn [andb]. apply faults_bind_l.
  unfold tcp_sock_handle. apply faults_bind. eapply conn_at_spec; [exact H1|]. cbn [c_state set_c_lock].
  set (g := segment_of (h, t, raw)). fold (sg_len g) in *. assert (Hh1 : holds (set_c_lock true d) n c) by by eapply holds_frame.
  cut (handle_established my_ip k t raw (sg_len g) s1 = Fault); [by destruct Hst as [->|[->| ->]]|]. unfold handle_established.
  apply faults_bind. destruct (fl t TCP_FLAG_ACK).
  - eapply ack_recieved_spec; [exact H1|]. intros s2 st' q' Ha Ho _. apply faults_bind_l.
    eapply (handle_payload_overflow s2 k n c _ _ g); [exact Ha|by apply shut_rd_off|by eapply holds_frame|exact Hg|exact Hlen|exact Hbase].
  - mstep. apply faults_bind_l. eapply (handle_payload_overflow s1 k n c _ _ g); [exact H1|by apply shut_rd_off|exact Hh1|exact Hg|exact Hlen|exact Hbase].
Qed.
End Stream.

(** ** The free ports *)

(** The free list holds the offsets [l], first one first. *)
Fixpoint chained (nx : Z -> Z) (first : Z) (l : list Z) : Prop :=
  match l with
  | [] => first = FREELIST_END
  | i :: l' => first = i /\ 0 <= i < EPHEMERAL_NUM /\ chained nx (nx i) l'
  end.
Definition free_ports (s : tcp) (l : list Z) : Prop :=
  port_lock s = false /\ NoDup l /\ chained (ephemeral_ports_next s) (ephemeral_next s) l.

Lemma chained_range nx first l : chained nx first l -> Forall (fun i => 0 <= i < EPHEMERAL_NUM) l.
Proof. revert first. induction l as [|i l IH]; intros first; [constructor|]. intros (-> & Hi & Hl). constructor; [done|by eapply IH]. Qed.
Lemma chained_upd nx first l i v : i ∉ l -> chained nx first l -> chained (<[i := v]> nx) first l.
Proof.
  revert first. induction l as [|j l IH]; intros first Hi; [done|]. intros (E & HjN & Hl). split; [exact E|]. split; [exact HjN|].
  rewrite fn_insert_ne by set_solver. apply IH; [set_solver|done].
Qed.

(** A stack of free ports: what the table is for. *)
Inductive port_op := OpBind (k : Z) | OpUnbind (port : Z).

(** The port the operation answers with and the stack after it; [None] is a fault. *)
Definition stack_step (l : list Z) (o : port_op) : option (Z * list Z) :=
  match o with
  | OpBind _ => match l with [] => Some (0, []) | i :: l' => Some (i + EPHEMERAL_START, l') end
  | OpUnbind port => if (port <? EPHEMERAL_START) || bool_decide (l = []) then None else Some (port, port - EPHEMERAL_START :: l)
  end.

(** Only a port in use is given back. *)
Definition op_ok (l : list Z) (o : port_op) : Prop :=
  match o with OpBind _ => True | OpUnbind port => is_word port /\ port - EPHEMERAL_START ∉ l end.

Definition port_step (o : port_op) : M tcp Z :=
  match o with
  | OpBind k => p ← tcp_bind_port k; mret (swap_uint16 p)
  | OpUnbind port => tcp_unbind_port (swap_uint16 port);; mret port
  end.

(** The table after the operation. *)
Definition step_ports (o : port_op) (r : Z) (f : Z -> Z) : Z -> Z :=
  match o with OpBind k => if r =? 0 then f else <[r := k]> f | OpUnbind port => <[port := 0]> f end.

Lemma get_port_spec s i (Q : Z -> tcp -> Prop) : 0 <= i < PORT_NUM -> Q (ports_sock s i) s -> runs (get_port i) s Q.
Proof. intros Hi HQ. eapply runs_read; [|exact HQ]. by rewrite (proj2 (Z.leb_le 0 i)), (proj2 (Z.ltb_lt i PORT_NUM)) by lia. Qed.
Lemma get_next_spec s i (Q : Z -> tcp -> Prop) : 0 <= i < EPHEMERAL_NUM -> Q (ephemeral_ports_next s i) s -> runs (get_next i) s Q.
Proof. intros Hi HQ. eapply runs_read; [|exact HQ]. by rewrite (proj2 (Z.leb_le 0 i)), (proj2 (Z.ltb_lt i EPHEMERAL_NUM)) by lia. Qed.
Lemma get_prev_spec s i (Q : Z -> tcp -> Prop) : 0 <= i < EPHEMERAL_NUM -> Q (ephemeral_ports_prev s i) s -> runs (get_prev i) s Q.
Proof. intros Hi HQ. eapply runs_read; [|exact HQ]. by rewrite (proj2 (Z.leb_le 0 i)), (proj2 (Z.ltb_lt i EPHEMERAL_NUM)) by lia. Qed.
Lemma get_prev_fault s i : ~ 0 <= i < EPHEMERAL_NUM -> get_prev i s = Fault.
Proof. intros Hi. unfold get_prev, read. destruct (Z.leb_spec 0 i), (Z.ltb_spec i EPHEMERAL_NUM); try done. lia. Qed.
Lemma get_next_fault s i : ~ 0 <= i < EPHEMERAL_NUM -> get_next i s = Fault.
Proof. intros Hi. unfold get_next, read. destruct (Z.leb_spec 0 i), (Z.ltb_spec i EPHEMERAL_NUM); try done. lia. Qed.

Lemma bind_port_step s l k : free_ports s l ->
  runs (port_step (OpBind k)) s (fun r s' => exists l', stack_step l (OpBind k) = Some (r, l') /\ free_ports s' l' /\ ports_sock s' = step_ports (OpBind k) r (ports_sock s) /\ socks s' = socks s).
Proof.
  intros (Hpl & Hnd & Hch). unfold port_step, tcp_bind_port. mstep. apply runs_locked; [by rewrite Hpl|]. do 2 mstep. change (ephemeral_next (set_port_lock true s)) with (ephemeral_next s). destruct l as [|i l].
  - cbn in Hch. rewrite Hch, Z.eqb_refl. cbn [negb]. do 2 mstep. exists []. rewrite swap_uint16_involutive by lia. by split_and!.
  - destruct Hch as (Hf & Hi & Hch). apply NoDup_cons in Hnd as [Hni Hnd]. rewrite Hf. unfold EPHEMERAL_NUM, EPHEMERAL_START, EPHEMERAL_END in *.
    destruct (Z.eqb_spec i FREELIST_END) as [E|]; [change FREELIST_END with 4294967295 in E; lia|]. cbn [negb]. rewrite (uwrap_small 32) by lia.
    unfold set_port. do 2 mstep. apply get_port_spec; [unfold PORT_NUM; lia|]. do 2 mstep. apply get_next_spec; [unfold EPHEMERAL_NUM, EPHEMERAL_START, EPHEMERAL_END; lia|].
    do 4 mstep. rewrite uwrap_small, swap_uint16_involutive by lia. exists l. split_and!; try done. cbn.
    by destruct (Z.eqb_spec (i + 49152) 0); [lia|].
Qed.

Lemma unbind_port_step s l port : free_ports s l -> op_ok l (OpUnbind port) ->
  match stack_step l (OpUnbind port) with
  | Some (r, l') => runs (port_step (OpUnbind port)) s (fun r' s' => r' = r /\ free_ports s' l' /\ ports_sock s' = step_ports (OpUnbind port) r (ports_sock s) /\ socks s' = socks s)
  | None => port_step (OpUnbind port) s = Fault
  end.
Proof.
  intros (Hpl & Hnd & Hch) (Hw & Hni). unfold is_word in Hw. cbn [stack_step port_step]. unfold tcp_unbind_port. rewrite swap_uint16_involutive by lia.
  unfold EPHEMERAL_NUM, EPHEMERAL_START, EPHEMERAL_END in *. pose proof (chained_range _ _ _ Hch) as Hr.
  destruct (Z.ltb_spec port 49152) as [Hlt|Hge]; cbn [orb].
  { apply faults_bind_l. unfold with_ports, locked. rewrite Hpl. set (s0 := set_port_lock true s).
    match goal with |- match ?m _ with _ => _ end = _ => enough (m s0 = Fault) as -> by done end.
    apply faults_bind. unfold set_port. mstep. apply get_port_spec; [unfold PORT_NUM; lia|]. mstep. apply faults_bind. mstep.
    destruct (decide (0 <= ephemeral_next s < 65535 - 49152 + 1)).
    - apply faults_bind. unfold set_prev. mstep. apply get_prev_spec; [done|]. mstep. apply faults_bind_l. unfold set_next. apply faults_bind_l, get_next_fault.
      unfold EPHEMERAL_NUM. lia.
    - apply faults_bind_l. unfold set_prev. by apply faults_bind_l, get_prev_fault. }
  destruct l as [|i l].
  { rewrite bool_decide_eq_true_2 by done. cbn in Hch. apply faults_bind_l. unfold with_ports, locked. rewrite Hpl. set (s0 := set_port_lock true s).
    match goal with |- match ?m _ with _ => _ end = _ => enough (m s0 = Fault) as -> by done end.
    apply faults_bind. unfold set_port. mstep. apply get_port_spec; [unfold PORT_NUM; lia|]. mstep. apply faults_bind. mstep.
    apply faults_bind_l. unfold set_prev. apply faults_bind_l, get_prev_fault. cbn. rewrite Hch. by vm_compute; intros [_ H]. }
  rewrite bool_decide_eq_false_2 by done. destruct Hch as (Hf & Hi & Hch). mstep. apply runs_locked; [by rewrite Hpl|].
  unfold set_port, set_prev, set_next. do 2 mstep. apply get_port_spec; [unfold PORT_NUM; lia|]. do 4 mstep. mstep. apply get_prev_spec; [cbn; by rewrite Hf|].
  do 3 mstep. apply get_next_spec; [unfold EPHEMERAL_NUM, EPHEMERAL_START, EPHEMERAL_END; lia|]. do 3 mstep. rewrite uwrap_small by lia. split; [done|]. split; [|done].
  split; [done|]. split; [by apply NoDup_cons|]. cbn [chained]. cbn. split; [done|]. split; [unfold EPHEMERAL_NUM, EPHEMERAL_START, EPHEMERAL_END; lia|]. rewrite fn_insert_eq. split; [done|]. split; [done|].
  rewrite fn_insert_ne by set_solver. apply chained_upd; [set_solver|done].
Qed.

Lemma init_free_next n : forall i nx pv j, (init_free n i nx pv).1 j = if decide (i <= j < i + Z.of_nat n) then u32 (j + 1) else nx j.
Proof.
  induction n as [|n IH]; intros i nx pv j; cbn [init_free]; [by rewrite decide_False by lia|]. rewrite IH.
  destruct (decide (j = i)) as [->|]; [rewrite fn_insert_eq, decide_False, decide_True by lia; done|]. rewrite fn_insert_ne by done. repeat case_decide; lia || done.
Qed.

Lemma chained_seqZ nx : forall n i, i + Z.of_nat n = EPHEMERAL_NUM -> 0 <= i -> (0 < n)%nat ->
  (forall j, i <= j < EPHEMERAL_NUM - 1 -> nx j = j + 1) -> nx (EPHEMERAL_NUM - 1) = FREELIST_END -> chained nx i (seqZ i (Z.of_nat n)).
Proof.
  induction n as [|n IH]; intros i Hn Hi Hpos Hnx Hend; [lia|]. rewrite seqZ_cons by lia. cbn [chained]. split; [done|]. split; [lia|].
  destruct n as [|n]; [replace i with (EPHEMERAL_NUM - 1) by lia; exact Hend|]. rewrite Hnx by lia. replace (Z.pred (Z.of_nat (S (S n)))) with (Z.of_nat (S n)) by lia.
  apply IH; [lia|lia|lia| |done]. intros j Hj. apply Hnx. lia.
Qed.

Definition all_free : list Z := seqZ 0 EPHEMERAL_NUM.

Lemma ephemeral_init_spec s : port_lock s = false -> ephemeral_next s = 0 ->
  runs ephemeral_init s (fun _ s' => free_ports s' all_free /\ ports_sock s' = (fun _ => 0) /\ socks s' = socks s).
Proof.
  intros Hpl H0. unfold ephemeral_init, free_ports, all_free. assert (EN : EPHEMERAL_NUM = Z.of_nat (Z.to_nat EPHEMERAL_NUM)) by reflexivity.
  assert (HN : EPHEMERAL_NUM = 16384) by reflexivity.
  generalize dependent (Z.to_nat EPHEMERAL_NUM). intros n EN. mstep. mstep. mstep. mstep.
  destruct (init_free _ _ _ _) as [nx pv] eqn:E. mstep. mstep. mstep. split; [|split; reflexivity]. split; [exact Hpl|]. split; [apply NoDup_seqZ|].
  change (chained (<[EPHEMERAL_NUM - 1 := FREELIST_END]> nx) (ephemeral_next s) (seqZ 0 EPHEMERAL_NUM)). rewrite H0. replace (seqZ 0 EPHEMERAL_NUM) with (seqZ 0 (Z.of_nat n)) by (by rewrite EN).
  apply chained_seqZ; [lia|lia|lia| |by rewrite fn_insert_eq].
  intros j Hj. rewrite fn_insert_ne by lia. change nx with (nx, pv).1. rewrite <- E, init_free_next, decide_True by lia. apply uwrap_small. lia.
Qed.

(** A history of binds and unbinds, on the table and on the stack. *)
Fixpoint port_run (ops : list port_op) : M tcp (list Z) :=
  match ops with
  | [] => mret []
  | o :: ops' => r ← port_step o; rs ← port_run ops'; mret (r :: rs)
  end.
Fixpoint stack_run (l : list Z) (ops : list port_op) : option (list Z * list Z) :=
  match ops with
  | [] => Some ([], l)
  | o :: ops' => '(r, l') ← stack_step l o; '(rs, l'') ← stack_run l' ops'; Some (r :: rs, l'')
  end.
Fixpoint ops_ok (l : list Z) (ops : list port_op) : Prop :=
  match ops with
  | [] => True
  | o :: ops' => op_ok l o /\ match stack_step l o with Some (_, l') => ops_ok l' ops' | None => True end
  end.
Fixpoint run_ports (ops : list port_op) (rs : list Z) (f : Z -> Z) : Z -> Z :=
  match ops, rs with o :: ops', r :: rs' => run_ports ops' rs' (step_ports o r f) | _, _ => f end.

Lemma port_step_refines s l o : free_ports s l -> op_ok l o ->
  match stack_step l o with
  | Some (r, l') => runs (port_step o) s (fun r' s' => r' = r /\ free_ports s' l' /\ ports_sock s' = step_ports o r (ports_sock s) /\ socks s' = socks s)
  | None => port_step o s = Fault
  end.
Proof.
  intros Hf Hok. destruct o as [k|port]; [|by apply unbind_port_step]. pose proof (bind_port_step s l k Hf) as H. destruct (stack_step l (OpBind k)) as [[r l']|] eqn:E.
  - eapply runs_mono; [exact H|]. intros r' s' (l1 & E1 & Hf' & Hp & Hs). by simplify_eq.
  - destruct l; discriminate E.
Qed.

Lemma port_run_refines ops : forall s l, free_ports s l -> ops_ok l ops ->
  match stack_run l ops with
  | Some (rs, l') => runs (port_run ops) s (fun rs' s' => rs' = rs /\ free_ports s' l' /\ ports_sock s' = run_ports ops rs (ports_sock s) /\ socks s' = socks s)
  | None => port_run ops s = Fault
  end.
Proof.
  induction ops as [|o ops IH]; intros s l Hf Hok; cbn [stack_run port_run]; [by mstep|]. destruct Hok as [Ho Hok].
  pose proof (port_step_refines s l o Hf Ho) as H. destruct (stack_step l o) as [[r l1]|]; cbn; [|by apply faults_bind_l].
  assert (HIH : forall s1, free_ports s1 l1 -> match stack_run l1 ops with _ => _ end) by (intros s1 Hs1; exact (IH s1 l1 Hs1 Hok)). clear IH.
  destruct (stack_run l1 ops) as [[rs l2]|]; cbn.
  - mstep. eapply runs_mono; [exact H|]. intros r' s1 (-> & Hf1 & Hp1 & Hs1). mstep. eapply runs_mono; [by apply HIH|].
    intros rs' s2 (-> & Hf2 & Hp2 & Hs2). mstep. rewrite Hp2, Hp1, Hs2, Hs1. done.
  - apply faults_bind. eapply runs_mono; [exact H|]. intros r' s1 (-> & Hf1 & _). by apply faults_bind_l, HIH.
Qed.

(** ** Theorems *)

(** C7: in-order delivery.  The peer's byte stream starts at sequence number [base];
    a connection that is open and has received its first [n] bytes, of which [c] have
    been read, is given any number of packets addressed to it, in any order, some of them
    repeated, each carrying a part of the first page of the stream.  All are handled without
    a fault or a deadlock; afterwards the connection holds the stream up to [n'], the end of the
    in-order segments among them; and a read of [len] bytes returns exactly bytes [c] to
    [c + len] of the stream when they have arrived, and otherwise blocks having copied
    exactly those that have. *)
Theorem tcp_delivers_in_order my_ip stream base junk s k n c x d l len :
  ip_ok my_ip -> delivering stream base s k n c x d -> k <> 0 -> has (sock_flags x) SOCK_FLAG_LISTENING = false -> port_lock s = false ->
  Forall (fun a => reaches s k x a /\ segment_ok stream base (segment_of a)) l -> base + PAGE_SIZE < 2 ^ 32 -> 0 <= len ->
  let n' := foldl (absorb base) n (segment_of <$> l) in
  n <= n' /\
  runs (handle_all my_ip junk l;; tcp_recv k len) s (fun r s' =>
    r = (if c + len <=? n' then Received (stream <$> seqZ c len) else RecvBlocks (stream <$> seqZ c (n' - c))) /\
    (exists d', delivering stream base s' k n' (Z.min (c + len) n') (set_private (PConn d') x) d') /\ only k s s').
Proof.
  intros Hmy Hd Hk Hnl Hpl Hl Hb Hlen n'. assert (Hn : n <= n').
  { eapply (absorb_mono stream base). apply Forall_fmap. eapply Forall_impl; [exact Hl|]. by intros a [_ ?]. }
  split; [done|]. assert (Ex : set_private (PConn d) x = x) by (apply set_private_same, Hd). mstep.
  apply (handle_all_spec my_ip Hmy stream base junk k x l s n c d); [by rewrite Ex|done..|]. intros s1 d1 H1 O1. fold n' in H1.
  eapply (tcp_recv_spec stream base s1 k n' c _ d1 len); [exact H1|done|]. intros s2 d2 H2 O2. rewrite set_private_twice in H2.
  assert (c <= n') by (destruct Hd as [_ _ _ _ _ _ [? _ _ _ _ _]]; lia).
  replace (c + Z.min len (n' - c)) with (Z.min (c + len) n') in H2 by lia.
  replace (c + len <=? n') with (Z.min len (n' - c) =? len) by (destruct (Z.eqb_spec (Z.min len (n' - c)) len), (Z.leb_spec (c + len) n'); lia).
  split; [done|]. split; [by exists d2|by eapply only_trans].
Qed.

(** The receive buffer is not a ring.  [recv_buff_front] is never reduced modulo the
    buffer's size, so the segment that takes the connection past its first page of data
    writes outside the buffer, however much of the page the reader has already consumed. *)
Theorem tcp_recv_buffer_overflow my_ip stream base junk s k n c x d a :
  delivering stream base s k n c x d -> k <> 0 -> has (sock_flags x) SOCK_FLAG_LISTENING = false -> port_lock s = false -> reaches s k x a ->
  next_segment stream base n (segment_of a) -> PAGE_SIZE < n + sg_len (segment_of a) -> base + PAGE_SIZE < 2 ^ 32 ->
  handle_all my_ip junk [a] s = Fault.
Proof. apply tcp_handle_overflow. Qed.

(** The port table refines a stack of free ports.  From the state [ephemeral_init] makes,
    every history of [tcp_bind_port] and [tcp_unbind_port], in which only ports that are not
    free are given back, answers as a stack of the 16384 ephemeral ports does (the port given
    back last is handed out first; an empty stack answers 0) and leaves the socket
    of each bound port in the table.  The stack has no answer exactly where the code accesses its
    arrays out of bounds: giving back a well-known port, or any port while none is free. *)
Theorem tcp_ports_refine_stack s ops : port_lock s = false -> ephemeral_next s = 0 -> ops_ok all_free ops ->
  match stack_run all_free ops with
  | Some (rs, l) => runs (ephemeral_init;; port_run ops) s (fun rs' s' =>
      rs' = rs /\ free_ports s' l /\ ports_sock s' = run_ports ops rs (fun _ => 0) /\ socks s' = socks s)
  | None => (ephemeral_init;; port_run ops) s = Fault
  end.
Proof.
  intros Hpl H0 Hok. pose proof (ephemeral_init_spec s Hpl H0) as Hi. pose proof (fun s1 Hf => port_run_refines ops s1 all_free Hf Hok) as Hr.
  destruct (stack_run all_free ops) as [[rs l]|].
  - apply runs_bind. eapply runs_mono; [exact Hi|]. intros u s1 (Hf & Hp & Hs). eapply runs_mono; [exact (Hr s1 Hf)|]. intros rs' s2 (E & Hf2 & Hp2 & Hs2).
    rewrite Hp in Hp2. rewrite Hs in Hs2. exact (conj E (conj Hf2 (conj Hp2 Hs2))).
  - apply faults_bind. eapply runs_mono; [exact Hi|]. intros u s1 (Hf & _). exact (Hr s1 Hf).
Qed.

(** ** Examples *)

#[global] Instance op_ok_dec l o : Decision (op_ok l o).
Proof. destruct o; unfold op_ok, is_word; apply _. Defined.
#[global] Instance ops_ok_dec ops l : Decision (ops_ok l ops).
Proof.
  revert l. induction ops as [|o ops IH]; intros l; cbn [ops_ok]; [exact (left I)|].
  apply and_dec; [apply _|]. destruct (stack_step l o) as [[r l']|]; [exact (IH l')|exact (left I)].
Defined.

Definition conn0 (n : Z) : tcp_data_conn := Conn false TCP_ESTABLISHED 7 (1000 + n) (fun j => 65 + j mod 26) n (u32 (0 - 1)) PAGE_SIZE 0 0 0 [].
Definition sock0 (n : Z) : sock := Sock true (IpAndPort (swap_uint16 80) ip_b) (Some (IpAndPort (swap_uint16 49152) IP_NONE)) SOCK_FLAG_CONNECTED (PConn (conn0 n)).
Definition tcp0 (n : Z) : tcp := Tcp {[1 := sock0 n]} (<[49152 := 1]> (fun _ => 0)) (fun i => i + 1) (fun i => i - 1) 1 false 0 [] [] 2.
Definition stream0 (j : Z) : Z := 65 + j mod 26.

(** Bytes [j] to [j + n] of the stream in a packet. *)
Definition arrival0 (j n : Z) : arrival :=
  (IpHeader 0x45 0 (swap_uint16 (40 + n)) 0 0 64 IP_PROT_TCP 0 ip_b ip_a,
   TcpHeader (swap_uint16 80) (swap_uint16 49152) (swap_uint32 (1000 + j)) 0 (Z.lor 0x50 TCP_FLAG_ACK) 14600 0 0,
   stream0 <$> seqZ j n).

Lemma tcp0_delivering n : 0 <= n <= PAGE_SIZE -> delivering stream0 1000 (tcp0 n) 1 n 0 (sock0 n) (conn0 n).
Proof.
  intros Hn. unfold PAGE_SIZE in Hn. split; [split; reflexivity|by left| |reflexivity|reflexivity|reflexivity|].
  - split; [exact ip_b_ok|]. split; [unfold is_word; vm_compute; split; discriminate || reflexivity|]. eexists. split; [reflexivity|]. unfold is_word. vm_compute. split; discriminate || reflexivity.
  - split; try reflexivity. unfold PAGE_SIZE. lia.
Qed.

Lemma arrival0_reaches m j n : reaches (tcp0 m) 1 (sock0 m) (arrival0 j n).
Proof. split; [reflexivity|]. split; [reflexivity|]. split; [reflexivity|]. by exists (IpAndPort (swap_uint16 49152) IP_NONE). Qed.

Lemma arrival0_segment j n : 0 <= j <= 10000 -> 0 <= n <= 10000 ->
  segment_of (arrival0 j n) = Segment (TcpHeader (swap_uint16 80) (swap_uint16 49152) (swap_uint32 (1000 + j)) 0 (Z.lor 0x50 TCP_FLAG_ACK) 14600 0 0) (stream0 <$> seqZ j n) n /\
  seq_of (segment_of (arrival0 j n)) = 1000 + j.
Proof.
  intros Hj Hn. unfold segment_of, arrival0, seq_of. cbn [total_length version_ihl data_off_flags sg_hdr seq_num]. rewrite swap_uint16_involutive by lia.
  rewrite swap_uint32_involutive by lia. split; [|done]. f_equal. change (IP_IHL 69 * 4 + TCP_DATA_OFF (Z.lor 80 TCP_FLAG_ACK) * 4) with 40. rewrite uwrap_small by lia. lia.
Qed.

Lemma arrival0_bytes j n i : 0 <= i < n -> (stream0 <$> seqZ j n) !! Z.to_nat i = Some (stream0 (j + i)).
Proof. intros Hi. rewrite list_lookup_fmap, lookup_seqZ_lt by lia. cbn. by rewrite Z2Nat.id by lia. Qed.

Lemma arrival0_ok j n : 0 <= j -> 0 <= n -> j + n <= PAGE_SIZE -> segment_ok stream0 1000 (segment_of (arrival0 j n)).
Proof.
  unfold PAGE_SIZE. intros Hj Hn Hjn. destruct (arrival0_segment j n) as [E1 E2]; [lia..|]. unfold segment_ok. rewrite E2, E1. cbn [sg_hdr sg_len sg_raw].
  split; [reflexivity|]. split; [reflexivity|]. unfold PAGE_SIZE. split; [lia|]. split; [lia|]. intros i Hi. rewrite arrival0_bytes by done. do 2 f_equal. lia.
Qed.

(** Bytes 3 to 5 come first, then 0 to 3 twice, then 3 to 5 again. *)
Definition arrivals0 : list arrival := [arrival0 3 2; arrival0 0 3; arrival0 0 3; arrival0 3 2].

Lemma tcp_delivers_in_order_witness :
  exists s', (handle_all ip_a (fun _ => 0) arrivals0;; tcp_recv 1 4) (tcp0 0) = Done (Received [65; 66; 67; 68], s').
Proof.
  destruct (tcp_delivers_in_order ip_a stream0 1000 (fun _ => 0) (tcp0 0) 1 0 0 (sock0 0) (conn0 0) arrivals0 4) as [_ H].
  - exact ip_a_ok.
  - apply tcp0_delivering. unfold PAGE_SIZE. lia.
  - lia.
  - reflexivity.
  - reflexivity.
  - unfold arrivals0. repeat (apply Forall_cons; split; [split; [apply arrival0_reaches|apply arrival0_ok; unfold PAGE_SIZE; lia]|]). apply Forall_nil. exact I.
  - unfold PAGE_SIZE. lia.
  - lia.
  - destruct (proj1 (runs_Done _ _ _) H) as (r & s' & E & Er & _). exists s'. rewrite E, Er. reflexivity.
Defined.

(** 4090 bytes have arrived; 10 more do not fit. *)
Lemma tcp_recv_buffer_overflow_witness : handle_all ip_a (fun _ => 0) [arrival0 4090 10] (tcp0 4090) = Fault.
Proof.
  destruct (arrival0_segment 4090 10) as [E1 E2]; [lia..|].
  apply (tcp_recv_buffer_overflow ip_a stream0 1000 (fun _ => 0) (tcp0 4090) 1 4090 0 (sock0 4090) (conn0 4090) (arrival0 4090 10)).
  - apply tcp0_delivering. unfold PAGE_SIZE. lia.
  - lia.
  - reflexivity.
  - reflexivity.
  - apply arrival0_reaches.
  - split; [exact E2|]. rewrite E1. apply arrival0_bytes.
  - rewrite E1. unfold PAGE_SIZE. cbn [sg_len]. lia.
  - unfold PAGE_SIZE. lia.
Defined.

Definition history0 : list port_op := [OpBind 5; OpBind 6; OpUnbind 49152; OpBind 7].

Lemma tcp_ports_refine_stack_witness :
  runs (ephemeral_init;; port_run history0) (set_ephemeral_next 0 (tcp0 0)) (fun rs s' => rs = [49152; 49153; 49152; 49152] /\ ports_sock s' 49152 = 7) /\
  (ephemeral_init;; port_run [OpUnbind 80]) (set_ephemeral_next 0 (tcp0 0)) = Fault.
Proof.
  split.
  - pose proof (tcp_ports_refine_stack (set_ephemeral_next 0 (tcp0 0)) history0 eq_refl eq_refl) as H.
    assert (Hok : ops_ok all_free history0) by (apply (bool_decide_unpack _); vm_compute; exact I). specialize (H Hok).
    assert (E : exists l, stack_run all_free history0 = Some ([49152; 49153; 49152; 49152], l)) by (eexists; vm_compute; reflexivity). destruct E as [l E].
    rewrite E in H. eapply runs_mono; [exact H|]. intros rs s' (-> & _ & Hp & _). rewrite Hp. split; reflexivity.
  - exact (tcp_ports_refine_stack (set_ephemeral_next 0 (tcp0 0)) [OpUnbind 80] eq_refl eq_refl
      (bool_decide_unpack (ops_ok all_free [OpUnbind 80]) ltac:(vm_compute; exact I))).
Defined.
