(* ===== verification/TcpOpen.v ===== *)
(** * TcpOpen: opening a connection

    Theorems on [Tcp]: what [tcp_connect] does up to the wait, what the peer's answer does to the connection, and what the caller finds when
    it is woken. *)

From S2P Require Import Prelude Words Net Tcp TcpStream.

(** ** Specifications *)

Lemma upd_sock_spec s k x f (Q : unit -> tcp -> Prop) : socks s !! k = Some x ->
  (forall s', socks s' !! k = Some (f x) -> only k s s' -> Q tt s') -> runs (upd_sock k f) s Q.
Proof.
  intros Hk HQ. unfold upd_sock, sock_at. mstep. eapply runs_read; [exact Hk|]. mstep. apply HQ; [cbn; apply lookup_insert_eq|].
  split; [|done]. intros j Hj. cbn. by rewrite lookup_insert_ne.
Qed.

Lemma rand_spec s k x d (Q : Z -> tcp -> Prop) : at_conn s k x d -> (forall r s', at_conn s' k x d -> only k s s' -> Q r s') -> runs (in_rand rand32) s Q.
Proof. intros Hc HQ. unfold in_rand. apply runs_lift. cbv beta iota delta [runs rand32 rand16 rand8 mbind M_bind mret M_ret]. by apply HQ. Qed.

(** The port handed out first. *)
Definition port_of (i : Z) : Z := swap_uint16 (i + EPHEMERAL_START).

Lemma tcp_bind_port_spec s i l k (Q : Z -> tcp -> Prop) : free_ports s (i :: l) ->
  (forall s', free_ports s' l -> ports_sock s' = <[i + EPHEMERAL_START := k]> (ports_sock s) -> socks s' = socks s -> 0 <= i < EPHEMERAL_NUM -> Q (port_of i) s') -> runs (tcp_bind_port k) s Q.
Proof.
  intros (Hpl & Hnd & Hf & Hi & Hch) HQ. apply NoDup_cons in Hnd as [Hni Hnd]. unfold tcp_bind_port, with_ports, set_port. apply runs_locked; [by rewrite Hpl|]. do 2 mstep.
  change (ephemeral_next (set_port_lock true s)) with (ephemeral_next s). rewrite Hf. unfold EPHEMERAL_NUM, EPHEMERAL_START, EPHEMERAL_END in *.
  destruct (Z.eqb_spec i FREELIST_END) as [E|]; [change FREELIST_END with 4294967295 in E; lia|]. cbn [negb]. rewrite (uwrap_small 32) by lia.
  do 2 mstep. apply get_port_spec; [unfold PORT_NUM; lia|]. do 2 mstep. apply get_next_spec; [unfold EPHEMERAL_NUM, EPHEMERAL_START, EPHEMERAL_END; lia|].
  do 3 mstep. rewrite uwrap_small by lia. by apply HQ.
Qed.

Section Open.
Context (my_ip : ip) (Hmy : ip_ok my_ip).

(** A segment without data leaves; the connection's lock is held before and after. *)
Lemma queue_add_spec s k x d flags w (Q : unit -> tcp -> Prop) : at_conn s k x d -> c_lock d = true -> peer_ok x ->
  (forall s' q n, let d' := set_queue q (set_next_local_seq n d) in at_conn s' k (set_private (PConn d') x) d' -> only k s s' -> Q tt s') ->
  runs (tcp_queue_add my_ip k flags w 0 [] 0) s Q.
Proof.
  intros Hc Hl (Hip & Hp & la & Hla & Hlp) HQ. unfold tcp_queue_add. mstep. eapply conn_at_spec; [exact Hc|]. mstep. eapply sock_at_spec; [exact Hc|]. mstep. eapply runs_read; [exact Hla|]. mstep.
  eapply upd_conn_spec; [exact Hc|]. intros s1 H1 O1. mstep. eapply upd_conn_spec; [exact H1|]. intros s2 H2 O2. rewrite set_private_twice in H2. unfold tcp_queue_send. cbn [pd_flags pd_payload pd_size pd_dst_ip pd_seq_num pd_window_size pd_urgent pd_src_port_net pd_dst_port_net].
  mstep. eapply conn_at_spec; [exact H2|]. mstep. unfold unlock_conn. eapply upd_conn_spec; [exact H2|]. intros s3 H3 O3. rewrite set_private_twice in H3. unfold send_out.
  destruct (tcp_build_spec my_ip (packet_create k [] 0) (ap_ip (peer_addr x)) (swap_uint32 (next_local_seq d))
    (if has (u16 flags) TCP_FLAG_ACK then swap_uint32 (next_peer_seq d) else 0) (u16 flags) w 0 (ap_port la) (ap_port (peer_addr x))) as (p' & _ & _ & E & _);
    [done|done|apply swap_uint32_range|destruct (has (u16 flags) TCP_FLAG_ACK); [apply swap_uint32_range|lia]|done|done|by split|].
  do 2 mstep. eapply runs_read; [exact E|]. mstep. set (s4 := set_out _ s3). eapply (lock_conn_spec s4); [exact H3|done|]. intros s5 H5 O5. rewrite set_private_twice in H5.
  match type of H5 with at_conn _ _ _ (set_c_lock true (set_c_lock false (set_queue ?q (set_next_local_seq ?n _)))) => apply (HQ s5 q n) end.
  - destruct d. cbn in Hl. subst. exact H5.
  - do 4 (eapply only_trans; [eassumption|]). done.
Qed.

(** ** tcp_connect, to the wait *)

(** The SYN is out; nothing has been received. *)
Definition syn_sent (d : tcp_data_conn) : Prop :=
  c_state d = TCP_SYN_SENT /\ c_lock d = false /\ recv_buff_front d = 0 /\ recv_buff_back d = u32 (0 - 1) /\ recv_buff_size d = PAGE_SIZE /\ established_semaphore d = 0.

(** The socket at the local port [port], talking to [addr]. *)
Definition dialled (s : tcp) (k : Z) (addr : ip_and_port) (i fl : Z) (d : tcp_data_conn) : Prop :=
  at_conn s k (Sock true addr (Some (IpAndPort (port_of i) IP_NONE)) fl (PConn d)) d /\ ports_sock s (i + EPHEMERAL_START) = k /\ port_lock s = false /\ 0 <= i < EPHEMERAL_NUM.

Lemma port_of_word i : is_word (port_of i).
Proof. apply swap_uint16_word. Qed.

Lemma connect_start_spec junk s k addr i l (Q : unit -> tcp -> Prop) : socks s !! k = Some (Sock false IP_AND_PORT_NONE None 0 PNull) -> free_ports s (i :: l) ->
  ip_ok (ap_ip addr) -> is_word (ap_port addr) ->
  (forall s' d, dialled s' k addr i 0 d -> syn_sent d -> Q tt s') -> runs (connect_start my_ip junk k addr) s Q.
Proof.
  intros Hk Hfree Hip Hpt HQ. unfold connect_start. mstep. eapply upd_sock_spec; [exact Hk|]. intros s1 K1 O1. mstep.
  assert (H1 : at_conn s1 k _ (new_conn junk TCP_RETRY)) by (split; [exact K1|done]). unfold tcp_reset. mstep. eapply rand_spec; [exact H1|]. intros r s2 H2 O2.
  eapply upd_conn_spec; [exact H2|]. intros s3 H3 O3. mstep. eapply lock_conn_spec; [exact H3|done|]. intros s4 H4 O4. mstep. eapply upd_conn_spec; [exact H4|]. intros s5 H5 O5.
  mstep. eapply sock_at_spec; [exact H5|]. rewrite !set_private_twice in H5. match type of H5 with at_conn _ _ _ ?d5 => set (d := d5) in H5 end. mstep. cbn [sock_flags set_private set_peer_addr set_peer_inet]. change (has 0 SOCK_FLAG_BOUND) with false. cbn [negb].
  assert (O : only k s s5) by (do 4 (eapply only_trans; [eassumption|]); done). destruct O as (_ & E2 & E3 & E4 & E5 & E6).
  mstep. apply (tcp_bind_port_spec s5 i l k); [destruct Hfree as (F1 & F2 & F3); split; [by rewrite E6|]; split; [exact F2|by rewrite E3, E5]|]. intros s6 (L6 & _) P6 S6 Hi.
  eapply upd_sock_spec; [rewrite S6; apply H5|]. intros s7 K7 O7. mstep.
  eapply (queue_add_spec s7 k _ d); [split; [exact K7|done]|done| |]. { split; [exact Hip|]. split; [exact Hpt|]. eexists. split; [done|]. apply port_of_word. }
  intros s8 q n d8 H8 O8. unfold unlock_conn. eapply upd_conn_spec; [exact H8|]. intros s9 H9 O9. rewrite set_private_twice in H9. eapply (HQ s9 (set_c_lock false d8)); [|done].
  assert (O : only k s6 s9) by (do 2 (eapply only_trans; [eassumption|]); done). destruct O as (_ & F2 & _ & _ & _ & F6). split; [exact H9|]. split; [by rewrite F2, P6, fn_insert_eq|]. split; [by rewrite F6|exact Hi].
Qed.

(** ** The answer *)

(** The connection is up: a unit for the caller, the peer's first byte expected. *)
Definition answered (d : tcp_data_conn) (base : Z) : Prop :=
  c_state d = TCP_ESTABLISHED /\ c_lock d = false /\ next_peer_seq d = base /\ recv_buff_front d = 0 /\ recv_buff_back d = u32 (0 - 1) /\ recv_buff_size d = PAGE_SIZE /\ established_semaphore d = 1.

(** A packet from [addr] to the local port. *)
Definition comes_from (addr : ip_and_port) (i : Z) (a : arrival) : Prop :=
  let '(h, t, _) := a in tcp_dst_port t = port_of i /\ ip_src h = ap_ip addr /\ tcp_src_port t = ap_port addr.

Lemma tcp_handle_answer junk s k addr i d a (Q : unit -> tcp -> Prop) : dialled s k addr i 0 d -> syn_sent d -> k <> 0 -> ip_ok (ap_ip addr) -> is_word (ap_port addr) -> comes_from addr i a ->
  (let g := segment_of a in fl (sg_hdr g) TCP_FLAG_SYN = true /\ fl (sg_hdr g) TCP_FLAG_ACK = true) ->
  (forall s' d', dialled s' k addr i SOCK_FLAG_CONNECTED d' -> answered d' (u32 (seq_of (segment_of a) + sg_len (segment_of a) + 1)) -> Q tt s') ->
  runs (let '(h, t, raw) := a in tcp_handle my_ip junk h t raw) s Q.
Proof.
  intros (Hc & Hp & Hpl & Hi) (Hst & Hl & Hfr & Hbk & Hsz & Hsem) Hk Hip Hpt Hfrom [Hsyn Hack] HQ. destruct a as [[h t] raw]. destruct Hfrom as (Hdp & Hsrc & Hsp). cbn [segment_of sg_hdr sg_len] in *. set (len := u16 _) in *.
  unfold tcp_handle. fold len. mstep. apply runs_locked; [by rewrite Hpl|]. assert (Hport : swap_uint16 (tcp_dst_port t) = i + EPHEMERAL_START).
  { rewrite Hdp. unfold port_of. apply swap_uint16_involutive. unfold EPHEMERAL_NUM, EPHEMERAL_START, EPHEMERAL_END in *. lia. }
  apply get_port_spec; [rewrite Hport; unfold PORT_NUM, EPHEMERAL_NUM, EPHEMERAL_START, EPHEMERAL_END in *; lia|]. cbn [ports_sock set_port_lock]. rewrite Hport, Hp.
  set (s0 := set_port_lock false _). assert (H0 : at_conn s0 k _ d) by exact Hc. assert (O0 : only k s s0) by done. destruct (Z.eqb_spec k 0); [done|]. cbn [negb]. mstep. eapply sock_at_spec; [exact H0|].
  cbn [sock_flags]. change (has 0 SOCK_FLAG_LISTENING) with false. cbv iota. mstep. eapply lock_conn_spec; [exact H0|done|]. intros s1 H1 O1. mstep. eapply sock_at_spec; [exact H1|]. mstep. eapply runs_read; [done|].
  cbn [peer_addr set_private ap_port]. rewrite Hsrc, Hsp, Hdp, bool_decide_eq_true_2, !Z.eqb_refl by done. cbn [andb]. mstep. unfold tcp_sock_handle. mstep. eapply conn_at_spec; [exact H1|]. cbn [c_state set_c_lock]. rewrite Hst.
  unfold handle_syn_sent. rewrite Hack, Hsyn. cbn [andb]. mstep. eapply ack_recieved_spec; [exact H1|]. intros s2 st2 q2 H2 O2 _. rewrite set_private_twice in H2. mstep. eapply upd_conn_spec; [exact H2|]. intros s3 H3 O3. rewrite set_private_twice in H3.
  mstep. unfold add_flags. eapply upd_sock_spec; [apply H3|]. intros s4 K4 O4. match type of H3 with at_conn _ _ _ ?d3 => set (d3' := d3) in * end. assert (H4 : at_conn s4 k _ d3') by (split; [exact K4|done]).
  mstep. unfold tcp_send_ack. eapply send_control_spec; [exact Hmy|exact H4| |]. { split; [exact Hip|]. split; [exact Hpt|]. eexists. split; [done|]. apply port_of_word. }
  intros s5 H5 O5. eapply upd_conn_spec; [exact H5|]. intros s6 H6 O6. unfold unlock_conn. eapply upd_conn_spec; [exact H6|]. intros s7 H7 O7. rewrite !set_private_twice in H7.
  assert (O : only k s s7) by (do 7 (eapply only_trans; [eassumption|]); done). destruct O as (_ & E2 & _ & _ & _ & E6).
  match type of H7 with at_conn _ _ _ ?d7 => apply (HQ s7 d7) end.
  - split; [exact H7|]. split; [by rewrite E2|]. split; [by rewrite E6|done].
  - repeat split; try done. cbn. by rewrite Hsem.
Qed.

(** ** The caller woken *)

Lemma connect_finish_spec s k addr i d base stream (Q : option bool -> tcp -> Prop) : dialled s k addr i SOCK_FLAG_CONNECTED d -> answered d base -> 0 <= base < 2 ^ 32 -> ip_ok (ap_ip addr) -> is_word (ap_port addr) ->
  (forall s' d', dialled s' k addr i SOCK_FLAG_CONNECTED d' -> delivering stream base s' k 0 0 (Sock true addr (Some (IpAndPort (port_of i) IP_NONE)) SOCK_FLAG_CONNECTED (PConn d')) d' -> Q (Some true) s') ->
  runs (connect_finish k) s Q.
Proof.
  intros (Hc & Hp & Hpl & Hi) (Hst & Hl & Hn & Hfr & Hbk & Hsz & Hsem) Hb Hip Hpt HQ. unfold connect_finish. mstep. eapply conn_at_spec; [exact Hc|]. rewrite Hsem. cbn [Z.eqb]. mstep.
  eapply upd_conn_spec; [exact Hc|]. intros s1 H1 O1. mstep. eapply lock_conn_spec; [exact H1|done|]. intros s2 H2 O2. mstep. eapply conn_at_spec; [exact H2|]. mstep. unfold unlock_conn. eapply upd_conn_spec; [exact H2|]. intros s3 H3 O3. mstep.
  cbn [c_state set_c_lock set_established_semaphore]. rewrite Hst. rewrite !set_private_twice in H3. assert (O : only k s s3) by (do 3 (eapply only_trans; [eassumption|]); done). destruct O as (_ & E2 & _ & _ & _ & E6).
  match type of H3 with at_conn _ _ _ ?d3 => apply (HQ s3 d3) end.
  - split; [exact H3|]. split; [by rewrite E2|]. split; [by rewrite E6|done].
  - split; try done; [by left| |].
    + split; [exact Hip|]. split; [exact Hpt|]. eexists. split; [done|]. apply port_of_word.
    + split; try done; [|by rewrite Z.add_0_r|intros j; lia]. unfold PAGE_SIZE. lia.
Qed.
End Open.
