(* ===== verification/Inet.v ===== *)
(** * Inet: the way in, from a frame to the protocols, and the interface's configuration

    Models kernel/src/net/interface.c, the handlers of kernel/src/net/eth/eth.c, kernel/src/net/ip/ip.c, udp.c and icmp.c,
    kernel/src/net/ip/dhcp.c and nbns.c, with the headers they read, for one interface.  The address cache and what is sent are [Arp]'s, the
    connections and the generator of random numbers [Tcp]'s.  A handler gets the receive buffer from its header on, as bytes, and the length the driver or the layer
    below told it; a load outside the buffer is a fault.  A packet is sent by [Arp]'s [packet_send]; those of TCP go out when its handler is done. *)

From S2P Require Import Prelude Words Net Arp Tcp.

(** ** Headers as they are in memory *)

Definition field (l : list Z) (o n : nat) : Z := of_le_bytes (take n (drop o l)).
Definition ip_at (l : list Z) (o : nat) : ip := Ip (field l o 1) (field l (o + 1) 1) (field l (o + 2) 1) (field l (o + 3) 1).
Definition mac_at (l : list Z) (o : nat) : mac := Mac (field l o 1) (field l (o + 1) 1) (field l (o + 2) 1) (field l (o + 3) 1) (field l (o + 4) 1) (field l (o + 5) 1).

Definition eth_header_of (l : list Z) : eth_header := EthHeader (mac_at l 0) (mac_at l 6) (field l 12 2).
Definition arp_header_of (l : list Z) : arp_header :=
  ArpHeader (field l 0 2) (field l 2 2) (field l 4 1) (field l 5 1) (field l 6 2) (mac_at l 8) (ip_at l 14) (mac_at l 18) (ip_at l 24).
Definition ip_header_of (l : list Z) : ip_header :=
  IpHeader (field l 0 1) (field l 1 1) (field l 2 2) (field l 4 2) (field l 6 2) (field l 8 1) (field l 9 1) (field l 10 2) (ip_at l 12) (ip_at l 16).
Definition udp_header_of (l : list Z) : udp_header := UdpHeader (field l 0 2) (field l 2 2) (field l 4 2) (field l 6 2).
Definition icmp_header_of (l : list Z) : icmp_header := IcmpHeader (field l 0 1) (field l 1 1) (field l 2 2) (field l 4 4).
Definition tcp_header_of (l : list Z) : tcp_header :=
  TcpHeader (field l 0 2) (field l 2 2) (field l 4 4) (field l 8 4) (field l 12 2) (field l 14 2) (field l 16 2) (field l 18 2).

(** [sname] and [file] are the 192 bytes before the cookie. *)
Record dhcp_header := DhcpHeader {
  dh_op : Z; dh_htype : Z; dh_hlen : Z; dh_hops : Z; dh_xid : Z; dh_secs : Z; dh_flags : Z;
  dh_ciaddr : ip; dh_yiaddr : ip; dh_siaddr : ip; dh_giaddr : ip; dh_chaddr : mac; dh_zero : list Z; dh_names : list Z; dh_cookie : Z;
}.
Definition DHCP_SIZE : Z := 240.
Definition dhcp_header_of (l : list Z) : dhcp_header :=
  DhcpHeader (field l 0 1) (field l 1 1) (field l 2 1) (field l 3 1) (field l 4 4) (field l 8 2) (field l 10 2)
    (ip_at l 12) (ip_at l 16) (ip_at l 20) (ip_at l 24) (mac_at l 28) (take 10 (drop 34 l)) (take 192 (drop 44 l)) (field l 236 4).
Definition dhcp_bytes (h : dhcp_header) : list Z :=
  [dh_op h; dh_htype h; dh_hlen h; dh_hops h] ++ le_bytes 4 (dh_xid h) ++ le_bytes 2 (dh_secs h) ++ le_bytes 2 (dh_flags h) ++
  ip_addr_bytes (dh_ciaddr h) ++ ip_addr_bytes (dh_yiaddr h) ++ ip_addr_bytes (dh_siaddr h) ++ ip_addr_bytes (dh_giaddr h) ++
  mac_bytes (dh_chaddr h) ++ dh_zero h ++ dh_names h ++ le_bytes 4 (dh_cookie h).

Record dns_header := DnsHeader { dn_xid : Z; dn_flags : Z; dn_query_count : Z; dn_answer_count : Z; dn_authority_count : Z; dn_additional_count : Z }.
Definition DNS_SIZE : Z := 12.
Definition dns_header_of (l : list Z) : dns_header := DnsHeader (field l 0 2) (field l 2 2) (field l 4 2) (field l 6 2) (field l 8 2) (field l 10 2).
Definition dns_bytes (h : dns_header) : list Z :=
  le_bytes 2 (dn_xid h) ++ le_bytes 2 (dn_flags h) ++ le_bytes 2 (dn_query_count h) ++ le_bytes 2 (dn_answer_count h) ++ le_bytes 2 (dn_authority_count h) ++ le_bytes 2 (dn_additional_count h).

Record dns_sym_query := DnsQuery { dq_len : Z; dq_name : list Z; dq_type : Z; dq_class : Z }.
Definition dns_query_bytes (q : dns_sym_query) : list Z := dq_len q :: dq_name q ++ [0] ++ le_bytes 2 (dq_type q) ++ le_bytes 2 (dq_class q).

(** What a record says of the address, and the record with a name and with an alias of one. *)
Record dns_rr := DnsRr { rr_type : Z; rr_class : Z; rr_ttl : Z; rr_addr_len : Z; rr_nb_flags : Z; rr_ip : ip }.
Definition dns_rr_bytes (r : dns_rr) : list Z :=
  le_bytes 2 (rr_type r) ++ le_bytes 2 (rr_class r) ++ le_bytes 4 (rr_ttl r) ++ le_bytes 2 (rr_addr_len r) ++ le_bytes 2 (rr_nb_flags r) ++ ip_addr_bytes (rr_ip r).
Definition dns_sym_rr (name : list Z) (r : dns_rr) : list Z := Z.of_nat (length name) :: name ++ [0] ++ dns_rr_bytes r.
Definition dns_sym_aliased_rr (alias : Z) (r : dns_rr) : list Z := le_bytes 2 alias ++ dns_rr_bytes r.

(** ** The interface and the host *)

Inductive net_state := IF_UNKNOWN | IF_INIT | IF_DOWN | IF_UP | IF_READY | IF_ERROR.
Inductive listener := inet_listener | dhcp_listener | nbns_listener.

#[global] Instance net_state_eq_dec : EqDecision net_state.
Proof. solve_decision. Defined.
#[global] Instance listener_eq_dec : EqDecision listener.
Proof. solve_decision. Defined.

(** [if_ip] is what [ip_data] points at. *)
Record net_interface := NetInterface { if_state : net_state; if_ip : option ip; if_mac : mac }.

Record host := Host {
  h_if : net_interface;
  h_lan : lan;
  h_tcp : tcp;
  interfaces : list unit;
  listeners : list listener;
  hostname_handles : Z;
  interface_lock : bool;
  listener_lock : bool;
}.

Definition set_if (v : net_interface) (s : host) : host := Host v (h_lan s) (h_tcp s) (interfaces s) (listeners s) (hostname_handles s) (interface_lock s) (listener_lock s).
Definition set_lan (v : lan) (s : host) : host := Host (h_if s) v (h_tcp s) (interfaces s) (listeners s) (hostname_handles s) (interface_lock s) (listener_lock s).
Definition set_tcp (v : tcp) (s : host) : host := Host (h_if s) (h_lan s) v (interfaces s) (listeners s) (hostname_handles s) (interface_lock s) (listener_lock s).
Definition set_interfaces (v : list unit) (s : host) : host := Host (h_if s) (h_lan s) (h_tcp s) v (listeners s) (hostname_handles s) (interface_lock s) (listener_lock s).
Definition set_listeners (v : list listener) (s : host) : host := Host (h_if s) (h_lan s) (h_tcp s) (interfaces s) v (hostname_handles s) (interface_lock s) (listener_lock s).
Definition set_hostname_handles (v : Z) (s : host) : host := Host (h_if s) (h_lan s) (h_tcp s) (interfaces s) (listeners s) v (interface_lock s) (listener_lock s).
Definition set_interface_lock (v : bool) (s : host) : host := Host (h_if s) (h_lan s) (h_tcp s) (interfaces s) (listeners s) (hostname_handles s) v (listener_lock s).
Definition set_listener_lock (v : bool) (s : host) : host := Host (h_if s) (h_lan s) (h_tcp s) (interfaces s) (listeners s) (hostname_handles s) (interface_lock s) v.

Definition in_lan {A} (m : M lan A) : M host A := lift h_lan set_lan m.
Definition in_tcp {A} (m : M tcp A) : M host A := lift h_tcp set_tcp m.
Definition with_interfaces {A} (m : M host A) : M host A := locked (fun s => Some (interface_lock s)) set_interface_lock m.
Definition with_listeners {A} (m : M host A) : M host A := locked (fun s => Some (listener_lock s)) set_listener_lock m.

(** A header of [n] bytes at the start of the buffer. *)
Definition load {A} (n : Z) (f : list Z -> A) (raw : list Z) : M host A := read (fun _ => if n <=? size_of raw then Some (f raw) else None).
Definition byte_at (l : list Z) (i : Z) : M host Z := read (fun _ => if 0 <=? i then l !! Z.to_nat i else None).

Definition my_ip : M host ip := read (fun s => if_ip (h_if s)).
Definition my_mac : M host mac := gets (fun s => if_mac (h_if s)).

(** *** interface.c *)

(** "K-OS" *)
Definition hostname : list Z := [75; 45; 79; 83].

Definition net_get_hostname : M host (list Z) :=
  with_interfaces (modify (fun s => set_hostname_handles (u32 (hostname_handles s + 1)) s);; mret hostname).
Definition net_put_hostname : M host unit := with_interfaces (modify (fun s => set_hostname_handles (u32 (hostname_handles s - 1)) s)).

Definition register_net_state_listener (l : listener) : M host unit := with_listeners (modify (fun s => set_listeners (l :: listeners s) s)).

(** Taking off a link that is on no list follows stale pointers. *)
Fixpoint take_off (l : listener) (ls : list listener) : option (list listener) :=
  match ls with [] => None | x :: ls' => if bool_decide (x = l) then Some ls' else cons x <$> take_off l ls' end.
Definition unregister_net_state_listener (l : listener) : M host unit :=
  with_listeners (ls ← read (fun s => take_off l (listeners s)); modify (set_listeners ls)).
Definition unregister_net_interface : M host unit := with_interfaces (l ← read (fun s => match interfaces s with [] => None | _ :: l => Some l end); modify (set_interfaces l)).
(** The first interface; of an empty list there is none. *)
Definition net_primary_interface : M host unit := read (fun s => head (interfaces s)).

Section Host.
(** What fresh memory holds; what follows the host name's NUL in memory; what a new cache entry and a new connection's buffer hold. *)
Context (junk : Z -> Z) (beyond : list Z) (junk_mac : mac) (junk_retrys : Z) (junk_buff : Z -> Z).

(** A block of [n] bytes from [kmalloc] whose first bytes are set to [l]. *)
Definition filled (n : Z) (l : list Z) : M host (list Z) :=
  read (fun _ => if size_of l <=? n then Some (l ++ drop (length l) (junk <$> seqZ 0 n)) else None).

Definition send (p : packet) : M host unit := i ← my_ip; m ← my_mac; in_lan (packet_send i m junk_mac p).

(** [packet_create], [udp_build] and [packet_send] of a buffer's first [len] bytes. *)
Definition send_udp (buff : list Z) (len : Z) (dst : ip) (src_port_net dst_port_net : Z) : M host unit :=
  i ← my_ip; p ← read (fun _ => udp_build i (packet_create 0 buff len) dst src_port_net dst_port_net); send p.

(** *** nbns.c *)

Definition HOSTNAME_TTL : Z := 300000.
Definition NBNS_PORT : Z := 137.
Definition NBNS_NAME_LENGTH : Z := 15.
Definition NAME_WORKSTATION : Z := 0.
Definition R_REQUEST : Z := 0.
Definition R_RESPONSE : Z := 1.
Definition OPCODE_QUERY : Z := 0.
Definition OPCODE_REGISTRATION : Z := 5.
Definition NM_FLAG_BROADCAST : Z := 1 <<< 0.
Definition NM_FLAG_RECURSION_DESIRED : Z := 1 <<< 4.
Definition NM_FLAG_AUTHORITIVE : Z := 1 <<< 6.
Definition RCODE_NONE : Z := 0.
Definition SCOPE_UNIQUE : Z := 0 <<< 15.
Definition NODE_B : Z := 0 <<< 13.
Definition RR_TYPE_NAME : Z := 0x0020.
Definition RR_CLASS_INTERNET : Z := 0x0001.
Definition NAME_IS_ALIAS : Z := 0xC000.

Definition FLAGS_TO_R (x : Z) : Z := u16 x >>> 15.
Definition FLAGS_TO_OPCODE (x : Z) : Z := Z.land (u16 x) 0x7800 >>> 11.
Definition TO_FLAGS (r opcode nm_flags rcode : Z) : Z := Z.lor (Z.lor (Z.lor (u16 r <<< 15) (u16 opcode <<< 11)) (u16 nm_flags <<< 4)) (u16 rcode).

(** The two letters of a character; a [char] is signed. *)
Definition encode_char (c : Z) : list Z := [u8 ((s8 c >>> 4) + 65); u8 (Z.land (s8 c) 0xF + 65)].

(** [name[i]] is read even after the name's end. *)
Fixpoint encode_from (n : nat) (i : Z) (name : list Z) (foundEnd : bool) : M host (list Z) :=
  match n with
  | O => mret []
  | S n' =>
      c ← byte_at name i;
      let foundEnd := foundEnd || (c =? 0) in
      l ← encode_from n' (i + 1) name foundEnd;
      mret ((if foundEnd then encode_char 32 else encode_char c) ++ l)
  end.

Definition nbns_encode_name (name : list Z) (type : Z) : M host (list Z) :=
  l ← encode_from (Z.to_nat NBNS_NAME_LENGTH) 0 name false;
  mret (l ++ [u8 ((type >>> 4) + 65); u8 (Z.land type 0xF + 65)]).

(** The host name as it lies in memory. *)
Definition name_memory (name : list Z) : list Z := name ++ [0] ++ beyond.

Definition QUERY_RESPONSE_SIZE : Z := 62.
Definition nbns_response (xid : Z) (name : list Z) (i : ip) : list Z :=
  dns_bytes (DnsHeader xid (swap_uint16 (u16 (TO_FLAGS R_RESPONSE OPCODE_QUERY (Z.lor NM_FLAG_RECURSION_DESIRED NM_FLAG_AUTHORITIVE) RCODE_NONE))) 0 (swap_uint16 1) 0 0) ++
  dns_sym_rr name (DnsRr (swap_uint16 RR_TYPE_NAME) (swap_uint16 RR_CLASS_INTERNET) (swap_uint32 HOSTNAME_TTL) (swap_uint16 6) 0 i).

Definition nbns_handle (h : ip_header) (raw : list Z) (len : Z) : M host unit :=
  if len <? DNS_SIZE then mret tt
  else
    dns ← load DNS_SIZE dns_header_of raw;
    if negb (FLAGS_TO_R (swap_uint16 (dn_flags dns)) =? R_REQUEST) then mret tt
    else if negb (FLAGS_TO_OPCODE (swap_uint16 (dn_flags dns)) =? OPCODE_QUERY) then mret tt
    else if negb (swap_uint16 (dn_query_count dns) =? 1) then mret tt
    else
      name ← net_get_hostname;
      encode ← nbns_encode_name (name_memory name) NAME_WORKSTATION;
      net_put_hostname;;
      asked ← load (DNS_SIZE + 33) (fun l => take 32 (drop 13 l)) raw;
      if negb (bool_decide (encode = asked)) then mret tt
      else
        i ← my_ip;
        send_udp (nbns_response (dn_xid dns) encode i) QUERY_RESPONSE_SIZE (ip_src h) (swap_uint16 NBNS_PORT) (swap_uint16 NBNS_PORT).

Definition REG_REQUEST_SIZE : Z := 68.
Definition nbns_request (xid : Z) (name : list Z) (i : ip) : list Z :=
  dns_bytes (DnsHeader xid (swap_uint16 (u16 (TO_FLAGS R_REQUEST OPCODE_REGISTRATION (Z.lor NM_FLAG_RECURSION_DESIRED NM_FLAG_BROADCAST) RCODE_NONE))) (swap_uint16 1) 0 0 (swap_uint16 1)) ++
  dns_query_bytes (DnsQuery 32 name (swap_uint16 RR_TYPE_NAME) (swap_uint16 RR_CLASS_INTERNET)) ++
  dns_sym_aliased_rr (swap_uint16 (u16 (Z.lor NAME_IS_ALIAS DNS_SIZE)))
    (DnsRr (swap_uint16 RR_TYPE_NAME) (swap_uint16 RR_CLASS_INTERNET) 0 (swap_uint16 6) (swap_uint16 (Z.lor SCOPE_UNIQUE NODE_B)) i).

Definition nbns_register_name (name : list Z) : M host unit :=
  xid ← in_tcp (in_rand rand16);
  encode ← nbns_encode_name (name_memory name) NAME_WORKSTATION;
  i ← my_ip;
  send_udp (nbns_request xid encode i) REG_REQUEST_SIZE IP_BROADCAST (swap_uint16 NBNS_PORT) (swap_uint16 NBNS_PORT).

(** *** dhcp.c: what is sent *)

Definition DHCP_PORT_CLIENT : Z := 68.
Definition DHCP_PORT_SERVER : Z := 67.
Definition END_PADDING : Z := 28.
Definition OP_REQUEST : Z := 1.
Definition OP_REPLY : Z := 2.
Definition MAGIC_COOKIE : Z := 0x63825363.
Definition OPT_PAD : Z := 0.
Definition OPT_SUBNET_MASK : Z := 1.
Definition OPT_ROUTER : Z := 3.
Definition OPT_DNS : Z := 6.
Definition OPT_HOST_NAME : Z := 12.
Definition OPT_REQUESTED_IP_ADDR : Z := 50.
Definition OPT_LEASE_TIME : Z := 51.
Definition OPT_MESSAGE_TYPE : Z := 53.
Definition OPT_SERVER_ID : Z := 54.
Definition OPT_PARAMETER_REQUEST : Z := 55.
Definition OPT_RENEWAL_TIME : Z := 58.
Definition OPT_REBINDING_TIME : Z := 59.
Definition OPT_END : Z := 255.
Definition MSG_DISCOVER : Z := 1.
Definition MSG_OFFER : Z := 2.
Definition MSG_REQUEST : Z := 3.
Definition MSG_ACK : Z := 5.

Definition dhcp_build_packet (addr : mac) (xid : Z) : dhcp_header :=
  DhcpHeader OP_REQUEST HTYPE_ETH 6 0 xid 0 0 IP_NONE IP_NONE IP_NONE IP_NONE addr (replicate 10 0) (replicate 192 0) (swap_uint32 MAGIC_COOKIE).

Definition OPTIONS_LEN_DISCOVER : Z := 9.
Definition OPTIONS_LEN_REQUEST : Z := 22.

Definition name_option (name : list Z) : list Z := [OPT_HOST_NAME; u8 (size_of name)] ++ name.
Definition param_option : list Z := [OPT_PARAMETER_REQUEST; 3; OPT_SUBNET_MASK; OPT_ROUTER; OPT_DNS; OPT_END].

(** The length sent leaves the host name out. *)
Definition dhcp_send_discover : M host unit :=
  name ← net_get_hostname;
  m ← my_mac;
  xid ← in_tcp (in_rand rand32);
  buff ← filled (u32 (DHCP_SIZE + OPTIONS_LEN_DISCOVER + size_of name + END_PADDING))
    (dhcp_bytes (dhcp_build_packet m xid) ++ [OPT_MESSAGE_TYPE; 1; MSG_DISCOVER] ++ name_option name ++ param_option);
  send_udp buff (DHCP_SIZE + OPTIONS_LEN_DISCOVER + END_PADDING) IP_BROADCAST (swap_uint16 DHCP_PORT_CLIENT) (swap_uint16 DHCP_PORT_SERVER).

(** [sizeof(opts)] is the size of a pointer. *)
Definition dhcp_send_request (yiaddr server : ip) : M host unit :=
  name ← net_get_hostname;
  m ← my_mac;
  xid ← in_tcp (in_rand rand32);
  buff ← filled (u32 (DHCP_SIZE + OPTIONS_LEN_REQUEST + size_of name + END_PADDING))
    (dhcp_bytes (dhcp_build_packet m xid) ++ [OPT_MESSAGE_TYPE; 1; MSG_REQUEST] ++ name_option name ++
     [OPT_SERVER_ID; 4] ++ ip_addr_bytes server ++ [OPT_REQUESTED_IP_ADDR; 4] ++ ip_addr_bytes yiaddr ++ param_option);
  send_udp buff (DHCP_SIZE + 4 + END_PADDING) IP_BROADCAST (swap_uint16 DHCP_PORT_CLIENT) (swap_uint16 DHCP_PORT_SERVER).

(** *** The state of the interface *)

Definition inet_callback (state : net_state) : M host unit :=
  match state with IF_DOWN => modify (fun s => set_if (NetInterface (if_state (h_if s)) (Some IP_NONE) (if_mac (h_if s))) s) | _ => mret tt end.
Definition dhcp_callback (state : net_state) : M host unit := match state with IF_UP => dhcp_send_discover | _ => mret tt end.
Definition nbns_callback (state : net_state) : M host unit :=
  match state with IF_READY => name ← net_get_hostname; nbns_register_name name;; net_put_hostname | _ => mret tt end.

Definition callback (l : listener) (state : net_state) : M host unit :=
  match l with inet_listener => inet_callback state | dhcp_listener => dhcp_callback state | nbns_listener => nbns_callback state end.
Fixpoint listener_chain_fire (state : net_state) (l : list listener) : M host unit :=
  match l with [] => mret tt | x :: l' => callback x state;; listener_chain_fire state l' end.

Definition net_set_state (state : net_state) : M host unit :=
  s ← get;
  if bool_decide (if_state (h_if s) = state) then mret tt
  else
    modify (fun s => set_if (NetInterface state (if_ip (h_if s)) (if_mac (h_if s))) s);;
    with_listeners (listener_chain_fire state (listeners s)).

Definition register_net_interface : M host unit :=
  modify (fun s => set_if (NetInterface IF_INIT None (if_mac (h_if s))) s);;
  with_interfaces (modify (fun s => set_interfaces (tt :: interfaces s) s));;
  net_set_state IF_DOWN.

(** *** dhcp.c: what comes in *)

(** A pointer into the options is an offset, [None] for [NULL]. *)
Record dhcp_options := DhcpOptions {
  o_subnet_mask : option Z; o_router_list : option Z; o_router_len : Z; o_dns_list : option Z; o_dns_len : Z;
  o_requested_ip : option Z; o_lease : Z; o_message_type : Z; o_server : option Z; o_param_list : option Z; o_param_len : Z;
}.
Definition no_options : dhcp_options := DhcpOptions None None 0 None 0 None 0 0 None None 0.

Definition set_o_subnet_mask (p : Z) (o : dhcp_options) : dhcp_options :=
  DhcpOptions (Some p) (o_router_list o) (o_router_len o) (o_dns_list o) (o_dns_len o) (o_requested_ip o) (o_lease o) (o_message_type o) (o_server o) (o_param_list o) (o_param_len o).
Definition set_o_router (p n : Z) (o : dhcp_options) : dhcp_options :=
  DhcpOptions (o_subnet_mask o) (Some p) n (o_dns_list o) (o_dns_len o) (o_requested_ip o) (o_lease o) (o_message_type o) (o_server o) (o_param_list o) (o_param_len o).
Definition set_o_dns (p n : Z) (o : dhcp_options) : dhcp_options :=
  DhcpOptions (o_subnet_mask o) (o_router_list o) (o_router_len o) (Some p) n (o_requested_ip o) (o_lease o) (o_message_type o) (o_server o) (o_param_list o) (o_param_len o).
Definition set_o_requested_ip (p : Z) (o : dhcp_options) : dhcp_options :=
  DhcpOptions (o_subnet_mask o) (o_router_list o) (o_router_len o) (o_dns_list o) (o_dns_len o) (Some p) (o_lease o) (o_message_type o) (o_server o) (o_param_list o) (o_param_len o).
Definition set_o_lease (v : Z) (o : dhcp_options) : dhcp_options :=
  DhcpOptions (o_subnet_mask o) (o_router_list o) (o_router_len o) (o_dns_list o) (o_dns_len o) (o_requested_ip o) v (o_message_type o) (o_server o) (o_param_list o) (o_param_len o).
Definition set_o_message_type (v : Z) (o : dhcp_options) : dhcp_options :=
  DhcpOptions (o_subnet_mask o) (o_router_list o) (o_router_len o) (o_dns_list o) (o_dns_len o) (o_requested_ip o) (o_lease o) v (o_server o) (o_param_list o) (o_param_len o).
Definition set_o_server (p : Z) (o : dhcp_options) : dhcp_options :=
  DhcpOptions (o_subnet_mask o) (o_router_list o) (o_router_len o) (o_dns_list o) (o_dns_len o) (o_requested_ip o) (o_lease o) (o_message_type o) (Some p) (o_param_list o) (o_param_len o).
Definition set_o_param (p n : Z) (o : dhcp_options) : dhcp_options :=
  DhcpOptions (o_subnet_mask o) (o_router_list o) (o_router_len o) (o_dns_list o) (o_dns_len o) (o_requested_ip o) (o_lease o) (o_message_type o) (o_server o) (Some p) n.

(** The case of an option whose data is [opt_len] bytes at [ptr]: how far the pointer moves, or a refusal. *)
Definition dhcp_option (packet : list Z) (opt opt_len ptr : Z) (o : dhcp_options) : M host (option (Z * dhcp_options)) :=
  let address (f : dhcp_options -> dhcp_options) := mret (if opt_len <? 4 then None else Some (ptr + 4, f o)) in
  if opt =? OPT_MESSAGE_TYPE then v ← byte_at packet ptr; mret (Some (ptr + 1, set_o_message_type v o))
  else if opt =? OPT_SUBNET_MASK then address (set_o_subnet_mask ptr)
  else if opt =? OPT_ROUTER then address (set_o_router ptr opt_len)
  else if opt =? OPT_DNS then address (set_o_dns ptr opt_len)
  else if opt =? OPT_REQUESTED_IP_ADDR then address (set_o_requested_ip ptr)
  else if opt =? OPT_SERVER_ID then address (set_o_server ptr)
  else if opt =? OPT_LEASE_TIME then
    if opt_len <? 4 then mret None
    else v ← load (ptr + 4) (fun l => field l (Z.to_nat ptr) 4) packet; mret (Some (ptr + 4, set_o_lease (swap_uint32 v) o))
  else if opt =? OPT_PARAMETER_REQUEST then mret (Some (ptr + 1, set_o_param ptr opt_len o))
  else mret (Some (ptr + opt_len, o)).

(** A turn of the loop; it ends in a refusal or with the options. *)
Definition option_round (packet : list Z) (len : Z) (v : Z * dhcp_options) : M host (Z * dhcp_options + option dhcp_options) :=
  let '(ptr, o) := v in
  if negb (ptr <? len) then mret (inr (Some o))
  else
    opt ← byte_at packet ptr;
    let ptr := ptr + 1 in
    if opt =? OPT_PAD then mret (inl (ptr, o))
    else if opt =? OPT_END then mret (inr (Some o))
    else if ptr + 1 >=? len then mret (inr None)
    else
      opt_len ← byte_at packet ptr;
      let ptr := ptr + 1 in
      if ptr + opt_len + 1 >=? len then mret (inr None)
      else r ← dhcp_option packet opt opt_len ptr o; mret (match r with None => inr None | Some v => inl v end).

Definition dhcp_parse_options (packet : list Z) (len : Z) : M host (option dhcp_options) :=
  iterM (S (Z.to_nat len)) (option_round packet len) (0, no_options).

Definition dhcp_ack (yiaddr : ip) : M host unit :=
  _ ← my_ip;
  modify (fun s => set_if (NetInterface (if_state (h_if s)) (Some yiaddr) (if_mac (h_if s))) s);;
  net_set_state IF_READY.

Definition dhcp_handle (raw : list Z) (len : Z) : M host unit :=
  if len <? DHCP_SIZE then mret tt
  else
    dhcp ← load DHCP_SIZE dhcp_header_of raw;
    m ← my_mac;
    if negb (dh_op dhcp =? OP_REPLY) then mret tt
    else if negb (dh_htype dhcp =? HTYPE_ETH) then mret tt
    else if negb (dh_hlen dhcp =? 6) then mret tt
    else if negb (dh_cookie dhcp =? swap_uint32 MAGIC_COOKIE) then mret tt
    else if negb (bool_decide (m = dh_chaddr dhcp)) then mret tt
    else
      let options := drop (Z.to_nat DHCP_SIZE) raw in
      r ← dhcp_parse_options options (len - DHCP_SIZE);
      match r with
      | None => mret tt
      | Some opts =>
          if o_message_type opts =? MSG_OFFER then
            p ← read (fun _ => o_server opts);
            server ← load (p + 4) (fun l => ip_at l (Z.to_nat p)) options;
            dhcp_send_request (dh_yiaddr dhcp) server
          else if o_message_type opts =? MSG_ACK then dhcp_ack (dh_yiaddr dhcp)
          else mret tt
      end.

(** *** From the frame to the protocols *)

Definition udp_handle (h : ip_header) (raw : list Z) (len : Z) : M host unit :=
  udp ← load 8 udp_header_of raw;
  s ← get;
  let src_port := swap_uint16 (udp_src_port udp) in
  let dst_port := swap_uint16 (udp_dst_port udp) in
  let raw := drop 8 raw in
  let len := u16 (len - 8) in
  if bool_decide (if_state (h_if s) = IF_UP) && (src_port =? DHCP_PORT_SERVER) && (dst_port =? DHCP_PORT_CLIENT) then dhcp_handle raw len
  else if bool_decide (if_state (h_if s) = IF_READY) && (dst_port =? NBNS_PORT) then nbns_handle h raw len
  else mret tt.

(** The copy of the payload is as long as the frame says. *)
Definition icmp_handle (h : ip_header) (raw : list Z) (len : Z) : M host unit :=
  icmp ← load 8 icmp_header_of raw;
  let raw := drop 8 raw in
  let len := u16 (len - 8) in
  if (icmp_type icmp =? ICMP_TYPE_ECHO_REQUEST) && (icmp_code icmp =? ICMP_CODE_ECHO_REQUEST) then
    buff ← load len (take (Z.to_nat len)) raw;
    i ← my_ip;
    p ← read (fun _ => icmp_build i (packet_create 0 buff len) ICMP_TYPE_ECHO_REPLY ICMP_CODE_ECHO_REPLY (icmp_other icmp) (ip_src h));
    send p
  else mret tt.

Fixpoint send_packets (l : list packet) : M host unit := match l with [] => mret tt | p :: l' => send p;; send_packets l' end.

(** What TCP has handed over. *)
Definition flush_tcp : M host unit :=
  s ← get; modify (fun s => set_tcp (set_out [] (h_tcp s)) s);; send_packets (rev (out (h_tcp s))).

Definition ip_handle (eth_src : mac) (raw : list Z) (len : Z) : M host unit :=
  h ← load 20 ip_header_of raw;
  let raw := drop 20 raw in
  let len := u16 (len - 20) in
  if negb (IP_VERSION (version_ihl h) =? 4) then mret tt
  else
    in_lan (arp_cache_store junk_retrys eth_src (ip_src h));;
    if protocol h =? IP_PROT_ICMP then icmp_handle h raw len
    else if protocol h =? IP_PROT_TCP then
      t ← load 20 tcp_header_of raw; i ← my_ip;
      in_tcp (tcp_handle i junk_buff h t (drop 20 raw));; flush_tcp
    else if protocol h =? IP_PROT_UDP then udp_handle h raw len
    else mret tt.

Definition eth_handle (raw : list Z) (length : Z) : M host unit :=
  h ← load 14 eth_header_of raw;
  let raw := drop 14 raw in
  let length := u16 (length - 14) in
  if swap_uint16 (eth_type h) =? ETH_TYPE_ARP then
    a ← load 28 arp_header_of raw; i ← my_ip; m ← my_mac; in_lan (arp_handle i m junk_retrys a)
  else if swap_uint16 (eth_type h) =? ETH_TYPE_IP then ip_handle (Net.eth_src h) raw length
  else mret tt.

Definition net_recieve (raw : list Z) (len : Z) : M host unit := eth_handle raw len.
End Host.

(** ** Headers read back as they were built *)

Definition eth_ok (h : eth_header) : Prop := is_word (eth_type h).
Definition iph_ok (h : ip_header) : Prop := is_word (total_length h) /\ is_word (ident h) /\ is_word (flags_frag_off h) /\ is_word (ip_checksum h).
Definition udph_ok (h : udp_header) : Prop := is_word (udp_src_port h) /\ is_word (udp_dst_port h) /\ is_word (udp_length h) /\ is_word (udp_checksum h).
Definition icmph_ok (h : icmp_header) : Prop := is_word (icmp_checksum h) /\ 0 <= icmp_other h < 2 ^ 32.
Definition dhcph_ok (h : dhcp_header) : Prop :=
  0 <= dh_xid h < 2 ^ 32 /\ is_word (dh_secs h) /\ is_word (dh_flags h) /\ length (dh_zero h) = 10%nat /\ length (dh_names h) = 192%nat /\ 0 <= dh_cookie h < 2 ^ 32.

Lemma le2_back w : is_word w -> of_le_bytes [w mod 256; w / 256 mod 256] = w.
Proof. intros Hw. etransitivity; [apply (of_le_bytes_le_bytes 2)|]. by apply Z.mod_small. Qed.
Lemma le4_back w : 0 <= w < 2 ^ 32 -> of_le_bytes [w mod 256; w / 256 mod 256; w / 256 / 256 mod 256; w / 256 / 256 / 256 mod 256] = w.
Proof. intros Hw. etransitivity; [apply (of_le_bytes_le_bytes 4)|]. by apply Z.mod_small. Qed.

(** Every field of a header whose bytes are known. *)
Ltac headers_back :=
  unfold mac_at, ip_at, mac_bytes, ip_addr_bytes, field; cbn [app take drop Nat.add le_bytes mac0 mac1 mac2 mac3 mac4 mac5 ip0 ip1 ip2 ip3]; rewrite ?le2_back, ?le4_back by assumption; cbn [of_le_bytes]; rewrite ?Z.mul_0_r, ?Z.add_0_r; try done.

Lemma eth_header_back h rest : eth_ok h -> eth_header_of (eth_bytes h ++ rest) = h.
Proof. intros H. destruct h as [[] [] ?]. unfold eth_ok in H. cbn in H. unfold eth_header_of, eth_bytes. cbn [Net.eth_dst Net.eth_src Net.eth_type Net.mac0 Net.mac1 Net.mac2 Net.mac3 Net.mac4 Net.mac5]. headers_back. Qed.
Lemma ip_header_back h rest : iph_ok h -> ip_header_of (ip_bytes h ++ rest) = h.
Proof. intros (H1 & H2 & H3 & H4). destruct h as [? ? ? ? ? ? ? ? [] []]. cbn in *. unfold ip_header_of, ip_bytes. cbn [Net.version_ihl Net.dscp_ecn Net.total_length Net.ident Net.flags_frag_off Net.ttl Net.protocol Net.ip_checksum Net.ip_src Net.ip_dst Net.ip0 Net.ip1 Net.ip2 Net.ip3]. headers_back. Qed.
Lemma udp_header_back h rest : udph_ok h -> udp_header_of (udp_bytes h ++ rest) = h.
Proof. intros (H1 & H2 & H3 & H4). destruct h. cbn in *. unfold udp_header_of, udp_bytes. cbn [Net.udp_src_port Net.udp_dst_port Net.udp_length Net.udp_checksum]. headers_back. Qed.
Lemma icmp_header_back h rest : icmph_ok h -> icmp_header_of (icmp_bytes h ++ rest) = h.
Proof. intros (H1 & H2). destruct h. cbn in *. unfold icmp_header_of, icmp_bytes. cbn [Net.icmp_type Net.icmp_code Net.icmp_checksum Net.icmp_other]. headers_back. Qed.

Lemma dhcp_bytes_length h : dhcph_ok h -> length (dhcp_bytes h) = 240%nat.
Proof. intros (_ & _ & _ & H1 & H2 & _). unfold dhcp_bytes. rewrite !length_app, H1, H2. reflexivity. Qed.

Lemma dhcp_header_back h rest : dhcph_ok h -> dhcp_header_of (dhcp_bytes h ++ rest) = h.
Proof.
  intros (H1 & H2 & H3 & H4 & H5 & H6). destruct h as [? ? ? ? ? ? ? [] [] [] [] [] zero names cookie]. cbn in *. unfold dhcp_bytes.
  cbn [Inet.dh_op Inet.dh_htype Inet.dh_hlen Inet.dh_hops Inet.dh_xid Inet.dh_secs Inet.dh_flags Inet.dh_ciaddr Inet.dh_yiaddr Inet.dh_siaddr Inet.dh_giaddr Inet.dh_chaddr Inet.dh_zero Inet.dh_names Inet.dh_cookie].
  unfold dhcp_header_of. rewrite <- !app_assoc. set (tail := le_bytes 4 cookie ++ rest).
  assert (E1 : forall k, drop (10 + k) (zero ++ names ++ tail) = drop k (names ++ tail)) by (intros k; rewrite <- drop_drop, <- H4; by rewrite drop_app_length).
  assert (E2 : drop 192 (names ++ tail) = tail) by (rewrite <- H5; apply drop_app_length).
  f_equal; try by headers_back.
  - change (take 10 (zero ++ names ++ tail) = zero). rewrite <- H4. apply take_app_length.
  - change (take 192 (drop (10 + 0) (zero ++ names ++ tail)) = names). rewrite E1. cbn [drop]. rewrite <- H5. apply take_app_length.
  - change (of_le_bytes (take 4 (drop (10 + 192) (zero ++ names ++ tail))) = cookie). rewrite E1, E2. unfold tail. by headers_back.
Qed.

(** ** Sending *)

(** The datagram [q] carries, and between which machines. *)
Record datagram (src dst : ip) (smac dmac : mac) (sp dp : Z) (payload : list Z) (q : packet) : Prop := Datagram {
  dg_link : p_link q = Some (EthHeader dmac smac (swap_uint16 ETH_TYPE_IP));
  dg_ip : exists h u, p_net q = NetIp h /\ p_tran q = TranUdp u /\ ip_src h = src /\ ip_dst h = dst /\ protocol h = IP_PROT_UDP /\
    verifies (words16 (ip_bytes h)) /\ verifies (transport_words src dst IP_PROT_UDP (udp_bytes u ++ payload)) /\ udp_src_port u = sp /\ udp_dst_port u = dp;
  dg_payload : p_payload q = payload;
}.

Lemma ip_build_fields my p prot dst p' : ip_build my p prot dst = Some p' -> exists h, p_net p' = NetIp h /\ ip_src h = my /\ ip_dst h = dst /\ protocol h = prot /\
  p_rdst p' = AddrInet dst /\ p_state p' = PSTATE_UNRESOLVED /\ p_result p' = p_result p /\ p_tran p' = p_tran p /\ p_payload p' = p_payload p /\ p_protocol p' = ETH_TYPE_IP.
Proof. unfold ip_build. destruct (sum_to_checksum _) as [c|]; [|done]. cbn [mbind option_bind]. intros [= <-]. by eexists. Qed.

Lemma udp_build_fields my p dst sp dp p' : udp_build my p dst sp dp = Some p' -> exists h, p_net p' = NetIp h /\ ip_src h = my /\ ip_dst h = dst /\ protocol h = IP_PROT_UDP /\
  p_rdst p' = AddrInet dst /\ p_state p' = PSTATE_UNRESOLVED /\ p_result p' = p_result p /\ p_protocol p' = ETH_TYPE_IP.
Proof.
  unfold udp_build. destruct (sum_to_checksum _) as [c|]; [|done]. cbn [mbind option_bind]. intros H. apply ip_build_fields in H as (h & H1 & H2 & H3 & H4 & H5 & H6 & H7 & _ & _ & H8).
  exists h. by rewrite H7.
Qed.

(** A host that can send: it has an address, and nobody holds the cache's lock. *)
Record can_send (s : host) (i : ip) : Prop := CanSend { cs_ip : if_ip (h_if s) = Some i; cs_ok : ip_ok i; cs_lock : arp_cache_lock (h_lan s) = false }.

(** The hardware address is known already. *)
Definition hw_known (l : lan) (dst : ip) (d : mac) : Prop :=
  dst = IP_BROADCAST /\ d = MAC_BROADCAST \/ dst <> IP_BROADCAST /\ exists e, arp_cache l !! dst = Some e /\ e_lock e = false /\ e_state e = CACHE_RESOLVED /\ e_mac e = d.

Definition and_sent (q : packet) (s : host) : host := set_lan (set_sent (q :: sent (h_lan s)) (h_lan s)) s.

Section Sending.
Context (junk : Z -> Z) (junk_mac : mac).

Lemma send_known s i p dst d (Q : unit -> host -> Prop) : can_send s i -> hw_known (h_lan s) dst d -> p_state p = PSTATE_UNRESOLVED -> p_result p = PRESULT_SUCCESS -> p_rdst p = AddrInet dst ->
  Q tt (and_sent (linked (if_mac (h_if s)) d p) s) -> runs (send junk_mac p) s Q.
Proof.
  intros [H1 H2 H3] Hk Hs Hr Hd HQ. unfold send, my_ip, my_mac. mstep. eapply runs_read; [exact H1|]. do 2 mstep. unfold in_lan. apply runs_lift. unfold packet_send. rewrite Hs, Hd. unfold arp_resolve.
  assert (HQ' : forall l, l = set_sent (linked (if_mac (h_if s)) d p :: sent (h_lan s)) (h_lan s) -> Q tt (set_lan l s)) by (intros l ->; exact HQ).
  destruct Hk as [[-> ->]|(Hne & e & He & Hl & Hst & <-)].
  - rewrite bool_decide_eq_true_2 by done. eapply (transmit_spec (if_mac (h_if s)) _ _ MAC_BROADCAST); [done..|]. by apply HQ'.
  - rewrite bool_decide_eq_false_2 by done. unfold with_cache. apply runs_locked; [by rewrite H3|]. do 2 mstep. cbn [arp_cache set_cache_lock]. rewrite He. mstep. eapply lock_entry_spec; [exact He|exact Hl|].
    rewrite Hst, bool_decide_eq_false_2 by done. mstep. unfold unlock_entry. eapply upd_entry_spec; [cbn; apply lookup_insert_eq|]. cbn [arp_cache set_cache set_cache_lock].
    rewrite insert_insert_eq, set_e_lock_same, insert_id by done. eapply (transmit_spec (if_mac (h_if s)) _ _ (e_mac e)); [exact Hr|done|done|done|]. apply HQ'.
    destruct (h_lan s). cbn in *. by rewrite H3.
Qed.

Lemma send_udp_spec s i dst d buff len sp dp (Q : unit -> host -> Prop) : can_send s i -> hw_known (h_lan s) dst d -> ip_ok dst -> is_word sp -> is_word dp -> Forall is_byte buff -> 0 <= len < 2 ^ 16 ->
  (forall q, datagram i dst (if_mac (h_if s)) d sp dp (take (Z.to_nat len) buff) q -> Q tt (and_sent q s)) -> runs (send_udp junk_mac buff len dst sp dp) s Q.
Proof.
  intros Hc Hk Hdst Hsp Hdp Hb Hlen HQ. unfold send_udp, my_ip. mstep. eapply runs_read; [apply (cs_ip _ _ Hc)|].
  destruct (udp_build_correct i (packet_create 0 buff len) dst sp dp) as (p & h & u & E & E1 & E2 & E3 & V1 & V2 & U1 & U2); [apply (cs_ok _ _ Hc)|done|done|done| |].
  { unfold payload_ok, packet_create. cbn [p_payload]. rewrite uwrap_small by lia. split; [by apply Forall_take|]. unfold size_of. rewrite length_take. lia. }
  pose proof E as E'. apply udp_build_fields in E' as (h' & F1 & F2 & F3 & F4 & F5 & F6 & F7 & F8). rewrite E1 in F1. injection F1 as <-.
  unfold packet_create in E3, V2. cbn [p_payload] in E3, V2. rewrite uwrap_small in E3, V2 by lia. mstep. eapply runs_read; [exact E|]. eapply (send_known s i p dst d); [done|done|done|by rewrite F7|done|]. apply HQ. split; [|by exists h, u|exact E3].
  unfold linked. cbn. by rewrite F8.
Qed.
End Sending.

Lemma broadcast_ok : ip_ok IP_BROADCAST.
Proof. unfold ip_ok, is_byte. apply (bool_decide_unpack _). vm_compute. exact I. Qed.

(** ** Hearing from a machine *)

(** Nothing waits for the address [i]. *)
Definition quiet (l : lan) (i : ip) : Prop := arp_cache_lock l = false /\ forall e, arp_cache l !! i = Some e -> e_lock e = false /\ e_state e = CACHE_RESOLVED.
(** Where a packet for [i] goes once a frame from [m] was heard: an address that is known is not changed. *)
Definition hw_of (l : lan) (m : mac) (i : ip) : mac := match arp_cache l !! i with Some e => e_mac e | None => m end.
Definition heard (junk : Z) (m : mac) (i : ip) (l : lan) : lan :=
  match arp_cache l !! i with Some _ => l | None => set_cache (<[i := ArpEntry m CACHE_RESOLVED junk false []]> (arp_cache l)) l end.

Lemma arp_cache_store_quiet junk m i l (Q : unit -> lan -> Prop) : quiet l i -> Q tt (heard junk m i l) -> runs (arp_cache_store junk m i) l Q.
Proof.
  intros [Hl He] HQ. unfold arp_cache_store, with_cache. apply runs_locked; [by rewrite Hl|]. do 2 mstep. cbn [arp_cache set_cache_lock]. unfold heard in HQ. destruct (arp_cache l !! i) as [e|] eqn:E.
  - destruct (He e eq_refl) as [_ Hs]. rewrite Hs, bool_decide_eq_false_2 by done. mstep. destruct l. cbn in *. by rewrite Hl in HQ.
  - unfold arp_cache_put_resolved. mstep. destruct l. cbn in *. by rewrite Hl in HQ.
Qed.

Lemma heard_lock junk m i l : arp_cache_lock (heard junk m i l) = arp_cache_lock l.
Proof. unfold heard. by destruct (arp_cache l !! i). Qed.
Lemma heard_sent junk m i l : sent (heard junk m i l) = sent l.
Proof. unfold heard. by destruct (arp_cache l !! i). Qed.
Lemma heard_known junk m i l : quiet l i -> i <> IP_BROADCAST -> hw_known (heard junk m i l) i (hw_of l m i).
Proof.
  intros [_ He] Hne. right. split; [done|]. unfold heard, hw_of. destruct (arp_cache l !! i) as [e|] eqn:E.
  - destruct (He e eq_refl). by exists e.
  - eexists. split; [apply lookup_insert_eq|]. done.
Qed.

(** The state once a frame from [m] with an IP packet of [i] in it has passed the address cache. *)
Definition and_heard (junk : Z) (m : mac) (i : ip) (s : host) : host := set_lan (heard junk m i (h_lan s)) s.

Section Receiving.
Context (junk : Z -> Z) (beyond : list Z) (junk_mac : mac) (junk_retrys : Z) (junk_buff : Z -> Z).

Abbreviation recieve := (net_recieve junk beyond junk_mac junk_retrys junk_buff).

Lemma load_runs {A} n (f : list Z -> A) raw s (Q : A -> host -> Prop) : n <= size_of raw -> Q (f raw) s -> runs (load n f raw) s Q.
Proof. intros Hn HQ. unfold load. eapply runs_read; [by rewrite (proj2 (Z.leb_le _ _)) by done|]. done. Qed.

Lemma size_bytes {A} (l : list A) (rest : list A) k : length l = k -> Z.of_nat k <= Z.of_nat (length (l ++ rest)).
Proof. rewrite length_app. lia. Qed.
Lemma drop_bytes (l rest : list Z) k : length l = k -> drop k (l ++ rest) = rest.
Proof. intros <-. apply drop_app_length. Qed.

(** An IP packet in a frame gets to its protocol. *)
Lemma recieve_ip s e h body len (Q : unit -> host -> Prop) : eth_ok e -> swap_uint16 (eth_type e) = ETH_TYPE_IP -> iph_ok h -> IP_VERSION (version_ihl h) = 4 -> quiet (h_lan s) (ip_src h) -> 34 <= len < 2 ^ 16 ->
  runs (if protocol h =? IP_PROT_ICMP then icmp_handle junk_mac h body (len - 34)
        else if protocol h =? IP_PROT_TCP then (t ← load 20 tcp_header_of body; i ← my_ip; in_tcp (tcp_handle i junk_buff h t (drop 20 body));; flush_tcp junk_mac)
        else if protocol h =? IP_PROT_UDP then udp_handle junk beyond junk_mac h body (len - 34) else mret tt) (and_heard junk_retrys (eth_src e) (ip_src h) s) Q ->
  runs (recieve (eth_bytes e ++ ip_bytes h ++ body) len) s Q.
Proof.
  intros He Ht Hh Hv Hq Hlen H. unfold net_recieve, eth_handle. mstep. apply load_runs; [by apply (size_bytes _ _ 14)|]. rewrite eth_header_back by done. rewrite (drop_bytes _ _ 14) by done.
  rewrite Ht. change (ETH_TYPE_IP =? ETH_TYPE_ARP) with false. rewrite Z.eqb_refl. unfold ip_handle. mstep. apply load_runs; [by apply (size_bytes _ _ 20)|]. rewrite ip_header_back by done.
  rewrite (drop_bytes _ _ 20) by done. rewrite Hv, Z.eqb_refl. cbn [negb]. mstep. unfold in_lan. apply runs_lift. apply arp_cache_store_quiet; [done|].
  rewrite (uwrap_small 16 (len - 14)), (uwrap_small 16 (len - 14 - 20)) by lia. replace (len - 14 - 20) with (len - 34) by lia. exact H.
Qed.

(** *** Ping *)

Definition echo_reply (src dst : ip) (smac dmac : mac) (other : Z) (payload : list Z) (q : packet) : Prop :=
  p_link q = Some (EthHeader dmac smac (swap_uint16 ETH_TYPE_IP)) /\ p_payload q = payload /\
  exists h c, p_net q = NetIp h /\ p_tran q = TranIcmp c /\ ip_src h = src /\ ip_dst h = dst /\ protocol h = IP_PROT_ICMP /\ verifies (words16 (ip_bytes h)) /\
    icmp_type c = ICMP_TYPE_ECHO_REPLY /\ icmp_code c = ICMP_CODE_ECHO_REPLY /\ icmp_other c = other /\ (other < 2 ^ 30 -> verifies (words16 (icmp_bytes c ++ payload))).

Lemma icmp_build_spec my p type code other dst : ip_ok my -> ip_ok dst -> is_byte type -> is_byte code -> 0 <= other < 2 ^ 32 -> payload_ok p ->
  exists p' h c, icmp_build my p type code other dst = Some p' /\ p_net p' = NetIp h /\ p_tran p' = TranIcmp c /\ ip_src h = my /\ ip_dst h = dst /\ protocol h = IP_PROT_ICMP /\ verifies (words16 (ip_bytes h)) /\
    icmp_type c = type /\ icmp_code c = code /\ icmp_other c = other /\ p_payload p' = p_payload p /\ p_rdst p' = AddrInet dst /\ p_state p' = PSTATE_UNRESOLVED /\ p_result p' = p_result p /\ p_protocol p' = ETH_TYPE_IP.
Proof.
  intros Hmy Hdst Ht Hc Ho [Hby Hsz]. unfold icmp_build.
  assert (Hr : forall l a, 0 <= a < 2 ^ 32 -> 0 <= sum_words a l < 2 ^ 32) by (induction l as [|x l IH]; intros a Ha; cbn [sum_words]; [done|apply IH, uwrap_range; lia]).
  destruct (fold_sum_spec (sum_words 0 ([type; code; other] ++ words16 (p_payload p)))) as (r & Hf & _); [apply Hr; lia|]. unfold sum_to_checksum at 1. rewrite Hf. cbn [mbind option_bind].
  set (c := IcmpHeader _ _ _ _). destruct (ip_build_spec my (set_tran (TranIcmp c) p) IP_PROT_ICMP dst) as (p' & h & E & E1 & V & E2 & E3 & E4 & _ & _ & _ & E5 & E6 & _); [done|done|unfold is_byte, IP_PROT_ICMP; lia|].
  pose proof E as E'. apply ip_build_fields in E' as (h' & F1 & _ & _ & _ & F2 & F3 & F4 & F5 & F6 & F7). exists p', h, c. repeat (split; [done|]). done.
Qed.


(** *** DHCP options *)

Lemma byte_at_spec l i s (Q : Z -> host -> Prop) : 0 <= i < size_of l -> (forall b, l !! Z.to_nat i = Some b -> Q b s) -> runs (byte_at l i) s Q.
Proof.
  intros Hi HQ. destruct (lookup_lt_is_Some_2 l (Z.to_nat i)) as [b Hb]; [unfold size_of in Hi; lia|].
  unfold byte_at. eapply runs_read; [rewrite (proj2 (Z.leb_le _ _)) by lia; exact Hb|]. by apply HQ.
Qed.

Lemma byte_of (l : list Z) i b : Forall is_byte l -> l !! i = Some b -> is_byte b.
Proof. intros Hl Hb. eapply Forall_lookup_1; [exact Hl|exact Hb]. Qed.

(** [n] bytes at a pointer lie in the options. *)
Definition in_options (len n : Z) (p : option Z) : Prop := match p with Some p => 0 <= p /\ p + n <= len | None => True end.

Record options_ok (len : Z) (o : dhcp_options) : Prop := OptionsOk {
  oo_subnet : in_options len 4 (o_subnet_mask o);
  oo_router : in_options len (o_router_len o) (o_router_list o);
  oo_dns : in_options len (o_dns_len o) (o_dns_list o);
  oo_requested : in_options len 4 (o_requested_ip o);
  oo_server : in_options len 4 (o_server o);
  oo_param : in_options len (o_param_len o) (o_param_list o);
}.

Lemma dhcp_option_safe packet opt opt_len ptr len o s : Forall is_byte packet -> len <= size_of packet -> 0 <= ptr -> 0 <= opt_len < 256 -> ptr + opt_len + 1 < len -> options_ok len o ->
  runs (dhcp_option packet opt opt_len ptr o) s (fun r s' => s' = s /\ match r with Some (ptr', o') => ptr <= ptr' /\ options_ok len o' | None => True end).
Proof.
  intros Hb Hlen Hp Hol Hlt Ho. unfold dhcp_option.
  assert (Haddr : forall f, (4 <= opt_len -> options_ok len (f o)) -> runs (mret (if opt_len <? 4 then None else Some (ptr + 4, f o)) : M host _) s (fun r s' => s' = s /\ match r with Some (ptr', o') => ptr <= ptr' /\ options_ok len o' | None => True end)).
  { intros f Hf. mstep. split; [done|]. destruct (Z.ltb_spec opt_len 4); [done|]. split; [lia|by apply Hf]. }
  destruct Ho as [H1 H2 H3 H4 H5 H6].
  destruct (opt =? OPT_MESSAGE_TYPE); [mstep; apply byte_at_spec; [lia|]; intros b _; mstep; split; [done|]; split; [lia|by split]|].
  destruct (opt =? OPT_SUBNET_MASK); [apply Haddr; intros; split; try done; cbn; lia|].
  destruct (opt =? OPT_ROUTER); [apply Haddr; intros; split; try done; cbn; lia|].
  destruct (opt =? OPT_DNS); [apply Haddr; intros; split; try done; cbn; lia|].
  destruct (opt =? OPT_REQUESTED_IP_ADDR); [apply Haddr; intros; split; try done; cbn; lia|].
  destruct (opt =? OPT_SERVER_ID); [apply Haddr; intros; split; try done; cbn; lia|].
  destruct (opt =? OPT_LEASE_TIME).
  { destruct (Z.ltb_spec opt_len 4); [by mstep|]. mstep. apply load_runs; [lia|]. mstep. split; [done|]. split; [lia|by split]. }
  destruct (opt =? OPT_PARAMETER_REQUEST); mstep; (split; [done|]; split; [lia|]); split; try done; cbn; lia.
Qed.

(** C30: whatever the bytes, the options' parser comes to an end, reads nothing outside them and changes nothing; every address, list and
    parameter it points at lies within the options. *)
Theorem dhcp_parse_safe packet len s : Forall is_byte packet -> 0 <= len <= size_of packet ->
  runs (dhcp_parse_options packet len) s (fun r s' => s' = s /\ match r with Some o => options_ok len o | None => True end).
Proof.
  intros Hb Hlen. unfold dhcp_parse_options. apply (runs_iterM (fun v s' => s' = s /\ 0 <= fst v /\ options_ok len (snd v)) (fun v _ => Z.to_nat (len - fst v))); [|by split; [|split; [|split]]|cbn; lia].
  intros [ptr o] s' (-> & Hp & Ho). cbn [fst snd] in *. unfold option_round. destruct (Z.ltb_spec ptr len); cbn [negb]; [|by mstep].
  mstep. apply byte_at_spec; [lia|]. intros opt _. destruct (opt =? OPT_PAD); [mstep; cbn [fst snd]; split; [split; [done|]; split; [lia|done]|lia]|]. destruct (opt =? OPT_END); [by mstep|].
  rewrite !Z.geb_leb. destruct (Z.leb_spec len (ptr + 1 + 1)); [by mstep|]. mstep. apply byte_at_spec; [lia|]. intros n Hn. apply (byte_of _ _ _ Hb) in Hn. unfold is_byte in Hn.
  rewrite Z.geb_leb. destruct (Z.leb_spec len (ptr + 1 + 1 + n + 1)); [by mstep|]. mstep. eapply runs_mono; [apply (dhcp_option_safe packet opt n (ptr + 1 + 1) len o s); done || lia|].
  intros [[ptr' o']|] s' [-> Hr]; mstep; [|done]. destruct Hr as [Hr1 Hr2]. cbn [fst snd]. split; [split; [done|]; split; [lia|done]|lia].
Qed.

(** Options as a list of codes and data, and as bytes.  A list of routers or servers has one address here, a list of parameters one
    parameter (see [dhcp_router_list_misread]). *)
Definition data_length (c : Z) : option Z :=
  if (c =? OPT_MESSAGE_TYPE) || (c =? OPT_PARAMETER_REQUEST) then Some 1
  else if (c =? OPT_SUBNET_MASK) || (c =? OPT_ROUTER) || (c =? OPT_DNS) || (c =? OPT_REQUESTED_IP_ADDR) || (c =? OPT_SERVER_ID) || (c =? OPT_LEASE_TIME) then Some 4
  else None.
Definition option_ok (x : Z * list Z) : Prop :=
  0 < fst x < 255 /\ Forall is_byte (snd x) /\ size_of (snd x) < 256 /\ forall n, data_length (fst x) = Some n -> size_of (snd x) = n.
Definition option_bytes (x : Z * list Z) : list Z := fst x :: size_of (snd x) :: snd x.
Definition options_bytes (l : list (Z * list Z)) : list Z := l ≫= option_bytes.

(** The data of the last option with a code. *)
Fixpoint last_data (c : Z) (l : list (Z * list Z)) : option (list Z) :=
  match l with [] => None | x :: l' => match last_data c l' with Some d => Some d | None => if fst x =? c then Some (snd x) else None end end.

(** What one option sets. *)
Definition set_option (c p : Z) (d : list Z) (o : dhcp_options) : dhcp_options :=
  if c =? OPT_MESSAGE_TYPE then set_o_message_type (of_le_bytes (rev d)) o
  else if c =? OPT_SUBNET_MASK then set_o_subnet_mask p o
  else if c =? OPT_ROUTER then set_o_router p (size_of d) o
  else if c =? OPT_DNS then set_o_dns p (size_of d) o
  else if c =? OPT_REQUESTED_IP_ADDR then set_o_requested_ip p o
  else if c =? OPT_SERVER_ID then set_o_server p o
  else if c =? OPT_LEASE_TIME then set_o_lease (of_le_bytes (rev d)) o
  else if c =? OPT_PARAMETER_REQUEST then set_o_param p (size_of d) o
  else o.
Fixpoint set_options (p : Z) (l : list (Z * list Z)) (o : dhcp_options) : dhcp_options :=
  match l with [] => o | x :: l' => set_options (p + 2 + size_of (snd x)) l' (set_option (fst x) (p + 2) (snd x) o) end.

Lemma swap_back d : Forall is_byte d -> length d = 4%nat -> swap_uint32 (of_le_bytes d) = of_le_bytes (rev d).
Proof.
  intros Hd Hl. rewrite swap_uint32_bytes. 2: { pose proof (of_le_bytes_range d Hd) as H. by rewrite Hl in H. }
  by rewrite <- Hl, le_bytes_of_le_bytes.
Qed.

(** A pointer at which [d] begins in the packet. *)
Definition begins (packet : list Z) (p : Z) (d : list Z) : Prop := 0 <= p /\ exists rest, drop (Z.to_nat p) packet = d ++ rest.

Lemma begins_in packet p d : begins packet p d -> p + size_of d <= size_of packet \/ d = [].
Proof.
  intros [Hp [rest H]]. destruct d as [|x d]; [by right|left]. apply (f_equal length) in H. rewrite length_drop, length_app in H. unfold size_of. cbn [length] in *. lia.
Qed.
Lemma begins_app packet p d1 d2 : begins packet p (d1 ++ d2) -> begins packet p d1 /\ begins packet (p + size_of d1) d2.
Proof.
  intros [Hp [rest H]]. rewrite <- app_assoc in H. split; [split; [done|]; by eexists|]. split; [unfold size_of; lia|]. exists rest.
  replace (Z.to_nat (p + size_of d1)) with (Z.to_nat p + length d1)%nat by (unfold size_of; lia). rewrite <- drop_drop, H. by rewrite drop_app_length.
Qed.
Lemma begins_byte packet p b d s (Q : Z -> host -> Prop) : begins packet p (b :: d) -> Q b s -> runs (byte_at packet p) s Q.
Proof.
  intros [Hp [rest H]] HQ. unfold byte_at. eapply runs_read; [|exact HQ]. rewrite (proj2 (Z.leb_le _ _)) by done.
  rewrite <- (Nat.add_0_r (Z.to_nat p)), <- lookup_drop, H. done.
Qed.
Lemma begins_take packet p d : begins packet p d -> take (length d) (drop (Z.to_nat p) packet) = d.
Proof. intros [_ [rest ->]]. apply take_app_length. Qed.
Lemma list1 (d : list Z) : size_of d = 1 -> exists b, d = [b].
Proof. unfold size_of. destruct d as [|b [|b' d]]; cbn [length]; [lia|by exists b|lia]. Qed.

Lemma dhcp_option_back packet c d p o s : option_ok (c, d) -> begins packet p d ->
  runs (dhcp_option packet c (size_of d) p o) s (fun r s' => s' = s /\ r = Some (p + size_of d, set_option c p d o)).
Proof.
  intros (Hc & Hb & Hl & Hd) Hp. cbn [fst snd] in *. unfold dhcp_option, set_option. unfold data_length in Hd.
  destruct (Z.eqb_spec c OPT_MESSAGE_TYPE) as [->|N1].
  { destruct (list1 d) as [b ->]; [by apply Hd|]. mstep. eapply begins_byte; [exact Hp|]. mstep. split; [done|]. do 3 f_equal. cbn. lia. }
  destruct (Z.eqb_spec c OPT_SUBNET_MASK) as [->|N2]; [rewrite (Hd 4 eq_refl); by mstep|].
  destruct (Z.eqb_spec c OPT_ROUTER) as [->|N3]; [rewrite (Hd 4 eq_refl); by mstep|].
  destruct (Z.eqb_spec c OPT_DNS) as [->|N4]; [rewrite (Hd 4 eq_refl); by mstep|].
  destruct (Z.eqb_spec c OPT_REQUESTED_IP_ADDR) as [->|N5]; [rewrite (Hd 4 eq_refl); by mstep|].
  destruct (Z.eqb_spec c OPT_SERVER_ID) as [->|N6]; [rewrite (Hd 4 eq_refl); by mstep|].
  destruct (Z.eqb_spec c OPT_LEASE_TIME) as [->|N7].
  { pose proof (Hd 4 eq_refl) as H4. rewrite H4. change (4 <? 4) with false. cbn iota. assert (Hn : length d = 4%nat) by (unfold size_of in H4; lia).
    mstep. apply load_runs; [destruct (begins_in _ _ _ Hp) as [| ->]; [lia|done]|]. mstep. split; [done|]. do 3 f_equal. unfold field. rewrite <- Hn, begins_take by done. by apply swap_back. }
  destruct (Z.eqb_spec c OPT_PARAMETER_REQUEST) as [->|N8]; [rewrite (Hd 1 eq_refl); by mstep|by mstep].
Qed.

Lemma option_rounds packet len tail s l : forall p o fuel, Forall option_ok l -> begins packet p (options_bytes l ++ OPT_END :: tail) -> 0 <= p -> p + size_of (options_bytes l) + 1 < len ->
  (length l < fuel)%nat -> runs (iterM fuel (option_round packet len) (p, o)) s (fun r s' => s' = s /\ r = Some (set_options p l o)).
Proof.
  induction l as [|[c d] l IH]; intros p o [|fuel] Hl Hp H0 Hlen Hfuel; cbn [length] in Hfuel; try lia; apply runs_iterM_S; unfold option_round at 1.
  - change (options_bytes [] ++ OPT_END :: tail) with (OPT_END :: tail) in Hp. change (size_of (options_bytes [])) with 0 in Hlen. rewrite (proj2 (Z.ltb_lt _ _)) by lia. cbn [negb]. mstep. eapply begins_byte; [exact Hp|]. change (OPT_END =? OPT_PAD) with false. rewrite Z.eqb_refl. by mstep.
  - apply Forall_cons in Hl as [Hx Hl]. pose proof Hx as (Hc & Hb & Hs & _). cbn [fst snd] in *. change (options_bytes ((c, d) :: l)) with ((c :: size_of d :: d) ++ options_bytes l) in *. rewrite size_of_app in Hlen.
    assert (Hsz : size_of (c :: size_of d :: d) = 2 + size_of d) by (unfold size_of; cbn [length]; lia). rewrite Hsz in Hlen.
    assert (0 <= size_of d /\ 0 <= size_of (options_bytes l)) by (unfold size_of; lia). rewrite (proj2 (Z.ltb_lt _ _)) by lia. cbn [negb]. mstep.
    rewrite <- app_assoc in Hp. change (begins packet p ([c] ++ [size_of d] ++ d ++ options_bytes l ++ OPT_END :: tail)) in Hp. apply begins_app in Hp as [P1 Hp]. apply begins_app in Hp as [P2 Hp]. change (size_of [c]) with 1 in *. change (size_of [size_of d]) with 1 in *. apply begins_app in Hp as [P3 Hp].
    eapply begins_byte; [exact P1|]. destruct (Z.eqb_spec c OPT_PAD) as [->|]; [unfold OPT_PAD in Hc; lia|]. destruct (Z.eqb_spec c OPT_END) as [->|]; [unfold OPT_END in Hc; lia|].
    rewrite Z.geb_leb, (proj2 (Z.leb_gt _ _)) by lia. mstep. eapply begins_byte; [exact P2|]. rewrite Z.geb_leb, (proj2 (Z.leb_gt _ _)) by lia. mstep. eapply runs_mono; [by apply dhcp_option_back|]. intros r s' [-> ->]. mstep.
    cbn [set_options fst snd]. replace (p + 2) with (p + 1 + 1) by lia. apply IH; [done| |lia|lia|lia]. exact Hp.
Qed.

Lemma set_options_pointer packet (g : dhcp_options -> option Z) c : (forall c' p d o, g (set_option c' p d o) = if c' =? c then Some p else g o) ->
  forall l p o, begins packet p (options_bytes l) -> match last_data c l with Some d => exists q, g (set_options p l o) = Some q /\ begins packet q d | None => g (set_options p l o) = g o end.
Proof.
  intros Hg. induction l as [|[c' d'] l IH]; intros p o Hp; cbn [last_data set_options fst snd]; [done|].
  change (options_bytes ((c', d') :: l)) with ([c'; size_of d'] ++ d' ++ options_bytes l) in Hp. apply begins_app in Hp as [_ Hp]. apply begins_app in Hp as [P1 P2]. change (size_of [c'; size_of d']) with 2 in *.
  specialize (IH _ (set_option c' (p + 2) d' o) P2). destruct (last_data c l) as [d|]; [exact IH|]. rewrite IH, Hg. destruct (c' =? c); [by exists (p + 2)|done].
Qed.

Lemma set_options_value (g : dhcp_options -> Z) f c : (forall c' p d o, g (set_option c' p d o) = if c' =? c then f d else g o) ->
  forall l p o, g (set_options p l o) = match last_data c l with Some d => f d | None => g o end.
Proof.
  intros Hg. induction l as [|[c' d'] l IH]; intros p o; cbn [last_data set_options fst snd]; [done|]. rewrite IH. destruct (last_data c l) as [d|]; [done|]. by rewrite Hg; destruct (c' =? c).
Qed.

Ltac by_code := intros ? ? ? ?; unfold set_option; repeat match goal with |- context [?a =? ?b] => destruct (Z.eqb_spec a b); try subst a; try done end.

(** A pointer at the data, or none. *)
Definition told (packet : list Z) (p : option Z) (d : option (list Z)) : Prop :=
  match d with Some d => exists q, p = Some q /\ 0 <= q /\ take (length d) (drop (Z.to_nat q) packet) = d | None => p = None end.
Definition number_of (d : option (list Z)) : Z := match d with Some d => of_le_bytes (rev d) | None => 0 end.

Record options_told (packet : list Z) (l : list (Z * list Z)) (o : dhcp_options) : Prop := OptionsTold {
  ot_message_type : o_message_type o = number_of (last_data OPT_MESSAGE_TYPE l);
  ot_lease : o_lease o = number_of (last_data OPT_LEASE_TIME l);
  ot_subnet_mask : told packet (o_subnet_mask o) (last_data OPT_SUBNET_MASK l);
  ot_router : told packet (o_router_list o) (last_data OPT_ROUTER l);
  ot_dns : told packet (o_dns_list o) (last_data OPT_DNS l);
  ot_requested_ip : told packet (o_requested_ip o) (last_data OPT_REQUESTED_IP_ADDR l);
  ot_server : told packet (o_server o) (last_data OPT_SERVER_ID l);
  ot_param : told packet (o_param_list o) (last_data OPT_PARAMETER_REQUEST l);
}.

Lemma parse_back l pad rest s : Forall option_ok l -> pad <> [] -> let packet := options_bytes l ++ OPT_END :: pad ++ rest in
  runs (dhcp_parse_options packet (size_of (options_bytes l ++ OPT_END :: pad))) s (fun r s' => s' = s /\ exists o, r = Some o /\ options_told packet l o).
Proof.
  intros Hl Hpad packet. assert (Hb : begins packet 0 (options_bytes l ++ OPT_END :: pad ++ rest)) by (split; [lia|]; exists []; by rewrite app_nil_r).
  unfold dhcp_parse_options. set (len := size_of _). assert (Hlen : size_of (options_bytes l) + 1 < len).
  { unfold len. rewrite size_of_app. destruct pad; [done|]. unfold size_of. cbn [length]. lia. }
  assert (Hn : (length l <= length (options_bytes l))%nat). { clear. unfold options_bytes. induction l as [|x l IH]; [done|]. cbn [mbind list_bind]. rewrite length_app. cbn [length option_bytes]. change (list_bind _ _ option_bytes l) with (l ≫= option_bytes). lia. }
  eapply runs_mono; [apply (option_rounds packet len (pad ++ rest) s l); [done|exact Hb|lia|lia|unfold size_of in Hlen; lia]|]. intros r s' [-> ->]. split; [done|]. eexists. split; [done|].
  apply begins_app in Hb as [Hb _].
  assert (Hptr : forall g c, (forall c' p d o, g (set_option c' p d o) = if c' =? c then Some p else g o) -> g no_options = None -> told packet (g (set_options 0 l no_options)) (last_data c l)).
  { intros g c Hg H0. pose proof (set_options_pointer packet g c Hg l 0 no_options Hb) as H. unfold told. destruct (last_data c l); [|by rewrite H]. destruct H as (q & Hq & Hq'). exists q. split; [done|]. split; [apply Hq'|by apply begins_take]. }
  split; [apply (set_options_value o_message_type (fun d => of_le_bytes (rev d))); by_code|apply (set_options_value o_lease (fun d => of_le_bytes (rev d))); by_code|apply Hptr; [by_code|done]..].
Qed.

(** C29: what a server wrote is what the client reads.  For options of the lengths the parser allows for, followed by the end mark and at least one byte,
    each field is that of the last option with its code: the numbers in network order, the pointers at the data. *)
Theorem dhcp_options_roundtrip l pad rest s : Forall option_ok l -> pad <> [] -> let packet := options_bytes l ++ OPT_END :: pad ++ rest in
  runs (dhcp_parse_options packet (size_of (options_bytes l ++ OPT_END :: pad))) s (fun r s' => s' = s /\ exists o, r = Some o /\ options_told packet l o).
Proof. apply parse_back. Qed.

(** An option that ends where the options end is refused: the end mark must not be the last byte. *)
Theorem dhcp_exact_end_refused c d s : option_ok (c, d) -> let packet := options_bytes [(c, d)] ++ [OPT_END] in runs (dhcp_parse_options packet (size_of packet)) s (fun r s' => s' = s /\ r = None).
Proof.
  intros (Hc & Hb & Hs & _) packet. cbn [fst snd] in *. assert (Hbeg : begins packet 0 ([c] ++ [size_of d] ++ d ++ [OPT_END])) by (split; [lia|]; exists []; rewrite app_nil_r; unfold packet, options_bytes, option_bytes; cbn; by rewrite app_nil_r).
  assert (Hsz : size_of packet = 3 + size_of d) by (unfold packet, options_bytes, option_bytes, size_of; cbn; rewrite app_nil_r, length_app; cbn [length]; lia). assert (0 <= size_of d) by (unfold size_of; lia).
  apply begins_app in Hbeg as [P1 Hbeg]. apply begins_app in Hbeg as [P2 _]. change (size_of [c]) with 1 in P2. unfold dhcp_parse_options. apply runs_iterM_S. unfold option_round. rewrite Hsz, (proj2 (Z.ltb_lt _ _)) by lia. cbn [negb]. mstep.
  eapply begins_byte; [exact P1|]. destruct (Z.eqb_spec c OPT_PAD) as [->|]; [unfold OPT_PAD in Hc; lia|]. destruct (Z.eqb_spec c OPT_END) as [->|]; [unfold OPT_END in Hc; lia|].
  rewrite !Z.geb_leb. destruct (Z.leb_spec (3 + size_of d) (0 + 1 + 1)); [lia|]. mstep. eapply begins_byte; [exact P2|]. rewrite Z.geb_leb, (proj2 (Z.leb_le _ _)) by lia. by mstep.
Qed.

(** Of a list of two routers only the first is passed over: the second is read as options.  Here its bytes say that the message is an
    acknowledgement, which the server's option after it does not. *)
Theorem dhcp_router_list_misread s : let packet := options_bytes [(OPT_ROUTER, [10; 0; 0; 1; 53; 1; 5; 0]); (OPT_LEASE_TIME, [0; 0; 1; 0])] ++ [OPT_END; 0; 0] in
  runs (dhcp_parse_options packet (size_of packet)) s (fun r s' => exists o, r = Some o /\ o_message_type o = MSG_ACK).
Proof. cbv zeta. vm_compute. eexists. split; [reflexivity|reflexivity]. Qed.

(** *** NetBIOS names *)

(** The fifteen characters and the type, each as two letters from A to P. *)
Definition padded (name : list Z) : list Z := take 15 (name ++ replicate 15 32).
Definition letters (c : Z) : list Z := [65 + c / 16; 65 + c mod 16].
Definition nbns_name (name : list Z) (type : Z) : list Z := (padded name ++ [type]) ≫= letters.
(** The other way. *)
Fixpoint letters_back (l : list Z) : list Z := match l with a :: b :: l' => (16 * (a - 65) + (b - 65)) :: letters_back l' | _ => [] end.

(** A character that ASCII has. *)
Definition is_char (c : Z) : Prop := 0 < c < 128.

Lemma letters_of c : 0 <= c < 256 -> [u8 ((c >>> 4) + 65); u8 (Z.land c 0xF + 65)] = letters c.
Proof.
  intros Hc. unfold letters. rewrite Z.shiftr_div_pow2 by lia. change 0xF with (Z.ones 4). rewrite Z.land_ones by lia. change (2 ^ 4) with 16.
  pose proof (Z.mod_pos_bound c 16). assert (0 <= c / 16 < 16) by (split; [apply Z.div_pos; lia|apply Z.div_lt_upper_bound; lia]). rewrite !uwrap_small by lia. f_equal; [lia|f_equal; lia].
Qed.
Lemma encode_char_ok c : 0 <= c < 128 -> encode_char c = letters c.
Proof. intros Hc. unfold encode_char. rewrite swrap_small by lia. apply letters_of. lia. Qed.

Lemma encode_rest mem s n : forall i, 0 <= i -> i + Z.of_nat n <= size_of mem -> runs (encode_from n i mem true) s (fun r s' => s' = s /\ r = replicate n 32 ≫= letters).
Proof.
  induction n as [|n IH]; intros i Hi Hn; cbn [encode_from replicate]; [by mstep|]. mstep. apply byte_at_spec; [lia|]. intros c _. cbn [orb]. mstep. eapply runs_mono; [apply IH; lia|]. intros r s' [-> ->]. mstep.
  split; [done|]. by rewrite encode_char_ok.
Qed.

Lemma encode_from_ok (tail : list Z) s n : forall (name pre : list Z), Forall is_char name -> size_of pre + Z.of_nat n <= size_of (pre ++ name ++ 0 :: tail) ->
  runs (encode_from n (size_of pre) (pre ++ name ++ 0 :: tail) false) s (fun r s' => s' = s /\ r = take n (name ++ replicate n 32) ≫= letters).
Proof.
  induction n as [|n IH]; intros name pre Hname Hlen; [cbn [encode_from]; by mstep|]. cbn [encode_from]. mstep. apply byte_at_spec; [unfold size_of in *; lia|]. intros c Hc. unfold size_of in Hc. rewrite Nat2Z.id, lookup_app_r, Nat.sub_diag in Hc by lia.
  assert (Hsz : size_of pre + 1 + Z.of_nat n <= size_of (pre ++ name ++ 0 :: tail)) by (unfold size_of in *; lia). destruct name as [|x name]; cbn in Hc; injection Hc as <-.
  - rewrite Z.eqb_refl. cbn [orb]. mstep. eapply runs_mono; [apply encode_rest; [unfold size_of; lia|done]|]. intros r s' [-> ->]. mstep. split; [done|]. rewrite encode_char_ok by lia. cbn [app]. rewrite take_replicate.
    by rewrite Nat.min_l by lia.
  - apply Forall_cons in Hname as [Hx Hname]. unfold is_char in Hx. rewrite (proj2 (Z.eqb_neq x 0)) by lia. cbn [orb]. mstep.
    replace (pre ++ (x :: name) ++ 0 :: tail) with ((pre ++ [x]) ++ name ++ 0 :: tail) in * by (by rewrite <- app_assoc). replace (size_of pre + 1) with (size_of (pre ++ [x])) by (rewrite size_of_app; done).
    eapply runs_mono; [apply (IH name (pre ++ [x])); [done|rewrite size_of_app; change (size_of [x]) with 1; lia]|]. intros r s' [-> ->]. mstep. split; [done|]. rewrite encode_char_ok by lia. cbn [app take mbind list_bind].
    replace (replicate (S n) 32) with (replicate n 32 ++ [32]) by (by rewrite <- replicate_cons_app). by rewrite (app_assoc name), (take_app_le (name ++ replicate n 32)) by (rewrite length_app, length_replicate; lia).
Qed.

Lemma nbns_encode_spec name type tail s : Forall is_char name -> 0 <= type < 256 -> 15 <= size_of (name ++ 0 :: tail) ->
  runs (nbns_encode_name (name ++ 0 :: tail) type) s (fun r s' => s' = s /\ r = nbns_name name type).
Proof.
  intros Hname Ht Hlen. unfold nbns_encode_name. mstep. eapply runs_mono; [apply (encode_from_ok tail s (Z.to_nat NBNS_NAME_LENGTH) name []); [done|exact Hlen]|].
  intros r s' [-> ->]. mstep. split; [done|]. unfold nbns_name, padded. rewrite bind_app. f_equal. rewrite letters_of by done. cbn. done.
Qed.

Lemma letters_back_of l : Forall (fun c => 0 <= c) l -> letters_back (l ≫= letters) = l.
Proof.
  induction 1 as [|c l Hc _ IH]; [done|]. cbn [mbind list_bind letters app letters_back]. f_equal; [|exact IH]. pose proof (Z.div_mod c 16 ltac:(lia)). lia.
Qed.

(** The name asked and answered for is that of the host.  Encoding an ASCII name gives 32 letters from A to P that decode to its first
    fifteen characters, filled up with blanks, and the type; nothing but the name's fifteen bytes of memory is needed. *)
Theorem nbns_name_roundtrip name type tail s : Forall is_char name -> 0 <= type < 256 -> 15 <= size_of (name ++ 0 :: tail) ->
  runs (nbns_encode_name (name ++ 0 :: tail) type) s (fun r s' => s' = s /\ size_of r = 32 /\ Forall (fun b => 65 <= b <= 80) r /\ letters_back r = padded name ++ [type]).
Proof.
  intros Hname Ht Hlen. eapply runs_mono; [by apply nbns_encode_spec|]. intros r s' [-> ->]. split; [done|].
  assert (Hp : Forall (fun c => 0 <= c < 256) (padded name ++ [type])).
  { apply Forall_app. split; [|by apply Forall_singleton]. apply Forall_take, Forall_app. split; [eapply Forall_impl; [exact Hname|]; unfold is_char; lia|]. apply Forall_replicate. lia. }
  assert (Hl : length (padded name ++ [type]) = 16%nat) by (rewrite length_app; unfold padded; rewrite length_take, length_app, length_replicate; cbn [length]; lia).
  unfold nbns_name. split.
  - unfold size_of. replace 32 with (2 * Z.of_nat (length (padded name ++ [type]))) by lia. generalize (padded name ++ [type]). clear. intros l. induction l as [|x l IH]; [done|]. cbn [mbind list_bind letters app length]. change (list_bind _ _ letters l) with (l ≫= letters). lia.
  - split; [|apply letters_back_of; eapply Forall_impl; [exact Hp|]; cbn; lia]. apply Forall_bind. eapply Forall_impl; [exact Hp|]. intros c Hc. cbn beta in Hc. unfold letters.
    pose proof (Z.mod_pos_bound c 16). assert (0 <= c / 16 < 16) by (split; [apply Z.div_pos; lia|apply Z.div_lt_upper_bound; lia]). repeat constructor; lia.
Qed.

(** ** The interface gets its address *)

Definition mac_ok (m : mac) : Prop := Forall is_byte (mac_bytes m).
(** No packet waits for any address. *)
Definition calm (l : lan) : Prop := forall i, quiet l i.

Record ready_to (s : host) (i : ip) : Prop := ReadyTo {
  rt_send : can_send s i;
  rt_mac : mac_ok (if_mac (h_if s));
  rt_calm : calm (h_lan s);
  rt_interface_lock : interface_lock s = false;
  rt_listeners : NoDup (listeners s);
}.

(** [q] goes out, the interface stays as it is. *)
Record sends (q : packet) (s s' : host) : Prop := Sends {
  sd_if : h_if s' = h_if s;
  sd_lan : h_lan s' = set_sent (q :: sent (h_lan s)) (h_lan s);
  sd_listeners : listeners s' = listeners s;
  sd_interface_lock : interface_lock s' = interface_lock s;
  sd_listener_lock : listener_lock s' = listener_lock s;
}.

(** A message of the client with these options, broadcast. *)
Definition dhcp_message (m : mac) (xid : Z) (l : list (Z * list Z)) : list Z := dhcp_bytes (dhcp_build_packet m xid) ++ options_bytes l ++ [OPT_END].
Definition dhcp_sent (i : ip) (m : mac) (l : list (Z * list Z)) (q : packet) : Prop :=
  exists xid pad, 0 <= xid < 2 ^ 32 /\ datagram i IP_BROADCAST m MAC_BROADCAST (swap_uint16 DHCP_PORT_CLIENT) (swap_uint16 DHCP_PORT_SERVER) (dhcp_message m xid l ++ pad) q.
Definition discover_options : list (Z * list Z) := [(OPT_MESSAGE_TYPE, [MSG_DISCOVER]); (OPT_HOST_NAME, hostname); (OPT_PARAMETER_REQUEST, [OPT_SUBNET_MASK; OPT_ROUTER; OPT_DNS])].
Definition request_options (yiaddr server : ip) : list (Z * list Z) :=
  [(OPT_MESSAGE_TYPE, [MSG_REQUEST]); (OPT_HOST_NAME, hostname); (OPT_SERVER_ID, ip_addr_bytes server); (OPT_REQUESTED_IP_ADDR, ip_addr_bytes yiaddr);
   (OPT_PARAMETER_REQUEST, [OPT_SUBNET_MASK; OPT_ROUTER; OPT_DNS])].

Lemma hostname_spec s (Q : list Z -> host -> Prop) : interface_lock s = false -> (forall n, Q hostname (set_hostname_handles n s)) -> runs net_get_hostname s Q.
Proof. intros Hl HQ. unfold net_get_hostname, with_interfaces. apply runs_locked; [by rewrite Hl|]. do 3 mstep. specialize (HQ (u32 (hostname_handles s + 1))). destruct s. cbn in *. by rewrite Hl in HQ. Qed.
Lemma put_hostname_spec s (Q : unit -> host -> Prop) : interface_lock s = false -> (forall n, Q tt (set_hostname_handles n s)) -> runs net_put_hostname s Q.
Proof. intros Hl HQ. unfold net_put_hostname, with_interfaces. apply runs_locked; [by rewrite Hl|]. mstep. specialize (HQ (u32 (hostname_handles s - 1))). destruct s. cbn in *. by rewrite Hl in HQ. Qed.

Lemma rand32_spec s (Q : Z -> host -> Prop) : (forall x t, 0 <= x < 2 ^ 32 -> Q x (set_tcp t s)) -> runs (in_tcp (in_rand rand32)) s Q.
Proof. intros HQ. unfold in_tcp, in_rand. apply runs_lift, runs_lift. cbv beta iota delta [runs rand32 rand16 rand8 mbind M_bind mret M_ret]. apply HQ, uwrap_range. lia. Qed.
Lemma rand16_spec s (Q : Z -> host -> Prop) : (forall x t, 0 <= x < 2 ^ 16 -> Q x (set_tcp t s)) -> runs (in_tcp (in_rand rand16)) s Q.
Proof. intros HQ. unfold in_tcp, in_rand. apply runs_lift, runs_lift. cbv beta iota delta [runs rand16 rand8 mbind M_bind mret M_ret]. apply HQ, uwrap_range. lia. Qed.

Lemma broadcast_known l : hw_known l IP_BROADCAST MAC_BROADCAST.
Proof. by left. Qed.

Lemma dhcp_bytes_ok m xid : mac_ok m -> Forall is_byte (dhcp_bytes (dhcp_build_packet m xid)).
Proof.
  intros Hm. unfold dhcp_bytes. cbn [dh_op dh_htype dh_hlen dh_hops dh_xid dh_secs dh_flags dh_ciaddr dh_yiaddr dh_siaddr dh_giaddr dh_chaddr dh_zero dh_names dh_cookie dhcp_build_packet].
  repeat (apply Forall_app; split); try apply le_bytes_bytes; try exact Hm; try (apply Forall_replicate; unfold is_byte; lia); unfold is_byte; apply (bool_decide_unpack _); vm_compute; exact I.
Qed.
Lemma dhcp_build_ok m xid : 0 <= xid < 2 ^ 32 -> dhcph_ok (dhcp_build_packet m xid).
Proof. intros Hx. split; [done|]. repeat split; unfold is_word; try (vm_compute; (reflexivity || discriminate)). Qed.

Section Client.
Hypothesis junk_bytes : forall z, is_byte (junk z).

(** What both messages have in common: a message made in a large enough block, [len] bytes of which are sent. *)
Lemma send_message s i xid l n len (Q : unit -> host -> Prop) : can_send s i -> mac_ok (if_mac (h_if s)) -> 0 <= xid < 2 ^ 32 -> Forall is_byte (options_bytes l) -> 241 + size_of (options_bytes l) <= len -> len <= n -> len < 2 ^ 16 ->
  (forall q, dhcp_sent i (if_mac (h_if s)) l q -> Q tt (and_sent q s)) ->
  runs (buff ← filled junk n (dhcp_message (if_mac (h_if s)) xid l); send_udp junk_mac buff len IP_BROADCAST (swap_uint16 DHCP_PORT_CLIENT) (swap_uint16 DHCP_PORT_SERVER)) s Q.
Proof.
  intros Hc Hm Hx Hl Hlen Hn Hlt HQ. set (msg := dhcp_message _ _ _). pose proof (dhcp_bytes_length _ (dhcp_build_ok (if_mac (h_if s)) xid Hx)) as H240.
  assert (Hsz : size_of msg = 241 + size_of (options_bytes l)) by (unfold msg, dhcp_message, size_of; rewrite !length_app, H240; cbn [length]; lia).
  assert (Hmsg : Forall is_byte msg). { apply Forall_app. split; [by apply dhcp_bytes_ok|]. apply Forall_app. split; [done|]. apply Forall_singleton. unfold is_byte, OPT_END. lia. }
  assert (Hfill : Forall is_byte (junk <$> seqZ 0 n)) by (apply Forall_fmap, Forall_true; exact junk_bytes). assert (0 <= size_of (options_bytes l)) by (unfold size_of; lia).
  mstep. unfold filled. eapply runs_read; [by rewrite (proj2 (Z.leb_le _ _)) by lia|]. eapply send_udp_spec; [exact Hc|apply broadcast_known|apply broadcast_ok|apply swap_uint16_word|apply swap_uint16_word| |lia|].
  - apply Forall_app. split; [done|]. by apply Forall_drop.
  - intros q Hq. apply HQ. exists xid. rewrite take_app_ge in Hq by (unfold size_of in *; lia). eexists. split; [done|exact Hq].
Qed.

Lemma can_send_mono s s' i : can_send s i -> h_if s' = h_if s -> h_lan s' = h_lan s -> can_send s' i.
Proof. intros [H1 H2 H3] E1 E2. split; [by rewrite E1|done|by rewrite E2]. Qed.

Lemma discover_spec s i (Q : unit -> host -> Prop) : ready_to s i -> (forall q s', dhcp_sent i (if_mac (h_if s)) discover_options q -> sends q s s' -> Q tt s') -> runs (dhcp_send_discover junk junk_mac) s Q.
Proof.
  intros [H1 H2 H3 H4 _] HQ. unfold dhcp_send_discover. mstep. apply hostname_spec; [done|]. intros n. unfold my_mac. do 2 mstep. mstep. apply rand32_spec. intros xid t Hx.
  apply (send_message (set_tcp t (set_hostname_handles n s)) i xid discover_options (u32 (DHCP_SIZE + OPTIONS_LEN_DISCOVER + size_of hostname + END_PADDING)) (DHCP_SIZE + OPTIONS_LEN_DISCOVER + END_PADDING)); [by apply (can_send_mono s)|done|done| |vm_compute; discriminate|vm_compute; discriminate|vm_compute; reflexivity|].
  - unfold is_byte. apply (bool_decide_unpack _). vm_compute. exact I.
  - intros q Hq. by apply (HQ q).
Qed.

Lemma request_spec s i yiaddr server (Q : unit -> host -> Prop) : ready_to s i -> ip_ok yiaddr -> ip_ok server -> (forall q s', dhcp_sent i (if_mac (h_if s)) (request_options yiaddr server) q -> sends q s s' -> Q tt s') ->
  runs (dhcp_send_request junk junk_mac yiaddr server) s Q.
Proof.
  intros [H1 H2 H3 H4 _] Hy Hs HQ. unfold dhcp_send_request. mstep. apply hostname_spec; [done|]. intros n. unfold my_mac. do 2 mstep. mstep. apply rand32_spec. intros xid t Hx.
  apply (send_message (set_tcp t (set_hostname_handles n s)) i xid (request_options yiaddr server) (u32 (DHCP_SIZE + OPTIONS_LEN_REQUEST + size_of hostname + END_PADDING)) (DHCP_SIZE + 4 + END_PADDING)); [by apply (can_send_mono s)|done|done| | |vm_compute; discriminate|vm_compute; reflexivity|].
  - unfold ip_ok in *. change (options_bytes (request_options yiaddr server)) with ([53; 1; 3; 12; 4; 75; 45; 79; 83; 54; 4] ++ ip_addr_bytes server ++ [50; 4] ++ ip_addr_bytes yiaddr ++ [55; 3; 1; 3; 6]).
    repeat (apply Forall_app; split); try done; unfold is_byte; repeat constructor; lia.
  - change (size_of (options_bytes (request_options yiaddr server))) with 26. unfold DHCP_SIZE, END_PADDING. lia.
  - intros q Hq. by apply (HQ q).
Qed.

Hypothesis beyond_name : 10 <= size_of beyond.

(** The host's name made known. *)
Definition name_sent (i : ip) (m : mac) (q : packet) : Prop :=
  exists xid, is_word xid /\ datagram i IP_BROADCAST m MAC_BROADCAST (swap_uint16 NBNS_PORT) (swap_uint16 NBNS_PORT) (nbns_request xid (nbns_name hostname NAME_WORKSTATION) i) q.

Lemma hostname_chars : Forall is_char hostname.
Proof. unfold is_char. apply (bool_decide_unpack _). vm_compute. exact I. Qed.
Lemma encode_hostname s (Q : list Z -> host -> Prop) : Q (nbns_name hostname NAME_WORKSTATION) s -> runs (nbns_encode_name (name_memory beyond hostname) NAME_WORKSTATION) s Q.
Proof.
  intros HQ. unfold name_memory. eapply runs_mono; [apply (nbns_encode_spec hostname NAME_WORKSTATION beyond s hostname_chars)|]; [unfold NAME_WORKSTATION; lia| |by intros r s' [-> ->]].
  unfold hostname. cbn [app]. unfold size_of in *. cbn [length]. lia.
Qed.

Lemma nbns_request_ok xid i : ip_ok i -> Forall is_byte (nbns_request xid (nbns_name hostname NAME_WORKSTATION) i) /\ length (nbns_request xid (nbns_name hostname NAME_WORKSTATION) i) = 68%nat.
Proof.
  intros Hi. split; [|done]. unfold nbns_request, dns_bytes, dns_query_bytes, dns_sym_aliased_rr, dns_rr_bytes. cbn [dn_xid dn_flags dn_query_count dn_answer_count dn_authority_count dn_additional_count dq_len dq_name dq_type dq_class rr_type rr_class rr_ttl rr_addr_len rr_nb_flags rr_ip].
  repeat (apply Forall_app; split); try apply le_bytes_bytes; try done. apply Forall_cons. split; [unfold is_byte; lia|]. repeat (apply Forall_app; split); try apply le_bytes_bytes; unfold is_byte; apply (bool_decide_unpack _); vm_compute; exact I.
Qed.

Lemma register_name_spec s i (Q : unit -> host -> Prop) : ready_to s i -> (forall q s', name_sent i (if_mac (h_if s)) q -> sends q s s' -> Q tt s') -> runs (nbns_register_name beyond junk_mac hostname) s Q.
Proof.
  intros [H1 H2 H3 H4 _] HQ. unfold nbns_register_name. mstep. apply rand16_spec. intros xid t Hx. mstep. apply encode_hostname. unfold my_ip. mstep. eapply runs_read; [apply (cs_ip _ _ H1)|].
  destruct (nbns_request_ok xid i (cs_ok _ _ H1)) as [Hb Hl]. apply (send_udp_spec junk_mac _ i _ MAC_BROADCAST); [by apply (can_send_mono s)|apply broadcast_known|apply broadcast_ok|apply swap_uint16_word|apply swap_uint16_word|done|unfold REG_REQUEST_SIZE; lia|].
  intros q Hq. apply (HQ q); [|done]. exists xid. split; [done|]. change (Z.to_nat REG_REQUEST_SIZE) with 68%nat in Hq. rewrite <- Hl, firstn_all in Hq. exact Hq.
Qed.

Lemma nbns_callback_spec s i (Q : unit -> host -> Prop) : ready_to s i -> (forall q s', name_sent i (if_mac (h_if s)) q -> sends q s s' -> Q tt s') -> runs (nbns_callback beyond junk_mac IF_READY) s Q.
Proof.
  intros Hr HQ. unfold nbns_callback. mstep. pose proof Hr as [H1 H2 H3 H4 H6]. apply hostname_spec; [done|]. intros n. mstep. apply (register_name_spec _ i); [by split; [split; apply H1|..]|]. intros q s' Hq [S1 S2 S3 S4 S5]. apply put_hostname_spec; [by rewrite S4|]. intros n'.
  apply (HQ q); [done|]. by split.
Qed.

(** Of the listeners only one has something to do. *)
Lemma fire_one x st l s (Q : unit -> host -> Prop) : NoDup l -> x ∈ l -> (forall y, y <> x -> callback junk beyond junk_mac y st = mret tt) -> runs (callback junk beyond junk_mac x st) s Q -> runs (listener_chain_fire junk beyond junk_mac st l) s Q.
Proof.
  intros Hnd Hx Hother Hr. assert (Hnone : forall l' s', x ∉ l' -> runs (listener_chain_fire junk beyond junk_mac st l') s' (fun _ s2 => s2 = s')).
  { induction l' as [|y l' IH]; intros s' Hn; cbn [listener_chain_fire]; [by mstep|]. apply not_elem_of_cons in Hn as [Hy Hn]. rewrite Hother by done. do 2 mstep. by apply IH. }
  induction Hnd as [|y l Hy Hnd IH]; [by apply elem_of_nil in Hx|]. cbn [listener_chain_fire]. mstep. apply elem_of_cons in Hx as [<-|Hx].
  - eapply runs_mono; [exact Hr|]. intros [] s1 H1. eapply runs_mono; [by apply Hnone|]. by intros [] s2 ->.
  - rewrite Hother by (intros ->; done). mstep. by apply IH.
Qed.

(** The interface comes up: a request for an address is broadcast. *)
Lemma comes_up_spec s i (Q : unit -> host -> Prop) : ready_to s i -> listener_lock s = false -> if_state (h_if s) <> IF_UP -> dhcp_listener ∈ listeners s ->
  (forall q s', dhcp_sent i (if_mac (h_if s)) discover_options q -> sends q (set_if (NetInterface IF_UP (if_ip (h_if s)) (if_mac (h_if s))) s) s' -> Q tt s') -> runs (net_set_state junk beyond junk_mac IF_UP) s Q.
Proof.
  intros [H1 H2 H3 H4 H6] H5 Hst Hl HQ. unfold net_set_state. mstep. mstep. rewrite bool_decide_eq_false_2 by done. do 2 mstep. unfold with_listeners. apply runs_locked; [by cbn; rewrite H5|].
  apply (fire_one dhcp_listener); [done|done|by intros []|]. cbn [callback dhcp_callback]. apply (discover_spec _ i); [by split; [split; apply H1|..]|]. intros q s' Hq [S1 S2 S3 S4 S5]. apply (HQ q); [done|]. by split.
Qed.

(** It gets its address: the name is made known. *)
Lemma ack_spec s i yiaddr (Q : unit -> host -> Prop) : ready_to s i -> listener_lock s = false -> ip_ok yiaddr -> if_state (h_if s) <> IF_READY -> nbns_listener ∈ listeners s ->
  (forall q s', name_sent yiaddr (if_mac (h_if s)) q -> sends q (set_if (NetInterface IF_READY (Some yiaddr) (if_mac (h_if s))) s) s' -> Q tt s') -> runs (dhcp_ack junk beyond junk_mac yiaddr) s Q.
Proof.
  intros [H1 H2 H3 H4 H6] H5 Hy Hst Hl HQ. unfold dhcp_ack, my_ip. mstep. eapply runs_read; [apply (cs_ip _ _ H1)|]. do 2 mstep. unfold net_set_state. mstep. mstep. rewrite bool_decide_eq_false_2 by done. do 2 mstep. unfold with_listeners. apply runs_locked; [by cbn; rewrite H5|].
  apply (fire_one nbns_listener); [done|done|by intros []|]. cbn [callback]. apply (nbns_callback_spec _ yiaddr); [split; try done; by split; [..|apply H1]|]. intros q s' Hq [S1 S2 S3 S4 S5]. apply (HQ q); [done|]. by split.
Qed.

Lemma calm_heard j m x l : calm l -> calm (heard j m x l).
Proof.
  intros Hc y. destruct (Hc y) as [H1 H2], (Hc x) as [_ H3]. split; [by rewrite heard_lock|]. intros e. unfold heard. destruct (arp_cache l !! x) as [e'|] eqn:E; [apply H2|].
  cbn. destruct (decide (x = y)) as [->|Hne]; [rewrite lookup_insert_eq; by intros [= <-]|rewrite lookup_insert_ne by done; apply H2].
Qed.
Lemma ready_heard s i j m x : ready_to s i -> ready_to (and_heard j m x s) i.
Proof. intros [[H1 H2 H3] H4 H5 H6 H7]. split; try done; [split; [done|done|cbn; by rewrite heard_lock]|by apply calm_heard]. Qed.
Lemma ready_sends s s' i q : ready_to s i -> sends q s s' -> ready_to s' i.
Proof.
  intros [[H1 H2 H3] H4 H5 H6 H7] [S1 S2 S3 S4 S5]. split; [|by rewrite S1| |by rewrite S4|by rewrite S3]; [split; [by rewrite S1|done|by rewrite S2]|].
  rewrite S2. intros y. apply H5.
Qed.

Lemma ip_at_back (l : list Z) q v : take 4 (drop q l) = ip_addr_bytes v -> ip_at l q = v.
Proof.
  intros H. unfold ip_at, field. rewrite <- !(drop_drop l). rewrite <- (take_drop 4 (drop q l)), H. destruct v as [a b c d]. cbn [ip_addr_bytes app drop take ip0 ip1 ip2 ip3 of_le_bytes]. by rewrite !Z.mul_0_r, !Z.add_0_r.
Qed.

(** A DHCP reply in a frame: headers, options, the end mark, and what follows in the frame and behind it in the buffer. *)
Record reply := Reply { r_eth : eth_header; r_ip : ip_header; r_udp : udp_header; r_dhcp : dhcp_header; r_options : list (Z * list Z); r_pad : list Z; r_rest : list Z }.
Definition reply_options (r : reply) : list Z := options_bytes (r_options r) ++ OPT_END :: r_pad r ++ r_rest r.
Definition reply_frame (r : reply) : list Z := eth_bytes (r_eth r) ++ ip_bytes (r_ip r) ++ udp_bytes (r_udp r) ++ dhcp_bytes (r_dhcp r) ++ reply_options r.
Definition reply_len (r : reply) : Z := 282 + size_of (options_bytes (r_options r) ++ OPT_END :: r_pad r).

Record reply_ok (m : mac) (r : reply) : Prop := ReplyOk {
  ro_eth : eth_ok (r_eth r) /\ swap_uint16 (eth_type (r_eth r)) = ETH_TYPE_IP;
  ro_ip : iph_ok (r_ip r) /\ IP_VERSION (version_ihl (r_ip r)) = 4 /\ protocol (r_ip r) = IP_PROT_UDP;
  ro_udp : udph_ok (r_udp r) /\ swap_uint16 (udp_src_port (r_udp r)) = DHCP_PORT_SERVER /\ swap_uint16 (udp_dst_port (r_udp r)) = DHCP_PORT_CLIENT;
  ro_dhcp : dhcph_ok (r_dhcp r) /\ ip_ok (dh_yiaddr (r_dhcp r));
  ro_fixed : dh_op (r_dhcp r) = OP_REPLY /\ dh_htype (r_dhcp r) = HTYPE_ETH /\ dh_hlen (r_dhcp r) = 6 /\ dh_cookie (r_dhcp r) = swap_uint32 MAGIC_COOKIE /\ dh_chaddr (r_dhcp r) = m;
  ro_options : Forall option_ok (r_options r) /\ r_pad r <> [] /\ reply_len r < 2 ^ 16;
}.

(** A reply gets through to the message it carries. *)
Lemma recieve_reply s r (Q : unit -> host -> Prop) : calm (h_lan s) -> if_state (h_if s) = IF_UP -> reply_ok (if_mac (h_if s)) r ->
  (forall opts, options_told (reply_options r) (r_options r) opts -> runs
     (if o_message_type opts =? MSG_OFFER then
        p ← read (fun _ => o_server opts); server ← load (p + 4) (fun l => ip_at l (Z.to_nat p)) (reply_options r); dhcp_send_request junk junk_mac (dh_yiaddr (r_dhcp r)) server
      else if o_message_type opts =? MSG_ACK then dhcp_ack junk beyond junk_mac (dh_yiaddr (r_dhcp r)) else mret tt) (and_heard junk_retrys (eth_src (r_eth r)) (ip_src (r_ip r)) s) Q) ->
  runs (recieve (reply_frame r) (reply_len r)) s Q.
Proof.
  intros Hcalm Hup [[E1 E2] [I1 [I2 I3]] [U1 [U2 U3]] [D1 _] (F1 & F2 & F3 & F4 & F5) (O1 & O2 & O3)] HQ. assert (Hn : 0 <= size_of (options_bytes (r_options r) ++ OPT_END :: r_pad r)) by (unfold size_of; lia).
  unfold reply_len in *. set (n := size_of (options_bytes _ ++ _)) in *. unfold reply_frame. apply recieve_ip; [done|done|done|done|apply Hcalm|lia|]. rewrite I3. change (IP_PROT_UDP =? IP_PROT_ICMP) with false. change (IP_PROT_UDP =? IP_PROT_TCP) with false. rewrite Z.eqb_refl.
  unfold udp_handle. mstep. apply load_runs; [by apply (size_bytes _ _ 8)|]. rewrite udp_header_back by done. rewrite (drop_bytes _ _ 8) by done. do 2 mstep. rewrite U2, U3. cbn [h_if and_heard set_lan]. rewrite Hup, bool_decide_eq_true_2, !Z.eqb_refl by done. cbn [andb].
  rewrite (uwrap_small 16) by lia. replace (282 + n - 34 - 8) with (240 + n) by lia. unfold dhcp_handle. unfold DHCP_SIZE. rewrite (proj2 (Z.ltb_ge _ _)) by lia. pose proof (dhcp_bytes_length _ D1) as H240. mstep. apply load_runs; [by apply (size_bytes _ _ 240)|].
  rewrite dhcp_header_back by done. unfold my_mac. do 2 mstep. rewrite F1, F2, F3, F4, F5. cbn [h_if and_heard set_lan]. rewrite !Z.eqb_refl, bool_decide_eq_true_2 by done. cbn [negb]. rewrite (drop_bytes _ _ (Z.to_nat 240)) by done.
  replace (240 + n - 240) with n by lia. mstep. eapply runs_mono; [by apply (parse_back (r_options r) (r_pad r) (r_rest r))|]. intros x s' (-> & opts & -> & Hopts). by apply HQ.
Qed.

Definition is_message (t : Z) (r : reply) : Prop := number_of (last_data OPT_MESSAGE_TYPE (r_options r)) = t.

Lemma offer_spec s i r server (Q : unit -> host -> Prop) : ready_to s i -> if_state (h_if s) = IF_UP -> reply_ok (if_mac (h_if s)) r -> is_message MSG_OFFER r -> last_data OPT_SERVER_ID (r_options r) = Some (ip_addr_bytes server) -> ip_ok server ->
  (forall q s', dhcp_sent i (if_mac (h_if s)) (request_options (dh_yiaddr (r_dhcp r)) server) q -> sends q (and_heard junk_retrys (eth_src (r_eth r)) (ip_src (r_ip r)) s) s' -> Q tt s') -> runs (recieve (reply_frame r) (reply_len r)) s Q.
Proof.
  intros Hr Hup Hok Ht Hsv Hsok HQ. apply recieve_reply; [apply Hr|done|done|]. intros opts Ho. rewrite (ot_message_type _ _ _ Ho), Ht, Z.eqb_refl. pose proof (ot_server _ _ _ Ho) as Hp. rewrite Hsv in Hp. destruct Hp as (p & Hp & H0 & Htake).
  mstep. eapply runs_read; [exact Hp|]. assert (Hlen : p + 4 <= size_of (reply_options r)). { apply (f_equal length) in Htake. rewrite length_take, length_drop in Htake. cbn [ip_addr_bytes length] in Htake. unfold size_of. lia. }
  mstep. apply load_runs; [exact Hlen|]. rewrite (ip_at_back _ _ server) by exact Htake. eapply (request_spec _ i); [by apply ready_heard|apply Hok|done|]. intros q s' Hq Hs. by apply (HQ q).
Qed.

Lemma ack_frame_spec s i r (Q : unit -> host -> Prop) : ready_to s i -> listener_lock s = false -> if_state (h_if s) = IF_UP -> nbns_listener ∈ listeners s -> reply_ok (if_mac (h_if s)) r -> is_message MSG_ACK r ->
  (forall q s', name_sent (dh_yiaddr (r_dhcp r)) (if_mac (h_if s)) q ->
     sends q (set_if (NetInterface IF_READY (Some (dh_yiaddr (r_dhcp r))) (if_mac (h_if s))) (and_heard junk_retrys (eth_src (r_eth r)) (ip_src (r_ip r)) s)) s' -> Q tt s') -> runs (recieve (reply_frame r) (reply_len r)) s Q.
Proof.
  intros Hr Hl Hup Hn Hok Ht HQ. apply recieve_reply; [apply Hr|done|done|]. intros opts Ho. unfold is_message in Ht. rewrite (ot_message_type _ _ _ Ho), Ht. change (MSG_ACK =? MSG_OFFER) with false. rewrite Z.eqb_refl. cbn iota.
  eapply (ack_spec _ i); [by apply ready_heard|done|apply Hok|cbn; by rewrite Hup|done|exact HQ].
Qed.


(** An acknowledgement that nobody asked for is taken: neither the transaction nor a request is looked for. *)
Theorem dhcp_ack_unasked s i r : ready_to s i -> listener_lock s = false -> if_state (h_if s) = IF_UP -> nbns_listener ∈ listeners s -> reply_ok (if_mac (h_if s)) r -> is_message MSG_ACK r ->
  runs (recieve (reply_frame r) (reply_len r)) s (fun _ s' => if_state (h_if s') = IF_READY /\ if_ip (h_if s') = Some (dh_yiaddr (r_dhcp r))).
Proof. intros H1 H2 H3 H4 H5 H6. eapply (ack_frame_spec s i r); [done..|]. intros q s' _ [S1 _ _ _ _]. by rewrite S1. Qed.

(** *** A query for a name *)

(** A query for one name; [q_tail] is the rest of it and of the frame. *)
Record query := Query { q_eth : eth_header; q_ip : ip_header; q_udp : udp_header; q_dns : dns_header; q_len : Z; q_name : list Z; q_tail : list Z; q_rest : list Z }.
Definition query_frame (q : query) : list Z := eth_bytes (q_eth q) ++ ip_bytes (q_ip q) ++ udp_bytes (q_udp q) ++ dns_bytes (q_dns q) ++ q_len q :: q_name q ++ q_tail q ++ q_rest q.
Definition query_len (q : query) : Z := 55 + size_of (q_name q ++ q_tail q).

Record query_ok (q : query) : Prop := QueryOk {
  qo_eth : eth_ok (q_eth q) /\ swap_uint16 (eth_type (q_eth q)) = ETH_TYPE_IP;
  qo_ip : iph_ok (q_ip q) /\ IP_VERSION (version_ihl (q_ip q)) = 4 /\ protocol (q_ip q) = IP_PROT_UDP /\ ip_ok (ip_src (q_ip q)) /\ ip_src (q_ip q) <> IP_BROADCAST;
  qo_udp : udph_ok (q_udp q) /\ swap_uint16 (udp_dst_port (q_udp q)) = NBNS_PORT;
  qo_dns : is_word (dn_xid (q_dns q)) /\ is_word (dn_flags (q_dns q)) /\ is_word (dn_query_count (q_dns q));
  qo_query : FLAGS_TO_R (swap_uint16 (dn_flags (q_dns q))) = R_REQUEST /\ FLAGS_TO_OPCODE (swap_uint16 (dn_flags (q_dns q))) = OPCODE_QUERY /\ swap_uint16 (dn_query_count (q_dns q)) = 1;
  qo_len : length (q_name q) = 32%nat /\ query_len q < 2 ^ 16;
}.

Lemma dns_header_back h rest : is_word (dn_xid h) -> is_word (dn_flags h) -> is_word (dn_query_count h) ->
  dn_xid (dns_header_of (dns_bytes h ++ rest)) = dn_xid h /\ dn_flags (dns_header_of (dns_bytes h ++ rest)) = dn_flags h /\ dn_query_count (dns_header_of (dns_bytes h ++ rest)) = dn_query_count h.
Proof.
  intros H1 H2 H3. unfold dns_header_of, dns_bytes. destruct h as [x f q a b c]. cbn [dn_xid dn_flags dn_query_count dn_answer_count dn_authority_count dn_additional_count] in *. headers_back.
Qed.

Lemma nbns_response_ok xid i : ip_ok i -> Forall is_byte (nbns_response xid (nbns_name hostname NAME_WORKSTATION) i) /\ length (nbns_response xid (nbns_name hostname NAME_WORKSTATION) i) = 62%nat.
Proof.
  intros Hi. split; [|done]. unfold nbns_response, dns_bytes, dns_sym_rr, dns_rr_bytes. cbn [dn_xid dn_flags dn_query_count dn_answer_count dn_authority_count dn_additional_count rr_type rr_class rr_ttl rr_addr_len rr_nb_flags rr_ip].
  repeat (apply Forall_app; split); try apply le_bytes_bytes. apply Forall_cons. split; [vm_compute; split; [discriminate|reflexivity]|].
  repeat (apply Forall_app; split); try apply le_bytes_bytes; try exact Hi; unfold is_byte; apply (bool_decide_unpack _); vm_compute; exact I.
Qed.

End Client.
End Receiving.

(** ** What goes wrong *)

(** An echo request cut short, in a frame of less than 42 bytes: its length wraps around, and the copy of the payload runs out of the receive buffer. *)
Theorem icmp_short_faults junk_mac h raw len s : 8 <= size_of raw < 2 ^ 16 - 8 -> 0 <= len < 8 -> icmp_type (icmp_header_of raw) = ICMP_TYPE_ECHO_REQUEST -> icmp_code (icmp_header_of raw) = ICMP_CODE_ECHO_REQUEST ->
  size_of raw < 2 ^ 16 + len -> icmp_handle junk_mac h raw len s = Fault.
Proof.
  intros Hraw Hlen Ht Hc Hb. unfold icmp_handle. apply faults_bind. apply load_runs; [lia|]. rewrite Ht, Hc. cbn [Z.eqb andb ICMP_TYPE_ECHO_REQUEST ICMP_CODE_ECHO_REQUEST Pos.eqb].
  assert (Ew : u16 (len - 8) = len - 8 + 2 ^ 16) by (unfold uwrap; symmetry; apply (Z.mod_unique _ _ (-1)); lia). rewrite Ew.
  apply faults_bind_l. unfold load, read. rewrite (proj2 (Z.leb_gt _ _)); [done|]. assert (size_of raw = 8 + size_of (drop 8 raw)) by (unfold size_of in *; rewrite length_drop; lia). lia.
Qed.

(** An offer without the option that names its server is answered through a null pointer. *)
Theorem offer_without_server_faults junk beyond junk_mac raw len opts s s' : DHCP_SIZE <= len -> DHCP_SIZE <= size_of raw -> dh_op (dhcp_header_of raw) = OP_REPLY -> dh_htype (dhcp_header_of raw) = HTYPE_ETH -> dh_hlen (dhcp_header_of raw) = 6 ->
  dh_cookie (dhcp_header_of raw) = swap_uint32 MAGIC_COOKIE -> dh_chaddr (dhcp_header_of raw) = if_mac (h_if s) ->
  dhcp_parse_options (drop (Z.to_nat DHCP_SIZE) raw) (len - DHCP_SIZE) s = Done (Some opts, s') -> o_message_type opts = MSG_OFFER -> o_server opts = None -> dhcp_handle junk beyond junk_mac raw len s = Fault.
Proof.
  intros Hlen Hraw F1 F2 F3 F4 F5 Hp Ht Hs. unfold dhcp_handle. rewrite (proj2 (Z.ltb_ge _ _)) by done. apply faults_bind. apply load_runs; [done|]. apply faults_bind. unfold my_mac. mstep. rewrite F1, F2, F3, F4, F5, !Z.eqb_refl, bool_decide_eq_true_2 by done. cbn [negb].
  apply faults_bind. unfold runs. rewrite Hp. cbn beta iota. rewrite Ht, Z.eqb_refl. apply faults_bind_l. unfold read. by rewrite Hs.
Qed.

(** A byte beyond ASCII is shifted as a negative number: its letters are outside the alphabet. *)
Theorem encode_char_high c : 128 <= c < 256 -> exists a b, encode_char c = [a; b] /\ 57 <= a < 65.
Proof.
  intros Hc. unfold encode_char. assert (Es : s8 c = c - 256) by (unfold swrap; rewrite <- (Z.mod_unique (c + 2 ^ (8 - 1)) (2 ^ 8) 1 (c + 128 - 256)) by lia; lia). rewrite Es. do 2 eexists. split; [reflexivity|].
  rewrite Z.shiftr_div_pow2 by lia. assert (-8 <= (c - 256) / 2 ^ 4 < 0) by (split; [apply Z.div_le_lower_bound; lia|apply Z.div_lt_upper_bound; lia]). rewrite uwrap_small by lia. lia.
Qed.

(** ** Examples *)

Definition my_mac0 : mac := Mac 82 84 0 18 52 86.
Definition peer_mac : mac := Mac 82 84 0 18 52 87.
Definition tcp0 : tcp := Tcp ∅ (fun _ => 0) (fun _ => 0) (fun _ => 0) 0 false 0 [] [] 1.
Definition host0 (st : net_state) (i : ip) : host := Host (NetInterface st (Some i) my_mac0) (Lan ∅ false [] [] [] false) tcp0 [tt] [nbns_listener; dhcp_listener; inet_listener] 0 false false.

Definition beyond0 : list Z := replicate 10 0.
Definition recieve0 (raw : list Z) (len : Z) : M host unit := net_recieve (fun _ => 0) beyond0 MAC_NONE 0 (fun _ => 0) raw len.

Definition eth0 : eth_header := EthHeader my_mac0 peer_mac (swap_uint16 ETH_TYPE_IP).
Definition iph0 (prot : Z) : ip_header := IpHeader 0x45 0 0 0 0 64 prot 0 ip_b ip_a.

Lemma host0_can_send st i : ip_ok i -> can_send (host0 st i) i.
Proof. by split. Qed.
Lemma host0_calm st i : calm (h_lan (host0 st i)).
Proof. intros x. split; [done|]. intros e He. cbn in He. by rewrite lookup_empty in He. Qed.
Lemma host0_ready st i : ip_ok i -> ready_to (host0 st i) i.
Proof.
  intros Hi. split; [by apply host0_can_send|unfold mac_ok, is_byte; apply (bool_decide_unpack _); vm_compute; exact I|apply host0_calm|done|].
  cbn. repeat (apply NoDup_cons; split; [set_solver|]). apply NoDup_nil_2.
Qed.


Lemma dhcp_parse_safe_witness : runs (dhcp_parse_options [53; 1; 5; 255; 0] 5) (host0 IF_UP ip_a) (fun r s' => match r with Some o => options_ok 5 o | None => True end) /\
  (fst <$> (match dhcp_parse_options [53; 1; 5; 255; 0] 5 (host0 IF_UP ip_a) with Done (r, s') => (fun o => (o_message_type o, s')) <$> r | _ => None end)) = Some MSG_ACK.
Proof.
  split; [|reflexivity]. eapply runs_mono; [apply (dhcp_parse_safe [53; 1; 5; 255; 0] 5 (host0 IF_UP ip_a) ltac:(unfold is_byte; repeat constructor; lia) ltac:(split; discriminate))|]. intros r s' [_ H]. exact H.
Defined.

(** Options of a server's message of type [t]. *)
Definition options0 (t : Z) : list (Z * list Z) := [(OPT_MESSAGE_TYPE, [t]); (OPT_SERVER_ID, ip_addr_bytes ip_b); (OPT_LEASE_TIME, [0; 0; 14; 16]); (OPT_SUBNET_MASK, [255; 255; 255; 0])].
Lemma options0_ok t : 0 <= t < 256 -> Forall option_ok (options0 t).
Proof.
  intros Ht. assert (Hone : forall c d n, 0 < c < 255 -> Forall is_byte d -> size_of d < 256 -> data_length c = Some n -> size_of d = n -> option_ok (c, d)).
  { intros c d n H1 H2 H3 H4 H5. split; [exact H1|]. split; [exact H2|]. split; [exact H3|]. cbn [fst snd]. rewrite H4. intros m [= <-]. exact H5. }
  apply Forall_cons; split; [|apply Forall_cons; split; [|apply Forall_cons; split; [|apply Forall_cons; split; [|apply Forall_nil; exact I]]]];
    (eapply Hone; [split; reflexivity| |reflexivity|reflexivity|reflexivity]); unfold is_byte, ip_addr_bytes; rewrite !Forall_cons, Forall_nil; cbn; lia.
Qed.

Lemma dhcp_options_roundtrip_witness : runs (dhcp_parse_options (options_bytes (options0 MSG_OFFER) ++ [OPT_END; 0]) (size_of (options_bytes (options0 MSG_OFFER) ++ [OPT_END; 0]))) (host0 IF_UP ip_a) (fun r _ =>
  exists o, r = Some o /\ o_message_type o = MSG_OFFER /\ o_lease o = 3600 /\ o_server o = Some 5).
Proof.
  eapply runs_mono; [apply (dhcp_options_roundtrip (options0 MSG_OFFER) [0] [] (host0 IF_UP ip_a)); [apply options0_ok; unfold MSG_OFFER; lia|discriminate]|]. intros r s' (_ & o & -> & H). exists o. split; [reflexivity|].
  split; [exact (ot_message_type _ _ _ H)|]. split; [exact (ot_lease _ _ _ H)|]. destruct (ot_server _ _ _ H) as (q & Hq & H0 & Hd). cbn [last_data options0 fst snd] in Hd. rewrite Hq. f_equal.
  assert (Hlt : (Z.to_nat q < 23)%nat).
  { destruct (le_lt_dec 23 (Z.to_nat q)) as [Hge|]; [|assumption]. rewrite drop_ge in Hd by (cbn; lia). discriminate Hd. }
  assert (Hall : forall k, (k < 23)%nat -> take 4 (drop k (options_bytes (options0 MSG_OFFER) ++ OPT_END :: [0] ++ [])) = ip_addr_bytes ip_b -> k = 5%nat).
  { intros k Hk. do 23 (destruct k as [|k]; [vm_compute; intros E; solve [reflexivity|discriminate E]|]). lia. }
  apply Hall in Hd; [lia|exact Hlt].
Defined.

Lemma nbns_name_roundtrip_witness : match nbns_encode_name (hostname ++ 0 :: beyond0) NAME_WORKSTATION (host0 IF_UP ip_a) with Done (r, _) => letters_back r = hostname ++ replicate 11 32 ++ [0] | _ => False end.
Proof.
  pose proof (nbns_name_roundtrip hostname NAME_WORKSTATION beyond0 (host0 IF_UP ip_a) hostname_chars ltac:(split; [discriminate|reflexivity]) ltac:(discriminate)) as H. unfold runs in H.
  destruct (nbns_encode_name _ _ _) as [[r s']| | |]; [|contradiction..]. destruct H as (_ & _ & _ & H). exact H.
Defined.

(** A server's message of type [t] that gives [ip_a]. *)
Definition reply0 (t : Z) : reply :=
  Reply eth0 (iph0 IP_PROT_UDP) (UdpHeader (swap_uint16 DHCP_PORT_SERVER) (swap_uint16 DHCP_PORT_CLIENT) 0 0)
    (DhcpHeader OP_REPLY HTYPE_ETH 6 0 77 0 0 IP_NONE ip_a ip_b IP_NONE my_mac0 (replicate 10 0) (replicate 192 0) (swap_uint32 MAGIC_COOKIE)) (options0 t) [0] [].

Lemma reply0_ok t : 0 <= t < 256 -> reply_ok my_mac0 (reply0 t).
Proof.
  intros Ht. split; cbn [r_eth r_ip r_udp r_dhcp r_options r_pad reply0].
  - split; [split; [discriminate|reflexivity]|reflexivity].
  - split; [repeat split; discriminate|]. split; reflexivity.
  - split; [|split; reflexivity]. repeat split; try discriminate; reflexivity.
  - split; [|exact ip_a_ok]. repeat split; try discriminate; reflexivity.
  - repeat split; reflexivity.
  - split; [by apply options0_ok|]. split; [discriminate|reflexivity].
Qed.


(** A query for "K-OS". *)
Definition query0 : query :=
  Query eth0 (iph0 IP_PROT_UDP) (UdpHeader 0 (swap_uint16 NBNS_PORT) 0 0) (DnsHeader 5 0 (swap_uint16 1) 0 0 0) 32 (nbns_name hostname NAME_WORKSTATION) [0; 0; 32; 0; 1] [].

