(* ===== verification/Sock.v ===== *)
(** * Sock: sockets and the system calls on them

    Models kernel/src/net/socket.c, kernel/src/net/ip/af_inet.c and raw.c, the sockets of kernel/src/net/ip/udp.c and icmp.c, and the calls
    of kernel/src/sched/syscall.c on sockets, over [Tcp]'s sockets and [Ufd]'s descriptors.  A protocol's operation that is not there is a
    null pointer: calling it is a fault.  Packets that are sent are logged in [Tcp]'s [out]; a call that blocks is split where it blocks. *)

From S2P Require Import Prelude Words Net Tcp TcpStream TcpOpen Ufd.

(** ** Protocols and families *)

Definition AF_INET : Z := 1.
Definition AF_UNSPEC : Z := 4.
Definition AF_MAX : Z := 6.
Definition SHUT_RD : Z := 1.
Definition SHUT_RDWR : Z := 2.
Definition SHUT_WR : Z := 3.
Definition SHUT_MASK : Z := 3.
Definition SOCK_STREAM : Z := 1.
Definition SOCK_DGRAM : Z := 2.
Definition SOCK_RAW : Z := 3.
Definition SOCK_MAX : Z := SOCK_RAW + 1.
Definition IPPROTO_RAW : Z := 0.

Inductive sock_protocol := tcp_protocol | udp_protocol | icmp_protocol | raw_protocol.
Definition proto_type (p : sock_protocol) : Z :=
  match p with tcp_protocol => SOCK_STREAM | udp_protocol | icmp_protocol => SOCK_DGRAM | raw_protocol => SOCK_RAW end.

#[global] Instance sock_protocol_eq_dec : EqDecision sock_protocol.
Proof. solve_decision. Defined.

(** The only family's [find] is [inet_find]. *)
Record sock_family := SockFamily { sf_family : Z; sf_addr_len : Z }.
Definition af_inet : sock_family := SockFamily AF_INET 6.

Record inet_protocol := InetProtocol { ipr_protocol : Z; ipr_impl : sock_protocol }.
Definition builtin_protocols : list inet_protocol :=
  [InetProtocol IP_PROT_TCP tcp_protocol; InetProtocol IP_PROT_UDP udp_protocol; InetProtocol IP_PROT_ICMP icmp_protocol; InetProtocol 0 raw_protocol].

Record udp_data := UdpData { ud_local_port : Z; ud_semaphore : Z }.

(** [n_file] holds the sockets of files, [n_proto] family and protocol of each socket made by [sock_create]; those made by TCP for
    incoming connections are TCP's. *)
Record net := NetState {
  n_tcp : tcp;
  n_fd : fdtab;
  n_proto : gmap Z (sock_family * sock_protocol);
  n_file : gmap Z Z;
  n_udp : gmap Z udp_data;
  families : Z -> option sock_family;
  family_lock : bool;
  types : Z -> list inet_protocol;
  type_lock : bool;
  udp_ports_list : Z -> Z;
  udp_next : Z;
  udp_lock : bool;
}.

Definition set_n_tcp (v : tcp) (s : net) : net := NetState v (n_fd s) (n_proto s) (n_file s) (n_udp s) (families s) (family_lock s) (types s) (type_lock s) (udp_ports_list s) (udp_next s) (udp_lock s).
Definition set_n_fd (v : fdtab) (s : net) : net := NetState (n_tcp s) v (n_proto s) (n_file s) (n_udp s) (families s) (family_lock s) (types s) (type_lock s) (udp_ports_list s) (udp_next s) (udp_lock s).
Definition set_n_proto (v : gmap Z (sock_family * sock_protocol)) (s : net) : net := NetState (n_tcp s) (n_fd s) v (n_file s) (n_udp s) (families s) (family_lock s) (types s) (type_lock s) (udp_ports_list s) (udp_next s) (udp_lock s).
Definition set_n_file (v : gmap Z Z) (s : net) : net := NetState (n_tcp s) (n_fd s) (n_proto s) v (n_udp s) (families s) (family_lock s) (types s) (type_lock s) (udp_ports_list s) (udp_next s) (udp_lock s).
Definition set_n_udp (v : gmap Z udp_data) (s : net) : net := NetState (n_tcp s) (n_fd s) (n_proto s) (n_file s) v (families s) (family_lock s) (types s) (type_lock s) (udp_ports_list s) (udp_next s) (udp_lock s).
Definition set_families (v : Z -> option sock_family) (s : net) : net := NetState (n_tcp s) (n_fd s) (n_proto s) (n_file s) (n_udp s) v (family_lock s) (types s) (type_lock s) (udp_ports_list s) (udp_next s) (udp_lock s).
Definition set_family_lock (v : bool) (s : net) : net := NetState (n_tcp s) (n_fd s) (n_proto s) (n_file s) (n_udp s) (families s) v (types s) (type_lock s) (udp_ports_list s) (udp_next s) (udp_lock s).
Definition set_types (v : Z -> list inet_protocol) (s : net) : net := NetState (n_tcp s) (n_fd s) (n_proto s) (n_file s) (n_udp s) (families s) (family_lock s) v (type_lock s) (udp_ports_list s) (udp_next s) (udp_lock s).
Definition set_type_lock (v : bool) (s : net) : net := NetState (n_tcp s) (n_fd s) (n_proto s) (n_file s) (n_udp s) (families s) (family_lock s) (types s) v (udp_ports_list s) (udp_next s) (udp_lock s).
Definition set_udp_ports_list (v : Z -> Z) (s : net) : net := NetState (n_tcp s) (n_fd s) (n_proto s) (n_file s) (n_udp s) (families s) (family_lock s) (types s) (type_lock s) v (udp_next s) (udp_lock s).
Definition set_udp_next (v : Z) (s : net) : net := NetState (n_tcp s) (n_fd s) (n_proto s) (n_file s) (n_udp s) (families s) (family_lock s) (types s) (type_lock s) (udp_ports_list s) v (udp_lock s).
Definition set_udp_lock (v : bool) (s : net) : net := NetState (n_tcp s) (n_fd s) (n_proto s) (n_file s) (n_udp s) (families s) (family_lock s) (types s) (type_lock s) (udp_ports_list s) (udp_next s) v.

Definition in_tcp {A} (m : M tcp A) : M net A := lift n_tcp set_n_tcp m.
Definition in_fd {A} (m : M fdtab A) : M net A := lift n_fd set_n_fd m.
Definition with_families {A} (m : M net A) : M net A := locked (fun s => Some (family_lock s)) set_family_lock m.
Definition with_types {A} (m : M net A) : M net A := locked (fun s => Some (type_lock s)) set_type_lock m.
Definition with_udp {A} (m : M net A) : M net A := locked (fun s => Some (udp_lock s)) set_udp_lock m.

(** Arrays of [AF_MAX] and [SOCK_MAX] entries. *)
Definition family_at (i : Z) : M net (option sock_family) := read (fun s => if (0 <=? i) && (i <? AF_MAX) then Some (families s i) else None).
Definition type_at (i : Z) : M net (list inet_protocol) := read (fun s => if (0 <=? i) && (i <? SOCK_MAX) then Some (types s i) else None).

Definition register_sock_family (f : sock_family) : M net unit :=
  with_families (x ← family_at (sf_family f); match x with Some _ => panic | None => modify (fun s => set_families (<[sf_family f := Some f]> (families s)) s) end).

Definition register_inet_protocol (p : inet_protocol) : M net unit :=
  with_types (l ← type_at (proto_type (ipr_impl p)); modify (fun s => set_types (<[proto_type (ipr_impl p) := l ++ [p]]> (types s)) s)).

Fixpoint register_protocols (l : list inet_protocol) : M net unit := match l with [] => mret tt | p :: l' => register_inet_protocol p;; register_protocols l' end.
Definition inet_init : M net unit :=
  modify (set_types (fun _ => []));; register_protocols builtin_protocols;; register_sock_family af_inet.

(** *** UDP's ports *)

(** The list has [EPHEMERAL_NUM] entries, and [ephemeral_next] starts at [EPHEMERAL_START]. *)
Definition udp_list_at (i : Z) : M net Z := read (fun s => if (0 <=? i) && (i <? EPHEMERAL_NUM) then Some (udp_ports_list s i) else None).
Definition udp_bind_port : M net Z :=
  with_udp (
    s ← get;
    if negb (udp_next s =? FREELIST_END) then n ← udp_list_at (udp_next s); modify (set_udp_next n);; mret (swap_uint16 (u16 (udp_next s)))
    else mret (swap_uint16 0)).
Definition udp_unbind_port (port_net : Z) : M net unit :=
  let port := swap_uint16 port_net in
  with_udp (
    _ ← udp_list_at port;
    modify (fun s => set_udp_ports_list (<[port := udp_next s]> (udp_ports_list s)) s);;
    modify (set_udp_next port)).

Section Sockets.
(** The primary interface's address, what a new connection's buffer holds, what an uninitialised [bool] holds, the caller's descriptor table. *)
Context (my_ip : ip) (junk_buff : Z -> Z) (junk_bool : bool) (u : Z).

Definition udp_open (k : Z) : M net unit :=
  in_tcp (upd_sock k (fun x => set_peer_addr IP_AND_PORT_NONE (set_peer_inet false x)));;
  p ← udp_bind_port;
  modify (fun s => set_n_udp (<[k := UdpData p 0]> (n_udp s)) s).
Definition udp_at (k : Z) : M net udp_data := read (fun s => n_udp s !! k).
Definition udp_close (k : Z) : M net unit :=
  d ← udp_at k; udp_unbind_port (ud_local_port d);; modify (fun s => set_n_udp (delete k (n_udp s)) s).

(** An address as a call gives it. *)
Inductive sock_addr := AddrUnspec | AddrInet (a : ip_and_port).

Definition udp_connect (k : Z) (addr : sock_addr) : M net bool :=
  match addr with
  | AddrUnspec => in_tcp (upd_sock k (fun x => set_peer_addr IP_AND_PORT_NONE (set_peer_inet false x)));; mret true
  | AddrInet a => in_tcp (upd_sock k (fun x => set_peer_addr a (set_peer_inet true x)));; mret true
  end.

(** Up to the semaphore, which [udp_callback] ups when the packet has gone or was given up; and after it. *)
Definition udp_send (k : Z) (buff : list Z) (len : Z) : M net (option Z) :=
  x ← in_tcp (sock_at k);
  if negb (peer_inet x) then mret (Some (u32 (-1)))
  else
    d ← udp_at k;
    in_tcp (send_out (udp_build my_ip (packet_create k buff len) (ap_ip (peer_addr x)) (ud_local_port d) (ap_port (peer_addr x))));;
    mret None.
Definition udp_callback (k : Z) : M net unit := d ← udp_at k; modify (fun s => set_n_udp (<[k := UdpData (ud_local_port d) (u32 (ud_semaphore d + 1))]> (n_udp s)) s).
Definition udp_send_resume (k len : Z) : M net (option Z) :=
  d ← udp_at k;
  if ud_semaphore d =? 0 then mret None else modify (fun s => set_n_udp (<[k := UdpData (ud_local_port d) (u32 (ud_semaphore d - 1))]> (n_udp s)) s);; mret (Some len).

(** ** af_inet.c *)

(** The entry the walk stops at; a wildcard in the table or in the call matches. *)
Fixpoint find_entry (protocol : Z) (l : list inet_protocol) : option sock_protocol :=
  match l with
  | [] => None
  | found :: l' =>
      if (ipr_protocol found =? protocol) || (ipr_protocol found =? IPPROTO_RAW) then Some (ipr_impl found)
      else if protocol =? IPPROTO_RAW then Some (ipr_impl found)
      else find_entry protocol l'
  end.
(** Of an empty list, [success] was never set; when it happens to be true the list's head is taken for an entry. *)
Definition inet_find (type protocol : Z) : M net (option sock_protocol) :=
  l ← type_at type;
  match l with [] => if junk_bool then fault else mret None | _ => mret (find_entry protocol l) end.

(** ** socket.c *)

Definition proto_of (k : Z) : M net sock_protocol := gets (fun s => (default (af_inet, tcp_protocol) (n_proto s !! k)).2).
Definition family_of (k : Z) : M net sock_family := gets (fun s => (default (af_inet, tcp_protocol) (n_proto s !! k)).1).
Definition flags_of (k : Z) : M net Z := x ← in_tcp (sock_at k); mret (sock_flags x).

Definition ISCONNECTIONLESS (p : sock_protocol) : bool := (proto_type p =? SOCK_DGRAM) || (proto_type p =? SOCK_RAW).

Definition proto_open (p : sock_protocol) (k : Z) : M net unit := match p with udp_protocol => udp_open k | tcp_protocol | icmp_protocol | raw_protocol => mret tt end.

Definition sock_open (f : sock_family) (p : sock_protocol) : M net Z :=
  with_families (
    k ← in_tcp tcp_open;
    modify (fun s => set_n_proto (<[k := (f, p)]> (n_proto s)) s);;
    proto_open p k;;
    mret k).

(** For a family that is not there the lock is not released. *)
Definition sock_create (family type protocol : Z) : M net Z :=
  s ← get;
  if family_lock s then spin
  else
    modify (set_family_lock true);;
    f ← family_at family;
    match f with
    | None => mret 0
    | Some f =>
        p ← inet_find type protocol;
        modify (set_family_lock false);;
        match p with Some p => sock_open f p | None => mret 0 end
    end.

Definition sock_listen (k b : Z) : M net bool :=
  fl ← flags_of k;
  if has fl SOCK_FLAG_CONNECTED then mret false
  else p ← proto_of k; match p with tcp_protocol => in_tcp (tcp_listen k b) | _ => fault end.

(** [false] is a null socket. *)
Definition sock_accept (k : Z) : M net accepted :=
  fl ← flags_of k;
  if negb (has fl SOCK_FLAG_LISTENING) then mret (Accepted 0)
  else p ← proto_of k; match p with tcp_protocol => in_tcp (accept_start k) | _ => fault end.

Definition sock_bind (k : Z) (addr : ip_and_port) : M net bool :=
  fl ← flags_of k;
  if Z.land fl SOCK_FLAG_SHUT_RDWR =? SOCK_FLAG_SHUT_RDWR then mret false
  else if has fl SOCK_FLAG_BOUND then mret false
  else if has fl SOCK_FLAG_LISTENING then mret false
  else if has fl SOCK_FLAG_CONNECTED then mret false
  else p ← proto_of k; match p with tcp_protocol => in_tcp (tcp_bind k true addr) | _ => fault end.

(** [None]: it waits for the answer. *)
Definition sock_connect (k : Z) (addr : sock_addr) : M net (option bool) :=
  p ← proto_of k;
  fl ← flags_of k;
  if negb (ISCONNECTIONLESS p) && has fl SOCK_FLAG_CONNECTED then mret (Some false)
  else
    match p with
    | tcp_protocol => match addr with AddrInet a => in_tcp (connect_start my_ip junk_buff k a);; mret None | AddrUnspec => mret (Some false) end
    | udp_protocol => b ← udp_connect k addr; mret (Some b)
    | _ => fault
    end.

Definition shut_bits (how : Z) : Z :=
  if how =? SHUT_RD then SOCK_FLAG_SHUT_RD else if how =? SHUT_WR then SOCK_FLAG_SHUT_WR else if how =? SHUT_RDWR then SOCK_FLAG_SHUT_RDWR else 0.
Definition sock_shutdown (k how : Z) : M net bool :=
  p ← proto_of k;
  fl ← flags_of k;
  if ISCONNECTIONLESS p || negb (has fl SOCK_FLAG_CONNECTED) then mret false
  else if has how (Z.lnot SHUT_MASK) then mret false
  else
    let bits := shut_bits how in
    if bits =? 0 then mret true
    else
      let bits := if has fl SOCK_FLAG_SHUT_RD then Z.land bits (Z.lnot SOCK_FLAG_SHUT_RD) else bits in
      let bits := if has fl SOCK_FLAG_SHUT_WR then Z.land bits (Z.lnot SOCK_FLAG_SHUT_WR) else bits in
      match p with tcp_protocol => in_tcp (tcp_shutdown my_ip k bits) | _ => fault end.

Definition sock_send (k : Z) (buff : list Z) (len : Z) : M net (option Z) :=
  fl ← flags_of k;
  if has fl SOCK_FLAG_CONNECTED then
    p ← proto_of k;
    match p with tcp_protocol => r ← in_tcp (tcp_send my_ip k buff len); mret (Some r) | udp_protocol => udp_send k buff len | _ => fault end
  else mret (Some (u32 (-1))).

Definition sock_recv (k len : Z) : M net received :=
  fl ← flags_of k;
  if has fl SOCK_FLAG_CONNECTED then p ← proto_of k; match p with tcp_protocol => in_tcp (tcp_recv k len) | _ => fault end
  else mret RecvError.

Definition proto_close (p : sock_protocol) (k : Z) : M net unit :=
  match p with tcp_protocol => in_tcp (tcp_close my_ip k) | udp_protocol => udp_close k | icmp_protocol | raw_protocol => mret tt end.
Definition sock_close (k : Z) : M net unit :=
  fl ← flags_of k;
  (if negb (has fl SOCK_FLAG_CLOSED) then in_tcp (add_flags k SOCK_FLAG_CLOSED);; p ← proto_of k; proto_close p k else mret tt);;
  in_tcp (modify (fun s => set_socks (delete k (socks s)) s)).
Definition sock_close_fd (file : Z) : M net unit :=
  k ← read (fun s => n_file s !! file);
  fl ← flags_of k;
  if has fl SOCK_FLAG_CLOSED then mret tt else sock_close k.

(** A fresh file whose private data is the socket. *)
Definition sock_create_fd (k : Z) : M net Z :=
  f ← in_fd gfdt_obtain; modify (fun s => set_n_file (<[f := k]> (n_file s)) s);; mret f.
(** A file of another kind has no socket: what is read from it is not one. *)
Definition gfd_to_sock (f : Z) : M net Z := read (fun s => n_file s !! f).

(** ** The system calls *)

Definition SOCKADDR_SIZE : Z := 4.
(** [struct sockaddr]: the family and, behind it, the address. *)
Record sockaddr := Sockaddr { sa_family : Z; sa_data : ip_and_port }.

Definition get_file (ufd : Z) : M net Z := in_fd (ufdt_get u ufd).
Definition put_file (ufd : Z) : M net unit := in_fd (ufdt_put u ufd).
Definition answer (b : bool) : Z := if b then 0 else -1.

Definition sys_socket (family type protocol : Z) : M net Z :=
  k ← sock_create family type protocol;
  if k =? 0 then mret (- EBADF) else f ← sock_create_fd k; ret ← in_fd (ufdt_add u f); mret (s32 ret).

Definition sys_listen (ufd b : Z) : M net Z :=
  f ← get_file ufd;
  ret ← (if negb (f =? 0) then k ← gfd_to_sock f; r ← sock_listen k b; mret (answer r) else mret (- EBADF));
  put_file ufd;;
  mret ret.

(** The new connection gets a descriptor; the address goes from the caller's memory to the socket's, not the other way. *)
Definition accept_finish (c : Z) (user_addr : option ip_and_port) : M net (Z * option (Z * Z)) :=
  f ← sock_create_fd c;
  ret ← in_fd (ufdt_add u f);
  match user_addr with
  | None => mret (s32 ret, None)
  | Some a => in_tcp (upd_sock c (set_peer_addr a));; fam ← family_of c; mret (s32 ret, Some (sf_family fam, sf_addr_len fam))
  end.
Definition accept_outcome (r : accepted) (user_addr : option ip_and_port) : M net (option (Z * option (Z * Z))) :=
  match r with AcceptError e => mret (Some (e, None)) | Accepted c => x ← accept_finish c user_addr; mret (Some x) | AcceptWaits => mret None end.
Definition sys_accept (ufd : Z) (user_addr : option ip_and_port) : M net (option (Z * option (Z * Z))) :=
  f ← get_file ufd;
  if negb (f =? 0) then k ← gfd_to_sock f; r ← sock_accept k; accept_outcome r user_addr else mret (Some (- EBADF, None)).
(** Woken, with a signal pending or not. *)
Definition sys_accept_resume (signal : bool) (k : Z) (user_addr : option ip_and_port) : M net (option (Z * option (Z * Z))) :=
  r ← in_tcp (accept_round signal k); accept_outcome r user_addr.

Definition sys_bind (ufd : Z) (user_addr : sockaddr) (len : Z) : M net Z :=
  f ← get_file ufd;
  if negb (f =? 0) then
    k ← gfd_to_sock f;
    fam ← family_of k;
    ret ← (if len <? sf_addr_len fam + SOCKADDR_SIZE then mret (- EBADF)
           else if negb (sa_family user_addr =? sf_family fam) then mret (- EBADF)
           else r ← sock_bind k (sa_data user_addr); mret (answer r));
    put_file ufd;;
    mret ret
  else mret (- EBADF).

Definition sys_connect (ufd : Z) (user_addr : sockaddr) (len : Z) : M net (option Z) :=
  f ← get_file ufd;
  if negb (f =? 0) then
    k ← gfd_to_sock f;
    fam ← family_of k;
    ret ← (if sa_family user_addr =? AF_UNSPEC then r ← sock_connect k AddrUnspec; mret (answer <$> r)
           else if len <? sf_addr_len fam + SOCKADDR_SIZE then mret (Some (- EBADF))
           else if negb (sa_family user_addr =? sf_family fam) then mret (Some (- EBADF))
           else r ← sock_connect k (AddrInet (sa_data user_addr)); mret (answer <$> r));
    (match ret with Some _ => put_file ufd | None => mret tt end);;
    mret ret
  else mret (Some (- EBADF)).
Definition sys_connect_resume (ufd k : Z) : M net (option Z) :=
  r ← in_tcp (connect_finish k);
  match r with Some b => put_file ufd;; mret (Some (answer b)) | None => mret None end.

(** The answer is the [bool] itself. *)
Definition sys_shutdown (ufd how : Z) : M net Z :=
  f ← get_file ufd;
  if negb (f =? 0) then k ← gfd_to_sock f; r ← sock_shutdown k how; put_file ufd;; mret (if (r : bool) then 1 else 0) else mret (- EBADF).

Definition sys_send (ufd : Z) (buff : list Z) (buffsize : Z) : M net (option Z) :=
  f ← get_file ufd;
  if negb (f =? 0) then
    k ← gfd_to_sock f;
    r ← sock_send k buff buffsize;
    match r with Some n => put_file ufd;; mret (Some (s32 n)) | None => mret None end
  else mret (Some (- EBADF)).
Definition sys_send_resume (ufd k len : Z) : M net (option Z) :=
  r ← udp_send_resume k len;
  match r with Some n => put_file ufd;; mret (Some (s32 n)) | None => mret None end.

(** An error, or what was received. *)
Definition recv_outcome (ufd : Z) (r : received) : M net (Z + received) :=
  match r with RecvBlocks _ => mret (inr r) | RecvError => put_file ufd;; mret (inl (-1)) | Received _ => put_file ufd;; mret (inr r) end.
Definition sys_recv (ufd buffsize : Z) : M net (Z + received) :=
  f ← get_file ufd;
  if negb (f =? 0) then k ← gfd_to_sock f; r ← sock_recv k buffsize; recv_outcome ufd r else mret (inl (- EBADF)).
Definition sys_recv_resume (ufd k buffsize : Z) (got : list Z) : M net (Z + received) :=
  r ← in_tcp (recv_resume k buffsize got); recv_outcome ufd r.

(** The sockets of the files that were closed. *)
Fixpoint close_files (l : list Z) : M net unit :=
  match l with [] => mret tt | f :: l' => close_files l';; s ← get; (match n_file s !! f with Some _ => sock_close_fd f | None => mret tt end) end.
Definition sys_close (ufd : Z) : M net Z :=
  ret ← in_fd (Ufd.sys_close u ufd);
  s ← get;
  modify (fun s => set_n_fd (set_closed [] (n_fd s)) s);;
  close_files (closed (n_fd s));;
  mret ret.
End Sockets.

(** ** Making a socket *)

(** What [inet_init] leaves. *)
Definition initialised (s : net) : Prop :=
  family_lock s = false /\ (forall i, families s i = if i =? AF_INET then Some af_inet else None) /\
  (forall i, types s i = filter (fun p => proto_type (ipr_impl p) = i) builtin_protocols).

Lemma type_at_runs i s (Q : list inet_protocol -> net -> Prop) : 0 <= i < SOCK_MAX -> Q (types s i) s -> runs (type_at i) s Q.
Proof. intros Hi HQ. eapply runs_read; [|exact HQ]. by rewrite (proj2 (Z.leb_le _ _)), (proj2 (Z.ltb_lt _ _)) by lia. Qed.
Lemma family_at_runs i s (Q : option sock_family -> net -> Prop) : 0 <= i < AF_MAX -> Q (families s i) s -> runs (family_at i) s Q.
Proof. intros Hi HQ. eapply runs_read; [|exact HQ]. by rewrite (proj2 (Z.leb_le _ _)), (proj2 (Z.ltb_lt _ _)) by lia. Qed.

Lemma register_protocols_spec l : forall s (Q : unit -> net -> Prop), type_lock s = false ->
  (forall T, (forall i, T i = types s i ++ filter (fun p => proto_type (ipr_impl p) = i) l) -> Q tt (set_types T s)) -> runs (register_protocols l) s Q.
Proof.
  induction l as [|p l IH]; intros s Q Hl HQ; cbn [register_protocols].
  - mstep. specialize (HQ (types s)). destruct s. apply HQ. intros i. cbn. by rewrite app_nil_r.
  - mstep. unfold register_inet_protocol, with_types. apply runs_locked; [by rewrite Hl|]. mstep. apply type_at_runs; [by destruct p as [? []]|]. mstep.
    apply IH; [done|]. intros T HT. specialize (HQ T). destruct s. cbn in *. rewrite Hl in HQ. apply HQ. intros i. rewrite HT. set (ty := proto_type (ipr_impl p)). destruct (decide (ty = i)) as [<-|Hne].
    + rewrite fn_insert_eq. by rewrite <- app_assoc.
    + by rewrite fn_insert_ne by done.
Qed.

Lemma inet_init_spec s : type_lock s = false -> family_lock s = false -> (forall i, families s i = None) -> runs inet_init s (fun _ s' => initialised s').
Proof.
  intros H1 H2 H3. unfold inet_init. do 3 mstep. apply register_protocols_spec; [done|]. intros T HT. unfold register_sock_family, with_families. apply runs_locked; [cbn; by rewrite H2|].
  mstep. apply family_at_runs; [cbn; unfold AF_INET, AF_MAX; lia|]. cbn [families set_types set_family_lock]. rewrite H3. mstep. split; [done|]. split.
  - intros i. cbn. destruct (Z.eqb_spec i AF_INET) as [->|Hne]; [by rewrite fn_insert_eq|]. rewrite fn_insert_ne by done. apply H3.
  - intros i. cbn. by rewrite HT.
Qed.

(** Which protocol a type and a number stand for. *)
Definition protocol_for (type protocol : Z) : option sock_protocol :=
  if type =? SOCK_STREAM then if (protocol =? 0) || (protocol =? IP_PROT_TCP) then Some tcp_protocol else None
  else if type =? SOCK_DGRAM then if (protocol =? 0) || (protocol =? IP_PROT_UDP) then Some udp_protocol else if protocol =? IP_PROT_ICMP then Some icmp_protocol else None
  else if type =? SOCK_RAW then Some raw_protocol else None.

Lemma protocol_for_spec type protocol : 1 <= type <= 3 ->
  exists p l, filter (fun p => proto_type (ipr_impl p) = type) builtin_protocols = p :: l /\ find_entry protocol (p :: l) = protocol_for type protocol.
Proof.
  intros Hty. unfold protocol_for, SOCK_STREAM, SOCK_DGRAM, SOCK_RAW. assert (type = 1 \/ type = 2 \/ type = 3) as [-> | [-> | ->]] by lia; cbn [Z.eqb Pos.eqb].
  - exists (InetProtocol 6 tcp_protocol), []. split; [reflexivity|]. cbn -[Z.eqb]. unfold IPPROTO_RAW, IP_PROT_TCP. by destruct (Z.eqb_spec 6 protocol), (Z.eqb_spec protocol 6), (Z.eqb_spec protocol 0).
  - exists (InetProtocol 17 udp_protocol), [InetProtocol 1 icmp_protocol]. split; [reflexivity|]. cbn -[Z.eqb]. unfold IPPROTO_RAW, IP_PROT_UDP, IP_PROT_ICMP.
    by destruct (Z.eqb_spec 17 protocol), (Z.eqb_spec protocol 17), (Z.eqb_spec protocol 0), (Z.eqb_spec 1 protocol), (Z.eqb_spec protocol 1).
  - exists (InetProtocol 0 raw_protocol), []. split; [reflexivity|]. cbn -[Z.eqb]. unfold IPPROTO_RAW. by destruct (0 =? protocol).
Qed.
Lemma inet_find_spec junk s type protocol (Q : option sock_protocol -> net -> Prop) : (forall i, types s i = filter (fun p => proto_type (ipr_impl p) = i) builtin_protocols) -> 1 <= type <= 3 -> Q (protocol_for type protocol) s -> runs (inet_find junk type protocol) s Q.
Proof.
  intros Ht Hty HQ. unfold inet_find. mstep. apply type_at_runs; [unfold SOCK_MAX, SOCK_RAW; lia|].
  destruct (protocol_for_spec type protocol Hty) as (p & l & E & E'). rewrite Ht, E, E'. mstep. exact HQ.
Qed.

(** A fresh socket of a family and a protocol. *)
Definition made (f : sock_family) (p : sock_protocol) (k : Z) (s s' : net) : Prop :=
  family_lock s' = false /\ n_proto s' = <[k := (f, p)]> (n_proto s) /\ n_file s' = n_file s /\ n_fd s' = n_fd s /\ families s' = families s /\ types s' = types s /\
  n_tcp s' = set_fresh_sock (k + 1) (set_socks (<[k := Sock false IP_AND_PORT_NONE None 0 PNull]> (socks (n_tcp s))) (n_tcp s)).

Lemma sock_open_spec f p s (Q : Z -> net -> Prop) : family_lock s = false -> p <> udp_protocol -> (forall s', made f p (fresh_sock (n_tcp s)) s s' -> Q (fresh_sock (n_tcp s)) s') -> runs (sock_open f p) s Q.
Proof.
  intros Hl Hp HQ. unfold sock_open, with_families. apply runs_locked; [by rewrite Hl|]. mstep. unfold in_tcp. apply runs_lift. unfold tcp_open. do 4 mstep. mstep. mstep.
  assert (Hopen : forall s0 (R : unit -> net -> Prop), R tt s0 -> runs (proto_open p (fresh_sock (n_tcp s))) s0 R) by (intros s0 R HR; destruct p; try done; by mstep).
  mstep. mstep. apply Hopen. mstep. apply HQ. by repeat split.
Qed.

(** UDP's list of ports is indexed by the port itself: the first bind already reads behind its end. *)
Theorem udp_open_faults s k : udp_next s = EPHEMERAL_START -> udp_lock s = false -> is_Some (socks (n_tcp s) !! k) -> udp_open k s = Fault.
Proof.
  intros Hn Hl [x Hx]. unfold udp_open. apply faults_bind. unfold in_tcp. apply runs_lift. unfold upd_sock, sock_at. mstep. eapply runs_read; [exact Hx|]. mstep. apply faults_bind_l. unfold udp_bind_port, with_udp, locked.
  cbn [udp_lock set_n_tcp]. rewrite Hl. unfold mbind, M_bind, get at 1. cbn [udp_next set_udp_lock set_n_tcp]. rewrite Hn. done.
Qed.

(** *** A socket behind a descriptor *)

Section Fds.
Context (u : Z).

(** The kernel is initialised, the caller's table [t] is in balance, and what comes next is free. *)
Record net_ok (s : net) (t : Z -> ufd) (ext : Z -> Z) : Prop := NetOk {
  nk_init : initialised s;
  nk_fds : balanced (n_fd s) u t ext;
  nk_fresh : files (n_fd s) !! fresh (n_fd s) = None /\ fresh (n_fd s) <> 0 /\ ext (fresh (n_fd s)) = 0;
  nk_sock : 0 < fresh_sock (n_tcp s);
}.

(** Descriptor [fd] is socket [k] of protocol [p]. *)
Definition sock_fd (s : net) (t : Z -> ufd) (ext : Z -> Z) (fd k : Z) (p : sock_protocol) : Prop :=
  balanced (n_fd s) u t ext /\ in_table fd /\ u_gfd (t fd) <> 0 /\ n_file s !! u_gfd (t fd) = Some k /\ n_proto s !! k = Some (af_inet, p).

(** The lowest free descriptor, or none. *)
Definition lowest_free (t : Z -> ufd) (fd : Z) : Prop := in_table fd /\ present t fd = false /\ forall j, 0 <= j < fd -> present t j = true.

Lemma gfdt_obtain_spec s t ext (Q : Z -> fdtab -> Prop) : balanced s u t ext -> files s !! fresh s = None -> fresh s <> 0 -> ext (fresh s) = 0 ->
  (forall s', balanced s' u t ext -> files s' !! fresh s = Some 0 -> Q (fresh s) s') -> runs gfdt_obtain s Q.
Proof.
  intros (Hl & Hc & Hr) Hf H0 He HQ. unfold gfdt_obtain, with_gfdt, new_address, set_file_refs. mstep. apply runs_locked; [by rewrite Hl|]. msteps. apply HQ.
  - split; [done|]. split; [exact Hc|]. by apply refs_register.
  - apply lookup_insert_eq.
Qed.

Lemma sock_create_fd_spec s t ext k (Q : Z -> net -> Prop) : balanced (n_fd s) u t ext -> files (n_fd s) !! fresh (n_fd s) = None -> fresh (n_fd s) <> 0 -> ext (fresh (n_fd s)) = 0 ->
  (forall F, balanced F u t ext -> files F !! fresh (n_fd s) = Some 0 -> Q (fresh (n_fd s)) (set_n_file (<[fresh (n_fd s) := k]> (n_file s)) (set_n_fd F s))) -> runs (sock_create_fd k) s Q.
Proof.
  intros Hb H1 H2 H3 HQ. unfold sock_create_fd, in_fd. mstep. apply runs_lift. eapply gfdt_obtain_spec; [done..|]. intros F HF E. do 2 mstep. mstep. by apply HQ.
Qed.

(** What [sys_socket] does with a socket that was made. *)
Lemma fd_for_spec s t ext k p (Q : Z -> net -> Prop) : balanced (n_fd s) u t ext -> files (n_fd s) !! fresh (n_fd s) = None -> fresh (n_fd s) <> 0 -> ext (fresh (n_fd s)) = 0 ->
  n_proto s !! k = Some (af_inet, p) ->
  (forall fd s', (lowest_free t fd /\ sock_fd s' (<[fd := UfdEntry 0 (fresh (n_fd s))]> t) ext fd k p) \/ (fd = -1 /\ (forall j, in_table j -> present t j = true) /\ balanced (n_fd s') u t ext) ->
     (exists F N, s' = set_n_file N (set_n_fd F s)) -> Q fd s') ->
  runs (f ← sock_create_fd k; ret ← in_fd (ufdt_add u f); mret (s32 ret)) s Q.
Proof.
  intros Hb H1 H2 H3 Hp HQ. mstep. eapply sock_create_fd_spec; [done..|]. intros F HF E. mstep. unfold in_fd. apply runs_lift. eapply runs_mono; [by eapply ufdt_add_spec|].
  intros fd F' HF'. mstep. apply HQ; [|by do 2 eexists]. destruct HF' as [(-> & Hall & Hb' & _)|(Hin & Hfree & Hlow & Hb' & _)]; [by right|]. left. pose proof Hin as Hin'. unfold in_table in Hin'. change MAX_NUM_FDS with 512 in Hin'. rewrite swrap_small by lia.
  split; [done|]. split; [exact Hb'|]. split; [done|]. rewrite fn_insert_eq. cbn. split; [done|]. split; [apply lookup_insert_eq|exact Hp].
Qed.

Lemma sock_create_spec junk s type protocol (Q : Z -> net -> Prop) : initialised s -> 1 <= type <= 3 ->
  (match protocol_for type protocol with
   | None => Q 0 s
   | Some p => p <> udp_protocol /\ forall s', made af_inet p (fresh_sock (n_tcp s)) s s' -> Q (fresh_sock (n_tcp s)) s'
   end) -> runs (sock_create junk AF_INET type protocol) s Q.
Proof.
  intros Hi Hty HQ. pose proof Hi as (Hl & Hf & Ht). unfold sock_create. do 2 mstep. rewrite Hl. do 2 mstep. mstep. apply family_at_runs; [unfold AF_INET, AF_MAX; lia|]. cbn [families set_family_lock]. rewrite Hf, Z.eqb_refl.
  mstep. apply inet_find_spec; [done..|]. do 2 mstep. destruct (protocol_for type protocol) as [p|]; [|mstep; destruct s; cbn in Hl; by subst].
  destruct HQ as [Hp HQ]. apply sock_open_spec; [done..|]. intros s' Hs. apply HQ. exact Hs.
Qed.

(** A new socket. *)
Lemma sys_socket_spec junk s t ext type protocol p (Q : Z -> net -> Prop) : net_ok s t ext -> 1 <= type <= 3 -> protocol_for type protocol = Some p -> p <> udp_protocol ->
  (let k := fresh_sock (n_tcp s) in forall fd s',
     ((lowest_free t fd /\ exists f, u_gfd f <> 0 /\ sock_fd s' (<[fd := f]> t) ext fd k p) \/ (fd = -1 /\ (forall j, in_table j -> present t j = true) /\ balanced (n_fd s') u t ext)) ->
     n_tcp s' = set_fresh_sock (k + 1) (set_socks (<[k := Sock false IP_AND_PORT_NONE None 0 PNull]> (socks (n_tcp s))) (n_tcp s)) -> initialised s' -> Q fd s') ->
  runs (sys_socket junk u AF_INET type protocol) s Q.
Proof.
  intros [Hi Hb (F1 & F2 & F3) Hk] Hty Hp Hn HQ. unfold sys_socket. mstep. apply sock_create_spec; [done..|]. rewrite Hp. split; [done|].
  intros s1 (L1 & P1 & N1 & D1 & E1 & T1 & C1). destruct (Z.eqb_spec (fresh_sock (n_tcp s)) 0); [lia|]. apply (fd_for_spec s1 t ext _ p); try rewrite D1; try done; [by rewrite P1, lookup_insert_eq|].
  intros fd s2 Hfd (F & N & Es2). apply HQ.
  - destruct Hfd as [[Hlow Hfd]|Hfd]; [left|by right]. split; [done|]. by exists (UfdEntry 0 (fresh (n_fd s))).
  - by rewrite Es2.
  - subst s2. destruct Hi as (_ & Hf & Ht). split; [done|]. split; cbn; [by rewrite E1|by rewrite T1].
Qed.

Lemma sys_socket_none junk s type protocol : initialised s -> 1 <= type <= 3 -> protocol_for type protocol = None -> runs (sys_socket junk u AF_INET type protocol) s (fun r s' => r = - EBADF /\ s' = s).
Proof. intros Hi Hty Hp. unfold sys_socket. mstep. apply sock_create_spec; [done..|]. rewrite Hp. cbn [Z.eqb]. by mstep. Qed.

Lemma sys_socket_udp junk s type protocol : initialised s -> 1 <= type <= 3 -> protocol_for type protocol = Some udp_protocol -> udp_next s = EPHEMERAL_START -> udp_lock s = false ->
  sys_socket junk u AF_INET type protocol s = Fault.
Proof.
  intros Hi Hty Hp Hn Hu. pose proof Hi as (Hl & Hf & Ht). unfold sys_socket. apply faults_bind_l. unfold sock_create. apply faults_bind. mstep. rewrite Hl. apply faults_bind. mstep. apply faults_bind.
  apply family_at_runs; [unfold AF_INET, AF_MAX; lia|]. cbn [families set_family_lock]. rewrite Hf, Z.eqb_refl. apply faults_bind. apply inet_find_spec; [done..|]. rewrite Hp. apply faults_bind. mstep.
  unfold sock_open, with_families, locked. cbn [family_lock set_family_lock]. match goal with |- match ?m _ with _ => _ end = _ => assert (Em : forall s0, udp_next s0 = EPHEMERAL_START -> udp_lock s0 = false -> m s0 = Fault) end; [|by rewrite Em].
  intros s0 H1 H2. apply faults_bind. unfold in_tcp. apply runs_lift. unfold tcp_open. do 4 mstep. mstep. apply faults_bind. mstep. apply faults_bind_l. apply udp_open_faults; [done..|]. cbn. by rewrite lookup_insert_eq.
Qed.

(** An address family that is not there. *)
Lemma sys_socket_family junk s family type protocol : initialised s -> 0 <= family < AF_MAX -> family <> AF_INET ->
  runs (sys_socket junk u family type protocol) s (fun r s' => r = - EBADF /\ forall f ty pr, sys_socket junk u f ty pr s' = NoFuel).
Proof.
  intros (Hl & Hf & Ht) Hr Hne. unfold sys_socket at 1, sock_create at 1. do 3 mstep. rewrite Hl. do 2 mstep. mstep. apply family_at_runs; [done|]. cbn [families set_family_lock]. rewrite Hf. destruct (Z.eqb_spec family AF_INET); [done|].
  mstep. cbn [Z.eqb]. mstep. split; [done|]. intros f ty pr. reflexivity.
Qed.

(** ** Calls on a descriptor *)

Lemma get_file_spec s t ext fd k p (Q : Z -> net -> Prop) : sock_fd s t ext fd k p -> (forall F, sock_fd (set_n_fd F s) t ext fd k p -> Q (u_gfd (t fd)) (set_n_fd F s)) -> runs (get_file u fd) s Q.
Proof.
  intros (Hb & Hin & Hne & Hf & Hp) HQ. unfold get_file, in_fd. apply runs_lift. eapply runs_mono; [apply ufdt_get_spec; [exact Hb|apply Hin]|]. intros f F (HF & _ & _ & ->).
  rewrite (proj2 (present_true t fd (proj1 Hin))) by done. apply HQ. by split.
Qed.
Lemma put_file_spec s t ext fd k p (Q : unit -> net -> Prop) : sock_fd s t ext fd k p -> (forall F, sock_fd (set_n_fd F s) t ext fd k p -> Q tt (set_n_fd F s)) -> runs (put_file u fd) s Q.
Proof.
  intros (Hb & Hin & Hne & Hf & Hp) HQ. unfold put_file, in_fd, ufdt_put. apply runs_lift. eapply runs_ufds; [exact Hb|]. intros n F HF Ef El _. mstep. apply HQ.
  split; [|done]. eapply balanced_unlock; [exact HF|done|]. rewrite Ef. apply Hb.
Qed.

Lemma gfd_to_sock_spec s t ext fd k p (Q : Z -> net -> Prop) : sock_fd s t ext fd k p -> Q k s -> runs (gfd_to_sock (u_gfd (t fd))) s Q.
Proof. intros (_ & _ & _ & Hf & _) HQ. unfold gfd_to_sock. by eapply runs_read. Qed.
Lemma proto_of_spec s t ext fd k p (Q : sock_protocol -> net -> Prop) : sock_fd s t ext fd k p -> Q p s -> runs (proto_of k) s Q.
Proof. intros (_ & _ & _ & _ & Hp) HQ. unfold proto_of. mstep. by rewrite Hp. Qed.
Lemma family_of_spec s t ext fd k p (Q : sock_family -> net -> Prop) : sock_fd s t ext fd k p -> Q af_inet s -> runs (family_of k) s Q.
Proof. intros (_ & _ & _ & _ & Hp) HQ. unfold family_of. mstep. by rewrite Hp. Qed.
Lemma flags_of_spec s k x (Q : Z -> net -> Prop) : socks (n_tcp s) !! k = Some x -> Q (sock_flags x) s -> runs (flags_of k) s Q.
Proof. intros Hk HQ. unfold flags_of, in_tcp. mstep. apply runs_lift. unfold sock_at. eapply runs_read; [exact Hk|]. mstep. by destruct s. Qed.

(** What is in front of every call on a socket's descriptor. *)
Lemma with_sock_spec {A} s t ext fd k p (m : Z -> M net A) (e : M net A) (Q : A -> net -> Prop) : sock_fd s t ext fd k p ->
  (forall F, sock_fd (set_n_fd F s) t ext fd k p -> runs (m k) (set_n_fd F s) Q) ->
  runs (f ← get_file u fd; if negb (f =? 0) then k ← gfd_to_sock f; m k else e) s Q.
Proof.
  intros Hfd HQ. mstep. eapply get_file_spec; [exact Hfd|]. intros F HF. destruct (Z.eqb_spec (u_gfd (t fd)) 0); [by destruct HF as (_ & _ & ? & _)|]. cbn [negb]. mstep. eapply gfd_to_sock_spec; [exact HF|]. by apply HQ.
Qed.

(** *** The calls of a client *)

Context (my_ip : ip) (Hmy : ip_ok my_ip) (junk_buff : Z -> Z).

Lemma sys_connect_spec s t ext fd k addr len i l (Q : option Z -> net -> Prop) : sock_fd s t ext fd k tcp_protocol -> socks (n_tcp s) !! k = Some (Sock false IP_AND_PORT_NONE None 0 PNull) ->
  free_ports (n_tcp s) (i :: l) -> ip_ok (ap_ip addr) -> is_word (ap_port addr) -> sf_addr_len af_inet + SOCKADDR_SIZE <= len ->
  (forall s' d, sock_fd s' t ext fd k tcp_protocol -> dialled (n_tcp s') k addr i 0 d -> syn_sent d -> Q None s') ->
  runs (sys_connect my_ip junk_buff u fd (Sockaddr AF_INET addr) len) s Q.
Proof.
  intros Hfd Hk Hfree Hip Hpt Hlen HQ. unfold sys_connect. eapply with_sock_spec; [exact Hfd|]. intros F HF. mstep. eapply family_of_spec; [exact HF|]. cbn [sa_family sa_data]. change (AF_INET =? AF_UNSPEC) with false. change (AF_INET =? sf_family af_inet) with true. cbn [negb].
  destruct (Z.ltb_spec len (sf_addr_len af_inet + SOCKADDR_SIZE)); [lia|]. unfold sock_connect. do 3 mstep. eapply proto_of_spec; [exact HF|]. mstep. eapply flags_of_spec; [exact Hk|]. cbn [sock_flags]. change (has 0 SOCK_FLAG_CONNECTED) with false. rewrite andb_false_r.
  mstep. unfold in_tcp. apply runs_lift. eapply connect_start_spec; [exact Hmy|exact Hk|exact Hfree|exact Hip|exact Hpt|]. intros T d Hd Hs. do 2 mstep. mstep. cbn [fmap option_fmap option_map]. do 2 mstep. by apply (HQ _ d).
Qed.

Lemma sys_connect_resume_spec s t ext fd k addr i d base stream (Q : option Z -> net -> Prop) : sock_fd s t ext fd k tcp_protocol -> dialled (n_tcp s) k addr i SOCK_FLAG_CONNECTED d -> answered d base ->
  0 <= base < 2 ^ 32 -> ip_ok (ap_ip addr) -> is_word (ap_port addr) ->
  (forall s' d', let x := Sock true addr (Some (IpAndPort (port_of i) IP_NONE)) SOCK_FLAG_CONNECTED (PConn d') in
     sock_fd s' t ext fd k tcp_protocol -> dialled (n_tcp s') k addr i SOCK_FLAG_CONNECTED d' -> delivering stream base (n_tcp s') k 0 0 x d' -> Q (Some 0) s') ->
  runs (sys_connect_resume u fd k) s Q.
Proof.
  intros Hfd Hd Ha Hb Hip Hpt HQ. unfold sys_connect_resume, in_tcp. mstep. apply runs_lift. eapply (connect_finish_spec _ _ _ _ _ _ stream); [exact Hd|exact Ha|exact Hb|exact Hip|exact Hpt|]. intros T d' Hd' Hdl.
  mstep. eapply put_file_spec; [exact Hfd|]. intros F HF. mstep. by eapply HQ.
Qed.

Lemma sys_recv_spec stream base s t ext fd k n c x d len (Q : Z + received -> net -> Prop) : sock_fd s t ext fd k tcp_protocol -> delivering stream base (n_tcp s) k n c x d -> has (sock_flags x) SOCK_FLAG_CONNECTED = true -> 0 <= len ->
  (forall s' d', sock_fd s' t ext fd k tcp_protocol -> delivering stream base (n_tcp s') k n (c + Z.min len (n - c)) (set_private (PConn d') x) d' ->
     Q (inr (if Z.min len (n - c) =? len then Received (stream <$> seqZ c len) else RecvBlocks (stream <$> seqZ c (n - c)))) s') ->
  runs (sys_recv u fd len) s Q.
Proof.
  intros Hfd Hd Hfl Hlen HQ. unfold sys_recv. eapply with_sock_spec; [exact Hfd|]. intros F HF. mstep. unfold sock_recv. mstep. eapply flags_of_spec; [apply Hd|]. rewrite Hfl. mstep. eapply proto_of_spec; [exact HF|].
  unfold in_tcp. apply runs_lift. eapply tcp_recv_spec; [exact Hd|exact Hlen|]. intros T d' Hd' _. destruct (Z.min len (n - c) =? len); cbn [recv_outcome].
  - mstep. eapply put_file_spec; [exact HF|]. intros F' HF'. mstep. by apply (HQ _ d').
  - mstep. by apply (HQ _ d').
Qed.
End Fds.

(** ** Theorems *)

(** A client: a socket, a connection, the peer's answer, packets, a read.  [k] is the socket that [sys_connect] waits with. *)
Definition client (my_ip : ip) (junk_buff : Z -> Z) (junk_bool : bool) (u : Z) (protocol : Z) (addr : ip_and_port) (answer : arrival) (l : list arrival) (len : Z) : M net (Z * option Z * option Z * (Z + received)) :=
  s ← get;
  fd ← sys_socket junk_bool u AF_INET SOCK_STREAM protocol;
  w ← sys_connect my_ip junk_buff u fd (Sockaddr AF_INET addr) 10;
  in_tcp (let '(h, t, raw) := answer in tcp_handle my_ip junk_buff h t raw);;
  r ← sys_connect_resume u fd (fresh_sock (n_tcp s));
  in_tcp (handle_all my_ip junk_buff l);;
  got ← sys_recv u fd len;
  mret (fd, w, r, got).

(** C24: a TCP client, from [sys_socket] to [sys_recv].  In an initialised kernel with a free descriptor and a free ephemeral port, for a peer's
    address [addr]: [sys_socket] answers the lowest free descriptor; [sys_connect] on it sends a SYN from the port handed out first and waits; the peer's SYN-ACK,
    coming to that port, lets it answer 0; then any number of packets of the peer's stream, in any order and repeated, are handled; and [sys_recv] of
    [len] bytes gives exactly the first [len] bytes of the stream when they have arrived in order, and otherwise waits with exactly those that have.  The stream
    starts one after the SYN-ACK's sequence number and payload.  Asked of the peer ([segment_ok]): the packets that come carry neither FIN nor RST, their bytes are the stream's
    and lie in its first 4096, which do not wrap around the sequence numbers; with more the code runs past the receive buffer (tcp.c:374).  Nothing faults or hangs, and the descriptor is still the socket's. *)
Theorem tcp_connection_correct my_ip stream junk_buff junk_bool u s t ext protocol addr i ports a l len :
  ip_ok my_ip -> net_ok u s t ext -> (exists fd, lowest_free t fd) -> free_ports (n_tcp s) (i :: ports) -> ip_ok (ap_ip addr) -> is_word (ap_port addr) ->
  protocol = 0 \/ protocol = IP_PROT_TCP -> 0 <= len ->
  comes_from addr i a -> fl (sg_hdr (segment_of a)) TCP_FLAG_SYN = true -> fl (sg_hdr (segment_of a)) TCP_FLAG_ACK = true ->
  let base := u32 (seq_of (segment_of a) + sg_len (segment_of a) + 1) in base + PAGE_SIZE < 2 ^ 32 ->
  Forall (fun b => comes_from addr i b /\ segment_ok stream base (segment_of b)) l ->
  runs (client my_ip junk_buff junk_bool u protocol addr a l len) s (fun '(fd, w, r, got) s' =>
    let n := foldl (absorb base) 0 (segment_of <$> l) in
    lowest_free t fd /\ w = None /\ r = Some 0 /\ got = inr (if len <=? n then Received (stream <$> seqZ 0 len) else RecvBlocks (stream <$> seqZ 0 n)) /\
    exists f, sock_fd u s' (<[fd := f]> t) ext fd (fresh_sock (n_tcp s)) tcp_protocol).
Proof.
  intros Hmy Hok [fd0 Hfree] Hports Hip Hpt Hpr Hlen Hfrom Hsyn Hack base Hbase Hl. set (k := fresh_sock (n_tcp s)). pose proof (nk_sock _ _ _ _ Hok) as Hk. assert (Hb : 0 <= base < 2 ^ 32) by (apply uwrap_range; lia).
  unfold client. do 3 mstep. eapply (sys_socket_spec u _ s t ext _ _ tcp_protocol); [exact Hok|done|by destruct Hpr as [->| ->]|done|]. cbv zeta. fold k. intros fd s1 Hfd E1 _.
  destruct Hfd as [(Hlow & f & _ & Hfd)|(_ & Hall & _)]. 2: { destruct Hfree as (Hin & Hf & _). by rewrite Hall in Hf. }
  mstep. eapply sys_connect_spec; [exact Hmy|exact Hfd|rewrite E1; apply lookup_insert_eq|rewrite E1; exact Hports|exact Hip|exact Hpt|done|]. intros s2 d2 F2 D2 S2.
  mstep. unfold in_tcp at 1. apply runs_lift. eapply (tcp_handle_answer my_ip Hmy junk_buff _ k); [exact D2|exact S2|subst k; lia|exact Hip|exact Hpt|exact Hfrom|done|]. intros T3 d3 D3 A3.
  mstep. eapply (sys_connect_resume_spec u _ _ _ _ k _ _ _ _ stream); [exact F2|exact D3|exact A3|exact Hb|exact Hip|exact Hpt|]. intros s4 d4 x F4 D4 Del4.
  destruct D4 as (_ & P4 & L4 & Hi). mstep. unfold in_tcp at 1. apply runs_lift. eapply (handle_all_spec my_ip Hmy stream base junk_buff k x _ _ 0 0 d4); [exact Del4|subst k; lia|done|exact L4| |exact Hbase|].
  { eapply Forall_impl; [exact Hl|]. intros [[h th] raw] [(C1 & C2 & C3) Hseg]. split; [|exact Hseg]. split; [|by split; [|split; [|eexists]]]. rewrite C1. unfold port_of. rewrite swap_uint16_involutive; [exact P4|]. unfold EPHEMERAL_NUM, EPHEMERAL_START, EPHEMERAL_END in *. lia. }
  intros T5 d5 Del5 _. set (n := foldl _ _ _) in *. assert (Hn : 0 <= n). { apply (absorb_mono stream base). apply Forall_fmap. eapply Forall_impl; [exact Hl|]. by intros ? []. }
  mstep. eapply (sys_recv_spec u stream base _ _ _ _ k n 0); [exact F4|exact Del5|done|exact Hlen|]. intros s6 d6 F6 _. mstep. split_and!; [exact Hlow|done|done| |by exists f].
  replace (Z.min len (n - 0) =? len) with (len <=? n) by (destruct (Z.eqb_spec (Z.min len (n - 0)) len), (Z.leb_spec len n); lia). by rewrite Z.sub_0_r.
Qed.

(** C25: what [sys_socket] makes.  In an initialised kernel, for the Internet family and a type from 1 to 3: for a stream or a raw socket, or an ICMP one, of a
    protocol number that stands for it, a fresh unconnected socket of that protocol is made and the lowest free descriptor is its (with no free descriptor, -1 is answered, and the
    socket stays); for a number that stands for none, [-EBADF] is answered and nothing changes; and for UDP the call faults, since the table of its free ports is indexed by the
    port itself.  For a family there is no code for, [-EBADF] is answered, but the lock on the families is never released: every later [sys_socket] hangs. *)
Theorem sys_socket_correct junk u s t ext type protocol : net_ok u s t ext -> 1 <= type <= 3 ->
  (match protocol_for type protocol with
   | None => runs (sys_socket junk u AF_INET type protocol) s (fun r s' => r = - EBADF /\ s' = s)
   | Some udp_protocol => udp_next s = EPHEMERAL_START -> udp_lock s = false -> sys_socket junk u AF_INET type protocol s = Fault
   | Some p => runs (sys_socket junk u AF_INET type protocol) s (fun fd s' =>
       let k := fresh_sock (n_tcp s) in
       initialised s' /\ socks (n_tcp s') = <[k := Sock false IP_AND_PORT_NONE None 0 PNull]> (socks (n_tcp s)) /\
       ((lowest_free t fd /\ exists f, sock_fd u s' (<[fd := f]> t) ext fd k p) \/ (fd = -1 /\ (forall j, in_table j -> present t j = true) /\ balanced (n_fd s') u t ext)))
   end) /\
  forall family, 0 <= family < AF_MAX -> family <> AF_INET ->
    runs (sys_socket junk u family type protocol) s (fun r s' => r = - EBADF /\ forall f ty pr, sys_socket junk u f ty pr s' = NoFuel).
Proof.
  intros Hok Hty. split; [|intros family; apply sys_socket_family, Hok].
  assert (Hgood : forall p, p <> udp_protocol -> protocol_for type protocol = Some p -> runs (sys_socket junk u AF_INET type protocol) s (fun fd s' =>
       let k := fresh_sock (n_tcp s) in
       initialised s' /\ socks (n_tcp s') = <[k := Sock false IP_AND_PORT_NONE None 0 PNull]> (socks (n_tcp s)) /\
       ((lowest_free t fd /\ exists f, sock_fd u s' (<[fd := f]> t) ext fd k p) \/ (fd = -1 /\ (forall j, in_table j -> present t j = true) /\ balanced (n_fd s') u t ext)))).
  { intros p Hp Hpr. eapply sys_socket_spec; [exact Hok|exact Hty|exact Hpr|exact Hp|]. intros k fd s' Hfd E Hi. split; [exact Hi|]. split; [by rewrite E|]. destruct Hfd as [(? & f & _ & ?)|?]; [left; split; [done|by exists f]|by right]. }
  destruct (protocol_for type protocol) as [[]|] eqn:E; [by apply Hgood| |by apply Hgood..|].
  - intros H1 H2. apply sys_socket_udp; [apply Hok|done..].
  - apply sys_socket_none; [apply Hok|done..].
Qed.

(** Only TCP can bind: the call is to a null pointer for any other socket. *)
Theorem sys_bind_null u s t ext fd k p x a len : sock_fd u s t ext fd k p -> p <> tcp_protocol -> socks (n_tcp s) !! k = Some x -> sock_flags x = 0 -> sf_addr_len af_inet + SOCKADDR_SIZE <= len ->
  sys_bind u fd (Sockaddr AF_INET a) len s = Fault.
Proof.
  intros Hfd Hp Hk Hfl Hlen. unfold sys_bind. apply faults_bind. eapply get_file_spec; [exact Hfd|]. intros F HF. destruct (Z.eqb_spec (u_gfd (t fd)) 0); [by destruct HF as (_ & _ & ? & _)|]. cbn [negb]. apply faults_bind. eapply gfd_to_sock_spec; [exact HF|].
  apply faults_bind. eapply family_of_spec; [exact HF|]. apply faults_bind_l. cbn [sa_family sa_data]. change (negb (AF_INET =? sf_family af_inet)) with false. destruct (Z.ltb_spec len (sf_addr_len af_inet + SOCKADDR_SIZE)); [lia|].
  apply faults_bind_l. unfold sock_bind. apply faults_bind. eapply flags_of_spec; [exact Hk|]. rewrite Hfl. change (Z.land 0 SOCK_FLAG_SHUT_RDWR =? SOCK_FLAG_SHUT_RDWR) with false. unfold has. cbn [Z.land Z.eqb negb].
  apply faults_bind. eapply proto_of_spec; [exact HF|]. by destruct p.
Qed.

(** A datagram socket can be connected, but never gets the flag [sock_send] asks for: what is sent is refused. *)
Theorem udp_send_refused my_ip junk_buff u s t ext fd k x addr len buff n : sock_fd u s t ext fd k udp_protocol -> socks (n_tcp s) !! k = Some x -> has (sock_flags x) SOCK_FLAG_CONNECTED = false -> sf_addr_len af_inet + SOCKADDR_SIZE <= len ->
  runs (sys_connect my_ip junk_buff u fd (Sockaddr AF_INET addr) len) s (fun r s' => r = Some 0 /\ runs (sys_send my_ip u fd buff n) s' (fun r' _ => r' = Some (-1))).
Proof.
  intros Hfd Hk Hfl Hlen. unfold sys_connect. eapply with_sock_spec; [exact Hfd|]. intros F HF. mstep. eapply family_of_spec; [exact HF|]. cbn [sa_family sa_data]. change (AF_INET =? AF_UNSPEC) with false. change (AF_INET =? sf_family af_inet) with true. cbn [negb].
  destruct (Z.ltb_spec len (sf_addr_len af_inet + SOCKADDR_SIZE)); [lia|]. unfold sock_connect. do 3 mstep. eapply proto_of_spec; [exact HF|]. mstep. eapply flags_of_spec; [exact Hk|]. rewrite Hfl, andb_false_r. cbn [udp_connect]. mstep. mstep.
  unfold in_tcp. apply runs_lift. eapply upd_sock_spec; [exact Hk|]. intros T KT _. do 3 mstep. cbn [fmap option_fmap option_map answer]. mstep. eapply put_file_spec; [exact HF|]. intros F' HF'. mstep. split; [done|].
  unfold sys_send. eapply with_sock_spec; [exact HF'|]. intros F2 HF2. mstep. unfold sock_send. mstep. eapply flags_of_spec; [exact KT|]. cbn [sock_flags set_peer_addr set_peer_inet]. rewrite Hfl. mstep. mstep. eapply put_file_spec; [exact HF2|]. intros F3 HF3. by mstep.
Qed.

(** *** A kernel with a table of two descriptors *)

Definition net_tcp0 : tcp := Tcp ∅ (fun _ => 0) (fun i => if i =? 0 then 1 else FREELIST_END) (fun _ => 0) 0 false 0 [] [] 1.
Definition net0 : net :=
  NetState net_tcp0 fds ∅ ∅ ∅ (fun i => if i =? AF_INET then Some af_inet else None) false (fun i => filter (fun p => proto_type (ipr_impl p) = i) builtin_protocols) false (fun i => i + 1) EPHEMERAL_START false.

Lemma net0_ok : net_ok 40 net0 two_fds (fun _ => 0).
Proof. split; [done|exact fds_balanced|done|done]. Qed.
Lemma net0_free : lowest_free two_fds 0.
Proof. split; [done|]. split; [done|]. intros j. lia. Qed.

(** The answer of the peer of [arrival0]. *)
Definition answer0 : arrival :=
  (IpHeader 0x45 0 (swap_uint16 40) 0 0 64 IP_PROT_TCP 0 ip_b ip_a,
   TcpHeader (swap_uint16 80) (swap_uint16 49152) (swap_uint32 999) 0 (Z.lor 0x50 (Z.lor TCP_FLAG_SYN TCP_FLAG_ACK)) 14600 0 0, []).
Definition peer0 : ip_and_port := IpAndPort (swap_uint16 80) ip_b.

Lemma arrival0_from j n : comes_from peer0 0 (arrival0 j n).
Proof. split; [reflexivity|]. split; reflexivity. Qed.

Lemma answer0_from : comes_from peer0 0 answer0.
Proof. split; [reflexivity|]. split; reflexivity. Qed.
Lemma answer0_base : u32 (seq_of (segment_of answer0) + sg_len (segment_of answer0) + 1) = 1000.
Proof. vm_compute. reflexivity. Qed.
Lemma arrivals0_all : foldl (absorb 1000) 0 (segment_of <$> arrivals0) = 5.
Proof. vm_compute. reflexivity. Qed.
Lemma arrivals0_ok : Forall (fun b => comes_from peer0 0 b /\ segment_ok stream0 1000 (segment_of b)) arrivals0.
Proof. unfold arrivals0. repeat (apply Forall_cons; split; [split; [apply arrival0_from|apply arrival0_ok; unfold PAGE_SIZE; lia]|]). apply Forall_nil. exact I. Qed.
Lemma net0_ports : free_ports (n_tcp net0) [0; 1].
Proof. split; [done|]. split; [by apply (bool_decide_unpack _)|done]. Qed.

Lemma tcp_connection_correct_witness :
  runs (client ip_a (fun _ => 0) false 40 0 peer0 answer0 arrivals0 4) net0 (fun r _ => r = (0, None, Some 0, inr (Received [65; 66; 67; 68]))).
Proof.
  pose proof (tcp_connection_correct ip_a stream0 (fun _ => 0) false 40 net0 two_fds (fun _ => 0) 0 peer0 0 [1] answer0 arrivals0 4 ip_a_ok net0_ok (ex_intro _ 0 net0_free) net0_ports ip_b_ok) as H.
  cbv zeta in H. rewrite answer0_base, arrivals0_all in H.
  specialize (H (swap_uint16_word _) (or_introl eq_refl) ltac:(lia) answer0_from eq_refl eq_refl ltac:(unfold PAGE_SIZE; lia) arrivals0_ok). eapply runs_mono; [exact H|].
  - intros [[[fd w] r] got] s' (Hl & -> & -> & -> & _). assert (fd = 0) as ->.
    { destruct Hl as ((Hfd & _) & _ & Hl). destruct (decide (fd = 0)) as [->|]; [exact eq_refl|]. discriminate (Hl 0 ltac:(lia)). }
    vm_compute. exact eq_refl.
Defined.

Lemma sys_socket_correct_witness :
  runs (sys_socket false 40 AF_INET SOCK_DGRAM IP_PROT_ICMP) net0 (fun fd s' => fd = 0 /\ n_proto s' !! 1 = Some (af_inet, icmp_protocol)) /\
  sys_socket false 40 AF_INET SOCK_DGRAM 0 net0 = Fault /\ runs (sys_socket false 40 AF_INET SOCK_STREAM 99) net0 (fun r s' => r = - EBADF).
Proof.
  assert (E1 : protocol_for SOCK_DGRAM IP_PROT_ICMP = Some icmp_protocol) by (vm_compute; exact eq_refl). assert (E2 : protocol_for SOCK_DGRAM 0 = Some udp_protocol) by (vm_compute; exact eq_refl).
  assert (E3 : protocol_for SOCK_STREAM 99 = None) by (vm_compute; exact eq_refl). pose proof (fun ty pr H => proj1 (sys_socket_correct false 40 net0 two_fds (fun _ => 0) ty pr net0_ok H)) as H. split; [|split].
  - specialize (H SOCK_DGRAM IP_PROT_ICMP ltac:(unfold SOCK_DGRAM; lia)). rewrite E1 in H. cbv iota in H. eapply runs_mono; [exact H|]. intros fd s' (_ & _ & [(Hl & f & Hfd)|(_ & Hall & _)]).
    + split; [|apply Hfd]. destruct Hl as ((Hfd0 & _) & _ & Hl). destruct (decide (fd = 0)) as [->|]; [exact eq_refl|]. discriminate (Hl 0 ltac:(lia)).
    + discriminate (Hall 0 (proj1 net0_free)).
  - specialize (H SOCK_DGRAM 0 ltac:(unfold SOCK_DGRAM; lia)). rewrite E2 in H. exact (H eq_refl eq_refl).
  - specialize (H SOCK_STREAM 99 ltac:(unfold SOCK_STREAM; lia)). rewrite E3 in H. cbv iota in H. eapply runs_mono; [exact H|]. intros r s' [-> _]. exact eq_refl.
Defined.

(** [accept] on a socket that does not listen gives a second descriptor, of no socket; asked for the peer's address as well, it reads through the null pointer. *)
Example sys_accept_null :
  runs (fd ← sys_socket false 40 AF_INET SOCK_STREAM 0; r ← sys_accept 40 fd None; s ← get; mret (r, n_file s !! 1001)) net0 (fun x _ => x = (Some (1, None), Some 0)) /\
  (fd ← sys_socket false 40 AF_INET SOCK_STREAM 0; sys_accept 40 fd (Some peer0)) net0 = Fault.
Proof. split; vm_compute; reflexivity. Qed.
