(* ===== verification/Fs.v ===== *)
(** * Fs: the virtual file system, ramfs and devfs

    Models kernel/src/fs/vfs.c, kernel/src/fs/type/ramfs.c, kernel/src/fs/type/devfs.c (with
    kernel/inc/fs/vfs.h and kernel/inc/fs/type/devfs.h).  Structures are records in finite maps keyed
    by address, 0 is [NULL].  The tables of operations are the constructors of [inode_ops] and
    [file_ops], and a call through them is a match.  A string is the list of its characters,
    without the terminator.  A dentry's children are added at the head of both its hash
    table and its list, so one sequence, latest first, stands for both; a walk over a
    bucket visits the entries of the sequence that belong to it. *)

From S2P Require Import Prelude Words.

(** ** Data *)

Definition DIRECTORY_SEPARATOR : Z := 47.
Definition DOT : Z := 46.
Definition INODE_FLAG_DIRECTORY : Z := 1 <<< 0.
Definition INODE_FLAG_MOUNTPOINT : Z := 1 <<< 1.
Definition SEEK_SET : Z := 0.
Definition S_IFMT : Z := 0xF000.
Definition S_IFDIR : Z := 0x4000.
Definition S_IFCHR : Z := 0x2000.
Definition S_IFBLK : Z := 0x6000.
Definition S_IFREG : Z := 0x8000.
Definition S_ISDIR (m : Z) : bool := Z.land m S_IFMT =? S_IFDIR.
Definition S_ISREG (m : Z) : bool := Z.land m S_IFMT =? S_IFREG.
Definition mode_755 : Z := 0x1ED.
Definition DENTRY_HASH_BITS : Z := 5.
Definition ENTRY_TYPE_FILE : Z := 0.
Definition ENTRY_TYPE_DIR : Z := 1.

Inductive fs_type := ramfs | devfs_type.
Inductive file_ops := ramfs_file_ops | char_file_ops | block_file_ops | devfs_root_file_ops.
Inductive inode_ops := ramfs_inode_ops | char_inode_ops | block_inode_ops | devfs_root_inode_ops.

#[global] Instance fs_type_eq_dec : EqDecision fs_type.
Proof. solve_decision. Defined.
#[global] Instance inode_ops_eq_dec : EqDecision inode_ops.
Proof. solve_decision. Defined.

Definition file_ops_of (o : inode_ops) : file_ops :=
  match o with
  | ramfs_inode_ops => ramfs_file_ops
  | char_inode_ops => char_file_ops
  | block_inode_ops => block_file_ops
  | devfs_root_inode_ops => devfs_root_file_ops
  end.

(** The names of the two types. *)
Definition fs_type_name (t : fs_type) : list Z :=
  match t with ramfs => [114; 97; 109; 102; 115] | devfs_type => [100; 101; 118; 102; 115] end.

Record inode := Inode {
  i_fs : Z;
  i_ops : inode_ops;
  i_flags : Z;
  dev : Z;
  ino : Z;
  mode : Z;
  nlink : Z;
  uid : Z;
  gid : Z;
  rdev : Z;
  i_size : Z;
  atime : Z;
  mtime : Z;
  ctime : Z;
  blkshift : Z;
  blocks : Z;
  i_private : Z;
}.

Record dentry := Dentry {
  d_fs : Z;
  d_name : list Z;
  d_flags : Z;
  d_inode : Z;
  d_parent : Z;
  d_children : list Z;
}.

Record mount := Mount { m_parent : Z; m_fs : Z; m_mountpoint : Z }.
Record fs := Fs { fs_kind : fs_type; fs_root : Z }.
Record path := Path { p_mount : Z; p_dentry : Z }.

#[global] Instance path_eq_dec : EqDecision path.
Proof. solve_decision. Defined.

Record file := File { f_path : path; f_ops : file_ops; f_offset : Z; f_private : Z }.

(** [chunk_t]: the buffer has [CHUNK_SIZE] bytes. *)
Record chunk := Chunk { used : Z; buff : Z -> Z }.
Definition CHUNK_SIZE : Z := 1024.

Inductive device_type := CHAR_DEV | BLCK_DEV.
Record devfs_device := DevfsDevice { dv_name : list Z; dv_dentry : Z; dv_type : device_type; dv_dev : Z }.

Record vfs := Vfs {
  inodes : gmap Z inode;
  dentries : gmap Z dentry;
  mounts : gmap Z mount;
  fss : gmap Z fs;
  files : gmap Z file;
  records : gmap Z (list Z);
  chunks : gmap Z chunk;
  devices : gmap Z devfs_device;
  fs_types : list fs_type;
  instances : list Z;
  mount_hashtable : list Z;
  global_ino_count : Z;
  root_mount : Z;
  devfs_fs : Z;
  devfs_pending : list Z;
  devfs_devices : list Z;
  fs_type_lock : bool;
  global_ino_lock : bool;
  mount_hashtable_lock : bool;
  fresh : Z;
}.

Definition set_inodes (v : gmap Z inode) (s : vfs) : vfs :=
  Vfs v (dentries s) (mounts s) (fss s) (files s) (records s) (chunks s) (devices s) (fs_types s) (instances s) (mount_hashtable s) (global_ino_count s) (root_mount s) (devfs_fs s) (devfs_pending s) (devfs_devices s) (fs_type_lock s) (global_ino_lock s) (mount_hashtable_lock s) (fresh s).
Definition set_dentries (v : gmap Z dentry) (s : vfs) : vfs :=
  Vfs (inodes s) v (mounts s) (fss s) (files s) (records s) (chunks s) (devices s) (fs_types s) (instances s) (mount_hashtable s) (global_ino_count s) (root_mount s) (devfs_fs s) (devfs_pending s) (devfs_devices s) (fs_type_lock s) (global_ino_lock s) (mount_hashtable_lock s) (fresh s).
Definition set_mounts (v : gmap Z mount) (s : vfs) : vfs :=
  Vfs (inodes s) (dentries s) v (fss s) (files s) (records s) (chunks s) (devices s) (fs_types s) (instances s) (mount_hashtable s) (global_ino_count s) (root_mount s) (devfs_fs s) (devfs_pending s) (devfs_devices s) (fs_type_lock s) (global_ino_lock s) (mount_hashtable_lock s) (fresh s).
Definition set_fss (v : gmap Z fs) (s : vfs) : vfs :=
  Vfs (inodes s) (dentries s) (mounts s) v (files s) (records s) (chunks s) (devices s) (fs_types s) (instances s) (mount_hashtable s) (global_ino_count s) (root_mount s) (devfs_fs s) (devfs_pending s) (devfs_devices s) (fs_type_lock s) (global_ino_lock s) (mount_hashtable_lock s) (fresh s).
Definition set_files (v : gmap Z file) (s : vfs) : vfs :=
  Vfs (inodes s) (dentries s) (mounts s) (fss s) v (records s) (chunks s) (devices s) (fs_types s) (instances s) (mount_hashtable s) (global_ino_count s) (root_mount s) (devfs_fs s) (devfs_pending s) (devfs_devices s) (fs_type_lock s) (global_ino_lock s) (mount_hashtable_lock s) (fresh s).
Definition set_records (v : gmap Z (list Z)) (s : vfs) : vfs :=
  Vfs (inodes s) (dentries s) (mounts s) (fss s) (files s) v (chunks s) (devices s) (fs_types s) (instances s) (mount_hashtable s) (global_ino_count s) (root_mount s) (devfs_fs s) (devfs_pending s) (devfs_devices s) (fs_type_lock s) (global_ino_lock s) (mount_hashtable_lock s) (fresh s).
Definition set_chunks (v : gmap Z chunk) (s : vfs) : vfs :=
  Vfs (inodes s) (dentries s) (mounts s) (fss s) (files s) (records s) v (devices s) (fs_types s) (instances s) (mount_hashtable s) (global_ino_count s) (root_mount s) (devfs_fs s) (devfs_pending s) (devfs_devices s) (fs_type_lock s) (global_ino_lock s) (mount_hashtable_lock s) (fresh s).
Definition set_devices (v : gmap Z devfs_device) (s : vfs) : vfs :=
  Vfs (inodes s) (dentries s) (mounts s) (fss s) (files s) (records s) (chunks s) v (fs_types s) (instances s) (mount_hashtable s) (global_ino_count s) (root_mount s) (devfs_fs s) (devfs_pending s) (devfs_devices s) (fs_type_lock s) (global_ino_lock s) (mount_hashtable_lock s) (fresh s).
Definition set_fs_types (v : list fs_type) (s : vfs) : vfs :=
  Vfs (inodes s) (dentries s) (mounts s) (fss s) (files s) (records s) (chunks s) (devices s) v (instances s) (mount_hashtable s) (global_ino_count s) (root_mount s) (devfs_fs s) (devfs_pending s) (devfs_devices s) (fs_type_lock s) (global_ino_lock s) (mount_hashtable_lock s) (fresh s).
Definition set_instances (v : list Z) (s : vfs) : vfs :=
  Vfs (inodes s) (dentries s) (mounts s) (fss s) (files s) (records s) (chunks s) (devices s) (fs_types s) v (mount_hashtable s) (global_ino_count s) (root_mount s) (devfs_fs s) (devfs_pending s) (devfs_devices s) (fs_type_lock s) (global_ino_lock s) (mount_hashtable_lock s) (fresh s).
Definition set_mount_hashtable (v : list Z) (s : vfs) : vfs :=
  Vfs (inodes s) (dentries s) (mounts s) (fss s) (files s) (records s) (chunks s) (devices s) (fs_types s) (instances s) v (global_ino_count s) (root_mount s) (devfs_fs s) (devfs_pending s) (devfs_devices s) (fs_type_lock s) (global_ino_lock s) (mount_hashtable_lock s) (fresh s).
Definition set_global_ino_count (v : Z) (s : vfs) : vfs :=
  Vfs (inodes s) (dentries s) (mounts s) (fss s) (files s) (records s) (chunks s) (devices s) (fs_types s) (instances s) (mount_hashtable s) v (root_mount s) (devfs_fs s) (devfs_pending s) (devfs_devices s) (fs_type_lock s) (global_ino_lock s) (mount_hashtable_lock s) (fresh s).
Definition set_root_mount (v : Z) (s : vfs) : vfs :=
  Vfs (inodes s) (dentries s) (mounts s) (fss s) (files s) (records s) (chunks s) (devices s) (fs_types s) (instances s) (mount_hashtable s) (global_ino_count s) v (devfs_fs s) (devfs_pending s) (devfs_devices s) (fs_type_lock s) (global_ino_lock s) (mount_hashtable_lock s) (fresh s).
Definition set_devfs_fs (v : Z) (s : vfs) : vfs :=
  Vfs (inodes s) (dentries s) (mounts s) (fss s) (files s) (records s) (chunks s) (devices s) (fs_types s) (instances s) (mount_hashtable s) (global_ino_count s) (root_mount s) v (devfs_pending s) (devfs_devices s) (fs_type_lock s) (global_ino_lock s) (mount_hashtable_lock s) (fresh s).
Definition set_devfs_pending (v : list Z) (s : vfs) : vfs :=
  Vfs (inodes s) (dentries s) (mounts s) (fss s) (files s) (records s) (chunks s) (devices s) (fs_types s) (instances s) (mount_hashtable s) (global_ino_count s) (root_mount s) (devfs_fs s) v (devfs_devices s) (fs_type_lock s) (global_ino_lock s) (mount_hashtable_lock s) (fresh s).
Definition set_devfs_devices (v : list Z) (s : vfs) : vfs :=
  Vfs (inodes s) (dentries s) (mounts s) (fss s) (files s) (records s) (chunks s) (devices s) (fs_types s) (instances s) (mount_hashtable s) (global_ino_count s) (root_mount s) (devfs_fs s) (devfs_pending s) v (fs_type_lock s) (global_ino_lock s) (mount_hashtable_lock s) (fresh s).
Definition set_fs_type_lock (v : bool) (s : vfs) : vfs :=
  Vfs (inodes s) (dentries s) (mounts s) (fss s) (files s) (records s) (chunks s) (devices s) (fs_types s) (instances s) (mount_hashtable s) (global_ino_count s) (root_mount s) (devfs_fs s) (devfs_pending s) (devfs_devices s) v (global_ino_lock s) (mount_hashtable_lock s) (fresh s).
Definition set_global_ino_lock (v : bool) (s : vfs) : vfs :=
  Vfs (inodes s) (dentries s) (mounts s) (fss s) (files s) (records s) (chunks s) (devices s) (fs_types s) (instances s) (mount_hashtable s) (global_ino_count s) (root_mount s) (devfs_fs s) (devfs_pending s) (devfs_devices s) (fs_type_lock s) v (mount_hashtable_lock s) (fresh s).
Definition set_mount_hashtable_lock (v : bool) (s : vfs) : vfs :=
  Vfs (inodes s) (dentries s) (mounts s) (fss s) (files s) (records s) (chunks s) (devices s) (fs_types s) (instances s) (mount_hashtable s) (global_ino_count s) (root_mount s) (devfs_fs s) (devfs_pending s) (devfs_devices s) (fs_type_lock s) (global_ino_lock s) v (fresh s).
Definition set_fresh (v : Z) (s : vfs) : vfs :=
  Vfs (inodes s) (dentries s) (mounts s) (fss s) (files s) (records s) (chunks s) (devices s) (fs_types s) (instances s) (mount_hashtable s) (global_ino_count s) (root_mount s) (devfs_fs s) (devfs_pending s) (devfs_devices s) (fs_type_lock s) (global_ino_lock s) (mount_hashtable_lock s) v.

(** ** Access *)

Definition inode_at (k : Z) : M vfs inode := read (fun s => inodes s !! k).
Definition dentry_at (k : Z) : M vfs dentry := read (fun s => dentries s !! k).
Definition mount_at (k : Z) : M vfs mount := read (fun s => mounts s !! k).
Definition fs_at (k : Z) : M vfs fs := read (fun s => fss s !! k).
Definition file_at (k : Z) : M vfs file := read (fun s => files s !! k).
Definition record_at (k : Z) : M vfs (list Z) := read (fun s => records s !! k).
Definition chunk_at (k : Z) : M vfs chunk := read (fun s => chunks s !! k).
Definition device_at (k : Z) : M vfs devfs_device := read (fun s => devices s !! k).

Definition put_inode (k : Z) (x : inode) : M vfs unit := modify (fun s => set_inodes (<[k := x]> (inodes s)) s).
Definition put_dentry (k : Z) (x : dentry) : M vfs unit := modify (fun s => set_dentries (<[k := x]> (dentries s)) s).
Definition put_mount (k : Z) (x : mount) : M vfs unit := modify (fun s => set_mounts (<[k := x]> (mounts s)) s).
Definition put_fs (k : Z) (x : fs) : M vfs unit := modify (fun s => set_fss (<[k := x]> (fss s)) s).
Definition put_file (k : Z) (x : file) : M vfs unit := modify (fun s => set_files (<[k := x]> (files s)) s).
Definition put_record (k : Z) (x : list Z) : M vfs unit := modify (fun s => set_records (<[k := x]> (records s)) s).
Definition put_chunk (k : Z) (x : chunk) : M vfs unit := modify (fun s => set_chunks (<[k := x]> (chunks s)) s).
Definition put_device (k : Z) (x : devfs_device) : M vfs unit := modify (fun s => set_devices (<[k := x]> (devices s)) s).

(** A fresh address from one of the caches. *)
Definition new_addr : M vfs Z := s ← get; modify (set_fresh (fresh s + 1));; mret (fresh s).

Definition with_types {A} (m : M vfs A) : M vfs A := locked (fun s => Some (fs_type_lock s)) set_fs_type_lock m.
Definition with_ino {A} (m : M vfs A) : M vfs A := locked (fun s => Some (global_ino_lock s)) set_global_ino_lock m.
Definition with_mounts {A} (m : M vfs A) : M vfs A := locked (fun s => Some (mount_hashtable_lock s)) set_mount_hashtable_lock m.

Definition set_i_flags (v : Z) (i : inode) : inode :=
  Inode (i_fs i) (i_ops i) v (dev i) (ino i) (mode i) (nlink i) (uid i) (gid i) (rdev i) (i_size i) (atime i) (mtime i) (ctime i) (blkshift i) (blocks i) (i_private i).
Definition set_i_size (v : Z) (i : inode) : inode :=
  Inode (i_fs i) (i_ops i) (i_flags i) (dev i) (ino i) (mode i) (nlink i) (uid i) (gid i) (rdev i) v (atime i) (mtime i) (ctime i) (blkshift i) (blocks i) (i_private i).
Definition set_d_inode (v : Z) (d : dentry) : dentry := Dentry (d_fs d) (d_name d) (d_flags d) v (d_parent d) (d_children d).
Definition set_d_parent (v : Z) (d : dentry) : dentry := Dentry (d_fs d) (d_name d) (d_flags d) (d_inode d) v (d_children d).
Definition set_d_children (v : list Z) (d : dentry) : dentry := Dentry (d_fs d) (d_name d) (d_flags d) (d_inode d) (d_parent d) v.
Definition set_d_fs (v : Z) (d : dentry) : dentry := Dentry v (d_name d) (d_flags d) (d_inode d) (d_parent d) (d_children d).
Definition set_f_private (v : Z) (f : file) : file := File (f_path f) (f_ops f) (f_offset f) v.
Definition set_f_offset (v : Z) (f : file) : file := File (f_path f) (f_ops f) v (f_private f).

Section Junk.
(** What freshly allocated objects hold in the fields that are not set. *)
Context (junk : Z) (junk_b : Z -> Z).

(** ** Allocation (vfs.c) *)

Definition dentry_alloc (name : list Z) : M vfs Z :=
  d ← new_addr; put_dentry d (Dentry junk name 0 0 0 []);; mret d.

Definition inode_alloc (f : Z) (ops : inode_ops) : M vfs Z :=
  i ← new_addr;
  n ← with_ino (s ← get; modify (set_global_ino_count (u32 (global_ino_count s + 1)));; mret (global_ino_count s));
  put_inode i (Inode f ops 0 0 n 0 0 0 0 0 0 0 0 0 0 0 0);;
  mret i.

Definition fs_alloc (t : fs_type) : M vfs Z := k ← new_addr; put_fs k (Fs t junk);; mret k.
Definition mount_alloc (f : Z) : M vfs Z := k ← new_addr; put_mount k (Mount 0 f 0);; mret k.

Definition dentry_activate (child parent : Z) : M vfs unit :=
  c ← dentry_at child;
  put_dentry child (set_d_parent parent c);;
  if negb (parent =? 0) then p ← dentry_at parent; put_dentry parent (set_d_children (child :: d_children p) p)
  else mret tt.

(** ** ramfs.c: the contents of a file *)

Definition chunk_alloc (r : Z) : M vfs Z :=
  c ← new_addr;
  put_chunk c (Chunk 0 junk_b);;
  l ← record_at r;
  put_record r (l ++ [c]);;
  mret c.

Definition chunk_read (c len off : Z) : M vfs (list Z) :=
  k ← chunk_at c;
  BUG_ON (off >? used k);;
  let len := MIN (u32 (used k - off)) len in
  mret ((fun j => buff k j) <$> seqZ off len).

(** [memcpy] into a buffer. *)
Fixpoint blit (f : Z -> Z) (off : Z) (l : list Z) : Z -> Z :=
  match l with [] => f | b :: l' => blit (<[off := b]> f) (off + 1) l' end.

(** [data] are the bytes at [buff]; [i] is the inode whose size is kept up to date. *)
Definition chunk_write (c i : Z) (data : list Z) (len off : Z) : M vfs Z :=
  k ← chunk_at c;
  BUG_ON (off >=? CHUNK_SIZE);;
  let len := MIN (u32 (CHUNK_SIZE - off)) len in
  let used' := MAX (used k) (u32 (off + len)) in
  put_chunk c (Chunk used' (blit (buff k) off (take (Z.to_nat len) data)));;
  x ← inode_at i;
  put_inode i (set_i_size (u32 (i_size x + u32 (used' - used k))) x);;
  mret len.

(** The entry after [c]; 0 after the last. *)
Fixpoint list_next (c : Z) (l : list Z) : Z :=
  match l with
  | [] => 0
  | x :: l' => if x =? c then default 0 (head l') else list_next c l'
  end.

(** The macro compares the entry's own link with the list's head. *)
Definition list_is_last (c r : Z) : bool := c =? r.

Definition set_private (f c : Z) : M vfs unit := x ← file_at f; put_file f (set_f_private c x).
Definition advance (f amt : Z) : M vfs unit := x ← file_at f; put_file f (set_f_offset (u32 (f_offset x + amt)) x).

(** [file->path.dentry->inode]. *)
Definition file_inode (f : Z) : M vfs Z := x ← file_at f; d ← dentry_at (p_dentry (f_path x)); mret (d_inode d).

(** [file->private] after [pos] bytes, [c] being the chunk used last. *)
Definition chunk_for (pos c : Z) (l : list Z) : Z := if negb (pos mod CHUNK_SIZE =? 0) then c else list_next c l.

Definition read_round (f r len off : Z) (v : Z * list Z) : M vfs (Z * list Z + list Z) :=
  let '(c, out) := v in
  let amt := s32 (Z.of_nat (length out)) in
  if (u32 (len - amt) =? 0) || (c =? 0) then mret (inr out)
  else
    b ← chunk_read c (u32 (len - amt)) (u32 (off + amt) mod CHUNK_SIZE);
    let amt := s32 (amt + Z.of_nat (length b)) in
    l ← record_at r;
    (if (u32 (len - amt) =? 0) || list_is_last c r then set_private f (chunk_for (u32 (off + amt)) c l) else mret tt);;
    mret (inl (list_next c l, out ++ b)).

(** The bytes read; every round but the last finishes a chunk. *)
Definition record_read (f len off : Z) : M vfs (list Z) :=
  x ← file_at f;
  i ← file_inode f;
  n ← inode_at i;
  if f_private x =? 0 then mret []
  else
    l ← record_at (i_private n);
    out ← iterM (S (S (length l))) (read_round f (i_private n) len off) (f_private x, []);
    advance f (s32 (Z.of_nat (length out)));;
    mret out.

Definition write_round (f i r : Z) (data : list Z) (len off : Z) (v : Z * Z) : M vfs (Z * Z + Z) :=
  let '(c, amt) := v in
  if u32 (len - amt) =? 0 then mret (inr amt)
  else
    c ← (if c =? 0 then chunk_alloc r else mret c);
    n ← chunk_write c i (drop (Z.to_nat amt) data) (u32 (len - amt)) (u32 (off + amt) mod CHUNK_SIZE);
    let amt := s32 (amt + n) in
    l ← record_at r;
    if negb (u32 (len - amt) =? 0) then mret (inl (list_next c l, amt))
    else set_private f (chunk_for (u32 (off + amt)) c l);; mret (inl (c, amt)).

Definition record_write (f : Z) (data : list Z) (len off : Z) : M vfs Z :=
  x ← file_at f;
  i ← file_inode f;
  n ← inode_at i;
  amt ← iterM (S (S (Z.to_nat len))) (write_round f i (i_private n) data len off) (f_private x, 0);
  advance f amt;;
  mret amt.

Definition record_create : M vfs Z := r ← new_addr; put_record r [];; mret r.

Definition ramfs_file_open (f i : Z) : M vfs unit :=
  n ← inode_at i;
  if negb (has (i_flags n) INODE_FLAG_DIRECTORY) then
    l ← record_at (i_private n);
    set_private f (default 0 (head l))
  else mret tt.

(** The walk over the chunks: [pos] is where chunk [c] starts. *)
Fixpoint seek_chunks (l : list Z) (offset pos : Z) : M vfs Z :=
  match l with
  | [] => panic
  | c :: l' =>
      if u32 (offset - pos) <? CHUNK_SIZE then
        k ← chunk_at c;
        (if u32 (offset - pos) >? used k then panic else mret tt);;
        mret c
      else seek_chunks l' offset (u32 (pos + CHUNK_SIZE))
  end.

Definition ramfs_file_seek (f offset whence : Z) : M vfs Z :=
  if negb (whence =? SEEK_SET) then panic
  else
    i ← file_inode f;
    n ← inode_at i;
    l ← record_at (i_private n);
    c ← seek_chunks l offset 0;
    x ← file_at f;
    put_file f (set_f_offset offset (set_f_private c x));;
    mret offset.

Definition ramfs_file_read (f bytes : Z) : M vfs (list Z) := x ← file_at f; record_read f bytes (f_offset x).
Definition ramfs_file_write (f : Z) (data : list Z) (bytes : Z) : M vfs Z := x ← file_at f; record_write f data bytes (f_offset x).

(** ** ramfs.c: inodes *)

(** A directory's size is computed before its block shift is set. *)
Definition ramfs_create_internal (f d m : Z) : M vfs Z :=
  if S_ISREG m then
    i ← inode_alloc f ramfs_inode_ops;
    r ← record_create;
    x ← inode_at i;
    put_inode i (Inode f ramfs_inode_ops 0 0 (ino x) m 0 0 0 0 0 0 0 0 12 8 r);;
    e ← dentry_at d; put_dentry d (set_d_inode i e);;
    mret 0
  else if S_ISDIR m then
    i ← inode_alloc f ramfs_inode_ops;
    x ← inode_at i;
    put_inode i (Inode f ramfs_inode_ops INODE_FLAG_DIRECTORY 0 (ino x) m 0 0 0 0 (1 <<< blkshift x) 0 0 0 12 8 0);;
    e ← dentry_at d; put_dentry d (set_d_inode i e);;
    mret 0
  else mret (- EINVAL).

Definition ramfs_fill (f : Z) : M vfs unit :=
  root ← dentry_alloc [];
  x ← fs_at f; put_fs f (Fs (fs_kind x) root);;
  e ← dentry_at root; put_dentry root (set_d_fs f (set_d_parent 0 e));;
  ret ← ramfs_create_internal f root (Z.lor S_IFDIR mode_755);
  if negb (ret =? 0) then panic else mret tt.

(** ** devfs.c: inodes *)

Definition devfs_inode_alloc (v : Z) : M vfs Z :=
  x ← device_at v;
  s ← get;
  let '(ops, m) := match dv_type x with CHAR_DEV => (char_inode_ops, S_IFCHR) | BLCK_DEV => (block_inode_ops, S_IFBLK) end in
  i ← inode_alloc (devfs_fs s) ops;
  n ← inode_at i;
  put_inode i (Inode (devfs_fs s) ops 0 0 (ino n) (Z.lor m mode_755) 0 0 0 0 0 0 0 0 12 8 v);;
  mret i.

Definition devfs_fill (f : Z) : M vfs unit :=
  root ← dentry_alloc [];
  x ← fs_at f; put_fs f (Fs (fs_kind x) root);;
  e ← dentry_at root; put_dentry root (set_d_fs f e);;
  i ← inode_alloc f devfs_root_inode_ops;
  e ← dentry_at root; put_dentry root (set_d_inode i e);;
  n ← inode_at i;
  put_inode i (Inode f devfs_root_inode_ops INODE_FLAG_DIRECTORY 0 (ino n) (Z.lor S_IFDIR mode_755) 0 0 0 0 (1 <<< 12) 0 0 0 12 8 0).

(** ** vfs.c: file systems *)

Definition fs_add (f : Z) : M vfs unit := modify (fun s => set_instances (f :: instances s) s).

Definition fs_create_nodev (t : fs_type) (fill : Z -> M vfs unit) : M vfs Z :=
  f ← fs_alloc t;
  fill f;;
  fs_add f;;
  x ← fs_at f; mret (fs_root x).

(** The first instance of the type, latest first. *)
Definition instance_of (t : fs_type) (s : vfs) : option Z :=
  head (filter (fun f => fs_kind <$> fss s !! f = Some t) (instances s)).

Definition fs_create_single (t : fs_type) (fill : Z -> M vfs unit) : M vfs Z :=
  s ← get;
  match instance_of t s with
  | Some f => x ← fs_at f; mret (fs_root x)
  | None => fs_create_nodev t fill
  end.

(** [type->create]. *)
Definition fs_create (t : fs_type) : M vfs Z :=
  match t with ramfs => fs_create_nodev ramfs ramfs_fill | devfs_type => fs_create_single devfs_type devfs_fill end.

Definition register_fs_type (t : fs_type) : M vfs unit :=
  with_types (modify (fun s => set_fs_types (t :: fs_types s) s)).

(** Names that are equal are in one bucket, so the whole table is searched. *)
Definition find_fs_type (name : list Z) : M vfs (option fs_type) :=
  with_types (s ← get; mret (head (filter (fun t => name = fs_type_name t) (fs_types s)))).

(** ** vfs.c: mounts *)

(** The mount on a path, if any: equal keys are in one bucket. *)
Definition mount_on (p : path) (s : vfs) : option Z :=
  head (filter (fun k => match mounts s !! k with
    | Some m => bool_decide (m_parent m = p_mount p) && bool_decide (m_mountpoint m = p_dentry p)
    | None => false end = true) (mount_hashtable s)).

Definition get_mount (p : path) : M vfs Z := with_mounts (s ← get; mret (default 0 (mount_on p s))).

Definition MNT_ROOT (k : Z) : M vfs path := m ← mount_at k; f ← fs_at (m_fs m); mret (Path k (fs_root f)).

Definition vfs_fs_create (raw_type : list Z) : M vfs Z :=
  t ← find_fs_type raw_type;
  match t with
  | None => mret 0
  | Some t =>
      root ← fs_create t;
      if root =? 0 then mret 0
      else
        d ← dentry_at root;
        BUG_ON (negb (d_parent d =? 0));;
        f ← fs_at (d_fs d);
        BUG_ON (negb (root =? fs_root f));;
        mret (d_fs d)
  end.

Definition vfs_mount_create (f : Z) : M vfs Z := mount_alloc f.

Definition inode_of (d : Z) : M vfs Z := e ← dentry_at d; mret (d_inode e).

Definition vfs_mount_add (k : Z) (p : path) : M vfs bool :=
  i ← inode_of (p_dentry p);
  n ← inode_at i;
  if negb (has (i_flags n) INODE_FLAG_DIRECTORY) then mret false
  else
    old ← get_mount p;
    if negb (old =? 0) then mret false
    else
      m ← mount_at k;
      put_mount k (Mount (p_mount p) (m_fs m) (p_dentry p));;
      with_mounts (modify (fun s => set_mount_hashtable (k :: mount_hashtable s) s));;
      n ← inode_at i;
      put_inode i (set_i_flags (Z.lor (i_flags n) INODE_FLAG_MOUNTPOINT) n);;
      mret true.

Definition vfs_do_mount (f : Z) (p : path) : M vfs Z :=
  k ← vfs_mount_create f;
  if negb (k =? 0) then
    ok ← vfs_mount_add k p;
    mret (if (ok : bool) then k else 0)
  else mret k.

Definition vfs_mount (raw_type : list Z) (p : path) : M vfs Z :=
  f ← vfs_fs_create raw_type;
  if f =? 0 then mret 0 else vfs_do_mount f p.

Definition vfs_umount (p : path) : M vfs bool :=
  i ← inode_of (p_dentry p);
  n ← inode_at i;
  if has (i_flags n) INODE_FLAG_MOUNTPOINT then
    put_inode i (set_i_flags (Z.land (i_flags n) (u32 (Z.lnot INODE_FLAG_MOUNTPOINT))) n);;
    k ← get_mount p;
    BUG_ON (k =? 0);;
    s ← get;
    BUG_ON (k =? root_mount s);;
    with_mounts (modify (fun s => set_mount_hashtable (seq_rm k (mount_hashtable s)) s));;
    mret true
  else mret false.

(** ** vfs.c: paths *)

(** Where the last segment starts: after the last separator with something behind it. *)
Fixpoint last_segment_from (l : list Z) (i seg : nat) : nat :=
  match l with
  | [] => seg
  | c :: l' => last_segment_from l' (S i) (if (c =? DIRECTORY_SEPARATOR) && bool_decide (l' <> []) then S i else seg)
  end.
Definition last_segment (l : list Z) : nat := last_segment_from l 0 0.

(** The characters up to the next separator, and whether the string ends there. *)
Fixpoint next_segment (l : list Z) : list Z * option (list Z) :=
  match l with
  | [] => ([], None)
  | c :: l' => if c =? DIRECTORY_SEPARATOR then ([], Some l') else let '(seg, rest) := next_segment l' in (c :: seg, rest)
  end.

(** The bucket of a name of [len] characters in a dentry's table. *)
Definition name_bucket (name : list Z) (len : nat) : option Z := key ← str_to_key name len; Some (hash_32 key DENTRY_HASH_BITS).

(** [memcmp(child->name, path, len)] finds no difference. *)
Definition same_start (name seg : list Z) : bool := bool_decide (take (length seg) name = seg).

(** The first child in the segment's bucket whose name starts with the segment. *)
Fixpoint find_child (l : list Z) (b : option Z) (seg : list Z) : M vfs Z :=
  match l with
  | [] => mret 0
  | c :: l' =>
      e ← dentry_at c;
      if bool_decide (name_bucket (d_name e) (length (d_name e)) = b) && same_start (d_name e) seg
      then mret c else find_child l' b seg
  end.

(** [inode->ops->lookup] fills in the inode of dentry [d]. *)
Definition inode_lookup (ops : inode_ops) (d : Z) : M vfs unit :=
  match ops with
  | ramfs_inode_ops => e ← dentry_at d; put_dentry d (set_d_inode 0 e)
  | devfs_root_inode_ops => mret tt
  | char_inode_ops | block_inode_ops => fault
  end.

(** "..": up through the roots of mounts, then to the parent. *)
Definition up_round (p : path) : M vfs (path + path) :=
  e ← dentry_at (p_dentry p);
  s ← get;
  if (d_parent e =? 0) && negb (p_mount p =? root_mount s) then
    m ← mount_at (p_mount p);
    BUG_ON (m_parent m =? 0);;
    i ← inode_of (m_mountpoint m);
    n ← inode_at i;
    BUG_ON (negb (has (i_flags n) INODE_FLAG_MOUNTPOINT));;
    mret (inl (Path (m_parent m) (m_mountpoint m)))
  else mret (inr (if negb (d_parent e =? 0) then Path (p_mount p) (d_parent e) else p)).
Definition go_up (p : path) : M vfs path := s ← get; iterM (S (size (mounts s))) up_round p.

(** One segment of a path below directory [p]; [None] when there is nothing by that name. *)
Definition lookup_segment (p : path) (ops : inode_ops) (seg : list Z) : M vfs (option path) :=
  if bool_decide (seg = []) || bool_decide (seg = [DOT]) then mret (Some p)
  else if bool_decide (seg = [DOT; DOT]) then q ← go_up p; mret (Some q)
  else
    e ← dentry_at (p_dentry p);
    b ← read (fun _ => name_bucket seg (length seg));
    c ← find_child (d_children e) (Some b) seg;
    if negb (c =? 0) then mret (Some (Path (p_mount p) c))
    else
      d ← dentry_alloc seg;
      inode_lookup ops d;;
      x ← dentry_at d;
      if d_inode x =? 0 then modify (fun s => set_dentries (delete d (dentries s)) s);; mret None
      else mret (Some (Path (p_mount p) d)).

(** The mount on [p], which is marked as a mount point. *)
Definition descend (p : path) : M vfs path := k ← get_mount p; BUG_ON (k =? 0);; MNT_ROOT k.

(** One turn of the loop; [l] is what is left of the path. *)
Definition lookup_round (v : path * list Z) : M vfs (path * list Z + option path) :=
  let '(p, l) := v in
  if bool_decide (l = []) then mret (inr (Some p))
  else
    e ← dentry_at (p_dentry p);
    BUG_ON (d_inode e =? 0);;
    n ← inode_at (d_inode e);
    if negb (has (i_flags n) INODE_FLAG_DIRECTORY) then mret (inr None)
    else if has (i_flags n) INODE_FLAG_MOUNTPOINT then q ← descend p; mret (inl (q, l))
    else
      let '(seg, rest) := next_segment l in
      r ← lookup_segment p (i_ops n) seg;
      mret (match r, rest with
        | None, _ => inr None
        | Some q, Some l' => inl (q, l')
        | Some q, None => inr (Some q)
        end).

(** A segment at a time, and a mount at a time between two segments. *)
Definition lookup_fuel (l : list Z) (s : vfs) : nat := S (S (length l) * S (size (mounts s))).

(** [start] is [None] for a null pointer. *)
Definition vfs_lookup (start : option path) (orig : list Z) : M vfs (Z * option path) :=
  '(cwd, l) ← (match start, orig with
    | Some p, [] => mret (p, [])
    | Some p, c :: l => if negb (c =? DIRECTORY_SEPARATOR) then mret (p, orig) else s ← get; q ← MNT_ROOT (root_mount s); mret (q, l)
    | None, c :: l => s ← get; q ← MNT_ROOT (root_mount s); mret (q, if c =? DIRECTORY_SEPARATOR then l else orig)
    | None, [] => s ← get; q ← MNT_ROOT (root_mount s); mret (q, [])
    end);
  s ← get;
  r ← iterM (lookup_fuel l s) lookup_round (cwd, l);
  match r with
  | None => mret (- ENOENT, None)
  | Some p =>
      i ← inode_of (p_dentry p);
      n ← inode_at i;
      q ← (if has (i_flags n) INODE_FLAG_MOUNTPOINT then descend p else mret p);
      mret (0, Some q)
  end.

(** The directory a path's last segment is in, and that segment. *)
Definition get_path_wd (start : path) (orig : list Z) : M vfs (Z * option (path * list Z)) :=
  let k := last_segment orig in
  let last := drop k orig in
  if bool_decide (orig <> last) then
    '(ret, q) ← vfs_lookup (Some start) (take (k - 1) orig);
    match q with
    | Some wd => mret (0, Some (wd, last))
    | None => mret (ret, None)
    end
  else mret (0, Some (start, last)).

Definition fs_no_create : M vfs Z := mret (- EINVAL).

(** [inode->ops->create]. *)
Definition inode_create (i d m : Z) : M vfs Z :=
  n ← inode_at i;
  match i_ops n with
  | ramfs_inode_ops => ramfs_create_internal (i_fs n) d m
  | devfs_root_inode_ops => fs_no_create
  | char_inode_ops | block_inode_ops => fault
  end.

Definition validate_inode (d : Z) : M vfs unit :=
  i ← inode_of d; n ← inode_at i; if ino n =? 0 then panic else mret tt.

Definition vfs_create (start : path) (pathname : list Z) (m : Z) : M vfs (Z * option path) :=
  '(ret, q) ← get_path_wd start pathname;
  match q with
  | None => mret (ret, None)
  | Some (wd, last) =>
      if bool_decide (pathname = []) then mret (- ENOENT, None)
      else
        '(ret, f) ← vfs_lookup (Some wd) last;
        match f with
        | Some f => mret (- EEXIST, Some f)
        | None =>
            if ret =? - ENOENT then
              new ← dentry_alloc last;
              i ← inode_of (p_dentry wd);
              ret ← inode_create i new m;
              if ret <? 0 then mret (ret, None)
              else
                validate_inode new;;
                dentry_activate new (p_dentry wd);;
                mret (ret, Some (Path (p_mount wd) new))
            else mret (ret, None)
        end
  end.

(** ** vfs.c: files *)

(** [file->ops->open]. *)
Definition file_open (o : file_ops) (f i : Z) : M vfs unit :=
  match o with
  | ramfs_file_ops => ramfs_file_open f i
  | char_file_ops | block_file_ops => n ← inode_at i; set_private f (i_private n)
  | devfs_root_file_ops => mret tt
  end.

Definition vfs_open_file (p : path) : M vfs Z :=
  i ← inode_of (p_dentry p);
  n ← inode_at i;
  f ← new_addr;
  put_file f (File p (file_ops_of (i_ops n)) 0 junk);;
  file_open (file_ops_of (i_ops n)) f i;;
  mret f.

(** An error, or the bytes; a character device's own operations are not the file system's. *)
Inductive io := IoError (e : Z) | IoBytes (l : list Z) | IoCount (n : Z) | IoDevice (dv : Z).

Definition vfs_read (f bytes : Z) : M vfs io :=
  i ← file_inode f;
  n ← inode_at i;
  if has (i_flags n) INODE_FLAG_DIRECTORY then mret (IoError (- EISDIR))
  else
    x ← file_at f;
    match f_ops x with
    | ramfs_file_ops => l ← ramfs_file_read f bytes; mret (IoBytes l)
    | char_file_ops => v ← device_at (f_private x); mret (IoDevice (dv_dev v))
    | block_file_ops => mret (IoError (-1))
    | devfs_root_file_ops => fault
    end.

Definition vfs_write (f : Z) (data : list Z) (bytes : Z) : M vfs io :=
  i ← file_inode f;
  n ← inode_at i;
  if has (i_flags n) INODE_FLAG_DIRECTORY then mret (IoError (- EISDIR))
  else
    x ← file_at f;
    match f_ops x with
    | ramfs_file_ops => r ← ramfs_file_write f data bytes; mret (IoCount r)
    | char_file_ops => v ← device_at (f_private x); mret (IoDevice (dv_dev v))
    | block_file_ops => mret (IoError (-1))
    | devfs_root_file_ops => fault
    end.

Definition vfs_seek (f off whence : Z) : M vfs Z :=
  x ← file_at f;
  match f_ops x with
  | ramfs_file_ops => ramfs_file_seek f off whence
  | char_file_ops | block_file_ops => mret 0
  | devfs_root_file_ops => fault
  end.

(** [dir_entry_dat_t]; a name longer than its 256 bytes overruns the entry. *)
Record dir_entry_dat := DirEntry { de_ino : Z; de_type : Z; de_name : list Z }.

(** The type is looked for in the mode, where [INODE_FLAG_DIRECTORY] is a permission bit. *)
Fixpoint iterate_children (l : list Z) (num offset curpos : Z) (out : list dir_entry_dat) : M vfs (Z * list dir_entry_dat) :=
  match l with
  | [] => mret (curpos, out)
  | c :: l' =>
      if Z.of_nat (length out) >=? num then mret (curpos, out)
      else if curpos >=? offset then
        e ← dentry_at c;
        n ← inode_at (d_inode e);
        _ ← read (fun _ => if Z.of_nat (length (d_name e)) <? 256 then Some tt else None);
        iterate_children l' num offset (curpos + 1)
          (out ++ [DirEntry (ino n) (if has (mode n) INODE_FLAG_DIRECTORY then ENTRY_TYPE_DIR else ENTRY_TYPE_FILE) (d_name e)])
      else iterate_children l' num offset (curpos + 1) out
  end.

Definition simple_file_iterate (f num : Z) : M vfs (list dir_entry_dat) :=
  x ← file_at f;
  e ← dentry_at (p_dentry (f_path x));
  '(curpos, out) ← iterate_children (d_children e) num (f_offset x) 0 [];
  x ← file_at f;
  put_file f (set_f_offset (u32 curpos) x);;
  mret out.

Definition vfs_iterate (f num : Z) : M vfs (Z * list dir_entry_dat) :=
  x ← file_at f;
  match f_ops x with
  | ramfs_file_ops | devfs_root_file_ops => l ← simple_file_iterate f num; mret (Z.of_nat (length l), l)
  | char_file_ops | block_file_ops => mret (u32 (-1), [])
  end.

Record stat := Stat {
  st_dev : Z; st_ino : Z; st_mode : Z; st_nlink : Z; st_uid : Z; st_gid : Z; st_rdev : Z; st_size : Z;
  st_atime : Z; st_mtime : Z; st_ctime : Z; st_blksize : Z; st_blocks : Z;
}.

Definition generic_getattr (n : inode) : stat :=
  Stat (s16 (dev n)) (ino n) (mode n) (u16 (nlink n)) (u16 (uid n)) (u16 (gid n)) (s16 (rdev n)) (s32 (i_size n))
    (atime n) (mtime n) (ctime n) (1 <<< blkshift n) (blocks n).

(** No file system has its own [getattr]. *)
Definition vfs_getattr (d : Z) : M vfs stat := i ← inode_of d; n ← inode_at i; mret (generic_getattr n).

(** ** Start *)

Definition vfs_root_mount : M vfs Z :=
  f ← vfs_fs_create (fs_type_name ramfs);
  if f =? 0 then mret 1
  else k ← vfs_mount_create f; modify (set_root_mount k);; mret (if k =? 0 then 1 else 0).

(** ** devfs.c: devices *)

Definition devfs_add_dev (dv : Z) (t : device_type) (name : list Z) : M vfs unit :=
  v ← new_addr;
  d ← dentry_alloc name;
  put_device v (DevfsDevice name d t dv);;
  modify (fun s => set_devfs_pending (devfs_pending s ++ [v]) s).

Definition devfs_update : M vfs bool :=
  s ← get;
  match devfs_pending s with
  | [] => mret false
  | v :: l =>
      modify (set_devfs_pending l);;
      i ← devfs_inode_alloc v;
      x ← device_at v;
      e ← dentry_at (dv_dentry x);
      put_dentry (dv_dentry x) (set_d_inode i e);;
      s ← get;
      f ← fs_at (devfs_fs s);
      dentry_activate (dv_dentry x) (fs_root f);;
      modify (fun s => set_devfs_devices (v :: devfs_devices s) s);;
      mret true
  end.

Definition devfs_publish_pending : M vfs unit :=
  s ← get;
  iterM (S (length (devfs_pending s))) (fun _ => go ← devfs_update; mret (if (go : bool) then inl tt else inr tt)) tt.

(** Where the next separator is, the first character apart: that is where [strchr] looks. *)
Fixpoint index_of (c : Z) (l : list Z) : option nat :=
  match l with
  | [] => None
  | x :: l' => if x =? c then Some O else S <$> index_of c l'
  end.
Definition sep_after (l : list Z) : option nat := match l with [] => None | _ :: l' => S <$> index_of DIRECTORY_SEPARATOR l' end.

(** [k] is how far [part] has come. *)
Definition create_round (start : path) (pathname : list Z) (k : nat) : M vfs (nat + Z) :=
  if bool_decide (drop k pathname = []) then mret (inr 0)
  else
    let j := sep_after (drop k pathname) in
    '(ret, _) ← vfs_create start (match j with Some j => take (k + j) pathname | None => pathname end) (Z.lor S_IFDIR mode_755);
    mret (if negb (ret =? 0) then inr ret else match j with Some j => inl (k + j + 1)%nat | None => inr 0 end).
Definition create_path (start : path) (pathname : list Z) : M vfs Z :=
  iterM (S (S (length pathname))) (create_round start pathname) O.

Definition devfs_mount (mntpoint : list Z) : M vfs unit :=
  f ← vfs_fs_create (fs_type_name devfs_type);
  modify (set_devfs_fs f);;
  devfs_publish_pending;;
  s ← get;
  wd ← MNT_ROOT (root_mount s);
  ret ← create_path wd mntpoint;
  if negb (ret =? 0) then mret tt
  else
    '(ret, target) ← vfs_lookup (Some wd) mntpoint;
    match target with
    | Some q => _ ← vfs_do_mount f q; mret tt
    | None => mret tt
    end.

Definition get_strpath (mntpoint name : list Z) : list Z := mntpoint ++ [DIRECTORY_SEPARATOR] ++ name.
Definition devfs_lookup (mntpoint name : list Z) : M vfs (Z * option path) := vfs_lookup None (get_strpath mntpoint name).

(** ** rootramfs.c: the archive of the initial files *)

Definition RAMFS_ENTRY_DIR : Z := 1.
Definition RAMFS_ENTRY_FRECORD : Z := 2.
Definition MAGIC : list Z := [75; 82; 70; 83].

(** [mem] is the archive; reading outside it is a fault. *)
Definition bytes_at (mem : list Z) (off n : Z) : option (list Z) :=
  if (0 <=? off) && (0 <=? n) && (off + n <=? Z.of_nat (length mem)) then Some (take (Z.to_nat n) (drop (Z.to_nat off) mem)) else None.
Definition word_at (mem : list Z) (off : Z) : option Z := of_le_bytes <$> bytes_at mem off 4.

(** Up to the terminator. *)
Fixpoint cstr (l : list Z) : list Z := match l with [] => [] | c :: l' => if c =? 0 then [] else s8 c :: cstr l' end.

(** A directory and those above it; one that exists is left alone. *)
Definition dirs_round (root : path) (pathname : list Z) (k : nat) : M vfs (nat + unit) :=
  match sep_after (drop k pathname) with
  | None => mret (inr tt)
  | Some j =>
      '(ret, _) ← vfs_create root (take (k + j) pathname) (Z.lor S_IFDIR mode_755);
      if (ret <? 0) && negb (ret =? - EEXIST) then panic else mret (inl (k + j + 1)%nat)
  end.

(** The entry at [off]; the result is its size. *)
Definition entry_reconstruct (mem : list Z) (root : path) (off : Z) : M vfs Z :=
  t ← read (fun _ => bytes_at mem off 1);
  name_len ← read (fun _ => word_at mem (off + 1));
  name ← read (fun _ => bytes_at mem (off + 5) name_len);
  if bool_decide (t = [RAMFS_ENTRY_DIR]) then
    let pathname := cstr (name ++ [DIRECTORY_SEPARATOR]) in
    iterM (S (S (length pathname))) (dirs_round root pathname) O;;
    mret (u32 (5 + name_len))
  else if bool_decide (t = [RAMFS_ENTRY_FRECORD]) then
    '(ret, p) ← vfs_create root (cstr name) (Z.lor S_IFREG mode_755);
    if ret <? 0 then panic
    else
      len ← read (fun _ => word_at mem (off + 5 + name_len));
      data ← read (fun _ => bytes_at mem (off + 9 + name_len) len);
      p ← read (fun _ => p);
      f ← vfs_open_file p;
      _ ← vfs_write f data len;
      mret (u32 (5 + name_len + 4 + len))
  else panic.

Definition rootramfs_load (mem : list Z) (len : Z) : M vfs unit :=
  magic ← read (fun _ => bytes_at mem 0 4);
  if negb (bool_decide (magic = MAGIC)) then panic
  else
    iterM (S (Z.to_nat len)) (fun off =>
      if off <? len then
        s ← get;
        root ← MNT_ROOT (root_mount s);
        n ← entry_reconstruct mem root off;
        mret (inl (u32 (off + n)))
      else mret (inr tt)) 4.
End Junk.
