(* ===== verification/Ramfs.v ===== *)
(** * Ramfs: what a file of the ram file system holds

    Theorems on the contents part of [Fs] (kernel/src/fs/type/ramfs.c): a handle acts on
    a sequence of bytes with a position. *)

From S2P Require Import Prelude Words Fs.

Abbreviation len l := (Z.of_nat (length l)).

(** ** Chunks and contents *)

Lemma blit_spec l : forall f off j, blit f off l j = if decide (off <= j < off + len l) then default 0 (l !! Z.to_nat (j - off)) else f j.
Proof.
  induction l as [|b l IH]; intros f off j; cbn [blit length]; [by rewrite decide_False by lia|]. rewrite IH.
  destruct (decide (j = off)) as [->|Hne].
  - rewrite decide_False, decide_True by lia. rewrite fn_insert_eq, Z.sub_diag. done.
  - rewrite fn_insert_ne by done. repeat case_decide; try lia. by replace (Z.to_nat (j - off)) with (S (Z.to_nat (j - (off + 1)))) by lia.
Qed.

Lemma list_next_spec l i c : NoDup l -> l !! i = Some c -> list_next c l = default 0 (l !! S i).
Proof.
  revert i. induction l as [|x l IH]; intros i Hnd Hi; [done|]. apply NoDup_cons in Hnd as [Hx Hnd]. cbn [list_next]. destruct (Z.eqb_spec x c) as [->|Hne].
  - destruct i as [|i]; [by destruct l|]. cbn in Hi. by apply list_elem_of_lookup_2 in Hi.
  - destruct i as [|i]; [by injection Hi|]. by rewrite (IH i).
Qed.

(** The chunks [l] of [m] hold the bytes [b], [CHUNK_SIZE] in each but the last. *)
Record stored (m : gmap Z chunk) (l b : list Z) : Prop := Stored {
  st_length : len l = (len b + 1023) / 1024;
  st_chunk : forall i c, l !! i = Some c -> exists k, m !! c = Some k /\ used k = Z.min 1024 (len b - 1024 * Z.of_nat i) /\
    forall j, 0 <= j < used k -> b !! Z.to_nat (1024 * Z.of_nat i + j) = Some (buff k j);
}.

(** [d] written over [b] at [p]. *)
Definition overwrite (b : list Z) (p : Z) (d : list Z) : list Z := take (Z.to_nat p) b ++ d ++ drop (Z.to_nat p + length d) b.

Lemma overwrite_length b p d : 0 <= p <= len b -> len (overwrite b p d) = Z.max (len b) (p + len d).
Proof. intros Hp. unfold overwrite. rewrite !length_app, length_take, length_drop. lia. Qed.

Lemma overwrite_lookup b p d j : 0 <= p <= len b -> 0 <= j ->
  overwrite b p d !! Z.to_nat j = if decide (p <= j < p + len d) then d !! Z.to_nat (j - p) else b !! Z.to_nat j.
Proof.
  intros Hp Hj. unfold overwrite. case_decide as Hr.
  - rewrite lookup_app_r by (rewrite length_take; lia). rewrite length_take, lookup_app_l by lia. f_equal. lia.
  - destruct (decide (j < p)); [rewrite lookup_app_l by (rewrite length_take; lia); apply lookup_take_lt; lia|].
    rewrite lookup_app_r, length_take by (rewrite length_take; lia). rewrite lookup_app_r by lia. rewrite lookup_drop. f_equal. lia.
Qed.

Lemma overwrite_app b p d1 d2 : 0 <= p <= len b -> overwrite (overwrite b p d1) (p + len d1) d2 = overwrite b p (d1 ++ d2).
Proof.
  intros Hp. apply list_eq. intros j. rewrite <- (Nat2Z.id j). rewrite !overwrite_lookup by (rewrite ?overwrite_length; lia).
  rewrite length_app. repeat case_decide; try lia; try done.
  - rewrite lookup_app_r by lia. f_equal. lia.
  - by rewrite lookup_app_l by lia.
Qed.

Lemma overwrite_nil b p : 0 <= p <= len b -> overwrite b p [] = b.
Proof. intros Hp. unfold overwrite. cbn. rewrite Nat.add_0_r. apply take_drop. Qed.

(** The chunk a position is in. *)
Definition chunk_of (l : list Z) (p : Z) : Z := default 0 (l !! Z.to_nat (p / 1024)).

Lemma stored_index m l b p : stored m l b -> 0 <= p <= len b -> (p / 1024 < len l) \/ (p = len b /\ p mod 1024 = 0 /\ p / 1024 = len l).
Proof.
  intros Hs Hp. rewrite (st_length _ _ _ Hs). pose proof (Z.div_mod p 1024 ltac:(lia)). pose proof (Z.mod_pos_bound p 1024 ltac:(lia)).
  pose proof (Z.div_mod (len b + 1023) 1024 ltac:(lia)). pose proof (Z.mod_pos_bound (len b + 1023) 1024 ltac:(lia)).
  set (q := (len b + 1023) / 1024) in *. set (r := p / 1024) in *. nia.
Qed.

(** Writing within chunk [i], which may be a fresh one behind the last. *)
Lemma stored_write m l b p d c k : stored m l b -> NoDup l -> 0 <= p <= len b -> 0 < len d -> p mod 1024 + len d <= 1024 ->
  (l !! Z.to_nat (p / 1024) = Some c /\ m !! c = Some k \/ p / 1024 = len l /\ c ∉ l /\ used k = 0) ->
  let k' := Chunk (Z.max (used k) (p mod 1024 + len d)) (blit (buff k) (p mod 1024) d) in
  stored (<[c := k']> m) (if decide (p / 1024 = len l) then l ++ [c] else l) (overwrite b p d) /\
  used k' - used k = len (overwrite b p d) - len b.
Proof.
  intros Hs Hnd Hp Hd Hfit Hc k'. pose proof (Z.div_mod p 1024 ltac:(lia)) as Hdm. pose proof (Z.mod_pos_bound p 1024 ltac:(lia)).
  rewrite overwrite_length by done. set (i := p / 1024) in *. set (o := p mod 1024) in *.
  assert (Hi0 : 0 <= i) by (unfold i; apply Z.div_pos; lia).
  pose proof (Z.div_mod (len b + 1023) 1024 ltac:(lia)) as HL. pose proof (Z.mod_pos_bound (len b + 1023) 1024 ltac:(lia)). pose proof (st_length _ _ _ Hs) as Hlen. rewrite <- Hlen in HL.
  assert (Hk : used k = if decide (i = len l) then 0 else Z.min 1024 (len b - 1024 * i)).
  { destruct Hc as [[Hl Hm]|(E & _ & Hu)]; [|by rewrite decide_True]. rewrite decide_False by (apply lookup_lt_Some in Hl; lia).
    destruct (st_chunk _ _ _ Hs _ _ Hl) as (k2 & Hm2 & Hu & _). simplify_eq. rewrite Hu. lia. }
  assert (Hcase : i = len l /\ o = 0 /\ p = len b \/ i < len l) by (pose proof (stored_index m l b p Hs Hp) as Hix; fold i o in Hix; lia).
  assert (HU : used k' = Z.min 1024 (Z.max (len b) (p + len d) - 1024 * i)) by (cbn; rewrite Hk; case_decide; lia).
  split; [|rewrite HU, Hk; case_decide; lia].
  assert (Hnew : forall j, 0 <= j < used k' -> overwrite b p d !! Z.to_nat (1024 * i + j) = Some (buff k' j)).
  { clear Hk. intros j Hj. rewrite overwrite_lookup by lia. cbn [buff k']. rewrite blit_spec. repeat case_decide; try lia.
    - replace (1024 * i + j - p) with (j - o) by lia. destruct (lookup_lt_is_Some_2 d (Z.to_nat (j - o))) as [y Hy]; [lia|]. by rewrite Hy.
    - destruct Hc as [[Hl Hm]|(E & _ & Hu)]; [|cbn in Hj; lia]. destruct (st_chunk _ _ _ Hs _ _ Hl) as (k2 & Hm2 & Hu2 & Hb). simplify_eq.
      rewrite Z2Nat.id in Hu2, Hb by lia. apply Hb. cbn in Hj. lia. }
  assert (Hold : forall i' c', l !! i' = Some c' -> Z.of_nat i' <> i -> exists k, <[c:=k']> m !! c' = Some k /\ used k = Z.min 1024 (len (overwrite b p d) - 1024 * Z.of_nat i') /\
    forall j, 0 <= j < used k -> overwrite b p d !! Z.to_nat (1024 * Z.of_nat i' + j) = Some (buff k j)).
  { intros i' c' Hi' Hne. pose proof (lookup_lt_Some _ _ _ Hi') as Hlt. destruct (st_chunk _ _ _ Hs _ _ Hi') as (k2 & Hm2 & Hu2 & Hb). exists k2. split_and!.
    - rewrite lookup_insert_ne; [done|]. intros ->. destruct Hc as [[Hl _]|(_ & Hn & _)]; [|by apply list_elem_of_lookup_2 in Hi'].
      pose proof (NoDup_lookup _ _ _ _ Hnd Hl Hi'). lia.
    - rewrite Hu2, overwrite_length by done. lia.
    - intros j Hj. rewrite overwrite_lookup by lia. rewrite decide_False by lia. by apply Hb. }
  split.
  - rewrite overwrite_length by done. case_decide; [rewrite length_app; cbn|]; apply Z.div_unique with (r := (Z.max (len b) (p + len d) + 1023) - 1024 * (if decide (i = len l) then len l + 1 else len l)); rewrite ?decide_True, ?decide_False by lia; lia.
  - intros i' c' Hi'. rewrite overwrite_length by done. case_decide as Ei.
    + destruct (decide (i' < length l)%nat); [rewrite lookup_app_l in Hi' by lia; rewrite <- (overwrite_length b p d) by done; apply Hold; [done|lia]|].
      rewrite lookup_app_r in Hi' by lia. destruct (i' - length l)%nat eqn:E; [|done].
      injection Hi' as <-. exists k'. replace (Z.of_nat i') with i by lia. split; [by rewrite lookup_insert_eq|done].
    + destruct (decide (Z.of_nat i' = i)) as [Ei'|Hne]; [|rewrite <- (overwrite_length b p d) by done; by apply Hold].
      destruct Hc as [[Hl _]|(E & _)]; [|lia]. assert (c' = c) as -> by (rewrite <- Ei', Nat2Z.id in Hl; congruence).
      exists k'. rewrite Ei'. split; [by rewrite lookup_insert_eq|done].
Qed.

(** ** Handles *)

(** File [f] is open on a file that holds [b]. *)
Record handle (s : vfs) (f : Z) (x : file) (e : dentry) (n : inode) (l b : list Z) : Prop := Handle {
  hd_file : files s !! f = Some x;
  hd_dentry : dentries s !! p_dentry (f_path x) = Some e;
  hd_inode : inodes s !! d_inode e = Some n;
  hd_record : records s !! i_private n = Some l;
  hd_stored : stored (chunks s) l b;
  hd_nodup : NoDup l;
  hd_addrs : Forall (fun c => 0 < c < fresh s) l;
  hd_head : (i_private n ∉ l) /\ 0 < i_private n < fresh s;
  hd_size : i_size n = len b;
  hd_small : len b < 2 ^ 31;
}.

Definition with_private (c : Z) (f : Z) (x : file) (s : vfs) : vfs := set_files (<[f := set_f_private c x]> (files s)) s.

Lemma with_private_same f x s : files s !! f = Some x -> with_private (f_private x) f x s = s.
Proof. intros Hf. unfold with_private. replace (set_f_private (f_private x) x) with x by (by destruct x). rewrite insert_id by done. by destruct s. Qed.

Lemma with_private_twice c c' f x s : with_private c f (set_f_private c' x) (with_private c' f x s) = with_private c f x s.
Proof. unfold with_private. cbn. by rewrite insert_insert_eq. Qed.

Lemma set_private_spec s f x c (Q : unit -> vfs -> Prop) : files s !! f = Some x -> Q tt (with_private c f x s) -> runs (set_private f c) s Q.
Proof. intros Hf HQ. unfold set_private, file_at. mstep. eapply runs_read; [exact Hf|]. unfold put_file. by mstep. Qed.

Lemma chunk_of_lookup l p c : Forall (fun c => 0 < c) l -> chunk_of l p = c -> c <> 0 -> l !! Z.to_nat (p / 1024) = Some c.
Proof. unfold chunk_of. intros _ <- Hc. by destruct (l !! _). Qed.

Lemma chunk_of_zero (l : list Z) F p : Forall (fun c => 0 < c < F) l -> chunk_of l p = 0 -> 0 <= p -> len l <= p / 1024.
Proof.
  unfold chunk_of. intros Hl Hc Hp. destruct (l !! Z.to_nat (p / 1024)) as [c|] eqn:E; [|apply lookup_ge_None in E; pose proof (Z.div_pos p 1024 Hp); lia].
  cbn in Hc. eapply Forall_lookup_1 in Hl; [|exact E]. cbn in Hl. lia.
Qed.

(** Where the position is after [c], the chunk that holds what comes before it, was used. *)
Lemma chunk_for_spec l i c p : NoDup l -> l !! i = Some c -> 1024 * Z.of_nat i < p <= 1024 * Z.of_nat i + 1024 -> chunk_for p c l = chunk_of l p.
Proof.
  intros Hnd Hi Hp. unfold chunk_for, chunk_of, CHUNK_SIZE. pose proof (Z.div_mod p 1024 ltac:(lia)). pose proof (Z.mod_pos_bound p 1024 ltac:(lia)).
  destruct (Z.eqb_spec (p mod 1024) 0) as [E|E]; cbn [negb].
  - replace (Z.to_nat (p / 1024)) with (S i) by lia. by apply list_next_spec.
  - replace (Z.to_nat (p / 1024)) with i by lia. by rewrite Hi.
Qed.

(** ** Reading *)

Lemma chunk_read_spec s l b p ln c (Q : list Z -> vfs -> Prop) : stored (chunks s) l b -> 0 <= p <= len b -> len b < 2 ^ 31 -> 0 <= ln ->
  l !! Z.to_nat (p / 1024) = Some c ->
  Q (take (Z.to_nat (Z.min ln (1024 - p mod 1024))) (drop (Z.to_nat p) b)) s -> runs (chunk_read c ln (p mod CHUNK_SIZE)) s Q.
Proof.
  intros Hs Hp Hb Hln Hc HQ. destruct (st_chunk _ _ _ Hs _ _ Hc) as (k & Hk & Hu & Hd). unfold chunk_read, CHUNK_SIZE.
  pose proof (Z.div_mod p 1024 ltac:(lia)) as Hdm. pose proof (Z.mod_pos_bound p 1024 ltac:(lia)). pose proof (Z.div_pos p 1024 ltac:(lia) ltac:(lia)).
  rewrite Z2Nat.id in Hu, Hd by lia. set (i := p / 1024) in *. set (o := p mod 1024) in *.
  mstep. eapply runs_read; [exact Hk|]. mstep. mstep; [rewrite Z.gtb_ltb; apply Z.ltb_ge; lia|]. mstep. rewrite MIN_min, uwrap_small by lia.
  replace (_ <$> _) with (take (Z.to_nat (Z.min ln (1024 - o))) (drop (Z.to_nat p) b)); [done|].
  apply list_eq. intros j. rewrite list_lookup_fmap. destruct (decide (Z.of_nat j < Z.min (used k - o) ln)).
  - rewrite lookup_seqZ_lt, lookup_take_lt, lookup_drop by lia. replace (Z.to_nat p + j)%nat with (Z.to_nat (1024 * i + (o + Z.of_nat j))) by lia. by rewrite Hd by lia.
  - rewrite lookup_seqZ_ge by lia. apply lookup_ge_None. rewrite length_take, length_drop. lia.
Qed.

(** The state of the loop: [out] has been read, and the walk goes on at the next
    position, or the end was met, or all was read. *)
Definition read_inv (s : vfs) (f : Z) (x : file) (l b : list Z) (pos ln : Z) (v : Z * list Z) (s' : vfs) : Prop :=
  let '(c, out) := v in
  out = take (length out) (drop (Z.to_nat pos) b) /\ pos + len out <= len b /\
  (len out < ln /\ s' = s /\ c = chunk_of l (pos + len out) \/
   len out < ln /\ s' = s /\ c = 0 /\ pos + len out = len b \/
   len out = ln /\ s' = with_private (chunk_of l (pos + ln)) f x s).

Definition read_mu (l : list Z) (pos ln : Z) (v : Z * list Z) : nat :=
  if (v.1 =? 0) || (len v.2 =? ln) then O else S (length l - Z.to_nat ((pos + len v.2) / 1024)).

Lemma take_more {A} (b : list A) (n m : nat) : take n b ++ take m (drop n b) = take (n + m) b.
Proof. by rewrite take_take_drop. Qed.

Lemma take_length_take {A} (b : list A) (n : nat) : take (length (take n b)) b = take n b.
Proof. rewrite length_take, <- take_take. by rewrite (take_ge b (length b)). Qed.

Lemma read_round_spec s f x e n l b pos ln v s' : handle s f x e n l b -> 0 <= pos <= len b -> 0 <= ln < 2 ^ 31 ->
  read_inv s f x l b pos ln v s' ->
  runs (read_round f (i_private n) ln pos v) s' (fun r s'' =>
    match r with
    | inl v' => read_inv s f x l b pos ln v' s'' /\ (read_mu l pos ln v' < read_mu l pos ln v)%nat
    | inr out => exists v', v'.2 = out /\ read_inv s f x l b pos ln v' s'' /\ (len out = ln \/ v'.1 = 0 /\ pos + len out = len b)
    end).
Proof.
  intros Hh Hp Hln. destruct v as [c out]. intros (Eo & Hlo & Hm). pose proof (hd_small _ _ _ _ _ _ _ Hh) as Hsm. unfold read_round.
  rewrite swrap_small by lia. rewrite uwrap_small by (destruct Hm as [(?&_)|[(?&_)|(?&_)]]; lia).
  destruct (Z.eqb_spec (ln - len out) 0) as [Ez|Ez]; cbn [orb].
  { mstep. exists (c, out). split; [done|]. split; [done|]. left. lia. }
  destruct (Z.eqb_spec c 0) as [->|Hc].
  { mstep. exists (0, out). split; [done|]. split; [done|]. right. split; [done|]. destruct Hm as [(_ & _ & E)|[(_ & _ & _ & E)|(? & _)]]; [|done|lia].
    symmetry in E. apply (chunk_of_zero l (fresh s)) in E; [|apply Hh|lia]. destruct (stored_index _ _ _ (pos + len out) (hd_stored _ _ _ _ _ _ _ Hh)); lia. }
  destruct Hm as [(Hlt & -> & E)|[(_ & _ & ? & _)|(? & _)]]; [|lia..]. symmetry in E. set (p := pos + len out) in *.
  assert (Hi : l !! Z.to_nat (p / 1024) = Some c) by (apply chunk_of_lookup; [|done..]; eapply Forall_impl; [apply Hh|]; intros ? ?; cbn in *; lia).
  rewrite (uwrap_small 32 p) by lia. mstep. eapply chunk_read_spec; [apply Hh|lia|lia|lia|exact Hi|]. set (bs := take _ _).
  pose proof (Z.div_mod p 1024 ltac:(lia)) as Hdm. pose proof (Z.mod_pos_bound p 1024 ltac:(lia)). pose proof (Z.div_pos p 1024 ltac:(lia) ltac:(lia)).
  assert (Hbs : len bs = Z.min (Z.min (ln - len out) (1024 - p mod 1024)) (len b - p)) by (unfold bs; rewrite length_take, length_drop; lia).
  mstep. eapply runs_read; [apply Hh|]. rewrite swrap_small by lia. rewrite (uwrap_small 32 (ln - _)), (uwrap_small 32 (pos + _)) by lia.
  unfold list_is_last. destruct (Z.eqb_spec c (i_private n)) as [->|_]; [by apply list_elem_of_lookup_2, (proj1 (hd_head _ _ _ _ _ _ _ Hh)) in Hi|]. rewrite orb_false_r.
  rewrite (list_next_spec l (Z.to_nat (p / 1024)) c (hd_nodup _ _ _ _ _ _ _ Hh) Hi).
  assert (Eo' : out ++ bs = take (length (out ++ bs)) (drop (Z.to_nat pos) b)).
  { rewrite length_app, <- take_more, <- Eo. f_equal. rewrite drop_drop. replace (Z.to_nat pos + length out)%nat with (Z.to_nat p) by lia.
    unfold bs. by rewrite take_length_take. }
  assert (Hmu : read_mu l pos ln (c, out) = S (length l - Z.to_nat (p / 1024))).
  { unfold read_mu. cbn [fst snd]. by rewrite (proj2 (Z.eqb_neq c 0)), (proj2 (Z.eqb_neq (len out) ln)) by lia. }
  rewrite Hmu. apply lookup_lt_Some in Hi as Hilt. pose proof (st_length _ _ _ (hd_stored _ _ _ _ _ _ _ Hh)) as HL.
  mstep. destruct (Z.eqb_spec (ln - (len out + len bs)) 0) as [Ed|Ed].
  - eapply set_private_spec; [apply Hh|]. mstep. rewrite (chunk_for_spec l (Z.to_nat (p / 1024)) c); [|apply Hh|done|lia]. split.
    + split; [done|]. rewrite length_app. split; [lia|]. right; right. split; [lia|]. do 2 f_equal. lia.
    + unfold read_mu. cbn [fst snd]. rewrite length_app, (proj2 (Z.eqb_eq _ ln)), orb_true_r by lia. lia.
  - assert (Hend : len bs <> 1024 - p mod 1024 -> default 0 (l !! S (Z.to_nat (p / 1024))) = 0).
    { intros Hf. rewrite lookup_ge_None_2; [done|].
      pose proof (Z.div_mod (len b + 1023) 1024 ltac:(lia)). pose proof (Z.mod_pos_bound (len b + 1023) 1024 ltac:(lia)). lia. }
    mstep. mstep. split.
    + split; [done|]. rewrite length_app. split; [lia|]. destruct (decide (len bs = 1024 - p mod 1024)) as [Ef|Hf].
      * left. split; [lia|]. split; [done|]. unfold chunk_of. do 2 f_equal. rewrite <- (Z.div_unique (pos + Z.of_nat (length out + length bs)) 1024 (p / 1024 + 1) 0) by lia. lia.
      * right; left. split; [lia|]. split; [done|]. split; [by apply Hend|lia].
    + unfold read_mu. cbn [fst snd]. destruct (decide (len bs = 1024 - p mod 1024)) as [Ef|Hf]; [|rewrite Hend by done; cbn; lia].
      destruct (_ || _); [lia|]. rewrite length_app, <- (Z.div_unique (pos + Z.of_nat (length out + length bs)) 1024 (p / 1024 + 1) 0) by lia. lia.
Qed.

(** Where the handle's chunk pointer stands for: it is not moved by a read that meets the end. *)
Definition read_chunk_pos (b : list Z) (pos ln : Z) : Z := if pos + ln <=? len b then pos + ln else pos.

Lemma record_read_spec s f x e n l b pos ln (Q : list Z -> vfs -> Prop) : handle s f x e n l b -> 0 <= pos <= len b -> 0 <= ln < 2 ^ 31 ->
  f_offset x = pos -> f_private x = chunk_of l pos ->
  (let out := take (Z.to_nat ln) (drop (Z.to_nat pos) b) in
   Q out (set_files (<[f := File (f_path x) (f_ops x) (pos + len out) (chunk_of l (read_chunk_pos b pos ln))]> (files s)) s)) ->
  runs (record_read f ln pos) s Q.
Proof.
  intros Hh Hp Hln Hoff Hpr HQ. pose proof (hd_small _ _ _ _ _ _ _ Hh) as Hsm. unfold record_read, file_inode. mstep. eapply runs_read; [apply Hh|].
  mstep. mstep. eapply runs_read; [apply Hh|]. mstep. eapply runs_read; [apply Hh|]. mstep. mstep. eapply runs_read; [apply Hh|].
  rewrite Hpr. destruct (Z.eqb_spec (chunk_of l pos) 0) as [E|Hc].
  { mstep. apply (chunk_of_zero l (fresh s)) in E as El; [|apply Hh|lia]. destruct (stored_index _ _ _ pos (hd_stored _ _ _ _ _ _ _ Hh)) as [|(Epos & Hmod & _)]; [lia|lia|].
    cbv zeta in HQ. rewrite drop_ge, take_nil in HQ by lia. cbn [length] in HQ. rewrite Z.add_0_r in HQ. unfold read_chunk_pos in HQ.
    replace (chunk_of l (if pos + ln <=? len b then pos + ln else pos)) with (f_private x) in HQ
      by (rewrite Hpr; destruct (Z.leb_spec (pos + ln) (len b)); [replace (pos + ln) with pos by lia|]; done).
    replace (set_files _ s) with s in HQ; [done|]. symmetry. rewrite <- Hoff. replace (File _ _ _ _) with x by (by destruct x). rewrite insert_id by apply Hh. by destruct s. }
  mstep. eapply runs_read; [apply Hh|]. mstep.
  eapply runs_mono; [eapply (runs_iterM (read_inv s f x l b pos ln) (fun v _ => read_mu l pos ln v) _ (fun out s'' =>
    exists v', v'.2 = out /\ read_inv s f x l b pos ln v' s'' /\ (len out = ln \/ v'.1 = 0 /\ pos + len out = len b)))|].
  - intros v s' Hv. by eapply read_round_spec.
  - split; [done|]. cbn [length]. change (Z.of_nat 0) with 0. rewrite Z.add_0_r. split; [lia|]. destruct (decide (ln = 0)) as [->|]; [right; right|left; split; [cbn; lia|]; split; done].
    split; [done|]. by rewrite Z.add_0_r, <- Hpr, with_private_same by apply Hh.
  - unfold read_mu. cbn [fst snd]. destruct (_ || _); [lia|]. apply chunk_of_lookup with (l := l) (p := pos) in Hc; [|eapply Forall_impl; [apply Hh|]; intros ? ?; cbn in *; lia|done]. lia.
  - intros out s' ([c out'] & <- & (Eo & Hlo & Hm) & Hend). cbn [fst snd] in *. unfold advance.
    assert (Eout : out' = take (Z.to_nat ln) (drop (Z.to_nat pos) b)).
    { destruct Hend as [El|[_ El]]; [rewrite Eo; f_equal; lia|]. rewrite Eo, !take_ge; [done|rewrite length_drop..]; [|lia].
      destruct Hm as [(? & _)|[(? & _)|(? & _)]]; lia. }
    assert (Es : s' = with_private (chunk_of l (read_chunk_pos b pos ln)) f x s).
    { unfold read_chunk_pos. destruct Hm as [(Hlt & -> & _)|[(Hlt & -> & _)|(El & ->)]].
      - destruct (Z.leb_spec (pos + ln) (len b)); [lia|]. by rewrite <- Hpr, with_private_same by apply Hh.
      - destruct (Z.leb_spec (pos + ln) (len b)); [lia|]. by rewrite <- Hpr, with_private_same by apply Hh.
      - by rewrite (proj2 (Z.leb_le _ _)) by lia. }
    mstep. mstep. eapply runs_read; [rewrite Es; cbn; apply lookup_insert_eq|]. unfold put_file. mstep. mstep. rewrite Es. cbn [f_offset set_f_private set_f_offset]. rewrite Hoff.
    rewrite swrap_small, uwrap_small by lia. cbv zeta in HQ. rewrite <- Eout in HQ. unfold with_private. cbn. rewrite insert_insert_eq. exact HQ.
Qed.

(** ** Writing *)

Section Write.
Context (junk_b : Z -> Z).

(** One chunk is written, after a fresh one was added if the position is behind the last. *)
Lemma write_step {R} s f x e n l b p d c (rest : Z -> Z -> M vfs R) (Q : R -> vfs -> Prop) :
  handle s f x e n l b -> 0 <= p <= len b -> 0 < len d -> p + len d < 2 ^ 31 -> c = chunk_of l p ->
  let w := Z.min (1024 - p mod 1024) (len d) in let b' := overwrite b p (take (Z.to_nat w) d) in
  (forall s' l' c', handle s' f x e (set_i_size (len b') n) l' b' -> l' !! Z.to_nat (p / 1024) = Some c' -> fresh s <= fresh s' -> runs (rest c' w) s' Q) ->
  runs (c' ← (if c =? 0 then chunk_alloc junk_b (i_private n) else mret c); k ← chunk_write c' (d_inode e) d (len d) (p mod CHUNK_SIZE); rest c' k) s Q.
Proof.
  intros Hh Hp Hd Hsm Ec w b' HQ. destruct Hh as [Hf He Hn Hr Hst Hnd Had [Hhd Hrf] Hsz Hb].
  pose proof (Z.mod_pos_bound p 1024 ltac:(lia)) as Hmod. assert (Hw : 0 < w <= len d) by lia.
  assert (Htw : len (take (Z.to_nat w) d) = w) by (rewrite length_take; lia).
  assert (Hb' : len b' = Z.max (len b) (p + w)) by (unfold b'; rewrite overwrite_length, Htw; lia).
  (* the write proper, from the state in which the chunk exists *)
  assert (Hwrite : forall s1 c' k, files s1 = files s -> dentries s1 = dentries s -> inodes s1 = inodes s -> fresh s <= fresh s1 -> chunks s1 !! c' = Some k ->
    records s1 = <[i_private n := if decide (p / 1024 = len l) then l ++ [c'] else l]> (records s) -> (forall j, j <> c' -> chunks s1 !! j = chunks s !! j) -> 0 < c' < fresh s1 ->
    (l !! Z.to_nat (p / 1024) = Some c' /\ chunks s !! c' = Some k \/ p / 1024 = len l /\ c' ∉ l /\ c' <> i_private n /\ used k = 0) ->
    runs (k ← chunk_write c' (d_inode e) d (len d) (p mod CHUNK_SIZE); rest c' k) s1 Q).
  { intros s1 c' k Ef Ed Ei Hfr Hk Er Hoth Hc' Hcase.
    assert (Hcase' : l !! Z.to_nat (p / 1024) = Some c' /\ chunks s !! c' = Some k \/ p / 1024 = len l /\ (c' ∉ l) /\ used k = 0) by tauto.
    destruct (stored_write (chunks s) l b p (take (Z.to_nat w) d) c' k Hst Hnd Hp) as [Hst' Hdu]; [lia|lia|exact Hcase'|]. rewrite Htw in Hst', Hdu. fold b' in Hst', Hdu.
    cbn [used] in Hdu. assert (Hu : 0 <= used k <= 1024).
    { destruct Hcase as [[Hl Hm]|(_ & _ & _ & ->)]; [|lia]. destruct (st_chunk _ _ _ Hst _ _ Hl) as (k2 & Hm2 & Hu2 & _). simplify_eq.
      apply lookup_lt_Some in Hl. pose proof (st_length _ _ _ Hst). pose proof (Z.div_mod (len b + 1023) 1024 ltac:(lia)). pose proof (Z.mod_pos_bound (len b + 1023) 1024 ltac:(lia)). lia. }
    unfold chunk_write, CHUNK_SIZE. mstep. mstep. eapply runs_read; [exact Hk|]. mstep. mstep; [rewrite Z.geb_leb; apply Z.leb_gt; lia|].
    rewrite MIN_min, MAX_max, !uwrap_small by lia. fold w. unfold put_chunk, put_inode. mstep. mstep. mstep. eapply runs_read; [cbn; rewrite Ei; exact Hn|]. mstep. mstep.
    rewrite (uwrap_small 32 (p mod 1024 + w)), Hsz, Hdu, (uwrap_small 32 (len b' - len b)), uwrap_small by lia. replace (len b + (len b' - len b)) with (len b') by lia. mstep.
    eapply (HQ _ (if decide (p / 1024 = len l) then l ++ [c'] else l)); [|case_decide as Eil; [rewrite lookup_app_r by lia; by replace (Z.to_nat (p / 1024) - length l)%nat with 0%nat by lia|by destruct Hcase as [[? _]|[? _]]]|done].
    split; cbn.
    - by rewrite Ef.
    - by rewrite Ed.
    - apply lookup_insert_eq.
    - rewrite Er. apply lookup_insert_eq.
    - destruct Hst' as [Hl1 Hl2]. split; [exact Hl1|]. intros i c0 Hi. destruct (Hl2 i c0 Hi) as (k0 & Hk0 & Hk1). exists k0. split; [|exact Hk1].
      destruct (decide (c0 = c')) as [->|]; [by rewrite lookup_insert_eq in Hk0 |- *|]. rewrite lookup_insert_ne in Hk0 |- * by done. by rewrite Hoth.
    - case_decide; [|done]. destruct Hcase as [[Hl _]|(_ & Hnl & _)]; [apply lookup_lt_Some in Hl; lia|]. apply NoDup_app. split; [done|]. split; [set_solver|apply NoDup_singleton].
    - assert (Forall (fun c => 0 < c < fresh s1) l) by (eapply Forall_impl; [exact Had|]; intros ? ?; cbn in *; lia). case_decide; [|done]. apply Forall_app. split; [done|]. by apply Forall_singleton.
    - split; [|lia]. case_decide; [|done]. destruct Hcase as [[Hl _]|(_ & _ & Hne & _)]; [apply lookup_lt_Some in Hl; lia|]. set_solver.
    - done.
    - lia. }
  destruct (Z.eqb_spec c 0) as [E0|Hne].
  - rewrite E0 in Ec. symmetry in Ec. apply (chunk_of_zero l (fresh s)) in Ec as El; [|done|lia]. destruct (stored_index _ _ _ p Hst Hp) as [|(_ & _ & Eil)]; [lia|].
    unfold chunk_alloc, new_addr, put_chunk, put_record. do 10 mstep. eapply runs_read; [exact Hr|]. do 3 mstep.
    eapply (Hwrite _ (fresh s) (Chunk 0 junk_b)); try done; cbn; [lia|apply lookup_insert_eq|by rewrite decide_True|intros j Hj; by rewrite lookup_insert_ne|lia|].
    right. split; [done|]. split; [|split; [lia|done]]. intros Hin. rewrite Forall_forall in Had. specialize (Had _ Hin). cbn in Had. lia.
  - mstep. mstep. symmetry in Ec. apply chunk_of_lookup in Ec; [|eapply Forall_impl; [exact Had|]; intros ? ?; cbn in *; lia|done].
    destruct (st_chunk _ _ _ Hst _ _ Ec) as (k & Hk & _). pose proof (lookup_lt_Some _ _ _ Ec). pose proof (Z.div_pos p 1024 ltac:(lia) ltac:(lia)).
    eapply (Hwrite s c k); try done; [rewrite decide_False by lia; symmetry; by apply insert_id|by eapply Forall_lookup_1 in Had|by left].
Qed.

Lemma handle_file s f x x' e n l b : handle s f x e n l b -> p_dentry (f_path x') = p_dentry (f_path x) -> handle (set_files (<[f := x']> (files s)) s) f x' e n l b.
Proof. intros [] E. split; try done; cbn; [apply lookup_insert_eq|by rewrite E]. Qed.

Lemma set_i_size_twice a b n : set_i_size a (set_i_size b n) = set_i_size a n.
Proof. done. Qed.
Lemma set_i_size_same n : set_i_size (i_size n) n = n.
Proof. by destruct n. Qed.

Definition write_inv (f : Z) (x : file) (e : dentry) (n : inode) (b data : list Z) (pos : Z) (v : Z * Z) (s : vfs) : Prop :=
  let '(c, amt) := v in
  let b' := overwrite b pos (take (Z.to_nat amt) data) in
  exists l, 0 <= amt <= len data /\
  (amt < len data /\ handle s f x e (set_i_size (len b') n) l b' /\ c = chunk_of l (pos + amt) \/
   amt = len data /\ handle s f (set_f_private (chunk_of l (pos + amt)) x) e (set_i_size (len b') n) l b').

Lemma write_round_spec f x e n b data pos v s : 0 <= pos <= len b -> pos + len data < 2 ^ 31 ->
  write_inv f x e n b data pos v s ->
  runs (write_round junk_b f (d_inode e) (i_private n) data (len data) pos v) s (fun r s' =>
    match r with
    | inl v' => write_inv f x e n b data pos v' s' /\ (Z.to_nat (len data - v'.2) < Z.to_nat (len data - v.2))%nat
    | inr amt => amt = len data /\ exists c, write_inv f x e n b data pos (c, amt) s'
    end).
Proof.
  intros Hp Hsm. destruct v as [c amt]. intros (l & Hamt & Hm). unfold write_round. rewrite uwrap_small by lia. destruct (Z.eqb_spec (len data - amt) 0) as [E|Hne].
  { mstep. split; [lia|]. exists c, l. by split. }
  destruct Hm as [(Hlt & Hh & Hc)|[? _]]; [|lia]. set (b1 := overwrite b pos (take (Z.to_nat amt) data)) in *. set (d := drop (Z.to_nat amt) data).
  assert (Ht : len (take (Z.to_nat amt) data) = amt) by (rewrite length_take; lia).
  assert (Hb1 : len b1 = Z.max (len b) (pos + amt)) by (unfold b1; rewrite overwrite_length, Ht; lia).
  assert (Hd : len d = len data - amt) by (unfold d; rewrite length_drop; lia). rewrite <- Hd. rewrite (uwrap_small 32 (pos + amt)) by lia.
  eapply (write_step s f x e (set_i_size (len b1) n) l b1 (pos + amt) d c); [exact Hh|lia|lia|lia|exact Hc|]. set (w := Z.min _ _). pose proof (Z.mod_pos_bound (pos + amt) 1024 ltac:(lia)) as Hmod.
  assert (Hover : overwrite b1 (pos + amt) (take (Z.to_nat w) d) = overwrite b pos (take (Z.to_nat (amt + w)) data)).
  { unfold b1, d. replace (pos + amt) with (pos + len (take (Z.to_nat amt) data)) by lia. rewrite overwrite_app by lia. f_equal.
    rewrite take_more. f_equal. lia. }
  rewrite Hover, set_i_size_twice. intros s1 l1 c1 H1 Hl1 _. mstep. eapply runs_read; [apply H1|]. rewrite swrap_small by lia. rewrite !uwrap_small by lia.
  pose proof (Z.div_mod (pos + amt) 1024 ltac:(lia)). pose proof (Z.div_pos (pos + amt) 1024 ltac:(lia) ltac:(lia)).
  destruct (Z.eqb_spec (len data - (amt + w)) 0) as [Ef|Hf]; cbn [negb].
  - mstep. eapply set_private_spec; [apply H1|]. mstep. split; [|cbn; lia]. exists l1. split; [lia|]. right. split; [lia|].
    rewrite (chunk_for_spec l1 _ c1 _ (hd_nodup _ _ _ _ _ _ _ H1) Hl1) by lia. rewrite Z.add_assoc. eapply handle_file; [exact H1|done].
  - mstep. split; [|cbn; lia]. exists l1. split; [lia|]. left. split; [lia|]. split; [done|].
    rewrite (list_next_spec _ _ _ (hd_nodup _ _ _ _ _ _ _ H1) Hl1). unfold chunk_of. do 2 f_equal.
    rewrite <- (Z.div_unique (pos + (amt + w)) 1024 ((pos + amt) / 1024 + 1) 0) by lia. lia.
Qed.

Lemma record_write_spec s f x e n l b pos data (Q : Z -> vfs -> Prop) : handle s f x e n l b -> 0 <= pos <= len b -> pos + len data < 2 ^ 31 ->
  f_offset x = pos -> f_private x = chunk_of l pos ->
  (forall s' l', let b' := overwrite b pos data in
     handle s' f (File (f_path x) (f_ops x) (pos + len data) (chunk_of l' (pos + len data))) e (set_i_size (len b') n) l' b' -> Q (len data) s') ->
  runs (record_write junk_b f data (len data) pos) s Q.
Proof.
  intros Hh Hp Hsm Hoff Hpr HQ. unfold record_write, file_inode. mstep. eapply runs_read; [apply Hh|].
  mstep. mstep. eapply runs_read; [apply Hh|]. mstep. eapply runs_read; [apply Hh|]. mstep. mstep. eapply runs_read; [apply Hh|]. mstep.
  eapply runs_mono; [eapply (runs_iterM (write_inv f x e n b data pos) (fun v _ => Z.to_nat (len data - v.2)) _
    (fun amt s' => amt = len data /\ exists c, write_inv f x e n b data pos (c, amt) s'))|].
  - intros v s' Hv. by apply write_round_spec.
  - exists l. split; [lia|]. rewrite overwrite_nil by done. rewrite Z.add_0_r, <- (hd_size _ _ _ _ _ _ _ Hh), set_i_size_same.
    destruct (decide (len data = 0)); [right; split; [lia|]|left; split; [lia|done]]. rewrite <- Hpr. by replace (set_f_private (f_private x) x) with x by (by destruct x).
  - cbn. lia.
  - intros amt s' (-> & c & l' & _ & [[? _]|[_ H]]); [lia|]. rewrite Nat2Z.id, take_ge in H by lia. unfold advance, put_file. mstep. mstep. eapply runs_read; [apply H|]. mstep. mstep.
    cbn [f_offset set_f_private set_f_offset f_path f_ops f_private]. rewrite Hoff, uwrap_small by lia. apply (HQ _ l'). by eapply handle_file; [exact H|].
Qed.
End Write.

(** ** Seeking *)

Lemma seek_chunks_spec s b off : forall l0 l, stored (chunks s) (l0 ++ l) b -> len b < 2 ^ 31 -> 1024 * len l0 <= off < 2 ^ 31 ->
  match l !! Z.to_nat (off / 1024 - len l0) with
  | Some c => if off <=? len b then runs (seek_chunks l off (1024 * len l0)) s (fun c' s' => c' = c /\ s' = s) else seek_chunks l off (1024 * len l0) s = Panic
  | None => seek_chunks l off (1024 * len l0) s = Panic
  end.
Proof.
  intros l0 l. revert l0. induction l as [|c l IH]; intros l0 Hst Hb Hoff; [done|]. cbn [seek_chunks].
  pose proof (Z.div_mod off 1024 ltac:(lia)) as Hdm. pose proof (Z.mod_pos_bound off 1024 ltac:(lia)) as Hmod. unfold CHUNK_SIZE.
  pose proof (st_length _ _ _ Hst) as HL. rewrite length_app in HL. cbn [length] in HL.
  pose proof (Z.div_mod (len b + 1023) 1024 ltac:(lia)). pose proof (Z.mod_pos_bound (len b + 1023) 1024 ltac:(lia)). rewrite !uwrap_small by lia.
  destruct (Z.ltb_spec (off - 1024 * len l0) 1024) as [Hin|Hout].
  - replace (Z.to_nat (off / 1024 - len l0)) with 0%nat by lia. change ((c :: l) !! 0%nat) with (Some c). cbv iota. destruct (st_chunk _ _ _ Hst (length l0) c) as (k & Hk & Hu & _); [by rewrite lookup_app_r, Nat.sub_diag by lia|].
    destruct (Z.leb_spec off (len b)).
    + mstep. eapply runs_read; [exact Hk|]. rewrite Z.gtb_ltb, (proj2 (Z.ltb_ge _ _)) by lia. by do 3 mstep.
    + apply runs_then. eapply runs_read; [exact Hk|]. by rewrite Z.gtb_ltb, (proj2 (Z.ltb_lt _ _)) by lia.
  - replace (Z.to_nat (off / 1024 - len l0)) with (S (Z.to_nat (off / 1024 - len (l0 ++ [c])))) by (rewrite length_app; cbn; lia). cbn [lookup list_lookup].
    replace (1024 * len l0 + 1024) with (1024 * len (l0 ++ [c])) by (rewrite length_app; cbn; lia). apply IH; [by rewrite <- app_assoc|done|rewrite length_app; cbn; lia].
Qed.

(** ** A handle as a sequence of bytes with a position *)

(** File [f] is open on a regular file that holds [b], at [pos]. *)
Definition open_at (s : vfs) (f : Z) (b : list Z) (pos : Z) : Prop :=
  exists x e n l, handle s f x e n l b /\ f_ops x = ramfs_file_ops /\ has (i_flags n) INODE_FLAG_DIRECTORY = false /\
    f_offset x = pos /\ f_private x = chunk_of l pos /\ 0 <= pos <= len b.

Inductive file_op := OpRead (n : Z) | OpWrite (d : list Z) | OpSeek (o : Z).

(** What the operation answers, and the file after it; [None] is a panic. *)
Definition file_step (o : file_op) (st : list Z * Z) : option (io * (list Z * Z)) :=
  let '(b, pos) := st in
  match o with
  | OpRead n => let out := take (Z.to_nat n) (drop (Z.to_nat pos) b) in Some (IoBytes out, (b, pos + len out))
  | OpWrite d => Some (IoCount (len d), (overwrite b pos d, pos + len d))
  | OpSeek o => if (o <=? len b) && negb ((o =? len b) && (o mod 1024 =? 0)) then Some (IoCount o, (b, o)) else None
  end.

(** A read that meets the end must start in the last chunk. *)
Definition file_op_ok (o : file_op) (st : list Z * Z) : Prop :=
  let '(b, pos) := st in
  match o with
  | OpRead n => 0 <= n < 2 ^ 31 /\ (pos + n <= len b \/ pos / 1024 = len b / 1024)
  | OpWrite d => pos + len d < 2 ^ 31
  | OpSeek o => 0 <= o < 2 ^ 31
  end.

Section Handle.
Context (junk_b : Z -> Z).

Definition file_do (f : Z) (o : file_op) : M vfs io :=
  match o with
  | OpRead n => vfs_read f n
  | OpWrite d => vfs_write junk_b f d (len d)
  | OpSeek o => r ← vfs_seek f o SEEK_SET; mret (IoCount r)
  end.

Lemma file_read_enter s f x e n l b (g : M vfs io) Q : handle s f x e n l b -> has (i_flags n) INODE_FLAG_DIRECTORY = false ->
  runs g s Q -> runs (i ← file_inode f; n ← inode_at i; if has (i_flags n) INODE_FLAG_DIRECTORY then mret (IoError (- EISDIR)) else g) s Q.
Proof.
  intros Hh Hfl HQ. unfold file_inode. mstep. mstep. eapply runs_read; [apply Hh|]. mstep. eapply runs_read; [apply Hh|]. mstep. mstep. eapply runs_read; [apply Hh|]. by rewrite Hfl.
Qed.

Lemma chunk_of_same l p q : p / 1024 = q / 1024 -> chunk_of l p = chunk_of l q.
Proof. unfold chunk_of. by intros ->. Qed.

Lemma vfs_read_open s f b pos n : open_at s f b pos -> file_op_ok (OpRead n) (b, pos) ->
  runs (vfs_read f n) s (fun r s' => let out := take (Z.to_nat n) (drop (Z.to_nat pos) b) in r = IoBytes out /\ open_at s' f b (pos + len out)).
Proof.
  intros (x & e & nd & l & Hh & Hops & Hfl & Hoff & Hpr & Hp) [Hn Hok]. unfold vfs_read. eapply file_read_enter; [exact Hh|exact Hfl|]. mstep. eapply runs_read; [apply Hh|].
  rewrite Hops. unfold ramfs_file_read. mstep. mstep. eapply runs_read; [apply Hh|]. rewrite Hoff. eapply record_read_spec; [exact Hh|done|lia|done|done|]. cbv zeta.
  set (out := take _ _). mstep. split; [done|]. assert (Hlo : len out = Z.min n (len b - pos)) by (unfold out; rewrite length_take, length_drop; lia).
  eexists _, e, nd, l. split; [by eapply handle_file|]. cbn. split_and!; try done; try lia. unfold read_chunk_pos. destruct (Z.leb_spec (pos + n) (len b)).
  - f_equal. lia.
  - apply chunk_of_same. destruct Hok as [|E]; [lia|]. rewrite E. f_equal. lia.
Qed.

Lemma vfs_write_open s f b pos d : open_at s f b pos -> pos + len d < 2 ^ 31 ->
  runs (vfs_write junk_b f d (len d)) s (fun r s' => r = IoCount (len d) /\ open_at s' f (overwrite b pos d) (pos + len d)).
Proof.
  intros (x & e & nd & l & Hh & Hops & Hfl & Hoff & Hpr & Hp) Hn. unfold vfs_write. eapply file_read_enter; [exact Hh|exact Hfl|]. mstep. eapply runs_read; [apply Hh|].
  rewrite Hops. unfold ramfs_file_write. mstep. mstep. eapply runs_read; [apply Hh|]. rewrite Hoff. eapply record_write_spec; [exact Hh|done|done|done|done|].
  intros s' l' b' H'. mstep. split; [done|]. eexists _, e, _, l'. split; [exact H'|]. cbn. split_and!; try done; [lia|]. rewrite overwrite_length by done. lia.
Qed.

Lemma vfs_seek_open s f b pos o : open_at s f b pos -> 0 <= o < 2 ^ 31 ->
  if (o <=? len b) && negb ((o =? len b) && (o mod 1024 =? 0)) then runs (vfs_seek f o SEEK_SET) s (fun r s' => r = o /\ open_at s' f b o) else vfs_seek f o SEEK_SET s = Panic.
Proof.
  intros (x & e & nd & l & Hh & Hops & Hfl & Hoff & Hpr & Hp) Ho. pose proof (seek_chunks_spec s b o [] l (hd_stored _ _ _ _ _ _ _ Hh) (hd_small _ _ _ _ _ _ _ Hh) ltac:(cbn; lia)) as Hs.
  cbn [length] in Hs. rewrite Z.mul_0_r, Z.sub_0_r in Hs. pose proof (Z.div_mod o 1024 ltac:(lia)). pose proof (Z.mod_pos_bound o 1024 ltac:(lia)). pose proof (Z.div_pos o 1024 ltac:(lia) ltac:(lia)).
  assert (Hpanic : seek_chunks l o 0 s = Panic -> vfs_seek f o SEEK_SET s = Panic).
  { intros HP. unfold vfs_seek, ramfs_file_seek, file_inode. apply runs_then. eapply runs_read; [apply Hh|]. rewrite Hops. cbn [negb Z.eqb SEEK_SET].
    apply runs_then. mstep. eapply runs_read; [apply Hh|]. mstep. eapply runs_read; [apply Hh|]. mstep. apply runs_then. eapply runs_read; [apply Hh|]. apply runs_then. eapply runs_read; [apply Hh|].
    unfold mbind, M_bind. by rewrite HP. }
  destruct (l !! Z.to_nat (o / 1024)) as [c|] eqn:Ec.
  - destruct (Z.leb_spec o (len b)); cbn [andb]; [|by apply Hpanic].
    assert (E : (o =? len b) && (o mod 1024 =? 0) = false).
    { apply andb_false_iff. destruct (Z.eqb_spec o (len b)) as [E|]; [right|by left]. apply Z.eqb_neq. intros E0.
      apply lookup_lt_Some in Ec. rewrite <- (Nat2Z.id (length l)) in Ec. pose proof (st_length _ _ _ (hd_stored _ _ _ _ _ _ _ Hh)). rewrite <- E in *.
      rewrite <- (Z.div_unique (o + 1023) 1024 (o / 1024) 1023) in * by lia. lia. }
    rewrite E. cbn [negb]. unfold vfs_seek, ramfs_file_seek, file_inode. mstep. eapply runs_read; [apply Hh|]. rewrite Hops. cbn [negb Z.eqb SEEK_SET].
    mstep. mstep. eapply runs_read; [apply Hh|]. mstep. eapply runs_read; [apply Hh|]. mstep. mstep. eapply runs_read; [apply Hh|]. mstep. eapply runs_read; [apply Hh|].
    mstep. eapply runs_mono; [exact Hs|]. intros c' s' [-> ->]. unfold put_file. mstep. eapply runs_read; [apply Hh|]. do 3 mstep. split; [done|].
    eexists _, e, nd, l. split; [by eapply handle_file|]. cbn. split_and!; try done; try lia. unfold chunk_of. by rewrite Ec.
  - rewrite (proj2 (andb_false_iff _ _)); [by apply Hpanic|]. destruct (Z.leb_spec o (len b)) as [Hle|]; [right|by left]. apply lookup_ge_None in Ec.
    destruct (stored_index _ _ _ o (hd_stored _ _ _ _ _ _ _ Hh)) as [|(E1 & E2 & _)]; [lia|lia|]. by rewrite (proj2 (Z.eqb_eq o (len b))), (proj2 (Z.eqb_eq (o mod 1024) 0)).
Qed.

Lemma file_do_refines s f o b pos : open_at s f b pos -> file_op_ok o (b, pos) ->
  match file_step o (b, pos) with
  | Some (r, (b', pos')) => runs (file_do f o) s (fun r' s' => r' = r /\ open_at s' f b' pos')
  | None => file_do f o s = Panic
  end.
Proof.
  intros Ho Hok. destruct o as [n|d|o]; cbn [file_step file_do].
  - by apply vfs_read_open.
  - by apply vfs_write_open.
  - pose proof (vfs_seek_open s f b pos o Ho Hok) as H. destruct (_ && _).
    + mstep. eapply runs_mono; [exact H|]. intros r s' [-> H']. by mstep.
    + unfold mbind, M_bind. by rewrite H.
Qed.

(** A history of operations on one handle, on the file and on the sequence of bytes. *)
Fixpoint file_run (f : Z) (ops : list file_op) : M vfs (list io) :=
  match ops with
  | [] => mret []
  | o :: ops' => r ← file_do f o; rs ← file_run f ops'; mret (r :: rs)
  end.
Fixpoint bytes_run (ops : list file_op) (st : list Z * Z) : option (list io * (list Z * Z)) :=
  match ops with
  | [] => Some ([], st)
  | o :: ops' => '(r, st') ← file_step o st; '(rs, st'') ← bytes_run ops' st'; Some (r :: rs, st'')
  end.
Fixpoint file_ops_ok (ops : list file_op) (st : list Z * Z) : Prop :=
  match ops with
  | [] => True
  | o :: ops' => file_op_ok o st /\ match file_step o st with Some (_, st') => file_ops_ok ops' st' | None => True end
  end.

Lemma file_run_refines ops : forall s f b pos, open_at s f b pos -> file_ops_ok ops (b, pos) ->
  match bytes_run ops (b, pos) with
  | Some (rs, (b', pos')) => runs (file_run f ops) s (fun rs' s' => rs' = rs /\ open_at s' f b' pos')
  | None => file_run f ops s = Panic
  end.
Proof.
  induction ops as [|o ops IH]; intros s f b pos Ho Hok; cbn [bytes_run file_run]; [by mstep|]. destruct Hok as [Hk Hok].
  pose proof (file_do_refines s f o b pos Ho Hk) as H. destruct (file_step o (b, pos)) as [[r [b1 pos1]]|]; cbn [mbind option_bind]; [|unfold mbind, M_bind; by rewrite H].
  specialize (fun s1 Ho1 => IH s1 f b1 pos1 Ho1 Hok). destruct (bytes_run ops (b1, pos1)) as [[rs [b2 pos2]]|]; cbn [mbind option_bind].
  - mstep. eapply runs_mono; [exact H|]. intros r' s1 [-> H1]. mstep. eapply runs_mono; [by apply IH|]. intros rs' s2 [-> H2]. by mstep.
  - apply runs_then. eapply runs_mono; [exact H|]. intros r' s1 [_ H1]. unfold mbind, M_bind. by rewrite IH.
Qed.

(** Reading on after the end was met: the chunk pointer still stands where the read began. *)
Lemma vfs_read_stale s f b pos n m : open_at s f b pos -> 0 <= n < 2 ^ 31 -> len b < pos + n -> pos / 1024 < len b / 1024 -> 0 < m <= 1024 - len b mod 1024 ->
  runs (r1 ← vfs_read f n; r2 ← vfs_read f m; mret (r1, r2)) s (fun r _ =>
    r = (IoBytes (drop (Z.to_nat pos) b), IoBytes (take (Z.to_nat m) (drop (Z.to_nat (1024 * (pos / 1024) + len b mod 1024)) b)))).
Proof.
  intros (x & e & nd & l & Hh & Hops & Hfl & Hoff & Hpr & Hp) Hn Hend Hlast Hm. pose proof (hd_small _ _ _ _ _ _ _ Hh) as Hsm.
  mstep. unfold vfs_read at 1. eapply file_read_enter; [exact Hh|exact Hfl|]. mstep. eapply runs_read; [apply Hh|].
  rewrite Hops. unfold ramfs_file_read. mstep. mstep. eapply runs_read; [apply Hh|]. rewrite Hoff. eapply record_read_spec; [exact Hh|done|lia|done|done|]. cbv zeta.
  rewrite take_ge by (rewrite length_drop; lia). set (out := drop _ b). assert (Hlo : len out = len b - pos) by (unfold out; rewrite length_drop; lia).
  unfold read_chunk_pos. rewrite (proj2 (Z.leb_gt _ _)) by lia. mstep. mstep. replace (pos + len out) with (len b) by lia.
  set (x1 := File _ _ _ _). set (s1 := set_files _ s). assert (H1 : handle s1 f x1 e nd l b) by by eapply handle_file.
  pose proof (Z.div_mod (len b) 1024 ltac:(lia)). pose proof (Z.mod_pos_bound (len b) 1024 ltac:(lia)). pose proof (Z.div_pos pos 1024 ltac:(lia) ltac:(lia)).
  set (p := 1024 * (pos / 1024) + len b mod 1024). assert (Ep : p / 1024 = pos / 1024) by (symmetry; apply (Z.div_unique p 1024 (pos / 1024) (len b mod 1024)); lia).
  assert (Epm : p mod 1024 = len b mod 1024) by (symmetry; apply (Z.mod_unique p 1024 (pos / 1024) (len b mod 1024)); lia).
  destruct (stored_index _ _ _ pos (hd_stored _ _ _ _ _ _ _ Hh) Hp) as [Hi|(_ & _ & E)]; [|pose proof (st_length _ _ _ (hd_stored _ _ _ _ _ _ _ Hh)); pose proof (Z.div_le_mono (len b) (len b + 1023) 1024); lia].
  destruct (lookup_lt_is_Some_2 l (Z.to_nat (pos / 1024))) as [c Hc]; [lia|]. assert (Hcp : chunk_of l pos = c) by (unfold chunk_of; by rewrite Hc).
  assert (Hc0 : 0 < c) by (pose proof (hd_addrs _ _ _ _ _ _ _ Hh) as Had; eapply Forall_lookup_1 in Had; [|exact Hc]; cbn in Had; lia).
  unfold vfs_read. eapply file_read_enter; [exact H1|exact Hfl|]. mstep. eapply runs_read; [apply H1|]. cbn [x1 f_ops]. rewrite Hops. unfold ramfs_file_read. mstep. mstep. eapply runs_read; [apply H1|].
  unfold record_read, file_inode. mstep. eapply runs_read; [apply H1|]. mstep. mstep. eapply runs_read; [apply H1|]. mstep. eapply runs_read; [apply H1|]. mstep. mstep. eapply runs_read; [apply H1|].
  cbn [x1 f_private f_offset]. rewrite Hcp, (proj2 (Z.eqb_neq c 0)) by lia. mstep. eapply runs_read; [apply H1|]. mstep.
  apply runs_iterM_S. unfold read_round at 1. cbn [length]. change (swrap 32 (Z.of_nat 0)) with 0. rewrite Z.sub_0_r, Z.add_0_r, !uwrap_small by lia.
  rewrite (proj2 (Z.eqb_neq m 0)), (proj2 (Z.eqb_neq c 0)) by lia. cbn [orb]. mstep. unfold CHUNK_SIZE at 1. rewrite <- Epm.
  eapply (chunk_read_spec s1 l b p m c); [apply H1|lia|done|lia|by rewrite Ep|]. rewrite Epm. set (bs := take _ _). assert (Hlb : len bs = m) by (unfold bs; rewrite length_take, length_drop; lia).
  mstep. eapply runs_read; [apply H1|]. rewrite Z.add_0_l, Hlb, swrap_small, Z.sub_diag by lia. change (u32 0 =? 0) with true. cbn [orb]. mstep. eapply set_private_spec; [apply H1|]. mstep. cbn [app].
  apply runs_iterM_S. unfold read_round. rewrite Hlb, swrap_small, Z.sub_diag by lia. change (u32 0 =? 0) with true. cbn [orb]. mstep.
  unfold advance, put_file. mstep. mstep. eapply runs_read; [cbn; apply lookup_insert_eq|]. do 4 mstep. do 2 f_equal. unfold bs. f_equal. lia.
Qed.
End Handle.

(** ** Opening *)

(** The regular file at [p] holds [b]. *)
Record file_holds (s : vfs) (p : path) (e : dentry) (n : inode) (l b : list Z) : Prop := FileHolds {
  fh_dentry : dentries s !! p_dentry p = Some e;
  fh_inode : inodes s !! d_inode e = Some n;
  fh_record : records s !! i_private n = Some l;
  fh_stored : stored (chunks s) l b;
  fh_nodup : NoDup l;
  fh_addrs : Forall (fun c => 0 < c < fresh s) l;
  fh_head : (i_private n ∉ l) /\ 0 < i_private n < fresh s;
  fh_size : i_size n = len b;
  fh_small : len b < 2 ^ 31;
  fh_ops : i_ops n = ramfs_inode_ops;
  fh_flags : has (i_flags n) INODE_FLAG_DIRECTORY = false;
}.

Lemma vfs_open_file_spec junk s p e n l b : file_holds s p e n l b -> runs (vfs_open_file junk p) s (fun f s' => f = fresh s /\ open_at s' f b 0).
Proof.
  intros [He Hn Hr Hst Hnd Had Hhd Hsz Hb Hops Hfl]. unfold vfs_open_file, inode_of, new_addr, put_file, file_open, ramfs_file_open. mstep. mstep. eapply runs_read; [exact He|]. mstep.
  mstep. eapply runs_read; [exact Hn|]. do 8 mstep. rewrite Hops. cbn [file_ops_of]. mstep. mstep. eapply runs_read; [exact Hn|]. rewrite Hfl. cbn [negb]. mstep. eapply runs_read; [exact Hr|].
  eapply set_private_spec; [cbn; apply lookup_insert_eq|]. mstep. split; [done|]. unfold with_private. cbn. rewrite insert_insert_eq.
  exists (File p ramfs_file_ops 0 (default 0 (head l))), e, n, l. split; [split|]; cbn; try done.
  - apply lookup_insert_eq.
  - eapply Forall_impl; [exact Had|]. intros ? ?. cbn in *. lia.
  - split; [apply Hhd|lia].
  - split_and!; try done; [|lia]. unfold chunk_of. cbn. by destruct l.
Qed.

Definition open_and_run (junk : Z) (junk_b : Z -> Z) (p : path) (ops : list file_op) : M vfs (list io) :=
  f ← vfs_open_file junk p; file_run junk_b f ops.

(** ** Theorems *)


(** Reading past the end.  [list_is_last] compares an entry with the list's head, so [record_read] does not
    move the handle's chunk when it runs out of data.  A read that starts before the last chunk and asks for more than there is returns
    the rest of the file, as it should; but the next read, at the end of the file, returns bytes from the middle of the
    file instead of none. *)
Theorem ramfs_read_past_end s f b pos n m : open_at s f b pos -> 0 <= n < 2 ^ 31 -> len b < pos + n -> pos / 1024 < len b / 1024 ->
  0 < m <= 1024 - len b mod 1024 ->
  runs (r1 ← vfs_read f n; r2 ← vfs_read f m; mret (r1, r2)) s (fun r _ =>
    r = (IoBytes (drop (Z.to_nat pos) b), IoBytes (take (Z.to_nat m) (drop (Z.to_nat (1024 * (pos / 1024) + len b mod 1024)) b)))).
Proof. apply vfs_read_stale. Qed.

(** ** Examples *)

#[global] Instance file_op_ok_dec o st : Decision (file_op_ok o st).
Proof. destruct st, o; unfold file_op_ok; apply _. Defined.
#[global] Instance file_ops_ok_dec ops st : Decision (file_ops_ok ops st).
Proof.
  revert st. induction ops as [|o ops IH]; intros st; cbn [file_ops_ok]; [exact (left I)|].
  apply and_dec; [apply _|]. destruct (file_step o st) as [[r st']|]; [exact (IH st')|exact (left I)].
Defined.

(** The root file system with one empty file. *)
Definition vfs0 : vfs := Vfs ∅ ∅ ∅ ∅ ∅ ∅ ∅ ∅ [devfs_type; ramfs] [] [] 1 0 0 [] [] false false false 1.
Definition boot_fs : M vfs path :=
  _ ← vfs_root_mount 0; s ← get; root ← MNT_ROOT (root_mount s);
  '(_, p) ← vfs_create 0 root [97] (Z.lor S_IFREG mode_755); read (fun _ => p).
Definition fs1 : vfs := after boot_fs vfs0.

Definition e1 : dentry := default (Dentry 0 [] 0 0 0 []) (dentries fs1 !! 6).
Definition n1 : inode := default (Inode 0 ramfs_inode_ops 0 0 0 0 0 0 0 0 0 0 0 0 0 0 0) (inodes fs1 !! d_inode e1).

Lemma fs1_file : file_holds fs1 (Path 4 6) e1 n1 [] [].
Proof.
  split; try (vm_compute; reflexivity).
  - split; [reflexivity|]. intros i c Hi. discriminate Hi.
  - constructor.
  - constructor.
  - split; [apply not_elem_of_nil|]. vm_compute. split; reflexivity.
Qed.


(** 1030 bytes; a read of 2000 from the start, then one of 4. *)
Lemma ramfs_read_past_end_witness : exists s f,
  runs (r1 ← vfs_read f 2000; r2 ← vfs_read f 4; mret (r1, r2)) s (fun r _ => r.2 = IoBytes [7; 8; 9; 10] ).
Proof.
  pose proof fs1_file as Hf. set (d := seqZ 1 1030).
  pose proof (file_run_refines (fun _ => 0) [OpWrite d; OpSeek 0]) as Hr. destruct (proj1 (runs_Done _ _ _) (vfs_open_file_spec 0 fs1 _ e1 n1 [] [] Hf)) as (f & s1 & _ & _ & H1).
  specialize (Hr s1 f [] 0 H1). assert (Hok : file_ops_ok [OpWrite d; OpSeek 0] ([], 0)) by (apply (bool_decide_unpack _); vm_compute; exact I). specialize (Hr Hok).
  assert (Eb : bytes_run [OpWrite d; OpSeek 0] ([], 0) = Some ([IoCount 1030; IoCount 0], (d, 0))) by (vm_compute; reflexivity). rewrite Eb in Hr.
  destruct (proj1 (runs_Done _ _ _) Hr) as (rs & s2 & _ & _ & H2). exists s2, f.
  eapply runs_mono; [apply (ramfs_read_past_end s2 f d 0 2000 4 H2)|].
  - lia.
  - unfold d. rewrite length_seqZ. lia.
  - unfold d. rewrite length_seqZ. vm_compute. reflexivity.
  - unfold d. rewrite length_seqZ. vm_compute. split; [reflexivity|discriminate].
  - intros r s' E. rewrite E. vm_compute. reflexivity.
Defined.
