(* ===== verification/Vfs.v ===== *)
(** * Vfs: what a path names

    Theorems on the path part of [Fs] (kernel/src/fs/vfs.c): lookup against a reference
    walk over the tree of mounted file systems, creation. *)

From S2P Require Import Prelude Words Fs Ramfs.

(** ** The tree *)

Definition mnt_root (s : vfs) (k : Z) : option path := m ← mounts s !! k; f ← fss s !! m_fs m; Some (Path k (fs_root f)).

(** What can be named: the root, the children of what can be named, the roots of mounts. *)
Inductive reach (s : vfs) : path -> Prop :=
| reach_root p : mnt_root s (root_mount s) = Some p -> reach s p
| reach_child p e c : reach s p -> dentries s !! p_dentry p = Some e -> c ∈ d_children e -> reach s (Path (p_mount p) c)
| reach_mount p k q : reach s p -> mount_on p s = Some k -> mnt_root s k = Some q -> reach s q.

Definition flagged (n : inode) : bool := has (i_flags n) INODE_FLAG_MOUNTPOINT.
Definition is_dir (n : inode) : bool := has (i_flags n) INODE_FLAG_DIRECTORY.

Definition node_at (s : vfs) (p : path) : option (dentry * inode) := e ← dentries s !! p_dentry p; n ← inodes s !! d_inode e; Some (e, n).

(** The shape of the tree.  [depth] counts mounts above a mount. *)
Record tree (s : vfs) (depth : Z -> nat) : Prop := Tree {
  tr_unlocked : mount_hashtable_lock s = false;
  tr_null : mounts s !! 0 = None /\ inodes s !! 0 = None /\ dentries s !! 0 = None;
  tr_fresh : 0 < fresh s /\ forall k, fresh s <= k -> dentries s !! k = None /\ inodes s !! k = None;
  tr_table : forall p k, mount_on p s = Some k -> is_Some (dentries s !! p_dentry p);
  tr_root : exists p, mnt_root s (root_mount s) = Some p;
  tr_node : forall p, reach s p -> exists e n, node_at s p = Some (e, n);
  tr_ops : forall p e n, reach s p -> node_at s p = Some (e, n) -> is_dir n = true -> i_ops n = ramfs_inode_ops \/ i_ops n = devfs_root_inode_ops;
  tr_flag : forall p e n, reach s p -> node_at s p = Some (e, n) ->
    if flagged n then is_dir n = true /\ exists k q, mount_on p s = Some k /\ mnt_root s k = Some q else mount_on p s = None;
  tr_single : forall p k q e n, reach s p -> mount_on p s = Some k -> mnt_root s k = Some q -> node_at s q = Some (e, n) -> flagged n = false;
  tr_parent : forall p e n, reach s p -> node_at s p = Some (e, n) -> d_parent e <> 0 -> reach s (Path (p_mount p) (d_parent e));
  tr_up : forall p e n, reach s p -> node_at s p = Some (e, n) -> d_parent e = 0 -> p_mount p <> root_mount s ->
    exists m, mounts s !! p_mount p = Some m /\ m_parent m <> 0 /\ reach s (Path (m_parent m) (m_mountpoint m)) /\
      mount_on (Path (m_parent m) (m_mountpoint m)) s = Some (p_mount p) /\ (depth (m_parent m) < depth (p_mount p))%nat;
  tr_depth : forall p, reach s p -> (depth (p_mount p) <= size (mounts s))%nat;
}.

(** ** The reference walk *)

(** Down into the mount on [p]. *)
Definition settle (s : vfs) (p : path) : path := default p (k ← mount_on p s; mnt_root s k).

(** The child of that very name. *)
Definition child (s : vfs) (p : path) (name : list Z) : option Z :=
  e ← dentries s !! p_dentry p; head (filter (fun c => (d_name <$> dentries s !! c) = Some name) (d_children e)).

(** Up to the root of the tree the path is in, through at most [n] mounts, then to the parent. *)
Fixpoint climb (n : nat) (s : vfs) (p : path) : path :=
  match node_at s p with
  | None => p
  | Some (e, _) =>
      if negb (d_parent e =? 0) then Path (p_mount p) (d_parent e)
      else if p_mount p =? root_mount s then p
      else match n, mounts s !! p_mount p with
           | S n', Some m => climb n' s (Path (m_parent m) (m_mountpoint m))
           | _, _ => p
           end
  end.
Definition parent_of (s : vfs) (p : path) : path := climb (size (mounts s)) s p.

(** The segments of a path; nothing stands behind a final separator. *)
Fixpoint split_path (l : list Z) : list (list Z) :=
  match l with
  | [] => []
  | c :: l' => if c =? DIRECTORY_SEPARATOR then [] :: split_path l'
      else match split_path l' with [] => [[c]] | seg :: segs => (c :: seg) :: segs end
  end.

(** What a sequence of names leads to from [p]. *)
Fixpoint walk (s : vfs) (p : path) (segs : list (list Z)) : option path :=
  match segs with
  | [] => Some (settle s p)
  | seg :: segs' =>
      '(e, n) ← node_at s (settle s p);
      if negb (is_dir n) then None
      else if bool_decide (seg = []) || bool_decide (seg = [DOT]) then walk s (settle s p) segs'
      else if bool_decide (seg = [DOT; DOT]) then walk s (parent_of s (settle s p)) segs'
      else c ← child s (settle s p) seg; walk s (Path (p_mount (settle s p)) c) segs'
  end.

(** No name in the tree goes on where the name [seg] ends, in [seg]'s bucket. *)
Definition no_clash (s : vfs) (seg : list Z) : Prop :=
  seg <> [] -> forall c e, dentries s !! c = Some e -> same_start (d_name e) seg = true -> name_bucket (d_name e) (length (d_name e)) = name_bucket seg (length seg) -> d_name e = seg.

(** Only the next fresh address differs. *)
Definition same_tree (s s' : vfs) : Prop := exists v, fresh s <= v /\ s' = set_fresh v s.

(** ** Lemmas on the reference *)

Lemma next_segment_split l : l <> [] -> split_path l = (next_segment l).1 :: match (next_segment l).2 with Some l' => split_path l' | None => [] end.
Proof.
  induction l as [|c l IH]; [done|]. intros _. cbn [split_path next_segment]. destruct (c =? DIRECTORY_SEPARATOR); [done|].
  destruct l as [|c' l]; [done|]. rewrite IH by done. by destruct (next_segment (c' :: l)).
Qed.

Lemma next_segment_shorter l seg l' : next_segment l = (seg, Some l') -> (length l' < length l)%nat.
Proof.
  revert seg. induction l as [|c l IH]; intros seg; cbn [next_segment]; [done|]. destruct (c =? DIRECTORY_SEPARATOR); [intros [= <- <-]; cbn; lia|].
  destruct (next_segment l) as [seg1 rest] eqn:E. intros [= <- ->]. specialize (IH _ eq_refl). cbn. lia.
Qed.

Lemma walk_settle s p q segs : settle s p = settle s q -> walk s p segs = walk s q segs.
Proof. destruct segs; cbn; by intros ->. Qed.

(** ** Specifications *)

Lemma set_lock_same s : mount_hashtable_lock s = false -> set_mount_hashtable_lock false (set_mount_hashtable_lock true s) = s.
Proof. destruct s. cbn. by intros ->. Qed.

Lemma get_mount_spec s p (Q : Z -> vfs -> Prop) : mount_hashtable_lock s = false -> Q (default 0 (mount_on p s)) s -> runs (get_mount p) s Q.
Proof.
  intros Hl HQ. unfold get_mount, with_mounts. apply runs_locked; [by rewrite Hl|]. do 3 mstep. rewrite set_lock_same by done. exact HQ.
Qed.

Lemma node_at_inv s p e n : node_at s p = Some (e, n) -> dentries s !! p_dentry p = Some e /\ inodes s !! d_inode e = Some n.
Proof. unfold node_at. destruct (dentries s !! _) as [e1|]; [|done]. cbn. destruct (inodes s !! d_inode e1) as [n1|] eqn:E; [|done]. cbn. intros [= <- <-]. done. Qed.

Lemma MNT_ROOT_spec s k q (Q : path -> vfs -> Prop) : mnt_root s k = Some q -> Q q s -> runs (MNT_ROOT k) s Q.
Proof.
  unfold mnt_root, MNT_ROOT, mount_at, fs_at. destruct (mounts s !! k) as [m|] eqn:Em; [|done]. cbn. destruct (fss s !! m_fs m) as [f|] eqn:Ef; [|done]. cbn. intros [= <-] HQ.
  mstep. eapply runs_read; [exact Em|]. mstep. eapply runs_read; [exact Ef|]. by mstep.
Qed.

Section Lookup.
Context (s : vfs) (depth : Z -> nat) (Ht : tree s depth).

Lemma inode_nonzero p e n : node_at s p = Some (e, n) -> d_inode e <> 0.
Proof. intros H. apply node_at_inv in H as [_ Hn]. intros E. rewrite E in Hn. pose proof (tr_null _ _ Ht) as (_ & Hi & _). congruence. Qed.

Lemma mount_nonzero k q : mnt_root s k = Some q -> k <> 0.
Proof. intros H ->. unfold mnt_root in H. pose proof (tr_null _ _ Ht) as (Hm & _). by rewrite Hm in H. Qed.

Lemma settle_reach p : reach s p -> reach s (settle s p).
Proof.
  intros Hp. unfold settle. destruct (mount_on p s) as [k|] eqn:Ek; [|done]. cbn. destruct (mnt_root s k) as [q|] eqn:Eq; [|done]. by eapply reach_mount.
Qed.

Lemma settle_unflagged p e n : reach s p -> node_at s p = Some (e, n) -> flagged n = false -> settle s p = p.
Proof. intros Hp Hn Hf. pose proof (tr_flag _ _ Ht p e n Hp Hn) as H. rewrite Hf in H. unfold settle. by rewrite H. Qed.

Lemma settle_flagged p e n : reach s p -> node_at s p = Some (e, n) -> flagged n = true ->
  exists k e' n', mount_on p s = Some k /\ mnt_root s k = Some (settle s p) /\ node_at s (settle s p) = Some (e', n') /\ flagged n' = false.
Proof.
  intros Hp Hn Hf. pose proof (tr_flag _ _ Ht p e n Hp Hn) as H. rewrite Hf in H. destruct H as (_ & k & q & Hk & Hq).
  assert (E : settle s p = q) by (unfold settle; rewrite Hk; cbn; by rewrite Hq). rewrite E.
  destruct (tr_node _ _ Ht q) as (e' & n' & Hn'); [by eapply reach_mount|]. exists k, e', n'. split_and!; try done. by eapply (tr_single _ _ Ht p k q).
Qed.

Lemma settle_twice p : reach s p -> settle s (settle s p) = settle s p.
Proof.
  intros Hp. destruct (tr_node _ _ Ht p Hp) as (e & n & Hn). destruct (flagged n) eqn:Hf.
  - destruct (settle_flagged p e n Hp Hn Hf) as (k & e' & n' & _ & _ & Hn' & Hf'). eapply settle_unflagged; [by apply settle_reach|done|done].
  - by rewrite !(settle_unflagged p e n Hp Hn Hf).
Qed.

Lemma descend_spec p e n (Q : path -> vfs -> Prop) : reach s p -> node_at s p = Some (e, n) -> flagged n = true -> Q (settle s p) s -> runs (descend p) s Q.
Proof.
  intros Hp Hn Hf HQ. destruct (settle_flagged p e n Hp Hn Hf) as (k & e' & n' & Hk & Hq & _). unfold descend. mstep. apply get_mount_spec; [apply Ht|]. rewrite Hk.
  mstep. mstep; [apply Z.eqb_neq; by eapply mount_nonzero|]. by eapply MNT_ROOT_spec.
Qed.

Lemma find_child_spec seg l (Q : Z -> vfs -> Prop) : no_clash s seg -> seg <> [] -> Forall (fun c => is_Some (dentries s !! c)) l ->
  Q (default 0 (head (filter (fun c => (d_name <$> dentries s !! c) = Some seg) l))) s -> runs (find_child l (name_bucket seg (length seg)) seg) s Q.
Proof.
  intros Hnc Hsne. induction l as [|c l IH]; intros Hl HQ; cbn [find_child]; [by mstep|]. apply Forall_cons in Hl as [[e He] Hl].
  unfold dentry_at. mstep. eapply runs_read; [exact He|]. rewrite filter_cons in HQ. destruct (decide (d_name e = seg)) as [E|Hne].
  - rewrite decide_True in HQ by (by rewrite He, <- E). unfold same_start. rewrite E, take_ge by lia. rewrite !bool_decide_eq_true_2 by done. cbn [andb]. by mstep.
  - rewrite decide_False in HQ by (rewrite He; cbn; congruence).
    assert (Ef : bool_decide (name_bucket (d_name e) (length (d_name e)) = name_bucket seg (length seg)) && same_start (d_name e) seg = false).
    { apply andb_false_iff. destruct (same_start (d_name e) seg) eqn:Es; [left|by right]. apply bool_decide_eq_false_2. intros Eb. by apply Hne, (Hnc Hsne c). }
    rewrite Ef. by apply IH.
Qed.

Lemma child_exists p e n c : reach s p -> node_at s p = Some (e, n) -> c ∈ d_children e -> c <> 0 /\ is_Some (dentries s !! c).
Proof.
  intros Hp Hn Hc. apply node_at_inv in Hn as [He _]. assert (Hr : reach s (Path (p_mount p) c)) by by eapply reach_child.
  destruct (tr_node _ _ Ht _ Hr) as (ec & nc & Hnc). apply node_at_inv in Hnc as [Hec _]. cbn in Hec. split; [|by exists ec].
  intros ->. pose proof (tr_null _ _ Ht) as (_ & _ & Hd). congruence.
Qed.

Lemma up_spec n p : reach s p -> (depth (p_mount p) <= n)%nat ->
  reach s (climb n s p) /\ forall (Q : path -> vfs -> Prop), Q (climb n s p) s -> runs (iterM (S n) up_round p) s Q.
Proof.
  revert p. induction n as [|n IH]; intros p Hp Hd; destruct (tr_node _ _ Ht p Hp) as (e & nd & Hnd); pose proof (node_at_inv _ _ _ _ Hnd) as [He _]; cbn [climb]; rewrite Hnd.
  all: destruct (Z.eqb_spec (d_parent e) 0) as [Ep|Ep]; cbn [negb];
    [|split; [by eapply (tr_parent _ _ Ht)|]; intros Q HQ; apply runs_iterM_S; unfold up_round, dentry_at; mstep; eapply runs_read; [exact He|]; mstep; mstep;
      rewrite (proj2 (Z.eqb_neq _ _)) by done; cbn [andb negb]; by mstep].
  all: destruct (Z.eqb_spec (p_mount p) (root_mount s)) as [Em|Em];
    [split; [done|]; intros Q HQ; apply runs_iterM_S; unfold up_round, dentry_at; mstep; eapply runs_read; [exact He|]; mstep; mstep;
      rewrite Em, Ep, !Z.eqb_refl; cbn [andb negb Z.eqb]; by mstep|].
  all: destruct (tr_up _ _ Ht p e nd Hp Hnd Ep Em) as (m & Hm & Hmp & Hr & Hon & Hdep).
  { lia. }
  rewrite Hm.
  destruct (IH _ Hr) as [IHr IHq]; [cbn; lia|]. split; [exact IHr|]. intros Q HQ. apply runs_iterM_S. unfold up_round, dentry_at, mount_at, inode_of, inode_at. mstep. eapply runs_read; [exact He|].
  mstep. mstep. rewrite Ep, (proj2 (Z.eqb_neq _ _) Em). cbn [andb negb Z.eqb]. mstep. eapply runs_read; [exact Hm|]. mstep. mstep; [by apply Z.eqb_neq|].
  destruct (tr_node _ _ Ht _ Hr) as (e2 & n2 & Hn2). pose proof (tr_flag _ _ Ht _ _ _ Hr Hn2) as Hf. destruct (flagged n2) eqn:Ef; [|congruence]. apply node_at_inv in Hn2 as [He2 Hi2]. cbn in He2.
  mstep. mstep. eapply runs_read; [exact He2|]. mstep. mstep. eapply runs_read; [exact Hi2|]. mstep. mstep; [unfold flagged in Ef; by rewrite Ef|]. mstep. by apply IHq.
Qed.

Lemma go_up_spec p (Q : path -> vfs -> Prop) : reach s p -> reach s (parent_of s p) /\ (Q (parent_of s p) s -> runs (go_up p) s Q).
Proof.
  intros Hp. destruct (up_spec (size (mounts s)) p Hp (tr_depth _ _ Ht p Hp)) as [Hr HQ]. split; [exact Hr|]. intros H. unfold go_up. mstep. mstep. by apply HQ.
Qed.

(** One segment of the walk, from a directory nothing is mounted on. *)
Definition walk_one (q : path) (seg : list Z) : option path :=
  if bool_decide (seg = []) || bool_decide (seg = [DOT]) then Some q
  else if bool_decide (seg = [DOT; DOT]) then Some (parent_of s q)
  else Path (p_mount q) <$> child s q seg.

Context (junk : Z).

Lemma delete_fresh (m : gmap Z dentry) k x y : m !! k = None -> delete k (<[k := y]> (<[k := x]> m)) = m.
Proof. intros Hk. rewrite insert_insert_eq. by apply delete_insert_id. Qed.

Lemma lookup_segment_spec q e n seg (Q : option path -> vfs -> Prop) : reach s q -> node_at s q = Some (e, n) -> is_dir n = true -> no_clash s seg ->
  (forall s', (match walk_one q seg with Some r => s' = s /\ reach s r | None => same_tree s s' end) -> Q (walk_one q seg) s') ->
  runs (lookup_segment junk q (i_ops n) seg) s Q.
Proof.
  intros Hq Hn Hdir Hnc HQ. unfold lookup_segment. unfold walk_one in HQ. destruct (bool_decide (seg = []) || bool_decide (seg = [DOT])) eqn:Eskip; [mstep; by apply HQ|].
  assert (Hsne : seg <> []) by (intros ->; discriminate Eskip).
  destruct (bool_decide (seg = [DOT; DOT])). { destruct (go_up_spec q (fun r s' => runs (mret (Some r)) s' Q) Hq) as [Hr Hup]. mstep. apply Hup. mstep. by apply HQ. }
  pose proof (node_at_inv _ _ _ _ Hn) as [He _]. unfold child in HQ. rewrite He in HQ. cbn [mbind option_bind] in HQ. unfold dentry_at at 1. mstep. eapply runs_read; [exact He|].
  assert (Hb : exists b, name_bucket seg (length seg) = Some b).
  { unfold name_bucket, str_to_key. assert (H : forall l k, exists b, str_to_key_from k l (length l) = Some b); [|destruct (H seg 1) as [b ->]; by eexists].
    induction l as [|c l IH]; intros k; cbn; [by eexists|apply IH]. }
  destruct Hb as [b Hb]. mstep. eapply runs_read; [exact Hb|]. mstep. rewrite <- Hb. apply find_child_spec; [exact Hnc|exact Hsne|apply Forall_forall; intros c Hc; by eapply child_exists|].
  set (l := filter _ _) in *. destruct (head l) as [c|] eqn:Ec; cbn [default] in *.
  - assert (Hc : c ∈ d_children e) by (apply head_Some_elem_of in Ec; unfold l in Ec; by apply list_elem_of_filter in Ec as [_ ?]).
    destruct (child_exists q e n c Hq Hn Hc) as [Hc0 _]. rewrite (proj2 (Z.eqb_neq _ _)) by done. cbn [negb]. mstep. apply HQ. split; [done|by eapply reach_child].
  - cbn [Z.eqb negb]. unfold dentry_alloc, new_addr, put_dentry. do 9 mstep. pose proof (tr_fresh _ _ Ht) as [Hf0 Hfr']. pose proof (proj1 (Hfr' (fresh s) ltac:(lia))) as Hfr.
    assert (Hlook : runs (inode_lookup (i_ops n) (fresh s)) (set_dentries (<[fresh s := Dentry junk seg 0 0 0 []]> (dentries s)) (set_fresh (fresh s + 1) s))
      (fun _ s1 => exists y, d_inode y = 0 /\ s1 = set_dentries (<[fresh s := y]> (<[fresh s := Dentry junk seg 0 0 0 []]> (dentries s))) (set_fresh (fresh s + 1) s))).
    { destruct (tr_ops _ _ Ht q e n Hq Hn Hdir) as [-> | ->]; cbn [inode_lookup]; unfold dentry_at, put_dentry.
      - mstep. eapply runs_read; [cbn; apply lookup_insert_eq|]. mstep. by exists (Dentry junk seg 0 0 0 []).
      - mstep. exists (Dentry junk seg 0 0 0 []). split; [done|]. by rewrite insert_insert_eq. }
    do 2 mstep. eapply runs_mono; [exact Hlook|]. intros [] s1 (y & Hy & ->). unfold dentry_at. mstep. eapply runs_read; [cbn; apply lookup_insert_eq|]. rewrite Hy. cbn [Z.eqb].
    do 3 mstep. apply HQ. exists (fresh s + 1). split; [lia|]. cbn. rewrite delete_fresh by done. by destruct s.
Qed.

(** The loop's invariant: the walk from here is the walk that was asked for. *)
Lemma lookup_loop_spec p0 l0 (Q : option path -> vfs -> Prop) : reach s p0 -> Forall (no_clash s) (split_path l0) ->
  (forall r s', match r with Some q => walk s p0 (split_path l0) = Some (settle s q) /\ reach s q /\ s' = s | None => walk s p0 (split_path l0) = None /\ same_tree s s' end -> Q r s') ->
  runs (iterM (lookup_fuel l0 s) (lookup_round junk) (p0, l0)) s Q.
Proof.
  intros Hp0 Hnc0 HQ.
  eapply (runs_iterM (fun '(p, l) s' => s' = s /\ reach s p /\ walk s p (split_path l) = walk s p0 (split_path l0) /\ Forall (no_clash s) (split_path l))
    (fun '(p, l) _ => (2 * length l + if decide (settle s p = p) then 0 else 1)%nat)); [|done|].
  2: { unfold lookup_fuel. pose proof (tr_root _ _ Ht) as [pr Hr]. assert (size (mounts s) <> 0)%nat.
       { intros E. apply map_size_empty_inv in E. unfold mnt_root in Hr. by rewrite E in Hr. }
       case_decide; nia. }
  intros [p l] s' (-> & Hp & Hw & Hnc). unfold lookup_round. destruct (bool_decide_reflect (l = [])) as [->|Hl].
  { mstep. apply HQ. split_and!; [by rewrite <- Hw|done|done]. }
  destruct (tr_node _ _ Ht p Hp) as (e & n & Hn). pose proof (node_at_inv _ _ _ _ Hn) as [He Hi]. unfold dentry_at at 1, inode_at at 1. mstep. eapply runs_read; [exact He|].
  mstep. mstep; [apply Z.eqb_neq; by eapply inode_nonzero|]. mstep. eapply runs_read; [exact Hi|]. pose proof (next_segment_split l Hl) as Es.
  pose proof (tr_flag _ _ Ht p e n Hp Hn) as Hf. change (has (i_flags n) INODE_FLAG_DIRECTORY) with (is_dir n). change (has (i_flags n) INODE_FLAG_MOUNTPOINT) with (flagged n).
  destruct (flagged n) eqn:Ef.
  - destruct Hf as [Hd _]. rewrite Hd. cbn [negb]. mstep. eapply descend_spec; [exact Hp|exact Hn|exact Ef|]. mstep. split; [split_and!|].
    + done.
    + by apply settle_reach.
    + rewrite <- Hw. apply walk_settle. by apply settle_twice.
    + done.
    + rewrite (decide_True (P := settle s (settle s p) = settle s p)) by (by apply settle_twice). destruct (settle_flagged p e n Hp Hn Ef) as (k & e' & n' & _ & _ & Hn' & Hf').
      rewrite decide_False; [lia|]. intros E. rewrite E in Hn'. congruence.
  - pose proof (settle_unflagged p e n Hp Hn Ef) as Eset. destruct (is_dir n) eqn:Hd; cbn [negb].
    2: { mstep. apply HQ. split; [|exists (fresh s); split; [lia|by destruct s]]. rewrite <- Hw, Es. cbn [walk]. rewrite Eset, Hn. cbn. by rewrite Hd. }
    rewrite Es in Hnc. apply Forall_cons in Hnc as [Hseg Hrest].
    assert (Hwalk : walk s p (split_path l) = q ← walk_one p (next_segment l).1; walk s q (match (next_segment l).2 with Some l' => split_path l' | None => [] end)).
    { rewrite Es. cbn [walk]. rewrite Eset, Hn. cbn [mbind option_bind]. rewrite Hd. cbn [negb]. unfold walk_one. destruct (_ || _); [done|]. destruct (bool_decide _); [done|]. by destruct (child _ _ _). }
    destruct (next_segment l) as [seg rest] eqn:Eseg. cbn [fst snd] in *. mstep. eapply lookup_segment_spec; [exact Hp|exact Hn|exact Hd|exact Hseg|]. intros s1 Hs1. mstep.
    destruct (walk_one p seg) as [q|]; cbn [mbind option_bind] in Hwalk.
    + destruct Hs1 as [-> Hq]. destruct rest as [l'|].
      * split; [split_and!; try done; by rewrite <- Hw, Hwalk|]. apply next_segment_shorter in Eseg. case_decide; case_decide; lia.
      * apply HQ. rewrite <- Hw, Hwalk. cbn [walk]. done.
    + destruct rest; apply HQ; by rewrite <- Hw, Hwalk.
Qed.

(** Where a lookup starts, and what is left of its path. *)
Definition lookup_start (start : option path) (orig : list Z) : option (path * list Z) :=
  match orig, start with
  | c :: l, Some p => if c =? DIRECTORY_SEPARATOR then r ← mnt_root s (root_mount s); Some (r, l) else Some (p, orig)
  | c :: l, None => r ← mnt_root s (root_mount s); Some (r, if c =? DIRECTORY_SEPARATOR then l else orig)
  | [], Some p => Some (p, [])
  | [], None => r ← mnt_root s (root_mount s); Some (r, [])
  end.

Lemma vfs_lookup_spec start orig (Q : Z * option path -> vfs -> Prop) :
  (match start with Some p => reach s p | None => True end) -> (forall p l, lookup_start start orig = Some (p, l) -> Forall (no_clash s) (split_path l)) ->
  (forall p l s', lookup_start start orig = Some (p, l) -> reach s p ->
     match walk s p (split_path l) with
     | Some q => s' = s /\ reach s q -> Q (0, Some q) s'
     | None => same_tree s s' -> Q (- ENOENT, None) s'
     end) ->
  runs (vfs_lookup junk start orig) s Q.
Proof.
  intros Hst Hnc HQ. destruct (tr_root _ _ Ht) as [r Hr].
  assert (Hbegin : forall p l, lookup_start start orig = Some (p, l) -> reach s p ->
    runs (s1 ← get; r ← iterM (lookup_fuel l s1) (lookup_round junk) (p, l);
      match r with
      | None => mret (- ENOENT, None)
      | Some p => i ← inode_of (p_dentry p); n ← inode_at i; q ← (if has (i_flags n) INODE_FLAG_MOUNTPOINT then descend p else mret p); mret (0, Some q)
      end) s Q).
  { intros p l E Hp. mstep. mstep. mstep. apply lookup_loop_spec; [exact Hp|by apply (Hnc p)|]. intros [q|] s' Hq; specialize (HQ p l s' E Hp).
    - destruct Hq as (Hw & Hq & ->). rewrite Hw in HQ. destruct (tr_node _ _ Ht q Hq) as (e & n & Hn). pose proof (node_at_inv _ _ _ _ Hn) as [He Hi].
      unfold inode_of, inode_at, dentry_at. mstep. mstep. eapply runs_read; [exact He|]. mstep. mstep. eapply runs_read; [exact Hi|]. mstep. change (has (i_flags n) INODE_FLAG_MOUNTPOINT) with (flagged n).
      destruct (flagged n) eqn:Ef; [eapply descend_spec; [exact Hq|exact Hn|exact Ef|]|rewrite <- (settle_unflagged q e n Hq Hn Ef) at 1; mstep]; mstep; apply HQ; (split; [done|by apply settle_reach]).
    - destruct Hq as [Hw Hs]. rewrite Hw in HQ. mstep. by apply HQ. }
  assert (Hrr : reach s r) by by apply reach_root. unfold vfs_lookup. unfold lookup_start in Hbegin. rewrite Hr in Hbegin. cbn [mbind option_bind] in Hbegin.
  mstep. destruct start as [p|], orig as [|c l]; cbn in Hbegin.
  - mstep. by apply Hbegin.
  - destruct (c =? DIRECTORY_SEPARATOR); cbn [negb]; [|mstep; by apply Hbegin]. do 3 mstep. eapply MNT_ROOT_spec; [exact Hr|]. mstep. by apply Hbegin.
  - do 3 mstep. eapply MNT_ROOT_spec; [exact Hr|]. mstep. by apply Hbegin.
  - do 3 mstep. eapply MNT_ROOT_spec; [exact Hr|]. mstep. by apply Hbegin.
Qed.
End Lookup.

(** ** Creation *)

(** A new entry [new], with inode [i], in directory [d]. *)
Definition with_entry (s : vfs) (d : Z) (e : dentry) (new : Z) (x : dentry) (i : Z) (n : inode) (s' : vfs) : Prop :=
  dentries s' = <[d := set_d_children (new :: d_children e) e]> (<[new := x]> (dentries s)) /\ inodes s' = <[i := n]> (inodes s) /\
  mounts s' = mounts s /\ fss s' = fss s /\ mount_hashtable s' = mount_hashtable s /\ root_mount s' = root_mount s /\
  mount_hashtable_lock s' = mount_hashtable_lock s.

Section Entry.
Context (s s' : vfs) (depth : Z -> nat) (Ht : tree s depth) (q : path) (e : dentry) (nq : inode) (new i : Z) (x : dentry) (n : inode)
  (Hq : reach s q) (Hnq : node_at s q = Some (e, nq)) (Hw : with_entry s (p_dentry q) e new x i n s')
  (Hnew : fresh s <= new < fresh s') (Hi : fresh s <= i < fresh s') (Hx : d_inode x = i) (Hxp : d_parent x = p_dentry q) (Hxc : d_children x = [])
  (Hn : flagged n = false) (Hops : i_ops n = ramfs_inode_ops).

Lemma entry_old p ep np : node_at s p = Some (ep, np) ->
  node_at s' p = Some (if decide (p_dentry p = p_dentry q) then set_d_children (new :: d_children e) e else ep, np) /\ p_dentry p <> new.
Proof.
  intros Hp. apply node_at_inv in Hp as [Hd Hip]. pose proof (tr_fresh _ _ Ht) as [_ Hfr]. destruct (Hfr new) as [Hdn _]; [lia|]. destruct (Hfr i) as [_ Hin]; [lia|].
  assert (Hne : p_dentry p <> new) by congruence. split; [|done]. destruct Hw as (Ed & Ei & _). unfold node_at. rewrite Ed, Ei. case_decide as E.
  - rewrite E, lookup_insert_eq. cbn. pose proof (node_at_inv _ _ _ _ Hnq) as [He _]. assert (ep = e) as -> by congruence.
    rewrite lookup_insert_ne by congruence. by rewrite Hip.
  - rewrite !lookup_insert_ne by done. rewrite Hd. cbn. rewrite lookup_insert_ne by congruence. by rewrite Hip.
Qed.

Lemma entry_new m : node_at s' (Path m new) = Some (x, n).
Proof.
  pose proof (node_at_inv _ _ _ _ Hnq) as [He _]. pose proof (tr_fresh _ _ Ht) as [_ Hfr]. destruct (Hfr new) as [Hdn _]; [lia|].
  destruct Hw as (Ed & Ei & _). unfold node_at. cbn. rewrite Ed, Ei, lookup_insert_ne by congruence. rewrite lookup_insert_eq. cbn. by rewrite Hx, lookup_insert_eq.
Qed.

Lemma entry_mount_on p : mount_on p s' = mount_on p s.
Proof. destruct Hw as (_ & _ & Em & _ & Eh & _). unfold mount_on. by rewrite Em, Eh. Qed.
Lemma entry_mnt_root k : mnt_root s' k = mnt_root s k.
Proof. destruct Hw as (_ & _ & Em & Ef & _). unfold mnt_root. by rewrite Em, Ef. Qed.

Lemma entry_reach_old p : reach s p -> reach s' p.
Proof.
  induction 1 as [p Hp|p ep c Hp IH Hd Hc|p k r Hp IH Hk Hr].
  - apply reach_root. by rewrite entry_mnt_root, (proj1 (proj2 (proj2 (proj2 (proj2 (proj2 Hw)))))).
  - destruct (tr_node _ _ Ht p Hp) as (e2 & n2 & H2). pose proof (entry_old p e2 n2 H2) as [H2' _]. apply node_at_inv in H2 as [H2 _]. assert (e2 = ep) as -> by congruence.
    apply node_at_inv in H2' as [H2' _]. eapply reach_child; [exact IH|exact H2'|]. case_decide as E; [|done]. cbn. right.
    pose proof (node_at_inv _ _ _ _ Hnq) as [He _]. rewrite E in Hd. by simplify_eq.
  - eapply reach_mount; [exact IH|by rewrite entry_mount_on|by rewrite entry_mnt_root].
Qed.

Lemma entry_reach p : reach s' p <-> reach s p \/ p_dentry p = new /\ reach s (Path (p_mount p) (p_dentry q)).
Proof.
  pose proof (node_at_inv _ _ _ _ Hnq) as [He _]. split.
  - induction 1 as [p Hp|p ep c Hp IH Hd Hc|p k r Hp IH Hk Hr].
    + left. apply reach_root. by rewrite <- entry_mnt_root, <- (proj1 (proj2 (proj2 (proj2 (proj2 (proj2 Hw)))))).
    + destruct IH as [IH|[IH _]].
      * destruct (tr_node _ _ Ht p IH) as (e2 & n2 & H2). pose proof (entry_old p e2 n2 H2) as [H2' _]. apply node_at_inv in H2' as [H2' _]. apply node_at_inv in H2 as [H2 _].
        rewrite H2' in Hd. injection Hd as <-. case_decide as E; [|left; by eapply reach_child]. cbn in Hc. apply elem_of_cons in Hc as [->|Hc].
        -- right. split; [done|]. cbn. rewrite <- E. by destruct p.
        -- left. eapply reach_child; [exact IH|exact H2|]. rewrite E in H2. by simplify_eq.
      * pose proof (entry_new (p_mount p)) as Hnn. apply node_at_inv in Hnn as [Hnn _]. cbn in Hnn. rewrite <- IH, Hd in Hnn. injection Hnn as ->. rewrite Hxc in Hc. by apply not_elem_of_nil in Hc.
    + rewrite entry_mount_on in Hk. rewrite entry_mnt_root in Hr. destruct IH as [IH|[IH _]]; [left; by eapply reach_mount|].
      apply (tr_table _ _ Ht) in Hk as [y Hy]. rewrite IH in Hy. destruct (proj2 (tr_fresh _ _ Ht) new) as [Hdn _]; [lia|]. congruence.
  - intros [Hp|[E Hp]]; [by apply entry_reach_old|]. apply entry_reach_old in Hp. destruct p as [m d]. cbn in *. subst d.
    destruct Hw as (Ed & _). apply (reach_child s' (Path m (p_dentry q)) (set_d_children (new :: d_children e) e)); [exact Hp|cbn; rewrite Ed; apply lookup_insert_eq|]. cbn. left.
Qed.

Lemma entry_node p ep np : reach s' p -> node_at s' p = Some (ep, np) ->
  (exists e0, reach s p /\ node_at s p = Some (e0, np) /\ d_parent ep = d_parent e0) \/ (ep = x /\ np = n /\ p_dentry p = new /\ reach s (Path (p_mount p) (p_dentry q))).
Proof.
  intros Hp Hnp. apply entry_reach in Hp as [Hp|[E Hp]].
  - left. destruct (tr_node _ _ Ht p Hp) as (e2 & n2 & H2). pose proof (entry_old p e2 n2 H2) as [H2' _]. rewrite H2' in Hnp. injection Hnp as <- <-. exists e2. split_and!; try done.
    case_decide as E; [|done]. apply node_at_inv in H2 as [H2 _]. pose proof (node_at_inv _ _ _ _ Hnq) as [He _]. rewrite E in H2. by simplify_eq.
  - right. pose proof (entry_new (p_mount p)) as Hnn. rewrite <- E in Hnn. destruct p as [m d]. cbn in Hnn. rewrite Hnn in Hnp. by injection Hnp as <- <-.
Qed.

Lemma entry_tree : tree s' depth.
Proof.
  pose proof Hw as (Ed & Ei & Em & Ef & Eh & Er & El). pose proof Ht as [Tl Tn [Tf0 Tf] Tt Tr Tnode Tops Tflag Tsing Tpar Tup Tdep]. split.
  - by rewrite El.
  - rewrite Em, Ei, Ed. destruct Tn as (? & ? & ?). pose proof (node_at_inv _ _ _ _ Hnq) as [He _]. rewrite !lookup_insert_ne by (lia || congruence). done.
  - split; [lia|]. intros k Hk. destruct (Tf k) as [Hdk Hik]; [lia|]. rewrite Ed, Ei. pose proof (node_at_inv _ _ _ _ Hnq) as [He _]. rewrite !lookup_insert_ne by (lia || congruence). done.
  - intros p k Hk. rewrite entry_mount_on in Hk. apply Tt in Hk as [y Hy]. rewrite Ed, lookup_insert_is_Some', lookup_insert_is_Some'. do 2 right. by exists y.
  - destruct Tr as [r Hr]. exists r. by rewrite entry_mnt_root, Er.
  - intros p Hp. apply entry_reach in Hp as [Hp|[E Hp]].
    + destruct (Tnode p Hp) as (e2 & n2 & H2). pose proof (entry_old p e2 n2 H2) as [H2' _]. by eexists _, _.
    + exists x, n. rewrite <- (entry_new (p_mount p)). rewrite <- E. by destruct p.
  - intros p ep np Hp Hnp Hd. apply entry_node in Hnp as [(e0 & Hp0 & Hn0 & _)|(-> & -> & _)]; [by eapply Tops|by left|done].
  - intros p ep np Hp Hnp. rewrite entry_mount_on. apply entry_node in Hnp as [(e0 & Hp0 & Hn0 & _)|(-> & -> & E & _)]; [| |done].
    + specialize (Tflag p e0 np Hp0 Hn0). destruct (flagged np); [|done]. destruct Tflag as (Hd & k & r & Hk & Hr). split; [done|]. exists k, r. by rewrite entry_mnt_root.
    + rewrite Hn. destruct (mount_on p s) as [k|] eqn:Ek; [|done]. apply Tt in Ek as [y Hy]. destruct (Tf new) as [Hdn _]; [lia|]. congruence.
  - intros p k r er nr Hp Hk Hr Hnr. rewrite entry_mount_on in Hk. rewrite entry_mnt_root in Hr.
    apply entry_reach in Hp as [Hp|[E Hp]]; [|apply Tt in Hk as [y Hy]; destruct (Tf new) as [Hdn _]; [lia|]; congruence].
    assert (Hrr : reach s r) by by eapply reach_mount. apply entry_node in Hnr as [(e0 & _ & Hn0 & _)|(_ & -> & _)]; [by eapply (Tsing p k r)|done|]. by apply entry_reach; left.
  - intros p ep np Hp Hnp Hpar. apply entry_node in Hnp as [(e0 & Hp0 & Hn0 & E)|(-> & _ & _ & Hp0)]; [| |done].
    + apply entry_reach. left. rewrite E in *. by eapply Tpar.
    + rewrite Hxp. apply entry_reach. by left.
  - intros p ep np Hp Hnp Hpar Hm. rewrite Er in Hm. apply entry_node in Hnp as [(e0 & Hp0 & Hn0 & E)|(-> & _ & _ & Hp0)]; [| |done].
    + rewrite E in Hpar. destruct (Tup p e0 np Hp0 Hn0 Hpar Hm) as (m & H1 & H2 & H3 & H4 & H5). exists m. rewrite Em, entry_mount_on. split_and!; try done. apply entry_reach. by left.
    + rewrite Hxp in Hpar. destruct Tn as (_ & _ & Td). pose proof (node_at_inv _ _ _ _ Hnq) as [He _]. congruence.
  - intros p Hp. rewrite Em. apply entry_reach in Hp as [Hp|[E Hp]]; [by apply Tdep|]. by apply Tdep in Hp.
Qed.
End Entry.

(** The names of a path that ends in [name]. *)
Lemma last_segment_plain l : DIRECTORY_SEPARATOR ∉ l -> forall i seg, last_segment_from l i seg = seg.
Proof.
  induction l as [|c l IH]; intros Hl i seg; cbn [last_segment_from]; [done|]. destruct (Z.eqb_spec c DIRECTORY_SEPARATOR) as [->|]; [set_solver|].
  cbn [andb]. apply IH. set_solver.
Qed.
Lemma last_segment_dir dir name i seg : name <> [] -> DIRECTORY_SEPARATOR ∉ name -> last_segment_from (dir ++ DIRECTORY_SEPARATOR :: name) i seg = (i + length dir + 1)%nat.
Proof.
  intros Hn Hs. revert i seg. induction dir as [|c dir IH]; intros i seg.
  - cbn [app last_segment_from length]. rewrite Z.eqb_refl, bool_decide_eq_true_2 by done. cbn [andb]. rewrite last_segment_plain by done. lia.
  - cbn [app last_segment_from length]. rewrite IH. lia.
Qed.

Lemma split_path_plain l : l <> [] -> DIRECTORY_SEPARATOR ∉ l -> split_path l = [l].
Proof.
  induction l as [|c l IH]; intros Hl Hs; [done|]. cbn [split_path]. destruct (Z.eqb_spec c DIRECTORY_SEPARATOR) as [->|]; [set_solver|].
  destruct l as [|c' l]; [done|]. rewrite IH; [done|done|set_solver].
Qed.

Definition in_dir (dir : option (list Z)) (name : list Z) : list Z := match dir with Some d => d ++ DIRECTORY_SEPARATOR :: name | None => name end.

(** The directory a path's last segment is looked for in. *)
Definition working_dir (s : vfs) (start : path) (dir : option (list Z)) : option path :=
  match dir with Some d => '(p, l) ← lookup_start s (Some start) d; walk s p (split_path l) | None => Some start end.

(** No name clashes with those of [l]. *)
Definition clear_path (s : vfs) (l : list Z) : Prop := Forall (no_clash s) (split_path l).

Section Create.
Context (junk : Z) (s : vfs) (depth : Z -> nat) (Ht : tree s depth).

Lemma lookup_start_clear start d p l : lookup_start s (Some start) d = Some (p, l) -> clear_path s d -> clear_path s l.
Proof.
  unfold clear_path. destruct d as [|c d]; cbn; [by intros [= <- <-]|]. destruct (c =? DIRECTORY_SEPARATOR) eqn:E; [|intros [= <- <-]; cbn; by rewrite E].
  destruct (mnt_root s (root_mount s)); [|done]. cbn. intros [= <- <-] H. by apply Forall_cons in H as [_ H].
Qed.

Lemma same_tree_refl : same_tree s s.
Proof. exists (fresh s). split; [lia|]. by destruct s. Qed.

Lemma get_path_wd_spec start dir name (Q : Z * option (path * list Z) -> vfs -> Prop) : reach s start -> settle s start = start -> name <> [] -> DIRECTORY_SEPARATOR ∉ name ->
  (match dir with Some d => clear_path s d | None => True end) ->
  (match working_dir s start dir with
   | Some q => reach s q -> settle s q = q -> Q (0, Some (q, name)) s
   | None => forall s', same_tree s s' -> Q (- ENOENT, None) s'
   end) ->
  runs (get_path_wd junk start (in_dir dir name)) s Q.
Proof.
  intros Hst Hset Hne Hsep Hcl HQ. unfold get_path_wd, last_segment. destruct dir as [d|]; cbn [in_dir working_dir] in *.
  - rewrite last_segment_dir by done. cbn [Nat.add]. replace (length d + 1)%nat with (S (length d)) by lia.
    assert (Ed : drop (S (length d)) (d ++ DIRECTORY_SEPARATOR :: name) = name) by (by rewrite <- (Nat.add_1_r (length d)), drop_app_add).
    rewrite Ed. rewrite bool_decide_eq_true_2 by (intros E; apply (f_equal length) in E; rewrite length_app in E; cbn in E; lia).
    replace (take (S (length d) - 1) _) with d by (by rewrite Nat.sub_succ, Nat.sub_0_r, take_app_length). mstep.
    destruct (tr_root _ _ Ht) as [r Hr]. assert (Hs0 : exists p l, lookup_start s (Some start) d = Some (p, l)).
    { unfold lookup_start. rewrite Hr. destruct d as [|c d']; [by eexists _, _|]. destruct (_ =? _); by eexists _, _. }
    destruct Hs0 as (p & l & Hs0). rewrite Hs0 in HQ. cbn [mbind option_bind] in HQ.
    eapply (vfs_lookup_spec s depth Ht junk (Some start) d); [exact Hst|intros p' l' E'; by eapply lookup_start_clear|].
    intros p' l' s' E' Hp'. rewrite Hs0 in E'. injection E' as <- <-. destruct (walk s p (split_path l)) as [q|] eqn:Ew.
    + intros [-> Hq]. mstep. apply HQ; [done|].
      assert (Hw : forall segs p1, reach s p1 -> walk s p1 segs = Some q -> settle s q = q).
      { induction segs as [|seg segs IH]; intros p1 Hp1; cbn [walk]; [intros [= <-]; by apply (settle_twice s depth Ht)|].
        pose proof (settle_reach s p1 Hp1) as Hsr. destruct (node_at s (settle s p1)) as [[e n]|] eqn:En; [|done]. cbn [mbind option_bind]. destruct (is_dir n); [|done]. cbn [negb].
        destruct (_ || _); [by apply IH|]. destruct (bool_decide _); [apply IH; by apply (go_up_spec s depth Ht (settle s p1) (fun _ _ => True))|].
        destruct (child s (settle s p1) seg) as [c|] eqn:Ec; [|done]. cbn [mbind option_bind]. apply IH. apply node_at_inv in En as [He _].
        unfold child in Ec. rewrite He in Ec. cbn in Ec. apply head_Some_elem_of in Ec. apply list_elem_of_filter in Ec as [_ Ec]. by eapply reach_child. }
      exact (Hw _ _ Hp' Ew).
    + intros Hs'. mstep. by apply HQ.
  - rewrite last_segment_plain by done. cbn [drop]. rewrite bool_decide_eq_false_2 by (intros E; by apply E). mstep. by apply HQ.
Qed.
End Create.

Lemma inode_alloc_spec s f ops (Q : Z -> vfs -> Prop) : global_ino_lock s = false ->
  (forall s', s' = set_inodes (<[fresh s := Inode f ops 0 0 (global_ino_count s) 0 0 0 0 0 0 0 0 0 0 0 0]> (inodes s))
     (set_global_ino_count (u32 (global_ino_count s + 1)) (set_fresh (fresh s + 1) s)) -> Q (fresh s) s') ->
  runs (inode_alloc f ops) s Q.
Proof.
  intros Hl HQ. unfold inode_alloc, new_addr, with_ino, put_inode. do 7 mstep. apply runs_locked; [cbn; by rewrite Hl|]. do 6 mstep. mstep. mstep. apply HQ. cbn. destruct s. cbn in *. by rewrite Hl.
Qed.

(** What [ramfs_create_internal] leaves: the inode [i] and, for a regular file, its record. *)
Definition created_inode (s s' : vfs) (f m i : Z) : inode -> Prop := fun n =>
  ino n = global_ino_count s /\ flagged n = false /\ i_ops n = ramfs_inode_ops /\
  if S_ISREG m then is_dir n = false /\ i_size n = 0 /\ records s' !! i_private n = Some [] /\ 0 < i_private n < fresh s' else is_dir n = true.

Lemma ramfs_create_internal_spec s f d e m (Q : Z -> vfs -> Prop) : global_ino_lock s = false -> 0 < fresh s -> dentries s !! d = Some e -> S_ISREG m || S_ISDIR m = true ->
  (forall s' i n, fresh s <= i < fresh s' -> dentries s' = <[d := set_d_inode i e]> (dentries s) -> inodes s' = <[i := n]> (inodes s) ->
     created_inode s s' f m i n -> mounts s' = mounts s /\ fss s' = fss s /\ mount_hashtable s' = mount_hashtable s /\ root_mount s' = root_mount s /\ mount_hashtable_lock s' = mount_hashtable_lock s /\ chunks s' = chunks s ->
     Q 0 s') ->
  runs (ramfs_create_internal f d m) s Q.
Proof.
  intros Hl Hf Hd Hm HQ. unfold ramfs_create_internal. destruct (S_ISREG m) eqn:Er.
  - mstep. apply inode_alloc_spec; [done|]. intros s1 ->. unfold record_create, new_addr, put_record, inode_at, dentry_at, put_inode, put_dentry. do 11 mstep. eapply runs_read; [cbn; apply lookup_insert_eq|]. do 3 mstep. eapply runs_read; [cbn; exact Hd|]. do 3 mstep.
    eapply (HQ _ (fresh s) (Inode f ramfs_inode_ops 0 0 (global_ino_count s) m 0 0 0 0 0 0 0 0 12 8 (fresh s + 1))); cbn; [lia|done|by rewrite insert_insert_eq| |done].
    unfold created_inode. rewrite Er. cbn. split_and!; try done; [apply lookup_insert_eq|lia|lia].
  - cbn [orb] in Hm. rewrite Hm. mstep. apply inode_alloc_spec; [done|]. intros s1 ->. unfold inode_at, dentry_at, put_inode, put_dentry.
    mstep. eapply runs_read; [cbn; apply lookup_insert_eq|]. do 3 mstep. eapply runs_read; [cbn; exact Hd|]. do 3 mstep.
    eapply (HQ _ (fresh s) (Inode f ramfs_inode_ops INODE_FLAG_DIRECTORY 0 (global_ino_count s) m 0 0 0 0 1 0 0 0 12 8 0)); cbn; [lia|done|by rewrite insert_insert_eq| |done].
    unfold created_inode. by rewrite Er.
Qed.

Lemma lookup_start_name s q name : name <> [] -> DIRECTORY_SEPARATOR ∉ name -> lookup_start s (Some q) name = Some (q, name).
Proof. intros Hn Hs. destruct name as [|c name]; [done|]. cbn. destruct (Z.eqb_spec c DIRECTORY_SEPARATOR) as [->|]; [set_solver|done]. Qed.

(** What has been made: a regular file without contents, or a directory without entries. *)
Definition made (s : vfs) (p : path) (m : Z) : Prop :=
  exists x n, node_at s p = Some (x, n) /\ d_children x = [] /\ if S_ISREG m then file_holds s p x n [] [] else is_dir n = true.

Lemma same_tree_tree s s' depth : tree s depth -> same_tree s s' -> tree s' depth /\ (forall p, reach s p -> reach s' p) /\ (forall p l, walk s' p l = walk s p l) /\ (forall p, node_at s' p = node_at s p).
Proof.
  intros Ht (v & Hv & ->). assert (Hr : forall p, reach (set_fresh v s) p <-> reach s p).
  { intros p. split; (induction 1; [by apply reach_root|by eapply reach_child|by eapply reach_mount]). }
  split.
  - destruct Ht as [Tl Tn [Tf0 Tf] Tt Tr Tnode Tops Tflag Tsing Tpar Tup Tdep]. split; try done.
    + split; [cbn; lia|]. intros k Hk. apply Tf. cbn in Hk. lia.
    + intros p Hp. apply Tnode. by apply Hr.
    + intros p e n Hp. apply Tops. by apply Hr.
    + intros p e n Hp. apply Tflag. by apply Hr.
    + intros p k q e n Hp. apply Tsing. by apply Hr.
    + intros p e n Hp H1 H2. apply Hr. apply Hr in Hp. by eapply Tpar.
    + intros p e n Hp H1 H2 H3. apply Hr in Hp. destruct (Tup p e n Hp H1 H2 H3) as (m & A & B & C & D & E). exists m. split_and!; try done. by apply Hr.
    + intros p Hp. apply Tdep. by apply Hr.
  - split; [intros p Hp; by apply Hr|]. split; [|done]. assert (Hc : forall n p, climb n (set_fresh v s) p = climb n s p).
    { induction n as [|n IH]; intros p; cbn; [done|]. change (node_at (set_fresh v s) p) with (node_at s p). destruct (node_at s p) as [[e nd]|]; [|done].
      destruct (negb _); [done|]. destruct (_ =? _); [done|]. destruct (mounts s !! _); [|done]. apply IH. }
    intros p l. revert p. induction l as [|seg l IH]; intros p; cbn [walk]; [done|]. change (node_at (set_fresh v s) (settle (set_fresh v s) p)) with (node_at s (settle s p)).
    destruct (node_at s (settle s p)) as [[e nd]|]; [|done]. cbn [mbind option_bind]. destruct (negb _); [done|]. destruct (_ || _); [by rewrite IH|].
    destruct (bool_decide _); [unfold parent_of; rewrite IH; by rewrite Hc|]. change (child (set_fresh v s) (settle (set_fresh v s) p) seg) with (child s (settle s p) seg).
    destruct (child s _ seg); [|done]. cbn [mbind option_bind]. by rewrite IH.
Qed.

Lemma create_new_spec junk s depth q e nq name m (Q : Z * option path -> vfs -> Prop) : tree s depth -> reach s q -> settle s q = q -> node_at s q = Some (e, nq) -> is_dir nq = true ->
  i_ops nq = ramfs_inode_ops -> global_ino_lock s = false -> 0 < global_ino_count s -> S_ISREG m || S_ISDIR m = true -> walk s q [name] = None ->
  (forall s' new, made s' (Path (p_mount q) new) m -> tree s' depth -> reach s' (Path (p_mount q) new) -> walk s' q [name] = Some (Path (p_mount q) new) -> Q (0, Some (Path (p_mount q) new)) s') ->
  runs (new ← dentry_alloc junk name; i ← inode_of (p_dentry q); ret ← inode_create i new m;
    if ret <? 0 then mret (ret, None) else validate_inode new;; dentry_activate new (p_dentry q);; mret (ret, Some (Path (p_mount q) new))) s Q.
Proof.
  intros Ht Hq Hset Hnq Hdir Hops Hl Hc Hm Hwalk HQ. pose proof (node_at_inv _ _ _ _ Hnq) as [He Hi]. pose proof (tr_fresh _ _ Ht) as [Hf0 Hfr]. destruct (Hfr (fresh s)) as [Hd0 _]; [lia|].
  unfold dentry_alloc, new_addr, put_dentry, inode_of, dentry_at. do 11 mstep. set (x0 := Dentry junk name 0 0 0 []). assert (Hqne : p_dentry q <> fresh s) by congruence.
  mstep. eapply runs_read; [cbn; rewrite lookup_insert_ne by done; exact He|]. mstep. mstep. unfold inode_create at 1, inode_at. mstep. eapply runs_read; [exact Hi|]. rewrite Hops.
  set (s1 := set_dentries _ _). eapply (ramfs_create_internal_spec s1 _ (fresh s) x0); [exact Hl|cbn; lia|apply lookup_insert_eq|exact Hm|].
  intros s2 i n Hir Ed Ei (Hino & Hfl & Ho & Hkind) (Em & Ef & Eh & Er & Ek & Ech). cbn [fresh s1 set_dentries set_fresh] in Hir. cbn [Z.ltb Z.compare].
  unfold validate_inode, inode_of, dentry_at, inode_at. mstep. mstep. mstep. eapply runs_read; [rewrite Ed; apply lookup_insert_eq|]. mstep. mstep. eapply runs_read; [rewrite Ei; apply lookup_insert_eq|].
  rewrite Hino, (proj2 (Z.eqb_neq _ _)) by (cbn; lia). mstep. unfold dentry_activate, dentry_at, put_dentry. mstep. mstep. eapply runs_read; [rewrite Ed; apply lookup_insert_eq|]. mstep. mstep.
  assert (Hq0 : p_dentry q <> 0) by (intros E; pose proof (tr_null _ _ Ht) as (_ & _ & ?); congruence). rewrite (proj2 (Z.eqb_neq _ _)) by done. cbn [negb].
  mstep. eapply runs_read; [cbn; rewrite Ed, !lookup_insert_ne by done; cbn; rewrite lookup_insert_ne by done; exact He|]. mstep. mstep.
  set (x := set_d_parent (p_dentry q) (set_d_inode i x0)). set (s3 := set_dentries _ _).
  assert (Hw : with_entry s (p_dentry q) e (fresh s) x i n s3).
  { split; [|by split_and!]. cbn. rewrite Ed. cbn. by rewrite !insert_insert_eq. }
  assert (Hnew : fresh s <= fresh s < fresh s3) by (cbn; lia). assert (Hi3 : fresh s <= i < fresh s3) by (cbn; lia).
  assert (Hnn : node_at s3 (Path (p_mount q) (fresh s)) = Some (x, n)) by by eapply (entry_new s s3 depth).
  assert (Hmo : mount_on (Path (p_mount q) (fresh s)) s3 = None).
  { rewrite (entry_mount_on s s3 q e (fresh s) i x n Hw). destruct (mount_on _ s) as [k|] eqn:Eon; [|done]. apply (tr_table _ _ Ht) in Eon as [y Hy]. cbn in Hy. congruence. }
  apply HQ.
  - exists x, n. split; [exact Hnn|]. split; [done|]. destruct (S_ISREG m); [|done]. destruct Hkind as (Hnd & Hsz & Hrec & Hpr). apply node_at_inv in Hnn as [Hnd1 Hnn].
    split; try done; try by constructor. { split; [apply not_elem_of_nil|cbn; lia]. }
  - eapply (entry_tree s s3 depth Ht q e nq (fresh s) i x n); done.
  - eapply (entry_reach s s3 depth Ht q e nq (fresh s) i x n); try done. right. split; [done|]. by destruct q.
  - cbn [walk] in Hwalk |- *. rewrite Hset, Hnq in Hwalk. cbn [mbind option_bind] in Hwalk. rewrite Hdir in Hwalk. cbn [negb] in Hwalk.
    assert (Hset3 : settle s3 q = q). { unfold settle in *. rewrite (entry_mount_on s s3 q e (fresh s) i x n Hw). destruct (mount_on q s) as [k|]; [|done]. cbn in *. by rewrite (entry_mnt_root s s3 q e (fresh s) i x n Hw). }
    rewrite Hset3. pose proof (entry_old s s3 depth Ht q e nq (fresh s) i x n Hnq Hw ltac:(lia) ltac:(lia) q e nq Hnq) as [Hq3 _]. rewrite Hq3. cbn [mbind option_bind]. rewrite Hdir. cbn [negb].
    revert Hwalk. destruct (bool_decide (name = []) || bool_decide (name = [DOT])); [done|]. destruct (bool_decide (name = [DOT; DOT])); [done|]. intros _. unfold child. apply node_at_inv in Hq3 as [Hq3 _]. rewrite Hq3. cbn [mbind option_bind]. rewrite decide_True by done. cbn [d_children set_d_children].
    assert (Hmn : d_name x = name) by done. rewrite filter_cons_True by (apply node_at_inv in Hnn as [Hnn _]; cbn [p_dentry] in Hnn; rewrite Hnn; cbn [fmap option_fmap option_map]; by rewrite Hmn). cbn [head mbind option_bind]. unfold settle. by rewrite Hmo.
Qed.

Lemma vfs_create_spec junk s depth start dir name m (Q : Z * option path -> vfs -> Prop) : tree s depth -> reach s start -> settle s start = start -> name <> [] -> DIRECTORY_SEPARATOR ∉ name ->
  (match dir with Some d => clear_path s d | None => True end) -> no_clash s name ->
  global_ino_lock s = false -> 0 < global_ino_count s -> S_ISREG m || S_ISDIR m = true ->
  match working_dir s start dir with
  | None => forall s', same_tree s s' -> Q (- ENOENT, None) s'
  | Some q => exists e nq, node_at s q = Some (e, nq) /\ is_dir nq = true /\ i_ops nq = ramfs_inode_ops /\
      match walk s q [name] with
      | Some f => Q (- EEXIST, Some f) s
      | None => forall s' new, made s' (Path (p_mount q) new) m -> tree s' depth -> reach s' (Path (p_mount q) new) -> walk s' q [name] = Some (Path (p_mount q) new) ->
          Q (0, Some (Path (p_mount q) new)) s'
      end
  end -> runs (vfs_create junk start (in_dir dir name) m) s Q.
Proof.
  intros Ht Hst Hset Hne Hsep Hcl Hnc Hl Hc Hm HQ. unfold vfs_create. mstep. eapply (get_path_wd_spec junk s depth Ht); [done..|]. destruct (working_dir s start dir) as [q|]; [|intros s' Hs'; mstep; by apply HQ].
  destruct HQ as (e & nq & Hnq & Hd & Ho & HQ). intros Hq Hsq. rewrite bool_decide_eq_false_2 by (destruct dir as [[|]|]; done). mstep.
  eapply (vfs_lookup_spec s depth Ht junk (Some q) name); [exact Hq|intros p l E; rewrite lookup_start_name in E by done; injection E as <- <-; rewrite split_path_plain by done; by apply Forall_singleton|].
  intros p l s1 E _. rewrite lookup_start_name in E by done. injection E as <- <-. rewrite split_path_plain by done. destruct (walk s q [name]) as [f|] eqn:Ew.
  - intros [-> _]. by mstep.
  - intros Hs1. cbn [Z.eqb Z.opp ENOENT Pos.eqb]. destruct (same_tree_tree s s1 depth Ht Hs1) as (Ht1 & Hr1 & Hw1 & Hn1). destruct Hs1 as (v & Hv & Es1).
    eapply (create_new_spec junk s1 depth q e nq name m); [exact Ht1|by apply Hr1|by rewrite Es1|by rewrite Hn1|done|done|by rewrite Es1|by rewrite Es1|done|by rewrite Hw1|].
    intros s' new H1 H2 H3 H4. by apply HQ.
Qed.

(** ** Theorems *)

(** C10: path lookup.  On a well-formed tree of mounted file systems [vfs_lookup] answers for every path, absolute
    or relative, with empty segments, [.] and [..], across mount points in both directions: it gives the path
    that the reference walk over the segments leads to and leaves the state alone, or -ENOENT when the walk leads nowhere, a
    regular file on the way included, and then only addresses have been used up.  What is asked of the tree is that
    no name in a segment's bucket goes on where the segment ends (the code compares only so far). *)
Theorem vfs_lookup_correct s depth junk start orig : tree s depth ->
  (match start with Some p => reach s p | None => True end) ->
  (forall p l, lookup_start s start orig = Some (p, l) -> Forall (no_clash s) (split_path l)) ->
  runs (vfs_lookup junk start orig) s (fun r s' => exists p l, lookup_start s start orig = Some (p, l) /\
    match walk s p (split_path l) with
    | Some q => r = (0, Some q) /\ reach s q /\ s' = s
    | None => r = (- ENOENT, None) /\ same_tree s s'
    end).
Proof.
  intros Ht Hst Hnc. eapply (vfs_lookup_spec s depth Ht); [done..|]. intros p l s' Hl Hp. destruct (walk s p (split_path l)) eqn:E.
  - intros [-> Hr]. exists p, l. by rewrite E.
  - intros Hs. exists p, l. by rewrite E.
Qed.


(** ** Examples *)

(** The root file system with a file [a] and a directory [d] that another ram file system is mounted on. *)
Definition boot2 : M vfs path :=
  _ ← boot_fs; s ← get; root ← MNT_ROOT (root_mount s);
  '(_, p) ← vfs_create 0 root [100] (Z.lor S_IFDIR mode_755);
  match p with Some p => _ ← vfs_mount 0 (fs_type_name ramfs) p; mret p | None => panic end.
Definition fs2 : vfs := after boot2 vfs0.
Definition depth2 (k : Z) : nat := if k =? 15 then 1 else 0.

#[local] Ltac in_list := apply (bool_decide_unpack _); vm_compute; exact I.

Lemma fs2_reach p : reach fs2 p -> p ∈ [Path 4 2; Path 4 10; Path 4 6; Path 15 13].
Proof.
  induction 1 as [p Hp|p e c _ IH He Hc|p k q _ IH Hk Hq].
  - vm_compute in Hp. injection Hp as <-. by left.
  - repeat (apply elem_of_cons in IH as [->|IH]); [..|destruct (not_elem_of_nil _ IH)]; vm_compute in He; injection He as <-; cbn [d_children p_mount] in *; repeat (apply elem_of_cons in Hc as [->|Hc]; [in_list|]); destruct (not_elem_of_nil _ Hc).
  - repeat (apply elem_of_cons in IH as [->|IH]); [..|destruct (not_elem_of_nil _ IH)]; vm_compute in Hk; try discriminate Hk; injection Hk as <-; vm_compute in Hq; injection Hq as <-; in_list.
Qed.

Ltac fs2_cases H := apply fs2_reach in H; repeat (apply elem_of_cons in H as [->|H]); [..|destruct (not_elem_of_nil _ H)].

Lemma fs2_tree : tree fs2 depth2.
Proof.
  split.
  - reflexivity.
  - by vm_compute.
  - split; [by vm_compute|]. intros k Hk. change (fresh fs2) with 16 in Hk. split; apply eq_None_not_Some; intros [x Hx]; apply elem_of_dom_2 in Hx; [set (D := dom (dentries fs2)) in Hx|set (D := dom (inodes fs2)) in Hx];
      apply elem_of_elements in Hx; vm_compute in Hx; set_unfold in Hx; lia.
  - intros p k Hk. destruct p as [m d]. unfold mount_on in Hk. change (mount_hashtable fs2) with [15] in Hk. rewrite filter_cons in Hk. destruct (decide _) as [E|]; [|discriminate Hk].
    change (mounts fs2 !! 15) with (Some (Mount 4 12 10)) in E. cbn in E. apply andb_true_iff in E as [_ E%bool_decide_eq_true]. cbn. rewrite <- E. vm_compute. eauto.
  - vm_compute. eauto.
  - intros p Hp. fs2_cases Hp; vm_compute; eauto.
  - intros p e n Hp Hn _. fs2_cases Hp; vm_compute in Hn; injection Hn as <- <-; by left.
  - intros p e n Hp Hn. fs2_cases Hp; vm_compute in Hn; injection Hn as <- <-; vm_compute; eauto.
  - intros p k q e n Hp Hk Hq Hn. fs2_cases Hp; vm_compute in Hk; try discriminate Hk. injection Hk as <-. vm_compute in Hq. injection Hq as <-. vm_compute in Hn. by injection Hn as <- <-.
  - intros p e n Hp Hn Hd. fs2_cases Hp; vm_compute in Hn; injection Hn as <- <-; try done; by apply reach_root.
  - intros p e n Hp Hn Hd Hm. fs2_cases Hp; vm_compute in Hn; injection Hn as <- <-; try done.
    exists (Mount 4 12 10). split; [reflexivity|]. split; [done|]. split; [|split; [reflexivity|by vm_compute; lia]].
    eapply (reach_child _ (Path 4 2)); [by apply reach_root|vm_compute; reflexivity|in_list].
  - intros p Hp. fs2_cases Hp; vm_compute; lia.
Qed.

Definition apart (seg : list Z) : bool := bool_decide (seg = []) || forallb (fun p => negb (same_start p seg) || bool_decide (p = seg)) [[]; [97]; [100]].
Lemma fs2_no_clash seg : apart seg = true -> no_clash fs2 seg.
Proof.
  intros Hs Hsne c e He Hst _. unfold apart in Hs. rewrite bool_decide_eq_false_2 in Hs by done. cbn [orb] in Hs. assert (Hm : d_name e ∈ [[]; [97]; [100]]).
  { apply elem_of_map_to_list in He. assert (Hall : Forall (fun p : Z * dentry => d_name p.2 ∈ [[]; [97]; [100]]) (map_to_list (dentries fs2))) by (apply (bool_decide_unpack _); vm_compute; exact I).
    rewrite Forall_forall in Hall. exact (Hall _ He). }
  rewrite forallb_forall in Hs. apply list_elem_of_In in Hm. specialize (Hs _ Hm). rewrite Hst in Hs. exact (bool_decide_eq_true_1 _ Hs).
Qed.
Lemma fs2_no_clashes segs : forallb apart segs = true -> Forall (no_clash fs2) segs.
Proof. rewrite forallb_forall. intros H. apply Forall_forall. intros seg Hseg. by apply fs2_no_clash, H, list_elem_of_In. Qed.

(** [/d/..//a]: into the mounted file system, back out of it, to the file. *)
Lemma vfs_lookup_correct_witness : exists s', vfs_lookup 0 (Some (Path 15 13)) [47; 100; 47; 46; 46; 47; 47; 97] fs2 = Done ((0, Some (Path 4 6)), s').
Proof.
  assert (Hr : reach fs2 (Path 15 13)).
  { eapply (reach_mount _ (Path 4 10)); [eapply (reach_child _ (Path 4 2)); [by apply reach_root|vm_compute; reflexivity|in_list]|vm_compute; reflexivity|reflexivity]. }
  assert (H := vfs_lookup_correct fs2 depth2 0 (Some (Path 15 13)) [47; 100; 47; 46; 46; 47; 47; 97] fs2_tree Hr).
  assert (Hl : lookup_start fs2 (Some (Path 15 13)) [47; 100; 47; 46; 46; 47; 47; 97] = Some (Path 4 2, [100; 47; 46; 46; 47; 47; 97])) by (vm_compute; reflexivity).
  assert (Hc : Forall (no_clash fs2) (split_path [100; 47; 46; 46; 47; 47; 97])) by (apply fs2_no_clashes; reflexivity).
  assert (Hw : walk fs2 (Path 4 2) (split_path [100; 47; 46; 46; 47; 47; 97]) = Some (Path 4 6)) by (vm_compute; reflexivity).
  rewrite Hl in H. destruct (proj1 (runs_Done _ _ _) (H ltac:(intros p l [= <- <-]; exact Hc))) as (r & s' & E & p & l & [= <- <-] & Hq). rewrite Hw in Hq.
  exists s'. rewrite E. by destruct Hq as [-> _].
Defined.

