(* ===== verification/SysFile.v ===== *)
(** * SysFile: the system calls on files (kernel/src/sched/syscall.c)

    The state is the scheduler's, whose descriptor tables and working directories the calls use, beside the file systems'.  [c] is the
    CPU that runs the call.  A path argument is an [option], [None] the null pointer; what a call copies to the user is part of its
    result. *)

From S2P Require Import Prelude Words Ufd Sched Schedule SysProc Fs Ramfs Vfs.

Record kern := Kern { k_sched : sched; k_vfs : vfs }.

Definition in_sched {A} (m : M sched A) : M kern A := lift k_sched (fun t s => Kern t (k_vfs s)) m.
Definition in_vfs {A} (m : M vfs A) : M kern A := lift k_vfs (fun t s => Kern (k_sched s) t) m.

Definition O_CREAT : Z := 0x200.
Definition O_EXCL : Z := 0x800.
Definition SEEK_MAX : Z := 2.
Definition ENOTDIR : Z := 20.
Definition EFAULT : Z := 14.
Definition EINTR : Z := 4.
(** [sizeof(struct dirent)], which is packed. *)
Definition DIRENT_SIZE : Z := 4 + 4 + 2 + 1 + 256.
Definition FD_SETSIZE : Z := 64.

Section Calls.
Context (c : Z) (junk : Z) (junk_b : Z -> Z).

(** ** Descriptors *)

Definition my_table : M kern Z := in_sched (me ← gets (fun s => current s c); obtain_ufds me).
Definition ufdt_get (ufd : Z) : M kern Z := u ← my_table; in_sched (in_fd (Ufd.ufdt_get u ufd)).
Definition ufdt_put (ufd : Z) : M kern unit := u ← my_table; in_sched (in_fd (Ufd.ufdt_put u ufd)).
Definition ufdt_add (file : Z) : M kern Z := u ← my_table; in_sched (in_fd (Ufd.ufdt_add u file)).
Definition ufdt_close (ufd : Z) : M kern Z := u ← my_table; in_sched (in_fd (Ufd.ufdt_close u ufd)).

(** What [gfdt_obtain] does in the global table for a file that [vfs_open_file] makes. *)
Definition gfdt_register (f : Z) : M kern unit :=
  in_sched (in_fd (with_gfdt (modify (fun s => set_entries (u32 (gfdt_entries_in_use s + 1)) s));; set_file_refs f 0)).

(** [gfdt_free] gives a file's memory back. *)
Definition drop_closed : M kern unit :=
  s ← get; in_vfs (modify (fun v => Fs.set_files (foldr delete (Fs.files v) (closed (fd (k_sched s)))) v)).

(** A call that works on the file of a descriptor: [default] when there is none. *)
Definition with_file (ufd : Z) {A} (dflt : A) (f : Z -> M kern A) : M kern A :=
  file ← ufdt_get ufd;
  if negb (file =? 0) then r ← f file; ufdt_put ufd;; mret r else mret dflt.

(** ** The working directory *)

Definition to_path (p : Z * Z) : path := Path p.1 p.2.
Definition of_path (p : path) : Z * Z := (p_mount p, p_dentry p).

Definition my_fs : M kern Z := in_sched (me ← gets (fun s => current s c); obtain_fs_context me).
Definition get_pwd : M kern path := f ← my_fs; x ← in_sched (in_fd (fsc_at f)); mret (to_path (fs_pwd x)).

Definition do_chdir (p : path) : M kern Z :=
  i ← in_vfs (inode_of (p_dentry p));
  n ← in_vfs (inode_at i);
  if negb (S_ISDIR (mode n)) then mret (- ENOTDIR)
  else
    f ← my_fs;
    in_sched (in_fd (x ← fsc_at f; put_fsc f (FsContext (fs_lock x) (fs_refs x) (Ufd.fs_root x) (of_path p))));;
    mret 0.

Definition lookup_from_pwd (pathname : list Z) : M kern (Z * option path) := pwd ← get_pwd; in_vfs (vfs_lookup junk (Some pwd) pathname).

Definition sys_chdir (pathname : option (list Z)) : M kern Z :=
  match pathname with
  | None => mret (- EFAULT)
  | Some name =>
      '(ret, p) ← lookup_from_pwd name;
      match p with Some p => do_chdir p | None => mret ret end
  end.

Definition file_path (file : Z) : M kern path := x ← in_vfs (file_at file); mret (f_path x).

(** The descriptor is not given back. *)
Definition sys_fchdir (ufd : Z) : M kern Z :=
  file ← ufdt_get ufd;
  if file =? 0 then mret (- EBADF) else p ← file_path file; do_chdir p.

(** [cur.dentry->parent || cur.mount->parent]. *)
Definition has_parent (p : path) : M vfs bool :=
  e ← dentry_at (p_dentry p);
  if negb (d_parent e =? 0) then mret true else m ← mount_at (p_mount p); mret (negb (m_parent m =? 0)).

(** From the root of a mounted file system to what it is mounted on. *)
Definition leave_mount (p : path) : M vfs path :=
  m ← mount_at (p_mount p);
  f ← fs_at (m_fs m);
  BUG_ON (negb (p_dentry p =? Fs.fs_root f));;
  mret (Path (m_parent m) (m_mountpoint m)).

Definition len_round (v : path * Z) : M vfs (path * Z + Z) :=
  let '(p, len) := v in
  up ← has_parent p;
  if (up : bool) then
    e ← dentry_at (p_dentry p);
    q ← (if d_parent e =? 0 then leave_mount p else mret p);
    e ← dentry_at (p_dentry q);
    mret (inl (Path (p_mount q) (d_parent e), u32 (len + u32 (Z.of_nat (length (d_name e)) + 1))))
  else mret (inr len).

(** A byte of the user's buffer of [size] bytes. *)
Definition put_buff (size : Z) (buff : Z -> Z) (i v : Z) : M vfs (Z -> Z) := read (fun _ => if (0 <=? i) && (i <? size) then Some (<[i := v]> buff) else None).
Fixpoint put_name (size : Z) (buff : Z -> Z) (i : Z) (l : list Z) : M vfs (Z -> Z) :=
  match l with [] => mret buff | v :: l' => b ← put_buff size buff i v; put_name size b (i + 1) l' end.

Definition fill_round (size : Z) (at_root : bool) (v : path * Z * (Z -> Z)) : M vfs (path * Z * (Z -> Z) + Z * (Z -> Z)) :=
  let '(p, pos, buff) := v in
  if p_dentry p =? 0 then mret (inr (pos, buff))
  else
    up ← has_parent p;
    if (up : bool) || at_root then
      e ← dentry_at (p_dentry p);
      m ← mount_at (p_mount p);
      q ← (if (d_parent e =? 0) && negb (m_parent m =? 0) then leave_mount p else mret p);
      e ← dentry_at (p_dentry q);
      let pos := u32 (pos - u32 (Z.of_nat (length (d_name e)) + 1)) in
      b ← put_buff size buff pos DIRECTORY_SEPARATOR;
      b ← put_name size b (pos + 1) (d_name e);
      mret (inl (Path (p_mount q) (d_parent e), pos, b))
    else mret (inr (pos, buff)).

(** [fuel] bounds the length of the path; the result is the buffer, unless it is too small. *)
Definition do_getcwd (fuel : nat) (pwd : path) (size : Z) (buff : Z -> Z) : M vfs (Z + (Z -> Z)) :=
  path_len ← iterM fuel len_round (pwd, 0);
  let at_root := path_len =? 0 in
  let path_len := if at_root then 1 else path_len in
  if size <? u32 (path_len + 1) then mret (inl (- EINVAL))
  else
    b ← put_buff size buff path_len 0;
    '(pos, b) ← iterM fuel (fill_round size at_root) (pwd, path_len, b);
    BUG_ON (negb (pos =? 0));;
    mret (inr b).
Definition sys_getcwd (fuel : nat) (size : Z) (buff : Z -> Z) : M kern (Z + (Z -> Z)) := pwd ← get_pwd; in_vfs (do_getcwd fuel pwd size buff).

(** ** Opening and closing *)

Definition sys_open (pathname : option (list Z)) (flags m : Z) : M kern Z :=
  let m := Z.land m 0x1FF in
  match pathname with
  | None => mret (- EFAULT)
  | Some name =>
      pwd ← get_pwd;
      '(ret, p) ← (if has flags O_CREAT then
        '(ret, p) ← in_vfs (vfs_create junk pwd name (Z.lor S_IFREG m));
        mret (if (ret =? - EEXIST) && negb (has flags O_EXCL) then 0 else ret, p)
      else in_vfs (vfs_lookup junk (Some pwd) name));
      if ret =? 0 then
        p ← read (fun _ => p);
        file ← in_vfs (vfs_open_file junk p);
        gfdt_register file;;
        BUG_ON (file =? 0);;
        ufdt_add file
      else mret ret
  end.

Definition sys_close (ufd : Z) : M kern Z :=
  file ← ufdt_get ufd;
  if negb (file =? 0) then _ ← ufdt_close ufd; drop_closed;; ufdt_put ufd;; mret 0 else mret (- EINVAL).

(** ** Reading and writing *)

Definition sys_read (ufd len : Z) : M kern io := with_file ufd (IoError (- EBADF)) (fun f => in_vfs (vfs_read f len)).
Definition sys_write (ufd : Z) (buff : list Z) (len : Z) : M kern io := with_file ufd (IoError (- EBADF)) (fun f => in_vfs (vfs_write junk_b f buff len)).
Definition sys_seek (ufd off whence : Z) : M kern Z :=
  if u32 whence >? SEEK_MAX then mret (- EINVAL) else with_file ufd (- EBADF) (fun f => in_vfs (vfs_seek f off whence)).

(** Each entry the user gets: inode number, type and name; a count that is not that of the entries read makes the loop go through memory
    that was never written. *)
Definition sys_getdents (ufd buffsize : Z) : M kern (Z * list dir_entry_dat) :=
  let count := buffsize / DIRENT_SIZE in
  with_file ufd (- EINVAL, []) (fun f =>
    '(num, l) ← in_vfs (vfs_iterate f count);
    _ ← read (fun _ => if num =? Z.of_nat (length l) then Some tt else None);
    mret (u32 (num * DIRENT_SIZE), l)).

(** ** Attributes *)

Definition sys_stat (pathname : list Z) : M kern (Z * option stat) :=
  '(ret, p) ← lookup_from_pwd pathname;
  match p with Some p => st ← in_vfs (vfs_getattr (p_dentry p)); mret (ret, Some st) | None => mret (ret, None) end.
Definition sys_lstat (pathname : list Z) : M kern (Z * option stat) := sys_stat pathname.
Definition sys_fstat (ufd : Z) : M kern (Z * option stat) :=
  with_file ufd (- EBADF, None) (fun f => p ← file_path f; st ← in_vfs (vfs_getattr (p_dentry p)); mret (0, Some st)).

Definition do_chown (owner group : Z) : M kern Z := mret (if negb (owner =? 0) || negb (group =? 0) then - ENOSYS else 0).
Definition sys_chown (pathname : option (list Z)) (owner group : Z) : M kern Z :=
  match pathname with
  | None => mret (- EFAULT)
  | Some name =>
      '(ret, p) ← lookup_from_pwd name;
      match p with Some _ => do_chown owner group | None => mret ret end
  end.
Definition sys_fchown (ufd owner group : Z) : M kern Z :=
  file ← ufdt_get ufd; if file =? 0 then mret (- EBADF) else do_chown owner group.

(** ** select *)

(** An [fd_set] as a word of 64 bits; there is nothing behind it. *)
Definition FD_ISSET (i set : Z) : M kern bool := read (fun _ => if (0 <=? i) && (i <? FD_SETSIZE) then Some (Z.testbit set i) else None).

(** [poll] is the file's own operation; [None] is a failure.  The bits of the answer are read where they should be set. *)
Fixpoint select_fds (poll : Z -> option (bool * bool * bool)) (n : nat) (i rfds wfds efds num : Z) : M kern Z :=
  match n with
  | O => mret num
  | S n' =>
      file ← ufdt_get i;
      if file =? 0 then select_fds poll n' (i + 1) rfds wfds efds num
      else
        match poll file with
        | None => panic
        | Some (rd, wr, er) =>
            r ← FD_ISSET i rfds;
            num ← (if r && rd then _ ← FD_ISSET i 0; mret (u32 (num + 1)) else mret num);
            w ← FD_ISSET i wfds;
            num ← (if w && wr then _ ← FD_ISSET i 0; mret (u32 (num + 1)) else mret num);
            e ← FD_ISSET i efds;
            num ← (if e && er then _ ← FD_ISSET i 0; mret (u32 (num + 1)) else mret num);
            select_fds poll n' (i + 1) rfds wfds efds num
        end
  end.

(** [FD_ZERO] of the pointer's own address leaves the set as it was. *)
Definition read_in_fdset (junk_set : Z) (user : option Z) : Z := default junk_set user.

(** One turn of the loop: [None] when it goes round again.  [expired] is whether the timeout has passed, [signal] whether one is pending; the sets
    given back are those cleared at the start. *)
Definition select_round (poll : Z -> option (bool * bool * bool)) (nfds rfds wfds efds : Z) (expired signal : bool) : M kern (option (Z * option (Z * Z * Z))) :=
  num ← select_fds poll (Z.to_nat nfds) 0 rfds wfds efds 0;
  if num =? 0 then
    if expired then mret (Some (-1, Some (0, 0, 0)))
    else if signal then mret (Some (- EINTR, None))
    else mret None
  else mret (Some (-1, Some (0, 0, 0))).
End Calls.

(** ** The name of a directory *)

Definition good_name (n : list Z) : Prop := n <> [] /\ DIRECTORY_SEPARATOR ∉ n /\ n <> [DOT] /\ n <> [DOT; DOT].

(** [names] lead from the root to [p], each the only child of that name and, but for the last, nothing mounted over it that the path
    does not go through. *)
Inductive named (s : vfs) : path -> list (list Z) -> Prop :=
| named_root p e m : mnt_root s (root_mount s) = Some p -> dentries s !! p_dentry p = Some e -> d_parent e = 0 -> d_name e = [] ->
    mounts s !! p_mount p = Some m -> m_parent m = 0 -> named s p []
| named_child p e q names : named s q names -> settle s q = q -> (exists eq nq, Vfs.node_at s q = Some (eq, nq) /\ is_dir nq = true) ->
    dentries s !! p_dentry p = Some e -> p_mount p = p_mount q -> d_parent e = p_dentry q -> child s q (d_name e) = Some (p_dentry p) ->
    good_name (d_name e) -> no_clash s (d_name e) -> named s p (names ++ [d_name e])
| named_mount p e q eq m names : named s q names -> dentries s !! p_dentry q = Some eq -> d_parent eq <> 0 ->
    mount_on q s = Some (p_mount p) -> mnt_root s (p_mount p) = Some p -> mounts s !! p_mount p = Some m -> m_parent m = p_mount q -> m_mountpoint m = p_dentry q ->
    dentries s !! p_dentry p = Some e -> d_parent e = 0 -> named s p names.

Definition slashed (names : list (list Z)) : list Z := names ≫= (fun n => DIRECTORY_SEPARATOR :: n).
Definition path_text (names : list (list Z)) : list Z := match names with [] => [DIRECTORY_SEPARATOR] | _ => slashed names end.

Lemma slashed_snoc names n : slashed (names ++ [n]) = slashed names ++ DIRECTORY_SEPARATOR :: n.
Proof. unfold slashed. rewrite bind_app. cbn. by rewrite app_nil_r. Qed.

Section Named.
Context (s : vfs) (depth : Z -> nat) (Ht : tree s depth).

Lemma child_in q n x e : child s q n = Some x -> dentries s !! p_dentry q = Some e -> x ∈ d_children e.
Proof. unfold child. intros H He. rewrite He in H. cbn in H. apply head_Some_elem_of, list_elem_of_filter in H. tauto. Qed.

Lemma named_reach p names : named s p names -> reach s p.
Proof.
  induction 1 as [p e m Hr|p e q names _ IH _ (eq & nq & Hn & _) He Hm Hp Hc _ _|p e q eq m names _ IH Heq _ Hmo Hmr _ _ _ _ _].
  - by apply reach_root.
  - apply node_at_inv in Hn as [Hn _]. destruct p as [pm pd]. cbn in *. subst pm. eapply reach_child; [exact IH|exact Hn|]. by eapply child_in.
  - by eapply reach_mount.
Qed.

Lemma named_mounted p names : named s p names -> p_mount p <> 0 /\ p_dentry p <> 0.
Proof.
  destruct (tr_null _ _ Ht) as (Hm0 & _ & Hd0). intros H. split.
  - induction H as [p e m Hr|p e q names _ IH _ _ _ Hm|p e q eq m names _ IH _ _ _ _ Hm]; [congruence|congruence|congruence].
  - inversion H; subst; congruence.
Qed.

Lemma named_nil p : named s p [] -> exists e m, dentries s !! p_dentry p = Some e /\ d_parent e = 0 /\ d_name e = [] /\ mounts s !! p_mount p = Some m /\ m_parent m = 0.
Proof.
  remember [] as names. induction 1 as [p e m Hr He Hp Hn Hm Hmp|p e q names H IH|p e q eq m names H IH Heq Hne _ _ Hm Hmp Hmm He Hd]; [by eauto 10|by destruct names|].
  destruct (IH Heqnames) as (e' & m' & He' & Hd' & _). congruence.
Qed.

(** One turn of the loops at [p] adds [n] and goes on at [q]. *)
Definition climbs (p : path) (n : list Z) (q : path) : Prop :=
  exists e p1 e1, dentries s !! p_dentry p = Some e /\ dentries s !! p_dentry p1 = Some e1 /\ d_parent e1 <> 0 /\ d_name e1 = n /\ q = Path (p_mount p1) (d_parent e1) /\
    ((p1 = p /\ d_parent e <> 0 /\ is_Some (mounts s !! p_mount p)) \/
     d_parent e = 0 /\ exists m f, mounts s !! p_mount p = Some m /\ m_parent m <> 0 /\ p1 = Path (m_parent m) (m_mountpoint m) /\ fss s !! m_fs m = Some f /\ p_dentry p = Fs.fs_root f).

Lemma named_mount_at p names : named s p names -> is_Some (mounts s !! p_mount p).
Proof. induction 1 as [|p e q names _ IH _ _ _ Hm|]; [by eexists|by rewrite Hm|by eexists]. Qed.

Lemma named_climbs p names n : named s p (names ++ [n]) -> exists q, named s q names /\ climbs p n q.
Proof.
  remember (names ++ [n]) as l eqn:E. intros H. revert names n E. induction H as [p e m|p e q names H IH Hset Hd He Hm Hp Hc Hg Hnc|p e q eq m names H IH Heq Hne Hmo Hmr Hm Hmp Hmm He Hd]; intros names' n E.
  - by destruct names'.
  - apply app_inj_tail in E as [-> <-]. exists q. split; [done|]. destruct (named_mounted _ _ H) as [_ Hq0]. exists e, p, e. split_and!; try done; [by rewrite Hp|by rewrite Hm, Hp; destruct q|].
    left. split; [done|]. split; [by rewrite Hp|]. rewrite Hm. by eapply named_mount_at.
  - destruct (IH _ _ E) as (q' & Hq' & (e0 & p1 & e1 & He0 & He1 & Hne1 & Hn1 & -> & Hcase)). rewrite Heq in He0. injection He0 as <-. destruct Hcase as [(-> & _ & _)|[? _]]; [|done].
    exists (Path (p_mount q) (d_parent e1)). split; [done|]. exists e, q, e1. split_and!; try done. right. split; [done|].
    unfold mnt_root in Hmr. rewrite Hm in Hmr. cbn in Hmr. destruct (fss s !! m_fs m) as [f|] eqn:Hf; [|done]. cbn in Hmr. injection Hmr as Hmr. exists m, f. destruct (named_mounted _ _ H) as [Hq0 _]. split_and!; try done; [by rewrite Hmp|by rewrite Hmp, Hmm; destruct q|by rewrite <- Hmr].
Qed.

Lemma has_parent_spec p e (Q : bool -> vfs -> Prop) : dentries s !! p_dentry p = Some e -> is_Some (mounts s !! p_mount p) ->
  Q (negb (d_parent e =? 0) || match mounts s !! p_mount p with Some m => negb (m_parent m =? 0) | None => false end) s -> runs (has_parent p) s Q.
Proof.
  intros He [m Hm] HQ. unfold has_parent. mstep. unfold dentry_at. eapply runs_read; [exact He|]. rewrite Hm in HQ. destruct (negb (d_parent e =? 0)); cbn [orb] in HQ; [by mstep|]. mstep. unfold mount_at. eapply runs_read; [exact Hm|]. by mstep.
Qed.

Lemma leave_mount_spec p m f (Q : path -> vfs -> Prop) : mounts s !! p_mount p = Some m -> fss s !! m_fs m = Some f -> p_dentry p = Fs.fs_root f -> Q (Path (m_parent m) (m_mountpoint m)) s -> runs (leave_mount p) s Q.
Proof.
  intros Hm Hf Hr HQ. unfold leave_mount, mount_at, fs_at. mstep. eapply runs_read; [exact Hm|]. mstep. eapply runs_read; [exact Hf|]. mstep. mstep; [by rewrite Hr, Z.eqb_refl|]. by mstep.
Qed.

Lemma len_round_spec p n q len (Q : path * Z + Z -> vfs -> Prop) : climbs p n q -> Q (inl (q, u32 (len + u32 (Z.of_nat (length n) + 1)))) s -> runs (len_round (p, len)) s Q.
Proof.
  intros (e & p1 & e1 & He & He1 & Hne & Hn & -> & Hcase) HQ. unfold len_round. mstep. eapply has_parent_spec; [exact He|destruct Hcase as [(_ & _ & ?)|(_ & m & f & -> & _)]; [done|by eexists]|].
  assert (Hup : negb (d_parent e =? 0) || match mounts s !! p_mount p with Some m => negb (m_parent m =? 0) | None => false end = true).
  { destruct Hcase as [(_ & H & _)|(-> & m & f & -> & H & _)]; [by rewrite (proj2 (Z.eqb_neq _ _) H)|by rewrite (proj2 (Z.eqb_neq _ _) H)]. }
  rewrite Hup. mstep. unfold dentry_at. eapply runs_read; [exact He|]. mstep. destruct Hcase as [(-> & H & _)|(Hz & m & f & Hm & H & -> & Hf & Hr)].
  - rewrite (proj2 (Z.eqb_neq _ _) H). mstep. mstep. eapply runs_read; [exact He1|]. mstep. by rewrite Hn.
  - rewrite Hz. cbn [Z.eqb]. eapply leave_mount_spec; [exact Hm|exact Hf|exact Hr|]. mstep. eapply runs_read; [exact He1|]. mstep. by rewrite Hn.
Qed.

Lemma len_round_root p len (Q : path * Z + Z -> vfs -> Prop) : named s p [] -> Q (inr len) s -> runs (len_round (p, len)) s Q.
Proof.
  intros Hp HQ. destruct (named_nil _ Hp) as (e & m & He & Hd & _ & Hm & Hmp). unfold len_round. mstep. eapply has_parent_spec; [exact He|by eexists|]. rewrite Hm, Hd, Hmp. cbn. exact HQ.
Qed.

Lemma len_loop names : forall p len fuel, named s p names -> 0 <= len -> len + Z.of_nat (length (slashed names)) < 2 ^ 32 -> (length names < fuel)%nat ->
  runs (iterM fuel len_round (p, len)) s (fun r s' => r = len + Z.of_nat (length (slashed names)) /\ s' = s).
Proof.
  induction names as [|n names IH] using rev_ind; intros p len fuel Hp H0 Hlen Hf; (destruct fuel as [|fuel]; [lia|]); apply runs_iterM_S.
  - apply len_round_root; [done|]. cbn. split; [lia|done].
  - destruct (named_climbs _ _ _ Hp) as (q & Hq & Hc). eapply len_round_spec; [exact Hc|]. rewrite slashed_snoc, length_app in *. cbn [length] in *. rewrite (uwrap_small 32 (Z.of_nat (length n) + 1)), uwrap_small by lia.
    eapply runs_mono; [apply (IH q _ fuel); [done|lia|lia|lia]|]. intros r s' [-> ->]. split; [lia|done].
Qed.

(** The buffer holds [l] from [i] on. *)
Definition reads (b : Z -> Z) (i : Z) (l : list Z) : Prop := forall k x, l !! k = Some x -> b (i + Z.of_nat k) = x.

Lemma reads_cons b i x l : b i = x -> reads b (i + 1) l -> reads b i (x :: l).
Proof. intros H1 H2 [|k] y Hy; cbn in Hy; [injection Hy as <-; by rewrite Z.add_0_r|]. rewrite <- (H2 k y Hy). f_equal. lia. Qed.
Lemma reads_app b i l1 l2 : reads b i l1 -> reads b (i + Z.of_nat (length l1)) l2 -> reads b i (l1 ++ l2).
Proof.
  intros H1 H2 k y Hy. apply lookup_app_Some in Hy as [Hy|[Hk Hy]]; [by apply H1|]. rewrite <- (H2 _ _ Hy). f_equal. lia.
Qed.
Lemma reads_ext b b' i l : (forall j, i <= j < i + Z.of_nat (length l) -> b' j = b j) -> reads b i l -> reads b' i l.
Proof. intros H Hl k y Hy. rewrite H; [by apply Hl|]. apply lookup_lt_Some in Hy. lia. Qed.

Lemma put_name_spec size l : forall b i (Q : (Z -> Z) -> vfs -> Prop), 0 <= i -> i + Z.of_nat (length l) <= size ->
  (forall b', reads b' i l -> (forall j, j < i \/ i + Z.of_nat (length l) <= j -> b' j = b j) -> Q b' s) -> runs (put_name size b i l) s Q.
Proof.
  induction l as [|v l IH]; intros b i Q H0 Hs HQ; cbn [put_name length] in *.
  - mstep. apply HQ; [by intros k x Hx|done].
  - mstep. unfold put_buff. eapply runs_read; [by rewrite (proj2 (Z.leb_le 0 i)), (proj2 (Z.ltb_lt i size)) by lia|]. apply IH; [lia|lia|]. intros b' Hr He. apply HQ.
    + apply reads_cons; [|done]. rewrite He by lia. apply fn_insert_eq.
    + intros j Hj. rewrite He by lia. apply fn_insert_ne. lia.
Qed.

Lemma fill_round_spec size p n q pos b (Q : _ -> vfs -> Prop) : climbs p n q -> p_dentry p <> 0 -> pos < 2 ^ 32 -> Z.of_nat (length n) + 1 <= pos <= size ->
  (forall b', reads b' (pos - Z.of_nat (length n) - 1) (DIRECTORY_SEPARATOR :: n) -> (forall j, j < pos - Z.of_nat (length n) - 1 \/ pos <= j -> b' j = b j) -> Q (inl (q, pos - Z.of_nat (length n) - 1, b')) s) ->
  runs (fill_round size false (p, pos, b)) s Q.
Proof.
  intros (e & p1 & e1 & He & He1 & Hne & Hn & -> & Hcase) Hp0 H32 Hpos HQ. unfold fill_round. rewrite (proj2 (Z.eqb_neq _ _) Hp0). assert (Hm : is_Some (mounts s !! p_mount p)) by (destruct Hcase as [(_ & _ & ?)|(_ & m & f & -> & _)]; [done|by eexists]).
  mstep. eapply has_parent_spec; [exact He|exact Hm|].
  assert (Hup : negb (d_parent e =? 0) || match mounts s !! p_mount p with Some m => negb (m_parent m =? 0) | None => false end = true).
  { destruct Hcase as [(_ & H & _)|(-> & m & f & -> & H & _)]; [by rewrite (proj2 (Z.eqb_neq _ _) H)|by rewrite (proj2 (Z.eqb_neq _ _) H)]. }
  rewrite Hup. cbn [orb]. mstep. unfold dentry_at, mount_at. eapply runs_read; [exact He|]. mstep. destruct Hm as [m Hm]. eapply runs_read; [exact Hm|]. mstep.
  assert (Hcont : runs (e ← read (fun s => dentries s !! p_dentry p1);
    b0 ← put_buff size b (u32 (pos - u32 (Z.of_nat (length (d_name e)) + 1))) DIRECTORY_SEPARATOR;
    b1 ← put_name size b0 (u32 (pos - u32 (Z.of_nat (length (d_name e)) + 1)) + 1) (d_name e);
    mret (inl (Path (p_mount p1) (d_parent e), u32 (pos - u32 (Z.of_nat (length (d_name e)) + 1)), b1))) s Q).
  { mstep. eapply runs_read; [exact He1|]. rewrite Hn. rewrite (uwrap_small 32 (Z.of_nat (length n) + 1)), uwrap_small by lia. mstep. unfold put_buff. eapply runs_read; [by rewrite (proj2 (Z.leb_le 0 _)), (proj2 (Z.ltb_lt _ size)) by lia|].
    mstep. apply put_name_spec; [lia|lia|]. intros b' Hr Hext. mstep. replace (pos - (Z.of_nat (length n) + 1)) with (pos - Z.of_nat (length n) - 1) in * by lia. apply HQ.
    - apply reads_cons; [|by replace (pos - Z.of_nat (length n) - 1 + 1) with (pos - Z.of_nat (length n) - 1 + 1) by lia]. rewrite Hext by lia. apply fn_insert_eq.
    - intros j Hj. rewrite Hext by lia. apply fn_insert_ne. lia. }
  destruct Hcase as [(-> & H & _)|(Hz & m' & f & Hm' & H & -> & Hf & Hr)].
  - rewrite (proj2 (Z.eqb_neq _ _) H). cbn [andb]. mstep. exact Hcont.
  - rewrite Hz. rewrite Hm in Hm'. injection Hm' as <-. rewrite (proj2 (Z.eqb_neq _ _) H). cbn [Z.eqb andb negb]. eapply leave_mount_spec; [exact Hm|exact Hf|exact Hr|]. exact Hcont.
Qed.

Lemma fill_root p size pos b (Q : _ -> vfs -> Prop) : named s p [] -> Q (inr (pos, b)) s -> runs (fill_round size false (p, pos, b)) s Q.
Proof.
  intros Hp HQ. destruct (named_nil _ Hp) as (e & m & He & Hd & _ & Hm & Hmp). unfold fill_round. destruct (named_mounted _ _ Hp) as [_ Hp0]. rewrite (proj2 (Z.eqb_neq _ _) Hp0). mstep. eapply has_parent_spec; [exact He|by eexists|].
  rewrite Hm, Hd, Hmp. cbn. exact HQ.
Qed.

Lemma fill_loop names size : forall p b fuel, named s p names -> Z.of_nat (length (slashed names)) < 2 ^ 32 -> Z.of_nat (length (slashed names)) <= size -> (length names < fuel)%nat ->
  runs (iterM fuel (fill_round size false) (p, Z.of_nat (length (slashed names)), b)) s (fun r s' => r.1 = 0 /\ reads r.2 0 (slashed names) /\ (forall j, Z.of_nat (length (slashed names)) <= j -> r.2 j = b j) /\ s' = s).
Proof.
  induction names as [|n names IH] using rev_ind; intros p b fuel Hp H32 Hsz Hf; (destruct fuel as [|fuel]; [lia|]); apply runs_iterM_S.
  - apply fill_root; [done|]. cbn. split; [done|]. split; [by intros k x Hx|done].
  - destruct (named_climbs _ _ _ Hp) as (q & Hq & Hc). destruct (named_mounted _ _ Hp) as [_ Hp0]. rewrite slashed_snoc, length_app in *. cbn [length] in *. eapply fill_round_spec; [exact Hc|done|lia|lia|].
    replace (Z.of_nat (length (slashed names) + S (length n)) - Z.of_nat (length n) - 1) with (Z.of_nat (length (slashed names))) by lia. intros b1 Hr He.
    eapply runs_mono; [apply (IH q b1 fuel); [done|lia|lia|lia]|]. intros [pos b2] s' (Hpos & Hr2 & He2 & ->). cbn [fst snd] in *. split; [done|]. split; [|split; [|done]].
    + apply reads_app; [done|]. rewrite Z.add_0_l. eapply reads_ext; [|exact Hr]. intros j Hj. apply He2. lia.
    + intros j Hj. rewrite He2 by lia. apply He. lia.
Qed.

Lemma slashed_nonempty names : names <> [] -> (0 < length (slashed names))%nat.
Proof. destruct names; [done|]. cbn. lia. Qed.

(** What [getcwd] leaves in the buffer. *)
Definition cwd_in (names : list (list Z)) (buff b : Z -> Z) : Prop :=
  reads b 0 (path_text names ++ [0]) /\ forall j, Z.of_nat (length (path_text names)) < j -> b j = buff j.

Lemma do_getcwd_spec fuel pwd names size buff : named s pwd names -> Z.of_nat (length (path_text names)) + 1 < 2 ^ 32 -> (length names + 1 < fuel)%nat -> 0 <= size ->
  runs (do_getcwd fuel pwd size buff) s (fun r s' => s' = s /\
    match r with inl e => size <= Z.of_nat (length (path_text names)) /\ e = - EINVAL | inr b => Z.of_nat (length (path_text names)) < size /\ cwd_in names buff b end).
Proof.
  intros Hp H32 Hf Hs0. unfold do_getcwd. mstep. eapply runs_mono; [apply (len_loop names pwd 0 fuel Hp); [lia|destruct names; [cbn; lia|cbn [path_text] in H32; lia]|lia]|]. intros r s' [-> ->]. rewrite Z.add_0_l.
  destruct (decide (names = [])) as [->|Hne].
  - change (slashed []) with (@nil Z) in *. change (path_text []) with [DIRECTORY_SEPARATOR] in *. cbn [length] in *. change (Z.of_nat 0) with 0 in *. change (Z.of_nat 1) with 1 in *. cbn [Z.eqb]. change (u32 (1 + 1)) with 2. destruct (Z.ltb_spec size 2) as [Hlt|Hge]; [mstep; repeat split; lia|]. mstep. unfold put_buff at 1. eapply runs_read; [by rewrite (proj2 (Z.ltb_lt 1 size)) by lia|]. mstep.
    destruct (named_nil _ Hp) as (e & m & He & Hd & Hn & Hm & Hmp). destruct (named_mounted _ _ Hp) as [_ Hp0]. destruct fuel as [|[|fuel]]; [cbn in Hf; lia..|]. apply runs_iterM_S. unfold fill_round at 1. rewrite (proj2 (Z.eqb_neq _ _) Hp0).
    mstep. eapply has_parent_spec; [exact He|by eexists|]. rewrite Hm, Hd, Hmp. cbn [Z.eqb negb orb]. mstep. unfold dentry_at, mount_at. eapply runs_read; [exact He|]. mstep. eapply runs_read; [exact Hm|]. mstep. rewrite Hd, Hmp. cbn [Z.eqb negb andb]. mstep. mstep. eapply runs_read; [exact He|].
    rewrite Hn, Hd. cbn [length]. change (Z.of_nat 0) with 0. change (u32 (1 - u32 (0 + 1))) with 0. mstep. unfold put_buff. eapply runs_read; [by rewrite (proj2 (Z.ltb_lt 0 size)) by lia|]. cbn [put_name]. mstep. mstep. mstep. apply runs_iterM_S. unfold fill_round. cbn [p_dentry Z.eqb]. mstep. mstep. mstep; [done|]. mstep. split; [done|]. split; [lia|].
    split; [|intros j Hj; cbn in Hj; rewrite !fn_insert_ne by lia; done]. intros [|[|k]] x Hx; cbn in Hx; [injection Hx as <-; by rewrite fn_insert_eq|injection Hx as <-; cbn; rewrite fn_insert_ne by lia; by rewrite fn_insert_eq|done].
  - pose proof (slashed_nonempty _ Hne) as Hpos. assert (Htext : path_text names = slashed names) by (by destruct names). rewrite Htext in *. rewrite (proj2 (Z.eqb_neq (Z.of_nat (length (slashed names))) 0)) by lia.
    rewrite uwrap_small by lia. destruct (Z.ltb_spec size (Z.of_nat (length (slashed names)) + 1)) as [Hlt|Hge]; [mstep; repeat split; lia|]. mstep. unfold put_buff. eapply runs_read; [by rewrite (proj2 (Z.leb_le 0 _)), (proj2 (Z.ltb_lt _ size)) by lia|].
    mstep. eapply runs_mono; [apply (fill_loop names size pwd _ fuel Hp); [lia|lia|lia]|]. intros [pos b] s' (Hpos0 & Hr & He & ->). cbn [fst snd] in *. mstep. mstep; [by rewrite Hpos0|]. mstep. split; [done|]. split; [lia|]. unfold cwd_in. rewrite Htext. split.
    + apply reads_app; [done|]. rewrite Z.add_0_l. intros [|k] x Hx; [|done]. injection Hx as <-. rewrite Z.add_0_r, He by lia. by rewrite fn_insert_eq.
    + intros j Hj. rewrite He by lia. apply fn_insert_ne. lia.
Qed.

(** ** Looking the name up again *)

Lemma named_walk r p names : mnt_root s (root_mount s) = Some r -> named s p names -> forall rest, walk s r (names ++ rest) = walk s p rest.
Proof.
  intros Hr. induction 1 as [p e m Hr'|p e q names Hq IH Hset (eq & nq & Hn & Hdir) He Hm Hp Hc (Hne & _ & Hd1 & Hd2) _|p e q eq m names Hq IH Heq Hne Hmo Hmr Hm Hmp Hmm He Hd]; intros rest.
  - by rewrite Hr in Hr'; injection Hr' as ->.
  - rewrite <- app_assoc. cbn [app]. rewrite IH. cbn [walk]. rewrite Hset, Hn. cbn [mbind option_bind]. rewrite Hdir. cbn [negb]. rewrite (bool_decide_eq_false_2 _ Hne), (bool_decide_eq_false_2 _ Hd1), (bool_decide_eq_false_2 _ Hd2). cbn [orb]. rewrite Hc. cbn. rewrite <- Hm. by destruct p.
  - rewrite IH. apply walk_settle. assert (Hrq := named_reach _ _ Hq). assert (Hsq : settle s q = p) by (unfold settle; rewrite Hmo; cbn; by rewrite Hmr).
    rewrite Hsq. symmetry. rewrite <- Hsq. by apply (settle_twice s depth Ht).
Qed.

Lemma named_good p names : named s p names -> Forall (fun n => good_name n /\ no_clash s n) names.
Proof. induction 1 as [|p e q names _ IH _ _ _ _ _ _ Hg Hc|]; [constructor| |done]. apply Forall_app. by rewrite Forall_singleton. Qed.

Lemma split_name n l : n <> [] -> DIRECTORY_SEPARATOR ∉ n -> split_path (n ++ DIRECTORY_SEPARATOR :: l) = n :: split_path l.
Proof.
  induction n as [|x n IH]; intros Hne Hs; [done|]. apply not_elem_of_cons in Hs as [Hx Hs]. cbn [app split_path]. rewrite (proj2 (Z.eqb_neq x _)) by done. destruct n as [|y n].
  - cbn. done.
  - rewrite IH by done. done.
Qed.

Lemma split_slashed names n : Forall (fun n => good_name n /\ no_clash s n) (n :: names) -> split_path (n ++ slashed names) = n :: names.
Proof.
  revert n. induction names as [|m names IH]; intros n Hg; apply Forall_cons in Hg as [[(Hne & Hsep & _) _] Hg].
  - cbn. rewrite app_nil_r. by apply split_path_plain.
  - change (slashed (m :: names)) with (DIRECTORY_SEPARATOR :: m ++ slashed names). rewrite split_name by done. by rewrite IH.
Qed.

Lemma lookup_named junk start p names : named s p names -> (match start with Some q => reach s q | None => True end) ->
  vfs_lookup junk start (path_text names) s = Done ((0, Some (settle s p)), s).
Proof.
  intros Hp Hst. destruct (tr_root _ _ Ht) as [r Hr]. pose proof (named_good _ _ Hp) as Hg. pose proof (named_walk r p names Hr Hp []) as Hw. rewrite app_nil_r in Hw. cbn [walk] in Hw.
  assert (Hls : exists l, lookup_start s start (path_text names) = Some (r, l) /\ split_path l = names).
  { destruct names as [|n names]; cbn [path_text]; [|change (slashed (n :: names)) with (DIRECTORY_SEPARATOR :: n ++ slashed names)]; eexists; (split; [unfold lookup_start; rewrite Z.eqb_refl, Hr; by destruct start|]); [done|]. by apply split_slashed. }
  destruct Hls as (l & Hl & Hsp). apply runs_eq. apply (vfs_lookup_spec s depth Ht); [done|intros p' l' Hl'; rewrite Hl in Hl'; injection Hl' as <- <-; rewrite Hsp; eapply Forall_impl; [exact Hg|by intros ? []]|].
  intros p' l' s' Hl' _. rewrite Hl in Hl'. injection Hl' as <- <-. rewrite Hsp, Hw. by intros [-> _].
Qed.
End Named.

(** ** The calls *)

Lemma in_sched_same {A} (m : M sched A) k a (Q : A -> kern -> Prop) : m (k_sched k) = Done (a, k_sched k) -> Q a k -> runs (in_sched m) k Q.
Proof. intros E HQ. unfold in_sched, lift, runs. rewrite E. by destruct k. Qed.
Lemma in_vfs_runs {A} (m : M vfs A) k (Q : A -> kern -> Prop) : runs m (k_vfs k) (fun a t => Q a (Kern (k_sched k) t)) -> runs (in_vfs m) k Q.
Proof. exact (runs_lift k_vfs (fun t s => Kern (k_sched s) t) m k Q). Qed.

(** Thread [t] runs on CPU [c], in the directory [pwd]. *)
Record runs_in (c : Z) (k : kern) (t : thread) (x : fs_context) : Prop := RunsIn {
  ri_thread : threads (k_sched k) !! current (k_sched k) c = Some t;
  ri_unlocked : t_lock t = false;
  ri_fs : fscs (fd (k_sched k)) !! t_fs t = Some x;
}.

Lemma my_fs_spec c k t x (Q : Z -> kern -> Prop) : runs_in c k t x -> Q (t_fs t) k -> runs (my_fs c) k Q.
Proof.
  intros [Ht Hl Hf] HQ. unfold my_fs. eapply in_sched_same; [|exact HQ]. apply runs_eq. mstep. mstep. unfold obtain_fs_context. eapply with_thread_spec; [exact Ht|done|]. mstep. unfold thread_at. eapply runs_read; [cbn; apply lookup_insert_eq|]. mstep. cbn. eexists. split; [apply lookup_insert_eq|].
  rewrite insert_insert_eq. replace (set_t_lock false (set_t_lock true t)) with t by (destruct t; cbn in *; by subst). rewrite insert_id by done. split; [done|]. by destruct (k_sched k).
Qed.

Lemma get_pwd_spec c k t x (Q : path -> kern -> Prop) : runs_in c k t x -> Q (to_path (fs_pwd x)) k -> runs (get_pwd c) k Q.
Proof.
  intros H HQ. unfold get_pwd. mstep. eapply my_fs_spec; [exact H|]. mstep. eapply in_sched_same; [|mstep; exact HQ]. apply runs_eq. unfold in_fd, fsc_at. apply runs_lift. eapply runs_read; [exact (ri_fs _ _ _ _ H)|]. split; [done|]. by destruct (k_sched k).
Qed.

Lemma do_chdir_spec c k t x p e n (Q : Z -> kern -> Prop) : runs_in c k t x -> Vfs.node_at (k_vfs k) p = Some (e, n) ->
  (if S_ISDIR (mode n) then Q 0 (Kern (set_fd (set_fscs (<[t_fs t := FsContext (fs_lock x) (fs_refs x) (Ufd.fs_root x) (of_path p)]> (fscs (fd (k_sched k)))) (fd (k_sched k))) (k_sched k)) (k_vfs k)) else Q (- ENOTDIR) k) ->
  runs (do_chdir c p) k Q.
Proof.
  intros H Hn HQ. apply node_at_inv in Hn as [He Hi]. unfold do_chdir. mstep. apply in_vfs_runs. unfold inode_of, dentry_at. mstep. eapply runs_read; [exact He|]. mstep. mstep. apply in_vfs_runs. unfold inode_at. cbn [k_vfs]. eapply runs_read; [exact Hi|]. cbn [k_sched].
  replace (Kern (k_sched k) (k_vfs k)) with k by (by destruct k). destruct (S_ISDIR (mode n)); cbn [negb]; [|by mstep]. mstep. eapply my_fs_spec; [exact H|]. mstep. unfold in_sched. apply runs_lift. unfold in_fd. apply runs_lift. unfold fsc_at, put_fsc. mstep. eapply runs_read; [exact (ri_fs _ _ _ _ H)|]. mstep. mstep. exact HQ.
Qed.


(** ** A file through its descriptor *)

(** CPU [c] runs a thread whose descriptor table is [tab], its reference counts exact. *)
Definition fd_ready (c : Z) (k : kern) (t : thread) (tab : Z -> ufd) (ext : Z -> Z) : Prop :=
  threads (k_sched k) !! current (k_sched k) c = Some t /\ t_lock t = false /\ balanced (fd (k_sched k)) (t_ufd t) tab ext.

Lemma my_table_spec c k t (Q : Z -> kern -> Prop) : threads (k_sched k) !! current (k_sched k) c = Some t -> t_lock t = false -> Q (t_ufd t) k -> runs (my_table c) k Q.
Proof.
  intros Ht Hl HQ. unfold my_table. eapply in_sched_same; [|exact HQ]. apply runs_eq. mstep. mstep. unfold obtain_ufds. eapply with_thread_spec; [exact Ht|done|]. mstep. unfold thread_at. eapply runs_read; [cbn; apply lookup_insert_eq|]. mstep. cbn. eexists. split; [apply lookup_insert_eq|].
  rewrite insert_insert_eq. replace (set_t_lock false (set_t_lock true t)) with t by (destruct t; cbn in *; by subst). rewrite insert_id by done. split; [done|]. by destruct (k_sched k).
Qed.

(** The descriptor tables change, nothing else. *)
Definition with_fd (d : fdtab) (k : kern) : kern := Kern (set_fd d (k_sched k)) (k_vfs k).

Lemma in_fd_spec {A} c k t tab ext (m : M fdtab A) (Q : A -> kern -> Prop) : fd_ready c k t tab ext -> runs m (fd (k_sched k)) (fun a d => Q a (with_fd d k)) -> runs (in_sched (in_fd m)) k Q.
Proof. intros _ H. unfold in_sched. apply runs_lift. unfold in_fd. by apply runs_lift. Qed.

Lemma fd_ready_with c k t tab tab' ext ext' d : fd_ready c k t tab ext -> balanced d (t_ufd t) tab' ext' -> fd_ready c (with_fd d k) t tab' ext'.
Proof. intros (H1 & H2 & _) Hb. by split. Qed.

Lemma ufdt_get_k c k t tab ext i (Q : Z -> kern -> Prop) : fd_ready c k t tab ext -> 0 <= i ->
  (forall d, fd_ready c (with_fd d k) t tab ext -> Ufd.files d = Ufd.files (fd (k_sched k)) -> Q (if present tab i then u_gfd (tab i) else 0) (with_fd d k)) -> runs (ufdt_get c i) k Q.
Proof.
  intros Hr Hi HQ. pose proof Hr as (Ht & Hl & Hb). unfold ufdt_get. mstep. eapply my_table_spec; [done|done|]. eapply in_fd_spec; [exact Hr|]. eapply runs_mono; [by eapply ufdt_get_spec|]. intros f d (Hb' & Hf & _ & ->). apply HQ; [by eapply fd_ready_with|done].
Qed.

Lemma ufdt_put_k c k t tab ext i (Q : unit -> kern -> Prop) : fd_ready c k t tab ext -> (forall d, fd_ready c (with_fd d k) t tab ext -> Q tt (with_fd d k)) -> runs (ufdt_put c i) k Q.
Proof.
  intros Hr HQ. pose proof Hr as (Ht & Hl & Hb). unfold ufdt_put. mstep. eapply my_table_spec; [done|done|]. eapply in_fd_spec; [exact Hr|]. unfold Ufd.ufdt_put. eapply runs_ufds; [exact Hb|]. intros n d Hc Hf Hlk _. mstep. apply HQ. eapply fd_ready_with; [exact Hr|].
  eapply balanced_unlock; [exact Hc|done|]. rewrite Hf. apply Hb.
Qed.

(** A call that runs [m] of the file systems on the descriptor's file. *)
Lemma with_file_k {A} c k t tab ext i (dflt : A) (m : Z -> M vfs A) (Q : A -> kern -> Prop) : fd_ready c k t tab ext -> 0 <= i -> present tab i = true -> u_gfd (tab i) <> 0 ->
  runs (m (u_gfd (tab i))) (k_vfs k) (fun a v => forall d, fd_ready c (Kern (set_fd d (k_sched k)) v) t tab ext -> Q a (Kern (set_fd d (k_sched k)) v)) ->
  runs (with_file c i dflt (fun f => in_vfs (m f))) k Q.
Proof.
  intros Hr Hi Hp Hnz Hm. unfold with_file. mstep. eapply ufdt_get_k; [exact Hr|done|]. intros d Hr1 _. rewrite Hp. rewrite (proj2 (Z.eqb_neq _ _) Hnz). cbn [negb]. mstep. apply in_vfs_runs. eapply runs_mono; [exact Hm|]. intros a v HQ. cbn. mstep.
  eapply ufdt_put_k; [destruct Hr1 as (H1 & H2 & H3); split; [exact H1|split; [exact H2|exact H3]]|]. intros d' Hr2. mstep. exact (HQ d' Hr2).
Qed.

Section Through.
Context (c junk : Z) (junk_b : Z -> Z).

(** An operation on a file as the process makes it. *)
Definition sys_do (ufd : Z) (o : file_op) : M kern io :=
  match o with
  | OpRead n => sys_read c ufd n
  | OpWrite d => sys_write c junk_b ufd d (Z.of_nat (length d))
  | OpSeek o => r ← sys_seek c ufd o SEEK_SET; mret (IoCount r)
  end.
Fixpoint sys_run (ufd : Z) (ops : list file_op) : M kern (list io) :=
  match ops with
  | [] => mret []
  | o :: ops' => r ← sys_do ufd o; rs ← sys_run ufd ops'; mret (r :: rs)
  end.
Definition open_then (name : list Z) (ops : list file_op) : M kern (Z * list io) :=
  i ← sys_open c junk (Some name) 0 0; rs ← sys_run i ops; mret (i, rs).

Lemma sys_do_spec k t tab ext i o b pos r st : fd_ready c k t tab ext -> 0 <= i -> present tab i = true -> u_gfd (tab i) <> 0 -> open_at (k_vfs k) (u_gfd (tab i)) b pos ->
  file_op_ok o (b, pos) -> file_step o (b, pos) = Some (r, st) ->
  runs (sys_do i o) k (fun r' k' => r' = r /\ fd_ready c k' t tab ext /\ open_at (k_vfs k') (u_gfd (tab i)) st.1 st.2).
Proof.
  intros Hr Hi Hp Hnz Ho Hok Hst. pose proof (file_do_refines junk_b _ _ o b pos Ho Hok) as Hd. rewrite Hst in Hd. destruct st as [b1 pos1]. destruct o as [n|l|off]; cbn [sys_do].
  - unfold sys_read. eapply with_file_k; [exact Hr|done|done|done|]. eapply runs_mono; [exact Hd|]. intros a v [-> H] d Hrd. done.
  - unfold sys_write. eapply with_file_k; [exact Hr|done|done|done|]. eapply runs_mono; [exact Hd|]. intros a v [-> H] d Hrd. done.
  - unfold sys_seek. change (u32 SEEK_SET >? SEEK_MAX) with false. mstep. eapply with_file_k; [exact Hr|done|done|done|]. cbn [file_do] in Hd. apply runs_bind_inv in Hd. eapply runs_mono; [exact Hd|]. intros a v H d Hrd. mstep. apply runs_Done in H as (x & v' & E & -> & H). injection E as <- <-. done.
Qed.

Lemma sys_run_spec ops : forall k t tab ext i b pos rs st, fd_ready c k t tab ext -> 0 <= i -> present tab i = true -> u_gfd (tab i) <> 0 -> open_at (k_vfs k) (u_gfd (tab i)) b pos ->
  file_ops_ok ops (b, pos) -> bytes_run ops (b, pos) = Some (rs, st) ->
  runs (sys_run i ops) k (fun rs' k' => rs' = rs /\ fd_ready c k' t tab ext /\ open_at (k_vfs k') (u_gfd (tab i)) st.1 st.2).
Proof.
  induction ops as [|o ops IH]; intros k t tab ext i b pos rs st Hr Hi Hp Hnz Ho Hok Hrun; cbn [sys_run bytes_run] in *.
  - injection Hrun as <- <-. by mstep.
  - destruct Hok as [Hok1 Hok2]. destruct (file_step o (b, pos)) as [[r [b1 pos1]]|] eqn:E; [|done]. cbn in Hrun. destruct (bytes_run ops (b1, pos1)) as [[rs' st']|] eqn:E2; [|done]. cbn in Hrun. injection Hrun as <- <-.
    mstep. eapply runs_mono; [by eapply sys_do_spec|]. intros r' k1 (-> & Hr1 & Ho1). mstep. eapply runs_mono; [by eapply IH|]. intros rs1 k2 (-> & Hr2 & Ho2). by mstep.
Qed.

Lemma gfdt_register_k k t tab ext f (Q : unit -> kern -> Prop) : fd_ready c k t tab ext -> Ufd.files (fd (k_sched k)) !! f = None -> f <> 0 -> ext f = 0 ->
  (forall d, fd_ready c (with_fd d k) t tab ext -> Ufd.files d !! f = Some 0 -> Q tt (with_fd d k)) -> runs (gfdt_register f) k Q.
Proof.
  intros Hr Hf Hf0 He HQ. pose proof Hr as (Ht & Hl & Hb). unfold gfdt_register. eapply in_fd_spec; [exact Hr|]. destruct Hb as (Hlk & (n & Hn) & Hrefs). mstep. unfold with_gfdt. apply runs_locked; [by rewrite Hlk|]. mstep. unfold set_file_refs. mstep. apply HQ; [|apply lookup_insert_eq].
  eapply fd_ready_with; [exact Hr|]. split; [done|]. split; [by exists n|]. by apply refs_register.
Qed.

End Through.

(** ** Examples *)

(** Thread 12 of a running system, in the root of the file system mounted on [/d]; its table is empty. *)
Definition tab2 : Z -> ufd := fun _ => UfdEntry 0 0.
Definition cwd2 : fs_context := FsContext false 1 (4, 2) (15, 13).
Definition thread2 : thread := Thread false 300 100 3 true THREAD_FLAG_KERNEL THREAD_AWAKE 0 false.
Definition sched2 : sched :=
  set_threads {[12 := thread2]} (set_fd (FdTab ∅ false 0 [] {[300 := UfdContext false 1 tab2]} {[100 := cwd2]} 400) sched0).
Definition kern2 : kern := Kern sched2 fs2.

Lemma kern2_runs : runs_in 0 kern2 thread2 cwd2.
Proof. by split. Qed.

Lemma kern2_ready : fd_ready 0 kern2 thread2 tab2 (fun _ => 0).
Proof.
  split; [reflexivity|]. split; [reflexivity|]. split; [reflexivity|]. split; [by exists 1|]. split; [|intros f; cbn; lia|intros i _ Hn; by destruct Hn|reflexivity]. intros f r Hf. vm_compute in Hf. discriminate Hf.
Qed.

Definition d_ent : dentry := Eval vm_compute in default (Dentry 0 [] 0 0 0 []) (dentries fs2 !! 10).
Definition root_ent : dentry := Eval vm_compute in default (Dentry 0 [] 0 0 0 []) (dentries fs2 !! 2).
Definition mounted_ent : dentry := Eval vm_compute in default (Dentry 0 [] 0 0 0 []) (dentries fs2 !! 13).

Lemma fs2_named : named fs2 (Path 15 13) [[100]].
Proof.
  assert (H0 : named fs2 (Path 4 2) []).
  { eapply (named_root _ _ root_ent (default (Mount 0 0 0) (mounts fs2 !! 4))); vm_compute; reflexivity. }
  assert (H1 : named fs2 (Path 4 10) [[100]]).
  { refine (named_child fs2 (Path 4 10) d_ent (Path 4 2) [] H0 _ _ _ _ _ _ _ _); [vm_compute; reflexivity| |vm_compute; reflexivity|vm_compute; reflexivity|vm_compute; reflexivity|vm_compute; reflexivity| |].
    - eexists _, _. split; vm_compute; reflexivity.
    - apply (bool_decide_unpack (good_name [100])). vm_compute. exact I.
    - apply fs2_no_clash. vm_compute. reflexivity. }
  refine (named_mount fs2 (Path 15 13) mounted_ent (Path 4 10) d_ent (default (Mount 0 0 0) (mounts fs2 !! 15)) [[100]] H1 _ _ _ _ _ _ _ _ _); first [discriminate|vm_compute; reflexivity].
Qed.


Definition file_ent : dentry := Eval vm_compute in default (Dentry 0 [] 0 0 0 []) (dentries fs2 !! 6).
Definition file_node : inode := Eval vm_compute in default (Inode 0 ramfs_inode_ops 0 0 0 0 0 0 0 0 0 0 0 0 0 0 0) (inodes fs2 !! d_inode file_ent).

Lemma fs2_file : file_holds fs2 (Path 4 6) file_ent file_node [] [].
Proof.
  split; try (vm_compute; reflexivity).
  - split; [reflexivity|]. intros i c Hi. discriminate Hi.
  - constructor.
  - constructor.
  - split; [apply not_elem_of_nil|]. vm_compute. split; reflexivity.
Qed.

