(* ===== verification/Exec.v ===== *)
(** * Exec: running programs (kernel/src/fs/exec.c, binfmt.c, binfmt/binfmt_elf.c, binfmt/binfmt_shebang.c, kernel/inc/fs/elf.h, and execve of
    kernel/src/sched/syscall.c)

    The state is that of the file calls, the memory manager's, the current thread's page directory and the list of binary
    formats.  User memory is written through the page tables; an address that is not mapped is a [Fault].  A string table is the list of
    its strings, [None] the null pointer, and the buffers of [kmalloc] are values.  Entering user space does not return: it is one of the
    outcomes of a load. *)

From S2P Require Import Mmu Mm Buddy PageAlloc UserMem.
From S2P Require Import Prelude Words CString Ufd Sched SysProc Fs Ramfs Vfs SysFile.

(** ** Data *)

Definition ENOEXEC : Z := 8.
Definition EIO : Z := 5.
Definition ELOOP : Z := 92.
Definition MAX_LOAD_DEPTH : Z := 5.
Definition MAX_LINE_LEN : Z := 256.
Definition SHEBANG_MAGIC : list Z := [35; 33].
Definition SHEBANG_MAGIC_LEN : Z := 2.
Definition USTACK_ADDR_START : Z := 0xB0000000.
Definition UARGS_ADDR_START : Z := 0xB8000000.
Definition USTACK_NUM_PAGES : Z := 8.
Definition UARGS_NUM_PAGES : Z := 1.
Definition USTACK_SIZE : Z := USTACK_NUM_PAGES * PAGE_SIZE.
Definition ELFMAG : list Z := [0x7f; 69; 76; 70].
Definition ELFCLASS32 : Z := 1.
Definition ELFDATA2LSB : Z := 1.
Definition EV_CURRENT : Z := 1.
Definition EM_386 : Z := 3.
Definition PT_NULL : Z := 0.
Definition PT_LOAD : Z := 1.
Definition PT_TLS : Z := 7.

Record Elf32_Ehdr := Ehdr {
  e_ident : list Z; e_type : Z; e_machine : Z; e_version : Z; e_entry : Z; e_phoff : Z; e_shoff : Z; e_flags : Z; e_ehsize : Z;
  e_phentsize : Z; e_phnum : Z; e_shentsize : Z; e_shnum : Z; e_shstrndx : Z;
}.

Record Elf32_Phdr := Phdr {
  p_type : Z; p_offset : Z; p_vaddr : Z; p_paddr : Z; p_filesz : Z; p_memsz : Z; p_flags : Z; p_align : Z;
}.

(** Field of [n] bytes at offset [o] of a packed structure. *)
Definition field (l : list Z) (o n : nat) : Z := of_le_bytes (take n (drop o l)).

Definition EHDR_SIZE : Z := 52.
Definition PHDR_SIZE : Z := 32.

Definition ehdr_of (l : list Z) : Elf32_Ehdr :=
  Ehdr (take 16 l) (field l 16 2) (field l 18 2) (field l 20 4) (field l 24 4) (field l 28 4) (field l 32 4) (field l 36 4) (field l 40 2)
    (field l 42 2) (field l 44 2) (field l 46 2) (field l 48 2) (field l 50 2).

Definition phdr_of (l : list Z) : Elf32_Phdr :=
  Phdr (field l 0 4) (field l 4 4) (field l 8 4) (field l 12 4) (field l 16 4) (field l 20 4) (field l 24 4) (field l 28 4).

Fixpoint phdrs_of (n : nat) (l : list Z) : list Elf32_Phdr :=
  match n with O => [] | S n' => phdr_of (take 32 l) :: phdrs_of n' (drop 32 l) end.

Inductive binfmt := binfmt_elf | binfmt_shebang.

Record binary := Binary { b_file : Z; b_argv : option (list (list Z)); b_envp : option (list (list Z)); iterations : Z }.

Record exec := Exec {
  x_kern : kern;
  x_mm : mm;
  x_dir : Z;  (* the current thread's [arch.dir] *)
  x_binfmts : list binfmt;
  x_argv : option (list (list Z)); x_envp : option (list (list Z));  (* [argv] and [envp] of the current task's node *)
}.

Definition set_x_dir (d : Z) (s : exec) : exec := Exec (x_kern s) (x_mm s) d (x_binfmts s) (x_argv s) (x_envp s).
Definition in_kern {A} (m : M kern A) : M exec A := lift x_kern (fun t s => Exec t (x_mm s) (x_dir s) (x_binfmts s) (x_argv s) (x_envp s)) m.
Definition in_mm {A} (m : M mm A) : M exec A := lift x_mm (fun t s => Exec (x_kern s) t (x_dir s) (x_binfmts s) (x_argv s) (x_envp s)) m.

(** What a load that returns, or does not, comes to: an error, or user space with its registers. *)
Inductive load_result := Failed (err : Z) | Entered (ip sp argc uargv uenvp : Z).

(** ** User memory *)

(** A store to user address [v] goes to the frame the processor finds in the page tables. *)
Definition put_user (dir v b : Z) : M mm unit :=
  f ← user_get_page dir v;
  match f with
  | None => fault
  | Some f =>
      a ← page_to_virt f;
      s ← get;
      if in_window s (a + vaddr_to_pageoff v) 1 then modify (set_vmem (<[a + vaddr_to_pageoff v := u8 b]> (vmem s))) else fault
  end.
Fixpoint put_user_bytes (dir v : Z) (l : list Z) : M mm unit :=
  match l with [] => mret tt | b :: l' => put_user dir v b;; put_user_bytes dir (u32 (v + 1)) l' end.

(** ** pl.c: the page directory *)

Section Load.
Context (c : Z) (junk : Z).
(** [kptab]'s own address; what a device's read stores, and its result; the bytes of the line buffer before it is read. *)
Context (kptab_addr : Z) (device_io : Z -> Z -> Z * list Z) (line_junk : mem).

Definition build_page_dir (dir : Z) : M mm unit :=
  forM 0 (Z.to_nat (NUM_ENTRIES - KERNEL_NUM_TABLES)) (fun i => UserMem.direntry_set dir i 0 0);;
  let baseoff := VIRTUAL_BASE / PAGE_SIZE / NUM_ENTRIES in
  forM 0 (Z.to_nat KERNEL_NUM_TABLES) (fun i =>
    phys ← kvirt_to_phys (kptab_addr + PAGE_SIZE * i);
    UserMem.direntry_set dir (i + baseoff) phys (Z.lor MMUFLAG_PRESENT MMUFLAG_WRITABLE)).

Definition arch_replace_mem (newdir : Z) : M exec Z :=
  olddir ← gets x_dir;
  page ← in_mm (if negb (newdir =? 0) then virt_to_page newdir
    else
      page ← alloc_page ALLOC_ZERO;
      d ← page_to_virt page;
      build_page_dir d;;
      mret page);
  d ← in_mm (page_to_virt page);
  modify (set_x_dir d);;
  mret olddir.

(** ** binfmt_elf.c *)

Definition elf_header_valid (h : Elf32_Ehdr) : bool :=
  bool_decide (take 4 (e_ident h) = ELFMAG) && bool_decide (e_ident h !! 4%nat = Some ELFCLASS32) && bool_decide (e_ident h !! 5%nat = Some ELFDATA2LSB)
  && bool_decide (e_ident h !! 6%nat = Some EV_CURRENT) && (e_version h =? EV_CURRENT) && (e_machine h =? EM_386).

Definition designate_space (start num_pages : Z) : M exec Z :=
  dir ← gets x_dir;
  in_mm (
    a ← dir_lookup_addr dir start;
    BUG_ON (negb (a =? 0));;
    page ← alloc_pages num_pages ALLOC_ZERO;
    user_map_pages dir start (page_to_phys page) num_pages);;
  mret start.
Definition designate_stack : M exec Z := designate_space USTACK_ADDR_START USTACK_NUM_PAGES.
Definition designate_args : M exec Z := designate_space UARGS_ADDR_START UARGS_NUM_PAGES.

Definition calculate_strtablen (tab : option (list (list Z))) : Z := match tab with None => 0 | Some l => u32 (Z.of_nat (length l)) end.

(** A string of [len] bytes and its NUL; the length. *)
Definition strcpylen (dir dest : Z) (src : list Z) : M mm Z := put_user_bytes dir dest (src ++ [0]);; mret (u32 (Z.of_nat (length src))).

Fixpoint fill_strtab (dir start end_ : Z) (tab : list (list Z)) : M mm (Z * Z) :=
  match tab with
  | [] => mret (start, end_)
  | s :: tab' =>
      put_user_bytes dir start (le_bytes 4 end_);;
      n ← strcpylen dir end_ s;
      fill_strtab dir (u32 (start + 4)) (u32 (end_ + (n + 1))) tab'
  end.

(** The end of what was written, and the number of strings.  [start] points to pointers, so the offset is scaled a second time. *)
Definition build_strtab (dir start : Z) (tab : option (list (list Z))) : M mm (Z * Z) :=
  let tablen := calculate_strtablen tab in
  let end_ := u32 (start + 4 * u32 (tablen * 4 + 1)) in
  l ← read (fun _ => tab);
  '(start, end_) ← fill_strtab dir start end_ l;
  put_user_bytes dir start (le_bytes 4 0);;
  mret (end_, tablen).

(** What [vfs_read] answers, and the bytes it stores. *)
Definition do_read (f n : Z) : M exec (Z * list Z) :=
  r ← in_kern (in_vfs (vfs_read f n));
  mret (match r with
  | IoError e => (e, [])
  | IoBytes l => (Z.of_nat (length l), l)
  | IoCount n => (n, [])
  | IoDevice d => device_io d n
  end).
Definition do_seek (f off : Z) : M exec Z := in_kern (in_vfs (vfs_seek f off SEEK_SET)).

(** A page at [a], unless there is one. *)
Definition have_page (a : Z) : M exec unit :=
  dir ← gets x_dir;
  x ← in_mm (user_get_page dir a);
  match x with None => _ ← in_mm (user_alloc_page dir dir a 0); mret tt | Some _ => mret tt end.

(** One chunk: [w] bytes of the segment are there. *)
Definition load_round (f : Z) (p : Elf32_Phdr) (w : Z) : M exec (Z + option Z) :=
  if negb (w <? p_memsz p) then mret (inr None)
  else
    let a := u32 (p_vaddr p + w) in
    have_page a;;
    dir ← gets x_dir;
    let page_bytes_left := PAGE_SIZE - a mod PAGE_SIZE in
    if w <? p_filesz p then
      let chunk_len := MIN page_bytes_left (u32 (p_filesz p - w)) in
      '(n, l) ← do_read f chunk_len;
      in_mm (put_user_bytes dir a l);;
      if negb (n =? chunk_len) then mret (inr (Some (- EIO))) else mret (inl (u32 (w + chunk_len)))
    else
      let chunk_len := MIN page_bytes_left (u32 (p_memsz p - w)) in
      in_mm (put_user_bytes dir a (replicate (Z.to_nat chunk_len) 0));;
      mret (inl (u32 (w + chunk_len))).

(** The fuel is the number of pages a segment can touch, twice for the page where the file's bytes end, and the last test. *)
Definition load_segment (f : Z) (p : Elf32_Phdr) : M exec (option Z) :=
  if p_type p =? PT_NULL then mret None
  else if p_type p =? PT_LOAD then
    r ← do_seek f (p_offset p);
    if negb (u32 r =? p_offset p) then mret (Some (- EIO))
    else iterM (Z.to_nat (p_memsz p / PAGE_SIZE + 5)) (load_round f p) 0
  else panic.

Fixpoint load_segments (f : Z) (l : list Elf32_Phdr) : M exec (option Z) :=
  match l with
  | [] => mret None
  | p :: l' => r ← load_segment f p; match r with Some e => mret (Some e) | None => load_segments f l' end
  end.

(** Everything of the file: the entry point. *)
Definition load_image (f : Z) : M exec (Z + Z) :=
  r ← do_seek f 0;
  if negb (r =? 0) then mret (inl (- EIO))
  else
    '(n, l) ← do_read f EHDR_SIZE;
    if negb (n =? EHDR_SIZE) then mret (inl (- ENOEXEC))
    else
      let h := ehdr_of l in
      if negb (elf_header_valid h) then mret (inl (- ENOEXEC))
      else if e_phoff h =? 0 then mret (inl (- ENOEXEC))
      else
        r ← do_seek f (e_phoff h);
        if negb (u32 r =? e_phoff h) then mret (inl (- EIO))
        else
          let size := u32 (PHDR_SIZE * e_phnum h) in
          '(n, l) ← do_read f size;
          if negb (n =? size) then mret (inl (- EIO))
          else
            e ← load_segments f (phdrs_of (Z.to_nat (e_phnum h)) l);
            match e with Some e => mret (inl e) | None => mret (inr (e_entry h)) end.

Definition load_elf (b : binary) : M exec load_result :=
  olddir ← arch_replace_mem 0;
  r ← load_image (b_file b);
  match r with
  | inl e => _ ← arch_replace_mem olddir; mret (Failed e)
  | inr entry =>
      modify (fun s => Exec (x_kern s) (x_mm s) (x_dir s) (x_binfmts s) (b_argv b) (b_envp b));;
      stack ← designate_stack;
      uargv ← designate_args;
      dir ← gets x_dir;
      '(uenvp, argc) ← in_mm (build_strtab dir uargv (b_argv b));
      _ ← in_mm (build_strtab dir uenvp (b_envp b));
      mret (Entered entry (u32 (stack + USTACK_SIZE)) argc uargv uenvp)
  end.

(** ** binfmt_shebang.c *)

Definition is_whitespace (ch : Z) : bool := (ch =? 32) || (ch =? 9).

Definition past_whitespace_round (str : Z) : M mem (Z + Z) := ch ← rd str; mret (if negb (ch =? 0) && is_whitespace ch then inl (str + 1) else inr str).
Definition to_whitespace_round (str : Z) : M mem (Z + Z) := ch ← rd str; mret (if negb (ch =? 0) && negb (is_whitespace ch) then inl (str + 1) else inr str).
Definition LINE_FUEL : nat := Z.to_nat (MAX_LINE_LEN + 1).
Definition advance_past_whitespace (str : Z) : M mem Z := iterM LINE_FUEL past_whitespace_round str.
Definition advance_to_whitespace (str : Z) : M mem Z := iterM LINE_FUEL to_whitespace_round str.

(** The string at [p]. *)
Fixpoint string_at (m : mem) (fuel : nat) (p : Z) : list Z :=
  match fuel with O => [] | S n => if m p =? 0 then [] else m p :: string_at m n (p + 1) end.

(** The line in [buff], of which [ret] bytes were read: interpreter and optional argument; [None] is [ENOEXEC].  The addresses are those in the
    buffer. *)
Definition parse_line (ret : Z) : M mem (option (list Z * list Z)) :=
  wr ret 0;;
  interp ← advance_past_whitespace SHEBANG_MAGIC_LEN;
  line_end ← strchr LINE_FUEL interp 10;
  match line_end with
  | None => mret None
  | Some line_end =>
      wr line_end 0;;
      interp_end ← advance_to_whitespace interp;
      ch ← rd interp_end;
      optional_arg ← (if negb (ch =? 0) then advance_past_whitespace interp_end else mret interp_end);
      wr interp_end 0;;
      m ← get;
      mret (Some (string_at m LINE_FUEL interp, string_at m LINE_FUEL optional_arg))
  end.

(** Bytes stored in the buffer from its start. *)
Definition filled (l : list Z) : mem := fun a => match l !! Z.to_nat a with Some v => if 0 <=? a then v else line_junk a | None => line_junk a end.

Definition shebang_argv (interp arg : list Z) (old : option (list (list Z))) : list (list Z) :=
  interp :: (match arg with [] => [] | _ => [arg] end) ++ default [] old.

(** The binary, or the error, before the format is looked for again. *)
Definition prepare_shebang (b : binary) : M exec (Z + binary) :=
  r ← do_seek (b_file b) 0;
  if r <? 0 then mret (inl r)
  else if 0 <? r then mret (inl (- EIO))
  else
    '(ret, l) ← do_read (b_file b) MAX_LINE_LEN;
    if ret <? 0 then mret (inl ret)
    else if (ret <=? SHEBANG_MAGIC_LEN) || negb (bool_decide (take 2 l = SHEBANG_MAGIC)) then mret (inl (- ENOEXEC))
    else
      match parse_line ret (filled l) with
      | Done (None, _) => mret (inl (- ENOEXEC))
      | Done (Some (interp, arg), _) =>
          '(ret, p) ← in_kern (lookup_from_pwd c junk interp);
          match p with
          | None => mret (inl ret)
          | Some p =>
              f ← in_kern (in_vfs (vfs_open_file junk p));
              in_kern (gfdt_register f);;
              if f =? 0 then mret (inl (- EIO))
              else mret (inr (Binary f (Some (shebang_argv interp arg (b_argv b))) (b_envp b) (iterations b)))
          end
      | Panic => panic
      | Fault => fault
      | NoFuel => spin
      end.

(** ** binfmt.c *)

Definition binfmt_register (b : binfmt) : M exec unit := modify (fun s => Exec (x_kern s) (x_mm s) (x_dir s) (b :: x_binfmts s) (x_argv s) (x_envp s)).

Definition alloc_binary (file : Z) (argv envp : option (list (list Z))) : binary := Binary file argv envp 0.

(** The formats in turn, until one does not say [ENOEXEC]; the binary is changed by those that were tried. *)
Fixpoint try_formats (load : binfmt -> binary -> M exec (load_result * binary)) (l : list binfmt) (b : binary) : M exec (load_result * binary) :=
  match l with
  | [] => mret (Failed (- ENOEXEC), Binary (b_file b) (b_argv b) (b_envp b) (u32 (iterations b - 1)))
  | fmt :: l' =>
      '(r, b) ← load fmt b;
      match r with
      | Entered _ _ _ _ _ => mret (r, b)
      | Failed e => if e =? - ENOEXEC then try_formats load l' b else BUG_ON (e =? 0);; mret (r, b)
      end
  end.

(** A script's interpreter is loaded the same way. *)
Definition load_shebang (nested : binary -> M exec (load_result * binary)) (b : binary) : M exec (load_result * binary) :=
  r ← prepare_shebang b;
  match r with inl e => mret (Failed e, b) | inr b => nested b end.

Definition load_with (nested : binary -> M exec (load_result * binary)) (fmt : binfmt) (b : binary) : M exec (load_result * binary) :=
  match fmt with binfmt_elf => r ← load_elf b; mret (r, b) | binfmt_shebang => load_shebang nested b end.

(** [out] stands for a load nested deeper than the fuel. *)
Fixpoint binfmt_load (out : M exec (load_result * binary)) (fuel : nat) (b : binary) : M exec (load_result * binary) :=
  match fuel with
  | O => out
  | S n =>
      if iterations b >? MAX_LOAD_DEPTH then mret (Failed (- ELOOP), b)
      else
        l ← gets x_binfmts;
        try_formats (load_with (binfmt_load out n)) l (Binary (b_file b) (b_argv b) (b_envp b) (u32 (iterations b + 1)))
  end.

(** Nested at most [MAX_LOAD_DEPTH] + 2 deep. *)
Definition LOAD_FUEL : nat := 7.

(** ** exec.c, execve *)

Definition execute_path (p : path) (raw_argv raw_envp : option (list (list Z))) : M exec (load_result) :=
  f ← in_kern (in_vfs (vfs_open_file junk p));
  in_kern (gfdt_register f);;
  if f =? 0 then mret (Failed 0)
  else
    '(r, _) ← binfmt_load spin LOAD_FUEL (alloc_binary f raw_argv raw_envp);
    (* the result is converted to [bool] *)
    mret (match r with Failed e => Failed (if e =? 0 then 0 else 1) | _ => r end).

Definition do_execve (p : path) (argv envp : option (list (list Z))) : M exec load_result := execute_path p argv envp.

Definition sys_execve (pathname : list Z) (argv envp : option (list (list Z))) : M exec load_result :=
  '(ret, p) ← in_kern (lookup_from_pwd c junk pathname);
  match p with None => mret (Failed ret) | Some p => do_execve p argv envp end.

Definition sys_fexecve (ufd : Z) (argv envp : option (list (list Z))) : M exec load_result :=
  file ← in_kern (SysFile.ufdt_get c ufd);
  if file =? 0 then mret (Failed (- EBADF))
  else
    p ← in_kern (file_path file);
    r ← do_execve p argv envp;
    match r with
    | Failed _ => in_kern (SysFile.ufdt_put c ufd);; mret r
    | _ => mret r
    end.
End Load.

(** ** User memory as bytes

    [private]: the address space at [dir] is well formed, and every frame it maps is its own: handed out, no table, mapped once. *)

Definition page_of (v : Z) : Z * Z := (addr_to_diridx v, addr_to_tabidx v).

Record private (s : mm) (E : gset (Z * Z)) (dir : Z) (T : gmap Z Z) (Mp : gmap (Z * Z) Z) : Prop := Private {
  pv_ok : ok s E;
  pv_bytes : byte_mem (vmem s);
  pv_space : space s E dir T Mp;
  pv_frame : forall x f, Mp !! x = Some f -> owned E f /\ 0 < f /\ page_addr s f <> dir /\ forall i t, T !! i = Some t -> t <> f;
  pv_inj : forall x y f, Mp !! x = Some f -> Mp !! y = Some f -> x = y;
}.

Lemma page_of_div v : 0 <= v < VIRTUAL_BASE -> page_of v = (v / PAGE_SIZE / 1024, (v / PAGE_SIZE) mod 1024).
Proof.
  intros Hv. unfold page_of. rewrite addr_to_diridx_div, addr_to_tabidx_mod by (unfold VIRTUAL_BASE in *; lia). rewrite Z.div_div by (unfold PAGE_SIZE; lia). reflexivity.
Qed.

Lemma page_of_eq v w : 0 <= v < VIRTUAL_BASE -> 0 <= w < VIRTUAL_BASE -> page_of v = page_of w <-> v / PAGE_SIZE = w / PAGE_SIZE.
Proof.
  intros Hv Hw. rewrite !page_of_div by done. split; [|by intros ->]. intros [= H1 H2]. rewrite (Z.div_mod (v / PAGE_SIZE) 1024), (Z.div_mod (w / PAGE_SIZE) 1024) by lia. by rewrite H1, H2.
Qed.

Lemma pageoff_mod v : 0 <= v < 2 ^ 32 -> vaddr_to_pageoff v = v mod PAGE_SIZE.
Proof. intros Hv. unfold vaddr_to_pageoff, get_pageoff. by rewrite land_fff. Qed.

Lemma user_byte_page s Mp v : user_byte s Mp v = (f ← Mp !! page_of v; Some (vmem s (page_addr s f + vaddr_to_pageoff v))).
Proof. reflexivity. Qed.

Section Private.
Context (s : mm) (E : gset (Z * Z)) (dir : Z) (T : gmap Z Z) (Mp : gmap (Z * Z) Z) (Hp : private s E dir T Mp).

(** Two user addresses share a byte of memory only when they are the same. *)
Lemma private_apart v w f g : 0 <= v < VIRTUAL_BASE -> 0 <= w < VIRTUAL_BASE -> Mp !! page_of v = Some f -> Mp !! page_of w = Some g ->
  page_addr s f + vaddr_to_pageoff v = page_addr s g + vaddr_to_pageoff w -> v = w.
Proof.
  intros Hv Hw Hf Hg Heq. rewrite !pageoff_mod in Heq by (unfold VIRTUAL_BASE in *; lia). pose proof (Z.mod_pos_bound v PAGE_SIZE eq_refl). pose proof (Z.mod_pos_bound w PAGE_SIZE eq_refl).
  destruct (pv_frame _ _ _ _ _ Hp _ _ Hf) as (Of & _). destruct (pv_frame _ _ _ _ _ Hp _ _ Hg) as (Og & _). destruct (decide (f = g)) as [->|Hne].
  - assert (Hx : page_of v = page_of w) by (by apply (pv_inj _ _ _ _ _ Hp _ _ g)). apply page_of_eq in Hx; [|done..]. rewrite (Z.div_mod v PAGE_SIZE), (Z.div_mod w PAGE_SIZE) by done. lia.
  - pose proof (owned_disjoint s E f g (pv_ok _ _ _ _ _ Hp) Of Og Hne). lia.
Qed.

Lemma private_user v f : 0 <= v < VIRTUAL_BASE -> Mp !! page_of v = Some f -> frame_at Mp v = Some f.
Proof. intros Hv Hf. unfold frame_at. change (Mp !! page_of v) with (Mp !! (addr_to_diridx v, addr_to_tabidx v)) in Hf. rewrite Hf. cbn. destruct (pv_frame _ _ _ _ _ Hp _ _ Hf) as (_ & Hpos & _). by rewrite (proj2 (Z.eqb_neq f 0)) by lia. Qed.

(** A write to a byte of a mapped frame. *)
Lemma private_store v f b : 0 <= v < VIRTUAL_BASE -> Mp !! page_of v = Some f -> 0 <= b < 256 ->
  let s' := set_vmem (<[page_addr s f + vaddr_to_pageoff v := b]> (vmem s)) s in
  private s' E dir T Mp /\ forall w, 0 <= w < VIRTUAL_BASE -> user_byte s' Mp w = if decide (w = v) then Some b else user_byte s Mp w.
Proof.
  intros Hv Hf Hb s'. destruct (pv_frame _ _ _ _ _ Hp _ _ Hf) as (Of & _ & Hfd & Hft). pose proof (pv_ok _ _ _ _ _ Hp) as Hok. pose proof (pv_space _ _ _ _ _ Hp) as Hs.
  assert (Ho : 0 <= vaddr_to_pageoff v < PAGE_SIZE) by (rewrite pageoff_mod by (unfold VIRTUAL_BASE in *; lia); by apply Z.mod_pos_bound). split.
  - constructor; [exact Hok| |apply (space_frame s E); [done|by apply grows_vmem, grows_refl|..]|exact (pv_frame _ _ _ _ _ Hp)|exact (pv_inj _ _ _ _ _ Hp)].
    + intros a. unfold s'. cbn [vmem set_vmem]. destruct (decide (page_addr s f + vaddr_to_pageoff v = a)) as [<-|Hne]; [by rewrite fn_insert_eq|rewrite fn_insert_ne by done; apply Hp].
    + intros a Ha. unfold s'. cbn [vmem set_vmem]. apply fn_insert_ne. destruct (sp_dir _ _ _ _ _ Hs) as (pd & Opd & Epd & _). assert (f <> pd) by (intros ->; done).
      pose proof (owned_disjoint s E f pd Hok Of Opd H). unfold in_page in Ha. lia.
    + intros i t Ht a Ha. unfold s'. cbn [vmem set_vmem]. apply fn_insert_ne. pose proof (sp_table _ _ _ _ _ _ _ Hs Ht) as (_ & _ & Ot). pose proof (Hft i t Ht) as Hne.
      pose proof (owned_disjoint s E t f Hok Ot Of Hne). unfold in_page in Ha. lia.
  - intros w Hw. rewrite !user_byte_page. destruct (decide (w = v)) as [->|Hne].
    + rewrite Hf. cbn. unfold s'. cbn [vmem set_vmem]. change (page_addr (set_vmem _ s) f) with (page_addr s f). by rewrite fn_insert_eq.
    + destruct (Mp !! page_of w) as [g|] eqn:Hg; [|done]. cbn. f_equal. unfold s'. cbn [vmem set_vmem]. change (page_addr (set_vmem _ s) g) with (page_addr s g). apply fn_insert_ne.
      intros Heq. apply Hne. by apply (private_apart w v g f).
Qed.
End Private.

(** Memory changed, and nothing else. *)
Definition written (s : mm) (E : gset (Z * Z)) (dir : Z) (T : gmap Z Z) (Mp : gmap (Z * Z) Z) (v : Z) (l : list Z) (s' : mm) : Prop :=
  (exists m, s' = set_vmem m s) /\ private s' E dir T Mp /\
  forall w, 0 <= w < VIRTUAL_BASE -> user_byte s' Mp w = if (v <=? w) && (w <? v + Z.of_nat (length l)) then l !! Z.to_nat (w - v) else user_byte s Mp w.

Lemma put_user_spec s E dir T Mp v b (Q : unit -> mm -> Prop) : private s E dir T Mp -> 0 <= v < VIRTUAL_BASE -> is_Some (Mp !! page_of v) -> 0 <= b < 256 ->
  (forall s', (exists m, s' = set_vmem m s) -> private s' E dir T Mp -> (forall w, 0 <= w < VIRTUAL_BASE -> user_byte s' Mp w = if decide (w = v) then Some b else user_byte s Mp w) -> Q tt s') ->
  runs (put_user dir v b) s Q.
Proof.
  intros Hp Hv [f Hf] Hb HQ. destruct (private_store s E dir T Mp Hp v f b Hv Hf Hb) as [Hp' Hw]. destruct (pv_frame _ _ _ _ _ Hp _ _ Hf) as (Of & _).
  unfold put_user. mstep. apply (user_get_page_spec s E dir T Mp); [apply Hp|apply Hp|done|]. rewrite (private_user s E dir T Mp Hp v f Hv Hf). cbn iota. mstep.
  apply page_to_virt_spec; [by apply (owned_page s E); [apply Hp|]|]. mstep. mstep.
  assert (Ho : 0 <= vaddr_to_pageoff v < PAGE_SIZE) by (rewrite pageoff_mod by (unfold VIRTUAL_BASE in *; lia); by apply Z.mod_pos_bound).
  rewrite (owned_window s E f) by (apply Hp || done || lia). mstep. rewrite (uwrap_small 8) by lia. apply HQ; [by eexists|done|done].
Qed.

Lemma put_user_bytes_spec l : forall s E dir T Mp v, private s E dir T Mp -> 0 <= v -> v + Z.of_nat (length l) <= VIRTUAL_BASE ->
  (forall w, v <= w < v + Z.of_nat (length l) -> is_Some (Mp !! page_of w)) -> Forall (fun b => 0 <= b < 256) l ->
  runs (put_user_bytes dir v l) s (fun _ => written s E dir T Mp v l).
Proof.
  induction l as [|b l IH]; intros s E dir T Mp v Hp Hv Hle Hm Hl; cbn [put_user_bytes].
  - mstep. split; [exists (vmem s); by destruct s|]. split; [done|]. intros w Hw. cbn [length]. by rewrite Z.add_0_r, (proj2 (andb_false_iff _ _)) by (destruct (Z.leb_spec v w); [right; apply Z.ltb_ge; lia|by left]).
  - cbn [length] in *. rewrite Nat2Z.inj_succ in *. apply Forall_cons in Hl as [Hb Hl]. mstep. apply (put_user_spec s E dir T Mp); [done|lia|apply Hm; lia|done|]. intros s1 [m1 ->] Hp1 Hw1.
    rewrite (uwrap_small 32) by (unfold VIRTUAL_BASE in *; lia). eapply runs_mono; [apply (IH _ E dir T Mp (v + 1) Hp1); [lia|lia|intros w Hw; apply Hm; lia|done]|].
    intros [] s2 ([m2 ->] & Hp2 & Hw2). split; [exists m2; by destruct s|]. split; [done|]. intros w Hw. rewrite Hw2, Hw1 by done. cbn [length]. rewrite Nat2Z.inj_succ.
    destruct (decide (w = v)) as [->|Hne].
    + rewrite (proj2 (Z.leb_gt (v + 1) v)) by lia. cbn [andb]. rewrite (proj2 (Z.leb_le v v)), (proj2 (Z.ltb_lt v (v + Z.succ (Z.of_nat (length l))))) by lia. cbn [andb]. by rewrite Z.sub_diag.
    + destruct (Z.leb_spec (v + 1) w), (Z.leb_spec v w), (Z.ltb_spec w (v + 1 + Z.of_nat (length l))), (Z.ltb_spec w (v + Z.succ (Z.of_nat (length l)))); cbn [andb]; try lia; try done.
      replace (Z.to_nat (w - v)) with (S (Z.to_nat (w - (v + 1)))) by lia. done.
Qed.

(** ** Mapping a fresh page *)

Lemma private_map s E F dir T Mp v n : private s E dir T Mp -> 0 <= v < VIRTUAL_BASE -> Mp !! page_of v = None -> room s F (2 + n) ->
  runs (user_alloc_page dir dir v 0) s (fun _ s' => exists E' F' T' p, private s' E' dir T' (<[page_of v := p]> Mp) /\ room s' F' n /\
    forall w x, 0 <= w < VIRTUAL_BASE -> user_byte s Mp w = Some x -> user_byte s' (<[page_of v := p]> Mp) w = Some x).
Proof.
  intros Hp Hv Hno Hroom. destruct (user_idx v Hv) as [Hi Hj]. destruct (room_nonempty s F (1 + n) Hroom) as (Hfr & Hne & Hnx). pose proof (pv_ok _ _ _ _ _ Hp) as Hok. pose proof (pv_space _ _ _ _ _ Hp) as Hs.
  unfold user_alloc_page. mstep. eapply runs_mono; [by apply (alloc_page_fresh s E F 0 Hok)|]. intros p s1 Hfp. pose proof (fp_grows _ _ _ _ _ _ Hfp) as Hg. pose proof (fp_pos _ _ _ _ _ _ Hfp) as Hpp.
  pose proof (space_fresh s E F 0 p s1 dir T Mp Hok Hs Hfp) as Hs1. pose proof (room_fresh s E F 0 p s1 (1 + n) Hroom Hfp) as Hr1.
  assert (Hop : owned ({[(p, 1)]} ∪ E) p) by (exists p, 1; split; [set_solver|lia]).
  mstep. unfold user_map_page. rewrite page_to_phys_small by lia. eapply runs_mono; [apply (do_user_map_page_spec s1 ({[(p, 1)]} ∪ E) (F ∖ {[p]}) dir T Mp _ _ (p * PAGE_SIZE)); [apply Hg|done| |done|done|unfold PAGE_SIZE; lia]|].
  { eapply room_le; [exact Hr1|]. unfold tables_needed. destruct (T !! _); lia. }
  rewrite Z.div_mul by done. intros [] s2 (E2 & T2 & Hg2 & Hs2 & Hr2 & HT2 & Htab & Hb2 & Hm2). mstep. change (addr_to_diridx v, addr_to_tabidx v) with (page_of v) in *.
  destruct (Hr2 n) as [F2 Hr2']; [eapply room_le; [exact Hr1|]; unfold tables_needed; destruct (T !! _); lia|]. exists E2, F2, T2, p.
  assert (Hg02 : grows s E s2 E2) by (by eapply grows_trans). destruct (sp_dir _ _ _ _ _ Hs) as (pd & Opd & Epd & Htpd).
  assert (Hkeep : forall g, owned E g -> g <> pd -> (forall i t, T !! i = Some t -> t <> g) -> forall a, in_page (page_addr s g) a -> vmem s2 a = vmem s a).
  { intros g Og Hgd Hgt a Ha. pose proof (next_after s E g Hok Og) as Hn. pose proof (owned_sub E ({[(p, 1)]} ∪ E) g ltac:(set_solver) Og) as Og1. rewrite Hm2.
    - apply (fresh_keeps s E F 0 p s1 g); done.
    - unfold next_addr in *. rewrite (fp_next _ _ _ _ _ _ Hfp). unfold in_page, window, PAGE_SIZE in *. lia.
    - intros Hd. pose proof (owned_disjoint s E g pd Hok Og Opd Hgd). rewrite <- Epd in Hd. unfold in_page in *. lia.
    - intros t Ht Hd. destruct (sp_table _ _ _ _ _ _ _ Hs Ht) as (_ & _ & Ot). pose proof (owned_disjoint s E g t Hok Og Ot (not_eq_sym (Hgt _ t Ht))). rewrite (gr_addr _ _ _ _ Hg) in Hd by done. unfold in_page in *. lia. }
  split; [|split; [exact Hr2'|]].
  - constructor; [apply Hg02|apply Hb2, (fp_bytes _ _ _ _ _ _ Hfp), Hp|done|..].
    + intros x f. destruct (decide (page_of v = x)) as [<-|Hx].
      * rewrite lookup_insert_eq. intros [= <-]. split; [by eapply owned_sub; [apply Hg2|]|]. split; [lia|]. split.
        -- rewrite (gr_addr _ _ _ _ Hg2), (fp_addr _ _ _ _ _ _ Hfp) by done. pose proof (next_after s E pd Hok Opd). unfold next_addr, PAGE_SIZE in *. lia.
        -- intros i t Ht ->. destruct (Htab i p Ht) as [Ht0|[Hno' _]]; [|done]. apply (fp_new _ _ _ _ _ _ Hfp). by apply (sp_table _ _ _ _ _ _ _ Hs Ht0).
      * rewrite lookup_insert_ne by done. intros Hf. destruct (pv_frame _ _ _ _ _ Hp _ _ Hf) as (Of & Hf0 & Hfd & Hft). split; [by eapply owned_sub; [apply Hg02|]|]. split; [done|].
        split; [by rewrite (gr_addr _ _ _ _ Hg02)|]. intros i t Ht ->. destruct (Htab i f Ht) as [Ht0|[Hno' _]]; [by apply (Hft i f)|]. apply Hno'. by eapply owned_sub; [|exact Of]; set_solver.
    + intros x y f. assert (Hp' : forall z, Mp !! z = Some p -> False) by (intros z Hz; apply (fp_new _ _ _ _ _ _ Hfp); by apply (pv_frame _ _ _ _ _ Hp _ _ Hz)).
      destruct (decide (page_of v = x)) as [<-|Hx], (decide (page_of v = y)) as [<-|Hy]; rewrite ?lookup_insert_eq, ?lookup_insert_ne by done; [done|intros [= <-] Hz; by destruct (Hp' y)|intros Hz [= <-]; by destruct (Hp' x)|apply (pv_inj _ _ _ _ _ Hp)].
  - intros w x Hw. rewrite !user_byte_page. destruct (decide (page_of v = page_of w)) as [Hx|Hx]; [rewrite <- Hx, Hno; done|]. rewrite lookup_insert_ne by done. destruct (Mp !! page_of w) as [g|] eqn:Hgm; [|done]. cbn. intros [= <-].
    destruct (pv_frame _ _ _ _ _ Hp _ _ Hgm) as (Og & _ & Hgd & Hgt). f_equal. rewrite (gr_addr _ _ _ _ Hg02) by done. apply (Hkeep g); [done|by intros ->|done|].
    unfold in_page. rewrite pageoff_mod by (unfold VIRTUAL_BASE in *; lia). pose proof (Z.mod_pos_bound w PAGE_SIZE eq_refl). lia.
Qed.

(** ** The parts of the state a load changes *)

Definition x_vfs (x : exec) : vfs := k_vfs (x_kern x).
Definition set_x_mm (m : mm) (x : exec) : exec := Exec (x_kern x) m (x_dir x) (x_binfmts x) (x_argv x) (x_envp x).
Definition set_x_vfs (v : vfs) (x : exec) : exec := Exec (Kern (k_sched (x_kern x)) v) (x_mm x) (x_dir x) (x_binfmts x) (x_argv x) (x_envp x).

Lemma in_mm_spec {A} (m : M mm A) x (Q : A -> exec -> Prop) : runs m (x_mm x) (fun r s => Q r (set_x_mm s x)) -> runs (in_mm m) x Q.
Proof. intros H. unfold in_mm. apply runs_lift. eapply runs_mono; [exact H|]. by intros r s. Qed.

Lemma in_file_spec {A} (m : M vfs A) x (Q : A -> exec -> Prop) : runs m (x_vfs x) (fun r v => Q r (set_x_vfs v x)) -> runs (in_kern (in_vfs m)) x Q.
Proof. intros H. unfold in_kern, in_vfs. apply runs_lift, runs_lift. eapply runs_mono; [exact H|]. by intros r v. Qed.

Lemma do_read_open io x f b pos n (Q : Z * list Z -> exec -> Prop) : open_at (x_vfs x) f b pos -> 0 <= n < 2 ^ 31 -> pos + n <= Z.of_nat (length b) ->
  (forall v, open_at v f b (pos + n) -> Q (n, take (Z.to_nat n) (drop (Z.to_nat pos) b)) (set_x_vfs v x)) -> runs (do_read io f n) x Q.
Proof.
  intros Ho Hn Hle HQ. unfold do_read. mstep. apply in_file_spec. assert (Hp : 0 <= pos) by (destruct Ho as (? & ? & ? & ? & ? & ? & ? & ? & ? & ?); lia).
  eapply runs_mono; [apply (vfs_read_open _ f b pos n Ho); split; [done|by left]|]. cbv zeta. intros r v [-> Hv]. mstep.
  assert (Hl : Z.of_nat (length (take (Z.to_nat n) (drop (Z.to_nat pos) b))) = n) by (rewrite length_take, length_drop; lia). rewrite Hl in *. by apply HQ.
Qed.

(** A position that [seek] accepts. *)
Definition seekable (b : list Z) (o : Z) : Prop := 0 <= o < 2 ^ 31 /\ o <= Z.of_nat (length b) /\ ~ (o = Z.of_nat (length b) /\ o mod 1024 = 0).

Lemma do_seek_open x f b pos o (Q : Z -> exec -> Prop) : open_at (x_vfs x) f b pos -> seekable b o -> (forall v, open_at v f b o -> Q o (set_x_vfs v x)) -> runs (do_seek f o) x Q.
Proof.
  intros Ho (H1 & H2 & H3) HQ. unfold do_seek. apply in_file_spec. pose proof (vfs_seek_open _ f b pos o Ho H1) as H.
  rewrite (proj2 (Z.leb_le _ _) H2) in H. cbn [andb] in H. assert (E : (o =? Z.of_nat (length b)) && (o mod 1024 =? 0) = false) by (apply not_true_iff_false; rewrite andb_true_iff, !Z.eqb_eq; done).
  rewrite E in H. eapply runs_mono; [exact H|]. intros r v [-> Hv]. by apply HQ.
Qed.

(** ** Segments *)

(** A segment whose bytes are in the file, and which lies in user space. *)
Record segment_ok (b : list Z) (p : Elf32_Phdr) : Prop := SegmentOk {
  so_type : p_type p = PT_LOAD;
  so_seek : seekable b (p_offset p);
  so_file : 0 <= p_filesz p <= p_memsz p;
  so_bytes : p_offset p + p_filesz p <= Z.of_nat (length b);
  so_addr : 0 <= p_vaddr p;
  so_user : p_vaddr p + p_memsz p <= VIRTUAL_BASE;
}.

Definition in_segment (p : Elf32_Phdr) (v : Z) : Prop := p_vaddr p <= v < p_vaddr p + p_memsz p.
#[global] Instance in_segment_dec p v : Decision (in_segment p v).
Proof. unfold in_segment. apply _. Defined.

(** What a segment puts at [v]. *)
Definition segment_byte (b : list Z) (p : Elf32_Phdr) (v : Z) : option Z :=
  if v - p_vaddr p <? p_filesz p then b !! Z.to_nat (p_offset p + (v - p_vaddr p)) else Some 0.

(** Pages it touches. *)
Definition segment_pages (p : Elf32_Phdr) : nat := Z.to_nat (p_memsz p / PAGE_SIZE + 2).

(** What user memory holds after [w] bytes of a segment, if it held [u0] before. *)
Definition part_loaded (b : list Z) (p : Elf32_Phdr) (u0 : Z -> option Z) (w : Z) (u : Z -> option Z) : Prop :=
  forall v, 0 <= v < VIRTUAL_BASE ->
    (p_vaddr p <= v < p_vaddr p + w -> u v = segment_byte b p v) /\
    (~ in_segment p v -> forall y, u0 v = Some y -> u v = Some y).

(** The address space at [dir] is that of [x], with room for [n] pages. *)
Definition user_space (x : exec) (Mp : gmap (Z * Z) Z) (n : nat) : Prop := exists E F T, private (x_mm x) E (x_dir x) T Mp /\ room (x_mm x) F n.

Definition user_mem (x : exec) (Mp : gmap (Z * Z) Z) : Z -> option Z := user_byte (x_mm x) Mp.

(** Pages mapped that were not, only where the segment is. *)
Definition maps_only (p : Elf32_Phdr) (Mp0 Mp : gmap (Z * Z) Z) : Prop := forall v, 0 <= v < VIRTUAL_BASE -> is_Some (Mp !! page_of v) -> is_Some (Mp0 !! page_of v) \/ exists u, in_segment p u /\ page_of u = page_of v.

(** Everything but user memory and the file's position is as in [x0]. *)
Definition same_task (x0 x : exec) : Prop := exists m v, x = set_x_vfs v (set_x_mm m x0).

Lemma same_task_mm x0 x m : same_task x0 x -> same_task x0 (set_x_mm m x).
Proof. intros (m0 & v & ->). by exists m, v. Qed.

Lemma same_task_vfs x0 x v : same_task x0 x -> same_task x0 (set_x_vfs v x).
Proof. intros (m0 & v0 & ->). by exists m0, v. Qed.

Lemma same_task_refl x : same_task x x.
Proof. exists (x_mm x), (x_vfs x). by destruct x as [[]]. Qed.

Lemma same_task_trans x y z : same_task x y -> same_task y z -> same_task x z.
Proof. intros (m & v & ->) (m' & v' & ->). by exists m', v'. Qed.

Lemma same_task_dir x0 x : same_task x0 x -> x_dir x = x_dir x0.
Proof. by intros (m & v & ->). Qed.

Lemma put_chunk_spec x Mp n a l (Q : unit -> exec -> Prop) : user_space x Mp n -> 0 <= a -> a + Z.of_nat (length l) <= VIRTUAL_BASE -> (forall w, a <= w < a + Z.of_nat (length l) -> is_Some (Mp !! page_of w)) ->
  Forall (fun y => 0 <= y < 256) l ->
  (forall m, user_space (set_x_mm m x) Mp n -> (forall w, 0 <= w < VIRTUAL_BASE -> user_mem (set_x_mm m x) Mp w = if (a <=? w) && (w <? a + Z.of_nat (length l)) then l !! Z.to_nat (w - a) else user_mem x Mp w) -> Q tt (set_x_mm m x)) ->
  runs (in_mm (put_user_bytes (x_dir x) a l)) x Q.
Proof.
  intros (E & F & T & Hp & Hr) Ha Hle Hm Hl HQ. apply in_mm_spec. eapply runs_mono; [by apply (put_user_bytes_spec l _ E _ T Mp)|]. intros [] s ([m ->] & Hp' & Hw). apply HQ; [|exact Hw].
  exists E, F, T. split; [exact Hp'|exact Hr].
Qed.

(** The page at [a], mapped if it was not. *)
Lemma have_page_spec x Mp n a (Q : unit -> exec -> Prop) : (is_Some (Mp !! page_of a) /\ user_space x Mp n) \/ user_space x Mp (2 + n) -> 0 <= a < VIRTUAL_BASE ->
  (forall m Mp', user_space (set_x_mm m x) Mp' n -> is_Some (Mp' !! page_of a) -> (forall q, is_Some (Mp' !! q) -> is_Some (Mp !! q) \/ q = page_of a) ->
    (forall w y, 0 <= w < VIRTUAL_BASE -> user_mem x Mp w = Some y -> user_mem (set_x_mm m x) Mp' w = Some y) -> Q tt (set_x_mm m x)) ->
  runs (have_page a) x Q.
Proof.
  intros Hsp Ha HQ. assert (Hweak : user_space x Mp n) by (destruct Hsp as [[_ H]|(E & F & T & Hp & Hr)]; [done|exists E, F, T; split; [done|eapply room_le; [exact Hr|lia]]]).
  destruct Hweak as (E0 & F0 & T0 & Hp0 & Hr0). unfold have_page. mstep. mstep. mstep. apply in_mm_spec. apply (user_get_page_spec _ E0 _ T0 Mp); [apply Hp0|apply Hp0|done|]. replace (set_x_mm (x_mm x) x) with x by by destruct x.
  destruct (Mp !! page_of a) as [f|] eqn:Hf.
  - rewrite (private_user _ _ _ _ _ Hp0 a f Ha Hf). mstep. replace x with (set_x_mm (x_mm x) x) by by destruct x. apply (HQ (x_mm x) Mp); [by exists E0, F0, T0|by eexists|by left|done].
  - unfold frame_at. change (Mp !! (addr_to_diridx a, addr_to_tabidx a)) with (Mp !! page_of a). rewrite Hf. cbn [mbind option_bind]. destruct Hsp as [[[f Hf'] _]|(E & F & T & Hp & Hr)]; [done|]. mstep. apply in_mm_spec.
    eapply runs_mono; [by apply (private_map _ E F _ T Mp a n)|]. intros p s (E' & F' & T' & q & Hp' & Hr' & Hw). mstep. apply (HQ s (<[page_of a := q]> Mp)); [by exists E', F', T'|by rewrite lookup_insert_eq| |exact Hw].
    intros z. destruct (decide (page_of a = z)) as [<-|Hz]; [by right|rewrite lookup_insert_ne by done; by left].
Qed.

(** Pages of the segment from byte [w] on. *)
Definition left_pages (p : Elf32_Phdr) (w : Z) : nat := Z.to_nat ((p_vaddr p + p_memsz p - 1) / PAGE_SIZE + 1 - (p_vaddr p + w) / PAGE_SIZE).

Record loading (b : list Z) (p : Elf32_Phdr) (x0 : exec) (Mp0 : gmap (Z * Z) Z) (f : Z) (n : nat) (w : Z) (x : exec) (Mp : gmap (Z * Z) Z) : Prop := Loading {
  lo_task : same_task x0 x;
  lo_file : open_at (x_vfs x) f b (p_offset p + Z.min w (p_filesz p));
  lo_part : part_loaded b p (user_mem x0 Mp0) w (user_mem x Mp);
  lo_maps : maps_only p Mp0 Mp;
  lo_range : 0 <= w <= p_memsz p;
  lo_room : (is_Some (Mp !! page_of (p_vaddr p + w)) /\ user_space x Mp (2 * (left_pages p w - 1) + n)) \/ user_space x Mp (2 * left_pages p w + n);
}.

Section Rounds.
Context (io : Z -> Z -> Z * list Z) (b : list Z) (p : Elf32_Phdr) (x0 : exec) (Mp0 : gmap (Z * Z) Z) (f : Z) (n : nat).
Context (Hb : Forall (fun y => 0 <= y < 256) b) (Hso : segment_ok b p).

(** The chunk [l] at byte [w], its page being there. *)
Lemma chunk_done w x v0 m Mp l : loading b p x0 Mp0 f n w x Mp -> is_Some (Mp !! page_of (p_vaddr p + w)) -> w < p_memsz p -> user_space (set_x_mm m (set_x_vfs v0 x)) Mp (2 * (left_pages p w - 1) + n) ->
  0 < Z.of_nat (length l) <= PAGE_SIZE - (p_vaddr p + w) mod PAGE_SIZE -> w + Z.of_nat (length l) <= p_memsz p ->
  (forall i, 0 <= i < Z.of_nat (length l) -> l !! Z.to_nat i = segment_byte b p (p_vaddr p + w + i)) ->
  open_at v0 f b (p_offset p + Z.min (w + Z.of_nat (length l)) (p_filesz p)) ->
  (forall v, 0 <= v < VIRTUAL_BASE -> user_mem (set_x_mm m (set_x_vfs v0 x)) Mp v = if (p_vaddr p + w <=? v) && (v <? p_vaddr p + w + Z.of_nat (length l)) then l !! Z.to_nat (v - (p_vaddr p + w)) else user_mem x Mp v) ->
  loading b p x0 Mp0 f n (w + Z.of_nat (length l)) (set_x_mm m (set_x_vfs v0 x)) Mp.
Proof.
  intros Hlo Hm Hw Hsp Hl Hle Hbytes Hfile Hmem. destruct Hso as [_ _ _ _ Ha Hu]. pose proof (lo_range _ _ _ _ _ _ _ _ _ Hlo) as Hr. set (a := p_vaddr p + w) in *. set (L := Z.of_nat (length l)) in *.
  constructor; [by apply same_task_mm, same_task_vfs, Hlo|exact Hfile| |apply Hlo|lia|].
  - intros v Hv. destruct (lo_part _ _ _ _ _ _ _ _ _ Hlo v Hv) as [H1 H2]. rewrite Hmem by done. split.
    + intros Hin. destruct (Z.leb_spec a v), (Z.ltb_spec v (a + L)); cbn [andb]; [|unfold a in *; lia|apply H1; unfold a in *; lia|apply H1; unfold a in *; lia].
      rewrite Hbytes by lia. f_equal. lia.
    + intros Hout y Hy. rewrite (proj2 (andb_false_iff _ _)); [by apply H2|]. unfold in_segment in Hout. destruct (Z.leb_spec a v); [right; apply Z.ltb_ge; unfold a in *; lia|by left].
  - pose proof (Z.div_mod a PAGE_SIZE ltac:(done)) as Hd. pose proof (Z.mod_pos_bound a PAGE_SIZE ltac:(done)) as Hmod. destruct (decide (L = PAGE_SIZE - a mod PAGE_SIZE)) as [E|E].
    + right. replace (left_pages p (w + L)) with (left_pages p w - 1)%nat; [exact Hsp|]. unfold left_pages. fold a. replace (p_vaddr p + (w + L)) with ((a / PAGE_SIZE + 1) * PAGE_SIZE) by (unfold a in *; lia). rewrite Z.div_mul by done. lia.
    + left. assert (Eq : (p_vaddr p + (w + L)) / PAGE_SIZE = a / PAGE_SIZE) by (symmetry; apply Z.div_unique_pos with (a mod PAGE_SIZE + L); unfold a in *; lia). split.
      * replace (page_of (p_vaddr p + (w + L))) with (page_of a); [done|]. apply page_of_eq; [unfold a in *; lia| |done]. split; [unfold a in *; lia|].
        pose proof (Z.div_mod (p_vaddr p + (w + L)) PAGE_SIZE ltac:(done)). pose proof (Z.mod_pos_bound (p_vaddr p + (w + L)) PAGE_SIZE ltac:(done)).
        assert (VIRTUAL_BASE mod PAGE_SIZE = 0) by reflexivity. pose proof (Z.div_mod VIRTUAL_BASE PAGE_SIZE ltac:(done)). assert (a / PAGE_SIZE < VIRTUAL_BASE / PAGE_SIZE) by (apply Z.div_lt_upper_bound; [done|]; unfold a in *; lia). unfold PAGE_SIZE in *. lia.
      * replace (left_pages p (w + L)) with (left_pages p w); [done|]. unfold left_pages. by rewrite Eq.
Qed.

Definition rounds_left (w : Z) : nat := (left_pages p w + (if Z.ltb w (p_filesz p) then 1 else 0) + (if Z.ltb w (p_memsz p) then 1 else 0))%nat.

Lemma left_pages_pos w : 0 <= w < p_memsz p -> (0 < left_pages p w)%nat.
Proof. intros Hw. unfold left_pages. pose proof (Z.div_le_mono (p_vaddr p + w) (p_vaddr p + p_memsz p - 1) PAGE_SIZE ltac:(done) ltac:(lia)). lia. Qed.

(** A chunk ends at the end of a page, of the file's bytes, or of the segment. *)
Lemma rounds_decrease w L : 0 <= w < p_memsz p -> 0 < L -> w + L <= p_memsz p ->
  L = PAGE_SIZE - (p_vaddr p + w) mod PAGE_SIZE \/ (w < p_filesz p /\ w + L = p_filesz p) \/ w + L = p_memsz p -> (rounds_left (w + L) < rounds_left w)%nat.
Proof.
  intros Hw HL Hle Hend. unfold rounds_left. pose proof (left_pages_pos w Hw) as Hpos. assert (Hmono : (left_pages p (w + L) <= left_pages p w)%nat).
  { unfold left_pages. pose proof (Z.div_le_mono (p_vaddr p + w) (p_vaddr p + (w + L)) PAGE_SIZE ltac:(done) ltac:(lia)). lia. }
  destruct Hend as [->|[[Hf E]|E]].
  - assert (left_pages p (w + (PAGE_SIZE - (p_vaddr p + w) mod PAGE_SIZE)) < left_pages p w)%nat.
    { unfold left_pages in *. pose proof (Z.div_mod (p_vaddr p + w) PAGE_SIZE ltac:(done)). replace (p_vaddr p + (w + (PAGE_SIZE - (p_vaddr p + w) mod PAGE_SIZE))) with (((p_vaddr p + w) / PAGE_SIZE + 1) * PAGE_SIZE) by lia. rewrite Z.div_mul by done. lia. }
    destruct (Z.ltb_spec w (p_filesz p)), (Z.ltb_spec (w + (PAGE_SIZE - (p_vaddr p + w) mod PAGE_SIZE)) (p_filesz p)), (Z.ltb_spec w (p_memsz p)), (Z.ltb_spec (w + (PAGE_SIZE - (p_vaddr p + w) mod PAGE_SIZE)) (p_memsz p)); lia.
  - destruct (Z.ltb_spec w (p_filesz p)), (Z.ltb_spec (w + L) (p_filesz p)), (Z.ltb_spec w (p_memsz p)), (Z.ltb_spec (w + L) (p_memsz p)); lia.
  - destruct (Z.ltb_spec w (p_filesz p)), (Z.ltb_spec (w + L) (p_filesz p)), (Z.ltb_spec w (p_memsz p)), (Z.ltb_spec (w + L) (p_memsz p)); lia.
Qed.

Lemma load_round_spec w x Mp : loading b p x0 Mp0 f n w x Mp ->
  runs (load_round io f p w) x (fun r x' => match r with
    | inl w' => (exists Mp', loading b p x0 Mp0 f n w' x' Mp') /\ (rounds_left w' < rounds_left w)%nat
    | inr e => e = None /\ w = p_memsz p /\ x' = x end).
Proof.
  intros Hlo. pose proof (lo_range _ _ _ _ _ _ _ _ _ Hlo) as Hr. pose proof Hso as [_ Hseek Hfm Hfb Ha Hu]. unfold load_round. destruct (Z.ltb_spec w (p_memsz p)) as [Hw|Hw]; cbn [negb]; [|mstep; split; [done|]; split; [lia|done]].
  rewrite (uwrap_small 32 (p_vaddr p + w)) by (unfold VIRTUAL_BASE in *; lia). set (a := p_vaddr p + w) in *. assert (Hau : 0 <= a < VIRTUAL_BASE) by (unfold a; lia). pose proof (Z.mod_pos_bound a PAGE_SIZE ltac:(done)) as Hmod.
  mstep. pose proof (left_pages_pos w ltac:(lia)) as Hlp. apply (have_page_spec x Mp (2 * (left_pages p w - 1) + n)); [|done|].
  { destruct (lo_room _ _ _ _ _ _ _ _ _ Hlo) as [H|H]; [by left|right]. replace (2 + (2 * (left_pages p w - 1) + n))%nat with (2 * left_pages p w + n)%nat by lia. exact H. }
  intros m Mp' Hsp' Hm' Hdom Hkeep. set (x1 := set_x_mm m x).
  assert (Hlo1 : loading b p x0 Mp0 f n w x1 Mp').
  { constructor; [by apply same_task_mm, Hlo|apply Hlo| | |done|left; by split].
    - intros v Hv. destruct (lo_part _ _ _ _ _ _ _ _ _ Hlo v Hv) as [H1 H2]. split.
      + intros Hin. assert (exists y, segment_byte b p v = Some y) as [y Hy].
        { unfold segment_byte. destruct (Z.ltb_spec (v - p_vaddr p) (p_filesz p)); [|by eexists]. apply lookup_lt_is_Some. destruct Hseek as (? & ? & ?). lia. }
        rewrite Hy. apply Hkeep; [done|]. rewrite <- Hy. by apply H1.
      + intros Hout y Hy. apply Hkeep; [done|]. by apply H2.
    - intros v Hv Hs. destruct (Hdom _ Hs) as [H|H]; [by apply (lo_maps _ _ _ _ _ _ _ _ _ Hlo)|]. right. exists a. split; [unfold in_segment, a; lia|done]. }
  mstep. mstep. change (x_dir x1) with (x_dir x1).
  assert (Hsame : forall L u, 0 < L <= PAGE_SIZE - a mod PAGE_SIZE -> a + L <= VIRTUAL_BASE -> a <= u < a + L -> page_of u = page_of a).
  { intros L u HL HLe Hin. apply page_of_eq; [lia|done|]. symmetry. apply Z.div_unique_pos with (a mod PAGE_SIZE + (u - a)); [lia|]. pose proof (Z.div_mod a PAGE_SIZE ltac:(done)). lia. }
  destruct (Z.ltb_spec w (p_filesz p)) as [Hf|Hf].
  - rewrite (uwrap_small 32) by (unfold VIRTUAL_BASE in *; lia). set (L := MIN (PAGE_SIZE - a mod PAGE_SIZE) (p_filesz p - w)). assert (HL : 0 < L /\ L <= PAGE_SIZE - a mod PAGE_SIZE /\ L <= p_filesz p - w /\ (L = PAGE_SIZE - a mod PAGE_SIZE \/ L = p_filesz p - w)) by (unfold L, MIN; destruct (_ <? _) eqn:E; [apply Z.ltb_lt in E|apply Z.ltb_ge in E]; lia).
    destruct HL as (HL0 & HL1 & HL2 & HL3). mstep. pose proof (lo_file _ _ _ _ _ _ _ _ _ Hlo1) as Hop. rewrite Z.min_l in Hop by lia. destruct Hseek as (Hs1 & Hs2 & _).
    apply (do_read_open io x1 f b (p_offset p + w) L); [exact Hop|unfold PAGE_SIZE in *; lia|lia|]. intros v Hv. cbn beta. mstep. set (l := take (Z.to_nat L) (drop (Z.to_nat (p_offset p + w)) b)).
    assert (Hl : Z.of_nat (length l) = L) by (unfold l; rewrite length_take, length_drop; lia).
    change (x_dir x1) with (x_dir (set_x_vfs v x1)). apply (put_chunk_spec (set_x_vfs v x1) Mp' (2 * (left_pages p w - 1) + n)); [exact Hsp'|lia|lia| |by apply Forall_take, Forall_drop|].
    { intros u Hin. rewrite (Hsame L u); [done|lia|lia|lia]. }
    intros m2 Hsp2 Hw2. rewrite Z.eqb_refl. cbn [negb]. mstep. rewrite (uwrap_small 32) by (unfold VIRTUAL_BASE in *; lia). rewrite <- Hl. split.
    + exists Mp'. apply (chunk_done w x1 v m2 Mp' l); [exact Hlo1|done|done|exact Hsp2|fold a; lia|lia| |rewrite Hl, Z.min_l by lia; by rewrite Z.add_assoc|exact Hw2].
      intros i Hi. unfold segment_byte. fold a. rewrite (proj2 (Z.ltb_lt _ _)) by (unfold a; lia). unfold l. rewrite lookup_take_lt, lookup_drop by lia. f_equal. unfold a. lia.
    + apply rounds_decrease; [lia|lia|lia|]. fold a. lia.
  - rewrite (uwrap_small 32 (p_memsz p - w)) by (unfold VIRTUAL_BASE in *; lia). set (L := MIN (PAGE_SIZE - a mod PAGE_SIZE) (p_memsz p - w)). assert (HL : 0 < L /\ L <= PAGE_SIZE - a mod PAGE_SIZE /\ L <= p_memsz p - w /\ (L = PAGE_SIZE - a mod PAGE_SIZE \/ L = p_memsz p - w)) by (unfold L, MIN; destruct (_ <? _) eqn:E; [apply Z.ltb_lt in E|apply Z.ltb_ge in E]; lia).
    destruct HL as (HL0 & HL1 & HL2 & HL3). mstep. set (l := replicate (Z.to_nat L) 0). assert (Hl : Z.of_nat (length l) = L) by (unfold l; rewrite length_replicate; lia).
    apply (put_chunk_spec x1 Mp' (2 * (left_pages p w - 1) + n)); [exact Hsp'|lia|unfold a in *; lia| | |].
    { intros u Hin. rewrite (Hsame L u); [done|lia|unfold a in *; lia|lia]. }
    { unfold l. by apply Forall_replicate. }
    intros m2 Hsp2 Hw2. mstep. rewrite (uwrap_small 32) by (unfold VIRTUAL_BASE in *; lia). rewrite <- Hl. replace (set_x_mm m2 x1) with (set_x_mm m2 (set_x_vfs (x_vfs x1) x1)) in * by by destruct x as [[]]. split.
    + exists Mp'. apply (chunk_done w x1 (x_vfs x1) m2 Mp' l); [exact Hlo1|done|done|exact Hsp2|fold a; lia|lia| | |exact Hw2].
      * intros i Hi. unfold segment_byte. fold a. rewrite (proj2 (Z.ltb_ge _ _)) by (unfold a; lia). unfold l. apply lookup_replicate_2. lia.
      * pose proof (lo_file _ _ _ _ _ _ _ _ _ Hlo1) as Hop. by rewrite Z.min_r in Hop |- * by lia.
    + apply rounds_decrease; [lia|lia|lia|]. fold a. lia.
Qed.
End Rounds.

Lemma load_segment_spec io b p x Mp f n pos : Forall (fun y => 0 <= y < 256) b -> segment_ok b p -> open_at (x_vfs x) f b pos -> user_space x Mp (2 * segment_pages p + n) ->
  runs (load_segment io f p) x (fun r x' => r = None /\ exists Mp' pos', same_task x x' /\ open_at (x_vfs x') f b pos' /\ user_space x' Mp' n /\
    part_loaded b p (user_mem x Mp) (p_memsz p) (user_mem x' Mp') /\ maps_only p Mp Mp').
Proof.
  intros Hb Hso Ho Hsp. pose proof Hso as [Ht Hseek Hfm Hfb Ha Hu]. unfold load_segment. rewrite Ht. cbn [Z.eqb PT_NULL PT_LOAD Pos.eqb]. mstep. apply (do_seek_open x f b pos); [done..|]. intros v Hv. destruct Hseek as (Hs1 & _).
  rewrite (uwrap_small 32), Z.eqb_refl by lia. cbn [negb]. set (x1 := set_x_vfs v x).
  assert (Hpages : (left_pages p 0 <= segment_pages p)%nat).
  { unfold left_pages, segment_pages. rewrite Z.add_0_r. pose proof (Z.div_mod (p_vaddr p) PAGE_SIZE ltac:(done)). pose proof (Z.mod_pos_bound (p_vaddr p) PAGE_SIZE ltac:(done)). pose proof (Z.div_mod (p_memsz p) PAGE_SIZE ltac:(done)). pose proof (Z.mod_pos_bound (p_memsz p) PAGE_SIZE ltac:(done)).
    assert ((p_vaddr p + p_memsz p - 1) / PAGE_SIZE < p_vaddr p / PAGE_SIZE + p_memsz p / PAGE_SIZE + 2) by (apply Z.div_lt_upper_bound; [done|unfold PAGE_SIZE in *; lia]). lia. }
  assert (H0 : loading b p x Mp f n 0 x1 Mp).
  { constructor; [apply same_task_vfs, same_task_refl|rewrite Z.min_l, Z.add_0_r by lia; exact Hv| | |lia|].
    - intros w Hw. split; [lia|done].
    - intros w Hw Hm. by left.
    - right. destruct Hsp as (E & F & T & Hp & Hr). exists E, F, T. split; [exact Hp|]. eapply room_le; [exact Hr|lia]. }
  eapply (runs_iterM (fun w x' => exists Mp', loading b p x Mp f n w x' Mp') (fun w _ => rounds_left p w)); [|by exists Mp|].
  - intros w x' [Mp' Hlo]. eapply runs_mono; [by apply (load_round_spec io b p x Mp f n Hb Hso w x' Mp')|]. intros [w'|e] x2; [done|]. intros (-> & -> & ->). split; [done|].
    exists Mp', (p_offset p + Z.min (p_memsz p) (p_filesz p)). destruct Hlo as [H1 H2 H3 H4 H5 H6]. split_and!; try done. destruct H6 as [[_ (E & F & T & Hp & Hr)]|(E & F & T & Hp & Hr)]; exists E, F, T; (split; [done|]); (eapply room_le; [exact Hr|lia]).
  - unfold rounds_left, segment_pages in *. pose proof (Z.div_pos (p_memsz p) PAGE_SIZE ltac:(lia) ltac:(done)). destruct (0 <? p_filesz p), (0 <? p_memsz p); lia.
Qed.

(** What the segments put at [v], the last one that covers it deciding. *)
Fixpoint image (b : list Z) (l : list Elf32_Phdr) (v : Z) : option Z :=
  match l with
  | [] => None
  | p :: l' => match image b l' v with Some y => Some y | None => if decide (p_type p = PT_LOAD /\ in_segment p v) then segment_byte b p v else None end
  end.

Definition loaded (b : list Z) (l : list Elf32_Phdr) (u0 u : Z -> option Z) : Prop :=
  forall v, 0 <= v < VIRTUAL_BASE -> match image b l v with Some y => u v = Some y | None => forall y, u0 v = Some y -> u v = Some y end.

Definition headers_ok (b : list Z) (l : list Elf32_Phdr) : Prop := Forall (fun p => p_type p = PT_NULL \/ segment_ok b p) l.
Definition pages_for (l : list Elf32_Phdr) : nat := foldr (fun p n => (2 * (if Z.eqb (p_type p) PT_LOAD then segment_pages p else 0) + n)%nat) O l.
Definition maps_within (l : list Elf32_Phdr) (Mp0 Mp : gmap (Z * Z) Z) : Prop :=
  forall v, 0 <= v < VIRTUAL_BASE -> is_Some (Mp !! page_of v) -> is_Some (Mp0 !! page_of v) \/ exists p u, p ∈ l /\ p_type p = PT_LOAD /\ in_segment p u /\ page_of u = page_of v.

Lemma load_segments_spec io b f n : Forall (fun y => 0 <= y < 256) b -> forall l x Mp pos, headers_ok b l -> open_at (x_vfs x) f b pos -> user_space x Mp (pages_for l + n) ->
  runs (load_segments io f l) x (fun r x' => r = None /\ exists Mp' pos', same_task x x' /\ open_at (x_vfs x') f b pos' /\ user_space x' Mp' n /\ loaded b l (user_mem x Mp) (user_mem x' Mp') /\ maps_within l Mp Mp').
Proof.
  intros Hb. induction l as [|p l IH]; intros x Mp pos Hl Ho Hsp; cbn [load_segments].
  - mstep. split; [done|]. exists Mp, pos. split; [apply same_task_refl|]. split; [done|]. split; [exact Hsp|]. split; [intros v Hv y Hy; exact Hy|]. intros v Hv Hs. by left.
  - apply Forall_cons in Hl as [[Hnull|Hso] Hl].
    + mstep. unfold load_segment. rewrite Hnull. cbn [Z.eqb PT_NULL]. mstep. eapply runs_mono; [apply (IH x Mp pos Hl Ho)|].
      { cbn [pages_for foldr] in Hsp. rewrite Hnull in Hsp. exact Hsp. }
      intros r x' (-> & Mp' & pos' & H1 & H2 & H3 & H4 & H5). split; [done|]. exists Mp', pos'. split_and!; try done.
      * intros v Hv. cbn [image]. specialize (H4 v Hv). destruct (image b l v); [done|]. rewrite decide_False by (rewrite Hnull; by intros [? _]). done.
      * intros v Hv Hs. destruct (H5 v Hv Hs) as [?|(q & u & Hq & ?)]; [by left|right]. exists q, u. split; [by apply elem_of_cons; right|done].
    + mstep. pose proof (so_type _ _ Hso) as Ht. eapply runs_mono; [apply (load_segment_spec io b p x Mp f (pages_for l + n) pos Hb Hso Ho)|].
      { cbn [pages_for foldr] in Hsp. rewrite Ht in Hsp. cbn [Z.eqb PT_LOAD Pos.eqb] in Hsp. change (foldr _ O l) with (pages_for l) in Hsp. by rewrite <- Nat.add_assoc in Hsp. }
      intros r x1 (-> & Mp1 & pos1 & H1 & H2 & H3 & H4 & H5). eapply runs_mono; [by apply (IH x1 Mp1 pos1 Hl)|]. intros r x' (-> & Mp' & pos' & G1 & G2 & G3 & G4 & G5). split; [done|]. exists Mp', pos'.
      split; [by eapply same_task_trans|]. split; [done|]. split; [done|]. split.
      * intros v Hv. cbn [image]. specialize (G4 v Hv). destruct (image b l v) as [y|]; [done|]. destruct (H4 v Hv) as [K1 K2]. destruct (decide _) as [[_ Hin]|Hout].
        -- specialize (K1 Hin). destruct (segment_byte b p v) as [y|] eqn:Ey; [by apply G4|]. exfalso. unfold segment_byte in Ey. destruct (Z.ltb_spec (v - p_vaddr p) (p_filesz p)); [|done].
           apply lookup_ge_None in Ey. destruct Hso as [_ (? & _) ? ? ? ?]. unfold in_segment in Hin. lia.
        -- intros y Hy. apply G4, K2; [|done]. intros Hin. by apply Hout.
      * intros v Hv Hs. destruct (G5 v Hv Hs) as [G|(q & u & Hq & ?)]; [|right; exists q, u; split; [by apply elem_of_cons; right|done]]. destruct (H5 v Hv G) as [?|(u & Hu & ?)]; [by left|right]. exists p, u. split; [by apply elem_of_cons; left|done].
Qed.

(** ** A fresh address space *)

(** Entry [i] of the directory page [d] is set, and nothing else. *)
Lemma direntry_set_page s E pd i phys fl (Q : unit -> mm -> Prop) : ok s E -> owned E pd -> byte_mem (vmem s) -> 0 <= i < NUM_ENTRIES -> 0 <= phys < 2 ^ 32 ->
  (forall m, byte_mem m -> (forall a, ~ in_page (page_addr s pd) a -> m a = vmem s a) -> (forall j, 0 <= j < NUM_ENTRIES -> j <> i -> UserMem.word_at m (page_addr s pd + 4 * j) = UserMem.word_at (vmem s) (page_addr s pd + 4 * j)) ->
    ent_get_phys (UserMem.word_at m (page_addr s pd + 4 * i)) = phys / 2 ^ 12 * 2 ^ 12 -> Q tt (set_vmem m s)) ->
  runs (UserMem.direntry_set (page_addr s pd) i phys fl) s Q.
Proof.
  intros Hok Ho Hb Hi Hph HQ. unfold UserMem.direntry_set. pose proof (page_window s E pd i Hok Ho Hi) as Hw. mstep. apply rd_word_spec; [done|]. apply wr_word_spec; [done|]. apply HQ.
  - by apply put_word_byte_mem.
  - intros a Ha. apply put_word_other. destruct (Z.lt_ge_cases a (page_addr s pd + 4 * i)) as [|H1]; [by left|]. destruct (Z.le_gt_cases (page_addr s pd + 4 * i + 4) a) as [|H2]; [by right|]. destruct Ha. by apply (entry_in_page _ i).
  - intros j Hj Hne. apply word_at_put_other. lia.
  - rewrite word_at_put by (by apply ent_set_range). by apply ent_get_phys_set.
Qed.

Section Fresh.
Context (ka : Z) (Hka : VIRTUAL_BASE <= ka).

Lemma build_page_dir_spec s E pd (Q : unit -> mm -> Prop) : ok s E -> owned E pd -> byte_mem (vmem s) -> (forall a, in_page (page_addr s pd) a -> vmem s a = 0) ->
  (forall m, byte_mem m -> (forall a, ~ in_page (page_addr s pd) a -> m a = vmem s a) -> space (set_vmem m s) E (page_addr s pd) ∅ ∅ -> Q tt (set_vmem m s)) ->
  runs (build_page_dir ka (page_addr s pd)) s Q.
Proof.
  intros Hok Ho Hb Hz HQ. set (d := page_addr s pd) in *.
  set (I := fun s' => exists m, s' = set_vmem m s /\ byte_mem m /\ (forall a, ~ in_page d a -> m a = vmem s a) /\ forall j, 0 <= j < USER_TABLES -> ent_get_phys (UserMem.word_at m (d + 4 * j)) = 0).
  assert (Hstep : forall i phys fl s', I s' -> 0 <= i < NUM_ENTRIES -> 0 <= phys < 2 ^ 32 -> (i < USER_TABLES -> phys = 0) -> runs (UserMem.direntry_set d i phys fl) s' (fun _ => I)).
  { intros i phys fl s' (m & -> & Hbm & Hm & He) Hi Hph Hu. change d with (page_addr (set_vmem m s) pd). apply (direntry_set_page _ E); [done..|]. intros m' Hb' Hm' Hw He'. exists m'. split; [by destruct s|]. split; [done|]. split.
    - intros a Ha. rewrite Hm' by done. by apply Hm.
    - intros j Hj. destruct (decide (j = i)) as [->|Hne]; [change (page_addr _ pd) with d in He'; rewrite He', Hu by lia; reflexivity|]. change (page_addr _ pd) with d in Hw. rewrite Hw by (done || unfold USER_TABLES, NUM_ENTRIES, KERNEL_NUM_TABLES in *; lia). by apply He. }
  unfold build_page_dir. mstep. eapply runs_mono; [apply (runs_forM (fun _ => I))|].
  - exists (vmem s). split; [by destruct s|]. split; [done|]. split; [done|]. intros j Hj. unfold UserMem.word_at. rewrite !Hz by (unfold in_page, USER_TABLES, NUM_ENTRIES, KERNEL_NUM_TABLES, PAGE_SIZE in *; lia). reflexivity.
  - intros i s' Hi HI. apply Hstep; [done|unfold NUM_ENTRIES, KERNEL_NUM_TABLES in *; lia|lia|done].
  - intros [] s1 HI. cbn zeta. eapply runs_mono; [apply (runs_forM (fun _ => I)); [exact HI|]|].
    + intros i s' Hi HI'. mstep. unfold kvirt_to_phys. mstep. mstep; [apply Z.ltb_ge; unfold PAGE_SIZE; lia|]. mstep. change (VIRTUAL_BASE / PAGE_SIZE / NUM_ENTRIES) with 768. apply Hstep; [done|unfold NUM_ENTRIES, KERNEL_NUM_TABLES in *; lia|apply uwrap_range; lia|unfold USER_TABLES, NUM_ENTRIES, KERNEL_NUM_TABLES; lia].
    + intros [] s2 (m & -> & Hbm & Hm & He). apply HQ; [done|done|]. constructor.
      * exists pd. split; [done|]. split; [done|]. intros i t Ht. by rewrite lookup_empty in Ht.
      * intros i Hi. rewrite lookup_empty. by apply He.
      * intros i t Ht. by rewrite lookup_empty in Ht.
      * intros i i' t Ht. by rewrite lookup_empty in Ht.
      * intros i t j Ht. by rewrite lookup_empty in Ht.
      * intros i j t Ht. by rewrite lookup_empty in Ht.
Qed.

(** What a load starts from: a new empty address space, the old directory kept as it was. *)
Lemma arch_replace_mem_spec x E F n (Q : Z -> exec -> Prop) : ok (x_mm x) E -> byte_mem (vmem (x_mm x)) -> room (x_mm x) F (1 + n) ->
  (forall s d E', grows (x_mm x) E s E' -> (forall f a, owned E f -> in_page (page_addr (x_mm x) f) a -> vmem s a = vmem (x_mm x) a) -> user_space (set_x_dir d (set_x_mm s x)) ∅ n -> Q (x_dir x) (set_x_dir d (set_x_mm s x))) ->
  runs (arch_replace_mem ka 0) x Q.
Proof.
  intros Hok Hb Hroom HQ. destruct (room_nonempty _ F n Hroom) as (Hfr & Hne & Hnx). unfold arch_replace_mem. mstep. mstep. mstep. apply in_mm_spec. cbn [negb Z.eqb]. mstep.
  eapply runs_mono; [by apply (alloc_page_fresh (x_mm x) E F ALLOC_ZERO)|]. intros p s1 Hfp. pose proof (fp_grows _ _ _ _ _ _ Hfp) as Hg. pose proof (fp_pos _ _ _ _ _ _ Hfp) as Hpp.
  assert (Hop : owned ({[(p, 1)]} ∪ E) p) by (exists p, 1; split; [set_solver|lia]). assert (Hin : inside p) by (unfold inside, NPAGES, NUM_ENTRIES; lia).
  mstep. apply page_to_virt_spec; [done|]. mstep. apply (build_page_dir_spec s1 ({[(p, 1)]} ∪ E)); [apply Hg|done|by apply (fp_bytes _ _ _ _ _ _ Hfp)|by apply (fp_zero _ _ _ _ _ _ Hfp)|].
  intros m Hbm Hm Hsp. mstep. mstep. apply in_mm_spec. cbn [x_mm set_x_mm]. apply page_to_virt_spec; [done|]. mstep. mstep. mstep. replace (set_x_mm (set_vmem m s1) (set_x_mm (set_vmem m s1) x)) with (set_x_mm (set_vmem m s1) x) by by destruct x.
  apply (HQ (set_vmem m s1) (page_addr s1 p) ({[(p, 1)]} ∪ E)); [by apply grows_vmem| |].
  - intros f a Of Ha. cbn [vmem set_vmem]. rewrite Hm; [by apply (fresh_keeps (x_mm x) E F ALLOC_ZERO p s1 f)|]. rewrite (fp_addr _ _ _ _ _ _ Hfp). pose proof (next_after (x_mm x) E f Hok Of). unfold in_page, next_addr in *. lia.
  - exists ({[(p, 1)]} ∪ E), (F ∖ {[p]}), ∅. split; [|exact (room_fresh _ _ _ _ _ _ _ Hroom Hfp)]. constructor; [apply Hg|done|exact Hsp|by intros ? ? ?|by intros ? ? ?].
Qed.
End Fresh.

(** ** A whole file *)

Definition elf_header (b : list Z) : Elf32_Ehdr := ehdr_of (take 52 b).
Definition segments (b : list Z) : list Elf32_Phdr :=
  phdrs_of (Z.to_nat (e_phnum (elf_header b))) (take (Z.to_nat (PHDR_SIZE * e_phnum (elf_header b))) (drop (Z.to_nat (e_phoff (elf_header b))) b)).
Definition is_elf (b : list Z) : bool := (EHDR_SIZE <=? Z.of_nat (length b)) && elf_header_valid (elf_header b) && negb (e_phoff (elf_header b) =? 0).

(** The table of program headers is in the file, and so is what they name. *)
Record elf_ok (b : list Z) : Prop := ElfOk {
  eo_seek : seekable b (e_phoff (elf_header b));
  eo_table : e_phoff (elf_header b) + PHDR_SIZE * e_phnum (elf_header b) <= Z.of_nat (length b);
  eo_headers : headers_ok b (segments b);
}.

Lemma field_range l o n : Forall (fun y => 0 <= y < 256) l -> 0 <= field l o n < 2 ^ (8 * Z.of_nat n).
Proof.
  intros Hl. unfold field. pose proof (of_le_bytes_range (take n (drop o l)) ltac:(by apply Forall_take, Forall_drop)) as [H1 H2]. split; [done|]. eapply Z.lt_le_trans; [exact H2|].
  apply Z.pow_le_mono_r; [lia|]. rewrite length_take. lia.
Qed.

(** Reading the header of a file that may be shorter. *)
Lemma do_read_header io x f b (Q : Z * list Z -> exec -> Prop) : open_at (x_vfs x) f b 0 ->
  (forall v pos, open_at v f b pos -> Q (Z.min EHDR_SIZE (Z.of_nat (length b)), take 52 b) (set_x_vfs v x)) -> runs (do_read io f EHDR_SIZE) x Q.
Proof.
  intros Ho HQ. unfold do_read. mstep. apply in_file_spec. eapply runs_mono; [apply (vfs_read_open _ f b 0 EHDR_SIZE Ho)|].
  - unfold EHDR_SIZE. split; [lia|]. destruct (Z.le_gt_cases 52 (Z.of_nat (length b))); [left; lia|right]. rewrite !Z.div_small by lia. done.
  - cbv zeta. intros r v [-> Hv]. mstep. change (drop (Z.to_nat 0) b) with b in *. change (Z.to_nat EHDR_SIZE) with 52%nat in *.
    replace (Z.of_nat (length (take 52 b))) with (Z.min EHDR_SIZE (Z.of_nat (length b))) by (rewrite length_take; unfold EHDR_SIZE; lia). by eapply HQ.
Qed.

Lemma load_image_spec io x Mp f b n : Forall (fun y => 0 <= y < 256) b -> b <> [] -> open_at (x_vfs x) f b 0 ->
  if is_elf b then elf_ok b -> user_space x Mp (pages_for (segments b) + n) ->
    runs (load_image io f) x (fun r x' => r = inr (e_entry (elf_header b)) /\ exists Mp', same_task x x' /\ user_space x' Mp' n /\ loaded b (segments b) (user_mem x Mp) (user_mem x' Mp') /\ maps_within (segments b) Mp Mp')
  else runs (load_image io f) x (fun r x' => r = inl (- ENOEXEC) /\ exists v, x' = set_x_vfs v x).
Proof.
  intros Hb Hne Ho.
  assert (H0 : forall Q : Z + Z -> exec -> Prop, (forall v pos, open_at v f b pos -> (if is_elf b then True else Q (inl (- ENOEXEC)) (set_x_vfs v x)) /\
      (is_elf b = true -> runs (let h := elf_header b in r ← do_seek f (e_phoff h); if negb (u32 r =? e_phoff h) then mret (inl (- EIO)) else
        let size := u32 (PHDR_SIZE * e_phnum h) in '(n, l) ← do_read io f size; if negb (n =? size) then mret (inl (- EIO)) else
        e ← load_segments io f (phdrs_of (Z.to_nat (e_phnum h)) l); match e with Some e => mret (inl e) | None => mret (inr (e_entry h)) end) (set_x_vfs v x) Q)) -> runs (load_image io f) x Q).
  { intros Q HQ. unfold load_image. mstep. apply (do_seek_open x f b 0); [done|split; [lia|split; [lia|]]; intros [E _]; by destruct b|]. intros v Hv. cbn [negb Z.eqb]. mstep. apply (do_read_header io _ f b); [exact Hv|]. intros v' pos Hv'. destruct (HQ v' pos Hv') as [H1 H2]. cbn beta iota.
    change (ehdr_of (take 52 b)) with (elf_header b). unfold is_elf in *. replace (set_x_vfs v' (set_x_vfs v x)) with (set_x_vfs v' x) by done.
    destruct (Z.leb_spec EHDR_SIZE (Z.of_nat (length b))); cbn [andb] in *.
    2: { rewrite Z.min_r by lia. rewrite (proj2 (Z.eqb_neq _ _)) by lia. cbn [negb]. by mstep. }
    rewrite Z.min_l, Z.eqb_refl by lia. cbn [negb]. destruct (elf_header_valid (elf_header b)); cbn [andb negb] in *; [|by mstep]. destruct (e_phoff (elf_header b) =? 0); cbn [negb] in *; [by mstep|]. by apply H2. }
  destruct (is_elf b); [|apply H0; intros v pos Hv; split; [|done]; split; [done|by exists v]].
  intros [Hsk Htab Hhd] Hsp. apply H0. clear H0. intros v pos Hv. split; [done|]. intros _. cbn zeta. mstep. set (h := elf_header b) in *. apply (do_seek_open _ f b pos); [exact Hv|done|]. intros v1 Hv1. pose proof Hsk as (Hs1 & Hs2 & _).
  rewrite (uwrap_small 32), Z.eqb_refl by lia. cbn [negb]. assert (Hnum : 0 <= e_phnum h < 2 ^ 16) by (unfold h, elf_header; apply (field_range _ 44 2); by apply Forall_take).
  unfold PHDR_SIZE in *. rewrite (uwrap_small 32) by lia. mstep. apply (do_read_open io _ f b (e_phoff h)); [exact Hv1|lia|lia|]. intros v2 Hv2. cbn beta iota. rewrite Z.eqb_refl. cbn [negb]. mstep.
  eapply runs_mono; [eapply (load_segments_spec io b f n Hb (segments b) _ Mp); [done|exact Hv2|exact Hsp]|]. intros r x' (-> & Mp' & pos' & G1 & G2 & G3 & G4 & G5). mstep. split; [done|]. exists Mp'. split_and!; try done.
Qed.


(** Back to a directory page that was kept. *)
Lemma arch_restore_spec ka x E pd (Q : Z -> exec -> Prop) : ok (x_mm x) E -> owned E pd -> Q (x_dir x) (set_x_dir (page_addr (x_mm x) pd) x) -> runs (arch_replace_mem ka (page_addr (x_mm x) pd)) x Q.
Proof.
  intros Hok Ho HQ. pose proof (page_addr_pos _ _ _ Hok Ho) as Hpos. destruct (owned_page _ _ _ Hok Ho) as (Hin & _ & k & Hk & Hk2 & Ek & Ep).
  unfold arch_replace_mem. mstep. mstep. mstep. apply in_mm_spec. rewrite (proj2 (Z.eqb_neq _ _)) by lia. cbn [negb]. unfold virt_to_page. mstep. apply runs_lift. rewrite Ek. apply virt_to_phys_window; [lia|done|]. rewrite Ep, Z.lor_0_r, phys_of_page.
  replace (set_kmap (Mm.kmap (x_mm x)) (x_mm x)) with (x_mm x) by by destruct (x_mm x). mstep. mstep. apply in_mm_spec. change (x_mm (set_x_mm (x_mm x) x)) with (x_mm x). apply page_to_virt_spec; [done|]. mstep. mstep. mstep.
  replace (set_x_mm (x_mm x) (set_x_mm (x_mm x) x)) with x by by destruct x. exact HQ.
Qed.

(** C22: a file of at least one byte that is not an ELF file is refused with -ENOEXEC (when one frame is free for the new directory), and the thread is back in its address space, every byte of
    which is as it was. *)
Theorem load_elf_refuses ka io x E F T Mp b bytes : VIRTUAL_BASE <= ka -> private (x_mm x) E (x_dir x) T Mp -> room (x_mm x) F 1 ->
  Forall (fun y => 0 <= y < 256) bytes -> bytes <> [] -> open_at (x_vfs x) (b_file b) bytes 0 -> is_elf bytes = false ->
  runs (load_elf ka io b) x (fun r x' => r = Failed (- ENOEXEC) /\ x_dir x' = x_dir x /\ x_argv x' = x_argv x /\ x_envp x' = x_envp x /\
    (exists E', private (x_mm x') E' (x_dir x') T Mp) /\ forall v, 0 <= v < VIRTUAL_BASE -> user_mem x' Mp v = user_mem x Mp v).
Proof.
  intros Hka Hp Hroom Hb Hne Ho Helf. pose proof (pv_ok _ _ _ _ _ Hp) as Hok. pose proof (pv_space _ _ _ _ _ Hp) as Hs. destruct (sp_dir _ _ _ _ _ Hs) as (pd & Opd & Epd & Htpd).
  unfold load_elf. mstep. apply (arch_replace_mem_spec ka Hka x E F 0); [done|apply Hp|done|]. intros s d E' Hg Hkeep (E1 & F1 & T1 & Hp1 & _). set (x1 := set_x_dir d (set_x_mm s x)) in *.
  pose proof (load_image_spec io x1 ∅ (b_file b) bytes 0 Hb Hne Ho) as H. rewrite Helf in H. mstep. eapply runs_mono; [exact H|]. intros r x2 (-> & v & ->). mstep. rewrite <- Epd. replace (page_addr (x_mm x) pd) with (page_addr (x_mm (set_x_vfs v x1)) pd) by (cbn; by apply (gr_addr _ _ _ _ Hg)).
  apply (arch_restore_spec ka _ E'); [apply Hg|by eapply owned_sub; [apply Hg|]|]. mstep. split; [done|]. cbn [x_dir set_x_dir x_argv x_envp set_x_vfs x1 set_x_mm x_mm x_kern]. split; [by rewrite (gr_addr _ _ _ _ Hg)|]. split; [done|]. split; [done|]. split.
  - exists E'. rewrite (gr_addr _ _ _ _ Hg), Epd by done. constructor; [apply Hg|exact (pv_bytes _ _ _ _ _ Hp1)|apply (space_frame (x_mm x) E); [done|done|..]| |exact (pv_inj _ _ _ _ _ Hp)].
    + intros a Ha. apply (Hkeep pd); [done|]. by rewrite Epd.
    + intros i t Ht a Ha. apply (Hkeep t); [|done]. by apply (sp_table _ _ _ _ _ _ _ Hs Ht).
    + intros y f Hf. destruct (pv_frame _ _ _ _ _ Hp _ _ Hf) as (Of & Hf0 & Hfd & Hft). split; [by eapply owned_sub; [apply Hg|]|]. split; [done|]. split; [by rewrite (gr_addr _ _ _ _ Hg)|done].
  - intros w Hw. unfold user_mem. rewrite !user_byte_page. destruct (Mp !! page_of w) as [g|] eqn:Hgm; [|done]. cbn. f_equal. destruct (pv_frame _ _ _ _ _ Hp _ _ Hgm) as (Og & _). rewrite (gr_addr _ _ _ _ Hg) by done. apply (Hkeep g); [done|].
    unfold in_page. rewrite pageoff_mod by (unfold VIRTUAL_BASE in *; lia). pose proof (Z.mod_pos_bound w PAGE_SIZE eq_refl). lia.
Qed.

(** ** String tables *)

(** The string at [a] of user memory [u]. *)
Definition string_in (u : Z -> option Z) (a : Z) (s : list Z) : Prop := forall k y, (s ++ [0]) !! k = Some y -> u (a + Z.of_nat k) = Some y.
Definition pointer_in (u : Z -> option Z) (a p : Z) : Prop := forall k y, le_bytes 4 p !! k = Some y -> u (a + Z.of_nat k) = Some y.

(** A table of pointers to the strings, and a null pointer. *)
Definition strtab_in (u : Z -> option Z) (start : Z) (tab : list (list Z)) : Prop :=
  (forall i s, tab !! i = Some s -> exists a, 0 < a < 2 ^ 32 /\ pointer_in u (start + 4 * Z.of_nat i) a /\ string_in u a s) /\ pointer_in u (start + 4 * Z.of_nat (length tab)) 0.

Definition strings_size (tab : list (list Z)) : Z := foldr (fun s n => Z.of_nat (length s) + 1 + n) 0 tab.

Definition bytes_ok (tab : list (list Z)) : Prop := Forall (Forall (fun y => 0 <= y < 256)) tab.

(** [u'] differs from [u] only in [[a, a + n)] and [[c, c + m)]. *)
Definition changed (a n e m : Z) (u u' : Z -> option Z) : Prop := forall w, 0 <= w < VIRTUAL_BASE -> ~ (a <= w < a + n) -> ~ (e <= w < e + m) -> u' w = u w.

Lemma strings_size_pos tab : 0 <= strings_size tab.
Proof. induction tab as [|s tab IH]; cbn [strings_size foldr]; [lia|]. change (foldr _ 0 tab) with (strings_size tab). lia. Qed.

Lemma written_in s E dir T Mp v l s' : written s E dir T Mp v l s' -> 0 <= v -> v + Z.of_nat (length l) <= VIRTUAL_BASE -> forall k y, l !! k = Some y -> user_byte s' Mp (v + Z.of_nat k) = Some y.
Proof.
  intros (_ & _ & Hw) Hv Hle k y Hk. pose proof (lookup_lt_Some _ _ _ Hk). rewrite Hw by lia. rewrite (proj2 (Z.leb_le _ _)), (proj2 (Z.ltb_lt _ _)) by lia. cbn [andb]. replace (Z.to_nat (v + Z.of_nat k - v)) with k by lia. done.
Qed.

Lemma written_out s E dir T Mp v l s' w : written s E dir T Mp v l s' -> 0 <= w < VIRTUAL_BASE -> ~ (v <= w < v + Z.of_nat (length l)) -> user_byte s' Mp w = user_byte s Mp w.
Proof. intros (_ & _ & Hw) Hr Hout. rewrite Hw by done. destruct (Z.leb_spec v w), (Z.ltb_spec w (v + Z.of_nat (length l))); cbn [andb]; done || lia. Qed.

Section Strtab.
Context (E : gset (Z * Z)) (dir : Z) (T : gmap Z Z) (Mp : gmap (Z * Z) Z).

Definition mapped (a n : Z) : Prop := forall w, a <= w < a + n -> is_Some (Mp !! page_of w).

Lemma fill_strtab_spec tab : forall s st e, private s E dir T Mp -> 0 <= st -> st + 4 * (Z.of_nat (length tab) + 1) <= e -> e + strings_size tab <= VIRTUAL_BASE ->
  mapped st (e + strings_size tab - st) -> bytes_ok tab ->
  runs (fill_strtab dir st e tab) s (fun r s' => r = (st + 4 * Z.of_nat (length tab), e + strings_size tab) /\ private s' E dir T Mp /\
    changed st (4 * Z.of_nat (length tab)) e (strings_size tab) (user_byte s Mp) (user_byte s' Mp) /\
    forall i str, tab !! i = Some str -> exists a, (e <= a /\ a + Z.of_nat (length str) + 1 <= e + strings_size tab) /\ pointer_in (user_byte s' Mp) (st + 4 * Z.of_nat i) a /\ string_in (user_byte s' Mp) a str).
Proof.
  induction tab as [|str tab IH]; intros s st e Hp Hst He Hle Hm Hb; cbn [fill_strtab].
  - mstep. split; [cbn; f_equal; lia|]. split; [done|]. split; [by intros w|]. intros i str. by rewrite lookup_nil.
  - cbn [length strings_size foldr] in *. change (foldr _ 0 tab) with (strings_size tab) in *. rewrite Nat2Z.inj_succ in *. apply Forall_cons in Hb as [Hb1 Hb]. pose proof (strings_size_pos tab) as Hpos. set (n := Z.of_nat (length str)) in *.
    assert (H32 : VIRTUAL_BASE < 2 ^ 32) by done. mstep. eapply runs_mono; [apply (put_user_bytes_spec (le_bytes 4 e) s E dir T Mp st Hp Hst)|].
    { rewrite length_le_bytes. lia. }
    { intros w Hw. rewrite length_le_bytes in Hw. apply Hm. lia. }
    { apply le_bytes_byte. }
    intros [] s1 W1. pose proof W1 as (_ & Hp1 & _). mstep. unfold strcpylen. mstep. assert (Hl : Z.of_nat (length (str ++ [0])) = n + 1) by (rewrite length_app; cbn; lia).
    eapply runs_mono; [apply (put_user_bytes_spec (str ++ [0]) s1 E dir T Mp e Hp1)|].
    { lia. }
    { lia. }
    { intros w Hw. apply Hm. lia. }
    { apply Forall_app. split; [exact Hb1|]. by constructor. }
    intros [] s2 W2. pose proof W2 as (_ & Hp2 & _). mstep. fold n. rewrite (uwrap_small 32 n), (uwrap_small 32 (st + 4)), (uwrap_small 32 (e + (n + 1))) by lia.
    assert (Hout : forall w, 0 <= w < VIRTUAL_BASE -> ~ st <= w < st + 4 -> ~ e <= w < e + (n + 1) -> user_byte s2 Mp w = user_byte s Mp w).
    { intros w Hw Ho1 Ho2. rewrite (written_out _ _ _ _ _ _ _ _ w W2) by (rewrite ?Hl; done). apply (written_out _ _ _ _ _ _ _ _ w W1); [done|]. by rewrite length_le_bytes. }
    eapply runs_mono; [apply (IH s2 (st + 4) (e + (n + 1)) Hp2)|]; [lia|lia|lia| |done|].
    { intros w Hw. apply Hm. lia. }
    intros r s3 (-> & Hp3 & Hc & Htab). split; [f_equal; lia|]. split; [done|]. split.
    + intros w Hw Ho1 Ho2. rewrite Hc by lia. apply Hout; lia.
    + intros [|i] str'; cbn [lookup list_lookup].
      * intros [= <-]. exists e. fold n. split; [lia|]. rewrite Z.mul_0_r, Z.add_0_r. split.
        -- intros k y Hk. pose proof (lookup_lt_Some _ _ _ Hk) as Hkl. rewrite length_le_bytes in Hkl. rewrite Hc by lia. rewrite (written_out _ _ _ _ _ _ _ _ _ W2) by (rewrite ?Hl; lia).
           apply (written_in _ _ _ _ _ _ _ _ W1); [done|rewrite length_le_bytes; lia|done].
        -- intros k y Hk. pose proof (lookup_lt_Some _ _ _ Hk) as Hkl. rewrite Hc by lia. apply (written_in _ _ _ _ _ _ _ _ W2); [lia|lia|done].
      * intros Hi. destruct (Htab i str' Hi) as (a & Ha & Hpt & Hs). exists a. split; [lia|]. split; [|done]. replace (st + 4 * Z.of_nat (S i)) with (st + 4 + 4 * Z.of_nat i) by lia. exact Hpt.
Qed.

Lemma build_strtab_spec s start tab : private s E dir T Mp -> 0 <= start -> start + 16 * Z.of_nat (length tab) + 4 + strings_size tab <= VIRTUAL_BASE ->
  mapped start (16 * Z.of_nat (length tab) + 4 + strings_size tab) -> bytes_ok tab ->
  runs (build_strtab dir start (Some tab)) s (fun r s' => r = (start + 16 * Z.of_nat (length tab) + 4 + strings_size tab, Z.of_nat (length tab)) /\ private s' E dir T Mp /\
    strtab_in (user_byte s' Mp) start tab /\ changed start (16 * Z.of_nat (length tab) + 4 + strings_size tab) 0 0 (user_byte s Mp) (user_byte s' Mp)).
Proof.
  intros Hp Hst Hle Hm Hb. pose proof (strings_size_pos tab) as Hpos. assert (H32 : VIRTUAL_BASE < 2 ^ 30 * 3 + 1) by done. unfold build_strtab, calculate_strtablen. set (n := Z.of_nat (length tab)) in *.
  rewrite (uwrap_small 32 n), (uwrap_small 32 (n * 4 + 1)) by lia. replace (start + 4 * (n * 4 + 1)) with (start + 16 * n + 4) by lia. rewrite (uwrap_small 32) by lia.
  mstep. eapply runs_read; [done|]. mstep. eapply runs_mono; [apply (fill_strtab_spec tab s start (start + 16 * n + 4) Hp Hst)|]; [lia|lia| |done|].
  { intros w Hw. apply Hm. lia. }
  intros r s1 (-> & Hp1 & Hc1 & Htab). fold n in Hc1 |- *. mstep. eapply runs_mono; [apply (put_user_bytes_spec (le_bytes 4 0) s1 E dir T Mp (start + 4 * n) Hp1)|].
  { lia. }
  { rewrite length_le_bytes. lia. }
  { intros w Hw. rewrite length_le_bytes in Hw. apply Hm. lia. }
  { apply le_bytes_byte. }
  intros [] s2 W. pose proof W as (_ & Hp2 & _). mstep. split; [done|]. split; [done|]. pose proof (fun w H1 H2 => written_out _ _ _ _ _ _ _ _ w W H1 H2) as Ho. rewrite length_le_bytes in Ho. split; [split|].
  - intros i str Hi. destruct (Htab i str Hi) as (a & Ha & Hpt & Hs). pose proof (lookup_lt_Some _ _ _ Hi) as Hil. exists a. split; [lia|]. split.
    + intros k y Hk. pose proof (lookup_lt_Some _ _ _ Hk) as Hkl. rewrite length_le_bytes in Hkl. rewrite Ho by lia. by apply Hpt.
    + intros k y Hk. pose proof (lookup_lt_Some _ _ _ Hk) as Hkl. rewrite length_app in Hkl. cbn [length] in Hkl. rewrite Ho by lia. by apply Hs.
  - fold n. intros k y Hk. pose proof (lookup_lt_Some _ _ _ Hk) as Hkl. rewrite length_le_bytes in Hkl. apply (written_in _ _ _ _ _ _ _ _ W); [lia|rewrite length_le_bytes; lia|done].
  - intros w Hw Ho1 _. rewrite Ho by lia. apply Hc1; [done|lia|lia].
Qed.

(** C21: the arguments of a program, and its environment, are laid out in user memory as a table of pointers to NUL-terminated strings that ends with
    a null pointer; the strings read back are those given, their number is returned, and no byte outside the table and the strings
    behind it changes.  The strings start three words too far for each argument. *)
Theorem build_strtab_correct s start tab : private s E dir T Mp -> 0 <= start -> start + 16 * Z.of_nat (length tab) + 4 + strings_size tab <= VIRTUAL_BASE ->
  mapped start (16 * Z.of_nat (length tab) + 4 + strings_size tab) -> bytes_ok tab ->
  runs (build_strtab dir start (Some tab)) s (fun r s' => r = (start + 16 * Z.of_nat (length tab) + 4 + strings_size tab, Z.of_nat (length tab)) /\ private s' E dir T Mp /\
    strtab_in (user_byte s' Mp) start tab /\ changed start (16 * Z.of_nat (length tab) + 4 + strings_size tab) 0 0 (user_byte s Mp) (user_byte s' Mp)).
Proof. apply build_strtab_spec. Qed.
End Strtab.


(** ** The first line of a script *)

Lemma cstr_nul m : forall s p, CString.cstr m p s -> m (p + Z.of_nat (length s)) = 0.
Proof. intros s. induction s as [|x s IH]; intros p H; cbn [length]; [by rewrite Z.add_0_r|]. destruct H as (_ & _ & H). rewrite <- (IH _ H). f_equal. lia. Qed.

(** A string cut short by a NUL. *)
Lemma cstr_cut m c s2 : forall s1 p, CString.cstr m p (s1 ++ c :: s2) -> CString.cstr (<[p + Z.of_nat (length s1) := 0]> m) p s1.
Proof.
  intros s1. induction s1 as [|x s1 IH]; intros p H; cbn [app length CString.cstr] in *; [by rewrite Z.add_0_r, fn_insert_eq|]. destruct H as (H1 & H2 & H3). split_and!; try lia.
  - by rewrite fn_insert_ne by lia.
  - replace (p + Z.of_nat (S (length s1))) with (p + 1 + Z.of_nat (length s1)) by lia. by apply IH.
Qed.

Lemma cstr_before m a v s p : CString.cstr m p s -> a < p \/ p + Z.of_nat (length s) < a -> CString.cstr (<[a := v]> m) p s.
Proof. intros H Ha. eapply cstr_ext; [exact H|]. intros b Hb. apply fn_insert_ne. lia. Qed.

Lemma string_at_cstr m : forall s fuel p, CString.cstr m p s -> (length s < fuel)%nat -> string_at m fuel p = s.
Proof.
  intros s. induction s as [|x s IH]; intros [|fuel] p H Hf; cbn [length] in Hf; try lia; cbn [string_at CString.cstr] in *; [by rewrite H|].
  destruct H as (-> & Hx & H). rewrite (proj2 (Z.eqb_neq _ _)) by lia. by rewrite IH by (done || lia).
Qed.

(** Skipping while [test] holds. *)
Lemma skip_spec (test : Z -> bool) s2 : forall s1 fuel m p, CString.cstr m p (s1 ++ s2) -> Forall (fun c => test c = true) s1 -> (match s2 with [] => True | c :: _ => test c = false end) -> (length s1 < fuel)%nat ->
  runs (iterM fuel (fun str => ch ← rd str; mret (if negb (ch =? 0) && test ch then inl (str + 1) else inr str)) p) m (fun r m' => r = p + Z.of_nat (length s1) /\ m' = m).
Proof.
  intros s1. induction s1 as [|x s1 IH]; intros [|fuel] m p H Ht Hs2 Hf; cbn [length app] in *; try lia; apply runs_iterM_S; unfold rd; msteps.
  - rewrite Z.add_0_r. destruct s2 as [|c s2]; cbn [CString.cstr] in H; [rewrite H; by split|]. destruct H as (-> & Hc & _). by rewrite Hs2, andb_false_r.
  - apply Forall_cons in Ht as [Hx Ht]. destruct H as (-> & Hc & H). rewrite Hx, (proj2 (Z.eqb_neq _ _)) by lia. cbn [negb andb]. eapply runs_mono; [apply (IH fuel m (p + 1)); [done|done|done|lia]|]. intros r m' [-> ->]. split; [lia|done].
Qed.

Lemma find_char_at c : forall s p rest, Forall (fun x => 0 < x < 256 /\ x <> c) s -> 0 < c < 128 -> find_char c p (s ++ c :: rest) = Some (p + Z.of_nat (length s)).
Proof.
  intros s. induction s as [|x s IH]; intros p rest Hs Hc; cbn [app find_char length].
  - replace (s8 c) with c by (symmetry; apply swrap_small; cbn; lia). by rewrite Z.eqb_refl, Z.add_0_r.
  - apply Forall_cons in Hs as [[Hx Hne] Hs]. rewrite (proj2 (Z.eqb_neq _ _)).
    + rewrite IH by done. f_equal. lia.
    + intros E. apply Hne. apply s8_byte_inj; [lia|lia|]. rewrite E. symmetry. apply swrap_small; cbn; lia.
Qed.

Definition plain (c : Z) : Prop := 0 < c < 256 /\ c <> 10.

(** A line as it is written: blanks, the interpreter, blanks, the argument. *)
Record script_line (b1 interp b2 arg : list Z) : Prop := ScriptLine {
  sl_blank1 : Forall (fun c => is_whitespace c = true) b1;
  sl_blank2 : Forall (fun c => is_whitespace c = true) b2;
  sl_interp : interp <> [] /\ Forall (fun c => plain c /\ is_whitespace c = false) interp;
  sl_arg : Forall plain arg /\ match arg with [] => True | c :: _ => is_whitespace c = false end;
  sl_sep : arg <> [] -> b2 <> [];
}.

Lemma blank_plain l : Forall (fun c => is_whitespace c = true) l -> Forall plain l.
Proof. intros H. eapply Forall_impl; [exact H|]. intros c Hc. unfold is_whitespace in Hc. apply orb_true_iff in Hc as [Hc%Z.eqb_eq|Hc%Z.eqb_eq]; subst; unfold plain; lia. Qed.

(** The first line of a script, however it is spaced, gives the interpreter and the argument that were written after the magic, the argument with its
    inner and trailing blanks. *)
Theorem parse_line_roundtrip lj b1 interp b2 arg rest : script_line b1 interp b2 arg -> Forall (fun c => 0 < c < 256) rest ->
  let l := SHEBANG_MAGIC ++ b1 ++ interp ++ b2 ++ arg ++ [10] ++ rest in Z.of_nat (length l) <= MAX_LINE_LEN ->
  runs (parse_line (Z.of_nat (length l))) (filled lj l) (fun r _ => r = Some (interp, arg)).
Proof.
  intros [Hb1 Hb2 [Hi0 Hi] [Ha Ha0] Hsep] Hrest l Hlen. unfold MAX_LINE_LEN in Hlen. unfold parse_line, wr. mstep. mstep. set (m0 := <[_ := u8 0]> _).
  pose proof (blank_plain _ Hb1) as Hb1p. pose proof (blank_plain _ Hb2) as Hb2p. assert (Hip : Forall plain interp) by (eapply Forall_impl; [exact Hi|]; by intros ? []).
  assert (Hbytes : Forall (fun c => 0 < c < 256) l).
  { unfold l, SHEBANG_MAGIC. rewrite !Forall_app. split_and!; try (eapply Forall_impl; [eassumption|]; by intros ? []); repeat constructor; lia. }
  assert (Hcs : CString.cstr m0 0 l).
  { assert (G : forall s pre, pre ++ s = l -> CString.cstr m0 (Z.of_nat (length pre)) s); [|by apply (G l [])]. intros s. induction s as [|x s IH]; intros pre E; cbn [CString.cstr].
    - rewrite app_nil_r in E. subst pre. unfold m0. by rewrite fn_insert_eq.
    - pose proof E as E'. assert (Hx : l !! length pre = Some x) by (rewrite <- E, lookup_app_r, Nat.sub_diag by lia; done). pose proof (lookup_lt_Some _ _ _ Hx). split; [|split].
      + unfold m0. rewrite fn_insert_ne by lia. unfold filled. rewrite Nat2Z.id, Hx. by rewrite (proj2 (Z.leb_le _ _)) by lia.
      + by apply (proj1 (Forall_lookup _ _) Hbytes (length pre)).
      + specialize (IH (pre ++ [x])). rewrite length_app in IH. cbn [length] in IH. replace (Z.of_nat (length pre) + 1) with (Z.of_nat (length pre + 1)) by lia. apply IH. by rewrite <- app_assoc. }
  unfold l in Hlen. rewrite !length_app in Hlen. cbn [length SHEBANG_MAGIC] in Hlen. unfold LINE_FUEL, MAX_LINE_LEN.
  assert (H2 : CString.cstr m0 2 (b1 ++ interp ++ b2 ++ arg ++ [10] ++ rest)) by apply (cstr_drop m0 SHEBANG_MAGIC 0 _ Hcs).
  assert (Hihd : match interp ++ b2 ++ arg ++ [10] ++ rest with [] => True | c :: _ => is_whitespace c = false end) by (destruct interp; [done|]; apply Forall_cons in Hi as [[_ ?] _]; done).
  mstep. unfold advance_past_whitespace at 1. eapply runs_mono; [apply (skip_spec is_whitespace _ b1 _ m0 2 H2 Hb1 Hihd); unfold LINE_FUEL, MAX_LINE_LEN; lia|]. intros r m [-> ->]. change SHEBANG_MAGIC_LEN with 2.
  apply cstr_drop in H2. set (p := 2 + Z.of_nat (length b1)) in *. mstep. eapply runs_mono; [apply (strchr_skips_first m0 10 _ p _ H2); rewrite !length_app; cbn [length]; lia|]. intros r m [-> ->].
  assert (Hfind : (match interp ++ b2 ++ arg ++ [10] ++ rest with [] => None | _ :: s' => find_char 10 (p + 1) (s' ++ [0]) end) = Some (p + Z.of_nat (length (interp ++ b2 ++ arg)))).
  { destruct interp as [|c interp]; [done|]. cbn [app]. apply Forall_cons in Hip as [_ Hip]. replace ((interp ++ b2 ++ arg ++ 10 :: rest) ++ [0]) with ((interp ++ b2 ++ arg) ++ 10 :: (rest ++ [0])) by (by rewrite <- !app_assoc).
    rewrite find_char_at; [cbn [length]; f_equal; lia| |lia]. rewrite !Forall_app. split_and!; done. }
  rewrite Hfind. cbn iota. mstep. mstep. set (e := p + Z.of_nat (length (interp ++ b2 ++ arg))) in *. change (u8 0) with 0.
  assert (H3 : CString.cstr (<[e := 0]> m0) p (interp ++ b2 ++ arg)).
  { apply (cstr_cut m0 10 rest). replace ((interp ++ b2 ++ arg) ++ 10 :: rest) with (interp ++ b2 ++ arg ++ [10] ++ rest) by by rewrite <- !app_assoc. exact H2. }
  set (m1 := <[e := 0]> m0) in *. mstep. unfold advance_to_whitespace.
  eapply runs_mono; [apply (skip_spec (fun c => negb (is_whitespace c)) (b2 ++ arg) interp _ m1 p H3)|].
  { eapply Forall_impl; [exact Hi|]. intros c [_ ->]. done. }
  { destruct b2 as [|c b2]; [|cbn [app]; apply Forall_cons in Hb2 as [-> _]; done]. destruct arg; [done|]. by destruct Hsep. }
  { unfold LINE_FUEL, MAX_LINE_LEN. lia. }
  intros r m [-> ->]. pose proof (cstr_drop _ _ _ _ H3) as H4. set (q := p + Z.of_nat (length interp)) in *. mstep. unfold rd at 1. mstep. mstep.
  destruct b2 as [|c b2].
  - assert (arg = []) as -> by (destruct arg; [done|]; by destruct Hsep). cbn [app CString.cstr] in H4. rewrite H4. cbn [negb Z.eqb]. mstep. mstep. mstep. mstep. mstep. do 2 f_equal.
    + apply string_at_cstr; [|lia]. rewrite !app_nil_r in H3. apply (cstr_ext m1); [done|]. intros b Hb. destruct (decide (q = b)) as [<-|]; [by rewrite fn_insert_eq|by rewrite fn_insert_ne].
    + apply string_at_cstr; [|cbn; lia]. cbn. by rewrite fn_insert_eq.
  - assert (Hc : m1 q <> 0) by (cbn [app CString.cstr] in H4; lia). rewrite (proj2 (Z.eqb_neq _ _) Hc). cbn [negb]. unfold advance_past_whitespace. eapply runs_mono; [apply (skip_spec is_whitespace arg (c :: b2) _ m1 q H4 Hb2 Ha0); unfold LINE_FUEL, MAX_LINE_LEN; lia|].
    intros r m [-> ->]. mstep. mstep. mstep. mstep. do 2 f_equal.
    + apply string_at_cstr; [|lia]. by apply (cstr_cut m1 c (b2 ++ arg)).
    + apply string_at_cstr; [|lia]. apply cstr_before; [by apply cstr_drop in H4|]. cbn [length]. lia.
Qed.

(** ** Nested loads *)

Section Nested.
Context (c junk ka : Z) (io : Z -> Z -> Z * list Z) (lj : mem).

(** The formats tried in turn, with two ways to load that agree on binaries [j] deep. *)
Lemma try_formats_agree j load load' :
  (forall fmt b x, iterations b = j -> load fmt b x = load' fmt b x /\ forall b' x', load fmt b x = Done ((Failed (- ENOEXEC), b'), x') -> iterations b' = j) ->
  forall l b x, iterations b = j -> try_formats load l b x = try_formats load' l b x /\ forall b' x', try_formats load l b x = Done ((Failed (- ENOEXEC), b'), x') -> iterations b' = u32 (j - 1).
Proof.
  intros Hag l. induction l as [|fmt l IH]; intros b x Hi; cbn [try_formats].
  - split; [done|]. intros b' x' [= <- <-]. cbn. by rewrite Hi.
  - destruct (Hag fmt b x Hi) as [E Hk]. unfold mbind, M_bind. rewrite <- E. destruct (load fmt b x) as [[[[e|ip sp ar ua ue] b1] x1]| | |]; try done.
    destruct (Z.eqb_spec e (- ENOEXEC)) as [->|Hne]; [apply IH; by eapply Hk|]. split; [done|]. intros b' x'. unfold BUG_ON. destruct (e =? 0); [done|]. intros [= -> _ _]. done.
Qed.

Lemma binfmt_load_agree out out' k : forall b fuel fuel' x, 0 <= iterations b -> iterations b + Z.of_nat k = MAX_LOAD_DEPTH + 1 -> (k < fuel)%nat -> (k < fuel')%nat ->
  binfmt_load c junk ka io lj out fuel b x = binfmt_load c junk ka io lj out' fuel' b x /\
  forall b' x', binfmt_load c junk ka io lj out fuel b x = Done ((Failed (- ENOEXEC), b'), x') -> iterations b' = iterations b.
Proof.
  unfold MAX_LOAD_DEPTH. induction k as [|k IH]; intros b [|n] [|n'] x H0 Hk H1 H2; try lia; cbn [binfmt_load]; unfold MAX_LOAD_DEPTH.
  - rewrite Z.gtb_ltb, (proj2 (Z.ltb_lt _ _)) by lia. split; [done|]. intros b' x' [= ? ?].
  - rewrite Z.gtb_ltb, (proj2 (Z.ltb_ge _ _)) by lia. change (mbind ?f (gets x_binfmts) x) with (f (x_binfmts x) x). cbn beta.
    set (b1 := Binary _ _ _ _). assert (Hb1 : iterations b1 = iterations b + 1) by (cbn; apply uwrap_small; lia).
    destruct (try_formats_agree (iterations b + 1) (load_with c junk ka io lj (binfmt_load c junk ka io lj out n)) (load_with c junk ka io lj (binfmt_load c junk ka io lj out' n'))) with (l := x_binfmts x) (b := b1) (x := x) as [E Hd].
    + intros fmt b2 x2 Hb2. destruct fmt; cbn [load_with]; unfold load_shebang, mbind, M_bind, mret, M_ret.
      * split; [done|]. intros b' x'. destruct (load_elf _ _ _ _) as [[r x3]| | |]; try done. intros [= _ <- _]. done.
      * destruct (prepare_shebang c junk io lj b2 x2) as [[[e|b3] x3]| | |] eqn:Ep; try done.
        -- split; [done|]. intros b' x' [= _ <- _]. done.
        -- assert (Hb3 : iterations b3 = iterations b2).
           { clear -Ep. unfold prepare_shebang, mbind, M_bind, mret, M_ret in Ep. repeat (case_match; simplify_eq; try done). }
           destruct (IH b3 n n' x3) as [E Hd]; [lia|lia|lia|lia|]. split; [exact E|]. intros b' x' Hr. rewrite (Hd b' x' Hr). lia.
    + done.
    + split; [exact E|]. intros b' x' Hr. rewrite (Hd b' x' Hr), Z.add_simpl_r. apply uwrap_small. lia.
Qed.

(** C23: a load comes back, or enters user space, whatever the files say: scripts whose interpreters are scripts are followed at most [MAX_LOAD_DEPTH] + 1
    deep, so that a load nested any deeper -- [out] -- never happens. *)
Theorem binfmt_load_bounded out fuel f argv envp x :
  binfmt_load c junk ka io lj out (LOAD_FUEL + fuel) (alloc_binary f argv envp) x = binfmt_load c junk ka io lj panic LOAD_FUEL (alloc_binary f argv envp) x.
Proof. apply (binfmt_load_agree out panic 6); unfold LOAD_FUEL, MAX_LOAD_DEPTH; cbn; lia. Qed.
End Nested.

(** ** Examples *)

(** A program of one segment: three bytes at 0x8048000, five in memory. *)
Definition elf1 : list Z :=
  ELFMAG ++ [1; 1; 1] ++ replicate 9 0 ++ le_bytes 2 2 ++ le_bytes 2 EM_386 ++ le_bytes 4 1 ++ le_bytes 4 0x8048000 ++ le_bytes 4 52 ++ replicate 12 0 ++ le_bytes 2 1 ++ replicate 6 0 ++
  le_bytes 4 PT_LOAD ++ le_bytes 4 84 ++ le_bytes 4 0x8048000 ++ le_bytes 4 0 ++ le_bytes 4 3 ++ le_bytes 4 5 ++ replicate 8 0 ++ [7; 8; 9].

(** The file [a] of the example file systems, with contents [d]. *)
Lemma file_with (d : list Z) : Z.of_nat (length d) < 1024 -> d <> [] -> exists s f, open_at s f d 0.
Proof.
  intros Hd Hne. destruct (proj1 (runs_Done _ _ _) (vfs_open_file_spec 0 fs2 _ _ _ _ _ fs2_file)) as (f & s1 & _ & _ & H1).
  assert (Hl : 0 < Z.of_nat (length d)) by (destruct d; [done|cbn; lia]). pose proof (vfs_write_open (fun _ => 0) s1 f [] 0 d H1 ltac:(lia)) as Hw. destruct (proj1 (runs_Done _ _ _) Hw) as (r & s2 & _ & _ & H2).
  assert (E : overwrite [] 0 d = d) by (unfold overwrite; cbn; by rewrite drop_nil, app_nil_r). rewrite E in H2.
  pose proof (vfs_seek_open s2 f d (0 + Z.of_nat (length d)) 0 H2 ltac:(lia)) as Hs. rewrite (proj2 (Z.leb_le _ _)), (proj2 (Z.eqb_neq _ _)) in Hs by lia. cbn [andb negb] in Hs.
  destruct (proj1 (runs_Done _ _ _) Hs) as (r' & s3 & _ & _ & H3). by exists s3, f.
Qed.

Definition exec0 (v : vfs) : exec := Exec (Kern sched2 v) pool8 0 [binfmt_elf; binfmt_shebang] None None.

Lemma exec0_room v : ok (x_mm (exec0 v)) ∅ /\ byte_mem (vmem (x_mm (exec0 v))) /\ room (x_mm (exec0 v)) free8 8.
Proof. split; [exact (proj1 pool8_ok)|]. split; [exact pool8_bytes|exact pool8_room]. Qed.

Lemma elf1_ok : elf_ok elf1.
Proof.
  constructor.
  - split; [by vm_compute|]. split; [by vm_compute|]. intros [H _]. vm_compute in H. discriminate H.
  - by vm_compute.
  - constructor; [|constructor]. right. constructor; vm_compute; try done. by split; [|split; [|intros [? _]]].
Qed.


(** A thread with an empty address space, and a page at [UARGS_ADDR_START]. *)
Lemma fresh_thread v : exists x E F T, x_vfs x = v /\ private (x_mm x) E (x_dir x) T ∅ /\ room (x_mm x) F 7.
Proof.
  destruct (exec0_room v) as (H1 & H2 & H3).
  assert (H : runs (arch_replace_mem 0xC0100000 0) (exec0 v) (fun _ x => x_vfs x = v /\ user_space x ∅ 7)).
  { apply (arch_replace_mem_spec 0xC0100000 ltac:(by vm_compute) (exec0 v) ∅ free8 7); [exact H1|exact H2|exact H3|]. intros s d E' _ _ Hu. split; [reflexivity|exact Hu]. }
  destruct (proj1 (runs_Done _ _ _) H) as (r & x & _ & Hv & E & F & T & Hp & Hr). exists x, E, F, T. split; [exact Hv|]. split; [exact Hp|exact Hr].
Qed.

Lemma load_elf_refuses_witness : exists x, runs (load_elf 0xC0100000 (fun _ _ => (0, [])) (Binary (Fs.fresh fs2) None None 0)) x (fun r x' => r = Failed (- ENOEXEC) /\ x_dir x' = x_dir x).
Proof.
  destruct (proj1 (runs_Done _ _ _) (vfs_open_file_spec 0 fs2 _ _ _ _ _ fs2_file)) as (f & s1 & _ & -> & H1).
  pose proof (vfs_write_open (fun _ => 0) s1 _ [] 0 [7; 8; 9] H1 ltac:(by vm_compute)) as Hw. destruct (proj1 (runs_Done _ _ _) Hw) as (r & s2 & _ & _ & H2).
  pose proof (vfs_seek_open s2 _ _ _ 0 H2 ltac:(lia)) as Hs. cbn iota in Hs. destruct (proj1 (runs_Done _ _ _) Hs) as (r' & s3 & _ & _ & H3).
  destruct (fresh_thread s3) as (x & E & F & T & Hv & Hp & Hr). exists x.
  eapply runs_mono; [apply (load_elf_refuses 0xC0100000 (fun _ _ => (0, [])) x E F T ∅ (Binary (Fs.fresh fs2) None None 0) [7; 8; 9])|].
  - by vm_compute.
  - exact Hp.
  - eapply room_le; [exact Hr|lia].
  - repeat constructor; lia.
  - discriminate.
  - rewrite Hv. exact H3.
  - vm_compute. reflexivity.
  - intros r2 x' (Hr2 & Hd & _). by split.
Defined.

Lemma build_strtab_correct_witness : exists s dir Mp, runs (build_strtab dir UARGS_ADDR_START (Some [[97; 98]; []])) s (fun r s' => r.2 = 2 /\ strtab_in (user_byte s' Mp) UARGS_ADDR_START [[97; 98]; []]).
Proof.
  destruct (fresh_thread fs2) as (x & E & F & T & _ & Hp & Hr).
  pose proof (private_map (x_mm x) E F (x_dir x) T ∅ UARGS_ADDR_START 5 Hp ltac:(by vm_compute) (lookup_empty _) Hr) as H. destruct (proj1 (runs_Done _ _ _) H) as (q & s & _ & E' & F' & T' & p & Hp' & _).
  exists s, (x_dir x), (<[page_of UARGS_ADDR_START := p]> ∅). eapply runs_mono; [apply (build_strtab_correct E' (x_dir x) T' (<[page_of UARGS_ADDR_START := p]> ∅) s UARGS_ADDR_START [[97; 98]; []])|].
  - exact Hp'.
  - by vm_compute.
  - by vm_compute.
  - intros w Hw. cbn in Hw. replace (page_of w) with (page_of UARGS_ADDR_START); [rewrite lookup_insert_eq; by eexists|]. apply page_of_eq; [by vm_compute|unfold UARGS_ADDR_START, VIRTUAL_BASE in *; lia|].
    apply Z.div_unique_pos with (w - UARGS_ADDR_START); [unfold UARGS_ADDR_START, PAGE_SIZE in *; lia|]. change (UARGS_ADDR_START / PAGE_SIZE) with 0xB8000. unfold UARGS_ADDR_START, PAGE_SIZE. lia.
  - apply (bool_decide_unpack _). vm_compute. exact I.
  - intros r s' (-> & _ & Hs & _). by split.
Defined.

Lemma parse_line_roundtrip_witness : runs (parse_line 14) (filled (fun _ => 0) [35; 33; 32; 47; 98; 47; 115; 104; 32; 45; 120; 32; 10; 10]) (fun r _ => r = Some ([47; 98; 47; 115; 104], [45; 120; 32])).
Proof.
  refine (parse_line_roundtrip (fun _ => 0) [32] [47; 98; 47; 115; 104] [32] [45; 120; 32] [10] _ _ _).
  - constructor; repeat split; try discriminate; repeat constructor; discriminate.
  - repeat constructor.
  - discriminate.
Defined.
