(* ===== verification/Disk.v ===== *)
(** * Disk: disks, their labels and partitions (kernel/src/fs/disk.c, subblock.c, label/msdos.c, label/gpt.c)

    A block device is an interface: a size, reads, writes and their laws.  A driver's device is an argument; a partition is the instance that
    subblock.c makes of the device below it, so that the theorems on partitions need only the interface.  The state is a device's and the
    file systems', where the partitions are entered as devices; the buffers a probe reads into are values. *)

From S2P Require Import Prelude Words CString Printf Fs.

(** ** Block devices *)

(** Blocks [b .. b+n) of a device. *)
Definition blocks_from (c : Z -> list Z) (b n : Z) : list Z := seqZ b n ≫= c.

(** [bd_read] answers a number of blocks and the bytes, [bd_write] takes the bytes and answers a number of blocks.  The laws are for requests of 1 to
    [bd_max] blocks of the device; for others a driver may do anything.  A request may fail: only when the answer is the number asked for
    is anything known of the blocks; but no other block changes. *)
Class BlockDevice (D : Type) := {
  bd_size : Z;
  bd_block_size : Z;
  bd_max : Z;
  bd_read : Z -> Z -> M D (Z * list Z);
  bd_write : list Z -> Z -> Z -> M D Z;
  bd_contents : D -> Z -> list Z;
  bd_size_range : 0 <= bd_size < 2 ^ 32;
  bd_block_size_range : 0 < bd_block_size < 2 ^ 32;
  bd_block_length : forall d b, Z.of_nat (length (bd_contents d b)) = bd_block_size;
  bd_max_pos : 1 <= bd_max;
  bd_read_ok : forall d b n, 0 <= b -> 0 < n <= bd_max -> b + n <= bd_size ->
    runs (bd_read b n) d (fun r d' => (forall i, bd_contents d' i = bd_contents d i) /\ (r.1 = n -> r.2 = blocks_from (bd_contents d) b n));
  bd_write_ok : forall d l b n, 0 <= b -> 0 < n <= bd_max -> b + n <= bd_size -> Z.of_nat (length l) = n * bd_block_size ->
    runs (bd_write l b n) d (fun r d' => (r = n -> blocks_from (bd_contents d') b n = l) /\ forall i, ~ (b <= i < b + n) -> bd_contents d' i = bd_contents d i);
}.

(** ** subblock.c *)

Record sub_device := SubDevice { sub_start : Z; sub_size : Z; sub_block_size : Z }.

Section Sub.
Context {D : Type} `{BlockDevice D}.

Definition subblock_device_open (start size : Z) : sub_device := SubDevice start size bd_block_size.

Definition subblock_read (v : sub_device) (block count : Z) : M D (Z * list Z) :=
  if block >=? sub_size v then mret (-1, []) else bd_read (u32 (block + sub_start v)) count.
Definition subblock_write (v : sub_device) (buff : list Z) (block count : Z) : M D Z :=
  if block >=? sub_size v then mret (-1) else bd_write buff (u32 (block + sub_start v)) count.
End Sub.

(** ** disk.c *)

Inductive disk_label := msdos_label | gpt_label.

(** A device, the file systems, the partitions made, and the labels registered. *)
Record disks (D : Type) := Disks { dk_dev : D; dk_vfs : vfs; dk_subs : gmap Z sub_device; dk_labels : list disk_label; dk_lock : bool }.
Arguments Disks {D}. Arguments dk_dev {D}. Arguments dk_vfs {D}. Arguments dk_subs {D}. Arguments dk_labels {D}. Arguments dk_lock {D}.

Section Labels.
Context {D : Type} `{BD : BlockDevice D} (junk : Z).

Definition in_dev {A} (m : M D A) : M (disks D) A := lift dk_dev (fun t s => Disks t (dk_vfs s) (dk_subs s) (dk_labels s) (dk_lock s)) m.
Definition in_fs {A} (m : M vfs A) : M (disks D) A := lift dk_vfs (fun t s => Disks (dk_dev s) t (dk_subs s) (dk_labels s) (dk_lock s)) m.
Definition put_sub (k : Z) (v : sub_device) : M (disks D) unit := modify (fun s => Disks (dk_dev s) (dk_vfs s) (<[k := v]> (dk_subs s)) (dk_labels s) (dk_lock s)).
Definition with_labels {A} (m : M (disks D) A) : M (disks D) A := locked (fun s => Some (dk_lock s)) (fun v s => Disks (dk_dev s) (dk_vfs s) (dk_subs s) (dk_labels s) v) m.

Definition register_disk_label (l : disk_label) : M (disks D) unit := with_labels (modify (fun s => Disks (dk_dev s) (dk_vfs s) (dk_subs s) (l :: dk_labels s) (dk_lock s))).

(** Decimal digits of a byte; three rounds are enough. *)
Definition num_digits (number : Z) : M (disks D) Z :=
  iterM 4 (fun '(number, digits) => if negb (number =? 0) then mret (inl (number / 10, digits + 1)) else mret (inr digits)) (number, 0).

(** What [sprintf] writes for ["%s%s%u"]. *)
Definition part_text (name : list Z) (sep : bool) (number : Z) : list Z := name ++ (if sep then [112] else []) ++ (charset <$> numeral 10 number).

(** The text and its NUL must fit the buffer made for it. *)
Definition register_partition (name : list Z) (number start size : Z) : M (disks D) unit :=
  let device_name_len := u32 (Z.of_nat (length name)) in
  last ← read (fun _ => name !! Z.to_nat (device_name_len - 1));
  _ ← read (fun _ => if 0 <? device_name_len then Some tt else None);
  n ← num_digits number;
  let part_size := u32 (device_name_len + n + (if isdigit last then 2 else 1)) in
  let text := part_text name (isdigit last) number in
  _ ← read (fun _ => if Z.of_nat (length text) + 1 <=? part_size then Some tt else None);
  sub ← in_fs new_addr;
  put_sub sub (subblock_device_open start size);;
  in_fs (devfs_add_dev junk sub BLCK_DEV text).

(** ** msdos.c *)

Definition NUM_PARTITIONS : Z := 4.
Definition MSDOS_HEADER_SECTOR : Z := 0.
Definition MSDOS_MAGIC : Z := 0xAA55.
Definition AIX_MAGIC : Z := 0xC1D4C2C9.
Definition PART_STATUS_ACTIVE : Z := 0x80.
Definition PART_STATUS_INACTIVE : Z := 0x00.
Definition PART_TYPE_EMPTY : Z := 0x00.
Definition PART_TYPE_GPT : Z := 0xee.

(** Field of [n] bytes at [o]. *)
Definition bytes_field (l : list Z) (o n : nat) : Z := of_le_bytes (take n (drop o l)).

Record mbr_part := MbrPart { mp_status : Z; mp_type : Z; mp_start : Z; mp_length : Z }.
Record mbr := Mbr { mbr_code : list Z; mbr_sig : Z; mbr_zero : Z; mbr_parts : list mbr_part; mbr_magic : Z }.
Definition MBR_SIZE : Z := 512.

Definition mbr_part_of (l : list Z) : mbr_part := MbrPart (bytes_field l 0 1) (bytes_field l 4 1) (bytes_field l 8 4) (bytes_field l 12 4).
Definition mbr_of (l : list Z) : mbr :=
  Mbr (take 440 l) (bytes_field l 440 4) (bytes_field l 444 2) ((fun i => mbr_part_of (take 16 (drop (446 + 16 * i) l))) <$> [0; 1; 2; 3]%nat) (bytes_field l 510 2).

Definition maybe_fat (m : mbr) : bool :=
  let c := mbr_code m in
  if negb ((bytes_field c 0 1 =? 0xeb) || (bytes_field c 0 1 =? 0xe9)) then false
  else
    let sector_size := swap_uint16 (bytes_field c 11 2) in
    if negb ((sector_size =? 512) || (sector_size =? 1024) || (sector_size =? 2048) || (sector_size =? 4096)) then false
    else (bytes_field c 21 1 =? 0xf0) || (bytes_field c 21 1 =? 0xf8).

(** The partitions that are active, unless a status is neither. *)
Fixpoint count_active (l : list mbr_part) (num_active : Z) : option Z :=
  match l with
  | [] => Some num_active
  | p :: l' => if mp_status p =? PART_STATUS_ACTIVE then count_active l' (u8 (num_active + 1)) else if negb (mp_status p =? PART_STATUS_INACTIVE) then None else count_active l' num_active
  end.

Fixpoint register_parts (name : list Z) (i : Z) (l : list mbr_part) : M (disks D) unit :=
  match l with
  | [] => mret tt
  | p :: l' => (if negb (mp_type p =? PART_TYPE_EMPTY) then register_partition name (u8 (i + 1)) (mp_start p) (mp_length p) else mret tt);; register_parts name (u8 (i + 1)) l'
  end.

Definition msdos_probe (name : list Z) : M (disks D) bool :=
  if bd_block_size <? MBR_SIZE then mret false
  else
    '(n, l) ← in_dev (bd_read MSDOS_HEADER_SECTOR 1);
    if negb (n =? 1) then mret false
    else
      let m := mbr_of l in
      if negb (mbr_magic m =? MSDOS_MAGIC) then mret false
      else
        match count_active (mbr_parts m) 0 with
        | None => mret false
        | Some num_active =>
            if (num_active =? 0) && maybe_fat m then mret false
            else if existsb (fun p => mp_type p =? PART_TYPE_GPT) (mbr_parts m) then mret false
            else if bytes_field (mbr_code m) 0 4 =? AIX_MAGIC then mret false
            else register_parts name 0 (mbr_parts m);; mret true
        end.

(** ** gpt.c *)

Definition GPT_HEADER_SECTOR : Z := 1.
Definition GPT_SIGNATURE : list Z := [69; 70; 73; 32; 80; 65; 82; 84].
Definition PART_TYPE_UNUSED : list Z := replicate 16 0.
Definition PART_TYPE_UEFI : list Z := [0x28; 0x73; 0x2A; 0xC1; 0x1F; 0xF8; 0xD2; 0x11; 0xBA; 0x4B; 0x00; 0xA0; 0xC9; 0x3E; 0xC9; 0x3B].
Definition PART_TYPE_LINUX_DATA : list Z := [0xA2; 0xA0; 0xD0; 0xEB; 0xE5; 0xB9; 0x33; 0x44; 0x87; 0xC0; 0x68; 0xB6; 0xB7; 0x26; 0x99; 0xC7].
Definition PART_TYPE_LINUX_SWAP : list Z := [0x6D; 0xFD; 0x57; 0x06; 0xAB; 0xA4; 0xC4; 0x43; 0x84; 0xE5; 0x09; 0x33; 0xC8; 0x4B; 0x4F; 0x4F].
Definition PART_TYPE_WINDOWS_DATA : list Z := [0xAF; 0x3D; 0xC6; 0x0F; 0x83; 0x84; 0x72; 0x47; 0x8E; 0x79; 0x3D; 0x69; 0xD8; 0x47; 0x7D; 0xE4].

Record gpt_header := GptHeader { gh_sig : list Z; gh_part_lba : Z; gh_part_count : Z; gh_part_size : Z }.
Definition GPT_HEADER_SIZE : Z := 92.
Definition gpt_header_of (l : list Z) : gpt_header := GptHeader (take 8 l) (bytes_field l 72 8) (bytes_field l 80 4) (bytes_field l 84 4).

Record gpt_part := GptPart { gp_type : list Z; gp_first_lba : Z; gp_last_lba : Z }.
Definition gpt_part_of (e : list Z) : gpt_part := GptPart (take 16 e) (bytes_field e 32 8) (bytes_field e 40 8).

(** The first [n] bytes of the entry at [off] of the table. *)
Definition gpt_part_at (l : list Z) (off n : Z) : option gpt_part :=
  if (0 <=? off) && (off + n <=? Z.of_nat (length l)) then Some (gpt_part_of (drop (Z.to_nat off) l)) else None.

Definition gpt_data (t : list Z) : bool := bool_decide (t = PART_TYPE_UEFI) || bool_decide (t = PART_TYPE_LINUX_DATA) || bool_decide (t = PART_TYPE_WINDOWS_DATA).

(** Entry [i], at [off] of the table; other types are passed over. *)
Definition gpt_round (name : list Z) (h : gpt_header) (table : list Z) (v : Z * Z) : M (disks D) (Z * Z + unit) :=
  let '(i, off) := v in
  if negb (i <? gh_part_count h) then mret (inr tt)
  else
    p ← read (fun _ => gpt_part_at table off 16);
    (if gpt_data (gp_type p) then p ← read (fun _ => gpt_part_at table off 48); register_partition name (u8 (i + 1)) (u32 (gp_first_lba p)) (u32 (gp_last_lba p - gp_first_lba p)) else mret tt);;
    mret (inl (u8 (i + 1), off + gh_part_size h)).

Definition gpt_probe (name : list Z) : M (disks D) bool :=
  if bd_block_size <? GPT_HEADER_SIZE then mret false
  else
    '(n, l) ← in_dev (bd_read GPT_HEADER_SECTOR 1);
    if negb (n =? 1) then mret false
    else
      let h := gpt_header_of l in
      if negb (bool_decide (gh_sig h = GPT_SIGNATURE)) then mret false
      else
        let sectors := s32 (DIV_UP (u32 (gh_part_size h * gh_part_count h)) bd_block_size) in
        '(n, table) ← in_dev (bd_read (u32 (gh_part_lba h)) sectors);
        if negb (n =? sectors) then mret false
        else iterM 257 (gpt_round name h table) (0, 0);; mret true.

Definition probe (l : disk_label) (name : list Z) : M (disks D) bool := match l with msdos_label => msdos_probe name | gpt_label => gpt_probe name end.

Fixpoint probe_labels (name : list Z) (l : list disk_label) : M (disks D) unit :=
  match l with [] => mret tt | x :: l' => ok ← probe x name; if (ok : bool) then mret tt else probe_labels name l' end.
Definition register_disk (name : list Z) : M (disks D) unit := s ← get; probe_labels name (dk_labels s).
End Labels.

(** ** Partitions are block devices *)

Section SubDevice.
Context {D : Type} `{BD : BlockDevice D}.

(** A partition that lies in the device. *)
Record sub_ok (v : sub_device) : Prop := SubOk {
  so_start : 0 <= sub_start v;
  so_size : 0 <= sub_size v;
  so_fit : sub_start v + sub_size v <= bd_size;
}.

Definition sub_contents (v : sub_device) (d : D) (b : Z) : list Z := bd_contents d (sub_start v + b).

Lemma blocks_shift v d b n : blocks_from (bd_contents d) (b + sub_start v) n = blocks_from (sub_contents v d) b n.
Proof.
  unfold blocks_from, sub_contents. replace (seqZ (b + sub_start v) n) with (Z.add (sub_start v) <$> seqZ b n) by (rewrite fmap_add_seqZ; f_equal; lia).
  generalize (seqZ b n). intros l. induction l as [|x l IH]; [done|]. cbn. by rewrite <- IH.
Qed.

Lemma sub_u32 v b : sub_ok v -> 0 <= b -> b < sub_size v -> u32 (b + sub_start v) = b + sub_start v.
Proof. intros [] Hb Hlt. pose proof bd_size_range. apply uwrap_small. lia. Qed.

Lemma subblock_read_ok v d b n : sub_ok v -> 0 <= b -> 0 < n <= bd_max -> b + n <= sub_size v ->
  runs (subblock_read v b n) d (fun r d' => (forall i, bd_contents d' i = bd_contents d i) /\ (r.1 = n -> r.2 = blocks_from (sub_contents v d) b n)).
Proof.
  intros Hv Hb Hn Hle. unfold subblock_read. rewrite Z.geb_leb, (proj2 (Z.leb_gt _ _)) by lia. rewrite (sub_u32 v b) by (done || lia). rewrite <- blocks_shift. destruct Hv. apply bd_read_ok; lia.
Qed.

Lemma subblock_write_ok v d l b n : sub_ok v -> 0 <= b -> 0 < n <= bd_max -> b + n <= sub_size v -> Z.of_nat (length l) = n * bd_block_size ->
  runs (subblock_write v l b n) d (fun r d' => (r = n -> blocks_from (sub_contents v d') b n = l) /\ forall i, ~ (sub_start v + b <= i < sub_start v + b + n) -> bd_contents d' i = bd_contents d i).
Proof.
  intros Hv Hb Hn Hle Hl. unfold subblock_write. rewrite Z.geb_leb, (proj2 (Z.leb_gt _ _)) by lia. rewrite (sub_u32 v b) by (done || lia). pose proof Hv as [].
  eapply runs_mono; [apply (bd_write_ok d l (b + sub_start v) n); lia|]. intros r d' (H1 & H2). split; [by rewrite <- blocks_shift|]. intros i Hi. apply H2. lia.
Qed.

(** Beyond its end a partition is not there. *)
Lemma subblock_read_beyond v d b n : sub_size v <= b -> subblock_read v b n d = Done ((-1, []), d).
Proof. intros Hb. unfold subblock_read. by rewrite Z.geb_leb, (proj2 (Z.leb_le _ _)). Qed.
Lemma subblock_write_beyond v d l b n : sub_size v <= b -> subblock_write v l b n d = Done (-1, d).
Proof. intros Hb. unfold subblock_write. by rewrite Z.geb_leb, (proj2 (Z.leb_le _ _)). Qed.
End SubDevice.

Lemma blocks_from_ext c c' b n : (forall i, b <= i < b + n -> c i = c' i) -> blocks_from c b n = blocks_from c' b n.
Proof.
  intros Hc. unfold blocks_from. assert (Hall : Forall (fun i => c i = c' i) (seqZ b n)) by (apply Forall_forall; intros i Hi%elem_of_seqZ; by apply Hc).
  induction Hall as [|i l Hi _ IH]; [done|]. cbn. by rewrite Hi, IH.
Qed.

(** What reading [n] blocks at [b] through the partition [v] may answer, when the device holds [c]. *)
Definition reads_as {D} `{BlockDevice D} (v : sub_device) (c : D) (b n : Z) (r : Z * list Z) : Prop :=
  if b <? sub_size v then r.1 = n -> r.2 = blocks_from (sub_contents v c) b n else r = (-1, []).

Lemma subblock_read_as {D} `{BlockDevice D} v d b n : sub_ok v -> 0 <= b -> 0 < n <= bd_max -> (b < sub_size v -> b + n <= sub_size v) ->
  runs (subblock_read v b n) d (fun r d' => (forall i, bd_contents d' i = bd_contents d i) /\ reads_as v d b n r).
Proof.
  intros Hv Hb Hn Hle. unfold reads_as. destruct (Z.ltb_spec b (sub_size v)); [by apply subblock_read_ok; auto|]. unfold runs. by rewrite subblock_read_beyond.
Qed.

Lemma reads_as_ext {D} `{BlockDevice D} v c c' b n r : (b < sub_size v -> forall i, b <= i < b + n -> bd_contents c (sub_start v + i) = bd_contents c' (sub_start v + i)) -> reads_as v c b n r -> reads_as v c' b n r.
Proof.
  intros Hc. unfold reads_as. destruct (Z.ltb_spec b (sub_size v)); [|done]. intros Hr Hn. rewrite (Hr Hn). apply blocks_from_ext. intros i Hi. by apply Hc.
Qed.

(** C32: partitions keep apart.  A block number that is not in the partition is refused with -1 and the device is left alone, by reads and by writes.
    A write that begins in the partition, and does not reach over its end, changes no block but those asked for, so that nothing read through a partition that does not overlap it
    changes; when it and a read that follows answer the number of blocks, the bytes written are read back.  This is for requests of 1 to [bd_max] blocks;
    only the first block of a request is tested, so that a longer write leaves the partition ([subblock_write_escapes]). *)
Theorem partitions_keep_apart {D} `{BlockDevice D} v w d l b n b' n' : sub_ok v -> sub_ok w -> sub_start v + sub_size v <= sub_start w \/ sub_start w + sub_size w <= sub_start v ->
  0 <= b -> 0 < n <= bd_max -> (b < sub_size v -> b + n <= sub_size v) -> Z.of_nat (length l) = n * bd_block_size ->
  0 <= b' -> 0 < n' <= bd_max -> (b' < sub_size w -> b' + n' <= sub_size w) ->
  runs (r ← subblock_write v l b n; x ← subblock_read v b n; y ← subblock_read w b' n'; mret (r, x, y)) d (fun '(r, x, y) d' =>
    (if b <? sub_size v then r = n -> x.1 = n -> x.2 = l else r = -1 /\ x = (-1, [])) /\ reads_as w d b' n' y /\
    forall i, ~ (b < sub_size v /\ sub_start v + b <= i < sub_start v + b + n) -> bd_contents d' i = bd_contents d i).
Proof.
  intros Hv Hw Hap Hb Hn Hle Hl Hb' Hn' Hle'.
  assert (Hwrite : runs (subblock_write v l b n) d (fun r d1 => (if b <? sub_size v then r = n -> blocks_from (sub_contents v d1) b n = l else r = -1) /\
    forall i, ~ (b < sub_size v /\ sub_start v + b <= i < sub_start v + b + n) -> bd_contents d1 i = bd_contents d i)).
  { destruct (Z.ltb_spec b (sub_size v)); [|unfold runs; by rewrite subblock_write_beyond]. eapply runs_mono; [apply subblock_write_ok; auto|]. intros r d1 [H1 H2]. split; [done|]. intros i Hi. apply H2. lia. }
  mstep. eapply runs_mono; [exact Hwrite|]. intros r d1 [H1 H2]. mstep. eapply runs_mono; [by apply subblock_read_as|]. intros x d2 [Hx X]. mstep. eapply runs_mono; [by apply subblock_read_as|]. intros y d3 [Hy Y]. mstep. split; [|split].
  - unfold reads_as in X. destruct (b <? sub_size v); [|done]. intros Hr Hxn. by rewrite (X Hxn), H1.
  - eapply reads_as_ext; [|exact Y]. intros Hlt i Hi. rewrite Hx. apply H2. specialize (Hle' Hlt). destruct Hv, Hw. lia.
  - intros i Hi. by rewrite Hy, Hx, H2.
Qed.

(** Only the first block of a request is tested: a write that starts inside a partition and is longer than the rest of it goes on into
    what follows on the device. *)
Theorem subblock_write_escapes {D} `{BlockDevice D} v d l b n : sub_ok v -> 0 <= b < sub_size v -> sub_size v < b + n -> n <= bd_max -> sub_start v + b + n <= bd_size -> Z.of_nat (length l) = n * bd_block_size ->
  runs (subblock_write v l b n) d (fun r d' => r = n -> blocks_from (bd_contents d') (sub_start v + b) n = l).
Proof.
  intros Hv Hb Hn Hmax Hle Hl. unfold subblock_write. rewrite Z.geb_leb, (proj2 (Z.leb_gt _ _)) by lia. rewrite (sub_u32 v b) by (done || lia). destruct Hv. rewrite (Z.add_comm b).
  eapply runs_mono; [apply (bd_write_ok d l (sub_start v + b) n); lia|]. by intros r d' [H1 _].
Qed.

(** ** Registering a partition *)

Definition last_char (name : list Z) : Z := default 0 (last name).

Lemma decimal_digits n : 1 <= n <= 255 -> Z.of_nat (length (numeral 10 n)) = if n <? 10 then 1 else if n <? 100 then 2 else 3.
Proof.
  intros Hn. assert (Hall : Forall (fun n => Z.of_nat (length (numeral 10 n)) = if n <? 10 then 1 else if n <? 100 then 2 else 3) (seqZ 1 255)) by (apply (bool_decide_unpack _); vm_compute; exact I).
  apply (proj1 (Forall_forall _ _) Hall). apply elem_of_seqZ. lia.
Qed.

Section Register.
Context {D : Type} `{BD : BlockDevice D} (junk : Z).

Lemma num_digits_spec n (s : disks D) (Q : Z -> disks D -> Prop) : 1 <= n <= 255 -> Q (Z.of_nat (length (numeral 10 n))) s -> runs (num_digits n) s Q.
Proof.
  intros Hn HQ. rewrite decimal_digits in HQ by done. unfold num_digits. apply runs_iterM_S. rewrite (proj2 (Z.eqb_neq n 0)) by lia. cbn [negb]. mstep. apply runs_iterM_S.
  pose proof (Z.div_mod n 10 ltac:(lia)). pose proof (Z.mod_pos_bound n 10 ltac:(lia)). destruct (Z.ltb_spec n 10).
  - rewrite (proj2 (Z.eqb_eq (n / 10) 0)) by (apply Z.div_small; lia). cbn [negb]. by mstep.
  - rewrite (proj2 (Z.eqb_neq (n / 10) 0)) by lia. cbn [negb]. mstep. apply runs_iterM_S. pose proof (Z.div_mod (n / 10) 10 ltac:(lia)). pose proof (Z.mod_pos_bound (n / 10) 10 ltac:(lia)). destruct (Z.ltb_spec n 100).
    + rewrite (proj2 (Z.eqb_eq (n / 10 / 10) 0)) by (apply Z.div_small; lia). cbn [negb]. by mstep.
    + rewrite (proj2 (Z.eqb_neq (n / 10 / 10) 0)) by lia. cbn [negb]. mstep. apply runs_iterM_S. rewrite (proj2 (Z.eqb_eq (n / 10 / 10 / 10) 0)) by (apply Z.div_small; lia). cbn [negb]. by mstep.
Qed.

(** What is in use lies below the next fresh address. *)
Definition fresh_ok (s : disks D) : Prop := (forall k, is_Some (devices (dk_vfs s) !! k) -> k < fresh (dk_vfs s)) /\ (forall k, is_Some (dk_subs s !! k) -> k < fresh (dk_vfs s)).

(** The device [v] of the file systems is partition [p] of a disk. *)
Definition part_dev (name : list Z) (s : disks D) (v : Z) (p : Z * Z * Z) : Prop :=
  let '(num, start, size) := p in
  exists sub d, devices (dk_vfs s) !! v = Some (DevfsDevice (part_text name (isdigit (last_char name)) num) d BLCK_DEV sub) /\ dk_subs s !! sub = Some (SubDevice start size bd_block_size).

(** Devices were added, for the partitions [l] in order; nothing else of the devices changed. *)
Record registered (name : list Z) (s : disks D) (l : list (Z * Z * Z)) (s' : disks D) : Prop := Registered {
  rg_fresh : fresh_ok s';
  rg_dev : forall i, bd_contents (dk_dev s') i = bd_contents (dk_dev s) i;
  rg_labels : dk_labels s' = dk_labels s /\ dk_lock s' = dk_lock s;
  rg_new : exists vs, devfs_pending (dk_vfs s') = devfs_pending (dk_vfs s) ++ vs /\ Forall2 (part_dev name s') vs l;
  rg_devices : forall k x, devices (dk_vfs s) !! k = Some x -> devices (dk_vfs s') !! k = Some x;
  rg_subs : forall k x, dk_subs s !! k = Some x -> dk_subs s' !! k = Some x;
}.

Lemma registered_nil name s : fresh_ok s -> registered name s [] s.
Proof. intros H. constructor; try done. exists []. by rewrite app_nil_r. Qed.

Lemma registered_app name s l1 s1 l2 s2 : registered name s l1 s1 -> registered name s1 l2 s2 -> registered name s (l1 ++ l2) s2.
Proof.
  intros [F1 D1 [L1 K1] (v1 & P1 & N1) X1 S1] [F2 D2 [L2 K2] (v2 & P2 & N2) X2 S2]. constructor; [done|intros i; by rewrite D2, D1|split; congruence| |by auto|by auto].
  exists (v1 ++ v2). split; [rewrite P2, P1; by rewrite app_assoc|]. apply Forall2_app; [|done]. eapply Forall2_impl; [exact N1|]. intros v [[num st] sz] (sub & d & H1 & H2). exists sub, d. by auto.
Qed.

(** A partition's name: that of the disk, a [p] behind a digit, and the number; it fits the buffer, and the device is entered. *)
Lemma register_partition_spec name num st sz s : fresh_ok s -> name <> [] -> Z.of_nat (length name) < 2 ^ 31 -> 1 <= num <= 255 ->
  runs (register_partition junk name num st sz) s (fun _ => registered name s [(num, st, sz)]).
Proof.
  intros [Hf1 Hf2] Hne Hlen Hnum. assert (Hpos : 0 < Z.of_nat (length name)) by (destruct name; [done|cbn; lia]). unfold register_partition. rewrite (uwrap_small 32 (Z.of_nat (length name))) by lia.
  assert (Hlast : name !! Z.to_nat (Z.of_nat (length name) - 1) = Some (last_char name)).
  { unfold last_char. replace (Z.to_nat (Z.of_nat (length name) - 1)) with (pred (length name)) by lia. rewrite <- last_lookup. destruct (last name) eqn:E; [done|]. by apply last_None in E. }
  mstep. eapply runs_read; [exact Hlast|]. mstep. eapply runs_read; [by rewrite (proj2 (Z.ltb_lt _ _) Hpos)|]. mstep. apply num_digits_spec; [done|]. pose proof (decimal_digits num Hnum) as Hd.
  mstep. eapply runs_read.
  { rewrite (proj2 (Z.leb_le _ _)); [reflexivity|]. unfold part_text. rewrite !length_app, length_fmap. assert (Hd3 : 1 <= Z.of_nat (length (numeral 10 num)) <= 3) by (rewrite Hd; destruct (num <? 10), (num <? 100); lia).
    rewrite uwrap_small by (destruct (isdigit (last_char name)); lia). destruct (isdigit (last_char name)); cbn [length]; lia. }
  mstep. unfold in_fs at 1. apply runs_lift. unfold new_addr. mstep. mstep. mstep. mstep. mstep. mstep. unfold put_sub. mstep. unfold in_fs. apply runs_lift. unfold devfs_add_dev, new_addr, dentry_alloc, put_device, put_dentry, new_addr. msteps.
  cbn [dk_vfs fresh set_fresh devices set_devices dentries set_dentries devfs_pending set_devfs_pending]. set (fr := fresh (dk_vfs s)) in *.
  assert (Hn1 : devices (dk_vfs s) !! (fr + 1) = None) by (apply eq_None_not_Some; intros H; apply Hf1 in H; lia).
  assert (Hn2 : dk_subs s !! fr = None) by (apply eq_None_not_Some; intros H; apply Hf2 in H; lia).
  constructor; cbn [dk_vfs dk_subs dk_dev dk_labels dk_lock devices set_devices fresh set_fresh devfs_pending set_devfs_pending dentries set_dentries]; try done.
  - split; cbn [dk_vfs dk_subs devices set_devices fresh set_fresh devfs_pending set_devfs_pending dentries set_dentries].
    + intros k [x Hk]. destruct (decide (fr + 1 = k)) as [<-|Hk']; [lia|]. rewrite lookup_insert_ne in Hk by done. pose proof (Hf1 k ltac:(by eexists)). unfold fr. lia.
    + intros k [x Hk]. destruct (decide (fr = k)) as [<-|Hk']; [lia|]. rewrite lookup_insert_ne in Hk by done. pose proof (Hf2 k ltac:(by eexists)). unfold fr. lia.
  - exists [fr + 1]. split; [done|]. constructor; [|constructor]. exists fr, (fr + 1 + 1). cbn. split; apply lookup_insert_eq.
  - intros k x Hk. rewrite lookup_insert_ne; [done|]. intros <-. by rewrite Hn1 in Hk.
  - intros k x Hk. rewrite lookup_insert_ne; [done|]. intros <-. by rewrite Hn2 in Hk.
Qed.
End Register.

(** ** The MS-DOS label *)

Definition active (p : mbr_part) : bool := mp_status p =? PART_STATUS_ACTIVE.

(** The entries that are used, numbered from [i + 1]. *)
Fixpoint used_parts (i : Z) (l : list mbr_part) : list (Z * Z * Z) :=
  match l with [] => [] | p :: l' => (if mp_type p =? PART_TYPE_EMPTY then [] else [(i + 1, mp_start p, mp_length p)]) ++ used_parts (i + 1) l' end.

(** A label, on the bytes of its sector; [fat_like] is what the code takes for the boot sector of a FAT file system. *)
Definition byte_at (l : list Z) (k : nat) : Z := default 0 (l !! k).
Definition status_at (l : list Z) (i : nat) : Z := byte_at l (446 + 16 * i).
Definition kind_at (l : list Z) (i : nat) : Z := byte_at l (450 + 16 * i).
Definition le32_at (l : list Z) (k : nat) : Z := byte_at l k + 2 ^ 8 * byte_at l (k + 1) + 2 ^ 16 * byte_at l (k + 2) + 2 ^ 24 * byte_at l (k + 3).
Definition fat_like (l : list Z) : bool :=
  ((byte_at l 0 =? 0xeb) || (byte_at l 0 =? 0xe9)) && (existsb (fun h => byte_at l 11 =? h) [2; 4; 8; 16] && (byte_at l 12 =? 0)) && ((byte_at l 21 =? 0xf0) || (byte_at l 21 =? 0xf8)).
Definition is_label (l : list Z) : bool :=
  ((byte_at l 510 =? 0x55) && (byte_at l 511 =? 0xAA)) && forallb (fun i => (status_at l i =? 0x80) || (status_at l i =? 0)) [0; 1; 2; 3]%nat &&
  (existsb (fun i => status_at l i =? 0x80) [0; 1; 2; 3]%nat || negb (fat_like l)) && negb (existsb (fun i => kind_at l i =? 0xEE) [0; 1; 2; 3]%nat) &&
  negb (bool_decide (take 4 l = [0xC9; 0xC2; 0xD4; 0xC1])).
(** The entries in use: number, first block, number of blocks. *)
Definition label_parts (l : list Z) : list (Z * Z * Z) :=
  [0; 1; 2; 3]%nat ≫= fun i => if kind_at l i =? 0 then [] else [(Z.of_nat i + 1, le32_at l (454 + 16 * i), le32_at l (458 + 16 * i))].

Lemma field_S l o n : bytes_field l o (S n) = byte_at l o + 256 * bytes_field l (o + 1) n.
Proof.
  unfold bytes_field, byte_at. destruct (l !! o) as [x|] eqn:E.
  - rewrite (drop_S l x o E). cbn [take of_le_bytes default]. by rewrite Nat.add_1_r.
  - apply lookup_ge_None in E. rewrite !drop_ge by lia. by destruct n.
Qed.
Lemma field_0 l o : bytes_field l o 0 = 0.
Proof. reflexivity. Qed.
Lemma byte_at_part l k n o : (o < n)%nat -> byte_at (take n (drop k l)) o = byte_at l (k + o).
Proof. intros Ho. unfold byte_at. by rewrite lookup_take_lt, lookup_drop. Qed.
Lemma byte_at_take l n o : (o < n)%nat -> byte_at (take n l) o = byte_at l o.
Proof. apply (byte_at_part l 0). Qed.
Lemma byte_at_range l k : Forall (fun y => 0 <= y < 256) l -> 0 <= byte_at l k < 256.
Proof. intros Hl. unfold byte_at. destruct (l !! k) as [x|] eqn:E; [|cbn; lia]. by apply (Forall_lookup_1 _ _ _ _ Hl E). Qed.

Section LabelBytes.
Context (l : list Z) (Hl : Forall (fun y => 0 <= y < 256) l).

Lemma mbr_magic_bytes : (mbr_magic (mbr_of l) =? MSDOS_MAGIC) = (byte_at l 510 =? 0x55) && (byte_at l 511 =? 0xAA).
Proof.
  cbn [mbr_of mbr_magic]. rewrite !field_S, field_0. cbn [Nat.add]. pose proof (byte_at_range l 510 Hl). pose proof (byte_at_range l 511 Hl). unfold MSDOS_MAGIC.
  destruct (Z.eqb_spec (byte_at l 510) 0x55), (Z.eqb_spec (byte_at l 511) 0xAA); cbn [andb]; (apply Z.eqb_eq || apply Z.eqb_neq); lia.
Qed.

Lemma maybe_fat_bytes : maybe_fat (mbr_of l) = fat_like l.
Proof.
  unfold maybe_fat, fat_like. cbn [mbr_of mbr_code]. rewrite !field_S, !field_0. cbn [Nat.add]. rewrite !byte_at_take by lia. pose proof (byte_at_range l 11 Hl) as H11. pose proof (byte_at_range l 12 Hl) as H12.
  replace (byte_at l 0 + 256 * 0) with (byte_at l 0) by lia. replace (byte_at l 21 + 256 * 0) with (byte_at l 21) by lia. destruct (_ || _); cbn [negb andb]; [|done].
  rewrite swap_uint16_bytes by lia. assert (E : le_bytes 2 (byte_at l 11 + 256 * (byte_at l 12 + 256 * 0)) = [byte_at l 11; byte_at l 12]).
  { cbn [le_bytes]. pose proof (Z.div_mod (byte_at l 11 + 256 * (byte_at l 12 + 256 * 0)) 256 ltac:(lia)). pose proof (Z.mod_pos_bound (byte_at l 11 + 256 * (byte_at l 12 + 256 * 0)) 256 ltac:(lia)).
    f_equal; [lia|]. f_equal. rewrite Z.mod_small; lia. }
  rewrite E. cbn [rev app of_le_bytes existsb]. rewrite orb_false_r. set (a := byte_at l 11) in *. set (b := byte_at l 12) in *.
  assert (T : forall h, (b + 256 * (a + 256 * 0) =? 256 * h) = (a =? h) && (b =? 0)) by (intros h; destruct (Z.eqb_spec a h), (Z.eqb_spec b 0); cbn [andb]; (apply Z.eqb_eq || apply Z.eqb_neq); lia).
  change 512 with (256 * 2). change 1024 with (256 * 4). change 2048 with (256 * 8). change 4096 with (256 * 16). rewrite !T. destruct (b =? 0); rewrite ?andb_true_r, ?andb_false_r; [|done]. rewrite !orb_assoc. by destruct (_ || (a =? 16)).
Qed.

Lemma statuses_spec : forallb (fun p => active p || (mp_status p =? PART_STATUS_INACTIVE)) (mbr_parts (mbr_of l)) = forallb (fun i => (status_at l i =? 0x80) || (status_at l i =? 0)) [0; 1; 2; 3]%nat.
Proof. cbn [mbr_of mbr_parts fmap list_fmap forallb]. unfold active, mbr_part_of. cbn [mp_status]. rewrite !field_S, !field_0, !byte_at_part, !Z.mul_0_r, !Z.add_0_r, !Nat.add_0_r by lia. reflexivity. Qed.
Lemma actives_spec : existsb active (mbr_parts (mbr_of l)) = existsb (fun i => status_at l i =? 0x80) [0; 1; 2; 3]%nat.
Proof. cbn [mbr_of mbr_parts fmap list_fmap existsb]. unfold active, mbr_part_of. cbn [mp_status]. rewrite !field_S, !field_0, !byte_at_part, !Z.mul_0_r, !Z.add_0_r, !Nat.add_0_r by lia. reflexivity. Qed.
Lemma types_spec : existsb (fun p => mp_type p =? PART_TYPE_GPT) (mbr_parts (mbr_of l)) = existsb (fun i => kind_at l i =? 0xEE) [0; 1; 2; 3]%nat.
Proof. cbn [mbr_of mbr_parts fmap list_fmap existsb]. unfold mbr_part_of. cbn [mp_type]. rewrite !field_S, !field_0, !byte_at_part, !Z.mul_0_r, !Z.add_0_r by lia. reflexivity. Qed.

Lemma aix_bytes : (512 <= length l)%nat -> (bytes_field (mbr_code (mbr_of l)) 0 4 =? AIX_MAGIC) = bool_decide (take 4 l = [0xC9; 0xC2; 0xD4; 0xC1]).
Proof.
  intros Hlen. cbn [mbr_of mbr_code]. unfold bytes_field. rewrite drop_0, take_take. cbn [Nat.min]. assert (Hb : Forall (fun y => 0 <= y < 256) (take 4 l)) by by apply Forall_take. assert (E : length (take 4 l) = 4%nat) by (rewrite length_take; lia).
  revert Hb E. generalize (take 4 l). intros q Hb E. unfold AIX_MAGIC. destruct (bool_decide_reflect (q = [0xC9; 0xC2; 0xD4; 0xC1])) as [->|Hq]; [reflexivity|]. apply Z.eqb_neq. intros H. apply Hq.
  do 4 (destruct q as [|? q]; [done|]). destruct q; [|done]. rewrite !Forall_cons in Hb. destruct Hb as (H0 & H1 & H2 & H3 & _). cbn [of_le_bytes] in H. f_equal; [lia|]. f_equal; [lia|]. f_equal; [lia|]. f_equal. lia.
Qed.

Lemma part_field k o n : (o + n <= 16)%nat -> bytes_field (take 16 (drop k l)) o n = bytes_field l (k + o) n.
Proof. intros Ho. unfold bytes_field. rewrite skipn_firstn_comm, take_take, drop_drop. by replace (n `min` (16 - o))%nat with n by lia. Qed.
Lemma field_le32 k : bytes_field l k 4 = le32_at l k.
Proof. rewrite !field_S, field_0, <- !Nat.add_assoc. cbn [Nat.add]. unfold le32_at. lia. Qed.
Lemma entry_spec i : let p := mbr_part_of (take 16 (drop (446 + 16 * i) l)) in mp_type p = kind_at l i /\ mp_start p = le32_at l (454 + 16 * i) /\ mp_length p = le32_at l (458 + 16 * i).
Proof.
  cbn zeta. unfold mbr_part_of, kind_at. cbn [mp_type mp_start mp_length]. rewrite !part_field by lia. replace (446 + 16 * i + 4)%nat with (450 + 16 * i)%nat by lia. replace (446 + 16 * i + 8)%nat with (454 + 16 * i)%nat by lia. replace (446 + 16 * i + 12)%nat with (458 + 16 * i)%nat by lia.
  rewrite !field_le32, field_S, field_0. split; [lia|done].
Qed.

Lemma label_parts_spec : used_parts 0 (mbr_parts (mbr_of l)) = label_parts l.
Proof.
  cbn [mbr_of mbr_parts fmap list_fmap used_parts]. unfold label_parts. cbn [mbind list_bind].
  destruct (entry_spec 0) as (-> & -> & ->). destruct (entry_spec 1) as (-> & -> & ->). destruct (entry_spec 2) as (-> & -> & ->). destruct (entry_spec 3) as (-> & -> & ->). reflexivity.
Qed.
End LabelBytes.

Lemma count_active_spec l : forall n, 0 <= n -> n + Z.of_nat (length l) < 256 ->
  match count_active l n with
  | Some m => forallb (fun p => active p || (mp_status p =? PART_STATUS_INACTIVE)) l = true /\ n <= m /\ (m =? n) = negb (existsb active l)
  | None => forallb (fun p => active p || (mp_status p =? PART_STATUS_INACTIVE)) l = false
  end.
Proof.
  induction l as [|p l IH]; intros n Hn Hl; cbn [count_active forallb existsb length] in *; [split; [done|split; [lia|apply Z.eqb_refl]]|]. unfold active in *. destruct (mp_status p =? PART_STATUS_ACTIVE); cbn [orb andb].
  - rewrite uwrap_small by lia. specialize (IH (n + 1) ltac:(lia) ltac:(lia)). destruct (count_active l (n + 1)) as [m|]; [|done]. destruct IH as (H1 & H2 & _). split; [done|]. split; [lia|]. apply Z.eqb_neq. lia.
  - destruct (mp_status p =? PART_STATUS_INACTIVE); cbn [negb andb]; [|done]. apply IH; lia.
Qed.

(** A device that does not fail. *)
Definition never_fails {D} `{BlockDevice D} : Prop := forall d b n, 0 <= b -> 0 < n <= bd_max -> b + n <= bd_size -> runs (bd_read b n) d (fun r _ => r.1 = n).

Section Probes.
Context {D : Type} `{BD : BlockDevice D} (junk : Z) (name : list Z) (Hname : name <> [] /\ Z.of_nat (length name) < 2 ^ 31).

Lemma register_parts_spec l : forall i s, fresh_ok s -> 0 <= i -> i + Z.of_nat (length l) <= 255 -> runs (register_parts junk name i l) s (fun _ => registered name s (used_parts i l)).
Proof.
  induction l as [|p l IH]; intros i s Hf Hi Hle; cbn [register_parts used_parts length] in *; [mstep; by apply registered_nil|]. rewrite (uwrap_small 8) by lia. mstep. destruct (mp_type p =? PART_TYPE_EMPTY); cbn [negb app].
  - mstep. apply IH; [done|lia|lia].
  - eapply runs_mono; [apply (register_partition_spec junk name (i + 1)); [done|apply Hname|apply Hname|lia]|]. intros [] s1 H1. eapply runs_mono; [apply IH; [apply H1|lia|lia]|]. intros [] s2 H2. by apply (registered_app name s [_] s1).
Qed.

Lemma read_blocks s b n (Q : Z * list Z -> disks D -> Prop) : 0 <= b -> 0 < n <= bd_max -> b + n <= bd_size ->
  (forall r d', (forall i, bd_contents d' i = bd_contents (dk_dev s) i) -> (r.1 = n -> r.2 = blocks_from (bd_contents (dk_dev s)) b n) -> (never_fails -> r.1 = n) ->
     Q r (Disks d' (dk_vfs s) (dk_subs s) (dk_labels s) (dk_lock s))) -> runs (in_dev (bd_read b n)) s Q.
Proof.
  intros Hb Hn Hle HQ. unfold in_dev. apply runs_lift. pose proof (bd_read_ok (dk_dev s) b n Hb Hn Hle) as H. apply runs_Done in H as (r & d' & E & H1 & H2). apply runs_Done. exists r, d'. split; [done|]. apply HQ; [done|done|].
  intros Hnf. specialize (Hnf (dk_dev s) b n Hb Hn Hle). apply runs_Done in Hnf as (r' & d2 & E' & H3). rewrite E in E'. by injection E' as <- <-.
Qed.

Lemma one_block c b : blocks_from c b 1 = c b.
Proof. unfold blocks_from. replace (seqZ b 1) with [b] by (unfold seqZ; cbn; f_equal; lia). cbn. by rewrite app_nil_r. Qed.

Lemma registered_dev nm s d' l s' : (forall i, bd_contents d' i = bd_contents (dk_dev s) i) -> registered nm (Disks d' (dk_vfs s) (dk_subs s) (dk_labels s) (dk_lock s)) l s' -> registered nm s l s'.
Proof. intros Hd [F1 D1 L1 N1 X1 S1]. constructor; try done. intros i. by rewrite D1. Qed.

(** C33: the first sector of a disk is taken for an MS-DOS label only when it is one ([is_label], on the sector's bytes): its last two bytes are the magic, every status is active or not,
    it is neither a GPT disk's nor AIX's, and, unless an entry is active, it is not what the code takes for a FAT boot sector (whose sector size it expects high byte first, which FAT
    does not have: [maybe_fat_misses]).  When the device does not fail, every such sector is taken for a label.  Then exactly the entries that are used become devices,
    in order, each with its number in its name and its own blocks; otherwise nothing changes. *)
Theorem msdos_probe_correct s : fresh_ok s -> 1 <= bd_size -> let l := bd_contents (dk_dev s) 0 in Forall (fun y => 0 <= y < 256) l ->
  let found := negb (bd_block_size <? MBR_SIZE) && is_label l in
  runs (msdos_probe junk name) s (fun r s' => (r = true -> found = true) /\ (never_fails -> r = found) /\ registered name s (if r then label_parts l else []) s').
Proof.
  intros Hf Hsz l Hb found. assert (Hno : forall s1, (found = true -> False) -> registered name s [] s1 -> runs (mret false) s1 (fun r s' => (r = true -> found = true) /\ (never_fails -> r = found) /\ registered name s (if r then label_parts l else []) s')).
  { intros s1 Hn H1. mstep. split; [done|]. split; [|done]. intros _. destruct found; [by destruct Hn|done]. }
  unfold msdos_probe. subst found. destruct (bd_block_size <? MBR_SIZE) eqn:Ebs; cbn [negb andb] in *; [apply Hno; [done|by apply registered_nil]|]. pose proof bd_max_pos as Hmax. mstep. apply read_blocks; [unfold MSDOS_HEADER_SECTOR; lia..|].
  intros [n l'] d' Hd Hr Hnf. cbn [fst snd] in Hr, Hnf. cbn beta iota. destruct (Z.eqb_spec n 1) as [->|Hn]; cbn [negb].
  2: { mstep. split; [done|]. split; [intros Hx; by apply Hnf in Hx|]. apply (registered_dev _ _ d'); [done|]. by apply registered_nil. }
  rewrite (Hr eq_refl), one_block. change MSDOS_HEADER_SECTOR with 0. fold l. clear Hr Hnf l'. set (s1 := Disks d' _ _ _ _). assert (H1 : forall ps s2, registered name s1 ps s2 -> registered name s ps s2) by (intros ps s2; by apply registered_dev). assert (Hf1 : fresh_ok s1) by done.
  apply Z.ltb_ge in Ebs. assert (Hlen : (512 <= length l)%nat) by (pose proof (bd_block_length (dk_dev s) 0) as Hl; unfold l, MBR_SIZE in *; lia).
  unfold is_label in *. rewrite (mbr_magic_bytes l Hb) in *. destruct ((byte_at l 510 =? 0x55) && (byte_at l 511 =? 0xAA)); cbn [negb andb] in *; [|apply Hno; [done|by apply H1, registered_nil]].
  pose proof (count_active_spec (mbr_parts (mbr_of l)) 0 ltac:(lia) ltac:(cbn; lia)) as Hc. rewrite statuses_spec, actives_spec in Hc. destruct (count_active (mbr_parts (mbr_of l)) 0) as [k|]; [|rewrite Hc in *; apply Hno; [done|by apply H1, registered_nil]].
  destruct Hc as (Hst & _ & Hk). rewrite Hst, Hk in *. rewrite (maybe_fat_bytes l Hb), types_spec, (aix_bytes l Hb Hlen). cbn [andb] in *.
  destruct (negb (existsb (fun i => status_at l i =? 0x80) [0; 1; 2; 3]%nat) && fat_like l) eqn:E1; [apply Hno; [|by apply H1, registered_nil]; apply andb_true_iff in E1 as [E1 E2]; rewrite E2; destruct (existsb _ _); done|].
  destruct (existsb (fun i => kind_at l i =? 0xEE) [0; 1; 2; 3]%nat); cbn [negb andb] in *; [apply Hno; [by rewrite andb_false_r|by apply H1, registered_nil]|].
  destruct (bool_decide (take 4 l = [0xC9; 0xC2; 0xD4; 0xC1])); cbn [negb andb] in *; [apply Hno; [by rewrite !andb_false_r|by apply H1, registered_nil]|].
  mstep. eapply runs_mono; [apply register_parts_spec; [done|lia|cbn; lia]|]. intros [] s2 H2. mstep. rewrite <- (label_parts_spec l). split; [|split; [|by apply H1]]; intros _; destruct (existsb _ _), (fat_like l); done.
Qed.

(** The boot sector of a FAT file system keeps its sector size in the processor's own byte order; [maybe_fat] swaps the bytes, so none is ever recognised. *)
Theorem maybe_fat_misses m : bytes_field (mbr_code m) 11 2 ∈ [512; 1024; 2048; 4096] -> maybe_fat m = false.
Proof.
  intros H. unfold maybe_fat. destruct (negb _); [done|]. assert (E : swap_uint16 (bytes_field (mbr_code m) 11 2) ∈ [2; 4; 8; 16]).
  { rewrite !elem_of_cons, elem_of_nil in H. destruct_or! H; try done; rewrite H; vm_compute; set_solver. }
  rewrite !elem_of_cons, elem_of_nil in E. destruct_or! E; try done; by rewrite E.
Qed.

(** ** The GPT label *)

(** The partitions of the table's entries from [i] on. *)
Definition gpt_used (i : Z) (p : gpt_part) : list (Z * Z * Z) := if gpt_data (gp_type p) then [(i + 1, u32 (gp_first_lba p), u32 (gp_last_lba p - gp_first_lba p))] else [].
Definition gpt_entry (h : gpt_header) (table : list Z) (i : Z) : gpt_part := gpt_part_of (drop (Z.to_nat (i * gh_part_size h)) table).
Definition gpt_parts (h : gpt_header) (table : list Z) : list (Z * Z * Z) := seqZ 0 (gh_part_count h) ≫= fun i => gpt_used i (gpt_entry h table i).

Lemma gpt_loop_spec h table : 48 <= gh_part_size h -> gh_part_count h <= 255 -> gh_part_size h * gh_part_count h <= Z.of_nat (length table) ->
  forall n i s fuel, fresh_ok s -> 0 <= i -> i + Z.of_nat n = gh_part_count h -> (n < fuel)%nat ->
  runs (iterM fuel (gpt_round junk name h table) (i, i * gh_part_size h)) s (fun _ => registered name s (seqZ i (Z.of_nat n) ≫= fun i => gpt_used i (gpt_entry h table i))).
Proof.
  intros Hps Hpc Hle n. induction n as [|n IH]; intros i s [|fuel] Hf Hi Hn Hfu; try lia; apply runs_iterM_S; unfold gpt_round at 1.
  - rewrite (proj2 (Z.ltb_ge _ _)) by lia. cbn [negb]. mstep. by apply registered_nil.
  - rewrite (proj2 (Z.ltb_lt _ _)) by lia. cbn [negb]. assert (Hat : forall k, 0 <= k <= 48 -> gpt_part_at table (i * gh_part_size h) k = Some (gpt_entry h table i)).
    { intros k Hk. unfold gpt_part_at. rewrite (proj2 (Z.leb_le _ _)), (proj2 (Z.leb_le _ _)) by nia. done. }
    mstep. eapply runs_read; [by apply Hat|]. rewrite seqZ_cons by lia. cbn [mbind list_bind]. rewrite (uwrap_small 8) by lia. replace (Z.pred (Z.of_nat (S n))) with (Z.of_nat n) by lia.
    assert (Hnext : forall s1, registered name s (gpt_used i (gpt_entry h table i)) s1 -> runs (iterM fuel (gpt_round junk name h table) (i + 1, i * gh_part_size h + gh_part_size h)) s1
      (fun _ => registered name s (gpt_used i (gpt_entry h table i) ++ (seqZ (Z.succ i) (Z.of_nat n) ≫= fun i => gpt_used i (gpt_entry h table i))))).
    { intros s1 H1. replace (i * gh_part_size h + gh_part_size h) with ((i + 1) * gh_part_size h) by lia. eapply runs_mono; [apply IH; [apply H1|lia|lia|lia]|]. intros [] s2 H2. replace (Z.succ i) with (i + 1) by lia. by eapply registered_app. }
    mstep. destruct (gpt_data (gp_type (gpt_entry h table i))) eqn:Eg.
    + mstep. eapply runs_read; [by apply Hat|]. eapply runs_mono; [apply (register_partition_spec junk name (i + 1)); [done|apply Hname|apply Hname|lia]|]. intros [] s1 H1. mstep. apply Hnext. unfold gpt_used. by rewrite Eg.
    + mstep. mstep. apply Hnext. unfold gpt_used. rewrite Eg. by apply registered_nil.
Qed.

(** A GPT label whose table has 1 to 255 entries, and fits in one request, makes a device of every entry of a known data type, numbered by its place, with the
    blocks from its first to the one before its last, when the device does not fail; a sector without the signature is left alone. *)
Theorem gpt_probe_correct s : fresh_ok s -> 2 <= bd_size -> let h := gpt_header_of (bd_contents (dk_dev s) 1) in
  let sectors := DIV_UP (gh_part_size h * gh_part_count h) bd_block_size in
  (gh_sig h = GPT_SIGNATURE -> 48 <= gh_part_size h /\ 1 <= gh_part_count h <= 255 /\ gh_part_size h * gh_part_count h < 2 ^ 31 /\ 0 <= gh_part_lba h /\ gh_part_lba h + sectors <= bd_size /\ sectors <= bd_max) ->
  let found := negb (bd_block_size <? GPT_HEADER_SIZE) && bool_decide (gh_sig h = GPT_SIGNATURE) in
  runs (gpt_probe junk name) s (fun r s' => (r = true -> found = true) /\ (never_fails -> r = found) /\ registered name s (if r then gpt_parts h (blocks_from (bd_contents (dk_dev s)) (gh_part_lba h) sectors) else []) s').
Proof.
  intros Hf Hsz h sectors Hh found. assert (Hno : forall s1, (never_fails -> found = false) -> registered name s [] s1 ->
    runs (mret false) s1 (fun r s' => (r = true -> found = true) /\ (never_fails -> r = found) /\ registered name s (if r then gpt_parts h (blocks_from (bd_contents (dk_dev s)) (gh_part_lba h) sectors) else []) s')).
  { intros s1 Hn H1. mstep. split; [done|]. split; [|done]. intros Hx. by rewrite Hn. }
  unfold gpt_probe. subst found. destruct (bd_block_size <? GPT_HEADER_SIZE); cbn [negb andb] in *; [apply Hno; [done|by apply registered_nil]|]. pose proof bd_max_pos as Hmax. mstep. apply read_blocks; [unfold GPT_HEADER_SECTOR; lia..|].
  intros [n l'] d' Hd Hr Hnf. cbn [fst snd] in Hr, Hnf. cbn beta iota. destruct (Z.eqb_spec n 1) as [->|Hn]; cbn [negb].
  2: { apply Hno; [intros Hx; by apply Hnf in Hx|]. apply (registered_dev _ _ d'); [done|]. by apply registered_nil. }
  rewrite (Hr eq_refl), one_block. change GPT_HEADER_SECTOR with 1. fold h. clear Hr Hnf l'. set (s1 := Disks d' _ _ _ _). assert (H1 : forall ps s2, registered name s1 ps s2 -> registered name s ps s2) by (intros ps s2; by apply registered_dev). assert (Hf1 : fresh_ok s1) by done.
  destruct (bool_decide_reflect (gh_sig h = GPT_SIGNATURE)) as [Hs|Hs]; cbn [negb]; [|apply Hno; [done|by apply H1, registered_nil]].
  destruct (Hh Hs) as (G1 & G2 & G3 & G4 & G5 & G6). pose proof (@bd_block_size_range D BD) as Hbs. rewrite (uwrap_small 32 (gh_part_size h * gh_part_count h)) by nia. fold sectors.
  assert (Hsec : 1 <= sectors < 2 ^ 31 /\ gh_part_size h * gh_part_count h <= sectors * bd_block_size).
  { assert (HP : 1 <= gh_part_size h * gh_part_count h) by nia. revert HP G3. unfold sectors. generalize (gh_part_size h * gh_part_count h). revert Hbs. generalize (@bd_block_size D BD). clear. intros bs Hbs x H0 H1. unfold DIV_UP. rewrite (uwrap_small 32 x), (uwrap_small 32 bs) by lia.
    destruct (Z.eqb_spec x 0) as [->|Hx]; [lia|]. pose proof (Z.div_mod (x - 1) bs ltac:(lia)). pose proof (Z.mod_pos_bound (x - 1) bs ltac:(lia)). pose proof (Z.div_pos (x - 1) bs ltac:(lia) ltac:(lia)).
    assert ((x - 1) / bs <= x - 1) by (apply Z.div_le_upper_bound; nia). rewrite uwrap_small by lia. nia. }
  destruct Hsec as [Hs1 Hs2]. rewrite (swrap_small 32) by lia. pose proof bd_size_range. rewrite (uwrap_small 32) by lia. mstep. apply read_blocks; [lia..|]. intros [n table] d2 Hd2 Hr2 Hnf2. cbn [fst snd] in Hr2, Hnf2. cbn beta iota.
  assert (H2 : forall ps s2, registered name (Disks d2 (dk_vfs s1) (dk_subs s1) (dk_labels s1) (dk_lock s1)) ps s2 -> registered name s ps s2) by (intros ps s2 Hx; by apply H1, (registered_dev _ _ d2)).
  destruct (Z.eqb_spec n sectors) as [->|Hn]; cbn [negb]. 2: { apply Hno; [intros Hx; by apply Hnf2 in Hx|]. apply H2. by apply registered_nil. }
  assert (Et : table = blocks_from (bd_contents (dk_dev s)) (gh_part_lba h) sectors) by (rewrite (Hr2 eq_refl); apply blocks_from_ext; intros i _; apply Hd). clear Hr2 Hnf2. mstep.
  assert (Hlen : Z.of_nat (length table) = sectors * bd_block_size).
  { rewrite Et. unfold blocks_from. replace sectors with (Z.of_nat (length (seqZ (gh_part_lba h) sectors))) at 2 by (rewrite length_seqZ; lia). generalize (seqZ (gh_part_lba h) sectors). intros l. induction l as [|x l IH]; [done|]. cbn [mbind list_bind]. rewrite length_app, Nat2Z.inj_add, bd_block_length. cbn [length]. change (list_bind _ _ _ l) with (l ≫= bd_contents (dk_dev s)). lia. }
  rewrite <- Et. eapply runs_mono; [apply (gpt_loop_spec h table G1 ltac:(lia) ltac:(lia) (Z.to_nat (gh_part_count h)) 0 _ 257); [done|lia..]|]. intros [] s3 H3. mstep. split; [done|]. split; [done|]. apply H2. by rewrite Z2Nat.id in H3 by lia.
Qed.

Lemma gpt_round_next h table i off s x s1 : i < gh_part_count h -> gpt_round junk name h table (i, off) s = Done (x, s1) -> x = inl (u8 (i + 1), off + gh_part_size h).
Proof.
  intros Hi. unfold gpt_round. rewrite (proj2 (Z.ltb_lt _ _)) by done. cbn [negb]. unfold mbind, M_bind, mret, M_ret, read. destruct (gpt_part_at table off 16) as [p|]; [|done]. destruct (gpt_data _).
  - destruct (gpt_part_at table off 48) as [p'|]; [|done]. destruct (register_partition _ _ _ _ _ s) as [[[] s2]| | |]; try done. by intros [= <- _].
  - by intros [= <- _].
Qed.

(** With 256 entries or more the loop's 8-bit counter never gets there: whatever the bound, the probe does not come back. *)
Theorem gpt_probe_endless h table fuel : 256 <= gh_part_count h -> forall i off s, 0 <= i < 256 -> ~ exists r, iterM fuel (gpt_round junk name h table) (i, off) s = Done r.
Proof.
  intros Hc. induction fuel as [|fuel IH]; intros i off s Hi [r Hr]; cbn [iterM] in Hr; [done|]. unfold mbind, M_bind in Hr. destruct (gpt_round junk name h table (i, off) s) as [[x s1]| | |] eqn:E; try done.
  apply gpt_round_next in E as ->; [|lia]. cbn iota in Hr. eapply (IH (u8 (i + 1)) _ s1); [apply uwrap_range; lia|]. by exists r.
Qed.
End Probes.

(** ** Examples: a disk in memory, of 64 blocks of 512 bytes *)

Definition ram_disk : Type := Z -> list Z.
Definition ram_contents (d : ram_disk) (b : Z) : list Z := resize 512 0 (d b).
Definition ram_write (l : list Z) (b n : Z) : M ram_disk Z :=
  modify (fun d i => if (b <=? i) && (i <? b + n) then take 512 (drop (Z.to_nat ((i - b) * 512)) l) else d i);; mret n.

Lemma chunks_join (l : list Z) n : forall b, length l = (n * 512)%nat -> blocks_from (fun i => resize 512 0 (take 512 (drop (Z.to_nat ((i - b) * 512)) l))) b (Z.of_nat n) = l.
Proof.
  revert l. induction n as [|n IH]; intros l b Hl; [by destruct l|]. unfold blocks_from. rewrite seqZ_cons by lia. cbn [mbind list_bind]. rewrite Z.sub_diag. change (drop (Z.to_nat (0 * 512)) l) with l.
  rewrite resize_all_alt by (rewrite length_take; lia). replace (Z.pred (Z.of_nat (S n))) with (Z.of_nat n) by lia. etransitivity; [|apply (take_drop 512 l)]. f_equal.
  etransitivity; [|apply (IH (drop 512 l) (Z.succ b)); rewrite length_drop; lia]. apply blocks_from_ext. intros i Hi. rewrite drop_drop. do 3 f_equal. lia.
Qed.

#[export, program] Instance ram_device : BlockDevice ram_disk := {
  bd_size := 64; bd_block_size := 512; bd_max := 64;
  bd_read := fun b n => gets (fun d => (n, blocks_from (ram_contents d) b n));
  bd_write := ram_write;
  bd_contents := ram_contents;
}.
Next Obligation. cbn. lia. Qed.
Next Obligation. cbn. lia. Qed.
Next Obligation. intros d b. unfold ram_contents. by rewrite length_resize. Qed.
Next Obligation. cbn. lia. Qed.
Next Obligation. intros d b n _ _ _. by split. Qed.
Next Obligation.
  intros d l b n Hb Hn _ Hl. unfold ram_write. do 3 mstep. split; [intros _|].
  - etransitivity; [|apply (chunks_join l (Z.to_nat n) b); lia]. rewrite Z2Nat.id by lia. apply blocks_from_ext. intros i Hi. unfold ram_contents. by rewrite (proj2 (Z.leb_le _ _)), (proj2 (Z.ltb_lt _ _)) by lia.
  - intros i Hi. unfold ram_contents. destruct (Z.leb_spec b i), (Z.ltb_spec i (b + n)); cbn [andb]; done || lia.
Qed.

(** Two partitions of 8 blocks: a block written to the first, read back, the other read; and a write beyond the end of the first. *)
Lemma partitions_keep_apart_witness :
  (exists d', (r ← subblock_write (SubDevice 1 8 512) (replicate 512 7) 2 1; x ← subblock_read (SubDevice 1 8 512) 2 1; y ← subblock_read (SubDevice 9 8 512) 0 1; mret (r, x, y)) (fun _ => []) =
    Done ((1, (1, replicate 512 7), (1, replicate 512 0)), d') /\ forall i, i <> 3 -> ram_contents d' i = replicate 512 0) /\
  (exists d' x y, (r ← subblock_write (SubDevice 1 8 512) (replicate 512 7) 8 1; x ← subblock_read (SubDevice 1 8 512) 8 1; y ← subblock_read (SubDevice 9 8 512) 0 1; mret (r, x, y)) (fun _ => []) =
    Done ((-1, x, y), d') /\ forall i, ram_contents d' i = replicate 512 0).
Proof.
  split.
  - pose proof (partitions_keep_apart (SubDevice 1 8 512) (SubDevice 9 8 512) (fun _ => [] : list Z) (replicate 512 7) 2 1 0 1) as H.
    destruct (proj1 (runs_Done _ _ _) (H ltac:(split; cbn; lia) ltac:(split; cbn; lia) ltac:(cbn; lia) ltac:(lia) ltac:(cbn; lia) ltac:(cbn; lia) eq_refl ltac:(lia) ltac:(cbn; lia) ltac:(cbn; lia))) as (r & d' & E & Hr). clear H.
    assert (E2 : exists d2, (r ← subblock_write (SubDevice 1 8 512) (replicate 512 7) 2 1; x ← subblock_read (SubDevice 1 8 512) 2 1; y ← subblock_read (SubDevice 9 8 512) 0 1; mret (r, x, y)) (fun _ => []) =
      Done ((1, (1, replicate 512 7), (1, replicate 512 0)), d2)) by (eexists; vm_compute; reflexivity).
    destruct E2 as [d2 E2]. rewrite E2 in E. injection E as <- <-. exists d2. split; [exact E2|]. destruct Hr as (_ & _ & H3). intros i Hi. etransitivity; [apply (H3 i); cbn; lia|reflexivity].
  - pose proof (partitions_keep_apart (SubDevice 1 8 512) (SubDevice 9 8 512) (fun _ => [] : list Z) (replicate 512 7) 8 1 0 1) as H.
    destruct (proj1 (runs_Done _ _ _) (H ltac:(split; cbn; lia) ltac:(split; cbn; lia) ltac:(cbn; lia) ltac:(lia) ltac:(cbn; lia) ltac:(cbn; lia) eq_refl ltac:(lia) ltac:(cbn; lia) ltac:(cbn; lia))) as (r & d' & E & Hr). clear H.
    destruct r as [[r x] y]. destruct Hr as ((-> & _) & _ & H3). exists d', x, y. split; [exact E|]. intros i. etransitivity; [apply (H3 i); cbn; lia|reflexivity].
Defined.

(** A label with one active partition of 16 blocks from block 8. *)
Definition mbr1 : list Z := replicate 446 0 ++ [0x80; 0; 0; 0; 0x0b; 0; 0; 0] ++ le_bytes 4 8 ++ le_bytes 4 16 ++ replicate 48 0 ++ [0x55; 0xAA].
Definition disks0 (d : ram_disk) : disks ram_disk := Disks d (Vfs ∅ ∅ ∅ ∅ ∅ ∅ ∅ ∅ [devfs_type; ramfs] [] [] 1 0 0 [] [] false false false 1) ∅ [msdos_label; gpt_label] false.

Lemma disks0_fresh d : fresh_ok (disks0 d).
Proof. split; intros k [x Hk]; cbn in Hk; by rewrite lookup_empty in Hk. Qed.

Lemma ram_never_fails : never_fails (D := ram_disk).
Proof. intros d b n _ _ _. reflexivity. Qed.

(** The disk is "hd0", its partition "hd0p1". *)
Lemma msdos_probe_correct_witness : runs (msdos_probe 0 [104; 100; 48]) (disks0 (fun b => if b =? 0 then mbr1 else [])) (fun r s' => r = true /\ exists v d sub, devfs_pending (dk_vfs s') = [v] /\
  devices (dk_vfs s') !! v = Some (DevfsDevice [104; 100; 48; 112; 49] d BLCK_DEV sub) /\ dk_subs s' !! sub = Some (SubDevice 8 16 512)).
Proof.
  assert (Hb : Forall (fun y => 0 <= y < 256) (bd_contents (dk_dev (disks0 (fun b => if b =? 0 then mbr1 else []))) 0)) by (apply (bool_decide_unpack _); vm_compute; exact I).
  eapply runs_mono; [apply (msdos_probe_correct 0 [104; 100; 48] ltac:(split; [discriminate|cbn; lia]) _ (disks0_fresh _) ltac:(cbn; lia) Hb)|]. intros r s' (_ & Hr & H).
  assert (E : negb (bd_block_size <? MBR_SIZE) && is_label (bd_contents (dk_dev (disks0 (fun b => if b =? 0 then mbr1 else []))) 0) = true) by (vm_compute; reflexivity).
  assert (E2 : label_parts (bd_contents (dk_dev (disks0 (fun b => if b =? 0 then mbr1 else []))) 0) = [(1, 8, 16)]) by (vm_compute; reflexivity).
  specialize (Hr ram_never_fails). rewrite E in Hr. rewrite Hr in *. rewrite E2 in H. split; [reflexivity|]. destruct (rg_new _ _ _ _ H) as (vs & Hp & Hv). apply Forall2_cons_inv_r in Hv as (v & vs' & (sub & d & H1 & H2) & Hnil & ->). apply Forall2_nil_inv_r in Hnil as ->.
  exists v, d, sub. split; [exact Hp|]. split; [exact H1|exact H2].
Defined.

(** One data partition, blocks 40 to 49, in a table at block 2. *)
Definition gpt_sector : list Z := GPT_SIGNATURE ++ replicate 64 0 ++ le_bytes 8 2 ++ le_bytes 4 4 ++ le_bytes 4 128 ++ replicate 424 0.
Definition gpt_table : list Z := PART_TYPE_LINUX_DATA ++ replicate 16 0 ++ le_bytes 8 40 ++ le_bytes 8 49 ++ replicate 464 0.
Definition gpt_disk : ram_disk := fun b => if b =? 1 then gpt_sector else if b =? 2 then gpt_table else [].

Lemma gpt_probe_correct_witness : runs (gpt_probe 0 [104; 100; 97]) (disks0 gpt_disk) (fun r s' => r = true /\ exists v d sub, devfs_pending (dk_vfs s') = [v] /\
  devices (dk_vfs s') !! v = Some (DevfsDevice [104; 100; 97; 49] d BLCK_DEV sub) /\ dk_subs s' !! sub = Some (SubDevice 40 9 512)).
Proof.
  assert (Eh : gpt_header_of (bd_contents gpt_disk 1) = GptHeader GPT_SIGNATURE 2 4 128) by (vm_compute; reflexivity).
  eapply runs_mono; [apply (gpt_probe_correct 0 [104; 100; 97] ltac:(split; [discriminate|cbn; lia]) _ (disks0_fresh _) ltac:(cbn; lia))|].
  - change (dk_dev (disks0 gpt_disk)) with gpt_disk. rewrite Eh. intros _. vm_compute. repeat split; discriminate.
  - change (dk_dev (disks0 gpt_disk)) with gpt_disk. rewrite Eh. intros r s' (_ & Hr & H). specialize (Hr ram_never_fails).
    assert (E2 : gpt_parts (GptHeader GPT_SIGNATURE 2 4 128) (blocks_from (bd_contents gpt_disk) 2 (DIV_UP (128 * 4) 512)) = [(1, 40, 9)]) by (vm_compute; reflexivity).
    cbn [gh_part_lba gh_part_size gh_part_count gh_sig] in H, Hr. change (@bd_block_size ram_disk ram_device) with 512 in *. rewrite E2 in H. change (negb (512 <? GPT_HEADER_SIZE)) with true in *. cbn [andb] in *. rewrite bool_decide_true in Hr by reflexivity. rewrite Hr in H. split; [exact Hr|].
    destruct (rg_new _ _ _ _ H) as (vs & Hp & Hv). apply Forall2_cons_inv_r in Hv as (v & vs' & (sub & d & H1 & H2) & Hnil & ->). apply Forall2_nil_inv_r in Hnil as ->.
    exists v, d, sub. split; [exact Hp|]. split; [exact H1|exact H2].
Defined.
