(* ===== verification/Ide.v ===== *)
(** * Ide: the IDE disk driver (kernel/src/driver/disk/ide.c, kernel/inc/driver/disk/ata.h)

    The port instructions are an interface: what they do is up to the hardware, whose state is an argument, and a drive that keeps to the ATA protocol
    is stated by laws on them.  Sleeping leaves the state alone: the hardware's delays show in the number of times a status is busy.  A transfer by
    DMA is split where it waits for the interrupt.  The driver's answers to [register_block_device] and [register_disk] are logged in [ide_disks]. *)

From S2P Require Import Prelude Words Disk.

(** ** Constants *)

Definition TYPE_PATA : Z := 0.
Definition TYPE_PATAPI : Z := 1.
Definition IDE_ESUCCESS : Z := 0.
Definition IDE_EERROR : Z := -1.
Definition IDE_EFAULT : Z := -2.
Definition IDE_ENODRQ : Z := -3.
Definition ATA_SR_BSY : Z := 0x80.
Definition ATA_SR_DF : Z := 0x20.
Definition ATA_SR_DRQ : Z := 0x08.
Definition ATA_SR_ERR : Z := 0x01.
Definition ATA_SET_FEATURES_DMA : Z := 0x03.
Definition ATA_VALID_IDENT_DMA : Z := 0x02.
Definition ATA_VALID_IDENT_UDMA : Z := 0x04.
Definition ATA_TRANSFER_UDMA : Z := 0x40.
Definition ATA_TRANSFER_DMA_MULTI : Z := 0x20.
Definition ATA_TRANSFER_DMA_SINGLE : Z := 0x10.
Definition ATA_IRQ_OFF : Z := 0x02.
Definition ATA_IRQ_ON : Z := 0x00.
Definition ATA_FEATURE_LBA : Z := 0x200.
Definition ATA_FEATURE_DMA : Z := 0x100.
Definition ATA_MODE_CHS : Z := 0xA0.
Definition ATA_MODE_LBA : Z := 0xE0.
Definition ATA_REG_DATA : Z := 0x00.
Definition ATA_REG_FEATURES : Z := 0x01.
Definition ATA_REG_SECdevice0 : Z := 0x02.
Definition ATA_REG_LBA0 : Z := 0x03.
Definition ATA_REG_LBA1 : Z := 0x04.
Definition ATA_REG_LBA2 : Z := 0x05.
Definition ATA_REG_HDDEVSEL : Z := 0x06.
Definition ATA_REG_COMMAND : Z := 0x07.
Definition ATA_REG_STATUS : Z := 0x07.
Definition ATA_REG_SECdevice1 : Z := 0x08.
Definition ATA_REG_LBA3 : Z := 0x09.
Definition ATA_REG_LBA4 : Z := 0x0A.
Definition ATA_REG_LBA5 : Z := 0x0B.
Definition ATA_REG_CONTROL : Z := 0x0C.
Definition ATA_REG_ALTSTATUS : Z := 0x0C.
Definition ATA_REG_BMCOMMAND : Z := 0x0E.
Definition ATA_REG_BMSTATUS : Z := 0x10.
Definition ATA_REG_PRDTABLE : Z := 0x12.
Definition ATA_BMCMD_START : Z := 0x01.
Definition ATA_BMCMD_READ : Z := 0x08.
Definition ATA_BMCMD_WRITE : Z := 0x00.
Definition ATA_BMSTATUS_ACTIVE : Z := 0x01.
Definition ATA_BMSTATUS_ERROR : Z := 0x02.
Definition ATA_BMSTATUS_INTERRUPT : Z := 0x04.
Definition ATA_CMD_PIO_READ : Z := 0x20.
Definition ATA_CMD_PIO_READ_EXT : Z := 0x24.
Definition ATA_CMD_PIO_WRITE : Z := 0x30.
Definition ATA_CMD_PIO_WRITE_EXT : Z := 0x34.
Definition ATA_CMD_DMA_READ : Z := 0xC8.
Definition ATA_CMD_DMA_READ_EXT : Z := 0x25.
Definition ATA_CMD_DMA_WRITE : Z := 0xCA.
Definition ATA_CMD_DMA_WRITE_EXT : Z := 0x35.
Definition ATA_CMD_CACHE_FLUSH : Z := 0xE7.
Definition ATA_CMD_CACHE_FLUSH_EXT : Z := 0xEA.
Definition ATA_CMD_IDENTIFY_PACKET : Z := 0xA1.
Definition ATA_CMD_IDENTIFY : Z := 0xEC.
Definition ATA_CMD_SET_FEATURES : Z := 0xEF.
Definition ATA_IDENT_DEVICETYPE : Z := 0.
Definition ATA_IDENT_VALID_IDENT : Z := 53.
Definition ATA_IDENT_MODEL : Z := 54.
Definition ATA_IDENT_DMA_SINGLE : Z := 62.
Definition ATA_IDENT_DMA_MULTI : Z := 63.
Definition ATA_IDENT_UDMA : Z := 88.
Definition ATA_IDENT_FEATURES : Z := 98.
Definition ATA_IDENT_MAX_LBA : Z := 120.
Definition ATA_IDENT_COMMANDSETS : Z := 164.
Definition ATA_IDENT_MAX_LBA_EXT : Z := 200.
Definition MAX_PRD_ENTRIES : Z := 4096 / 8.
Definition IDE_DEVICE_PREFIX : list Z := [104; 100].

Definition PRD (address count : Z) : Z := Z.lor (Z.land (u64 count) 0xFFFE <<< 32) (Z.land (u32 address) 0xFFFFFFFE).
Definition BAR_ADDR_32 (x : Z) : Z := Z.land x 0xFFFFFFFC.

(** ** State *)

(** The instructions [inb], [outb], [outl], [rep insw], [rep insl] and [rep outsw]; strings are bytes. *)
Class Ports (D : Type) := {
  inb : Z -> M D Z;
  outb : Z -> Z -> M D unit;
  outl : Z -> Z -> M D unit;
  insw : Z -> Z -> M D (list Z);
  insl : Z -> Z -> M D (list Z);
  outsw : Z -> list Z -> M D unit;
}.

(** [ch_prdt] is the physical address of the channel's page of descriptors. *)
Record ide_channel := IdeChannel { ch_base : Z; ch_ctrl : Z; ch_bmide : Z; ch_prdt : Z; ch_irq : bool; ch_nIEN : Z }.

Record ide_device := IdeDevice {
  id_present : bool;
  id_channel : Z;
  id_drive : Z;
  id_type : Z;
  id_signature : Z;
  id_features : Z;
  id_commandSets : Z;
  id_size : Z;
  id_model : list Z;
  id_num : Z;
  id_dev_size : Z;
  id_dev_block_size : Z;
}.

Record ide (D : Type) := Ide {
  channels : Z -> ide_channel;
  ide_devices : Z -> ide_device;
  ide_buf : list Z;
  prdt : Z -> Z -> Z;
  ide_disks : list (Z * list Z);
  ide_once : bool;
  hw : D;
}.
Arguments Ide {D}. Arguments channels {D}. Arguments ide_devices {D}. Arguments ide_buf {D}. Arguments prdt {D}. Arguments ide_disks {D}. Arguments ide_once {D}. Arguments hw {D}.

Section Driver.
Context {D : Type} `{Ports D}.

Definition set_channels (v : Z -> ide_channel) (s : ide D) : ide D := Ide v (ide_devices s) (ide_buf s) (prdt s) (ide_disks s) (ide_once s) (hw s).
Definition set_ide_devices (v : Z -> ide_device) (s : ide D) : ide D := Ide (channels s) v (ide_buf s) (prdt s) (ide_disks s) (ide_once s) (hw s).
Definition set_ide_buf (v : list Z) (s : ide D) : ide D := Ide (channels s) (ide_devices s) v (prdt s) (ide_disks s) (ide_once s) (hw s).
Definition set_prdt (v : Z -> Z -> Z) (s : ide D) : ide D := Ide (channels s) (ide_devices s) (ide_buf s) v (ide_disks s) (ide_once s) (hw s).
Definition set_ide_disks (v : list (Z * list Z)) (s : ide D) : ide D := Ide (channels s) (ide_devices s) (ide_buf s) (prdt s) v (ide_once s) (hw s).
Definition set_ide_once (v : bool) (s : ide D) : ide D := Ide (channels s) (ide_devices s) (ide_buf s) (prdt s) (ide_disks s) v (hw s).
Definition set_hw (v : D) (s : ide D) : ide D := Ide (channels s) (ide_devices s) (ide_buf s) (prdt s) (ide_disks s) (ide_once s) v.

Definition in_hw {A} (m : M D A) : M (ide D) A := lift hw set_hw m.
Definition channel_at (i : Z) : M (ide D) ide_channel := read (fun s => if (0 <=? i) && (i <? 2) then Some (channels s i) else None).
Definition upd_channel (i : Z) (f : ide_channel -> ide_channel) : M (ide D) unit := c ← channel_at i; modify (fun s => set_channels (<[i := f c]> (channels s)) s).
Definition set_nIEN (v : Z) (c : ide_channel) : ide_channel := IdeChannel (ch_base c) (ch_ctrl c) (ch_bmide c) (ch_prdt c) (ch_irq c) v.
Definition set_irq (v : bool) (c : ide_channel) : ide_channel := IdeChannel (ch_base c) (ch_ctrl c) (ch_bmide c) (ch_prdt c) v (ch_nIEN c).
Definition device_at (i : Z) : M (ide D) ide_device := read (fun s => if (0 <=? i) && (i <? 4) then Some (ide_devices s i) else None).
Definition put_device (i : Z) (d : ide_device) : M (ide D) unit := _ ← device_at i; modify (fun s => set_ide_devices (<[i := d]> (ide_devices s)) s).

(** ** Registers *)

Definition hob_reg (reg : Z) : bool := (reg >? 0x07) && (reg <? 0x0C).
(** The port a register is at; for one there is not, a bug check. *)
Definition port_of (c : ide_channel) (reg : Z) : option Z :=
  if reg <? 0x08 then Some (u16 (ch_base c + reg))
  else if reg <? 0x0C then Some (u16 (ch_base c + reg - 0x06))
  else if reg <? 0x0E then Some (u16 (ch_ctrl c + reg - 0x0A))
  else if reg <? 0x16 then Some (u16 (ch_bmide c + reg - 0x0E))
  else None.
Definition at_port {A} (ch reg : Z) (m : Z -> M D A) : M (ide D) A :=
  c ← channel_at ch; match port_of c reg with Some p => in_hw (m p) | None => panic end.
(** What every access to one of the registers 8 to 11 is between. *)
Definition with_hob {A} (ch reg : Z) (m : M (ide D) A) : M (ide D) A :=
  (if hob_reg reg then c ← channel_at ch; at_port ch ATA_REG_CONTROL (fun p => outb p (u8 (Z.lor 0x80 (ch_nIEN c)))) else mret tt);;
  a ← m;
  (if hob_reg reg then c ← channel_at ch; at_port ch ATA_REG_CONTROL (fun p => outb p (ch_nIEN c)) else mret tt);;
  mret a.

Definition ide_mmio_write (ch reg data : Z) : M (ide D) unit := with_hob ch reg (at_port ch reg (fun p => outb p (u8 data))).
Definition ide_mmio_write_long (ch reg data : Z) : M (ide D) unit := with_hob ch reg (at_port ch reg (fun p => outl p (u32 data))).
Definition ide_mmio_read (ch reg : Z) : M (ide D) Z := with_hob ch reg (at_port ch reg (fun p => inb p)).
Definition ide_mmio_read_buffer (ch reg quads : Z) : M (ide D) (list Z) := with_hob ch reg (at_port ch reg (fun p => insl p quads)).

(** How often a busy drive is asked. *)
Context (patience : nat).

Definition ide_wait_ready (ch : Z) : M (ide D) Z :=
  iterM patience (fun _ => status ← ide_mmio_read ch ATA_REG_STATUS; mret (if has status ATA_SR_BSY then inl tt else inr status)) tt.

(** The errors are returned as bytes. *)
Definition ide_error (ch : Z) : M (ide D) Z :=
  status ← ide_wait_ready ch;
  mret (if has status ATA_SR_ERR then u8 IDE_EERROR else if has status ATA_SR_DF then u8 IDE_EFAULT else IDE_ESUCCESS).

Definition ide_poll (ch : Z) (drq : bool) : M (ide D) Z :=
  forM 0 4 (fun _ => _ ← ide_mmio_read ch ATA_REG_ALTSTATUS; mret tt);;
  ret ← ide_error ch;
  if negb (ret =? 0) then mret ret
  else if negb drq then status ← ide_mmio_read ch ATA_REG_STATUS; mret (if negb (has status ATA_SR_DRQ) then u8 IDE_ENODRQ else 0)
  else mret 0.

(** ** Interrupts *)

(** [handle_irq_primary] and [handle_irq_secondary]. *)
Definition handle_irq (ch : Z) : M (ide D) unit :=
  status ← ide_mmio_read ch ATA_REG_BMSTATUS;
  if has status ATA_BMSTATUS_ERROR then panic
  else if has status ATA_BMSTATUS_INTERRUPT then
    ide_mmio_write ch ATA_REG_BMSTATUS ATA_BMSTATUS_INTERRUPT;;
    if has status ATA_BMSTATUS_ACTIVE then panic
    else ide_mmio_write ch ATA_REG_BMCOMMAND 0;; upd_channel ch (set_irq true)
  else panic.

(** One look at the flag that the handler sets. *)
Definition irq_wait (ch : Z) : M (ide D) bool :=
  c ← channel_at ch; if ch_irq c then upd_channel ch (set_irq false);; mret true else mret false.

(** ** Transfers *)

(** The mode (0: CHS, 1: LBA28, 2: LBA48), the address registers and the head. *)
Definition ide_address (features lba : Z) : Z * list Z * Z :=
  if lba >=? 0x10000000 then
    (2, [Z.land lba 0x000000FF >>> 0; Z.land lba 0x0000FF00 >>> 8; Z.land lba 0x00FF0000 >>> 16; Z.land lba 0xFF000000 >>> 24; 0; 0], 0)
  else if has features ATA_FEATURE_LBA then
    (1, [Z.land lba 0x00000FF >>> 0; Z.land lba 0x000FF00 >>> 8; Z.land lba 0x0FF0000 >>> 16; 0; 0; 0], Z.land lba 0xF000000 >>> 24)
  else
    let sect := u8 (lba mod 63 + 1) in
    let cyl := u16 (u32 (lba + 1 - sect) / (16 * 63)) in
    (0, [sect; Z.land (cyl >>> 0) 0xFF; Z.land (cyl >>> 8) 0xFF; 0; 0; 0], u8 (u32 (lba + 1 - sect) mod (16 * 63) / 63)).

Definition ide_command (lba_mode : Z) (dma write : bool) : Z :=
  match dma, write with
  | false, false => if lba_mode =? 2 then ATA_CMD_PIO_READ_EXT else ATA_CMD_PIO_READ
  | true, false => if lba_mode =? 2 then ATA_CMD_DMA_READ_EXT else ATA_CMD_DMA_READ
  | false, true => if lba_mode =? 2 then ATA_CMD_PIO_WRITE_EXT else ATA_CMD_PIO_WRITE
  | true, true => if lba_mode =? 2 then ATA_CMD_DMA_WRITE_EXT else ATA_CMD_DMA_WRITE
  end.

Definition put_prd (ch i v : Z) : M (ide D) unit := modify (fun s => set_prdt (<[ch := <[i := v]> (prdt s ch)]> (prdt s)) s).

(** The descriptors of the buffer at [phys]: how many, and how many bytes they are said to move. *)
Definition build_prdt (ch : Z) (same : bool) (numsects phys : Z) : M (ide D) (Z * Z) :=
  '(i, bytes, transfered) ← iterM 513 (fun '(i, bytes, transfered) =>
    if (i <? MAX_PRD_ENTRIES) && (bytes >? 64 * 1024) then
      put_prd ch i (PRD (phys + (if same then 0 else 64 * 1024 * i)) 0);;
      mret (inl (i + 1, bytes - 64 * 1024, u32 (transfered + 64 * 1024)))
    else mret (inr (i, bytes, transfered))) (0, u64 (512 * (if numsects =? 0 then 512 else numsects)), 0);
  '(n, transfered) ← (if (bytes >? 0) && (i <? MAX_PRD_ENTRIES) then
    let bytes := MIN bytes (64 * 1024) in
    put_prd ch i (PRD (phys + (if same then 0 else 64 * 1024 * i)) (if bytes =? 64 * 1024 then 0 else bytes));;
    mret (i + 1, u32 (transfered + bytes))
  else mret (i, transfered));
  s ← get;
  put_prd ch (n - 1) (Z.lor (prdt s ch (n - 1)) 0x8000000000000000);;
  mret (n, transfered).

(** What a transfer answers and, of a read, the bytes; or it waits for the interrupt. *)
Inductive transfer := Transfered (r : Z) (got : list Z) | WaitsIrq (transfered : Z).

(** The sectors of a read by the processor. *)
Definition pio_read (ch numsects : Z) : M (ide D) transfer :=
  iterM 257 (fun '(i, transfered, got) =>
    if i <? (if numsects =? 0 then 256 else numsects) then
      err ← ide_poll ch true;
      if negb (err =? 0) then mret (inr (Transfered err got))
      else
        c ← channel_at ch;
        l ← in_hw (insw (ch_base c) (512 / 2));
        mret (inl (u16 (i + 1), u32 (transfered + 512), got ++ l))
    else mret (inr (Transfered (transfered / 512) got))) (0, 0, []).

(** Bytes [off .. off + 512) of the caller's buffer. *)
Definition sector_at (buff : list Z) (off : Z) : option (list Z) :=
  if (off + 512 <=? Z.of_nat (length buff)) then Some (take 512 (drop (Z.to_nat off) buff)) else None.

Definition pio_write (ch numsects lba_mode : Z) (same : bool) (buff : list Z) : M (ide D) transfer :=
  transfered ← iterM 257 (fun '(i, transfered, off) =>
    if i <? (if numsects =? 0 then 256 else numsects) then
      _ ← ide_poll ch false;
      c ← channel_at ch;
      l ← read (fun _ => sector_at buff off);
      in_hw (outsw (ch_base c) l);;
      mret (inl (u16 (i + 1), u32 (transfered + 512), if (same : bool) then off else off + 512))
    else mret (inr transfered)) (0, 0, 0);
  ide_mmio_write ch ATA_REG_COMMAND (if lba_mode =? 2 then ATA_CMD_CACHE_FLUSH_EXT else ATA_CMD_CACHE_FLUSH);;
  _ ← ide_poll ch false;
  mret (Transfered (transfered / 512) []).

(** The drive and the parameters. *)
Definition write_address (ch lba_mode : Z) (lba_io : list Z) (head drive numsects : Z) : M (ide D) unit :=
  ide_mmio_write ch ATA_REG_HDDEVSEL (Z.lor (Z.lor (if negb (lba_mode =? 0) then ATA_MODE_LBA else ATA_MODE_CHS) (drive <<< 4)) head);;
  (if lba_mode =? 2 then
     ide_mmio_write ch ATA_REG_SECdevice1 0;;
     ide_mmio_write ch ATA_REG_LBA3 (nth 3 lba_io 0);;
     ide_mmio_write ch ATA_REG_LBA4 (nth 4 lba_io 0);;
     ide_mmio_write ch ATA_REG_LBA5 (nth 5 lba_io 0)
   else mret tt);;
  ide_mmio_write ch ATA_REG_SECdevice0 (if numsects >? 255 then 0 else numsects);;
  ide_mmio_write ch ATA_REG_LBA0 (nth 0 lba_io 0);;
  ide_mmio_write ch ATA_REG_LBA1 (nth 1 lba_io 0);;
  ide_mmio_write ch ATA_REG_LBA2 (nth 2 lba_io 0).

(** [buff] is what a write takes, [phys] the buffer's physical address. *)
Definition pata_access (write same : bool) (d : ide_device) (numsects lba : Z) (buff : list Z) (phys : Z) : M (ide D) transfer :=
  let ch := id_channel d in
  if negb write && same then panic
  else
    let '(lba_mode, lba_io, head) := ide_address (id_features d) lba in
    let dma := (lba_mode >? 0) && has (id_features d) ATA_FEATURE_DMA in
    transfered ← (if dma then
        upd_channel ch (set_nIEN ATA_IRQ_ON);;
        ide_mmio_write ch ATA_REG_CONTROL ATA_IRQ_ON;;
        c ← channel_at ch;
        ide_mmio_write_long ch ATA_REG_PRDTABLE (ch_prdt c);;
        '(_, transfered) ← build_prdt ch same numsects phys;
        mret transfered
      else
        upd_channel ch (set_nIEN ATA_IRQ_OFF);;
        ide_mmio_write ch ATA_REG_CONTROL ATA_IRQ_OFF;;
        mret 0);
    _ ← ide_wait_ready ch;
    write_address ch lba_mode lba_io head (id_drive d) numsects;;
    ide_mmio_write ch ATA_REG_COMMAND (ide_command lba_mode dma write);;
    if dma then
      ide_mmio_write ch ATA_REG_BMCOMMAND (Z.lor ATA_BMCMD_START (if write then ATA_BMCMD_WRITE else ATA_BMCMD_READ));;
      w ← irq_wait ch;
      mret (if (w : bool) then Transfered (transfered / 512) [] else WaitsIrq transfered)
    else
      let numsects := if numsects >? 255 then 0 else numsects in
      if negb write then pio_read ch numsects else pio_write ch numsects lba_mode same buff.
(** Woken by an interrupt. *)
Definition pata_resume (ch transfered : Z) : M (ide D) transfer := w ← irq_wait ch; mret (if (w : bool) then Transfered (transfered / 512) [] else WaitsIrq transfered).

Definition ide_transfer (write : bool) (d : ide_device) (numsects lba : Z) (buff : list Z) (phys : Z) : M (ide D) transfer :=
  if u64 (lba + numsects) >? id_size d then mret (Transfered 0 [])
  else if id_type d =? TYPE_PATA then pata_access write false d numsects lba buff phys
  else if id_type d =? TYPE_PATAPI then mret (Transfered 0 [])
  else panic.
Definition ide_read_sectors (d : ide_device) (numsects lba phys : Z) : M (ide D) transfer := ide_transfer false d numsects lba [] phys.
Definition ide_write_sectors (d : ide_device) (numsects lba : Z) (buff : list Z) (phys : Z) : M (ide D) transfer := ide_transfer true d numsects lba buff phys.
Definition ide_read (k start blocks phys : Z) : M (ide D) transfer := d ← device_at k; ide_read_sectors d blocks start phys.
Definition ide_write (k : Z) (buff : list Z) (start blocks phys : Z) : M (ide D) transfer := d ← device_at k; ide_write_sectors d blocks start buff phys.

(** ** Finding the drives *)

Definition buf_field (off n : Z) : M (ide D) Z := gets (fun s => bytes_field (ide_buf s) (Z.to_nat off) (Z.to_nat n)).
Definition buf_word (w : Z) : M (ide D) Z := buf_field (2 * w) 2.

(** The loops over the modes of a kind of transfer, from [mode] down: the first that the drive takes, or -1. *)
Definition set_mode (ch supported kind mode : Z) : M (ide D) Z :=
  iterM 7 (fun mode =>
    if mode >=? 0 then
      if negb (has supported (1 <<< mode)) then mret (inl (mode - 1))
      else
        ide_mmio_write ch ATA_REG_SECdevice0 (kind + Z.land mode 0x7);;
        ide_mmio_write ch ATA_REG_FEATURES ATA_SET_FEATURES_DMA;;
        ide_mmio_write ch ATA_REG_COMMAND ATA_CMD_SET_FEATURES;;
        e ← ide_error ch;
        mret (if e =? 0 then inr mode else inl (mode - 1))
    else mret (inr mode)) mode.
Definition set_best_mode (ch features : Z) : M (ide D) Z :=
  if has features ATA_FEATURE_DMA then
    valid ← buf_word ATA_IDENT_VALID_IDENT;
    mode ← (if has valid ATA_VALID_IDENT_UDMA then supported ← buf_word ATA_IDENT_UDMA; set_mode ch (u8 supported) ATA_TRANSFER_UDMA 5 else mret (-1));
    mode ← (if mode <? 0 then if has valid ATA_VALID_IDENT_DMA then supported ← buf_word ATA_IDENT_DMA_MULTI; set_mode ch (u8 supported) ATA_TRANSFER_DMA_MULTI 2 else mret mode else mret mode);
    if mode <? 0 then if has valid ATA_VALID_IDENT_DMA then supported ← buf_word ATA_IDENT_DMA_SINGLE; set_mode ch (u8 supported) ATA_TRANSFER_DMA_SINGLE 2 else mret mode else mret mode
  else mret (-1).

(** The bytes of a string of words, each swapped. *)
Fixpoint unswap (l : list Z) : list Z := match l with a :: b :: l' => b :: a :: unswap l' | _ => l end.

(** True when there is an error, at the first status that tells. *)
Definition await_identify (ch : Z) : M (ide D) bool :=
  iterM patience (fun _ =>
    status ← ide_mmio_read ch ATA_REG_STATUS;
    mret (if has status ATA_SR_ERR then inr true else if negb (has status ATA_SR_BSY) && has status ATA_SR_DRQ then inr false else inl tt)) tt.

(** What kind of drive an error stands for; none. *)
Definition atapi_signature (ch : Z) : M (ide D) bool :=
  cl ← ide_mmio_read ch ATA_REG_LBA1;
  hi ← ide_mmio_read ch ATA_REG_LBA2;
  mret ((cl =? 0x14) && (hi =? 0xEB) || (cl =? 0x69) && (hi =? 0x96)).

(** Drive [j] of channel [i] becomes device [d]. *)
Definition read_identity (d i j type : Z) : M (ide D) unit :=
  l ← ide_mmio_read_buffer i ATA_REG_DATA 128;
  modify (fun s => set_ide_buf (l ++ drop (length l) (ide_buf s)) s);;
  signature ← buf_field ATA_IDENT_DEVICETYPE 2;
  features ← buf_field ATA_IDENT_FEATURES 2;
  commandSets ← buf_field ATA_IDENT_COMMANDSETS 4;
  _ ← set_best_mode i features;
  size ← buf_field (if has commandSets (1 <<< 26) then ATA_IDENT_MAX_LBA_EXT else ATA_IDENT_MAX_LBA) 4;
  s ← get;
  put_device d (IdeDevice true i j type signature features commandSets size (unswap (take 40 (drop (Z.to_nat ATA_IDENT_MODEL) (ide_buf s))) ++ [0]) d (size / 512) 512);;
  modify (fun s => set_ide_disks (ide_disks s ++ [(d, IDE_DEVICE_PREFIX ++ [97 + d])]) s).

Definition identify (d i j : Z) : M (ide D) Z :=
  old ← device_at d;
  put_device d (IdeDevice false (id_channel old) (id_drive old) (id_type old) (id_signature old) (id_features old) (id_commandSets old) (id_size old) (id_model old) (id_num old) (id_dev_size old) (id_dev_block_size old));;
  ide_mmio_write i ATA_REG_HDDEVSEL (Z.lor 0xA0 (j <<< 4));;
  ide_mmio_write i ATA_REG_COMMAND ATA_CMD_IDENTIFY;;
  status ← ide_mmio_read i ATA_REG_STATUS;
  if status =? 0 then mret d
  else
    err ← await_identify i;
    type ← (if (err : bool) then a ← atapi_signature i; if (a : bool) then ide_mmio_write i ATA_REG_COMMAND ATA_CMD_IDENTIFY_PACKET;; mret (Some TYPE_PATAPI) else mret None else mret (Some TYPE_PATA));
    match type with Some type => read_identity d i j type;; mret (d + 1) | None => mret d end.

(** [bar] are the controller's base addresses, [page] the pages for the descriptors. *)
Definition ide_enable (bar page : Z -> Z) : M (ide D) unit :=
  s ← get;
  if ide_once s then mret tt
  else
    modify (set_ide_once true);;
    upd_channel 0 (fun c => IdeChannel (u16 (BAR_ADDR_32 (bar 0) + if bar 0 =? 0 then 0x1F0 else 0)) (u16 (BAR_ADDR_32 (bar 1) + if bar 1 =? 0 then 0x3F4 else 0)) (u16 (BAR_ADDR_32 (bar 4))) (page 0) (ch_irq c) (ch_nIEN c));;
    upd_channel 1 (fun c => IdeChannel (u16 (BAR_ADDR_32 (bar 2) + if bar 2 =? 0 then 0x170 else 0)) (u16 (BAR_ADDR_32 (bar 3) + if bar 3 =? 0 then 0x374 else 0)) (u16 (BAR_ADDR_32 (bar 4) + 8)) (page 1) (ch_irq c) (ch_nIEN c));;
    ide_mmio_write 0 ATA_REG_CONTROL ATA_IRQ_OFF;;
    ide_mmio_write 1 ATA_REG_CONTROL ATA_IRQ_OFF;;
    d ← identify 0 0 0;
    d ← identify d 0 1;
    d ← identify d 1 0;
    _ ← identify d 1 1;
    mret tt.
End Driver.

(** ** A drive that keeps to the protocol *)

(** Each parameter register holds the last two values written; [Sending] are the sectors to come, [Taking j b n] awaits [n] sectors for [b] on of drive [j]. *)
Inductive ata_phase := Idle | Sending (l : list (list Z)) | Taking (j b n : Z).
Record drive_view := DriveView { dv_cur : Z -> Z; dv_prev : Z -> Z; dv_phase : ata_phase; dv_sector : Z -> Z -> list Z }.

Definition with_reg (r v : Z) (w : drive_view) : drive_view := DriveView (<[r := v]> (dv_cur w)) (<[r := dv_cur w r]> (dv_prev w)) (dv_phase w) (dv_sector w).
Definition with_phase (p : ata_phase) (w : drive_view) : drive_view := DriveView (dv_cur w) (dv_prev w) p (dv_sector w).
Definition with_sector (j b : Z) (l : list Z) (w : drive_view) : drive_view := DriveView (dv_cur w) (dv_prev w) (dv_phase w) (<[j := <[b := l]> (dv_sector w j)]> (dv_sector w)).

(** What the registers ask for: the drive, the first sector, how many.  Heads and sectors of a track are those of the default translation. *)
Definition addressed (ext : bool) (w : drive_view) : Z * Z * Z :=
  let c := dv_cur w in let p := dv_prev w in
  let sel := c 6 in
  let count := if ext then c 2 + 256 * p 2 else c 2 in
  (Z.land (sel >>> 4) 1,
   if ext then c 3 + 2 ^ 8 * c 4 + 2 ^ 16 * c 5 + 2 ^ 24 * p 3 + 2 ^ 32 * p 4 + 2 ^ 40 * p 5
   else if has sel 0x40 then c 3 + 2 ^ 8 * c 4 + 2 ^ 16 * c 5 + 2 ^ 24 * Z.land sel 15
   else ((c 4 + 2 ^ 8 * c 5) * 16 + Z.land sel 15) * 63 + c 3 - 1,
   if count =? 0 then if ext then 65536 else 256 else count).

Definition after_send (l : list (list Z)) : ata_phase := match l with [] => Idle | _ => Sending l end.
Definition after_take (j b n : Z) : ata_phase := if n =? 1 then Idle else Taking j (b + 1) (n - 1).

(** The laws are for commands and parameters written to a drive that is neither busy nor in a transfer, and for sectors the drive has; a drive
    that is busy is so for fewer than [ad_patience] looks at the status. *)
Class AtaDrive (D : Type) `{Ports D} (base ctrl : Z) := {
  ad_view : D -> drive_view;
  ad_busy : D -> nat;
  ad_patience : nat;
  ad_capacity : Z -> Z;
  ad_busy_bound : forall d, (ad_busy d < ad_patience)%nat;
  ad_ports : 0 <= base < 2 ^ 16 - 16 /\ 0 <= ctrl < 2 ^ 16 - 16;
  ad_control : forall d v, runs (outb (ctrl + 2) v) d (fun _ d' => ad_view d' = ad_view d /\ ad_busy d' = ad_busy d);
  ad_status : forall d p, p = base + 7 \/ p = ctrl + 2 ->
    runs (inb p) d (fun v d' => ad_view d' = ad_view d /\
      match ad_busy d with
      | O => ad_busy d' = O /\ has v ATA_SR_BSY = false /\ has v ATA_SR_ERR = false /\ has v ATA_SR_DF = false
      | Datatypes.S n => has v ATA_SR_BSY = true /\ ad_busy d' = n
      end);
  ad_param : forall d r v, 2 <= r <= 6 -> ad_busy d = O -> dv_phase (ad_view d) = Idle ->
    runs (outb (base + r) v) d (fun _ d' => ad_view d' = with_reg r v (ad_view d) /\ ad_busy d' = O);
  ad_read : forall d ext j b n, ad_busy d = O -> dv_phase (ad_view d) = Idle -> addressed ext (ad_view d) = (j, b, n) ->
    0 <= b -> b + n <= ad_capacity j -> (ext = false -> b + n <= 2 ^ 28) ->
    runs (outb (base + 7) (if ext then ATA_CMD_PIO_READ_EXT else ATA_CMD_PIO_READ)) d (fun _ d' =>
      ad_view d' = with_phase (Sending (dv_sector (ad_view d) j <$> seqZ b n)) (ad_view d));
  ad_send : forall d x l, ad_busy d = O -> dv_phase (ad_view d) = Sending (x :: l) ->
    runs (insw base 256) d (fun r d' => r = x /\ ad_view d' = with_phase (after_send l) (ad_view d));
  ad_write : forall d ext j b n, ad_busy d = O -> dv_phase (ad_view d) = Idle -> addressed ext (ad_view d) = (j, b, n) ->
    0 <= b -> b + n <= ad_capacity j -> (ext = false -> b + n <= 2 ^ 28) ->
    runs (outb (base + 7) (if ext then ATA_CMD_PIO_WRITE_EXT else ATA_CMD_PIO_WRITE)) d (fun _ d' => ad_view d' = with_phase (Taking j b n) (ad_view d));
  ad_take : forall d j b n l, ad_busy d = O -> dv_phase (ad_view d) = Taking j b n -> length l = 512%nat ->
    runs (outsw base l) d (fun _ d' => ad_view d' = with_phase (after_take j b n) (with_sector j b l (ad_view d)));
  ad_flush : forall d (ext : bool), ad_busy d = O -> dv_phase (ad_view d) = Idle ->
    runs (outb (base + 7) (if ext then ATA_CMD_CACHE_FLUSH_EXT else ATA_CMD_CACHE_FLUSH)) d (fun _ d' => ad_view d' = ad_view d);
}.

(** *** Addresses *)

Ltac pow2s := change (2 ^ 0) with 1 in *; change (2 ^ 4) with 16 in *; change (2 ^ 8) with 256 in *; change (2 ^ 16) with 65536 in *; change (2 ^ 24) with 16777216 in *; change (2 ^ 28) with 268435456 in *; change (2 ^ 32) with 4294967296 in *.
Lemma masked_byte x k m : 0 <= k -> m = Z.shiftl (Z.ones 8) k -> Z.land x m >>> k = (x / 2 ^ k) mod 2 ^ 8.
Proof. intros Hk ->. rewrite Z.shiftr_land, Z.shiftr_shiftl_l, Z.sub_diag, Z.shiftl_0_r, Z.land_ones, Z.shiftr_div_pow2 by lia. done. Qed.

Lemma bytes_of x : (x / 1) mod 256 + 256 * ((x / 256) mod 256) + 65536 * ((x / 65536) mod 256) + 16777216 * (x / 16777216) = x.
Proof.
  rewrite Z.div_1_r. replace (x / 16777216) with (x / 256 / 256 / 256) by by rewrite !Z.div_div by lia. replace (x / 65536) with (x / 256 / 256) by by rewrite Z.div_div by lia.
  pose proof (Z.div_mod x 256 ltac:(lia)) as E1. pose proof (Z.div_mod (x / 256) 256 ltac:(lia)) as E2. pose proof (Z.div_mod (x / 256 / 256) 256 ltac:(lia)) as E3.
  generalize dependent (x / 256 / 256 / 256). generalize dependent (x / 256 / 256 mod 256). generalize dependent (x / 256 / 256). generalize dependent (x / 256 mod 256). generalize dependent (x / 256). generalize dependent (x mod 256). intros. lia.
Qed.

(** The registers stand for the sector asked for. *)
Lemma ide_address_spec features lba : 0 <= lba < 2 ^ 32 ->
  let '(mode, io, head) := ide_address features lba in
  0 <= head < 16 /\ Forall (fun v => 0 <= v < 2 ^ 8) io /\ nth 4 io 0 = 0 /\ nth 5 io 0 = 0 /\
  match mode with
  | 2 => 2 ^ 28 <= lba /\ nth 0 io 0 + 2 ^ 8 * nth 1 io 0 + 2 ^ 16 * nth 2 io 0 + 2 ^ 24 * nth 3 io 0 = lba
  | 1 => lba < 2 ^ 28 /\ has features ATA_FEATURE_LBA = true /\ nth 0 io 0 + 2 ^ 8 * nth 1 io 0 + 2 ^ 16 * nth 2 io 0 + 2 ^ 24 * head = lba
  | _ => mode = 0 /\ lba < 2 ^ 28 /\ has features ATA_FEATURE_LBA = false /\ (lba < 65536 * 16 * 63 -> ((nth 1 io 0 + 2 ^ 8 * nth 2 io 0) * 16 + head) * 63 + nth 0 io 0 - 1 = lba)
  end.
Proof.
  intros Hl. unfold ide_address. destruct (lba >=? 0x10000000) eqn:E; [|destruct (has features ATA_FEATURE_LBA) eqn:Ef].
  - apply Z.geb_le in E. rewrite (masked_byte lba 0), (masked_byte lba 8), (masked_byte lba 16), (masked_byte lba 24) by done. cbn [nth]. rewrite !Forall_cons, Forall_nil. pow2s. assert (0 <= lba / 16777216 < 256) by (split; [apply Z.div_pos|apply Z.div_lt_upper_bound]; lia). pose proof (bytes_of lba) as Hb.
    rewrite (Z.mod_small (lba / 16777216) 256) by done. repeat split; try done; try (apply Z.mod_pos_bound; lia); lia.
  - rewrite Z.geb_leb in E. apply Z.leb_gt in E. rewrite (masked_byte lba 0), (masked_byte lba 8), (masked_byte lba 16) by done.
    assert (Eh : Z.land lba 0xF000000 >>> 24 = (lba / 2 ^ 24) mod 2 ^ 4) by (change 0xF000000 with (Z.shiftl (Z.ones 4) 24); by rewrite Z.shiftr_land, Z.shiftr_shiftl_l, Z.sub_diag, Z.shiftl_0_r, Z.land_ones, Z.shiftr_div_pow2 by lia).
    rewrite Eh. cbn [nth]. rewrite !Forall_cons, Forall_nil. pow2s. assert (0 <= lba / 16777216 < 16) by (split; [apply Z.div_pos|apply Z.div_lt_upper_bound]; lia). pose proof (bytes_of lba) as Hb.
    rewrite (Z.mod_small (lba / 16777216) 16) by done. repeat split; try done; try (apply Z.mod_pos_bound; lia); lia.
  - rewrite Z.geb_leb in E. apply Z.leb_gt in E. pose proof (Z.mod_pos_bound lba 63 ltac:(lia)) as Hm. pose proof (Z.div_mod lba 63 ltac:(lia)) as Hd. unfold uwrap. rewrite (Z.mod_small (lba mod 63 + 1)) by (pow2s; lia).
    replace (lba + 1 - (lba mod 63 + 1)) with (63 * (lba / 63)) by lia. rewrite (Z.mod_small (63 * (lba / 63))) by (pow2s; lia). set (t := lba / 63) in *. assert (Ht : 0 <= t) by (subst t; apply Z.div_pos; lia).
    assert (Eh : (63 * t) mod (16 * 63) / 63 = t mod 16) by (rewrite (Z.mul_comm 16 63), Z.mul_mod_distr_l, Z.mul_comm, Z.div_mul by lia; done). assert (Ec : 63 * t / (16 * 63) = t / 16) by (rewrite (Z.mul_comm 16 63), Z.div_mul_cancel_l by lia; done).
    rewrite Eh, Ec. pose proof (Z.mod_pos_bound t 16 ltac:(lia)). rewrite (Z.mod_small (t mod 16)) by (pow2s; lia). rewrite Z.shiftr_0_r. change 0xFF with (Z.ones 8). rewrite !Z.land_ones, Z.shiftr_div_pow2 by lia. cbn [nth]. rewrite !Forall_cons, Forall_nil.
    pose proof (Z.div_mod t 16 ltac:(lia)) as Hd2. assert (0 <= t / 16) by (apply Z.div_pos; lia). generalize dependent (t / 16). intros c Hd2 Hc. split; [lia|]. split; [repeat split; try (apply Z.mod_pos_bound; lia); pow2s; lia|]. do 3 (split; [done|]). split; [pow2s; lia|]. split; [done|].
    intros Hbound. assert (c < 2 ^ 16) by (pow2s; lia). rewrite (Z.mod_small c) by lia. pow2s. pose proof (Z.div_mod c 256 ltac:(lia)) as Hd3. assert (0 <= c / 256 < 256) by (split; [apply Z.div_pos|apply Z.div_lt_upper_bound]; lia). rewrite (Z.mod_small (c / 256)) by lia. lia.
Qed.

Lemma devsel_spec (lba : bool) j head : 0 <= j <= 1 -> 0 <= head < 16 ->
  let sel := u8 (Z.lor (Z.lor (if lba then ATA_MODE_LBA else ATA_MODE_CHS) (j <<< 4)) head) in
  Z.land (sel >>> 4) 1 = j /\ has sel 0x40 = lba /\ Z.land sel 15 = head.
Proof.
  intros Hj Hh.
  assert (Hall : forallb (fun j => forallb (fun head => let sel := u8 (Z.lor (Z.lor (if lba then ATA_MODE_LBA else ATA_MODE_CHS) (j <<< 4)) head) in
    (Z.land (sel >>> 4) 1 =? j) && Bool.eqb (has sel 0x40) lba && (Z.land sel 15 =? head)) (seqZ 0 16)) (seqZ 0 2) = true) by (by destruct lba; vm_compute).
  rewrite forallb_forall in Hall. specialize (Hall j). rewrite <- list_elem_of_In, elem_of_seqZ in Hall. specialize (Hall ltac:(lia)).
  rewrite forallb_forall in Hall. specialize (Hall head). rewrite <- list_elem_of_In, elem_of_seqZ in Hall. specialize (Hall ltac:(lia)).
  cbv zeta in Hall |- *. apply andb_true_iff in Hall as [[H1%Z.eqb_eq H2%eqb_prop]%andb_true_iff H3%Z.eqb_eq]. done.
Qed.

(** *** The driver over such a drive *)

Section Pio.
Context {D : Type} `{P : Ports D} (base ctrl : Z) `{A : !AtaDrive D base ctrl}.

(** Channel [ch] is the drive's. *)
Definition on_channel (s : ide D) (ch : Z) : Prop := 0 <= ch < 2 /\ ch_base (channels s ch) = base /\ ch_ctrl (channels s ch) = ctrl.

Lemma set_hw_twice (a b : D) s : set_hw a (set_hw b s) = set_hw a s.
Proof. reflexivity. Qed.
Lemma set_hw_same (s : ide D) : set_hw (hw s) s = s.
Proof. by destruct s. Qed.

Lemma at_port_spec {T} s ch reg p (m : Z -> M D T) (Q : T -> ide D -> Prop) : on_channel s ch -> port_of (channels s ch) reg = Some p ->
  runs (m p) (hw s) (fun v d => Q v (set_hw d s)) -> runs (at_port ch reg m) s Q.
Proof.
  intros (Hch & _) Hp HQ. unfold at_port, channel_at. mstep. eapply runs_read; [by rewrite (proj2 (Z.leb_le 0 ch)), (proj2 (Z.ltb_lt ch 2)) by lia|]. rewrite Hp. unfold in_hw. by apply runs_lift.
Qed.

Lemma port_low s ch r : on_channel s ch -> 0 <= r < 8 -> port_of (channels s ch) r = Some (base + r).
Proof. intros (_ & Hb & _) Hr. pose proof ad_ports as [Hp _]. unfold port_of. rewrite (proj2 (Z.ltb_lt r 8)), Hb, uwrap_small by lia. done. Qed.
Lemma port_high s ch r : on_channel s ch -> 8 <= r < 12 -> port_of (channels s ch) r = Some (base + (r - 6)).
Proof. intros (_ & Hb & _) Hr. pose proof ad_ports as [Hp _]. unfold port_of. rewrite (proj2 (Z.ltb_ge r 8)), (proj2 (Z.ltb_lt r 12)), Hb, uwrap_small by lia. f_equal. lia. Qed.
Lemma port_control s ch : on_channel s ch -> port_of (channels s ch) ATA_REG_CONTROL = Some (ctrl + 2).
Proof. intros (_ & _ & Hc). pose proof ad_ports as [_ Hp]. unfold port_of, ATA_REG_CONTROL. cbn. rewrite Hc, uwrap_small by lia. f_equal. lia. Qed.

Lemma no_hob {T} s ch reg (m : M (ide D) T) (Q : T -> ide D -> Prop) : hob_reg reg = false -> runs m s Q -> runs (with_hob ch reg m) s Q.
Proof. intros Hr HQ. unfold with_hob. rewrite Hr. do 3 mstep. eapply runs_mono; [exact HQ|]. intros v s' Hv. do 3 mstep. done. Qed.

(** The drive is ready for a command. *)
Definition ready (d : D) : Prop := ad_busy d = O /\ dv_phase (ad_view d) = Idle.

Lemma write_param s ch r v (Q : unit -> ide D -> Prop) : on_channel s ch -> ready (hw s) -> 2 <= r <= 6 ->
  (forall d, ad_view d = with_reg r (u8 v) (ad_view (hw s)) -> ad_busy d = O -> Q tt (set_hw d s)) -> runs (ide_mmio_write ch r v) s Q.
Proof.
  intros Hch [Hb Hi] Hr HQ. unfold ide_mmio_write. apply no_hob. { unfold hob_reg. destruct (Z.gtb_spec r 7); [lia|done]. }
  eapply at_port_spec; [exact Hch|by apply port_low; [done|lia]|]. eapply runs_mono; [by apply ad_param|]. intros [] d [E1 E2]. by apply HQ.
Qed.

Lemma write_control s ch v (Q : unit -> ide D -> Prop) : on_channel s ch ->
  (forall d, ad_view d = ad_view (hw s) -> ad_busy d = ad_busy (hw s) -> Q tt (set_hw d s)) -> runs (at_port ch ATA_REG_CONTROL (fun p => outb p v)) s Q.
Proof. intros Hch HQ. eapply at_port_spec; [exact Hch|by apply port_control|]. eapply runs_mono; [apply ad_control|]. intros [] d [E1 E2]. by apply HQ. Qed.

(** One of the registers 8 to 11: what was in the register below it becomes the previous value. *)
Lemma write_high s ch r v (Q : unit -> ide D -> Prop) : on_channel s ch -> ready (hw s) -> 8 <= r < 12 ->
  (forall d, ad_view d = with_reg (r - 6) (u8 v) (ad_view (hw s)) -> ad_busy d = O -> Q tt (set_hw d s)) -> runs (ide_mmio_write ch r v) s Q.
Proof.
  intros Hch [Hb Hi] Hr HQ. unfold ide_mmio_write, with_hob. assert (hob_reg r = true) as ->. { unfold hob_reg. destruct (Z.gtb_spec r 7); [|lia]. destruct (Z.ltb_spec r 12); [done|lia]. }
  pose proof Hch as (Hc & _). do 2 mstep. unfold channel_at at 1. eapply runs_read; [by rewrite (proj2 (Z.leb_le 0 ch)), (proj2 (Z.ltb_lt ch 2)) by lia|]. eapply write_control; [exact Hch|]. intros d1 V1 B1. mstep.
  eapply at_port_spec; [exact Hch|by apply port_high; [exact Hch|lia]|]. eapply runs_mono; [apply ad_param; [lia|cbn; congruence|cbn; congruence]|]. intros [] d2 [V2 B2]. rewrite set_hw_twice. do 2 mstep.
  unfold channel_at at 1. eapply runs_read; [by rewrite (proj2 (Z.leb_le 0 ch)), (proj2 (Z.ltb_lt ch 2)) by lia|]. eapply write_control; [exact Hch|]. intros d3 V3 B3. rewrite set_hw_twice. mstep. apply HQ; [|cbn in *; congruence].
  rewrite V3. cbn in *. by rewrite V2, V1.
Qed.

(** A look at the status. *)
Lemma read_status s ch r (Q : Z -> ide D -> Prop) : on_channel s ch -> r = ATA_REG_STATUS \/ r = ATA_REG_ALTSTATUS ->
  (forall v d, ad_view d = ad_view (hw s) -> (ad_busy (hw s) = O -> ad_busy d = O /\ has v ATA_SR_BSY = false /\ has v ATA_SR_ERR = false /\ has v ATA_SR_DF = false) ->
     (ad_busy (hw s) <> O -> has v ATA_SR_BSY = true /\ ad_busy (hw s) = Datatypes.S (ad_busy d)) -> Q v (set_hw d s)) ->
  runs (ide_mmio_read ch r) s Q.
Proof.
  intros Hch Hr HQ. unfold ide_mmio_read. apply no_hob; [by destruct Hr as [->| ->]|].
  assert (exists p, port_of (channels s ch) r = Some p /\ (p = base + 7 \/ p = ctrl + 2)) as (p & Hp & Hp'). { destruct Hr as [->| ->]; [exists (base + 7)|exists (ctrl + 2)]; (split; [|by auto]); [by apply port_low; [done|unfold ATA_REG_STATUS; lia]|by apply port_control]. }
  eapply at_port_spec; [exact Hch|exact Hp|]. eapply runs_mono; [by apply ad_status|]. intros v d [V B]. apply HQ; [done|..]; destruct (ad_busy (hw s)) as [|n]; try done. intros _. destruct B as [? <-]. done.
Qed.

Lemma wait_ready_spec s ch (Q : Z -> ide D -> Prop) : on_channel s ch ->
  (forall v d, ad_view d = ad_view (hw s) -> ad_busy d = O -> has v ATA_SR_ERR = false -> has v ATA_SR_DF = false -> Q v (set_hw d s)) ->
  runs (ide_wait_ready ad_patience ch) s Q.
Proof.
  intros Hch HQ. unfold ide_wait_ready. apply (runs_iterM (fun _ s' => exists d, s' = set_hw d s /\ ad_view d = ad_view (hw s)) (fun _ s' => ad_busy (hw s'))).
  - intros [] s' (d & -> & V). mstep. eapply read_status; [exact Hch|by left|]. intros v d' V' B0 B1. rewrite set_hw_twice. mstep. cbn [hw set_hw] in *. destruct (ad_busy d) as [|n].
    + destruct (B0 eq_refl) as (E1 & E2 & E3 & E4). rewrite E2. apply HQ; [congruence|done..].
    + destruct (B1 ltac:(done)) as [-> E]. split; [exists d'; split; [done|congruence]|lia].
  - exists (hw s). by rewrite set_hw_same.
  - apply ad_busy_bound.
Qed.

Lemma ide_poll_spec s ch drq (Q : Z -> ide D -> Prop) : on_channel s ch ->
  (forall e d, ad_view d = ad_view (hw s) -> ad_busy d = O -> (drq = true -> e = 0) -> Q e (set_hw d s)) -> runs (ide_poll ad_patience ch drq) s Q.
Proof.
  intros Hch HQ. unfold ide_poll. mstep. eapply runs_mono.
  { apply (runs_forM (fun _ s' => exists d, s' = set_hw d s /\ ad_view d = ad_view (hw s))).
    - exists (hw s). by rewrite set_hw_same.
    - intros k s' _ (d & -> & V). mstep. eapply read_status; [exact Hch|by right|]. intros v d' V' _ _. rewrite set_hw_twice. mstep. exists d'. split; [done|]. cbn in V'. congruence. }
  intros [] s' (d & -> & V). unfold ide_error. do 2 mstep. eapply wait_ready_spec; [exact Hch|]. intros v d' V' B E F. rewrite set_hw_twice, E, F. cbn [hw set_hw] in V'. mstep. cbn [Z.eqb negb IDE_ESUCCESS]. destruct drq; cbn [negb].
  - mstep. apply HQ; [congruence|done|done].
  - mstep. eapply read_status; [exact Hch|by left|]. intros v' d2 V2 B0 _. rewrite set_hw_twice. cbn [hw set_hw] in *. mstep. apply HQ; [congruence|by apply B0|done].
Qed.

(** *** Sectors by the processor *)

Lemma base_spec s ch (Q : ide_channel -> ide D -> Prop) : on_channel s ch -> Q (channels s ch) s -> runs (channel_at ch) s Q.
Proof. intros (Hc & _) HQ. unfold channel_at. eapply runs_read; [by rewrite (proj2 (Z.leb_le 0 ch)), (proj2 (Z.ltb_lt ch 2)) by lia|done]. Qed.

Lemma pio_read_loop ch n : n <> 0 -> n < 256 -> forall l fuel s i got (Q : transfer -> ide D -> Prop), on_channel s ch -> 0 <= i -> i + Z.of_nat (length l) = n -> (length l < fuel)%nat ->
  dv_phase (ad_view (hw s)) = after_send l ->
  (forall d, ad_view d = with_phase Idle (ad_view (hw s)) -> Q (Transfered n (got ++ concat l)) (set_hw d s)) ->
  runs (iterM fuel (fun '(i, transfered, got) =>
    if i <? (if n =? 0 then 256 else n) then
      err ← ide_poll ad_patience ch true;
      if negb (err =? 0) then mret (inr (Transfered err got))
      else
        c ← channel_at ch;
        l ← in_hw (insw (ch_base c) (512 / 2));
        mret (inl (u16 (i + 1), u32 (transfered + 512), got ++ l))
    else mret (inr (Transfered (transfered / 512) got))) (i, 512 * i, got)) s Q.
Proof.
  intros Hn0 Hn. induction l as [|x l IH]; intros fuel s i got Q Hch Hi Hlen Hfuel Hph HQ; (destruct fuel as [|fuel]; [cbn in Hfuel; lia|]); apply runs_iterM_S; cbn [length] in *; destruct (Z.eqb_spec n 0); [done| |done|].
  - rewrite (proj2 (Z.ltb_ge i n)) by lia. mstep. replace (512 * i / 512) with n by (rewrite Z.mul_comm, Z.div_mul by lia; lia). specialize (HQ (hw s)). rewrite set_hw_same in HQ. cbn [concat] in HQ. rewrite app_nil_r in HQ. apply HQ.
    cbn [after_send] in Hph. unfold with_phase. rewrite <- Hph. by destruct (ad_view (hw s)).
  - rewrite (proj2 (Z.ltb_lt i n)) by lia. mstep. eapply ide_poll_spec; [exact Hch|]. intros e d V B He. rewrite (He eq_refl). cbn [Z.eqb negb]. mstep. eapply base_spec; [exact Hch|].
    mstep. unfold in_hw. apply runs_lift. cbn [hw set_hw channels]. pose proof Hch as (_ & Eb & _). rewrite Eb. change (512 / 2) with 256. eapply runs_mono; [apply (ad_send d x l); [done|by rewrite V]|]. intros r d' [-> V']. rewrite set_hw_twice. mstep.
    rewrite (uwrap_small 16), (uwrap_small 32) by lia. replace (512 * i + 512) with (512 * (i + 1)) by lia. eapply IH; [exact Hch|lia|lia|lia| |].
    + cbn. by rewrite V'.
    + intros d2 V2. cbn [hw set_hw] in V2. rewrite set_hw_twice. rewrite <- app_assoc. apply HQ. by rewrite V2, V', V.
Qed.

Lemma pio_read_spec s ch n l (Q : transfer -> ide D -> Prop) : on_channel s ch -> 0 < n < 256 -> Z.of_nat (length l) = n -> dv_phase (ad_view (hw s)) = Sending l ->
  (forall d, ad_view d = with_phase Idle (ad_view (hw s)) -> Q (Transfered n (concat l)) (set_hw d s)) -> runs (pio_read ad_patience ch n) s Q.
Proof.
  intros Hch Hn Hlen Hph HQ. unfold pio_read. eapply (pio_read_loop ch n ltac:(lia) ltac:(lia) l 257 s 0 []); [exact Hch|lia|lia|lia|by destruct l; cbn in Hlen; [lia|]|exact HQ].
Qed.

(** The disk with the sectors [ls] stored from [b] on. *)
Fixpoint store (j b : Z) (ls : list (list Z)) (f : Z -> Z -> list Z) : Z -> Z -> list Z :=
  match ls with [] => f | x :: ls' => store j (b + 1) ls' (<[j := <[b := x]> (f j)]> f) end.
Definition stored (j b : Z) (ls : list (list Z)) (w : drive_view) : drive_view := DriveView (dv_cur w) (dv_prev w) Idle (store j b ls (dv_sector w)).

Lemma sector_at_spec buff i n : Z.of_nat (length buff) = 512 * n -> 0 <= i < n ->
  sector_at buff (512 * i) = Some (take 512 (drop (Z.to_nat (512 * i)) buff)) /\ length (take 512 (drop (Z.to_nat (512 * i)) buff)) = 512%nat.
Proof. intros Hl Hi. unfold sector_at. rewrite (proj2 (Z.leb_le _ _)) by lia. split; [done|]. rewrite length_take, length_drop. lia. Qed.

Lemma pio_write_loop ch n buff j : n <> 0 -> n < 256 -> Z.of_nat (length buff) = 512 * n ->
  (forall d b l, ad_busy d = O -> dv_phase (ad_view d) = Taking j b 1 -> runs (outsw base l) d (fun _ d' => ad_busy d' = O)) ->
  forall m fuel s i b (Q : Z -> ide D -> Prop), on_channel s ch -> 0 <= i -> i + Z.of_nat m = n -> (m < fuel)%nat ->
  dv_phase (ad_view (hw s)) = (if (m =? 0)%nat then Idle else Taking j b (Z.of_nat m)) -> (m = O -> ad_busy (hw s) = O) ->
  (forall d, ad_view d = stored j b ((fun i => take 512 (drop (Z.to_nat (512 * i)) buff)) <$> seqZ i (Z.of_nat m)) (ad_view (hw s)) -> ad_busy d = O -> Q (512 * n) (set_hw d s)) ->
  runs (iterM fuel (fun '(i, transfered, off) =>
    if i <? (if n =? 0 then 256 else n) then
      _ ← ide_poll ad_patience ch false;
      c ← channel_at ch;
      l ← read (fun _ => sector_at buff off);
      in_hw (outsw (ch_base c) l);;
      mret (inl (u16 (i + 1), u32 (transfered + 512), if false then off else off + 512))
    else mret (inr transfered)) (i, 512 * i, 512 * i)) s Q.
Proof.
  intros Hn0 Hn Hbuff Hprompt. induction m as [|m IH]; intros fuel s i b Q Hch Hi Hlen Hfuel Hph Hbz HQ; (destruct fuel as [|fuel]; [cbn in Hfuel; lia|]); apply runs_iterM_S; destruct (Z.eqb_spec n 0); [done| |done|].
  - rewrite (proj2 (Z.ltb_ge i n)) by lia. mstep. replace (512 * i) with (512 * n) by lia. rewrite <- (set_hw_same s). apply HQ; [|by apply Hbz]. cbn. cbn in Hph. unfold stored. cbn. rewrite <- Hph. by destruct (ad_view (hw s)).
  - rewrite (proj2 (Z.ltb_lt i n)) by lia. mstep. eapply ide_poll_spec; [exact Hch|]. intros e d V B _. mstep. eapply base_spec; [exact Hch|]. destruct (sector_at_spec buff i n Hbuff ltac:(lia)) as [Es El]. mstep. eapply runs_read; [exact Es|].
    set (x := take 512 _) in *. mstep. unfold in_hw. apply runs_lift. cbn [hw set_hw channels]. pose proof Hch as (_ & Eb & _). rewrite Eb. cbn [Nat.eqb] in Hph.
    assert (T : runs (outsw base x) d (fun _ d' => ad_view d' = with_phase (after_take j b (Z.of_nat (Datatypes.S m))) (with_sector j b x (ad_view d)))) by (apply (ad_take d j b _ x); [done|by rewrite V|exact El]).
    assert (T' : runs (outsw base x) d (fun _ d' => m = O -> ad_busy d' = O)).
    { destruct m as [|m]; [eapply runs_mono; [apply (Hprompt d b x B); by rewrite V|done]|]. eapply runs_mono; [exact T|done]. }
    eapply runs_mono; [exact (runs_and _ _ _ _ T T')|].
    intros [] d' [V' B']. rewrite set_hw_twice. mstep. rewrite (uwrap_small 16), (uwrap_small 32) by lia. replace (512 * i + 512) with (512 * (i + 1)) by lia. eapply (IH fuel _ _ (b + 1)); [exact Hch|lia|lia|lia| |exact B'|].
    + cbn [hw set_hw]. rewrite V'. cbn [with_phase dv_phase]. unfold after_take. destruct m as [|m]; [done|]. rewrite (proj2 (Z.eqb_neq _ 1)) by lia. cbn [Nat.eqb]. f_equal. lia.
    + intros d2 V2 B2. cbn [hw set_hw] in V2. rewrite set_hw_twice. apply HQ; [|done]. rewrite (seqZ_cons i) by lia. replace (Z.pred (Z.of_nat (Datatypes.S m))) with (Z.of_nat m) by lia. cbn [fmap list_fmap]. rewrite V2, V', V. reflexivity.
Qed.

(** ** A whole transfer *)

Lemma write_address_spec s ch features lba mode io head j n (Q : unit -> ide D -> Prop) : on_channel s ch -> ready (hw s) -> ide_address features lba = (mode, io, head) -> 0 <= lba < 2 ^ 32 ->
  (mode = 0 -> lba < 65536 * 16 * 63) -> 0 <= j <= 1 -> 0 < n < 256 ->
  (forall d, ready d -> dv_sector (ad_view d) = dv_sector (ad_view (hw s)) -> addressed (mode =? 2) (ad_view d) = (j, lba, n) -> Q tt (set_hw d s)) ->
  runs (write_address ch mode io head j n) s Q.
Proof.
  intros Hch [Hb Hi] Eio Hlba Hchs Hj Hn HQ. pose proof (ide_address_spec features lba Hlba) as Ha. rewrite Eio in Ha. destruct Ha as (Hhead & Hio & E4 & E5 & Hmode).
  assert (Hnth : forall k, u8 (nth k io 0) = nth k io 0). { intros k. apply uwrap_small. destruct (nth_in_or_default k io 0) as [Hin| ->]; [|lia]. rewrite Forall_forall in Hio. apply Hio. by apply list_elem_of_In. }
  destruct (devsel_spec (negb (mode =? 0)) j head Hj Hhead) as (S1 & S2 & S3). set (sel := u8 _) in *. unfold write_address. mstep. eapply write_param; [exact Hch|by split|unfold ATA_REG_HDDEVSEL; lia|]. intros d1 V1 B1. fold sel in V1.
  destruct (Z.gtb_spec n 255) as [|_]; [lia|]. assert (En : u8 n = n) by (apply uwrap_small; lia).
  assert (Hlow : forall d, ready d -> dv_sector (ad_view d) = dv_sector (ad_view (hw s)) -> dv_cur (ad_view d) 6 = sel ->
    (mode = 2 -> dv_cur (ad_view d) 2 = 0 /\ dv_cur (ad_view d) 3 = nth 3 io 0 /\ dv_cur (ad_view d) 4 = 0 /\ dv_cur (ad_view d) 5 = 0) ->
    runs (ide_mmio_write ch ATA_REG_SECdevice0 n;; ide_mmio_write ch ATA_REG_LBA0 (nth 0 io 0);; ide_mmio_write ch ATA_REG_LBA1 (nth 1 io 0);; ide_mmio_write ch ATA_REG_LBA2 (nth 2 io 0)) (set_hw d s) Q).
  { intros d [B I] W Es Hhigh. mstep. eapply write_param; [exact Hch|by split|unfold ATA_REG_SECdevice0; lia|]. intros d2 V2 B2. mstep. eapply write_param; [exact Hch|by split; [|cbn; rewrite V2]|unfold ATA_REG_LBA0; lia|]. intros d3 V3 B3. mstep.
    eapply write_param; [exact Hch|by split; [|cbn; rewrite V3; cbn; rewrite V2]|unfold ATA_REG_LBA1; lia|]. intros d4 V4 B4. eapply write_param; [exact Hch|by split; [|cbn; rewrite V4; cbn; rewrite V3; cbn; rewrite V2]|unfold ATA_REG_LBA2; lia|]. intros d5 V5 B5.
    rewrite !set_hw_twice in *. cbn [hw set_hw] in *. rewrite V4, V3, V2, !Hnth, En in V5. unfold ATA_REG_SECdevice0, ATA_REG_LBA0, ATA_REG_LBA1, ATA_REG_LBA2 in V5. apply HQ; [by split; [|rewrite V5]|by rewrite V5|].
    unfold addressed. rewrite V5. cbn [with_reg dv_cur dv_prev]. repeat first [rewrite fn_insert_eq|rewrite fn_insert_ne by lia]. rewrite Es, S1, S2, S3. destruct (Z.eqb_spec mode 2) as [Em|Em].
    - destruct (Hhigh Em) as (Q2 & Q3 & Q4 & Q5). rewrite Q2, Q3, Q4, Q5. subst mode. destruct Hmode as [_ Hmode]. replace (n + 256 * 0) with n by lia. rewrite (proj2 (Z.eqb_neq n 0)) by lia. f_equal. f_equal. pow2s. lia.
    - rewrite (proj2 (Z.eqb_neq n 0)) by lia. f_equal. f_equal. destruct (Z.eqb_spec mode 0) as [->|Hm0]; cbn [negb].
      + destruct Hmode as (_ & _ & _ & Hmode). specialize (Hmode (Hchs eq_refl)). pow2s. lia.
      + destruct mode as [|[p|[p|p|]|]|p]; try done; try (exfalso; destruct Hmode as [Hm _]; lia). destruct Hmode as (_ & _ & Hmode). pow2s. lia. }
  mstep. destruct (Z.eqb_spec mode 2) as [Em|Em].
  - assert (R1 : forall d v, ad_view d = v -> ad_busy d = O -> dv_phase v = Idle -> ready d) by (intros d v <- ? ?; by split).
    unfold ATA_REG_SECdevice1, ATA_REG_LBA3, ATA_REG_LBA4, ATA_REG_LBA5. mstep. eapply write_high; [exact Hch|by eapply R1|lia|]. intros d2 V2 B2. rewrite set_hw_twice. cbn [hw set_hw] in V2. rewrite V1 in V2.
    mstep. eapply write_high; [exact Hch|by eapply R1|lia|]. intros d3 V3 B3. rewrite set_hw_twice. cbn [hw set_hw] in V3. rewrite V2 in V3.
    mstep. eapply write_high; [exact Hch|by eapply R1|lia|]. intros d4 V4 B4. rewrite set_hw_twice. cbn [hw set_hw] in V4. rewrite V3 in V4.
    eapply write_high; [exact Hch|by eapply R1|lia|]. intros d5 V5 B5. rewrite set_hw_twice. cbn [hw set_hw] in V5. rewrite V4, E4, E5, !Hnth in V5. apply Hlow; [by eapply R1|by rewrite V5| |].
    + rewrite V5. cbn [with_reg dv_cur]. repeat first [rewrite fn_insert_eq|rewrite fn_insert_ne by (unfold ATA_REG_HDDEVSEL; lia)]. done.
    + intros _. rewrite V5. cbn [with_reg dv_cur]. repeat split; by repeat first [rewrite fn_insert_eq|rewrite fn_insert_ne by (unfold ATA_REG_HDDEVSEL; lia)].
  - mstep. apply Hlow; [by split; [|rewrite V1]|by rewrite V1| |done]. rewrite V1. cbn [with_reg dv_cur]. by rewrite fn_insert_eq.
Qed.

(** A drive that the driver found on the channel, used without DMA, and sectors it has. *)
Record pio_device (s : ide D) (d : ide_device) (lba n : Z) : Prop := PioDevice {
  pd_channel : on_channel s (id_channel d);
  pd_drive : 0 <= id_drive d <= 1;
  pd_type : id_type d = TYPE_PATA;
  pd_nodma : has (id_features d) ATA_FEATURE_DMA = false;
  pd_size : id_size d <= ad_capacity (id_drive d) /\ id_size d < 2 ^ 32;
  pd_idle : dv_phase (ad_view (hw s)) = Idle;
  pd_lba : 0 <= lba /\ 0 < n < 256 /\ lba + n <= id_size d;
  pd_lba28 : lba < 2 ^ 28 -> lba + n <= 2 ^ 28;
  pd_chs : has (id_features d) ATA_FEATURE_LBA = false -> lba < 2 ^ 28 -> lba + n <= 65536 * 16 * 63;
}.

(** The state with the channel's interrupts off. *)
Definition masked (s : ide D) (ch : Z) : ide D := set_channels (<[ch := set_nIEN ATA_IRQ_OFF (channels s ch)]> (channels s)) s.

Lemma masked_channel s ch : on_channel s ch -> on_channel (masked s ch) ch.
Proof. intros (H1 & H2 & H3). split; [done|]. unfold masked. cbn. by rewrite fn_insert_eq. Qed.

Lemma pata_pio_spec s d n lba (write : bool) buff phys (Q : transfer -> ide D -> Prop) : pio_device s d lba n ->
  (forall w (ext : bool), ready w -> dv_sector (ad_view w) = dv_sector (ad_view (hw s)) -> addressed ext (ad_view w) = (id_drive d, lba, n) -> (ext = false -> lba + n <= 2 ^ 28) ->
     forall mode, (mode =? 2) = ext ->
     runs (ide_mmio_write (id_channel d) ATA_REG_COMMAND (ide_command mode false write);;
           (if negb write then pio_read ad_patience (id_channel d) n else pio_write ad_patience (id_channel d) n mode false buff)) (set_hw w (masked s (id_channel d))) Q) ->
  runs (pata_access ad_patience write false d n lba buff phys) s Q.
Proof.
  intros [Hch Hj Hty Hdma [Hcap Hsz] Hidle (Hl & Hn & Hfit) H28 Hchs] HQ. unfold pata_access. rewrite andb_false_r. destruct (ide_address (id_features d) lba) as [[mode io] head] eqn:Ea. rewrite Hdma, andb_false_r.
  pose proof (ide_address_spec (id_features d) lba ltac:(lia)) as Hsp. rewrite Ea in Hsp. destruct Hsp as (_ & _ & _ & _ & Hmode).
  do 2 mstep. unfold upd_channel. mstep. eapply base_spec; [exact Hch|]. mstep. fold (masked s (id_channel d)). pose proof (masked_channel s _ Hch) as Hch1. mstep. unfold ide_mmio_write at 1. apply no_hob; [done|]. eapply write_control; [exact Hch1|]. intros d1 V1 _.
  mstep. mstep. eapply wait_ready_spec; [exact Hch1|]. intros v d2 V2 B2 _ _. rewrite set_hw_twice. cbn [hw set_hw] in V2. rewrite V1 in V2. mstep.
  eapply (write_address_spec _ _ (id_features d) lba); [exact Hch1|split; [done|cbn; by rewrite V2]|exact Ea|lia| |done|done|].
  { intros ->. destruct Hmode as (_ & ? & ? & _). pose proof (Hchs ltac:(done) ltac:(done)). lia. }
  intros d3 R3 S3 A3. rewrite set_hw_twice. cbn [hw set_hw] in S3. destruct (Z.gtb_spec n 255); [lia|]. apply (HQ d3 (mode =? 2)); [done|by rewrite S3, V2|done| |done].
  intros Hm. apply H28. destruct mode as [|[p|[p|p|]|]|p]; try done; destruct Hmode as [? ?]; try lia.
Qed.

Lemma concat_blocks (f : Z -> list Z) l : concat (f <$> l) = l ≫= f.
Proof. induction l as [|x l IH]; [done|]. cbn. by rewrite IH. Qed.

(** What is the same afterwards, but for the disk's contents. *)
Definition settled (s s' : ide D) (d : ide_device) : Prop :=
  ide_devices s' = ide_devices s /\ ide_disks s' = ide_disks s /\ on_channel s' (id_channel d) /\ dv_phase (ad_view (hw s')) = Idle.

Lemma ide_read_spec s d lba n phys : pio_device s d lba n ->
  runs (ide_read_sectors ad_patience d n lba phys) s (fun r s' =>
    r = Transfered n (blocks_from (dv_sector (ad_view (hw s)) (id_drive d)) lba n) /\ dv_sector (ad_view (hw s')) = dv_sector (ad_view (hw s)) /\ settled s s' d).
Proof.
  intros Hd. pose proof Hd as [Hch Hj Hty Hdma [Hcap Hsz] Hidle (Hl & Hn & Hfit) H28 Hchs]. unfold ide_read_sectors, ide_transfer. rewrite (uwrap_small 64) by lia. destruct (Z.gtb_spec (lba + n) (id_size d)); [lia|]. rewrite Hty. cbn [Z.eqb TYPE_PATA].
  apply pata_pio_spec; [exact Hd|]. intros w ext [B I] Sw Aw E28 mode <-. cbn [negb]. mstep. pose proof (masked_channel s _ Hch) as Hch1. unfold ide_mmio_write. apply no_hob; [done|].
  eapply at_port_spec; [exact Hch1|by apply port_low; [exact Hch1|unfold ATA_REG_COMMAND; lia]|]. cbn [hw set_hw]. unfold ATA_REG_COMMAND. unfold ide_command. rewrite uwrap_small by (destruct (mode =? 2); unfold ATA_CMD_PIO_READ_EXT, ATA_CMD_PIO_READ; lia).
  eapply runs_mono; [by apply (ad_read w (mode =? 2) (id_drive d) lba n); [..|lia|exact E28]|]. intros [] d1 V1. rewrite set_hw_twice.
  eapply (pio_read_spec _ _ n (dv_sector (ad_view w) (id_drive d) <$> seqZ lba n)); [exact Hch1|exact Hn|by rewrite length_fmap, length_seqZ; lia|cbn; by rewrite V1|]. intros d2 V2. cbn [hw set_hw] in V2. rewrite set_hw_twice, concat_blocks, Sw. split; [done|]. cbn [hw set_hw]. rewrite V2, V1. split; [exact Sw|]. split; [done|]. split; [done|]. split; [exact Hch1|]. cbn. by rewrite V2.
Qed.

(** The drive takes the last sector of a write at once; a drive need not, and is busy after it as after the others. *)
Definition prompt : Prop := forall d j b l, ad_busy d = O -> dv_phase (ad_view d) = Taking j b 1 -> runs (outsw base l) d (fun _ d' => ad_busy d' = O).

Lemma ide_write_spec s d lba n buff phys : pio_device s d lba n -> prompt -> Z.of_nat (length buff) = 512 * n ->
  runs (ide_write_sectors ad_patience d n lba buff phys) s (fun r s' =>
    r = Transfered n [] /\ dv_sector (ad_view (hw s')) = store (id_drive d) lba ((fun i => take 512 (drop (Z.to_nat (512 * i)) buff)) <$> seqZ 0 n) (dv_sector (ad_view (hw s))) /\ settled s s' d).
Proof.
  intros Hd Hpr Hbuff. pose proof Hd as [Hch Hj Hty Hdma [Hcap Hsz] Hidle (Hl & Hn & Hfit) H28 Hchs]. unfold ide_write_sectors, ide_transfer. rewrite (uwrap_small 64) by lia. destruct (Z.gtb_spec (lba + n) (id_size d)); [lia|]. rewrite Hty. cbn [Z.eqb TYPE_PATA].
  apply pata_pio_spec; [exact Hd|]. intros w ext [B I] Sw Aw E28 mode <-. cbn [negb]. mstep. pose proof (masked_channel s _ Hch) as Hch1. unfold ide_mmio_write at 1. apply no_hob; [done|].
  eapply at_port_spec; [exact Hch1|by apply port_low; [exact Hch1|unfold ATA_REG_COMMAND; lia]|]. cbn [hw set_hw]. unfold ATA_REG_COMMAND at 1. unfold ide_command. rewrite uwrap_small by (destruct (mode =? 2); unfold ATA_CMD_PIO_WRITE_EXT, ATA_CMD_PIO_WRITE; lia).
  eapply runs_mono; [by apply (ad_write w (mode =? 2) (id_drive d) lba n); [..|lia|exact E28]|]. intros [] d1 V1. rewrite set_hw_twice. unfold pio_write. mstep.
  eapply (pio_write_loop _ n buff (id_drive d) ltac:(lia) ltac:(lia) Hbuff (fun d b l => Hpr d _ b l) (Z.to_nat n) 257 _ 0 lba); [exact Hch1|lia|lia|lia| |lia|].
  { cbn. rewrite V1. destruct (Nat.eqb_spec (Z.to_nat n) 0); [lia|]. by rewrite Z2Nat.id by lia. }
  rewrite Z2Nat.id by lia. intros d2 V2 B2. rewrite set_hw_twice. cbn [hw set_hw] in V2. mstep. unfold ide_mmio_write. apply no_hob; [done|].
  eapply at_port_spec; [exact Hch1|by apply port_low; [exact Hch1|unfold ATA_REG_COMMAND; lia]|]. cbn [hw set_hw]. unfold ATA_REG_COMMAND. rewrite uwrap_small by (destruct (mode =? 2); unfold ATA_CMD_CACHE_FLUSH_EXT, ATA_CMD_CACHE_FLUSH; lia).
  eapply runs_mono; [apply (ad_flush d2 (mode =? 2)); [done|by rewrite V2]|]. intros [] d3 V3. rewrite set_hw_twice. mstep. eapply ide_poll_spec; [exact Hch1|]. intros e d4 V4 _ _. rewrite set_hw_twice. cbn [hw set_hw] in V4. mstep.
  replace (512 * n / 512) with n by (rewrite Z.mul_comm, Z.div_mul by lia; lia). split; [done|]. cbn [hw set_hw]. rewrite V4, V3, V2, V1. split; [cbn; by rewrite Sw|]. split; [done|]. split; [done|]. split; [exact Hch1|]. cbn. by rewrite V4, V3, V2.
Qed.
End Pio.

(** ** What is stored *)

Lemma store_other j b ls f j' i : j' <> j \/ ~ b <= i < b + Z.of_nat (length ls) -> store j b ls f j' i = f j' i.
Proof.
  revert b f. induction ls as [|x ls IH]; intros b f Hne; [done|]. cbn [store length] in *. rewrite IH by lia. destruct (decide (j' = j)) as [->|Hj]; [|by rewrite fn_insert_ne by done]. rewrite fn_insert_eq. rewrite fn_insert_ne by lia. done.
Qed.

Lemma store_blocks j b ls f : blocks_from (store j b ls f j) b (Z.of_nat (length ls)) = concat ls.
Proof.
  revert b f. induction ls as [|x ls IH]; intros b f; [done|]. unfold blocks_from. rewrite seqZ_cons by (cbn; lia). replace (Z.pred (Z.of_nat (length (x :: ls)))) with (Z.of_nat (length ls)) by (cbn; lia). cbn [mbind list_bind store concat]. f_equal.
  - rewrite store_other by lia. by rewrite !fn_insert_eq.
  - specialize (IH (b + 1) (<[j := <[b := x]> (f j)]> f)). unfold blocks_from in IH. exact IH.
Qed.

(** A buffer is its sectors. *)
Lemma concat_sectors (n : nat) (buff : list Z) : length buff = (512 * n)%nat -> concat ((fun i => take 512 (drop (Z.to_nat (512 * i)) buff)) <$> seqZ 0 (Z.of_nat n)) = buff.
Proof.
  enough (H : forall m k, (k + m)%nat = n -> length buff = (512 * n)%nat -> concat ((fun i => take 512 (drop (Z.to_nat (512 * i)) buff)) <$> seqZ (Z.of_nat k) (Z.of_nat m)) = drop (512 * k) buff) by (intros Hl; by apply (H n O)).
  induction m as [|m IH]; intros k Hk Hl.
  - cbn. rewrite drop_ge by lia. done.
  - rewrite seqZ_cons by lia. replace (Z.pred (Z.of_nat (S m))) with (Z.of_nat m) by lia. cbn [fmap list_fmap concat]. replace (Z.succ (Z.of_nat k)) with (Z.of_nat (S k)) by lia. change (list_fmap _ _ ?f ?l) with (f <$> l). rewrite IH by lia.
    replace (Z.to_nat (512 * Z.of_nat k)) with (512 * k)%nat by lia. replace (512 * S k)%nat with (512 * k + 512)%nat by lia. rewrite <- drop_drop. apply take_drop.
Qed.

(** ** Theorems *)

Section Correct.
Context {D : Type} `{P : Ports D} (base ctrl : Z) `{A : !AtaDrive D base ctrl}.

Lemma device_at_spec (s : ide D) k (Q : ide_device -> ide D -> Prop) : 0 <= k < 4 -> Q (ide_devices s k) s -> runs (device_at k) s Q.
Proof. intros Hk HQ. unfold device_at. eapply runs_read; [by rewrite (proj2 (Z.leb_le 0 k)), (proj2 (Z.ltb_lt k 4)) by lia|done]. Qed.

Lemma pio_device_settled s s' d lba n lba' n' : pio_device base ctrl s d lba n -> settled base ctrl s s' d -> pio_device base ctrl s d lba' n' -> pio_device base ctrl s' d lba' n'.
Proof. intros [_ H1 H2 H3 H4 H5 _ _ _] (_ & _ & S1 & S2) [_ _ _ _ _ _ G1 G2 G3]. by split. Qed.


(** Writing, and reading back, for a drive that is [prompt]: the driver sends the flush command without waiting for the last sector to be taken ([ide_write_hasty]). *)
Theorem ide_write_prompt (s : ide D) k lba n buff phys lba' n' phys' : 0 <= k < 4 ->
  let d := ide_devices s k in
  pio_device base ctrl s d lba n -> pio_device base ctrl s d lba' n' -> prompt base ctrl -> Z.of_nat (length buff) = 512 * n ->
  runs (w ← ide_write ad_patience k buff lba n phys; r ← ide_read ad_patience k lba' n' phys'; mret (w, r)) s (fun x s' =>
    let f := dv_sector (ad_view (hw s)) in let f' := dv_sector (ad_view (hw s')) in
    x = (Transfered n [], Transfered n' (blocks_from (f' (id_drive d)) lba' n')) /\
    blocks_from (f' (id_drive d)) lba n = buff /\ (forall j i, j <> id_drive d \/ ~ lba <= i < lba + n -> f' j i = f j i) /\
    ide_devices s' = ide_devices s /\ ide_disks s' = ide_disks s /\ dv_phase (ad_view (hw s')) = Idle).
Proof.
  intros Hk d Hd Hd' Hpr Hbuff. pose proof (pd_lba _ _ _ _ _ _ Hd) as (_ & Hn & _). mstep. unfold ide_write. mstep. apply device_at_spec; [exact Hk|]. fold d. eapply runs_mono; [by apply ide_write_spec|]. intros w s1 (-> & V1 & S1).
  pose proof S1 as (E1 & E2 & _ & _). mstep. unfold ide_read. mstep. apply device_at_spec; [exact Hk|]. rewrite E1. fold d. eapply runs_mono; [apply ide_read_spec; by eapply pio_device_settled|]. intros r s2 (-> & V2 & S2 & S3 & _ & S4). mstep. cbv zeta. rewrite V2.
  split; [done|]. set (ls := _ <$> seqZ 0 n) in V1. assert (Hls : Z.of_nat (length ls) = n) by (unfold ls; rewrite length_fmap, length_seqZ; lia). split; [|split; [|split; [congruence|split; [congruence|exact S4]]]].
  - rewrite V1. rewrite <- Hls. rewrite store_blocks. subst ls. rewrite <- (Z2Nat.id n) by lia. apply concat_sectors. lia.
  - intros j i Hi. rewrite V1. apply store_other. by rewrite Hls.
Qed.

(** An error is a byte, so the driver answers it as 255 blocks read. *)
Theorem pio_read_error (s : ide D) ch n : 0 <= n -> runs (ide_poll ad_patience ch true) s (fun e _ => e = u8 IDE_EERROR) -> runs (pio_read ad_patience ch n) s (fun r _ => r = Transfered 255 []).
Proof.
  intros Hn He. unfold pio_read. apply runs_iterM_S. assert ((0 <? (if n =? 0 then 256 else n)) = true) as -> by (apply Z.ltb_lt; destruct (Z.eqb_spec n 0); lia). mstep. eapply runs_mono; [exact He|]. by intros e s' ->.
Qed.
End Correct.

(** *** Descriptors *)

Definition prd_address (v : Z) : Z := Z.land v 0xFFFFFFFF.
(** A length of 0 stands for 64 KB. *)
Definition prd_length (v : Z) : Z := let n := Z.land (v >>> 32) 0xFFFF in if n =? 0 then 64 * 1024 else n.
Definition prd_last (v : Z) : bool := Z.testbit v 63.

Lemma even_land a w : 0 <= w -> 0 <= a < 2 ^ (w + 1) -> Z.even a = true -> Z.land a (Z.shiftl (Z.ones w) 1) = a.
Proof.
  intros Hw Ha He. apply Z.even_spec in He as [b ->]. replace (2 * b) with (Z.shiftl b 1) by (rewrite Z.shiftl_mul_pow2 by lia; lia). rewrite <- Z.shiftl_land, Z.land_ones by lia. rewrite Z.mod_small; [done|]. rewrite Z.pow_add_r in Ha by lia. lia.
Qed.

Lemma PRD_value a c : 0 <= a < 2 ^ 32 -> Z.even a = true -> 0 <= c < 2 ^ 16 -> Z.even c = true -> PRD a c = c * 2 ^ 32 + a.
Proof.
  intros Ha Hae Hc Hce. unfold PRD. rewrite !uwrap_small by lia. change 0xFFFE with (Z.shiftl (Z.ones 15) 1). change 0xFFFFFFFE with (Z.shiftl (Z.ones 31) 1). rewrite !even_land by (done || lia). apply lor_shiftl_add; lia.
Qed.

(** The fields of a descriptor, marked last or not. *)
Lemma PRD_fields a c (last : bool) : 0 <= a < 2 ^ 32 -> Z.even a = true -> 0 <= c < 2 ^ 16 -> Z.even c = true ->
  let v := Z.lor (PRD a c) (if last then 0x8000000000000000 else 0) in
  prd_address v = a /\ prd_length v = (if c =? 0 then 64 * 1024 else c) /\ prd_last v = last.
Proof.
  intros Ha Hae Hc Hce v. assert (Ev : v = Z.lor (PRD a c) ((if last then 1 else 0) <<< 63)) by (by destruct last). rewrite PRD_value in Ev by done. unfold prd_address, prd_length, prd_last. rewrite Ev.
  change 0xFFFFFFFF with (Z.ones 32). change 0xFFFF with (Z.ones 16). rewrite !Z.shiftr_lor, !Z.land_lor_distr_l, Z.lor_spec, !Z.land_ones by lia.
  assert (E1 : ((if last then 1 else 0) <<< 63) mod 2 ^ 32 = 0) by (by destruct last). assert (E2 : (((if last then 1 else 0) <<< 63) >>> 32) mod 2 ^ 16 = 0) by (by destruct last). rewrite E1, E2, !Z.lor_0_r.
  rewrite Z.shiftr_div_pow2 by lia. rewrite Z.div_add_l by lia. rewrite (Z.div_small a) by lia. rewrite Z.add_0_r, (Z.mod_small c) by lia. rewrite Z.add_comm, Z.mod_add, Z.mod_small by lia. split; [done|]. split; [done|].
  rewrite (testbit_small 48) by lia. by destruct last.
Qed.

Section Descriptors.
Context {D : Type}.

(** The table of descriptors for a transfer by DMA.  For 1 to 65536 blocks and an even physical address below 4 GB, the descriptors cut the
    buffer into pieces of 64 KB in order, each starting where the one before it ends, the last ending where the buffer ends; only the last is marked so; they fit the page; and what is
    to be answered is the number of bytes. *)
Theorem build_prdt_correct (s : ide D) ch n phys : 0 < n <= 65536 -> 0 <= phys -> phys + 512 * n <= 2 ^ 32 -> Z.even phys = true ->
  runs (build_prdt ch false n phys) s (fun '(c, transfered) s' =>
    0 < c <= MAX_PRD_ENTRIES /\ transfered = 512 * n /\ 65536 * (c - 1) < 512 * n <= 65536 * c /\
    forall i, 0 <= i < c -> let v := prdt s' ch i in
      prd_address v = phys + 65536 * i /\ prd_length v = Z.min 65536 (512 * n - 65536 * i) /\ prd_last v = (i =? c - 1)).
Proof.
  intros Hn Hp Hfit Heven. unfold build_prdt. rewrite (proj2 (Z.eqb_neq n 0)) by lia. rewrite uwrap_small by lia. mstep. change (64 * 1024) with 65536.
  apply (runs_iterM (fun '(i, bytes, tr) s' => 0 <= i /\ bytes = 512 * n - 65536 * i /\ 0 < bytes /\ tr = 65536 * i /\ forall j, 0 <= j < i -> prdt s' ch j = PRD (phys + 65536 * j) 0) (fun '(i, _, _) _ => Z.to_nat (512 - i))).
  - intros [[i bytes] tr] s1 (Hi & -> & Hpos & -> & Hent). change MAX_PRD_ENTRIES with 512. assert (i < 512) by lia. rewrite (proj2 (Z.ltb_lt i 512)) by lia. cbn [andb]. destruct (Z.gtb_spec (512 * n - 65536 * i) 65536).
    + unfold put_prd. do 3 mstep. rewrite uwrap_small by lia. split; [|lia]. split; [lia|]. split; [lia|]. split; [lia|]. split; [lia|]. intros j Hj. cbn. rewrite fn_insert_eq. destruct (decide (i = j)) as [->|Hne]; [by rewrite fn_insert_eq|]. rewrite fn_insert_ne by done. apply Hent. lia.
    + mstep. mstep. rewrite (proj2 (Z.ltb_lt i 512)) by lia. destruct (Z.gtb_spec (512 * n - 65536 * i) 0); [|lia]. cbn [andb]. set (left := 512 * n - 65536 * i) in *. assert (Em : MIN left 65536 = left) by (unfold MIN; destruct (Z.ltb_spec left 65536); lia). rewrite Em. unfold put_prd. msteps. cbn [prdt set_prdt].
      split; [change MAX_PRD_ENTRIES with 512; lia|]. split; [rewrite uwrap_small; lia|]. split; [lia|]. replace (i + 1 - 1) with i by lia. rewrite !fn_insert_eq. intros j Hj. set (c := if left =? 65536 then 0 else left).
      assert (Hev : Z.even (phys + 65536 * j) = true) by (rewrite Z.even_add, Z.even_mul, Heven; done).
      destruct (decide (i = j)) as [<-|Hne].
      * rewrite fn_insert_eq, Z.eqb_refl. assert (Hc : 0 <= c < 2 ^ 16 /\ Z.even c = true).
        { subst c. destruct (Z.eqb_spec left 65536); [done|]. split; [lia|]. subst left. replace (512 * n - 65536 * i) with (2 * (256 * n - 32768 * i)) by lia. by rewrite Z.even_mul. }
        destruct (PRD_fields (phys + 65536 * i) c true) as (F1 & F2 & F3); [lia|done|apply Hc|apply Hc|]. split; [exact F1|]. split; [|exact F3]. rewrite F2. subst c. destruct (Z.eqb_spec left 65536) as [El|]; [cbn [Z.eqb]; lia|]. rewrite (proj2 (Z.eqb_neq left 0)) by lia. lia.
      * rewrite !fn_insert_ne by done. rewrite Hent by lia. destruct (PRD_fields (phys + 65536 * j) 0 false) as (F1 & F2 & F3); [lia|done|lia|done|]. rewrite Z.lor_0_r in F1, F2, F3. split; [exact F1|]. split; [rewrite F2; cbn [Z.eqb]; subst left; clear - Hj Hne Hpos; lia|]. rewrite F3. symmetry. apply Z.eqb_neq. lia.
  - split; [lia|]. split; [lia|]. split; [lia|]. split; [lia|]. intros j. lia.
  - lia.
Qed.
End Descriptors.

(** ** A drive *)

(** A drive on the primary channel that is busy for one look after every command and every sector, but, when it is [quick], not after one it takes; [toy_hasty]
    records that a command came while it was busy. *)
Record toy (quick : bool) := Toy { toy_view : drive_view; toy_busy : bool; toy_hasty : bool }.
Arguments Toy {quick}. Arguments toy_view {quick}. Arguments toy_busy {quick}. Arguments toy_hasty {quick}.
Definition toy_base : Z := 0x1F0.
Definition toy_ctrl : Z := 0x3F4.

Definition toy_command {quick} (v : Z) (d : toy quick) : toy quick :=
  let w := toy_view d in
  let h := toy_hasty d || toy_busy d in
  let start (ext read : bool) := let '(j, b, n) := addressed ext w in with_phase (if read then Sending (dv_sector w j <$> seqZ b n) else Taking j b n) w in
  if v =? ATA_CMD_PIO_READ then Toy (start false true) true h
  else if v =? ATA_CMD_PIO_READ_EXT then Toy (start true true) true h
  else if v =? ATA_CMD_PIO_WRITE then Toy (start false false) true h
  else if v =? ATA_CMD_PIO_WRITE_EXT then Toy (start true false) true h
  else Toy w true h.

#[global] Instance toy_ports quick : Ports (toy quick) := {
  inb := fun p => d ← get;
    if (p =? toy_base + 7) || (p =? toy_ctrl + 2) then
      if toy_busy d then put (Toy (toy_view d) false (toy_hasty d));; mret ATA_SR_BSY else mret (match dv_phase (toy_view d) with Idle => 0x50 | _ => 0x58 end)
    else mret 0;
  outb := fun p v =>
    if p =? toy_ctrl + 2 then mret tt
    else if p =? toy_base + 7 then modify (toy_command v)
    else if (toy_base + 2 <=? p) && (p <=? toy_base + 6) then modify (fun d => Toy (with_reg (p - toy_base) v (toy_view d)) (toy_busy d) (toy_hasty d))
    else mret tt;
  outl := fun _ _ => mret tt;
  insw := fun _ _ => d ← get;
    match dv_phase (toy_view d) with
    | Sending (x :: l) => put (Toy (with_phase (after_send l) (toy_view d)) true (toy_hasty d));; mret x
    | _ => mret []
    end;
  insl := fun _ _ => mret [];
  outsw := fun _ l => modify (fun d =>
    match dv_phase (toy_view d) with
    | Taking j b n => Toy (with_phase (after_take j b n) (with_sector j b l (toy_view d))) (negb quick) (toy_hasty d)
    | _ => d
    end);
}.

#[global] Instance toy_drive quick : AtaDrive (toy quick) toy_base toy_ctrl.
Proof.
  refine {| ad_view := toy_view; ad_busy := fun d => if toy_busy d then 1%nat else O; ad_patience := 2; ad_capacity := fun _ => 2 ^ 32 |}.
  - intros d. destruct (toy_busy d); lia.
  - unfold toy_base, toy_ctrl. lia.
  - intros d v. unfold outb, toy_ports. rewrite Z.eqb_refl. by mstep.
  - intros [w b h] p Hp. unfold inb, toy_ports. mstep. assert ((p =? toy_base + 7) || (p =? toy_ctrl + 2) = true) as -> by (apply orb_true_iff; rewrite !Z.eqb_eq; done). cbn [toy_busy toy_view]. destruct b; mstep; cbn [toy_busy toy_view]; msteps; [done|]. split; [done|]. by destruct (dv_phase w).
  - intros [w b h] r v Hr Hb Hi. unfold outb, toy_ports, toy_base, toy_ctrl. rewrite (proj2 (Z.eqb_neq _ (0x3F4 + 2))), (proj2 (Z.eqb_neq _ (0x1F0 + 7))), !(proj2 (Z.leb_le _ _)) by lia. cbn [andb]. mstep. cbn. by replace (0x1F0 + r - 0x1F0) with r by lia.
  - intros [w b h] ext j i n Hb Hi Ha _ _ _. unfold outb, toy_ports. change (toy_base + 7 =? toy_ctrl + 2) with false. rewrite Z.eqb_refl. mstep. unfold toy_command. cbn [toy_view] in *. destruct ext; cbn [Z.eqb Pos.eqb ATA_CMD_PIO_READ_EXT ATA_CMD_PIO_READ toy_view]; by rewrite Ha.
  - intros [w b h] x l Hb Hi. unfold insw, toy_ports. cbn [toy_view] in *. do 2 mstep. cbn [toy_view]. rewrite Hi. by msteps.
  - intros [w b h] ext j i n Hb Hi Ha _ _ _. unfold outb, toy_ports. change (toy_base + 7 =? toy_ctrl + 2) with false. rewrite Z.eqb_refl. mstep. unfold toy_command. cbn [toy_view] in *. destruct ext; cbn [Z.eqb Pos.eqb ATA_CMD_PIO_READ_EXT ATA_CMD_PIO_READ ATA_CMD_PIO_WRITE_EXT ATA_CMD_PIO_WRITE toy_view]; by rewrite Ha.
  - intros [w b h] j i n l Hb Hi Hl. unfold outsw, toy_ports. mstep. cbn [toy_view] in *. by rewrite Hi.
  - intros [w b h] ext Hb Hi. unfold outb, toy_ports. change (toy_base + 7 =? toy_ctrl + 2) with false. rewrite Z.eqb_refl. mstep. by destruct ext.
Defined.

(** Two drives whose sectors hold their number; the second is known to the driver, with 28-bit addresses. *)
Definition toy0 quick : toy quick := Toy (DriveView (fun _ => 0) (fun _ => 0) Idle (fun _ b => replicate 512 (u8 b))) false false.
Definition hd0 : ide_device := IdeDevice true 0 1 TYPE_PATA 0 ATA_FEATURE_LBA 0 1000 [] 0 1 512.
Definition ide0 quick : ide (toy quick) := Ide (fun i => IdeChannel toy_base toy_ctrl 0xC000 0x5000 false 0) (fun _ => hd0) [] (fun _ _ => 0) [] true (toy0 quick).

Lemma hd0_pio quick lba n : 0 <= lba -> 0 < n < 256 -> lba + n <= 1000 -> pio_device toy_base toy_ctrl (ide0 quick) hd0 lba n.
Proof. intros H1 H2 H3. split; try done; cbn; lia. Qed.
Lemma toy_prompt : prompt (D := toy true) toy_base toy_ctrl.
Proof. intros [w b h] j i l Hb Hi. unfold outsw, toy_ports. mstep. cbn in Hi |- *. by rewrite Hi. Qed.


Definition two_sectors : list Z := replicate 512 7 ++ replicate 512 9.

Lemma ide_write_prompt_witness :
  runs (w ← ide_write 2 0 two_sectors 300 2 0; r ← ide_read 2 0 300 2 0; mret (w, r)) (ide0 true) (fun x _ => x = (Transfered 2 [], Transfered 2 two_sectors)).
Proof.
  pose proof (ide_write_prompt toy_base toy_ctrl (ide0 true) 0 300 2 two_sectors 0 300 2 0 ltac:(lia) (hd0_pio true 300 2 ltac:(lia) ltac:(lia) ltac:(lia)) (hd0_pio true 300 2 ltac:(lia) ltac:(lia) ltac:(lia)) toy_prompt eq_refl) as H.
  eapply runs_mono; [exact H|]. intros x s' (-> & Hin & _). cbn [id_drive ide_devices ide0 hd0] in Hin |- *. rewrite Hin. exact eq_refl.
Defined.

(** A drive that keeps to the protocol, and is busy after it took the last sector, is sent the flush command while it is. *)
Example ide_write_hasty : runs (ide_write 2 0 two_sectors 300 2 0) (ide0 false) (fun _ s' => toy_hasty (hw s') = true).
Proof. vm_compute. reflexivity. Qed.

Lemma build_prdt_correct_witness :
  runs (build_prdt 0 false 129 0x100000) (ide0 false) (fun '(c, transfered) s' => c = 2 /\ transfered = 66048 /\ prd_length (prdt s' 0 1) = 512).
Proof.
  pose proof (build_prdt_correct (ide0 false) 0 129 0x100000 ltac:(lia) ltac:(lia) ltac:(lia) eq_refl) as H. eapply runs_mono; [exact H|]. intros [c tr] s' (Hc & -> & Hfit & Hall). assert (c = 2) as -> by lia.
  split; [exact eq_refl|]. split; [exact eq_refl|]. destruct (Hall 1 ltac:(lia)) as (_ & -> & _). exact eq_refl.
Defined.

(** The same with sectors of one byte, which are quicker to move. *)
Definition ide1 (d : ide_device) : ide (toy false) := set_hw (Toy (DriveView (fun _ => 0) (fun _ => 0) Idle (fun _ _ => [0])) false false) (set_ide_devices (fun _ => d) (ide0 false)).

(** Asked for no block at all, the driver reads 256, beyond any buffer. *)
Example ide_read_none : runs (ide_read 2 0 0 0 0) (ide1 hd0) (fun r _ => match r with Transfered n got => n = 256 /\ length got = 256%nat | _ => False end).
Proof. vm_compute. split; reflexivity. Qed.

(** For 256 blocks at a 48-bit address the driver asks the drive for 65536, of which it then moves 256. *)
Example ide_asks_many :
  runs (let '(mode, io, head) := ide_address ATA_FEATURE_LBA (2 ^ 28) in write_address 0 mode io head 1 256) (ide1 hd0) (fun _ s' => addressed true (ad_view (hw s')) = (1, 2 ^ 28, 65536)).
Proof. vm_compute. reflexivity. Qed.
